(* ===== verification/_CoqProject ===== *)
-Q . S2P
Prelude.v
WalReader.v
Ltx.v
Levels.v
Streams.v
RestorePlan.v
Compactor.v
Replica.v
V3.v
Leaser.v
Follow.v
Db.v
Retention.v
PageIndex.v
Vfs.v
VfsWrite.v
Hydration.v
Snapshot.v
Shutdown.v
Pipeline.v
Init.v
Store.v
StoreTasks.v
Server.v
Restore.v
Sdk.v
Urls.v
Peer.v
FileClient.v
S3Config.v
S3Client.v
ReplicaConfig.v
Config.v
Directory.v
DirWatch.v
RemoteFiles.v
NatsClient.v
VfsTemp.v
VfsControl.v
Command.v
Locks.v
Control.v
Commands.v
VfsDisable.v
Helpers.v
Text.v
Flags.v
Mcp.v
Validate.v
Load.v
