(* ===== verification/Prelude.v ===== *)
(** * Replicate: a verification development

    Replicate (the Go module under src/) streams the changes of a SQLite database to a
    storage and restores databases from there.  This library models the parts of the
    program that carry its logic as functions on explicit states, and proves the
    properties that make them correct.

    ** The program

    SQLite appends committed pages to a write-ahead log (WAL).  A [DB] (src/db.go) reads
    the frames after its last position with a WAL reader (src/wal_reader.go), writes
    them to a numbered LTX file of level 0 on disk, and checkpoints the WAL when it
    has grown.  A [Replica] (src/replica.go) uploads the LTX files in order through a
    [ReplicaClient] (src/replica_client.go), sealed with age when recipients are
    configured.  A [Compactor] (src/compactor.go) merges the files of a level into the
    next one (src/compaction_level.go) and applies retention; a [Store]
    (src/store.go) keeps the databases of a process, schedules their compactions and
    snapshots and reports their health (src/heartbeat.go).  A restore computes a plan,
    a chain of files from a snapshot to the wanted transaction, and applies it;
    follow mode keeps applying new files to a local copy.  Copies in the format of
    version 3 are restored from their own snapshots and WAL segments (src/v3.go).  The
    SQLite VFS (src/vfs.go) serves reads straight from the storage and can write back,
    and leases (src/leaser.go, src/file/leaser.go, src/s3/leaser.go) keep one writer.
    A control server (src/server.go) registers, starts and stops databases of a running
    process; programs that embed the library stream and restore through src/sdk.go, with
    replicas named by URLs (src/replica_url.go).  A peer (src/peer/peer.go) sends each LTX
    file to a standby that acknowledges it.  The clients keep a replica in a directory (src/file),
    an S3 bucket (src/s3), on an SFTP or WebDAV server (src/sftp, src/webdav) or in an object
    store of NATS (src/nats).  The command line (src/cmd/replicate) reads a configuration, makes
    databases and replicas of it, watches directories for databases that come and go, and runs
    the store until it is stopped.

    ** The files

    - Prelude (this file): machine integers, errors, results with the notation
      [m wrapping text], times, byte order, [io.ReaderAt], automation and shared lemmas.
    - WalReader (src/wal_reader.go): [readHeader], [ReadFrame] with salts and running
      checksum, [PageMap], [FrameSaltsUntil], over a file that changes between reads.
    - Ltx (src/replica_client.go, src/replicate.go): file infos, the client interface as a
      class with its laws, [FindLTXFiles], LTX errors, and a client in memory.
    - Levels (src/compaction_level.go): levels, their validation and compaction times.
    - Streams (src/internal): resumable and limited readers, pipes, sealed streams.
    - RestorePlan (src/replica.go): [CalcRestorePlan] with its level cursors.
    - Compactor (src/compactor.go): [Compact] and the retention policies.
    - Replica (src/replica.go): [Sync], encrypted reads and writes, the monitor loop,
      time bounds, validation of levels.
    - V3 (src/v3.go, src/replica.go): names and restore of version 3 copies.
    - Leaser: both lease implementations as step relations on a shared object.
    - Follow (src/replica.go): follow mode of a restored file, gaps included.
    - Db (src/db.go): position cache, verification of the WAL, LTX creation and
      checkpoints, with SQLite as an interface and other connections in between.
    - Retention (src/db.go, src/store.go): retention across the levels.
    - PageIndex (src/replica_client.go): fetching page indexes and single pages.
    - Vfs, VfsWrite, Hydration (src/vfs.go): reading and following, writing, with the buffer files
      that several files of a VFS may share, and the local copy of a VFS file, made while polls run.
    - Snapshot (src/db.go): [SnapshotReader] and its goroutine.
    - Shutdown (src/db.go): [syncReplicaWithRetry], [Close] and the monitor loop.
    - Pipeline (src/db.go): [SyncAndWait], the database and the replica together.
    - Init (src/db.go): [init], [checkDatabaseBehindReplica], [EnsureExists], and the position cache
      through all operations on the local files.
    - Store, StoreTasks (src/store.go, src/heartbeat.go): the registry as interleaved steps,
      scheduled work, forced syncs, validation and heartbeats.
    - Server (src/server.go): the handlers of the control server over the registry.
    - Restore (src/replica.go): [Restore] and [RestoreV3] with their files and failures.
    - Sdk (src/sdk.go): [AutoReplicate], [Stream], [Restore] and the encryption policy.
    - Urls (src/replica_url.go, src/sharded_prefix.go): replica paths, access point ARNs,
      endpoints, sharded keys.
    - Peer (src/peer/peer.go): wire format, pooled reads, client and standby.
    - FileClient (src/file/replica_client.go): the client on a directory, with proofs of the laws
      that the other files ask of a client.
    - S3Config, S3Client (src/s3/replica_client.go): settings, endpoints and keys of the client; its
      requests, listings page by page, multipart uploads and deletions over an object API.
    - RemoteFiles (src/sftp/replica_client.go, src/webdav/replica_client.go): both clients over a remote
      file system whose calls fail and whose copies break off.
    - NatsClient (src/nats/replica_client.go): the connection and the operations on a bucket.
    - ReplicaConfig, Config (src/cmd/replicate/main.go): replica settings and the clients made from
      them; reading, defaults and validation of the configuration file.
    - Directory, DirWatch (src/cmd/replicate/main.go, src/cmd/replicate/directory_watcher.go): the
      databases of a directory, and the monitor that follows the directory.
    - VfsTemp, VfsControl (src/vfs.go): opening files, temporary files and journals; snapshots,
      background tasks and pragmas of a VFS file, connections.
    - Command (src/cmd/replicate/replicate.go, main.go, src/store.go): flags, start, one-shot
      replication and the end of the replicate command; settings and tasks of the store.
    - Locks (src/dblock/dblock_unix.go): record locks of a database file, taken and released as
      steps of processes that also read and write it.
    - Control (src/server.go, src/cmd/replicate): routes, bodies and socket of the control server, and
      the commands start, stop, register, unregister, sync, list and info that talk to it; a handler whose
      client gave up goes on in steps.
    - Commands (src/cmd/replicate): the commands restore, ltx, databases, status and reset.
    - VfsDisable (src/vfs.go): any number of calls that disable writes while transactions run, with the
      mutex, the condition variable and the goroutines of the timeouts.
    - Helpers (src/internal/internal.go, src/replicate.go): directories and files with the mode and owner of
      the database, removal of temporary files.
    - Text, Flags: characters, fields, lines and tables of text; the parser of flags and the flags of the
      commands in Commands.
    - Mcp (src/cmd/replicate/mcp.go): the tools for assistants, which run the commands.
    - Validate, Load (src/cmd/replicate-test): the test tool that validates a replica by restoring it, and
      those that fill a database and put load on it.

    ** How the code is modelled

    A call that can fail returns a [result]: a value, an error built the way the code
    builds it (so that [errors.Is] can be asked of it), or a panic.  State is passed
    explicitly.  Failures of the system are arguments: an environment says which file
    operation fails, and a client is any type with the operations of the interface.
    What other parties do is part of the statements: other connections change the
    files at named points of a call, the storage changes between attempts, and
    concurrent goroutines are steps of a relation whose interleavings are arbitrary.
    The age and ltx packages, SQLite and the S3 API are parameters or classes; the
    laws a theorem needs of them are its hypotheses, and a small instance shows that
    they can hold.  The laws of the client interface are proved of the clients for files, S3,
    SFTP and WebDAV.

    ** What is proved

    - End to end: what [SyncAndWait] acknowledges is in the storage, complete, and
      restores to the database as of the last commit, also when the sync truncates the WAL
      (Pipeline); each sync and truncating checkpoint extends the level-0 files so that they
      restore to what SQLite reads, unless somebody commits between its check of the WAL and
      SQLite's statement (Db); a cached position is that of the directory (Init); snapshots restore to the same database (Snapshot); a restore plan is a
      chain without gaps, is found whenever there is one, and is the latest one
      (RestorePlan); retention deletes nothing such a plan needs (Retention); a restore
      that does not choose a version 3 backup writes exactly the database of a transaction of
      the history or nothing, the last
      acknowledged one when the storage holds the history, and a version 3
      restore replays all chosen segments (Restore).
    - Reading: the page map of a WAL is that of its committed frames, resuming at an
      offset is reading from the start, and the WAL format reads back (WalReader); the
      follower applies exactly the files after its position and makes progress
      (Follow); reads through the VFS show one transaction, polls advance it, writes
      are published as they were made, with one writer at a time (Vfs, VfsWrite,
      Hydration).
    - Replication: uploads are in order and without gaps, encryption fails closed and
      round-trips (Replica, Compactor); level-0 transaction numbers are not reused after a
      restore (Init); the shutdown loop ends and tells the truth (Shutdown); embedding
      programs never write plaintext unless it is allowed (Sdk); what a peer acknowledged
      is in the sink of the standby (Peer); writes to a directory are atomic whatever
      fails (FileClient).
    - Storage: a listing of the S3 client has exactly the files of a level, however it is paged
      (S3Client), and without HTTPS a customer key is used only with an endpoint that is local,
      private or not a URL (S3Config); WebDAV keeps the promises of a storage, SFTP those that do
      not need atomic writes (RemoteFiles); NATS lists, opens and deletes exactly what it stored
      (NatsClient).
    - Configuration and directories: a replica made from a configuration requires encryption unless
      plaintext is allowed explicitly (ReplicaConfig), and a configuration that is read is valid
      (Config); databases of a directory have separate metadata and, below a configured path,
      replica paths (Directory); the monitor keeps its tables in step with the store and, when nothing
      fails, comes to rest with exactly the databases of the directory (DirWatch); starting the command never changes
      a database that exists, and one-shot replication that succeeds has replicated all (Command).
    - The rest of the VFS: temporary files of different names do not touch each other (VfsTemp),
      a snapshot from remote files has the pages of the database at its position (VfsControl), and
      whoever waits for the end of a transaction or of disabling is woken by it, though not always by
      the timeout (VfsDisable).
    - Commands: through flags, socket and bodies, and whatever messages are lost, the control
      commands implement a map from paths to whether a database is open, when handlers end before the
      next command (Control); a restore
      changes no file that exists except its temporary one, the ltx command lists exactly the files of its levels and
      reset touches only local state (Commands); the exclusive lock excludes every reader and writer of
      other processes, and the processes that take it do not block each other for ever (Locks); [MkdirAll] makes exactly the missing
      ancestors (Helpers).
    - Tools: the arguments that a tool makes of a request mean what was asked, and no request makes the
      restore tool change a file that exists (Mcp); a validation that succeeds has restored a
      database of the replica and every check of its type has passed (Validate); filling a table ends with
      exactly the rows that were asked for (Load).
    - Coordination: at most one lease holder (Leaser), unique registered paths in every
      interleaving, truthful heartbeats, at most one compaction per window (Store,
      StoreTasks); the control server behaves as a map from paths to whether a database is
      open (Server); replica paths cannot leave their root (Urls).

    Modules named Anomalies or Demo hold small executions, among them those that show
    where the code does not do what its comments say.

    ** Fuel

    Loops that are not structural carry fuel, and the theorems give an amount that is
    enough: [wal_fuel] is the size of the WAL in bytes plus one; an upload
    loop runs once per missing transaction; the restore plan once per listed file; the
    shutdown loop [timeout / interval + 2] times; a resumable read once per byte plus one.  Running out of fuel is a panic that no
    theorem about a successful result allows; that of the shutdown loop shows that it never happens.

    ** Not modelled

    The packages below the clients (the AWS SDK, the ssh, sftp, WebDAV and NATS packages) answer as
    environments.  The loadable extension (src/cmd/replicate-vfs) is a binding to C; shrink of
    src/cmd/replicate-test only sends SQL, and src/internal/testingutil serves tests.  They are
    left out with logging, metrics, the server around the tools for assistants, the text of JSON and YAML, net/url, the
    flags of the replicate and control commands, the HTTP transport below the control socket and the framing of peer
    messages, as are tickers, timers and the starting of goroutines around the modelled steps.  The
    record locks of Windows are not modelled.  Parts of db.go that only drive the SQL connection appear
    as answers of the system.

    Further work: the background tasks of src/vfs.go that repeat those of the store. *)

From Stdlib Require Import ZArith Lia Strings.Byte.
From stdpp Require Import base numbers list strings gmap sorting.

(** ** Machine integers

    Go's unsigned integers wrap around; [u32] and [u64] are the reduction that
    every arithmetic operation at that width applies to its result.  [int64]
    arithmetic of the sources stays far from its bounds wherever it is used
    (offsets, sizes, durations) and is kept in [Z]. *)
Definition u8 (z : Z) : Z := (z mod 256)%Z.
Definition u32 (z : Z) : Z := (z mod 2 ^ 32)%Z.
Definition u64 (z : Z) : Z := (z mod 2 ^ 64)%Z.

(** ** Errors

    A Go [error] value as the sources build and inspect it: sentinel variables
    ([EVar]), plain messages ([EMsg]), messages that wrap a cause with the
    [%w] verb ([EWrap]), [*os.PathError] values ([EPath]) and the error structs
    declared by the package.  Formatted arguments of a message are not kept:
    no code of the package reads them back. *)
Inductive error : Type :=
| EVar (name : string)
| EMsg (text : string)
| EWrap (text : string) (cause : error)
| EPath (op : string) (cause : error)
| ELTX (op path : string) (level minTXID maxTXID : Z) (cause : error) (hint : string)
| EPrevFrame (cause : error)
| ELeaseExists (owner : string) (expiresAt : Z)
| EDBNotReady (reason : string)
| EJoin (e1 e2 : error).

#[export] Instance error_eq_dec : EqDecision error.
Proof. solve_decision. Defined.

Definition io_EOF : error := EVar "EOF".
Definition ErrNotExist : error := EVar "file does not exist".
Definition ErrExist : error := EVar "file already exists".
Definition ErrCanceled : error := EVar "context canceled".
Definition ErrDeadlineExceeded : error := EVar "context deadline exceeded".

(** [errors.Is]: the error or one of the causes it wraps is the target. *)
Fixpoint errors_Is (e target : error) : bool :=
  bool_decide (e = target) ||
  match e with
  | EWrap _ c | EPath _ c | ELTX _ _ _ _ _ c _ | EPrevFrame c => errors_Is c target
  | EJoin e1 e2 => errors_Is e1 target || errors_Is e2 target
  | EDBNotReady _ => match target with EDBNotReady _ => true | _ => false end
  | _ => false
  end.

(** [os.IsNotExist] looks below [*os.PathError] only: unlike [errors.Is] it does
    not follow [%w] wrapping. *)
Definition os_IsNotExist (e : error) : bool :=
  match e with
  | EPath _ c => bool_decide (c = ErrNotExist)
  | _ => bool_decide (e = ErrNotExist)
  end.

(** ** Results

    A call that returns, fails with an error, or panics. *)
Inductive result (A : Type) : Type :=
| Ok (a : A)
| Err (e : error)
| Panic (msg : string).
Arguments Ok {A} _.
Arguments Err {A} _.
Arguments Panic {A} _.

#[export] Instance result_ret : MRet result := fun A a => Ok a.
#[export] Instance result_bind : MBind result := fun A B k m =>
  match m with Ok a => k a | Err e => Err e | Panic s => Panic s end.

Definition wrap_err {A} (text : string) (m : result A) : result A :=
  match m with Err e => Err (EWrap text e) | r => r end.

Declare Scope go_scope.
Delimit Scope go_scope with go.
Notation "m 'wrapping' text" := (wrap_err text%string m)
  (at level 90, text at next level) : go_scope.
Open Scope go_scope.

Definition is_ok {A} (m : result A) : bool :=
  match m with Ok _ => true | _ => false end.

Definition is_panic {A} (m : result A) : bool :=
  match m with Panic _ => true | _ => false end.

(** [assert] of replicate.go. *)
Definition assert (condition : bool) (message : string) : result () :=
  if condition then Ok () else Panic ("assertion failed: " +:+ message).

(** ** Times

    A [time.Time] is the number of nanoseconds since Go's zero time (January 1,
    year 1), so that the zero value is 0; a [time.Duration] is a number of
    nanoseconds. *)
Abbreviation time := Z (only parsing).
Abbreviation duration := Z (only parsing).

Definition Second : duration := (1000 * 1000 * 1000)%Z.
Definition Minute : duration := (60 * Second)%Z.
Definition Hour : duration := (60 * Minute)%Z.

Definition time_IsZero (t : time) : bool := (t =? 0)%Z.
Definition time_Before (t u : time) : bool := (t <? u)%Z.
Definition time_After (t u : time) : bool := (u <? t)%Z.

(** [Time.Truncate] rounds down to a multiple of [d] since the zero time and
    returns the time unchanged when [d <= 0]. *)
Definition time_Truncate (t : time) (d : duration) : time :=
  if (d <=? 0)%Z then t else (t - t mod d)%Z.

(** [time.UnixMilli]: the Unix epoch is 62135596800 seconds after the zero time. *)
Definition time_UnixMilli (ms : Z) : time := (62135596800 * Second + ms * 1000000)%Z.

(** ** Bytes

    [byteZ] is a byte as an integer; the [Uint32]/[Uint64] functions of
    [encoding/binary] read the first four or eight bytes of a slice.  They panic
    on a shorter slice, which no caller passes; the model returns 0 there. *)
Definition byteZ (b : byte) : Z := Z.of_N (Byte.to_N b).

#[export] Instance byte_eq_decision : EqDecision byte := Byte.byte_eq_dec.

Definition Zbyte (z : Z) : byte :=
  match Byte.of_N (Z.to_N (z mod 256)) with Some b => b | None => x00 end.

Inductive ByteOrder : Type := LittleEndian | BigEndian.

#[export] Instance ByteOrder_eq_dec : EqDecision ByteOrder.
Proof. solve_decision. Defined.

Definition Uint32 (bo : ByteOrder) (b : list byte) : Z :=
  match b with
  | b0 :: b1 :: b2 :: b3 :: _ =>
      match bo with
      | BigEndian =>
          Z.lor (byteZ b3) (Z.lor (Z.shiftl (byteZ b2) 8)
            (Z.lor (Z.shiftl (byteZ b1) 16) (Z.shiftl (byteZ b0) 24)))
      | LittleEndian =>
          Z.lor (byteZ b0) (Z.lor (Z.shiftl (byteZ b1) 8)
            (Z.lor (Z.shiftl (byteZ b2) 16) (Z.shiftl (byteZ b3) 24)))
      end
  | _ => 0%Z
  end.

(** The four bytes of a 32-bit integer, most significant first. *)
Definition PutUint32BE (z : Z) : list byte :=
  [Zbyte (Z.shiftr z 24); Zbyte (Z.shiftr z 16); Zbyte (Z.shiftr z 8); Zbyte z].

(** ** io.ReaderAt

    A reader maps a requested length and an offset to the bytes it read and the
    error it returned.  [file_readAt] is the documented behaviour of [*os.File]
    and [*bytes.Reader] on a file with the given contents: as many bytes as the
    file has at that offset, and [io.EOF] when there are fewer than requested. *)
Definition ReaderAt : Type := Z -> Z -> list byte * option error.

Definition slice (data : list byte) (off n : Z) : list byte :=
  take (Z.to_nat n) (drop (Z.to_nat off) data).

Definition file_readAt (data : list byte) : ReaderAt := fun n off =>
  let b := slice data off n in
  (b, if (Z.of_nat (length b) <? n)%Z then Some io_EOF else None).

(** ** Automation *)

(** Reflects the boolean comparisons in the context and the goal. *)
Ltac breflect :=
  repeat match goal with
  | H : _ && _ = true |- _ => apply andb_true_iff in H as [? ?]
  | H : _ || _ = false |- _ => apply orb_false_iff in H as [? ?]
  | H : negb _ = true |- _ => apply negb_true_iff in H
  | H : negb _ = false |- _ => apply negb_false_iff in H
  | H : (_ =? _)%Z = true |- _ => apply Z.eqb_eq in H
  | H : (_ =? _)%Z = false |- _ => apply Z.eqb_neq in H
  | H : (_ <? _)%Z = true |- _ => apply Z.ltb_lt in H
  | H : (_ <? _)%Z = false |- _ => apply Z.ltb_ge in H
  | H : (_ <=? _)%Z = true |- _ => apply Z.leb_le in H
  | H : (_ <=? _)%Z = false |- _ => apply Z.leb_gt in H
  | H : bool_decide _ = true |- _ => apply bool_decide_eq_true in H
  | H : bool_decide _ = false |- _ => apply bool_decide_eq_false in H
  end.

(** Case analysis on the tests of the code, in the goal or in a hypothesis. *)
Ltac case_if :=
  match goal with
  | |- context [if ?b then _ else _] => let E := fresh "E" in destruct b eqn:E
  | H : context [if ?b then _ else _] |- _ => let E := fresh "E" in destruct b eqn:E
  end.

Ltac bcases := repeat (case_if; simplify_eq/=); breflect.

(** Shared lemmas about bytes, slices and words live in this database. *)
Create HintDb replicate discriminated.

Lemma byteZ_range b : (0 <= byteZ b < 256)%Z.
Proof.
  unfold byteZ. pose proof (Byte.to_N_bounded b). lia.
Qed.

Lemma u32_range z : (0 <= u32 z < 2 ^ 32)%Z.
Proof. apply Z.mod_pos_bound. lia. Qed.

Lemma u32_small z : (0 <= z < 2 ^ 32)%Z -> u32 z = z.
Proof. apply Z.mod_small. Qed.

Lemma u64_range z : (0 <= u64 z < 2 ^ 64)%Z.
Proof. apply Z.mod_pos_bound. lia. Qed.

Lemma u64_small z : (0 <= z < 2 ^ 64)%Z -> u64 z = z.
Proof. apply Z.mod_small. Qed.

#[export] Hint Resolve byteZ_range u32_range u64_range : replicate.

Local Open Scope Z_scope.

Lemma byteZ_Zbyte z : byteZ (Zbyte z) = z mod 256.
Proof.
  unfold Zbyte, byteZ. pose proof (Z.mod_pos_bound z 256).
  destruct (Byte.of_N (Z.to_N (z mod 256))) as [b|] eqn:E.
  - apply Byte.to_of_N in E. rewrite E. lia.
  - exfalso. apply Byte.of_N_None_iff in E. lia.
Qed.

(** Bit [n] of the byte at position [k] of [z], put back in place. *)
Lemma testbit_byte_at z k n :
  0 <= k -> 0 <= n ->
  Z.testbit (Z.shiftl (Z.shiftr z k mod 256) k) n = (k <=? n) && (n <? k + 8) && Z.testbit z n.
Proof.
  intros Hk Hn. rewrite Z.shiftl_spec by lia. change 256 with (2 ^ 8).
  destruct (Z.leb_spec k n).
  - rewrite Z.testbit_mod_pow2, Z.shiftr_spec by lia.
    replace (n - k + k) with n by lia. simpl. f_equal.
    destruct (Z.ltb_spec (n - k) 8), (Z.ltb_spec n (k + 8)); lia.
  - rewrite Z.testbit_neg_r by lia. done.
Qed.

Lemma Uint32_Put z rest : Uint32 BigEndian (PutUint32BE z ++ rest) = u32 z.
Proof.
  cbn [PutUint32BE app Uint32]. rewrite !byteZ_Zbyte. unfold u32.
  apply Z.bits_inj'. intros n Hn. rewrite !Z.lor_spec, !testbit_byte_at by lia.
  rewrite Z.testbit_mod_pow2 by lia. change 256 with (2 ^ 8). rewrite Z.testbit_mod_pow2 by lia.
  destruct (Z.testbit z n); rewrite ?andb_true_r, ?andb_false_r; [|done].
  destruct (Z.ltb_spec n 8), (Z.leb_spec 8 n), (Z.ltb_spec n (8+8)), (Z.leb_spec 16 n),
    (Z.ltb_spec n (16+8)), (Z.leb_spec 24 n), (Z.ltb_spec n (24+8)), (Z.ltb_spec n 32); simpl; lia || done.
Qed.

Lemma Uint32_lor_range b0 b1 b2 b3 :
  0 <= Z.lor (byteZ b3) (Z.lor (Z.shiftl (byteZ b2) 8)
            (Z.lor (Z.shiftl (byteZ b1) 16) (Z.shiftl (byteZ b0) 24))) < 2^32.
Proof.
  set (x := Z.lor _ _).
  assert (x = x mod 2^32) as ->; [|apply Z.mod_pos_bound; lia].
  apply Z.bits_inj'. intros n Hn. rewrite Z.testbit_mod_pow2 by lia.
  destruct (Z.ltb_spec n 32); [done|]. simpl. subst x.
  rewrite !Z.lor_spec, !Z.shiftl_spec by lia.
  assert (forall b m, 8 <= m -> Z.testbit (byteZ b) m = false) as Hb.
  { intros b m Hm. pose proof (byteZ_range b) as Hr.
    destruct (Z.eq_dec (byteZ b) 0) as [->|]; [apply Z.bits_0|].
    apply Z.bits_above_log2; [lia|]. apply Z.log2_lt_pow2; [lia|].
    apply Z.lt_le_trans with (2^8); [lia|]. apply Z.pow_le_mono_r; lia. }
  rewrite !Hb by lia. done.
Qed.

Lemma Uint32_range bo b : 0 <= Uint32 bo b < 2^32.
Proof.
  destruct b as [|b0 [|b1 [|b2 [|b3 b]]]]; simpl; try lia.
  destruct bo; apply Uint32_lor_range.
Qed.

(** Reading exactly the middle part of a file. *)
Lemma file_readAt_mid pre mid post n off :
  off = Z.of_nat (length pre) -> n = Z.of_nat (length mid) ->
  file_readAt (pre ++ mid ++ post) n off = (mid, None).
Proof.
  intros -> ->. unfold file_readAt, slice.
  rewrite !Nat2Z.id, drop_app_length, take_app_length.
  case_if; breflect; [lia | done].
Qed.

#[export] Hint Resolve Uint32_range : replicate.
