(* ===== verification/WalReader.v ===== *)
(** * The SQLite WAL reader (src/wal_reader.go)

    [WALReader] parses the frames of a write-ahead log that SQLite may be
    appending to at the same time, checks salts and the running checksum, and
    builds the map from each page to the offset of its latest committed version
    ([PageMap]).  The file is read through an [io.ReaderAt] whose contents may
    change between two calls: [wr_read r k] is the reader as the [k]-th call
    sees it, and [wr_clock] counts the calls made so far. *)

From S2P Require Import Prelude.
From Stdlib Require Import ZArith Lia Strings.Byte.
From stdpp Require Import base numbers list strings gmap sorting.
Local Open Scope Z_scope.

Definition WALHeaderSize : Z := 32.
Definition WALFrameHeaderSize : Z := 24.

(** ** Checksums *)

Fixpoint checksum_units (bo : ByteOrder) (s0 s1 : Z) (b : list byte) : Z * Z :=
  match b with
  | b0 :: b1 :: b2 :: b3 :: b4 :: b5 :: b6 :: b7 :: rest =>
      let s0 := u32 (s0 + u32 (Uint32 bo [b0; b1; b2; b3] + s1)) in
      let s1 := u32 (s1 + u32 (Uint32 bo [b4; b5; b6; b7] + s0)) in
      checksum_units bo s0 s1 rest
  | _ => (s0, s1)
  end.

Definition WALChecksum (bo : ByteOrder) (s0 s1 : Z) (b : list byte) : result (Z * Z) :=
  _ ← assert (Z.of_nat (length b) mod 8 =? 0) "misaligned checksum byte slice";
  Ok (checksum_units bo s0 s1 b).

(** ** The reader *)

(** How [readerSize] learns the size of the underlying reader: from [Stat]
    (an [*os.File]), from [Size] (a [*bytes.Reader]), or not at all. *)
Inductive size_source : Type :=
| HasStat (stat : result Z)
| HasSize (n : Z)
| NoSize.

Record WALReader : Type := {
  wr_read : nat -> ReaderAt;
  wr_source : size_source;
  wr_size : Z;
  wr_frameN : Z;
  wr_bo : ByteOrder;
  wr_pageSize : Z;
  wr_seq : Z;
  wr_salt1 : Z;
  wr_salt2 : Z;
  wr_chksum1 : Z;
  wr_chksum2 : Z;
  wr_clock : nat
}.

Definition PageSize (r : WALReader) : Z := wr_pageSize r.

(** [frameSize] as the code computes it, in 32 bits. *)
Definition frameSize (r : WALReader) : Z := u32 (wr_pageSize r + WALFrameHeaderSize).

Definition Offset (r : WALReader) : Z :=
  if wr_frameN r =? 0 then 0
  else WALHeaderSize + (wr_frameN r - 1) * (WALFrameHeaderSize + wr_pageSize r).

Definition beyondBound (r : WALReader) (off n : Z) : bool :=
  (0 <? wr_size r) && (wr_size r <? off + n).

Definition readerSize (src : size_source) : result Z :=
  match src with
  | HasStat stat => stat
  | HasSize n => Ok n
  | NoSize => Ok 0
  end.

Definition tick (k : nat) (r : WALReader) : WALReader :=
  {| wr_read := wr_read r; wr_source := wr_source r; wr_size := wr_size r;
     wr_frameN := wr_frameN r; wr_bo := wr_bo r; wr_pageSize := wr_pageSize r;
     wr_seq := wr_seq r; wr_salt1 := wr_salt1 r; wr_salt2 := wr_salt2 r;
     wr_chksum1 := wr_chksum1 r; wr_chksum2 := wr_chksum2 r;
     wr_clock := wr_clock r + k |}.

Definition set_chksum (c1 c2 : Z) (r : WALReader) : WALReader :=
  {| wr_read := wr_read r; wr_source := wr_source r; wr_size := wr_size r;
     wr_frameN := wr_frameN r; wr_bo := wr_bo r; wr_pageSize := wr_pageSize r;
     wr_seq := wr_seq r; wr_salt1 := wr_salt1 r; wr_salt2 := wr_salt2 r;
     wr_chksum1 := c1; wr_chksum2 := c2; wr_clock := wr_clock r |}.

Definition set_salt (s1 s2 : Z) (r : WALReader) : WALReader :=
  {| wr_read := wr_read r; wr_source := wr_source r; wr_size := wr_size r;
     wr_frameN := wr_frameN r; wr_bo := wr_bo r; wr_pageSize := wr_pageSize r;
     wr_seq := wr_seq r; wr_salt1 := s1; wr_salt2 := s2;
     wr_chksum1 := wr_chksum1 r; wr_chksum2 := wr_chksum2 r; wr_clock := wr_clock r |}.

Definition set_frameN (n : Z) (r : WALReader) : WALReader :=
  {| wr_read := wr_read r; wr_source := wr_source r; wr_size := wr_size r;
     wr_frameN := n; wr_bo := wr_bo r; wr_pageSize := wr_pageSize r;
     wr_seq := wr_seq r; wr_salt1 := wr_salt1 r; wr_salt2 := wr_salt2 r;
     wr_chksum1 := wr_chksum1 r; wr_chksum2 := wr_chksum2 r; wr_clock := wr_clock r |}.

(** A partial header and a header whose checksum fails mean an empty WAL (EOF);
    a wrong magic or version is an error of its own. *)
Definition readHeader (r : WALReader) : result WALReader :=
  size ← (readerSize (wr_source r) wrapping "wal size");
  let '(hdr, err) := wr_read r (wr_clock r) WALHeaderSize 0 in
  if Z.of_nat (length hdr) <? WALHeaderSize then Err io_EOF else
  match err with
  | Some e => Err e
  | None =>
      let magic := Uint32 BigEndian hdr in
      bo ← (if magic =? 0x377f0682 then Ok LittleEndian
            else if magic =? 0x377f0683 then Ok BigEndian
            else Err (EMsg "invalid wal header magic"));
      let chksum1 := Uint32 BigEndian (drop 24 hdr) in
      let chksum2 := Uint32 BigEndian (drop 28 hdr) in
      '(v0, v1) ← WALChecksum bo 0 0 (take 24 hdr);
      if negb (v0 =? chksum1) || negb (v1 =? chksum2) then Err io_EOF else
      let version := Uint32 BigEndian (drop 4 hdr) in
      if negb (version =? 3007000) then Err (EMsg "unsupported wal version") else
      Ok {| wr_read := wr_read r; wr_source := wr_source r; wr_size := size;
            wr_frameN := wr_frameN r; wr_bo := bo;
            wr_pageSize := Uint32 BigEndian (drop 8 hdr);
            wr_seq := Uint32 BigEndian (drop 12 hdr);
            wr_salt1 := Uint32 BigEndian (drop 16 hdr);
            wr_salt2 := Uint32 BigEndian (drop 20 hdr);
            wr_chksum1 := chksum1; wr_chksum2 := chksum2;
            wr_clock := S (wr_clock r) |}
  end.

(** A reader before its header is read. *)
Definition fresh_reader (rd : nat -> ReaderAt) (src : size_source) : WALReader :=
  {| wr_read := rd; wr_source := src; wr_size := 0; wr_frameN := 0;
     wr_bo := LittleEndian; wr_pageSize := 0; wr_seq := 0; wr_salt1 := 0;
     wr_salt2 := 0; wr_chksum1 := 0; wr_chksum2 := 0; wr_clock := 0 |}.

Definition NewWALReader (rd : nat -> ReaderAt) (src : size_source) : result WALReader :=
  readHeader (fresh_reader rd src).

(** A frame delivered to the caller: page number, commit size and page data. *)
Definition frame_result : Type := Z * Z * list byte.

(** The checks of [readFrame] on a frame header and page that were read in full. *)
Definition checkFrame (r : WALReader) (hdr data : list byte) (verifyChecksum : bool)
    : result frame_result * WALReader :=
  let salt1 := Uint32 BigEndian (drop 8 hdr) in
  let salt2 := Uint32 BigEndian (drop 12 hdr) in
  if negb (wr_salt1 r =? salt1) || negb (wr_salt2 r =? salt2) then (Err io_EOF, r) else
  let chksum1 := Uint32 BigEndian (drop 16 hdr) in
  let chksum2 := Uint32 BigEndian (drop 20 hdr) in
  let pgno := Uint32 BigEndian hdr in
  let commit := Uint32 BigEndian (drop 4 hdr) in
  if verifyChecksum then
    match ('(a1, a2) ← WALChecksum (wr_bo r) (wr_chksum1 r) (wr_chksum2 r) (take 8 hdr);
           WALChecksum (wr_bo r) a1 a2 data) with
    | Ok (c1, c2) =>
        let r := set_chksum c1 c2 r in
        if negb (c1 =? chksum1) || negb (c2 =? chksum2) then (Err io_EOF, r)
        else (Ok (pgno, commit, data), set_frameN (wr_frameN r + 1) r)
    | Err e => (Err e, r)
    | Panic s => (Panic s, r)
    end
  else
    let r := set_chksum chksum1 chksum2 r in
    (Ok (pgno, commit, data), set_frameN (wr_frameN r + 1) r).

(** [readFrame] into a buffer of [dataLen] bytes. *)
Definition readFrame (r : WALReader) (dataLen : Z) (verifyChecksum : bool)
    : result frame_result * WALReader :=
  if negb (dataLen =? wr_pageSize r) then
    (Err (EMsg "WALReader.ReadFrame(): buffer size must match page size"), r) else
  let offset := WALHeaderSize + wr_frameN r * frameSize r in
  if beyondBound r offset (frameSize r) then (Err io_EOF, r) else
  let '(hdr, err) := wr_read r (wr_clock r) WALFrameHeaderSize offset in
  let r := tick 1 r in
  if negb (Z.of_nat (length hdr) =? WALFrameHeaderSize) then (Err io_EOF, r) else
  match err with Some e => (Err e, r) | None =>
  let '(data, err) := wr_read r (wr_clock r) dataLen (offset + WALFrameHeaderSize) in
  let r := tick 1 r in
  if negb (Z.of_nat (length data) =? dataLen) then (Err io_EOF, r) else
  match err with Some e => (Err e, r) | None =>
  checkFrame r hdr data verifyChecksum
  end end.

Definition ReadFrame (r : WALReader) (dataLen : Z) : result frame_result * WALReader :=
  readFrame r dataLen true.

Definition NewWALReaderWithOffset (rd : nat -> ReaderAt) (src : size_source)
    (offset salt1 salt2 : Z) : result WALReader :=
  if offset <=? WALHeaderSize then
    Err (EMsg "offset must be greater than the wal header size") else
  r ← (readHeader (fresh_reader rd src) wrapping "read header");
  let r := set_salt salt1 salt2 r in
  if frameSize r =? 0 then Panic "integer divide by zero" else
  if negb (Z.rem (offset - WALHeaderSize) (frameSize r) =? 0) then
    Err (EMsg "unaligned wal offset") else
  let r := set_frameN (Z.quot (offset - WALHeaderSize) (frameSize r) - 1) r in
  match readFrame r (wr_pageSize r) false with
  | (Ok _, r) => Ok r
  | (Err e, _) => Err (EPrevFrame e)
  | (Panic s, _) => Panic s
  end.

(** ** PageMap

    [ctx k] is the cancellation cause of the context when it is polled after
    [k] reads, if it is done by then.  The loop has no bound of its own in the
    source: [None] is a scan that is still running when the fuel ends. *)
Definition context : Type := nat -> option error.

Fixpoint PageMap_loop (fuel : nat) (ctx : context) (m txMap : gmap Z Z) (commit : Z)
    (r : WALReader) : option (result (gmap Z Z * Z) * WALReader) :=
  match fuel with
  | O => None
  | S fuel =>
      match ctx (wr_clock r) with
      | Some cause => Some (Err cause, r)
      | None =>
          match ReadFrame r (wr_pageSize r) with
          | (Err e, r) =>
              if errors_Is e io_EOF then Some (Ok (m, commit), r) else Some (Err e, r)
          | (Panic s, r) => Some (Panic s, r)
          | (Ok (pgno, fcommit, _), r) =>
              let txMap := <[pgno := Offset r]> txMap in
              if negb (fcommit =? 0) then PageMap_loop fuel ctx (txMap ∪ m) ∅ fcommit r
              else PageMap_loop fuel ctx m txMap commit r
          end
      end
  end.

(** The highest offset of a page map, as the final loop of [PageMap] finds it. *)
Definition map_end (m : gmap Z Z) : Z :=
  map_fold (fun _ offset e => if (e =? 0) || (e <? offset) then offset else e) 0 m.

Definition PageMap (fuel : nat) (ctx : context) (r : WALReader)
    : option (result (gmap Z Z * Z * Z) * WALReader) :=
  match PageMap_loop fuel ctx ∅ ∅ 0 r with
  | None => None
  | Some (Err e, r) => Some (Err e, r)
  | Some (Panic s, r) => Some (Panic s, r)
  | Some (Ok (m, commit), r) =>
      let m := filter (fun kv => kv.1 <= commit) m in
      if decide (m = ∅) then Some (Ok (m, 0, 0), r)
      else Some (Ok (m, map_end m + (WALFrameHeaderSize + wr_pageSize r), commit), r)
  end.

(** ** FrameSaltsUntil *)
Fixpoint FrameSalts_loop (fuel : nat) (until : Z * Z) (offset : Z) (m : gset (Z * Z))
    (r : WALReader) : option (result (gset (Z * Z)) * WALReader) :=
  match fuel with
  | O => None
  | S fuel =>
      if beyondBound r offset (frameSize r) then Some (Ok m, r) else
      let '(hdr, err) := wr_read r (wr_clock r) WALFrameHeaderSize offset in
      let r := tick 1 r in
      if negb (Z.of_nat (length hdr) =? WALFrameHeaderSize) then Some (Ok m, r) else
      match err with Some e => Some (Err e, r) | None =>
      let salt1 := Uint32 BigEndian (drop 8 hdr) in
      let salt2 := Uint32 BigEndian (drop 12 hdr) in
      let m := {[(salt1, salt2)]} ∪ m in
      if (salt1 =? until.1) && (salt2 =? until.2) then Some (Ok m, r)
      else FrameSalts_loop fuel until (offset + frameSize r) m r
      end
  end.

Definition FrameSaltsUntil (fuel : nat) (until : Z * Z) (r : WALReader)
    : option (result (gset (Z * Z)) * WALReader) :=
  FrameSalts_loop fuel until WALHeaderSize ∅ r.

(** ** What a delivered frame guarantees *)

(** The two buffers a call of [readFrame] reads. *)
Definition frame_offset (r : WALReader) : Z := WALHeaderSize + wr_frameN r * frameSize r.

Definition frame_hdr (r : WALReader) : list byte :=
  (wr_read r (wr_clock r) WALFrameHeaderSize (frame_offset r)).1.

Definition frame_data (r : WALReader) : list byte :=
  (wr_read r (wr_clock r + 1) (wr_pageSize r) (frame_offset r + WALFrameHeaderSize)).1.

(** The reader after a delivered frame: next frame, new running checksum. *)
Definition after_frame (r : WALReader) (c1 c2 : Z) : WALReader :=
  {| wr_read := wr_read r; wr_source := wr_source r; wr_size := wr_size r;
     wr_frameN := wr_frameN r + 1; wr_bo := wr_bo r; wr_pageSize := wr_pageSize r;
     wr_seq := wr_seq r; wr_salt1 := wr_salt1 r; wr_salt2 := wr_salt2 r;
     wr_chksum1 := c1; wr_chksum2 := c2; wr_clock := wr_clock r + 2 |}.

(** Frame [hdr]/[data] carries the salts of [r]. *)
Definition salts_match (r : WALReader) (hdr : list byte) : Prop :=
  wr_salt1 r = Uint32 BigEndian (drop 8 hdr) /\ wr_salt2 r = Uint32 BigEndian (drop 12 hdr).

(** The checksum stored in a frame header. *)
Definition stored_chksum (hdr : list byte) : Z * Z :=
  (Uint32 BigEndian (drop 16 hdr), Uint32 BigEndian (drop 20 hdr)).

(** The running checksum of [r] extended over a frame header and its page. *)
Definition running_chksum (r : WALReader) (hdr data : list byte) : Z * Z :=
  checksum_units (wr_bo r) (wr_chksum1 r) (wr_chksum2 r) (take 8 hdr ++ data).

Lemma checksum_units_app bo n s0 s1 b1 b2 :
  length b1 = (8 * n)%nat ->
  checksum_units bo s0 s1 (b1 ++ b2) =
    let '(a0, a1) := checksum_units bo s0 s1 b1 in checksum_units bo a0 a1 b2.
Proof.
  revert s0 s1 b1; induction n as [|n IH]; intros s0 s1 b1 Hlen.
  - destruct b1; [done | simpl in Hlen; lia].
  - do 8 (destruct b1 as [|? b1]; [simpl in Hlen; lia |]).
    simpl. apply IH. simpl in Hlen. lia.
Qed.

Lemma length_take8_24 (hdr : list byte) :
  Z.of_nat (length hdr) = WALFrameHeaderSize -> length (take 8 hdr) = 8%nat.
Proof. unfold WALFrameHeaderSize. rewrite length_take. lia. Qed.

Lemma after_frame_eq r c1 c2 :
  set_frameN (wr_frameN r + 1) (set_chksum c1 c2 (tick 1 (tick 1 r))) = after_frame r c1 c2.
Proof. unfold set_frameN, set_chksum, tick, after_frame. simpl. f_equal. lia. Qed.

Lemma WALChecksum_ok_inv bo s0 s1 b x :
  WALChecksum bo s0 s1 b = Ok x -> x = checksum_units bo s0 s1 b.
Proof.
  unfold WALChecksum, assert. case_if; simpl; congruence.
Qed.

(** The verdict of [readFrame], inverted: everything the code checked before it
    delivered a frame. *)
Lemma readFrame_ok_inv r n v pgno commit data r' :
  readFrame r n v = (Ok (pgno, commit, data), r') ->
  n = wr_pageSize r /\
  beyondBound r (frame_offset r) (frameSize r) = false /\
  Z.of_nat (length (frame_hdr r)) = WALFrameHeaderSize /\
  Z.of_nat (length data) = n /\
  data = frame_data r /\
  salts_match r (frame_hdr r) /\
  (v = true -> running_chksum r (frame_hdr r) data = stored_chksum (frame_hdr r)) /\
  pgno = Uint32 BigEndian (frame_hdr r) /\
  commit = Uint32 BigEndian (drop 4 (frame_hdr r)) /\
  r' = after_frame r (stored_chksum (frame_hdr r)).1 (stored_chksum (frame_hdr r)).2.
Proof.
  unfold readFrame, frame_hdr, frame_data, frame_offset. intros H.
  case_if; [done | breflect; subst n]. case_if; [done |].
  destruct (wr_read r (wr_clock r) WALFrameHeaderSize _) as [hdr err] eqn:Eh; simpl.
  case_if; [done |]. destruct err; [done |]. simpl in H.
  destruct (wr_read r (wr_clock r + 1) _ _) as [d err'] eqn:Ed; simpl in *.
  case_if; [done |]. destruct err'; [done |]. breflect.
  unfold checkFrame in H. simpl in H. case_if; [done |]. breflect.
  assert (Hs : salts_match r hdr) by done.
  destruct v.
  - destruct (WALChecksum (wr_bo r) (wr_chksum1 r) (wr_chksum2 r) (take 8 hdr))
      as [[a1 a2]| |] eqn:Ha; simpl in H; [|done..].
    destruct (WALChecksum (wr_bo r) a1 a2 d) as [[c1 c2]| |] eqn:Hc; simpl in H; [|done..].
    case_if; [done |]. breflect. simplify_eq/=.
    apply WALChecksum_ok_inv in Ha, Hc.
    assert (Hrun : running_chksum r hdr data = stored_chksum hdr).
    { unfold running_chksum. rewrite (checksum_units_app _ 1).
      - by rewrite <- Ha, <- Hc.
      - by apply length_take8_24. }
    repeat split; try done. apply after_frame_eq.
  - simplify_eq/=. repeat split; try done. apply after_frame_eq.
Qed.

(** ** Termination under a concurrent writer *)

Lemma frameSize_after r c1 c2 : frameSize (after_frame r c1 c2) = frameSize r.
Proof. done. Qed.

(** A delivered frame lies below the bound captured at open. *)
Lemma readFrame_within r n v x r' :
  readFrame r n v = (Ok x, r') -> 0 < wr_size r ->
  WALHeaderSize + (wr_frameN r + 1) * frameSize r <= wr_size r.
Proof.
  destruct x as [[pgno commit] data].
  intros (_ & Hb & _)%readFrame_ok_inv Hs.
  unfold beyondBound, frame_offset in Hb. apply andb_false_iff in Hb as []; breflect; lia.
Qed.

Lemma PageMap_loop_terminates fuel ctx m txMap commit r :
  (0 < fuel)%nat -> 0 < wr_size r ->
  wr_size r < WALHeaderSize + (wr_frameN r + Z.of_nat fuel) * frameSize r ->
  is_Some (PageMap_loop fuel ctx m txMap commit r).
Proof.
  revert m txMap commit r. induction fuel as [|fuel IH]; intros m txMap commit r Hf Hs Hb; [lia |].
  simpl. destruct (ctx (wr_clock r)); [by eexists |].
  destruct (ReadFrame r (wr_pageSize r)) as [[[[pgno fcommit] data]|e|s] r'] eqn:E.
  - pose proof (readFrame_within _ _ _ _ _ E Hs) as Hw.
    apply readFrame_ok_inv in E as (_ & _ & _ & _ & _ & _ & _ & _ & _ & ->).
    assert (0 < fuel)%nat by (destruct fuel; lia).
    case_if; (apply IH; [done | done |]);
      rewrite frameSize_after; simpl wr_frameN; simpl wr_size; lia.
  - case_if; by eexists.
  - by eexists.
Qed.

Lemma PageMap_terminates fuel ctx r :
  (0 < fuel)%nat -> 0 < wr_size r ->
  wr_size r < WALHeaderSize + (wr_frameN r + Z.of_nat fuel) * frameSize r ->
  is_Some (PageMap fuel ctx r).
Proof.
  intros Hf Hs Hb. unfold PageMap.
  destruct (PageMap_loop_terminates fuel ctx ∅ ∅ 0 r Hf Hs Hb) as [[[[m c]|e|s] r'] ->].
  - case_decide; by eexists.
  - by eexists.
  - by eexists.
Qed.

(** ** PageMap against its specification *)

(** The frames that [ReadFrame] delivers, in file order. *)
Record frame : Type := { fr_pgno : Z; fr_commit : Z; fr_offset : Z }.

(** The frames delivered from [r] on until the reader reports the end. *)
Fixpoint frames (fuel : nat) (r : WALReader) : option (list frame * WALReader) :=
  match fuel with
  | O => None
  | S fuel =>
      match ReadFrame r (wr_pageSize r) with
      | (Ok (pgno, commit, _), r') =>
          match frames fuel r' with
          | Some (fs, r'') =>
              Some ({| fr_pgno := pgno; fr_commit := commit; fr_offset := Offset r' |} :: fs, r'')
          | None => None
          end
      | (Err e, r') => if errors_Is e io_EOF then Some ([], r') else None
      | (Panic _, _) => None
      end
  end.

Definition is_commit (f : frame) : bool := negb (fr_commit f =? 0).

(** The frames of finished transactions: those at or before a commit frame. *)
Fixpoint committed (fs : list frame) : list frame :=
  match fs with
  | [] => []
  | f :: rest => if existsb is_commit fs then f :: committed rest else []
  end.

(** The database size of the last finished transaction, 0 if there is none. *)
Definition last_commit (fs : list frame) : Z :=
  match last (List.filter is_commit fs) with Some f => fr_commit f | None => 0 end.

(** The offset of the last frame of a page. *)
Fixpoint latest (p : Z) (fs : list frame) : option Z :=
  match fs with
  | [] => None
  | f :: rest =>
      match latest p rest with
      | Some o => Some o
      | None => if fr_pgno f =? p then Some (fr_offset f) else None
      end
  end.

Lemma latest_app p fs1 fs2 :
  latest p (fs1 ++ fs2) =
    match latest p fs2 with Some o => Some o | None => latest p fs1 end.
Proof.
  induction fs1 as [|f fs1 IH]; simpl; [by destruct (latest p fs2) |].
  rewrite IH. by destruct (latest p fs2).
Qed.

Lemma committed_app_commit fs1 fs2 :
  existsb is_commit fs2 = true -> committed (fs1 ++ fs2) = fs1 ++ committed fs2.
Proof.
  intros H. induction fs1 as [|f fs1 IH]; [done |].
  change ((f :: fs1) ++ fs2) with (f :: (fs1 ++ fs2)). cbn [committed].
  replace (existsb is_commit (f :: fs1 ++ fs2)) with true.
  - simpl. by rewrite IH.
  - symmetry. simpl. rewrite existsb_app, H. by rewrite !orb_true_r.
Qed.

Lemma committed_no_commit fs : existsb is_commit fs = false -> committed fs = [].
Proof. destruct fs; [done |]. cbn [committed]. by intros ->. Qed.

Lemma committed_cons_commit f fs : is_commit f = true -> committed (f :: fs) = f :: committed fs.
Proof. intros H. cbn [committed existsb]. by rewrite H. Qed.

Lemma last_commit_cons f fs :
  last_commit (f :: fs) =
    if existsb is_commit fs then last_commit fs
    else if is_commit f then fr_commit f else 0.
Proof.
  unfold last_commit. simpl.
  assert (Hnil : existsb is_commit fs = false -> List.filter is_commit fs = []).
  { induction fs as [|g fs IH]; simpl; [done |]. intros [-> ?]%orb_false_iff. auto. }
  destruct (existsb is_commit fs) eqn:E.
  - destruct (is_commit f); [|done].
    destruct (List.filter is_commit fs) eqn:Ef; [|done].
    apply existsb_exists in E as (g & Hin & Hg).
    assert (In g (List.filter is_commit fs)) by (apply List.filter_In; auto).
    rewrite Ef in *. done.
  - rewrite Hnil by done. by destruct (is_commit f).
Qed.

Lemma PageMap_loop_frames fuel ctx (Hctx : forall k, ctx k = None) :
  forall r fs r' (m txMap : gmap Z Z) commit pend,
  frames fuel r = Some (fs, r') ->
  existsb is_commit pend = false ->
  (forall p, txMap !! p = latest p pend) ->
  exists m' : gmap Z Z,
    PageMap_loop fuel ctx m txMap commit r =
      Some (Ok (m', if existsb is_commit fs then last_commit fs else commit), r') /\
    forall p, m' !! p = match latest p (committed (pend ++ fs)) with
                        | Some o => Some o
                        | None => m !! p
                        end.
Proof.
  induction fuel as [|fuel IH]; intros r fs r' m txMap commit pend Hfr Hp Htx; [done |].
  cbn [frames PageMap_loop] in *. rewrite Hctx.
  destruct (ReadFrame r (wr_pageSize r)) as [[[[pgno fc] data]|e|s] r1].
  - destruct (frames fuel r1) as [[fs1 r2]|] eqn:Hfs; [|done]. simplify_eq.
    set (f := {| fr_pgno := pgno; fr_commit := fc; fr_offset := Offset r1 |}) in *.
    assert (Htx' : forall p, <[pgno := Offset r1]> txMap !! p = latest p (pend ++ [f])).
    { intros p. rewrite latest_app, lookup_insert. simpl. case_decide; bcases; try done. }
    cbn [existsb]. rewrite last_commit_cons.
    change (negb (fc =? 0)) with (is_commit f). destruct (is_commit f) eqn:Hc.
    + destruct (IH _ _ _ (<[pgno:=Offset r1]> txMap ∪ m) ∅ fc [] Hfs eq_refl) as (m' & -> & Hm');
        [intros p; apply lookup_empty |].
      exists m'. split; [simpl; by case_if |]. intros p. rewrite Hm'. simpl.
      rewrite committed_app_commit by (simpl; by rewrite Hc).
      rewrite committed_cons_commit by done. rewrite lookup_union, Htx'.
      replace (pend ++ f :: committed fs1) with ((pend ++ [f]) ++ committed fs1)
        by (by rewrite <- app_assoc).
      rewrite (latest_app p _ (committed fs1)).
      destruct (latest p (committed fs1)); [done |].
      by destruct (latest p (pend ++ [f])), (m !! p).
    + destruct (IH _ _ _ m (<[pgno:=Offset r1]> txMap) commit (pend ++ [f]) Hfs) as (m' & -> & Hm');
        [by rewrite existsb_app, Hp; simpl; rewrite Hc | done |].
      exists m'. split; [simpl; by case_if |]. intros p. rewrite Hm'.
      by rewrite <- app_assoc.
  - case_if; [|done]. simplify_eq. exists m. split; [done |]. intros p.
    rewrite app_nil_r, committed_no_commit by done. done.
  - done.
Qed.

Lemma map_end_spec (m : gmap Z Z) :
  (forall p o, m !! p = Some o -> 0 < o) ->
  (forall p o, m !! p = Some o -> o <= map_end m) /\
  (m = ∅ /\ map_end m = 0 \/ exists p, m !! p = Some (map_end m)).
Proof.
  unfold map_end.
  apply (map_fold_weak_ind (fun e (m : gmap Z Z) =>
    (forall p o, m !! p = Some o -> 0 < o) ->
    (forall p o, m !! p = Some o -> o <= e) /\
    (m = ∅ /\ e = 0 \/ exists p, m !! p = Some e))).
  - intros _. split; [intros p o H; by rewrite lookup_empty in H | by left].
  - intros i x m' e Hi IH Hpos.
    assert (Hx : 0 < x) by (apply (Hpos i); by rewrite lookup_insert_eq).
    destruct IH as [Hle Hex].
    { intros p o Hp. apply (Hpos p). rewrite lookup_insert_ne; [done |].
      intros ->. congruence. }
    assert (He : 0 <= e).
    { destruct Hex as [[_ ->]|[p Hp]]; [done |]. pose proof (Hpos p e) as H.
      rewrite lookup_insert_ne in H by (intros ->; congruence). specialize (H Hp). lia. }
    destruct ((e =? 0) || (e <? x)) eqn:E.
    + split.
      * intros p o. rewrite lookup_insert. case_decide; [intros; simplify_eq; lia |].
        intros Ho%Hle. apply orb_true_iff in E as []; breflect; lia.
      * right. exists i. by rewrite lookup_insert_eq.
    + breflect. split.
      * intros p o. rewrite lookup_insert. case_decide; [intros; simplify_eq; lia |].
        intros Ho%Hle. lia.
      * destruct Hex as [[-> ->]|[p Hp]]; [lia |]. right. exists p.
        rewrite lookup_insert_ne; [done |]. intros ->. congruence.
Qed.

(** Every delivered frame has a positive offset. *)
Lemma frames_offset_pos fuel r fs r' :
  frames fuel r = Some (fs, r') -> 0 <= wr_frameN r -> 0 <= wr_pageSize r ->
  Forall (fun f => WALHeaderSize + wr_frameN r * (WALFrameHeaderSize + wr_pageSize r) <= fr_offset f) fs.
Proof.
  revert r fs. induction fuel as [|fuel IH]; intros r fs Hf Hn Hps; [done |].
  cbn [frames] in Hf.
  destruct (ReadFrame r (wr_pageSize r)) as [[[[pgno fc] data]|e|s] r1] eqn:E; [| |done].
  - destruct (frames fuel r1) as [[fs1 r2]|] eqn:Hfs; [|done]. simplify_eq.
    apply readFrame_ok_inv in E as (_ & _ & _ & _ & _ & _ & _ & _ & _ & ->).
    specialize (IH _ _ Hfs). simpl wr_frameN in IH. simpl wr_pageSize in IH.
    constructor.
    + simpl. unfold Offset. simpl. case_if; breflect; [lia |].
      replace (wr_frameN r + 1 - 1) with (wr_frameN r) by lia. lia.
    + eapply Forall_impl; [apply IH; lia |]. simpl. intros f H.
      unfold WALHeaderSize, WALFrameHeaderSize in *. nia.
  - case_if; [|done]. simplify_eq. constructor.
Qed.

Lemma latest_in p fs o : latest p fs = Some o -> exists f, In f fs /\ fr_pgno f = p /\ fr_offset f = o.
Proof.
  induction fs as [|f fs IH]; simpl; [done |].
  destruct (latest p fs).
  - intros ?. simplify_eq. destruct (IH eq_refl) as (g & ? & ? & ?). eauto.
  - case_if; [|done]. intros. simplify_eq. breflect. eauto.
Qed.

Lemma committed_incl fs f : In f (committed fs) -> In f fs.
Proof.
  induction fs as [|g fs IH]; [done |]. cbn [committed]. case_if; [|done].
  intros [->|H]; simpl; auto.
Qed.

(** The page map of [fs] as the specification has it: for every page inside the
    database, the offset of its last committed frame. *)
Definition spec_page (fs : list frame) (p : Z) : option Z :=
  if p <=? last_commit fs then latest p (committed fs) else None.

Lemma PageMap_frames fuel ctx r fs r' :
  (forall k, ctx k = None) -> frames fuel r = Some (fs, r') ->
  exists m : gmap Z Z,
    (forall p, m !! p = spec_page fs p) /\
    PageMap fuel ctx r =
      Some (Ok (if decide (m = ∅) then (m, 0, 0)
                else (m, map_end m + (WALFrameHeaderSize + wr_pageSize r'), last_commit fs)), r').
Proof.
  intros Hctx Hfr.
  destruct (PageMap_loop_frames fuel ctx Hctx r fs r' ∅ ∅ 0 [] Hfr eq_refl) as (m & Hrun & Hm);
    [intros p; apply lookup_empty |].
  assert (Hc : (if existsb is_commit fs then last_commit fs else 0) = last_commit fs).
  { case_if; [done |]. destruct fs as [|f fs1]; [done |]. rewrite last_commit_cons.
    simpl in E. apply orb_false_iff in E as [-> ->]. done. }
  rewrite Hc in Hrun.
  exists (filter (fun kv => kv.1 <= last_commit fs) m). split.
  - intros p. unfold spec_page. destruct (m !! p) as [o|] eqn:Eo.
    + case_if; breflect.
      * rewrite (map_lookup_filter_Some_2 _ m p o) by done. specialize (Hm p).
        rewrite Eo in Hm. simpl in Hm. destruct (latest p (committed fs)); [done |].
        by rewrite lookup_empty in Hm.
      * apply map_lookup_filter_None_2. right. intros x ? H. simpl in H. lia.
    + rewrite map_lookup_filter_None_2 by auto. specialize (Hm p). rewrite Eo in Hm.
      simpl in Hm. destruct (latest p (committed fs)); [done | by case_if].
  - unfold PageMap. rewrite Hrun. by case_decide.
Qed.

(** Successive frames have increasing offsets: the last frame is the highest. *)
Lemma frames_sorted fuel r fs r' :
  frames fuel r = Some (fs, r') -> 0 <= wr_frameN r -> 0 <= wr_pageSize r ->
  StronglySorted (fun f g => fr_offset f <= fr_offset g) fs.
Proof.
  revert r fs. induction fuel as [|fuel IH]; intros r fs Hf Hn Hps; [done |].
  cbn [frames] in Hf.
  destruct (ReadFrame r (wr_pageSize r)) as [[[[pgno fc] data]|e|s] r1] eqn:E; [| |done].
  - destruct (frames fuel r1) as [[fs1 r2]|] eqn:Hfs; [|done]. simplify_eq.
    apply readFrame_ok_inv in E as (_ & _ & _ & _ & _ & _ & _ & _ & _ & ->).
    constructor.
    + eapply IH; [done | simpl; lia | done].
    + eapply Forall_impl; [eapply frames_offset_pos; [done | simpl; lia | done] |].
      simpl. intros f H. unfold Offset. simpl. unfold WALHeaderSize, WALFrameHeaderSize in *.
      case_if; breflect; nia.
  - case_if; [|done]. simplify_eq. constructor.
Qed.

Lemma committed_prefix fs : exists rest, fs = committed fs ++ rest.
Proof.
  induction fs as [|f fs [rest IH]]; [by exists [] |]. cbn [committed].
  case_if; [exists rest; simpl; by rewrite <- IH | by exists (f :: fs)].
Qed.

Lemma StronglySorted_app_l {A} (R : A -> A -> Prop) l1 l2 :
  StronglySorted R (l1 ++ l2) -> StronglySorted R l1.
Proof.
  induction l1 as [|x l1 IH]; [constructor |]. simpl. inversion 1; subst.
  constructor; [auto |]. by apply Forall_app in H3 as [? _].
Qed.

Lemma sorted_last_max fs f g :
  StronglySorted (fun f g => fr_offset f <= fr_offset g) fs ->
  last fs = Some f -> In g fs -> fr_offset g <= fr_offset f.
Proof.
  induction fs as [|x fs IH]; [done |]. intros Hs Hl [->|Hin].
  - inversion Hs; subst. destruct fs as [|y fs]; [simpl in Hl; simplify_eq; lia |].
    assert (Hl' : last (y :: fs) = Some f) by done. apply last_Some_elem_of in Hl'.
    rewrite Forall_forall in H2. by apply H2.
  - inversion Hs; subst. destruct fs as [|y fs]; [done |]. by apply IH.
Qed.

Lemma latest_last fs f : last fs = Some f -> latest (fr_pgno f) fs = Some (fr_offset f).
Proof.
  intros Hl. destruct (last_Some fs f) as [[l ->] _]; [done |].
  rewrite latest_app. simpl. by rewrite Z.eqb_refl.
Qed.

(** Every mapped offset is positive: it is the offset of a delivered frame. *)
Lemma spec_page_pos fuel r fs r' (m : gmap Z Z) :
  frames fuel r = Some (fs, r') -> 0 <= wr_frameN r -> 0 <= wr_pageSize r ->
  (forall p, m !! p = spec_page fs p) -> forall p o, m !! p = Some o -> 0 < o.
Proof.
  intros Hfr Hn Hps Hm p o. rewrite Hm. unfold spec_page. case_if; [|done].
  intros (g & Hg & _ & <-)%latest_in. apply committed_incl in Hg.
  pose proof (frames_offset_pos _ _ _ _ Hfr Hn Hps) as HF. rewrite List.Forall_forall in HF.
  specialize (HF g Hg). unfold WALHeaderSize, WALFrameHeaderSize in *. nia.
Qed.

(** The sync position: when the last commit frame writes a page of the database
    it commits, the end reported by [PageMap] is the end of that frame. *)
Lemma PageMap_end_at_commit fuel ctx r fs r' f :
  (forall k, ctx k = None) -> frames fuel r = Some (fs, r') ->
  0 <= wr_frameN r -> 0 <= wr_pageSize r ->
  last (committed fs) = Some f -> fr_pgno f <= last_commit fs ->
  exists m, PageMap fuel ctx r =
    Some (Ok (m, fr_offset f + (WALFrameHeaderSize + wr_pageSize r'), last_commit fs), r').
Proof.
  intros Hctx Hfr Hn Hps Hl Hle.
  destruct (PageMap_frames _ _ _ _ _ Hctx Hfr) as (m & Hm & ->).
  assert (Hf : m !! fr_pgno f = Some (fr_offset f)).
  { rewrite Hm. unfold spec_page. case_if; [by apply latest_last | breflect; lia]. }
  exists m. case_decide as Hd; [subst; by rewrite lookup_empty in Hf |].
  assert (Hin : forall p o, m !! p = Some o -> exists g, In g (committed fs) /\ fr_offset g = o).
  { intros p o. rewrite Hm. unfold spec_page. case_if; [|done].
    intros (g & ? & _ & ?)%latest_in. eauto. }
  destruct (map_end_spec m (spec_page_pos _ _ _ _ _ Hfr Hn Hps Hm)) as [Hmax [[-> _]|[p Hp]]]; [done |].
  assert (map_end m <= fr_offset f).
  { destruct (Hin _ _ Hp) as (g & Hg & <-). eapply sorted_last_max; [| done | done].
    destruct (committed_prefix fs) as [rest Hrest].
    eapply StronglySorted_app_l. rewrite <- Hrest. by eapply frames_sorted. }
  specialize (Hmax _ _ Hf). replace (map_end m) with (fr_offset f) by lia. done.
Qed.

(** ** Resuming at an offset *)

(** [n] successful calls of [ReadFrame]. *)
Fixpoint read_n (n : nat) (r : WALReader) : option WALReader :=
  match n with
  | O => Some r
  | S n =>
      match read_n n r with
      | Some r => match ReadFrame r (wr_pageSize r) with (Ok _, r) => Some r | _ => None end
      | None => None
      end
  end.

(** A file that does not change while it is read. *)
Definition static (rd : nat -> ReaderAt) : Prop := forall k, rd k = rd O.

(** The reader with its call counter forgotten. *)
Definition unclock (r : WALReader) : WALReader :=
  {| wr_read := wr_read r; wr_source := wr_source r; wr_size := wr_size r;
     wr_frameN := wr_frameN r; wr_bo := wr_bo r; wr_pageSize := wr_pageSize r;
     wr_seq := wr_seq r; wr_salt1 := wr_salt1 r; wr_salt2 := wr_salt2 r;
     wr_chksum1 := wr_chksum1 r; wr_chksum2 := wr_chksum2 r; wr_clock := 0 |}.

Lemma unclock_eq r1 r2 :
  unclock r1 = unclock r2 -> exists k, r2 = tick k (unclock r1).
Proof.
  intros H. exists (wr_clock r2). destruct r1, r2. cbn in *.
  by inversion H.
Qed.

Lemma checkFrame_tick k r hdr data v :
  checkFrame (tick k r) hdr data v =
    ((checkFrame r hdr data v).1, tick k (checkFrame r hdr data v).2).
Proof.
  unfold checkFrame. simpl. case_if; [done |]. destruct v; [|done].
  destruct (WALChecksum _ _ _ (take 8 hdr)) as [[a1 a2]| |]; [simpl | done..].
  destruct (WALChecksum _ a1 a2 data) as [[c1 c2]| |]; [simpl | done..].
  by case_if.
Qed.

Lemma tick_comm j k r : tick j (tick k r) = tick k (tick j r).
Proof. unfold tick. simpl. f_equal. lia. Qed.

(** On an unchanging file the call counter has no influence. *)
Lemma readFrame_tick k r n v :
  static (wr_read r) ->
  readFrame (tick k r) n v = ((readFrame r n v).1, tick k (readFrame r n v).2).
Proof.
  intros Hst. unfold readFrame. simpl.
  case_if; [done |].
  change (frameSize (tick k r)) with (frameSize r).
  change (beyondBound (tick k r)) with (beyondBound r).
  case_if; [done |].
  rewrite (Hst (wr_clock r + k)%nat), (Hst (wr_clock r + k + 1)%nat),
    (Hst (wr_clock r)), (Hst (wr_clock r + 1)%nat).
  destruct (wr_read r O WALFrameHeaderSize _) as [hdr err].
  case_if; [simpl; by rewrite tick_comm |]. destruct err; [simpl; by rewrite tick_comm |].
  destruct (wr_read r O n _) as [data err'].
  rewrite !(tick_comm 1 k).
  case_if; [done |]. destruct err'; [done |]. apply checkFrame_tick.
Qed.

Lemma readFrame_unclock r1 r2 n v :
  static (wr_read r1) -> unclock r1 = unclock r2 ->
  (readFrame r1 n v).1 = (readFrame r2 n v).1 /\
  unclock (readFrame r1 n v).2 = unclock (readFrame r2 n v).2.
Proof.
  intros Hst Heq. destruct (unclock_eq r1 r1 eq_refl) as [k1 E1].
  destruct (unclock_eq r1 r2 Heq) as [k2 ->]. rewrite E1.
  rewrite !readFrame_tick by done. done.
Qed.

(** Dropping the checksum verification delivers the same frame and leaves the
    same reader behind. *)
Lemma readFrame_unverified r n x r' c1 c2 :
  readFrame r n true = (Ok x, r') -> readFrame (set_chksum c1 c2 r) n false = (Ok x, r').
Proof.
  intros H. destruct x as [[pgno commit] data].
  pose proof (readFrame_ok_inv _ _ _ _ _ _ _ H) as (-> & Hb & Hh & _ & _ & Hs & _ & -> & -> & ->).
  revert H. unfold readFrame. simpl.
  change (frameSize (set_chksum c1 c2 r)) with (frameSize r).
  change (beyondBound (set_chksum c1 c2 r)) with (beyondBound r).
  rewrite Z.eqb_refl. simpl. fold (frame_offset r). rewrite Hb. unfold frame_hdr in *.
  destruct (wr_read r (wr_clock r) WALFrameHeaderSize _) as [hdr err]. simpl in *.
  case_if; [done |]. destruct err; [done |].
  destruct (wr_read r (wr_clock r + 1) _ _) as [d err'].
  case_if; [done |]. destruct err'; [done |].
  intros H. assert (Hd : d = data).
  { revert H. unfold checkFrame. simpl. case_if; [done |].
    destruct (WALChecksum _ _ _ (take 8 hdr)) as [[a1 a2]| |]; [simpl | done..].
    destruct (WALChecksum _ a1 a2 d) as [[e1 e2]| |]; [simpl | done..].
    case_if; [done |]. congruence. }
  subst d. unfold checkFrame. simpl. destruct Hs as [<- <-]. rewrite !Z.eqb_refl. simpl.
  f_equal. apply (after_frame_eq (set_chksum c1 c2 r)).
Qed.

Lemma PageMap_loop_unclock fuel m txMap commit r1 r2 :
  static (wr_read r1) -> unclock r1 = unclock r2 ->
  match PageMap_loop fuel (fun _ => None) m txMap commit r1,
        PageMap_loop fuel (fun _ => None) m txMap commit r2 with
  | None, None => True
  | Some (x1, r1'), Some (x2, r2') => x1 = x2 /\ unclock r1' = unclock r2'
  | _, _ => False
  end.
Proof.
  revert m txMap commit r1 r2. induction fuel as [|fuel IH]; intros m txMap commit r1 r2 Hst Heq; [done |].
  cbn [PageMap_loop]. unfold ReadFrame.
  destruct (readFrame_unclock r1 r2 (wr_pageSize r1) true Hst Heq) as [Hx Hr].
  assert (wr_pageSize r2 = wr_pageSize r1) as ->.
  { change (wr_pageSize (unclock r2) = wr_pageSize (unclock r1)). by rewrite Heq. }
  destruct (readFrame r1 (wr_pageSize r1) true) as [x1 r1'] eqn:E1.
  destruct (readFrame r2 (wr_pageSize r1) true) as [x2 r2'] eqn:E2. simpl in Hx, Hr. subst x2.
  destruct x1 as [[[pgno fc] data]|e|s]; [| case_if; done | done].
  assert (static (wr_read r1')).
  { apply readFrame_ok_inv in E1 as (_ & _ & _ & _ & _ & _ & _ & _ & _ & ->). done. }
  assert (Offset r2' = Offset r1') as ->.
  { change (Offset (unclock r2') = Offset (unclock r1')). by rewrite Hr. }
  case_if; by apply IH.
Qed.

Lemma PageMap_unclock fuel r1 r2 :
  static (wr_read r1) -> unclock r1 = unclock r2 ->
  fst <$> PageMap fuel (fun _ => None) r1 = fst <$> PageMap fuel (fun _ => None) r2.
Proof.
  intros Hst Heq. pose proof (PageMap_loop_unclock fuel ∅ ∅ 0 r1 r2 Hst Heq) as H.
  unfold PageMap.
  destruct (PageMap_loop fuel _ ∅ ∅ 0 r1) as [[[[m c]|e|s] r1']|],
    (PageMap_loop fuel _ ∅ ∅ 0 r2) as [[x2 r2']|]; try done; destruct H as [<- Hr]; try done.
  assert (wr_pageSize r1' = wr_pageSize r2') as Hp.
  { change (wr_pageSize (unclock r1') = wr_pageSize (unclock r2')). by rewrite Hr. }
  rewrite Hp. by case_decide.
Qed.

Lemma read_n_fields n r rn c1 c2 f :
  read_n n r = Some rn ->
  wr_frameN rn = wr_frameN r + Z.of_nat n /\
  unclock (set_frameN f (set_chksum c1 c2 rn)) = unclock (set_frameN f (set_chksum c1 c2 r)).
Proof.
  revert rn. induction n as [|n IH]; intros rn; [intros; simplify_eq/=; split; [lia | done] |].
  cbn [read_n]. destruct (read_n n r) as [r1|]; [|done].
  destruct (IH _ eq_refl) as [Hn Hu].
  destruct (ReadFrame r1 (wr_pageSize r1)) as [[[[p c] d]| |] r2] eqn:E; [|done..].
  intros [= <-].
  apply readFrame_ok_inv in E as (_ & _ & _ & _ & _ & _ & _ & _ & _ & ->).
  split; [simpl; lia |]. by etransitivity; [|exact Hu].
Qed.

Lemma readHeader_fields r r' :
  readHeader r = Ok r' -> wr_read r' = wr_read r /\ wr_frameN r' = wr_frameN r.
Proof.
  unfold readHeader. destruct (readerSize (wr_source r)); [simpl | done..].
  destruct (wr_read r (wr_clock r) WALHeaderSize 0) as [hdr err].
  case_if; [done |]. destruct err; [done |].
  destruct (_ : result ByteOrder); [simpl | done..].
  destruct (WALChecksum _ 0 0 (take 24 hdr)) as [[v0 v1]| |]; [simpl | done..].
  case_if; [done |]. case_if; [done |]. intros. by simplify_eq/=.
Qed.

Lemma resume_reader rd src r0 n rn :
  static rd -> NewWALReader rd src = Ok r0 -> frameSize r0 <> 0 ->
  read_n (S n) r0 = Some rn ->
  exists r', NewWALReaderWithOffset rd src
               (WALHeaderSize + Z.of_nat (S n) * frameSize r0) (wr_salt1 r0) (wr_salt2 r0) = Ok r'
    /\ unclock r' = unclock rn /\ wr_read r' = rd.
Proof.
  intros Hst Hnew Hfs Hrn. unfold NewWALReader in Hnew.
  destruct (readHeader_fields _ _ Hnew) as [Hrd HfN]. simpl in Hrd, HfN.
  assert (Hfs0 : 0 < frameSize r0) by (unfold frameSize in *; pose proof (u32_range (wr_pageSize r0 + WALFrameHeaderSize)); lia).
  cbn [read_n] in Hrn. destruct (read_n n r0) as [r1|] eqn:Hr1; [|done].
  destruct (ReadFrame r1 (wr_pageSize r1)) as [[x| |] r2] eqn:E; [|done..].
  injection Hrn as ->. destruct (read_n_fields _ _ _ (wr_chksum1 r0) (wr_chksum2 r0) (Z.of_nat n) Hr1) as [Hn1 Hu1].
  pose proof (readFrame_unverified _ _ _ _ (wr_chksum1 r0) (wr_chksum2 r0) E) as Hun.
  unfold NewWALReaderWithOffset. rewrite Hnew. simpl.
  change (frameSize (set_salt (wr_salt1 r0) (wr_salt2 r0) r0)) with (frameSize r0).
  replace (WALHeaderSize + Z.of_nat (S n) * frameSize r0 - WALHeaderSize)
    with (Z.of_nat (S n) * frameSize r0) by lia.
  case_if; breflect; [unfold WALHeaderSize in *; nia |].
  case_if; breflect; [lia |].
  rewrite Z.rem_mul, Z.quot_mul by lia. simpl (negb _). cbn iota.
  set (r := set_frameN _ _).
  assert (Hu : unclock r = unclock (set_chksum (wr_chksum1 r0) (wr_chksum2 r0) r1)).
  { replace (set_chksum (wr_chksum1 r0) (wr_chksum2 r0) r1)
      with (set_frameN (Z.of_nat n) (set_chksum (wr_chksum1 r0) (wr_chksum2 r0) r1)).
    - rewrite Hu1. subst r. unfold set_frameN, set_salt, set_chksum, unclock. simpl. f_equal. lia.
    - unfold set_frameN, set_chksum. simpl. f_equal. lia. }
  destruct (readFrame_unclock r _ (wr_pageSize r1) false (eq_ind_r static Hst Hrd) Hu) as [Hx Hr].
  rewrite Hun in Hx, Hr. simpl in Hx, Hr.
  assert (Hp : wr_pageSize r1 = wr_pageSize r0).
  { change (wr_pageSize (unclock (set_chksum (wr_chksum1 r0) (wr_chksum2 r0) r1)) = wr_pageSize (unclock r)).
    by rewrite <- Hu. }
  rewrite Hp in Hx, Hr.
  destruct (readFrame r (wr_pageSize r0) false) as [y r'] eqn:Ey. simpl in Hx, Hr. subst y.
  exists r'. split; [done |]. split; [done |].
  destruct x as [[p c] d].
  apply readFrame_ok_inv in Ey as (_ & _ & _ & _ & _ & _ & _ & _ & _ & ->). done.
Qed.

(** ** Reading back a well-formed WAL

    The WAL file format as SQLite documents it (src/docs/SQLITE_INTERNALS.md):
    a header, then frames whose checksums chain from the header's. *)
Record wal_page : Type := { wp_pgno : Z; wp_commit : Z; wp_data : list byte }.

Definition wal_magic (bo : ByteOrder) : Z :=
  match bo with LittleEndian => 0x377f0682 | BigEndian => 0x377f0683 end.

Definition wal_header24 (bo : ByteOrder) (ps seq s1 s2 : Z) : list byte :=
  PutUint32BE (wal_magic bo) ++ PutUint32BE 3007000 ++ PutUint32BE ps ++
  PutUint32BE seq ++ PutUint32BE s1 ++ PutUint32BE s2.

Definition wal_header (bo : ByteOrder) (ps seq s1 s2 : Z) : list byte :=
  let h := wal_header24 bo ps seq s1 s2 in
  let c := checksum_units bo 0 0 h in
  h ++ PutUint32BE c.1 ++ PutUint32BE c.2.

Definition frame_chksum (bo : ByteOrder) (c : Z * Z) (p : wal_page) : Z * Z :=
  checksum_units bo c.1 c.2 (PutUint32BE (wp_pgno p) ++ PutUint32BE (wp_commit p) ++ wp_data p).

Definition wal_frame_hdr (s1 s2 : Z) (c : Z * Z) (p : wal_page) : list byte :=
  PutUint32BE (wp_pgno p) ++ PutUint32BE (wp_commit p) ++ PutUint32BE s1 ++
  PutUint32BE s2 ++ PutUint32BE c.1 ++ PutUint32BE c.2.

Fixpoint wal_frames (bo : ByteOrder) (s1 s2 : Z) (c : Z * Z) (ps : list wal_page) : list byte :=
  match ps with
  | [] => []
  | p :: rest =>
      let c := frame_chksum bo c p in
      wal_frame_hdr s1 s2 c p ++ wp_data p ++ wal_frames bo s1 s2 c rest
  end.

Definition wal_file (bo : ByteOrder) (ps seq s1 s2 : Z) (pages : list wal_page) : list byte :=
  wal_header bo ps seq s1 s2 ++
  wal_frames bo s1 s2 (checksum_units bo 0 0 (wal_header24 bo ps seq s1 s2)) pages.

(** The frames the reader must deliver for [pages], the first one at [off]. *)
Fixpoint expected_frames (ps off : Z) (pages : list wal_page) : list frame :=
  match pages with
  | [] => []
  | p :: rest =>
      {| fr_pgno := wp_pgno p; fr_commit := wp_commit p; fr_offset := off |}
        :: expected_frames ps (off + (WALFrameHeaderSize + ps)) rest
  end.

Definition is_u32 (z : Z) : Prop := 0 <= z < 2 ^ 32.

(** Page sizes SQLite uses (512 to 65536) satisfy this. *)
Definition page_size_ok (ps : Z) : Prop := 0 < ps < 2 ^ 32 - WALFrameHeaderSize /\ ps mod 8 = 0.

Definition wal_page_ok (ps : Z) (p : wal_page) : Prop :=
  is_u32 (wp_pgno p) /\ is_u32 (wp_commit p) /\ Z.of_nat (length (wp_data p)) = ps.

Lemma checksum_units_range bo s0 s1 b :
  is_u32 s0 -> is_u32 s1 ->
  is_u32 (checksum_units bo s0 s1 b).1 /\ is_u32 (checksum_units bo s0 s1 b).2.
Proof.
  unfold is_u32. remember (length b) as n eqn:Hn. revert s0 s1 b Hn.
  induction n as [n IH] using lt_wf_ind. intros s0 s1 b Hn H0 H1.
  do 8 (destruct b as [|? b]; [done |]). cbn [checksum_units].
  apply (IH (length b)); [simpl in Hn; lia | done | apply u32_range..].
Qed.

Lemma Uint32_Put_small z rest : is_u32 z -> Uint32 BigEndian (PutUint32BE z ++ rest) = z.
Proof. intros H. rewrite Uint32_Put. by apply u32_small. Qed.

Lemma readHeader_wal bo ps seq s1 s2 rest (src : size_source) n :
  is_u32 ps -> is_u32 seq -> is_u32 s1 -> is_u32 s2 -> readerSize src = Ok n ->
  let c := checksum_units bo 0 0 (wal_header24 bo ps seq s1 s2) in
  NewWALReader (fun _ => file_readAt (wal_header bo ps seq s1 s2 ++ rest)) src =
    Ok {| wr_read := fun _ => file_readAt (wal_header bo ps seq s1 s2 ++ rest);
          wr_source := src; wr_size := n; wr_frameN := 0; wr_bo := bo;
          wr_pageSize := ps; wr_seq := seq; wr_salt1 := s1; wr_salt2 := s2;
          wr_chksum1 := c.1; wr_chksum2 := c.2; wr_clock := 1 |}.
Proof.
  intros Hps Hseq H1 H2 Hsz c.
  destruct (checksum_units_range bo 0 0 (wal_header24 bo ps seq s1 s2)) as [Hc1 Hc2]; [done..|].
  fold c in Hc1, Hc2.
  assert (Hhdr : wal_header bo ps seq s1 s2 = PutUint32BE (wal_magic bo) ++ PutUint32BE 3007000 ++
    PutUint32BE ps ++ PutUint32BE seq ++ PutUint32BE s1 ++ PutUint32BE s2 ++
    PutUint32BE c.1 ++ PutUint32BE c.2 ++ []) by done.
  unfold NewWALReader, readHeader, fresh_reader.
  cbn [wr_source wr_read wr_clock wr_frameN]. rewrite Hsz. unfold wrap_err, mbind, result_bind.
  pose proof (file_readAt_mid [] (wal_header bo ps seq s1 s2) rest WALHeaderSize 0) as Hread.
  rewrite app_nil_l in Hread. rewrite Hread by done.
  change (Z.of_nat (length (wal_header bo ps seq s1 s2)) <? WALHeaderSize) with false. cbn iota.
  change (take 24 (wal_header bo ps seq s1 s2)) with (wal_header24 bo ps seq s1 s2).
  set (rd := fun _ : nat => _). rewrite Hhdr.
  change (drop 24 _) with (PutUint32BE c.1 ++ PutUint32BE c.2 ++ []).
  change (drop 28 _) with (PutUint32BE c.2 ++ []).
  change (drop 4 _) with (PutUint32BE 3007000 ++ drop 8 (wal_header bo ps seq s1 s2)).
  change (drop 8 (PutUint32BE (wal_magic bo) ++ _)) with (PutUint32BE ps ++ drop 12 (wal_header bo ps seq s1 s2)).
  change (drop 12 (PutUint32BE (wal_magic bo) ++ _)) with (PutUint32BE seq ++ drop 16 (wal_header bo ps seq s1 s2)).
  change (drop 16 (PutUint32BE (wal_magic bo) ++ _)) with (PutUint32BE s1 ++ drop 20 (wal_header bo ps seq s1 s2)).
  change (drop 20 (PutUint32BE (wal_magic bo) ++ _)) with (PutUint32BE s2 ++ drop 24 (wal_header bo ps seq s1 s2)).
  rewrite !Uint32_Put_small by (assumption || (unfold is_u32; destruct bo; simpl; lia)).
  replace (if wal_magic bo =? _ then _ else _) with (Ok bo) by by destruct bo. cbn iota.
  change (WALChecksum bo 0 0 (wal_header24 bo ps seq s1 s2)) with (Ok c). cbn iota.
  destruct c as [c1 c2]. simpl fst. simpl snd. by rewrite !Z.eqb_refl.
Qed.

Lemma frameSize_ok r : page_size_ok (wr_pageSize r) -> frameSize r = WALFrameHeaderSize + wr_pageSize r.
Proof.
  unfold page_size_ok, frameSize, WALFrameHeaderSize. intros [? _]. rewrite u32_small; lia.
Qed.

Lemma WALChecksum_aligned bo s0 s1 b :
  Z.of_nat (length b) mod 8 = 0 -> WALChecksum bo s0 s1 b = Ok (checksum_units bo s0 s1 b).
Proof. intros H. unfold WALChecksum, assert. by rewrite H. Qed.

Lemma checkFrame_wal r p :
  let c := frame_chksum (wr_bo r) (wr_chksum1 r, wr_chksum2 r) p in
  wal_page_ok (wr_pageSize r) p -> wr_pageSize r mod 8 = 0 ->
  is_u32 (wr_salt1 r) -> is_u32 (wr_salt2 r) -> is_u32 (wr_chksum1 r) -> is_u32 (wr_chksum2 r) ->
  checkFrame r (wal_frame_hdr (wr_salt1 r) (wr_salt2 r) c p) (wp_data p) true =
    (Ok (wp_pgno p, wp_commit p, wp_data p), set_frameN (wr_frameN r + 1) (set_chksum c.1 c.2 r)).
Proof.
  intros c (Hp & Hcm & Hd) Hal H1 H2 H3 H4.
  destruct (checksum_units_range (wr_bo r) (wr_chksum1 r) (wr_chksum2 r)
    (PutUint32BE (wp_pgno p) ++ PutUint32BE (wp_commit p) ++ wp_data p)) as [Hc1 Hc2]; [done..|].
  change (is_u32 c.1) in Hc1. change (is_u32 c.2) in Hc2.
  set (hdr := wal_frame_hdr _ _ c p). unfold checkFrame.
  assert (Hhdr : hdr = PutUint32BE (wp_pgno p) ++ PutUint32BE (wp_commit p) ++
    PutUint32BE (wr_salt1 r) ++ PutUint32BE (wr_salt2 r) ++ PutUint32BE c.1 ++ PutUint32BE c.2 ++ []) by done.
  change (drop 8 hdr) with (PutUint32BE (wr_salt1 r) ++ drop 12 hdr).
  change (drop 12 hdr) with (PutUint32BE (wr_salt2 r) ++ drop 16 hdr).
  change (drop 16 hdr) with (PutUint32BE c.1 ++ drop 20 hdr).
  change (drop 20 hdr) with (PutUint32BE c.2 ++ []).
  change (drop 4 hdr) with (PutUint32BE (wp_commit p) ++ drop 8 hdr).
  change (take 8 hdr) with (PutUint32BE (wp_pgno p) ++ PutUint32BE (wp_commit p)).
  rewrite Hhdr, !Uint32_Put_small, !Z.eqb_refl by assumption.
  rewrite (WALChecksum_aligned (wr_bo r) _ _ (_ ++ _)) by done.
  unfold mbind, result_bind. cbn iota.
  assert (Hc : (let '(a1, a2) := checksum_units (wr_bo r) (wr_chksum1 r) (wr_chksum2 r)
    (PutUint32BE (wp_pgno p) ++ PutUint32BE (wp_commit p)) in
    WALChecksum (wr_bo r) a1 a2 (wp_data p)) = Ok c).
  { unfold c, frame_chksum. simpl fst. simpl snd. rewrite (app_assoc (PutUint32BE _)).
    rewrite (checksum_units_app _ 1 _ _ (PutUint32BE (wp_pgno p) ++ _)) by done.
    destruct (checksum_units _ _ _ (PutUint32BE (wp_pgno p) ++ _)) as [a1 a2].
    apply WALChecksum_aligned. by rewrite Hd. }
  rewrite Hc. clearbody c. clear Hhdr Hc. subst hdr. destruct c as [c1 c2]. simpl. by rewrite !Z.eqb_refl.
Qed.

Lemma readFrame_wal r pre p post :
  let c := frame_chksum (wr_bo r) (wr_chksum1 r, wr_chksum2 r) p in
  (forall k, wr_read r k = file_readAt
     (pre ++ wal_frame_hdr (wr_salt1 r) (wr_salt2 r) c p ++ wp_data p ++ post)) ->
  frame_offset r = Z.of_nat (length pre) ->
  beyondBound r (frame_offset r) (frameSize r) = false ->
  wal_page_ok (wr_pageSize r) p -> wr_pageSize r mod 8 = 0 ->
  is_u32 (wr_salt1 r) -> is_u32 (wr_salt2 r) -> is_u32 (wr_chksum1 r) -> is_u32 (wr_chksum2 r) ->
  ReadFrame r (wr_pageSize r) = (Ok (wp_pgno p, wp_commit p, wp_data p), after_frame r c.1 c.2).
Proof.
  intros c Hrd Hoff Hb Hp Hal H1 H2 H3 H4. unfold ReadFrame, readFrame.
  fold (frame_offset r). rewrite Z.eqb_refl, Hb. cbn [negb]. cbn iota.
  rewrite Hrd, (file_readAt_mid pre) by done. cbn [tick wr_read wr_clock wr_pageSize].
  change (negb (Z.of_nat (length (wal_frame_hdr (wr_salt1 r) (wr_salt2 r) c p)) =? WALFrameHeaderSize))
    with false. cbn iota.
  rewrite Hrd, (app_assoc pre), (file_readAt_mid (pre ++ _)).
  - destruct Hp as (Hp1 & Hp2 & Hp3). rewrite Hp3, Z.eqb_refl. cbn [negb]. cbn iota.
    pose proof (checkFrame_wal (tick 1 (tick 1 r)) p) as Hck.
    etransitivity; [apply Hck; done |]. f_equal. exact (after_frame_eq r _ _).
  - rewrite length_app, Hoff, Nat2Z.inj_add. done.
  - symmetry. apply Hp.
Qed.

(** The end of the file is the end of the frames. *)
Lemma ReadFrame_at_end r pre :
  (forall k, wr_read r k = file_readAt pre) ->
  frame_offset r = Z.of_nat (length pre) ->
  exists r', ReadFrame r (wr_pageSize r) = (Err io_EOF, r').
Proof.
  intros Hrd Hoff. unfold ReadFrame, readFrame. rewrite Z.eqb_refl. cbn [negb]. cbn iota.
  fold (frame_offset r). case_if; [by eexists |]. rewrite Hrd. unfold file_readAt, slice.
  rewrite Hoff, Nat2Z.id, drop_all, take_nil. simpl. by eexists.
Qed.

Lemma length_wal_frames bo s1 s2 c pages ps :
  Forall (wal_page_ok ps) pages ->
  Z.of_nat (length (wal_frames bo s1 s2 c pages)) =
    Z.of_nat (length pages) * (WALFrameHeaderSize + ps).
Proof.
  intros HF. revert c. induction HF as [|p pages (_ & _ & Hd) HF IH]; intros c; [done |].
  cbn [wal_frames]. rewrite !length_app, !Nat2Z.inj_add, IH, Hd.
  change (Z.of_nat (length (wal_frame_hdr s1 s2 (frame_chksum bo c p) p))) with WALFrameHeaderSize.
  simpl length. lia.
Qed.

Lemma frames_wal pages : forall r pre,
  let file := pre ++ wal_frames (wr_bo r) (wr_salt1 r) (wr_salt2 r) (wr_chksum1 r, wr_chksum2 r) pages in
  (forall k, wr_read r k = file_readAt file) ->
  frame_offset r = Z.of_nat (length pre) -> 0 <= wr_frameN r ->
  (wr_size r = 0 \/ wr_size r = Z.of_nat (length file)) ->
  page_size_ok (wr_pageSize r) -> Forall (wal_page_ok (wr_pageSize r)) pages ->
  is_u32 (wr_salt1 r) -> is_u32 (wr_salt2 r) -> is_u32 (wr_chksum1 r) -> is_u32 (wr_chksum2 r) ->
  exists r', frames (S (length pages)) r =
    Some (expected_frames (wr_pageSize r) (frame_offset r) pages, r').
Proof.
  induction pages as [|p pages IH]; intros r pre file Hrd Hoff Hn Hsz Hps HF H1 H2 H3 H4.
  - destruct (ReadFrame_at_end r pre) as [r' E]; [|done |].
    { intros k. rewrite Hrd. subst file. simpl. by rewrite app_nil_r. }
    exists r'. cbn [frames]. by rewrite E.
  - inversion HF as [|? ? Hp HF']; subst. pose proof (frameSize_ok r Hps) as Hfs.
    set (c := frame_chksum (wr_bo r) (wr_chksum1 r, wr_chksum2 r) p).
    assert (Hb : beyondBound r (frame_offset r) (frameSize r) = false).
    { unfold beyondBound. destruct Hsz as [Hsz|Hsz]; rewrite Hsz; [done |]. apply andb_false_iff. right.
      apply Z.ltb_ge. subst file. rewrite length_app, Nat2Z.inj_add, Hoff.
      rewrite (length_wal_frames _ _ _ _ _ (wr_pageSize r)) by done.
      cbn [length]. destruct Hps as [? _]. unfold WALFrameHeaderSize in *. nia. }
    assert (E : ReadFrame r (wr_pageSize r) =
      (Ok (wp_pgno p, wp_commit p, wp_data p), after_frame r c.1 c.2)).
    { eapply readFrame_wal; try done; try by destruct Hps.  }
    assert (Hc : is_u32 c.1 /\ is_u32 c.2) by by apply checksum_units_range.
    assert (Hoff' : frame_offset (after_frame r c.1 c.2) = frame_offset r + frameSize r).
    { unfold frame_offset. rewrite frameSize_after. simpl wr_frameN. lia. }
    destruct (IH (after_frame r c.1 c.2)
      (pre ++ wal_frame_hdr (wr_salt1 r) (wr_salt2 r) c p ++ wp_data p)) as [r' Hr'];
      simpl wr_bo; simpl wr_salt1; simpl wr_salt2; simpl wr_pageSize; simpl wr_chksum1;
      simpl wr_chksum2; simpl wr_size; simpl wr_frameN; try (done || apply Hc || lia).
    + intros k. rewrite <- !app_assoc, <- surjective_pairing. apply Hrd.
    + rewrite Hoff', Hfs, Hoff, !length_app, !Nat2Z.inj_add. destruct Hp as (_ & _ & ->). done.
    + by rewrite <- !app_assoc, <- surjective_pairing.
    + exists r'. change (length (p :: pages)) with (S (length pages)).
      cbn [frames]. cbn [frames] in Hr'. rewrite E, Hr'. cbn [expected_frames].
      rewrite Hoff', Hfs. unfold Offset. simpl wr_frameN. simpl wr_pageSize.
      case_if; breflect; [lia |].
      replace (wr_frameN r + 1 - 1) with (wr_frameN r) by lia.
      unfold frame_offset at 2. by rewrite Hfs.
Qed.

(** ** Salts of the frames on disk *)

Definition with_offset (r : WALReader) (i : nat) : Z := WALHeaderSize + Z.of_nat i * frameSize r.

(** The salts of the [i]-th frame slot of the file, when [FrameSaltsUntil] can
    read its header inside the bound of the reader. *)
Definition slot_salts (r : WALReader) (i : nat) : option (Z * Z) :=
  if beyondBound r (with_offset r i) (frameSize r) then None else
  let hdr := (wr_read r O WALFrameHeaderSize (with_offset r i)).1 in
  if Z.of_nat (length hdr) =? WALFrameHeaderSize
  then Some (Uint32 BigEndian (drop 8 hdr), Uint32 BigEndian (drop 12 hdr)) else None.

(** The slots that are read: those before the first unreadable one, up to and
    including the first that carries [stop]. *)
Definition slot_read (r : WALReader) (stop : Z * Z) (i : nat) : Prop :=
  forall j, (j < i)%nat -> exists s, slot_salts r j = Some s /\ s <> stop.

Lemma FrameSalts_loop_spec fuel : forall stop i m r m' r',
  static (wr_read r) -> slot_read r stop i ->
  (forall s, s ∈ m <-> exists j, (j < i)%nat /\ slot_salts r j = Some s) ->
  FrameSalts_loop fuel stop (with_offset r i) m r = Some (Ok m', r') ->
  forall s, s ∈ m' <-> exists j, slot_read r stop j /\ slot_salts r j = Some s.
Proof.
  induction fuel as [|fuel IH]; intros stop i m r m' r' Hst Hread Hm Hrun; [done |].
  cbn [FrameSalts_loop] in Hrun. rewrite (Hst (wr_clock r)) in Hrun.
  assert (Hstop : slot_salts r i = None \/ slot_salts r i = Some stop ->
    forall s, (exists j, (j < i \/ j = i /\ slot_salts r i <> None)%nat /\ slot_salts r j = Some s) <->
      exists j, slot_read r stop j /\ slot_salts r j = Some s).
  { intros Hlast s. split; intros (j & Hj & Hs); exists j; (split; [|done]).
    - intros k Hk. apply Hread. lia.
    - destruct (decide (j < i)%nat) as [|Hge]; [by left |]. right.
      destruct (decide (j = i)) as [->|]; [split; [done | by rewrite Hs] |].
      destruct (Hj i) as (s' & Hs' & Hne); [lia |].
      destruct Hlast as [Hl|Hl]; rewrite Hl in Hs'; simplify_eq. }
  assert (Hnone : slot_salts r i = None -> forall s, s ∈ m <->
      exists j, slot_read r stop j /\ slot_salts r j = Some s).
  { intros Hi s. rewrite <- Hstop, Hm by by left. split; intros (j & Hj & Hs); exists j; (split; [|done]).
    - by left.
    - destruct Hj as [?|[_ []]]; done. }
  destruct (wr_read r O WALFrameHeaderSize (with_offset r i)) as [hdr err] eqn:Eh.
  assert (Hsl : slot_salts r i = if beyondBound r (with_offset r i) (frameSize r) then None
     else if Z.of_nat (length hdr) =? WALFrameHeaderSize
          then Some (Uint32 BigEndian (drop 8 hdr), Uint32 BigEndian (drop 12 hdr)) else None)
    by (unfold slot_salts; by rewrite Eh).
  case_if; [simplify_eq; by apply Hnone |].
  destruct (Z.of_nat (length hdr) =? WALFrameHeaderSize); simpl negb in Hrun; cbn iota in Hrun;
    [|simplify_eq; by apply Hnone].
  destruct err; [done |].
  set (s0 := (Uint32 BigEndian (drop 8 hdr), Uint32 BigEndian (drop 12 hdr))) in *.
  assert (Hm' : forall s, s ∈ {[s0]} ∪ m <-> exists j, (j < S i)%nat /\ slot_salts r j = Some s).
  { intros s. rewrite elem_of_union, elem_of_singleton, Hm. split.
    - intros [->|(j & Hj & Hs)]; [exists i | exists j]; (split; [lia | done]).
    - intros (j & Hj & Hs). destruct (decide (j = i)) as [->|]; [left; congruence | right].
      exists j. split; [lia | done]. }
  destruct (decide (s0 = stop)) as [He|Hne].
  - assert (Ht : (Uint32 BigEndian (drop 8 hdr) =? stop.1) && (Uint32 BigEndian (drop 12 hdr) =? stop.2) = true)
      by (rewrite <- He; simpl; by rewrite !Z.eqb_refl).
    rewrite Ht in Hrun. injection Hrun as <- <-. intros s.
    rewrite <- Hstop by (right; by rewrite Hsl, He).
    rewrite Hm'. split; intros (j & Hj & Hs); exists j; (split; [|done]).
    + destruct (decide (j = i)); [right; split; [done | by rewrite Hsl] | left; lia].
    + destruct Hj as [?|[-> _]]; lia.
  - case_if.
    { breflect. destruct Hne. destruct stop. unfold s0. simpl in *. congruence. }
    change (frameSize (tick 1 r)) with (frameSize r) in Hrun.
    replace (with_offset r i + frameSize r) with (with_offset (tick 1 r) (S i)) in Hrun
      by (unfold with_offset; change (frameSize (tick 1 r)) with (frameSize r); lia).
    eapply (IH stop (S i) ({[s0]} ∪ m) (tick 1 r)); [done | | exact Hm' | exact Hrun].
    intros j Hj. destruct (decide (j = i)) as [->|]; [exists s0; by split | apply Hread; lia].
Qed.

Lemma FrameSalts_loop_terminates fuel : forall stop offset m r,
  (0 < fuel)%nat -> 0 < wr_size r -> wr_size r < offset + Z.of_nat fuel * frameSize r ->
  is_Some (FrameSalts_loop fuel stop offset m r).
Proof.
  induction fuel as [|fuel IH]; intros stop offset m r Hf Hs Hb; [lia |].
  cbn [FrameSalts_loop]. destruct (beyondBound r offset (frameSize r)) eqn:Eb; [by eexists |].
  unfold beyondBound in Eb. apply andb_false_iff in Eb as [Eb|Eb]; breflect; [lia |].
  destruct (wr_read r (wr_clock r) WALFrameHeaderSize offset) as [hdr err].
  case_if; [by eexists |]. destruct err; [by eexists |]. case_if; [by eexists |].
  change (frameSize (tick 1 r)) with (frameSize r).
  apply IH; [destruct fuel; lia | done |]. change (frameSize (tick 1 r)) with (frameSize r).
  change (wr_size (tick 1 r)) with (wr_size r). lia.
Qed.

(** ** Properties *)

(** A scan never outlives the WAL it was opened on.  Whatever the file
    contains at each later read (SQLite may be appending frames behind the
    reader) and whenever the context is cancelled, [PageMap] of a reader with a
    size bound returns after at most one iteration per frame that fits below the
    bound, so the pre-checkpoint sync cannot chase the writer forever. *)
Theorem PageMap_bounded_scan fuel ctx r :
  (0 < fuel)%nat -> 0 < wr_size r ->
  wr_size r < WALHeaderSize + (wr_frameN r + Z.of_nat fuel) * frameSize r ->
  exists x r', PageMap fuel ctx r = Some (x, r').
Proof. intros Hf Hs Hb. destruct (PageMap_terminates fuel ctx r Hf Hs Hb) as [[x r'] ->]. eauto. Qed.

(** C17: [PageMap] refines its specification: the map it returns sends exactly
    the pages of the committed database ([p <= last_commit]) that have a
    committed frame to the offset of the last such frame; frames of a
    transaction without a commit record and pages cut off by a later, smaller
    commit are invisible.  It reports the size of the last commit and an end
    that no mapped frame exceeds and one of them reaches. *)
Theorem PageMap_latest_committed fuel ctx r fs r' :
  (forall k, ctx k = None) -> frames fuel r = Some (fs, r') ->
  0 <= wr_frameN r -> 0 <= wr_pageSize r ->
  exists (m : gmap Z Z) e c,
    PageMap fuel ctx r = Some (Ok (m, e, c), r') /\
    (forall p, m !! p = if p <=? last_commit fs then latest p (committed fs) else None) /\
    (m = ∅ -> e = 0 /\ c = 0) /\
    (m <> ∅ -> c = last_commit fs /\
       (forall p o, m !! p = Some o -> o + (WALFrameHeaderSize + wr_pageSize r') <= e) /\
       exists p o, m !! p = Some o /\ e = o + (WALFrameHeaderSize + wr_pageSize r')).
Proof.
  intros Hctx Hfr Hn Hps. destruct (PageMap_frames _ _ _ _ _ Hctx Hfr) as (m & Hm & ->).
  assert (Hpos : forall p o, m !! p = Some o -> 0 < o) by (eapply spec_page_pos; eauto).
  destruct (map_end_spec m Hpos) as [Hmax Hex].
  case_decide as Hd; eexists m, _, _; (split; [done |]); (split; [exact Hm |]).
  - split; [done | by intros []].
  - split; [done |]. intros _. split; [done |]. split.
    + intros p o H%Hmax. lia.
    + destruct Hex as [[? _]|[p Hp]]; [done |]. by eexists p, _.
Qed.

(** The position that [PageMap] reports is the end of the last commit frame,
    provided that frame writes a page of the database it commits: nothing
    between the previous position and the reported one is skipped. *)
Theorem PageMap_sync_position fuel ctx r fs r' f :
  (forall k, ctx k = None) -> frames fuel r = Some (fs, r') ->
  0 <= wr_frameN r -> 0 <= wr_pageSize r ->
  last (committed fs) = Some f -> fr_pgno f <= last_commit fs ->
  exists m, PageMap fuel ctx r =
    Some (Ok (m, fr_offset f + (WALFrameHeaderSize + wr_pageSize r'), last_commit fs), r').
Proof. apply PageMap_end_at_commit. Qed.

(** A frame is delivered only if it was read in full below the bound, its
    salts are those of the reader and the running checksum, extended over its
    header and page, is the one stored in it; the reader then stands on the next
    frame with that checksum. *)
Theorem ReadFrame_integrity r n pgno commit data r' :
  ReadFrame r n = (Ok (pgno, commit, data), r') ->
  data = frame_data r /\ Z.of_nat (length data) = wr_pageSize r /\
  salts_match r (frame_hdr r) /\
  running_chksum r (frame_hdr r) data = stored_chksum (frame_hdr r) /\
  pgno = Uint32 BigEndian (frame_hdr r) /\
  commit = Uint32 BigEndian (drop 4 (frame_hdr r)) /\
  r' = after_frame r (stored_chksum (frame_hdr r)).1 (stored_chksum (frame_hdr r)).2.
Proof.
  intros (-> & _ & _ & Hl & Hd & Hs & Hc & Hp & Hcm & Hr)%readFrame_ok_inv.
  repeat split; try apply Hs; auto.
Qed.

(** Opening a WAL at an offset is equivalent to opening it at the start and
    reading up to that offset: [NewWALReaderWithOffset] at the end of the n-th
    frame succeeds and its [PageMap] returns what the reader that read those n
    frames returns. *)
Theorem resume_equivalence rd src r0 n rn :
  static rd -> NewWALReader rd src = Ok r0 -> frameSize r0 <> 0 ->
  read_n (S n) r0 = Some rn ->
  exists r', NewWALReaderWithOffset rd src
               (WALHeaderSize + Z.of_nat (S n) * frameSize r0) (wr_salt1 r0) (wr_salt2 r0) = Ok r' /\
    forall fuel, fst <$> PageMap fuel (fun _ => None) r' = fst <$> PageMap fuel (fun _ => None) rn.
Proof.
  intros Hst Hnew Hfs Hrn.
  destruct (resume_reader _ _ _ _ _ Hst Hnew Hfs Hrn) as (r' & Hr' & Hu & Hrd).
  exists r'. split; [done |]. intros fuel. apply PageMap_unclock; [by rewrite Hrd | done].
Qed.

(** A WAL written in SQLite's format is read back: the header is accepted
    and [ReadFrame] delivers every frame, with its page number, commit size and
    offset, in order, and then the end of the log. *)
Theorem wal_read_back bo ps seq s1 s2 pages (src : size_source) :
  page_size_ok ps -> is_u32 seq -> is_u32 s1 -> is_u32 s2 ->
  Forall (wal_page_ok ps) pages ->
  (src = NoSize \/ src = HasSize (Z.of_nat (length (wal_file bo ps seq s1 s2 pages)))) ->
  exists r0 r', NewWALReader (fun _ => file_readAt (wal_file bo ps seq s1 s2 pages)) src = Ok r0 /\
    frames (S (length pages)) r0 = Some (expected_frames ps WALHeaderSize pages, r').
Proof.
  intros Hps Hseq H1 H2 HF Hsrc.
  assert (Hu : is_u32 ps) by (destruct Hps; unfold is_u32, WALFrameHeaderSize in *; lia).
  set (n := match src with HasSize n => n | _ => 0 end).
  assert (Hsz : readerSize src = Ok n) by (destruct Hsrc; by subst src).
  unfold wal_file at 1. rewrite (readHeader_wal bo ps seq s1 s2 _ src n Hu Hseq H1 H2 Hsz).
  set (c := checksum_units bo 0 0 (wal_header24 bo ps seq s1 s2)).
  assert (Hc : is_u32 c.1 /\ is_u32 c.2) by (apply checksum_units_range; unfold is_u32; lia).
  assert (Heta : (c.1, c.2) = c) by (symmetry; apply surjective_pairing).
  assert (Hlen : 32 = Z.of_nat (length (wal_header bo ps seq s1 s2))) by reflexivity.
  unfold wal_file in Hsrc. fold c in Hsrc. clearbody c.
  eexists. set (r0 := Build_WALReader _ _ _ _ _ _ _ _ _ _ _ _).
  destruct (frames_wal pages r0 (wal_header bo ps seq s1 s2)) as [r' Hr'];
    subst r0; cbn [wr_read wr_bo wr_salt1 wr_salt2 wr_chksum1 wr_chksum2 wr_size wr_pageSize
      wr_frameN]; rewrite ?Heta; try assumption;
    [ reflexivity | lia | | apply Hc.. | ].
  - subst n. destruct Hsrc as [-> | ->]; [by left | by right].
  - exists r'. split; [reflexivity | exact Hr'].
Qed.

(** On an unchanging file [FrameSaltsUntil] returns the salts of exactly the
    frame slots before the first unreadable one, up to and including the first
    slot that carries the salt it looks for; with a size bound it always
    returns. *)
Theorem FrameSaltsUntil_correct stop r :
  static (wr_read r) ->
  (forall fuel m r', FrameSaltsUntil fuel stop r = Some (Ok m, r') ->
     forall s, s ∈ m <-> exists j, slot_read r stop j /\ slot_salts r j = Some s) /\
  (forall fuel, (0 < fuel)%nat -> 0 < wr_size r ->
     wr_size r < WALHeaderSize + Z.of_nat fuel * frameSize r ->
     is_Some (FrameSaltsUntil fuel stop r)).
Proof.
  intros Hst. split.
  - intros fuel m r' H. eapply (FrameSalts_loop_spec fuel stop 0 ∅); [done | | | exact H].
    + intros j Hj. lia.
    + intros s. split; [set_solver |]. intros (j & Hj & _). lia.
  - intros fuel Hf Hs Hb. by apply FrameSalts_loop_terminates.
Qed.

(** ** Witnesses

    A WAL with four frames of eight-byte pages: a transaction that writes pages
    1 and 2, one that rewrites page 1, and an unfinished one. *)
Definition demo_pages : list wal_page :=
  [ {| wp_pgno := 1; wp_commit := 0; wp_data := repeat x01 8 |};
    {| wp_pgno := 2; wp_commit := 2; wp_data := repeat x02 8 |};
    {| wp_pgno := 1; wp_commit := 2; wp_data := repeat x03 8 |};
    {| wp_pgno := 2; wp_commit := 0; wp_data := repeat x04 8 |} ].

Definition demo_file : list byte := wal_file LittleEndian 8 0 7 9 demo_pages.
Definition demo_source : size_source := HasSize (Z.of_nat (length demo_file)).
Definition demo_read : nat -> ReaderAt := fun _ => file_readAt demo_file.

Definition demo_reader : WALReader :=
  match NewWALReader demo_read demo_source with Ok r => r | _ => fresh_reader demo_read NoSize end.

Definition demo_after (n : nat) : WALReader :=
  match read_n n demo_reader with Some r => r | None => demo_reader end.

Definition demo_frames : list frame * WALReader :=
  match frames 5 demo_reader with Some x => x | None => ([], demo_reader) end.

Lemma demo_reader_eq : NewWALReader demo_read demo_source = Ok demo_reader.
Proof. reflexivity. Qed.

Lemma PageMap_bounded_scan_witness :
  exists x r', PageMap 5 (fun _ => None) demo_reader = Some (x, r').
Proof. apply (PageMap_bounded_scan 5); [lia | vm_compute; reflexivity | vm_compute; reflexivity]. Defined.

Lemma PageMap_latest_committed_witness :
  exists (m : gmap Z Z) e c, PageMap 5 (fun _ => None) demo_reader = Some (Ok (m, e, c), demo_frames.2) /\
    m !! 1 = Some 96 /\ m !! 2 = Some 64 /\ m !! 3 = None.
Proof.
  destruct (PageMap_latest_committed 5 (fun _ => None) demo_reader demo_frames.1 demo_frames.2)
    as (m & e & c & Hrun & Hm & _); [done | vm_compute; reflexivity | vm_compute; discriminate
    | vm_compute; discriminate |].
  exists m, e, c. split; [exact Hrun |]. rewrite !Hm. repeat split; vm_compute; reflexivity.
Defined.

Lemma PageMap_sync_position_witness :
  exists m, PageMap 5 (fun _ => None) demo_reader = Some (Ok (m, 128, 2), demo_frames.2).
Proof.
  apply (PageMap_sync_position 5 (fun _ => None) demo_reader demo_frames.1 demo_frames.2
    {| fr_pgno := 1; fr_commit := 2; fr_offset := 96 |});
    [done | vm_compute; reflexivity | vm_compute; discriminate | vm_compute; discriminate
    | vm_compute; reflexivity | vm_compute; discriminate].
Defined.

Lemma ReadFrame_integrity_witness :
  salts_match demo_reader (frame_hdr demo_reader) /\
  running_chksum demo_reader (frame_hdr demo_reader) (repeat x01 8) = stored_chksum (frame_hdr demo_reader).
Proof.
  destruct (ReadFrame_integrity demo_reader 8 1 0 (repeat x01 8) (demo_after 1))
    as (_ & _ & Hs & Hc & _); [vm_compute; reflexivity |]. split; [exact Hs | exact Hc].
Defined.

Lemma resume_equivalence_witness :
  exists r', NewWALReaderWithOffset demo_read demo_source 96 7 9 = Ok r' /\
    forall fuel, fst <$> PageMap fuel (fun _ => None) r' = fst <$> PageMap fuel (fun _ => None) (demo_after 2).
Proof.
  apply (resume_equivalence demo_read demo_source demo_reader 1 (demo_after 2));
    [done | reflexivity | vm_compute; discriminate | vm_compute; reflexivity].
Defined.

Lemma wal_read_back_witness :
  exists r0 r', NewWALReader demo_read demo_source = Ok r0 /\
    frames 5 r0 = Some (expected_frames 8 WALHeaderSize demo_pages, r').
Proof.
  apply (wal_read_back LittleEndian 8 0 7 9 demo_pages demo_source); unfold is_u32;
    [by vm_compute | lia | lia | lia | | by right].
  repeat constructor; unfold is_u32; simpl; lia.
Defined.

Lemma FrameSaltsUntil_correct_witness :
  is_Some (FrameSaltsUntil 6 (7, 9) demo_reader) /\
  (forall m r', FrameSaltsUntil 6 (7, 9) demo_reader = Some (Ok m, r') -> (7, 9) ∈ m).
Proof.
  destruct (FrameSaltsUntil_correct (7, 9) demo_reader) as [Hspec Hterm]; [done |]. split.
  - apply Hterm; [lia | vm_compute; reflexivity | vm_compute; reflexivity].
  - intros m r' H. apply (Hspec 6%nat m r' H). exists 0%nat. split; [intros j Hj; lia | vm_compute; reflexivity].
Defined.
