(* ===== verification/Ltx.v ===== *)
(** * LTX metadata and the replica client interface

    The values the components exchange: transaction ids, file infos, listings,
    streams (types of the ltx package, as the sources use them), the
    [ReplicaClient] interface of src/replica_client.go with the laws its
    comments state, [FindLTXFiles], [FetchLTXHeader], [fetchPageIndexData] and
    the [LTXError] constructors of src/replicate.go. *)

From Stdlib Require Import ZArith Lia Strings.Byte.
From stdpp Require Import base numbers list strings gmap sorting.
From S2P Require Import Prelude.
Local Open Scope Z_scope.

(** ** Transaction ids, file infos, listings *)

(** [ltx.TXID] is a uint64. *)
Abbreviation TXID := Z (only parsing).

Definition txid_succ (t : TXID) : TXID := u64 (t + 1).

Definition SnapshotLevel : Z := 9.

Record FileInfo := mkFileInfo {
  Level : Z;
  MinTXID : TXID;
  MaxTXID : TXID;
  FSize : Z;
  CreatedAt : time
}.

#[export] Instance FileInfo_eq_dec : EqDecision FileInfo.
Proof. solve_decision. Defined.

Definition zeroFileInfo : FileInfo := mkFileInfo 0 0 0 0 0.

(** An [ltx.FileIterator]: the items [Next] delivers, then what [Err] and
    [Close] return. *)
Record FileIterator := mkIter {
  itr_items : list FileInfo;
  itr_Err : option error;
  itr_Close : option error
}.

(** A byte stream ([io.Reader]): the bytes it delivers, then [io.EOF] ([None])
    or another error. *)
Record Reader := mkReader { rd_data : list byte; rd_err : option error }.

(** [io.ReadAll]. *)
Definition ReadAll (r : Reader) : result (list byte) :=
  match rd_err r with None => Ok (rd_data r) | Some e => Err e end.

(** ** The client interface *)

Class ReplicaClient (C : Type) := {
  LTXFiles : C -> Z -> TXID -> bool -> result FileIterator;
  OpenLTXFile : C -> Z -> TXID -> TXID -> Z -> Z -> result Reader;
  WriteLTXFile : C -> Z -> TXID -> TXID -> Reader -> C * result FileInfo;
  DeleteLTXFiles : C -> list FileInfo -> C * option error
}.

(** Two infos name the same object: level and TXID range make the path. *)
Definition same_file (a b : FileInfo) : bool :=
  (Level a =? Level b) && (MinTXID a =? MinTXID b) && (MaxTXID a =? MaxTXID b).

Definition listed (a : list FileInfo) (f : FileInfo) : bool := existsb (same_file f) a.

(** What the interface comments promise.  [level_files c um level] are the
    files of a level, as listed with metadata timestamps or without. *)
Class ReplicaClientLaws (C : Type) `{ReplicaClient C} := {
  level_files : C -> bool -> Z -> list FileInfo;
  (** files come in filename order *)
  level_files_sorted c um level :
    StronglySorted (fun a b => MinTXID a <= MinTXID b) (level_files c um level);
  (** one object per path *)
  level_files_distinct c um level :
    StronglySorted (fun a b => same_file a b = false) (level_files c um level);
  level_files_level c um level f :
    In f (level_files c um level) -> Level f = level;
  level_files_range c um level f :
    In f (level_files c um level) -> 0 <= MinTXID f < 2 ^ 64 /\ 0 <= MaxTXID f < 2 ^ 64;
  (** a listing that reports no error is complete from the seek position *)
  LTXFiles_items c level seek um itr :
    LTXFiles c level seek um = Ok itr ->
    itr_items itr `prefix_of` filter (fun f => seek <=? MinTXID f) (level_files c um level);
  LTXFiles_complete c level seek um itr :
    LTXFiles c level seek um = Ok itr -> itr_Err itr = None ->
    itr_items itr = filter (fun f => seek <=? MinTXID f) (level_files c um level);
  LTXFiles_close c level seek um itr :
    LTXFiles c level seek um = Ok itr -> itr_Close itr = itr_Err itr;
  (** a successful delete removes exactly the files named; a failed one removes some of them *)
  DeleteLTXFiles_ok c a c' um level :
    DeleteLTXFiles c a = (c', None) ->
    level_files c' um level = filter (fun f => negb (listed a f)) (level_files c um level);
  DeleteLTXFiles_err c a c' e um level f :
    DeleteLTXFiles c a = (c', Some e) ->
    In f (level_files c um level) -> listed a f = false -> In f (level_files c' um level)
}.

(** ** FindLTXFiles *)

Definition ErrStopIter : error := EVar "stop iterator".

Section FindLTXFiles.
Context {C : Type} `{ReplicaClient C}.
Variable flt : FileInfo -> bool * option error.

(** The loop: the files collected, and the error of the filter that ended it. *)
Fixpoint Find_loop (items a : list FileInfo) : list FileInfo * option error :=
  match items with
  | [] => (a, None)
  | item :: items' =>
      let '(mtch, err) := flt item in
      let a := if mtch then a ++ [item] else a in
      match err with
      | Some e => if errors_Is e ErrStopIter then (a, None) else (a, Some e)
      | None => Find_loop items' a
      end
  end.

Definition FindLTXFiles (client : C) (level : Z) (useMetadata : bool)
  : list FileInfo * option error :=
  match LTXFiles client level 0 useMetadata with
  | Err e => ([], Some e)
  | Panic _ => ([], None)
  | Ok itr =>
      match Find_loop (itr_items itr) [] with
      | (a, Some e) => (a, Some e)
      | (a, None) =>
          match itr_Close itr with
          | Some e => ([], Some e)
          | None => (a, None)
          end
      end
  end.
End FindLTXFiles.

(** ** LTX errors (src/replicate.go) *)

Definition ErrNoSnapshots : error := EVar "no snapshots available".
Definition ErrChecksumMismatch : error := EVar "invalid replica, checksum mismatch".
Definition ErrLTXCorrupted : error := EVar "ltx file corrupted".
Definition ErrLTXMissing : error := EVar "ltx file missing".

(** The method of [*LTXError]; [err] is its [Err] field. *)
Definition IsAutoRecoverable (err : error) : bool :=
  if os_IsNotExist err || errors_Is err ErrLTXMissing then true
  else if errors_Is err ErrLTXCorrupted || errors_Is err ErrChecksumMismatch then true
  else false.

Definition hint_missing : string :=
  "LTX file is missing. This can happen after VACUUM, manual checkpoint, or state corruption. Run 'replicate reset <db>' or delete the .sqlite-replicate directory and restart.".
Definition hint_corrupted : string :=
  "LTX file is corrupted. Delete the .sqlite-replicate directory and restart to recover from replica.".

Definition NewLTXError (op path : string) (level minTXID maxTXID : Z) (err : error) : error :=
  let hint :=
    if os_IsNotExist err || errors_Is err ErrLTXMissing then hint_missing
    else if errors_Is err ErrLTXCorrupted || errors_Is err ErrChecksumMismatch then hint_corrupted
    else "" in
  ELTX op path level minTXID maxTXID err hint.

(** [errors.As(err, &ltxErr)]: the first [*LTXError] of the chain; its [Err] field. *)
Fixpoint as_LTXError (e : error) : option error :=
  match e with
  | ELTX _ _ _ _ _ c _ => Some c
  | EWrap _ c | EPath _ c | EPrevFrame c => as_LTXError c
  | EJoin e1 e2 => match as_LTXError e1 with Some c => Some c | None => as_LTXError e2 end
  | _ => None
  end.

(** ** Facts shared by the components *)

Lemma txid_succ_small t : 0 <= t < 2 ^ 64 - 1 -> txid_succ t = t + 1.
Proof. intros. apply u64_small. lia. Qed.

Lemma same_file_refl f : same_file f f = true.
Proof. unfold same_file. by rewrite !Z.eqb_refl. Qed.

Lemma listed_In a f : In f a -> listed a f = true.
Proof.
  intros Hf. unfold listed. apply existsb_exists. exists f. by rewrite same_file_refl.
Qed.

Lemma listed_spec a f :
  listed a f = true <->
  exists g, In g a /\ Level f = Level g /\ MinTXID f = MinTXID g /\ MaxTXID f = MaxTXID g.
Proof.
  unfold listed. rewrite existsb_exists. split.
  - intros (g & Hg & E). unfold same_file in E. breflect. eauto.
  - intros (g & Hg & E1 & E2 & E3). exists g. split; [done|].
    unfold same_file. by rewrite E1, E2, E3, !Z.eqb_refl.
Qed.

Lemma same_file_sym f g : same_file f g = same_file g f.
Proof. unfold same_file. by rewrite (Z.eqb_sym (Level f)), (Z.eqb_sym (MinTXID f)), (Z.eqb_sym (MaxTXID f)). Qed.

(** A level holds one object per path. *)
Lemma same_file_In l f g :
  StronglySorted (fun a b => same_file a b = false) l -> In f l -> In g l -> same_file f g = true -> f = g.
Proof.
  intros Hs Hf Hg E. induction Hs as [|x l Hs IH HF]; [done|].
  rewrite Forall_forall in HF. setoid_rewrite list_elem_of_In in HF.
  destruct Hf as [<-|Hf], Hg as [<-|Hg]; auto.
  - apply HF in Hg. congruence.
  - apply HF in Hf. rewrite same_file_sym in Hf. congruence.
Qed.

Lemma filter_cons_bool {A} (f : A -> bool) x l :
  filter f (x :: l) = if f x then x :: filter f l else filter f l.
Proof. rewrite filter_cons. by destruct (f x). Qed.

Lemma filter_all_true {A} (f : A -> bool) l :
  (forall x, In x l -> f x = true) -> filter f l = l.
Proof.
  induction l as [|x l IH]; intros Hf; [done|].
  rewrite filter_cons_bool, (Hf x (or_introl eq_refl)).
  f_equal. apply IH. intros; apply Hf; by right.
Qed.

Lemma In_filter_bool {A} (f : A -> bool) l x :
  In x (filter f l) <-> f x = true /\ In x l.
Proof.
  rewrite <- !list_elem_of_In, list_elem_of_filter, Is_true_true. done.
Qed.

Lemma StronglySorted_filter_bool {A} (R : A -> A -> Prop) (f : A -> bool) l :
  StronglySorted R l -> StronglySorted R (filter f l).
Proof.
  induction 1 as [|x l Hs IH HF]; [constructor|].
  rewrite filter_cons_bool. destruct (f x); [|done].
  constructor; [done|]. rewrite Forall_forall in HF |- *.
  intros y Hy. apply HF. by apply list_elem_of_filter in Hy as [_ ?].
Qed.

(** The complete listing of a level from its start. *)
Lemma LTXFiles_all `{ReplicaClientLaws C} c level um itr :
  LTXFiles c level 0 um = Ok itr -> itr_Err itr = None ->
  itr_items itr = level_files c um level.
Proof.
  intros HL HE. rewrite (LTXFiles_complete _ _ _ _ _ HL HE).
  apply filter_all_true. intros f Hf. apply level_files_range in Hf. lia.
Qed.

(** ** A reference client

    The interface implemented by an ordered list of objects in memory: the
    laws above have a model, on which the theorems that assume them are
    evaluated. *)
Module Mem.
Definition object : Type := FileInfo * list byte.

Fixpoint ordered (l : list FileInfo) : bool :=
  match l with
  | [] => true
  | f :: l' => forallb (fun g => (MinTXID f <=? MinTXID g) && negb (same_file f g)) l' && ordered l'
  end.

Definition in_range (f : FileInfo) : bool :=
  (0 <=? MinTXID f) && (MinTXID f <? 2 ^ 64) && (0 <=? MaxTXID f) && (MaxTXID f <? 2 ^ 64).

Definition wf (l : list object) : bool := ordered l.*1 && forallb in_range l.*1.

Record client := mkClient { objects : list object; objects_wf : wf objects = true }.

Definition files (c : client) (um : bool) (level : Z) : list FileInfo :=
  filter (fun f => Level f =? level) (objects c).*1.

Fixpoint insert (o : object) (l : list object) : list object :=
  match l with
  | [] => [o]
  | p :: l' =>
      if same_file (fst p) (fst o) then o :: l'
      else if MinTXID (fst o) <? MinTXID (fst p) then o :: l else p :: insert o l'
  end.

Lemma wf_filter (f : FileInfo -> bool) l :
  wf l = true -> wf (filter (fun o : object => f (fst o)) l) = true.
Proof.
  unfold wf. induction l as [|[i b] l IH]; [done|].
  rewrite fmap_cons. cbn [ordered forallb fst]. intros [[E1 HO]%andb_true_iff [E2 HR]%andb_true_iff]%andb_true_iff.
  rewrite HO, HR in IH. specialize (IH eq_refl). rewrite filter_cons_bool. cbn [fst].
  destruct (f i); [|done]. rewrite fmap_cons. cbn [ordered forallb fst]. apply andb_true_iff in IH as [-> ->].
  rewrite E2, !andb_true_r. apply forallb_forall. intros x Hx.
  rewrite forallb_forall in E1. apply E1.
  apply list_elem_of_In, list_elem_of_fmap in Hx as ([k c] & -> & Hx).
  apply list_elem_of_In, list_elem_of_fmap. exists (k, c). split; [done|].
  by apply list_elem_of_filter in Hx as [_ ?].
Qed.

Definition put (c : client) (o : object) : option client :=
  match bool_dec (wf (insert o (objects c))) true with
  | left H => Some (mkClient _ H)
  | right _ => None
  end.

Definition remove (c : client) (a : list FileInfo) : client :=
  mkClient _ (wf_filter (fun f => negb (listed a f)) _ (objects_wf c)).

#[global] Instance client_ops : ReplicaClient client := {
  LTXFiles c level seek um :=
    Ok (mkIter (filter (fun f => seek <=? MinTXID f) (files c um level)) None None);
  OpenLTXFile c level minTXID maxTXID off n :=
    match List.find (fun o : object => same_file (fst o) (mkFileInfo level minTXID maxTXID 0 0)) (objects c) with
    | Some (_, b) => Ok (mkReader (if 0 <? n then slice b off n else drop (Z.to_nat off) b) None)
    | None => Err (EPath "open" ErrNotExist)
    end;
  WriteLTXFile c level minTXID maxTXID rd :=
    match rd_err rd with
    | Some e => (c, Err e)
    | None =>
        let info := mkFileInfo level minTXID maxTXID (Z.of_nat (length (rd_data rd))) 0 in
        match put c (info, rd_data rd) with
        | Some c' => (c', Ok info)
        | None => (c, Err (EMsg "invalid file"))
        end
    end;
  DeleteLTXFiles c a := (remove c a, None)
}.

Lemma ordered_sorted l :
  ordered l = true ->
  StronglySorted (fun a b => MinTXID a <= MinTXID b) l /\ StronglySorted (fun a b => same_file a b = false) l.
Proof.
  induction l as [|f l IH]; [split; constructor|]. cbn [ordered]. intros [H1 H2]%andb_true_iff.
  rewrite forallb_forall in H1. destruct (IH H2) as [IH1 IH2].
  split; (constructor; [done|]); apply Forall_forall; intros g Hg;
    apply list_elem_of_In, H1 in Hg; breflect; done.
Qed.

Lemma filter_fst (f : FileInfo -> bool) (l : list object) :
  (filter (fun o : object => f (fst o)) l).*1 = filter f l.*1.
Proof.
  induction l as [|o l IH]; [done|]. rewrite fmap_cons, !filter_cons_bool.
  destruct (f (fst o)); [|done]. by rewrite fmap_cons, IH.
Qed.

Lemma filter_comm (f g : FileInfo -> bool) (l : list FileInfo) : filter f (filter g l) = filter g (filter f l).
Proof.
  induction l as [|o l IH]; [done|]. rewrite !filter_cons_bool.
  destruct (f o) eqn:E1, (g o) eqn:E2; rewrite ?filter_cons_bool, ?E1, ?E2, IH; done.
Qed.

#[global] Instance client_laws : ReplicaClientLaws client.
Proof.
  refine {| level_files := files |}.
  - intros c um level. apply StronglySorted_filter_bool, ordered_sorted.
    pose proof (objects_wf c) as HW. unfold wf in HW. by breflect.
  - intros c um level. apply StronglySorted_filter_bool, ordered_sorted.
    pose proof (objects_wf c) as HW. unfold wf in HW. by breflect.
  - intros c um level f [E _]%In_filter_bool. by breflect.
  - intros c um level f [_ Hf]%In_filter_bool.
    pose proof (objects_wf c) as HW. unfold wf in HW. apply andb_true_iff in HW as [_ HW].
    rewrite forallb_forall in HW. apply HW in Hf. unfold in_range in Hf. breflect. lia.
  - by intros c level seek um itr [= <-].
  - by intros c level seek um itr [= <-].
  - by intros c level seek um itr [= <-].
  - intros c a c' um level [= <-]. unfold files, remove. cbn [objects].
    rewrite (filter_fst (fun f => negb (listed a f))). apply filter_comm.
  - by intros c a c' e um level f [=].
Defined.
End Mem.
