(* ===== verification/Levels.v ===== *)
(** * Compaction levels

    Model of src/compaction_level.go: the configuration of the compaction
    levels, its validation, the walk between levels and the compaction times. *)

From Stdlib Require Import ZArith Lia.
From stdpp Require Import base numbers list strings gmap sorting.
From S2P Require Import Prelude Ltx.
Local Open Scope Z_scope.

Record CompactionLevel := mkLevel { lvl_Level : Z; Interval : duration }.

Definition CompactionLevels : Type := list CompactionLevel.

Definition DefaultCompactionLevels : CompactionLevels :=
  [mkLevel 0 0; mkLevel 1 (30 * Second); mkLevel 2 (5 * Minute); mkLevel 3 Hour].

Definition PrevCompactionAt (lvl : CompactionLevel) (now : time) : time :=
  time_Truncate now (Interval lvl).

Definition NextCompactionAt (lvl : CompactionLevel) (now : time) : time :=
  PrevCompactionAt lvl now + Interval lvl.

Definition MaxLevel (a : CompactionLevels) : Z := Z.of_nat (length a) - 1.

Definition level_at (a : CompactionLevels) (level : Z) : result CompactionLevel :=
  if level =? SnapshotLevel then Err (EMsg "invalid argument, snapshot level")
  else if (level <? 0) || (MaxLevel a <? level) then Err (EMsg "level out of bounds")
  else match a !! Z.to_nat level with
       | Some lvl => Ok lvl
       | None => Panic "index out of range"
       end.

(** The loop of [Validate] from index [i]. *)
Fixpoint Validate_loop (i : Z) (a : CompactionLevels) : result () :=
  match a with
  | [] => Ok ()
  | lvl :: a =>
      if negb (i =? lvl_Level lvl) then Err (EMsg "compaction level number out of order")
      else if SnapshotLevel - 1 <? lvl_Level lvl then Err (EMsg "compaction level cannot exceed 8")
      else if (lvl_Level lvl =? 0) && negb (Interval lvl =? 0)
      then Err (EMsg "cannot set interval on compaction level zero")
      else if negb (lvl_Level lvl =? 0) && (Interval lvl <=? 0)
      then Err (EMsg "interval required for level")
      else Validate_loop (i + 1) a
  end.

Definition Validate (a : CompactionLevels) : result () :=
  if bool_decide (length a = 0%nat) then Err (EMsg "at least one compaction level is required")
  else Validate_loop 0 a.

Definition IsValidLevel (a : CompactionLevels) (level : Z) : bool :=
  if level =? SnapshotLevel then true else (0 <=? level) && (level <? Z.of_nat (length a)).

Definition PrevLevel (a : CompactionLevels) (level : Z) : Z :=
  if level =? SnapshotLevel then MaxLevel a else level - 1.

Definition NextLevel (a : CompactionLevels) (level : Z) : Z :=
  if level =? SnapshotLevel then -1
  else if level =? MaxLevel a then SnapshotLevel else level + 1.

(** ** Validation *)

(** A level of a valid configuration. *)
Definition level_ok (i : nat) (lvl : CompactionLevel) : Prop :=
  lvl_Level lvl = Z.of_nat i /\ (i <= 8)%nat /\
  (i = 0%nat -> Interval lvl = 0) /\ (i <> 0%nat -> 0 < Interval lvl).

Lemma Validate_loop_spec i a :
  Validate_loop (Z.of_nat i) a = Ok () <-> forall j lvl, a !! j = Some lvl -> level_ok (i + j) lvl.
Proof.
  revert i. induction a as [|lvl a IH]; intros i; cbn [Validate_loop].
  { split; [by intros _ j ? ?|done]. }
  replace (Z.of_nat i + 1) with (Z.of_nat (S i)) by lia.
  assert (level_ok i lvl \/ ~ level_ok i lvl) as [Hok|Hno].
  { unfold level_ok. destruct (decide (lvl_Level lvl = Z.of_nat i)), (decide (i <= 8)%nat),
      (decide (i = 0%nat)), (decide (Interval lvl = 0)), (decide (0 < Interval lvl)); (left; lia) || (right; lia). }
  - destruct Hok as (H1 & H2 & H3 & H4). unfold SnapshotLevel. rewrite H1.
    destruct (Z.eqb_spec (Z.of_nat i) (Z.of_nat i)); [|lia].
    destruct (Z.ltb_spec (9 - 1) (Z.of_nat i)); [lia|].
    destruct (Z.eqb_spec (Z.of_nat i) 0), (Z.eqb_spec (Interval lvl) 0), (Z.leb_spec (Interval lvl) 0);
      simpl; try lia.
    all: rewrite IH; split; [intros HA [|j] l Hl; simplify_eq/=; [by rewrite Nat.add_0_r|]|intros HA j l Hl].
    all: try (rewrite <- Nat.add_succ_comm; by apply HA).
    all: rewrite Nat.add_succ_comm; by apply (HA (S j)).
  - split; [|intros HA; destruct Hno; specialize (HA 0%nat lvl eq_refl); by rewrite Nat.add_0_r in HA].
    intros HV. exfalso. apply Hno. unfold SnapshotLevel, level_ok in *.
    bcases; try done; split_and!; lia || done.
Qed.

(** [Validate] accepts exactly the configurations whose level numbers are
    their indexes, at most 8, with an interval on every level but level zero. *)
Theorem Validate_correct a :
  Validate a = Ok () <->
  a <> [] /\ forall i lvl, a !! i = Some lvl -> level_ok i lvl.
Proof.
  unfold Validate. case_bool_decide as E.
  - apply nil_length_inv in E as ->. split; [done|]. by intros [? _].
  - rewrite (Validate_loop_spec 0 a). split; [|by intros [_ ?]].
    intros Hl. split; [|done]. by intros ->.
Qed.

Lemma valid_length a : Validate a = Ok () -> 1 <= Z.of_nat (length a) <= 9.
Proof.
  unfold Validate. case_bool_decide as E; [done|]. rewrite (Validate_loop_spec 0 a). intros HA.
  destruct a as [|lvl a] using rev_ind; [done|].
  rewrite length_app in *. simpl in *.
  specialize (HA (length a) lvl (list_lookup_middle a [] lvl _ eq_refl)).
  unfold level_ok in HA. lia.
Qed.

(** Under a valid configuration the walk between levels is consistent: every
    level but zero has a previous valid level whose next level it is, up to the
    snapshot level, and every non-snapshot level has an entry. *)
Theorem level_walk a level :
  Validate a = Ok () -> IsValidLevel a level = true ->
  (level <> 0 -> IsValidLevel a (PrevLevel a level) = true /\ NextLevel a (PrevLevel a level) = level) /\
  (level <> SnapshotLevel ->
     IsValidLevel a (NextLevel a level) = true /\ PrevLevel a (NextLevel a level) = level /\
     exists lvl, level_at a level = Ok lvl /\ lvl_Level lvl = level).
Proof.
  intros HV HL. pose proof (valid_length a HV) as Hlen.
  assert (forall i lvl, a !! i = Some lvl -> lvl_Level lvl = Z.of_nat i) as Hnum.
  { unfold Validate in HV. case_bool_decide; [done|]. rewrite (Validate_loop_spec 0 a) in HV.
    intros i lvl Hi. by destruct (HV i lvl Hi). }
  unfold IsValidLevel, PrevLevel, NextLevel, level_at, MaxLevel, SnapshotLevel in *.
  split; intros Hne.
  - split; bcases; lia.
  - split_and!; [bcases; lia..|]. destruct (Z.eqb_spec level 9); [done|]. breflect.
    case_if; [breflect; exfalso; apply orb_true_iff in E as [?|?]; breflect; lia|].
    destruct (a !! Z.to_nat level) as [lvl|] eqn:Ha.
    + exists lvl. split; [done|]. rewrite (Hnum _ _ Ha). lia.
    + apply lookup_ge_None in Ha. lia.
Qed.

(** Compaction windows.  For a level with an interval, the previous compaction
    time is the last multiple of the interval that is not after now, and the next
    one is the first multiple strictly after now. *)
Theorem compaction_window lvl now :
  0 < Interval lvl ->
  (Interval lvl | PrevCompactionAt lvl now) /\
  PrevCompactionAt lvl now <= now < NextCompactionAt lvl now /\
  (forall t, (Interval lvl | t) -> now < t -> NextCompactionAt lvl now <= t).
Proof.
  intros HI. unfold NextCompactionAt, PrevCompactionAt, time_Truncate.
  destruct (Z.leb_spec (Interval lvl) 0); [lia|].
  pose proof (Z.mod_pos_bound now (Interval lvl) HI) as Hb.
  pose proof (Z.div_mod now (Interval lvl) ltac:(lia)) as Hdm.
  split; [exists (now / Interval lvl); lia|]. split; [lia|].
  intros t [k ->] Hlt. set (q := now / Interval lvl) in *.
  assert (q < k) by (apply (Z.mul_lt_mono_pos_r (Interval lvl)); lia). nia.
Qed.

(** A time that is a multiple of the interval is its own previous compaction
    time, and the next one is a full interval later. *)
Corollary NextCompactionAt_multiple lvl now :
  0 < Interval lvl -> (Interval lvl | now) ->
  PrevCompactionAt lvl now = now /\ NextCompactionAt lvl now = now + Interval lvl.
Proof.
  intros HI Hd. unfold NextCompactionAt, PrevCompactionAt, time_Truncate.
  destruct (Z.leb_spec (Interval lvl) 0); [lia|].
  apply Z.mod_divide in Hd; [|lia]. rewrite Hd. lia.
Qed.

Lemma level_walk_witness :
  IsValidLevel DefaultCompactionLevels (NextLevel DefaultCompactionLevels 3) = true /\
  PrevLevel DefaultCompactionLevels (NextLevel DefaultCompactionLevels 3) = 3.
Proof.
  destruct (level_walk DefaultCompactionLevels 3 eq_refl eq_refl) as [_ H].
  destruct (H ltac:(discriminate)) as (H1 & H2 & _). exact (conj H1 H2).
Defined.

Lemma compaction_window_witness :
  PrevCompactionAt (mkLevel 1 (30 * Second)) (95 * Second) <= 95 * Second
    < NextCompactionAt (mkLevel 1 (30 * Second)) (95 * Second).
Proof. apply (compaction_window (mkLevel 1 (30 * Second)) (95 * Second)). reflexivity. Defined.
