(* ===== verification/Streams.v ===== *)
(** * Byte streams

    Models of src/internal/resumable_reader.go, src/internal/limit_read_closer.go
    and src/internal/ltx_timestamp.go: the reader that reconnects to the storage,
    the limited reader, and the functions that sniff an object before they
    decrypt it or read its timestamp. *)

From Stdlib Require Import ZArith Lia Strings.Byte.
From stdpp Require Import base numbers list strings gmap sorting.
From S2P Require Import Prelude Ltx.
Local Open Scope Z_scope.

(** ** ResumableReader

    A connection is a stateful stream: [conn_Read conn n] is what [Read] returns
    for a buffer of [n] bytes.  [open w off] is the storage's answer to
    [OpenLTXFile] at an offset; [w] is the state of the storage. *)
Module Resumable.
Section Resumable.
Context {W conn : Type}.
Variable open : W -> Z -> W * result conn.
Variable conn_Read : conn -> Z -> list byte * option error * conn.

Record ResumableReader := mkRR {
  rr_size : Z;              (** expected total size; 0 means unknown *)
  rr_offset : Z;
  rr_rc : option conn       (** nil after a failed read *)
}.

Definition NewResumableReader (size : Z) (rc : conn) : ResumableReader := mkRR size 0 (Some rc).

Definition resumableReaderMaxRetries : nat := 3.

(** The loop of [Read] with [attempts] iterations left. *)
Fixpoint Read_loop (attempts : nat) (w : W) (r : ResumableReader) (n : Z)
    : W * ResumableReader * (list byte * option error) :=
  match attempts with
  | O => (w, r, ([], Some (EMsg "max retries exceeded reading ltx file")))
  | S attempts =>
      let '(w, opened) := match rr_rc r with
                          | Some rc => (w, Ok rc)
                          | None => open w (rr_offset r)
                          end in
      match opened with
      | Err e => (w, r, ([], Some (EWrap "reopen ltx file" e)))
      | Panic m => (w, r, ([], Some (EMsg m)))
      | Ok rc =>
          let '(b, err, rc) := conn_Read rc n in
          let offset := rr_offset r + Z.of_nat (length b) in
          match err with
          | None => (w, mkRR (rr_size r) offset (Some rc), (b, None))
          | Some e =>
              if bool_decide (e = io_EOF) then
                if (0 <? rr_size r) && (offset <? rr_size r) then
                  let r := mkRR (rr_size r) offset None in
                  if 0 <? Z.of_nat (length b) then (w, r, (b, None)) else Read_loop attempts w r n
                else (w, mkRR (rr_size r) offset (Some rc), (b, Some io_EOF))
              else
                let r := mkRR (rr_size r) offset None in
                if 0 <? Z.of_nat (length b) then (w, r, (b, None)) else Read_loop attempts w r n
          end
      end
  end.

Definition Read (w : W) (r : ResumableReader) (n : Z) :=
  Read_loop (S resumableReaderMaxRetries) w r n.

(** [io.ReadAll]: reads until an error; [io.EOF] is success. *)
Fixpoint read_all (fuel : nat) (w : W) (r : ResumableReader) (n : Z) (acc : list byte)
    : option (list byte * option error) :=
  match fuel with
  | O => None
  | S fuel =>
      let '(w, r, (b, err)) := Read w r n in
      match err with
      | None => read_all fuel w r n (acc ++ b)
      | Some e => Some (acc ++ b, if bool_decide (e = io_EOF) then None else Some e)
      end
  end.

(** ** The object behind the reader *)
Variable data : list byte.

(** A connection that stands at an offset of the object delivers bytes of the
    object from there; it may end or fail anywhere. *)
Variable conn_at : conn -> Z -> Prop.
Hypothesis conn_Read_data : forall c off n b err c',
  conn_at c off -> conn_Read c n = (b, err, c') ->
  b = slice data off (Z.of_nat (length b)) /\ Z.of_nat (length b) <= Z.max 0 n /\
  conn_at c' (off + Z.of_nat (length b)).
(** [OpenLTXFile] starts at the requested offset. *)
Hypothesis open_at : forall w off w' c, 0 <= off -> open w off = (w', Ok c) -> conn_at c off.

Definition reader_ok (r : ResumableReader) : Prop :=
  0 <= rr_offset r <= Z.of_nat (length data) /\
  match rr_rc r with Some c => conn_at c (rr_offset r) | None => True end.

Lemma slice_bound off n (b : list byte) :
  0 <= off <= Z.of_nat (length data) -> b = slice data off n ->
  0 <= off + Z.of_nat (length b) <= Z.of_nat (length data).
Proof.
  intros Hoff ->. unfold slice. rewrite length_take, length_drop. lia.
Qed.

Lemma Read_loop_spec attempts w r n :
  reader_ok r ->
  let '(w', r', (b, err)) := Read_loop attempts w r n in
  reader_ok r' /\ rr_size r' = rr_size r /\
  b = slice data (rr_offset r) (Z.of_nat (length b)) /\
  rr_offset r' = rr_offset r + Z.of_nat (length b) /\
  (err = Some io_EOF -> rr_size r <= 0 \/ rr_size r <= rr_offset r').
Proof.
  assert (forall r, reader_ok r -> reader_ok (mkRR (rr_size r) (rr_offset r) None)) as Hnone.
  { intros r' [? _]. by split. }
  revert w r. induction attempts as [|attempts IH]; intros w r Hok; cbn [Read_loop].
  { split_and!; [done|done|done|simpl; lia|done]. }
  destruct (match rr_rc r with Some rc => _ | None => _ end) as [w1 opened] eqn:HO.
  destruct opened as [rc|e|m].
  2,3: split_and!; [done|done|done|simpl; lia|done].
  assert (conn_at rc (rr_offset r)) as Hat.
  { destruct Hok as [Hoff Hrc]. destruct (rr_rc r); [by simplify_eq|]. eapply open_at; [|done]. lia. }
  destruct (conn_Read rc n) as [[b err] rc'] eqn:HR.
  destruct (conn_Read_data _ _ _ _ _ _ Hat HR) as (Hb & Hn & Hat').
  pose proof (slice_bound _ _ _ (proj1 Hok) Hb) as Hbnd.
  assert (forall r', reader_ok r' -> rr_size r' = rr_size r -> rr_offset r' = rr_offset r + Z.of_nat (length b) ->
            (Z.of_nat (length b) <= 0) ->
            let '(w', r'', (b', err)) := Read_loop attempts w1 r' n in
            reader_ok r'' /\ rr_size r'' = rr_size r /\
            b' = slice data (rr_offset r) (Z.of_nat (length b')) /\
            rr_offset r'' = rr_offset r + Z.of_nat (length b') /\
            (err = Some io_EOF -> rr_size r <= 0 \/ rr_size r <= rr_offset r'')) as Hretry.
  { intros r' Hr' Hs Ho Hlen. specialize (IH w1 r' Hr').
    destruct (Read_loop attempts w1 r' n) as [[w' r''] [b' err']].
    rewrite Hs in IH. by replace (rr_offset r') with (rr_offset r) in IH by lia. }
  destruct err as [e|].
  - case_if; [breflect; subst e|]; [case_if; [case_if|]|case_if]; breflect.
    all: try (apply Hretry; [split; [simpl; lia|done]|done|done|done]).
    all: split_and!; simpl; try done; try (split; simpl; [lia|done]).
    intros _. apply andb_false_iff in E as [?|?]; breflect; lia.
  - by split_and!; simpl.
Qed.

Lemma slice_app_next off (b acc : list byte) :
  0 <= off <= Z.of_nat (length data) -> acc = slice data 0 off ->
  b = slice data off (Z.of_nat (length b)) ->
  acc ++ b = slice data 0 (off + Z.of_nat (length b)).
Proof.
  intros Hoff -> Hb. rewrite Hb at 1. unfold slice. simpl. rewrite !drop_0.
  rewrite Z2Nat.inj_add, Nat2Z.id by lia. by rewrite take_take_drop.
Qed.

Lemma read_all_spec fuel w r n acc res :
  reader_ok r -> acc = slice data 0 (rr_offset r) -> rr_size r = Z.of_nat (length data) ->
  0 < rr_size r -> read_all fuel w r n acc = Some (res, None) -> res = data.
Proof.
  revert w r acc. induction fuel as [|fuel IH]; intros w r acc Hok Hacc Hs Hpos HR; [done|].
  cbn [read_all] in HR. unfold Read in HR.
  pose proof (Read_loop_spec (S resumableReaderMaxRetries) w r n Hok) as HL.
  destruct (Read_loop _ w r n) as [[w' r'] [b err]].
  destruct HL as (Hok' & Hs' & Hb & Ho & Heof).
  pose proof (slice_app_next _ _ _ (proj1 Hok) Hacc Hb) as Happ. rewrite <- Ho in Happ.
  destruct err as [e|]; [|by eapply (IH w' r'); [| |congruence|congruence|]].
  case_bool_decide as E; [|done]. injection HR as <-. subst e.
  rewrite Happ. destruct Hok' as [Hr' _].
  replace (rr_offset r') with (Z.of_nat (length data)) by (destruct (Heof eq_refl); lia).
  unfold slice. simpl. rewrite drop_0, Nat2Z.id. apply firstn_all.
Qed.

(** Reading through reconnections.  Whatever the connections do (end early,
    fail, deliver short reads), each [Read] delivers the next bytes of the
    object and no others, and it reports the end only when the whole object has
    been read; a caller that reads to the end gets exactly the object or an error. *)
Theorem ResumableReader_faithful w r n :
  reader_ok r -> rr_size r = Z.of_nat (length data) -> 0 < rr_size r ->
  (let '(w', r', (b, err)) := Read w r n in
   b = slice data (rr_offset r) (Z.of_nat (length b)) /\
  rr_offset r' = rr_offset r + Z.of_nat (length b) /\ reader_ok r' /\
  (err = Some io_EOF -> rr_offset r' = Z.of_nat (length data))) /\
 (forall fuel res, rr_offset r = 0 -> read_all fuel w r n [] = Some (res, None) -> res = data).
Proof.
  intros Hok Hs Hpos. split.
  - pose proof (Read_loop_spec (S resumableReaderMaxRetries) w r n Hok) as HL. unfold Read.
    destruct (Read_loop _ w r n) as [[w' r'] [b err]].
    destruct HL as (Hok' & Hs' & Hb & Ho & Heof). split_and!; try done.
    intros HE. destruct Hok' as [Hr' _]. destruct (Heof HE); lia.
  - intros fuel res H0 HR. eapply read_all_spec; eauto. rewrite H0. done.
Qed.
End Resumable.
End Resumable.

(** The object of the witness: three connections are needed to read it. *)
Section ResumableDemo.
Definition demo_object : list byte := [x01; x02; x03; x04; x05].

(** Connections that drop after two bytes. *)
Definition demo_conn : Type := Z * Z.
Definition demo_read (c : demo_conn) (n : Z) : list byte * option error * demo_conn :=
  let '(off, quota) := c in
  let b := slice demo_object off (Z.min n quota) in
  let m := Z.of_nat (length b) in
  (b, if m <? n then Some io_EOF else None, (off + m, quota - m)).
Definition demo_open (w : ()) (off : Z) : () * result demo_conn := (w, Ok (off, 2)).
Definition demo_at (c : demo_conn) (off : Z) : Prop := fst c = off.

Lemma demo_read_data c off n b err c' :
  demo_at c off -> demo_read c n = (b, err, c') ->
  b = slice demo_object off (Z.of_nat (length b)) /\ Z.of_nat (length b) <= Z.max 0 n /\
  demo_at c' (off + Z.of_nat (length b)).
Proof.
  destruct c as [o l]. unfold demo_at. intros <-. unfold demo_read. intros [= <- <- <-].
  split_and!; [|unfold slice; rewrite length_take; lia|done].
  unfold slice. rewrite Nat2Z.id, length_take.
  set (d := drop _ _). destruct (decide (Z.to_nat (n `min` l) <= length d)%nat).
  - by rewrite Nat.min_l.
  - rewrite Nat.min_r, !take_ge by lia. done.
Qed.

Lemma demo_open_at w off w' c : 0 <= off -> demo_open w off = (w', Ok c) -> demo_at c off.
Proof. by intros _ [= <- <-]. Qed.
End ResumableDemo.

Lemma ResumableReader_faithful_witness :
  Resumable.read_all demo_open demo_read 10 () (Resumable.NewResumableReader 5 (0, 2)) 4 []
    = Some (demo_object, None) /\
  forall fuel res,
    Resumable.read_all demo_open demo_read fuel () (Resumable.NewResumableReader 5 (0, 2)) 4 []
      = Some (res, None) -> res = demo_object.
Proof.
  split; [reflexivity|]. intros fuel res HR.
  apply (Resumable.ResumableReader_faithful demo_open demo_read demo_object demo_at
           demo_read_data demo_open_at () (Resumable.NewResumableReader 5 (0, 2)) 4
           ltac:(split; [simpl; lia|reflexivity]) eq_refl eq_refl) with (fuel := fuel).
  - reflexivity.
  - exact HR.
Defined.

(** ** LimitedReadCloser *)
Module Limited.
Section Limited.
Context {conn : Type}.
Variable conn_Read : conn -> Z -> list byte * option error * conn.

Record LimitedReadCloser := mkLimited { R : conn; N : Z }.

Definition LimitReadCloser (r : conn) (n : Z) : LimitedReadCloser := mkLimited r n.

Definition LimitedRead (l : LimitedReadCloser) (n : Z) : list byte * option error * LimitedReadCloser :=
  if N l <=? 0 then ([], Some io_EOF, l)
  else
    let n := if N l <? n then N l else n in
    let '(b, err, c) := conn_Read (R l) n in
    (b, err, mkLimited c (N l - Z.of_nat (length b))).

Variable data : list byte.
Variable conn_at : conn -> Z -> Prop.
Hypothesis conn_Read_data : forall c off n b err c',
  conn_at c off -> conn_Read c n = (b, err, c') ->
  b = slice data off (Z.of_nat (length b)) /\ Z.of_nat (length b) <= Z.max 0 n /\
  conn_at c' (off + Z.of_nat (length b)).

(** The limited reader stays within its limit, on the same bytes. *)
Lemma Limited_Read_spec l off n b err l' :
  conn_at (R l) off -> LimitedRead l n = (b, err, l') -> 0 <= n ->
  b = slice data off (Z.of_nat (length b)) /\ Z.of_nat (length b) <= Z.max 0 (N l) /\
  conn_at (R l') (off + Z.of_nat (length b)) /\ Z.max 0 (N l') = Z.max 0 (N l) - Z.of_nat (length b).
Proof.
  intros Hat HR Hn. unfold LimitedRead in HR. destruct (Z.leb_spec (N l) 0).
  { simplify_eq. simpl. rewrite Z.add_0_r. split_and!; [done|lia|done|lia]. }
  destruct (conn_Read _ _) as [[b' err'] c] eqn:HC. simplify_eq.
  destruct (conn_Read_data _ _ _ _ _ _ Hat HC) as (? & Hle & ?).
  split_and!; try done; simpl; case_if; breflect; lia.
Qed.
End Limited.
End Limited.

(** ** Sniffing objects

    [age] is outside the sources: the decryption of a stream is a parameter.
    [io.ReadFull] fills the sniff buffer as far as the stream delivers; the
    reader that is returned replays those bytes. *)
Definition ageStreamIntro : string := "age-encryption.org/v1".

Definition ageStreamIntro_bytes : list byte := String.list_byte_of_string ageStreamIntro.

Definition sniff (rd : Reader) : list byte := take (length ageStreamIntro_bytes) (rd_data rd).

Definition DecryptIfSealed (rd : Reader) (decrypt : Reader -> result Reader) : result Reader :=
  if negb (bool_decide (sniff rd = ageStreamIntro_bytes)) then Ok rd else decrypt rd.

(** [ltx.PeekHeader], of which the header's timestamp is used, and the clock are
    parameters. *)
Definition ExtractLTXTimestamp (peek : Reader -> result Z) (now : time) (rd : Reader)
    : result (time * Reader) :=
  if bool_decide (sniff rd = ageStreamIntro_bytes) then Ok (now, rd)
  else match peek rd with
       | Err e => Err (EWrap "extract timestamp from LTX header" e)
       | Panic m => Panic m
       | Ok timestamp => Ok (time_UnixMilli timestamp, rd)
       end.

Definition sealed (rd : Reader) : bool := bool_decide (sniff rd = ageStreamIntro_bytes).

Lemma DecryptIfSealed_plain rd decrypt : sealed rd = false -> DecryptIfSealed rd decrypt = Ok rd.
Proof. unfold sealed, DecryptIfSealed. by intros ->. Qed.

Lemma DecryptIfSealed_sealed rd decrypt : sealed rd = true -> DecryptIfSealed rd decrypt = decrypt rd.
Proof. unfold sealed, DecryptIfSealed. by intros ->. Qed.

Lemma sealed_intro b e : sealed (mkReader (ageStreamIntro_bytes ++ b) e) = true.
Proof.
  unfold sealed, sniff. cbn [rd_data]. rewrite take_app_length. by apply bool_decide_eq_true.
Qed.

(** ** io.Pipe

    What the write side has written and the first close reason: [Close] is
    [CloseWithError(nil)], which readers see as [io.EOF], and a later
    [CloseWithError] does not overwrite an earlier one. *)
Module Pipe.
Record t := mk { written : list byte; werr : option (option error) }.

Definition new : t := mk [] None.

Definition Write (p : t) (b : list byte) : t :=
  match werr p with None => mk (written p ++ b) None | Some _ => p end.

Definition CloseWithError (p : t) (e : option error) : t :=
  match werr p with None => mk (written p) (Some e) | Some _ => p end.

Definition Close (p : t) : t := CloseWithError p None.

(** The stream the read side sees once the writer has closed the pipe. *)
Definition reader (p : t) : Reader :=
  mkReader (written p) (match werr p with Some e => e | None => None end).
End Pipe.
