(* ===== verification/RestorePlan.v ===== *)
(** * Restore planning

    Model of [CalcRestorePlan], the level cursors and [restoreCandidateBetter]
    of src/replica.go, and the theorems that a plan is a contiguous chain of
    stored files that ends at the requested transaction, that a plan is found
    whenever a chain exists, that it uses the fewest files, and that a restore
    to the latest state covers every stored file. *)

From Stdlib Require Import ZArith Lia.
From stdpp Require Import base numbers list strings gmap sorting.
From S2P Require Import Prelude Ltx.
Local Open Scope Z_scope.

Definition ErrTxNotAvailable : error := EVar "transaction not available".

(** [ltx.FileInfoSlice.MaxTXID] belongs to the ltx package: the maximum of a
    plan, zero when it is empty. *)
Class FileInfoSliceOps := slice_MaxTXID : list FileInfo -> TXID.

Class FileInfoSliceLaws `{FileInfoSliceOps} := {
  slice_MaxTXID_nil : slice_MaxTXID [] = 0;
  slice_MaxTXID_snoc l x :
    (forall y, In y l -> MaxTXID y < MaxTXID x) -> slice_MaxTXID (l ++ [x]) = MaxTXID x
}.

(** ** The level cursor *)

Record restoreLevelCursor := mkCursor {
  itr : list FileInfo;           (** the items the iterator has left *)
  itrErr : option error;         (** what [itr.Err()] returns after them *)
  current : option FileInfo;
  candidate : option FileInfo;
  done : bool
}.

Definition restoreCandidateBetter (curr next : FileInfo) : bool :=
  if negb (MaxTXID next =? MaxTXID curr) then MaxTXID curr <? MaxTXID next
  else if negb (MinTXID next =? MinTXID curr) then MinTXID next <? MinTXID curr
  else if negb (Level next =? Level curr) then Level curr <? Level next
  else time_Before (CreatedAt next) (CreatedAt curr).

Definition ensureCurrent (c : restoreLevelCursor) : result restoreLevelCursor :=
  if done c || bool_decide (is_Some (current c)) then Ok c
  else match itr c with
  | [] =>
      match itrErr c with
      | Some e => Err e
      | None => Ok (mkCursor [] None (current c) (candidate c) true)
      end
  | info :: rest => Ok (mkCursor rest (itrErr c) (Some info) (candidate c) (done c))
  end.

Definition set_candidate (c : restoreLevelCursor) (x : option FileInfo) : restoreLevelCursor :=
  mkCursor (itr c) (itrErr c) (current c) x (done c).

Definition set_current (c : restoreLevelCursor) (x : option FileInfo) : restoreLevelCursor :=
  mkCursor (itr c) (itrErr c) x (candidate c) (done c).

(** The [for] loop of [refresh]. *)
Fixpoint refresh_loop (fuel : nat) (currentMax txID : TXID) (timestamp : time)
    (c : restoreLevelCursor) : result restoreLevelCursor :=
  match fuel with
  | O => Panic "out of fuel"
  | S fuel =>
      c ← ensureCurrent c;
      if done c then Ok c else
      match current c with
      | None => Panic "nil pointer dereference"
      | Some info =>
          if txid_succ currentMax <? MinTXID info then Ok c else
          let c := set_current c None in
          if MaxTXID info <=? currentMax then refresh_loop fuel currentMax txID timestamp c
          else if negb (txID =? 0) && (txID <? MaxTXID info)
          then refresh_loop fuel currentMax txID timestamp c
          else if negb (time_IsZero timestamp) && negb (time_Before (CreatedAt info) timestamp)
          then refresh_loop fuel currentMax txID timestamp c
          else
            let better := match candidate c with
                          | None => true
                          | Some cand => restoreCandidateBetter cand info
                          end in
            refresh_loop fuel currentMax txID timestamp
              (if better then set_candidate c (Some info) else c)
      end
  end.

(** The items a cursor has not evaluated yet. *)
Definition pending (c : restoreLevelCursor) : list FileInfo :=
  option_list (current c) ++ itr c.

Definition refresh (currentMax txID : TXID) (timestamp : time) (c : restoreLevelCursor)
    : result restoreLevelCursor :=
  if done c then Ok c else
  let c := match candidate c with
           | Some cand => if MaxTXID cand <=? currentMax then set_candidate c None else c
           | None => c
           end in
  refresh_loop (S (length (pending c))) currentMax txID timestamp c.

(** ** The plan *)

(** The latest snapshot before the target. *)
Fixpoint scan_snapshots (txID : TXID) (timestamp : time) (items : list FileInfo)
    (snapshot : option FileInfo) : option FileInfo :=
  match items with
  | [] => snapshot
  | info :: items =>
      if negb (txID =? 0) && (txID <? MaxTXID info)
      then scan_snapshots txID timestamp items snapshot
      else if negb (time_IsZero timestamp) && negb (time_Before (CreatedAt info) timestamp)
      then scan_snapshots txID timestamp items snapshot
      else scan_snapshots txID timestamp items (Some info)
  end.

(** The inner loop: refresh every cursor and point [next] at the best candidate. *)
Fixpoint select_next (currentMax txID : TXID) (timestamp : time) (i : nat)
    (cursors : list restoreLevelCursor) (next : option (nat * FileInfo))
    : result (list restoreLevelCursor * option (nat * FileInfo)) :=
  match cursors with
  | [] => Ok ([], next)
  | c :: cursors =>
      c ← refresh currentMax txID timestamp c;
      let next :=
        match candidate c with
        | None => next
        | Some cand =>
            match next with
            | None => Some (i, cand)
            | Some (_, best) => if restoreCandidateBetter best cand then Some (i, cand) else next
            end
        end in
      '(cursors, next) ← select_next currentMax txID timestamp (S i) cursors next;
      Ok (c :: cursors, next)
  end.

Definition clear_candidate (cursors : list restoreLevelCursor) (i : nat) :=
  alter (fun c => set_candidate c None) i cursors.

Fixpoint plan_loop (fuel : nat) (txID : TXID) (timestamp : time)
    (cursors : list restoreLevelCursor) (infos : list FileInfo) (currentMax : TXID)
    : result (list restoreLevelCursor * list FileInfo * TXID) :=
  match fuel with
  | O => Panic "out of fuel"
  | S fuel =>
      '(cursors, next) ← select_next currentMax txID timestamp 0 cursors None;
      match next with
      | None => Ok (cursors, infos, currentMax)
      | Some (i, cand) =>
          if MaxTXID cand <=? currentMax
          then plan_loop fuel txID timestamp (clear_candidate cursors i) infos currentMax
          else
            let infos := infos ++ [cand] in
            let currentMax := MaxTXID cand in
            let cursors := clear_candidate cursors i in
            if negb (txID =? 0) && (txID <=? currentMax) then Ok (cursors, infos, currentMax)
            else plan_loop fuel txID timestamp cursors infos currentMax
      end
  end.

(** The check for a gap after the plan of an untargeted restore. *)
Fixpoint check_tail (currentMax : TXID) (cursors : list restoreLevelCursor) : result () :=
  match cursors with
  | [] => Ok ()
  | c :: cursors =>
      c ← ensureCurrent c;
      match current c with
      | Some info => if txid_succ currentMax <? MinTXID info
                     then Err (EMsg "non-contiguous ltx files") else check_tail currentMax cursors
      | None => check_tail currentMax cursors
      end
  end.

(** Work left in the cursors: every iteration of the plan loop uses some up. *)
Definition cursor_work (c : restoreLevelCursor) : nat :=
  length (pending c) + length (option_list (candidate c)).

Definition cursors_work (cs : list restoreLevelCursor) : nat := sum_list (cursor_work <$> cs).

Section Plan.
Context {C : Type} `{ReplicaClient C} `{FileInfoSliceOps}.

Fixpoint open_cursors (client : C) (useMetadata : bool) (levels : list Z)
    : result (list restoreLevelCursor) :=
  match levels with
  | [] => Ok []
  | level :: levels =>
      it ← LTXFiles client level 0 useMetadata;
      cs ← open_cursors client useMetadata levels;
      Ok (mkCursor (itr_items it) (itr_Err it) None None false :: cs)
  end.

(** [for level := maxLevel; level >= 0; level--] with [maxLevel = SnapshotLevel - 1]. *)
Definition restore_levels : list Z := [8; 7; 6; 5; 4; 3; 2; 1; 0].

Definition CalcRestorePlan (client : C) (txID : TXID) (timestamp : time)
    : result (list FileInfo) :=
  if negb (txID =? 0) && negb (time_IsZero timestamp)
  then Err (EMsg "cannot specify both TXID & timestamp to restore") else
  snapshotItr ← LTXFiles client SnapshotLevel 0 (negb (time_IsZero timestamp));
  let snapshot := scan_snapshots txID timestamp (itr_items snapshotItr) None in
  match itr_Close snapshotItr with
  | Some e => Err e
  | None =>
      let infos := option_list snapshot in
      let currentMax := slice_MaxTXID infos in
      if negb (txID =? 0) && (txID <=? currentMax) then Ok infos else
      cursors ← open_cursors client (negb (time_IsZero timestamp)) restore_levels;
      '(cursors, infos, currentMax) ←
        plan_loop (S (cursors_work cursors)) txID timestamp cursors infos currentMax;
      _ ← (if negb (bool_decide (infos = [])) && (txID =? 0) && time_IsZero timestamp
           then check_tail currentMax cursors else Ok ());
      if bool_decide (infos = []) then Err ErrTxNotAvailable
      else if negb (txID =? 0) && (slice_MaxTXID infos <? txID) then Err ErrTxNotAvailable
      else Ok infos
  end.
End Plan.

(** ** Specification *)

(** Files a restore to this target may use. *)
Definition eligible (txID : TXID) (timestamp : time) (f : FileInfo) : bool :=
  negb (negb (txID =? 0) && (txID <? MaxTXID f)) &&
  negb (negb (time_IsZero timestamp) && negb (time_Before (CreatedAt f) timestamp)).

(** A chain of files that takes a database at transaction [cur] to [cur']: each
    file starts no later than the next transaction and reaches further. *)
Fixpoint chain (cur : TXID) (l : list FileInfo) (cur' : TXID) : Prop :=
  match l with
  | [] => cur = cur'
  | f :: l => MinTXID f <= cur + 1 /\ cur < MaxTXID f /\ chain (MaxTXID f) l cur'
  end.

(** A chain in which every file reaches as far as any usable file would. *)
Fixpoint greedy_chain (usable : FileInfo -> Prop) (cur : TXID) (l : list FileInfo) : Prop :=
  match l with
  | [] => True
  | f :: l =>
      (forall g, usable g -> MinTXID g <= cur + 1 -> MaxTXID g <= MaxTXID f) /\
      greedy_chain usable (MaxTXID f) l
  end.

Lemma chain_app cur l1 mid l2 cur' :
  chain cur l1 mid -> chain mid l2 cur' -> chain cur (l1 ++ l2) cur'.
Proof.
  revert cur. induction l1 as [|f l1 IH]; simpl; [by intros ? ->|].
  intros cur (? & ? & ?) ?. eauto.
Qed.

Lemma chain_le cur l cur' : chain cur l cur' -> cur <= cur'.
Proof.
  revert cur. induction l as [|f l IH]; simpl; [lia|].
  intros cur (? & ? & Hc). apply IH in Hc. lia.
Qed.

(** No chain of usable files gets past a point where nothing usable extends it. *)
Lemma chain_stalled (usable : FileInfo -> Prop) cur l cur' stall :
  chain cur l cur' -> Forall usable l -> cur <= stall ->
  (forall g, usable g -> MinTXID g <= stall + 1 -> MaxTXID g <= stall) -> cur' <= stall.
Proof.
  revert cur. induction l as [|f l IH]; simpl; [lia|].
  intros cur (? & ? & Hc) HF Hle Hstall. apply Forall_cons in HF as [Hf HF].
  eapply (IH (MaxTXID f)); eauto. apply Hstall; [done|lia].
Qed.

(** The greedy chain stays ahead of any other. *)
Lemma greedy_shortest (usable : FileInfo -> Prop) cur l cur' p fs p' :
  chain cur l cur' -> greedy_chain usable cur l ->
  chain p fs p' -> Forall usable fs -> p <= cur -> cur' <= p' ->
  (length l <= length fs)%nat.
Proof.
  revert cur p fs. induction l as [|f l IH]; intros cur p fs Hc Hg Hp HF Hle Hle'; simpl; [lia|].
  destruct Hc as (? & ? & Hc), Hg as (Hbest & Hg). pose proof (chain_le _ _ _ Hc).
  destruct fs as [|g fs]; [simpl in Hp; lia|].
  destruct Hp as (? & ? & Hp). apply Forall_cons in HF as [Hu HF].
  simpl. apply le_n_S. eapply (IH (MaxTXID f)); eauto. apply Hbest; [done|lia].
Qed.

(** ** Cursor lemmas *)

Lemma better_Max curr next :
  restoreCandidateBetter curr next = true -> MaxTXID curr <= MaxTXID next.
Proof. unfold restoreCandidateBetter. bcases; lia. Qed.

Lemma not_better_Max curr next :
  restoreCandidateBetter curr next = false -> MaxTXID next <= MaxTXID curr.
Proof. unfold restoreCandidateBetter. bcases; lia. Qed.

Section Target.
Variables (txID : TXID) (timestamp : time).
Abbreviation elig f := (eligible txID timestamp f = true).

(** What a cursor knows about its level [L] when the plan has reached [cur]:
    an evaluated file is used up, unusable, or dominated by the candidate. *)
Record cursor_inv (L : list FileInfo) (e : option error) (cur : TXID)
    (c : restoreLevelCursor) : Prop := {
  ci_split : exists seen, L = seen ++ pending c /\
    (forall cand, candidate c = Some cand ->
       In cand seen /\ elig cand /\ MinTXID cand <= cur + 1) /\
    (forall f, In f seen -> elig f ->
       MaxTXID f <= cur \/ exists cand, candidate c = Some cand /\ MaxTXID f <= MaxTXID cand);
  ci_done : done c = true -> pending c = [];
  ci_err : done c = false -> itrErr c = e;
  ci_err' : done c = true -> e = None
}.

Lemma cursor_inv_init L e : cursor_inv L e 0 (mkCursor L e None None false).
Proof.
  split; simpl; try done. exists []. split; [done|]. split; [done|]. simpl. tauto.
Qed.

Lemma cursor_inv_mono L e cur cur' c :
  cur <= cur' -> cursor_inv L e cur c -> cursor_inv L e cur' c.
Proof.
  intros Hle [(seen & HL & Hcand & Hseen) ? ? ?]. split; try done.
  exists seen. split; [done|]. split.
  - intros cand Hc. apply Hcand in Hc as (? & ? & ?). repeat split; auto; lia.
  - intros f Hf He. destruct (Hseen f Hf He) as [|?]; [left; lia | by right].
Qed.

(** Dropping a candidate that is used up. *)
Lemma cursor_inv_clear L e cur c :
  (forall cand, candidate c = Some cand -> MaxTXID cand <= cur) ->
  cursor_inv L e cur c -> cursor_inv L e cur (set_candidate c None).
Proof.
  intros Hle [(seen & HL & Hcand & Hseen) ? ? ?]. split; try done.
  exists seen. split; [done|]. split; [done|]. intros f Hf He.
  destruct (Hseen f Hf He) as [|(cand & Hc & ?)]; [by left|].
  apply Hle in Hc. left; lia.
Qed.

(** The cursor has seen everything that could extend the plan. *)
Definition cursor_fresh (cur : TXID) (c : restoreLevelCursor) : Prop :=
  done c = true \/ exists info, current c = Some info /\ txid_succ cur < MinTXID info.

Lemma ensureCurrent_inv L e cur c :
  cursor_inv L e cur c ->
  match ensureCurrent c with
  | Ok c' => cursor_inv L e cur c' /\ pending c' = pending c /\ candidate c' = candidate c /\
             (done c' = false -> is_Some (current c'))
  | Err e' => e = Some e'
  | Panic _ => False
  end.
Proof.
  intros HI. unfold ensureCurrent. destruct c as [it er cu ca dn]; simpl in *.
  case_if.
  - split; [done|]. split; [done|]. split; [done|]. simpl. intros ->. simpl in E. by breflect.
  - apply orb_false_iff in E as [-> E]. breflect. destruct cu; [by contradict E|].
    destruct HI as [HS HD HE HE']; simpl in *. rewrite <- (HE eq_refl) in *.
    destruct it as [|info it]; simpl.
    + destruct er as [er|]; [done|]. split; [|done]. by split.
    + split; [|eauto]. split; eauto.
Qed.

(** Evaluating [current]: it is of no use, or dominated by the candidate. *)
Lemma consume_skip L e cur c info :
  current c = Some info -> done c = false -> cursor_inv L e cur c ->
  (elig info -> MaxTXID info <= cur \/
     exists cand, candidate c = Some cand /\ MaxTXID info <= MaxTXID cand) ->
  cursor_inv L e cur (set_current c None).
Proof.
  intros Hcu Hd [(seen & HL & Hcand & Hseen) HD HE HE'] Hskip. split; simpl; auto; [|congruence].
  exists (seen ++ [info]). unfold pending in *. rewrite Hcu in HL. simpl in *.
  split; [by rewrite <- app_assoc|]. setoid_rewrite in_app_iff. split.
  - intros cand Hc. apply Hcand in Hc as (? & ? & ?). auto.
  - intros f [Hf|[<-|[]]] He; [by apply Hseen | by apply Hskip].
Qed.

(** ... or it becomes the candidate. *)
Lemma consume_take L e cur c info :
  current c = Some info -> done c = false -> cursor_inv L e cur c ->
  elig info -> MinTXID info <= cur + 1 ->
  (forall cand, candidate c = Some cand -> MaxTXID cand <= MaxTXID info) ->
  cursor_inv L e cur (set_candidate (set_current c None) (Some info)).
Proof.
  intros Hcu Hd [(seen & HL & Hcand & Hseen) HD HE HE'] Hel Hmin Hdom.
  split; simpl; auto; [|congruence].
  exists (seen ++ [info]). unfold pending in *. rewrite Hcu in HL. simpl in *.
  split; [by rewrite <- app_assoc|]. setoid_rewrite in_app_iff. split.
  - intros cand [= <-]. simpl. auto.
  - intros f [Hf|[<-|[]]] He; [|right; exists info; split; [done|lia]].
    destruct (Hseen f Hf He) as [|(cand & Hc & ?)]; [by left|].
    right. exists info. apply Hdom in Hc. split; [done|lia].
Qed.

Lemma refresh_loop_inv fuel L e cur c :
  0 <= cur -> (length (pending c) < fuel)%nat -> cursor_inv L e cur c ->
  match refresh_loop fuel cur txID timestamp c with
  | Ok c' => cursor_inv L e cur c' /\ cursor_fresh cur c' /\ (cursor_work c' <= cursor_work c)%nat
  | Err e' => e = Some e'
  | Panic _ => False
  end.
Proof.
  intros Hcur. revert c. induction fuel as [|fuel IH]; intros c Hfuel HI; [lia|].
  cbn [refresh_loop]. pose proof (ensureCurrent_inv _ _ _ _ HI) as HE.
  destruct (ensureCurrent c) as [c1|e1|] eqn:HEc; simpl; try done.
  destruct HE as (HI1 & HP & HC & Hcu).
  assert (cursor_work c1 = cursor_work c) as HW by (unfold cursor_work; by rewrite HP, HC).
  destruct (done c1) eqn:Hd.
  { split; [done|]. split; [by left|lia]. }
  destruct (current c1) as [info|] eqn:Hc1; [|by destruct (Hcu eq_refl)].
  destruct (Z.ltb_spec (txid_succ cur) (MinTXID info)) as [Hlt|Hge].
  { split; [done|]. split; [right; eauto|lia]. }
  assert (MinTXID info <= cur + 1) as Hmin.
  { unfold txid_succ, u64 in Hge. pose proof (Z.mod_le (cur + 1) (2^64)). lia. }
  assert (pending c1 = info :: itr c1) as HP1 by (unfold pending; by rewrite Hc1).
  assert (forall c2, pending c2 = itr c1 -> (cursor_work c2 <= cursor_work c)%nat ->
            cursor_inv L e cur c2 ->
            match refresh_loop fuel cur txID timestamp c2 with
            | Ok c' => cursor_inv L e cur c' /\ cursor_fresh cur c' /\
                       (cursor_work c' <= cursor_work c)%nat
            | Err e' => e = Some e'
            | Panic _ => False
            end) as Hnext.
  { intros c2 HP2 HW2 HI2. rewrite <- HP, HP1 in Hfuel. simpl in Hfuel.
    specialize (IH c2 ltac:(rewrite HP2; lia) HI2).
    destruct (refresh_loop fuel cur txID timestamp c2); [|done..].
    destruct IH as (? & ? & ?). split_and!; [done|done|lia]. }
  clear IH Hfuel HEc Hcu.
  repeat case_if; (apply Hnext; [done | rewrite <- HW; unfold cursor_work; rewrite HP1; unfold pending; simpl;
                                        destruct (candidate c1); simpl; lia |]);
    first [eapply consume_skip; [done..|] | eapply consume_take; [done..|unfold eligible; by rewrite E0, E1|done|]];
    unfold eligible.
  - intros _. breflect. left; lia.
  - by rewrite E0.
  - rewrite E1. by destruct (_ && _).
  - destruct (candidate c1) as [ca|] eqn:Hca; intros ? [= <-]. by apply better_Max.
  - intros _. right. simpl in E2. destruct (candidate c1) as [ca|]; [|done].
    exists ca. split; [done|]. by apply not_better_Max.
Qed.

Lemma refresh_inv L e cur c :
  0 <= cur -> cursor_inv L e cur c ->
  match refresh cur txID timestamp c with
  | Ok c' => cursor_inv L e cur c' /\ cursor_fresh cur c' /\ (cursor_work c' <= cursor_work c)%nat
  | Err e' => e = Some e'
  | Panic _ => False
  end.
Proof.
  intros Hcur HI. unfold refresh. destruct (done c) eqn:Hd.
  { split_and!; [done|by left|lia]. }
  set (c1 := match candidate c with Some _ => _ | None => _ end).
  assert (cursor_inv L e cur c1 /\ (cursor_work c1 <= cursor_work c)%nat) as [HI1 HW].
  { subst c1. destruct (candidate c) as [ca|] eqn:Hca; [|done]. case_if; [|done]. breflect.
    split; [apply cursor_inv_clear; [|done]; intros ? [= <-]%(eq_trans (eq_sym Hca)); lia|].
    unfold cursor_work, pending. simpl. lia. }
  pose proof (refresh_loop_inv (S (length (pending c1))) L e cur c1 Hcur ltac:(lia) HI1) as HR.
  destruct (refresh_loop _ _ _ _ c1); [|done..].
  destruct HR as (? & ? & ?). split_and!; [done|done|lia].
Qed.

(** The levels of the replica: the items of each listing and its error. *)
Variable levels : list (list FileInfo * option error).
Abbreviation cursors_inv cur cs := (Forall2 (fun Le c => cursor_inv Le.1 Le.2 cur c) levels cs).

Definition usable (f : FileInfo) : Prop :=
  elig f /\ exists Le, In Le levels /\ In f Le.1.

Definition no_candidates (cs : list restoreLevelCursor) : Prop :=
  forall c, In c cs -> candidate c = None.

(** [next] is the best of the candidates seen. *)
Definition best_of (i : nat) (cs : list restoreLevelCursor)
    (old next : option (nat * FileInfo)) : Prop :=
  match next with
  | None => old = None /\ no_candidates cs
  | Some (j, cand) =>
      (old = Some (j, cand) \/
       (i <= j)%nat /\ exists c, cs !! (j - i)%nat = Some c /\ candidate c = Some cand) /\
      (forall k b, old = Some (k, b) -> MaxTXID b <= MaxTXID cand) /\
      (forall c ca, In c cs -> candidate c = Some ca -> MaxTXID ca <= MaxTXID cand)
  end.

Lemma best_of_nil i old : best_of i [] old old.
Proof.
  destruct old as [[j b]|]; simpl; [|by split; [|intros ? []]].
  split; [by left|]. split; [|intros ? ? []]. intros ? ? [= <- <-]. lia.
Qed.

Lemma best_of_cons i c cs old next :
  best_of (S i) cs
    match candidate c with
    | None => old
    | Some cand =>
        match old with
        | None => Some (i, cand)
        | Some (_, best) => if restoreCandidateBetter best cand then Some (i, cand) else old
        end
    end next ->
  best_of i (c :: cs) old next.
Proof.
  destruct (candidate c) as [ca|] eqn:Hca.
  - destruct old as [[k b]|]; [destruct (restoreCandidateBetter b ca) eqn:HB|].
    all: destruct next as [[j x]|]; simpl; [|by intros [? ?]].
    all: intros (Hor & Hold & Hall); split_and!.
    all: try (intros ? y [<-|Hin] Hy; [rewrite Hca in Hy; simplify_eq|by eapply Hall]).
    all: try (destruct Hor as [[= <- <-]|(? & c' & ? & ?)];
              [|right; split; [lia|]; exists c'; split; [|done];
                by replace (j - i)%nat with (S (j - S i)) by lia]).
    all: try (right; split; [lia|]; exists c; split; [by rewrite Nat.sub_diag|done]).
    all: try (by left).
    all: try (intros ? ? [= <- <-]).
    all: try (apply better_Max in HB); try (apply not_better_Max in HB);
         try pose proof (Hold _ _ eq_refl); try lia; try done.
  - destruct next as [[j x]|]; simpl.
    + intros (Hor & Hold & Hall). split_and!; [|done|].
      * destruct Hor as [|(? & c' & ? & ?)]; [by left|right]. split; [lia|]. exists c'.
        by replace (j - i)%nat with (S (j - S i)) by lia.
      * intros ? y [<-|Hin] Hy; [congruence|by eapply Hall].
    + intros [? Hn]. split; [done|]. intros ? [<-|Hin]; [done|by apply Hn].
Qed.

Lemma select_next_inv lv cur i cs old :
  0 <= cur -> Forall2 (fun Le c => cursor_inv Le.1 Le.2 cur c) lv cs ->
  match select_next cur txID timestamp i cs old with
  | Ok (cs', next) =>
      Forall2 (fun Le c => cursor_inv Le.1 Le.2 cur c) lv cs' /\ Forall (cursor_fresh cur) cs' /\
      (cursors_work cs' <= cursors_work cs)%nat /\ best_of i cs' old next
  | Err e => exists Le, In Le lv /\ Le.2 = Some e
  | Panic _ => False
  end.
Proof.
  intros Hcur HF. revert i old. induction HF as [|Le c lv cs HI HF IH]; intros i old; cbn [select_next].
  { split_and!; [constructor..|done|apply best_of_nil]. }
  pose proof (refresh_inv _ _ _ _ Hcur HI) as HR.
  destruct (refresh cur txID timestamp c) as [c'|e|]; simpl; [|exists Le; simpl; auto|done].
  destruct HR as (HI' & Hfr & HW).
  specialize (IH (S i) match candidate c' with
    | None => old
    | Some cand => match old with
                   | None => Some (i, cand)
                   | Some (_, best) => if restoreCandidateBetter best cand then Some (i, cand) else old
                   end
    end).
  destruct (select_next _ _ _ _ _ _) as [[cs' next]|e|]; simpl; [| |done].
  - destruct IH as (? & ? & ? & Hbest). split_and!; [by constructor..| |by apply best_of_cons].
    unfold cursors_work in *. simpl. by apply Nat.add_le_mono.
  - destruct IH as (Le' & ? & ?). exists Le'. simpl. auto.
Qed.

Lemma cursors_inv_mono cur cur' cs : cur <= cur' -> cursors_inv cur cs -> cursors_inv cur' cs.
Proof. intros ? HF. eapply Forall2_impl; [done|]. intros. by eapply cursor_inv_mono. Qed.

Lemma cursors_inv_clear cur cs j c cand :
  cs !! j = Some c -> candidate c = Some cand -> MaxTXID cand <= cur ->
  cursors_inv cur cs -> cursors_inv cur (clear_candidate cs j).
Proof.
  intros Hj Hc Hle HF. unfold clear_candidate. apply Forall2_alter_r; [done|].
  intros Le c' HLe Hj' HI. apply cursor_inv_clear; [|done]. intros ? ?. by simplify_eq.
Qed.

Lemma cursors_work_clear cs j c cand :
  cs !! j = Some c -> candidate c = Some cand ->
  (cursors_work (clear_candidate cs j) < cursors_work cs)%nat.
Proof.
  unfold cursors_work, clear_candidate. revert j. induction cs as [|c' cs IH]; intros [|j] Hj Hc; simplify_eq/=.
  - apply Nat.add_lt_mono_r. unfold cursor_work, pending. simpl. rewrite Hc. simpl. lia.
  - specialize (IH j Hj Hc). apply Nat.add_lt_mono_l, IH.
Qed.

(** Candidates are usable files that extend the plan. *)
Lemma candidate_usable cur cs j c cand :
  cursors_inv cur cs -> cs !! j = Some c -> candidate c = Some cand ->
  usable cand /\ MinTXID cand <= cur + 1.
Proof.
  intros HF Hj Hc. destruct (Forall2_lookup_r _ _ _ _ _ HF Hj) as (Le & HLe & HI).
  destruct HI as [(seen & HL & Hcand & _) _ _ _]. apply Hcand in Hc as (Hin & ? & ?).
  split; [|done]. split; [done|]. exists Le. split; [by eapply list_elem_of_In, list_elem_of_lookup_2|].
  rewrite HL. apply in_or_app. by left.
Qed.

(** The order and the range of the listings, where a result depends on them. *)
Definition levels_ok : Prop :=
  forall Le, In Le levels ->
    StronglySorted (fun a b => MinTXID a <= MinTXID b) Le.1 /\
    forall f, In f Le.1 -> MaxTXID f < 2 ^ 64.

Lemma fresh_seen L e cur c f :
  StronglySorted (fun a b => MinTXID a <= MinTXID b) L ->
  cursor_inv L e cur c -> cursor_fresh cur c -> 0 <= cur ->
  In f L -> MaxTXID f < 2 ^ 64 -> elig f -> MinTXID f <= cur + 1 ->
  MaxTXID f <= cur \/ exists cand, candidate c = Some cand /\ MaxTXID f <= MaxTXID cand.
Proof.
  intros Hs [(seen & HL & _ & Hseen) HD _ _] Hfr Hcur Hin Hmax Hel Hmin.
  destruct (decide (MaxTXID f <= cur)) as [|Hgt]; [by left|].
  rewrite HL in Hin. apply in_app_or in Hin as [Hin|Hin]; [by apply Hseen|].
  exfalso. destruct Hfr as [Hd|(info & Hcu & Hlt)]; [by rewrite (HD Hd) in Hin|].
  rewrite txid_succ_small in Hlt by lia. unfold pending in *. rewrite Hcu in *. simpl in *.
  destruct Hin as [<-|Hin]; [lia|]. rewrite HL in Hs.
  apply StronglySorted_app in Hs as (_ & _ & Hs).
  apply StronglySorted_inv in Hs as [_ Hs].
  rewrite Forall_forall in Hs. specialize (Hs f). rewrite list_elem_of_In in Hs.
  specialize (Hs Hin). lia.
Qed.

Lemma fresh_usable cur cs f :
  levels_ok -> cursors_inv cur cs -> Forall (cursor_fresh cur) cs -> 0 <= cur ->
  usable f -> MinTXID f <= cur + 1 ->
  MaxTXID f <= cur \/ exists c cand, In c cs /\ candidate c = Some cand /\ MaxTXID f <= MaxTXID cand.
Proof.
  intros Hok HF Hfr Hcur (Hel & Le & HLe & Hin) Hmin.
  apply list_elem_of_In, list_elem_of_lookup in HLe as [i Hi].
  destruct (Forall2_lookup_l _ _ _ _ _ HF Hi) as (c & Hc & HI).
  assert (In Le levels) as HLe by (by eapply list_elem_of_In, list_elem_of_lookup_2).
  destruct (Hok Le HLe) as [Hs Hr].
  destruct (fresh_seen _ _ _ _ f Hs HI (Forall_lookup_1 _ _ _ _ Hfr Hc) Hcur Hin (Hr f Hin) Hel Hmin)
    as [|(cand & ? & ?)]; [by left|right].
  exists c, cand. split; [by eapply list_elem_of_In, list_elem_of_lookup_2|done].
Qed.

(** The state in which the plan loop ends: the target is reached, or nothing
    usable extends the plan. *)
Definition plan_end (cur : TXID) (cs : list restoreLevelCursor) : Prop :=
  (txID <> 0 /\ txID <= cur) \/ (Forall (cursor_fresh cur) cs /\ no_candidates cs).

Lemma plan_loop_inv fuel cs infos cur :
  0 <= cur -> (cursors_work cs < fuel)%nat -> cursors_inv cur cs ->
  match plan_loop fuel txID timestamp cs infos cur with
  | Ok (cs', infos', cur') => exists ext,
      infos' = infos ++ ext /\ chain cur ext cur' /\ Forall usable ext /\
      (levels_ok -> greedy_chain usable cur ext) /\
      cursors_inv cur' cs' /\ plan_end cur' cs'
  | Err e => exists Le, In Le levels /\ Le.2 = Some e
  | Panic _ => False
  end.
Proof.
  revert cs infos cur. induction fuel as [|fuel IH]; intros cs infos cur Hcur Hfuel HF; [lia|].
  cbn [plan_loop]. pose proof (select_next_inv levels cur 0 cs None Hcur HF) as HS.
  destruct (select_next cur txID timestamp 0 cs None) as [[cs' next]|e|]; simpl; [|done..].
  destruct HS as (HF' & Hfr & HW & Hbest). destruct next as [[j cand]|].
  - destruct Hbest as ([?|(_ & c & Hj & Hc)] & _ & Hall); [done|]. rewrite Nat.sub_0_r in Hj.
    pose proof (cursors_work_clear _ _ _ _ Hj Hc) as HW'.
    destruct (candidate_usable _ _ _ _ _ HF' Hj Hc) as [Hu Hmin].
    destruct (Z.leb_spec (MaxTXID cand) cur) as [Hle|Hgt].
    { apply IH; [done|lia|]. by eapply cursors_inv_clear. }
    assert (cursors_inv (MaxTXID cand) (clear_candidate cs' j)) as HF''.
    { eapply cursors_inv_clear; [done..|lia|]. eapply cursors_inv_mono; [|done]. lia. }
    assert (levels_ok -> forall g, usable g -> MinTXID g <= cur + 1 -> MaxTXID g <= MaxTXID cand) as Hgr.
    { intros Hok g Hg Hg'. destruct (fresh_usable cur cs' g Hok HF' Hfr Hcur Hg Hg')
        as [|(c' & ca & Hin & Hca & ?)]; [lia|]. specialize (Hall _ _ Hin Hca). lia. }
    case_if.
    + breflect. exists [cand]. simpl. split_and!; try done; [by constructor|by eauto|by left].
    + specialize (IH (clear_candidate cs' j) (infos ++ [cand]) (MaxTXID cand) ltac:(lia) ltac:(lia) HF'').
      destruct (plan_loop _ _ _ _ _ _) as [[[cs2 infos2] cur2]|e|]; [|done..].
      destruct IH as (ext & -> & ? & ? & ? & ? & ?). exists (cand :: ext).
      rewrite <- app_assoc. simpl. split_and!; auto.
  - exists []. rewrite app_nil_r. simpl. split_and!; try done. right. by destruct Hbest.
Qed.

(** A tail check that passes has seen every file of every level. *)
Lemma check_tail_done cur cs :
  check_tail cur cs = Ok () -> Forall (cursor_fresh cur) cs -> Forall (fun c => done c = true) cs.
Proof.
  induction cs as [|c cs IH]; [by constructor|]. intros HC [Hf HF]%Forall_cons. cbn [check_tail] in HC.
  destruct Hf as [Hd|(info & Hcu & Hlt)].
  - constructor; [done|]. apply IH; [|done]. unfold ensureCurrent in HC. rewrite Hd in HC. simpl in HC.
    destruct (current c); [|done]. by case_if.
  - exfalso. unfold ensureCurrent in HC. rewrite Hcu in HC.
    destruct (done c); simpl in HC; rewrite Hcu in HC; case_if; breflect; [done|lia|done|lia].
Qed.

Lemma done_covers cur cs :
  Forall (fun c => done c = true) cs -> no_candidates cs -> cursors_inv cur cs ->
  (forall Le, In Le levels -> Le.2 = None) /\ (forall f, usable f -> MaxTXID f <= cur).
Proof.
  intros Hd Hn HF. split.
  - intros Le HLe. apply list_elem_of_In, list_elem_of_lookup in HLe as [i Hi].
    destruct (Forall2_lookup_l _ _ _ _ _ HF Hi) as (c & Hc & HI).
    apply (ci_err' _ _ _ _ HI), (Forall_lookup_1 _ _ _ _ Hd Hc).
  - intros f (Hel & Le & HLe & Hf). apply list_elem_of_In, list_elem_of_lookup in HLe as [i Hi].
    destruct (Forall2_lookup_l _ _ _ _ _ HF Hi) as (c & Hc & HI).
    destruct HI as [(seen & HL & _ & Hseen) HD _ _].
    rewrite HD, app_nil_r in HL by (by eapply Forall_lookup_1 in Hd).
    rewrite HL in Hf. destruct (Hseen f Hf Hel) as [|(ca & Hca & _)]; [done|].
    rewrite (Hn c) in Hca; [done|]. by eapply list_elem_of_In, list_elem_of_lookup_2.
Qed.
End Target.

(** ** Theorems about [CalcRestorePlan] *)

Section PlanTheorems.
Context {C : Type} `{RC : ReplicaClientLaws C} `{FI : FileInfoSliceLaws}.
Variables (client : C) (txID : TXID) (timestamp : time).
Abbreviation um := (negb (time_IsZero timestamp)).

(** The target transaction of a chosen snapshot. *)
Definition snapshot_max (snap : option FileInfo) : TXID :=
  match snap with Some s => MaxTXID s | None => 0 end.

(** A file of a compaction level that the restore may use. *)
Definition restorable (f : FileInfo) : Prop :=
  eligible txID timestamp f = true /\
  exists level, 0 <= level < SnapshotLevel /\ In f (level_files client um level).

(** The listings a plan starts from are all readable. *)
Definition readable : Prop :=
  forall level, 0 <= level <= SnapshotLevel ->
    exists it, LTXFiles client level 0 um = Ok it /\ itr_Err it = None.

Lemma restore_levels_In level : In level restore_levels <-> 0 <= level < SnapshotLevel.
Proof. unfold restore_levels, SnapshotLevel. simpl. lia. Qed.

(** The snapshot chosen is the last eligible one. *)
Lemma scan_snapshots_spec items old :
  scan_snapshots txID timestamp items old =
  match last (filter (eligible txID timestamp) items) with Some s => Some s | None => old end.
Proof.
  revert old. induction items as [|f items IH]; intros old; [done|]. cbn [scan_snapshots].
  rewrite filter_cons_bool. unfold eligible at 1. rewrite !IH.
  destruct (_ && (txID <? _)); simpl; [done|].
  destruct (_ && negb (time_Before _ _)); simpl; [done|].
  rewrite last_cons. by destruct (last _).
Qed.

Lemma open_cursors_inv lvls :
  match open_cursors client um lvls with
  | Ok cs => exists levels,
      Forall2 (fun Le c => cursor_inv txID timestamp Le.1 Le.2 0 c) levels cs /\
      Forall2 (fun level Le => exists it, LTXFiles client level 0 um = Ok it /\
                 Le = (itr_items it, itr_Err it)) lvls levels
  | Err e => exists level, In level lvls /\ LTXFiles client level 0 um = Err e
  | Panic m => exists level, In level lvls /\ LTXFiles client level 0 um = Panic m
  end.
Proof.
  induction lvls as [|level lvls IH]; cbn [open_cursors].
  { exists []. split; constructor. }
  destruct (LTXFiles client level 0 um) as [it|e|m] eqn:HL; simpl; [|exists level; auto..].
  destruct (open_cursors client um lvls) as [cs|e|m]; simpl.
  - destruct IH as (levels & ? & ?). exists ((itr_items it, itr_Err it) :: levels).
    split; constructor; eauto. apply cursor_inv_init.
  - destruct IH as (l & ? & ?). exists l. auto.
  - destruct IH as (l & ? & ?). exists l. auto.
Qed.

(** What the listings promise about the levels of the cursors. *)
Lemma listed_levels_ok levels :
  Forall2 (fun level Le => exists it, LTXFiles client level 0 um = Ok it /\
                 Le = (itr_items it, itr_Err it)) restore_levels levels ->
  levels_ok levels /\
  (forall f, usable txID timestamp levels f -> restorable f) /\
  ((forall Le, In Le levels -> Le.2 = None) ->
     forall f, restorable f -> usable txID timestamp levels f).
Proof.
  intros HF. split_and!.
  - intros Le HLe. apply list_elem_of_In, list_elem_of_lookup in HLe as [i Hi].
    destruct (Forall2_lookup_r _ _ _ _ _ HF Hi) as (level & _ & it & HL & ->). simpl.
    destruct (LTXFiles_items _ _ _ _ _ HL) as [tl Htl].
    pose proof (level_files_sorted client um level) as Hs. split.
    + apply (StronglySorted_app_1_l _ _ tl). rewrite <- Htl.
      apply StronglySorted_filter_bool, Hs.
    + intros f Hf. apply (level_files_range client um level).
      eapply (In_filter_bool (fun f => 0 <=? MinTXID f)). rewrite Htl. apply in_or_app. by left.
  - intros f (Hel & Le & HLe & Hf). split; [done|].
    apply list_elem_of_In, list_elem_of_lookup in HLe as [i Hi].
    destruct (Forall2_lookup_r _ _ _ _ _ HF Hi) as (level & Hl & it & HL & ->). simpl in Hf.
    exists level. split; [by eapply restore_levels_In, list_elem_of_In, list_elem_of_lookup_2|].
    destruct (LTXFiles_items _ _ _ _ _ HL) as [tl Htl].
    eapply (In_filter_bool (fun f => 0 <=? MinTXID f)). rewrite Htl. apply in_or_app. by left.
  - intros He f (Hel & level & Hl & Hf). split; [done|].
    apply restore_levels_In, list_elem_of_In, list_elem_of_lookup in Hl as [i Hi].
    destruct (Forall2_lookup_l _ _ _ _ _ HF Hi) as (Le & HLe & it & HL & ->).
    apply list_elem_of_lookup_2, list_elem_of_In in HLe.
    exists (itr_items it, itr_Err it). split; [done|]. simpl.
    rewrite (LTXFiles_all _ _ _ _ HL (He _ HLe)). done.
Qed.

Lemma slice_MaxTXID_chain snap ext cur :
  chain (snapshot_max snap) ext cur -> slice_MaxTXID (option_list snap ++ ext) = cur.
Proof.
  intros Hc. destruct ext as [|f ext] using rev_ind.
  - simpl in Hc. subst. rewrite app_nil_r. destruct snap as [s|]; simpl; [|apply slice_MaxTXID_nil].
    apply (slice_MaxTXID_snoc [] s). intros ? [].
  - clear IHext. rewrite app_assoc.
    assert (forall p, chain p (ext ++ [f]) cur ->
              cur = MaxTXID f /\ p < MaxTXID f /\ forall y, In y ext -> MaxTXID y < MaxTXID f) as Hlast.
    { clear Hc. induction ext as [|g ext IH]; intros p; simpl.
      - intros (? & ? & <-). split_and!; [done|done|intros ? []].
      - intros (? & ? & Hc). apply IH in Hc as (? & ? & ?). split_and!; [done|lia|].
        intros y [<-|?]; auto. }
    apply Hlast in Hc as (-> & ? & Hlt). apply slice_MaxTXID_snoc.
    intros y [Hy|Hy]%in_app_or; [|by apply Hlt].
    destruct snap as [s|]; simpl in *; [|done]. by destruct Hy as [<-|[]].
Qed.

(** What the loop over the levels delivers, from the chosen snapshot on. *)
Lemma plan_from_snapshot snap :
  0 <= snapshot_max snap ->
  match (cursors ← open_cursors client um restore_levels;
         plan_loop (S (cursors_work cursors)) txID timestamp cursors
           (option_list snap) (snapshot_max snap)) with
  | Ok (cs, infos, cur) => exists levels ext,
      infos = option_list snap ++ ext /\ chain (snapshot_max snap) ext cur /\ Forall restorable ext /\
      ((forall Le, In Le levels -> Le.2 = None) -> greedy_chain restorable (snapshot_max snap) ext) /\
      Forall2 (fun Le c => cursor_inv txID timestamp Le.1 Le.2 cur c) levels cs /\ plan_end txID cur cs /\
      Forall2 (fun level Le => exists it, LTXFiles client level 0 um = Ok it /\
                 Le = (itr_items it, itr_Err it)) restore_levels levels
  | Err e => ~ readable
  | Panic m => ~ readable
  end.
Proof.
  intros Hs. pose proof (open_cursors_inv restore_levels) as HO.
  destruct (open_cursors client um restore_levels) as [cs|e|m]; cbn [mbind result_bind].
  2,3: destruct HO as (level & Hl%restore_levels_In & HL); intros Hr;
       destruct (Hr level) as (it & HL' & _); [lia|congruence].
  destruct HO as (levels & HF & HL). destruct (listed_levels_ok _ HL) as (Hok & Hus & Hus').
  pose proof (plan_loop_inv txID timestamp levels (S (cursors_work cs)) cs (option_list snap)
    (snapshot_max snap) Hs ltac:(lia) ltac:(by eapply cursors_inv_mono)) as HP.
  destruct (plan_loop _ _ _ _ _ _) as [[[cs' infos] cur]|e|m]; [| |done].
  - destruct HP as (ext & ? & ? & HU & Hg & ? & ?). exists levels, ext. split_and!; try done.
    + eapply Forall_impl; eauto.
    + intros Hne. specialize (Hg Hok). clear -Hg Hus' Hne. revert Hg. generalize (snapshot_max snap).
      induction ext as [|f ext IH]; simpl; [done|]. intros p [Hb Hg]. eauto.
  - destruct HP as (Le & HLe & He). intros Hr.
    apply list_elem_of_In, list_elem_of_lookup in HLe as [i Hi].
    destruct (Forall2_lookup_r _ _ _ _ _ HL Hi) as (level & Hl & it & HL' & ->).
    apply list_elem_of_lookup_2, list_elem_of_In, restore_levels_In in Hl.
    destruct (Hr level) as (it' & HL'' & He'); [lia|]. simpl in He. congruence.
Qed.

Lemma chosen_snapshot sitr snap :
  LTXFiles client SnapshotLevel 0 um = Ok sitr ->
  last (filter (eligible txID timestamp) (itr_items sitr)) = Some snap ->
  In snap (level_files client um SnapshotLevel) /\ eligible txID timestamp snap = true.
Proof.
  intros HL Hs. assert (In snap (filter (eligible txID timestamp) (itr_items sitr))) as Hin.
  { apply last_Some in Hs as [l' ->]. apply in_or_app. right. by left. }
  apply In_filter_bool in Hin as [Hel Hin]. split; [|done].
  destruct (LTXFiles_items _ _ _ _ _ HL) as [tl Htl].
  eapply (In_filter_bool (fun f => 0 <=? MinTXID f)). rewrite Htl. apply in_or_app. by left.
Qed.

(** The ways [CalcRestorePlan] returns a plan. *)
Lemma CalcRestorePlan_inv plan :
  CalcRestorePlan client txID timestamp = Ok plan ->
  exists snapItr snap ext cur,
    LTXFiles client SnapshotLevel 0 um = Ok snapItr /\ itr_Close snapItr = None /\
    snap = last (filter (eligible txID timestamp) (itr_items snapItr)) /\
    plan = option_list snap ++ ext /\ (0 <= txID -> plan <> []) /\ (txID = 0 \/ timestamp = 0) /\
    chain (snapshot_max snap) ext cur /\ Forall restorable ext /\ (txID <> 0 -> txID <= cur) /\
    (readable -> greedy_chain restorable (snapshot_max snap) ext) /\
    (txID = 0 -> timestamp = 0 -> forall f, restorable f -> MaxTXID f <= cur).
Proof.
  intros HP. unfold CalcRestorePlan in HP.
  destruct (negb (txID =? 0) && _) eqn:Hboth; [done|].
  assert (txID = 0 \/ timestamp = 0) as Hboth'.
  { unfold time_IsZero in Hboth. destruct (Z.eqb_spec txID 0); [by left|].
    simpl in Hboth. breflect. by right. }
  destruct (LTXFiles client SnapshotLevel 0 um) as [sitr|e|m] eqn:HS; cbn [mbind result_bind] in HP; [|done..].
  destruct (itr_Close sitr) eqn:HSC; [done|].
  rewrite scan_snapshots_spec in HP.
  set (snap := last (filter (eligible txID timestamp) (itr_items sitr))) in HP.
  replace (match snap with Some s => Some s | None => None end) with snap in HP by (by destruct snap).
  assert (0 <= snapshot_max snap) as Hpos.
  { destruct snap as [sn|] eqn:Hsn; simpl; [|lia].
    apply (chosen_snapshot _ _ HS) in Hsn as [Hin _]. apply level_files_range in Hin. lia. }
  assert (slice_MaxTXID (option_list snap) = snapshot_max snap) as Hstart.
  { rewrite <- (app_nil_r (option_list snap)). by apply slice_MaxTXID_chain. }
  rewrite Hstart in HP. exists sitr, snap.
  destruct (negb (txID =? 0) && (txID <=? snapshot_max snap)) eqn:Hshort.
  { injection HP as <-. apply andb_true_iff in Hshort as [Hz Hle]. breflect.
    exists [], (snapshot_max snap). rewrite app_nil_r.
    split_and!; try done. intros. destruct snap; simpl in *; [done|lia]. }
  pose proof (plan_from_snapshot snap Hpos) as HO.
  destruct (open_cursors client um restore_levels) as [cs|e|m]; cbn [mbind result_bind] in HP, HO; [|done..].
  destruct (plan_loop _ _ _ _ _ _) as [[[cs' infos] cur]|e|m]; cbn [mbind result_bind] in HP; [|done..].
  destruct HO as (levels & ext & -> & Hch & Hre & Hgr & HF & Hend & HL).
  destruct (listed_levels_ok _ HL) as (Hok & Hus & Hus').
  exists ext, cur. pose proof (slice_MaxTXID_chain _ _ _ Hch) as Hsl. rewrite Hsl in HP.
  destruct (if negb _ && _ && _ then check_tail cur cs' else Ok ()) as [[]|e|m] eqn:Hct;
    cbn [mbind result_bind] in HP; [|done..].
  case_if; [done|]. destruct (negb (txID =? 0) && (cur <? txID)) eqn:Hcur; [done|]. injection HP as <-.
  apply bool_decide_eq_false in E. split_and!; try done.
  - intros Hne. rewrite <- Z.eqb_neq in Hne. rewrite Hne in Hcur. simpl in Hcur. breflect. done.
  - intros Hr. apply Hgr. intros Le HLe. apply list_elem_of_In, list_elem_of_lookup in HLe as [i Hi].
    destruct (Forall2_lookup_r _ _ _ _ _ HL Hi) as (level & Hl & it & HL' & ->).
    apply list_elem_of_lookup_2, list_elem_of_In, restore_levels_In in Hl.
    destruct (Hr level) as (it' & HL'' & He'); [lia|]. simpl. congruence.
  - intros Ht0 Hts0 f Hf. destruct Hend as [[? _]|[Hfr Hn]]; [done|].
    rewrite Ht0, Hts0 in Hct. simpl in Hct.
    apply check_tail_done in Hct; [|done].
    destruct (done_covers _ _ _ _ _ Hct Hn HF) as [Hne Hcov]. apply Hcov, Hus'; done.
Qed.

Lemma eligible_Max f : eligible txID timestamp f = true -> txID <> 0 -> MaxTXID f <= txID.
Proof.
  unfold eligible. intros [H1 _]%andb_true_iff Hne. rewrite <- Z.eqb_neq in Hne.
  rewrite Hne in H1. simpl in H1. breflect. done.
Qed.

Lemma chain_end_bound p ext cur m :
  chain p ext cur -> p <= m -> (forall f, In f ext -> MaxTXID f <= m) -> cur <= m.
Proof.
  revert p. induction ext as [|f ext IH]; simpl; [lia|].
  intros p (? & ? & Hc) Hp Hm. eapply IH; eauto.
Qed.

(** The end of a plan for a transaction is exactly that transaction. *)
Lemma plan_end_exact snap ext cur :
  chain (snapshot_max snap) ext cur -> Forall restorable ext -> 0 <= txID ->
  (forall s, snap = Some s -> eligible txID timestamp s = true) ->
  (txID <> 0 -> txID <= cur) -> txID <> 0 -> cur = txID.
Proof.
  intros Hc HF Ht Hs Hle Hne. specialize (Hle Hne).
  assert (cur <= txID); [|lia]. eapply chain_end_bound; eauto.
  - destruct snap as [s|]; simpl; [|lia]. by apply eligible_Max, Hne; apply Hs.
  - intros f Hf. rewrite Forall_forall in HF. apply eligible_Max; [|done].
    apply HF. by apply list_elem_of_In.
Qed.

(** The snapshot a plan starts from, as the replica stores them. *)
Definition plan_snapshot : option FileInfo :=
  last (filter (eligible txID timestamp) (level_files client um SnapshotLevel)).

Lemma plan_snapshot_pos : 0 <= snapshot_max plan_snapshot.
Proof.
  unfold plan_snapshot. destruct (last _) as [s|] eqn:Hs; simpl; [|lia].
  apply last_Some in Hs as [l' Hs].
  assert (In s (filter (eligible txID timestamp) (level_files client um SnapshotLevel))) as Hin.
  { rewrite Hs. apply in_or_app. right. by left. }
  apply In_filter_bool in Hin as [_ Hin]. apply level_files_range in Hin. lia.
Qed.

(** What a plan is. *)
Lemma plan_sound plan :
  CalcRestorePlan client txID timestamp = Ok plan -> 0 <= txID ->
  plan <> [] /\
  exists snap ext cur,
    plan = option_list snap ++ ext /\
    (forall s, snap = Some s ->
       In s (level_files client um SnapshotLevel) /\ eligible txID timestamp s = true) /\
    chain (snapshot_max snap) ext cur /\ Forall restorable ext /\
    slice_MaxTXID plan = cur /\ (txID <> 0 -> cur = txID).
Proof.
  intros HP Ht. apply CalcRestorePlan_inv in HP
    as (sitr & snap & ext & cur & HS & _ & Hsnap & -> & Hne & _ & Hc & HF & Hle & _).
  split; [by apply Hne|]. exists snap, ext, cur.
  assert (forall s, snap = Some s ->
       In s (level_files client um SnapshotLevel) /\ eligible txID timestamp s = true) as Hsn.
  { intros s ->. by eapply chosen_snapshot. }
  split_and!; try done; [by apply slice_MaxTXID_chain|].
  eapply plan_end_exact; eauto. intros s Es. by apply Hsn.
Qed.

(** The snapshot of a plan is the last eligible one that the replica stores, and none only when there is none. *)
Lemma plan_starts plan :
  CalcRestorePlan client txID timestamp = Ok plan -> 0 <= txID ->
  plan <> [] /\
  exists ext cur,
    plan = option_list plan_snapshot ++ ext /\
    (forall s, plan_snapshot = Some s ->
       In s (level_files client um SnapshotLevel) /\ eligible txID timestamp s = true) /\
    chain (snapshot_max plan_snapshot) ext cur /\ Forall restorable ext /\
    slice_MaxTXID plan = cur /\ (txID <> 0 -> cur = txID).
Proof.
  intros HP Ht. apply CalcRestorePlan_inv in HP
    as (sitr & snap & ext & cur & HS & HC & Hsnap & -> & Hne & _ & Hc & HF & Hle & _).
  assert (snap = plan_snapshot) as Heq.
  { rewrite Hsnap. unfold plan_snapshot. rewrite (LTXFiles_close _ _ _ _ _ HS) in HC. by rewrite (LTXFiles_all _ _ _ _ HS HC). }
  assert (forall s, snap = Some s ->
       In s (level_files client um SnapshotLevel) /\ eligible txID timestamp s = true) as Hsn.
  { intros s ->. by eapply chosen_snapshot. }
  subst snap. rewrite Heq in *. split; [by apply Hne|]. exists ext, cur.
  split_and!; try done; [by apply slice_MaxTXID_chain|].
  eapply plan_end_exact; eauto. intros s Es. by apply Hsn.
Qed.

(** C7: a restore plan is sound.  Whatever the listings deliver, a plan starts with the last
    snapshot that the replica stores and the target allows (with transaction zero only when there is none),
    continues with stored files that the target allows, each of which starts no later than the next missing
    transaction and reaches further than the ones before, and ends exactly at the
    requested transaction. *)
Theorem CalcRestorePlan_sound plan :
  CalcRestorePlan client txID timestamp = Ok plan -> 0 <= txID ->
  plan <> [] /\
  exists ext cur,
    plan = option_list plan_snapshot ++ ext /\
    (forall s, plan_snapshot = Some s ->
       In s (level_files client um SnapshotLevel) /\ eligible txID timestamp s = true) /\
    chain (snapshot_max plan_snapshot) ext cur /\ Forall restorable ext /\
    slice_MaxTXID plan = cur /\ (txID <> 0 -> cur = txID).
Proof. apply plan_starts. Qed.

(** A restore plan uses the fewest files: no other chain of stored, eligible
    files from the same snapshot that reaches as far is shorter. *)
Theorem CalcRestorePlan_shortest plan :
  CalcRestorePlan client txID timestamp = Ok plan -> readable ->
  exists snap ext cur,
    plan = option_list snap ++ ext /\ chain (snapshot_max snap) ext cur /\
    forall fs cur', chain (snapshot_max snap) fs cur' -> Forall restorable fs -> cur <= cur' ->
      (length ext <= length fs)%nat.
Proof.
  intros HP Hr. apply CalcRestorePlan_inv in HP
    as (sitr & snap & ext & cur & HS & _ & Hsnap & -> & Hne & _ & Hc & HF & Hle & Hg & _).
  exists snap, ext, cur. split_and!; [done..|]. intros fs cur' Hfs HFs Hcur.
  eapply greedy_shortest; eauto; lia.
Qed.

(** Nothing is past the end of a plan to the latest state. *)
Lemma plan_latest plan f level :
  txID = 0 -> timestamp = 0 -> CalcRestorePlan client txID timestamp = Ok plan ->
  0 <= level < SnapshotLevel -> In f (level_files client um level) ->
  MaxTXID f <= slice_MaxTXID plan.
Proof.
  intros Ht Hts HP Hl Hf. apply CalcRestorePlan_inv in HP
    as (sitr & snap & ext & cur & HS & _ & Hsnap & -> & Hne & _ & Hc & HF & Hle & Hg & Hall).
  rewrite (slice_MaxTXID_chain _ _ _ Hc). apply Hall; [done..|]. split; [|eauto].
  by rewrite Ht, Hts.
Qed.

(** A restore to the latest state leaves nothing behind: when it has a plan,
    no file of any compaction level reaches past the plan's end. *)
Theorem CalcRestorePlan_latest plan f level :
  txID = 0 -> timestamp = 0 -> CalcRestorePlan client txID timestamp = Ok plan ->
  0 <= level < SnapshotLevel -> In f (level_files client um level) ->
  MaxTXID f <= slice_MaxTXID plan.
Proof. apply plan_latest. Qed.

(** The plan loop ends at or past every reachable transaction. *)
Lemma plan_reaches levels cs cur snap fs t :
  readable -> 0 <= cur -> plan_end txID cur cs -> txID <> 0 /\ t = txID \/ txID = 0 ->
  Forall2 (fun Le c => cursor_inv txID timestamp Le.1 Le.2 cur c) levels cs ->
  Forall2 (fun level Le => exists it, LTXFiles client level 0 um = Ok it /\
                 Le = (itr_items it, itr_Err it)) restore_levels levels ->
  chain (snapshot_max snap) fs t -> Forall restorable fs -> snapshot_max snap <= cur -> t <= cur.
Proof.
  intros Hr Hcur Hend Ht HF HL Hfs HFs Hle.
  destruct (listed_levels_ok _ HL) as (Hok & Hus & Hus').
  destruct Hend as [[? ?]|[Hfr Hn]]; [destruct Ht as [[_ ->]|]; [done|lia]|].
  eapply (chain_stalled restorable); eauto. intros g Hg Hmin.
  assert (usable txID timestamp levels g) as Hu.
  { apply Hus'; [|done]. intros Le HLe. apply list_elem_of_In, list_elem_of_lookup in HLe as [i Hi].
    destruct (Forall2_lookup_r _ _ _ _ _ HL Hi) as (level & Hl & it & HL' & ->).
    apply list_elem_of_lookup_2, list_elem_of_In, restore_levels_In in Hl.
    destruct (Hr level) as (it' & HL'' & He'); [lia|]. simpl. congruence. }
  destruct (fresh_usable txID timestamp levels cur cs g Hok HF Hfr Hcur Hu Hmin)
    as [|(c & ca & Hin & Hca & _)]; [done|]. by rewrite (Hn c Hin) in Hca.
Qed.

(** When a plan is found. *)
Lemma plan_complete fs t :
  readable -> 0 < t -> (txID = t /\ timestamp = 0) \/ (txID = 0 /\ timestamp <> 0) ->
  chain (snapshot_max plan_snapshot) fs t -> Forall restorable fs ->
  exists plan, CalcRestorePlan client txID timestamp = Ok plan /\ t <= slice_MaxTXID plan.
Proof.
  intros Hr Ht Hcase Hfs HFs. unfold CalcRestorePlan.
  replace (negb (txID =? 0) && um) with false
    by (destruct Hcase as [[-> ->]|[-> ?]]; simpl; by rewrite ?andb_false_r).
  destruct (Hr SnapshotLevel ltac:(unfold SnapshotLevel; lia)) as (sitr & HS & HE).
  rewrite HS. cbn [mbind result_bind].
  rewrite (LTXFiles_close _ _ _ _ _ HS), HE, scan_snapshots_spec, (LTXFiles_all _ _ _ _ HS HE).
  fold plan_snapshot. set (snap := plan_snapshot) in *.
  replace (match snap with Some s => Some s | None => None end) with snap by (by destruct snap).
  assert (slice_MaxTXID (option_list snap) = snapshot_max snap) as Hstart.
  { rewrite <- (app_nil_r (option_list snap)). by apply slice_MaxTXID_chain. }
  rewrite Hstart. case_if.
  { eexists. split; [done|]. rewrite Hstart. breflect. destruct Hcase as [[<- _]|[-> _]]; [done|lia]. }
  pose proof (plan_from_snapshot snap plan_snapshot_pos) as HO.
  destruct (open_cursors client um restore_levels) as [cs|e|m]; cbn [mbind result_bind] in *; [|done..].
  destruct (plan_loop _ _ _ _ _ _) as [[[cs' infos] cur]|e|m]; cbn [mbind result_bind]; [|done..].
  destruct HO as (levels & ext & -> & Hch & Hre & Hgr & HF & Hend & HL).
  assert (t <= cur) as Hcur.
  { pose proof (chain_le _ _ _ Hch). assert (0 <= snapshot_max snap) by apply plan_snapshot_pos.
    eapply (plan_reaches levels cs' cur snap); eauto; [lia|].
    destruct Hcase as [[-> _]|[-> _]]; [left|by right]. split; [lia|done]. }
  pose proof (slice_MaxTXID_chain _ _ _ Hch) as Hsl. rewrite Hsl.
  rewrite bool_decide_eq_false_2 by (intros E0; rewrite E0, slice_MaxTXID_nil in Hsl; lia).
  exists (option_list snap ++ ext). rewrite Hsl. split; [|done].
  destruct Hcase as [[-> ->]|[-> Hts]]; simpl.
  - destruct (Z.eqb_spec t 0); [lia|]. simpl. destruct (Z.ltb_spec cur t); [lia|done].
  - unfold time_IsZero. destruct (Z.eqb_spec timestamp 0); done.
Qed.

(** C8: a plan is found whenever one exists.  On a readable replica, if stored
    eligible files chain from the last eligible snapshot to a transaction [t]
    (the target, or any transaction for a restore to a time), [CalcRestorePlan]
    returns a plan that reaches [t]. *)
Theorem CalcRestorePlan_complete fs t :
  readable -> 0 < t -> (txID = t /\ timestamp = 0) \/ (txID = 0 /\ timestamp <> 0) ->
  chain (snapshot_max plan_snapshot) fs t -> Forall restorable fs ->
  exists plan, CalcRestorePlan client txID timestamp = Ok plan /\ t <= slice_MaxTXID plan.
Proof. apply plan_complete. Qed.
End PlanTheorems.

(** ** A concrete replica *)

Section Demo.
Definition demo_info (level lo hi at_ : Z) : Mem.object := (mkFileInfo level lo hi 100 at_, []).

(** A snapshot of transactions 1-4, compacted files 1-3 and 4-6, and the
    level-0 files of transactions 5 to 8. *)
Definition demo_replica : Mem.client :=
  Mem.mkClient [demo_info 9 1 4 40; demo_info 1 1 3 30; demo_info 1 4 6 60;
                demo_info 0 5 5 50; demo_info 0 6 6 60; demo_info 0 7 7 70; demo_info 0 8 8 80]
    eq_refl.

(** The maximum of a plan, whose ids increase, is its last id. *)
Definition last_slice : FileInfoSliceOps :=
  fun l => match last l with Some f => MaxTXID f | None => 0 end.

Lemma last_slice_laws : @FileInfoSliceLaws last_slice.
Proof.
  split; [done|]. intros l x _. unfold slice_MaxTXID, last_slice. by rewrite last_snoc.
Qed.

Lemma demo_readable ts : @readable Mem.client Mem.client_ops demo_replica ts.
Proof. intros level _. eexists. split; [done|]. done. Qed.
End Demo.

Definition demo_plan7 : list FileInfo :=
  [mkFileInfo 9 1 4 100 40; mkFileInfo 1 4 6 100 60; mkFileInfo 0 7 7 100 70].

Lemma CalcRestorePlan_sound_witness :
  @CalcRestorePlan _ _ last_slice demo_replica 7 0 = Ok demo_plan7 /\
  demo_plan7 <> [] /\ @slice_MaxTXID last_slice demo_plan7 = 7.
Proof.
  assert (@CalcRestorePlan _ _ last_slice demo_replica 7 0 = Ok demo_plan7) as HP
    by (vm_compute; reflexivity).
  destruct (@CalcRestorePlan_sound _ _ _ _ last_slice_laws demo_replica 7 0 demo_plan7 HP ltac:(lia))
    as (Hne & ext & cur & _ & _ & _ & _ & Hcur & Hex).
  split; [exact HP|]. split; [exact Hne|]. rewrite Hcur. apply Hex. lia.
Defined.

Lemma CalcRestorePlan_shortest_witness :
  exists plan, @CalcRestorePlan _ _ last_slice demo_replica 8 0 = Ok plan /\
    exists snap ext cur, plan = option_list snap ++ ext /\ chain (snapshot_max snap) ext cur /\
      forall fs cur', chain (snapshot_max snap) fs cur' -> Forall (restorable demo_replica 8 0) fs ->
        cur <= cur' -> (length ext <= length fs)%nat.
Proof.
  eexists. split; [vm_compute; reflexivity|].
  apply (@CalcRestorePlan_shortest _ _ _ _ last_slice_laws demo_replica 8 0);
    [vm_compute; reflexivity|apply demo_readable].
Defined.

Lemma CalcRestorePlan_latest_witness :
  exists plan, @CalcRestorePlan _ _ last_slice demo_replica 0 0 = Ok plan /\
    MaxTXID (mkFileInfo 0 8 8 100 80) <= @slice_MaxTXID last_slice plan.
Proof.
  eexists. split; [vm_compute; reflexivity|].
  apply (@CalcRestorePlan_latest _ _ _ _ last_slice_laws demo_replica 0 0 _ _ 0);
    [reflexivity|reflexivity|vm_compute; reflexivity|unfold SnapshotLevel; lia|vm_compute; tauto].
Defined.

Lemma CalcRestorePlan_complete_witness :
  exists plan, @CalcRestorePlan _ _ last_slice demo_replica 0 65 = Ok plan /\
    6 <= @slice_MaxTXID last_slice plan.
Proof.
  apply (@CalcRestorePlan_complete _ _ _ _ last_slice_laws demo_replica 0 65
           [mkFileInfo 0 5 5 100 50; mkFileInfo 0 6 6 100 60] 6);
    [apply demo_readable|lia|right; lia|vm_compute; intuition discriminate|].
  repeat constructor; exists 0; (split; [unfold SnapshotLevel; lia|vm_compute; tauto]).
Defined.
