(* ===== verification/Compactor.v ===== *)
(** * Compaction and retention

    Model of src/compactor.go, over the client interface: the cached maximum of
    a level, compaction of one level into the next (with the pipe that connects
    the ltx compactor, the age writer and the client), the contiguity check and
    the three retention policies; with them the theorems that compaction keeps
    levels contiguous and never writes plaintext where encryption is required,
    and that retention deletes only files a restore does not need. *)

From Stdlib Require Import ZArith Lia Strings.Byte.
From stdpp Require Import base numbers list strings gmap sorting.
From S2P Require Import Prelude Ltx Streams RestorePlan.
Local Open Scope Z_scope.

Definition ErrNoCompaction : error := EVar "no compaction".
Definition ErrEncryptionRequired : error :=
  EVar "replicate: encryption required but no age recipient configured (refusing to write plaintext)".

(** The largest [MaxTXID] of a listing, and its file. *)
Fixpoint max_info (items : list FileInfo) (info : FileInfo) : FileInfo :=
  match items with
  | [] => info
  | item :: items => max_info items (if MaxTXID info <? MaxTXID item then item else info)
  end.

(** Go pointers to the items of one listing are told apart by position. *)
Definition item_ptr : Type := nat * FileInfo.

(** [len(deleted) > 0 && deleted[len(deleted)-1] == lastInfo], and dropping it. *)
Definition drop_newest (deleted : list item_ptr) (lastInfo : option item_ptr) : list item_ptr :=
  match last deleted, lastInfo with
  | Some (i, _), Some (j, _) => if (i =? j)%nat then take (length deleted - 1) deleted else deleted
  | _, _ => deleted
  end.

(** The loop of [EnforceRetentionByTXID]. *)
Fixpoint retention_loop (txID : TXID) (i : nat) (items : list FileInfo)
    (deleted : list item_ptr) (lastInfo : option item_ptr) : list item_ptr * option item_ptr :=
  match items with
  | [] => (deleted, lastInfo)
  | info :: items =>
      let lastInfo := Some (i, info) in
      if MaxTXID info <? txID then retention_loop txID (S i) items (deleted ++ [(i, info)]) lastInfo
      else retention_loop txID (S i) items deleted lastInfo
  end.

(** The loop of [EnforceSnapshotRetention]. *)
Fixpoint snapshot_loop (timestamp : time) (i : nat) (items : list FileInfo)
    (deleted : list item_ptr) (lastInfo : option item_ptr) (minSnapshotTXID : TXID)
    : list item_ptr * option item_ptr * TXID :=
  match items with
  | [] => (deleted, lastInfo, minSnapshotTXID)
  | info :: items =>
      let lastInfo := Some (i, info) in
      if time_Before (CreatedAt info) timestamp
      then snapshot_loop timestamp (S i) items (deleted ++ [(i, info)]) lastInfo minSnapshotTXID
      else
        let m := if (minSnapshotTXID =? 0) || (MaxTXID info <? minSnapshotTXID)
                 then MaxTXID info else minSnapshotTXID in
        snapshot_loop timestamp (S i) items deleted lastInfo m
  end.

(** The largest [MaxTXID] of the level-1 files. *)
Fixpoint max_txid (items : list FileInfo) (m : TXID) : TXID :=
  match items with
  | [] => m
  | info :: items => max_txid items (if m <? MaxTXID info then MaxTXID info else m)
  end.

(** The loop of [EnforceL0Retention]; the flag is [processedAll]. *)
Fixpoint l0_loop (threshold : time) (maxL1TXID : TXID) (i : nat) (items : list FileInfo)
    (deleted : list item_ptr) (lastInfo : option item_ptr) : list item_ptr * option item_ptr * bool :=
  match items with
  | [] => (deleted, lastInfo, true)
  | info :: items =>
      let lastInfo := Some (i, info) in
      let createdAt := if time_IsZero (CreatedAt info) then threshold else CreatedAt info in
      if time_After createdAt threshold then (deleted, lastInfo, false)
      else if MaxTXID info <=? maxL1TXID
      then l0_loop threshold maxL1TXID (S i) items (deleted ++ [(i, info)]) lastInfo
      else l0_loop threshold maxL1TXID (S i) items deleted lastInfo
  end.

(** The loop of [VerifyLevelConsistency]. *)
Fixpoint verify_loop (prevInfo : option FileInfo) (items : list FileInfo) : result () :=
  match items with
  | [] => Ok ()
  | info :: items =>
      match prevInfo with
      | None => verify_loop (Some info) items
      | Some prev =>
          let expectedMinTXID := txid_succ (MaxTXID prev) in
          if negb (MinTXID info =? expectedMinTXID) then
            if expectedMinTXID <? MinTXID info then Err (EMsg "TXID gap detected")
            else Err (EMsg "TXID overlap detected")
          else verify_loop (Some info) items
      end
  end.

Section Compactor.
Context {C : Type} `{ReplicaClient C}.
(** The local files of the database, and the age and ltx packages. *)
Context {L identity recipient : Type}.
Variable age_Decrypt : list identity -> Reader -> result Reader.
(** The bytes an age writer emits for a plaintext when it is closed, and its error. *)
Variable age_Encrypt : list recipient -> result (list byte -> list byte * option error).
Variable ltx_NewCompactor : list Reader -> option error.
(** The bytes [Compact] writes before it returns, and its error. *)
Variable ltx_Compact : list Reader -> list byte * option error.

Record Compactor := mkCompactor {
  VerifyCompaction : bool;
  RetentionEnabled : bool;
  LocalFileOpener : option (L -> Z -> TXID -> TXID -> result Reader);
  LocalFileDeleter : option (L -> Z -> TXID -> TXID -> L * option error);
  CacheGetter : bool;      (** set: the cache of the state is consulted *)
  CacheSetter : bool;      (** set: the cache of the state is filled *)
  AgeIdentities : list identity;
  AgeRecipients : list recipient;
  RequireEncryption : bool
}.

(** What the compactor's calls change. *)
Record state := mkState {
  st_client : C;
  st_cache : gmap Z FileInfo;
  st_local : L;
  st_verifyErrors : Z
}.

Definition set_cache (st : state) (m : gmap Z FileInfo) : state :=
  mkState (st_client st) m (st_local st) (st_verifyErrors st).
Definition set_client (st : state) (c : C) : state :=
  mkState c (st_cache st) (st_local st) (st_verifyErrors st).

Definition MaxLTXFileInfo (c : Compactor) (st : state) (level : Z) : state * result FileInfo :=
  match (if CacheGetter c then st_cache st !! level else None) with
  | Some info => (st, Ok info)
  | None =>
      match LTXFiles (st_client st) level 0 false with
      | Err e => (st, Err e)
      | Panic m => (st, Panic m)
      | Ok itr =>
          let info := max_info (itr_items itr) zeroFileInfo in
          let st := if CacheSetter c && (0 <? MaxTXID info)
                    then set_cache st (<[level := info]> (st_cache st)) else st in
          (st, match itr_Close itr with Some e => Err e | None => Ok info end)
      end
  end.

(** The source loop of [Compact]: the TXID range and the readers opened. *)
Fixpoint open_sources (c : Compactor) (st : state) (srcLevel : Z) (items : list FileInfo)
    (minTXID maxTXID : TXID) (rdrs : list Reader) : result (TXID * TXID * list Reader) :=
  match items with
  | [] => Ok (minTXID, maxTXID, rdrs)
  | info :: items =>
      let minTXID := if (minTXID =? 0) || (MinTXID info <? minTXID) then MinTXID info else minTXID in
      let maxTXID := if (maxTXID =? 0) || (maxTXID <? MaxTXID info) then MaxTXID info else maxTXID in
      let remote :=
        f ← OpenLTXFile (st_client st) (Level info) (MinTXID info) (MaxTXID info) 0 0
            wrapping "open ltx file";
        rd ← (if (0 <? length (AgeIdentities c))%nat
              then DecryptIfSealed f (age_Decrypt (AgeIdentities c)) wrapping "age decrypt ltx file"
              else Ok f);
        open_sources c st srcLevel items minTXID maxTXID (rdrs ++ [rd]) in
      match LocalFileOpener c with
      | None => remote
      | Some opener =>
          match opener (st_local st) srcLevel (MinTXID info) (MaxTXID info) with
          | Ok f => open_sources c st srcLevel items minTXID maxTXID (rdrs ++ [f])
          | Err e => if negb (os_IsNotExist e) then Err (EWrap "open local ltx file" e) else remote
          | Panic m => Panic m
          end
      end
  end.

(** The goroutine of [Compact]: what it writes into the pipe and how it closes it. *)
Definition compact_pipe (c : Compactor) (rdrs : list Reader) : Pipe.t :=
  let pw := Pipe.new in
  match (if (0 <? length (AgeRecipients c))%nat
         then match age_Encrypt (AgeRecipients c) with Ok ew => Ok (Some ew) | Err e => Err e | Panic m => Panic m end
         else Ok None) with
  | Panic m => Pipe.CloseWithError pw (Some (EMsg m))
  | Err e => Pipe.CloseWithError pw (Some (EWrap "age encrypt" e))
  | Ok enc =>
      (* [w.Close()] after the plaintext [b] was written to [w] *)
      let w_Close (pw : Pipe.t) (b : list byte) : Pipe.t * option error :=
        match enc with
        | None => (Pipe.Close (Pipe.Write pw b), None)
        | Some ew => let '(sealed, err) := ew b in (Pipe.Write pw sealed, err)
        end in
      match ltx_NewCompactor rdrs with
      | Some e => Pipe.CloseWithError (fst (w_Close pw [])) (Some (EWrap "new ltx compactor" e))
      | None =>
          let '(b, err) := ltx_Compact rdrs in
          match err with
          | Some e => Pipe.CloseWithError (fst (w_Close pw b)) (Some e)
          | None =>
              match enc with
              | Some _ =>
                  let '(pw, cerr) := w_Close pw b in
                  match cerr with
                  | Some e => Pipe.CloseWithError pw (Some e)
                  | None => Pipe.Close pw
                  end
              | None => Pipe.Close (Pipe.Write pw b)
              end
          end
      end
  end.

Definition VerifyLevelConsistency (cl : C) (level : Z) : result () :=
  itr ← LTXFiles cl level 0 false wrapping "fetch ltx files";
  _ ← verify_loop None (itr_items itr);
  match itr_Close itr with Some e => Err (EWrap "close iterator" e) | None => Ok () end.

Definition Compact (c : Compactor) (st : state) (dstLevel : Z) : state * result FileInfo :=
  let srcLevel := dstLevel - 1 in
  if RequireEncryption c && (length (AgeRecipients c) =? 0)%nat then (st, Err ErrEncryptionRequired) else
  let '(st, prevMax) := MaxLTXFileInfo c st dstLevel in
  match prevMax with
  | Err e => (st, Err (EWrap "cannot determine max ltx file for destination level" e))
  | Panic m => (st, Panic m)
  | Ok prevMaxInfo =>
      let seekTXID := txid_succ (MaxTXID prevMaxInfo) in
      match (itr ← LTXFiles (st_client st) srcLevel seekTXID false wrapping "source ltx files after";
             open_sources c st srcLevel (itr_items itr) 0 0 []) with
      | Err e => (st, Err e)
      | Panic m => (st, Panic m)
      | Ok (minTXID, maxTXID, rdrs) =>
          if (length rdrs =? 0)%nat then (st, Err ErrNoCompaction) else
          let pr := Pipe.reader (compact_pipe c rdrs) in
          let '(cl, written) := WriteLTXFile (st_client st) dstLevel minTXID maxTXID pr in
          let st := set_client st cl in
          match written with
          | Err e => (st, Err (EWrap "write ltx file" e))
          | Panic m => (st, Panic m)
          | Ok info =>
              let st := if CacheSetter c then set_cache st (<[dstLevel := info]> (st_cache st)) else st in
              let st := if VerifyCompaction c then
                          match VerifyLevelConsistency (st_client st) dstLevel with
                          | Ok () => st
                          | _ => mkState (st_client st) (st_cache st) (st_local st) (st_verifyErrors st + 1)
                          end
                        else st in
              (st, Ok info)
          end
      end
  end.

(** The loop over [LocalFileDeleter]; its errors are only logged. *)
Fixpoint delete_local (deleter : L -> Z -> TXID -> TXID -> L * option error) (l : L) (level : Z)
    (deleted : list FileInfo) : L :=
  match deleted with
  | [] => l
  | info :: deleted => delete_local deleter (fst (deleter l level (MinTXID info) (MaxTXID info))) level deleted
  end.

(** The tail the retention policies share: remote deletion, then local files. *)
Definition delete_files (c : Compactor) (st : state) (level : Z) (text : string) (deleted : list FileInfo)
    : state * result () :=
  let '(cl, err) := if negb (RetentionEnabled c) then (st_client st, None)
                    else DeleteLTXFiles (st_client st) deleted in
  match err with
  | Some e => (set_client st cl, Err (EWrap text e))
  | None =>
      let l := match LocalFileDeleter c with
               | Some deleter => delete_local deleter (st_local st) level deleted
               | None => st_local st
               end in
      (mkState cl (st_cache st) l (st_verifyErrors st), Ok ())
  end.

Definition EnforceSnapshotRetention (c : Compactor) (st : state) (now : time) (retention : duration)
    : state * result TXID :=
  let timestamp := now - retention in
  match LTXFiles (st_client st) SnapshotLevel 0 false with
  | Err e => (st, Err (EWrap "fetch ltx files" e))
  | Panic m => (st, Panic m)
  | Ok itr =>
      let '(deleted, lastInfo, minSnapshotTXID) := snapshot_loop timestamp 0 (itr_items itr) [] None 0 in
      let deleted := (drop_newest deleted lastInfo).*2 in
      let '(st, r) := delete_files c st SnapshotLevel "remove ltx files" deleted in
      (st, _ ← r; Ok minSnapshotTXID)
  end.

Definition EnforceRetentionByTXID (c : Compactor) (st : state) (level : Z) (txID : TXID)
    : state * result () :=
  match LTXFiles (st_client st) level 0 false with
  | Err e => (st, Err (EWrap "fetch ltx files" e))
  | Panic m => (st, Panic m)
  | Ok itr =>
      let '(deleted, lastInfo) := retention_loop txID 0 (itr_items itr) [] None in
      delete_files c st level "remove ltx files" (drop_newest deleted lastInfo).*2
  end.

Definition EnforceL0Retention (c : Compactor) (st : state) (now : time) (retention : duration)
    : state * result () :=
  if retention <=? 0 then (st, Ok ()) else
  match LTXFiles (st_client st) 1 0 false with
  | Err e => (st, Err (EWrap "fetch l1 files" e))
  | Panic m => (st, Panic m)
  | Ok itr =>
      let maxL1TXID := max_txid (itr_items itr) 0 in
      match itr_Close itr with
      | Some e => (st, Err (EWrap "close l1 iterator" e))
      | None =>
          if maxL1TXID =? 0 then (st, Ok ()) else
          let threshold := now - retention in
          match LTXFiles (st_client st) 0 0 false with
          | Err e => (st, Err (EWrap "fetch l0 files" e))
          | Panic m => (st, Panic m)
          | Ok itr =>
              let '(deleted, lastInfo, processedAll) := l0_loop threshold maxL1TXID 0 (itr_items itr) [] None in
              let deleted := if processedAll then drop_newest deleted lastInfo else deleted in
              if (length deleted =? 0)%nat then (st, Ok ())
              else delete_files c st 0 "remove expired l0 files" deleted.*2
          end
      end
  end.
End Compactor.

(** ** The retention loops *)

(** The items of a listing with their positions. *)
Definition indexed (i : nat) (items : list FileInfo) : list item_ptr := zip (seq i (length items)) items.

Lemma indexed_cons i f items : indexed i (f :: items) = (i, f) :: indexed (S i) items.
Proof. done. Qed.

Lemma indexed_snoc i items f : indexed i (items ++ [f]) = indexed i items ++ [((i + length items)%nat, f)].
Proof.
  revert i. induction items as [|g items IH]; intros i; simpl; [by rewrite Nat.add_0_r|].
  rewrite !indexed_cons, IH. simpl. by rewrite Nat.add_succ_r.
Qed.

Lemma indexed_snd i items : (indexed i items).*2 = items.
Proof. revert i. induction items as [|g items IH]; intros i; [done|]. rewrite indexed_cons, fmap_cons. simpl. by rewrite IH. Qed.

Lemma indexed_bound i items p : In p (indexed i items) -> (i <= p.1 < i + length items)%nat.
Proof.
  revert i. induction items as [|g items IH]; intros i; [done|].
  rewrite indexed_cons. intros [<-|Hp]; simpl; [lia|]. apply IH in Hp. simpl in *. lia.
Qed.

Lemma filter_snd (P : FileInfo -> bool) i items :
  (filter (fun p : item_ptr => P p.2) (indexed i items)).*2 = filter P items.
Proof.
  revert i. induction items as [|g items IH]; intros i; [done|].
  rewrite indexed_cons, !filter_cons_bool. cbn [snd]. destruct (P g); [|by apply IH].
  rewrite fmap_cons. by rewrite IH.
Qed.

Lemma retention_loop_spec txID i items deleted lastInfo :
  retention_loop txID i items deleted lastInfo =
  (deleted ++ filter (fun p : item_ptr => MaxTXID p.2 <? txID) (indexed i items),
   match last (indexed i items) with Some p => Some p | None => lastInfo end).
Proof.
  revert i deleted lastInfo. induction items as [|f items IH]; intros i deleted lastInfo; simpl.
  { by rewrite app_nil_r. }
  rewrite indexed_cons, filter_cons_bool, last_cons. cbn [snd]. destruct (MaxTXID f <? txID).
  - rewrite IH, <- app_assoc. f_equal. by destruct (last _).
  - rewrite IH. f_equal. by destruct (last _).
Qed.

(** The minimum the snapshot loop tracks. *)
Fixpoint min_kept (timestamp : time) (items : list FileInfo) (m : TXID) : TXID :=
  match items with
  | [] => m
  | info :: items =>
      min_kept timestamp items
        (if time_Before (CreatedAt info) timestamp then m
         else if (m =? 0) || (MaxTXID info <? m) then MaxTXID info else m)
  end.

Lemma snapshot_loop_spec timestamp i items deleted lastInfo m :
  snapshot_loop timestamp i items deleted lastInfo m =
  (deleted ++ filter (fun p : item_ptr => time_Before (CreatedAt p.2) timestamp) (indexed i items),
   match last (indexed i items) with Some p => Some p | None => lastInfo end,
   min_kept timestamp items m).
Proof.
  revert i deleted lastInfo m. induction items as [|f items IH]; intros i deleted lastInfo m; simpl.
  { by rewrite app_nil_r. }
  rewrite indexed_cons, filter_cons_bool, last_cons. cbn [snd].
  destruct (time_Before (CreatedAt f) timestamp); rewrite IH, <- ?app_assoc; repeat f_equal; by destruct (last _).
Qed.

(** The tests of [EnforceL0Retention] on one file. *)
Definition l0_recent (threshold : time) (f : FileInfo) : bool :=
  time_After (if time_IsZero (CreatedAt f) then threshold else CreatedAt f) threshold.

(** The files before the first recent one. *)
Fixpoint l0_aged (threshold : time) (items : list FileInfo) : list FileInfo :=
  match items with
  | [] => []
  | f :: items => if l0_recent threshold f then [] else f :: l0_aged threshold items
  end.

Lemma l0_loop_spec threshold m i items deleted lastInfo d l p :
  l0_loop threshold m i items deleted lastInfo = (d, l, p) ->
  d = deleted ++ filter (fun q : item_ptr => MaxTXID q.2 <=? m) (indexed i (l0_aged threshold items)) /\
  (p = true -> l0_aged threshold items = items /\
     l = match last (indexed i items) with Some q => Some q | None => lastInfo end) /\
  (p = false -> l0_aged threshold items <> items).
Proof.
  revert i deleted lastInfo. induction items as [|f items IH]; intros i deleted lastInfo; simpl.
  { intros [= <- <- <-]. by rewrite app_nil_r. }
  unfold l0_recent. destruct (time_After _ threshold) eqn:HA.
  { intros [= <- <- <-]. by rewrite app_nil_r. }
  rewrite !indexed_cons, filter_cons_bool, last_cons. cbn [snd].
  destruct (MaxTXID f <=? m); intros (-> & Ht & Hf)%IH; (split; [by rewrite <- ?app_assoc|]).
  all: split; [intros Hp; destruct (Ht Hp) as [-> ->]; split; [done|by destruct (last _)]
              |intros Hp [= Heq]; by apply (Hf Hp)].
Qed.

(** The newest file of a listing is never among the deleted ones. *)
Lemma drop_newest_spec (P : FileInfo -> bool) items :
  (drop_newest (filter (fun p : item_ptr => P p.2) (indexed 0 items)) (last (indexed 0 items))).*2 =
  filter P (removelast items).
Proof.
  destruct items as [|x items] using rev_ind; [done|]. clear IHitems.
  rewrite indexed_snoc, last_snoc, removelast_last. simpl.
  rewrite filter_app, <- (filter_snd P 0 items), (filter_cons_bool (fun p : item_ptr => P p.2)). cbn [snd].
  set (l := filter _ (indexed 0 items)). unfold drop_newest. rewrite filter_nil.
  destruct (P x).
  - rewrite last_snoc, Nat.eqb_refl, length_app. simpl.
    rewrite Nat.add_sub. by rewrite take_app_length.
  - rewrite app_nil_r. destruct (last l) as [[j g]|] eqn:Hl; [|done].
    assert (In (j, g) (indexed 0 items)) as Hb.
    { apply last_Some in Hl as [l' Hl]. assert (In (j, g) l) as Hin by (rewrite Hl; apply in_or_app; right; by left).
      by apply In_filter_bool in Hin as [_ ?]. }
    apply indexed_bound in Hb. simpl in Hb. destruct (Nat.eqb_spec j (length items)); [lia|done].
Qed.

(** The smallest retained snapshot, or zero when none is. *)
Lemma min_kept_spec timestamp items m :
  (forall f, In f items -> 0 < MaxTXID f) -> 0 <= m ->
  let r := min_kept timestamp items m in
  (r = 0 -> m = 0 /\ forall f, In f items -> time_Before (CreatedAt f) timestamp = true) /\
  (r <> 0 -> r = m \/ exists f, In f items /\ time_Before (CreatedAt f) timestamp = false /\ MaxTXID f = r) /\
  (m <> 0 -> r <= m) /\ 0 <= r /\
  (forall f, In f items -> time_Before (CreatedAt f) timestamp = false -> r <= MaxTXID f).
Proof.
  revert m. induction items as [|g items IH]; intros m Hpos Hm; cbn [min_kept].
  { split_and!; [done|by left|lia|lia|done]. }
  assert (0 < MaxTXID g) as Hg by (apply Hpos; by left).
  set (m' := if time_Before (CreatedAt g) timestamp then m else _).
  assert (0 <= m' /\ (m' = m \/ m' = MaxTXID g /\ time_Before (CreatedAt g) timestamp = false) /\
          (m <> 0 -> m' <= m) /\ (m' = 0 -> m = 0 /\ time_Before (CreatedAt g) timestamp = true) /\
          (time_Before (CreatedAt g) timestamp = false -> m' <> 0 /\ m' <= MaxTXID g)) as (H0 & H1 & H2 & H3 & H4).
  { subst m'. destruct (time_Before (CreatedAt g) timestamp); [split_and!; auto; lia|].
    destruct (Z.eqb_spec m 0); simpl; [split_and!; auto; lia|].
    destruct (Z.ltb_spec (MaxTXID g) m); split_and!; auto; lia. }
  specialize (IH m' ltac:(intros; apply Hpos; by right) H0) as (IHa & IHb & IHc & IHd & IHe).
  set (r := min_kept timestamp items m') in *. split_and!.
  - intros Hr. destruct (IHa Hr) as [E Hall]. destruct (H3 E) as [-> Hb].
    split; [done|]. intros f [<-|Hf]; auto.
  - intros Hr. destruct (IHb Hr) as [E|(f & ? & ? & ?)].
    + rewrite E. destruct H1 as [->|[E' Hb]]; [by left|right]. exists g. split_and!; [by left|done|done].
    + right. exists f. split_and!; [by right|done|done].
  - intros Hm0. destruct (decide (m' = 0)) as [E|E]; [destruct (H3 E); lia|].
    specialize (IHc E). specialize (H2 Hm0). lia.
  - done.
  - intros f [<-|Hf] Hb; [|by apply IHe]. destruct (H4 Hb) as [E Hle]. specialize (IHc E). lia.
Qed.

Lemma max_info_spec items info :
  MaxTXID info <= MaxTXID (max_info items info) /\
  (forall f, In f items -> MaxTXID f <= MaxTXID (max_info items info)) /\
  (max_info items info = info \/ In (max_info items info) items).
Proof.
  revert info. induction items as [|g items IH]; intros info; cbn [max_info].
  { split_and!; [lia|by intros ? []|by left]. }
  destruct (IH (if MaxTXID info <? MaxTXID g then g else info)) as (H1 & H2 & H3).
  destruct (Z.ltb_spec (MaxTXID info) (MaxTXID g)).
  - split_and!; [lia| |].
    + intros f [<-|Hf]; auto.
    + right. destruct H3 as [->|]; [by left|by right].
  - split_and!; [lia| |].
    + intros f [<-|Hf]; [lia|auto].
    + destruct H3 as [->|]; [by left|right; by right].
Qed.

Lemma max_txid_spec items m :
  m <= max_txid items m /\ (forall f, In f items -> MaxTXID f <= max_txid items m) /\
  (max_txid items m = m \/ exists f, In f items /\ MaxTXID f = max_txid items m).
Proof.
  revert m. induction items as [|g items IH]; intros m; cbn [max_txid].
  { split_and!; [lia|by intros ? []|by left]. }
  destruct (IH (if m <? MaxTXID g then MaxTXID g else m)) as (H1 & H2 & H3).
  destruct (Z.ltb_spec m (MaxTXID g)).
  - split_and!; [lia|intros f [<-|Hf]; auto|right].
    destruct H3 as [E|(f & ? & E)]; [exists g|exists f]; split; auto; [by left|by right].
  - split_and!; [lia|intros f [<-|Hf]; [lia|auto]|].
    destruct H3 as [E|(f & ? & E)]; [by left|right; exists f; split; [by right|done]].
Qed.

(** The files of a sorted list below a bound are its first ones. *)
Lemma sorted_filter_take m (l : list FileInfo) :
  StronglySorted (fun a b => MaxTXID a <= MaxTXID b) l ->
  exists k, (k <= length l)%nat /\ filter (fun f => MaxTXID f <=? m) l = take k l.
Proof.
  induction 1 as [|f l Hs (k & Hk & IH) HF]; [by exists 0%nat|].
  rewrite (filter_cons_bool (fun f => MaxTXID f <=? m)). destruct (Z.leb_spec (MaxTXID f) m).
  - exists (S k). simpl. split; [lia|]. by rewrite IH.
  - exists 0%nat. simpl. split; [lia|]. rewrite Forall_forall in HF.
    destruct (filter _ l) as [|g l'] eqn:E; [done|].
    assert (In g (filter (fun f => MaxTXID f <=? m) l)) as Hg by (rewrite E; by left).
    apply In_filter_bool in Hg as [? Hg]. apply list_elem_of_In, HF in Hg. lia.
Qed.

(** Deleting the first files of a level by their paths leaves the others. *)
Lemma filter_not_listed_take k (l : list FileInfo) :
  StronglySorted (fun a b => same_file a b = false) l ->
  filter (fun f => negb (listed (take k l) f)) l = drop k l.
Proof.
  intros Hd. rewrite <- (take_drop k l) in Hd.
  transitivity (filter (fun f => negb (listed (take k l) f)) (take k l ++ drop k l)); [by rewrite take_drop|].
  rewrite filter_app. set (a := take k l) in *. set (b := drop k l) in *.
  assert (forall x, In x a -> listed a x = true) as Ha by apply listed_In.
  assert (forall x, In x b -> listed a x = false) as Hb.
  { intros x Hx. apply not_true_iff_false. intros (g & Hg & E)%existsb_exists.
    assert (same_file g x = false) as HF
      by (apply (StronglySorted_app_1_elem_of _ _ _ _ _ Hd); by apply list_elem_of_In).
    rewrite same_file_sym in HF. congruence. }
  assert (forall m : list FileInfo, (forall x, In x m -> listed a x = true) ->
            filter (fun f => negb (listed a f)) m = []) as Hnil.
  { induction m as [|x m IH]; [done|]. intros Hm. rewrite filter_cons_bool, Hm by (by left). simpl.
    apply IH. intros; apply Hm; by right. }
  rewrite (Hnil a Ha). simpl. apply filter_all_true. intros x Hx. by rewrite Hb.
Qed.

Lemma sorted_filter_suffix m (l pre : list FileInfo) x rest :
  l = pre ++ x :: rest -> StronglySorted (fun a b => MaxTXID a <= MaxTXID b) l ->
  StronglySorted (fun a b => same_file a b = false) l ->
  exists k, filter (fun f => negb (listed (filter (fun f => MaxTXID f <=? m) pre) f)) l = drop k l.
Proof.
  intros -> Hs Hd. destruct (sorted_filter_take m pre) as (k & Hk & ->).
  { by apply StronglySorted_app_1_l in Hs. }
  exists k. rewrite <- (filter_not_listed_take k (pre ++ x :: rest)) by done.
  by rewrite take_app_le by lia.
Qed.

(** ** Retention over a lawful client *)
Section Retention.
Context {C : Type} `{RC : ReplicaClientLaws C} {L identity recipient : Type}.
Abbreviation compactor := (@Compactor L identity recipient).
Abbreviation cstate := (@state C L).
Implicit Types (c : compactor) (st : cstate).
Abbreviation files st level := (level_files (st_client st) false level).

(** A remote deletion removes files that were named, and nothing else. *)
Lemma delete_files_spec c st level text a st' r :
  delete_files c st level text a = (st', r) ->
  (forall um lv f, In f (level_files (st_client st) um lv) -> listed a f = false ->
     In f (level_files (st_client st') um lv)) /\
  (r = Ok () -> RetentionEnabled c = true -> forall um lv,
     level_files (st_client st') um lv =
     filter (fun f => negb (listed a f)) (level_files (st_client st) um lv)) /\
  (RetentionEnabled c = false -> st_client st' = st_client st /\ r = Ok ()).
Proof.
  unfold delete_files. destruct (RetentionEnabled c); simpl.
  - destruct (DeleteLTXFiles (st_client st) a) as [cl [e|]] eqn:HD; intros [= <- <-]; simpl.
    + split_and!; [|done|done]. intros um lv f Hf Hn. by eapply DeleteLTXFiles_err.
    + split_and!; [|intros _ _ um lv; by eapply DeleteLTXFiles_ok|done].
      intros um lv f Hf Hn. erewrite DeleteLTXFiles_ok by done. apply In_filter_bool. by rewrite Hn.
  - intros [= <- <-]. simpl. by split_and!.
Qed.

(** A file is not named by a deletion of earlier ones. *)
Lemma later_not_listed (P : FileInfo -> bool) items x rest :
  StronglySorted (fun a b => same_file a b = false) (items ++ x :: rest) ->
  listed (filter P items) x = false.
Proof.
  intros Hs. apply not_true_iff_false. rewrite listed_spec. intros (g & Hg & E1 & E2 & E3).
  apply In_filter_bool in Hg as [_ Hg].
  assert (same_file g x = false) as HF.
  { apply (StronglySorted_app_1_elem_of _ _ _ _ _ Hs); [by apply list_elem_of_In|set_solver]. }
  unfold same_file in HF. by rewrite E1, E2, E3, !Z.eqb_refl in HF.
Qed.

(** A proper prefix of a listing, or the empty listing. *)
Definition spares_one (pre items : list FileInfo) : Prop :=
  items = [] /\ pre = [] \/ exists x rest, items = pre ++ x :: rest.

Lemma removelast_spares items : spares_one (removelast items) items.
Proof.
  destruct items as [|x l _] using rev_ind; [by left|right].
  exists x, []. by rewrite removelast_last.
Qed.

(** The items of a listing belong to its level. *)
Lemma listing_In st level it f :
  LTXFiles (st_client st) level 0 false = Ok it -> In f (itr_items it) ->
  In f (files st level) /\ Level f = level.
Proof.
  intros HL Hf. destruct (LTXFiles_items _ _ _ _ _ HL) as [tl Htl].
  assert (In f (files st level)) as Hin.
  { eapply (In_filter_bool (fun g => 0 <=? MinTXID g)). rewrite Htl. apply in_or_app. by left. }
  split; [done|]. by eapply level_files_level.
Qed.

Lemma listing_distinct st level it :
  LTXFiles (st_client st) level 0 false = Ok it ->
  StronglySorted (fun a b => same_file a b = false) (itr_items it).
Proof.
  intros HL. destruct (LTXFiles_items _ _ _ _ _ HL) as [tl Htl].
  apply (StronglySorted_app_1_l _ _ tl). rewrite <- Htl.
  apply StronglySorted_filter_bool, level_files_distinct.
Qed.

(** The shape all retention policies share: the files named are files of a
    proper prefix of one listing that satisfy [P]. *)
Lemma retention_kept (P : FileInfo -> bool) c st level it pre text st' r :
  LTXFiles (st_client st) level 0 false = Ok it -> spares_one pre (itr_items it) ->
  delete_files c st level text (filter P pre) = (st', r) ->
  (forall um lv f, In f (level_files (st_client st) um lv) ->
     In f (level_files (st_client st') um lv) \/
     (lv = level /\ exists g, In g pre /\ P g = true /\ same_file f g = true)) /\
  (files st level <> [] -> files st' level <> []).
Proof.
  intros HL Hpre HD. destruct (delete_files_spec _ _ _ _ _ _ _ HD) as (Hkeep & _ & _).
  assert (forall g, In g pre -> Level g = level) as Hlev.
  { intros g Hg. eapply (listing_In _ _ _ _ HL).
    destruct Hpre as [[_ ->]|(x & rest & ->)]; [done|]. apply in_or_app. by left. }
  split.
  - intros um lv f Hf. destruct (listed (filter P pre) f) eqn:E; [right|left; auto].
    apply existsb_exists in E as (g & Hg & E). apply In_filter_bool in Hg as [HP Hg].
    split; [|eauto]. rewrite <- (level_files_level _ _ _ _ Hf), <- (Hlev g Hg).
    unfold same_file in E. breflect. done.
  - intros Hne. destruct Hpre as [[_ ->]|(x & rest & Hit)].
    + destruct (files st level) as [|f l] eqn:Hf; [done|].
      intros E. specialize (Hkeep false level f). rewrite Hf, E in Hkeep. apply Hkeep; [by left|done].
    + pose proof (listing_distinct _ _ _ HL) as Hd. rewrite Hit in Hd.
      destruct (listing_In _ _ _ x HL) as [Hx _]; [rewrite Hit; apply in_or_app; right; by left|].
      intros E. specialize (Hkeep false level x Hx (later_not_listed _ _ _ _ Hd)). by rewrite E in Hkeep.
Qed.

(** Retention by transaction id is safe.  Whatever its outcome, it removes
    only files of its level that end before the given transaction, and never
    empties a level; when it succeeds with retention enabled on a complete
    listing, exactly such files, all but the newest, are gone. *)
Theorem EnforceRetentionByTXID_safe c st level txID st' r :
  EnforceRetentionByTXID c st level txID = (st', r) ->
  (forall um lv f, In f (level_files (st_client st) um lv) ->
     In f (level_files (st_client st') um lv) \/ (lv = level /\ MaxTXID f < txID)) /\
  (files st level <> [] -> files st' level <> []) /\
  (r = Ok () -> RetentionEnabled c = true ->
   (forall it, LTXFiles (st_client st) level 0 false = Ok it -> itr_Err it = None) ->
   forall f, In f (removelast (files st level)) -> MaxTXID f < txID -> ~ In f (files st' level)).
Proof.
  unfold EnforceRetentionByTXID.
  destruct (LTXFiles (st_client st) level 0 false) as [it|e|m] eqn:HL.
  2,3: intros [= <- <-]; split_and!; [by left|done|done].
  rewrite retention_loop_spec. simpl.
  replace (match last (indexed 0 (itr_items it)) with Some p => Some p | None => None end)
    with (last (indexed 0 (itr_items it))) by (by destruct (last _)).
  rewrite (drop_newest_spec (fun f => MaxTXID f <? txID)). intros HD.
  destruct (retention_kept _ _ _ _ _ _ _ _ _ HL (removelast_spares _) HD) as [H1 H2]. split_and!; [|done|].
  - intros um lv f Hf. destruct (H1 um lv f Hf) as [|(-> & g & Hg & HP & E)]; [by left|right].
    split; [done|]. unfold same_file in E. breflect. lia.
  - intros -> HR Hc f Hf Hlt Hin. rewrite (LTXFiles_all _ _ _ _ HL (Hc it eq_refl)) in HD.
    destruct (delete_files_spec _ _ _ _ _ _ _ HD) as (_ & Hex & _).
    rewrite Hex in Hin by done. apply In_filter_bool in Hin as [Hn _].
    rewrite listed_In in Hn; [done|]. apply In_filter_bool. split; [lia|done].
Qed.

(** Snapshot retention is safe.  It removes only snapshots created before the
    retention period, never the newest one and nothing of any other level, and
    the transaction it reports is the smallest retained by age (zero when every
    snapshot has expired). *)
Theorem EnforceSnapshotRetention_safe c st now retention st' m :
  EnforceSnapshotRetention c st now retention = (st', Ok m) ->
  (forall it, LTXFiles (st_client st) SnapshotLevel 0 false = Ok it -> itr_Err it = None) ->
  (forall f, In f (files st SnapshotLevel) -> 0 < MaxTXID f) ->
  (forall lv, lv <> SnapshotLevel -> forall f, In f (files st lv) -> In f (files st' lv)) /\
  (forall f, In f (files st SnapshotLevel) ->
     In f (files st' SnapshotLevel) \/ CreatedAt f < now - retention) /\
  (forall f, last (files st SnapshotLevel) = Some f -> In f (files st' SnapshotLevel)) /\
  (m = 0 -> forall f, In f (files st SnapshotLevel) -> CreatedAt f < now - retention) /\
  (m <> 0 -> (exists f, In f (files st' SnapshotLevel) /\ MaxTXID f = m) /\
             forall f, In f (files st SnapshotLevel) -> MaxTXID f < m -> CreatedAt f < now - retention).
Proof.
  unfold EnforceSnapshotRetention. intros HE Hc Hpos.
  destruct (LTXFiles (st_client st) SnapshotLevel 0 false) as [it|e|p] eqn:HL; [|done..].
  rewrite snapshot_loop_spec in HE. simpl in HE.
  replace (match last (indexed 0 (itr_items it)) with Some p => Some p | None => None end)
    with (last (indexed 0 (itr_items it))) in HE by (by destruct (last _)).
  rewrite (drop_newest_spec (fun f => time_Before (CreatedAt f) (now - retention))) in HE.
  destruct (delete_files _ _ _ _ _) as [st1 r1] eqn:HD.
  destruct r1 as [[]|e|p]; simpl in HE; [|done..]. injection HE as <- <-.
  destruct (delete_files_spec _ _ _ _ _ _ _ HD) as (Hkeep & _ & _).
  pose proof (LTXFiles_all _ _ _ _ HL (Hc it eq_refl)) as Hit.
  destruct (retention_kept _ _ _ _ _ _ _ _ _ HL (removelast_spares _) HD) as [H1 H2]. rewrite Hit in *.
  set (snaps := files st SnapshotLevel) in *.
  assert (forall f, In f snaps -> time_Before (CreatedAt f) (now - retention) = false ->
            In f (files st1 SnapshotLevel)) as Hkept.
  { intros f Hf Hb. apply Hkeep; [done|]. apply not_true_iff_false. intros (g & Hg & E)%existsb_exists.
    apply In_filter_bool in Hg as [HP Hg].
    assert (f = g) as ->; [|congruence].
    eapply (same_file_In snaps); eauto; [apply level_files_distinct|].
    destruct snaps as [|x l] using rev_ind; [done|]. rewrite removelast_last in Hg. apply in_or_app. by left. }
  destruct (min_kept_spec (now - retention) snaps 0 Hpos ltac:(lia)) as (Hm0 & Hm1 & _ & _ & Hm2).
  set (m := min_kept (now - retention) snaps 0) in *. unfold time_Before in *. split_and!.
  - intros lv Hlv f Hf. by destruct (H1 false lv f Hf) as [|[-> _]].
  - intros f Hf. destruct (CreatedAt f <? now - retention) eqn:E; [right; lia|left; auto].
  - intros f Hf. apply last_Some in Hf as [l Hl].
    apply Hkeep; [fold snaps; rewrite Hl; apply in_or_app; right; by left|].
    rewrite Hl, removelast_last. apply (later_not_listed _ _ _ []). rewrite <- Hl. apply level_files_distinct.
  - intros Hm f Hf. destruct (Hm0 Hm) as [_ Hall]. specialize (Hall f Hf). lia.
  - intros Hm. split.
    + destruct (Hm1 Hm) as [?|(f & Hf & Hb & E)]; [done|]. exists f. auto.
    + intros f Hf Hlt. destruct (CreatedAt f <? now - retention) eqn:E; [lia|].
      specialize (Hm2 f Hf E). lia.
Qed.

Lemma l0_aged_prefix threshold items :
  l0_aged threshold items = items \/ exists x rest, items = l0_aged threshold items ++ x :: rest.
Proof.
  induction items as [|f items IH]; [by left|]. cbn [l0_aged]. destruct (l0_recent threshold f).
  - right. by exists f, items.
  - destruct IH as [->|(x & rest & E)]; [by left|right]. exists x, rest. simpl. by rewrite <- E.
Qed.

Lemma l0_aged_old threshold items f :
  In f (l0_aged threshold items) -> CreatedAt f = 0 \/ CreatedAt f <= threshold.
Proof.
  induction items as [|g items IH]; [done|]. cbn [l0_aged]. destruct (l0_recent threshold g) eqn:E; [done|].
  intros [<-|Hf]; [|auto]. unfold l0_recent, time_After, time_IsZero in E.
  destruct (Z.eqb_spec (CreatedAt g) 0); [by left|right]. breflect. done.
Qed.

(** The deletions of the level-0 policy: old files of a proper prefix of the
    listing that level 1 covers. *)
Lemma EnforceL0Retention_inv c st now retention st' r :
  EnforceL0Retention c st now retention = (st', r) ->
  st' = st \/
  exists it1 it0 pre maxL1,
    LTXFiles (st_client st) 1 0 false = Ok it1 /\ itr_Err it1 = None /\
    maxL1 = max_txid (itr_items it1) 0 /\ maxL1 <> 0 /\
    LTXFiles (st_client st) 0 0 false = Ok it0 /\ spares_one pre (itr_items it0) /\
    (forall f, In f pre -> CreatedAt f = 0 \/ CreatedAt f <= now - retention) /\
    delete_files c st 0 "remove expired l0 files" (filter (fun f => MaxTXID f <=? maxL1) pre) = (st', r).
Proof.
  unfold EnforceL0Retention. case_if; [intros [= <- _]; by left|].
  destruct (LTXFiles (st_client st) 1 0 false) as [it1|e|m] eqn:HL1; [|intros [= <- _]; by left..].
  destruct (itr_Close it1) eqn:HC; [intros [= <- _]; by left|].
  destruct (Z.eqb_spec (max_txid (itr_items it1) 0) 0) as [|Hm]; [intros [= <- _]; by left|].
  destruct (LTXFiles (st_client st) 0 0 false) as [it0|e|m] eqn:HL0; [|intros [= <- _]; by left..].
  destruct (l0_loop _ _ _ _ _ _) as [[d l] p] eqn:HLoop.
  apply l0_loop_spec in HLoop as (-> & Ht & Hf). simpl. case_if; [intros [= <- _]; by left|]. clear E0.
  intros HD. right. rewrite (LTXFiles_close _ _ _ _ _ HL1) in HC.
  set (P := fun f => MaxTXID f <=? max_txid (itr_items it1) 0) in *.
  destruct p.
  - destruct (Ht eq_refl) as [Hall ->]. rewrite Hall in HD.
    replace (match last (indexed 0 (itr_items it0)) with Some q => Some q | None => None end)
      with (last (indexed 0 (itr_items it0))) in HD by (by destruct (last _)).
    rewrite (drop_newest_spec P) in HD. exists it1, it0, (removelast (itr_items it0)), (max_txid (itr_items it1) 0).
    split_and!; try done; [apply removelast_spares|]. intros f Hfi. eapply (l0_aged_old _ (itr_items it0)).
    rewrite Hall. destruct (itr_items it0) as [|x l' _] using rev_ind; [done|].
    rewrite removelast_last in Hfi. apply in_or_app. by left.
  - rewrite (filter_snd P) in HD. exists it1, it0, (l0_aged (now - retention) (itr_items it0)), (max_txid (itr_items it1) 0).
    split_and!; try done; [|intros f; apply l0_aged_old].
    destruct (l0_aged_prefix (now - retention) (itr_items it0)) as [E'|?]; [by specialize (Hf eq_refl)|by right].
Qed.

(** Level-0 retention is safe.  It removes only level-0 files that a level-1
    file covers and that are older than the retention period, never all of
    level 0 and nothing of any other level; and what it leaves of a level 0
    whose files are in transaction order is a suffix of it, without gaps. *)
Theorem EnforceL0Retention_safe c st now retention st' r :
  EnforceL0Retention c st now retention = (st', r) ->
  (forall um lv f, In f (level_files (st_client st) um lv) ->
     In f (level_files (st_client st') um lv) \/
     (lv = 0 /\ (exists g, In g (files st 1) /\ MaxTXID f <= MaxTXID g) /\
      exists g, In g (files st 0) /\ same_file f g = true /\
                (CreatedAt g = 0 \/ CreatedAt g <= now - retention))) /\
  (files st 0 <> [] -> files st' 0 <> []) /\
  (r = Ok () -> (forall it, LTXFiles (st_client st) 0 0 false = Ok it -> itr_Err it = None) ->
   StronglySorted (fun a b => MaxTXID a <= MaxTXID b) (files st 0) ->
   exists k, files st' 0 = drop k (files st 0)).
Proof.
  intros [->|(it1 & it0 & pre & maxL1 & HL1 & HE1 & Hmax & Hnz & HL0 & Hpre & Hold & HD)]%EnforceL0Retention_inv.
  { split_and!; [by left|done|]. intros. by exists 0%nat. }
  destruct (retention_kept _ _ _ _ _ _ _ _ _ HL0 Hpre HD) as [H1 H2]. split_and!; [|done|].
  - intros um lv f Hf. destruct (H1 um lv f Hf) as [|(-> & g & Hg & HP & E)]; [by left|right].
    split; [done|]. assert (MaxTXID f = MaxTXID g) as Hfg by (unfold same_file in E; by breflect).
    split.
    + destruct (max_txid_spec (itr_items it1) 0) as (_ & _ & [?|(h & Hh & Eh)]); [congruence|].
      exists h. split; [by eapply (listing_In _ _ _ _ HL1)|]. lia.
    + exists g. split_and!; [|done|by apply Hold].
      eapply (listing_In _ _ _ _ HL0). destruct Hpre as [[_ ->]|(x & rest & ->)]; [done|].
      apply in_or_app. by left.
  - intros -> Hc Hs. destruct (RetentionEnabled c) eqn:HR.
    2: { destruct (delete_files_spec _ _ _ _ _ _ _ HD) as (_ & _ & Hd). destruct (Hd HR) as [-> _]. by exists 0%nat. }
    destruct (delete_files_spec _ _ _ _ _ _ _ HD) as (_ & Hex & _). rewrite Hex by done.
    pose proof (LTXFiles_all _ _ _ _ HL0 (Hc it0 HL0)) as Hit. rewrite Hit in Hpre.
    destruct Hpre as [[-> ->]|(x & rest & Heq)]; [by exists 0%nat|].
    eapply sorted_filter_suffix; eauto. apply level_files_distinct.
Qed.
End Retention.

(** ** Level consistency and compaction *)

(** Consecutive files of a level leave no gap and do not overlap. *)
Fixpoint contiguous (l : list FileInfo) : Prop :=
  match l with
  | a :: ((b :: _) as l') => MinTXID b = txid_succ (MaxTXID a) /\ contiguous l'
  | _ => True
  end.

Lemma verify_loop_spec prev items :
  verify_loop prev items = Ok () <-> contiguous (option_list prev ++ items).
Proof.
  revert prev. induction items as [|f items IH]; intros prev; cbn [verify_loop].
  { rewrite app_nil_r. by destruct prev. }
  destruct prev as [p|]; cbn [option_list app].
  - change (contiguous (p :: f :: items)) with (MinTXID f = txid_succ (MaxTXID p) /\ contiguous (f :: items)).
    destruct (Z.eqb_spec (MinTXID f) (txid_succ (MaxTXID p))); simpl.
    + rewrite (IH (Some f)). cbn [option_list app]. tauto.
    + split; [by case_if|]. by intros [? _].
  - by rewrite (IH (Some f)).
Qed.

(** [VerifyLevelConsistency] of a readable level succeeds exactly when the
    files of the level are contiguous. *)
Theorem VerifyLevelConsistency_correct {C} `{ReplicaClientLaws C} (cl : C) level it :
  LTXFiles cl level 0 false = Ok it -> itr_Err it = None ->
  VerifyLevelConsistency cl level = Ok () <-> contiguous (level_files cl false level).
Proof.
  intros HL HE. unfold VerifyLevelConsistency. rewrite HL. simpl.
  rewrite (LTXFiles_close _ _ _ _ _ HL), HE, (LTXFiles_all _ _ _ _ HL HE).
  change (contiguous ?l) with (contiguous (option_list None ++ l)). rewrite <- verify_loop_spec.
  by destruct (verify_loop None _) as [[]| |].
Qed.

Section Compaction.
Context {C : Type} `{ReplicaClient C} {L identity recipient : Type}.
Variable age_Decrypt : list identity -> Reader -> result Reader.
Variable age_Encrypt : list recipient -> result (list byte -> list byte * option error).
Variable ltx_NewCompactor : list Reader -> option error.
Variable ltx_Compact : list Reader -> list byte * option error.
Abbreviation compactor := (@Compactor L identity recipient).
Abbreviation cstate := (@state C L).
Implicit Types (c : compactor) (st : cstate).

(** What a source file is read from: the local file when there is one, else the remote object, decrypted when there are
    identities. *)
Definition source_reader c st src (f : FileInfo) (rd : Reader) : Prop :=
  (exists opener, LocalFileOpener c = Some opener /\ opener (st_local st) src (MinTXID f) (MaxTXID f) = Ok rd) \/
  ((forall opener, LocalFileOpener c = Some opener -> exists e, opener (st_local st) src (MinTXID f) (MaxTXID f) = Err e /\ os_IsNotExist e = true) /\
   exists r, OpenLTXFile (st_client st) (Level f) (MinTXID f) (MaxTXID f) 0 0 = Ok r /\
     (if (0 <? length (AgeIdentities c))%nat then DecryptIfSealed r (age_Decrypt (AgeIdentities c)) = Ok rd else rd = r)).

(** One source file of a compaction that goes on adds its reader. *)
Lemma open_sources_cons c st src f items lo hi rdrs res :
  open_sources age_Decrypt c st src (f :: items) lo hi rdrs = Ok res ->
  exists rd, source_reader c st src f rd /\ open_sources age_Decrypt c st src items
    (if (lo =? 0) || (MinTXID f <? lo) then MinTXID f else lo)
    (if (hi =? 0) || (hi <? MaxTXID f) then MaxTXID f else hi) (rdrs ++ [rd]) = Ok res.
Proof.
  cbn [open_sources]. unfold source_reader. intros HO.
  destruct (LocalFileOpener c) as [op|];
    [destruct (op _ _ _ _) as [r|e|m] eqn:Eop; [by eauto 10|destruct (negb (os_IsNotExist e)) eqn:Ene; [done|]|done]|].
  all: destruct (OpenLTXFile _ _ _ _ _ _) as [r|e'|m] eqn:EO; cbn [wrap_err mbind result_bind] in HO; [|done..].
  all: destruct (if (0 <? length (AgeIdentities c))%nat then _ else _) as [rd|e'|m] eqn:ED;
         cbn [wrap_err mbind result_bind] in HO; [|done..]; exists rd; (split; [|done]); right.
  all: split; [|exists r; split; [done|]; destruct (0 <? length (AgeIdentities c))%nat;
         [destruct (DecryptIfSealed _ _); by simplify_eq/=|by simplify_eq]].
  - intros opener [= <-]. exists e. split; [done|]. by apply negb_false_iff.
  - done.
Qed.

(** The readers of a compaction are those of its source files, in order. *)
Lemma open_sources_readers c st src items lo hi rdrs lo' hi' rdrs' :
  open_sources age_Decrypt c st src items lo hi rdrs = Ok (lo', hi', rdrs') ->
  exists new, rdrs' = rdrs ++ new /\ Forall2 (source_reader c st src) items new.
Proof.
  revert lo hi rdrs. induction items as [|f items IH]; intros lo hi rdrs.
  { intros [= <- <- <-]. exists []. by rewrite app_nil_r. }
  intros (rd & Hrd & HO)%open_sources_cons. apply IH in HO as (new & -> & Hnew). exists (rd :: new).
  rewrite <- (assoc_L (++)). split; [done|by constructor].
Qed.

(** The range of a compaction, from the values found so far. *)
Fixpoint source_range (items : list FileInfo) (lo hi : TXID) : TXID * TXID :=
  match items with
  | [] => (lo, hi)
  | f :: items =>
      source_range items
        (if (lo =? 0) || (MinTXID f <? lo) then MinTXID f else lo)
        (if (hi =? 0) || (hi <? MaxTXID f) then MaxTXID f else hi)
  end.

Lemma open_sources_range c st src items lo hi rdrs lo' hi' rdrs' :
  open_sources age_Decrypt c st src items lo hi rdrs = Ok (lo', hi', rdrs') ->
  source_range items lo hi = (lo', hi').
Proof.
  revert lo hi rdrs. induction items as [|f items IH]; intros lo hi rdrs.
  { by intros [= <- <- <-]. }
  intros (rd & _ & HO)%open_sources_cons. by apply IH in HO.
Qed.

(** Files that continue a level from transaction [m] without a gap. *)
Fixpoint continues (m : TXID) (l : list FileInfo) : Prop :=
  match l with
  | [] => True
  | f :: l => MinTXID f = m + 1 /\ MinTXID f <= MaxTXID f /\ continues (MaxTXID f) l
  end.

Lemma source_range_continues m items lo hi :
  continues m items -> 0 < lo <= m -> hi = m ->
  source_range items lo hi = (lo, match last items with Some f => MaxTXID f | None => hi end).
Proof.
  revert m hi. induction items as [|f items IH]; intros m hi; simpl; [done|].
  intros (H1 & H2 & H3) Hlo ->. destruct (Z.eqb_spec lo 0); [lia|]. destruct (Z.ltb_spec (MinTXID f) lo); [lia|].
  destruct (Z.eqb_spec m 0); [lia|]. destruct (Z.ltb_spec m (MaxTXID f)); [|lia]. simpl.
  rewrite (IH (MaxTXID f)); [|done|lia|done]. f_equal. rewrite last_cons. by destruct (last items).
Qed.

(** The ways [Compact] changes the replica: it does not, or it writes the
    compacted stream of the source files. *)
Lemma Compact_inv c st dst st' r :
  Compact age_Decrypt age_Encrypt ltx_NewCompactor ltx_Compact c st dst = (st', r) ->
  (st_client st' = st_client st /\ is_ok r = false) \/
  exists st1 prev it lo hi rdrs w,
    (RequireEncryption c && (length (AgeRecipients c) =? 0)%nat) = false /\
    MaxLTXFileInfo c st dst = (st1, Ok prev) /\
    LTXFiles (st_client st) (dst - 1) (txid_succ (MaxTXID prev)) false = Ok it /\
    itr_items it <> [] /\ Forall2 (source_reader c st (dst - 1)) (itr_items it) rdrs /\
    source_range (itr_items it) 0 0 = (lo, hi) /\
    WriteLTXFile (st_client st) dst lo hi (Pipe.reader (compact_pipe age_Encrypt ltx_NewCompactor ltx_Compact c rdrs)) = (st_client st', w) /\
    (forall info, r = Ok info -> w = Ok info).
Proof.
  unfold Compact. destruct (RequireEncryption c && _) eqn:HE; [intros [= <- <-]; by left|].
  destruct (MaxLTXFileInfo c st dst) as [st1 prev] eqn:HM.
  assert (st_client st1 = st_client st /\ st_local st1 = st_local st) as [Hst Hloc].
  { unfold MaxLTXFileInfo in HM. destruct (if CacheGetter c then _ else _); [by simplify_eq|].
    destruct (LTXFiles _ _ _ _); [|by simplify_eq..]. injection HM as <- _. by case_if. }
  destruct prev as [prev|e|m]; [|intros [= <- <-]; by left..]. rewrite Hst.
  destruct (LTXFiles (st_client st) (dst - 1) _ false) as [it|e|m] eqn:HL; cbn [wrap_err mbind result_bind];
    [|intros [= <- <-]; by left..].
  destruct (open_sources _ _ _ _ _ _ _ _) as [[[lo hi] rdrs]|e|m] eqn:HO; [|intros [= <- <-]; by left..].
  destruct (Nat.eqb_spec (length rdrs) 0) as [|Hne]; [intros [= <- <-]; by left|].
  destruct (WriteLTXFile _ _ _ _ _) as [cl w] eqn:HW. intros HC. right.
  destruct (open_sources_readers _ _ _ _ _ _ _ _ _ _ HO) as (new & Hnew & Hrd). cbn [app] in Hnew. subst new.
  exists st1, prev, it, lo, hi, rdrs, w. split_and!; try done.
  - intros E. rewrite E in Hrd. apply Forall2_nil_inv_l in Hrd. by subst rdrs.
  - eapply Forall2_impl; [exact Hrd|]. intros f rd. unfold source_reader. by rewrite Hst, Hloc.
  - by eapply open_sources_range.
  - rewrite HW. f_equal. destruct w; simplify_eq; try done. by repeat (case_if || case_match).
  - intros info ->. destruct w; simplify_eq; done.
Qed.

(** The stream [r] is the merge of all the readers, sealed for the recipients when there are some.  Without recipients a
    merge that fails is not told apart (see [compact_failure_stream]). *)
Definition merge_of c (rdrs : list Reader) (r : Reader) : Prop :=
  (AgeRecipients c = [] -> forall b, ltx_NewCompactor rdrs = None -> ltx_Compact rdrs = (b, None) -> r = mkReader b None) /\
  (AgeRecipients c <> [] -> rd_err r = None ->
     exists ew b, age_Encrypt (AgeRecipients c) = Ok ew /\ ltx_NewCompactor rdrs = None /\ ltx_Compact rdrs = (b, None) /\ ew b = (rd_data r, None)).

Lemma compact_pipe_merge c rdrs : merge_of c rdrs (Pipe.reader (compact_pipe age_Encrypt ltx_NewCompactor ltx_Compact c rdrs)).
Proof.
  unfold merge_of, compact_pipe. destruct (AgeRecipients c) as [|rec recs]; cbn [length Nat.ltb Nat.leb]; (split; [|try done]).
  - intros _ b -> ->. done.
  - done.
  - intros _. destruct (age_Encrypt (rec :: recs)) as [ew|e|m]; [|done..].
    destruct (ltx_NewCompactor rdrs) as [e|]; [by destruct (ew [])|]. destruct (ltx_Compact rdrs) as [b [e|]].
    { by destruct (ew b) as [x [e'|]]. }
    destruct (ew b) as [x [e|]] eqn:Ew; [done|]. intros _. exists ew, b. by rewrite Ew.
Qed.

(** C32: compaction extends a level without a gap, with all its source files.  If the source files that are listed after the
    destination's last transaction are contiguous with it, a successful
    compaction has read every one of them in order, each from the local file or from the storage and decrypted
    when there are identities, and writes one file that starts at the next transaction and ends where
    the last source file ends.  What it writes is the merge of all of them: with recipients always, sealed for them; without recipients
    when the merge reports no error. *)
Theorem Compact_contiguous c st dst st' info st1 prev it :
  Compact age_Decrypt age_Encrypt ltx_NewCompactor ltx_Compact c st dst = (st', Ok info) ->
  MaxLTXFileInfo c st dst = (st1, Ok prev) ->
  LTXFiles (st_client st) (dst - 1) (txid_succ (MaxTXID prev)) false = Ok it ->
  0 <= MaxTXID prev -> continues (MaxTXID prev) (itr_items it) ->
  exists rdrs lastf r,
    last (itr_items it) = Some lastf /\ Forall2 (source_reader c st (dst - 1)) (itr_items it) rdrs /\ merge_of c rdrs r /\
    WriteLTXFile (st_client st) dst (MaxTXID prev + 1) (MaxTXID lastf) r = (st_client st', Ok info).
Proof.
  intros HC HM HL Hpos Hcont. apply Compact_inv in HC as [[_ ?]|HC]; [done|].
  destruct HC as (st1' & prev' & it' & lo & hi & rdrs & w & _ & HM' & HL' & Hne & Hrd & HR & HW & Hw).
  rewrite HM in HM'. simplify_eq. rewrite HL in HL'. simplify_eq. rewrite (Hw info eq_refl) in HW.
  pose proof (compact_pipe_merge c rdrs) as Hmerge.
  destruct (itr_items it') as [|f items]; [done|]. destruct Hcont as (H1 & H2 & H3). cbn [source_range] in HR.
  rewrite Z.eqb_refl in HR. simpl in HR.
  rewrite (source_range_continues (MaxTXID f)) in HR; [|done|lia|done]. simplify_eq.
  rewrite H1 in HW. destruct (last items) as [g|] eqn:Hg.
  - exists rdrs, g, (Pipe.reader (compact_pipe age_Encrypt ltx_NewCompactor ltx_Compact c rdrs)). by rewrite last_cons, Hg.
  - exists rdrs, f, (Pipe.reader (compact_pipe age_Encrypt ltx_NewCompactor ltx_Compact c rdrs)). by rewrite last_cons, Hg.
Qed.

(** Compaction fails closed.  When encryption is required, whatever reaches
    the replica through a compaction was produced by the age writer for the
    configured recipients; without a recipient nothing is written at all. *)
Theorem Compact_sealed c st dst st' r :
  Compact age_Decrypt age_Encrypt ltx_NewCompactor ltx_Compact c st dst = (st', r) -> RequireEncryption c = true ->
  st_client st' = st_client st \/
  exists lo hi rd w,
    WriteLTXFile (st_client st) dst lo hi rd = (st_client st', w) /\
    AgeRecipients c <> [] /\
    (rd_data rd = [] /\ rd_err rd <> None \/
     exists ew plain, age_Encrypt (AgeRecipients c) = Ok ew /\ rd_data rd = fst (ew plain)).
Proof.
  intros HC HR. apply Compact_inv in HC as [[? _]|HC]; [by left|right].
  destruct HC as (st1 & prev & it & lo & hi & rdrs & w & HE & _ & _ & _ & _ & _ & HW & _).
  exists lo, hi, (Pipe.reader (compact_pipe age_Encrypt ltx_NewCompactor ltx_Compact c rdrs)), w. split; [done|]. rewrite HR in HE. simpl in HE.
  destruct (AgeRecipients c) as [|rec recs] eqn:HA; [done|]. split; [done|].
  unfold compact_pipe. rewrite HA. simpl.
  destruct (age_Encrypt (rec :: recs)) as [ew|e|m]; [|by left..]. right. exists ew.
  destruct (ltx_NewCompactor rdrs) as [e|].
  { exists []. split; [done|]. by destruct (ew []). }
  destruct (ltx_Compact rdrs) as [b [e|]]; exists b; (split; [done|]);
    destruct (ew b) as [sb [e'|]]; done.
Qed.

(** What the client is told when the ltx compaction fails.  With age
    recipients the stream it stores ends in an error, so the write is refused.
    Without recipients the pipe was already closed without one: the client sees
    the end of a shorter object. *)
Theorem compact_failure_stream c rdrs b e :
  ltx_NewCompactor rdrs = None -> ltx_Compact rdrs = (b, Some e) ->
  (AgeRecipients c <> [] -> rd_err (Pipe.reader (compact_pipe age_Encrypt ltx_NewCompactor ltx_Compact c rdrs)) <> None) /\
  (AgeRecipients c = [] -> Pipe.reader (compact_pipe age_Encrypt ltx_NewCompactor ltx_Compact c rdrs) = mkReader b None).
Proof.
  intros HN HC. unfold compact_pipe. rewrite HN, HC. split.
  - destruct (AgeRecipients c) as [|rec recs]; [done|]. intros _. simpl.
    destruct (age_Encrypt (rec :: recs)) as [ew|e'|m]; [|done..].
    by destruct (ew b) as [sb [e'|]].
  - intros ->. done.
Qed.
End Compaction.

(** ** A concrete compactor

    Source files of level 0 are compacted into level 1 of a memory client; the
    ltx compaction is the concatenation of its sources, or fails half way. *)
Section Demo.
Definition demo_cat (rdrs : list Reader) : list byte * option error := (concat (rd_data <$> rdrs), None).
Definition demo_cat_fails (rdrs : list Reader) : list byte * option error :=
  (match rdrs with r :: _ => rd_data r | [] => [] end, Some (EMsg "read error")).
Definition demo_age (rs : list string) : result (list byte -> list byte * option error) :=
  Ok (fun b => (ageStreamIntro_bytes ++ b, None)).
Definition demo_decrypt (_ : list string) (r : Reader) : result Reader := Ok r.

Definition demo_files : Mem.client :=
  Mem.mkClient [(mkFileInfo 1 1 2 2 10, [x01; x02]);
                (mkFileInfo 0 3 3 1 20, [x03]); (mkFileInfo 0 4 4 1 30, [x04]); (mkFileInfo 0 5 5 1 99, [x05])]
    eq_refl.

Definition demo_compactor (recipients : list string) (required : bool) : @Compactor () string string :=
  mkCompactor true true None None true true [] recipients required.
Definition demo_state : @state Mem.client () := mkState demo_files ∅ () 0.
Definition demo_compact ltxc recipients required :=
  Compact demo_decrypt demo_age (fun _ => None) ltxc (demo_compactor recipients required) demo_state 1.
End Demo.

Lemma Compact_contiguous_witness :
  exists st' info, demo_compact demo_cat [] false = (st', Ok info) /\
    exists rdrs lastf r, last [mkFileInfo 0 3 3 1 20; mkFileInfo 0 4 4 1 30; mkFileInfo 0 5 5 1 99] = Some lastf /\
      Forall2 (source_reader demo_decrypt (demo_compactor [] false) demo_state 0) [mkFileInfo 0 3 3 1 20; mkFileInfo 0 4 4 1 30; mkFileInfo 0 5 5 1 99] rdrs /\
      merge_of demo_age (fun _ => None) demo_cat (demo_compactor [] false) rdrs r /\
      WriteLTXFile demo_files 1 3 (MaxTXID lastf) r = (st_client st', Ok info).
Proof.
  destruct (demo_compact demo_cat [] false) as [st' r] eqn:E.
  assert (exists info, r = Ok info) as [info Hr]
    by (apply (f_equal snd) in E; vm_compute in E; rewrite <- E; eexists; reflexivity).
  rewrite Hr in *. exists st', info. split; [reflexivity|].
  refine (Compact_contiguous _ _ _ _ _ _ _ _ _ _ (mkFileInfo 1 1 2 2 10) _ E _ eq_refl _ _);
    [vm_compute; reflexivity|simpl; lia|vm_compute; intuition discriminate].
Defined.

Lemma Compact_sealed_witness :
  let '(st', r) := demo_compact demo_cat ["key"] true in
  st_client st' = demo_files \/
  exists lo hi rd w,
    WriteLTXFile demo_files 1 lo hi rd = (st_client st', w) /\ ["key"] <> [] /\
    (rd_data rd = [] /\ rd_err rd <> None \/
     exists ew plain, demo_age ["key"] = Ok ew /\ rd_data rd = fst (ew plain)).
Proof.
  destruct (demo_compact demo_cat ["key"] true) as [st' r] eqn:E.
  exact (Compact_sealed _ _ _ _ _ _ _ _ _ E eq_refl).
Defined.

(** The failed compaction is stored as a one-byte object, reported as success,
    and recorded as the end of level 1. *)
Lemma compact_failure_stream_witness :
  Pipe.reader (compact_pipe demo_age (fun _ => None) demo_cat_fails (demo_compactor [] false)
    [mkReader [x03] None; mkReader [x04] None]) = mkReader [x03] None /\
  (exists st' info, demo_compact demo_cat_fails [] false = (st', Ok info) /\ FSize info = 1 /\ MaxTXID info = 5).
Proof.
  split.
  - apply (compact_failure_stream demo_age (fun _ => None) demo_cat_fails (demo_compactor [] false)
             [mkReader [x03] None; mkReader [x04] None] [x03] (EMsg "read error")); reflexivity.
  - eexists _, _. split; [vm_compute; reflexivity|]. split; reflexivity.
Defined.

Lemma VerifyLevelConsistency_correct_witness :
  VerifyLevelConsistency demo_files 0 = Ok () <-> contiguous (level_files demo_files false 0).
Proof. eapply VerifyLevelConsistency_correct; reflexivity. Defined.

Section RetentionDemo.
(** Two snapshots, one expired at time 100, and level 0 beside a level-1 file. *)
Definition demo_snapshots : Mem.client :=
  Mem.mkClient [(mkFileInfo 9 1 2 2 10, []); (mkFileInfo 9 1 4 2 80, []); (mkFileInfo 1 1 4 2 60, []);
                (mkFileInfo 0 3 3 1 20, [x03]); (mkFileInfo 0 4 4 1 30, [x04]); (mkFileInfo 0 5 5 1 99, [x05])]
    eq_refl.
Definition demo_rstate : @state Mem.client () := mkState demo_snapshots ∅ () 0.
Definition demo_keeper : @Compactor () string string := mkCompactor true true None None true true [] [] false.
End RetentionDemo.

Lemma EnforceRetentionByTXID_safe_witness :
  exists st', EnforceRetentionByTXID demo_keeper demo_rstate 0 5 = (st', Ok ()) /\
    level_files (st_client st') false 0 <> [] /\
    ~ In (mkFileInfo 0 3 3 1 20) (level_files (st_client st') false 0).
Proof.
  destruct (EnforceRetentionByTXID demo_keeper demo_rstate 0 5) as [st' r] eqn:E.
  assert (r = Ok ()) as Hr by (apply (f_equal snd) in E; vm_compute in E; by rewrite <- E).
  rewrite Hr in *. exists st'. split; [reflexivity|].
  destruct (EnforceRetentionByTXID_safe _ _ _ _ _ _ E) as (_ & Hne & Hgone).
  split; [apply Hne; vm_compute; discriminate|].
  apply (Hgone eq_refl eq_refl); [by intros it [= <-]|vm_compute; tauto|reflexivity].
Defined.

Lemma EnforceSnapshotRetention_safe_witness :
  exists st', EnforceSnapshotRetention demo_keeper demo_rstate 100 50 = (st', Ok 4) /\
    (exists f, In f (level_files (st_client st') false SnapshotLevel) /\ MaxTXID f = 4).
Proof.
  destruct (EnforceSnapshotRetention demo_keeper demo_rstate 100 50) as [st' r] eqn:E.
  assert (r = Ok 4) as Hr by (apply (f_equal snd) in E; vm_compute in E; by rewrite <- E).
  rewrite Hr in *. exists st'. split; [reflexivity|].
  destruct (EnforceSnapshotRetention_safe _ _ _ _ _ _ E) as (_ & _ & _ & _ & H4).
  - by intros it [= <-].
  - vm_compute. intuition (subst; reflexivity).
  - apply H4. discriminate.
Defined.

Lemma EnforceL0Retention_safe_witness :
  exists st', EnforceL0Retention demo_keeper demo_rstate 100 50 = (st', Ok ()) /\
    (exists k, level_files (st_client st') false 0 = drop k (level_files demo_snapshots false 0)).
Proof.
  destruct (EnforceL0Retention demo_keeper demo_rstate 100 50) as [st' r] eqn:E.
  assert (r = Ok ()) as Hr by (apply (f_equal snd) in E; vm_compute in E; by rewrite <- E).
  rewrite Hr in *. exists st'. split; [reflexivity|].
  apply (EnforceL0Retention_safe _ _ _ _ _ _ E); [reflexivity|by intros it [= <-]|].
  repeat constructor; vm_compute; discriminate.
Defined.
