(* ===== verification/Replica.v ===== *)
(** * The replica

    Model of the replica of src/replica.go: its position, the synchronisation of
    level-0 files to the storage, reading and writing through age encryption, the
    retry backoff of the monitor, the time bounds and the level validation.  The
    database behind the replica is an interface ([ReplicaDB]); age is a parameter. *)

From Stdlib Require Import ZArith Lia Strings.Byte.
From stdpp Require Import base numbers list strings gmap sorting.
From S2P Require Import Prelude Ltx Streams Compactor.
Local Open Scope Z_scope.

(** [ltx.Pos]. *)
Record Pos := mkPos { TXID_ : TXID; PostApplyChecksum : Z }.

Definition zeroPos : Pos := mkPos 0 0.
Definition pos_IsZero (p : Pos) : bool := (TXID_ p =? 0) && (PostApplyChecksum p =? 0).

(** What the replica asks of its database: its position, its level-0 files on
    disk ([os.Open] of [LTXPath]) and the record of a successful sync. *)
Class ReplicaDB (D : Type) := {
  db_Pos : D -> result Pos;
  db_LTXPath : D -> Z -> TXID -> TXID -> string;
  db_OpenLTX : D -> Z -> TXID -> TXID -> result Reader;
  db_RecordSuccessfulSync : D -> time -> D
}.

(** The settings of a replica. *)
Record ReplicaConfig (identity recipient : Type) := mkConfig {
  SyncInterval : duration;
  MonitorEnabled : bool;
  AutoRecoverEnabled : bool;
  AgeIdentities : list identity;
  AgeRecipients : list recipient;
  RequireEncryption : bool
}.
Arguments mkConfig {identity recipient}.
Arguments SyncInterval {identity recipient}.
Arguments MonitorEnabled {identity recipient}.
Arguments AutoRecoverEnabled {identity recipient}.
Arguments AgeIdentities {identity recipient}.
Arguments AgeRecipients {identity recipient}.
Arguments RequireEncryption {identity recipient}.

Section Replica.
Context {C D : Type} `{ReplicaClient C} `{ReplicaDB D}.
Context {identity recipient : Type}.
Variable age_Decrypt : list identity -> Reader -> result Reader.
(** The ciphertext of a plaintext once the age writer is closed, with the error
    of its [Close], and the part it has emitted when the copy fails before. *)
Variable age_Encrypt : list recipient -> result (list byte -> list byte * option error).
Variable age_flushed : list recipient -> list byte -> list byte.

Abbreviation config := (ReplicaConfig identity recipient).

Record Replica := mkReplica { r_db : D; r_pos : Pos; r_Client : C }.

Definition SetPos (r : Replica) (pos : Pos) : Replica := mkReplica (r_db r) pos (r_Client r).

Definition EncryptionEnabled (cfg : config) : bool := (0 <? length (AgeRecipients cfg))%nat.
Definition DecryptionEnabled (cfg : config) : bool := (0 <? length (AgeIdentities cfg))%nat.

(** [Start] up to the launch of the monitor: [Ok true] means it runs. *)
Definition Start (cfg : config) : result bool :=
  if negb (MonitorEnabled cfg) then Ok false
  else if RequireEncryption cfg && negb (EncryptionEnabled cfg) then Err ErrEncryptionRequired
  else Ok true.

Definition r_OpenLTXFile (cfg : config) (cl : C) (level : Z) (minTXID maxTXID : TXID) (offset n : Z)
    : result Reader :=
  rc ← OpenLTXFile cl level minTXID maxTXID offset n;
  if negb (DecryptionEnabled cfg) then Ok rc
  else DecryptIfSealed rc (age_Decrypt (AgeIdentities cfg)) wrapping "age decrypt".

(** The goroutine of [WriteLTXFile] that encrypts into the pipe. *)
Definition encrypt_pipe (cfg : config) (rd : Reader) : Pipe.t * option error :=
  let pw := Pipe.new in
  match age_Encrypt (AgeRecipients cfg) with
  | Panic m => (Pipe.CloseWithError pw (Some (EMsg m)), None)
  | Err e => (Pipe.CloseWithError pw (Some (EWrap "age encrypt" e)), None)
  | Ok ew =>
      match rd_err rd with
      | Some e =>
          (Pipe.CloseWithError (Pipe.Write pw (age_flushed (AgeRecipients cfg) (rd_data rd))) (Some e), Some e)
      | None =>
          let '(b, cerr) := ew (rd_data rd) in
          match cerr with
          | Some e => (Pipe.CloseWithError (Pipe.Write pw b) (Some e), Some e)
          | None => (Pipe.Close (Pipe.Write pw b), None)
          end
      end
  end.

Definition r_WriteLTXFile (cfg : config) (cl : C) (level : Z) (minTXID maxTXID : TXID) (rd : Reader)
    : C * result FileInfo :=
  if negb (EncryptionEnabled cfg) then
    if RequireEncryption cfg then (cl, Err ErrEncryptionRequired)
    else WriteLTXFile cl level minTXID maxTXID rd
  else
    let '(pw, encErr) := encrypt_pipe cfg rd in
    let '(cl, info) := WriteLTXFile cl level minTXID maxTXID (Pipe.reader pw) in
    (cl, match info with
         | Err e => if bool_decide (encErr = None) then Err e else Err (EWrap "write ltx file" e)
         | r => r
         end).

Definition uploadLTXFile (cfg : config) (r : Replica) (level : Z) (minTXID maxTXID : TXID)
    : Replica * result () :=
  match db_OpenLTX (r_db r) level minTXID maxTXID with
  | Err e => (r, Err (NewLTXError "open" (db_LTXPath (r_db r) level minTXID maxTXID) level minTXID maxTXID e))
  | Panic m => (r, Panic m)
  | Ok f =>
      let '(cl, info) := r_WriteLTXFile cfg (r_Client r) level minTXID maxTXID f in
      (mkReplica (r_db r) (r_pos r) cl, _ ← info wrapping "write ltx file"; Ok ())
  end.

Definition r_MaxLTXFileInfo (cl : C) (level : Z) : result FileInfo :=
  itr ← LTXFiles cl level 0 false;
  match itr_Close itr with
  | Some e => Err e
  | None => Ok (max_info (itr_items itr) zeroFileInfo)
  end.

Definition calcPos (cl : C) : result Pos :=
  info ← r_MaxLTXFileInfo cl 0 wrapping "max ltx file";
  Ok (mkPos (MaxTXID info) 0).

(** The upload loop of [Sync]. *)
Fixpoint Sync_loop (fuel : nat) (cfg : config) (r : Replica) (dTXID : TXID) : Replica * result () :=
  let txID := txid_succ (TXID_ (r_pos r)) in
  if txID <=? dTXID then
    match fuel with
    | O => (r, Panic "out of fuel")
    | S fuel =>
        let '(r, res) := uploadLTXFile cfg r 0 txID txID in
        match res with
        | Ok () => Sync_loop fuel cfg (SetPos r (mkPos txID 0)) dTXID
        | Err e => (r, Err e)
        | Panic m => (r, Panic m)
        end
    end
  else (r, Ok ()).

Definition Sync_body (cfg : config) (r : Replica) (now : time) : Replica * result () :=
  match (if pos_IsZero (r_pos r) then calcPos (r_Client r) wrapping "calc pos" else Ok (r_pos r)) with
  | Err e => (r, Err e)
  | Panic m => (r, Panic m)
  | Ok pos =>
      let r := SetPos r pos in
      match db_Pos (r_db r) wrapping "cannot determine current position" with
      | Err e => (r, Err e)
      | Panic m => (r, Panic m)
      | Ok dpos =>
          if pos_IsZero dpos then (r, Err (EMsg "no position, waiting for data")) else
          let '(r, res) := Sync_loop (Z.to_nat (TXID_ dpos - TXID_ pos)) cfg r (TXID_ dpos) in
          match res with
          | Ok () => (mkReplica (db_RecordSuccessfulSync (r_db r) now) (r_pos r) (r_Client r), Ok ())
          | Err e => (r, Err e)
          | Panic m => (r, Panic m)
          end
      end
  end.

(** [Sync] clears the position when it fails. *)
Definition Sync (cfg : config) (r : Replica) (now : time) : Replica * result () :=
  let '(r, res) := Sync_body cfg r now in
  match res with
  | Err e => (SetPos r zeroPos, Err e)
  | res => (r, res)
  end.

(** ** Synchronisation *)

(** [n] uploads that succeed, in order, of the transactions after [lo]. *)
Fixpoint uploaded (cfg : config) (db : D) (cl : C) (lo : TXID) (n : nat) (cl' : C) : Prop :=
  match n with
  | O => cl' = cl
  | S n => exists f info cl1,
      db_OpenLTX db 0 (lo + 1) (lo + 1) = Ok f /\
      r_WriteLTXFile cfg cl 0 (lo + 1) (lo + 1) f = (cl1, Ok info) /\
      uploaded cfg db cl1 (lo + 1) n cl'
  end.

(** The client after an upload of the next transaction that did not succeed. *)
Definition upload_failed (cfg : config) (db : D) (cl : C) (lo : TXID) (cl' : C) : Prop :=
  cl' = cl /\ is_ok (db_OpenLTX db 0 (lo + 1) (lo + 1)) = false \/
  exists f res, db_OpenLTX db 0 (lo + 1) (lo + 1) = Ok f /\
    r_WriteLTXFile cfg cl 0 (lo + 1) (lo + 1) f = (cl', res) /\ is_ok res = false.

Lemma uploadLTXFile_spec cfg r t r' res :
  uploadLTXFile cfg r 0 (t + 1) (t + 1) = (r', res) ->
  r_db r' = r_db r /\ r_pos r' = r_pos r /\
  (res = Ok () -> exists f info, db_OpenLTX (r_db r) 0 (t + 1) (t + 1) = Ok f /\
     r_WriteLTXFile cfg (r_Client r) 0 (t + 1) (t + 1) f = (r_Client r', Ok info)) /\
  (is_ok res = false -> upload_failed cfg (r_db r) (r_Client r) t (r_Client r')).
Proof.
  unfold uploadLTXFile. destruct (db_OpenLTX (r_db r) 0 (t + 1) (t + 1)) as [f|e|m] eqn:HO.
  2,3: intros [= <- <-]; split_and!; [done|done|done|intros _; left; by rewrite HO].
  destruct (r_WriteLTXFile cfg (r_Client r) 0 (t + 1) (t + 1) f) as [cl info] eqn:HW.
  intros [= <- <-]. simpl. split_and!; [done|done| |].
  - destruct info as [i|e|m]; simpl; [|done..]. eauto.
  - intros Hr. right. exists f, info. by destruct info.
Qed.

Lemma Sync_loop_spec fuel cfg r dTXID r' res :
  Sync_loop fuel cfg r dTXID = (r', res) ->
  0 <= TXID_ (r_pos r) < 2 ^ 64 - 1 -> dTXID < 2 ^ 64 - 1 -> (Z.to_nat (dTXID - TXID_ (r_pos r)) <= fuel)%nat ->
  r_db r' = r_db r /\ exists n cl1,
    uploaded cfg (r_db r) (r_Client r) (TXID_ (r_pos r)) n cl1 /\
    (res = Ok () -> r_Client r' = cl1 /\ TXID_ (r_pos r') = TXID_ (r_pos r) + Z.of_nat n /\
                    TXID_ (r_pos r') = Z.max (TXID_ (r_pos r)) dTXID) /\
    (is_ok res = false -> upload_failed cfg (r_db r) cl1 (TXID_ (r_pos r) + Z.of_nat n) (r_Client r')).
Proof.
  intros HS Hp Hd Hf. revert r r' res HS Hp Hf.
  induction fuel as [|fuel IH]; intros r r' res HS Hp Hf; cbn [Sync_loop] in HS;
    rewrite txid_succ_small in HS by lia;
    (destruct (Z.leb_spec (TXID_ (r_pos r) + 1) dTXID) as [Hle|Hgt]; [try lia|]).
  1,3: injection HS as <- <-; split; [done|]; exists 0%nat, (r_Client r);
       split_and!; [done|intros _; split_and!; [done|lia|lia]|done].
  destruct (uploadLTXFile cfg r 0 _ _) as [r1 res1] eqn:HU.
  apply uploadLTXFile_spec in HU as (Hdb & Hpos & Hok & Hfail).
  destruct res1 as [[]|e|m].
  - destruct (Hok eq_refl) as (f & info & HO & HW).
    apply IH in HS as (Hdb' & n & cl1 & Hup & HOk & HErr); [|simpl; lia|simpl; lia]. simpl in *.
    rewrite Hdb in *. split; [done|]. exists (S n), cl1. split_and!.
    + exists f, info, (r_Client r1). done.
    + intros HR. destruct (HOk HR) as (? & ? & ?). split_and!; [done|lia|lia].
    + intros HR. specialize (HErr HR). by replace (TXID_ (r_pos r) + Z.of_nat (S n)) with
        (TXID_ (r_pos r) + 1 + Z.of_nat n) by lia.
  - injection HS as <- <-. split; [done|]. exists 0%nat, (r_Client r). split_and!; [done|done|].
    intros _. rewrite Z.add_0_r. by apply Hfail.
  - injection HS as <- <-. split; [done|]. exists 0%nat, (r_Client r). split_and!; [done|done|].
    intros _. rewrite Z.add_0_r. by apply Hfail.
Qed.

(** Where a sync starts: the known position, or the end of the remote level 0. *)
Definition start_pos (r : Replica) : result Pos :=
  if pos_IsZero (r_pos r) then calcPos (r_Client r) else Ok (r_pos r).

(** C18: a sync uploads in order and leaves no gap.  A sync that succeeds has
    uploaded exactly the transactions between its start (the known position, or
    the end of the remote level 0) and the database's position, one by one and in
    order, and its position is the later of the two.  A sync that fails has
    uploaded a prefix of them, and forgets its position, so that the next one
    starts from what the storage holds. *)
Theorem Sync_ordered cfg r now r' res :
  Sync cfg r now = (r', res) ->
  (forall p, start_pos r = Ok p -> 0 <= TXID_ p < 2 ^ 64 - 1) ->
  (forall p, db_Pos (r_db r) = Ok p -> TXID_ p < 2 ^ 64 - 1) ->
  (res = Ok () -> exists start dpos n,
     start_pos r = Ok start /\ db_Pos (r_db r) = Ok dpos /\
     uploaded cfg (r_db r) (r_Client r) (TXID_ start) n (r_Client r') /\
     TXID_ (r_pos r') = TXID_ start + Z.of_nat n /\
     TXID_ (r_pos r') = Z.max (TXID_ start) (TXID_ dpos)) /\
  (forall e, res = Err e -> r_pos r' = zeroPos /\
     (r_Client r' = r_Client r \/ exists start n cl1,
        start_pos r = Ok start /\ uploaded cfg (r_db r) (r_Client r) (TXID_ start) n cl1 /\
        upload_failed cfg (r_db r) cl1 (TXID_ start + Z.of_nat n) (r_Client r'))).
Proof.
  intros HS Hst Hdb. unfold Sync in HS. destruct (Sync_body cfg r now) as [r1 res1] eqn:HB.
  unfold Sync_body in HB. unfold start_pos in *.
  destruct (if pos_IsZero (r_pos r) then _ wrapping "calc pos" else _) as [pos|e|m] eqn:Hpos.
  2: { simplify_eq. split; [done|]. intros e' _. split; [done|by left]. }
  2: { by simplify_eq. }
  assert ((if pos_IsZero (r_pos r) then calcPos (r_Client r) else Ok (r_pos r)) = Ok pos) as Hpos'.
  { destruct (pos_IsZero _); [|done]. by destruct (calcPos _); simplify_eq/=. }
  rewrite Hpos' in *. specialize (Hst pos eq_refl). simpl in HB.
  destruct (db_Pos (r_db r)) as [dpos|e|m]; simpl in HB.
  2: { simplify_eq. split; [done|]. intros e' _. split; [done|by left]. }
  2: { by simplify_eq. }
  specialize (Hdb dpos eq_refl).
  destruct (pos_IsZero dpos).
  { simplify_eq. split; [done|]. intros e' _. split; [done|by left]. }
  destruct (Sync_loop _ _ _ _) as [r2 res2] eqn:HL.
  apply Sync_loop_spec in HL as (Hd & n & cl1 & Hup & HOk & HErr); [|simpl; lia|lia|simpl; lia]. simpl in *.
  destruct res2 as [[]|e|m]; simplify_eq; simpl; (split; [|try done]).
  - intros _. destruct (HOk eq_refl) as (-> & ? & ?). by exists pos, dpos, n.
  - done.
  - intros e' _. split; [done|]. right. exists pos, n, cl1. split_and!; [done|done|by apply HErr].
  - done.
Qed.

(** ** Encryption *)

(** Writes fail closed.  When encryption is required, a write through the
    replica changes the storage only with a stream the age writer produced for
    the configured recipients, and never without a recipient. *)
Theorem WriteLTXFile_sealed cfg cl level minTXID maxTXID rd cl' res :
  RequireEncryption cfg = true ->
  r_WriteLTXFile cfg cl level minTXID maxTXID rd = (cl', res) ->
  (AgeRecipients cfg = [] -> cl' = cl /\ res = Err ErrEncryptionRequired /\ (MonitorEnabled cfg = true -> Start cfg = Err ErrEncryptionRequired)) /\
  (AgeRecipients cfg <> [] -> exists rd' w, WriteLTXFile cl level minTXID maxTXID rd' = (cl', w) /\
     (rd_data rd' = [] /\ rd_err rd' <> None \/
      rd_data rd' = age_flushed (AgeRecipients cfg) (rd_data rd) /\ rd_err rd' = rd_err rd /\ rd_err rd <> None \/
      exists ew, age_Encrypt (AgeRecipients cfg) = Ok ew /\ rd_data rd' = fst (ew (rd_data rd)) /\ rd_err rd = None)).
Proof.
  intros HR HW. unfold r_WriteLTXFile, Start, EncryptionEnabled in *. split.
  - intros HA. rewrite HA, HR in *. simpl in *. simplify_eq. split_and!; [done|done|by intros ->].
  - intros HA. destruct (AgeRecipients cfg) as [|rec recs] eqn:HRec; [done|]. clear HA. simpl in HW.
    destruct (encrypt_pipe cfg rd) as [pw encErr] eqn:HP.
    destruct (WriteLTXFile cl level minTXID maxTXID (Pipe.reader pw)) as [cl1 w] eqn:HW1. simplify_eq.
    exists (Pipe.reader pw), w. split; [done|]. unfold encrypt_pipe in HP. rewrite HRec in HP.
    destruct (age_Encrypt (rec :: recs)) as [ew|e|m]; [|simplify_eq; by left..]. right.
    destruct (rd_err rd) as [e|] eqn:He; [simplify_eq; by left|right]. exists ew.
    destruct (ew (rd_data rd)) as [b [ce|]]; by simplify_eq.
Qed.

(** C33: what was written is read back.  With a storage that returns what it
    stored and an age key pair that matches, an object written through the replica
    reads back as its plaintext, sealed or not: the reader decrypts exactly the
    objects that are age streams, so older plaintext objects stay readable. *)
Theorem encrypted_roundtrip cfg cl level minTXID maxTXID b cl' info :
  (forall data, WriteLTXFile cl level minTXID maxTXID (mkReader data None) = (cl', Ok info) ->
     OpenLTXFile cl' level minTXID maxTXID 0 0 = Ok (mkReader data None)) ->
  (forall recs ew, age_Encrypt recs = Ok ew -> forall p, exists ct, ew p = (ageStreamIntro_bytes ++ ct, None)) ->
  (forall ew, age_Encrypt (AgeRecipients cfg) = Ok ew ->
     age_Decrypt (AgeIdentities cfg) (mkReader (fst (ew b)) None) = Ok (mkReader b None)) ->
  (forall c rd e, rd_err rd = Some e -> is_ok (snd (WriteLTXFile c level minTXID maxTXID rd)) = false) ->
  DecryptionEnabled cfg = true ->
  EncryptionEnabled cfg = true \/ sealed (mkReader b None) = false ->
  r_WriteLTXFile cfg cl level minTXID maxTXID (mkReader b None) = (cl', Ok info) ->
  r_OpenLTXFile cfg cl' level minTXID maxTXID 0 0 = Ok (mkReader b None).
Proof.
  intros Hrw Hintro Hkey Herr HD Hcase HW. unfold r_WriteLTXFile, r_OpenLTXFile in *. rewrite HD. simpl.
  destruct (EncryptionEnabled cfg) eqn:HE; simpl in HW.
  - unfold encrypt_pipe in HW. simpl in HW.
    destruct (age_Encrypt (AgeRecipients cfg)) as [ew|e|m] eqn:HA; simpl in HW.
    + destruct (Hintro _ _ HA b) as [ct Hct]. specialize (Hkey ew eq_refl). rewrite Hct in HW, Hkey. simpl in *.
      destruct (WriteLTXFile cl _ _ _ _) as [cl1 w] eqn:HW1.
      assert (cl1 = cl' /\ w = Ok info) as [-> ->] by (destruct w; by simplify_eq).
      unfold Pipe.reader in HW1. simpl in HW1. rewrite (Hrw _ HW1). simpl.
      rewrite DecryptIfSealed_sealed by apply sealed_intro. by rewrite Hkey.
    + exfalso. destruct (WriteLTXFile cl _ _ _ _) as [cl1 w] eqn:HW1.
      specialize (Herr cl (Pipe.reader (Pipe.CloseWithError Pipe.new (Some (EWrap "age encrypt" e)))) _ eq_refl).
      rewrite HW1 in Herr. by destruct w; simplify_eq.
    + exfalso. destruct (WriteLTXFile cl _ _ _ _) as [cl1 w] eqn:HW1.
      specialize (Herr cl (Pipe.reader (Pipe.CloseWithError Pipe.new (Some (EMsg m)))) _ eq_refl).
      rewrite HW1 in Herr. by destruct w; simplify_eq.
  - destruct Hcase as [?|Hpl]; [done|]. destruct (RequireEncryption cfg); [done|].
    rewrite (Hrw _ HW). simpl. by rewrite DecryptIfSealed_plain.
Qed.
End Replica.
Arguments Replica : clear implicits.

(** ** The monitor

    The state the monitor loop keeps between syncs and its step on the outcome of
    a sync.  [reset] is what [ResetLocalState] would return; the second component
    tells whether it was called. *)
Definition DefaultSyncBackoffMax : duration := 5 * Minute.
Definition SyncErrorLogInterval : duration := 30 * Second.

Record monitor_state := mkMonitor { backoff : duration; lastLogTime : time; consecutiveErrs : Z }.

(** Exponential backoff: the interval, then twice the last one, up to the maximum. *)
Definition next_backoff (interval cur : duration) : duration :=
  if cur =? 0 then interval
  else let b := cur * 2 in if DefaultSyncBackoffMax <? b then DefaultSyncBackoffMax else b.

Definition monitor_step {identity recipient} (cfg : ReplicaConfig identity recipient) (st : monitor_state)
    (err : option error) (now : time) (reset : option error) : monitor_state * bool :=
  match err with
  | None => (mkMonitor 0 (lastLogTime st) 0, false)
  | Some err =>
      if negb (errors_Is err ErrCanceled) && negb (errors_Is err ErrDeadlineExceeded) then
        let errs := consecutiveErrs st + 1 in
        let b := next_backoff (SyncInterval cfg) (backoff st) in
        let logged := if SyncErrorLogInterval <=? now - lastLogTime st then now else lastLogTime st in
        match as_LTXError err with
        | Some cause =>
            if AutoRecoverEnabled cfg && IsAutoRecoverable cause then
              (match reset with
               | Some _ => mkMonitor b logged errs
               | None => mkMonitor 0 logged 0
               end, true)
            else (mkMonitor b logged errs, false)
        | None => (mkMonitor b logged errs, false)
        end
      else (st, false)
  end.

(** The state after a sequence of outcomes. *)
Definition monitor_run {identity recipient} (cfg : ReplicaConfig identity recipient)
    (st : monitor_state) (outcomes : list (option error * time * option error)) : monitor_state :=
  fold_left (fun st o => fst (monitor_step cfg st o.1.1 o.1.2 o.2)) outcomes st.

Lemma next_backoff_bound interval cur :
  0 < interval -> 0 <= cur <= Z.max interval DefaultSyncBackoffMax ->
  0 < next_backoff interval cur <= Z.max interval DefaultSyncBackoffMax.
Proof.
  intros Hi Hc. unfold next_backoff. destruct (Z.eqb_spec cur 0); [lia|].
  destruct (Z.ltb_spec DefaultSyncBackoffMax (cur * 2)); [|lia].
  unfold DefaultSyncBackoffMax, Minute, Second in *. lia.
Qed.

(** The backoff after [n] failures in a row. *)
Lemma next_backoff_iter interval n :
  0 < interval <= DefaultSyncBackoffMax ->
  Nat.iter (S n) (next_backoff interval) 0 = Z.min (interval * 2 ^ Z.of_nat n) DefaultSyncBackoffMax.
Proof.
  intros Hi. induction n as [|n IH].
  { simpl. unfold next_backoff. simpl. lia. }
  rewrite Nat.iter_succ, IH. replace (Z.of_nat (S n)) with (Z.of_nat n + 1) by lia.
  rewrite Z.pow_add_r, Z.pow_1_r by lia. unfold next_backoff.
  assert (0 < 2 ^ Z.of_nat n) by (apply Z.pow_pos_nonneg; lia).
  set (p := 2 ^ Z.of_nat n) in *. assert (0 < interval * p) by nia.
  destruct (Z.eqb_spec (Z.min (interval * p) DefaultSyncBackoffMax) 0); [lia|].
  rewrite Z.mul_assoc. set (q := interval * p) in *.
  destruct (Z.ltb_spec DefaultSyncBackoffMax (Z.min q DefaultSyncBackoffMax * 2));
    unfold DefaultSyncBackoffMax, Minute, Second in *; lia.
Qed.

(** C35: the retry policy.  Whatever the sequence of outcomes, the backoff stays
    between zero and the larger of the interval and five minutes; a success resets
    it, [n+1] failures in a row (that trigger no recovery) from there give the
    interval doubled [n] times, capped; and the local state is reset only when
    recovery is enabled and the error is a missing or corrupt LTX file. *)
Theorem monitor_policy {identity recipient} (cfg : ReplicaConfig identity recipient) st outcomes :
  0 < SyncInterval cfg <= DefaultSyncBackoffMax ->
  0 <= backoff st <= Z.max (SyncInterval cfg) DefaultSyncBackoffMax ->
  0 <= backoff (monitor_run cfg st outcomes) <= Z.max (SyncInterval cfg) DefaultSyncBackoffMax /\
  (forall now reset, backoff (fst (monitor_step cfg st None now reset)) = 0) /\
  (forall err now reset, snd (monitor_step cfg st (Some err) now reset) = true ->
     AutoRecoverEnabled cfg = true /\ exists cause, as_LTXError err = Some cause /\ IsAutoRecoverable cause = true) /\
  (forall err now reset n, backoff st = 0 ->
     errors_Is err ErrCanceled = false -> errors_Is err ErrDeadlineExceeded = false ->
     snd (monitor_step cfg st (Some err) now reset) = false ->
     backoff (monitor_run cfg st (replicate (S n) (Some err, now, reset))) =
     Z.min (SyncInterval cfg * 2 ^ Z.of_nat n) DefaultSyncBackoffMax).
Proof.
  intros Hi Hb. split; [|split; [|split]].
  - revert st Hb. induction outcomes as [|[[err now] reset] outcomes IH]; intros st Hb; [done|].
    apply IH. unfold monitor_step. simpl. pose proof (next_backoff_bound (SyncInterval cfg) (backoff st) ltac:(lia) Hb).
    repeat case_match; simpl; lia.
  - done.
  - intros err now reset. unfold monitor_step. case_if; [|done].
    destruct (as_LTXError err) as [c|] eqn:HA; [|done]. case_if; [|done]. intros _.
    apply andb_true_iff in E0 as [??]. eauto.
  - intros err now reset n H0 Hc Hd Hs. rewrite <- next_backoff_iter by done. rewrite <- H0.
    assert (forall k st, snd (monitor_step cfg st (Some err) now reset) = false ->
              backoff (monitor_run cfg st (replicate k (Some err, now, reset))) =
              Nat.iter k (next_backoff (SyncInterval cfg)) (backoff st)) as Hk; [|by apply Hk].
    clear -Hc Hd. induction k as [|k IH]; intros st Hs; [done|]. simpl replicate. cbn [monitor_run fold_left].
    assert (fst (monitor_step cfg st (Some err) now reset) =
            mkMonitor (next_backoff (SyncInterval cfg) (backoff st))
              (if SyncErrorLogInterval <=? now - lastLogTime st then now else lastLogTime st)
              (consecutiveErrs st + 1)) as Hst.
    { unfold monitor_step in *. rewrite Hc, Hd in *. cbn [negb andb] in *.
      destruct (as_LTXError err); [|done]. by destruct (_ && _). }
    cbn [fst snd] in *. rewrite Hst. fold (monitor_run cfg).
    change (fold_left _ _ ?s) with (monitor_run cfg s (replicate k (Some err, now, reset))).
    rewrite IH.
    + cbn [backoff]. by rewrite <- Nat.iter_succ_r.
    + unfold monitor_step in *. rewrite Hc, Hd in *. cbn [negb andb] in *.
      destruct (as_LTXError err); [|done]. by destruct (_ && _).
Qed.

(** ** Time bounds *)

(** The bounds after one more creation time. *)
Definition extend_bounds (bounds : time * time) (t : time) : time * time :=
  let '(createdAt, updatedAt) := bounds in
  (if time_IsZero createdAt || time_Before t createdAt then t else createdAt,
   if time_IsZero updatedAt || time_After t updatedAt then t else updatedAt).

(** The levels from the snapshot level down to zero. *)
Definition bound_levels : list Z := [9; 8; 7; 6; 5; 4; 3; 2; 1; 0].

Section Bounds.
Context {C : Type} `{ReplicaClient C}.

Fixpoint TimeBounds_loop (cl : C) (levels : list Z) (bounds : time * time) : result (time * time) :=
  match levels with
  | [] => Ok bounds
  | level :: levels =>
      itr ← LTXFiles cl level 0 false;
      let bounds := fold_left extend_bounds (CreatedAt <$> itr_items itr) bounds in
      match itr_Close itr with
      | Some e => Err e
      | None => TimeBounds_loop cl levels bounds
      end
  end.

Definition TimeBounds (cl : C) : result (time * time) := TimeBounds_loop cl bound_levels (0, 0).

(** The earliest file of level 0, as listed. *)
Definition r_CreatedAt (cl : C) : result time :=
  itr ← LTXFiles cl 0 0 false;
  let min := match itr_items itr with info :: _ => CreatedAt info | [] => 0 end in
  match itr_Close itr with Some e => Err e | None => Ok min end.

(** [v3] are the bounds of the v0.3.x backups, when the client has any. *)
Definition CalcRestoreTarget (cl : C) (v3 : option (result (time * time))) (timestamp : time) : result time :=
  '(createdAt, updatedAt) ← TimeBounds cl wrapping "created at";
  '(createdAt, updatedAt) ←
    (match v3 with
     | None => Ok (createdAt, updatedAt)
     | Some b =>
         '(v3CreatedAt, v3UpdatedAt) ← b wrapping "v0.3.x time bounds";
         Ok (if negb (time_IsZero v3CreatedAt) && (time_IsZero createdAt || time_Before v3CreatedAt createdAt)
             then v3CreatedAt else createdAt,
             if negb (time_IsZero v3UpdatedAt) && (time_IsZero updatedAt || time_After v3UpdatedAt updatedAt)
             then v3UpdatedAt else updatedAt)
     end);
  if negb (time_IsZero timestamp) then
    if time_IsZero createdAt && time_IsZero updatedAt then Err (EMsg "no backups found")
    else if time_Before timestamp createdAt || time_After timestamp updatedAt
    then Err (EMsg "timestamp does not exist")
    else Ok updatedAt
  else Ok updatedAt.
End Bounds.

(** The bounds are zero when nothing was seen, and else the least and the
    greatest time seen. *)
Definition bounds_of (ts : list time) (b : time * time) : Prop :=
  (ts = [] /\ b = (0, 0)) \/
  (In b.1 ts /\ In b.2 ts /\ forall t, In t ts -> b.1 <= t <= b.2).

Lemma extend_bounds_of ts b t :
  (forall u, In u (ts ++ [t]) -> 0 < u) -> bounds_of ts b -> bounds_of (ts ++ [t]) (extend_bounds b t).
Proof.
  intros Hpos Hb. assert (0 < t) by (apply Hpos, in_or_app; right; by left). right. destruct b as [c u].
  setoid_rewrite in_app_iff. unfold extend_bounds, time_IsZero, time_Before, time_After.
  destruct Hb as [[-> [= -> ->]]|(Hc & Hu & Hall)]; simpl in *.
  { split_and!; auto. intros v [[]|[<-|[]]]. lia. }
  assert (0 < c) by (apply Hpos, in_or_app; by left). assert (0 < u) by (apply Hpos, in_or_app; by left).
  pose proof (Hall c Hc). destruct (Z.eqb_spec c 0), (Z.eqb_spec u 0); try lia. simpl.
  destruct (Z.ltb_spec t c), (Z.ltb_spec u t); (split_and!; [auto|auto|]);
    intros v [Hv|[<-|[]]]; try lia; specialize (Hall v Hv); lia.
Qed.

Lemma extend_bounds_list ts b more :
  (forall u, In u (ts ++ more) -> 0 < u) -> bounds_of ts b ->
  bounds_of (ts ++ more) (fold_left extend_bounds more b).
Proof.
  revert ts b. induction more as [|t more IH]; intros ts b Hpos Hb; simpl; [by rewrite app_nil_r|].
  replace (ts ++ t :: more) with ((ts ++ [t]) ++ more) in * by (by rewrite <- app_assoc).
  apply IH; [done|]. apply extend_bounds_of; [|done]. intros u Hu. apply Hpos, in_or_app. by left.
Qed.

Section BoundsSpec.
Context {C : Type} `{ReplicaClientLaws C}.

Lemma TimeBounds_loop_spec (cl : C) levels ts b b' :
  TimeBounds_loop cl levels b = Ok b' -> bounds_of ts b ->
  (forall u, In u (ts ++ (CreatedAt <$> concat (level_files cl false <$> levels))) -> 0 < u) ->
  bounds_of (ts ++ (CreatedAt <$> concat (level_files cl false <$> levels))) b'.
Proof.
  revert ts b. induction levels as [|level levels IH]; intros ts b HT Hb Hpos; cbn [TimeBounds_loop] in HT.
  { injection HT as <-. by rewrite app_nil_r. }
  destruct (LTXFiles cl level 0 false) as [it|e|m] eqn:HL; cbn [mbind result_bind] in HT; [|done..].
  destruct (itr_Close it) eqn:HC; [done|]. rewrite (LTXFiles_close _ _ _ _ _ HL) in HC.
  rewrite (LTXFiles_all _ _ _ _ HL HC) in HT.
  rewrite fmap_cons in *. cbn [concat] in *. rewrite fmap_app, app_assoc in *.
  eapply IH; [done| |done]. apply extend_bounds_list; [|done]. intros u Hu. apply Hpos, in_or_app. by left.
Qed.

(** The time bounds of a replica are the earliest and the latest creation time
    of any file of any level, or zero when there is none. *)
Theorem TimeBounds_correct (cl : C) b :
  TimeBounds cl = Ok b ->
  (forall level f, In f (level_files cl false level) -> 0 < CreatedAt f) ->
  bounds_of (CreatedAt <$> concat (level_files cl false <$> bound_levels)) b.
Proof.
  intros HT Hpos. apply (TimeBounds_loop_spec cl bound_levels [] (0, 0) b HT); [by left|].
  intros u Hu. rewrite app_nil_l in Hu. apply list_elem_of_In, list_elem_of_fmap in Hu as (f & -> & Hf).
  apply list_elem_of_In, in_concat in Hf as (l & Hl & Hf).
  apply list_elem_of_In, list_elem_of_fmap in Hl as (level & -> & _). by eapply Hpos.
Qed.
End BoundsSpec.

(** ** Level validation *)
Inductive violation : Type := vUnsorted | vGap | vOverlap.

Record ValidationError := mkViolation { v_Level : Z; v_Type : violation; PrevFile : FileInfo; CurrFile : FileInfo }.

Fixpoint ValidateLevel_loop (level : Z) (prevInfo : option FileInfo) (items : list FileInfo)
    (errs : list ValidationError) : list ValidationError :=
  match items with
  | [] => errs
  | info :: items =>
      match prevInfo with
      | None => ValidateLevel_loop level (Some info) items errs
      | Some prev =>
          if MinTXID info <? MinTXID prev
          then ValidateLevel_loop level (Some info) items (errs ++ [mkViolation level vUnsorted prev info])
          else
            let expectedMinTXID := txid_succ (MaxTXID prev) in
            let errs :=
              if negb (MinTXID info =? expectedMinTXID) then
                if expectedMinTXID <? MinTXID info then errs ++ [mkViolation level vGap prev info]
                else errs ++ [mkViolation level vOverlap prev info]
              else errs in
            ValidateLevel_loop level (Some info) items errs
      end
  end.

Definition ValidateLevel {C} `{ReplicaClient C} (cl : C) (level : Z) : result (list ValidationError) :=
  itr ← LTXFiles cl level 0 false wrapping "fetch ltx files";
  let errs := ValidateLevel_loop level None (itr_items itr) [] in
  match itr_Close itr with Some e => Err (EWrap "close iterator" e) | None => Ok errs end.

(** The violations of consecutive files. *)
Definition violation_of (prev info : FileInfo) : option violation :=
  if MinTXID info <? MinTXID prev then Some vUnsorted
  else if MinTXID info =? txid_succ (MaxTXID prev) then None
  else if txid_succ (MaxTXID prev) <? MinTXID info then Some vGap else Some vOverlap.

Fixpoint violations (level : Z) (prev : option FileInfo) (items : list FileInfo) : list ValidationError :=
  match items with
  | [] => []
  | info :: items =>
      match prev with
      | None => []
      | Some p => match violation_of p info with Some v => [mkViolation level v p info] | None => [] end
      end ++ violations level (Some info) items
  end.

Lemma ValidateLevel_loop_spec level prev items errs :
  ValidateLevel_loop level prev items errs = errs ++ violations level prev items.
Proof.
  revert prev errs. induction items as [|f items IH]; intros prev errs; cbn [ValidateLevel_loop violations].
  { by rewrite app_nil_r. }
  destruct prev as [p|]; [|by rewrite IH]. unfold violation_of.
  destruct (MinTXID f <? MinTXID p); [by rewrite IH, <- app_assoc|].
  rewrite IH. destruct (MinTXID f =? txid_succ (MaxTXID p)); [done|]. simpl.
  by destruct (txid_succ (MaxTXID p) <? MinTXID f); rewrite <- app_assoc.
Qed.

Lemma violations_nil level prev items :
  violations level prev items = [] <->
  contiguous (option_list prev ++ items) /\
  forall i a b, (option_list prev ++ items) !! i = Some a -> (option_list prev ++ items) !! S i = Some b -> MinTXID a <= MinTXID b.
Proof.
  revert prev. induction items as [|f items IH]; intros prev; cbn [violations].
  { rewrite app_nil_r. split; [|done]. intros _. split; [by destruct prev|]. intros i a b _ Hb. by destruct prev, i. }
  destruct prev as [p|]; cbn [option_list app].
  - change (contiguous (p :: f :: items)) with (MinTXID f = txid_succ (MaxTXID p) /\ contiguous (f :: items)).
    rewrite app_nil, (IH (Some f)). cbn [option_list app]. unfold violation_of. split.
    + intros [Hv [Hc Hs]]. assert (MinTXID f = txid_succ (MaxTXID p) /\ MinTXID p <= MinTXID f) as [? ?] by (bcases; lia).
      split; [done|]. intros [|i] a b Ha Hb; simplify_eq/=; [done|]. by eapply (Hs i).
    + intros [[E Hc] Hs]. specialize (Hs 0%nat p f eq_refl eq_refl) as Hpf.
      split; [bcases; done || (exfalso; lia)|]. split; [done|]. intros i a b. apply (Hs (S i)).
  - rewrite (IH (Some f)). done.
Qed.

(** [ValidateLevel] of a readable level reports no violation exactly when the
    files are sorted and contiguous; and it reports every violation of
    consecutive files otherwise. *)
Theorem ValidateLevel_correct {C} `{ReplicaClientLaws C} (cl : C) level it :
  LTXFiles cl level 0 false = Ok it -> itr_Err it = None ->
  exists errs, ValidateLevel cl level = Ok errs /\
    (errs = [] <-> contiguous (level_files cl false level)) /\
    forall i a b v, level_files cl false level !! i = Some a -> level_files cl false level !! S i = Some b ->
      violation_of a b = Some v -> In (mkViolation level v a b) errs.
Proof.
  intros HL HE. unfold ValidateLevel. rewrite HL. simpl.
  rewrite (LTXFiles_close _ _ _ _ _ HL), HE, ValidateLevel_loop_spec, (LTXFiles_all _ _ _ _ HL HE). simpl.
  set (l := level_files cl false level). exists (violations level None l). split; [done|]. split.
  - rewrite violations_nil. simpl. split; [by intros [? _]|]. intros Hc. split; [done|]. intros i a b Ha Hb.
    pose proof (level_files_sorted cl false level) as Hs. fold l in Hs.
    rewrite <- (take_drop_middle l i a Ha) in Hs. apply StronglySorted_app_1_r in Hs.
    apply StronglySorted_inv in Hs as [_ Hs]. rewrite Forall_forall in Hs. apply Hs.
    eapply list_elem_of_lookup_2 with (i := 0%nat). by rewrite lookup_drop, Nat.add_0_r.
  - assert (forall prev i a b v, (option_list prev ++ l) !! i = Some a -> (option_list prev ++ l) !! S i = Some b ->
              violation_of a b = Some v -> In (mkViolation level v a b) (violations level prev l)) as Hall;
      [|intros i a b v; apply (Hall None)].
    clear. induction l as [|f l IH]; intros prev i a b v; cbn [violations].
    { rewrite app_nil_r. by destruct prev, i. }
    destruct prev as [p|]; simpl; intros Ha Hb Hv.
    + apply in_or_app. destruct i as [|i]; simplify_eq/=; [left; rewrite Hv; by left|right].
      by apply (IH (Some f) i a b v).
    + by apply (IH (Some f) i a b v).
Qed.

(** ** A concrete replica

    A storage of one object, a database of two level-0 files, and an age stand-in
    that prefixes the intro and drops it again. *)
Section Demo.
Definition cell : Type := option (list byte).
Definition cell_ops : ReplicaClient cell := {|
  LTXFiles _ level _ _ := Ok (mkIter [] None None);
  OpenLTXFile c _ _ _ _ _ := match c with Some b => Ok (mkReader b None) | None => Err ErrNotExist end;
  WriteLTXFile c level lo hi rd :=
    match rd_err rd with
    | Some e => (c, Err e)
    | None => (Some (rd_data rd), Ok (mkFileInfo level lo hi (Z.of_nat (length (rd_data rd))) 0))
    end;
  DeleteLTXFiles _ _ := (None, None)
|}.

Definition demo_db_ops : ReplicaDB time := {|
  db_Pos _ := Ok (mkPos 2 0);
  db_LTXPath _ _ _ _ := "";
  db_OpenLTX _ _ lo _ := if lo <=? 2 then Ok (mkReader [x01; Zbyte lo] None) else Err (EPath "open" ErrNotExist);
  db_RecordSuccessfulSync _ now := now
|}.

Definition demo_ew (b : list byte) : list byte * option error := (ageStreamIntro_bytes ++ b, None).
Definition demo_encrypt (rs : list string) : result (list byte -> list byte * option error) := Ok demo_ew.
Definition demo_open_age (ids : list string) (r : Reader) : result Reader :=
  Ok (mkReader (drop (length ageStreamIntro_bytes) (rd_data r)) (rd_err r)).
Definition demo_flush (rs : list string) (b : list byte) : list byte := [].

Definition demo_cfg : ReplicaConfig string string := mkConfig Second true true ["id"] ["rcpt"] true.
Definition demo_plain_cfg : ReplicaConfig string string := mkConfig Second true true ["id"] [] false.
End Demo.

Lemma Sync_ordered_witness :
  exists r', @Sync cell time cell_ops demo_db_ops string string demo_encrypt demo_flush demo_cfg
               (mkReplica 0 zeroPos None) 7 = (r', Ok ()) /\ TXID_ (r_pos r') = 2.
Proof.
  destruct (@Sync cell time cell_ops demo_db_ops string string demo_encrypt demo_flush demo_cfg
               (mkReplica 0 zeroPos None) 7) as [r' res] eqn:E.
  assert (res = Ok ()) as Hr by (apply (f_equal snd) in E; vm_compute in E; by rewrite <- E).
  rewrite Hr in *. exists r'. split; [reflexivity|].
  destruct (@Sync_ordered cell time cell_ops demo_db_ops string string demo_encrypt demo_flush demo_cfg
              (mkReplica 0 zeroPos None) 7 r' (Ok ()) E) as [Hok _].
  - intros p Hp. vm_compute in Hp. injection Hp as <-. simpl. lia.
  - intros p Hp. vm_compute in Hp. injection Hp as <-. simpl. lia.
  - destruct (Hok eq_refl) as (start & dpos & n & Hs & Hd & _ & _ & Hmax).
    vm_compute in Hs, Hd. injection Hs as <-. injection Hd as <-. exact Hmax.
Defined.

Lemma WriteLTXFile_sealed_witness :
  exists rd' w, WriteLTXFile (ReplicaClient := cell_ops) None 0 1 1 rd' =
      (fst (@r_WriteLTXFile cell cell_ops string string demo_encrypt demo_flush demo_cfg None 0 1 1 (mkReader [x01] None)), w) /\
    (rd_data rd' = [] /\ rd_err rd' <> None \/
     rd_data rd' = demo_flush ["rcpt"] [x01] /\ rd_err rd' = None /\ @None error <> None \/
     exists ew, demo_encrypt ["rcpt"] = Ok ew /\ rd_data rd' = fst (ew [x01]) /\ @None error = None).
Proof.
  refine (proj2 (@WriteLTXFile_sealed cell cell_ops string string demo_encrypt demo_flush demo_cfg None 0 1 1
            (mkReader [x01] None) _ _ eq_refl (surjective_pairing _)) _).
  discriminate.
Defined.

Lemma encrypted_roundtrip_witness :
  @r_OpenLTXFile cell cell_ops string string demo_open_age demo_cfg (Some (ageStreamIntro_bytes ++ [x01])) 0 1 1 0 0
    = Ok (mkReader [x01] None).
Proof.
  apply (@encrypted_roundtrip cell cell_ops string string demo_open_age demo_encrypt demo_flush demo_cfg None 0 1 1
           [x01] (Some (ageStreamIntro_bytes ++ [x01])) (mkFileInfo 0 1 1 22 0)).
  - intros data Hw. injection Hw as Hw _. simpl. rewrite Hw. reflexivity.
  - intros recs ew Hew p. injection Hew as <-. exists p. reflexivity.
  - intros ew Hew. injection Hew as <-. reflexivity.
  - intros c rd e He. simpl. rewrite He. reflexivity.
  - reflexivity.
  - left. reflexivity.
  - reflexivity.
Defined.

Lemma monitor_policy_witness :
  backoff (monitor_run demo_cfg (mkMonitor 0 0 0) (replicate 4 (Some (EMsg "disk full"), 0, None)))
    = Z.min (Second * 2 ^ 3) DefaultSyncBackoffMax.
Proof.
  apply (monitor_policy demo_cfg (mkMonitor 0 0 0) []); vm_compute; intuition discriminate.
Defined.

Lemma TimeBounds_correct_witness :
  exists b, TimeBounds demo_snapshots = Ok b /\
    bounds_of (CreatedAt <$> concat (level_files demo_snapshots false <$> bound_levels)) b.
Proof.
  eexists. split; [vm_compute; reflexivity|].
  apply (TimeBounds_correct demo_snapshots); [vm_compute; reflexivity|].
  intros level f [_ Hf]%In_filter_bool. vm_compute in Hf. intuition (subst; reflexivity).
Defined.

Lemma ValidateLevel_correct_witness :
  exists errs, ValidateLevel demo_snapshots 0 = Ok errs /\
    (errs = [] <-> contiguous (level_files demo_snapshots false 0)) /\
    forall i a b v, level_files demo_snapshots false 0 !! i = Some a ->
      level_files demo_snapshots false 0 !! S i = Some b ->
      violation_of a b = Some v -> In (mkViolation 0 v a b) errs.
Proof. eapply (ValidateLevel_correct demo_snapshots 0); reflexivity. Defined.
