(* ===== verification/V3.v ===== *)
(** * Backups in the v0.3.x format

    Model of src/v3.go (positions, file names and their parsers) and of the
    v0.3.x part of src/replica.go: the choice of the snapshot and of the WAL
    segments, the comparison with the LTX backups, and the replay of the segments. *)

From Stdlib Require Import ZArith Lia Ascii String Strings.Byte.
From stdpp Require Import base numbers list strings gmap sorting.
From S2P Require Import Prelude Ltx Streams Replica.
Local Open Scope Z_scope.

(** ** Hexadecimal numbers *)

Definition hexdigit (d : Z) : ascii := ascii_of_nat (Z.to_nat (if d <? 10 then 48 + d else 87 + d)).

(** The value of a character of [0-9a-f]. *)
Definition hexval (c : ascii) : option Z :=
  let n := Z.of_nat (nat_of_ascii c) in
  if (48 <=? n) && (n <=? 57) then Some (n - 48)
  else if (97 <=? n) && (n <=? 102) then Some (n - 87)
  else None.

(** The last [k] hexadecimal digits of [n]. *)
Fixpoint hexN (k : nat) (n : Z) : list ascii :=
  match k with
  | O => []
  | S k => hexN k (n / 16) ++ [hexdigit (n mod 16)]
  end.

(** How many digits a positive number has. *)
Definition hexlen (n : Z) : nat := Z.to_nat (Z.log2 n / 4 + 1).

(** The verb [%0wx] of [fmt]. *)
Definition fmt_hex (w : nat) (n : Z) : list ascii :=
  if n <? 0 then "-"%char :: hexN (Nat.max (w - 1) (hexlen (- n))) (- n)
  else hexN (Nat.max w (hexlen n)) n.

(** [strconv.ParseInt(s, 16, 64)] on strings of hexadecimal digits that fit. *)
Definition ParseHex (s : list ascii) : Z :=
  fold_left (fun acc c => acc * 16 + default 0 (hexval c)) s 0.

Definition is_hex (s : list ascii) : bool :=
  forallb (fun c => match hexval c with Some _ => true | None => false end) s.

(** ** Positions and file names *)

Record PosV3 := mkPosV3 { p_Generation : string; p_Index : Z; p_Offset : Z }.

Definition PosV3_IsZero (p : PosV3) : bool :=
  bool_decide (p_Generation p = "") && (p_Index p =? 0) && (p_Offset p =? 0).

Definition PosV3_String (p : PosV3) : string :=
  if PosV3_IsZero p then ""
  else p_Generation p +:+ "/" +:+ string_of_list_ascii (fmt_hex 8 (p_Index p)) +:+ ":" +:+
       string_of_list_ascii (fmt_hex 16 (p_Offset p)).

Record SnapshotInfoV3 := mkSnapshotV3 { s_Generation : string; s_Index : Z; s_Size : Z; s_CreatedAt : time }.

Record WALSegmentInfoV3 := mkSegmentV3 {
  w_Generation : string; w_Index : Z; w_Offset : Z; w_Size : Z; w_CreatedAt : time }.

Definition SnapshotInfoV3_Pos (info : SnapshotInfoV3) : PosV3 := mkPosV3 (s_Generation info) (s_Index info) 0.
Definition WALSegmentInfoV3_Pos (info : WALSegmentInfoV3) : PosV3 :=
  mkPosV3 (w_Generation info) (w_Index info) (w_Offset info).

Definition snapshot_suffix : list ascii := list_ascii_of_string ".snapshot.lz4".
Definition wal_suffix : list ascii := list_ascii_of_string ".wal.lz4".

Definition FormatSnapshotFilenameV3 (index : Z) : list ascii := fmt_hex 8 index ++ snapshot_suffix.
Definition FormatWALSegmentFilenameV3 (index offset : Z) : list ascii :=
  fmt_hex 8 index ++ "_"%char :: fmt_hex 8 offset ++ wal_suffix.

(** [^([0-9a-f]{8})\.snapshot\.lz4$] *)
Definition ParseSnapshotFilenameV3 (filename : list ascii) : result Z :=
  let m := take 8 filename in
  if (length m =? 8)%nat && is_hex m && bool_decide (drop 8 filename = snapshot_suffix)
  then Ok (ParseHex m) else Err (EMsg "invalid v0.3.x snapshot filename").

(** [^([0-9a-f]{8})_([0-9a-f]{8})\.wal\.lz4$] *)
Definition ParseWALSegmentFilenameV3 (filename : list ascii) : result (Z * Z) :=
  let m1 := take 8 filename in
  let m2 := take 8 (drop 9 filename) in
  if (length m1 =? 8)%nat && is_hex m1 && bool_decide (take 1 (drop 8 filename) = ["_"%char]) &&
     (length m2 =? 8)%nat && is_hex m2 && bool_decide (drop 17 filename = wal_suffix)
  then Ok (ParseHex m1, ParseHex m2) else Err (EMsg "invalid v0.3.x WAL segment filename").

(** [^[0-9a-f]{16}$] *)
Definition IsGenerationIDV3 (s : list ascii) : bool := (length s =? 16)%nat && is_hex s.

(** ** Round trips *)

Lemma hexval_hexdigit d : 0 <= d < 16 -> hexval (hexdigit d) = Some d.
Proof.
  intros Hd. unfold hexval, hexdigit. rewrite nat_ascii_embedding by (case_if; lia).
  rewrite Z2Nat.id by (case_if; lia). destruct (Z.ltb_spec d 10).
  - destruct (Z.leb_spec 48 (48 + d)), (Z.leb_spec (48 + d) 57); simpl; try lia. f_equal. lia.
  - destruct (Z.leb_spec 48 (87 + d)), (Z.leb_spec (87 + d) 57), (Z.leb_spec 97 (87 + d)), (Z.leb_spec (87 + d) 102);
      simpl; try lia. f_equal. lia.
Qed.

Lemma hexdigit_hexval c d : hexval c = Some d -> 0 <= d < 16 /\ hexdigit d = c.
Proof.
  destruct c as [[] [] [] [] [] [] [] []]; vm_compute; intros [= <-]; split; (reflexivity || (split; discriminate || reflexivity)).
Qed.

Lemma length_hexN k n : length (hexN k n) = k.
Proof. revert n. induction k as [|k IH]; intros n; simpl; [done|]. rewrite length_app, IH. simpl. lia. Qed.

Lemma is_hex_app a b : is_hex (a ++ b) = is_hex a && is_hex b.
Proof. apply forallb_app. Qed.

Lemma is_hex_hexN k n : is_hex (hexN k n) = true.
Proof.
  revert n. induction k as [|k IH]; intros n; [done|]. cbn [hexN]. rewrite is_hex_app, IH. simpl.
  by rewrite hexval_hexdigit by (apply Z.mod_pos_bound; lia).
Qed.

Lemma ParseHex_snoc s c : ParseHex (s ++ [c]) = ParseHex s * 16 + default 0 (hexval c).
Proof. unfold ParseHex. by rewrite fold_left_app. Qed.

Lemma ParseHex_hexN k n : 0 <= n -> ParseHex (hexN k n) = n mod 16 ^ Z.of_nat k.
Proof.
  revert n. induction k as [|k IH]; intros n Hn; cbn [hexN].
  { simpl. by rewrite Z.mod_1_r. }
  rewrite ParseHex_snoc, IH by (apply Z.div_pos; lia).
  rewrite hexval_hexdigit by (apply Z.mod_pos_bound; lia). cbn [default from_option].
  replace (Z.of_nat (S k)) with (Z.of_nat k + 1) by lia.
  rewrite Z.pow_add_r, Z.pow_1_r, (Z.mul_comm (16 ^ _)) by lia. unfold id.
  rewrite Z.rem_mul_r by (lia || (apply Z.pow_pos_nonneg; lia)). lia.
Qed.

Lemma ParseHex_range s : is_hex s = true -> 0 <= ParseHex s < 16 ^ Z.of_nat (length s).
Proof.
  induction s as [|c s IH] using rev_ind; [done|]. rewrite is_hex_app. intros [Hs Hc]%andb_true_iff.
  specialize (IH Hs). rewrite ParseHex_snoc, length_app. simpl in *.
  replace (Z.of_nat (length s + 1)) with (Z.of_nat (length s) + 1) by lia. rewrite Z.pow_add_r by lia.
  destruct (hexval c) as [d|] eqn:E; [|done]. apply hexdigit_hexval in E. simpl. lia.
Qed.

Lemma hexN_ParseHex s : is_hex s = true -> hexN (length s) (ParseHex s) = s.
Proof.
  induction s as [|c s IH] using rev_ind; [done|]. rewrite is_hex_app. intros [Hs Hc]%andb_true_iff.
  rewrite ParseHex_snoc, length_app, Nat.add_1_r. cbn [hexN]. simpl in Hc.
  destruct (hexval c) as [d|] eqn:E; [|done]. apply hexdigit_hexval in E as [Hd E]. cbn [default from_option]. unfold id.
  assert ((ParseHex s * 16 + d) / 16 = ParseHex s) as ->
    by (rewrite Z.div_add_l, Z.div_small by lia; apply Z.add_0_r).
  assert ((ParseHex s * 16 + d) mod 16 = d) as ->
    by (rewrite Z.add_comm, Z.mod_add, Z.mod_small by lia; done). by rewrite E, IH.
Qed.

(** Numbers that fit into the width are printed at the width. *)
Lemma fmt_hex_fits w n : (0 < w)%nat -> 0 <= n < 16 ^ Z.of_nat w -> fmt_hex w n = hexN w n.
Proof.
  intros Hw Hn. unfold fmt_hex. destruct (Z.ltb_spec n 0); [lia|]. rewrite Nat.max_l; [done|].
  unfold hexlen. destruct (Z.eq_dec n 0) as [->|Hz]; [change (1 <= w)%nat; lia|].
  assert (Z.log2 n < 4 * Z.of_nat w).
  { apply Z.log2_lt_pow2; [lia|]. rewrite Z.pow_mul_r by lia. change (2 ^ 4) with 16. lia. }
  pose proof (Z.div_lt_upper_bound (Z.log2 n) 4 (Z.of_nat w) ltac:(lia) ltac:(lia)).
  pose proof (Z.log2_nonneg n). pose proof (Z.div_pos (Z.log2 n) 4 ltac:(lia) ltac:(lia)). lia.
Qed.

(** File names of v0.3.x backups round trip.  A snapshot index or a WAL index
    and offset below 2^32 are parsed back from their file name, and a name that
    parses is the name of what it parses to. *)
Theorem filenames_roundtrip index offset name :
  (0 <= index < 2 ^ 32 -> ParseSnapshotFilenameV3 (FormatSnapshotFilenameV3 index) = Ok index) /\
  (0 <= index < 2 ^ 32 -> 0 <= offset < 2 ^ 32 ->
     ParseWALSegmentFilenameV3 (FormatWALSegmentFilenameV3 index offset) = Ok (index, offset)) /\
  (ParseSnapshotFilenameV3 name = Ok index -> FormatSnapshotFilenameV3 index = name /\ 0 <= index < 2 ^ 32) /\
  (ParseWALSegmentFilenameV3 name = Ok (index, offset) ->
     FormatWALSegmentFilenameV3 index offset = name /\ 0 <= index < 2 ^ 32 /\ 0 <= offset < 2 ^ 32).
Proof.
  change (2 ^ 32) with (16 ^ Z.of_nat 8).
  unfold ParseSnapshotFilenameV3, FormatSnapshotFilenameV3, ParseWALSegmentFilenameV3, FormatWALSegmentFilenameV3.
  split_and!.
  - intros Hi. rewrite fmt_hex_fits by (lia || done).
    rewrite take_app_length', drop_app_length' by (by rewrite length_hexN).
    rewrite length_hexN, is_hex_hexN, bool_decide_eq_true_2, Nat.eqb_refl by done. cbn [andb].
    rewrite ParseHex_hexN, Z.mod_small by lia. done.
  - intros Hi Ho. rewrite !fmt_hex_fits by (lia || done).
    set (a := hexN 8 index). set (b := hexN 8 offset).
    assert (length a = 8%nat) as Ha by apply length_hexN. assert (length b = 8%nat) as Hb by apply length_hexN.
    assert (drop 8 (a ++ "_"%char :: b ++ wal_suffix) = "_"%char :: b ++ wal_suffix) as E8
      by (apply drop_app_length'; lia).
    assert (drop 9 (a ++ "_"%char :: b ++ wal_suffix) = b ++ wal_suffix) as E9.
    { change 9%nat with (8 + 1)%nat. rewrite <- drop_drop, E8. done. }
    assert (drop 17 (a ++ "_"%char :: b ++ wal_suffix) = wal_suffix) as E17.
    { change 17%nat with (9 + 8)%nat. rewrite <- drop_drop, E9. apply drop_app_length'. lia. }
    rewrite E8, E9, E17, !take_app_length', Ha, Hb by lia. subst a b.
    rewrite !is_hex_hexN, !bool_decide_eq_true_2, !Nat.eqb_refl by done. cbn [andb].
    rewrite !ParseHex_hexN, !Z.mod_small by lia. done.
  - case_if; [|done]. intros [= <-]. apply andb_true_iff in E as [[Hl%Nat.eqb_eq Hx]%andb_true_iff Hd].
    apply bool_decide_eq_true in Hd. pose proof (ParseHex_range _ Hx) as Hr. rewrite Hl in Hr.
    rewrite fmt_hex_fits by (lia || done).
    pose proof (hexN_ParseHex _ Hx) as E1. rewrite Hl in E1. rewrite E1.
    split; [|done]. rewrite <- Hd. apply take_drop.
  - case_if; [|done]. intros [= <- <-]. breflect. repeat match goal with H : (_ =? _)%nat = true |- _ => apply Nat.eqb_eq in H end.
    rename select (is_hex (take 8 name) = true) into Hx1. rename select (is_hex (take 8 (drop 9 name)) = true) into Hx2.
    pose proof (ParseHex_range _ Hx1) as Hr1. pose proof (ParseHex_range _ Hx2) as Hr2.
    rename select (length (take 8 name) = 8%nat) into Hl1. rename select (length (take 8 (drop 9 name)) = 8%nat) into Hl2.
    rewrite Hl1 in Hr1. rewrite Hl2 in Hr2. split; [|done].
    rewrite !fmt_hex_fits by (lia || done).
    pose proof (hexN_ParseHex _ Hx1) as E1. pose proof (hexN_ParseHex _ Hx2) as E2.
    rewrite Hl1 in E1. rewrite Hl2 in E2. rewrite E1, E2.
    rename select (drop 17 name = wal_suffix) into Hd. rename select (take 1 (drop 8 name) = _) into Hu.
    rewrite <- Hd. change ("_"%char :: ?l) with (["_"%char] ++ l). rewrite <- Hu.
    replace 17%nat with (9 + 8)%nat by lia. rewrite <- drop_drop, take_drop.
    replace 9%nat with (8 + 1)%nat by lia. rewrite <- drop_drop, take_drop. apply take_drop.
Qed.

(** ** Choosing a snapshot *)

(** The interface of clients that hold v0.3.x backups. *)
Class ReplicaClientV3 (C : Type) := {
  GenerationsV3 : C -> result (list string);
  SnapshotsV3 : C -> string -> result (list SnapshotInfoV3);
  WALSegmentsV3 : C -> string -> result (list WALSegmentInfoV3);
  OpenSnapshotV3 : C -> string -> Z -> result Reader;
  OpenWALSegmentV3 : C -> string -> Z -> Z -> result Reader
}.

(** One pass of the inner loop of the sort: the snapshot at the current position is
    exchanged with every later one that is older. *)
Fixpoint sort_pass (x : SnapshotInfoV3) (rest : list SnapshotInfoV3) : SnapshotInfoV3 * list SnapshotInfoV3 :=
  match rest with
  | [] => (x, [])
  | y :: rest =>
      if time_After (s_CreatedAt x) (s_CreatedAt y)
      then let '(m, r) := sort_pass y rest in (m, x :: r)
      else let '(m, r) := sort_pass x rest in (m, y :: r)
  end.

(** The outer loop: each position in turn, on the snapshots from there on. *)
Fixpoint sort_loop (n : nat) (snapshots : list SnapshotInfoV3) : list SnapshotInfoV3 :=
  match n, snapshots with
  | S n, x :: rest => let '(m, r) := sort_pass x rest in m :: sort_loop n r
  | _, l => l
  end.

Definition sortSnapshotsV3ByCreatedAt (snapshots : list SnapshotInfoV3) : list SnapshotInfoV3 :=
  sort_loop (length snapshots) snapshots.

(** The last of the list that is not after the timestamp. *)
Definition findBestSnapshotV3 (snapshots : list SnapshotInfoV3) (timestamp : time) : option SnapshotInfoV3 :=
  if bool_decide (length snapshots = 0%nat) then None
  else if time_IsZero timestamp then last snapshots
  else List.find (fun s => negb (time_After (s_CreatedAt s) timestamp)) (rev snapshots).

Definition filterWALSegmentsV3 (segments : list WALSegmentInfoV3) (snapshotIndex : Z) (timestamp : time)
    : list WALSegmentInfoV3 :=
  filter (fun seg => negb (w_Index seg <? snapshotIndex) &&
                     negb (negb (time_IsZero timestamp) && time_After (w_CreatedAt seg) timestamp)) segments.

Section Selection.
Context {C : Type} `{ReplicaClient C} `{ReplicaClientV3 C}.

Fixpoint all_snapshots (cl : C) (generations : list string) : result (list SnapshotInfoV3) :=
  match generations with
  | [] => Ok []
  | gen :: generations =>
      snapshots ← SnapshotsV3 cl gen wrapping "list v0.3.x snapshots for generation";
      rest ← all_snapshots cl generations;
      Ok (snapshots ++ rest)
  end.

Definition findBestV3SnapshotForTimestamp (cl : C) (timestamp : time) : result (option SnapshotInfoV3) :=
  generations ← GenerationsV3 cl wrapping "list v0.3.x generations";
  if bool_decide (generations = []) then Ok None else
  allSnapshots ← all_snapshots cl generations;
  if bool_decide (length allSnapshots = 0%nat) then Ok None
  else Ok (findBestSnapshotV3 (sortSnapshotsV3ByCreatedAt allSnapshots) timestamp).

Fixpoint TimeBoundsV3_loop (cl : C) (generations : list string) (bounds : time * time) : result (time * time) :=
  match generations with
  | [] => Ok bounds
  | gen :: generations =>
      snapshots ← SnapshotsV3 cl gen;
      let bounds := fold_left extend_bounds (s_CreatedAt <$> snapshots) bounds in
      segments ← WALSegmentsV3 cl gen;
      let bounds := fold_left extend_bounds (w_CreatedAt <$> segments) bounds in
      TimeBoundsV3_loop cl generations bounds
  end.

Definition TimeBoundsV3 (cl : C) : result (time * time) :=
  generations ← GenerationsV3 cl;
  TimeBoundsV3_loop cl generations (0, 0).

Definition findBestLTXSnapshotForTimestamp (cl : C) (timestamp : time) : result (option FileInfo) :=
  match FindLTXFiles (fun info => (time_Before (CreatedAt info) timestamp, None)) cl SnapshotLevel true with
  | (_, Some e) => Err (EWrap "find LTX snapshots" e)
  | (snapshots, None) => Ok (last snapshots)
  end.

Definition shouldUseV3Restore (cl : C) (timestamp : time) : result bool :=
  '(_, v3UpdatedAt) ← TimeBoundsV3 cl wrapping "get v0.3.x time bounds";
  '(_, ltxUpdatedAt) ← TimeBounds cl wrapping "get LTX time bounds";
  if time_IsZero v3UpdatedAt then Ok false
  else if time_IsZero ltxUpdatedAt then Ok true
  else if negb (time_IsZero timestamp) then
    v3Snapshot ← findBestV3SnapshotForTimestamp cl timestamp wrapping "find v0.3.x snapshot";
    ltxSnapshot ← findBestLTXSnapshotForTimestamp cl timestamp wrapping "find LTX snapshot";
    match v3Snapshot, ltxSnapshot with
    | Some v3, None => Ok true
    | Some v3, Some l => Ok (time_After (s_CreatedAt v3) (CreatedAt l))
    | None, _ => Ok false
    end
  else Ok (time_After v3UpdatedAt ltxUpdatedAt).
End Selection.

(** The sort is an exchange sort: its result is a sorted permutation. *)
Lemma sort_pass_spec x rest m r :
  sort_pass x rest = (m, r) ->
  m :: r ≡ₚ x :: rest /\ length r = length rest /\ s_CreatedAt m <= s_CreatedAt x /\
  (forall y, In y r -> s_CreatedAt m <= s_CreatedAt y).
Proof.
  revert x m r. induction rest as [|y rest IH]; intros x m r; cbn [sort_pass].
  { intros [= <- <-]. split_and!; [done|done|lia|intros ? []]. }
  unfold time_After. destruct (Z.ltb_spec (s_CreatedAt y) (s_CreatedAt x)).
  - destruct (sort_pass y rest) as [m' r'] eqn:E. intros [= <- <-].
    apply IH in E as (Hp & Hl & Hm & Hr). split_and!; [|simpl; lia|lia|intros z [<-|Hz]; [lia|auto]].
    by rewrite (Permutation_swap x m'), Hp.
  - destruct (sort_pass x rest) as [m' r'] eqn:E. intros [= <- <-].
    apply IH in E as (Hp & Hl & Hm & Hr). split_and!; [|simpl; lia|lia|intros z [<-|Hz]; [lia|auto]].
    rewrite (Permutation_swap y m'), Hp. apply Permutation_swap.
Qed.

Lemma sort_loop_spec n l :
  (length l <= n)%nat ->
  sort_loop n l ≡ₚ l /\ StronglySorted (fun a b => s_CreatedAt a <= s_CreatedAt b) (sort_loop n l).
Proof.
  revert l. induction n as [|n IH]; intros [|x rest] Hl; simpl in *; try lia.
  1,2: split; [done|constructor].
  destruct (sort_pass x rest) as [m r] eqn:E. apply sort_pass_spec in E as (Hp & Hlen & Hm & Hr).
  destruct (IH r ltac:(lia)) as [IHp IHs]. split; [by rewrite IHp|].
  constructor; [done|]. apply Forall_forall. intros y Hy. apply Hr. apply list_elem_of_In. by rewrite <- IHp.
Qed.

Lemma find_rev_spec (P : SnapshotInfoV3 -> bool) l :
  StronglySorted (fun a b => s_CreatedAt a <= s_CreatedAt b) l ->
  match List.find P (rev l) with
  | Some s => In s l /\ P s = true /\ forall s', In s' l -> P s' = true -> s_CreatedAt s' <= s_CreatedAt s
  | None => forall s', In s' l -> P s' = false
  end.
Proof.
  induction l as [|x l IH] using rev_ind; intros Hs; [by intros ? []|]. rewrite rev_app_distr. simpl.
  destruct (P x) eqn:HP.
  - split_and!; [apply in_or_app; right; by left|done|]. intros s' [Hs'|[<-|[]]]%in_app_or _; [|lia].
    apply (StronglySorted_app_1_elem_of _ _ _ _ _ Hs); [by apply list_elem_of_In|set_solver].
  - apply StronglySorted_app_1_l in Hs. specialize (IH Hs). destruct (List.find P (rev l)) as [s|].
    + destruct IH as (? & ? & Hall). split_and!; [apply in_or_app; by left|done|].
      intros s' [Hs'|[<-|[]]]%in_app_or HP'; [auto|congruence].
    + intros s' [Hs'|[<-|[]]]%in_app_or; auto.
Qed.

(** The v0.3.x snapshot a restore starts from.  Whatever the order in which the
    generations list their snapshots, the one chosen is a latest one that is not
    after the timestamp (any one without a timestamp), and one is chosen whenever
    there is one. *)
Theorem best_snapshot_v3 snapshots timestamp :
  let ok s := time_IsZero timestamp || negb (time_After (s_CreatedAt s) timestamp) in
  match findBestSnapshotV3 (sortSnapshotsV3ByCreatedAt snapshots) timestamp with
  | Some s => In s snapshots /\ ok s = true /\
              forall s', In s' snapshots -> ok s' = true -> s_CreatedAt s' <= s_CreatedAt s
  | None => forall s', In s' snapshots -> ok s' = false
  end.
Proof.
  intros ok. unfold findBestSnapshotV3, sortSnapshotsV3ByCreatedAt.
  destruct (sort_loop_spec (length snapshots) snapshots (le_n _)) as [Hp Hs].
  set (l := sort_loop (length snapshots) snapshots) in *.
  assert (forall s, In s l <-> In s snapshots) as Hin by (intros s; rewrite <- !list_elem_of_In; by rewrite Hp).
  case_bool_decide as Hl.
  { apply nil_length_inv in Hl. intros s' Hs'. apply Hin in Hs'. by rewrite Hl in Hs'. }
  pose proof (find_rev_spec ok l Hs) as HF. destruct (time_IsZero timestamp) eqn:Hz.
  - assert (List.find ok (rev l) = last l) as <-.
    { destruct l as [|x l' _] using rev_ind; [done|]. rewrite rev_app_distr, last_snoc. done. }
    destruct (List.find ok (rev l)) as [s|]; [|intros; by apply HF, Hin].
    destruct HF as (? & ? & Hall). split_and!; [by apply Hin|done|]. intros s' Hs'. apply Hall. by apply Hin.
  - change (fun s => negb (time_After (s_CreatedAt s) timestamp)) with ok.
    destruct (List.find ok (rev l)) as [s|]; [|intros; by apply HF, Hin].
    destruct HF as (? & ? & Hall). split_and!; [by apply Hin|done|]. intros s' Hs'. apply Hall. by apply Hin.
Qed.

(** ** Replaying WAL segments

    The restored database, the WAL file beside it and the handle [f] on it, which
    holds the write offset.  SQLite's checkpoint is a parameter; [read_segment] is
    the decrypted stream of a segment. *)
Section Replay.
Context {DB : Type}.
Variable checkpointV3 : DB -> list byte -> result (DB * list byte).
Variable read_segment : WALSegmentInfoV3 -> result Reader.

Definition ErrInvalid : error := EVar "invalid argument".

Record replay := mkReplay { rp_db : DB; rp_wal : list byte; rp_f : option nat }.

(** Writing at the offset of the handle. *)
Definition write_at (file : list byte) (off : nat) (b : list byte) : list byte :=
  take off file ++ b ++ drop (off + length b) file.

Definition applyLastWalFile (st : replay) : result replay :=
  match rp_f st with
  | None => Ok st
  | Some _ =>
      '(db, wal) ← checkpointV3 (rp_db st) (rp_wal st);
      Ok (mkReplay db wal None)
  end.

(** [io.Copy] into the handle; a nil handle refuses to write. *)
Definition appendWALSegmentV3 (st : replay) (seg : WALSegmentInfoV3) : result replay :=
  rd ← read_segment seg;
  st ← match rp_f st with
       | None => if bool_decide (rd_data rd = []) then Ok st else Err ErrInvalid
       | Some off => Ok (mkReplay (rp_db st) (write_at (rp_wal st) off (rd_data rd)) (Some (off + length (rd_data rd))%nat))
       end;
  match rd_err rd with Some e => Err e | None => Ok st end.

Fixpoint apply_loop (st : replay) (segments : list WALSegmentInfoV3) : result replay :=
  match segments with
  | [] => applyLastWalFile st
  | seg :: segments =>
      st ← (if w_Offset seg =? 0
            then st ← applyLastWalFile st; Ok (mkReplay (rp_db st) (rp_wal st) (Some 0%nat))
            else Ok st);
      st ← appendWALSegmentV3 st seg wrapping "write WAL segment";
      apply_loop st segments
  end.

Definition applyWALSegmentsV3 (st : replay) (segments : list WALSegmentInfoV3) : result replay :=
  if bool_decide (length segments = 0%nat) then Ok st else apply_loop st segments.

(** The segments of one WAL file: the first at offset zero, the others after it. *)
Definition wal_group (g : list WALSegmentInfoV3) : Prop :=
  match g with [] => False | seg :: rest => w_Offset seg = 0 /\ Forall (fun s => w_Offset s <> 0) rest end.

(** Reference: checkpoint the whole WAL files, one after the other. *)
Fixpoint replay_wals (db : DB) (wals : list (list byte)) : result DB :=
  match wals with
  | [] => Ok db
  | w :: wals => '(db, _) ← checkpointV3 db w; replay_wals db wals
  end.

Lemma append_rest data st rest more :
  Forall (fun s => w_Offset s <> 0) rest ->
  (forall s, In s rest -> read_segment s = Ok (mkReader (data s) None)) ->
  rp_f st = Some (length (rp_wal st)) ->
  apply_loop st (rest ++ more) =
  apply_loop (mkReplay (rp_db st) (rp_wal st ++ concat (data <$> rest))
                (Some (length (rp_wal st ++ concat (data <$> rest))))) more.
Proof.
  revert st. induction rest as [|seg rest IH]; intros st HF Hd Hf; cbn [app].
  { rewrite app_nil_r. destruct st; simpl in *. by subst. }
  apply Forall_cons in HF as [Hne HF]. cbn [apply_loop].
  destruct (Z.eqb_spec (w_Offset seg) 0); [done|]. cbn [mbind result_bind].
  unfold appendWALSegmentV3. rewrite (Hd seg) by (by left). cbn [mbind result_bind rd_data rd_err wrap_err].
  rewrite Hf. cbn [mbind result_bind wrap_err].
  assert (write_at (rp_wal st) (length (rp_wal st)) (data seg) = rp_wal st ++ data seg) as ->.
  { unfold write_at. rewrite firstn_all, drop_ge by lia. by rewrite app_nil_r. }
  rewrite IH; [|done|intros; apply Hd; by right|simpl; by rewrite length_app]. simpl.
  by rewrite <- app_assoc.
Qed.

(** The loop on whole groups, from a WAL file that is still open or from none. *)
Lemma apply_loop_groups data groups db w f :
  (forall d w d' w', checkpointV3 d w = Ok (d', w') -> w' = []) ->
  Forall wal_group groups ->
  (forall s, In s (concat groups) -> read_segment s = Ok (mkReader (data s) None)) ->
  (f = None -> w = []) ->
  let pre := match f with Some _ => [w] | None => [] end in
  match apply_loop (mkReplay db w f) (concat groups) with
  | Ok st => replay_wals db (pre ++ ((fun g => concat (data <$> g)) <$> groups)) = Ok (rp_db st) /\ rp_wal st = []
  | Err e => replay_wals db (pre ++ ((fun g => concat (data <$> g)) <$> groups)) = Err e
  | Panic m => replay_wals db (pre ++ ((fun g => concat (data <$> g)) <$> groups)) = Panic m
  end.
Proof.
  intros Htr.
  revert db w f. induction groups as [|g groups IH]; intros db w f HG Hd Hw pre.
  - subst pre. cbn [concat apply_loop]. unfold applyLastWalFile. simpl. destruct f as [o|]; simpl; [|auto].
    destruct (checkpointV3 db w) as [[d' w']|e|m] eqn:HC; simpl; [|done..].
    split; [done|]. by eapply Htr.
  - apply Forall_cons in HG as [Hg HG]. destruct g as [|seg rest]; [done|]. destruct Hg as [H0 Hrest].
    cbn [concat] in *. rewrite <- app_comm_cons. cbn [apply_loop].
    rewrite H0, Z.eqb_refl. unfold applyLastWalFile. cbn [rp_f].
    assert (forall d', match (st ← Ok (mkReplay d' [] (Some 0%nat)); st ← appendWALSegmentV3 st seg wrapping "write WAL segment";
                            apply_loop st (rest ++ concat groups)) with
          | Ok st => replay_wals d' (((fun g => concat (data <$> g)) <$> (seg :: rest) :: groups)) = Ok (rp_db st) /\ rp_wal st = []
          | Err e => replay_wals d' (((fun g => concat (data <$> g)) <$> (seg :: rest) :: groups)) = Err e
          | Panic m => replay_wals d' (((fun g => concat (data <$> g)) <$> (seg :: rest) :: groups)) = Panic m
          end) as Hgroup.
    { intros d'. cbn [mbind result_bind]. unfold appendWALSegmentV3.
      rewrite (Hd seg) by (by left). cbn [mbind result_bind rd_data rd_err wrap_err rp_f rp_wal rp_db].
      unfold write_at. simpl. rewrite drop_nil, app_nil_r.
      rewrite (append_rest data) by (done || (intros s Hs; apply Hd; right; apply in_or_app; by left)).
      apply (IH d' _ (Some _)); [done| |done]. intros s Hs. apply Hd. right. apply in_or_app. by right. }
    subst pre. destruct f as [o|]; cbn [mbind result_bind].
    + cbn [rp_db rp_wal]. cbn [app]. cbn [replay_wals].
      destruct (checkpointV3 db w) as [[d' w']|e|m] eqn:HC; cbn [mbind result_bind]; [|done..].
      rewrite (Htr _ _ _ _ HC). apply Hgroup.
    + rewrite (Hw eq_refl). apply Hgroup.
Qed.

(** Replaying segments rebuilds the WAL files.  When the segments are complete
    WAL files in order, each starting at offset zero, and a checkpoint truncates the
    WAL as its mode says, the database that results is the one obtained by
    checkpointing each concatenated WAL file in turn, errors included. *)
Theorem applyWALSegmentsV3_correct data db groups :
  (forall d w d' w', checkpointV3 d w = Ok (d', w') -> w' = []) ->
  Forall wal_group groups ->
  (forall s, In s (concat groups) -> read_segment s = Ok (mkReader (data s) None)) ->
  match applyWALSegmentsV3 (mkReplay db [] None) (concat groups) with
  | Ok st => replay_wals db ((fun g => concat (data <$> g)) <$> groups) = Ok (rp_db st) /\ rp_wal st = []
  | Err e => replay_wals db ((fun g => concat (data <$> g)) <$> groups) = Err e
  | Panic m => replay_wals db ((fun g => concat (data <$> g)) <$> groups) = Panic m
  end.
Proof.
  intros Htr HG Hd.
  unfold applyWALSegmentsV3. case_bool_decide as Hl.
  - destruct groups as [|g groups]; [done|]. exfalso. apply Forall_cons in HG as [Hg _].
    destruct g; [done|]. simpl in Hl. lia.
  - apply (apply_loop_groups data groups db [] None); done.
Qed.
End Replay.

Lemma filenames_roundtrip_witness :
  ParseWALSegmentFilenameV3 (FormatWALSegmentFilenameV3 26 4152) = Ok (26, 4152).
Proof. apply (filenames_roundtrip 26 4152 []); lia. Defined.

(** A database that collects the WAL files it was given. *)
Definition demo_checkpoint (db : list (list byte)) (w : list byte) : result (list (list byte) * list byte) :=
  Ok (db ++ [w], []).
Definition demo_segment (index offset : Z) : WALSegmentInfoV3 := mkSegmentV3 "0000000000000001" index offset 1 0.
Definition demo_segment_data (s : WALSegmentInfoV3) : list byte := [Zbyte (w_Index s); Zbyte (w_Offset s)].

Lemma applyWALSegmentsV3_correct_witness :
  exists st, applyWALSegmentsV3 demo_checkpoint (fun s => Ok (mkReader (demo_segment_data s) None)) (mkReplay [] [] None)
      [demo_segment 1 0; demo_segment 1 2; demo_segment 2 0] = Ok st /\
    replay_wals demo_checkpoint [] [[x01; x00; x01; x02]; [x02; x00]] = Ok (rp_db st) /\ rp_wal st = [].
Proof.
  eexists. split; [vm_compute; reflexivity|].
  refine (applyWALSegmentsV3_correct demo_checkpoint (fun s => Ok (mkReader (demo_segment_data s) None))
    demo_segment_data [] [[demo_segment 1 0; demo_segment 1 2]; [demo_segment 2 0]] _ _ _).
  - intros d w d' w' Hc. injection Hc as _ <-. reflexivity.
  - repeat constructor; discriminate.
  - reflexivity.
Defined.
