(* ===== verification/Leaser.v ===== *)
(** * Leases

    Models of src/leaser.go, src/s3/leaser.go and src/file/leaser.go: the lease
    record, the two leasers as functions on the lock object, and the concurrent
    systems in which several processes run them, as step relations.  The S3 leaser,
    whose writes are conditional, excludes concurrent holders; the file leaser,
    whose check and rename are separate steps, does not. *)

From Stdlib Require Import ZArith Lia.
From stdpp Require Import base numbers list strings gmap sorting relations functions countable pretty.
From S2P Require Import Prelude.
Local Open Scope Z_scope.

Definition ErrLeaseNotHeld : error := EVar "lease not held".
Definition ErrLeaseRequired : error := EVar "lease required".
Definition ErrLeaseETagRequired : error := EVar "lease etag required".
Definition ErrLeaseAlreadyReleased : error := EVar "lease already released".
Definition ErrTTLExceedsMax : error := EVar "requested lease TTL exceeds MaxTTL".
Definition ErrLeaseCorrupt : error := EVar "on-disk lease ExpiresAt exceeds MaxTTL".

Definition DefaultLeaseTTL : duration := 30 * Second.
Definition DefaultLeaseMaxTTL : duration := 30 * Second.

(** The JSON body of a lock object; the ETag of a [Lease] is not part of it. *)
Record body := mkBody { Generation : Z; ExpiresAt : time; Owner : string }.

Record Lease := mkLease { lease_body : body; ETag : string }.

#[export] Instance body_eq_dec : EqDecision body.
Proof. solve_decision. Defined.

Definition IsExpired (l : body) (now : time) : bool := time_After now (ExpiresAt l).

(** [time.Until(l.ExpiresAt)]. *)
Definition TTL_left (l : body) (now : time) : duration := ExpiresAt l - now.

(** The settings both leasers have. *)
Record Leaser := mkLeaser { TTL : duration; MaxTTL : duration; l_Owner : string }.

Definition maxTTL (l : Leaser) : duration := if MaxTTL l <=? 0 then DefaultLeaseMaxTTL else MaxTTL l.

(** ** The S3 leaser *)
Module S3Lease.

(** The errors of the S3 client, as the code tells them apart. *)
Inductive S3Error : Type :=
| APIError (code : string)
| NoSuchKey
| OperationError (status : option Z)
| OtherError (e : error).

Definition isPreconditionFailed (err : S3Error) : bool :=
  match err with
  | APIError code => bool_decide (code = "PreconditionFailed") || bool_decide (code = "412")
  | OperationError (Some status) => status =? 412
  | _ => false
  end.

Definition isNotFoundError (err : S3Error) : bool :=
  match err with
  | APIError code =>
      bool_decide (code = "NoSuchKey") || bool_decide (code = "NotFound") || bool_decide (code = "404")
  | NoSuchKey => true
  | OperationError (Some status) => status =? 404
  | _ => false
  end.

Definition isNotExists (err : S3Error) : bool :=
  match err with APIError code => bool_decide (code = "NoSuchKey") | _ => false end.

Definition s3_error (err : S3Error) : error :=
  match err with
  | APIError code => EMsg code
  | NoSuchKey => EMsg "NoSuchKey"
  | OperationError _ => EMsg "operation error"
  | OtherError e => e
  end.

(** The condition of a [PutObject]: [If-None-Match: *] or [If-Match: etag]. *)
Inductive condition : Type := IfNoneMatch | IfMatch (etag : string).

(** The S3 service, on the lock object of one key.  The laws are the documented
    behaviour of conditional requests: a request whose condition fails changes
    nothing; the entity tag of an object identifies its contents. *)
Class S3API := {
  GetObject : option body -> (body * option string) + S3Error;
  PutObject : option body -> body -> condition -> option body * (option string + S3Error);
  DeleteObject : option body -> string -> option body * option S3Error;
  etag_of : body -> string;
  etag_inj : Inj (=) (=) etag_of;
  etag_nonempty b : etag_of b <> "";
  get_present b : GetObject (Some b) = inl (b, Some (etag_of b));
  get_absent : exists err, GetObject None = inr err /\ isNotExists err || isNotFoundError err = true;
  put_spec obj lease cond :
    let holds := match cond, obj with
                 | IfNoneMatch, None => True
                 | IfMatch etag, Some b => etag_of b = etag
                 | _, _ => False
                 end in
    (holds /\ PutObject obj lease cond = (Some lease, inl (Some (etag_of lease)))) \/
    (~ holds /\ exists err, PutObject obj lease cond = (obj, inr err) /\ isPreconditionFailed err = true);
  delete_spec obj etag :
    match obj with
    | None => exists err, DeleteObject obj etag = (obj, Some err) /\ isNotExists err || isNotFoundError err = true
    | Some b =>
        (etag_of b = etag /\ DeleteObject obj etag = (None, None)) \/
        (etag_of b <> etag /\ exists err, DeleteObject obj etag = (obj, Some err) /\
          isNotExists err || isNotFoundError err = false /\ isPreconditionFailed err = true)
    end
}.

Section S3Lease.
Context `{S3API}.

(** A nil [ETag] pointer of a response is read as the empty string. *)
Definition readLease (obj : option body) : result Lease :=
  match GetObject obj with
  | inr err => if isNotExists err || isNotFoundError err then Err ErrNotExist
               else Err (EWrap "get lock file" (s3_error err))
  | inl (lease, etag) => Ok (mkLease lease (default "" etag))
  end.

Definition writeLease (obj : option body) (lease : body) (etag : string) : option body * result string :=
  let cond := if bool_decide (etag = "") then IfNoneMatch else IfMatch etag in
  match PutObject obj lease cond with
  | (obj, inr err) => (obj, if isPreconditionFailed err then Err (ELeaseExists "" 0)
                            else Err (EWrap "put lock file" (s3_error err)))
  | (obj, inl etag) => (obj, Ok (default "" etag))
  end.

(** What [AcquireLease] decides on the lease it read: refuse, or write the next
    generation on the condition that the object is unchanged. *)
Definition acquire_decide (read : result Lease) (now : time) : result (Z * string) :=
  match read with
  | Err e => if errors_Is e ErrNotExist then Ok (1, "") else Err (EWrap "read existing lease" e)
  | Panic m => Panic m
  | Ok existing =>
      if negb (IsExpired (lease_body existing) now)
      then Err (ELeaseExists (Owner (lease_body existing)) (ExpiresAt (lease_body existing)))
      else Ok (Generation (lease_body existing) + 1, ETag existing)
  end.

(** The result of the write: the lease, or the lease now in place. *)
Definition acquire_finish (newLease : body) (written : result string) (obj : option body) : result Lease :=
  match written with
  | Ok etag => Ok (mkLease newLease etag)
  | Panic m => Panic m
  | Err (ELeaseExists o x) =>
      match readLease obj with
      | Ok current => Err (ELeaseExists (Owner (lease_body current)) (ExpiresAt (lease_body current)))
      | _ => Err (ELeaseExists o x)
      end
  | Err e => Err e
  end.

(** [AcquireLease] without interference. *)
Definition AcquireLease (l : Leaser) (obj : option body) (now : time) : option body * result Lease :=
  match acquire_decide (readLease obj) now with
  | Err e => (obj, Err e)
  | Panic m => (obj, Panic m)
  | Ok (generation, etag) =>
      let newLease := mkBody generation (now + TTL l) (l_Owner l) in
      let '(obj, written) := writeLease obj newLease etag in
      (obj, acquire_finish newLease written obj)
  end.

Definition RenewLease (l : Leaser) (obj : option body) (now : time) (lease : option Lease)
    : option body * result Lease :=
  match lease with
  | None => (obj, Err ErrLeaseRequired)
  | Some lease =>
      if bool_decide (ETag lease = "") then (obj, Err ErrLeaseETagRequired) else
      let newLease := mkBody (Generation (lease_body lease)) (now + TTL l) (l_Owner l) in
      match writeLease obj newLease (ETag lease) with
      | (obj, Ok etag) => (obj, Ok (mkLease newLease etag))
      | (obj, Err (ELeaseExists _ _)) => (obj, Err ErrLeaseNotHeld)
      | (obj, Err e) => (obj, Err e)
      | (obj, Panic m) => (obj, Panic m)
      end
  end.

Definition ReleaseLease (obj : option body) (lease : option Lease) : option body * option error :=
  match lease with
  | None => (obj, Some ErrLeaseRequired)
  | Some lease =>
      if bool_decide (ETag lease = "") then (obj, Some ErrLeaseETagRequired) else
      match DeleteObject obj (ETag lease) with
      | (obj, Some err) =>
          (obj, Some (if isNotExists err || isNotFoundError err then ErrLeaseAlreadyReleased
                      else if isPreconditionFailed err then ErrLeaseNotHeld
                      else EWrap "delete lease" (s3_error err)))
      | (obj, None) => (obj, None)
      end
  end.

(** *** Several processes

    A process is idle, or between the read, the computation of the new lease and
    the write of an acquisition, or before the write of a renewal; [held] is the
    lease it was last given. *)
Inductive phase : Type :=
| Idle
| AcqDecided (generation : Z) (etag : string)
| AcqReady (newLease : body) (etag : string)
| RenewReady (newLease : body) (etag : string).

Record proc := mkProc { p_phase : phase; held : option Lease }.

Record sys := mkSys { now : time; obj : option body; procs : nat -> proc }.

(** The settings of each process. *)
Variable cfg : nat -> Leaser.

Inductive step : sys -> sys -> Prop :=
| step_tick s t : now s <= t -> step s (mkSys t (obj s) (procs s))
| step_acquire_read s c gen etag :
    p_phase (procs s c) = Idle -> acquire_decide (readLease (obj s)) (now s) = Ok (gen, etag) ->
    step s (mkSys (now s) (obj s) (<[c := mkProc (AcqDecided gen etag) (held (procs s c))]> (procs s)))
| step_acquire_prepare s c gen etag :
    p_phase (procs s c) = AcqDecided gen etag ->
    step s (mkSys (now s) (obj s)
      (<[c := mkProc (AcqReady (mkBody gen (now s + TTL (cfg c)) (l_Owner (cfg c))) etag) (held (procs s c))]> (procs s)))
| step_acquire_write s c l etag obj' w :
    p_phase (procs s c) = AcqReady l etag -> writeLease (obj s) l etag = (obj', w) ->
    step s (mkSys (now s) obj'
      (<[c := mkProc Idle (match acquire_finish l w obj' with Ok lease => Some lease | _ => held (procs s c) end)]> (procs s)))
  (* the response of a write is lost: the process keeps what it had, or gives it up *)
| step_write_lost s c l etag obj' w h :
    p_phase (procs s c) = AcqReady l etag \/ p_phase (procs s c) = RenewReady l etag ->
    writeLease (obj s) l etag = (obj', w) -> h = held (procs s c) \/ h = None ->
    step s (mkSys (now s) obj' (<[c := mkProc Idle h]> (procs s)))
  (* a request fails before it reaches the object *)
| step_failed s c :
    step s (mkSys (now s) (obj s) (<[c := mkProc Idle (held (procs s c))]> (procs s)))
| step_renew_prepare s c lease :
    p_phase (procs s c) = Idle -> held (procs s c) = Some lease -> ETag lease <> "" ->
    step s (mkSys (now s) (obj s)
      (<[c := mkProc (RenewReady (mkBody (Generation (lease_body lease)) (now s + TTL (cfg c)) (l_Owner (cfg c))) (ETag lease))
                (held (procs s c))]> (procs s)))
| step_renew_write s c l etag obj' w :
    p_phase (procs s c) = RenewReady l etag -> writeLease (obj s) l etag = (obj', w) ->
    step s (mkSys (now s) obj'
      (<[c := mkProc Idle (match w with Ok etag => Some (mkLease l etag) | _ => None end)]> (procs s)))
| step_release s c obj' err :
    p_phase (procs s c) = Idle -> ReleaseLease (obj s) (held (procs s c)) = (obj', err) ->
    step s (mkSys (now s) obj' (<[c := mkProc Idle None]> (procs s))).

Definition init (t : time) (o : option body) : sys := mkSys t o (fun _ => mkProc Idle None).

(** *** Mutual exclusion *)
Hypothesis owners : Inj (=) (=) (fun c => l_Owner (cfg c)).

(** What each phase has established: the tag of an acquisition belongs to an
    expired lease, the tag of a renewal to a lease of the same owner. *)
Definition expired_tag (s : sys) (etag : string) : Prop :=
  etag = "" \/ exists b, etag = etag_of b /\ ExpiresAt b < now s.

Definition own_lease (s : sys) (c : nat) (l : body) : Prop :=
  Owner l = l_Owner (cfg c) /\ ExpiresAt l <= now s + TTL (cfg c).

Definition phase_ok (s : sys) (c : nat) (p : phase) : Prop :=
  match p with
  | Idle => True
  | AcqDecided _ etag => expired_tag s etag
  | AcqReady l etag => own_lease s c l /\ expired_tag s etag
  | RenewReady l etag =>
      own_lease s c l /\ (exists b, etag = etag_of b /\ Owner b = l_Owner (cfg c)) /\
      forall lease, held (procs s c) = Some lease -> ExpiresAt (lease_body lease) <= ExpiresAt l
  end.

(** Process [c] believes it holds a lease that has not expired. *)
Definition holds (s : sys) (c : nat) : Prop :=
  exists lease, held (procs s c) = Some lease /\ now s <= ExpiresAt (lease_body lease).

Record inv (s : sys) : Prop := {
  inv_held : forall c lease, held (procs s c) = Some lease ->
    own_lease s c (lease_body lease) /\ ETag lease = etag_of (lease_body lease);
  (** the lock object of an unexpired lease is its owner's, and lasts as long *)
  inv_obj : forall c lease, held (procs s c) = Some lease -> now s <= ExpiresAt (lease_body lease) ->
    exists b, obj s = Some b /\ Owner b = l_Owner (cfg c) /\ ExpiresAt (lease_body lease) <= ExpiresAt b;
  inv_phase : forall c, phase_ok s c (p_phase (procs s c))
}.

Lemma inv_init t o : inv (init t o).
Proof. by split. Qed.

(** The outcome of a conditional write. *)
Lemma writeLease_cases o l etag o' w :
  writeLease o l etag = (o', w) ->
  let cond := if bool_decide (etag = "") then o = None else match o with Some b => etag_of b = etag | None => False end in
  (w = Ok (etag_of l) /\ o' = Some l /\ cond) \/ (o' = o /\ w = Err (ELeaseExists "" 0) /\ ~ cond).
Proof.
  unfold writeLease. pose proof (put_spec o l (if bool_decide (etag = "") then IfNoneMatch else IfMatch etag)) as Hput.
  revert Hput. case_bool_decide as E1; simpl; intros [[Hc ->]|(Hc & err & -> & ->)] [= <- <-]; simpl; auto.
  - left. by destruct o.
  - right. split_and!; auto. intros ->. by apply Hc.
Qed.

(** A conditional write that succeeds found no object, or the one of its tag. *)
Lemma writeLease_ok o l etag o' w :
  writeLease o l etag = (o', w) ->
  (w = Ok (etag_of l) /\ o' = Some l /\ (etag = "" /\ o = None \/ exists b, o = Some b /\ etag = etag_of b)) \/
  (o' = o /\ w = Err (ELeaseExists "" 0)).
Proof.
  intros [(-> & -> & Hc)|(-> & -> & _)]%writeLease_cases; [left|by right]. revert Hc.
  case_bool_decide; [by auto|]. destruct o as [b|]; [|done]. eauto 10.
Qed.

(** A release removes the object of its tag, or leaves it alone. *)
Lemma ReleaseLease_cases o lease o' err :
  ReleaseLease o lease = (o', err) ->
  o' = o \/ exists b l, o = Some b /\ lease = Some l /\ etag_of b = ETag l /\ o' = None.
Proof.
  unfold ReleaseLease. destruct lease as [l|]; [|intros [= <- _]; auto].
  case_bool_decide; [intros [= <- _]; auto|]. pose proof (delete_spec o (ETag l)) as Hdel.
  destruct o as [b|].
  - destruct Hdel as [[E ->]|(_ & e & -> & _)]; intros [= <- _]; eauto 10.
  - destruct Hdel as (e & -> & _). intros [= <- _]; auto.
Qed.

Lemma readLease_spec o :
  match o with
  | Some b => readLease o = Ok (mkLease b (etag_of b))
  | None => readLease o = Err ErrNotExist
  end.
Proof.
  unfold readLease. destruct o as [b|]; [by rewrite get_present|].
  destruct get_absent as (err & -> & ->). done.
Qed.

(** A phase stays justified as time passes and other processes move. *)
Lemma phase_ok_mono s t o ps c :
  now s <= t -> held (ps c) = held (procs s c) -> phase_ok s c (p_phase (procs s c)) ->
  phase_ok (mkSys t o ps) c (p_phase (procs s c)).
Proof.
  intros Ht Hh. assert (forall etag, expired_tag s etag -> expired_tag (mkSys t o ps) etag) as He.
  { intros etag [?|(b & ? & ?)]; [by left|right; exists b; simpl; split; [done|lia]]. }
  assert (forall l, own_lease s c l -> own_lease (mkSys t o ps) c l) as Ho.
  { intros l [? ?]. split; simpl; [done|lia]. }
  destruct (p_phase (procs s c)); simpl; [done|auto|intros [? ?]; auto|].
  rewrite Hh. intros (? & ? & ?). auto.
Qed.

(** The shape of every step of process [c]: it replaces its own state. *)
Lemma inv_update s c o' p h :
  inv s -> (forall lease, h = Some lease -> own_lease s c (lease_body lease) /\ ETag lease = etag_of (lease_body lease)) ->
  (forall lease, h = Some lease -> now s <= ExpiresAt (lease_body lease) ->
     exists b, o' = Some b /\ Owner b = l_Owner (cfg c) /\ ExpiresAt (lease_body lease) <= ExpiresAt b) ->
  (forall c' , c' <> c -> holds s c' -> o' = obj s) ->
  phase_ok (mkSys (now s) o' (<[c := mkProc p h]> (procs s))) c p ->
  inv (mkSys (now s) o' (<[c := mkProc p h]> (procs s))).
Proof.
  intros [Hheld Hobj Hph] Hh Ho Hother Hp. split; simpl.
  - intros c' lease. destruct (decide (c' = c)) as [->|Hne];
      [rewrite fn_lookup_insert|rewrite fn_lookup_insert_ne by done]; simpl; [apply Hh|apply Hheld].
  - intros c' lease. destruct (decide (c' = c)) as [->|Hne];
      [rewrite fn_lookup_insert|rewrite fn_lookup_insert_ne by done]; simpl; [apply Ho|].
    intros Hl Hle. rewrite (Hother c' Hne); [by apply Hobj|]. by exists lease.
  - intros c'. destruct (decide (c' = c)) as [->|Hne].
    + rewrite fn_lookup_insert. done.
    + rewrite fn_lookup_insert_ne by done. apply phase_ok_mono; [lia| |apply Hph].
      by rewrite fn_lookup_insert_ne.
Qed.

(** A write conditional on an expired lease succeeds only when nobody holds one. *)
Lemma expired_write_excludes s l etag o' :
  inv s -> expired_tag s etag -> writeLease (obj s) l etag = (o', Ok (etag_of l)) -> forall c, ~ holds s c.
Proof.
  intros HI He HW c (lease & Hl & Hle). destruct (inv_obj s HI c lease Hl Hle) as (b & Hb & _ & Hexp).
  apply writeLease_ok in HW as [(_ & _ & [[_ Hn]|(b' & Hb' & Etag)])|[_ ?]]; [congruence| |done].
  destruct He as [->|(b0 & Eb0 & Hb0)]; [by apply (etag_nonempty b')|].
  rewrite Hb in Hb'. injection Hb' as <-. rewrite Eb0 in Etag. apply etag_inj in Etag. subst b0. lia.
Qed.

(** A write conditional on one's own lease succeeds only when no other process holds one. *)
Lemma own_write_excludes s c l b o' :
  inv s -> Owner b = l_Owner (cfg c) -> writeLease (obj s) l (etag_of b) = (o', Ok (etag_of l)) ->
  forall c', c' <> c -> ~ holds s c'.
Proof.
  intros HI Hb HW c' Hne (lease & Hl & Hle). destruct (inv_obj s HI c' lease Hl Hle) as (b1 & Hb1 & Ho & _).
  apply writeLease_ok in HW as [(_ & _ & [[E _]|(b' & Hb' & Etag)])|[_ ?]]; [by apply etag_nonempty in E| |done].
  rewrite Hb1 in Hb'. injection Hb' as <-. apply etag_inj in Etag. subst b1.
  apply Hne, owners. simpl. congruence.
Qed.

(** A write that fails leaves the object alone. *)
Lemma write_or_same o l etag o' w :
  writeLease o l etag = (o', w) -> (w = Ok (etag_of l) /\ o' = Some l) \/ (o' = o /\ w = Err (ELeaseExists "" 0)).
Proof. intros [(? & ? & _)|?]%writeLease_ok; auto. Qed.

Lemma acquire_decide_tag s gen etag :
  acquire_decide (readLease (obj s)) (now s) = Ok (gen, etag) -> expired_tag s etag.
Proof.
  pose proof (readLease_spec (obj s)) as HR. destruct (obj s) as [b|]; rewrite HR; simpl.
  - unfold IsExpired, time_After. destruct (Z.ltb_spec (ExpiresAt b) (now s)); simpl; intros [= <- <-].
    right. eauto.
  - intros [= <- <-]. by left.
Qed.

(** Writing a process's new lease, whatever the process then believes. *)
Lemma inv_write s c l etag o' w h :
  inv s -> own_lease s c l -> (forall c', c' <> c -> w = Ok (etag_of l) -> ~ holds s c') ->
  (forall lease, held (procs s c) = Some lease -> w = Ok (etag_of l) -> now s <= ExpiresAt (lease_body lease) ->
     ExpiresAt (lease_body lease) <= ExpiresAt l) ->
  writeLease (obj s) l etag = (o', w) ->
  h = held (procs s c) \/ h = None \/ (w = Ok (etag_of l) /\ h = Some (mkLease l (etag_of l))) ->
  inv (mkSys (now s) o' (<[c := mkProc Idle h]> (procs s))).
Proof.
  intros HI Hl Hex Hown HW Hh. pose proof (write_or_same _ _ _ _ _ HW) as Hw.
  apply inv_update; [done| | | |done].
  - intros lease ->. destruct Hh as [E|[?|[_ E]]]; [by apply (inv_held s HI)|done|]. by injection E as ->.
  - intros lease -> Hle. destruct Hh as [E|[?|[Ew E]]]; [|done|].
    + destruct Hw as [[Ew ->]|[-> _]]; [|by apply (inv_obj s HI)]. exists l.
      destruct Hl as [? _]. split_and!; [done|done|by eapply Hown].
    + injection E as ->. destruct Hw as [[_ ->]|[_ Ew']]; [|congruence]. exists l.
      destruct Hl as [? _]. split_and!; [done|done|simpl; lia].
  - intros c' Hne Hho. destruct Hw as [[Ew _]|[-> _]]; [|done]. by destruct (Hex c' Hne Ew).
Qed.

Lemma inv_step s s' : inv s -> step s s' -> inv s'.
Proof.
  intros HI Hstep. pose proof HI as [Hheld Hobj Hph].
  destruct Hstep as [s t Ht|s c gen etag Hp Hd|s c gen etag Hp|s c l etag o' w Hp HW
                    |s c l etag o' w h Hp HW Hh|s c|s c lease Hp Hl Htag|s c l etag o' w Hp HW|s c o' err Hp HR].
  - split; simpl.
    + intros c lease Hl. destruct (Hheld c lease Hl) as [[? ?] ?]. split; [|done]. split; simpl; [done|lia].
    + intros c lease Hl Hle. apply Hobj; [done|lia].
    + intros c. by apply phase_ok_mono.
  - apply inv_update; auto. simpl. by apply acquire_decide_tag in Hd.
  - pose proof (Hph c) as Hc. rewrite Hp in Hc. apply inv_update; auto. simpl. split; [|done].
    split; simpl; [done|lia].
  - pose proof (Hph c) as Hc. rewrite Hp in Hc. destruct Hc as [Hl He].
    eapply inv_write; eauto.
    + intros c' _ ->. by eapply expired_write_excludes.
    + intros lease Hle -> Hnow. exfalso. eapply expired_write_excludes; eauto. by exists lease.
    + destruct (write_or_same _ _ _ _ _ HW) as [[-> ->]|[-> ->]]; simpl; [by right; right|].
      destruct (readLease (obj s)); by left.
  - destruct Hp as [Hp|Hp]; pose proof (Hph c) as Hc; rewrite Hp in Hc.
    + destruct Hc as [Hl He]. eapply inv_write; eauto; [| |tauto].
      * intros c' _ ->. by eapply expired_write_excludes.
      * intros lease Hle -> Hnow. exfalso. eapply expired_write_excludes; eauto. by exists lease.
    + destruct Hc as (Hl & (b & -> & Hb) & Hle). eapply inv_write; eauto; [|tauto].
      intros c' Hne ->. by eapply own_write_excludes.
  - apply inv_update; auto. done.
  - apply inv_update; auto. destruct (Hheld c lease Hl) as [[Ho Hx] Et]. simpl. split; [|split].
    + split; simpl; [done|lia].
    + exists (lease_body lease). done.
    + rewrite fn_lookup_insert. simpl. intros lease' Hl'. rewrite Hl in Hl'. injection Hl' as <-. done.
  - pose proof (Hph c) as Hc. rewrite Hp in Hc. destruct Hc as (Hl & (b & -> & Hb) & Hle).
    eapply inv_write; eauto.
    + intros c' Hne ->. by eapply own_write_excludes.
    + destruct (write_or_same _ _ _ _ _ HW) as [[-> ->]|[-> ->]]; auto.
  - apply inv_update; auto; [done|done| |done]. intros c' Hne (lease' & Hl' & Hle').
    apply ReleaseLease_cases in HR as [->|(b & l & Hb & Hl & Et & ->)]; [done|]. exfalso.
    destruct (Hheld c l Hl) as [[Ho _] Et']. destruct (Hobj c' lease' Hl' Hle') as (b' & Hb' & Hob & _).
    rewrite Hb in Hb'. injection Hb' as <-. rewrite Et' in Et. apply etag_inj in Et. subst b.
    apply Hne, owners. simpl. congruence.
Qed.

(** C16: mutual exclusion of the S3 leaser.  In any interleaving of acquisitions,
    renewals and releases by any number of processes, with requests that fail and
    responses that are lost, no two processes ever hold an unexpired lease. *)
Theorem s3_mutual_exclusion t o s c1 c2 :
  rtc step (init t o) s -> holds s c1 -> holds s c2 -> c1 = c2.
Proof.
  intros HR. assert (inv s) as HI.
  { remember (init t o) as s0 eqn:E. assert (inv s0) as H0 by (rewrite E; apply inv_init). clear E.
    induction HR; [done|]. apply IHHR. by eapply inv_step. }
  intros (l1 & H1 & Hx1) (l2 & H2 & Hx2).
  destruct (inv_obj s HI c1 l1 H1 Hx1) as (b1 & Hb1 & Ho1 & _).
  destruct (inv_obj s HI c2 l2 H2 Hx2) as (b2 & Hb2 & Ho2 & _).
  rewrite Hb1 in Hb2. injection Hb2 as <-. apply owners. simpl. congruence.
Qed.
End S3Lease.

(** A service that satisfies the laws: the tag of an object is a numeral of its
    encoding. *)
Definition demo_etag (b : body) : string :=
  "e" +:+ pretty (N.pos (encode (Generation b, ExpiresAt b, Owner b))).

Lemma demo_etag_inj : Inj (=) (=) demo_etag.
Proof.
  intros [g1 x1 o1] [g2 x2 o2] [= E]. apply pretty_N_inj in E. injection E as E. apply encode_inj in E. simpl in E. congruence.
Qed.

Definition demo_put (obj : option body) (lease : body) (cond : condition) : option body * (option string + S3Error) :=
  let ok := match cond, obj with
            | IfNoneMatch, None => true
            | IfMatch etag, Some b => bool_decide (demo_etag b = etag)
            | _, _ => false
            end in
  if ok then (Some lease, inl (Some (demo_etag lease))) else (obj, inr (APIError "PreconditionFailed")).

Definition demo_delete (obj : option body) (etag : string) : option body * option S3Error :=
  match obj with
  | None => (None, Some NoSuchKey)
  | Some b => if bool_decide (demo_etag b = etag) then (None, None) else (obj, Some (APIError "412"))
  end.

Lemma demo_put_spec obj lease cond :
  let holds := match cond, obj with
               | IfNoneMatch, None => True
               | IfMatch etag, Some b => demo_etag b = etag
               | _, _ => False
               end in
  (holds /\ demo_put obj lease cond = (Some lease, inl (Some (demo_etag lease)))) \/
  (~ holds /\ exists err, demo_put obj lease cond = (obj, inr err) /\ isPreconditionFailed err = true).
Proof.
  unfold demo_put. destruct cond as [|etag], obj as [b|]; simpl; eauto 10. case_bool_decide; eauto 10.
Qed.

Lemma demo_delete_spec obj etag :
  match obj with
  | None => exists err, demo_delete obj etag = (obj, Some err) /\ isNotExists err || isNotFoundError err = true
  | Some b =>
      (demo_etag b = etag /\ demo_delete obj etag = (None, None)) \/
      (demo_etag b <> etag /\ exists err, demo_delete obj etag = (obj, Some err) /\
        isNotExists err || isNotFoundError err = false /\ isPreconditionFailed err = true)
  end.
Proof. unfold demo_delete. destruct obj as [b|]; [|by eauto]. case_bool_decide; [by left|right; eauto 10]. Qed.

Definition demo_s3 : S3API := {|
  GetObject := fun obj => match obj with Some b => inl (b, Some (demo_etag b)) | None => inr NoSuchKey end;
  PutObject := demo_put; DeleteObject := demo_delete; etag_of := demo_etag;
  etag_inj := demo_etag_inj; etag_nonempty := fun b => ltac:(done); get_present := fun b => eq_refl;
  get_absent := ex_intro _ NoSuchKey (conj eq_refl eq_refl);
  put_spec := demo_put_spec; delete_spec := demo_delete_spec |}.

Definition demo_cfg (c : nat) : Leaser := mkLeaser (30 * Second) 0 (pretty c).

Lemma demo_owners : Inj (=) (=) (fun c => l_Owner (demo_cfg c)).
Proof. intros c1 c2 E. simpl in E. by apply (inj pretty) in E. Qed.

(** Process 0 acquires the free lock at time 5. *)
Definition demo_lease : body := mkBody 1 (5 + 30 * Second) (pretty 0%nat).

Definition demo_sys : sys :=
  mkSys 5 (Some demo_lease)
    (<[0%nat := mkProc Idle (Some (mkLease demo_lease (demo_etag demo_lease)))]>
      (<[0%nat := mkProc (AcqReady demo_lease "") None]>
        (<[0%nat := mkProc (AcqDecided 1 "") None]> (fun _ => mkProc Idle None)))).

Lemma demo_run : rtc (@step demo_s3 demo_cfg) (init 5 None) demo_sys.
Proof.
  eapply rtc_l; [apply (@step_acquire_read demo_s3 demo_cfg _ 0%nat 1 ""); done|].
  eapply rtc_l; [apply (@step_acquire_prepare demo_s3 demo_cfg _ 0%nat 1 ""); done|].
  eapply rtc_l; [|apply rtc_refl]. cbn.
  eapply (@step_acquire_write demo_s3 demo_cfg (mkSys 5 None _) 0%nat demo_lease "" (Some demo_lease)
    (Ok (demo_etag demo_lease))); done.
Qed.

Lemma s3_mutual_exclusion_witness :
  holds demo_sys 0 /\ forall c, holds demo_sys c -> c = 0%nat.
Proof.
  split.
  - exists (mkLease demo_lease (demo_etag demo_lease)). split; [reflexivity|]. simpl. unfold Second. lia.
  - intros c Hc. apply (@s3_mutual_exclusion demo_s3 demo_cfg demo_owners 5 None demo_sys c 0 demo_run Hc).
    exists (mkLease demo_lease (demo_etag demo_lease)). split; [reflexivity|]. simpl. unfold Second. lia.
Defined.
End S3Lease.


(** ** The file leaser *)
Module FileLease.
Section FileLease.

(** The bytes of a lock file: empty, between its creation and the first write, or
    the JSON of a lease. *)
Inductive content : Type := Empty | JSON (b : body).

(** The hexadecimal SHA-256 digest of the bytes of a lock file. *)
Variable contentETag : content -> string.

Definition readLease (l : Leaser) (file : option content) (now : time) : result Lease :=
  match file with
  | None => Err ErrNotExist
  | Some Empty => Err (EWrap "decode lease" (EMsg "unexpected end of JSON input"))
  | Some (JSON b) =>
      if negb (time_IsZero (ExpiresAt b)) && (maxTTL l <? TTL_left b now)
      then Err (EWrap "expires_at" ErrLeaseCorrupt)
      else Ok (mkLease b (contentETag (JSON b)))
  end.

(** The exclusive creation of the lock file, which leaves it empty. *)
Definition create_excl (file : option content) : option content * result () :=
  match file with
  | Some _ => (file, Err (ELeaseExists "" 0))
  | None => (Some Empty, Ok ())
  end.

(** The comparison that precedes the rename of the temporary file. *)
Definition check_etag (file : option content) (etag : string) : result () :=
  match file with
  | None => Err (ELeaseExists "" 0)
  | Some current => if bool_decide (contentETag current = etag) then Ok () else Err (ELeaseExists "" 0)
  end.

(** [writeLease] when nothing runs between its steps. *)
Definition writeLease (file : option content) (lease : body) (etag : string) : option content * result string :=
  if bool_decide (etag = "") then
    match create_excl file with
    | (file, Err e) => (file, Err e)
    | (file, Panic m) => (file, Panic m)
    | (_, Ok _) => (Some (JSON lease), Ok (contentETag (JSON lease)))
    end
  else
    match check_etag file etag with
    | Err e => (file, Err e)
    | Panic m => (file, Panic m)
    | Ok _ => (Some (JSON lease), Ok (contentETag (JSON lease)))
    end.

Definition acquire_decide (l : Leaser) (file : option content) (now : time) : result (Z * string) :=
  if maxTTL l <? TTL l then Err (EWrap "TTL" ErrTTLExceedsMax) else
  match readLease l file now with
  | Err e => if errors_Is e ErrNotExist then Ok (1, "") else Err (EWrap "read existing lease" e)
  | Panic m => Panic m
  | Ok existing =>
      if negb (IsExpired (lease_body existing) now)
      then Err (ELeaseExists (Owner (lease_body existing)) (ExpiresAt (lease_body existing)))
      else Ok (Generation (lease_body existing) + 1, ETag existing)
  end.

Definition acquire_finish (l : Leaser) (newLease : body) (written : result string) (file : option content) (now : time)
    : result Lease :=
  match written with
  | Ok etag => Ok (mkLease newLease etag)
  | Panic m => Panic m
  | Err (ELeaseExists o x) =>
      match readLease l file now with
      | Ok current => Err (ELeaseExists (Owner (lease_body current)) (ExpiresAt (lease_body current)))
      | _ => Err (ELeaseExists o x)
      end
  | Err e => Err e
  end.

Definition AcquireLease (l : Leaser) (file : option content) (now : time) : option content * result Lease :=
  match acquire_decide l file now with
  | Err e => (file, Err e)
  | Panic m => (file, Panic m)
  | Ok (generation, etag) =>
      let newLease := mkBody generation (now + TTL l) (l_Owner l) in
      let '(file, written) := writeLease file newLease etag in
      (file, acquire_finish l newLease written file now)
  end.

(** The guards of [RenewLease]. *)
Definition renew_decide (l : Leaser) (file : option content) (now : time) (lease : option Lease) : result Lease :=
  match lease with
  | None => Err ErrLeaseRequired
  | Some lease =>
      if bool_decide (ETag lease = "") then Err ErrLeaseETagRequired else
      if maxTTL l <? TTL l then Err (EWrap "TTL" ErrTTLExceedsMax) else
      match readLease l file now with
      | Err e => if errors_Is e ErrNotExist then Err ErrLeaseNotHeld else Err (EWrap "read existing lease" e)
      | Panic m => Panic m
      | Ok existing =>
          if bool_decide (Owner (lease_body existing) = l_Owner l) then Ok lease else Err ErrLeaseNotHeld
      end
  end.

Definition RenewLease (l : Leaser) (file : option content) (now : time) (lease : option Lease)
    : option content * result Lease :=
  match renew_decide l file now lease with
  | Err e => (file, Err e)
  | Panic m => (file, Panic m)
  | Ok lease =>
      let newLease := mkBody (Generation (lease_body lease)) (now + TTL l) (l_Owner l) in
      match writeLease file newLease (ETag lease) with
      | (file, Ok etag) => (file, Ok (mkLease newLease etag))
      | (file, Err (ELeaseExists _ _)) => (file, Err ErrLeaseNotHeld)
      | (file, Err e) => (file, Err e)
      | (file, Panic m) => (file, Panic m)
      end
  end.

Definition ReleaseLease (l : Leaser) (file : option content) (now : time) (lease : option Lease)
    : option content * option error :=
  match lease with
  | None => (file, Some ErrLeaseRequired)
  | Some lease =>
      if bool_decide (ETag lease = "") then (file, Some ErrLeaseETagRequired) else
      match readLease l file now with
      | Err e => if errors_Is e ErrNotExist then (file, Some ErrLeaseAlreadyReleased)
                 else (file, Some (EWrap "read lease" e))
      | Panic m => (file, Some (EMsg m))
      | Ok current =>
          if bool_decide (ETag current = ETag lease) then (None, None) else (file, Some ErrLeaseNotHeld)
      end
  end.

(** *** Without interference: the contract of the S3 leaser *)
Section Refinement.
Context `{S3Lease.S3API}.
Hypothesis etags : forall b, contentETag (JSON b) = S3Lease.etag_of b.

(** A lock file no other writer has corrupted. *)
Definition readable (l : Leaser) (o : option body) (now : time) : Prop :=
  forall b, o = Some b -> TTL_left b now <= maxTTL l.

Lemma readLease_s3 l o now : readable l o now -> readLease l (JSON <$> o) now = S3Lease.readLease o.
Proof.
  intros Hr. pose proof (S3Lease.readLease_spec o) as Hs. destruct o as [b|]; rewrite Hs; simpl; [|done].
  specialize (Hr b eq_refl). destruct (Z.ltb_spec (maxTTL l) (TTL_left b now)); [lia|].
  by rewrite andb_false_r, etags.
Qed.

(** The file system operations answer as the conditional put does. *)
Lemma writeLease_s3 o lease etag :
  writeLease (JSON <$> o) lease etag = prod_map (fmap JSON) id (S3Lease.writeLease o lease etag).
Proof.
  destruct (S3Lease.writeLease o lease etag) as [o' w] eqn:E. apply S3Lease.writeLease_cases in E.
  unfold writeLease, check_etag. case_bool_decide as Et.
  - destruct E as [(-> & -> & ->)|(-> & -> & Hn)]; simpl; [by rewrite etags|].
    destruct o; [done|]. by destruct Hn.
  - destruct E as [(-> & -> & E)|(-> & -> & Hn)].
    + destruct o as [b|]; [|done]. simpl. rewrite etags, bool_decide_eq_true_2 by done. simpl. by rewrite etags.
    + destruct o as [b|]; [|done]. simpl. by rewrite etags, bool_decide_eq_false_2.
Qed.

Lemma AcquireLease_s3 l o now :
  TTL l <= maxTTL l -> readable l o now ->
  AcquireLease l (JSON <$> o) now = prod_map (fmap JSON) id (S3Lease.AcquireLease l o now).
Proof.
  intros Ht Hr. unfold AcquireLease, acquire_decide. destruct (Z.ltb_spec (maxTTL l) (TTL l)); [lia|].
  rewrite readLease_s3 by done. unfold S3Lease.AcquireLease. fold (S3Lease.acquire_decide (S3Lease.readLease o) now).
  destruct (S3Lease.acquire_decide (S3Lease.readLease o) now) as [[gen etag]|e|m]; [|done|done].
  rewrite writeLease_s3. destruct (S3Lease.writeLease o _ etag) as [o' w] eqn:E. simpl. f_equal.
  apply S3Lease.writeLease_cases in E as [(-> & _)|(-> & -> & _)]; [done|]. simpl. by rewrite readLease_s3.
Qed.

Lemma RenewLease_s3 l o now lease :
  TTL l <= maxTTL l -> readable l o now ->
  (forall b le, o = Some b -> lease = Some le -> S3Lease.etag_of b = ETag le -> Owner b = l_Owner l) ->
  RenewLease l (JSON <$> o) now lease = prod_map (fmap JSON) id (S3Lease.RenewLease l o now lease).
Proof.
  intros Ht Hr Hown. unfold RenewLease, renew_decide, S3Lease.RenewLease. destruct lease as [le|]; [|done].
  case_bool_decide as Et; [done|]. destruct (Z.ltb_spec (maxTTL l) (TTL l)); [lia|].
  rewrite readLease_s3 by done. pose proof (S3Lease.readLease_spec o) as Hs.
  destruct (S3Lease.writeLease o _ (ETag le)) as [o' w] eqn:E. pose proof E as Hc. apply S3Lease.writeLease_cases in Hc.
  rewrite bool_decide_eq_false_2 in Hc by done.
  destruct o as [b|]; rewrite Hs; simpl.
  - case_bool_decide as Ho; simpl.
    + change (Some (JSON b)) with (JSON <$> Some b). rewrite writeLease_s3, E.
      destruct Hc as [(-> & -> & _)|(-> & -> & _)]; done.
    + destruct Hc as [(_ & _ & Hc)|(-> & -> & _)]; [|done]. by destruct Ho; eapply Hown.
  - destruct Hc as [(_ & _ & [])|(-> & -> & _)]. done.
Qed.

Lemma ReleaseLease_s3 l o now lease :
  readable l o now -> ReleaseLease l (JSON <$> o) now lease = prod_map (fmap JSON) id (S3Lease.ReleaseLease o lease).
Proof.
  intros Hr. unfold ReleaseLease, S3Lease.ReleaseLease. destruct lease as [le|]; [|done].
  case_bool_decide; [done|]. rewrite readLease_s3 by done. pose proof (S3Lease.readLease_spec o) as Hs.
  pose proof (S3Lease.delete_spec o (ETag le)) as Hd. destruct o as [b|]; rewrite Hs; simpl.
  - destruct Hd as [[E ->]|(E & err & -> & E1 & E2)]; [by rewrite bool_decide_eq_true_2|].
    rewrite bool_decide_eq_false_2 by done. simpl. by rewrite E1, E2.
  - destruct Hd as (err & -> & E1). simpl. by rewrite E1.
Qed.

(** The file leaser honours the contract of the S3 leaser when its operations
    do not interleave.  On a lock file that is absent or holds a lease within the
    ceiling, with a TTL within the ceiling, acquiring, renewing a lease of one's own
    and releasing have the same outcome, error values included, as the S3 leaser on
    the object with the same contents. *)
Theorem file_refines_s3 l o now lease :
  TTL l <= maxTTL l -> readable l o now ->
  (forall b le, o = Some b -> lease = Some le -> S3Lease.etag_of b = ETag le -> Owner b = l_Owner l) ->
  AcquireLease l (JSON <$> o) now = prod_map (fmap JSON) id (S3Lease.AcquireLease l o now) /\
  RenewLease l (JSON <$> o) now lease = prod_map (fmap JSON) id (S3Lease.RenewLease l o now lease) /\
  ReleaseLease l (JSON <$> o) now lease = prod_map (fmap JSON) id (S3Lease.ReleaseLease o lease).
Proof.
  intros Ht Hr Hown. split; [by apply AcquireLease_s3|]. split; [by apply RenewLease_s3|by apply ReleaseLease_s3].
Qed.
End Refinement.

(** *** With interference: two holders

    The lock file has an inode: a write through the descriptor of a file that was
    renamed over or removed no longer reaches the path. *)
Inductive phase : Type :=
| Idle
| Decided (generation : Z) (etag : string)   (* after the read of [AcquireLease] *)
| Ready (newLease : body) (etag : string)    (* before [writeLease] *)
| Created (ino : nat) (newLease : body)      (* after the exclusive creation *)
| Checked (newLease : body)                  (* after the comparison, before the rename *)
| Removing.                                  (* after the checks of [ReleaseLease] *)

Record proc := mkProc { p_phase : phase; held : option Lease }.

Record sys := mkSys { now : time; file : option (nat * content); next_ino : nat; procs : nat -> proc }.

Variable cfg : nat -> Leaser.

Abbreviation set_proc s c p h := (<[c := mkProc p h]> (procs s)).

Inductive step : sys -> sys -> Prop :=
| step_tick s t : now s <= t -> step s (mkSys t (file s) (next_ino s) (procs s))
| step_acquire_read s c gen etag :
    p_phase (procs s c) = Idle -> acquire_decide (cfg c) (snd <$> file s) (now s) = Ok (gen, etag) ->
    step s (mkSys (now s) (file s) (next_ino s) (set_proc s c (Decided gen etag) (held (procs s c))))
| step_acquire_prepare s c gen etag :
    p_phase (procs s c) = Decided gen etag ->
    step s (mkSys (now s) (file s) (next_ino s)
      (set_proc s c (Ready (mkBody gen (now s + TTL (cfg c)) (l_Owner (cfg c))) etag) (held (procs s c))))
| step_renew_prepare s c lease :
    p_phase (procs s c) = Idle -> renew_decide (cfg c) (snd <$> file s) (now s) (held (procs s c)) = Ok lease ->
    step s (mkSys (now s) (file s) (next_ino s)
      (set_proc s c (Ready (mkBody (Generation (lease_body lease)) (now s + TTL (cfg c)) (l_Owner (cfg c))) (ETag lease))
        (held (procs s c))))
| step_create s c l :
    p_phase (procs s c) = Ready l "" -> file s = None ->
    step s (mkSys (now s) (Some (next_ino s, Empty)) (S (next_ino s))
      (set_proc s c (Created (next_ino s) l) (held (procs s c))))
| step_write s c ino l :
    p_phase (procs s c) = Created ino l ->
    step s (mkSys (now s)
      (match file s with
       | Some (i, f) => if decide (i = ino) then Some (i, JSON l) else Some (i, f)
       | None => None
       end) (next_ino s) (set_proc s c Idle (Some (mkLease l (contentETag (JSON l))))))
| step_check s c l etag :
    p_phase (procs s c) = Ready l etag -> etag <> "" -> check_etag (snd <$> file s) etag = Ok () ->
    step s (mkSys (now s) (file s) (next_ino s) (set_proc s c (Checked l) (held (procs s c))))
| step_rename s c l :
    p_phase (procs s c) = Checked l ->
    step s (mkSys (now s) (Some (next_ino s, JSON l)) (S (next_ino s))
      (set_proc s c Idle (Some (mkLease l (contentETag (JSON l))))))
| step_release_read s c lease current :
    p_phase (procs s c) = Idle -> held (procs s c) = Some lease -> ETag lease <> "" ->
    readLease (cfg c) (snd <$> file s) (now s) = Ok current -> ETag current = ETag lease ->
    step s (mkSys (now s) (file s) (next_ino s) (set_proc s c Removing (held (procs s c))))
| step_remove s c :
    p_phase (procs s c) = Removing ->
    step s (mkSys (now s) None (next_ino s) (set_proc s c Idle None))
  (* any operation that fails *)
| step_failed s c :
    step s (mkSys (now s) (file s) (next_ino s) (set_proc s c Idle (held (procs s c)))).

Definition init (t : time) (f : option content) : sys := mkSys t ((fun f => (0%nat, f)) <$> f) 1 (fun _ => mkProc Idle None).

Definition holds (s : sys) (c : nat) : Prop :=
  exists lease, held (procs s c) = Some lease /\ now s <= ExpiresAt (lease_body lease).

(** The two processes that find the same expired lease. *)
Lemma acquire_decide_expired c b t :
  TTL (cfg c) <= maxTTL (cfg c) -> 0 < maxTTL (cfg c) -> ExpiresAt b < t ->
  acquire_decide (cfg c) (Some (JSON b)) t = Ok (Generation b + 1, contentETag (JSON b)).
Proof.
  intros Ht Hm Hx. unfold acquire_decide. destruct (Z.ltb_spec (maxTTL (cfg c)) (TTL (cfg c))); [lia|].
  simpl. unfold TTL_left. destruct (Z.ltb_spec (maxTTL (cfg c)) (ExpiresAt b - t)); [lia|].
  rewrite andb_false_r. simpl. unfold IsExpired, time_After. destruct (Z.ltb_spec (ExpiresAt b) t); [done|lia].
Qed.

(** Process [c] reads an expired lease, prepares its own and passes the comparison;
    other processes may have done the same. *)
Lemma acquire_to_checked s c i b :
  TTL (cfg c) <= maxTTL (cfg c) -> 0 < maxTTL (cfg c) -> contentETag (JSON b) <> "" ->
  file s = Some (i, JSON b) -> ExpiresAt b < now s -> procs s c = mkProc Idle None ->
  exists ps l, rtc step s (mkSys (now s) (file s) (next_ino s) ps) /\ ps c = mkProc (Checked l) None /\
    ExpiresAt l = now s + TTL (cfg c) /\ forall c', c' <> c -> ps c' = procs s c'.
Proof.
  intros Ht Hm Hne Hf Hx Hp. set (l := mkBody (Generation b + 1) (now s + TTL (cfg c)) (l_Owner (cfg c))).
  eexists _, l. split_and!; [| |done|].
  - eapply rtc_l; [eapply (step_acquire_read s c)|].
    { by rewrite Hp. } { rewrite Hf. by apply acquire_decide_expired. }
    eapply rtc_l; [eapply (step_acquire_prepare _ c)|]. { simpl. by rewrite fn_lookup_insert. }
    eapply rtc_l; [eapply (step_check _ c l (contentETag (JSON b)))|apply rtc_refl].
    { simpl. by rewrite fn_lookup_insert. } { done. }
    { simpl. rewrite Hf. simpl. by rewrite bool_decide_eq_true_2. }
  - simpl. rewrite !fn_lookup_insert. simpl. by rewrite Hp.
  - intros c' Hc. simpl. by rewrite !fn_lookup_insert_ne.
Qed.

(** The file leaser does not exclude concurrent holders.  Whenever the lock file
    holds an expired lease, two processes can both acquire it: both pass the
    comparison of the contents before either renames its own lease into place, and
    both are returned an unexpired lease. *)
Theorem file_split_brain b t :
  ExpiresAt b < t -> contentETag (JSON b) <> "" ->
  (forall c, 0 <= TTL (cfg c) <= maxTTL (cfg c) /\ 0 < maxTTL (cfg c)) ->
  exists s, rtc step (init t (Some (JSON b))) s /\ holds s 0 /\ holds s 1.
Proof.
  intros Hx Hne Hcfg. set (s0 := init t (Some (JSON b))).
  destruct (acquire_to_checked s0 0 0 b) as (ps0 & l0 & R0 & P0 & X0 & O0); [apply Hcfg|apply Hcfg|done..|].
  set (s1 := mkSys _ _ _ ps0) in R0.
  destruct (acquire_to_checked s1 1 0 b) as (ps1 & l1 & R1 & P1 & X1 & O1); [apply Hcfg|apply Hcfg|done..| |].
  { simpl. by rewrite O0. }
  set (s2 := mkSys _ _ _ ps1) in R1.
  eexists. split.
  - etrans; [apply R0|]. etrans; [apply R1|].
    eapply rtc_l; [eapply (step_rename s2 0 l0)|]. { simpl. rewrite O1 by done. simpl. by rewrite P0. }
    eapply rtc_l; [eapply (step_rename _ 1 l1)|apply rtc_refl]. { simpl. rewrite fn_lookup_insert_ne by done. by rewrite P1. }
  - pose proof (proj1 (Hcfg 0%nat)). pose proof (proj1 (Hcfg 1%nat)). simpl in X0, X1. 
    split; eexists; (split; [reflexivity|]); simpl; lia.
Qed.
End FileLease.

Definition demo_tag (c : content) : string := match c with Empty => "e" | JSON b => S3Lease.demo_etag b end.

Lemma file_refines_s3_witness :
  AcquireLease demo_tag (S3Lease.demo_cfg 0) (JSON <$> None) 5
  = prod_map (fmap JSON) id (@S3Lease.AcquireLease S3Lease.demo_s3 (S3Lease.demo_cfg 0) None 5).
Proof.
  apply (@file_refines_s3 demo_tag S3Lease.demo_s3 (fun b => eq_refl) (S3Lease.demo_cfg 0) None 5 None).
  - vm_compute. discriminate.
  - intros b Hb. discriminate Hb.
  - intros b le Hb. discriminate Hb.
Defined.

Lemma file_split_brain_witness :
  exists s, rtc (step demo_tag S3Lease.demo_cfg) (init 1000 (Some (JSON (mkBody 1 999 "a")))) s /\ holds s 0 /\ holds s 1.
Proof.
  apply (file_split_brain demo_tag S3Lease.demo_cfg (mkBody 1 999 "a") 1000).
  - simpl. lia.
  - discriminate.
  - intros c. unfold maxTTL, S3Lease.demo_cfg, DefaultLeaseMaxTTL, Second. simpl. lia.
Defined.
End FileLease.
