(* ===== verification/Follow.v ===== *)
(** * Following a replica

    Model of the follow mode of src/replica.go: [applyLTXFile], [fillFollowGap],
    [applyNewLTXFiles], the loop of [follow] with its TXID sidecar file, and the
    part of [Restore] that resumes it.  The storage may change between polls; reads,
    writes of the database file and the sidecar may fail at any operation.

    The database file is compared with the history of the database it follows, up to
    the bytes of page 1 that [applyLTXFile] rewrites. *)

From Stdlib Require Import ZArith Lia Strings.Byte.
From stdpp Require Import base numbers list strings gmap sorting.
From S2P Require Import Prelude Ltx Streams Compactor Replica.
Local Open Scope Z_scope.

(** ** The database file

    All writes are whole pages: the file is a sparse array of pages, numbered from
    1; a page never written inside the file reads as zeros. *)
Abbreviation page := (list byte).

Record dbfile := mkFile { f_pages : gmap Z page; f_npages : Z }.

Definition file_page (pageSize : Z) (f : dbfile) (p : Z) : option page :=
  if (1 <=? p) && (p <=? f_npages f) then Some (default (replicate (Z.to_nat pageSize) x00) (f_pages f !! p)) else None.

Definition WriteAt (f : dbfile) (p : Z) (data : page) : dbfile :=
  mkFile (<[p := data]> (f_pages f)) (Z.max (f_npages f) p).

Definition Truncate (f : dbfile) (n : Z) : dbfile :=
  mkFile (filter (fun kv => kv.1 <= n) (f_pages f)) n.

(** The world of the follower: the database file, the sidecar, and the number of
    file system operations made, by which the environment decides which ones fail
    and what the random generator returns. *)
Record world := mkWorld { w_file : dbfile; w_saved : option TXID; w_ops : nat }.

Definition rand4 : Type := byte * byte * byte * byte.

(** The bytes of page 1 that are rewritten: journal mode and schema cookie. *)
Definition patch (r : rand4) (data : page) : page :=
  let '(a, b, c, d) := r in
  take 18 data ++ [x01; x01] ++ take 4 (drop 20 data) ++ [a; b; c; d] ++ drop 28 data.

Definition patch_header (r : rand4) (pgno : Z) (data : page) : page :=
  if (pgno =? 1) && (28 <=? Z.of_nat (length data)) then patch r data else data.

(** What [ltx.Decoder] yields on a stream: the commit of the header, the pages up
    to the end ([None]: [io.EOF]) or an error, and the result of [Close]. *)
Record decoder := mkDecoder {
  dec_Header : result Z;
  dec_pages : list (Z * page);
  dec_end : option error;
  dec_Close : option error
}.

Section Follow.
Context {C : Type} `{ReplicaClient C}.
Context {identity recipient : Type}.
Variable age_Decrypt : list identity -> Reader -> result Reader.
Variable cfg : ReplicaConfig identity recipient.
Variable ltx_NewDecoder : Reader -> Z -> decoder.
Variable pageSize : Z.
(** The fate of the [n]-th file system operation, and the [n]-th random draw. *)
Variable io_fault : nat -> option error.
Variable rand_Read : nat -> rand4.

(** A file system operation: it fails and changes nothing, or takes effect. *)
Definition io (w : world) (effect : world -> world) : world * result () :=
  let w1 := mkWorld (w_file w) (w_saved w) (S (w_ops w)) in
  match io_fault (w_ops w) with
  | Some e => (w1, Err e)
  | None => (effect w1, Ok ())
  end.

Definition set_file (f : dbfile -> dbfile) (w : world) : world := mkWorld (f (w_file w)) (w_saved w) (w_ops w).

(** The loop over the pages of a file. *)
Fixpoint write_pages (w : world) (pages : list (Z * page)) (end_ : option error) : world * result () :=
  match pages with
  | [] => (w, match end_ with None => Ok () | Some e => Err (EWrap "decode page" e) end)
  | (pgno, data) :: pages =>
      let data := patch_header (rand_Read (w_ops w)) pgno data in
      match io w (set_file (fun f => WriteAt f pgno data)) with
      | (w, Ok ()) => write_pages w pages end_
      | (w, r) => (w, r wrapping "write page")
      end
  end.

Definition applyLTXFile (cl : C) (w : world) (info : FileInfo) : world * result () :=
  match r_OpenLTXFile age_Decrypt cfg cl (Level info) (MinTXID info) (MaxTXID info) 0 0 wrapping "open ltx file" with
  | Err e => (w, Err e)
  | Panic m => (w, Panic m)
  | Ok rc =>
      let dec := ltx_NewDecoder rc pageSize in
      match dec_Header dec wrapping "decode header" with
      | Err e => (w, Err e)
      | Panic m => (w, Panic m)
      | Ok commit =>
          match io w id with
          | (w, Err e) => (w, Err (EWrap "acquire exclusive lock" e))
          | (w, Panic m) => (w, Panic m)
          | (w, Ok ()) =>
              match write_pages w (dec_pages dec) (dec_end dec) with
              | (w, Err e) => (w, Err e)
              | (w, Panic m) => (w, Panic m)
              | (w, Ok ()) =>
                  match (if 0 <? commit then io w (set_file (fun f => Truncate f commit)) else (w, Ok ())) with
                  | (w, Err e) => (w, Err (EWrap "truncate" e))
                  | (w, Panic m) => (w, Panic m)
                  | (w, Ok ()) =>
                      match dec_Close dec with
                      | Some e => (w, Err (EWrap "close decoder" e))
                      | None => io w id
                      end
                  end
              end
          end
      end
  end.

(** The closures [closeLevel0] and [closeLevel]. *)
Definition close_level (itr : FileIterator) (text : string) (retErr : option error) : result () :=
  match itr_Close itr with
  | Some c => Err (match retErr with Some e => EJoin e (EWrap text c) | None => EWrap text c end)
  | None => match retErr with Some e => Err e | None => Ok () end
  end.

(** How the loop of [fillFollowGap] over the files of a level ends. *)
Inductive level_end : Type :=
| Exhausted               (* after the last file *)
| Gap                     (* before a file that leaves a gap at this level too *)
| Bridged                 (* past the gap *)
| Failed (r : result ()). (* [applyLTXFile] failed *)

Fixpoint gap_loop (cl : C) (w : world) (items : list FileInfo) (currentTXID gapMinTXID : TXID)
    : world * TXID * level_end :=
  match items with
  | [] => (w, currentTXID, Exhausted)
  | info :: items =>
      if txid_succ currentTXID <? MinTXID info then (w, currentTXID, Gap)
      else if MaxTXID info <=? currentTXID then gap_loop cl w items currentTXID gapMinTXID
      else
        match applyLTXFile cl w info with
        | (w, Ok ()) =>
            let currentTXID := MaxTXID info in
            if gapMinTXID <=? txid_succ currentTXID then (w, currentTXID, Bridged)
            else gap_loop cl w items currentTXID gapMinTXID
        | (w, r) => (w, currentTXID, Failed (r wrapping "apply gap-fill ltx file"))
        end
  end.

Fixpoint gap_levels (cl : C) (w : world) (levels : list Z) (afterTXID currentTXID gapMinTXID : TXID)
    : world * TXID * result () :=
  match levels with
  | [] => (w, currentTXID, Ok ())
  | level :: levels =>
      match LTXFiles cl level 0 false with
      | Err e => (w, currentTXID, Err (EWrap "list ltx files" e))
      | Panic m => (w, currentTXID, Panic m)
      | Ok itr =>
          match gap_loop cl w (itr_items itr) currentTXID gapMinTXID with
          | (w, currentTXID, Failed (Err e)) => (w, currentTXID, close_level itr "close ltx iterator" (Some e))
          | (w, currentTXID, Failed r) => (w, currentTXID, r)
          | (w, currentTXID, Bridged) => (w, currentTXID, close_level itr "close ltx iterator" None)
          | (w, currentTXID, ended) =>
              match (match ended with Exhausted => itr_Err itr | _ => None end) with
              | Some e => (w, currentTXID, close_level itr "close ltx iterator" (Some (EWrap "iterate ltx files" e)))
              | None =>
                  match close_level itr "close ltx iterator" None with
                  | Ok () =>
                      if afterTXID <? currentTXID then (w, currentTXID, Ok ())
                      else gap_levels cl w levels afterTXID currentTXID gapMinTXID
                  | r => (w, currentTXID, r)
                  end
              end
          end
      end
  end.

(** Levels 1 to [SnapshotLevel - 1]. *)
Definition fillFollowGap (cl : C) (w : world) (afterTXID gapMinTXID : TXID) : world * TXID * result () :=
  gap_levels cl w (Z.of_nat <$> seq 1 (Z.to_nat SnapshotLevel - 1)) afterTXID afterTXID gapMinTXID.

(** How the loop over level 0 ends. *)
Inductive level0_end : Type :=
| L0_Exhausted
| L0_Gap                   (* a gap the higher levels could not bridge *)
| L0_Failed (r : result ()).

Fixpoint level0_loop (cl : C) (w : world) (items : list FileInfo) (currentTXID : TXID)
    : world * TXID * level0_end :=
  match items with
  | [] => (w, currentTXID, L0_Exhausted)
  | info :: items =>
      let apply w currentTXID :=
        if MaxTXID info <=? currentTXID then level0_loop cl w items currentTXID
        else
          match applyLTXFile cl w info with
          | (w, Ok ()) => level0_loop cl w items (MaxTXID info)
          | (w, r) => (w, currentTXID, L0_Failed (r wrapping "apply ltx file"))
          end in
      if txid_succ currentTXID <? MinTXID info then
        match fillFollowGap cl w currentTXID (MinTXID info) with
        | (w, bridgedTXID, Ok ()) =>
            if MaxTXID info <=? bridgedTXID then level0_loop cl w items bridgedTXID
            else if txid_succ bridgedTXID <? MinTXID info then (w, bridgedTXID, L0_Gap)
            else apply w bridgedTXID
        | (w, _, r) => (w, currentTXID, L0_Failed r)
        end
      else apply w currentTXID
  end.

Definition applyNewLTXFiles (cl : C) (w : world) (afterTXID : TXID) : world * TXID * result () :=
  match LTXFiles cl 0 (txid_succ afterTXID) false with
  | Err e => (w, afterTXID, Err (EWrap "list level 0 ltx files" e))
  | Panic m => (w, afterTXID, Panic m)
  | Ok itr =>
      let sawLevel0 := negb (bool_decide (itr_items itr = [])) in
      match level0_loop cl w (itr_items itr) afterTXID with
      | (w, currentTXID, L0_Failed (Err e)) =>
          (w, currentTXID, close_level itr "close level 0 ltx iterator" (Some e))
      | (w, currentTXID, L0_Failed r) => (w, currentTXID, r)
      | (w, currentTXID, L0_Gap) => (w, currentTXID, close_level itr "close level 0 ltx iterator" None)
      | (w, currentTXID, L0_Exhausted) =>
          match itr_Err itr with
          | Some e =>
              (w, currentTXID, close_level itr "close level 0 ltx iterator" (Some (EWrap "iterate level 0 ltx files" e)))
          | None =>
              match close_level itr "close level 0 ltx iterator" None with
              | Ok () =>
                  if sawLevel0 then (w, currentTXID, Ok ()) else
                  match fillFollowGap cl w currentTXID (txid_succ currentTXID) with
                  | (w, bridgedTXID, Ok ()) => (w, bridgedTXID, Ok ())
                  | (w, _, r) => (w, currentTXID, r)
                  end
              | r => (w, currentTXID, r)
              end
          end
      end
  end.

(** The operations of [WriteTXIDFile] before and after the rename. *)
Fixpoint ios (w : world) (n : nat) : world * result () :=
  match n with
  | O => (w, Ok ())
  | S n => match io w id with (w, Ok ()) => ios w n | r => r end
  end.

Definition WriteTXIDFile (w : world) (txid : TXID) : world * result () :=
  match ios w 4 with  (* create, write, sync, close *)
  | (w, Ok ()) =>
      match io w (fun w => mkWorld (w_file w) (Some txid) (w_ops w)) with  (* rename *)
      | (w, Ok ()) => ios w 3  (* open, sync and close the directory *)
      | r => r
      end
  | r => r
  end.

(** [ReadTXIDFile]: the saved TXID, or 0 when there is none. *)
Definition ReadTXIDFile (w : world) : TXID := default 0 (w_saved w).

(** One tick of the loop of [follow]: the new last TXID, or the error it returns. *)
Definition follow_tick (cl : C) (w : world) (lastTXID : TXID) : world * TXID * result () :=
  match applyNewLTXFiles cl w lastTXID with
  | (w, newTXID, Ok ()) =>
      if lastTXID <? newTXID then
        match WriteTXIDFile w newTXID with
        | (w, Ok ()) => (w, newTXID, Ok ())
        | (w, r) => (w, lastTXID, r wrapping "write txid file")
        end
      else (w, lastTXID, Ok ())
  | (w, _, Panic m) => (w, lastTXID, Panic m)
  | (w, _, Err _) => (w, lastTXID, Ok ())
  end.

(** [follow] on the states of the storage at its ticks, until the context is done. *)
Fixpoint follow (ticks : list C) (w : world) (lastTXID : TXID) : world * TXID * result () :=
  match ticks with
  | [] => (w, lastTXID, Ok ())
  | cl :: ticks =>
      match follow_tick cl w lastTXID with
      | (w, lastTXID, Ok ()) => follow ticks w lastTXID
      | r => r
      end
  end.

(** [Restore] in follow mode on an existing database: the TXID it resumes from. *)
Definition resume_follow (cl : C) (w : world) : result TXID :=
  let txid := ReadTXIDFile w in
  if txid =? 0 then Err (EMsg "cannot resume follow mode: database exists but no -txid file found") else
  snapshotItr ← LTXFiles cl SnapshotLevel 0 false wrapping "cannot validate saved TXID for crash recovery";
  match itr_Err snapshotItr with
  | Some e => Err (EWrap "iterate snapshots for crash recovery validation" e)
  | None =>
      match last (itr_items snapshotItr) with
      | Some latestSnapshot =>
          if txid <? MinTXID latestSnapshot then Err (EMsg "saved TXID is behind the earliest snapshot")
          else if MaxTXID latestSnapshot <? txid then Err (EMsg "saved TXID is ahead of latest snapshot")
          else Ok txid
      | None => Ok txid
      end
  end.

(** ** The history of the followed database

    [hist t p] is page [p] after transaction [t], [None] past the end of the
    database, whose size in pages is [hsize t]. *)
Section History.
Context `{!ReplicaClientLaws C}.
Variable hist : TXID -> Z -> option page.
Variable hsize : TXID -> Z.
Hypothesis hist_size : forall t p, is_Some (hist t p) <-> 1 <= p <= hsize t.
Hypothesis hsize_pos : forall t, 1 <= hsize t.

(** Pages equal up to the header bytes the follower rewrites. *)
Definition mask (p : Z) (data : page) : page := patch_header (x00, x00, x00, x00) p data.

Definition same_at (p : Z) (a b : option page) : Prop := mask p <$> a = mask p <$> b.

#[local] Instance same_at_equiv p : Equivalence (same_at p).
Proof. unfold same_at. split; [done|by intros a b ->|intros a b c Hab Hbc; by rewrite Hab]. Qed.

(** Page [p] does not change between two transactions. *)
Definition untouched (lo hi : TXID) (p : Z) : Prop := forall t, lo <= t <= hi -> hist t p = hist lo p.

(** The file is the database as of [lo], but for pages that change until [hi]. *)
Definition between (lo hi : TXID) (f : dbfile) : Prop :=
  forall p, untouched lo hi p -> same_at p (file_page pageSize f p) (hist lo p).

(** The file is the database as of [t]. *)
Definition at_txid (t : TXID) (f : dbfile) : Prop := forall p, same_at p (file_page pageSize f p) (hist t p).

(** What a stored file must decode to: the pages of its last transaction, with
    every page that changed since the transaction before its first one when the
    decoder reaches the end. *)
Record good_stream (info : FileInfo) (d : decoder) : Prop := {
  gs_commit commit : dec_Header d = Ok commit -> commit = hsize (MaxTXID info);
  gs_page p data : In (p, data) (dec_pages d) -> hist (MaxTXID info) p = Some data;
  gs_covers p t : dec_end d = None -> MinTXID info - 1 <= t <= MaxTXID info -> p ∉ (dec_pages d).*1 ->
    1 <= p <= hsize (MaxTXID info) -> hist t p = hist (MaxTXID info) p
}.

(** A stored file of the history, up to transaction [top]. *)
Definition good_file (cl : C) (top : TXID) (f : FileInfo) : Prop :=
  1 <= MinTXID f <= MaxTXID f /\ MaxTXID f <= top /\
  forall rd, r_OpenLTXFile age_Decrypt cfg cl (Level f) (MinTXID f) (MaxTXID f) 0 0 = Ok rd ->
    good_stream f (ltx_NewDecoder rd pageSize).

(** The levels below the snapshots hold files of the history. *)
Definition good_storage (cl : C) (top : TXID) : Prop :=
  forall level f, In f (level_files cl false level) -> level <> SnapshotLevel -> good_file cl top f.

(** *** Pages *)
Lemma patch_patch r r' data : 28 <= Z.of_nat (length data) -> patch r (patch r' data) = patch r data.
Proof.
  intros Hl. destruct r as [[[a b] c] d], r' as [[[a' b'] c'] d']. unfold patch.
  assert (length (take 18 data) = 18%nat) as E18 by (rewrite length_take; lia).
  assert (length (take 4 (drop 20 data)) = 4%nat) as E4 by (rewrite length_take, length_drop; lia).
  set (t18 := take 18 data) in *. set (t4 := take 4 (drop 20 data)) in *. set (rest := drop 28 data).
  rewrite take_app_length' by done. f_equal. f_equal.
  replace (drop 20 (t18 ++ [x01; x01] ++ t4 ++ [a'; b'; c'; d'] ++ rest)) with (t4 ++ [a'; b'; c'; d'] ++ rest).
  2: { rewrite !app_assoc, <- (app_assoc (t18 ++ [x01; x01])), <- (app_assoc (t18 ++ [x01; x01])).
       rewrite drop_app_length'; [done|]. rewrite length_app. simpl. lia. }
  rewrite take_app_length' by done. do 2 f_equal.
  rewrite !app_assoc. rewrite drop_app_length'; [done|]. rewrite !length_app. simpl. lia.
Qed.

Lemma length_patch r data : 28 <= Z.of_nat (length data) -> length (patch r data) = length data.
Proof.
  intros Hl. destruct r as [[[a b] c] d]. unfold patch.
  rewrite !length_app, !length_take, !length_drop. cbn [length]. lia.
Qed.

Lemma mask_patch_header r p data : mask p (patch_header r p data) = mask p data.
Proof.
  unfold mask, patch_header. destruct (Z.eqb_spec p 1); [|done]. simpl.
  destruct (Z.leb_spec 28 (Z.of_nat (length data))) as [Hl|Hl]; rewrite ?length_patch by done.
  - destruct (Z.leb_spec 28 (Z.of_nat (length data))); [|lia]. by apply (patch_patch (x00, x00, x00, x00)).
  - destruct (Z.leb_spec 28 (Z.of_nat (length data))); [lia|done].
Qed.

Lemma file_page_WriteAt f p data q :
  1 <= p -> file_page pageSize (WriteAt f p data) q =
  if q =? p then Some data
  else if (f_npages f <? q) && (q <? p) && (1 <=? q)
       then Some (default (replicate (Z.to_nat pageSize) x00) (f_pages f !! q)) else file_page pageSize f q.
Proof.
  intros Hp. unfold file_page, WriteAt. simpl. destruct (Z.eqb_spec q p) as [->|Hne].
  - rewrite lookup_insert. destruct (Z.leb_spec 1 p), (Z.leb_spec p (f_npages f `max` p)); try lia. by rewrite decide_True.
  - rewrite lookup_insert_ne by done.
    destruct (Z.leb_spec 1 q), (Z.leb_spec q (f_npages f)), (Z.leb_spec q (f_npages f `max` p)),
      (Z.ltb_spec (f_npages f) q), (Z.ltb_spec q p); simpl; try lia; done.
Qed.

Lemma file_page_Truncate f n q :
  file_page pageSize (Truncate f n) q =
  if (1 <=? q) && (q <=? n) then Some (default (replicate (Z.to_nat pageSize) x00) (f_pages f !! q)) else None.
Proof.
  unfold file_page, Truncate. simpl. destruct (Z.leb_spec 1 q), (Z.leb_spec q n); simpl; try done.
  do 2 f_equal. destruct (f_pages f !! q) eqn:E.
  - apply map_lookup_filter_Some. done.
  - apply map_lookup_filter_None. by left.
Qed.

(** *** One file *)
Lemma io_file w g w' r :
  io w (set_file g) = (w', r) ->
  w_saved w' = w_saved w /\ (r = Ok () /\ w_file w' = g (w_file w) \/ is_ok r = false /\ w_file w' = w_file w).
Proof. unfold io. destruct (io_fault (w_ops w)); intros [= <- <-]; auto. Qed.

Lemma io_id w w' r : io w id = (w', r) -> w_saved w' = w_saved w /\ w_file w' = w_file w.
Proof. unfold io. destruct (io_fault (w_ops w)); intros [= <- <-]; auto. Qed.

Lemma hist_None t p : hsize t < p \/ p < 1 -> hist t p = None.
Proof.
  intros Hp. destruct (hist t p) eqn:E; [|done]. assert (1 <= p <= hsize t) by (apply hist_size; eauto). lia.
Qed.

Lemma file_page_None f q : f_npages f < q \/ q < 1 -> file_page pageSize f q = None.
Proof. intros Hq. unfold file_page. destruct (Z.leb_spec 1 q), (Z.leb_spec q (f_npages f)); simpl; done || lia. Qed.

Lemma same_at_None p a b : same_at p a b -> (a = None <-> b = None).
Proof. unfold same_at. destruct a, b; simpl; intros; by split. Qed.

(** A page of the history that exists at [lo] and has not changed is in the file. *)
Lemma between_in_file lo hi f q :
  between lo hi f -> untouched lo hi q -> is_Some (hist lo q) -> 1 <= q <= f_npages f.
Proof.
  intros Hb Hu [d Hd]. specialize (Hb q Hu). destruct (decide (1 <= q <= f_npages f)) as [|Hn]; [done|].
  rewrite (file_page_None f q) in Hb by lia. apply same_at_None in Hb. rewrite Hd in Hb. by destruct Hb as [Hb _]; discriminate Hb.
Qed.

Lemma between_WriteAt lo hi t f p data r :
  lo <= t <= hi -> hist t p = Some data -> between lo hi f -> between lo hi (WriteAt f p (patch_header r p data)).
Proof.
  intros Ht Hd Hb q Hu. assert (1 <= p <= hsize t) as Hp by (apply hist_size; eauto).
  rewrite file_page_WriteAt by lia. destruct (Z.eqb_spec q p) as [->|Hne].
  - rewrite <- (Hu t Ht), Hd. unfold same_at. simpl. by rewrite mask_patch_header.
  - destruct ((f_npages f <? q) && _ && _) eqn:E; [|by apply Hb]. breflect.
    assert (1 <= q <= f_npages f); [|lia]. apply (between_in_file lo hi f q Hb Hu).
    rewrite <- (Hu t Ht). apply hist_size. lia.
Qed.

Lemma between_Truncate lo hi t f :
  lo <= t <= hi -> between lo hi f -> between lo hi (Truncate f (hsize t)).
Proof.
  intros Ht Hb q Hu. rewrite file_page_Truncate. destruct (Z.leb_spec 1 q); simpl.
  2: { by rewrite <- (Hu t Ht), hist_None by lia. }
  destruct (Z.leb_spec q (hsize t)).
  - assert (1 <= q <= f_npages f).
    { apply (between_in_file lo hi f q Hb Hu). rewrite <- (Hu t Ht). by apply hist_size. }
    specialize (Hb q Hu). unfold file_page in Hb. destruct (Z.leb_spec 1 q), (Z.leb_spec q (f_npages f)); simpl in Hb; done || lia.
  - by rewrite <- (Hu t Ht), hist_None by lia.
Qed.

Lemma between_hi lo hi hi' f : hi <= hi' -> between lo hi f -> between lo hi' f.
Proof. intros Hle Hb p Hu. apply Hb. intros t Ht. apply Hu. lia. Qed.

(** Progress that is forgotten is no loss. *)
Lemma between_lo lo lo' hi f : lo <= lo' <= hi -> between lo' hi f -> between lo hi f.
Proof.
  intros Hle Hb p Hu. rewrite <- (Hu lo') by lia. apply Hb. intros t Ht. rewrite (Hu t), (Hu lo') by lia. done.
Qed.

Lemma between_at t f : between t t f <-> at_txid t f.
Proof.
  split; intros Hb p; [|intros _; by apply Hb]. apply Hb. intros u Hu. by replace u with t by lia.
Qed.

(** The loop over the pages leaves the file between the two transactions; when it
    succeeds, every page it wrote is the one of [t]. *)
Lemma write_pages_spec lo hi t pages end_ w w' r :
  lo <= t <= hi -> (forall p data, In (p, data) pages -> hist t p = Some data) ->
  between lo hi (w_file w) -> write_pages w pages end_ = (w', r) ->
  w_saved w' = w_saved w /\ between lo hi (w_file w') /\
  (r = Ok () -> end_ = None /\ forall q, file_page pageSize (w_file w) q <> None \/ q ∈ pages.*1 ->
     same_at q (file_page pageSize (w_file w') q)
               (if bool_decide (q ∈ pages.*1) then hist t q else file_page pageSize (w_file w) q)).
Proof.
  intros Ht. revert w. induction pages as [|[p data] pages IH]; intros w Hd Hb HW; cbn [write_pages] in HW.
  - destruct end_ as [e|]; injection HW as <- <-; split_and!; done.
  - set (data' := patch_header _ _ _) in HW. destruct (io w _) as [w1 r1] eqn:HI.
    apply io_file in HI as [Hs [[-> Hf]|[Hr Hf]]].
    2: { destruct r1 as [[]|e|m]; [done| |]; injection HW as <- <-; rewrite Hf; split_and!; done. }
    assert (hist t p = Some data) as Hdata by (apply Hd; by left).
    assert (1 <= p <= hsize t) as Hp by (apply hist_size; eauto).
    apply IH in HW as (Hs' & Hb' & Hok); [|intros ??? ; apply Hd; by right|].
    2: { rewrite Hf. by apply (between_WriteAt lo hi t). }
    split_and!; [congruence|done|]. intros Hr. destruct (Hok Hr) as [He Hq]. split; [done|]. intros q Hin.
    specialize (Hq q). destruct (decide (q ∈ pages.*1)) as [Hqin|Hqout].
    + rewrite bool_decide_eq_true_2 by (simpl; by apply list_elem_of_further). specialize (Hq (or_intror Hqin)). by rewrite bool_decide_eq_true_2 in Hq.
    + rewrite bool_decide_eq_false_2 in Hq by done. rewrite Hf, file_page_WriteAt in Hq by lia.
      destruct (Z.eqb_spec q p) as [E|Hne].
      * subst q. rewrite bool_decide_eq_true_2 by (simpl; left). etrans; [apply Hq; by left|]. rewrite Hdata.
        unfold same_at, data'. simpl. by rewrite mask_patch_header.
      * assert (q ∉ ((p, data) :: pages).*1) as Hno by (simpl; by apply not_elem_of_cons).
        rewrite bool_decide_eq_false_2 by done. destruct Hin as [Hin|Hin]; [|done].
        destruct ((f_npages (w_file w) <? q) && _ && _) eqn:E; [|apply Hq; by left].
        breflect. destruct Hin. apply file_page_None. lia.
Qed.

Lemma applyLTXFile_spec cl info lo hi w w' r :
  (forall rd, r_OpenLTXFile age_Decrypt cfg cl (Level info) (MinTXID info) (MaxTXID info) 0 0 = Ok rd ->
     good_stream info (ltx_NewDecoder rd pageSize)) ->
  MinTXID info - 1 <= lo <= MaxTXID info -> lo <= hi -> between lo hi (w_file w) ->
  applyLTXFile cl w info = (w', r) ->
  w_saved w' = w_saved w /\
  (r = Ok () -> between (MaxTXID info) (Z.max hi (MaxTXID info)) (w_file w')) /\
  (is_ok r = false -> between lo (Z.max hi (MaxTXID info)) (w_file w')).
Proof.
  intros Hgood Hlo Hhi Hb HA. set (t := MaxTXID info) in *. set (hi' := Z.max hi t).
  assert (between lo hi' (w_file w)) as Hb' by (eapply between_hi; [|done]; lia).
  assert (lo <= t <= hi') as Ht by lia. unfold applyLTXFile in HA. fold t in HA.
  destruct (r_OpenLTXFile _ _ _ _ _ _ _ _) as [rc|e|m]; cbn [wrap_err] in HA; [|by simplify_eq..].
  destruct (Hgood rc eq_refl) as [Hcommit Hpage Hcov]. fold t in Hcommit, Hpage, Hcov.
  set (dec := ltx_NewDecoder rc pageSize) in *.
  destruct (dec_Header dec) as [commit|e|m]; cbn [wrap_err] in HA; [|by simplify_eq..].
  rewrite (Hcommit commit eq_refl) in HA.
  destruct (io w id) as [w1 r1] eqn:HI. apply io_id in HI as [Hs1 Hf1].
  destruct r1 as [[]|e|m]; [|simplify_eq; by rewrite Hf1..].
  destruct (write_pages w1 _ _) as [w2 r2] eqn:HW.
  apply (write_pages_spec lo hi' t) in HW as (Hs2 & Hb2 & Hok2); [|done|done|by rewrite Hf1].
  destruct r2 as [[]|e|m]; [|simplify_eq; split_and!; [congruence|done|done]..].
  destruct (Hok2 eq_refl) as [Hend Hq]. rewrite Hend in Hcov. clear Hok2.
  destruct (Z.ltb_spec 0 (hsize t)) as [_|Hz]; [|pose proof (hsize_pos t); lia].
  destruct (io w2 _) as [w3 r3] eqn:HT. apply io_file in HT as [Hs3 [[-> Hf3]|[Hr3 Hf3]]].
  2: { destruct r3 as [[]|e|m]; [done| |]; simplify_eq; rewrite Hf3; split_and!; congruence || done. }
  assert (between lo hi' (w_file w3)) as Hb3 by (rewrite Hf3; by apply between_Truncate).
  assert (between t hi' (w_file w3)) as Hdone.
  { intros p Hu. rewrite Hf3, file_page_Truncate.
    destruct (Z.leb_spec 1 p), (Z.leb_spec p (hsize t)); simpl; [|by rewrite hist_None by lia..].
    destruct (decide (p ∈ (dec_pages dec).*1)) as [Hin|Hout].
    - specialize (Hq p (or_intror Hin)). rewrite bool_decide_eq_true_2 in Hq by done.
      assert (file_page pageSize (w_file w2) p <> None) as Hn.
      { intros E. apply (same_at_None p) in Hq. apply Hq in E. pose proof (proj2 (hist_size t p)) as [d Hd]; [lia|]. congruence. }
      unfold file_page in Hq, Hn. destruct ((1 <=? p) && (p <=? f_npages (w_file w2))); done.
    - assert (untouched lo hi' p) as Hu'.
      { intros u Hu1. rewrite (Hcov p lo) by (done || lia). destruct (Z.le_gt_cases u t); [by apply Hcov; done || lia|].
        apply Hu. lia. }
      assert (hist lo p = hist t p) as E by (symmetry; by apply Hu').
      specialize (Hb3 p Hu'). rewrite Hf3, file_page_Truncate, E in Hb3.
      destruct (Z.leb_spec 1 p), (Z.leb_spec p (hsize t)); simpl in Hb3; done || lia. }
  destruct (dec_Close dec) as [e|]; [simplify_eq; split_and!; congruence || done|].
  apply io_id in HA as [Hs4 Hf4]. rewrite Hf4. split_and!; congruence || done.
Qed.

(** *** One poll

    [reached hi top w cur w' cur' ok]: the follower came from [cur] to [cur'] through
    files up to transaction [top].  When nothing failed, the file is the database at
    [cur'], but for pages that had been left ahead, up to [hi]. *)
Definition reached (hi top : TXID) (w : world) (cur : TXID) (w' : world) (cur' : TXID) (ok : bool) : Prop :=
  w_saved w' = w_saved w /\ cur <= cur' <= Z.max cur top /\
  if ok then between cur' (Z.max hi cur') (w_file w')
  else exists hi', Z.max hi cur' <= hi' <= Z.max (Z.max hi cur) top /\ between cur' hi' (w_file w').

Lemma reached_trans hi top w cur w1 cur1 w2 cur2 ok :
  reached hi top w cur w1 cur1 true -> reached hi top w1 cur1 w2 cur2 ok -> reached hi top w cur w2 cur2 ok.
Proof.
  intros (Hs1 & Hc1 & _) (Hs2 & Hc2 & Hb2). unfold reached. split_and!; [congruence|lia|lia|].
  destruct ok; [done|]. destruct Hb2 as (hi' & Hhi & Hb). exists hi'. split; [lia|done].
Qed.

Lemma reached_refl hi top w cur : between cur (Z.max hi cur) (w_file w) -> reached hi top w cur w cur true.
Proof. intros. unfold reached. split_and!; done || lia. Qed.

Lemma reached_failed hi top w cur w' cur' : reached hi top w cur w' cur' true -> reached hi top w cur w' cur' false.
Proof.
  intros (? & ? & ?). unfold reached. split_and!; [done|lia|lia|]. exists (Z.max hi cur'). split; [lia|done].
Qed.

Lemma apply_reached cl top f hi cur w w' r :
  good_file cl top f -> MinTXID f - 1 <= cur < MaxTXID f -> between cur (Z.max hi cur) (w_file w) ->
  applyLTXFile cl w f = (w', r) ->
  reached hi top w cur w' (if is_ok r then MaxTXID f else cur) (is_ok r).
Proof.
  intros (Hm & Ht & Hg) Hc Hb HA.
  apply (applyLTXFile_spec cl f cur (Z.max hi cur)) in HA as (Hs & Hok & Herr); [|done|lia|lia|done].
  unfold reached. destruct r as [[]|e|m]; simpl; (split; [done|]); (split; [lia|]).
  - specialize (Hok eq_refl). by replace (Z.max hi (MaxTXID f)) with (Z.max (Z.max hi cur) (MaxTXID f)) by lia.
  - exists (Z.max (Z.max hi cur) (MaxTXID f)). split; [lia|by apply Herr].
  - exists (Z.max (Z.max hi cur) (MaxTXID f)). split; [lia|by apply Herr].
Qed.

Definition ended_ok (e : level_end) : bool := match e with Failed _ => false | _ => true end.

Lemma gap_loop_reached cl top items hi cur gap w w' cur' e :
  0 <= cur -> Z.max cur top < 2 ^ 64 - 1 -> (forall f, In f items -> good_file cl top f) ->
  between cur (Z.max hi cur) (w_file w) -> gap_loop cl w items cur gap = (w', cur', e) ->
  reached hi top w cur w' cur' (ended_ok e) /\ match e with Failed r => is_ok r = false | _ => True end.
Proof.
  intros H0 Hmax. revert w cur H0 Hmax. induction items as [|f items IH]; intros w cur H0 Hmax Hg Hb HL; cbn [gap_loop] in HL.
  { simplify_eq. split; [by apply reached_refl|done]. }
  rewrite txid_succ_small in HL by lia.
  destruct (Z.ltb_spec (cur + 1) (MinTXID f)). { simplify_eq. split; [by apply reached_refl|done]. }
  destruct (Z.leb_spec (MaxTXID f) cur).
  { eapply IH; [done|done| |done|done]. intros g Hin. apply Hg. by right. }
  destruct (applyLTXFile cl w f) as [w1 r1] eqn:HA.
  assert (good_file cl top f) as Hf by (apply Hg; by left).
  apply (apply_reached cl top f hi cur) in HA; [|done|lia|done].
  destruct r1 as [[]|err|m]; cbn [is_ok] in HA; [|simplify_eq; by split..].
  rewrite txid_succ_small in HL by (destruct Hf as (? & ? & _); lia).
  destruct (gap <=? MaxTXID f + 1). { simplify_eq. by split. }
  apply IH in HL as [HR He]; [|destruct Hf as (? & ? & _); lia|destruct Hf as (? & ? & _); lia| |by apply HA].
  - split; [|done]. by eapply reached_trans.
  - intros g Hin. apply Hg. by right.
Qed.

Lemma close_level_err itr text e : is_ok (close_level itr text (Some e)) = false.
Proof. unfold close_level. by destruct (itr_Close itr). Qed.

(** Files of a listing are files of the level. *)
Lemma listed_good cl top level seek itr :
  good_storage cl top -> level <> SnapshotLevel -> LTXFiles cl level seek false = Ok itr ->
  forall f, In f (itr_items itr) -> good_file cl top f.
Proof.
  intros Hg Hl HL f Hf. apply LTXFiles_items in HL as [rest Hr].
  assert (In f (filter (fun f => seek <=? MinTXID f) (level_files cl false level))) as Hin
    by (rewrite Hr; apply in_or_app; by left).
  apply In_filter_bool in Hin as [_ Hin]. by apply (Hg level).
Qed.

Lemma gap_levels_reached cl top levels hi after cur gap w w' cur' r :
  good_storage cl top -> Forall (fun l => l <> SnapshotLevel) levels ->
  0 <= cur -> Z.max cur top < 2 ^ 64 - 1 -> between cur (Z.max hi cur) (w_file w) ->
  gap_levels cl w levels after cur gap = (w', cur', r) -> reached hi top w cur w' cur' (is_ok r).
Proof.
  intros Hg Hls. revert w cur. induction Hls as [|level levels Hl Hls IH]; intros w cur H0 Hmax Hb HG; cbn [gap_levels] in HG.
  { simplify_eq. by apply reached_refl. }
  destruct (LTXFiles cl level 0 false) as [itr|e|m] eqn:HL;
    [|simplify_eq; by apply reached_failed, reached_refl..].
  destruct (gap_loop cl w (itr_items itr) cur gap) as [[w1 cur1] e] eqn:HGL.
  apply (gap_loop_reached cl top (itr_items itr) hi) in HGL as [HR He]; [|done|done|by eapply listed_good|done].
  destruct e as [| | |[u|err|m]]; cbn [ended_ok] in HR.
  - destruct (itr_Err itr) as [e|]; [simplify_eq; rewrite close_level_err; by apply reached_failed|].
    destruct (close_level itr _ None) as [[]|e|m]; [|simplify_eq; by apply reached_failed..].
    destruct (after <? cur1); [by simplify_eq|]. eapply reached_trans; [done|].
    destruct HR as (_ & Hc & Hb1). eapply IH; eauto; lia.
  - destruct (close_level itr _ None) as [[]|e|m]; [|simplify_eq; by apply reached_failed..].
    destruct (after <? cur1); [by simplify_eq|]. eapply reached_trans; [done|].
    destruct HR as (_ & Hc & Hb1). eapply IH; eauto; lia.
  - simplify_eq. destruct (close_level itr _ None) as [[]|e|m]; [done|by apply reached_failed..].
  - done.
  - simplify_eq. by rewrite close_level_err.
  - by simplify_eq.
Qed.

Lemma fillFollowGap_reached cl top hi cur gap w w' cur' r :
  good_storage cl top -> 0 <= cur -> Z.max cur top < 2 ^ 64 - 1 -> between cur (Z.max hi cur) (w_file w) ->
  fillFollowGap cl w cur gap = (w', cur', r) -> reached hi top w cur w' cur' (is_ok r).
Proof.
  intros Hg H0 Hmax Hb HF. eapply gap_levels_reached; [done| |done|done|done|done].
  repeat constructor; discriminate.
Qed.

(** A failure forgets the progress that was made. *)
Lemma reached_forget hi top w cur w' cur' ok :
  reached hi top w cur w' cur' ok -> reached hi top w cur w' cur false.
Proof.
  intros HR. assert (reached hi top w cur w' cur' false) as (Hs & Hc & hi' & Hhi & Hb)
    by (destruct ok; [by apply reached_failed|done]).
  unfold reached. split_and!; [done|lia|lia|]. exists hi'. split; [lia|]. apply (between_lo cur cur'); [lia|done].
Qed.

Definition l0_ok (e : level0_end) : bool := match e with L0_Failed _ => false | _ => true end.

Lemma level0_loop_reached cl top items hi cur w w' cur' e :
  good_storage cl top -> 0 <= cur -> Z.max cur top < 2 ^ 64 - 1 -> (forall f, In f items -> good_file cl top f) ->
  between cur (Z.max hi cur) (w_file w) -> level0_loop cl w items cur = (w', cur', e) ->
  reached hi top w cur w' cur' (l0_ok e) /\ match e with L0_Failed r => is_ok r = false | _ => True end.
Proof.
  intros Hst. revert w cur. induction items as [|f items IH]; intros w cur H0 Hmax Hg Hb HL; cbn [level0_loop] in HL.
  { simplify_eq. split; [by apply reached_refl|done]. }
  assert (good_file cl top f) as Hf by (apply Hg; by left).
  assert (forall g, In g items -> good_file cl top g) as Hg' by (intros g ?; apply Hg; by right).
  assert (forall w1 cur1, reached hi top w cur w1 cur1 true -> MinTXID f <= cur1 + 1 ->
    (if MaxTXID f <=? cur1 then level0_loop cl w1 items cur1
     else match applyLTXFile cl w1 f with
          | (w, Ok ()) => level0_loop cl w items (MaxTXID f)
          | (w, r) => (w, cur1, L0_Failed (r wrapping "apply ltx file"))
          end) = (w', cur', e) ->
    reached hi top w cur w' cur' (l0_ok e) /\ match e with L0_Failed r => is_ok r = false | _ => True end) as Happly.
  { intros w1 cur1 HR Hmin HA. destruct (HR) as (_ & Hc1 & Hb1). destruct (Z.leb_spec (MaxTXID f) cur1).
    - apply IH in HA as [HR' He]; [|lia|lia|done|done]. split; [by eapply reached_trans|done].
    - destruct (applyLTXFile cl w1 f) as [w2 r2] eqn:HA2. apply (apply_reached cl top f hi cur1) in HA2; [|done|lia|done].
      destruct r2 as [[]|err|m]; cbn [is_ok] in HA2; [|simplify_eq; split; [by eapply reached_trans|done]..].
      destruct (HA2) as (_ & Hc2 & Hb2). apply IH in HA as [HR' He]; [|lia|lia|done|done].
      split; [|done]. eapply reached_trans; [done|]. by eapply reached_trans. }
  rewrite txid_succ_small in HL by lia.
  destruct (Z.ltb_spec (cur + 1) (MinTXID f)); [|apply (Happly w cur); [by apply reached_refl|lia|done]].
  destruct (fillFollowGap cl w cur (MinTXID f)) as [[w1 cur1] r1] eqn:HF.
  apply (fillFollowGap_reached cl top hi) in HF; [|done..].
  destruct r1 as [[]|err|m]; cbn [is_ok] in HF; [|simplify_eq; split; [by eapply reached_forget|done]..].
  destruct (HF) as (_ & Hc1 & Hb1).
  destruct (MaxTXID f <=? cur1) eqn:Emax.
  { apply IH in HL as [HR' He]; [|lia|lia|done|done]. split; [by eapply reached_trans|done]. }
  rewrite txid_succ_small in HL by lia. destruct (Z.ltb_spec (cur1 + 1) (MinTXID f)); [by simplify_eq|].
  apply (Happly w1 cur1); [done|lia|]. by rewrite Emax.
Qed.

Lemma applyNewLTXFiles_reached cl top hi cur w w' cur' r :
  good_storage cl top -> 0 <= cur -> Z.max cur top < 2 ^ 64 - 1 -> between cur (Z.max hi cur) (w_file w) ->
  applyNewLTXFiles cl w cur = (w', cur', r) -> reached hi top w cur w' cur' (is_ok r).
Proof.
  intros Hst H0 Hmax Hb HA. unfold applyNewLTXFiles in HA.
  destruct (LTXFiles cl 0 _ false) as [itr|e|m] eqn:HL; [|simplify_eq; by apply reached_failed, reached_refl..].
  destruct (level0_loop cl w (itr_items itr) cur) as [[w1 cur1] e] eqn:HLL.
  apply (level0_loop_reached cl top (itr_items itr) hi) in HLL as [HR He];
    [|done|done|done|by eapply (listed_good cl top 0); [|discriminate|]|done].
  destruct e as [| |[u|err|m]]; cbn [l0_ok] in HR; [| |done|simplify_eq; by rewrite close_level_err|by simplify_eq].
  2: { simplify_eq. destruct (close_level itr _ None) as [[]|e|m]; [done|by apply reached_failed..]. }
  destruct (itr_Err itr) as [e|]; [simplify_eq; rewrite close_level_err; by apply reached_failed|].
  destruct (close_level itr _ None) as [[]|e|m]; [|simplify_eq; by apply reached_failed..].
  destruct (negb _); [by simplify_eq|]. destruct (HR) as (_ & Hc1 & Hb1).
  destruct (fillFollowGap cl w1 cur1 _) as [[w2 cur2] r2] eqn:HF.
  apply (fillFollowGap_reached cl top hi) in HF; [|done|lia|lia|done].
  destruct r2 as [[]|e|m]; simplify_eq; cbn [is_ok] in *; [by eapply reached_trans|..];
    (eapply reached_trans; [done|by eapply reached_forget]).
Qed.

(** C11: a poll that succeeds leaves the followed database.  Starting from the
    database at the last transaction, or from a file that earlier failures left
    partly ahead up to transaction [hi], [applyNewLTXFiles] over the levels of a
    changing storage that returns transaction [t] has brought the file to [t]: every
    page is the one of [t] (but for the rewritten header bytes), and the size too,
    once [t] has passed [hi].  A failed poll leaves a file from which a later one can
    still do so. *)
Theorem applyNewLTXFiles_exact cl top hi lastTXID w w' t r :
  good_storage cl top -> 0 <= lastTXID -> Z.max lastTXID top < 2 ^ 64 - 1 ->
  between lastTXID (Z.max hi lastTXID) (w_file w) ->
  applyNewLTXFiles cl w lastTXID = (w', t, r) ->
  lastTXID <= t <= Z.max lastTXID top /\
  (r = Ok () -> hi <= t -> at_txid t (w_file w')) /\
  (r = Ok () -> between t (Z.max hi t) (w_file w')) /\
  (is_ok r = false -> exists hi', hi <= hi' <= Z.max (Z.max hi lastTXID) top /\
     between lastTXID (Z.max hi' lastTXID) (w_file w')).
Proof.
  intros Hst H0 Hmax Hb HA. apply (applyNewLTXFiles_reached cl top hi) in HA as HR; [|done..].
  destruct HR as (_ & Hc & Hb'). split; [done|]. destruct r as [[]|e|m]; cbn [is_ok] in Hb'; split_and!; try done.
  - intros _ Hhi. apply between_at. by rewrite Z.max_r in Hb' by done.
  - intros _. destruct Hb' as (hi' & Hhi & Hb2). exists hi'. split; [lia|]. rewrite Z.max_l by lia.
    apply (between_lo _ t); [lia|done].
  - intros _. destruct Hb' as (hi' & Hhi & Hb2). exists hi'. split; [lia|]. rewrite Z.max_l by lia.
    apply (between_lo _ t); [lia|done].
Qed.

Lemma ios_id w n w' r : ios w n = (w', r) -> w_saved w' = w_saved w /\ w_file w' = w_file w.
Proof.
  revert w. induction n as [|n IH]; intros w HI; cbn [ios] in HI; [by simplify_eq|].
  destruct (io w id) as [w1 [[]|e|m]] eqn:E; apply io_id in E as [Hs Hf]; [|by simplify_eq..].
  apply IH in HI as [? ?]. split; congruence.
Qed.

(** The sidecar holds the old or the new TXID, and the new one on success. *)
Lemma WriteTXIDFile_spec w t w' r :
  WriteTXIDFile w t = (w', r) ->
  w_file w' = w_file w /\ (w_saved w' = w_saved w /\ is_ok r = false \/ w_saved w' = Some t).
Proof.
  unfold WriteTXIDFile. destruct (ios w 4) as [w1 r1] eqn:E1. apply ios_id in E1 as [Hs1 Hf1].
  destruct r1 as [[]|e|m]; [|intros [= <- <-]; auto..].
  unfold io. destruct (io_fault (w_ops w1)); [intros [= <- <-]; auto|].
  intros [Hs Hf]%ios_id. simpl in *. split; [congruence|by right].
Qed.

(** One tick keeps the sidecar and the file in step. *)
Lemma follow_tick_resumable cl top hi lastTXID w w' last' r :
  good_storage cl top -> 0 <= lastTXID -> Z.max lastTXID top < 2 ^ 64 - 1 ->
  w_saved w = Some lastTXID -> between lastTXID (Z.max hi lastTXID) (w_file w) ->
  follow_tick cl w lastTXID = (w', last', r) ->
  exists s hi', w_saved w' = Some s /\ lastTXID <= s <= Z.max lastTXID top /\ (r = Ok () -> last' = s) /\
    hi <= hi' <= Z.max (Z.max hi lastTXID) top /\ between s (Z.max hi' s) (w_file w').
Proof.
  intros Hst H0 Hmax Hsv Hb HT. unfold follow_tick in HT.
  destruct (applyNewLTXFiles cl w lastTXID) as [[w1 t] r1] eqn:HA.
  apply (applyNewLTXFiles_reached cl top hi) in HA as HR; [|done..].
  assert (is_ok r1 = false -> exists hi', hi <= hi' <= Z.max (Z.max hi lastTXID) top /\
    between lastTXID (Z.max hi' lastTXID) (w_file w1)) as Hfail.
  { intros Hr. apply reached_forget in HR as (_ & _ & hi' & Hhi & Hb1). exists hi'. split; [lia|]. by rewrite Z.max_l by lia. }
  destruct HR as (Hs & Hc & Hb1). rewrite Hsv in Hs. destruct r1 as [[]|e|m].
  - destruct (Z.ltb_spec lastTXID t) as [Hlt|Hge].
    + destruct (WriteTXIDFile w1 t) as [w2 r2] eqn:HW. apply WriteTXIDFile_spec in HW as [Hf2 Hsv2].
      cbn [is_ok] in Hb1. destruct Hsv2 as [[Hsv2 Hr2]|Hsv2].
      * destruct r2 as [[]|e|m]; [done| |]; injection HT as <- <- <-; exists lastTXID, (Z.max hi t); rewrite Hf2;
          (split; [congruence|]); (split; [lia|]); (split; [done|]); (split; [lia|]);
          rewrite (Z.max_l (Z.max hi t)) by lia; (apply (between_lo _ t); [lia|done]).
      * exists t, hi. split; [destruct r2 as [[]|e|m]; by simplify_eq/=|]. split; [lia|].
        split; [destruct r2 as [[]|e|m]; by simplify_eq/=|]. split; [lia|].
        assert (w_file w' = w_file w1) as -> by (destruct r2 as [[]|e|m]; simplify_eq/=; congruence). done.
    + injection HT as <- <- <-. assert (t = lastTXID) as -> by lia. exists lastTXID, hi. split_and!; done || lia.
  - injection HT as <- <- <-. destruct (Hfail eq_refl) as (hi' & ? & ?). exists lastTXID, hi'. split_and!; done || lia.
  - injection HT as <- <- <-. destruct (Hfail eq_refl) as (hi' & ? & ?). exists lastTXID, hi'. split_and!; done || lia.
Qed.

(** Follow mode can be stopped anywhere.  Whatever operations fail and wherever
    the run ends (cancelled, killed between two ticks or returned with an error), the
    sidecar names a transaction [s] not before the first one, and the database file
    is the database of [s] but for pages that change after [s]: exactly the state
    from which following can go on. *)
Theorem follow_resumable ticks top hi lastTXID w w' last' r :
  Forall (fun cl => good_storage cl top) ticks -> 0 <= lastTXID -> Z.max lastTXID top < 2 ^ 64 - 1 ->
  w_saved w = Some lastTXID -> between lastTXID (Z.max hi lastTXID) (w_file w) ->
  follow ticks w lastTXID = (w', last', r) ->
  exists s hi', w_saved w' = Some s /\ lastTXID <= s <= Z.max lastTXID top /\ (r = Ok () -> last' = s) /\
    hi <= hi' <= Z.max (Z.max hi lastTXID) top /\ between s (Z.max hi' s) (w_file w').
Proof.
  intros HF. revert hi lastTXID w. induction HF as [|cl ticks Hcl HF IH]; intros hi lastTXID w H0 Hmax Hs Hb HW; cbn [follow] in HW.
  { simplify_eq. exists last', hi. split_and!; done || lia. }
  destruct (follow_tick cl w lastTXID) as [[w1 last1] r1] eqn:HT.
  apply (follow_tick_resumable cl top hi) in HT as (s & hi1 & Hs1 & Hc1 & Hr1 & Hh1 & Hb1); [|done..].
  destruct r1 as [[]|e|m]; [|simplify_eq; by exists s, hi1..].
  rewrite (Hr1 eq_refl) in HW. apply (IH hi1) in HW as (s2 & hi2 & Hs2 & Hc2 & Hr2 & Hh2 & Hb2); [|lia|lia|done|done].
  exists s2, hi2. split_and!; done || lia.
Qed.

(** When a follower may resume.  With a complete listing of the snapshots,
    [Restore] resumes from the saved transaction exactly when there is one and the
    latest snapshot contains it: a follower that has moved past the latest snapshot
    through lower levels is refused. *)
Theorem resume_follow_iff cl w itr t :
  LTXFiles cl SnapshotLevel 0 false = Ok itr -> itr_Err itr = None ->
  (resume_follow cl w = Ok t <->
   w_saved w = Some t /\ t <> 0 /\
   forall f, last (level_files cl false SnapshotLevel) = Some f -> MinTXID f <= t <= MaxTXID f).
Proof.
  intros HL HE. pose proof (LTXFiles_all _ _ _ _ HL HE) as Hitems. unfold resume_follow, ReadTXIDFile.
  rewrite HL. cbn [wrap_err mbind result_bind]. rewrite HE, Hitems.
  destruct (w_saved w) as [s|]; simpl; [|split; [done|by intros [? _]]].
  destruct (Z.eqb_spec s 0) as [->|Hs]. { split; [done|]. by intros ([= <-] & ? & _). }
  destruct (last _) as [f|] eqn:Hlast.
  - destruct (Z.ltb_spec s (MinTXID f)); [|destruct (Z.ltb_spec (MaxTXID f) s)].
    + split; [done|]. intros ([= <-] & _ & Hf). specialize (Hf f eq_refl). lia.
    + split; [done|]. intros ([= <-] & _ & Hf). specialize (Hf f eq_refl). lia.
    + split; [intros [= <-]; split_and!; [done|done|]|by intros ([= <-] & _)]. intros g [= <-]. lia.
  - split; [intros [= <-]; split_and!; done|by intros ([= <-] & _)].
Qed.

(** *** Progress *)

(** Nothing fails: listings are complete, files decode, the file system works. *)
Record healthy (cl : C) : Prop := {
  h_io n : io_fault n = None;
  h_list level seek : exists itr, LTXFiles cl level seek false = Ok itr /\ itr_Err itr = None;
  h_open level f : In f (level_files cl false level) -> level <> SnapshotLevel ->
    1 <= MinTXID f <= MaxTXID f /\ MaxTXID f < 2 ^ 64 - 1 /\
    exists rd commit, r_OpenLTXFile age_Decrypt cfg cl (Level f) (MinTXID f) (MaxTXID f) 0 0 = Ok rd /\
      dec_Header (ltx_NewDecoder rd pageSize) = Ok commit /\
      dec_end (ltx_NewDecoder rd pageSize) = None /\ dec_Close (ltx_NewDecoder rd pageSize) = None
}.

(** A file that extends position [cur]. *)
Definition extends (cur : TXID) (f : FileInfo) : Prop := MinTXID f <= cur + 1 <= MaxTXID f.

Section Progress.
Variable cl : C.
Hypothesis Hh : healthy cl.

Definition stored (f : FileInfo) : Prop := exists level, level <> SnapshotLevel /\ In f (level_files cl false level).

Lemma io_healthy w e : exists w', io w e = (w', Ok ()).
Proof. unfold io. rewrite (h_io cl Hh). eauto. Qed.

Lemma write_pages_healthy w pages : exists w', write_pages w pages None = (w', Ok ()).
Proof.
  revert w. induction pages as [|[p d] pages IH]; intros w; cbn [write_pages]; [eauto|].
  set (e := set_file _). destruct (io_healthy w e) as [w1 ->]. apply IH.
Qed.

Lemma applyLTXFile_healthy w f : stored f -> exists w', applyLTXFile cl w f = (w', Ok ()).
Proof.
  intros (level & Hl & Hf). destruct (h_open cl Hh level f Hf Hl) as (_ & _ & rd & commit & HO & HH & He & Hcl).
  unfold applyLTXFile. rewrite HO. cbn [wrap_err]. rewrite HH. cbn [wrap_err].
  destruct (io_healthy w id) as [w1 ->]. rewrite He. destruct (write_pages_healthy w1 (dec_pages (ltx_NewDecoder rd pageSize))) as [w2 ->].
  destruct (0 <? commit).
  - set (e := set_file _). destruct (io_healthy w2 e) as [w3 ->]. rewrite Hcl. apply io_healthy.
  - rewrite Hcl. apply io_healthy.
Qed.

Lemma stored_range f : stored f -> 1 <= MinTXID f <= MaxTXID f /\ MaxTXID f < 2 ^ 64 - 1.
Proof. intros (level & Hl & Hf). destruct (h_open cl Hh level f Hf Hl) as (? & ? & _). done. Qed.

Lemma gap_loop_healthy items w cur gap :
  0 <= cur < 2 ^ 64 - 1 -> (forall f, In f items -> stored f) -> StronglySorted (fun a b => MinTXID a <= MinTXID b) items ->
  exists w' cur' e, gap_loop cl w items cur gap = (w', cur', e) /\ ended_ok e = true /\ cur <= cur' < 2 ^ 64 - 1 /\
    ((exists f, In f items /\ extends cur f) \/ e = Bridged -> cur < cur').
Proof.
  revert w cur. induction items as [|g items IH]; intros w cur Hc Hst Hs; cbn [gap_loop].
  { eexists _, _, _. split_and!; [done|done|lia|lia|]. by intros [(f & [] & _)|?]. }
  apply StronglySorted_inv in Hs as [Hs Hg]. rewrite Forall_forall in Hg. setoid_rewrite list_elem_of_In in Hg.
  assert (stored g) as Hsg by (apply Hst; by left). pose proof (stored_range g Hsg) as Hr.
  assert (forall f, In f items -> stored f) as Hst' by (intros f ?; apply Hst; by right).
  rewrite txid_succ_small by lia. destruct (Z.ltb_spec (cur + 1) (MinTXID g)).
  { eexists _, _, _. split_and!; [done|done|lia|lia|]. intros [(f & [<-|Hf] & Hx)|?]; [..|done]; unfold extends in Hx; [lia|].
    apply Hg in Hf. lia. }
  destruct (Z.leb_spec (MaxTXID g) cur).
  { destruct (IH w cur Hc Hst' Hs) as (w' & cur' & e & -> & He & Hle & Hex). eexists _, _, _. split_and!; [done|done|lia|lia|].
    intros [(f & [<-|Hf] & Hx)|?]; [unfold extends in Hx; lia|apply Hex; eauto..]. }
  destruct (applyLTXFile_healthy w g Hsg) as [w1 ->].
  destruct (gap <=? txid_succ (MaxTXID g)).
  { eexists _, _, _. split_and!; [done|done|lia|lia|]. lia. }
  destruct (IH w1 (MaxTXID g)) as (w' & cur' & e & -> & He & Hle & _); [lia|done|done|].
  eexists _, _, _. split_and!; [done|done|lia|lia|]. lia.
Qed.

Lemma healthy_listing level seek : level <> SnapshotLevel ->
  exists itr, LTXFiles cl level seek false = Ok itr /\ itr_Err itr = None /\
    (forall text, close_level itr text None = Ok ()) /\
    itr_items itr = filter (fun f => seek <=? MinTXID f) (level_files cl false level) /\
    (forall f, In f (itr_items itr) -> stored f) /\ StronglySorted (fun a b => MinTXID a <= MinTXID b) (itr_items itr).
Proof.
  intros Hl. destruct (h_list cl Hh level seek) as (itr & HL & HE). exists itr.
  pose proof (LTXFiles_complete _ _ _ _ _ HL HE) as Hi. split_and!; [done|done| |done| |].
  - intros text. unfold close_level. by rewrite (LTXFiles_close _ _ _ _ _ HL), HE.
  - rewrite Hi. intros f [_ Hf]%In_filter_bool. by exists level.
  - rewrite Hi. apply StronglySorted_filter_bool, level_files_sorted.
Qed.

Lemma gap_levels_healthy levels w cur gap :
  0 <= cur < 2 ^ 64 - 1 -> Forall (fun l => l <> SnapshotLevel) levels ->
  exists w' cur', gap_levels cl w levels cur cur gap = (w', cur', Ok ()) /\ cur <= cur' < 2 ^ 64 - 1 /\
    ((exists level f, In level levels /\ In f (level_files cl false level) /\ extends cur f) -> cur < cur').
Proof.
  intros Hc Hls. revert w. induction Hls as [|level levels Hl Hls IH]; intros w; cbn [gap_levels].
  { eexists _, _. split_and!; [done|lia|lia|]. by intros (? & ? & [] & _). }
  destruct (healthy_listing level 0 Hl) as (itr & -> & HE & Hcl & Hi & Hst & Hs).
  destruct (gap_loop_healthy (itr_items itr) w cur gap Hc Hst Hs) as (w1 & cur1 & e & -> & He & Hle & Hex).
  assert (forall f, In f (level_files cl false level) -> In f (itr_items itr)) as Hall.
  { intros f Hf. rewrite Hi. apply In_filter_bool. split; [|done]. apply level_files_range in Hf. apply Z.leb_le. lia. }
  assert (exists w' cur', match itr_Err itr with
    | Some err => (w1, cur1, close_level itr "close ltx iterator" (Some (EWrap "iterate ltx files" err)))
    | None => if cur <? cur1 then (w1, cur1, Ok ()) else gap_levels cl w1 levels cur cur1 gap end = (w', cur', Ok ()) /\
    cur <= cur' < 2 ^ 64 - 1 /\
    ((exists level' f, In level' (level :: levels) /\ In f (level_files cl false level') /\ extends cur f) -> cur < cur')) as Hgo.
  { rewrite HE. destruct (Z.ltb_spec cur cur1); [eexists _, _; split_and!; [done|lia|lia|lia]|].
    assert (cur1 = cur) as -> by lia. destruct (IH w1) as (w2 & cur2 & -> & Hle2 & Hex2).
    eexists _, _. split_and!; [done|lia|lia|]. intros (l & f & [<-|Hin] & Hf & Hx); [|apply Hex2; eauto].
    exfalso. assert (cur < cur); [|lia]. apply Hex. left. exists f. auto. }
  destruct e as [| | |r]; [| | |done].
  - rewrite HE in *. rewrite Hcl. apply Hgo.
  - rewrite HE in *. rewrite Hcl. apply Hgo.
  - rewrite Hcl. assert (cur < cur1) by (apply Hex; by right). eexists _, _. split_and!; [done|lia|lia|lia].
Qed.

Lemma fillFollowGap_healthy w cur gap :
  0 <= cur < 2 ^ 64 - 1 ->
  exists w' cur', fillFollowGap cl w cur gap = (w', cur', Ok ()) /\ cur <= cur' < 2 ^ 64 - 1 /\
    ((exists level f, 1 <= level < SnapshotLevel /\ In f (level_files cl false level) /\ extends cur f) -> cur < cur').
Proof.
  intros Hc. destruct (gap_levels_healthy (Z.of_nat <$> seq 1 (Z.to_nat SnapshotLevel - 1)) w cur gap Hc) as (w' & cur' & HG & Hle & Hex).
  { repeat constructor; discriminate. }
  exists w', cur'. split_and!; [done|lia|lia|]. intros (level & f & Hl & Hf & Hx). apply Hex. exists level, f. split; [|done].
  apply list_elem_of_In, list_elem_of_fmap. exists (Z.to_nat level). unfold SnapshotLevel in *. split; [lia|]. apply elem_of_seq. lia.
Qed.

Lemma level0_loop_healthy items w cur :
  0 <= cur < 2 ^ 64 - 1 -> (forall f, In f items -> stored f) ->
  exists w' cur' e, level0_loop cl w items cur = (w', cur', e) /\ l0_ok e = true /\ cur <= cur' < 2 ^ 64 - 1.
Proof.
  revert w cur. induction items as [|g items IH]; intros w cur Hc Hst; cbn [level0_loop].
  { eexists _, _, _. split_and!; [done|done|lia|lia]. }
  assert (stored g) as Hsg by (apply Hst; by left). pose proof (stored_range g Hsg) as Hr.
  assert (forall f, In f items -> stored f) as Hst' by (intros f ?; apply Hst; by right).
  assert (forall w1 cur1, cur <= cur1 < 2 ^ 64 - 1 -> exists w' cur' e,
    (if MaxTXID g <=? cur1 then level0_loop cl w1 items cur1
     else match applyLTXFile cl w1 g with
          | (w, Ok ()) => level0_loop cl w items (MaxTXID g)
          | (w, r) => (w, cur1, L0_Failed (r wrapping "apply ltx file"))
          end) = (w', cur', e) /\ l0_ok e = true /\ cur <= cur' < 2 ^ 64 - 1) as Happly.
  { intros w1 cur1 Hc1. destruct (Z.leb_spec (MaxTXID g) cur1).
    - destruct (IH w1 cur1) as (w' & cur' & e & -> & He & Hle); [lia|done|]. eexists _, _, _. split_and!; [done|done|lia|lia].
    - destruct (applyLTXFile_healthy w1 g Hsg) as [w2 ->].
      destruct (IH w2 (MaxTXID g)) as (w' & cur' & e & -> & He & Hle); [lia|done|].
      eexists _, _, _. split_and!; [done|done|lia|lia]. }
  rewrite txid_succ_small by lia. destruct (Z.ltb_spec (cur + 1) (MinTXID g)); [|apply Happly; lia].
  destruct (fillFollowGap_healthy w cur (MinTXID g) Hc) as (w1 & cur1 & -> & Hle1 & _).
  destruct (Z.leb_spec (MaxTXID g) cur1).
  { destruct (IH w1 cur1) as (w' & cur' & e & -> & He & Hle); [lia|done|]. eexists _, _, _. split_and!; [done|done|lia|lia]. }
  destruct (txid_succ cur1 <? MinTXID g); [eexists _, _, _; split_and!; [done|done|lia|lia]|].
  destruct (Happly w1 cur1) as (w' & cur' & e & HA & He & Hle); [lia|].
  destruct (Z.leb_spec (MaxTXID g) cur1); [lia|]. rewrite HA. eexists _, _, _. split_and!; [done|done|lia|lia].
Qed.

(** The first file of level 0 makes progress, or the higher levels do. *)
Lemma level0_loop_progress g items w cur :
  0 <= cur < 2 ^ 64 - 1 -> (forall f, In f (g :: items) -> stored f) -> cur + 1 <= MinTXID g ->
  MinTXID g = cur + 1 \/ (exists level f, 1 <= level < SnapshotLevel /\ In f (level_files cl false level) /\ extends cur f) ->
  exists w' cur' e, level0_loop cl w (g :: items) cur = (w', cur', e) /\ l0_ok e = true /\ cur < cur' < 2 ^ 64 - 1.
Proof.
  intros Hc Hst Hg Hex. assert (stored g) as Hsg by (apply Hst; by left). pose proof (stored_range g Hsg) as Hr.
  assert (forall f, In f items -> stored f) as Hst' by (intros f ?; apply Hst; by right).
  cbn [level0_loop]. rewrite txid_succ_small by lia.
  assert (forall w1 cur1, cur < cur1 < 2 ^ 64 - 1 -> exists w' cur' e,
    level0_loop cl w1 items cur1 = (w', cur', e) /\ l0_ok e = true /\ cur < cur' < 2 ^ 64 - 1) as Hrest.
  { intros w1 cur1 Hc1. destruct (level0_loop_healthy items w1 cur1) as (w' & cur' & e & -> & He & Hle); [lia|done|].
    eexists _, _, _. split_and!; [done|done|lia|lia]. }
  destruct (Z.ltb_spec (cur + 1) (MinTXID g)) as [Hgap|Hno].
  - destruct Hex as [?|Hex]; [lia|]. destruct (fillFollowGap_healthy w cur (MinTXID g) Hc) as (w1 & cur1 & -> & Hle1 & Hp).
    specialize (Hp Hex). destruct (Z.leb_spec (MaxTXID g) cur1); [apply Hrest; lia|].
    destruct (txid_succ cur1 <? MinTXID g); [eexists _, _, _; split_and!; [done|done|lia|lia]|].
    destruct (applyLTXFile_healthy w1 g Hsg) as [w2 ->]. apply Hrest. lia.
  - destruct (Z.leb_spec (MaxTXID g) cur); [lia|]. destruct (applyLTXFile_healthy w g Hsg) as [w2 ->]. apply Hrest. lia.
Qed.

(** C38: following makes progress.  When no operation fails, and some file of the
    storage extends the last transaction (a level-0 file that starts right after it,
    or a file of levels 1 to 8 that contains the next one), a poll succeeds and
    advances.  Snapshots, level 9, are not looked at: a follower whose next transaction
    is only in a snapshot stays where it is. *)
Theorem follow_progress w lastTXID :
  0 <= lastTXID < 2 ^ 64 - 2 ->
  (exists f, In f (level_files cl false 0) /\ MinTXID f = lastTXID + 1) \/
  (exists level f, 1 <= level < SnapshotLevel /\ In f (level_files cl false level) /\ extends lastTXID f) ->
  exists w' t, applyNewLTXFiles cl w lastTXID = (w', t, Ok ()) /\ lastTXID < t.
Proof.
  intros Hc Hex. unfold applyNewLTXFiles. rewrite txid_succ_small by lia.
  destruct (healthy_listing 0 (lastTXID + 1)) as (itr & -> & HE & Hcl & Hi & Hst & Hs); [discriminate|].
  destruct (itr_items itr) as [|g items] eqn:Hitems.
  - cbn [level0_loop]. rewrite HE, Hcl. rewrite bool_decide_eq_true_2 by done. cbn [negb].
    destruct (fillFollowGap_healthy w lastTXID (txid_succ lastTXID)) as (w1 & cur1 & -> & Hle & Hp); [lia|].
    eexists _, _. split; [done|]. apply Hp. destruct Hex as [(f & Hf & Hm)|Hex]; [|done]. exfalso.
    assert (In f (filter (fun f => lastTXID + 1 <=? MinTXID f) (level_files cl false 0))) as Hin.
    { apply In_filter_bool. split; [apply Z.leb_le; lia|done]. }
    by rewrite <- Hi in Hin.
  - assert (forall f, In f (g :: items) -> lastTXID + 1 <= MinTXID f) as Hmin.
    { rewrite Hi. intros f [Hf _]%In_filter_bool. by apply Z.leb_le. }
    destruct (level0_loop_progress g items w lastTXID) as (w1 & cur1 & e & -> & He & Hle); [lia|done|apply Hmin; by left| |].
    + destruct Hex as [(f & Hf & Hm)|Hex]; [left|by right].
      assert (In f (g :: items)) as Hin.
      { rewrite Hi. apply In_filter_bool. split; [apply Z.leb_le; lia|done]. }
      pose proof (Hmin g (or_introl eq_refl)). apply StronglySorted_inv in Hs as [_ Hg]. rewrite Forall_forall in Hg.
      setoid_rewrite list_elem_of_In in Hg. destruct Hin as [->|Hin]; [done|]. apply Hg in Hin. lia.
    + rewrite bool_decide_eq_false_2 by done. cbn [negb]. destruct e as [| |r]; [| |done].
      * rewrite HE, Hcl. eexists _, _. split; [done|lia].
      * rewrite Hcl. eexists _, _. split; [done|lia].
Qed.
End Progress.
End History.
End Follow.

(** ** A follower at work

    A database of one page of one byte, the number of its transaction; a snapshot of
    transaction 1 and the level-0 file of transaction 2. *)
Definition demo_hist (t : TXID) (p : Z) : option page := if p =? 1 then Some [Zbyte t] else None.

Lemma demo_hist_size t p : is_Some (demo_hist t p) <-> 1 <= p <= 1.
Proof.
  unfold demo_hist. destruct (Z.eqb_spec p 1); split; try lia; [by eauto|]. by intros [? ?].
Qed.

Definition demo_decoder (rd : Reader) (pageSize : Z) : decoder := mkDecoder (Ok 1) [(1, rd_data rd)] None None.

Definition demo_cfg : ReplicaConfig () () := mkConfig Second true false [] [] false.

Definition demo_client : Mem.client :=
  Mem.mkClient [(mkFileInfo 9 1 1 1 5, [x01]); (mkFileInfo 0 2 2 1 6, [x02])] eq_refl.

Definition demo_age (ids : list ()) (rd : Reader) : result Reader := Ok rd.

Definition no_fault (n : nat) : option error := None.
Definition no_rand (n : nat) : rand4 := (x00, x00, x00, x00).

Definition demo_world : world := mkWorld (mkFile {[ 1 := [x01] ]} 1) (Some 1) 0.

Lemma demo_stored level f : In f (level_files demo_client false level) -> level <> SnapshotLevel -> f = mkFileInfo 0 2 2 1 6.
Proof.
  intros Hf Hl. apply In_filter_bool in Hf as [Hlev Hf]. apply Z.eqb_eq in Hlev.
  destruct Hf as [<-|[<-|[]]]; [|done]. simpl in Hlev. by destruct Hl.
Qed.

Lemma demo_good : @good_storage _ _ _ _ demo_age demo_cfg demo_decoder 1 _ demo_hist (fun _ => 1) demo_client 2.
Proof.
  intros level f Hf Hl. rewrite (demo_stored level f Hf Hl). split_and!; try (simpl; lia).
  intros rd [= <-]. split; simpl.
  - by intros commit [= <-].
  - intros p data [[= <- <-]|[]]. done.
  - intros p t _ _ Hp Hr. destruct Hp. assert (p = 1) as -> by lia. left.
Qed.

Lemma demo_between : between 1 demo_hist 1 (Z.max 1 1) (w_file demo_world).
Proof.
  intros p _. unfold same_at, file_page, demo_hist. simpl.
  destruct (Z.eqb_spec p 1) as [->|Hne]; [done|].
  destruct (Z.leb_spec 1 p), (Z.leb_spec p 1); simpl; done || lia.
Qed.

Lemma applyNewLTXFiles_exact_witness :
  exists w', applyNewLTXFiles demo_age demo_cfg demo_decoder 1 no_fault no_rand demo_client demo_world 1 = (w', 2, Ok ()) /\
    at_txid 1 demo_hist 2 (w_file w').
Proof.
  destruct (applyNewLTXFiles demo_age demo_cfg demo_decoder 1 no_fault no_rand demo_client demo_world 1) as [[w' t] r] eqn:E.
  pose proof (applyNewLTXFiles_exact demo_age demo_cfg demo_decoder 1 no_fault no_rand demo_hist (fun _ => 1)
    demo_hist_size (fun _ => Z.le_refl 1) demo_client 2 1 1 demo_world w' t r demo_good ltac:(lia) ltac:(lia) demo_between E) as (_ & Hx & _).
  exists w'. vm_compute in E. injection E as <- <- <-. split; [reflexivity|]. apply Hx; [reflexivity|lia].
Defined.

Lemma follow_resumable_witness :
  exists w', follow demo_age demo_cfg demo_decoder 1 no_fault no_rand [demo_client] demo_world 1 = (w', 2, Ok ()) /\
    exists s hi', w_saved w' = Some s /\ 2 = s /\ between 1 demo_hist s (Z.max hi' s) (w_file w').
Proof.
  destruct (follow demo_age demo_cfg demo_decoder 1 no_fault no_rand [demo_client] demo_world 1) as [[w' t] r] eqn:E.
  destruct (follow_resumable demo_age demo_cfg demo_decoder 1 no_fault no_rand demo_hist (fun _ => 1)
    demo_hist_size (fun _ => Z.le_refl 1) [demo_client] 2 1 1 demo_world w' t r
    ltac:(constructor; [apply demo_good|constructor]) ltac:(lia) ltac:(lia) eq_refl demo_between E) as (s & hi' & Hs & _ & Ht & _ & Hb).
  exists w'. vm_compute in E. injection E as <- <- <-. split; [reflexivity|]. exists s, hi'. split; [done|]. split; [by apply Ht|done].
Defined.

(** The follower that has applied transaction 2 is refused when it restarts. *)
Lemma resume_follow_iff_witness :
  resume_follow demo_client (mkWorld (mkFile {[ 1 := [x02] ]} 1) (Some 2) 0) <> Ok 2.
Proof.
  intros E. apply (@resume_follow_iff Mem.client Mem.client_ops Mem.client_laws demo_client (mkWorld (mkFile {[ 1 := [x02] ]} 1) (Some 2) 0)
    (mkIter [mkFileInfo 9 1 1 1 5] None None) 2 ltac:(vm_compute; reflexivity) eq_refl) in E as (_ & _ & Hf).
  specialize (Hf (mkFileInfo 9 1 1 1 5) eq_refl). simpl in Hf. lia.
Defined.

Lemma demo_healthy : @healthy _ _ _ _ demo_age demo_cfg demo_decoder 1 no_fault _ demo_client.
Proof.
  split.
  - done.
  - intros level seek. eexists. split; reflexivity.
  - intros level f Hf Hl. rewrite (demo_stored level f Hf Hl). split_and!; try (simpl; lia). eexists _, _. split_and!; reflexivity.
Qed.

Lemma follow_progress_witness :
  exists w' t, applyNewLTXFiles demo_age demo_cfg demo_decoder 1 no_fault no_rand demo_client demo_world 1 = (w', t, Ok ()) /\ 1 < t.
Proof.
  apply (follow_progress demo_age demo_cfg demo_decoder 1 no_fault no_rand demo_client demo_healthy demo_world 1); [lia|].
  left. exists (mkFileInfo 0 2 2 1 6). split; [|reflexivity]. vm_compute. left. reflexivity.
Defined.
