(* ===== verification/Db.v ===== *)
(** * The database: from the WAL to LTX files

    Model of the synchronisation of src/db.go: the position and its cache
    ([MaxLTX], [Pos]), the verification of the WAL against the last LTX file
    ([verify], [lastPageMatch], [detectFullCheckpoint]), the creation of the next
    level-0 file ([sync], [writeLTXFromDB], [writeLTXFromWAL]), checkpoints
    ([checkpointIfNeeded], [checkpoint]) and the operations that reset local state.

    The database file and the WAL are byte strings that do not change while one of
    these functions reads them; between the steps of a checkpoint other writers may
    act.  SQLite itself is an interface.  LTX files are kept decoded: the format
    belongs to the ltx package. *)

From Stdlib Require Import ZArith Lia Strings.Byte.
From stdpp Require Import base numbers list strings gmap sorting.
From S2P Require Import Prelude WalReader Ltx Streams Compactor Replica.
Local Open Scope Z_scope.

(** A decoded LTX file. *)
Record ltxFile := mkLTX {
  lf_PageSize : Z;
  lf_Commit : Z;
  lf_MinTXID : TXID;
  lf_MaxTXID : TXID;
  lf_WALOffset : Z;
  lf_WALSize : Z;
  lf_WALSalt1 : Z;
  lf_WALSalt2 : Z;
  lf_pages : list (Z * list byte)
}.

(** What SQLite writes and the code reads. *)
Record files := mkFiles { f_db : list byte; f_wal : option (list byte) }.

(** The level-0 directory: the decoded file, or the error of decoding it. *)
Abbreviation l0dir := (gmap (TXID * TXID) (result ltxFile)).

Record DB := mkDB {
  d_pageSize : Z;
  d_l0 : l0dir;
  d_pos : option Pos;                     (* cached position *)
  d_max0 : option FileInfo;               (* cached info of level 0 *)
  d_syncedSinceCheckpoint : bool;
  d_syncedToWALEnd : bool;
  d_lastSyncedWALOffset : Z
}.

(** The thresholds of the checkpoint policy. *)
Record DBConfig := mkDBConfig {
  MinCheckpointPageN : Z;
  TruncatePageN : Z;
  CheckpointInterval : duration
}.

Definition set_pos (p : option Pos) (d : DB) : DB :=
  mkDB (d_pageSize d) (d_l0 d) p (d_max0 d) (d_syncedSinceCheckpoint d) (d_syncedToWALEnd d) (d_lastSyncedWALOffset d).

Definition set_max0 (m : option FileInfo) (d : DB) : DB :=
  mkDB (d_pageSize d) (d_l0 d) (d_pos d) m (d_syncedSinceCheckpoint d) (d_syncedToWALEnd d) (d_lastSyncedWALOffset d).

Definition set_syncedToWALEnd (b : bool) (d : DB) : DB :=
  mkDB (d_pageSize d) (d_l0 d) (d_pos d) (d_max0 d) (d_syncedSinceCheckpoint d) b (d_lastSyncedWALOffset d).

Definition set_syncedSinceCheckpoint (b : bool) (d : DB) : DB :=
  mkDB (d_pageSize d) (d_l0 d) (d_pos d) (d_max0 d) b (d_syncedToWALEnd d) (d_lastSyncedWALOffset d).

(** The file system operations that can fail. *)
Inductive fsop : Type :=
| ReadL0Dir | OpenLTX | StatDB | StatWAL | OpenWAL | MkdirTemp | OpenTemp | EncodeHeader | EncodePage (pgno : Z)
| CloseEncoder | SyncTemp | CloseTemp | RenameTemp | RemoveL0 | RemoveFile.

(** The environment of a call: failing operations, the context and the clock; [e_kept] are the
    files that are left when the removal of a directory fails. *)
Record env := mkEnv { e_fault : fsop -> option error; e_ctx : context; e_cancel : Z -> option error; e_now : time; e_kept : TXID * TXID -> bool }.

Definition io (e : env) (op : fsop) : result () :=
  match e_fault e op with Some err => Err err | None => Ok () end.

(** ** Position *)

(** The entries of the directory in file name order. *)
Definition entry_le (a b : (TXID * TXID) * result ltxFile) : Prop :=
  a.1.1 < b.1.1 \/ (a.1.1 = b.1.1 /\ a.1.2 <= b.1.2).

#[export] Instance entry_le_dec a b : Decision (entry_le a b).
Proof. unfold entry_le. apply _. Defined.

Definition ReadDir (l0 : l0dir) : list ((TXID * TXID) * result ltxFile) := merge_sort entry_le (map_to_list l0).

(** The loop of [MaxLTX]. *)
Definition max_entry (acc : TXID * TXID) (ents : list ((TXID * TXID) * result ltxFile)) : TXID * TXID :=
  fold_left (fun acc ent => if snd acc <? snd (fst ent) then fst ent else acc) ents acc.

Definition MaxLTX (e : env) (d : DB) : result (TXID * TXID) :=
  match e_fault e ReadL0Dir with
  | Some err => if os_IsNotExist err then Ok (0, 0) else Err err
  | None => Ok (max_entry (0, 0) (ReadDir (d_l0 d)))
  end.

(** [os.Open] of a level-0 file. *)
Definition open_l0 (e : env) (d : DB) (minTXID maxTXID : TXID) : result (result ltxFile) :=
  _ ← io e OpenLTX;
  match d_l0 d !! (minTXID, maxTXID) with
  | None => Err (EPath "open" ErrNotExist)
  | Some r => Ok r
  end.

Definition ltxPath (minTXID maxTXID : TXID) : string := "ltx/0".

Definition ltx_error (op : string) (minTXID maxTXID : TXID) (err : error) : error :=
  NewLTXError op (ltxPath minTXID maxTXID) 0 minTXID maxTXID err.

Definition DB_Pos (e : env) (d : DB) : DB * result Pos :=
  match d_pos d with
  | Some p => (d, Ok p)
  | None =>
      match MaxLTX e d with
      | Err err => (d, Err err)
      | Panic m => (d, Panic m)
      | Ok (minTXID, maxTXID) =>
          if minTXID =? 0 then (d, Ok zeroPos) else
          match open_l0 e d minTXID maxTXID with
          | Err err => (d, Err (ltx_error "open" minTXID maxTXID err))
          | Panic m => (d, Panic m)
          | Ok (Err err) => (d, Err (ltx_error "verify" minTXID maxTXID (EJoin ErrLTXCorrupted err)))
          | Ok (Panic m) => (d, Panic m)
          | Ok (Ok f) =>
              let pos := mkPos (lf_MaxTXID f) 0 in
              (set_pos (Some pos) d, Ok pos)
          end
      end
  end.

Definition invalidatePosCache (d : DB) : DB := set_pos None d.

(** ** Local state *)

(** [os.RemoveAll] of the level-0 directory: it removes all it can and reports its first error. *)
Definition RemoveAll (e : env) (l0 : l0dir) : l0dir * option error :=
  match e_fault e RemoveL0 with
  | Some err => (filter (fun kx => e_kept e kx.1 = true) l0, Some err)
  | None => (∅, None)
  end.

(** An error other than a missing directory returns before the caches are cleared. *)
Definition ResetLocalState (e : env) (d : DB) : DB * result () :=
  let '(l0, err) := RemoveAll e (d_l0 d) in
  let d := mkDB (d_pageSize d) l0 (d_pos d) (d_max0 d) (d_syncedSinceCheckpoint d) (d_syncedToWALEnd d) (d_lastSyncedWALOffset d) in
  match err with
  | Some err => if os_IsNotExist err then (invalidatePosCache (set_max0 None d), Ok ()) else (d, Err (EWrap "remove ltx directory" err))
  | None => (invalidatePosCache (set_max0 None d), Ok ())
  end.

Definition deleteLocalLTXFile (e : env) (d : DB) (minTXID maxTXID : TXID) : DB * result () :=
  match e_fault e RemoveFile with
  | Some err => if os_IsNotExist err then (invalidatePosCache d, Ok ()) else (d, Err err)
  | None => (invalidatePosCache (mkDB (d_pageSize d) (base.delete (minTXID, maxTXID) (d_l0 d)) (d_pos d) (d_max0 d)
               (d_syncedSinceCheckpoint d) (d_syncedToWALEnd d) (d_lastSyncedWALOffset d)), Ok ())
  end.

(** ** Reading the WAL *)

Definition walSize (fs : files) : Z := match f_wal fs with Some w => Z.of_nat (length w) | None => 0 end.

(** A missing WAL has size 0. *)
Definition walFileSize (e : env) (fs : files) : result Z :=
  match e_fault e StatWAL with
  | Some err => if os_IsNotExist err then Ok 0 else Err err
  | None => Ok (walSize fs)
  end.

Definition ErrUnexpectedEOF : error := EVar "unexpected EOF".

Definition open_wal (e : env) (fs : files) : result (list byte) :=
  _ ← io e OpenWAL;
  match f_wal fs with None => Err (EPath "open" ErrNotExist) | Some w => Ok w end.

Definition readWALHeader (e : env) (fs : files) : result (list byte) :=
  w ← open_wal e fs;
  if Z.of_nat (length w) <? WALHeaderSize
  then Err (if (length w =? 0)%nat then io_EOF else ErrUnexpectedEOF)
  else Ok (slice w 0 WALHeaderSize).

Definition readWALFileAt (e : env) (fs : files) (offset n : Z) : result (list byte) :=
  w ← open_wal e fs;
  match file_readAt w n offset with (_, Some err) => Err err | (b, None) => Ok b end.

(** A reader on a WAL that does not change. *)
Definition wal_reader (w : list byte) : nat -> ReaderAt := fun _ => file_readAt w.
Definition wal_source (w : list byte) : size_source := HasStat (Ok (Z.of_nat (length w))).
(** Enough iterations for any scan: every frame has at least one byte. *)
Definition wal_fuel (w : list byte) : nat := S (length w).

(** ** Verification *)

Record syncInfo := mkInfo {
  i_offset : Z;
  i_salt1 : Z;
  i_salt2 : Z;
  i_snapshotting : bool;
  i_reason : string
}.

Definition lastPageMatch (e : env) (fs : files) (f : ltxFile) (prevWALOffset frameSize : Z) : result bool :=
  if prevWALOffset <=? WALHeaderSize then Ok false else
  frame ← readWALFileAt e fs prevWALOffset frameSize wrapping "cannot read last synced wal page";
  let pgno := Uint32 BigEndian frame in
  let fsalt1 := Uint32 BigEndian (drop 8 frame) in
  let fsalt2 := Uint32 BigEndian (drop 12 frame) in
  let data := drop (Z.to_nat WALFrameHeaderSize) frame in
  if negb (fsalt1 =? lf_WALSalt1 f) || negb (fsalt2 =? lf_WALSalt2 f) then Ok false else
  Ok (existsb (fun pg => (fst pg =? pgno) && bool_decide (snd pg = data)) (lf_pages f)).

Definition detectFullCheckpoint (e : env) (fs : files) (knownSalts : list (Z * Z)) : result bool :=
  w ← open_wal e fs wrapping "open wal file";
  let lastKnownSalt := List.last knownSalts (0, 0) in
  rd ← NewWALReader (wal_reader w) (wal_source w) wrapping "new wal reader";
  match FrameSaltsUntil (wal_fuel w) lastKnownSalt rd with
  | None => Panic "out of fuel"
  | Some (Err err, _) => Err (EWrap "frame salts until" err)
  | Some (Panic m, _) => Panic m
  | Some (Ok m, _) => Ok (negb (bool_decide (m ∖ list_to_set knownSalts = ∅)))
  end.

(** The salts of a WAL header. *)
Definition hdr_salts (hdr : list byte) : Z * Z := (Uint32 BigEndian (drop 16 hdr), Uint32 BigEndian (drop 20 hdr)).

(** The part of [verify] after the position is known and its file decoded. *)
Definition verify_file (e : env) (fs : files) (d : DB) (f : ltxFile) : DB * result syncInfo :=
  let frameSize := d_pageSize d + WALFrameHeaderSize in
  let info := mkInfo (lf_WALOffset f + lf_WALSize f) (lf_WALSalt1 f) (lf_WALSalt2 f) true "" in
  match (_ ← io e StatWAL; match f_wal fs with None => Err (EPath "stat" ErrNotExist) | Some w => Ok w end)
        wrapping "open wal file" with
  | Err err => (d, Err err)
  | Panic m => (d, Panic m)
  | Ok w =>
      if Z.of_nat (length w) <? i_offset info then
        if d_syncedToWALEnd d then
          let d := set_syncedToWALEnd false d in
          (d, hdr ← readWALHeader e fs wrapping "read wal header after expected truncation";
              let '(salt1, salt2) := hdr_salts hdr in
              Ok (mkInfo WALHeaderSize salt1 salt2 false ""))
        else
          (d, Ok (mkInfo (i_offset info) (i_salt1 info) (i_salt2 info) true
                    "wal truncated past last sync position, snapshotting"))
      else
        (d, hdr0 ← readWALHeader e fs wrapping "cannot read wal header";
            let '(salt1, salt2) := hdr_salts hdr0 in
            let saltMatch := (salt1 =? lf_WALSalt1 f) && (salt2 =? lf_WALSalt2 f) in
            let resume := mkInfo (i_offset info) (i_salt1 info) (i_salt2 info) false "" in
            let snapshot reason := mkInfo (i_offset info) (i_salt1 info) (i_salt2 info) true reason in
            if i_offset info =? WALHeaderSize then
              Ok (if saltMatch then resume else snapshot "wal header salt reset, snapshotting")
            else
              let prevWALOffset := i_offset info - frameSize in
              if prevWALOffset =? WALHeaderSize then
                Ok (if saltMatch then resume else snapshot "wal header salt reset, snapshotting")
              else if prevWALOffset <? WALHeaderSize then
                Err (EMsg "prev WAL offset is less than the header size")
              else
                mtch ← lastPageMatch e fs f prevWALOffset frameSize wrapping "last page match";
                if negb mtch then
                  Ok (snapshot "last page does not exist in last ltx file, wal overwritten by another process")
                else if negb saltMatch then
                  detected ← detectFullCheckpoint e fs [(salt1, salt2); (lf_WALSalt1 f, lf_WALSalt2 f)]
                               wrapping "detect full checkpoint";
                  Ok (mkInfo WALHeaderSize salt1 salt2 detected
                        (if detected then "full or restart checkpoint detected, snapshotting" else ""))
                else Ok resume)
  end.

Definition verify (e : env) (fs : files) (d : DB) : DB * result syncInfo :=
  match DB_Pos e d with
  | (d, Err err) => (d, Err (EWrap "pos" err))
  | (d, Panic m) => (d, Panic m)
  | (d, Ok pos) =>
      if TXID_ pos =? 0 then (d, Ok (mkInfo WALHeaderSize 0 0 true "")) else
      match open_l0 e d (TXID_ pos) (TXID_ pos) with
      | Err err => (d, Err (ltx_error "open" (TXID_ pos) (TXID_ pos) err))
      | Panic m => (d, Panic m)
      | Ok (Err err) => (d, Err (ltx_error "decode" (TXID_ pos) (TXID_ pos) (EJoin ErrLTXCorrupted err)))
      | Ok (Panic m) => (d, Panic m)
      | Ok (Ok f) => verify_file e fs d f
      end
  end.

(** ** Writing LTX files *)

Section Sync.
(** [ltx.LockPgno], the page of SQLite's lock bytes, and [Encoder.N], the size of a
    file. *)
Variable LockPgno : Z -> Z.
Variable enc_N : ltxFile -> Z.

(** [walFile.ReadAt] of the page of a frame. *)
Definition read_frame_page (w : list byte) (pageSize offset : Z) : result (list byte) :=
  match file_readAt w pageSize (offset + WALFrameHeaderSize) with
  | (_, Some err) => Err (EWrap "read page" err)
  | (b, None) => Ok b
  end.

Definition read_db_page (db : list byte) (pageSize pgno : Z) : result (list byte) :=
  match file_readAt db pageSize ((pgno - 1) * pageSize) with
  | (_, Some err) => Err (EWrap "read database page" err)
  | (b, None) => Ok b
  end.

Definition encode_page (e : env) (pgno : Z) (data : list byte) : result (Z * list byte) :=
  match e_fault e (EncodePage pgno) with
  | Some err => Err (EWrap "encode ltx frame" err)
  | None => Ok (pgno, data)
  end.

Fixpoint writeLTXFromDB_loop (e : env) (pageSize : Z) (db w : list byte) (pageMap : gmap Z Z) (pgnos : list Z)
    : result (list (Z * list byte)) :=
  match pgnos with
  | [] => Ok []
  | pgno :: pgnos =>
      if pgno =? LockPgno pageSize then writeLTXFromDB_loop e pageSize db w pageMap pgnos else
      match e_cancel e pgno with
      | Some cause => Err cause
      | None =>
          data ← match pageMap !! pgno with
                 | Some offset => read_frame_page w pageSize offset
                 | None => read_db_page db pageSize pgno
                 end;
          pg ← encode_page e pgno data;
          pages ← writeLTXFromDB_loop e pageSize db w pageMap pgnos;
          Ok (pg :: pages)
      end
  end.

(** The pages 1 to [commit]. *)
Definition writeLTXFromDB (e : env) (pageSize : Z) (db w : list byte) (commit : Z) (pageMap : gmap Z Z)
    : result (list (Z * list byte)) :=
  writeLTXFromDB_loop e pageSize db w pageMap (seqZ 1 commit).

Fixpoint writeLTXFromWAL_loop (e : env) (pageSize : Z) (w : list byte) (pages : list (Z * Z))
    : result (list (Z * list byte)) :=
  match pages with
  | [] => Ok []
  | (pgno, offset) :: pages =>
      data ← read_frame_page w pageSize offset;
      pg ← encode_page e pgno data;
      rest ← writeLTXFromWAL_loop e pageSize w pages;
      Ok (pg :: rest)
  end.

(** The pages of the map in ascending order. *)
Definition pgno_le (a b : Z * Z) : Prop := a.1 <= b.1.

#[export] Instance pgno_le_dec a b : Decision (pgno_le a b).
Proof. unfold pgno_le. apply _. Defined.

Definition writeLTXFromWAL (e : env) (pageSize : Z) (w : list byte) (pageMap : gmap Z Z)
    : result (list (Z * list byte)) :=
  writeLTXFromWAL_loop e pageSize w (merge_sort pgno_le (map_to_list pageMap)).

(** The reader of [sync], and the offset it starts from. *)
Definition open_reader (w : list byte) (info : syncInfo) : result (Z * WALReader) :=
  if i_offset info =? WALHeaderSize then
    rd ← NewWALReader (wal_reader w) (wal_source w) wrapping "new wal reader"; Ok (i_offset info, rd)
  else
    match NewWALReaderWithOffset (wal_reader w) (wal_source w) (i_offset info) (i_salt1 info) (i_salt2 info) with
    | Ok rd => Ok (i_offset info, rd)
    | Err (EPrevFrame _) =>
        match NewWALReader (wal_reader w) (wal_source w) with
        | Ok rd => Ok (WALHeaderSize, rd)
        | Err _ => Err (EMsg "new wal reader, after reset")
        | Panic m => Panic m
        end
    | Err err => Err (EWrap "new wal reader with offset" err)
    | Panic m => Panic m
    end.

(** The part of [sync] that writes the temporary file, once the WAL is scanned. *)
Definition write_ltx (e : env) (fs : files) (w : list byte) (pageSize : Z) (info : syncInfo) (txID : TXID)
    (offset sz commit salt1 salt2 : Z) (pageMap : gmap Z Z) : result (option ltxFile) :=
  if negb (i_snapshotting info) && (sz =? 0) then Ok None else
  _ ← io e MkdirTemp;
  _ ← (io e OpenTemp wrapping "open temp ltx file");
  _ ← (io e EncodeHeader wrapping "encode ltx header");
  pages ← (if i_snapshotting info
           then writeLTXFromDB e pageSize (f_db fs) w commit pageMap wrapping "write ltx from db"
           else writeLTXFromWAL e pageSize w pageMap wrapping "write ltx from wal");
  _ ← (io e CloseEncoder wrapping "close ltx encoder");
  _ ← (io e SyncTemp wrapping "sync ltx file");
  _ ← (io e CloseTemp wrapping "close ltx file");
  Ok (Some (mkLTX pageSize commit txID txID offset sz salt1 salt2 pages)).

(** The file that [sync] writes, or nothing to write. *)
Definition build_ltx (e : env) (fs : files) (pageSize : Z) (info : syncInfo) (txID : TXID) : result (option ltxFile) :=
  _ ← io e StatDB;
  let commit := u32 (Z.quot (Z.of_nat (length (f_db fs))) pageSize) in
  w ← open_wal e fs;
  '(offset, rd) ← open_reader w info;
  match PageMap (wal_fuel w) (e_ctx e) rd with
  | None => Panic "out of fuel"
  | Some (Err err, _) => Err (EWrap "page map" err)
  | Some (Panic m, _) => Panic m
  | Some (Ok (pageMap, maxOffset, walCommit), rd) =>
      let commit := if 0 <? walCommit then walCommit else commit in
      let sz := if 0 <? maxOffset then maxOffset - offset else 0 in
      _ ← assert (0 <=? sz) "wal size must be positive";
      write_ltx e fs w pageSize info txID offset sz commit (wr_salt1 rd) (wr_salt2 rd) pageMap
  end.

(** Installs the file under its name and updates the caches. *)
Definition install_ltx (e : env) (fs : files) (d : DB) (f : ltxFile) : DB * result bool :=
  match e_fault e RenameTemp with
  | Some err =>
      (mkDB (d_pageSize d) (d_l0 d) None None (d_syncedSinceCheckpoint d) (d_syncedToWALEnd d) (d_lastSyncedWALOffset d),
       Err (EWrap "rename ltx file" err))
  | None =>
      let txID := lf_MaxTXID f in
      let finalOffset := lf_WALOffset f + lf_WALSize f in
      (mkDB (d_pageSize d) (<[(txID, txID) := Ok f]> (d_l0 d)) (Some (mkPos txID 0))
         (Some (mkFileInfo 0 txID txID (enc_N f) (e_now e))) (d_syncedSinceCheckpoint d)
         (match walFileSize e fs with Ok sz => finalOffset =? sz | _ => false end) finalOffset,
       Ok true)
  end.

Definition sync (e : env) (fs : files) (d : DB) (info : syncInfo) : DB * result bool :=
  match DB_Pos e d with
  | (d, Err err) => (d, Err (EWrap "pos" err))
  | (d, Panic m) => (d, Panic m)
  | (d, Ok pos) =>
      match build_ltx e fs (d_pageSize d) info (txid_succ (TXID_ pos)) with
      | Err err => (d, Err err)
      | Panic m => (d, Panic m)
      | Ok None => (d, Ok false)
      | Ok (Some f) => install_ltx e fs d f
      end
  end.

Definition verifyAndSync (e : env) (fs : files) (d : DB) : DB * result (Z * Z * bool) :=
  match (if d_lastSyncedWALOffset d =? 0 then walFileSize e fs wrapping "stat wal before sync"
         else Ok (d_lastSyncedWALOffset d)) with
  | Err err => (d, Err err)
  | Panic m => (d, Panic m)
  | Ok origWALSize =>
      match verify e fs d with
      | (d, Err err) => (d, Err (EWrap "cannot verify wal state" err))
      | (d, Panic m) => (d, Panic m)
      | (d, Ok info) =>
          match sync e fs d info with
          | (d, Err err) => (d, Err (EWrap "sync" err))
          | (d, Panic m) => (d, Panic m)
          | (d, Ok synced) => (d, Ok (origWALSize, d_lastSyncedWALOffset d, synced))
          end
      end
  end.

(** ** Checkpoints *)

(** The SQL that a checkpoint runs.  A statement that fails may have changed the
    files; [read_unlock] and [read_lock] end and begin the long-running read
    transaction. *)
Class SQLite := {
  read_unlock : result ();
  read_lock : result ();
  wal_checkpoint : string -> files -> files * result ();
  bump_seq : files -> files * result ();
  begin_tx : result ();
  write_lock : result ();
  rollback_tx : result ()
}.
Context `{SQLite}.

Definition calcWALSize (pageSize pageN : Z) : Z :=
  WALHeaderSize + u32 (WALFrameHeaderSize + pageSize) * pageN.

Definition CheckpointModePassive : string := "PASSIVE".
Definition CheckpointModeTruncate : string := "TRUNCATE".

(** [execCheckpoint]; [window] are the transactions that other connections commit
    before the checkpoint gets its lock. *)
Definition execCheckpoint (window : files -> files) (mode : string) (fs : files) : files * result () :=
  match read_unlock wrapping "release read lock" with
  | Err err => (fs, Err err)
  | Panic m => (fs, Panic m)
  | Ok () =>
      match wal_checkpoint mode (window fs) with
      | (fs, Ok ()) => (fs, read_lock wrapping "reacquire read lock")
      | r => r
      end
  end.

(** [checkpoint].  [e n] is the environment of its [n]-th part, [others n] the
    transactions of other connections there, and [locked] whether the checkpoint
    lock was free. *)
Definition checkpoint (e : nat -> env) (locked : bool) (others : nat -> files -> files) (mode : string)
    (fs : files) (d : DB) : DB * files * result () :=
  if negb locked then (d, fs, Ok ()) else
  match readWALHeader (e 0%nat) fs with
  | Err err => (d, fs, Err err)
  | Panic m => (d, fs, Panic m)
  | Ok hdr =>
  match verifyAndSync (e 1%nat) fs d with
  | (d, Err err) => (d, fs, Err (EWrap "cannot copy wal before checkpoint" err))
  | (d, Panic m) => (d, fs, Panic m)
  | (d, Ok _) =>
  let fs := others 1%nat fs in
  match walFileSize (e 2%nat) fs with
  | Err err => (d, fs, Err (EWrap "stat wal before checkpoint" err))
  | Panic m => (d, fs, Panic m)
  | Ok walSize =>
  let d := if negb (d_lastSyncedWALOffset d =? walSize) then set_syncedToWALEnd false d else d in
  match execCheckpoint (others 2%nat) mode fs with
  | (fs, Err err) => (d, fs, Err err)
  | (fs, Panic m) => (d, fs, Panic m)
  | (fs, Ok ()) =>
  match bump_seq (others 3%nat fs) with
  | (fs, Err err) => (d, fs, Err err)
  | (fs, Panic m) => (d, fs, Panic m)
  | (fs, Ok ()) =>
  match readWALHeader (e 3%nat) fs with
  | Err err => (d, fs, Err err)
  | Panic m => (d, fs, Panic m)
  | Ok other =>
  if bool_decide (hdr = other) then (set_syncedSinceCheckpoint false d, fs, Ok ()) else
  let fs := others 4%nat fs in
  match (_ ← (begin_tx wrapping "begin"); write_lock wrapping "_replicate_lock") with
  | Err err => (d, fs, Err err)
  | Panic m => (d, fs, Panic m)
  | Ok () =>
  match verifyAndSync (e 4%nat) fs d with
  | (d, Err err) => (d, fs, Err (EWrap "cannot copy wal after checkpoint" err))
  | (d, Panic m) => (d, fs, Panic m)
  | (d, Ok _) =>
  match rollback_tx wrapping "rollback post-checkpoint tx" with
  | Err err => (d, fs, Err err)
  | Panic m => (d, fs, Panic m)
  | Ok () => (set_syncedSinceCheckpoint false d, fs, Ok ())
  end end end end end end end end end.

(** The text of an error, as [Error] prints it (without paths and numbers). *)
Fixpoint Error (err : error) : string :=
  match err with
  | EVar text | EMsg text => text
  | EWrap text c => text ++ ": " ++ Error c
  | EPath op c => op ++ ": " ++ Error c
  | ELTX op path _ _ _ c _ => op ++ " ltx file " ++ path ++ ": " ++ Error c
  | EPrevFrame c => "prev frame mismatch: " ++ Error c
  | ELeaseExists owner _ => "lease already held by " ++ owner
  | EDBNotReady reason => "db not ready: " ++ reason
  | EJoin e1 e2 => Error e1 ++ ": " ++ Error e2
  end%string.

Definition strings_Contains (s sub : string) : bool :=
  match String.index 0 sub s with Some _ => true | None => false end.

Definition isSQLiteBusyError (err : error) : bool :=
  strings_Contains (Error err) "database is locked" || strings_Contains (Error err) "SQLITE_BUSY".

(** The decision of [checkpointIfNeeded]; [modTime] is the result of [db.f.Stat]. *)
Definition checkpoint_decision (cfg : DBConfig) (d : DB) (origWALSize newWALSize : Z) (modTime : result time) (now : time)
    : result (option string) :=
  if d_pageSize d =? 0 then Ok None
  else if (0 <? TruncatePageN cfg) && (calcWALSize (u32 (d_pageSize d)) (u32 (TruncatePageN cfg)) <=? origWALSize)
  then Ok (Some CheckpointModeTruncate)
  else if calcWALSize (u32 (d_pageSize d)) (u32 (MinCheckpointPageN cfg)) <=? newWALSize
  then Ok (Some CheckpointModePassive)
  else if (0 <? CheckpointInterval cfg) && d_syncedSinceCheckpoint d then
    modTime ← modTime wrapping "stat database";
    Ok (if (CheckpointInterval cfg <? now - modTime) && (calcWALSize (u32 (d_pageSize d)) 1 <? newWALSize)
        then Some CheckpointModePassive else None)
  else Ok None.

(** A passive checkpoint that finds the database busy is skipped. *)
Definition checkpointIfNeeded (e : nat -> env) (locked : bool) (others : nat -> files -> files) (cfg : DBConfig)
    (fs : files) (d : DB) (origWALSize newWALSize : Z) (modTime : result time) : DB * files * result () :=
  match checkpoint_decision cfg d origWALSize newWALSize modTime (e_now (e 0%nat)) with
  | Err err => (d, fs, Err err)
  | Panic m => (d, fs, Panic m)
  | Ok None => (d, fs, Ok ())
  | Ok (Some mode) =>
      match checkpoint e locked others mode fs d with
      | (d, fs, Err err) =>
          (d, fs, if bool_decide (mode = CheckpointModePassive) && isSQLiteBusyError err then Ok () else Err err)
      | r => r
      end
  end.

(** [Sync] once the database is initialised and its WAL exists. *)
Definition DB_Sync (e0 : env) (e : nat -> env) (locked : bool) (others : nat -> files -> files) (cfg : DBConfig)
    (fs : files) (d : DB) (modTime : result time) : DB * files * result Pos :=
  match verifyAndSync e0 fs d with
  | (d, Err err) => (d, fs, Err err)
  | (d, Panic m) => (d, fs, Panic m)
  | (d, Ok (origWALSize, newWALSize, synced)) =>
      let d := if synced then set_syncedSinceCheckpoint true d else d in
      match checkpointIfNeeded e locked others cfg fs d origWALSize newWALSize modTime with
      | (d, fs, Err err) => (d, fs, Err (EWrap "checkpoint" err))
      | (d, fs, Panic m) => (d, fs, Panic m)
      | (d, fs, Ok ()) =>
          match DB_Pos (e 5%nat) d with
          | (d, r) => (d, fs, r wrapping "pos")
          end
      end
  end.
End Sync.

(** ** Frames of an unchanging WAL *)

Lemma readFrame_fields r n v :
  wr_salt1 (readFrame r n v).2 = wr_salt1 r /\ wr_salt2 (readFrame r n v).2 = wr_salt2 r /\
  wr_pageSize (readFrame r n v).2 = wr_pageSize r.
Proof.
  unfold readFrame. case_if; [done|]. case_if; [done|].
  destruct (wr_read r _ _ _) as [hdr err]. case_if; [done|]. destruct err; [done|].
  destruct (wr_read (tick 1 r) _ _ _) as [data err']. case_if; [done|]. destruct err'; [done|].
  unfold checkFrame. case_if; [done|]. destruct v; [|done].
  destruct (WALChecksum _ _ _ (take 8 hdr)) as [[a1 a2]| |]; [simpl|done..].
  destruct (WALChecksum _ a1 a2 data) as [[c1 c2]| |]; [simpl|done..]. by case_if.
Qed.

Lemma frames_fields fuel r frs r' :
  frames fuel r = Some (frs, r') ->
  wr_salt1 r' = wr_salt1 r /\ wr_salt2 r' = wr_salt2 r /\ wr_pageSize r' = wr_pageSize r.
Proof.
  revert r frs. induction fuel as [|fuel IH]; intros r frs HF; [done|]. cbn [frames] in HF.
  pose proof (readFrame_fields r (wr_pageSize r) true) as Hx. unfold ReadFrame in HF.
  destruct (readFrame r (wr_pageSize r) true) as [[[[p c] data]|e|m] r1]; [| |done].
  - destruct (frames fuel r1) as [[frs1 r2]|] eqn:E; [|done]. injection HF as <- <-.
    destruct (IH _ _ E) as (-> & -> & ->). done.
  - case_if; [|done]. by injection HF as <- <-.
Qed.

Lemma frames_mono fuel fuel' r x : frames fuel r = Some x -> (fuel <= fuel')%nat -> frames fuel' r = Some x.
Proof.
  revert fuel' r x. induction fuel as [|fuel IH]; intros fuel' r x HF Hle; [done|].
  destruct fuel' as [|fuel']; [lia|]. cbn [frames] in *.
  destruct (ReadFrame r (wr_pageSize r)) as [[[[p c] data]|e|m] r1]; [|done..].
  destruct (frames fuel r1) as [[frs1 r2]|] eqn:E; [|done].
  rewrite (IH fuel' _ _ E) by lia. done.
Qed.

(** The call counter has no influence. *)
Lemma frames_unclock fuel r1 r2 frs r1' :
  static (wr_read r1) -> unclock r1 = unclock r2 -> frames fuel r1 = Some (frs, r1') ->
  exists r2', frames fuel r2 = Some (frs, r2').
Proof.
  revert r1 r2 frs. induction fuel as [|fuel IH]; intros r1 r2 frs Hst Heq HF; [done|]. cbn [frames] in *.
  unfold ReadFrame in *. destruct (readFrame_unclock r1 r2 (wr_pageSize r1) true Hst Heq) as [Hx Hr].
  assert (wr_pageSize r2 = wr_pageSize r1) as ->.
  { change (wr_pageSize (unclock r2) = wr_pageSize (unclock r1)). by rewrite Heq. }
  destruct (readFrame r1 (wr_pageSize r1) true) as [x1 s1] eqn:E1.
  destruct (readFrame r2 (wr_pageSize r1) true) as [x2 s2] eqn:E2. simpl in Hx, Hr. subst x2.
  destruct x1 as [[[p c] data]|e|m]; [| |done].
  - destruct (frames fuel s1) as [[frs1 s1']|] eqn:E; [|done]. injection HF as <- <-.
    assert (static (wr_read s1)).
    { apply readFrame_ok_inv in E1 as (_ & _ & _ & _ & _ & _ & _ & _ & _ & ->). done. }
    destruct (IH _ _ _ H Hr E) as [s2' ->].
    assert (Offset s2 = Offset s1) as ->.
    { change (Offset (unclock s2) = Offset (unclock s1)). by rewrite Hr. }
    eauto.
  - case_if; [|done]. injection HF as <- <-. eauto.
Qed.

Lemma read_n_front n r :
  read_n (S n) r = match ReadFrame r (wr_pageSize r) with (Ok _, r1) => read_n n r1 | _ => None end.
Proof.
  revert r. induction n as [|n IH]; intros r.
  - cbn [read_n]. by destruct (ReadFrame r (wr_pageSize r)) as [[?|?|?] ?].
  - change (read_n (S (S n)) r) with
      (match read_n (S n) r with
       | Some r => match ReadFrame r (wr_pageSize r) with (Ok _, r) => Some r | _ => None end
       | None => None
       end).
    rewrite IH. by destruct (ReadFrame r (wr_pageSize r)) as [[?|?|?] ?].
Qed.

(** The frames after the first ones are those of the reader that has read them. *)
Lemma frames_split fuel r fr1 fr2 r' :
  frames fuel r = Some (fr1 ++ fr2, r') ->
  exists rn, read_n (length fr1) r = Some rn /\ frames fuel rn = Some (fr2, r').
Proof.
  revert fuel r. induction fr1 as [|f fr1 IH]; intros fuel r HF; [by exists r|].
  destruct fuel as [|fuel]; [done|]. cbn [frames] in HF. cbn [length]. rewrite read_n_front.
  destruct (ReadFrame r (wr_pageSize r)) as [[[[p c] data]|e|m] r1]; [|by case_if|done].
  destruct (frames fuel r1) as [[frs1 r2]|] eqn:E; [|done]. injection HF as _ -> ->.
  destruct (IH _ _ E) as (rn & Hn & HR). exists rn. split; [done|]. eapply frames_mono; [done|lia].
Qed.

(** Where the reader of [sync] starts. *)
Definition info_at (r0 : WALReader) (n : nat) (info : syncInfo) : Prop :=
  i_offset info = WALHeaderSize + Z.of_nat n * frameSize r0 /\
  ((0 < n)%nat -> i_salt1 info = wr_salt1 r0 /\ i_salt2 info = wr_salt2 r0).

Lemma open_reader_frames w r0 fr1 fr2 rz info :
  NewWALReader (wal_reader w) (wal_source w) = Ok r0 -> 0 < frameSize r0 ->
  frames (wal_fuel w) r0 = Some (fr1 ++ fr2, rz) -> info_at r0 (length fr1) info ->
  exists rd rz', open_reader w info = Ok (i_offset info, rd) /\ frames (wal_fuel w) rd = Some (fr2, rz') /\
    wr_frameN rd = Z.of_nat (length fr1) /\ wr_salt1 rz' = wr_salt1 r0 /\ wr_salt2 rz' = wr_salt2 r0 /\
    wr_pageSize rd = wr_pageSize r0.
Proof.
  intros Hnew Hfs HF [Hoff Hsalt]. destruct (frames_split _ _ _ _ _ HF) as (rn & Hn & HR). unfold open_reader.
  assert (wr_frameN r0 = 0 /\ wr_read r0 = wal_reader w) as [HfN Hrd].
  { unfold NewWALReader in Hnew. by destruct (readHeader_fields _ _ Hnew) as [-> ->]. }
  destruct (length fr1) as [|n] eqn:Hlen.
  - simpl in Hn. injection Hn as <-. rewrite Hoff. rewrite Z.add_0_r, Z.eqb_refl, Hnew. cbn [wrap_err mbind result_bind].
    exists r0, rz. split; [done|]. split; [done|]. split; [by rewrite HfN|].
    destruct (frames_fields _ _ _ _ HR) as (-> & -> & _). done.
  - destruct (Hsalt ltac:(lia)) as [Hs1 Hs2]. destruct (Z.eqb_spec (i_offset info) WALHeaderSize); [lia|].
    destruct (resume_reader (wal_reader w) (wal_source w) r0 n rn) as (r' & HO & Hu & Hr'); [done|done|lia|done|].
    rewrite Hoff, Hs1, Hs2, HO.
    assert (static (wr_read rn)) as Hst.
    { destruct (read_n_fields _ _ _ 0 0 0 Hn) as [_ Hu2].
      assert (wr_read rn = wr_read r0) as ->; [|by rewrite Hrd].
      change (wr_read (unclock (set_frameN 0 (set_chksum 0 0 rn))) = wr_read (unclock (set_frameN 0 (set_chksum 0 0 r0)))). by rewrite Hu2. }
    destruct (frames_unclock (wal_fuel w) rn r' fr2 rz) as [rz' HR']; [done|done|done|].
    exists r', rz'. split; [done|]. split; [done|].
    destruct (frames_fields _ _ _ _ HR') as (-> & -> & _).
    assert (forall (g : WALReader -> Z), (forall r, g (unclock r) = g r) -> g r' = g rn) as Hg by (intros g Hg; rewrite <- Hg, Hu; apply Hg).
    destruct (read_n_fields _ _ _ 0 0 0 Hn) as [HnN Hu2].
    assert (forall (g : WALReader -> Z), (forall r, g (unclock (set_frameN 0 (set_chksum 0 0 r))) = g r) -> g rn = g r0) as Hg2
      by (intros g Hg'; rewrite <- (Hg' rn), Hu2; apply Hg').
    split; [rewrite (Hg wr_frameN), HnN, HfN by done; lia|].
    split; [by rewrite (Hg wr_salt1), (Hg2 wr_salt1)|]. split; [by rewrite (Hg wr_salt2), (Hg2 wr_salt2)|].
    by rewrite (Hg wr_pageSize), (Hg2 wr_pageSize).
Qed.

(** ** The database that is replicated *)

(** The page stored in the frame at an offset, and the page of the database file. *)
Definition frame_page (w : list byte) (ps o : Z) : list byte := slice w (o + WALFrameHeaderSize) ps.
Definition db_page (db : list byte) (ps p : Z) : list byte := slice db ((p - 1) * ps) ps.

(** The size of the database: the last commit of the WAL, or the file's. *)
Definition logical_size (fs : files) (ps : Z) (frs : list frame) : Z :=
  if 0 <? last_commit frs then last_commit frs else u32 (Z.quot (Z.of_nat (length (f_db fs))) ps).

(** What SQLite reads: the latest committed frame of a page, or the database file. *)
Definition logical_page (fs : files) (w : list byte) (ps : Z) (frs : list frame) (p : Z) : option (list byte) :=
  if (1 <=? p) && (p <=? logical_size fs ps frs)
  then Some (match latest p (committed frs) with Some o => frame_page w ps o | None => db_page (f_db fs) ps p end)
  else None.

Definition lookup_page (p : Z) (pages : list (Z * list byte)) : option (list byte) :=
  snd <$> List.find (fun pg => fst pg =? p) pages.

(** What a restore makes of an LTX file: its pages over the pages before, up to its
    commit size. *)
Definition apply_ltx (f : ltxFile) (R : Z -> option (list byte)) (p : Z) : option (list byte) :=
  if (1 <=? p) && (p <=? lf_Commit f) then match lookup_page p (lf_pages f) with Some data => Some data | None => R p end
  else None.

Lemma read_frame_page_ok w ps o b : read_frame_page w ps o = Ok b -> b = frame_page w ps o.
Proof. unfold read_frame_page, file_readAt. case_if; [done|]. by intros [= <-]. Qed.

Lemma read_db_page_ok db ps p b : read_db_page db ps p = Ok b -> b = db_page db ps p.
Proof. unfold read_db_page, file_readAt. case_if; [done|]. by intros [= <-]. Qed.

Lemma encode_page_ok e p b x : encode_page e p b = Ok x -> x = (p, b).
Proof. unfold encode_page. destruct (e_fault e _); [done|]. by intros [= <-]. Qed.

Lemma lookup_page_cons p q data pages :
  lookup_page p ((q, data) :: pages) = if q =? p then Some data else lookup_page p pages.
Proof. unfold lookup_page. simpl. by destruct (q =? p). Qed.

(** The pages of a file written from the WAL. *)
Lemma writeLTXFromWAL_loop_ok e ps w l pages :
  NoDup l.*1 -> writeLTXFromWAL_loop e ps w l = Ok pages ->
  forall p, lookup_page p pages = frame_page w ps <$> (snd <$> List.find (fun kv => fst kv =? p) l).
Proof.
  intros Hnd. revert pages. induction l as [|[q o] l IH]; intros pages HW p; cbn [writeLTXFromWAL_loop] in HW.
  { by injection HW as <-. }
  simpl in Hnd. apply NoDup_cons in Hnd as [_ Hnd].
  destruct (read_frame_page w ps o) as [b|err|m] eqn:Hb; cbn [mbind result_bind] in HW; [|done..].
  destruct (encode_page e q b) as [x|err|m] eqn:Hx; cbn [mbind result_bind] in HW; [|done..].
  destruct (writeLTXFromWAL_loop e ps w l) as [rest|err|m]; cbn [mbind result_bind] in HW; [|done..].
  injection HW as <-. apply read_frame_page_ok in Hb as ->. apply encode_page_ok in Hx as ->.
  rewrite lookup_page_cons. simpl. destruct (q =? p); [done|]. by apply IH.
Qed.

Lemma find_lookup (m : gmap Z Z) (l : list (Z * Z)) p :
  l ≡ₚ map_to_list m -> snd <$> List.find (fun kv : Z * Z => fst kv =? p) l = m !! p.
Proof.
  intros Hp. destruct (List.find _ l) as [[q o]|] eqn:E.
  - apply List.find_some in E as [Hin Hq]. apply Z.eqb_eq in Hq. simpl in *. subst q.
    apply list_elem_of_In in Hin. rewrite Hp in Hin. apply elem_of_map_to_list in Hin. by rewrite Hin.
  - destruct (m !! p) as [o|] eqn:Hm; [|done]. exfalso.
    apply elem_of_map_to_list in Hm. rewrite <- Hp in Hm. apply list_elem_of_In in Hm.
    apply (List.find_none _ _ E) in Hm. simpl in Hm. rewrite Z.eqb_refl in Hm. done.
Qed.

Lemma writeLTXFromWAL_ok e ps w m pages :
  writeLTXFromWAL e ps w m = Ok pages -> forall p, lookup_page p pages = frame_page w ps <$> m !! p.
Proof.
  intros HW p. unfold writeLTXFromWAL in HW. pose proof (merge_sort_Permutation pgno_le (map_to_list m)) as Hp.
  assert (NoDup (merge_sort pgno_le (map_to_list m)).*1) as Hnd by (rewrite Hp; apply NoDup_fst_map_to_list).
  rewrite (writeLTXFromWAL_loop_ok _ _ _ _ _ Hnd HW).
  by rewrite (find_lookup m).
Qed.

(** The pages of a snapshot. *)
Lemma writeLTXFromDB_loop_ok LockPgno e ps db w m l pages :
  NoDup l -> writeLTXFromDB_loop LockPgno e ps db w m l = Ok pages ->
  forall p, lookup_page p pages =
    if decide (p ∈ l) then
      if p =? LockPgno ps then None
      else Some (match m !! p with Some o => frame_page w ps o | None => db_page db ps p end)
    else None.
Proof.
  intros Hnd. revert pages. induction l as [|q l IH]; intros pages HW p; cbn [writeLTXFromDB_loop] in HW.
  { injection HW as <-. rewrite decide_False; [done|]. apply not_elem_of_nil. }
  apply NoDup_cons in Hnd as [Hq Hnd]. destruct (Z.eqb_spec q (LockPgno ps)) as [->|Hne].
  { rewrite (IH Hnd _ HW). destruct (Z.eqb_spec p (LockPgno ps)) as [->|Hp].
    - rewrite decide_False by done. by rewrite decide_True by left.
    - destruct (decide (p ∈ l)); [by rewrite decide_True by (by right)|].
      rewrite decide_False; [done|]. by rewrite not_elem_of_cons. }
  destruct (e_cancel e q); [done|].
  destruct (match m !! q with Some o => read_frame_page w ps o | None => read_db_page db ps q end) as [b|err|x] eqn:Hb;
    cbn [mbind result_bind] in HW; [|done..].
  destruct (encode_page e q b) as [x|err|x] eqn:Hx; cbn [mbind result_bind] in HW; [|done..].
  destruct (writeLTXFromDB_loop _ _ _ _ _ _ l) as [rest|err|y]; cbn [mbind result_bind] in HW; [|done..].
  injection HW as <-. apply encode_page_ok in Hx as ->. rewrite lookup_page_cons.
  destruct (Z.eqb_spec q p) as [->|Hp].
  - rewrite decide_True by left. destruct (Z.eqb_spec p (LockPgno ps)); [done|]. f_equal.
    destruct (m !! p); [by apply read_frame_page_ok in Hb|by apply read_db_page_ok in Hb].
  - rewrite (IH Hnd rest eq_refl). destruct (decide (p ∈ l)); [by rewrite decide_True by (by right)|].
    rewrite decide_False; [done|]. by rewrite not_elem_of_cons.
Qed.

Lemma writeLTXFromDB_ok LockPgno e ps db w commit m pages :
  writeLTXFromDB LockPgno e ps db w commit m = Ok pages ->
  forall p, p <> LockPgno ps -> 1 <= p <= commit ->
    lookup_page p pages = Some (match m !! p with Some o => frame_page w ps o | None => db_page db ps p end).
Proof.
  intros HW p Hl Hp. rewrite (writeLTXFromDB_loop_ok _ _ _ _ _ _ _ _ (NoDup_seqZ _ _) HW).
  rewrite decide_True by (apply elem_of_seqZ; lia). by destruct (Z.eqb_spec p (LockPgno ps)).
Qed.

(** Offsets and commit sizes of the frames of a reader. *)
Lemma frames_nth fuel r frs r' :
  frames fuel r = Some (frs, r') -> 0 <= wr_frameN r ->
  forall i f, frs !! i = Some f ->
    fr_offset f = WALHeaderSize + (wr_frameN r + Z.of_nat i) * (WALFrameHeaderSize + wr_pageSize r) /\ 0 <= fr_commit f.
Proof.
  revert r frs. induction fuel as [|fuel IH]; intros r frs HF Hn i f Hi; [done|]. cbn [frames] in HF.
  destruct (ReadFrame r (wr_pageSize r)) as [[[[p c] data]|e|m] r1] eqn:E; [| |done].
  - destruct (frames fuel r1) as [[frs1 r2]|] eqn:HR; [|done]. injection HF as <- <-.
    apply readFrame_ok_inv in E as (_ & _ & _ & _ & _ & _ & _ & _ & -> & ->).
    destruct i as [|i]; simpl in Hi.
    + injection Hi as <-. simpl. split; [|apply Uint32_range]. unfold Offset. simpl.
      case_if; breflect; lia.
    + destruct (IH _ _ HR ltac:(simpl; lia) i f Hi) as [Ho Hc]. split; [|done].
      rewrite Ho. simpl wr_frameN. simpl wr_pageSize. lia.
  - case_if; [|done]. injection HF as <- <-. by rewrite lookup_nil in Hi.
Qed.

Lemma committed_last_commit frs f : last (committed frs) = Some f -> is_commit f = true /\ last_commit frs = fr_commit f.
Proof.
  induction frs as [|g frs IH]; [done|]. cbn [committed]. rewrite last_commit_cons.
  cbn [existsb]. destruct (existsb is_commit frs) eqn:E.
  - rewrite orb_true_r. destruct (committed frs) as [|h l] eqn:Hc.
    + exfalso. destruct frs as [|x frs]; [done|]. cbn [committed] in Hc. by rewrite E in Hc.
    + rewrite last_cons_cons. apply IH.
  - rewrite orb_false_r. destruct (is_commit g) eqn:Hg; [|done].
    rewrite committed_no_commit by done. simpl. by intros [= <-].
Qed.

Lemma committed_nil_commit frs : committed frs = [] -> last_commit frs = 0.
Proof.
  destruct frs as [|f frs]; [done|]. cbn [committed]. case_if; [done|]. intros _. rewrite last_commit_cons.
  simpl in E. by apply orb_false_iff in E as [-> ->].
Qed.

(** SQLite writes the last page of a transaction inside the database it commits. *)
Definition commit_inside (frs : list frame) : Prop :=
  forall f, last (committed frs) = Some f -> 1 <= fr_pgno f <= last_commit frs.

(** [PageMap] of a reader whose frames are known. *)
Lemma PageMap_result fuel r frs rz :
  frames fuel r = Some (frs, rz) -> 0 <= wr_frameN r -> 0 <= wr_pageSize r -> commit_inside frs ->
  exists m : gmap Z Z, (forall p, m !! p = spec_page frs p) /\
    PageMap fuel (fun _ => None) r = Some (Ok (m,
      (if bool_decide (committed frs = []) then 0
       else WALHeaderSize + (wr_frameN r + Z.of_nat (length (committed frs))) * (WALFrameHeaderSize + wr_pageSize r)),
      last_commit frs), rz) /\ 0 <= last_commit frs /\ (committed frs <> [] -> 0 < last_commit frs).
Proof.
  intros HF Hn Hps Hci. destruct (PageMap_frames fuel (fun _ => None) r frs rz (fun _ => eq_refl) HF) as (m & Hm & HP).
  exists m. split; [done|]. case_bool_decide as Hc.
  - assert (last_commit frs = 0) as Hlc by by apply committed_nil_commit.
    assert (m = ∅) as ->.
    { apply map_eq. intros p. rewrite Hm, lookup_empty. unfold spec_page. rewrite Hc. by case_if. }
    rewrite HP, Hlc. rewrite decide_True by done. split; [done|]. split; [lia|done].
  - destruct (last (committed frs)) as [g|] eqn:Hg; [|by apply last_None in Hg].
    destruct (Hci g Hg) as [Hpg Hle].
    destruct (PageMap_end_at_commit fuel (fun _ => None) r frs rz g (fun _ => eq_refl) HF Hn Hps Hg Hle) as [m' HP'].
    rewrite HP in HP'. destruct (frames_fields _ _ _ _ HF) as (_ & _ & Hpsz). rewrite Hpsz in *.
    destruct (committed_prefix frs) as [rest Hrest].
    assert (frs !! pred (length (committed frs)) = Some g) as Hnth.
    { assert (pred (length (committed frs)) < length (committed frs))%nat by (destruct (committed frs); [done|simpl; lia]).
      rewrite last_lookup in Hg. generalize dependent (pred (length (committed frs))). intros n Hg Hlt.
      rewrite Hrest. by rewrite lookup_app_l. }
    destruct (frames_nth _ _ _ _ HF Hn _ _ Hnth) as [Ho _].
    assert (m <> ∅) as Hne.
    { intros ->. specialize (Hm (fr_pgno g)). rewrite lookup_empty in Hm. unfold spec_page in Hm.
      rewrite (latest_last _ _ Hg) in Hm. destruct (Z.leb_spec (fr_pgno g) (last_commit frs)); [done|lia]. }
    rewrite decide_False in HP, HP' by done. injection HP' as _ HE. rewrite HP. split; [|split; [lia|lia]].
    rewrite HE, Ho. do 4 f_equal. destruct (committed frs); [done|]. simpl length. simpl pred. f_equal. lia.
Qed.

(** The bytes of a delivered frame. *)
Lemma frames_bytes w fuel r frs r' :
  wr_read r = wal_reader w -> frameSize r = WALFrameHeaderSize + wr_pageSize r -> 0 <= wr_frameN r -> 0 <= wr_pageSize r ->
  frames fuel r = Some (frs, r') -> forall f, In f frs ->
    let hdr := slice w (fr_offset f) WALFrameHeaderSize in
    Z.of_nat (length hdr) = WALFrameHeaderSize /\
    Z.of_nat (length (frame_page w (wr_pageSize r) (fr_offset f))) = wr_pageSize r /\
    fr_pgno f = Uint32 BigEndian hdr /\ wr_salt1 r = Uint32 BigEndian (drop 8 hdr) /\ wr_salt2 r = Uint32 BigEndian (drop 12 hdr).
Proof.
  revert r frs. induction fuel as [|fuel IH]; intros r frs Hrd Hfs Hn Hps HF f Hin; [done|]. cbn [frames] in HF.
  destruct (ReadFrame r (wr_pageSize r)) as [[[[p c] data]|e|m] r1] eqn:E; [| |done].
  - destruct (frames fuel r1) as [[frs1 r2]|] eqn:HR; [|done]. injection HF as <- <-.
    apply readFrame_ok_inv in E as (_ & _ & Hhdr & Hlen & Hdata & [Hs1 Hs2] & _ & -> & _ & ->).
    destruct Hin as [<-|Hin].
    + cbn [fr_offset fr_pgno].
      assert (Offset (after_frame r (stored_chksum (frame_hdr r)).1 (stored_chksum (frame_hdr r)).2) = frame_offset r) as Ho.
      { unfold Offset, frame_offset. simpl. case_if; breflect; [lia|].
        rewrite Hfs. by replace (wr_frameN r + 1 - 1) with (wr_frameN r) by lia. }
      rewrite Ho. unfold frame_hdr, frame_data in *. rewrite Hrd in *. unfold wal_reader, file_readAt in *.
      cbn [fst] in *. unfold frame_page. rewrite <- Hdata. done.
    + apply (IH (after_frame r (stored_chksum (frame_hdr r)).1 (stored_chksum (frame_hdr r)).2) frs1); try done. simpl. lia.
  - case_if; [|done]. by injection HF as <- <-.
Qed.

Lemma slice_prefix w w' off n :
  w `prefix_of` w' -> 0 <= off -> Z.of_nat (length (slice w off n)) = Z.max 0 n -> slice w' off n = slice w off n.
Proof.
  intros [x ->] Hoff Hl. unfold slice in *. rewrite length_take, length_drop in Hl.
  destruct (decide (n <= 0)). { by replace (Z.to_nat n) with 0%nat by lia. }
  rewrite drop_app_le by lia. rewrite take_app_le; [done|]. rewrite length_drop. lia.
Qed.

Section Replication.
Variable LockPgno : Z -> Z.
Variable enc_N : ltxFile -> Z.

(** No operation fails and the context stays open. *)
Definition quiet (e : env) : Prop :=
  (forall op, e_fault e op = None) /\ e_ctx e = (fun _ => None) /\ forall p, e_cancel e p = None.

(** Position [n] of a WAL: its reader, its frames up to there and those after. *)
Record wal_at (fs : files) (w : list byte) (r0 : WALReader) (frs rest : list frame) : Prop := {
  wa_wal : f_wal fs = Some w;
  wa_open : NewWALReader (wal_reader w) (wal_source w) = Ok r0;
  wa_ps : page_size_ok (wr_pageSize r0);
  wa_frames : exists rz, frames (wal_fuel w) r0 = Some (frs ++ rest, rz);
  wa_committed : committed frs = frs;
  (** SQLite never writes the lock page *)
  wa_lock : forall f, In f (frs ++ rest) -> fr_pgno f <> LockPgno (wr_pageSize r0)
}.

(** The scan of [sync]: what is left to do is to write the pages of the frames after
    the position. *)
Lemma build_ltx_scan e fs w r0 frs rest info t :
  wal_at fs w r0 frs rest -> info_at r0 (length frs) info -> e_ctx e = (fun _ => None) -> commit_inside rest ->
  exists (m : gmap Z Z) sz, (forall p, m !! p = spec_page rest p) /\
    i_offset info + sz = WALHeaderSize + Z.of_nat (length frs + length (committed rest)) * frameSize r0 /\
    (sz = 0 <-> committed rest = []) /\
    build_ltx LockPgno e fs (wr_pageSize r0) info t =
      (_ ← io e StatDB; _ ← io e OpenWAL;
       write_ltx LockPgno e fs w (wr_pageSize r0) info t (i_offset info) sz
         (logical_size fs (wr_pageSize r0) rest) (wr_salt1 r0) (wr_salt2 r0) m).
Proof.
  intros [Hw Ho Hpsok [rz HF] Hcm _] Hinfo Hctx Hci. set (ps := wr_pageSize r0) in *.
  pose proof (frameSize_ok r0 Hpsok) as Hfs. fold ps in Hfs. destruct Hpsok as [Hps _].
  assert (0 < frameSize r0) as Hfs0 by (rewrite Hfs; unfold WALFrameHeaderSize; lia).
  destruct (open_reader_frames w r0 frs rest rz info Ho Hfs0 HF Hinfo) as (rd & rz' & HO & HF' & HN & Hs1 & Hs2 & Hpr).
  destruct (PageMap_result (wal_fuel w) rd rest rz' HF' ltac:(lia) ltac:(rewrite Hpr; fold ps; lia) Hci) as (m & Hm & HP & Hlc0 & Hlc1).
  rewrite HN, Hpr in HP. fold ps in HP. rewrite <- Hfs in HP.
  set (mo := if bool_decide _ then 0 else _) in HP. exists m, (if 0 <? mo then mo - i_offset info else 0).
  destruct Hinfo as [Hoff _]. split; [done|].
  assert (i_offset info + (if 0 <? mo then mo - i_offset info else 0) =
            WALHeaderSize + Z.of_nat (length frs + length (committed rest)) * frameSize r0 /\
          ((if 0 <? mo then mo - i_offset info else 0) = 0 <-> committed rest = [])) as [Hend Hsz].
  { subst mo. rewrite Hoff. case_bool_decide as Hc.
    - rewrite Hc. simpl. split; [lia|done].
    - destruct (Z.ltb_spec 0 (WALHeaderSize + (Z.of_nat (length frs) + Z.of_nat (length (committed rest))) * frameSize r0)) as [Hlt|Hge].
      + split; [lia|]. split; [|done]. intros Hz. destruct (committed rest); [done|]. simpl length in Hz. nia.
      + unfold WALHeaderSize in Hge. nia. }
  split; [done|]. split; [done|]. unfold build_ltx, open_wal.
  destruct (io e StatDB) as [[]|?|?]; cbn [mbind result_bind]; [|done..].
  destruct (io e OpenWAL) as [[]|?|?]; cbn [mbind result_bind]; [|done..]. rewrite Hw. cbn [mbind result_bind].
  rewrite HO. cbn [mbind result_bind]. rewrite Hctx, HP.
  unfold assert. destruct (Z.leb_spec 0 (if 0 <? mo then mo - i_offset info else 0)) as [|Hneg]; [|nia].
  cbn [mbind result_bind]. rewrite Hs1, Hs2. done.
Qed.

(** What [build_ltx] writes. *)
Lemma build_ltx_ok e fs w r0 frs rest info t :
  wal_at fs w r0 frs rest -> info_at r0 (length frs) info -> e_ctx e = (fun _ => None) -> commit_inside rest ->
  match build_ltx LockPgno e fs (wr_pageSize r0) info t with
  | Ok (Some f) =>
      lf_MinTXID f = t /\ lf_MaxTXID f = t /\
      lf_WALOffset f + lf_WALSize f = WALHeaderSize + Z.of_nat (length frs + length (committed rest)) * frameSize r0 /\
      lf_WALSalt1 f = wr_salt1 r0 /\ lf_WALSalt2 f = wr_salt2 r0 /\
      lf_Commit f = logical_size fs (wr_pageSize r0) rest /\
      (i_snapshotting info = true -> forall p, p <> LockPgno (wr_pageSize r0) -> 1 <= p <= lf_Commit f ->
         lookup_page p (lf_pages f) = Some (match spec_page rest p with
                                            | Some o => frame_page w (wr_pageSize r0) o
                                            | None => db_page (f_db fs) (wr_pageSize r0) p end)) /\
      (i_snapshotting info = false -> committed rest <> [] /\
         forall p, lookup_page p (lf_pages f) = frame_page w (wr_pageSize r0) <$> spec_page rest p)
  | Ok None => i_snapshotting info = false /\ committed rest = []
  | _ => True
  end.
Proof.
  intros Hat Hinfo Hctx Hci. destruct (build_ltx_scan e fs w r0 frs rest info t Hat Hinfo Hctx Hci) as (m & sz & Hm & Hend & Hsz & ->).
  set (ps := wr_pageSize r0) in *. destruct (io e StatDB) as [[]|?|?]; cbn [mbind result_bind]; [|done..].
  destruct (io e OpenWAL) as [[]|?|?]; cbn [mbind result_bind]; [|done..]. unfold write_ltx.
  destruct (i_snapshotting info) eqn:Hsn; cbn [negb andb].
  2: destruct (Z.eqb_spec sz 0) as [Hz|Hnz]; [by rewrite <- Hsz|].
  all: destruct (io e MkdirTemp) as [[]|?|?]; cbn [mbind result_bind]; [|done..].
  all: destruct (io e OpenTemp) as [[]|?|?]; cbn [wrap_err mbind result_bind]; [|done..].
  all: destruct (io e EncodeHeader) as [[]|?|?]; cbn [wrap_err mbind result_bind]; [|done..].
  1: destruct (writeLTXFromDB LockPgno e ps (f_db fs) w _ m) as [pages|?|?] eqn:HW; cbn [wrap_err mbind result_bind]; [|done..].
  2: destruct (writeLTXFromWAL e ps w m) as [pages|?|?] eqn:HW; cbn [wrap_err mbind result_bind]; [|done..].
  all: destruct (io e CloseEncoder) as [[]|?|?]; cbn [wrap_err mbind result_bind]; [|done..].
  all: destruct (io e SyncTemp) as [[]|?|?]; cbn [wrap_err mbind result_bind]; [|done..].
  all: destruct (io e CloseTemp) as [[]|?|?]; cbn [wrap_err mbind result_bind]; [|done..].
  all: simpl; (do 6 (split; [done|])); split; try done.
  - intros _ p Hl Hp. rewrite (writeLTXFromDB_ok _ _ _ _ _ _ _ _ HW p Hl Hp). by rewrite Hm.
  - intros _. split; [by intros E; apply Hsz in E|]. intros p. rewrite (writeLTXFromWAL_ok _ _ _ _ _ HW). by rewrite Hm.
Qed.

Lemma io_quiet e op : quiet e -> io e op = Ok ().
Proof. intros [Hq _]. unfold io. by rewrite Hq. Qed.

Lemma writeLTXFromWAL_total e ps w (m : gmap Z Z) :
  quiet e -> (forall p o, m !! p = Some o -> Z.of_nat (length (frame_page w ps o)) = ps) ->
  exists pages, writeLTXFromWAL e ps w m = Ok pages.
Proof.
  intros [Hq _] Hm. unfold writeLTXFromWAL. set (l := merge_sort _ _).
  assert (forall p o, In (p, o) l -> Z.of_nat (length (frame_page w ps o)) = ps) as Hl.
  { intros p o Hin. apply (Hm p). apply elem_of_map_to_list. apply list_elem_of_In in Hin. subst l. by rewrite merge_sort_Permutation in Hin. }
  clearbody l. induction l as [|[p o] l IH]; cbn [writeLTXFromWAL_loop]; [by eauto|].
  unfold read_frame_page, file_readAt. unfold frame_page in Hl. pose proof (Hl p o (or_introl eq_refl)) as Hlen.
  rewrite Hlen, Z.ltb_irrefl. cbn [mbind result_bind]. unfold encode_page. rewrite Hq. cbn [mbind result_bind].
  destruct IH as [rest ->]; [intros q o' ?; apply (Hl q); by right|]. cbn [mbind result_bind]. eauto.
Qed.

(** An incremental sync cannot fail on a WAL it can read. *)
Lemma build_ltx_total e fs w r0 frs rest info t :
  wal_at fs w r0 frs rest -> info_at r0 (length frs) info -> quiet e -> commit_inside rest -> i_snapshotting info = false ->
  exists o, build_ltx LockPgno e fs (wr_pageSize r0) info t = Ok o.
Proof.
  intros Hat Hinfo Hq Hci Hsn. destruct (build_ltx_scan e fs w r0 frs rest info t Hat Hinfo ltac:(apply Hq) Hci) as (m & sz & Hm & _ & _ & ->).
  rewrite !(io_quiet e) by done. cbn [mbind result_bind]. unfold write_ltx. rewrite Hsn. cbn [negb andb].
  destruct (sz =? 0); [by eauto|]. rewrite !(io_quiet e) by done. cbn [wrap_err mbind result_bind].
  destruct (writeLTXFromWAL_total e (wr_pageSize r0) w m Hq) as [pages ->]; [|cbn [wrap_err mbind result_bind]; by eauto].
  intros p o. rewrite Hm. unfold spec_page. case_if; [|done]. intros (g & Hg & _ & <-)%latest_in. apply committed_incl in Hg.
  destruct Hat as [Hw Ho Hpsok [rz HF] _ _]. assert (wr_frameN r0 = 0 /\ wr_read r0 = wal_reader w) as [HfN Hrd].
  { unfold NewWALReader in Ho. by destruct (readHeader_fields _ _ Ho) as [-> ->]. }
  pose proof (frameSize_ok r0 Hpsok). destruct Hpsok as [? _].
  apply (frames_bytes w _ r0 _ _ Hrd ltac:(done) ltac:(lia) ltac:(lia) HF g). apply in_or_app. by right.
Qed.

(** *** The simulation relation

    [synced_to]: file [f] is the last level-0 file of [d], it ends after the frames
    [frs] of the WAL, and [R], the state restored from the files up to [f], is the
    database SQLite reads at that point. *)
Record synced_to (fs : files) (w : list byte) (r0 : WALReader) (rest : list frame) (d : DB) (f : ltxFile)
    (frs : list frame) (R : Z -> option (list byte)) : Prop := {
  st_at : wal_at fs w r0 frs rest;
  st_ps : d_pageSize d = wr_pageSize r0;
  st_txid : 0 < lf_MaxTXID f < 2 ^ 64 - 1;
  st_pos : d_pos d = Some (mkPos (lf_MaxTXID f) 0);
  st_file : d_l0 d !! (lf_MaxTXID f, lf_MaxTXID f) = Some (Ok f);
  st_end : lf_WALOffset f + lf_WALSize f = WALHeaderSize + Z.of_nat (length frs) * frameSize r0;
  st_salt : lf_WALSalt1 f = wr_salt1 r0 /\ lf_WALSalt2 f = wr_salt2 r0;
  st_tail : forall g, last frs = Some g ->
    lookup_page (fr_pgno g) (lf_pages f) = Some (frame_page w (wr_pageSize r0) (fr_offset g));
  st_state : forall p, p <> LockPgno (wr_pageSize r0) -> R p = logical_page fs w (wr_pageSize r0) frs p
}.

(** The flag of a sync to the end of the WAL speaks of the last file. *)
Definition flags_ok (d : DB) (f : ltxFile) : Prop :=
  d_syncedToWALEnd d = true -> d_lastSyncedWALOffset d = lf_WALOffset f + lf_WALSize f.

Lemma committed_existsb frs : committed frs <> [] -> existsb is_commit frs = true.
Proof. destruct frs as [|f frs]; [done|]. cbn [committed]. by case_if. Qed.

Lemma existsb_committed frs : existsb is_commit (committed frs) = existsb is_commit frs.
Proof.
  induction frs as [|f frs IH]; [done|]. cbn [committed]. case_if; [|done].
  cbn [existsb] in *. by rewrite IH.
Qed.

Lemma committed_idem frs : committed (committed frs) = committed frs.
Proof.
  induction frs as [|f frs IH]; [done|]. cbn [committed]. case_if; [|done]. cbn [committed existsb] in *.
  rewrite existsb_committed, E, IH. done.
Qed.

Lemma last_commit_app fr1 fr2 : existsb is_commit fr2 = true -> last_commit (fr1 ++ fr2) = last_commit fr2.
Proof.
  intros E. induction fr1 as [|f fr1 IH]; [done|]. simpl app. rewrite last_commit_cons, existsb_app, E, orb_true_r. done.
Qed.

Lemma last_commit_committed frs : last_commit (committed frs) = last_commit frs.
Proof.
  induction frs as [|f frs IH]; [done|]. cbn [committed]. case_if.
  - rewrite !last_commit_cons, existsb_committed, IH. done.
  - symmetry. apply committed_nil_commit. cbn [committed]. by rewrite E.
Qed.

Lemma NewWALReader_header w r0 :
  NewWALReader (wal_reader w) (wal_source w) = Ok r0 ->
  WALHeaderSize <= Z.of_nat (length w) /\ wr_frameN r0 = 0 /\ wr_read r0 = wal_reader w /\
  hdr_salts (slice w 0 WALHeaderSize) = (wr_salt1 r0, wr_salt2 r0) /\
  wr_pageSize r0 = Uint32 BigEndian (drop 8 (slice w 0 WALHeaderSize)) /\ wr_size r0 = Z.of_nat (length w).
Proof.
  intros Ho. unfold NewWALReader in Ho. destruct (readHeader_fields _ _ Ho) as [Hrd HfN]. simpl in Hrd, HfN.
  unfold readHeader in Ho. simpl in Ho. unfold file_readAt in Ho.
  set (hdr := slice w 0 WALHeaderSize) in *. destruct (Z.ltb_spec (Z.of_nat (length hdr)) WALHeaderSize) as [|Hlen]; [done|].
  assert (WALHeaderSize <= Z.of_nat (length w)).
  { subst hdr. unfold slice in Hlen. rewrite length_take, length_drop in Hlen. unfold WALHeaderSize in *. lia. }
  destruct (_ : result ByteOrder); cbn [mbind result_bind] in Ho; [|done..].
  destruct (WALChecksum _ 0 0 (take 24 hdr)) as [[v0 v1]| |]; cbn [mbind result_bind] in Ho; [|done..].
  case_if; [done|]. case_if; [done|]. injection Ho as <-. done.
Qed.

Lemma readWALHeader_quiet e fs w :
  quiet e -> f_wal fs = Some w -> WALHeaderSize <= Z.of_nat (length w) -> readWALHeader e fs = Ok (slice w 0 WALHeaderSize).
Proof.
  intros Hq Hw Hlen. unfold readWALHeader, open_wal. rewrite (io_quiet e) by done. cbn [mbind result_bind]. rewrite Hw.
  cbn [mbind result_bind]. destruct (Z.ltb_spec (Z.of_nat (length w)) WALHeaderSize); [lia|done].
Qed.

(** The frames up to the position lie inside the WAL, and its last one is where
    [lastPageMatch] looks for it. *)
Lemma wal_at_last fs w r0 frs rest g :
  wal_at fs w r0 frs rest -> last frs = Some g ->
  fr_offset g = WALHeaderSize + (Z.of_nat (length frs) - 1) * frameSize r0 /\
  WALHeaderSize + Z.of_nat (length frs) * frameSize r0 <= Z.of_nat (length w) /\
  slice w (fr_offset g) (frameSize r0) = slice w (fr_offset g) WALFrameHeaderSize ++ frame_page w (wr_pageSize r0) (fr_offset g) /\
  Z.of_nat (length (slice w (fr_offset g) WALFrameHeaderSize)) = WALFrameHeaderSize /\
  Z.of_nat (length (frame_page w (wr_pageSize r0) (fr_offset g))) = wr_pageSize r0 /\
  fr_pgno g = Uint32 BigEndian (slice w (fr_offset g) WALFrameHeaderSize) /\
  hdr_salts (replicate 8 x00 ++ slice w (fr_offset g) WALFrameHeaderSize) = (wr_salt1 r0, wr_salt2 r0).
Proof.
  intros [Hw Ho Hpsok [rz HF] Hcm _] Hg. destruct (NewWALReader_header w r0 Ho) as (_ & HfN & Hrd & _).
  pose proof (frameSize_ok r0 Hpsok) as Hfs. destruct Hpsok as [Hps0 _].
  assert ((frs ++ rest) !! pred (length frs) = Some g) as Hnth.
  { rewrite last_lookup in Hg. rewrite lookup_app_l; [done|]. by apply lookup_lt_Some in Hg. }
  assert (0 < length frs)%nat by (destruct frs; [done|simpl; lia]).
  destruct (frames_nth _ _ _ _ HF ltac:(lia) _ _ Hnth) as [Hoff _]. rewrite HfN, <- Hfs in Hoff.
  destruct (frames_bytes w _ r0 _ _ Hrd Hfs ltac:(lia) ltac:(lia) HF g) as (Hh & Hp & Hpg & Hsa1 & Hsa2).
  { apply list_elem_of_In. by eapply list_elem_of_lookup_2. }
  assert (fr_offset g = WALHeaderSize + (Z.of_nat (length frs) - 1) * frameSize r0) as Ho' 
    by (rewrite Hoff; replace (Z.of_nat (pred (length frs))) with (Z.of_nat (length frs) - 1) by lia; lia).
  assert (0 <= fr_offset g) by (rewrite Ho'; unfold WALHeaderSize; nia).
  split; [done|]. split.
  { assert (fr_offset g + frameSize r0 <= Z.of_nat (length w)); [|lia].
    rewrite Hfs. unfold frame_page, slice in Hp. rewrite length_take, length_drop in Hp. unfold WALFrameHeaderSize in *. lia. }
  split.
  { unfold frame_page, slice. rewrite Hfs. replace (Z.to_nat (WALFrameHeaderSize + wr_pageSize r0)) with (Z.to_nat WALFrameHeaderSize + Z.to_nat (wr_pageSize r0))%nat
      by (unfold WALFrameHeaderSize; lia). rewrite <- take_take_drop, drop_drop. do 2 f_equal. unfold WALFrameHeaderSize. f_equal. lia. }
  split; [done|]. split; [done|]. split; [done|]. unfold hdr_salts. rewrite Hsa1, Hsa2.
  rewrite (drop_app_ge (replicate 8 x00) _ 16), (drop_app_ge (replicate 8 x00) _ 20) by (rewrite length_replicate; lia). done.
Qed.

Lemma Uint32_app bo a b : (4 <= length a)%nat -> Uint32 bo (a ++ b) = Uint32 bo a.
Proof. destruct a as [|a0 [|a1 [|a2 [|a3 a]]]]; simpl; done || lia. Qed.

Lemma lookup_page_In p pages data : lookup_page p pages = Some data -> In (p, data) pages.
Proof.
  unfold lookup_page. destruct (List.find _ pages) as [[q d]|] eqn:E; [|done]. intros [= <-].
  apply List.find_some in E as [Hin Hq]. apply Z.eqb_eq in Hq. simpl in Hq. by subst q.
Qed.

Lemma lastPageMatch_tail e fs w r0 rest d f frs R g :
  synced_to fs w r0 rest d f frs R -> quiet e -> last frs = Some g -> WALHeaderSize < fr_offset g ->
  lastPageMatch e fs f (fr_offset g) (frameSize r0) = Ok true.
Proof.
  intros Hst Hq Hg Hoff. destruct (wal_at_last _ _ _ _ _ _ (st_at _ _ _ _ _ _ _ _ Hst) Hg) as (_ & Hlen & Hsl & Hh & Hp & Hpg & Hs).
  destruct Hst as [[Hw Ho Hpsok _ _ _] _ _ _ _ _ [Hs1 Hs2] Htail _]. pose proof (frameSize_ok r0 Hpsok) as Hfs.
  unfold lastPageMatch. destruct (Z.leb_spec (fr_offset g) WALHeaderSize); [lia|].
  unfold readWALFileAt, open_wal. rewrite (io_quiet e) by done. cbn [mbind result_bind]. rewrite Hw. cbn [mbind result_bind].
  unfold file_readAt. rewrite Hsl. set (hdr := slice w (fr_offset g) WALFrameHeaderSize) in *.
  set (page := frame_page w (wr_pageSize r0) (fr_offset g)) in *.
  assert (Z.of_nat (length (hdr ++ page)) = frameSize r0) as -> by (rewrite length_app; lia).
  rewrite Z.ltb_irrefl. cbn [wrap_err mbind result_bind].
  assert (length hdr = 24%nat) as Hh' by (unfold WALFrameHeaderSize in Hh; lia).
  rewrite Uint32_app, !drop_app_le, !Uint32_app by (rewrite ?length_drop; unfold WALFrameHeaderSize; simpl; lia).
  unfold hdr_salts in Hs. rewrite (drop_app_ge (replicate 8 x00) _ 16), (drop_app_ge (replicate 8 x00) _ 20) in Hs by (rewrite length_replicate; lia).
  injection Hs as Hsa1 Hsa2. simpl in Hsa1, Hsa2. rewrite Hsa1, Hsa2, Hs1, Hs2, !Z.eqb_refl. cbn [negb orb]. f_equal.
  apply existsb_exists. exists (fr_pgno g, page). split; [apply lookup_page_In; by apply Htail|]. simpl. rewrite Hpg, Z.eqb_refl. simpl.
  apply bool_decide_eq_true. rewrite drop_ge; [done|]. unfold WALFrameHeaderSize. lia.
Qed.

(** What [verify] finds when the WAL has only grown since the last file. *)
Lemma verify_resumes e fs w r0 rest d f frs R :
  synced_to fs w r0 rest d f frs R -> quiet e ->
  exists info, verify e fs d = (d, Ok info) /\ info_at r0 (length frs) info /\ i_snapshotting info = false.
Proof.
  intros Hst Hq. pose proof Hst as [[Hw Ho Hpsok [rz HF] Hcm Hlk] Hps Htx Hpos Hfile Hend [Hs1 Hs2] Htail _].
  pose proof (frameSize_ok r0 Hpsok) as Hfs. destruct (NewWALReader_header w r0 Ho) as (Hlen & HfN & Hrd & Hsalts & _).
  destruct Hpsok as [Hps0 _]. assert (0 < frameSize r0) as Hfs0 by (rewrite Hfs; unfold WALFrameHeaderSize; lia).
  set (resume := mkInfo (lf_WALOffset f + lf_WALSize f) (lf_WALSalt1 f) (lf_WALSalt2 f) false "").
  exists resume. split; [|split; [|done]]. 2: { split; [done|]. intros _. simpl. by rewrite Hs1, Hs2. }
  unfold verify, DB_Pos. rewrite Hpos. cbn [TXID_]. destruct (Z.eqb_spec (lf_MaxTXID f) 0); [lia|].
  unfold open_l0. rewrite (io_quiet e) by done. cbn [mbind result_bind]. rewrite Hfile.
  unfold verify_file. rewrite (io_quiet e) by done. cbn [mbind result_bind]. rewrite Hw. cbn [wrap_err i_offset].
  assert (lf_WALOffset f + lf_WALSize f <= Z.of_nat (length w)) as Hle.
  { rewrite Hend. destruct (last frs) as [g|] eqn:Hg; [|apply last_None in Hg as ->; simpl; lia].
    by destruct (wal_at_last _ _ _ _ _ _ (st_at _ _ _ _ _ _ _ _ Hst) Hg) as (_ & ? & _). }
  destruct (Z.ltb_spec (Z.of_nat (length w)) (lf_WALOffset f + lf_WALSize f)); [lia|]. f_equal.
  rewrite (readWALHeader_quiet e fs w) by done. cbn [wrap_err mbind result_bind]. rewrite Hsalts, Hs1, Hs2, !Z.eqb_refl.
  cbn [andb i_offset i_salt1 i_salt2 negb]. replace (d_pageSize d + WALFrameHeaderSize) with (frameSize r0) by lia.
  destruct (Z.eqb_spec (lf_WALOffset f + lf_WALSize f) WALHeaderSize) as [|Hne]; [subst resume; by rewrite Hs1, Hs2|].
  destruct (last frs) as [g|] eqn:Hg; [|apply last_None in Hg as ->; simpl in Hend; lia].
  destruct (wal_at_last _ _ _ _ _ _ (st_at _ _ _ _ _ _ _ _ Hst) Hg) as (Hoff & _).
  assert (lf_WALOffset f + lf_WALSize f - frameSize r0 = fr_offset g) as Hprev by (rewrite Hend, Hoff; lia). rewrite Hprev.
  destruct (Z.eqb_spec (fr_offset g) WALHeaderSize); [subst resume; by rewrite Hs1, Hs2|].
  destruct (Z.ltb_spec (fr_offset g) WALHeaderSize) as [Hlt|Hge].
  { exfalso. assert (0 < length frs)%nat by (destruct frs; [done|simpl; lia]). rewrite Hoff in Hlt. nia. }
  rewrite (lastPageMatch_tail e fs w r0 rest d f frs R g) by (done || lia). cbn [wrap_err mbind result_bind negb].
  subst resume. by rewrite Hs1, Hs2.
Qed.

(** Pages that enter the database are written by the transaction that adds them. *)
Definition grows_written (fs : files) (ps : Z) (frs rest : list frame) : Prop :=
  forall p, logical_size fs ps frs < p <= last_commit rest -> p <> LockPgno ps -> is_Some (latest p (committed rest)).

Lemma logical_size_app fs ps frs rest :
  committed rest <> [] -> logical_size fs ps (frs ++ committed rest) = logical_size fs ps rest.
Proof.
  intros Hc. unfold logical_size. rewrite last_commit_app; [|by rewrite existsb_committed, committed_existsb].
  by rewrite last_commit_committed.
Qed.

Lemma committed_app_committed frs rest : committed rest <> [] -> committed (frs ++ committed rest) = frs ++ committed rest.
Proof.
  intros Hc. rewrite committed_app_commit by (by rewrite existsb_committed, committed_existsb). by rewrite committed_idem.
Qed.

(** Applying an incremental file to the database at [frs]. *)
Lemma apply_incremental fs w r0 frs rest f R :
  wal_at fs w r0 frs rest -> committed rest <> [] -> 0 < last_commit rest -> grows_written fs (wr_pageSize r0) frs rest ->
  lf_Commit f = logical_size fs (wr_pageSize r0) rest ->
  (forall p, lookup_page p (lf_pages f) = frame_page w (wr_pageSize r0) <$> spec_page rest p) ->
  (forall p, p <> LockPgno (wr_pageSize r0) -> R p = logical_page fs w (wr_pageSize r0) frs p) ->
  forall p, p <> LockPgno (wr_pageSize r0) ->
    apply_ltx f R p = logical_page fs w (wr_pageSize r0) (frs ++ committed rest) p.
Proof.
  intros [_ _ _ _ Hcm _] Hc Hlc Hgrow Hcommit Hlook HR p Hp. set (ps := wr_pageSize r0) in *.
  unfold apply_ltx, logical_page. rewrite logical_size_app, committed_app_committed, Hcommit, Hlook by done.
  destruct (Z.leb_spec 1 p); [|done]. destruct (Z.leb_spec p (logical_size fs ps rest)) as [Hle|]; [|done]. cbn [andb].
  assert (logical_size fs ps rest = last_commit rest) as Hsz by (unfold logical_size; destruct (Z.ltb_spec 0 (last_commit rest)); [done|lia]).
  rewrite latest_app. unfold spec_page. destruct (Z.leb_spec p (last_commit rest)); [|lia].
  destruct (latest p (committed rest)) as [o|] eqn:Hl; [done|]. cbn [fmap option_fmap option_map].
  rewrite (HR p Hp). unfold logical_page. destruct (Z.leb_spec 1 p); [|lia]. rewrite Hcm.
  destruct (Z.leb_spec p (logical_size fs ps frs)); [done|]. exfalso.
  destruct (Hgrow p ltac:(lia) Hp) as [o Ho]. congruence.
Qed.

(** Applying a snapshot to anything. *)
Lemma apply_snapshot fs w ps frs f R :
  lf_Commit f = logical_size fs ps frs ->
  (forall p, p <> LockPgno ps -> 1 <= p <= lf_Commit f ->
     lookup_page p (lf_pages f) = Some (match spec_page frs p with Some o => frame_page w ps o | None => db_page (f_db fs) ps p end)) ->
  0 <= last_commit frs -> (last_commit frs = 0 -> committed frs = []) ->
  forall p, p <> LockPgno ps -> apply_ltx f R p = logical_page fs w ps (committed frs) p.
Proof.
  intros Hcommit Hlook Hlc Hlc0 p Hp. unfold apply_ltx, logical_page. rewrite committed_idem.
  assert (logical_size fs ps (committed frs) = logical_size fs ps frs) as -> by (unfold logical_size; by rewrite last_commit_committed).
  rewrite Hcommit in *. destruct (Z.leb_spec 1 p); [|done]. destruct (Z.leb_spec p (logical_size fs ps frs)); [|done]. cbn [andb].
  rewrite Hlook by (done || lia). do 2 f_equal. unfold spec_page. destruct (Z.leb_spec p (last_commit frs)); [done|].
  unfold logical_size in *. destruct (Z.ltb_spec 0 (last_commit frs)); [lia|]. by rewrite Hlc0 by lia.
Qed.

(** After [install_ltx] the new file is the last one. *)
Lemma install_synced e fs w r0 frs rest d f rest' R :
  quiet e -> wal_at fs w r0 frs rest -> rest = committed rest ++ rest' -> committed (frs ++ committed rest) = frs ++ committed rest ->
  d_pageSize d = wr_pageSize r0 -> 0 < lf_MaxTXID f < 2 ^ 64 - 1 ->
  lf_WALOffset f + lf_WALSize f = WALHeaderSize + Z.of_nat (length frs + length (committed rest)) * frameSize r0 ->
  lf_WALSalt1 f = wr_salt1 r0 /\ lf_WALSalt2 f = wr_salt2 r0 ->
  (forall g, last (frs ++ committed rest) = Some g ->
     lookup_page (fr_pgno g) (lf_pages f) = Some (frame_page w (wr_pageSize r0) (fr_offset g))) ->
  (forall p, p <> LockPgno (wr_pageSize r0) -> R p = logical_page fs w (wr_pageSize r0) (frs ++ committed rest) p) ->
  exists d', install_ltx enc_N e fs d f = (d', Ok true) /\ d_l0 d' = <[(lf_MaxTXID f, lf_MaxTXID f) := Ok f]> (d_l0 d) /\
    synced_to fs w r0 rest' d' f (frs ++ committed rest) R /\ flags_ok d' f.
Proof.
  intros [Hq _] [Hw Ho Hps [rz HF] _ Hlk] Hrest Hcm Hpsd Htx Hend Hsalt Htail HR. unfold install_ltx. rewrite Hq.
  eexists. split; [done|]. split; [done|]. split; [|done]. split; simpl; try done.
  - split; try done.
    + exists rz. by rewrite <- app_assoc, <- Hrest.
    + intros g Hg. apply Hlk. by rewrite <- app_assoc, <- Hrest in Hg.
  - by rewrite lookup_insert_eq.
  - by rewrite length_app.
Qed.

(** The last frame of new transactions is in the file written for them. *)
Lemma tail_in_pages rest g : commit_inside rest -> last (committed rest) = Some g -> spec_page rest (fr_pgno g) = Some (fr_offset g).
Proof.
  intros Hci Hg. destruct (Hci g Hg). unfold spec_page. destruct (Z.leb_spec (fr_pgno g) (last_commit rest)); [|lia].
  by apply latest_last.
Qed.

Lemma last_commit_pos rest : commit_inside rest -> committed rest <> [] -> 0 < last_commit rest.
Proof.
  intros Hci Hc. destruct (last (committed rest)) as [g|] eqn:Hg; [|by apply last_None in Hg]. destruct (Hci g Hg). lia.
Qed.

Lemma last_app_r {A} (l1 l2 : list A) : l2 <> [] -> last (l1 ++ l2) = last l2.
Proof. intros Hn. rewrite last_app. destruct (last l2) eqn:E; [done|]. by apply last_None in E. Qed.

(** An incremental sync of the frames after a position. *)
Lemma incremental_step e fs w r0 frs rest d pos info R :
  wal_at fs w r0 frs rest -> quiet e -> commit_inside rest -> grows_written fs (wr_pageSize r0) frs rest ->
  d_pos d = Some pos -> 0 <= TXID_ pos < 2 ^ 64 - 2 -> d_pageSize d = wr_pageSize r0 ->
  info_at r0 (length frs) info -> i_snapshotting info = false ->
  (forall p, p <> LockPgno (wr_pageSize r0) -> R p = logical_page fs w (wr_pageSize r0) frs p) ->
  (committed rest = [] /\ sync LockPgno enc_N e fs d info = (d, Ok false)) \/
  (committed rest <> [] /\ exists d' f' rest', sync LockPgno enc_N e fs d info = (d', Ok true) /\
     rest = committed rest ++ rest' /\ lf_MinTXID f' = TXID_ pos + 1 /\ lf_MaxTXID f' = TXID_ pos + 1 /\
     d_l0 d' = <[(lf_MaxTXID f', lf_MaxTXID f') := Ok f']> (d_l0 d) /\
     synced_to fs w r0 rest' d' f' (frs ++ committed rest) (apply_ltx f' R) /\ flags_ok d' f').
Proof.
  intros Hat Hq Hci Hgrow Hpos Htx Hpsd Hinfo Hsn HR.
  unfold sync, DB_Pos. rewrite Hpos, Hpsd, txid_succ_small by lia.
  destruct (build_ltx_total e fs w r0 frs rest info (TXID_ pos + 1) Hat Hinfo Hq Hci Hsn) as [o HB].
  pose proof (build_ltx_ok e fs w r0 frs rest info (TXID_ pos + 1) Hat Hinfo ltac:(apply Hq) Hci) as Hok. rewrite HB in Hok |- *.
  destruct o as [f'|]; [right|left; split; [apply Hok|done]].
  destruct Hok as (Hmin & Hmax & Hend' & Hs1 & Hs2 & Hcommit & _ & Hinc). destruct (Hinc Hsn) as [Hc Hlook].
  destruct (committed_prefix rest) as [rest' Hrest]. pose proof (last_commit_pos rest Hci Hc) as Hlc. split; [done|].
  destruct (install_synced e fs w r0 frs rest d f' rest' (apply_ltx f' R)) as (d' & -> & Hl0 & Hst' & Hfl); try done.
  - by apply committed_app_committed.
  - rewrite Hmax. lia.
  - intros g. rewrite last_app_r by done. intros Hg. rewrite Hlook, (tail_in_pages rest g Hci Hg). done.
  - intros p Hp. by apply apply_incremental.
  - by exists d', f', rest'.
Qed.

(** The size that [verifyAndSync] starts from. *)
Lemma orig_size_quiet e fs d : quiet e ->
  exists sz, (if d_lastSyncedWALOffset d =? 0 then walFileSize e fs wrapping "stat wal before sync"
              else Ok (d_lastSyncedWALOffset d)) = Ok sz.
Proof. intros [Hq _]. case_if; [|by eauto]. unfold walFileSize. rewrite Hq. simpl. eauto. Qed.

(** A sync of a WAL that has grown. *)
Lemma verifyAndSync_step e fs w r0 rest d f frs R :
  synced_to fs w r0 rest d f frs R -> quiet e -> commit_inside rest ->
  grows_written fs (wr_pageSize r0) frs rest -> lf_MaxTXID f < 2 ^ 64 - 2 ->
  exists d' o, verifyAndSync LockPgno enc_N e fs d = (d', Ok o) /\
    ((committed rest = [] /\ d' = d) \/
     (committed rest <> [] /\ exists f' rest', rest = committed rest ++ rest' /\
        lf_MinTXID f' = lf_MaxTXID f + 1 /\ lf_MaxTXID f' = lf_MaxTXID f + 1 /\
        d_l0 d' = <[(lf_MaxTXID f', lf_MaxTXID f') := Ok f']> (d_l0 d) /\
        synced_to fs w r0 rest' d' f' (frs ++ committed rest) (apply_ltx f' R) /\ flags_ok d' f')).
Proof.
  intros Hst Hq Hci Hgrow Htop. destruct (verify_resumes e fs w r0 rest d f frs R Hst Hq) as (info & HV & Hinfo & Hsn).
  destruct Hst as [Hat Hpsd Htx Hpos Hfile Hend Hsalt Htail HR]. unfold verifyAndSync.
  destruct (orig_size_quiet e fs d Hq) as [sz ->]. rewrite HV.
  destruct (incremental_step e fs w r0 frs rest d (mkPos (lf_MaxTXID f) 0) info R) as [[Hc ->]|(Hc & d' & f' & rest' & -> & Hx)];
    try done; [simpl; lia| |].
  - eexists _, _. split; [done|]. by left.
  - eexists _, _. split; [done|]. right. split; [done|]. by exists f', rest'.
Qed.

(** The relation survives the growth of the WAL. *)
Lemma synced_grows fs w r0 rest fs' w' r0' rest' d f frs R :
  synced_to fs w r0 rest d f frs R -> wal_at fs' w' r0' frs rest' -> f_db fs' = f_db fs -> w `prefix_of` w' ->
  synced_to fs' w' r0' rest' d f frs R.
Proof.
  intros Hst Hat' Hdb Hpre. pose proof Hst as [Hat Hpsd Htx Hpos Hfile Hend [Hs1 Hs2] Htail HR].
  destruct (NewWALReader_header w r0 (wa_open _ _ _ _ _ Hat)) as (Hlen & HfN & Hrd & Hsalts & Hps & _).
  destruct (NewWALReader_header w' r0' (wa_open _ _ _ _ _ Hat')) as (_ & _ & _ & Hsalts' & Hps' & _).
  assert (slice w' 0 WALHeaderSize = slice w 0 WALHeaderSize) as Hhdr.
  { apply slice_prefix; [done|lia|]. unfold slice. rewrite length_take, length_drop. unfold WALHeaderSize in *. lia. }
  rewrite Hhdr in Hsalts', Hps'. rewrite <- Hps in Hps'. rewrite Hsalts in Hsalts'. injection Hsalts' as Hsa1 Hsa2.
  assert (frameSize r0' = frameSize r0) as Hfs by (unfold frameSize; by rewrite Hps').
  assert (forall g, In g frs -> frame_page w' (wr_pageSize r0) (fr_offset g) = frame_page w (wr_pageSize r0) (fr_offset g)) as Hpage.
  { intros g Hg. destruct Hat as [_ _ Hpsok [rz HF] _ _]. pose proof (frameSize_ok r0 Hpsok) as Hfs0. destruct Hpsok as [Hps0 _].
    destruct (frames_bytes w _ r0 _ _ Hrd Hfs0 ltac:(lia) ltac:(lia) HF g) as (_ & Hl & _); [apply in_or_app; by left|].
    unfold frame_page in *. apply slice_prefix; [done| |lia].
    apply list_elem_of_In, list_elem_of_lookup in Hg as [i Hi].
    destruct (frames_nth _ _ _ _ HF ltac:(lia) i g) as [Ho _]; [by apply lookup_app_l_Some|].
    rewrite Ho. unfold WALHeaderSize, WALFrameHeaderSize in *. nia. }
  split; try done.
  - congruence.
  - by rewrite Hfs.
  - split; congruence.
  - intros g Hg. rewrite Hps', Hpage; [by apply Htail|]. apply list_elem_of_In. by apply last_Some_elem_of.
  - intros p. rewrite Hps'. intros Hp. rewrite (HR p Hp). unfold logical_page, logical_size. rewrite Hdb. case_if; [|done]. f_equal.
    destruct (latest p (committed frs)) as [o|] eqn:Hl; [|done]. apply latest_in in Hl as (g & Hg & _ & <-).
    symmetry. apply Hpage. by rewrite (wa_committed _ _ _ _ _ Hat) in Hg.
Qed.

(** C5: replication step.  Suppose the files written so far restore to the database
    as of the end of the last one, and the WAL has only grown since.  Then a sync
    succeeds; it writes nothing when no transaction has been committed, and otherwise
    one file with the next TXID, after which the files restore to the database as of
    the last committed transaction: no committed page is lost, none of an unfinished
    transaction is taken, and the position moves to the end of that transaction. *)
Theorem verifyAndSync_appended e fs0 w0 r00 rest0 fs w r0 rest d f frs R :
  synced_to fs0 w0 r00 rest0 d f frs R ->
  wal_at fs w r0 frs rest -> f_db fs = f_db fs0 -> w0 `prefix_of` w ->
  quiet e -> commit_inside rest -> grows_written fs (wr_pageSize r0) frs rest -> lf_MaxTXID f < 2 ^ 64 - 2 ->
  exists d' o, verifyAndSync LockPgno enc_N e fs d = (d', Ok o) /\
    ((committed rest = [] /\ d' = d) \/
     (committed rest <> [] /\ exists f' rest', rest = committed rest ++ rest' /\
        lf_MinTXID f' = lf_MaxTXID f + 1 /\ lf_MaxTXID f' = lf_MaxTXID f + 1 /\
        d_l0 d' = <[(lf_MaxTXID f', lf_MaxTXID f') := Ok f']> (d_l0 d) /\
        synced_to fs w r0 rest' d' f' (frs ++ committed rest) (apply_ltx f' R))).
Proof.
  intros Hst Hat Hdb Hpre Hq Hci Hgrow Htop.
  assert (synced_to fs w r0 rest d f frs R) as Hst' by (by eapply synced_grows).
  destruct (verifyAndSync_step e fs w r0 rest d f frs R Hst' Hq Hci Hgrow Htop) as (d' & o & HV & Hcase).
  exists d', o. split; [done|]. destruct Hcase as [?|(Hc & f' & rest' & ? & ? & ? & ? & ? & _)]; [by left|right].
  split; [done|]. by exists f', rest'.
Qed.

Lemma writeLTXFromDB_total e ps db w commit (m : gmap Z Z) :
  quiet e -> (forall p o, m !! p = Some o -> Z.of_nat (length (frame_page w ps o)) = ps) ->
  (forall p, 1 <= p <= commit -> p <> LockPgno ps -> m !! p = None -> Z.of_nat (length (db_page db ps p)) = ps) ->
  exists pages, writeLTXFromDB LockPgno e ps db w commit m = Ok pages.
Proof.
  intros [Hq [_ Hcan]] Hm Hdb. unfold writeLTXFromDB.
  assert (forall p, In p (seqZ 1 commit) -> 1 <= p <= commit) as Hl.
  { intros p Hin. apply list_elem_of_In, elem_of_seqZ in Hin. lia. }
  induction (seqZ 1 commit) as [|p l IH]; cbn [writeLTXFromDB_loop]; [by eauto|].
  destruct IH as [rest Hrest]; [intros q ?; apply Hl; by right|].
  destruct (Z.eqb_spec p (LockPgno ps)) as [|Hne]; [by rewrite Hrest; eauto|]. rewrite Hcan.
  assert (exists b, match m !! p with Some o => read_frame_page w ps o | None => read_db_page db ps p end = Ok b) as [b ->].
  { specialize (Hdb p (Hl p (or_introl eq_refl)) Hne). destruct (m !! p) as [o|] eqn:Ho.
    - unfold read_frame_page, file_readAt. specialize (Hm p o Ho). unfold frame_page in Hm. rewrite Hm, Z.ltb_irrefl. eauto.
    - unfold read_db_page, file_readAt. specialize (Hdb eq_refl). unfold db_page in Hdb. rewrite Hdb, Z.ltb_irrefl. eauto. }
  cbn [mbind result_bind]. unfold encode_page. rewrite Hq, Hrest. cbn [mbind result_bind]. eauto.
Qed.

Lemma open_reader_start w r0 s1 s2 sn reason :
  NewWALReader (wal_reader w) (wal_source w) = Ok r0 ->
  open_reader w (mkInfo WALHeaderSize s1 s2 sn reason) = Ok (WALHeaderSize, r0).
Proof. intros Ho. unfold open_reader. cbn [i_offset]. by rewrite Z.eqb_refl, Ho. Qed.

(** [build_ltx] looks at the position only to open its reader. *)
Lemma build_ltx_info e fs w ps info info' t :
  f_wal fs = Some w -> open_reader w info = open_reader w info' -> i_snapshotting info = i_snapshotting info' ->
  build_ltx LockPgno e fs ps info t = build_ltx LockPgno e fs ps info' t.
Proof.
  intros Hw Ho Hs. unfold build_ltx, open_wal, write_ltx. rewrite Hw, Hs.
  destruct (io e StatDB) as [[]|?|?]; cbn [mbind result_bind]; [|done..].
  destruct (io e OpenWAL) as [[]|?|?]; cbn [mbind result_bind]; [|done..]. by rewrite Ho.
Qed.

(** A full snapshot, from a reader that starts at the header. *)
Lemma snapshot_step e fs w r0 frs d d1 pos info R :
  wal_at fs w r0 [] frs -> quiet e -> commit_inside frs -> d_pageSize d1 = wr_pageSize r0 ->
  DB_Pos e d = (d1, Ok pos) -> 0 <= TXID_ pos < 2 ^ 64 - 2 ->
  open_reader w info = Ok (WALHeaderSize, r0) -> i_snapshotting info = true ->
  (forall p, 1 <= p <= logical_size fs (wr_pageSize r0) frs -> p <> LockPgno (wr_pageSize r0) ->
     latest p (committed frs) = None -> Z.of_nat (length (db_page (f_db fs) (wr_pageSize r0) p)) = wr_pageSize r0) ->
  exists d' f rest', sync LockPgno enc_N e fs d info = (d', Ok true) /\ frs = committed frs ++ rest' /\
    lf_MinTXID f = TXID_ pos + 1 /\ lf_MaxTXID f = TXID_ pos + 1 /\
    d_l0 d' = <[(lf_MaxTXID f, lf_MaxTXID f) := Ok f]> (d_l0 d1) /\
    synced_to fs w r0 rest' d' f (committed frs) (apply_ltx f R) /\ flags_ok d' f.
Proof.
  intros Hat Hq Hci Hpsd Hpos Htx Hopen Hsn' Hdb. unfold sync. rewrite Hpos, Hpsd, txid_succ_small by lia.
  rewrite (build_ltx_info e fs w (wr_pageSize r0) info (mkInfo WALHeaderSize 0 0 true "") (TXID_ pos + 1) (wa_wal _ _ _ _ _ Hat));
    [|by rewrite Hopen, (open_reader_start w r0 0 0 true "" (wa_open _ _ _ _ _ Hat))|done]. clear info Hopen Hsn'.
  set (info := mkInfo _ _ _ _ _). assert (i_snapshotting info = true) as Hsn by done.
  assert (info_at r0 0 info) as Hinfo by (split; [simpl; lia|lia]).
  destruct (build_ltx_scan e fs w r0 [] frs info (TXID_ pos + 1) Hat Hinfo ltac:(apply Hq) Hci) as (m & sz & Hm & _ & _ & HB).
  pose proof (build_ltx_ok e fs w r0 [] frs info (TXID_ pos + 1) Hat Hinfo ltac:(apply Hq) Hci) as Hok.
  assert (exists f, build_ltx LockPgno e fs (wr_pageSize r0) info (TXID_ pos + 1) = Ok (Some f)) as [f Hf].
  { rewrite HB, !(io_quiet e) by done. cbn [mbind result_bind]. unfold write_ltx. rewrite Hsn. cbn [negb andb].
    rewrite !(io_quiet e) by done. cbn [wrap_err mbind result_bind].
    destruct (writeLTXFromDB_total e (wr_pageSize r0) (f_db fs) w (logical_size fs (wr_pageSize r0) frs) m Hq) as [pages ->];
      [| |cbn [wrap_err mbind result_bind]; by eauto].
    - intros p o. rewrite Hm. unfold spec_page. case_if; [|done]. intros (g & Hg & _ & <-)%latest_in. apply committed_incl in Hg.
      destruct Hat as [_ Ho Hpsok [rz HF] _ _]. destruct (NewWALReader_header w r0 Ho) as (_ & HfN & Hrd & _).
      pose proof (frameSize_ok r0 Hpsok). destruct Hpsok as [? _]. by apply (frames_bytes w _ r0 _ _ Hrd ltac:(done) ltac:(lia) ltac:(lia) HF g).
    - intros p Hp Hl. rewrite Hm. unfold spec_page. case_if; [by apply Hdb|]. intros _. apply Hdb; [done|done|].
      breflect. unfold logical_size in Hp. destruct (Z.ltb_spec 0 (last_commit frs)); [lia|].
      destruct (decide (committed frs = [])) as [->|Hc]; [done|]. pose proof (last_commit_pos frs Hci Hc). lia. }
  rewrite Hf in Hok |- *. destruct Hok as (Hmin & Hmax & Hend & Hs1 & Hs2 & Hcommit & Hsnap & _). specialize (Hsnap Hsn).
  destruct (committed_prefix frs) as [rest' Hrest].
  assert (forall p, p <> LockPgno (wr_pageSize r0) -> apply_ltx f R p = logical_page fs w (wr_pageSize r0) (committed frs) p) as Happ.
  { apply apply_snapshot; [done|done| |].
    - destruct (decide (committed frs = [])) as [Hc|Hc]; [by rewrite (committed_nil_commit frs Hc)|]. pose proof (last_commit_pos frs Hci Hc). lia.
    - intros E. destruct (decide (committed frs = [])) as [|Hc]; [done|]. pose proof (last_commit_pos frs Hci Hc). lia. }
  destruct (install_synced e fs w r0 [] frs d1 f rest' (apply_ltx f R)) as (d' & -> & Hl0 & Hst' & Hfl); try done.
  - apply committed_idem.
  - rewrite Hmax. lia.
  - simpl. intros g Hg. destruct (Hci g Hg) as [Hp1 Hp2]. rewrite Hsnap.
    + by rewrite (tail_in_pages frs g Hci Hg).
    + apply (wa_lock _ _ _ _ _ Hat). simpl. apply committed_incl, list_elem_of_In. by apply last_Some_elem_of.
    + rewrite Hcommit. unfold logical_size. destruct (Z.ltb_spec 0 (last_commit frs)); lia.
  - eexists _, _, _. split; [done|]. do 4 (split; [done|]). split; [exact Hst'|done].
Qed.

(** C6: snapshots.  When a full snapshot is asked for, whatever the files before it
    were, and the WAL is read from its header, because the position is there or because the frame
    before the position is not that of the last file and the reader starts over, then a sync without failing
    operations succeeds and writes one file that by itself
    restores to the database SQLite reads: every page (but the lock page) from its
    latest committed frame, or from the database file.  (A snapshot read from a position
    inside the WAL would miss the frames before it.) *)
Theorem sync_snapshot e fs w r0 frs d d1 pos info R :
  wal_at fs w r0 [] frs -> quiet e -> commit_inside frs -> d_pageSize d1 = wr_pageSize r0 ->
  DB_Pos e d = (d1, Ok pos) -> 0 <= TXID_ pos < 2 ^ 64 - 2 ->
  open_reader w info = Ok (WALHeaderSize, r0) -> i_snapshotting info = true ->
  (forall p, 1 <= p <= logical_size fs (wr_pageSize r0) frs -> p <> LockPgno (wr_pageSize r0) ->
     latest p (committed frs) = None -> Z.of_nat (length (db_page (f_db fs) (wr_pageSize r0) p)) = wr_pageSize r0) ->
  exists d' f rest', sync LockPgno enc_N e fs d info = (d', Ok true) /\ frs = committed frs ++ rest' /\
    lf_MinTXID f = TXID_ pos + 1 /\ lf_MaxTXID f = TXID_ pos + 1 /\
    d_l0 d' = <[(lf_MaxTXID f, lf_MaxTXID f) := Ok f]> (d_l0 d1) /\
    synced_to fs w r0 rest' d' f (committed frs) (apply_ltx f R).
Proof.
  intros Hat Hq Hci Hpsd Hpos Htx Hopen Hsn Hdb.
  destruct (snapshot_step e fs w r0 frs d d1 pos info R) as (d' & f & rest' & ? & ? & ? & ? & ? & ? & _); try done.
  by exists d', f, rest'.
Qed.

(** A position past the end of the WAL makes [sync] read it from the start. *)
Lemma open_reader_beyond w r0 n s1 s2 sn reason :
  NewWALReader (wal_reader w) (wal_source w) = Ok r0 -> 0 < frameSize r0 ->
  Z.of_nat (length w) < WALHeaderSize + Z.of_nat n * frameSize r0 ->
  open_reader w (mkInfo (WALHeaderSize + Z.of_nat n * frameSize r0) s1 s2 sn reason) = Ok (WALHeaderSize, r0).
Proof.
  intros Ho Hfs Hlt. destruct (NewWALReader_header w r0 Ho) as (Hlen & _ & _ & _ & _ & Hsz).
  unfold open_reader. cbn [i_offset i_salt1 i_salt2].
  destruct (Z.eqb_spec (WALHeaderSize + Z.of_nat n * frameSize r0) WALHeaderSize); [lia|].
  unfold NewWALReaderWithOffset. destruct (Z.leb_spec (WALHeaderSize + Z.of_nat n * frameSize r0) WALHeaderSize); [lia|].
  unfold NewWALReader in Ho |- *. rewrite Ho. cbn [wrap_err mbind result_bind].
  change (frameSize (set_salt s1 s2 r0)) with (frameSize r0). destruct (Z.eqb_spec (frameSize r0) 0); [lia|].
  replace (WALHeaderSize + Z.of_nat n * frameSize r0 - WALHeaderSize) with (Z.of_nat n * frameSize r0) by lia.
  rewrite Z.rem_mul, Z.quot_mul by lia. cbn [negb Z.eqb]. unfold readFrame. cbn [wr_pageSize set_frameN set_salt].
  rewrite Z.eqb_refl. cbn [negb]. unfold beyondBound. cbn [wr_size set_frameN set_salt wr_frameN].
  change (frameSize _) with (frameSize r0). rewrite Hsz.
  destruct (Z.ltb_spec 0 (Z.of_nat (length w))); [|unfold WALHeaderSize in Hlen; lia].
  destruct (Z.ltb_spec (Z.of_nat (length w)) (WALHeaderSize + (Z.of_nat n - 1) * frameSize r0 + frameSize r0)); [done|lia].
Qed.
(** The database file holds the pages that the WAL does not. *)
Definition db_covers (fs : files) (ps : Z) (frs : list frame) : Prop :=
  forall p, 1 <= p <= logical_size fs ps frs -> p <> LockPgno ps ->
    latest p (committed frs) = None -> Z.of_nat (length (db_page (f_db fs) ps p)) = ps.

(** A sync after the WAL was truncated below the end of the last file.  Either the
    flag says that nothing was lost, and it copies the new WAL, or it takes a full
    snapshot. *)
Lemma verifyAndSync_truncated e fs w r0 frs d f n R :
  wal_at fs w r0 [] frs -> quiet e -> commit_inside frs -> d_pageSize d = wr_pageSize r0 ->
  d_pos d = Some (mkPos (lf_MaxTXID f) 0) -> 0 < lf_MaxTXID f < 2 ^ 64 - 2 ->
  d_l0 d !! (lf_MaxTXID f, lf_MaxTXID f) = Some (Ok f) ->
  lf_WALOffset f + lf_WALSize f = WALHeaderSize + Z.of_nat n * frameSize r0 ->
  Z.of_nat (length w) < lf_WALOffset f + lf_WALSize f ->
  committed frs <> [] -> grows_written fs (wr_pageSize r0) [] frs -> db_covers fs (wr_pageSize r0) frs ->
  (d_syncedToWALEnd d = true -> forall p, p <> LockPgno (wr_pageSize r0) -> R p = logical_page fs w (wr_pageSize r0) [] p) ->
  exists d' o f' rest', verifyAndSync LockPgno enc_N e fs d = (d', Ok o) /\ frs = committed frs ++ rest' /\
    lf_MinTXID f' = lf_MaxTXID f + 1 /\ lf_MaxTXID f' = lf_MaxTXID f + 1 /\
    d_l0 d' = <[(lf_MaxTXID f', lf_MaxTXID f') := Ok f']> (d_l0 d) /\
    synced_to fs w r0 rest' d' f' (committed frs) (apply_ltx f' R) /\ flags_ok d' f'.
Proof.
  intros Hat Hq Hci Hps Hpos Htx Hfile Hend Hlt Hc Hgrow Hdb HR.
  pose proof (frameSize_ok r0 (wa_ps _ _ _ _ _ Hat)) as Hfs. destruct (wa_ps _ _ _ _ _ Hat) as [Hps0 _].
  assert (0 < frameSize r0) as Hfs0 by (rewrite Hfs; unfold WALFrameHeaderSize; lia).
  destruct (NewWALReader_header w r0 (wa_open _ _ _ _ _ Hat)) as (Hlen & _).
  unfold verifyAndSync. destruct (orig_size_quiet e fs d Hq) as [sz ->].
  unfold verify. replace (DB_Pos e d) with (d, Ok (mkPos (lf_MaxTXID f) 0)) by (unfold DB_Pos; by rewrite Hpos).
  cbn [TXID_]. destruct (Z.eqb_spec (lf_MaxTXID f) 0); [lia|].
  unfold open_l0. rewrite (io_quiet e) by done. cbn [mbind result_bind]. rewrite Hfile.
  unfold verify_file. rewrite (io_quiet e) by done. cbn [mbind result_bind]. rewrite (wa_wal _ _ _ _ _ Hat). cbn [wrap_err i_offset].
  destruct (Z.ltb_spec (Z.of_nat (length w)) (lf_WALOffset f + lf_WALSize f)); [|lia].
  destruct (d_syncedToWALEnd d) eqn:Hflag.
  - rewrite (readWALHeader_quiet e fs w) by (done || apply (wa_wal _ _ _ _ _ Hat)). cbn [wrap_err mbind result_bind].
    destruct (hdr_salts _) as [s1 s2].
    destruct (incremental_step e fs w r0 [] frs (set_syncedToWALEnd false d) (mkPos (lf_MaxTXID f) 0)
                (mkInfo WALHeaderSize s1 s2 false "") R) as [[? _]|(_ & d' & f' & rest' & -> & ? & ? & ? & ? & ? & ?)];
      try done; [simpl; lia|split; [simpl; lia|simpl; lia]|by apply HR|].
    by eexists _, _, f', rest'.
  - cbn [i_offset i_salt1 i_salt2]. set (info := mkInfo _ _ _ true _).
    destruct (snapshot_step e fs w r0 frs d d (mkPos (lf_MaxTXID f) 0) info R) as (d' & f' & rest' & -> & ? & Hmin & Hmax & ? & ? & ?); try done.
    + unfold DB_Pos. by rewrite Hpos.
    + simpl. lia.
    + subst info. rewrite Hend. apply open_reader_beyond; [apply (wa_open _ _ _ _ _ Hat)|done|lia].
    + by eexists _, _, f', rest'.
Qed.

(** *** Checkpoints *)

(** The files [new] continue a level-0 directory after TXID [t]; [R'] is what a
    restore makes of [R] with them. *)
Inductive extends : l0dir -> TXID -> (Z -> option (list byte)) -> l0dir -> TXID -> (Z -> option (list byte)) -> Prop :=
| extends_refl l0 t R : extends l0 t R l0 t R
| extends_file l0 t R f l0' t' R' :
    lf_MinTXID f = t + 1 -> lf_MaxTXID f = t + 1 ->
    extends (<[(t + 1, t + 1) := Ok f]> l0) (t + 1) (apply_ltx f R) l0' t' R' -> extends l0 t R l0' t' R'.

Lemma extends_trans l0 t R l1 t1 R1 l2 t2 R2 :
  extends l0 t R l1 t1 R1 -> extends l1 t1 R1 l2 t2 R2 -> extends l0 t R l2 t2 R2.
Proof. induction 1 as [|? ? ? g ? ? ? ? ? ? IH]; intros Hx; [done|]. eapply extends_file; [done|done|]. by apply IH. Qed.

(** The relation reads the position and the files of a database only. *)
Lemma synced_to_ext fs w r0 rest d d' f frs R :
  synced_to fs w r0 rest d f frs R -> d_pageSize d' = d_pageSize d -> d_pos d' = d_pos d -> d_l0 d' = d_l0 d ->
  synced_to fs w r0 rest d' f frs R.
Proof. intros [] Hps Hpos Hl0. by split; rewrite ?Hps, ?Hpos, ?Hl0. Qed.

(** A WAL that ends at the position has no frame after it. *)
Lemma wal_at_end fs w r0 frs rest :
  wal_at fs w r0 frs rest -> Z.of_nat (length w) <= WALHeaderSize + Z.of_nat (length frs) * frameSize r0 -> rest = [].
Proof.
  intros [Hw Ho Hpsok [rz HF] _ _] Hlen. destruct (NewWALReader_header w r0 Ho) as (_ & HfN & Hrd & _).
  pose proof (frameSize_ok r0 Hpsok) as Hfs. destruct Hpsok as [Hps0 _]. destruct rest as [|g rest]; [done|exfalso].
  destruct (frames_nth _ _ _ _ HF ltac:(lia) (length frs) g) as [Hoff _]; [by rewrite list_lookup_middle|].
  destruct (frames_bytes w _ r0 _ _ Hrd Hfs ltac:(lia) ltac:(lia) HF g) as (_ & Hp & _); [apply in_or_app; right; by left|].
  unfold frame_page, slice in Hp. rewrite length_take, length_drop in Hp. unfold WALHeaderSize, WALFrameHeaderSize in *. nia.
Qed.

Section Checkpoint.
Context `{SQLite}.

(** A checkpoint that truncates the WAL: the statements succeed, the writers before
    it only append to the WAL [w] (which becomes [w1]), nobody commits between the
    check of the WAL's size and the checkpoint, the database file then has the
    database of [w1] and the new WAL [w4] is shorter than the position after the
    frames [frs] and has a different header. *)
Record truncation (others : nat -> files -> files) (mode : string) (fs : files) (w : list byte) (frs : list frame)
    (fs1 : files) (w1 : list byte) (r1 : WALReader) (rest1 : list frame)
    (fs4 : files) (w4 : list byte) (r4 : WALReader) (frs4 : list frame) : Prop := {
  tr_sql : read_unlock = Ok () /\ read_lock = Ok () /\ begin_tx = Ok () /\ write_lock = Ok () /\ rollback_tx = Ok ();
  tr_grown : others 1%nat fs = fs1 /\ wal_at fs1 w1 r1 frs rest1 /\ f_db fs1 = f_db fs /\ w `prefix_of` w1;
  tr_window : others 2%nat fs1 = fs1;
  tr_run : exists fs2 fs3 w3, wal_checkpoint mode fs1 = (fs2, Ok ()) /\ bump_seq (others 3%nat fs2) = (fs3, Ok ()) /\
    f_wal fs3 = Some w3 /\ WALHeaderSize <= Z.of_nat (length w3) /\ slice w3 0 WALHeaderSize <> slice w 0 WALHeaderSize /\
    others 4%nat fs3 = fs4;
  tr_new : wal_at fs4 w4 r4 [] frs4 /\ wr_pageSize r4 = wr_pageSize r1 /\
    Z.of_nat (length w4) < WALHeaderSize + Z.of_nat (length frs) * frameSize r4;
  tr_moved : forall p, p <> LockPgno (wr_pageSize r1) ->
    logical_page fs4 w4 (wr_pageSize r1) [] p = logical_page fs1 w1 (wr_pageSize r1) (frs ++ rest1) p;
  tr_seq : committed frs4 <> [] /\ commit_inside frs4 /\ grows_written fs4 (wr_pageSize r4) [] frs4 /\ db_covers fs4 (wr_pageSize r4) frs4
}.

(** The part of [checkpoint] after the first copy. *)
Lemma checkpoint_second_copy others mode fs w fs1 w1 r1 rest1 fs4 w4 r4 frs4 e rest r0 d f frs R :
  truncation others mode fs w frs fs1 w1 r1 rest1 fs4 w4 r4 frs4 -> (forall i, quiet (e i)) ->
  synced_to fs w r0 rest d f frs R -> flags_ok d f -> lf_MaxTXID f < 2 ^ 64 - 2 ->
  let d1 := if negb (d_lastSyncedWALOffset d =? walSize fs1) then set_syncedToWALEnd false d else d in
  exists d' o f' rest', verifyAndSync LockPgno enc_N (e 4%nat) fs4 d1 = (d', Ok o) /\
    extends (d_l0 d) (lf_MaxTXID f) R (d_l0 d') (lf_MaxTXID f') (apply_ltx f' R) /\
    synced_to fs4 w4 r4 rest' d' f' (committed frs4) (apply_ltx f' R) /\ flags_ok d' f'.
Proof.
  intros [_ (_ & Hat1 & Hdb1 & Hpre) _ _ (Hat4 & Hps4 & Hshort) Hmoved (Hc4 & Hci4 & Hgrow4 & Hcov4)] Hq Hst Hfl Htop d1.
  pose proof (synced_grows fs w r0 rest fs1 w1 r1 rest1 d f frs R Hst Hat1 Hdb1 Hpre) as Hst1.
  assert (synced_to fs1 w1 r1 rest1 d1 f frs R) as [_ Hpsd [Htx1 _] Hpos Hfile Hend _ _ HR].
  { subst d1. case_match; [by eapply synced_to_ext|done]. }
  assert (frameSize r4 = frameSize r1) as Hfs by (unfold frameSize; by rewrite Hps4).
  destruct (verifyAndSync_truncated (e 4%nat) fs4 w4 r4 frs4 d1 f (length frs) R) as (d' & o & f' & rest' & HV & _ & Hmin & Hmax & Hl0 & Hst' & Hfl').
  all: try done; try congruence; try lia.
  - intros Hflag p. rewrite Hps4. intros Hp. rewrite (Hmoved p Hp), (HR p Hp).
    assert (d_lastSyncedWALOffset d = walSize fs1 /\ d_syncedToWALEnd d = true) as [Hls Hfd].
    { subst d1. destruct (Z.eqb_spec (d_lastSyncedWALOffset d) (walSize fs1)); done. }
    specialize (Hfl Hfd). unfold walSize in Hls. rewrite (wa_wal _ _ _ _ _ Hat1) in Hls.
    rewrite (wal_at_end _ _ _ _ _ Hat1); [by rewrite app_nil_r|]. lia.
  - exists d', o, f', rest'. split; [done|]. split; [|done].
    replace (d_l0 d) with (d_l0 d1) by (subst d1; by case_match).
    rewrite Hl0, Hmax. eapply extends_file; [done|done|]. constructor.
Qed.
(** What a truncating checkpoint runs, given its two copies. *)
Lemma checkpoint_run others mode fs w frs fs1 w1 r1 rest1 fs4 w4 r4 frs4 e r0 d d1 d2 o1 o2 :
  truncation others mode fs w frs fs1 w1 r1 rest1 fs4 w4 r4 frs4 -> (forall i, quiet (e i)) ->
  f_wal fs = Some w -> NewWALReader (wal_reader w) (wal_source w) = Ok r0 ->
  verifyAndSync LockPgno enc_N (e 1%nat) fs d = (d1, Ok o1) ->
  verifyAndSync LockPgno enc_N (e 4%nat) fs4
    (if negb (d_lastSyncedWALOffset d1 =? walSize fs1) then set_syncedToWALEnd false d1 else d1) = (d2, Ok o2) ->
  checkpoint LockPgno enc_N e true others mode fs d = (set_syncedSinceCheckpoint false d2, fs4, Ok ()).
Proof.
  intros [(Hul & Hrl & Hb & Hwl & Hrb) (Hg & Hat1 & _ & _) Hwin (fs2 & fs3 & w3 & Hrun & Hseq & Hw3 & Hl3 & Hne & H4) _ _ _] Hq Hw Ho HV1 HV2.
  destruct (NewWALReader_header w r0 Ho) as (Hlen & _). unfold checkpoint. cbn [negb].
  rewrite (readWALHeader_quiet _ fs w) by done. rewrite HV1, Hg.
  assert (walFileSize (e 2%nat) fs1 = Ok (walSize fs1)) as -> by (unfold walFileSize; by rewrite (proj1 (Hq 2%nat))).
  unfold execCheckpoint. rewrite Hul. cbn [wrap_err]. rewrite Hwin, Hrun, Hrl. cbn [wrap_err]. rewrite Hseq.
  rewrite (readWALHeader_quiet _ fs3 w3) by done. rewrite bool_decide_false by done.
  rewrite Hb, Hwl. cbn [wrap_err mbind result_bind]. by rewrite H4, HV2, Hrb.
Qed.

(** C4: a truncating checkpoint and the commits around it.  A checkpoint that truncates the WAL,
    whose statements and file operations do not fail, succeeds, and
    after it the level-0 files restore to the database that SQLite reads, although
    the WAL with the transactions in between is gone: the transactions that other
    connections commit after the first copy and before the check of the WAL's size, and those after the checkpoint, are
    covered too.  Nobody commits between that check and SQLite's checkpoint ([tr_window]): there
    [checkpoint_window] loses a transaction.  The files written on the way have the next TXIDs. *)
Theorem checkpoint_truncates others mode fs w r0 rest d f frs R fs1 w1 r1 rest1 fs4 w4 r4 frs4 e :
  synced_to fs w r0 rest d f frs R -> flags_ok d f -> (forall i, quiet (e i)) ->
  commit_inside rest -> grows_written fs (wr_pageSize r0) frs rest -> lf_MaxTXID f < 2 ^ 64 - 3 ->
  truncation others mode fs w (frs ++ committed rest) fs1 w1 r1 rest1 fs4 w4 r4 frs4 ->
  exists d' f' rest' R', checkpoint LockPgno enc_N e true others mode fs d = (d', fs4, Ok ()) /\
    extends (d_l0 d) (lf_MaxTXID f) R (d_l0 d') (lf_MaxTXID f') R' /\
    synced_to fs4 w4 r4 rest' d' f' (committed frs4) R'.
Proof.
  intros Hst Hfl Hq Hci Hgrow Htop Htr. destruct (st_at _ _ _ _ _ _ _ _ Hst) as [Hw Ho _ _ _ _].
  destruct (verifyAndSync_step (e 1%nat) fs w r0 rest d f frs R Hst (Hq _) Hci Hgrow ltac:(lia)) as (d1 & o1 & HV1 & Hcase).
  assert (exists f1 rest1' R1, extends (d_l0 d) (lf_MaxTXID f) R (d_l0 d1) (lf_MaxTXID f1) R1 /\ lf_MaxTXID f1 < 2 ^ 64 - 2 /\
            synced_to fs w r0 rest1' d1 f1 (frs ++ committed rest) R1 /\ flags_ok d1 f1) as (f1 & rest1' & R1 & Hx1 & Htop1 & Hst1 & Hfl1).
  { destruct Hcase as [[Hc ->]|(_ & f1 & rest1' & _ & Hmin & Hmax & Hl0 & Hst1 & Hfl1)].
    - exists f, rest, R. rewrite Hc, app_nil_r. split; [constructor|]. split; [lia|done].
    - exists f1, rest1', (apply_ltx f1 R). rewrite Hl0, Hmax. split; [|split; [lia|done]].
      eapply extends_file; [done|done|]. constructor. }
  destruct (checkpoint_second_copy others mode fs w fs1 w1 r1 rest1 fs4 w4 r4 frs4 e rest1' r0 d1 f1 (frs ++ committed rest) R1)
    as (d2 & o2 & f2 & rest2 & HV2 & Hx2 & Hst2 & _); [done..|].
  exists (set_syncedSinceCheckpoint false d2), f2, rest2, (apply_ltx f2 R1).
  split; [by eapply checkpoint_run|]. split; [|by eapply synced_to_ext]. by eapply extends_trans.
Qed.

End Checkpoint.

End Replication.

(** ** The position cache *)

(** The names and headers of level-0 files agree, one transaction each, and the
    TXID counter has room. *)
Definition dir_ok (l0 : l0dir) : Prop :=
  forall k r, l0 !! k = Some r -> k.1 = k.2 /\ 0 < k.2 < 2 ^ 64 - 1 /\ forall f, r = Ok f -> lf_MaxTXID f = k.2.

(** A cached position is that of the newest file, which decodes. *)
Definition cache_ok (d : DB) : Prop :=
  forall p, d_pos d = Some p -> exists f, p = mkPos (lf_MaxTXID f) 0 /\ d_l0 d !! (lf_MaxTXID f, lf_MaxTXID f) = Some (Ok f) /\
    forall k r, d_l0 d !! k = Some r -> k.2 <= lf_MaxTXID f.

(** Only a missing directory is reported as missing. *)
Definition env_ok (e : env) (l0 : l0dir) : Prop :=
  forall err, e_fault e ReadL0Dir = Some err -> os_IsNotExist err = true -> l0 = ∅.

Lemma max_entry_spec ents acc :
  (max_entry acc ents = acc \/ exists r, In (max_entry acc ents, r) ents) /\
  acc.2 <= (max_entry acc ents).2 /\ forall k r, In (k, r) ents -> k.2 <= (max_entry acc ents).2.
Proof.
  revert acc. induction ents as [|[k r] ents IH]; intros acc; [split; [by left|split; [reflexivity|done]]|].
  change (max_entry acc ((k, r) :: ents)) with (max_entry (if snd acc <? snd k then k else acc) ents).
  destruct (IH (if snd acc <? snd k then k else acc)) as (Hin & Hge & Hall).
  set (m := max_entry _ ents) in *. split; [|split].
  - destruct Hin as [->|[r' Hin]]; [|right; exists r'; by right].
    destruct (snd acc <? snd k); [right; exists r; by left|by left].
  - destruct (Z.ltb_spec (snd acc) (snd k)); lia.
  - intros k' r' [[= <- <-]|Hin']; [|by eapply Hall]. destruct (Z.ltb_spec (snd acc) (snd k)); lia.
Qed.

Lemma In_ReadDir k r l0 : In (k, r) (ReadDir l0) <-> l0 !! k = Some r.
Proof. unfold ReadDir. rewrite <- list_elem_of_In, merge_sort_Permutation. apply elem_of_map_to_list. Qed.

(** The newest entry of a directory that has one. *)
Lemma newest_entry l0 : dir_ok l0 ->
  let m := max_entry (0, 0) (ReadDir l0) in
  (l0 = ∅ /\ m = (0, 0)) \/ (exists r, l0 !! m = Some r /\ m = (m.2, m.2) /\ 0 < m.2 < 2 ^ 64 - 1 /\
    (forall f, r = Ok f -> lf_MaxTXID f = m.2) /\ forall k r, l0 !! k = Some r -> k.2 <= m.2).
Proof.
  intros Hok m. destruct (max_entry_spec (ReadDir l0) (0, 0)) as (Hin & _ & Hall). fold m in Hin, Hall.
  destruct Hin as [Hm|[r Hr]].
  - left. split; [|done]. apply map_eq. intros k. rewrite lookup_empty. destruct (l0 !! k) as [r|] eqn:E; [|done].
    destruct (Hok _ _ E) as (_ & Hk & _). apply In_ReadDir, Hall in E. rewrite Hm in E. simpl in E. lia.
  - right. exists r. apply In_ReadDir in Hr. destruct (Hok _ _ Hr) as (Heq & Hpos & Hf).
    split; [done|]. split; [destruct m; simpl in *; congruence|]. split; [lia|]. split; [done|].
    intros k r' E. apply In_ReadDir in E. by eapply Hall.
Qed.

(** What [Pos] answers, and what it does to the cache. *)
Lemma DB_Pos_spec e d d' r :
  DB_Pos e d = (d', r) -> dir_ok (d_l0 d) -> cache_ok d -> env_ok e (d_l0 d) ->
  d_l0 d' = d_l0 d /\ cache_ok d' /\
  (forall p, r = Ok p -> 0 <= TXID_ p < 2 ^ 64 - 1 /\ (forall k r, d_l0 d !! k = Some r -> k.2 <= TXID_ p) /\
     (TXID_ p = 0 \/ exists x, d_l0 d !! (TXID_ p, TXID_ p) = Some x)).
Proof.
  unfold DB_Pos. destruct (d_pos d) as [q|] eqn:Hq.
  { intros [= <- <-] Hok Hc _. split; [done|]. split; [done|]. intros p [= <-].
    destruct (Hc q Hq) as (f & -> & Hf & Hall). destruct (Hok _ _ Hf) as (_ & ? & _). simpl in *. split; [lia|]. split; [done|by eauto]. }
  unfold MaxLTX. intros HP Hok Hc He. destruct (e_fault e ReadL0Dir) as [err|] eqn:Hf.
  { destruct (os_IsNotExist err) eqn:Hne; [|by injection HP as <- <-].
    simpl in HP. injection HP as <- <-. split; [done|]. split; [done|]. intros p [= <-]. simpl.
    split; [lia|]. rewrite (He err Hf Hne). split; [|by left]. intros k r. by rewrite lookup_empty. }
  destruct (newest_entry (d_l0 d) Hok) as [[Hemp Hm]|(r0 & Hr0 & Hm & Hpos & Hfile & Hall)].
  { rewrite Hm in HP. simpl in HP. injection HP as <- <-. split; [done|]. split; [done|]. intros p [= <-]. simpl.
    split; [lia|]. rewrite Hemp. split; [|by left]. intros k r. by rewrite lookup_empty. }
  rewrite Hm in HP, Hr0. set (t := (max_entry (0, 0) (ReadDir (d_l0 d))).2) in *.
  destruct (Z.eqb_spec t 0); [lia|]. unfold open_l0 in HP. rewrite Hr0 in HP.
  destruct (io e OpenLTX) as [[]|?|?]; cbn [mbind result_bind] in HP; [|by injection HP as <- <-..].
  destruct r0 as [f|?|?]; [|by injection HP as <- <-..]. injection HP as <- <-. rewrite (Hfile f eq_refl).
  split; [done|]. split; [|intros p [= <-]; simpl; split; [lia|]; split; [done|by eauto]].
  intros p [= <-]. exists f. rewrite (Hfile f eq_refl). by split_and!.
Qed.

(** A fresh computation gives the cached position. *)
Lemma cache_recomputed e d p :
  dir_ok (d_l0 d) -> cache_ok d -> (forall op, e_fault e op = None) -> d_pos d = Some p ->
  DB_Pos e (invalidatePosCache d) = (d, Ok p).
Proof.
  intros Hok Hc He Hp. destruct (Hc p Hp) as (f & -> & Hf & Hall). unfold DB_Pos, MaxLTX. cbn [d_pos invalidatePosCache set_pos d_l0].
  rewrite He. destruct (newest_entry (d_l0 d) Hok) as [[Hemp _]|(r0 & Hr0 & Hm & Hpos & Hfile & Hall')].
  { by rewrite Hemp in Hf. }
  assert ((max_entry (0, 0) (ReadDir (d_l0 d))).2 = lf_MaxTXID f) as Ht.
  { apply Hall' in Hf. rewrite Hm in Hr0. apply Hall in Hr0. simpl in *. lia. }
  rewrite Ht in Hm, Hpos, Hfile. rewrite Hm in Hr0 |- *. destruct (Z.eqb_spec (lf_MaxTXID f) 0); [lia|].
  unfold open_l0, io. rewrite He. cbn [mbind result_bind d_l0 set_pos invalidatePosCache]. rewrite Hf. f_equal.
  unfold invalidatePosCache, set_pos. destruct d; simpl in *. by rewrite Hp.
Qed.

Section PosCache.
Variable LockPgno : Z -> Z.
Variable enc_N : ltxFile -> Z.

(** The database and its directory after a step are consistent again. *)
Definition coherent (d : DB) : Prop := dir_ok (d_l0 d) /\ cache_ok d.

Lemma coherent_same d d' : coherent d -> d_l0 d' = d_l0 d -> d_pos d' = d_pos d \/ d_pos d' = None -> coherent d'.
Proof.
  intros [Hok Hc] Hl0 Hp. split; [by rewrite Hl0|]. intros p Hd. rewrite Hl0. apply Hc.
  destruct Hp as [<-|Hn]; [done|by rewrite Hn in Hd].
Qed.

Lemma coherent_pos e d d' r : coherent d -> env_ok e (d_l0 d) -> DB_Pos e d = (d', r) -> coherent d'.
Proof.
  intros [Hok Hc] He HP. destruct (DB_Pos_spec _ _ _ _ HP Hok Hc He) as (Hl0 & Hc' & _). split; [by rewrite Hl0|done].
Qed.

Lemma verify_file_same e fs d f d' r : verify_file e fs d f = (d', r) -> d_l0 d' = d_l0 d /\ d_pos d' = d_pos d.
Proof.
  unfold verify_file. destruct (_ wrapping "open wal file") as [w|?|?]; [|by intros [= <- <-]..].
  case_if; [|by intros [= <- <-]]. case_if; by intros [= <- <-].
Qed.

Lemma coherent_verify e fs d d' r :
  coherent d -> env_ok e (d_l0 d) -> verify e fs d = (d', r) -> coherent d' /\ d_l0 d' = d_l0 d.
Proof.
  intros Hco He HV. unfold verify in HV. destruct (DB_Pos e d) as [d1 rp] eqn:HP.
  pose proof (coherent_pos _ _ _ _ Hco He HP) as Hco1.
  destruct Hco as [Hok Hc]. destruct (DB_Pos_spec _ _ _ _ HP Hok Hc He) as (Hl0 & _ & _).
  destruct rp as [pos|?|?]; [|by injection HV as <- <-..]. case_if; [by injection HV as <- <-|].
  destruct (open_l0 e d1 _ _) as [[f|?|?]|?|?]; [|by injection HV as <- <-..].
  apply verify_file_same in HV as [Hl Hp]. split; [|congruence]. eapply coherent_same; [exact Hco1|done|by left].
Qed.

(** The file that [sync] builds is named after its transaction. *)
Lemma write_ltx_txid e fs w ps info t offset sz commit s1 s2 m f :
  write_ltx LockPgno e fs w ps info t offset sz commit s1 s2 m = Ok (Some f) -> lf_MinTXID f = t /\ lf_MaxTXID f = t.
Proof.
  unfold write_ltx. case_if; [done|].
  destruct (io e MkdirTemp) as [[]|?|?]; cbn [mbind result_bind wrap_err]; [|done..].
  destruct (io e OpenTemp) as [[]|?|?]; cbn [mbind result_bind wrap_err]; [|done..].
  destruct (io e EncodeHeader) as [[]|?|?]; cbn [mbind result_bind wrap_err]; [|done..].
  destruct (if i_snapshotting info then _ else _) as [pages|?|?]; cbn [mbind result_bind wrap_err]; [|done..].
  destruct (io e CloseEncoder) as [[]|?|?]; cbn [mbind result_bind wrap_err]; [|done..].
  destruct (io e SyncTemp) as [[]|?|?]; cbn [mbind result_bind wrap_err]; [|done..].
  destruct (io e CloseTemp) as [[]|?|?]; cbn [mbind result_bind wrap_err]; [|done..]. by intros [= <-].
Qed.

Lemma build_ltx_txid e fs ps info t f :
  build_ltx LockPgno e fs ps info t = Ok (Some f) -> lf_MinTXID f = t /\ lf_MaxTXID f = t.
Proof.
  unfold build_ltx. destruct (io e StatDB) as [[]|?|?]; cbn [mbind result_bind]; [|done..].
  destruct (open_wal e fs) as [w|?|?]; cbn [mbind result_bind]; [|done..].
  destruct (open_reader w info) as [[offset rd]|?|?]; cbn [mbind result_bind]; [|done..].
  destruct (PageMap _ _ rd) as [[[[[m mo] wc]|?|?] rd']|]; [|done..].
  destruct (assert _ _) as [[]|?|?]; cbn [mbind result_bind]; [|done..]. apply write_ltx_txid.
Qed.

(** [sync] keeps the files there are, and adds at most one, under a new name. *)
Lemma sync_coherent e fs d info d' r :
  coherent d -> env_ok e (d_l0 d) -> (forall k x, d_l0 d !! k = Some x -> k.2 < 2 ^ 64 - 2) ->
  sync LockPgno enc_N e fs d info = (d', r) ->
  coherent d' /\
  (d_l0 d' = d_l0 d \/
   r = Ok true /\ exists t f, d_l0 d !! (t, t) = None /\ (forall k x, d_l0 d !! k = Some x -> k.2 < t) /\
     lf_MinTXID f = t /\ lf_MaxTXID f = t /\ d_l0 d' = <[(t, t) := Ok f]> (d_l0 d)).
Proof.
  intros Hco He Htop HS. unfold sync in HS. destruct (DB_Pos e d) as [d1 rp] eqn:HP.
  pose proof (coherent_pos _ _ _ _ Hco He HP) as Hco1.
  destruct Hco as [Hok Hc]. destruct (DB_Pos_spec _ _ _ _ HP Hok Hc He) as (Hl0 & _ & Hpos).
  destruct rp as [pos|?|?]; [|injection HS as <- <-; (split; [done|by left])..].
  destruct (Hpos pos eq_refl) as (Hrange & Hmax & Hat).
  destruct (build_ltx _ _ _ _ _ _) as [[f|]|?|?] eqn:HB; [|injection HS as <- <-; (split; [done|by left])..].
  rewrite txid_succ_small in HB by lia. apply build_ltx_txid in HB as [Hmin Hmaxf].
  unfold install_ltx in HS. destruct (e_fault e RenameTemp).
  { injection HS as <- <-. split; [|by left]. eapply coherent_same; [exact Hco1|done|by right]. }
  injection HS as <- <-. rewrite Hmaxf. set (t := TXID_ pos + 1) in *.
  assert (forall k x, d_l0 d !! k = Some x -> k.2 < t) as Hlt by (intros k x Hk; apply Hmax in Hk; lia).
  split; [|right; split; [done|exists t, f; rewrite <- Hl0; split_and!; try done]].
  2: { destruct (d_l0 d1 !! (t, t)) eqn:E; [|done]. rewrite Hl0 in E. apply Hlt in E. simpl in E. lia. }
  2: { intros k x. rewrite Hl0. apply Hlt. }
  assert (t < 2 ^ 64 - 1) as Htt by (destruct Hat as [?|[x Hx]]; [lia|apply Htop in Hx; simpl in Hx; lia]).
  split; cbn [d_l0 d_pos]; rewrite ?Hl0.
  - intros k x. rewrite lookup_insert_Some. intros [[<- <-]|[_ Hk]]; [|by apply Hok].
    simpl. split; [done|]. split; [lia|]. by intros ? [= <-].
  - intros p [= <-]. exists f. cbn [d_l0]. rewrite Hmaxf, lookup_insert_eq. split; [done|]. split; [done|].
    intros k x. rewrite lookup_insert_Some. intros [[<- _]|[_ Hk]]; [simpl; lia|]. apply Hlt in Hk. lia.
Qed.
Lemma verifyAndSync_coherent e fs d d' r :
  coherent d -> env_ok e (d_l0 d) -> (forall k x, d_l0 d !! k = Some x -> k.2 < 2 ^ 64 - 2) ->
  verifyAndSync LockPgno enc_N e fs d = (d', r) ->
  coherent d' /\ forall k x, d_l0 d !! k = Some x -> d_l0 d' !! k = Some x.
Proof.
  intros Hco He Htop. unfold verifyAndSync. destruct (if _ =? 0 then _ else _) as [sz|?|?]; [|by intros [= <- <-]..].
  destruct (verify e fs d) as [d1 ri] eqn:HV. destruct (coherent_verify _ _ _ _ _ Hco He HV) as [Hco1 Hl1].
  destruct ri as [info|?|?]; [|by intros [= <- <-]; rewrite Hl1..].
  destruct (sync LockPgno enc_N e fs d1 info) as [d2 rs] eqn:HS. rewrite <- Hl1 in He, Htop |- *.
  destruct (sync_coherent _ _ _ _ _ _ Hco1 He Htop HS) as [Hco2 Hl2].
  assert (forall k x, d_l0 d1 !! k = Some x -> d_l0 d2 !! k = Some x) as Hkeep.
  { destruct Hl2 as [->|(_ & t & f & Hnew & _ & _ & _ & ->)]; [done|]. intros k x Hk.
    rewrite lookup_insert_ne; [done|]. intros <-. congruence. }
  destruct rs as [b|?|?]; by intros [= <- <-].
Qed.

(** The removal of the directory does not fail half-way. *)
Definition removes (e : env) : Prop := forall err, e_fault e RemoveL0 = Some err -> os_IsNotExist err = true.

Lemma RemoveAll_sub e l0 : (RemoveAll e l0).1 ⊆ l0.
Proof. unfold RemoveAll. destruct (e_fault e RemoveL0); simpl; [apply map_filter_subseteq|apply map_empty_subseteq]. Qed.

(** The operations on a database, with any of their file system operations failing; a reset
    that cannot remove the directory has no position in the cache to leave there. *)
Inductive db_step : DB -> DB -> Prop :=
| step_pos e d : env_ok e (d_l0 d) -> db_step d (DB_Pos e d).1
| step_sync e fs d : env_ok e (d_l0 d) -> (forall k x, d_l0 d !! k = Some x -> k.2 < 2 ^ 64 - 2) ->
    db_step d (verifyAndSync LockPgno enc_N e fs d).1
| step_reset e d : removes e \/ d_pos d = None -> db_step d (ResetLocalState e d).1
| step_delete e d t : db_step d (deleteLocalLTXFile e d t t).1
| step_flag b c d : db_step d (set_syncedSinceCheckpoint b (set_syncedToWALEnd c d)).

Lemma coherent_sub d l0' : coherent d -> l0' ⊆ d_l0 d -> forall ps m0 sc se lo, coherent (mkDB ps l0' None m0 sc se lo).
Proof.
  intros [Hok _] Hsub ps m0 sc se lo. split; [|done]. simpl. intros k r Hk. apply Hok. by eapply lookup_weaken.
Qed.

Lemma reset_coherent e d : removes e \/ d_pos d = None -> coherent d -> coherent (ResetLocalState e d).1.
Proof.
  intros Hr Hco. unfold ResetLocalState. pose proof (RemoveAll_sub e (d_l0 d)) as Hsub. destruct (RemoveAll e (d_l0 d)) as [l0 [err|]] eqn:ER; cbn [fst] in Hsub.
  - destruct (os_IsNotExist err) eqn:En; [by apply (coherent_sub d)|]. destruct Hr as [Hr|Hp].
    + unfold RemoveAll in ER. destruct (e_fault e RemoveL0) as [err'|] eqn:Ef; [|done]. injection ER as _ ->. specialize (Hr _ Ef). congruence.
    + simpl. rewrite Hp. by apply (coherent_sub d).
  - by apply (coherent_sub d).
Qed.

Lemma db_step_coherent d d' : db_step d d' -> coherent d -> coherent d'.
Proof.
  intros Hs Hco. destruct Hs as [e d He|e fs d He Ht|e d Hr|e d t|b c d].
  - destruct (DB_Pos e d) eqn:E. by eapply coherent_pos.
  - destruct (verifyAndSync _ _ e fs d) eqn:E. by eapply verifyAndSync_coherent.
  - by apply reset_coherent.
  - unfold deleteLocalLTXFile. destruct (e_fault e RemoveFile) as [err|]; [destruct (os_IsNotExist err); [|done]|];
      apply (coherent_sub d); [done|reflexivity|done|]. simpl. apply delete_subseteq.
  - eapply coherent_same; [exact Hco|done|by left].
Qed.

(** Files are immutable.  A sync never overwrites or removes a level-0 file, also
    when operations of the file system fail, and every file stays named after the one
    transaction in its header. *)
Theorem verifyAndSync_immutable e fs d k x :
  coherent d -> env_ok e (d_l0 d) -> (forall k x, d_l0 d !! k = Some x -> k.2 < 2 ^ 64 - 2) -> d_l0 d !! k = Some x ->
  dir_ok (d_l0 (verifyAndSync LockPgno enc_N e fs d).1) /\ d_l0 (verifyAndSync LockPgno enc_N e fs d).1 !! k = Some x.
Proof.
  intros Hco He Ht Hk. destruct (verifyAndSync LockPgno enc_N e fs d) as [d' r] eqn:E.
  destruct (verifyAndSync_coherent _ _ _ _ _ Hco He Ht E) as [[Hok _] Hkeep]. split; [done|by apply Hkeep].
Qed.
End PosCache.

(** ** Checkpoint policy *)

(** The size of a WAL with [n] frames, in unbounded arithmetic. *)
Definition wal_bytes (ps n : Z) : Z := WALHeaderSize + (WALFrameHeaderSize + ps) * n.

Lemma calcWALSize_exact ps n : 0 <= ps <= 65536 -> 0 <= n < 2 ^ 32 -> calcWALSize (u32 ps) (u32 n) = wal_bytes ps n.
Proof.
  intros Hps Hn. unfold calcWALSize, wal_bytes, WALFrameHeaderSize.
  rewrite (u32_small ps), (u32_small n), (u32_small (24 + ps)) by lia. done.
Qed.

(** The three reasons for a checkpoint, in order of priority. *)
Definition truncate_due (cfg : DBConfig) (ps origWALSize : Z) : Prop :=
  0 < TruncatePageN cfg /\ wal_bytes ps (TruncatePageN cfg) <= origWALSize.
Definition pages_due (cfg : DBConfig) (ps newWALSize : Z) : Prop := wal_bytes ps (MinCheckpointPageN cfg) <= newWALSize.
Definition interval_due (cfg : DBConfig) (d : DB) (newWALSize : Z) (modTime now : time) : Prop :=
  0 < CheckpointInterval cfg < now - modTime /\ d_syncedSinceCheckpoint d = true /\ wal_bytes (d_pageSize d) 1 < newWALSize.

(** The checkpoint policy.  For page sizes that SQLite has and thresholds that fit
    their type, no size computation overflows, and the decision is: a blocking
    TRUNCATE checkpoint exactly when the emergency threshold is set and reached;
    otherwise a PASSIVE one exactly when the WAL has the minimum number of pages, or
    data was synced since the last checkpoint, the interval has passed and the WAL
    has more than one frame; otherwise none. *)
Theorem checkpoint_policy cfg d origWALSize newWALSize modTime now :
  512 <= d_pageSize d <= 65536 -> 0 <= TruncatePageN cfg < 2 ^ 32 -> 0 <= MinCheckpointPageN cfg < 2 ^ 32 ->
  exists mode, checkpoint_decision cfg d origWALSize newWALSize (Ok modTime) now = Ok mode /\
    (mode = Some CheckpointModeTruncate <-> truncate_due cfg (d_pageSize d) origWALSize) /\
    (mode = Some CheckpointModePassive <-> ~ truncate_due cfg (d_pageSize d) origWALSize /\
       (pages_due cfg (d_pageSize d) newWALSize \/ interval_due cfg d newWALSize modTime now)) /\
    (mode = None <-> ~ truncate_due cfg (d_pageSize d) origWALSize /\
       ~ pages_due cfg (d_pageSize d) newWALSize /\ ~ interval_due cfg d newWALSize modTime now).
Proof.
  intros Hps Ht Hm. unfold checkpoint_decision. destruct (Z.eqb_spec (d_pageSize d) 0); [lia|].
  rewrite !calcWALSize_exact by lia. replace (calcWALSize (u32 (d_pageSize d)) 1) with (wal_bytes (d_pageSize d) 1)
    by (by rewrite <- calcWALSize_exact by lia).
  unfold truncate_due, pages_due, interval_due.
  destruct (Z.ltb_spec 0 (TruncatePageN cfg)), (Z.leb_spec (wal_bytes (d_pageSize d) (TruncatePageN cfg)) origWALSize),
    (Z.leb_spec (wal_bytes (d_pageSize d) (MinCheckpointPageN cfg)) newWALSize),
    (Z.ltb_spec 0 (CheckpointInterval cfg)), (d_syncedSinceCheckpoint d); cbn [andb wrap_err mbind result_bind];
    try destruct (Z.ltb_spec (CheckpointInterval cfg) (now - modTime)),
      (Z.ltb_spec (wal_bytes (d_pageSize d) 1) newWALSize); cbn [andb];
    (eexists; split; [reflexivity|]); unfold CheckpointModeTruncate, CheckpointModePassive;
    (split; [|split]); split; intros Hx; try done; try lia; intuition (discriminate || congruence || lia).
Qed.

(** ** A database of three pages

    A small SQLite: its page size is 8, a checkpoint copies every committed page to
    the database file, and the next write then starts the WAL anew over the old
    frames. *)
Module Demo.
Definition lock_pgno : Z -> Z := fun _ => 1000.
Definition enc_N : ltxFile -> Z := fun f => 8 * Z.of_nat (length (lf_pages f)).
Definition calm : env := mkEnv (fun _ => None) (fun _ => None) (fun _ => None) 0 (fun _ => true).

Definition page (pgno commit : Z) (b : byte) : wal_page := {| wp_pgno := pgno; wp_commit := commit; wp_data := repeat b 8 |}.
Definition pages0 : list wal_page := [page 1 0 x01; page 2 3 x02; page 3 3 x03].
Definition db0 : list byte := repeat x10 8 ++ repeat x20 8 ++ repeat x30 8.
Definition wal_of (pages : list wal_page) : list byte := wal_file LittleEndian 8 0 7 9 pages.
Definition fs_of (pages : list wal_page) : files := mkFiles db0 (Some (wal_of pages)).
Definition fs0 : files := fs_of pages0.
(** One more transaction, and the start of another. *)
Definition pages1 : list wal_page := pages0 ++ [page 1 3 x04].
Definition pages2 : list wal_page := pages1 ++ [page 2 0 x05].

Definition empty_db : DB := mkDB 8 ∅ None None false false 0.
Definition d0 : DB := (verifyAndSync lock_pgno enc_N calm fs0 empty_db).1.
Definition f0 : ltxFile := match d_l0 d0 !! (1, 1) with Some (Ok f) => f | _ => mkLTX 0 0 0 0 0 0 0 0 [] end.

Definition reader (w : list byte) : WALReader :=
  match NewWALReader (wal_reader w) (wal_source w) with Ok r => r | _ => fresh_reader (wal_reader w) (wal_source w) end.
Definition frames_in (w : list byte) : list frame :=
  match frames (wal_fuel w) (reader w) with Some (frs, _) => frs | None => [] end.

(** What the level-0 files restore to. *)
Definition restored (d : DB) : Z -> option (list byte) :=
  fold_left (fun R ent => match ent.2 with Ok f => apply_ltx f R | _ => R end) (ReadDir (d_l0 d)) (fun _ => None).

Definition db_of (fs : files) (p : Z) : option (list byte) :=
  match f_wal fs with Some w => logical_page fs w 8 (frames_in w) p | None => None end.

Definition backfilled (fs : files) : list byte :=
  mjoin ((fun p => default [] (db_of fs p)) <$> [1; 2; 3]).

(** The first frame of the WAL that a restart begins. *)
Definition restarted (old : list byte) : list byte :=
  let w := wal_file LittleEndian 8 1 8 10 [page 3 3 x06] in w ++ drop (length w) old.

#[export] Instance sqlite : SQLite := {
  read_unlock := Ok (); read_lock := Ok ();
  wal_checkpoint mode fs := (mkFiles (backfilled fs) (if bool_decide (mode = CheckpointModeTruncate) then Some [] else f_wal fs), Ok ());
  bump_seq fs := (mkFiles (f_db fs) (restarted <$> f_wal fs), Ok ());
  begin_tx := Ok (); write_lock := Ok (); rollback_tx := Ok ()
}.

(** A transaction of another connection at point [k] of the checkpoint. *)
Definition others (k n : nat) (fs : files) : files := if (n =? k)%nat then fs_of pages1 else fs.
Definition run (k : nat) (mode : string) : DB * files * result () :=
  checkpoint lock_pgno enc_N (fun _ => calm) true (others k) mode fs0 d0.

Lemma calm_quiet : quiet calm.
Proof. done. Qed.

Lemma page_size_8 : page_size_ok 8.
Proof. by vm_compute. Qed.

(** A WAL with the frames of [frs] and [rest]. *)
Lemma demo_wal_at fs w r0 frs rest :
  f_wal fs = Some w -> NewWALReader (wal_reader w) (wal_source w) = Ok r0 -> wr_pageSize r0 = 8 ->
  frames_in w = frs ++ rest -> is_Some (frames (wal_fuel w) r0) -> committed frs = frs ->
  forallb (fun f => fr_pgno f <=? 3) (frs ++ rest) = true -> wal_at lock_pgno fs w r0 frs rest.
Proof.
  intros Hw Ho Hps HF [[frs' rz] Hz] Hc Hall. split; try done.
  - rewrite Hps. apply page_size_8.
  - exists rz. unfold frames_in, reader in HF. rewrite Ho, Hz in HF. by subst frs'.
  - rewrite Hps. intros f Hin. rewrite forallb_forall in Hall. specialize (Hall f Hin). apply Z.leb_le in Hall. unfold lock_pgno. lia.
Qed.

Definition frs0 : list frame := frames_in (wal_of pages0).
Definition R0 : Z -> option (list byte) := logical_page fs0 (wal_of pages0) 8 frs0.

Lemma demo_synced : synced_to lock_pgno fs0 (wal_of pages0) (reader (wal_of pages0)) [] d0 f0 frs0 R0 /\ flags_ok d0 f0.
Proof.
  split; [|intros _; vm_compute; reflexivity]. split.
  - apply demo_wal_at; try (vm_compute; reflexivity). eexists. vm_compute. reflexivity.
  - vm_compute. reflexivity.
  - vm_compute. split; reflexivity.
  - vm_compute. reflexivity.
  - vm_compute. reflexivity.
  - vm_compute. reflexivity.
  - vm_compute. split; reflexivity.
  - intros g Hg. vm_compute in Hg. injection Hg as <-. vm_compute. reflexivity.
  - intros p _. unfold R0. by replace (wr_pageSize (reader (wal_of pages0))) with 8 by (vm_compute; reflexivity).
Qed.
Lemma demo_at_pages1 : wal_at lock_pgno (fs_of pages1) (wal_of pages1) (reader (wal_of pages1)) frs0 (drop 3 (frames_in (wal_of pages1))).
Proof. apply demo_wal_at; try (vm_compute; reflexivity). eexists. vm_compute. reflexivity. Qed.

Lemma demo_no_growth fs frs rest : logical_size fs 8 frs = 3 -> last_commit rest = 3 -> grows_written lock_pgno fs 8 frs rest.
Proof. intros H1 H2 p Hp _. lia. Qed.

Lemma demo_commit_inside frs g : last (committed frs) = Some g -> 1 <= fr_pgno g <= last_commit frs -> commit_inside frs.
Proof. intros Hg Hp f Hf. rewrite Hg in Hf. by injection Hf as <-. Qed.

Lemma between_1_3 p : 1 <= p <= 3 -> p = 1 \/ p = 2 \/ p = 3.
Proof. lia. Qed.

(** The files after a truncating checkpoint. *)
Definition w4 : list byte := restarted [].
Definition fs4 : files := mkFiles (backfilled (fs_of pages1)) (Some w4).

Lemma demo_truncation : truncation lock_pgno (others 1) CheckpointModeTruncate fs0 (wal_of pages0) (frs0 ++ committed [])
    (fs_of pages1) (wal_of pages1) (reader (wal_of pages1)) (drop 3 (frames_in (wal_of pages1)))
    fs4 w4 (reader w4) (frames_in w4).
Proof.
  cbn [committed]. rewrite app_nil_r. split.
  - repeat split.
  - split; [done|]. split; [apply demo_at_pages1|]. split; [done|]. exists (drop 128 (wal_of pages1)). vm_compute. reflexivity.
  - done.
  - exists (mkFiles (backfilled (fs_of pages1)) (Some [])), fs4, w4. repeat split; by vm_compute.
  - split; [apply demo_wal_at; try (vm_compute; reflexivity); eexists; vm_compute; reflexivity|]. by vm_compute.
  - replace (wr_pageSize (reader (wal_of pages1))) with 8 by (vm_compute; reflexivity). intros p _. unfold logical_page.
    replace (logical_size fs4 8 []) with 3 by (vm_compute; reflexivity).
    replace (logical_size (fs_of pages1) 8 _) with 3 by (vm_compute; reflexivity).
    destruct (Z.leb_spec 1 p); [|done]. destruct (Z.leb_spec p 3); [|done].
    destruct (between_1_3 p ltac:(lia)) as [->|[->| ->]]; vm_compute; reflexivity.
  - replace (wr_pageSize (reader w4)) with 8 by (vm_compute; reflexivity). split; [by vm_compute|]. split.
    { eapply demo_commit_inside; [vm_compute; reflexivity|by vm_compute]. }
    split; [apply demo_no_growth; vm_compute; reflexivity|].
    intros p. replace (logical_size fs4 8 (frames_in w4)) with 3 by (vm_compute; reflexivity).
    intros Hp _ _. destruct (between_1_3 p Hp) as [->|[->| ->]]; vm_compute; reflexivity.
Qed.
End Demo.

(** The window of a checkpoint.  A transaction that another connection commits
    between the first copy and the checkpoint is kept when the checkpoint truncates
    the WAL, as [checkpoint_truncates] says.  When the checkpoint is passive and the
    next write restarts the WAL in place, the frame at the last position is still
    there and matches, so the second copy is incremental and the transaction is in
    no LTX file: page 1 restores to its old content.  The same happens to a
    truncating checkpoint when the commit falls between the check of the WAL's size
    and the checkpoint itself. *)
Theorem checkpoint_window :
  (let '(d, fs, r) := Demo.run 1 CheckpointModeTruncate in r = Ok () /\ Demo.restored d 1 = Demo.db_of fs 1) /\
  (let '(d, fs, r) := Demo.run 1 CheckpointModePassive in r = Ok () /\ Demo.restored d 1 = Some (repeat x01 8) /\
     Demo.db_of fs 1 = Some (repeat x04 8)) /\
  (let '(d, fs, r) := Demo.run 2 CheckpointModeTruncate in r = Ok () /\ Demo.restored d 1 = Some (repeat x01 8) /\
     Demo.db_of fs 1 = Some (repeat x04 8)).
Proof. vm_compute. repeat split; reflexivity. Qed.

Lemma verifyAndSync_appended_witness :
  exists d' o, verifyAndSync Demo.lock_pgno Demo.enc_N Demo.calm (Demo.fs_of Demo.pages1) Demo.d0 = (d', Ok o) /\
    is_Some (d_l0 d' !! (2, 2)).
Proof.
  destruct (verifyAndSync_appended Demo.lock_pgno Demo.enc_N Demo.calm Demo.fs0 (Demo.wal_of Demo.pages0)
    (Demo.reader (Demo.wal_of Demo.pages0)) [] (Demo.fs_of Demo.pages1) (Demo.wal_of Demo.pages1)
    (Demo.reader (Demo.wal_of Demo.pages1)) (drop 3 (Demo.frames_in (Demo.wal_of Demo.pages1))) Demo.d0 Demo.f0 Demo.frs0 Demo.R0)
    as (d' & o & HV & Hcase).
  - apply Demo.demo_synced.
  - apply Demo.demo_at_pages1.
  - done.
  - exists (drop 128 (Demo.wal_of Demo.pages1)). vm_compute. reflexivity.
  - done.
  - eapply Demo.demo_commit_inside; [vm_compute; reflexivity|by vm_compute].
  - apply Demo.demo_no_growth; vm_compute; reflexivity.
  - vm_compute. reflexivity.
  - exists d', o. split; [done|]. destruct Hcase as [[Hc _]|(_ & f' & rest' & _ & _ & Hmax & Hl0 & _)].
    + exfalso. vm_compute in Hc. discriminate.
    + replace (lf_MaxTXID f') with 2 in Hl0 by (rewrite Hmax; vm_compute; reflexivity). rewrite Hl0, lookup_insert_eq. by eexists.
Defined.

Lemma sync_snapshot_witness :
  exists d' f, sync Demo.lock_pgno Demo.enc_N Demo.calm Demo.fs0 Demo.empty_db (mkInfo WALHeaderSize 0 0 true "") = (d', Ok true) /\
    lf_MaxTXID f = 1 /\ d_l0 d' !! (1, 1) = Some (Ok f).
Proof.
  destruct (sync_snapshot Demo.lock_pgno Demo.enc_N Demo.calm Demo.fs0 (Demo.wal_of Demo.pages0)
    (Demo.reader (Demo.wal_of Demo.pages0)) Demo.frs0 Demo.empty_db Demo.empty_db zeroPos
    (mkInfo WALHeaderSize 0 0 true "") (fun _ => None)) as (d' & f & rest' & HV & _ & _ & Hmax & Hl0 & _).
  - apply Demo.demo_wal_at; try (vm_compute; reflexivity). eexists. vm_compute. reflexivity.
  - done.
  - eapply Demo.demo_commit_inside; [vm_compute; reflexivity|by vm_compute].
  - vm_compute. reflexivity.
  - vm_compute. reflexivity.
  - by vm_compute.
  - vm_compute. reflexivity.
  - done.
  - replace (wr_pageSize (Demo.reader (Demo.wal_of Demo.pages0))) with 8 by (vm_compute; reflexivity). intros p.
    replace (logical_size Demo.fs0 8 Demo.frs0) with 3 by (vm_compute; reflexivity).
    intros Hp _ _. destruct (Demo.between_1_3 p Hp) as [->|[->| ->]]; vm_compute; reflexivity.
  - simpl in Hmax. exists d', f. split; [done|]. split; [done|]. by rewrite Hl0, Hmax, lookup_insert_eq.
Defined.

#[local] Existing Instance Demo.sqlite.

Lemma checkpoint_truncates_witness :
  exists d' f' rest' R', Demo.run 1 CheckpointModeTruncate = (d', Demo.fs4, Ok ()) /\
    synced_to Demo.lock_pgno Demo.fs4 Demo.w4 (Demo.reader Demo.w4) rest' d' f' (committed (Demo.frames_in Demo.w4)) R'.
Proof.
  destruct (checkpoint_truncates Demo.lock_pgno Demo.enc_N (Demo.others 1) CheckpointModeTruncate Demo.fs0 (Demo.wal_of Demo.pages0)
    (Demo.reader (Demo.wal_of Demo.pages0)) [] Demo.d0 Demo.f0 Demo.frs0 Demo.R0
    (Demo.fs_of Demo.pages1) (Demo.wal_of Demo.pages1) (Demo.reader (Demo.wal_of Demo.pages1)) (drop 3 (Demo.frames_in (Demo.wal_of Demo.pages1)))
    Demo.fs4 Demo.w4 (Demo.reader Demo.w4) (Demo.frames_in Demo.w4) (fun _ => Demo.calm)) as (d' & f' & rest' & R' & HC & _ & Hst).
  - apply Demo.demo_synced.
  - apply Demo.demo_synced.
  - done.
  - done.
  - intros p Hp _. exfalso. change (last_commit []) with 0 in Hp.
    replace (wr_pageSize (Demo.reader (Demo.wal_of Demo.pages0))) with 8 in Hp by (vm_compute; reflexivity).
    replace (logical_size Demo.fs0 8 Demo.frs0) with 3 in Hp by (vm_compute; reflexivity). lia.
  - vm_compute. reflexivity.
  - apply Demo.demo_truncation.
  - exists d', f', rest', R'. unfold Demo.run. split; [exact HC|exact Hst].
Defined.

Lemma demo_empty_ok : dir_ok (d_l0 Demo.empty_db).
Proof. intros k r Hk. change (d_l0 Demo.empty_db) with (∅ : l0dir) in Hk. by rewrite lookup_empty in Hk. Qed.

Lemma demo_env_ok l0 : env_ok Demo.calm l0.
Proof. done. Qed.

Lemma demo_d0_step : db_step Demo.lock_pgno Demo.enc_N Demo.empty_db Demo.d0.
Proof.
  apply (step_sync _ _ Demo.calm Demo.fs0); [apply demo_env_ok|].
  intros k x Hk. change (d_l0 Demo.empty_db) with (∅ : l0dir) in Hk. by rewrite lookup_empty in Hk.
Qed.

(** A reset that cannot remove the whole directory.  It returns before the cache is cleared: the
    position is still that of a file that is gone, and every later sync fails to open it, where
    a fresh position would be that of an empty directory. *)
Definition stuck : env := mkEnv (fun op => match op with RemoveL0 => Some (EMsg "permission denied") | _ => None end) (fun _ => None) (fun _ => None) 0 (fun _ => false).
Theorem failed_reset_stale :
  let '(d, r) := ResetLocalState stuck Demo.d0 in
  is_ok r = false /\ (DB_Pos Demo.calm d).2 = Ok (mkPos 1 0) /\ (DB_Pos Demo.calm (invalidatePosCache d)).2 = Ok zeroPos /\
  is_ok (verifyAndSync Demo.lock_pgno Demo.enc_N Demo.calm (Demo.fs_of Demo.pages1) d).2 = false /\
  is_ok (verifyAndSync Demo.lock_pgno Demo.enc_N Demo.calm (Demo.fs_of Demo.pages1) (invalidatePosCache d)).2 = true.
Proof. vm_compute. repeat split. Qed.

Lemma verifyAndSync_immutable_witness :
  d_l0 (verifyAndSync Demo.lock_pgno Demo.enc_N Demo.calm (Demo.fs_of Demo.pages1) Demo.d0).1 !! (1, 1) = Some (Ok Demo.f0).
Proof.
  apply (verifyAndSync_immutable Demo.lock_pgno Demo.enc_N Demo.calm (Demo.fs_of Demo.pages1) Demo.d0 (1, 1) (Ok Demo.f0)).
  - apply (db_step_coherent _ _ _ _ demo_d0_step). split; [apply demo_empty_ok|discriminate].
  - apply demo_env_ok.
  - intros k x Hk. assert (dir_ok (d_l0 Demo.d0)) as Hok
      by (apply (db_step_coherent _ _ _ _ demo_d0_step); split; [apply demo_empty_ok|discriminate]).
    assert (map_to_list (d_l0 Demo.d0) = [((1, 1), Ok Demo.f0)]) as Hl by (vm_compute; reflexivity).
    apply elem_of_map_to_list in Hk. rewrite Hl, list_elem_of_singleton in Hk. injection Hk as -> _. reflexivity.
  - vm_compute. reflexivity.
Defined.

Lemma checkpoint_policy_witness :
  exists mode, checkpoint_decision (mkDBConfig 1000 121359 0) (mkDB 4096 ∅ None None true false 0) 0 5000000 (Ok 0) 10 = Ok mode /\
    mode = Some CheckpointModePassive.
Proof.
  destruct (checkpoint_policy (mkDBConfig 1000 121359 0) (mkDB 4096 ∅ None None true false 0) 0 5000000 0 10)
    as (mode & HD & _ & [_ HP] & _); [by vm_compute..|].
  exists mode. split; [exact HD|]. apply HP. unfold truncate_due, pages_due. split; [by vm_compute; intros [_ ?]|left; by vm_compute].
Defined.
