(* ===== verification/Retention.v ===== *)
(** * Retention across the levels

    Model of the retention that the database and the store run on a replica:
    [DB.EnforceSnapshotRetention], [DB.EnforceL0RetentionByTime] and
    [DB.EnforceRetentionByTXID] of src/db.go and [Store.EnforceSnapshotRetention] of
    src/store.go.  The theorems connect retention with the restore plans of
    RestorePlan.v: what could be restored from a snapshot that is kept can still be
    restored. *)

From Stdlib Require Import ZArith Lia Strings.Byte.
From stdpp Require Import base numbers list strings gmap sorting.
From S2P Require Import Prelude WalReader Ltx Levels Streams RestorePlan Compactor Replica Db.
Local Open Scope Z_scope.

Section Retention.
Context {C : Type} `{ReplicaClient C} {identity recipient : Type}.
Abbreviation compactor := (@Compactor DB identity recipient).
Abbreviation dbstate := (@state C DB).
Implicit Types (c : compactor) (st : dbstate).
(** The modification time of a local file, when [os.Stat] finds it. *)
Variable stat_local : DB -> TXID -> TXID -> option time.

(** [os.Remove] of a local file; only level 0 matters to the database. *)
Definition remove_local (e : env) (d : DB) (level : Z) (minTXID maxTXID : TXID) : DB :=
  match e_fault e RemoveFile with
  | Some _ => d
  | None => if level =? 0 then mkDB (d_pageSize d) (base.delete (minTXID, maxTXID) (d_l0 d)) (d_pos d) (d_max0 d)
                                 (d_syncedSinceCheckpoint d) (d_syncedToWALEnd d) (d_lastSyncedWALOffset d)
            else d
  end.

Definition remove_locals (e : env) (level : Z) (deleted : list FileInfo) (d : DB) : DB :=
  fold_left (fun d info => remove_local e d level (MinTXID info) (MaxTXID info)) deleted d.

(** The remote deletion, unless retention is left to the storage. *)
Definition remove_remote (enabled : bool) (cl : C) (deleted : list FileInfo) : C * option error :=
  if negb enabled then (cl, None) else DeleteLTXFiles cl deleted.

Definition DB_EnforceSnapshotRetention (e : env) (enabled : bool) (st : dbstate) (timestamp : time) : dbstate * result TXID :=
  match LTXFiles (st_client st) SnapshotLevel 0 false with
  | Err err => (st, Err (EWrap "fetch ltx files" err))
  | Panic m => (st, Panic m)
  | Ok itr =>
      let '(deleted, lastInfo, minSnapshotTXID) := snapshot_loop timestamp 0 (itr_items itr) [] None 0 in
      let deleted := (drop_newest deleted lastInfo).*2 in
      match remove_remote enabled (st_client st) deleted with
      | (cl, Some err) => (set_client st cl, Err (EWrap "remove ltx files" err))
      | (cl, None) =>
          (mkState cl (st_cache st) (remove_locals e SnapshotLevel deleted (st_local st)) (st_verifyErrors st), Ok minSnapshotTXID)
      end
  end.

(** The scan of level 0.  A file without a creation time takes that of its local
    copy. *)
Fixpoint db_l0_loop (d : DB) (threshold : time) (maxL1TXID : TXID) (i : nat) (items : list FileInfo)
    (deleted : list item_ptr) (lastInfo : option item_ptr) : list item_ptr * option item_ptr * bool :=
  match items with
  | [] => (deleted, lastInfo, true)
  | info :: items =>
      let lastInfo := Some (i, info) in
      let createdAt := if time_IsZero (CreatedAt info)
                       then default threshold (stat_local d (MinTXID info) (MaxTXID info)) else CreatedAt info in
      if time_After createdAt threshold then (deleted, lastInfo, false)
      else if MaxTXID info <=? maxL1TXID
      then db_l0_loop d threshold maxL1TXID (S i) items (deleted ++ [(i, info)]) lastInfo
      else db_l0_loop d threshold maxL1TXID (S i) items deleted lastInfo
  end.

Definition EnforceL0RetentionByTime (e : env) (enabled : bool) (l0Retention : duration) (st : dbstate) : dbstate * result () :=
  if l0Retention <=? 0 then (st, Ok ()) else
  match LTXFiles (st_client st) 1 0 false with
  | Err err => (st, Err (EWrap "fetch l1 files" err))
  | Panic m => (st, Panic m)
  | Ok itr =>
      let maxL1TXID := max_txid (itr_items itr) 0 in
      match itr_Close itr with
      | Some err => (st, Err (EWrap "close l1 iterator" err))
      | None =>
          if maxL1TXID =? 0 then (st, Ok ()) else
          let threshold := e_now e - l0Retention in
          match LTXFiles (st_client st) 0 0 false with
          | Err err => (st, Err (EWrap "fetch l0 files" err))
          | Panic m => (st, Panic m)
          | Ok itr =>
              let '(deleted, lastInfo, processedAll) :=
                db_l0_loop (st_local st) threshold maxL1TXID 0 (itr_items itr) [] None in
              let deleted := (if processedAll then drop_newest deleted lastInfo else deleted).*2 in
              if (length deleted =? 0)%nat then (st, Ok ()) else
              match remove_remote enabled (st_client st) deleted with
              | (cl, Some err) => (set_client st cl, Err (EWrap "remove expired l0 files" err))
              | (cl, None) =>
                  (mkState cl (st_cache st) (invalidatePosCache (remove_locals e 0 deleted (st_local st))) (st_verifyErrors st), Ok ())
              end
          end
      end
  end.

(** The levels below the snapshots. *)
Fixpoint enforce_levels (c : compactor) (levels : CompactionLevels) (txID : TXID) (st : dbstate) : dbstate * result () :=
  match levels with
  | [] => (st, Ok ())
  | lvl :: levels =>
      if lvl_Level lvl =? 0 then enforce_levels c levels txID st else
      match EnforceRetentionByTXID c st (lvl_Level lvl) txID with
      | (st, Ok ()) => enforce_levels c levels txID st
      | (st, Err err) => (st, Err (EWrap "enforce retention" err))
      | (st, Panic m) => (st, Panic m)
      end
  end.

Definition Store_EnforceSnapshotRetention (e : env) (c : compactor) (levels : CompactionLevels) (snapshotRetention : duration)
    (st : dbstate) : dbstate * result () :=
  match DB_EnforceSnapshotRetention e (RetentionEnabled c) st (e_now e - snapshotRetention) with
  | (st, Err err) => (st, Err (EWrap "enforce snapshot retention" err))
  | (st, Panic m) => (st, Panic m)
  | (st, Ok minSnapshotTXID) => enforce_levels c levels minSnapshotTXID st
  end.
End Retention.

(** ** What retention leaves *)

Lemma last_filter_kept (P Q : FileInfo -> bool) l s :
  last (filter P l) = Some s -> Q s = true -> last (filter P (filter Q l)) = Some s.
Proof.
  induction l as [|x l IH] using rev_ind; [done|]. rewrite !filter_app, !filter_cons_bool, !filter_nil.
  destruct (P x) eqn:HP.
  - rewrite last_snoc. intros [= ->] HQ. rewrite HQ, filter_cons_bool, HP. by rewrite filter_nil, last_snoc.
  - rewrite app_nil_r. intros Hl HQ. specialize (IH Hl HQ). destruct (Q x); rewrite ?filter_cons_bool, ?HP, filter_nil, app_nil_r; done.
Qed.

Lemma snapshots_last_max l s f :
  StronglySorted (fun a b => MaxTXID a <= MaxTXID b) l -> last l = Some s -> In f l -> MaxTXID f <= MaxTXID s.
Proof.
  intros Hs Hl Hf. apply last_Some in Hl as [l' ->]. apply in_app_or in Hf as [Hf|[<-|[]]]; [|reflexivity].
  apply (StronglySorted_app_1_elem_of _ _ _ _ _ Hs); [by apply list_elem_of_In|apply list_elem_of_singleton; done].
Qed.

Lemma In_removelast {A} (l : list A) x : In x (removelast l) -> In x l.
Proof. destruct l as [|y l _] using rev_ind; [done|]. rewrite removelast_last. intros Hx. apply in_or_app. by left. Qed.

Lemma removelast_or_last {A} (l : list A) x : In x l -> In x (removelast l) \/ last l = Some x.
Proof.
  destruct l as [|y l _] using rev_ind; [done|]. rewrite removelast_last, last_snoc.
  intros [Hx|[->|[]]]%in_app_or; [by left|by right].
Qed.

(** ** Chains *)

Lemma chain_above cur l t : chain cur l t -> Forall (fun f => cur < MaxTXID f) l.
Proof.
  revert cur. induction l as [|f l IH]; intros cur; [constructor|]. intros (_ & Hlt & Hc). constructor; [done|].
  eapply Forall_impl; [by apply IH|]. simpl. lia.
Qed.

(** The part of a chain beyond a transaction between its ends. *)
Lemma chain_suffix cur l t m :
  chain cur l t -> cur <= m <= t -> exists l', chain m l' t /\ forall f, In f l' -> In f l /\ m < MaxTXID f.
Proof.
  revert cur. induction l as [|f l IH]; intros cur Hc Hm.
  { simpl in Hc. exists []. split; [simpl; lia|done]. }
  destruct Hc as (Hmin & Hlt & Hc). destruct (decide (MaxTXID f <= m)).
  - destruct (IH _ Hc ltac:(lia)) as (l' & Hc' & Hl'). exists l'. split; [done|]. intros g Hg. destruct (Hl' g Hg). split; [by right|done].
  - exists (f :: l). split; [simpl; split_and!; [lia|lia|done]|]. pose proof (chain_above _ _ _ Hc) as Ha.
    intros g Hg. split; [done|]. destruct Hg as [<-|Hg]; [lia|]. rewrite Forall_forall in Ha. apply list_elem_of_In, Ha in Hg. lia.
Qed.

(** A contiguous level reaches from any transaction it starts at to its end. *)
Lemma contiguous_chain l cur :
  contiguous l -> (forall f, In f l -> 0 <= MaxTXID f < 2 ^ 64 - 1) -> (forall f, head l = Some f -> MinTXID f <= cur + 1) ->
  exists l' m, chain cur l' m /\ (forall f, In f l' -> In f l) /\ (forall f, In f l -> MaxTXID f <= m) /\
    (m = cur \/ exists f, In f l /\ MaxTXID f = m).
Proof.
  revert cur. induction l as [|a l IH]; intros cur Hc Hr Hh; [exists [], cur; split_and!; [done|done|done|by left]|].
  assert (contiguous l /\ forall f, head l = Some f -> MinTXID f = MaxTXID a + 1) as [Hc' Hn].
  { destruct l as [|b l]; [done|]. destruct Hc as [Hb Hc]. split; [done|]. intros f [= <-]. rewrite Hb.
    apply txid_succ_small. destruct (Hr a (or_introl eq_refl)). lia. }
  specialize (Hh a eq_refl). destruct (decide (MaxTXID a <= cur)).
  - destruct (IH cur Hc') as (l' & m & Hch & Hin & Hall & Hm); [intros f ?; apply Hr; by right|intros f Hf; rewrite (Hn f Hf); lia|].
    exists l', m. pose proof (chain_le _ _ _ Hch). split_and!; [done|intros f ?; right; by apply Hin| |].
    + intros f [<-|Hf]; [lia|by apply Hall].
    + destruct Hm as [?|(f & ? & ?)]; [by left|right; exists f; split; [by right|done]].
  - destruct (IH (MaxTXID a) Hc') as (l' & m & Hch & Hin & Hall & Hm); [intros f ?; apply Hr; by right|intros f Hf; rewrite (Hn f Hf); lia|].
    exists (a :: l'), m. pose proof (chain_le _ _ _ Hch). split_and!; [simpl; split_and!; [lia|lia|done]| | |].
    + intros f [<-|Hf]; [by left|right; by apply Hin].
    + intros f [<-|Hf]; [lia|by apply Hall].
    + right. destruct Hm as [->|(f & ? & ?)]; [exists a; split; [by left|done]|exists f; split; [by right|done]].
Qed.

Section Kept.
Context {C : Type} `{RC : ReplicaClientLaws C} {identity recipient : Type}.
Implicit Types (c : @Compactor DB identity recipient) (st : @state C DB).
Abbreviation files st level := (level_files (st_client st) false level).

Lemma remove_remote_spec enabled (cl : C) a cl' r :
  remove_remote enabled cl a = (cl', r) ->
  (forall um lv f, In f (level_files cl um lv) -> listed a f = false -> In f (level_files cl' um lv)) /\
  (r = None -> forall um lv, level_files cl' um lv = filter (fun f => negb (enabled && listed a f)) (level_files cl um lv)) /\
  (enabled = false -> cl' = cl).
Proof.
  unfold remove_remote. destruct enabled; cbn [negb andb].
  - intros HD. split_and!; [|intros -> um lv; by apply DeleteLTXFiles_ok|done].
    intros um lv f Hf Hn. destruct r as [err|]; [by eapply DeleteLTXFiles_err|].
    rewrite (DeleteLTXFiles_ok _ _ _ _ _ HD). apply In_filter_bool. by rewrite Hn.
  - intros [= <- <-]. split_and!; [done| |done]. intros _ um lv. symmetry. by apply filter_all_true.
Qed.

(** The transaction that snapshot retention reports is no later than any snapshot it
    keeps, also when the listing ended early. *)
Lemma snapshot_retention_spec e st ts st' m :
  DB_EnforceSnapshotRetention e true st ts = (st', Ok m) ->
  (forall f, In f (files st SnapshotLevel) -> 0 < MaxTXID f) ->
  StronglySorted (fun a b => MaxTXID a <= MaxTXID b) (files st SnapshotLevel) ->
  exists Q : FileInfo -> bool,
    (forall um lv, lv <> SnapshotLevel -> level_files (st_client st') um lv = level_files (st_client st) um lv) /\
    files st' SnapshotLevel = filter Q (files st SnapshotLevel) /\
    forall s, In s (files st' SnapshotLevel) -> m <= MaxTXID s.
Proof.
  intros HE Hpos Hsort. unfold DB_EnforceSnapshotRetention in HE.
  destruct (LTXFiles (st_client st) SnapshotLevel 0 false) as [it|err|x] eqn:HL; [|done..].
  rewrite snapshot_loop_spec in HE. simpl in HE.
  replace (match last (indexed 0 (itr_items it)) with Some p => Some p | None => None end)
    with (last (indexed 0 (itr_items it))) in HE by (by destruct (last _)).
  rewrite (drop_newest_spec (fun f => time_Before (CreatedAt f) ts)) in HE.
  set (a := filter _ (removelast (itr_items it))) in HE.
  destruct (remove_remote true (st_client st) a) as [cl [err|]] eqn:HR; [done|]. injection HE as <- <-. cbn [st_client].
  destruct (remove_remote_spec _ _ _ _ _ HR) as (_ & Heq & _). specialize (Heq eq_refl). cbn [andb] in Heq.
  destruct (LTXFiles_items _ _ _ _ _ HL) as [tl Htl].
  assert (filter (fun f => 0 <=? MinTXID f) (files st SnapshotLevel) = files st SnapshotLevel) as Hall.
  { apply filter_all_true. intros f Hf. apply level_files_range in Hf. lia. }
  rewrite Hall in Htl. exists (fun f => negb (listed a f)). split_and!; [|apply Heq|].
  - intros um lv Hlv. rewrite Heq. apply filter_all_true. intros f Hf. apply negb_true_iff, not_true_iff_false.
    intros (g & Hg & Hlev & _)%listed_spec. apply Hlv. rewrite <- (level_files_level _ _ _ _ Hf), Hlev.
    apply In_filter_bool in Hg as [_ Hg]. apply (listing_In _ _ _ g HL). by apply In_removelast.
  - intros s Hs. rewrite Heq in Hs. apply In_filter_bool in Hs as [Hn Hs]. apply negb_true_iff in Hn.
    assert (forall f, In f (itr_items it) -> In f (files st SnapshotLevel)) as Hsub
      by (intros f Hf; rewrite Htl; apply in_or_app; by left).
    destruct (min_kept_spec ts (itr_items it) 0 ltac:(auto) ltac:(lia)) as (_ & Hm1 & _ & _ & Hm2).
    set (m := min_kept ts (itr_items it) 0) in *. specialize (Hpos s Hs).
    destruct (decide (m = 0)) as [|Hm]; [lia|]. destruct (Hm1 Hm) as [?|(f & Hf & _ & <-)]; [done|].
    rewrite Htl in Hs, Hsort. apply in_app_or in Hs as [Hs|Hs].
    + destruct (time_Before (CreatedAt s) ts) eqn:Hexp; [|by apply Hm2].
      destruct (removelast_or_last _ _ Hs) as [Hrl|Hl].
      * exfalso. rewrite listed_In in Hn; [done|]. apply In_filter_bool. done.
      * apply (snapshots_last_max (itr_items it)); [|done|done]. by apply (StronglySorted_app_1_l _ _ tl).
    + apply (StronglySorted_app_1_elem_of _ _ _ _ _ Hsort); by apply list_elem_of_In.
Qed.

(** Retention by transaction leaves the other levels alone. *)
Lemma by_txid_other c st level txID st' :
  EnforceRetentionByTXID c st level txID = (st', Ok ()) ->
  forall um lv, lv <> level -> level_files (st_client st') um lv = level_files (st_client st) um lv.
Proof.
  unfold EnforceRetentionByTXID. destruct (LTXFiles (st_client st) level 0 false) as [it|err|x] eqn:HL; [|done..].
  rewrite retention_loop_spec. simpl.
  replace (match last (indexed 0 (itr_items it)) with Some p => Some p | None => None end)
    with (last (indexed 0 (itr_items it))) by (by destruct (last _)).
  rewrite (drop_newest_spec (fun f => MaxTXID f <? txID)). intros HD um lv Hlv.
  destruct (delete_files_spec _ _ _ _ _ _ _ HD) as (_ & Hex & Hoff).
  destruct (RetentionEnabled c) eqn:HR; [|by destruct (Hoff eq_refl) as [-> _]].
  rewrite (Hex eq_refl eq_refl). apply filter_all_true. intros f Hf. apply negb_true_iff, not_true_iff_false.
  intros (g & Hg & Hlev & _)%listed_spec. apply Hlv. rewrite <- (level_files_level _ _ _ _ Hf), Hlev.
  apply In_filter_bool in Hg as [_ Hg]. apply (listing_In _ _ _ g HL). by apply In_removelast.
Qed.

Lemma enforce_levels_spec c levels m st st' :
  enforce_levels c levels m st = (st', Ok ()) -> Forall (fun l => lvl_Level l <> SnapshotLevel) levels ->
  (forall um, level_files (st_client st') um SnapshotLevel = level_files (st_client st) um SnapshotLevel) /\
  forall um lv f, In f (level_files (st_client st) um lv) -> m <= MaxTXID f -> In f (level_files (st_client st') um lv).
Proof.
  intros HE HF. revert st HE. induction HF as [|lvl levels Hl _ IH]; intros st HE; cbn [enforce_levels] in HE.
  { injection HE as <-. done. }
  case_if; [by apply IH|]. destruct (EnforceRetentionByTXID c st (lvl_Level lvl) m) as [st1 [[]|err|x]] eqn:HR; [|done..].
  destruct (IH st1 HE) as [H1 H2]. split.
  - intros um. rewrite H1. by apply (by_txid_other _ _ _ _ _ HR).
  - intros um lv f Hf Hm. apply H2; [|done].
    destruct (EnforceRetentionByTXID_safe _ _ _ _ _ _ HR) as (Hk & _).
    destruct (Hk um lv f Hf) as [|[_ Hlt]]; [done|lia].
Qed.

Context `{FI : FileInfoSliceLaws}.

Lemma enforce_levels_disabled c levels m st st' :
  enforce_levels c levels m st = (st', Ok ()) -> RetentionEnabled c = false -> st_client st' = st_client st.
Proof.
  intros HE HR. revert st HE. induction levels as [|lvl levels IH]; intros st HE; cbn [enforce_levels] in HE; [by injection HE as <-|].
  case_if; [by apply IH|]. destruct (EnforceRetentionByTXID c st (lvl_Level lvl) m) as [st1 [[]|err|x]] eqn:HE1; [|done..].
  rewrite (IH _ HE). unfold EnforceRetentionByTXID in HE1. destruct (LTXFiles _ _ _ _); [|done..].
  destruct (retention_loop _ _ _ _ _). by destruct (delete_files_spec _ _ _ _ _ _ _ HE1) as (_ & _ & [-> _]).
Qed.

(** What is needed to restore to [t] after files were deleted. *)
Lemma still_restorable (cl cl' : C) (Q : FileInfo -> bool) t s fs :
  readable cl' 0 -> 0 < t -> plan_snapshot cl t 0 = Some s ->
  level_files cl' false SnapshotLevel = filter Q (level_files cl false SnapshotLevel) -> In s (level_files cl' false SnapshotLevel) ->
  chain (MaxTXID s) fs t ->
  (forall f, In f fs -> MaxTXID f <= t /\ exists level, 0 <= level < SnapshotLevel /\ In f (level_files cl' false level)) ->
  exists plan, CalcRestorePlan cl' t 0 = Ok plan /\ slice_MaxTXID plan = t.
Proof.
  intros Hr Ht Hs Hsn Hin Hch Hfs.
  assert (plan_snapshot cl' t 0 = Some s) as Hs'.
  { unfold plan_snapshot in *. cbn [time_IsZero Z.eqb negb] in *. rewrite Hsn in Hin |- *.
    apply last_filter_kept; [done|]. by apply In_filter_bool in Hin as [? _]. }
  destruct (plan_complete cl' t 0 fs t) as (plan & HP & Hle); [done|done|by left| | |].
  - by rewrite Hs'.
  - apply Forall_forall. intros f Hf. apply list_elem_of_In, Hfs in Hf as [Hle Hl]. split; [|done].
    unfold eligible. cbn [time_IsZero Z.eqb negb andb]. rewrite andb_true_r. destruct (Z.ltb_spec t (MaxTXID f)); [lia|]. by rewrite andb_false_r.
  - exists plan. split; [done|]. destruct (plan_sound cl' t 0 plan HP ltac:(lia)) as (_ & snap & ext & cur & _ & _ & _ & _ & -> & Hcur).
    apply Hcur. lia.
Qed.

Lemma restorable_In (cl : C) t f :
  0 < t -> restorable cl t 0 f -> MaxTXID f <= t /\ exists level, 0 <= level < SnapshotLevel /\ In f (level_files cl false level).
Proof.
  intros Ht [Hel Hl]. split; [|done]. unfold eligible in Hel. destruct (Z.eqb_spec t 0); [lia|]. simpl in Hel.
  destruct (Z.ltb_spec t (MaxTXID f)); [done|lia].
Qed.

(** C9: snapshot retention keeps what it should.  After the store has enforced
    snapshot retention over all levels, every transaction that could be restored
    from a snapshot that is kept can still be restored, exactly: the lower levels
    lose only files that no chain from such a snapshot uses.  This holds also when
    the listing of the snapshots ended early. *)
Theorem store_retention_restorable e c levels retention st st' t s fs :
  Store_EnforceSnapshotRetention e c levels retention st = (st', Ok ()) ->
  Forall (fun l => lvl_Level l <> SnapshotLevel) levels ->
  (forall f, In f (level_files (st_client st) false SnapshotLevel) -> 0 < MaxTXID f) ->
  StronglySorted (fun a b => MaxTXID a <= MaxTXID b) (level_files (st_client st) false SnapshotLevel) ->
  readable (st_client st') 0 -> 0 < t ->
  plan_snapshot (st_client st) t 0 = Some s -> In s (level_files (st_client st') false SnapshotLevel) ->
  chain (MaxTXID s) fs t -> Forall (restorable (st_client st) t 0) fs ->
  exists plan, CalcRestorePlan (st_client st') t 0 = Ok plan /\ slice_MaxTXID plan = t.
Proof.
  intros HE Hlv Hpos Hsort Hr Ht Hs Hin Hch HF. unfold Store_EnforceSnapshotRetention in HE.
  destruct (DB_EnforceSnapshotRetention e (RetentionEnabled c) st (e_now e - retention)) as [st1 [m|err|x]] eqn:HD; [|done..].
  destruct (enforce_levels_spec _ _ _ _ _ HE Hlv) as [Hsn2 Hk2]. rewrite Forall_forall in HF.
  assert (forall f, In f fs -> restorable (st_client st) t 0 f /\ MaxTXID s < MaxTXID f) as Hf.
  { intros f Hf. apply list_elem_of_In in Hf. split; [by apply HF|]. pose proof (chain_above _ _ _ Hch) as Ha. rewrite Forall_forall in Ha. by apply Ha. }
  destruct (RetentionEnabled c) eqn:HR.
  - destruct (snapshot_retention_spec _ _ _ _ _ HD Hpos Hsort) as (Q & Hlow & Hsnap & Hm).
    eapply (still_restorable (st_client st) _ Q); try done; [by rewrite Hsn2|].
    intros f Hff. destruct (Hf f Hff) as [Hre Hlt]. destruct (restorable_In _ _ _ Ht Hre) as (Hle & level & Hl & Hin').
    split; [done|]. exists level. split; [done|]. rewrite Hsn2 in Hin. apply Hk2; [rewrite Hlow; [done|lia]|].
    specialize (Hm s Hin). lia.
  - assert (st_client st' = st_client st) as Hsame.
    { rewrite (enforce_levels_disabled _ _ _ _ _ HE HR). unfold DB_EnforceSnapshotRetention in HD.
      destruct (LTXFiles _ _ _ _); [|done..]. destruct (snapshot_loop _ _ _ _ _ _) as [[? ?] ?]. by injection HD as <- <-. }
    rewrite Hsame in *. apply (still_restorable (st_client st) (st_client st) (fun _ => true) t s fs); try done.
    + symmetry. by apply filter_all_true.
    + intros f Hff. by apply restorable_In, Hf.
Qed.

(** The files that the scan of level 0 marks. *)
Lemma db_l0_loop_spec stat d threshold m i items deleted lastInfo a l b :
  db_l0_loop stat d threshold m i items deleted lastInfo = (a, l, b) ->
  forall x, In x a -> In x deleted \/ (In x.2 items /\ MaxTXID x.2 <= m).
Proof.
  revert i deleted lastInfo. induction items as [|f items IH]; intros i deleted lastInfo; cbn [db_l0_loop].
  { intros [= <- <- <-]. by left. }
  case_if; [intros [= <- <- <-]; by left|]. destruct (Z.leb_spec (MaxTXID f) m) as [Hle|]; intros HL x Hx.
  - destruct (IH _ _ _ HL x Hx) as [Hd|[? ?]]; [|right; split; [by right|done]].
    apply in_app_or in Hd as [?|[<-|[]]]; [by left|right; split; [by left|done]].
  - destruct (IH _ _ _ HL x Hx) as [?|[? ?]]; [by left|right; split; [by right|done]].
Qed.

Lemma drop_newest_In a l x : In x (drop_newest a l) -> In x a.
Proof.
  unfold drop_newest. destruct (last a) as [[i ?]|], l as [[j ?]|]; try done. case_if; [|done].
  rewrite <- !list_elem_of_In. intros Hx. rewrite <- (take_drop (length a - 1) a). apply elem_of_app. by left.
Qed.

(** A successful level-0 retention deletes some files of level 0 that end no later
    than level 1 does. *)
Lemma l0_retention_spec stat e enabled retention st st' :
  EnforceL0RetentionByTime stat e enabled retention st = (st', Ok ()) ->
  exists (Q : FileInfo -> bool) m,
    (forall um lv, level_files (st_client st') um lv = filter Q (level_files (st_client st) um lv)) /\
    (forall f, Q f = false -> Level f = 0 /\ MaxTXID f <= m) /\
    (m = 0 \/ exists g, In g (files st 1) /\ MaxTXID g = m).
Proof.
  unfold EnforceL0RetentionByTime.
  assert (exists (Q : FileInfo -> bool) m,
    (forall um lv, level_files (st_client st) um lv = filter Q (level_files (st_client st) um lv)) /\
    (forall f, Q f = false -> Level f = 0 /\ MaxTXID f <= m) /\
    (m = 0 \/ exists g, In g (files st 1) /\ MaxTXID g = m)) as Hnone.
  { exists (fun _ => true), 0. split_and!; [|done|by left]. intros um lv. symmetry. by apply filter_all_true. }
  case_if; [by intros [= <-]|].
  destruct (LTXFiles (st_client st) 1 0 false) as [it1|?|?] eqn:HL1; [|done..]. destruct (itr_Close it1); [done|].
  case_if; [by intros [= <-]|]. destruct (LTXFiles (st_client st) 0 0 false) as [it0|?|?] eqn:HL0; [|done..].
  set (m := max_txid (itr_items it1) 0) in *.
  destruct (db_l0_loop _ _ _ _ _ _ _ _) as [[a l] b] eqn:HL. set (del := (if b then drop_newest a l else a).*2).
  case_if; [by intros [= <-]|]. destruct (remove_remote enabled (st_client st) del) as [cl [err|]] eqn:HR; [done|].
  intros [= <-]. cbn [st_client]. destruct (remove_remote_spec _ _ _ _ _ HR) as (_ & Heq & _).
  exists (fun f => negb (enabled && listed del f)), m. split_and!; [by apply Heq| |].
  - intros f [_ Hf]%negb_false_iff%andb_true_iff. apply listed_spec in Hf as (g & Hg & Hlev & _ & Hmax).
    apply list_elem_of_In, list_elem_of_fmap in Hg as (x & -> & Hx). apply list_elem_of_In in Hx.
    assert (In x a) as Hxa by (destruct b; [by eapply drop_newest_In|done]).
    destruct (db_l0_loop_spec _ _ _ _ _ _ _ _ _ _ _ HL x Hxa) as [[]|[Hin Hle]].
    destruct (listing_In _ _ _ _ HL0 Hin) as [_ Hl0]. split; congruence.
  - destruct (max_txid_spec (itr_items it1) 0) as (_ & _ & [?|(g & Hg & Hm)]); [by left|right].
    exists g. split; [|done]. by apply (listing_In _ _ _ _ HL1).
Qed.

(** C10: level-0 retention keeps what it should.  When level 1 is contiguous and starts
    at the snapshot, every transaction from the end of level 1 on that could be
    restored before level-0 retention can be restored after it, exactly: the deleted
    files are replaced in a plan by those of level 1. *)
Theorem l0_retention_restorable stat e enabled retention st st' t s fs :
  EnforceL0RetentionByTime stat e enabled retention st = (st', Ok ()) ->
  contiguous (level_files (st_client st) false 1) ->
  (forall f, In f (level_files (st_client st) false 1) -> MaxTXID f < 2 ^ 64 - 1 /\ MaxTXID f <= t) ->
  (forall f, head (level_files (st_client st) false 1) = Some f -> MinTXID f <= MaxTXID s + 1) ->
  readable (st_client st') 0 -> 0 < t -> plan_snapshot (st_client st) t 0 = Some s ->
  chain (MaxTXID s) fs t -> Forall (restorable (st_client st) t 0) fs ->
  exists plan, CalcRestorePlan (st_client st') t 0 = Ok plan /\ slice_MaxTXID plan = t.
Proof.
  intros HE Hcon Hmax1 Hhead Hr Ht Hs Hch HF. destruct (l0_retention_spec _ _ _ _ _ _ HE) as (Q & m & Hlf & HQ & Hm).
  assert (forall f, In f (files st 1) -> 0 <= MaxTXID f < 2 ^ 64 - 1) as Hr1.
  { intros f Hf. apply level_files_range in Hf as Hrg. destruct (Hmax1 f Hf). lia. }
  destruct (contiguous_chain (files st 1) (MaxTXID s) Hcon Hr1 Hhead) as (l1 & m1 & Hc1 & Hin1 & Hall1 & Hm1).
  pose proof (chain_le _ _ _ Hch) as Hst. pose proof (chain_le _ _ _ Hc1) as Hsm.
  assert (0 <= MaxTXID s) as Hs0 by (pose proof (plan_snapshot_pos (st_client st) t 0) as Hp; by rewrite Hs in Hp).
  assert (m <= m1 /\ m1 <= t) as [Hmm Hmt].
  { split; [destruct Hm as [->|(g & Hg & <-)]; [lia|by apply Hall1]|destruct Hm1 as [->|(g & Hg & <-)]; [done|by apply Hmax1]]. }
  destruct (chain_suffix _ _ _ m1 Hch ltac:(lia)) as (l2 & Hc2 & Hl2).
  assert (forall f, In f (level_files (st_client st) false SnapshotLevel) -> Q f = true) as HQs.
  { intros f Hf. destruct (Q f) eqn:E; [done|]. apply HQ in E as [E _]. rewrite (level_files_level _ _ _ _ Hf) in E. done. }
  apply (still_restorable (st_client st) (st_client st') Q t s (l1 ++ l2)); try done; [| |].
  - rewrite Hlf. apply In_filter_bool. assert (In s (level_files (st_client st) false SnapshotLevel)) as Hin; [|by split; [apply HQs|]].
    unfold plan_snapshot in Hs. apply last_Some_elem_of, list_elem_of_In, In_filter_bool in Hs as [_ Hs]. exact Hs.
  - by eapply chain_app.
  - intros f Hf. apply in_app_or in Hf as [Hf|Hf].
    + apply Hin1 in Hf. split; [by apply Hmax1|]. exists 1. split; [done|]. rewrite Hlf. apply In_filter_bool. split; [|done].
      destruct (Q f) eqn:E; [done|]. apply HQ in E as [E _]. by rewrite (level_files_level _ _ _ _ Hf) in E.
    + apply Hl2 in Hf as [Hf Hlt]. rewrite Forall_forall in HF. apply list_elem_of_In, HF, restorable_In in Hf as (Hle & lv & Hlv & Hin); [|done].
      split; [done|]. exists lv. split; [done|]. rewrite Hlf. apply In_filter_bool. split; [|done].
      destruct (Q f) eqn:E; [done|]. apply HQ in E as [_ E]. lia.
Qed.
End Kept.

(** ** A concrete replica *)

Module RetentionDemo.
(** Snapshots of transactions 4 and 6, level 1 up to 8, and the level-0 files of
    transactions 5 to 9. *)
Definition replica : Mem.client :=
  Mem.mkClient [demo_info 9 1 4 40; demo_info 9 1 6 60; demo_info 1 1 3 30; demo_info 1 4 6 60; demo_info 0 5 5 50;
                demo_info 0 6 6 60; demo_info 1 7 8 80; demo_info 0 7 7 70; demo_info 0 8 8 80; demo_info 0 9 9 90] eq_refl.

Definition st0 : @state Mem.client DB := mkState replica ∅ Demo.empty_db 0.
Definition keeper : @Compactor DB string string := mkCompactor true true None None true true [] [] false.
Definition clock : env := mkEnv (fun _ => None) (fun _ => None) (fun _ => None) 100 (fun _ => true).
Definition after : @state Mem.client DB * result () :=
  Store_EnforceSnapshotRetention clock keeper DefaultCompactionLevels 50 st0.
Definition after_l0 : @state Mem.client DB * result () :=
  EnforceL0RetentionByTime (fun _ _ _ => None) clock true 25 st0.

Lemma readable_mem (cl : Mem.client) ts : @readable Mem.client Mem.client_ops cl ts.
Proof. intros level _. eexists. split; reflexivity. Qed.
End RetentionDemo.

Lemma store_retention_restorable_witness :
  exists plan, @CalcRestorePlan _ _ last_slice (st_client RetentionDemo.after.1) 9 0 = Ok plan /\ @slice_MaxTXID last_slice plan = 9.
Proof.
  apply (@store_retention_restorable _ _ Mem.client_laws string string last_slice last_slice_laws RetentionDemo.clock RetentionDemo.keeper
    DefaultCompactionLevels 50 RetentionDemo.st0 RetentionDemo.after.1 9 (mkFileInfo 9 1 6 100 60)
    [mkFileInfo 1 7 8 100 80; mkFileInfo 0 9 9 100 90]).
  - vm_compute. reflexivity.
  - repeat constructor; discriminate.
  - intros f Hf. vm_compute in Hf. destruct Hf as [<-|[<-|[]]]; reflexivity.
  - vm_compute. repeat constructor. discriminate.
  - apply RetentionDemo.readable_mem.
  - lia.
  - vm_compute. reflexivity.
  - vm_compute. tauto.
  - vm_compute. intuition discriminate.
  - repeat constructor; [exists 1|exists 0]; (split; [unfold SnapshotLevel; lia|vm_compute; tauto]).
Defined.

Lemma l0_retention_restorable_witness :
  exists plan, @CalcRestorePlan _ _ last_slice (st_client RetentionDemo.after_l0.1) 9 0 = Ok plan /\ @slice_MaxTXID last_slice plan = 9.
Proof.
  apply (@l0_retention_restorable _ _ Mem.client_laws last_slice last_slice_laws (fun _ _ _ => None) RetentionDemo.clock true 25
    RetentionDemo.st0 RetentionDemo.after_l0.1 9 (mkFileInfo 9 1 6 100 60)
    [mkFileInfo 0 7 7 100 70; mkFileInfo 0 8 8 100 80; mkFileInfo 0 9 9 100 90]).
  - vm_compute. reflexivity.
  - vm_compute. repeat split.
  - intros f Hf. vm_compute in Hf. destruct Hf as [<-|[<-|[<-|[]]]]; vm_compute; split; (reflexivity || discriminate).
  - intros f Hf. vm_compute in Hf. injection Hf as <-. vm_compute. discriminate.
  - apply RetentionDemo.readable_mem.
  - lia.
  - vm_compute. reflexivity.
  - vm_compute. intuition discriminate.
  - repeat constructor; exists 0; (split; [unfold SnapshotLevel; lia|vm_compute; tauto]).
Defined.
