(* ===== verification/PageIndex.v ===== *)
(** * Reading single pages of remote LTX files

    Model of the page fetching of src/replica_client.go: [FetchPageIndex] reads the
    index block at the end of an LTX file with one ranged request, or two when the
    index is larger than estimated, [FetchLTXHeader] its header and [FetchPage] one
    page.  The encoding is that of the ltx package, a class here; its laws say where a
    file keeps its index and what the decoders return on it. *)

From Stdlib Require Import ZArith Lia Strings.Byte.
From stdpp Require Import base numbers list strings gmap.
From S2P Require Import Prelude Ltx Db.
Local Open Scope Z_scope.

Record PageIndexElem := mkElem {
  pe_Level : Z;
  pe_MinTXID : TXID;
  pe_MaxTXID : TXID;
  pe_Offset : Z;
  pe_Size : Z
}.

#[export] Instance PageIndexElem_eq_dec : EqDecision PageIndexElem.
Proof. solve_decision. Defined.

Abbreviation page_index := (gmap Z PageIndexElem).

Record ltxHeader := mkHeader { hdr_PageSize : Z; hdr_Commit : Z }.

(** The ltx package. *)
Class LTXFormat := {
  HeaderSize : Z;
  TrailerSize : Z;
  DecodePageIndex : Reader -> Z -> TXID -> TXID -> result page_index;
  PeekHeader : Reader -> result ltxHeader;
  DecodePageData : list byte -> result (Z * list byte);
  EncodeLTX : ltxFile -> list byte
}.

(** [binary.BigEndian.Uint64] and its conversion to [int]. *)
Definition Uint64BE (b : list byte) : Z := Uint32 BigEndian b * 2 ^ 32 + Uint32 BigEndian (drop 4 b).
Definition PutUint64BE (z : Z) : list byte := PutUint32BE (z / 2 ^ 32) ++ PutUint32BE (z mod 2 ^ 32).
Definition int64 (z : Z) : Z := if z <? 2 ^ 63 then z else z - 2 ^ 64.

Definition DefaultEstimatedPageIndexSize : Z := 32 * 1024.

Section Fetch.
Context {C : Type} `{ReplicaClient C} `{LTXFormat}.

Definition fetchPageIndexData (client : C) (info : FileInfo) : result Reader :=
  let offset := if FSize info - DefaultEstimatedPageIndexSize <? 0 then 0 else FSize info - DefaultEstimatedPageIndexSize in
  f ← OpenLTXFile client (Level info) (MinTXID info) (MaxTXID info) offset 0 wrapping "open ltx file";
  b ← ReadAll f wrapping "read ltx page index";
  let len := Z.of_nat (length b) in
  if len <? TrailerSize + 8 then Panic "slice bounds out of range" else
  let size := int64 (Uint64BE (drop (Z.to_nat (len - TrailerSize - 8)) b)) in
  let off := len - size - TrailerSize - 8 in
  if 0 <? off then
    if len <? off then Panic "slice bounds out of range" else Ok (mkReader (drop (Z.to_nat off) b) None)
  else OpenLTXFile client (Level info) (MinTXID info) (MaxTXID info) (FSize info - TrailerSize - 8 - size) 0
         wrapping "open ltx file".

Definition FetchPageIndex (client : C) (info : FileInfo) : result page_index :=
  rc ← fetchPageIndexData client info;
  DecodePageIndex rc (Level info) (MinTXID info) (MaxTXID info).

Definition FetchLTXHeader (client : C) (info : FileInfo) : result ltxHeader :=
  rc ← OpenLTXFile client (Level info) (MinTXID info) (MaxTXID info) 0 HeaderSize wrapping "open ltx file";
  PeekHeader rc wrapping "peek header".

Definition FetchPage (client : C) (level : Z) (minTXID maxTXID : TXID) (offset size : Z) : result (Z * list byte) :=
  f ← OpenLTXFile client level minTXID maxTXID offset size wrapping "open ltx file";
  b ← ReadAll f wrapping "read ltx page frame";
  DecodePageData b.

Definition fetch_elem (client : C) (e : PageIndexElem) : result (Z * list byte) :=
  FetchPage client (pe_Level e) (pe_MinTXID e) (pe_MaxTXID e) (pe_Offset e) (pe_Size e).

(** What the readers of an index rely on: the file has exactly the pages of [f]. *)
Record stores (client : C) (info : FileInfo) (f : ltxFile) : Prop := {
  so_index : exists idx, FetchPageIndex client info = Ok idx /\
    forall p, match idx !! p with
              | Some e => exists data, lookup_page p (lf_pages f) = Some data /\ fetch_elem client e = Ok (p, data)
              | None => lookup_page p (lf_pages f) = None
              end;
  so_header : FetchLTXHeader client info = Ok (mkHeader (lf_PageSize f) (lf_Commit f))
}.

(** The layout of an encoded file: the index block, its size and the trailer at the
    end, after a header; page frames are where the index says. *)
Record encoded (f : ltxFile) (level : Z) (b : list byte) : Prop := {
  en_layout : exists body ib trailer, b = body ++ ib ++ PutUint64BE (Z.of_nat (length ib)) ++ trailer /\
    HeaderSize <= Z.of_nat (length body) /\ Z.of_nat (length trailer) = TrailerSize /\
    exists idx, DecodePageIndex (mkReader (ib ++ PutUint64BE (Z.of_nat (length ib)) ++ trailer) None)
                  level (lf_MinTXID f) (lf_MaxTXID f) = Ok idx /\
      forall p, match idx !! p with
                | Some e => exists data, lookup_page p (lf_pages f) = Some data /\
                    e = mkElem level (lf_MinTXID f) (lf_MaxTXID f) (pe_Offset e) (pe_Size e) /\ 0 <= pe_Offset e /\ 0 < pe_Size e /\
                    DecodePageData (slice b (pe_Offset e) (pe_Size e)) = Ok (p, data)
                | None => lookup_page p (lf_pages f) = None
                end;
  en_header : PeekHeader (mkReader (take (Z.to_nat HeaderSize) b) None) = Ok (mkHeader (lf_PageSize f) (lf_Commit f));
  en_size : Z.of_nat (length b) < 2 ^ 63
}.

(** A client that serves ranges of the object. *)
Definition serves (client : C) (info : FileInfo) (b : list byte) : Prop :=
  forall off n, 0 <= off -> 0 <= n ->
    OpenLTXFile client (Level info) (MinTXID info) (MaxTXID info) off n =
    Ok (mkReader (if 0 <? n then slice b off n else drop (Z.to_nat off) b) None).

Lemma Uint64_Put z b : 0 <= z < 2 ^ 64 -> Uint64BE (PutUint64BE z ++ b) = z.
Proof.
  intros Hz. unfold Uint64BE, PutUint64BE. rewrite <- app_assoc.
  replace (drop 4 (PutUint32BE (z / 2 ^ 32) ++ PutUint32BE (z mod 2 ^ 32) ++ b)) with (PutUint32BE (z mod 2 ^ 32) ++ b) by done.
  rewrite !Uint32_Put. unfold u32. rewrite (Z.mod_small (z / 2 ^ 32)), (Z.mod_small (z mod 2 ^ 32)).
  - rewrite (Z.div_mod z (2 ^ 32)) at 3 by lia. lia.
  - apply Z.mod_pos_bound. lia.
  - split; [apply Z.div_pos; lia|]. apply Z.div_lt_upper_bound; lia.
Qed.

Lemma length_PutUint64 z : length (PutUint64BE z) = 8%nat.
Proof. done. Qed.

(** The tail that the first request returns ends with the index size and trailer. *)
Lemma tail_index_size (ib trailer x : list byte) :
  Z.of_nat (length trailer) = TrailerSize -> 0 <= TrailerSize -> Z.of_nat (length ib) < 2 ^ 63 ->
  let b := x ++ PutUint64BE (Z.of_nat (length ib)) ++ trailer in
  int64 (Uint64BE (drop (Z.to_nat (Z.of_nat (length b) - TrailerSize - 8)) b)) = Z.of_nat (length ib).
Proof.
  intros Ht Ht0 Hib b. subst b. rewrite !length_app, length_PutUint64.
  replace (Z.to_nat _) with (length x) by lia. rewrite drop_app_length, Uint64_Put by lia.
  unfold int64. destruct (Z.ltb_spec (Z.of_nat (length ib)) (2 ^ 63)); [done|lia].
Qed.

(** The index block, read with one request or two. *)
Lemma fetchPageIndexData_block (client : C) info b body ib trailer :
  serves client info b -> FSize info = Z.of_nat (length b) -> Z.of_nat (length b) < 2 ^ 63 ->
  b = body ++ ib ++ PutUint64BE (Z.of_nat (length ib)) ++ trailer -> (0 < length body)%nat ->
  Z.of_nat (length trailer) = TrailerSize -> TrailerSize + 8 <= DefaultEstimatedPageIndexSize ->
  fetchPageIndexData client info = Ok (mkReader (ib ++ PutUint64BE (Z.of_nat (length ib)) ++ trailer) None).
Proof.
  intros Hs Hsz Hb Hlay Hbody Ht Hest. unfold fetchPageIndexData. rewrite Hsz.
  set (sz := PutUint64BE (Z.of_nat (length ib))) in *.
  assert (length b = length body + length ib + 8 + length trailer)%nat as Hlen
    by (rewrite Hlay, !length_app; subst sz; rewrite length_PutUint64; lia).
  set (o := if _ <? 0 then 0 else _). assert (0 <= o /\ o <= Z.of_nat (length b) /\ (o = 0 \/ o = Z.of_nat (length b) - DefaultEstimatedPageIndexSize)) as (Ho & Hob & Hcase).
  { subst o. unfold DefaultEstimatedPageIndexSize in *. destruct (Z.ltb_spec (Z.of_nat (length b) - 32 * 1024) 0); lia. }
  rewrite Hs by lia. cbn [wrap_err mbind result_bind ReadAll rd_err rd_data Z.ltb Z.compare].
  (* the bytes before the size in the first answer *)
  assert (exists x, drop (Z.to_nat o) b = x ++ sz ++ trailer /\ Z.of_nat (length x) = Z.of_nat (length body + length ib) - o /\
            (o <= Z.of_nat (length body) -> x = drop (Z.to_nat o) body ++ ib)) as (x & Hx & Hxl & Hxib).
  { exists (drop (Z.to_nat o) (body ++ ib)).
    assert (o <= Z.of_nat (length body + length ib)) by (destruct Hcase; lia).
    split; [|split].
    - rewrite Hlay, app_assoc. rewrite drop_app_le by (rewrite length_app; lia). done.
    - rewrite length_drop, length_app. lia.
    - intros Hle. rewrite drop_app_le by lia. done. }
  rewrite Hx. pose proof (tail_index_size ib trailer x Ht ltac:(lia) ltac:(lia)) as Hsize. fold sz in Hsize. cbv zeta in Hsize.
  assert (Z.of_nat (length (x ++ sz ++ trailer)) = Z.of_nat (length x) + 8 + TrailerSize) as Hl
    by (rewrite !length_app; subst sz; rewrite length_PutUint64; lia).
  destruct (Z.ltb_spec (Z.of_nat (length (x ++ sz ++ trailer))) (TrailerSize + 8)); [lia|]. rewrite Hsize, Hl.
  replace (Z.of_nat (length x) + 8 + TrailerSize - Z.of_nat (length ib) - TrailerSize - 8) with (Z.of_nat (length body) - o) by lia.
  destruct (Z.ltb_spec 0 (Z.of_nat (length body) - o)) as [Hpos|Hneg].
  - destruct (Z.ltb_spec (Z.of_nat (length x) + 8 + TrailerSize) (Z.of_nat (length body) - o)); [lia|].
    rewrite Hxib by lia. do 2 f_equal. rewrite <- app_assoc.
    replace (Z.to_nat (Z.of_nat (length body) - o)) with (length (drop (Z.to_nat o) body)) by (rewrite length_drop; lia).
    by rewrite drop_app_length.
  - rewrite Hs by lia. cbn [wrap_err Z.ltb Z.compare]. do 2 f_equal.
    replace (Z.to_nat (Z.of_nat (length b) - TrailerSize - 8 - Z.of_nat (length ib))) with (length body) by lia.
    rewrite Hlay. by rewrite drop_app_length.
Qed.

(** Pages can be fetched from an encoded file.  Whatever the size of its index
    (fetched with one request when it is within the estimate and with two otherwise),
    the index of an LTX file that a client serves is read back, has exactly the pages
    of the file, and fetching a page through its index entry returns its data. *)
Theorem fetch_encoded (client : C) info f b :
  encoded f (Level info) b -> serves client info b -> FSize info = Z.of_nat (length b) ->
  MinTXID info = lf_MinTXID f -> MaxTXID info = lf_MaxTXID f ->
  0 < HeaderSize -> TrailerSize + 8 <= DefaultEstimatedPageIndexSize ->
  stores client info f.
Proof.
  intros [(body & ib & trailer & Hlay & Hhs & Ht & idx & Hidx & Hpages) Hhdr Hb] Hs Hsz Hmin Hmax Hh0 Hest. split.
  - exists idx. unfold FetchPageIndex.
    rewrite (fetchPageIndexData_block client info b body ib trailer Hs Hsz Hb Hlay ltac:(lia) Ht Hest).
    cbn [mbind result_bind]. rewrite Hmin, Hmax. split; [done|]. intros p. specialize (Hpages p).
    destruct (idx !! p) as [e|]; [|done]. destruct Hpages as (data & Hl & He & Ho & Hn & Hd). exists data. split; [done|].
    unfold fetch_elem, FetchPage. rewrite He. cbn [pe_Level pe_MinTXID pe_MaxTXID pe_Offset pe_Size]. rewrite <- Hmin, <- Hmax.
    rewrite Hs by lia. cbn [wrap_err mbind result_bind ReadAll rd_err rd_data]. destruct (Z.ltb_spec 0 (pe_Size e)); [done|lia].
  - unfold FetchLTXHeader. rewrite Hs by lia. cbn [wrap_err mbind result_bind].
    destruct (Z.ltb_spec 0 HeaderSize); [|lia]. unfold slice. change (Z.to_nat 0) with 0%nat. rewrite drop_0. by rewrite Hhdr.
Qed.
End Fetch.

(** ** A small format

    Eight header bytes (page size and commit), frames of a page number and eight
    bytes of data, an index block with the page numbers in order, and no trailer. *)
Module DemoFormat.
Definition frame_of (pg : Z * list byte) : list byte := PutUint32BE (fst pg) ++ snd pg.
Definition encode (f : ltxFile) : list byte :=
  let ib := mjoin ((fun pg => PutUint32BE (fst pg)) <$> lf_pages f) in
  (PutUint32BE (lf_PageSize f) ++ PutUint32BE (lf_Commit f) ++ mjoin (frame_of <$> lf_pages f)) ++
  ib ++ PutUint64BE (Z.of_nat (length ib)).

Fixpoint decode_index (fuel : nat) (b : list byte) (i : Z) (level : Z) (lo hi : TXID) : page_index :=
  match fuel with
  | O => ∅
  | S fuel => if (length b <=? 8)%nat then ∅
              else <[Uint32 BigEndian b := mkElem level lo hi (8 + i * 12) 12]> (decode_index fuel (drop 4 b) (i + 1) level lo hi)
  end.

#[export] Instance format : LTXFormat := {
  HeaderSize := 8;
  TrailerSize := 0;
  DecodePageIndex rc level lo hi := Ok (decode_index (length (rd_data rc)) (rd_data rc) 0 level lo hi);
  PeekHeader rc := Ok (mkHeader (Uint32 BigEndian (rd_data rc)) (Uint32 BigEndian (drop 4 (rd_data rc))));
  DecodePageData b := Ok (Uint32 BigEndian b, drop 4 b);
  EncodeLTX := encode
}.

Definition ltx (t commit : Z) (pages : list (Z * list byte)) : ltxFile := mkLTX 8 commit t t 0 0 0 0 pages.
Definition object (level t commit : Z) (pages : list (Z * list byte)) : Mem.object :=
  let b := encode (ltx t commit pages) in (mkFileInfo level t t (Z.of_nat (length b)) t, b).
Definition file1 : ltxFile := ltx 1 2 [(1, repeat x0a 8); (2, repeat x0b 8)].
Definition store1 : Mem.client := Mem.mkClient [object 0 1 2 [(1, repeat x0a 8); (2, repeat x0b 8)]] eq_refl.
Definition info1 : FileInfo := mkFileInfo 0 1 1 48 1.
End DemoFormat.

#[local] Existing Instance DemoFormat.format.

Lemma fetch_encoded_witness : stores DemoFormat.store1 DemoFormat.info1 DemoFormat.file1.
Proof.
  apply (fetch_encoded DemoFormat.store1 DemoFormat.info1 DemoFormat.file1 (DemoFormat.encode DemoFormat.file1)).
  - split.
    + exists (take 32 (DemoFormat.encode DemoFormat.file1)), [x00; x00; x00; x01; x00; x00; x00; x02], [].
      split; [vm_compute; reflexivity|]. split; [vm_compute; discriminate|]. split; [reflexivity|].
      exists (<[1 := mkElem 0 1 1 8 12]> (<[2 := mkElem 0 1 1 20 12]> (∅ : page_index))).
      split; [vm_compute; reflexivity|]. intros p. rewrite !lookup_insert.
      destruct (decide (1 = p)) as [<-|H1]; [eexists; vm_compute; repeat split; (reflexivity || discriminate)|].
      destruct (decide (2 = p)) as [<-|H2]; [eexists; vm_compute; repeat split; (reflexivity || discriminate)|].
      rewrite lookup_empty. change (lf_pages DemoFormat.file1) with [(1, repeat x0a 8); (2, repeat x0b 8)].
      rewrite !lookup_page_cons, (proj2 (Z.eqb_neq 1 p) H1), (proj2 (Z.eqb_neq 2 p) H2). reflexivity.
    + vm_compute. reflexivity.
    + vm_compute. reflexivity.
  - intros off n _ _. reflexivity.
  - vm_compute. reflexivity.
  - reflexivity.
  - reflexivity.
  - reflexivity.
  - vm_compute. discriminate.
Defined.
