(* ===== verification/Vfs.v ===== *)
(** * The virtual file system: reading

    Model of the read side of [VFSFile] in src/vfs.go: the page index built from a
    restore plan, the polls that extend it, page reads through the dirty pages, the
    hydrated file, the page cache and the remote files, time travel, and the locks
    that delay index updates.  The fields of [VFSFile] are kept in three groups: the
    view of the remote files, the write state and the rest.

    The mutex [f.mu] makes each critical section one step.  A method that releases
    the mutex between sections takes the steps that other goroutines make there as an
    argument [others]. *)

From Stdlib Require Import ZArith Lia Strings.Byte.
From stdpp Require Import base numbers list strings gmap sorting.
From S2P Require Import Prelude Ltx RestorePlan Db PageIndex.
From S2P Require Follow.
Local Open Scope Z_scope.

Abbreviation page := (list byte).

Definition ErrConflict : error := EVar "remote has newer transactions than expected".
Definition ReadOnlyError : error := EVar "sqlite3vfs: read only".
Definition BusyError : error := EVar "sqlite3vfs: busy".
Definition ErrInvalid : error := EVar "invalid argument".
Definition DefaultPageSize : Z := 4096.
Definition pageFetchRetryAttempts : nat := 6.

(** [sqlite3vfs.LockType]. *)
Definition LockNone : Z := 0.
Definition LockShared : Z := 1.
Definition LockReserved : Z := 2.
Definition LockExclusive : Z := 4.

(** ** The page cache

    [lru.Cache] of the golang-lru package: adding a page can evict others. *)
Class PageCache := {
  cache : Type;
  cache_New : Z -> cache;
  cache_Get : cache -> Z -> cache * option page;
  cache_Add : cache -> Z -> page -> cache;
  cache_Remove : cache -> Z -> cache;
  cache_Purge : cache -> cache
}.

Class PageCacheLaws `{PageCache} := {
  cached : cache -> Z -> option page;
  cached_New n k : cached (cache_New n) k = None;
  cached_Get c k : (cache_Get c k).2 = cached c k;
  cached_Get_same c k k' : cached (cache_Get c k).1 k' = cached c k';
  cached_Add c k v : cached (cache_Add c k v) k = Some v;
  cached_Add_other c k v k' : k' <> k -> cached (cache_Add c k v) k' = cached c k' \/ cached (cache_Add c k v) k' = None;
  cached_Remove c k : cached (cache_Remove c k) k = None;
  cached_Remove_other c k k' : k' <> k -> cached (cache_Remove c k) k' = cached c k';
  cached_Purge c k : cached (cache_Purge c) k = None
}.

(** ** Files *)

(** [os.File.WriteAt]: a write past the end extends the file with zeros. *)
Definition file_writeAt (b data : list byte) (off : Z) : list byte :=
  let o := Z.to_nat off in
  take o b ++ replicate (o - length b) x00 ++ data ++ drop (o + length data) b.

(** [os.File.Truncate]. *)
Definition file_truncate (b : list byte) (size : Z) : list byte :=
  take (Z.to_nat size) b ++ replicate (Z.to_nat size - length b) x00.

(** The file operations that can fail. *)
Inductive vfsop : Type :=
| BufferRead (pgno : Z) | BufferWrite (pgno : Z) | BufferTruncate | BufferOpen | BufferDir | BufferTempDir
| HydrationRead | HydrationWrite (pgno : Z) | HydrationTruncate | HydrationRestore.

(** What the environment decides during a call: failures of file operations, the
    random bytes, and whether the context is done when a retry waits. *)
Record venv := mkVEnv { v_fault : vfsop -> option error; v_rand : Follow.rand4; v_done : nat -> bool }.

Definition vio (e : venv) (op : vfsop) : result () :=
  match v_fault e op with Some err => Err err | None => Ok () end.

(** ** State *)

Record remote_view := mkView {
  rv_pos : TXID;
  rv_maxTXID1 : TXID;
  rv_index : page_index;
  rv_pending : page_index;
  rv_pendingReplace : bool;
  rv_targetTime : option time;
  rv_latestLTXTime : time;
  rv_commit : Z
}.

Record write_state := mkWrite {
  ws_writeEnabled : bool;
  ws_dirty : gmap Z Z;
  ws_pendingTXID : TXID;
  ws_expectedTXID : TXID;
  ws_bufferFile : option (list byte);
  ws_bufferNextOff : Z;
  ws_inTransaction : bool;
  ws_disabling : bool
}.

Record Hydrator := mkHydrator {
  h_persistent : bool;
  h_file : list byte;
  h_complete : bool;
  h_txid : TXID;
  h_err : option error;
  h_pageSize : Z
}.

Section Vfs.
Context `{PC : PageCache}.

Record VFSFile := mkVFSFile {
  vf_view : remote_view;
  vf_write : write_state;
  vf_cache : cache;
  vf_lockType : Z;
  vf_pageSize : Z;
  vf_hydrator : option Hydrator
}.

Definition set_view (v : remote_view) (f : VFSFile) : VFSFile :=
  mkVFSFile v (vf_write f) (vf_cache f) (vf_lockType f) (vf_pageSize f) (vf_hydrator f).
Definition set_write (w : write_state) (f : VFSFile) : VFSFile :=
  mkVFSFile (vf_view f) w (vf_cache f) (vf_lockType f) (vf_pageSize f) (vf_hydrator f).
Definition set_cache (c : cache) (f : VFSFile) : VFSFile :=
  mkVFSFile (vf_view f) (vf_write f) c (vf_lockType f) (vf_pageSize f) (vf_hydrator f).
Definition set_lockType (l : Z) (f : VFSFile) : VFSFile :=
  mkVFSFile (vf_view f) (vf_write f) (vf_cache f) l (vf_pageSize f) (vf_hydrator f).
Definition set_pageSize (ps : Z) (f : VFSFile) : VFSFile :=
  mkVFSFile (vf_view f) (vf_write f) (vf_cache f) (vf_lockType f) ps (vf_hydrator f).
Definition set_hydrator (h : option Hydrator) (f : VFSFile) : VFSFile :=
  mkVFSFile (vf_view f) (vf_write f) (vf_cache f) (vf_lockType f) (vf_pageSize f) h.

Definition vf_index (f : VFSFile) : page_index := rv_index (vf_view f).

Definition set_commit (commit : Z) (v : remote_view) : remote_view :=
  mkView (rv_pos v) (rv_maxTXID1 v) (rv_index v) (rv_pending v) (rv_pendingReplace v) (rv_targetTime v)
    (rv_latestLTXTime v) commit.

(** [Hydrator.Complete] of a file that may have no hydrator. *)
Definition hydrated (f : VFSFile) : option Hydrator :=
  match vf_hydrator f with Some h => if h_complete h then Some h else None | None => None end.

Definition pageSizeBytes (f : VFSFile) : result Z :=
  if vf_pageSize f =? 0 then Err (EDBNotReady "page size not initialized") else Ok (vf_pageSize f).

Definition isRetryablePageError (err : error) : bool :=
  errors_Is err ErrDeadlineExceeded || errors_Is err ErrCanceled || errors_Is err ErrUnexpectedEOF ||
  strings_Contains (Error err) "unexpected EOF" || errors_Is err ErrNotExist.

Section Client.
Context {C : Type} `{RC : ReplicaClient C} `{LF : LTXFormat}.

(** ** The page index *)

Fixpoint buildIndexMap_loop (client : C) (infos : list FileInfo) (index : page_index) (commit : Z)
    : result (page_index * Z) :=
  match infos with
  | [] => Ok (index, commit)
  | info :: infos =>
      idx ← FetchPageIndex client info wrapping "fetch page index";
      hdr ← FetchLTXHeader client info wrapping "fetch header";
      buildIndexMap_loop client infos (idx ∪ index) (hdr_Commit hdr)
  end.

Definition buildIndexMap (client : C) (f : VFSFile) (infos : list FileInfo) : VFSFile * result page_index :=
  match buildIndexMap_loop client infos ∅ 0 with
  | Ok (index, commit) => (set_view (set_commit commit (vf_view f)) f, Ok index)
  | Err e => (f, Err e)
  | Panic s => (f, Panic s)
  end.

Definition maxLevelTXID (infos : list FileInfo) (level : Z) : TXID :=
  foldl (fun m info => if (Level info =? level) && (m <? MaxTXID info) then MaxTXID info else m) 0 infos.

Definition rebuildIndex (client : C) (f : VFSFile) (infos : list FileInfo) (target : option time)
    : VFSFile * result () :=
  match buildIndexMap client f infos with
  | (f, Ok index) =>
      let pos := match last infos with Some info => MaxTXID info | None => 0 end in
      let maxTXID1 := if maxLevelTXID infos 1 =? 0 then pos else maxLevelTXID infos 1 in
      let latest := match last infos with Some info => CreatedAt info | None => rv_latestLTXTime (vf_view f) end in
      (set_cache (cache_Purge (vf_cache f))
         (set_view (mkView pos maxTXID1 index ∅ false target latest (rv_commit (vf_view f))) f), Ok ())
  | (f, Err e) => (f, Err e)
  | (f, Panic s) => (f, Panic s)
  end.

Definition isSupportedPageSize (pageSize : Z) : bool :=
  existsb (Z.eqb pageSize) [512; 1024; 2048; 4096; 8192; 16384; 32768; 65536].

Definition readPageSizeFromInfo (client : C) (info : FileInfo) : result Z :=
  rc ← OpenLTXFile client (Level info) (MinTXID info) (MaxTXID info) 0 HeaderSize wrapping "open ltx file";
  hdr ← PeekHeader rc wrapping "decode ltx header";
  Ok (hdr_PageSize hdr).

(** [rinfos] are the infos from the last one to the first. *)
Fixpoint detectPageSize_loop (client : C) (rinfos : list FileInfo) (lastErr : option error) : result Z :=
  match rinfos with
  | [] => match lastErr with
          | Some e => Err (EWrap "read ltx header" e)
          | None => Err (EMsg "no ltx file available to determine page size")
          end
  | info :: rest =>
      match readPageSizeFromInfo client info with
      | Err e => detectPageSize_loop client rest (Some e)
      | Ok pageSize => if isSupportedPageSize pageSize then Ok pageSize else Err (EMsg "unsupported page size")
      | Panic s => Panic s
      end
  end.

Definition detectPageSizeFromInfos (client : C) (infos : list FileInfo) : result Z :=
  detectPageSize_loop client (reverse infos) None.

(** ** Polling *)

Fixpoint pollLevel_loop (client : C) (level : Z) (items : list FileInfo) (index : page_index) (maxTXID : TXID)
    (lastCommit newCommit : Z) (replaceIndex : bool) : result (TXID * page_index * Z * bool) :=
  match items with
  | [] => Ok (maxTXID, index, newCommit, replaceIndex)
  | info :: items =>
      if negb (MinTXID info =? txid_succ maxTXID) then
        if (level =? 0) && (txid_succ maxTXID <? MinTXID info) then Ok (maxTXID, index, newCommit, replaceIndex)
        else Err (EMsg "non-contiguous ltx file")
      else
        idx ← FetchPageIndex client info wrapping "fetch page index";
        hdr ← FetchLTXHeader client info wrapping "fetch header";
        let shrinks := hdr_Commit hdr <? lastCommit in
        pollLevel_loop client level items (idx ∪ (if shrinks then ∅ else index)) (MaxTXID info)
          (hdr_Commit hdr) (hdr_Commit hdr) (replaceIndex || shrinks)
  end.

Definition pollLevel (client : C) (level : Z) (prevMaxTXID : TXID) (baseCommit : Z)
    : result (TXID * page_index * Z * bool) :=
  itr ← LTXFiles client level (txid_succ prevMaxTXID) false wrapping "ltx files";
  pollLevel_loop client level (itr_items itr) ∅ prevMaxTXID baseCommit baseCommit false.

(** What a poll found: the index updates, whether they replace the index, the new
    commit and the positions of the two levels. *)
Record polled := mkPolled {
  pl_combined : page_index;
  pl_replace : bool;
  pl_newCommit : Z;
  pl_maxTXID0 : TXID;
  pl_maxTXID1 : TXID
}.

Definition poll_fetch (client : C) (pos maxTXID1Snapshot : TXID) (baseCommit : Z) : result polled :=
  r0 ← pollLevel client 0 pos baseCommit wrapping "poll L0";
  let '(maxTXID0, idx0, commit0, replace0) := (r0 : TXID * page_index * Z * bool) in
  let baseCommit1 := if replace0 then commit0 else if bool_decide (idx0 = ∅) then baseCommit else commit0 in
  let newCommit0 := if replace0 then commit0 else if baseCommit <? commit0 then commit0 else baseCommit in
  r1 ← pollLevel client 1 maxTXID1Snapshot baseCommit1 wrapping "poll L1";
  let '(maxTXID1, idx1, commit1, replace1) := (r1 : TXID * page_index * Z * bool) in
  Ok (mkPolled (if replace1 then idx1 else idx1 ∪ idx0) (replace0 || replace1)
        (if replace1 then commit1 else if newCommit0 <? commit1 then commit1 else newCommit0) maxTXID0 maxTXID1).

(** Removing cache entries of updated pages. *)
Definition cache_invalidate (c : cache) (idx : page_index) : cache :=
  foldl (fun c (kv : Z * PageIndexElem) => cache_Remove c kv.1) c (map_to_list idx).

(** ** The hydrated file *)

Definition set_h_file (b : list byte) (h : Hydrator) : Hydrator :=
  mkHydrator (h_persistent h) b (h_complete h) (h_txid h) (h_err h) (h_pageSize h).
Definition SetTXID (t : TXID) (h : Hydrator) : Hydrator :=
  mkHydrator (h_persistent h) (h_file h) (h_complete h) t (h_err h) (h_pageSize h).
Definition set_h_complete (b : bool) (h : Hydrator) : Hydrator :=
  mkHydrator (h_persistent h) (h_file h) b (h_txid h) (h_err h) (h_pageSize h).
Definition SetErr (err : error) (h : Hydrator) : Hydrator :=
  mkHydrator (h_persistent h) (h_file h) (h_complete h) (h_txid h) (Some err) (h_pageSize h).

(** [int64(pgno-1) * int64(h.pageSize)]; the subtraction is on uint32. *)
Definition hydrated_off (h : Hydrator) (pgno : Z) : Z := u32 (pgno - 1) * h_pageSize h.

Definition WritePage (e : venv) (h : Hydrator) (pgno : Z) (data : page) : Hydrator * result () :=
  match vio e (HydrationWrite pgno) with
  | Ok _ => (set_h_file (file_writeAt (h_file h) data (hydrated_off h pgno)) h, Ok ())
  | Err err => (h, Err (EWrap "write page to hydrated file" err))
  | Panic s => (h, Panic s)
  end.

Definition hydrator_Truncate (e : venv) (h : Hydrator) (size : Z) : Hydrator * result () :=
  match vio e HydrationTruncate with
  | Ok _ => (set_h_file (file_truncate (h_file h) size) h, Ok ())
  | Err err => (h, Err err)
  | Panic s => (h, Panic s)
  end.

Fixpoint ApplyUpdates_loop (e : venv) (client : C) (h : Hydrator) (updates : list (Z * PageIndexElem)) : Hydrator * result () :=
  match updates with
  | [] => (h, Ok ())
  | (pgno, elem) :: updates =>
      match fetch_elem client elem with
      | Err err => (h, Err (EWrap "fetch updated page" err))
      | Panic s => (h, Panic s)
      | Ok (_, data) =>
          match vio e (HydrationWrite pgno) with
          | Ok _ => ApplyUpdates_loop e client (set_h_file (file_writeAt (h_file h) data (hydrated_off h pgno)) h) updates
          | Err err => (h, Err (EWrap "write updated page" err))
          | Panic s => (h, Panic s)
          end
      end
  end.

Definition ApplyUpdates (e : venv) (client : C) (h : Hydrator) (updates : page_index) : Hydrator * result () :=
  ApplyUpdates_loop e client h (map_to_list updates).

(** The caller's buffer after [copy(p, data)]. *)
Definition copy_into (p data : list byte) : list byte := take (length p) data ++ drop (length data) p.

Definition copied (p data : list byte) : Z := Z.of_nat (Nat.min (length p) (length data)).

(** The first page pretends to be in journal mode; without the length check the
    slice expressions panic on a short buffer. *)
Definition journal_mode (e : venv) (checked : bool) (off : Z) (p : list byte) : result (list byte) :=
  if negb (off =? 0) then Ok p
  else if 28 <=? Z.of_nat (length p) then Ok (Follow.patch (v_rand e) p)
  else if checked then Ok p else Panic "slice bounds out of range".

Definition hydrator_ReadAt (e : venv) (h : Hydrator) (p : list byte) (off : Z) : result (Z * list byte) :=
  _ ← vio e HydrationRead wrapping "read hydrated file";
  let data := slice (h_file h) off (Z.of_nat (length p)) in
  p' ← journal_mode e true off (copy_into p data);
  Ok (copied p data, p').

(** ** Applying a poll *)

Definition poll_apply (e : venv) (client : C) (f : VFSFile) (pl : polled) : VFSFile :=
  let v := vf_view f in
  match rv_targetTime v with
  | Some _ => f
  | None =>
      let shared := LockShared <=? vf_lockType f in
      let main := if pl_replace pl then ∅ else rv_index v in
      let pend := if pl_replace pl then ∅ else rv_pending v in
      let commit := if pl_replace pl then pl_newCommit pl
                    else if negb (bool_decide (pl_combined pl = ∅)) && (rv_commit v <? pl_newCommit pl) then pl_newCommit pl
                    else rv_commit v in
      let pos := if pl_maxTXID1 pl <? pl_maxTXID0 pl then pl_maxTXID0 pl else pl_maxTXID1 pl in
      let v' := mkView pos (pl_maxTXID1 pl)
                  (if shared then rv_index v else pl_combined pl ∪ main)
                  (if shared then pl_combined pl ∪ pend else rv_pending v)
                  (if shared then rv_pendingReplace v || pl_replace pl else false)
                  (rv_targetTime v) (rv_latestLTXTime v) commit in
      let c := if shared then vf_cache f else cache_invalidate (vf_cache f) (pl_combined pl) in
      let h := match hydrated f with
               | Some h => if bool_decide (pl_combined pl = ∅) then vf_hydrator f
                           else Some (ApplyUpdates e client h (pl_combined pl)).1
               | None => vf_hydrator f
               end in
      set_hydrator h (set_cache c (set_view v' f))
  end.

Definition pollReplicaClient (e : venv) (client : C) (others : VFSFile -> VFSFile) (f : VFSFile) : VFSFile * result () :=
  let v := vf_view f in
  match poll_fetch client (rv_pos v) (rv_maxTXID1 v) (rv_commit v) with
  | Ok pl => (poll_apply e client (others f) pl, Ok ())
  | Err err => (others f, Err err)
  | Panic s => (others f, Panic s)
  end.

(** ** Reading *)

(** The retries of a page fetch; [clients] is the replica at each attempt. *)
Fixpoint fetch_retry (e : venv) (clients : nat -> C) (elem : PageIndexElem) (attempt remaining : nat) : result page :=
  match remaining with
  | O => Ok []
  | S remaining =>
      match fetch_elem (clients attempt) elem with
      | Ok (_, data) => Ok data
      | Panic s => Panic s
      | Err lastErr =>
          if negb (isRetryablePageError lastErr) then Err (EWrap "fetch page" lastErr)
          else if (attempt =? pageFetchRetryAttempts - 1)%nat then Err BusyError
          else if v_done e attempt then Err (EWrap "fetch page" lastErr)
          else fetch_retry e clients elem (S attempt) remaining
      end
  end.

(** [data[pageOffset:]] copied to the caller's buffer. *)
Definition deliver (e : venv) (checked : bool) (p : list byte) (off pageOffset : Z) (data : page) : result (Z * list byte) :=
  if Z.of_nat (length data) <? pageOffset then Panic "slice bounds out of range" else
  let data := drop (Z.to_nat pageOffset) data in
  p' ← journal_mode e checked off (copy_into p data);
  Ok (copied p data, p').

(** Reading a dirty page from the buffer file. *)
Definition buffer_read (e : venv) (f : VFSFile) (pgno bufferOff : Z) : result page :=
  match ws_bufferFile (vf_write f) with
  | None => Err ErrInvalid
  | Some b =>
      _ ← vio e (BufferRead pgno);
      match file_readAt b (vf_pageSize f) bufferOff with
      | (data, None) => Ok data
      | (_, Some err) => Err err
      end
  end.

Definition page_number (off pageSize : Z) : Z := u32 (u32 (off / pageSize) + 1).

(** [p] is the caller's buffer, [off >= 0]; [others n] runs after the check of the
    dirty pages, after the cache lookup and after the fetch. *)
Definition ReadAt (e : venv) (clients : nat -> C) (others : nat -> VFSFile -> VFSFile) (f : VFSFile) (p : list byte) (off : Z)
    : VFSFile * result (Z * list byte) :=
  match pageSizeBytes f with
  | Err err => (f, Err err)
  | Panic s => (f, Panic s)
  | Ok pageSize =>
      let pgno := page_number off pageSize in
      let pageOffset := off mod pageSize in
      match (if ws_writeEnabled (vf_write f) then ws_dirty (vf_write f) !! pgno else None) with
      | Some bufferOff =>
          (f, data ← buffer_read e f pgno bufferOff wrapping "read dirty page from buffer";
              deliver e true p off pageOffset data)
      | None =>
          let f := others 0%nat f in
          match hydrated f with
          | Some h => (f, hydrator_ReadAt e h p off)
          | None =>
              let '(c, hit) := cache_Get (vf_cache f) pgno in
              let f := set_cache c f in
              match hit with
              | Some data => (f, deliver e false p off pageOffset data)
              | None =>
                  let f := others 1%nat f in
                  match vf_index f !! pgno with
                  | None =>
                      if ws_writeEnabled (vf_write f) then (f, Ok (Z.of_nat (length p), replicate (length p) x00))
                      else (f, Err (EMsg "page not found"))
                  | Some elem =>
                      match fetch_retry e clients elem 0 pageFetchRetryAttempts with
                      | Ok data =>
                          let f := others 2%nat f in
                          (set_cache (cache_Add (vf_cache f) pgno data) f, deliver e false p off pageOffset data)
                      | Err err => (others 2%nat f, Err err)
                      | Panic s => (others 2%nat f, Panic s)
                      end
                  end
              end
          end
      end
  end.

Definition size_of {A} (pageSize : Z) (m : gmap Z A) (size : Z) : Z :=
  foldl (fun size (kv : Z * A) => if size <? kv.1 * pageSize then kv.1 * pageSize else size) size (map_to_list m).

Definition FileSize (f : VFSFile) : result Z :=
  pageSize ← pageSizeBytes f;
  Ok (size_of pageSize (ws_dirty (vf_write f))
        (size_of pageSize (rv_pending (vf_view f)) (size_of pageSize (vf_index f) 0))).

(** ** Time travel *)

Section Plan.
Context `{FileInfoSliceOps}.

(** [Hydrator.Disable]. *)
Definition Disable (f : VFSFile) : VFSFile :=
  match hydrated f with Some h => set_hydrator (Some (set_h_complete false h)) f | None => f end.

Definition SetTargetTime (client : C) (f : VFSFile) (timestamp : time) : VFSFile * result () :=
  if time_IsZero timestamp then (f, Err (EMsg "target time required")) else
  match CalcRestorePlan client 0 timestamp with
  | Err err => (f, Err (EWrap "cannot calc restore plan" err))
  | Panic s => (f, Panic s)
  | Ok [] => (f, Err (EMsg "no backup files available"))
  | Ok infos => rebuildIndex client (Disable f) infos (Some timestamp)
  end.

Definition ResetTime (client : C) (f : VFSFile) : VFSFile * result () :=
  match CalcRestorePlan client 0 0 with
  | Err err => (f, Err (EWrap "cannot calc restore plan" err))
  | Panic s => (f, Panic s)
  | Ok [] => (f, Err (EMsg "no backup files available"))
  | Ok infos => rebuildIndex client f infos None
  end.

(** ** Opening *)

(** [clients] is the replica at each attempt; a read-only file waits for the first
    backup until the context is done. *)
Fixpoint waitForRestorePlan_loop (e : venv) (clients : nat -> C) (attempt fuel : nat) : option (result (list FileInfo)) :=
  match fuel with
  | O => None
  | S fuel =>
      match CalcRestorePlan (clients attempt) 0 0 with
      | Ok infos => Some (Ok infos)
      | Panic s => Some (Panic s)
      | Err err =>
          if negb (errors_Is err ErrTxNotAvailable) then Some (Err (EWrap "cannot calc restore plan" err))
          else if v_done e attempt then Some (Err (EWrap "no backup files available" ErrCanceled))
          else waitForRestorePlan_loop e clients (S attempt) fuel
      end
  end.

Definition waitForRestorePlan (e : venv) (clients : nat -> C) (writeEnabled : bool) (fuel : nat)
    : option (result (list FileInfo)) :=
  if writeEnabled then Some (CalcRestorePlan (clients 0%nat) 0 0) else waitForRestorePlan_loop e clients 0 fuel.

(** [initWriteBufferWithLock]: the file opens its buffer path and empties it; [ws_bufferFile] is what it then reads through its handle.
    That other files may have the same path open is a matter of the system of files in VfsWrite.v. *)
Definition initWriteBuffer (e : venv) (w : write_state) : write_state * result () :=
  match vio e BufferDir, vio e BufferOpen with
  | Ok _, Ok _ => (mkWrite (ws_writeEnabled w) (ws_dirty w) (ws_pendingTXID w) (ws_expectedTXID w) (Some []) 0
                     (ws_inTransaction w) (ws_disabling w), Ok ())
  | Err err, _ => (w, Err (EWrap "create buffer directory" err))
  | _, Err err => (w, Err (EWrap "open buffer file" err))
  | Panic s, _ | _, Panic s => (w, Panic s)
  end.

Definition set_txids (expected pending : TXID) (w : write_state) : write_state :=
  mkWrite (ws_writeEnabled w) (ws_dirty w) pending expected (ws_bufferFile w) (ws_bufferNextOff w)
    (ws_inTransaction w) (ws_disabling w).

Definition cacheEntries (cacheSize pageSize : Z) : Z := if cacheSize / pageSize <? 1 then 1 else cacheSize / pageSize.

Definition openNewDatabase (e : venv) (cacheSize : Z) (f : VFSFile) : VFSFile :=
  let v := vf_view f in
  mkVFSFile (mkView 0 (rv_maxTXID1 v) ∅ ∅ (rv_pendingReplace v) (rv_targetTime v) (rv_latestLTXTime v) 0)
    (initWriteBuffer e (set_txids 0 1 (vf_write f))).1 (cache_New (cacheEntries cacheSize DefaultPageSize))
    (vf_lockType f) DefaultPageSize (vf_hydrator f).

(** [Open] without the background goroutines; [hydration] is the hydrator of
    [initHydration], when a hydration path is set and its file could be created. *)
Definition Open (e : venv) (clients : nat -> C) (fuel : nat) (cacheSize : Z) (hydration : Z -> option Hydrator) (f : VFSFile)
    : option (VFSFile * result ()) :=
  match waitForRestorePlan e clients (ws_writeEnabled (vf_write f)) fuel with
  | None => None
  | Some (Err err) =>
      Some (if ws_writeEnabled (vf_write f) && errors_Is err ErrTxNotAvailable then (openNewDatabase e cacheSize f, Ok ())
            else (f, Err err))
  | Some (Panic s) => Some (f, Panic s)
  | Some (Ok infos) =>
      let client := clients 0%nat in
      match detectPageSizeFromInfos client infos with
      | Err err => Some (f, Err (EWrap "detect page size" err))
      | Panic s => Some (f, Panic s)
      | Ok pageSize =>
          let pos := match last infos with Some info => MaxTXID info | None => 0 end in
          let v := vf_view f in
          let f := set_pageSize pageSize (set_cache (cache_New (cacheEntries cacheSize pageSize))
                     (set_view (mkView pos (rv_maxTXID1 v) (rv_index v) (rv_pending v) (rv_pendingReplace v) (rv_targetTime v)
                        (rv_latestLTXTime v) (rv_commit v)) f)) in
          let '(w, r) := if ws_writeEnabled (vf_write f)
                         then initWriteBuffer e (set_txids pos (txid_succ pos) (vf_write f)) else (vf_write f, Ok ()) in
          let f := set_write w f in
          Some (match r with
          | Err err => (f, Err (EWrap "initialize write buffer" err))
          | Panic s => (f, Panic s)
          | Ok _ =>
              match rebuildIndex client f infos None with
              | (f, Ok _) => (set_hydrator (hydration pageSize) f, Ok ())
              | (f, Err err) => (f, Err (EWrap "cannot build index" err))
              | (f, Panic s) => (f, Panic s)
              end
          end)
      end
  end.
End Plan.

(** ** Locks *)

(** The fields of [VFS] that its files share. *)
Record VFS := mkVFS { vs_writeFile : option nat; vs_lastSyncedTXID : TXID }.

Definition set_transaction (b : bool) (w : write_state) : write_state :=
  mkWrite (ws_writeEnabled w) (ws_dirty w) (ws_pendingTXID w) (ws_expectedTXID w) (ws_bufferFile w) (ws_bufferNextOff w)
    b (ws_disabling w).

Definition set_pos (pos : TXID) (v : remote_view) : remote_view :=
  mkView pos (rv_maxTXID1 v) (rv_index v) (rv_pending v) (rv_pendingReplace v) (rv_targetTime v)
    (rv_latestLTXTime v) (rv_commit v).

(** The start of a write transaction by file [id]. *)
Definition begin_transaction (id : nat) (vs : VFS) (f : VFSFile) : VFS * VFSFile * result () :=
  if bool_decide (vs_writeFile vs <> None) && bool_decide (vs_writeFile vs <> Some id) then (vs, f, Err BusyError)
  else
    let w := vf_write f in
    let last := vs_lastSyncedTXID vs in
    let f := if (ws_expectedTXID w <? last) && bool_decide (ws_dirty w = ∅)
             then set_view (set_pos last (vf_view f)) (set_write (set_txids last (txid_succ last) w) f) else f in
    (mkVFS (Some id) last, set_write (set_transaction true (vf_write f)) f, Ok ()).

(** [None] while the call waits for a disable operation to complete. *)
Definition Lock (id : nat) (vs : VFS) (f : VFSFile) (elock : Z) : option (VFS * VFSFile * result ()) :=
  let w := vf_write f in
  if elock <? vf_lockType f then Some (vs, f, Err (EMsg "invalid lock downgrade"))
  else if (LockReserved <=? elock) && ws_disabling w then None
  else if (LockReserved <=? elock) && negb (ws_writeEnabled w) then Some (vs, f, Err ReadOnlyError)
  else if ws_writeEnabled w && (LockReserved <=? elock) && negb (ws_inTransaction w) then
    match begin_transaction id vs f with
    | (vs, f, Ok _) => Some (vs, set_lockType elock f, Ok ())
    | (vs, f, r) => Some (vs, f, r)
    end
  else Some (vs, set_lockType elock f, Ok ()).

(** The pending index becomes visible when the lock is released. *)
Definition merge_pending (f : VFSFile) : VFSFile :=
  let v := vf_view f in
  let index := if rv_pendingReplace v then rv_pending v else rv_pending v ∪ rv_index v in
  let c := if rv_pendingReplace v then cache_Purge (vf_cache f) else cache_invalidate (vf_cache f) (rv_pending v) in
  set_cache c (set_view (mkView (rv_pos v) (rv_maxTXID1 v) index ∅ false (rv_targetTime v) (rv_latestLTXTime v) (rv_commit v)) f).

Definition release_writer (id : nat) (vs : VFS) : VFS :=
  if bool_decide (vs_writeFile vs = Some id) then mkVFS None (vs_lastSyncedTXID vs) else vs.

Definition Unlock (id : nat) (vs : VFS) (f : VFSFile) (elock : Z) : VFS * VFSFile * result () :=
  if negb (elock =? LockShared) && negb (elock =? LockNone) then (vs, f, Err (EMsg "invalid unlock target"))
  else
    let w := vf_write f in
    let ends := ws_writeEnabled w && ws_inTransaction w && (elock <? LockReserved) in
    let f' := if ends then set_write (set_transaction false w) f else f in
    let vs' := if ends then release_writer id vs else vs in
    (vs', merge_pending (set_lockType elock f'), Ok ()).

Definition CheckReservedLock (vs : VFS) (f : VFSFile) : bool :=
  (LockReserved <=? vf_lockType f) || bool_decide (vs_writeFile vs <> None).
End Client.
End Vfs.

(** ** What a file shows

    The database has a history: [hist t p] is page [p] after transaction [t].  The
    replica passes through states [good]; the objects of all of them are files of this
    history and do not change while they exist. *)
Section History.
Context `{PCL : PageCacheLaws} {C : Type} `{RCL : ReplicaClientLaws C} `{LF : LTXFormat}.
Variable hist : TXID -> Z -> option page.
Variable hsize : TXID -> Z.
Variable good : C -> Prop.

(** Fetching through [elem], from any state of the replica, yields [data] or fails. *)
Definition shows (elem : PageIndexElem) (data : page) : Prop :=
  forall cl p d, good cl -> fetch_elem cl elem = Ok (p, d) -> d = data.

(** The entries are the pages that changed in a range of transactions. *)
Definition delta (idx : page_index) (lo hi : TXID) : Prop :=
  forall p, match idx !! p with
            | Some e => exists data, hist hi p = Some data /\ shows e data
            | None => is_Some (hist hi p) -> forall t, lo <= t <= hi -> hist t p = hist hi p
            end.

(** The index is that of the database after transaction [t]. *)
Definition index_at (idx : page_index) (t : TXID) : Prop :=
  forall p, match hist t p with
            | Some data => exists e, idx !! p = Some e /\ shows e data
            | None => idx !! p = None
            end.

(** A stored file of the history. *)
Record good_info (cl : C) (info : FileInfo) : Prop := {
  gi_range : 1 <= MinTXID info <= MaxTXID info;
  gi_max : MaxTXID info < 2 ^ 64 - 1;
  gi_index idx : FetchPageIndex cl info = Ok idx -> delta idx (MinTXID info - 1) (MaxTXID info);
  gi_header hdr : FetchLTXHeader cl info = Ok hdr -> hdr_Commit hdr = hsize (MaxTXID info)
}.

Hypothesis hist_size : forall t p, is_Some (hist t p) <-> 1 <= p <= hsize t.
Hypothesis hsize_pos : forall t, 0 <= hsize t.
Hypothesis hist_zero : hsize 0 = 0.
Hypothesis good_files : forall cl um level info, good cl -> In info (level_files cl um level) -> good_info cl info.

Lemma hist_outside t p : hist t p = None <-> ~ (1 <= p <= hsize t).
Proof. rewrite <- hist_size, <- eq_None_not_Some. done. Qed.

Lemma delta_empty t : delta ∅ t t.
Proof. intros p. rewrite lookup_empty. intros _ t' ?. by replace t' with t by lia. Qed.

Lemma hist_grows t t' p : hsize t <= hsize t' -> is_Some (hist t p) -> is_Some (hist t' p).
Proof. rewrite !hist_size. lia. Qed.

(** Ranges compose; [lo'] may lie before [mid]. *)
Lemma delta_union idx idx' lo mid lo' hi :
  lo <= mid -> lo' <= mid <= hi -> hsize mid <= hsize hi ->
  delta idx lo mid -> delta idx' lo' hi -> delta (idx' ∪ idx) lo hi.
Proof.
  intros Hlo Hmid Hsz H1 H2 p. specialize (H1 p). specialize (H2 p). rewrite lookup_union.
  destruct (idx' !! p) as [e'|] eqn:E'; [by destruct (idx !! p)|]. destruct (idx !! p) as [e|]; simpl.
  - destruct H1 as (data & Hd & Hs). exists data. split; [|done]. rewrite <- Hd. symmetry. apply H2; [|lia].
    apply (hist_grows mid); [done|]. by rewrite Hd.
  - intros Hp t Ht. destruct (Z.leb_spec lo' t); [apply H2; [done|lia]|].
    rewrite (H1 ltac:(rewrite H2 by (done || lia); done) t ltac:(lia)). apply H2; [done|lia].
Qed.

Lemma index_at_union I idx t lo hi :
  lo <= t <= hi -> hsize t <= hsize hi -> index_at I t -> delta idx lo hi -> index_at (idx ∪ I) hi.
Proof.
  intros Ht Hsz HI Hd p. specialize (HI p). specialize (Hd p). rewrite lookup_union.
  destruct (hist hi p) as [data|] eqn:Eh.
  - destruct (idx !! p) as [e|].
    + destruct Hd as (d & [= <-] & Hs). exists e. by destruct (I !! p).
    + rewrite (Hd ltac:(done) t Ht) in HI. destruct HI as (e & -> & Hs). by exists e.
  - destruct (idx !! p) as [e|]; [destruct Hd as (d & Hd & _); congruence|].
    destruct (hist t p) as [d|] eqn:Et; [|by rewrite HI].
    apply hist_outside in Eh. destruct Eh. assert (1 <= p <= hsize t) by (apply hist_size; by rewrite Et). lia.
Qed.

Lemma delta_index idx hi : hsize hi >= 0 -> delta idx 0 hi -> 0 <= hi -> index_at idx hi.
Proof.
  intros _ Hd Hhi. rewrite <- (map_union_empty idx). apply (index_at_union ∅ idx 0 0 hi); [lia|rewrite hist_zero; apply hsize_pos| |done].
  intros p. destruct (hist 0 p) eqn:E; [|by rewrite lookup_empty].
  assert (1 <= p <= hsize 0) by (apply hist_size; by rewrite E). rewrite hist_zero in *. lia.
Qed.

(** ** Polls *)

Lemma pollLevel_loop_spec cl level items idx m0 m lc nc rep T idx' c' :
  good cl -> Forall (good_info cl) items -> 0 <= m0 <= m -> m < 2 ^ 64 - 1 ->
  delta idx m0 m -> nc = lc -> (idx = ∅ /\ m = m0 \/ lc = hsize m) ->
  pollLevel_loop cl level items idx m lc nc rep = Ok (T, idx', c', false) ->
  rep = false /\ delta idx' m0 T /\ m <= T < 2 ^ 64 - 1 /\ lc <= c' /\
  (T = m /\ idx' = idx /\ c' = lc \/ m < T /\ c' = hsize T).
Proof.
  intros Hg. revert idx m lc nc rep. induction items as [|info items IH]; intros idx m lc nc rep HF Hm Hb Hd -> Hlc HP; cbn [pollLevel_loop] in HP.
  { injection HP as <- <- <- <-. repeat split; auto; lia. }
  apply Forall_cons in HF as [Hi HF].
  destruct (negb (MinTXID info =? txid_succ m)) eqn:Emin.
  { case_if; [|done]. injection HP as <- <- <- <-. repeat split; auto; lia. }
  apply negb_false_iff, Z.eqb_eq in Emin. rewrite txid_succ_small in Emin by lia.
  destruct (FetchPageIndex cl info) as [di|e|s] eqn:Ei; cbn [mbind result_bind wrap_err] in HP; [|done..].
  destruct (FetchLTXHeader cl info) as [hdr|e|s] eqn:Eh; cbn [mbind result_bind wrap_err] in HP; [|done..].
  pose proof (gi_index _ _ Hi _ Ei) as Hdi. pose proof (gi_header _ _ Hi _ Eh) as Hc.
  pose proof (gi_range _ _ Hi). pose proof (gi_max _ _ Hi). rewrite Hc in HP.
  destruct (Z.ltb_spec (hsize (MaxTXID info)) lc) as [Hlt|Hge].
  { exfalso. rewrite orb_true_r in HP. clear -HP. revert HP. generalize (di ∪ ∅) (MaxTXID info) (hsize (MaxTXID info)).
    induction items as [|info' items IH]; intros i m0' c HP; cbn [pollLevel_loop] in HP; [done|].
    case_if; [case_if; done|]. destruct (FetchPageIndex cl info'); cbn [mbind result_bind wrap_err] in HP; [|done..].
    destruct (FetchLTXHeader cl info'); cbn [mbind result_bind wrap_err orb] in HP; [|done..]. by eapply IH. }
  replace (MinTXID info - 1) with m in Hdi by lia.
  assert (delta (di ∪ idx) m0 (MaxTXID info)) as Hd'.
  { destruct Hlc as [[-> ->]| ->]; [by rewrite map_union_empty|]. apply (delta_union idx di m0 m m); auto; lia. }
  apply IH in HP as (Hrep & Hd2 & HT & Hcc & Hend); [|done|lia|lia|done|done|by right].
  rewrite orb_false_r in Hrep. split; [done|]. split; [done|]. split; [lia|]. split; [lia|]. right. split; [lia|]. by destruct Hend as [(-> & _ & ->)|[_ ->]].
Qed.

Lemma pollLevel_spec cl level m0 base T idx c :
  good cl -> 0 <= m0 < 2 ^ 64 - 1 -> pollLevel cl level m0 base = Ok (T, idx, c, false) ->
  delta idx m0 T /\ m0 <= T < 2 ^ 64 - 1 /\ base <= c /\ (T = m0 /\ idx = ∅ /\ c = base \/ m0 < T /\ c = hsize T).
Proof.
  intros Hg Hm. unfold pollLevel. destruct (LTXFiles _ _ _ _) as [itr|e|s] eqn:HL; cbn [mbind result_bind wrap_err]; [|done..].
  intros HP. apply (pollLevel_loop_spec _ _ _ _ m0) in HP as (_ & ? & ? & ? & ?); auto; try lia.
  - apply Forall_forall. intros info Hin. apply list_elem_of_In in Hin.
    apply (good_files _ false level); [done|]. destruct (LTXFiles_items _ _ _ _ _ HL) as [rest Hp].
    assert (In info (filter (fun f => txid_succ m0 <=? MinTXID f) (level_files cl false level))) as Hf
      by (rewrite Hp; apply in_or_app; by left).
    by apply In_filter_bool in Hf as [_ ?].
  - apply delta_empty.
Qed.

Definition polled_pos (pl : polled) : TXID := if pl_maxTXID1 pl <? pl_maxTXID0 pl then pl_maxTXID0 pl else pl_maxTXID1 pl.

(** The files of level 1 that a poll finds do not lag behind those of level 0. *)
Definition no_lag (m1 : TXID) (pl : polled) : Prop := pl_maxTXID1 pl = m1 \/ pl_maxTXID0 pl <= pl_maxTXID1 pl.

Lemma delta_empty_size lo t hi : lo <= t <= hi -> delta ∅ lo hi -> hsize hi <= hsize t.
Proof.
  intros Ht Hd. destruct (Z.leb_spec (hsize hi) (hsize t)); [done|]. pose proof (hsize_pos t).
  assert (is_Some (hist hi (hsize hi))) as Hs by (apply hist_size; lia).
  specialize (Hd (hsize hi)). rewrite lookup_empty in Hd. rewrite <- (Hd Hs t Ht) in Hs. apply hist_size in Hs. lia.
Qed.

Lemma poll_fetch_spec cl t m1 pl :
  good cl -> 0 <= m1 <= t -> t < 2 ^ 64 - 1 -> poll_fetch cl t m1 (hsize t) = Ok pl -> pl_replace pl = false -> no_lag m1 pl ->
  t <= polled_pos pl < 2 ^ 64 - 1 /\ delta (pl_combined pl) t (polled_pos pl) /\ hsize t <= hsize (polled_pos pl) /\
  pl_newCommit pl = hsize (polled_pos pl) /\ 0 <= pl_maxTXID1 pl <= polled_pos pl.
Proof.
  intros Hg Hm Hb. unfold poll_fetch.
  destruct (pollLevel cl 0 t (hsize t)) as [[[[T0 i0] c0] r0]|e|s] eqn:HL0; cbn [mbind result_bind wrap_err]; [|done..].
  set (base1 := if r0 then c0 else if bool_decide _ then _ else _). set (n0 := if r0 then c0 else _).
  destruct (pollLevel cl 1 m1 base1) as [[[[T1 i1] c1] r1]|e|s] eqn:HL1; cbn [mbind result_bind wrap_err]; [|done..].
  intros [= <-]. cbn [pl_replace pl_combined pl_newCommit pl_maxTXID0 pl_maxTXID1 polled_pos]. intros [-> ->]%orb_false_iff Hlag.
  unfold no_lag, polled_pos in *. cbn [pl_replace pl_combined pl_newCommit pl_maxTXID0 pl_maxTXID1] in *.
  apply pollLevel_spec in HL0 as (Hd0 & HT0 & Hc0 & He0); [|done|lia].
  apply pollLevel_spec in HL1 as (Hd1 & HT1 & Hc1 & He1); [|done|lia].
  assert (c0 = hsize T0) as -> by (destruct He0 as [(-> & _ & ->)|[_ ->]]; done).
  assert (base1 = hsize T0) as Hb1.
  { unfold base1. case_bool_decide as Hi; [|done]. subst i0. pose proof (delta_empty_size t t T0 ltac:(lia) Hd0). lia. }
  assert (n0 = hsize T0) as -> by (unfold n0; case_if; breflect; lia). rewrite Hb1 in *. clear base1 Hb1.
  destruct He1 as [(-> & -> & ->)|[Hlt ->]].
  - rewrite (left_id_L ∅ (∪)), Z.ltb_irrefl. destruct (Z.ltb_spec m1 T0); [split_and!; auto; lia|].
    replace m1 with T0 in * by lia. split_and!; auto; lia.
  - destruct Hlag as [|Hlag]; [lia|]. destruct (Z.ltb_spec T1 T0); [lia|].
    assert (delta (i1 ∪ i0) t T1) as Hd by (apply (delta_union i0 i1 t T0 m1 T1); auto; lia).
    destruct (Z.ltb_spec (hsize T0) (hsize T1)); split_and!; auto; lia.
Qed.

(** ** Reads *)

(** What page reads depend on: the index and the cache are those of the database
    after transaction [s]. *)
Record snapshot (f : VFSFile) (s : TXID) : Prop := {
  sn_index : index_at (vf_index f) s;
  sn_cache p data : cached (vf_cache f) p = Some data -> hist s p = Some data;
  sn_plain : hydrated f = None
}.

(** The bytes a read of [p] at [off] delivers from a page. *)
Definition page_bytes (e : venv) (pageSize off : Z) (p data : list byte) : list byte :=
  let b := copy_into p (drop (Z.to_nat (off mod pageSize)) data) in
  if (off =? 0) && (28 <=? Z.of_nat (length p)) then Follow.patch (v_rand e) b else b.

Lemma length_copy_into p data : length (copy_into p data) = length p.
Proof. unfold copy_into. rewrite length_app, length_take, length_drop. lia. Qed.

Lemma deliver_ok e checked p off ps data n b :
  deliver e checked p off (off mod ps) data = Ok (n, b) ->
  b = page_bytes e ps off p data /\ n = copied p (drop (Z.to_nat (off mod ps)) data).
Proof.
  unfold deliver, journal_mode, page_bytes. case_if; [done|]. rewrite length_copy_into.
  destruct (off =? 0); simpl; [|by intros [= <- <-]]. destruct (28 <=? Z.of_nat (length p)); simpl; [by intros [= <- <-]|].
  destruct checked; simpl; [by intros [= <- <-]|done].
Qed.

Lemma fetch_retry_shows e clients elem data attempt remaining d :
  (forall n, good (clients n)) -> shows elem data -> (pageFetchRetryAttempts - attempt = remaining)%nat -> (attempt < pageFetchRetryAttempts)%nat ->
  fetch_retry e clients elem attempt remaining = Ok d -> d = data.
Proof.
  intros Hg Hs. revert attempt. induction remaining as [|remaining IH]; intros attempt Hr Ha; cbn [fetch_retry]; [lia|].
  destruct (fetch_elem (clients attempt) elem) as [[q d']|err|m] eqn:E; [intros [= <-]; by eapply Hs|case_if; [done|]|done].
  destruct (Nat.eqb_spec attempt (pageFetchRetryAttempts - 1)); [done|]. case_if; [done|]. apply IH; lia.
Qed.

(** Steps of other goroutines that leave the view of a reader alone. *)
Definition quiet_step (g : VFSFile -> VFSFile) (s : TXID) : Prop :=
  forall f, snapshot f s -> LockShared <= vf_lockType f ->
    snapshot (g f) s /\ vf_lockType (g f) = vf_lockType f /\ vf_pageSize (g f) = vf_pageSize f /\ vf_write (g f) = vf_write f.

Lemma snapshot_cache f s c :
  snapshot f s -> (forall p data, cached c p = Some data -> hist s p = Some data) -> snapshot (set_cache c f) s.
Proof. intros [HI _ HP] Hc. by split. Qed.

Lemma quiet_id s : quiet_step id s.
Proof. by intros f Hf Hl. Qed.

Lemma quiet_comp g h s : quiet_step g s -> quiet_step h s -> quiet_step (fun f => g (h f)) s.
Proof.
  intros Hg Hh f Hf Hl. destruct (Hh f Hf Hl) as (H1 & H2 & H3 & H4).
  destruct (Hg (h f) H1 ltac:(by rewrite H2)) as (G1 & G2 & G3 & G4). split_and!; congruence.
Qed.

(** Polls under a lock only touch what is not visible yet. *)
Lemma poll_quiet e cl s : quiet_step (fun f => (pollReplicaClient e cl id f).1) s.
Proof.
  intros f [HI HC HP] Hl. unfold pollReplicaClient. destruct (poll_fetch _ _ _ _) as [pl|err|m]; [|done..].
  unfold poll_apply, id, fst. destruct (rv_targetTime (vf_view f)); [done|].
  destruct (Z.leb_spec LockShared (vf_lockType f)); [|lia]. rewrite HP. done.
Qed.

Lemma ReadAt_snapshot e clients others f p off s f' r :
  (forall n, good (clients n)) -> (forall n, quiet_step (others n) s) -> snapshot f s -> LockShared <= vf_lockType f ->
  (ws_writeEnabled (vf_write f) = true -> ws_dirty (vf_write f) !! page_number off (vf_pageSize f) = None) ->
  ReadAt e clients others f p off = (f', r) ->
  snapshot f' s /\ vf_lockType f' = vf_lockType f /\ vf_pageSize f' = vf_pageSize f /\ vf_write f' = vf_write f /\
  forall n b, r = Ok (n, b) ->
    (exists data, hist s (page_number off (vf_pageSize f)) = Some data /\ b = page_bytes e (vf_pageSize f) off p data) \/
    (hist s (page_number off (vf_pageSize f)) = None /\ ws_writeEnabled (vf_write f) = true /\ b = replicate (length p) x00).
Proof.
  intros Hg Ho Hs Hl Hd. unfold ReadAt, pageSizeBytes.
  destruct (vf_pageSize f =? 0); [by intros [= <- <-]|]. set (pgno := page_number off (vf_pageSize f)).
  replace (if ws_writeEnabled (vf_write f) then _ else None) with (@None Z)
    by (destruct (ws_writeEnabled (vf_write f)); [first [exact (Hd eq_refl)|exact (eq_sym (Hd eq_refl))]|done]).
  destruct (Ho 0%nat f Hs Hl) as (H1 & L1 & P1 & W1). set (f1 := others 0%nat f) in *.
  rewrite (sn_plain _ _ H1). destruct (cache_Get (vf_cache f1) pgno) as [c hit] eqn:EG.
  assert (hit = cached (vf_cache f1) pgno) as -> by (by rewrite <- (cached_Get (vf_cache f1) pgno), EG).
  assert (snapshot (set_cache c f1) s) as H1'.
  { apply snapshot_cache; [done|]. intros q d Hq. apply (sn_cache _ _ H1).
    rewrite <- (cached_Get_same (vf_cache f1) pgno), EG in *. done. }
  destruct (cached (vf_cache f1) pgno) as [data|] eqn:EC.
  { intros [= <- <-]. split_and!; [done..|]. intros n b Hdel. left. exists data.
    split; [by apply (sn_cache _ _ H1)|]. by apply deliver_ok in Hdel as [-> _]. }
  destruct (Ho 1%nat (set_cache c f1) H1' ltac:(by rewrite <- L1 in Hl)) as (H2 & L2 & P2 & W2).
  set (f2 := others 1%nat (set_cache c f1)) in *. pose proof (sn_index _ _ H2 pgno) as Hidx.
  assert (LockShared <= vf_lockType f2) as Hl2 by (rewrite L2; cbn; lia).
  destruct (Ho 2%nat f2 H2 Hl2) as (H3 & L3 & P3 & W3). set (f3 := others 2%nat f2) in *.
  cbn [set_cache vf_lockType vf_pageSize vf_write] in *.
  destruct (hist s pgno) as [data|] eqn:Eh.
  - destruct Hidx as (elem & -> & Hsh).
    destruct (fetch_retry e clients elem 0 pageFetchRetryAttempts) as [d|err|m] eqn:EF.
    + apply (fetch_retry_shows _ _ _ data) in EF as ->; [|done|done|done|unfold pageFetchRetryAttempts; lia].
      intros [= <- <-]. split_and!; [|cbn [set_cache vf_lockType vf_pageSize vf_write]; congruence..|].
      * apply snapshot_cache; [done|]. intros q d Hq. destruct (decide (q = pgno)) as [->|Hne].
        { rewrite cached_Add in Hq. congruence. }
        destruct (cached_Add_other (vf_cache f3) pgno data q Hne) as [Hc|Hc]; rewrite Hc in Hq; [by apply (sn_cache _ _ H3)|done].
      * intros n b Hdel. left. exists data. split; [done|]. by apply deliver_ok in Hdel as [-> _].
    + intros [= <- <-]. split_and!; [done|congruence..|done].
    + intros [= <- <-]. split_and!; [done|congruence..|done].
  - rewrite Hidx. destruct (ws_writeEnabled (vf_write f2)) eqn:Ew; intros [= <- <-];
      (split_and!; [done|congruence..|]); [|done].
    intros n b [= <- <-]. right. split_and!; [done| |done]. congruence.
Qed.

(** A reader under a lock: polls by the monitor between its reads and inside them. *)
Inductive reader_event : Type :=
| RPoll (e : venv) (cl : C)
| RRead (e : venv) (clients : nat -> C) (polls : nat -> list (venv * C)) (p : list byte) (off : Z).

Definition run_polls (l : list (venv * C)) (f : VFSFile) : VFSFile :=
  foldl (fun f ec => (pollReplicaClient ec.1 ec.2 id f).1) f l.

(** The state at the end and, for every read, its arguments and result. *)
Fixpoint reader_run (f : VFSFile) (evs : list reader_event) : VFSFile * list (venv * list byte * Z * result (Z * list byte)) :=
  match evs with
  | [] => (f, [])
  | RPoll e cl :: evs => reader_run (pollReplicaClient e cl id f).1 evs
  | RRead e clients polls p off :: evs =>
      let '(f, r) := ReadAt e clients (fun n => run_polls (polls n)) f p off in
      let '(f, rs) := reader_run f evs in (f, (e, p, off, r) :: rs)
  end.

Definition event_good (ev : reader_event) : Prop :=
  match ev with RPoll _ _ => True | RRead _ clients _ _ _ => forall n, good (clients n) end.

(** A read returned the page of the database after transaction [s]. *)
Definition reads_as (s : TXID) (pageSize : Z) (o : venv * list byte * Z * result (Z * list byte)) : Prop :=
  let '(e, p, off, r) := o in
  forall n b, r = Ok (n, b) ->
    exists data, hist s (page_number off pageSize) = Some data /\ b = page_bytes e pageSize off p data.

Lemma run_polls_quiet l s : quiet_step (run_polls l) s.
Proof.
  induction l as [|[e cl] l IH]; [apply quiet_id|]. exact (quiet_comp _ _ s IH (poll_quiet e cl s)).
Qed.

Lemma reader_run_spec evs f s f' outs :
  snapshot f s -> LockShared <= vf_lockType f -> ws_writeEnabled (vf_write f) = false -> Forall event_good evs ->
  reader_run f evs = (f', outs) ->
  snapshot f' s /\ vf_lockType f' = vf_lockType f /\ Forall (reads_as s (vf_pageSize f)) outs.
Proof.
  revert f outs. induction evs as [|[e cl|e clients polls p off] evs IH]; intros f outs Hs Hl Hw HF; cbn [reader_run].
  { by intros [= <- <-]. }
  - apply Forall_cons in HF as [_ HF]. destruct (poll_quiet e cl s f Hs Hl) as (H1 & H2 & H3 & H4).
    intros HR. apply IH in HR as (? & ? & ?); [|done|by rewrite H2|by rewrite H4|done]. split_and!; congruence.
  - apply Forall_cons in HF as [Hg HF]. destruct (ReadAt _ _ _ f p off) as [f1 r] eqn:ER.
    destruct (reader_run f1 evs) as [f2 rs] eqn:EE. intros [= <- <-].
    eapply ReadAt_snapshot in ER as (H1 & H2 & H3 & H4 & Hr); [|done|intros n; apply run_polls_quiet|done|done|congruence].
    apply IH in EE as (? & ? & Hrs); [|done|by rewrite H2|by rewrite H4|done]. split_and!; [done|congruence|].
    rewrite H3 in Hrs. apply Forall_cons. split; [|done]. intros n b Hb.
    destruct (Hr n b Hb) as [|(_ & Hw' & _)]; [done|congruence].
Qed.


(** ** Following the replica *)

(** The file shows transaction [s] and knows about transaction [t], which becomes
    visible when the lock is released. *)
Record follows (f : VFSFile) (s t : TXID) : Prop := {
  fo_snapshot : snapshot f s;
  fo_pending : index_at (rv_pending (vf_view f) ∪ vf_index f) t;
  fo_unchanged p : rv_pending (vf_view f) !! p = None -> is_Some (hist s p) -> hist t p = hist s p;
  fo_pos : rv_pos (vf_view f) = t;
  fo_commit : rv_commit (vf_view f) = hsize t;
  fo_max1 : 0 <= rv_maxTXID1 (vf_view f) <= t;
  fo_bound : 0 <= s /\ s <= t < 2 ^ 64 - 1;
  fo_unlocked : vf_lockType f < LockShared -> s = t /\ rv_pending (vf_view f) = ∅;
  fo_merge : rv_pendingReplace (vf_view f) = false;
  fo_live : rv_targetTime (vf_view f) = None
}.

(** The remote levels when a poll runs: the index is not replaced and level 1 does
    not lag behind level 0. *)
Definition poll_regular (cl : C) (f : VFSFile) : Prop :=
  forall pl, poll_fetch cl (rv_pos (vf_view f)) (rv_maxTXID1 (vf_view f)) (rv_commit (vf_view f)) = Ok pl ->
    pl_replace pl = false /\ no_lag (rv_maxTXID1 (vf_view f)) pl.

Lemma cached_invalidate c (idx : page_index) p :
  cached (cache_invalidate c idx) p = match idx !! p with Some _ => None | None => cached c p end.
Proof.
  unfold cache_invalidate. transitivity (if bool_decide (p ∈ (map_to_list idx).*1) then None else cached c p).
  - generalize (map_to_list idx) as l. intros l. revert c. induction l as [|[k e] l IH]; intros c; [done|]. cbn [foldl fst]. rewrite IH, fmap_cons. cbn [fst].
    destruct (decide (p = k)) as [->|Hne].
    + rewrite cached_Remove. rewrite (bool_decide_eq_true_2 (k ∈ k :: l.*1)) by constructor. by case_bool_decide.
    + rewrite cached_Remove_other by done. by rewrite (bool_decide_ext (p ∈ l.*1) (p ∈ k :: l.*1)) by (rewrite elem_of_cons; split; [by right|by intros [?|?]]).
  - destruct (idx !! p) as [e|] eqn:E.
    + rewrite bool_decide_eq_true_2; [done|]. apply list_elem_of_fmap. exists (p, e). split; [done|]. by apply elem_of_map_to_list.
    + rewrite bool_decide_eq_false_2; [done|]. intros ([k e] & -> & Hin)%list_elem_of_fmap.
      apply elem_of_map_to_list in Hin. simpl in E. congruence.
Qed.

Lemma poll_apply_follows e cl f s t pl :
  good cl -> follows f s t -> poll_fetch cl (rv_pos (vf_view f)) (rv_maxTXID1 (vf_view f)) (rv_commit (vf_view f)) = Ok pl ->
  pl_replace pl = false -> no_lag (rv_maxTXID1 (vf_view f)) pl ->
  t <= polled_pos pl /\ follows (poll_apply e cl f pl) (if LockShared <=? vf_lockType f then s else polled_pos pl) (polled_pos pl).
Proof.
  intros Hg [[HI HC HP] Hpd Hun Hpos Hcm Hm1 Hb Hul Hmg Hlive] HF Hrep Hlag. rewrite Hpos, Hcm in HF.
  apply poll_fetch_spec in HF as (Ht & Hd & Hsz & Hnc & Hm1'); [|done|lia|lia|done|done].
  split; [lia|]. unfold poll_apply. rewrite Hlive, Hrep, HP. fold (polled_pos pl).
  assert ((if negb (bool_decide (pl_combined pl = ∅)) && (rv_commit (vf_view f) <? pl_newCommit pl) then pl_newCommit pl
           else rv_commit (vf_view f)) = hsize (polled_pos pl)) as Hcommit.
  { rewrite Hcm, Hnc. case_bool_decide as He; simpl; [|case_if; breflect; lia].
    rewrite He in Hd. pose proof (delta_empty_size t t (polled_pos pl) ltac:(lia) Hd). lia. }
  rewrite Hcommit. destruct (Z.leb_spec LockShared (vf_lockType f)) as [Hl|Hl].
  - split; cbn; try done; [|intros p Hp Hsome|lia|lia|by rewrite Hmg].
    + rewrite <- (assoc_L (∪)). apply (index_at_union _ _ t t); [lia|done|done|done].
    + apply lookup_union_None in Hp as [Hp1 Hp2]. rewrite <- (Hun p Hp2 Hsome). specialize (Hd p). rewrite Hp1 in Hd.
      symmetry. apply Hd; [|lia]. apply (hist_grows t); [done|]. by rewrite (Hun p Hp2 Hsome).
  - destruct (Hul Hl) as [-> Hpe]. assert (index_at (pl_combined pl ∪ vf_index f) (polled_pos pl)) as HI'
      by (apply (index_at_union _ _ t t); [lia|done|done|done]).
    split; cbn; try done; [split; cbn; [done| |done]|by rewrite Hpe, (left_id_L ∅ (∪))|lia].
    intros p data. rewrite cached_invalidate. destruct (pl_combined pl !! p) eqn:Ep; [done|]. intros Hcd%HC.
    rewrite <- Hcd. symmetry. specialize (Hd p). rewrite Ep in Hd. apply Hd; [|lia]. apply (hist_grows t); [done|]. by rewrite Hcd.
Qed.

Lemma merge_pending_follows f s t : follows f s t -> follows (merge_pending f) t t.
Proof.
  intros [[HI HC HP] Hpd Hun Hpos Hcm Hm1 Hb Hul Hmg Hlive]. unfold merge_pending. rewrite Hmg.
  split; cbn; try done; [split; cbn; [done| |done]|by rewrite (left_id_L ∅ (∪))|lia].
  intros p data. rewrite cached_invalidate. destruct (rv_pending (vf_view f) !! p) eqn:Ep; [done|]. intros Hcd%HC.
  rewrite <- Hcd. apply Hun; [done|]. by rewrite Hcd.
Qed.

Lemma follows_lock f s t l : s = t /\ rv_pending (vf_view f) = ∅ \/ LockShared <= l -> follows f s t -> follows (set_lockType l f) s t.
Proof. intros Hl [[HI HC HP] ? ? ? ? ? ? Hul ? ?]. split; cbn; try done. intros Hlt. destruct Hl; [done|lia]. Qed.

Lemma follows_write f s t w : follows f s t -> follows (set_write w f) s t.
Proof. intros [[HI HC HP] ? ? ? ? ? ? Hul ? ?]. by split. Qed.

Lemma Unlock_follows id vs f elock s t vs' f' :
  follows f s t -> Unlock id vs f elock = (vs', f', Ok ()) -> follows f' t t /\ vf_lockType f' = elock.
Proof.
  intros Hf. unfold Unlock. case_if; [done|]. intros [= _ <-]. split; [|done].
  set (g := if _ : bool then set_write _ f else f). assert (follows g s t) as Hg by (unfold g; case_if; [by apply follows_write|done]).
  apply merge_pending_follows in Hg. change (merge_pending (set_lockType elock g)) with (set_lockType elock (merge_pending g)).
  apply follows_lock; [by left|done].
Qed.

Lemma pollLevel_loop_mono cl level items idx m lc nc rep T idx' c' rep' :
  Forall (good_info cl) items -> 0 <= m < 2 ^ 64 - 1 ->
  pollLevel_loop cl level items idx m lc nc rep = Ok (T, idx', c', rep') -> m <= T.
Proof.
  intros HF. revert idx m lc nc rep. induction items as [|info items IH]; intros idx m lc nc rep Hm; cbn [pollLevel_loop].
  { intros [= <- _ _ _]. lia. }
  apply Forall_cons in HF as [Hi HF]. pose proof (gi_range _ _ Hi). pose proof (gi_max _ _ Hi). rewrite txid_succ_small by lia.
  destruct (Z.eqb_spec (MinTXID info) (m + 1)); cbn [negb]; [|case_if; [intros [= <- _ _ _]; lia|done]].
  destruct (FetchPageIndex cl info) as [di|er|st]; cbn [mbind result_bind wrap_err]; [|done..].
  destruct (FetchLTXHeader cl info) as [hdr|er|st]; cbn [mbind result_bind wrap_err]; [|done..].
  intros HP. apply IH in HP; [lia|done|lia].
Qed.

(** Level 0 has a file to go on with. *)
Lemma pollLevel_progress cl t base T idx c rep info itr :
  good cl -> 0 <= t < 2 ^ 64 - 1 -> In info (level_files cl false 0) -> MinTXID info = t + 1 ->
  LTXFiles cl 0 (txid_succ t) false = Ok itr -> itr_Err itr = None -> pollLevel cl 0 t base = Ok (T, idx, c, rep) -> t < T.
Proof.
  intros Hg Ht Hin Hmin HL HE. unfold pollLevel. rewrite HL. cbn [mbind result_bind wrap_err].
  pose proof (LTXFiles_complete _ _ _ _ _ HL HE) as Hitems. rewrite txid_succ_small in Hitems by lia.
  assert (In info (itr_items itr)) as Hin' by (rewrite Hitems; apply In_filter_bool; split; [apply Z.leb_le; lia|done]).
  pose proof (level_files_sorted cl false 0) as Hso. apply (StronglySorted_filter_bool _ (fun f => t + 1 <=? MinTXID f)) in Hso.
  rewrite <- Hitems in Hso. destruct (itr_items itr) as [|x items]; [done|]. cbn [pollLevel_loop].
  assert (In x (filter (fun f => t + 1 <=? MinTXID f) (level_files cl false 0))) as Hx by (rewrite <- Hitems; by left).
  apply In_filter_bool in Hx as [Hx1 Hx2]. apply Z.leb_le in Hx1. rewrite txid_succ_small by lia.
  assert (MinTXID x = t + 1) as Hxm.
  { apply StronglySorted_inv in Hso as [_ Hso]. rewrite Forall_forall in Hso. destruct Hin' as [->|Hin']; [done|].
    apply list_elem_of_In, Hso in Hin'. lia. }
  rewrite Hxm, Z.eqb_refl. cbn [negb]. pose proof (good_files cl false 0 x Hg Hx2) as Hgi. pose proof (gi_range _ _ Hgi).
  destruct (FetchPageIndex cl x) as [di|er|st]; cbn [mbind result_bind wrap_err]; [|done..].
  destruct (FetchLTXHeader cl x) as [hdr|er|st]; cbn [mbind result_bind wrap_err]; [|done..].
  assert (Forall (good_info cl) items) as HFi.
  { apply Forall_forall. intros y Hy. apply list_elem_of_In in Hy. apply (good_files cl false 0); [done|].
    assert (In y (filter (fun f => t + 1 <=? MinTXID f) (level_files cl false 0))) as Hf by (rewrite <- Hitems; by right).
    by apply In_filter_bool in Hf as [_ ?]. }
  intros HP. apply pollLevel_loop_mono in HP; [lia|done|pose proof (gi_max _ _ Hgi); lia].
Qed.

Lemma poll_follows e cl f s t f1 :
  good cl -> follows f s t -> poll_regular cl f -> pollReplicaClient e cl id f = (f1, Ok ()) ->
  exists t', t <= t' /\ follows f1 (if LockShared <=? vf_lockType f then s else t') t' /\
    forall info itr, In info (level_files cl false 0) -> MinTXID info = t + 1 ->
      LTXFiles cl 0 (txid_succ t) false = Ok itr -> itr_Err itr = None -> t < t'.
Proof.
  intros Hg Hf Hreg. pose proof Hf as [_ _ _ Hpos _ Hm1 Hb _ _ _]. unfold pollReplicaClient. unfold poll_regular in Hreg.
  destruct (poll_fetch _ _ _ _) as [pl|err|m] eqn:EP; [|done..]. intros [= <-].
  destruct (Hreg pl eq_refl) as [Hrep Hlag]. exists (polled_pos pl).
  destruct (poll_apply_follows e cl f s t pl Hg Hf EP Hrep Hlag) as [Ht Hf']. split_and!; [done|done|].
  intros info itr Hin Hmin HL HE. rewrite Hpos in EP. unfold poll_fetch in EP.
  destruct (pollLevel cl 0 t _) as [[[[T0 i0] c0] r0]|er|st] eqn:EL; cbn [mbind result_bind wrap_err] in EP; [|done..].
  apply (pollLevel_progress _ _ _ _ _ _ _ info itr) in EL; [|done|lia|done..].
  match type of EP with context [pollLevel cl 1 ?a ?b] => destruct (pollLevel cl 1 a b) as [[[[T1 i1] c1] r1]|er|st] end;
    cbn [mbind result_bind wrap_err] in EP; [|done..].
  injection EP as <-. unfold polled_pos in *. cbn [pl_maxTXID0 pl_maxTXID1] in *. case_if; breflect; lia.
Qed.


(** ** Opening and time travel *)

(** The commits along a plan do not shrink. *)
Fixpoint plan_grows (cur : TXID) (infos : list FileInfo) : Prop :=
  match infos with
  | [] => True
  | info :: infos => hsize cur <= hsize (MaxTXID info) /\ plan_grows (MaxTXID info) infos
  end.

Lemma buildIndexMap_loop_spec cl infos cur idx cur' index commit :
  good cl -> Forall (good_info cl) infos -> 0 <= cur -> chain cur infos cur' -> plan_grows cur infos -> delta idx 0 cur ->
  buildIndexMap_loop cl infos idx (hsize cur) = Ok (index, commit) -> delta index 0 cur' /\ commit = hsize cur'.
Proof.
  intros Hg HF. revert cur idx. induction infos as [|info infos IH]; intros cur idx Hc Hch Hgr Hd; cbn [buildIndexMap_loop].
  { intros [= <- <-]. simpl in Hch. by subst. }
  apply Forall_cons in HF as [Hi HF]. destruct Hch as (Hmin & Hmax & Hch). destruct Hgr as [Hg1 Hgr].
  destruct (FetchPageIndex cl info) as [di|er|st] eqn:Ei; cbn [mbind result_bind wrap_err]; [|done..].
  destruct (FetchLTXHeader cl info) as [hdr|er|st] eqn:Eh; cbn [mbind result_bind wrap_err]; [|done..].
  rewrite (gi_header _ _ Hi _ Eh). apply IH; [done|lia|done|done|].
  apply (delta_union idx di 0 cur (MinTXID info - 1)); [lia|lia|lia|done|by apply (gi_index cl info Hi)].
Qed.

Lemma chain_last cur infos cur' d : chain cur infos cur' -> (match last infos with Some info => MaxTXID info | None => d end) = if bool_decide (infos = []) then d else cur'.
Proof.
  revert cur. induction infos as [|info infos IH]; intros cur; [done|]. cbn [chain]. intros (_ & _ & Hch).
  specialize (IH _ Hch). destruct infos as [|y l]; [by simpl in Hch; subst|]. rewrite last_cons_cons. done.
Qed.

Lemma maxLevelTXID_bound infos level cur cur' : 0 <= cur -> chain cur infos cur' -> 0 <= maxLevelTXID infos level <= cur'.
Proof.
  unfold maxLevelTXID. intros Hc Hch. cut (forall m, 0 <= m <= cur ->
    0 <= foldl (fun m info => if (Level info =? level) && (m <? MaxTXID info) then MaxTXID info else m) m infos <= cur'); [intros HX; apply HX; lia|].
  revert cur Hc Hch. induction infos as [|info infos IH]; intros cur Hc; cbn [chain foldl].
  { intros -> m Hm. lia. }
  intros (Hmin & Hmax & Hch) m Hm. apply (IH (MaxTXID info)); [lia|done|]. case_if; breflect; lia.
Qed.

Lemma rebuildIndex_spec cl f infos target f' T :
  good cl -> Forall (good_info cl) infos -> infos <> [] -> chain 0 infos T -> plan_grows 0 infos -> hydrated f = None ->
  rebuildIndex cl f infos target = (f', Ok ()) ->
  snapshot f' T /\ rv_targetTime (vf_view f') = target /\ rv_commit (vf_view f') = hsize T /\
  vf_lockType f' = vf_lockType f /\ vf_pageSize f' = vf_pageSize f /\ vf_write f' = vf_write f /\
  (target = None -> T < 2 ^ 64 - 1 -> follows f' T T).
Proof.
  intros Hg HF Hne Hch Hgr Hh. unfold rebuildIndex, buildIndexMap. pose proof (chain_le _ _ _ Hch) as HT.
  destruct (buildIndexMap_loop cl infos ∅ 0) as [[index commit]|er|st] eqn:EB; [|done..].
  rewrite <- hist_zero in EB at 1. apply (buildIndexMap_loop_spec cl infos 0 ∅ T) in EB as [Hd ->]; [|done..|apply delta_empty].
  apply delta_index in Hd; [|apply Z.le_ge, hsize_pos|lia]. intros [= <-].
  assert (snapshot (set_cache (cache_Purge (vf_cache f)) (set_view (mkView T 0 index ∅ false target 0 (hsize T)) f)) T) as Hsn.
  { split; cbn; [done| |done]. intros p data. by rewrite cached_Purge. }
  rewrite (chain_last 0 infos T 0 Hch), bool_decide_eq_false_2 by done.
  pose proof (maxLevelTXID_bound infos 1 0 T ltac:(lia) Hch).
  split_and!; cbn; try done; [by destruct Hsn|]. intros -> Hb.
  split; cbn; try done; [by destruct Hsn|by rewrite (left_id_L ∅ (∪))|case_if; lia].
Qed.

Section Plans.
Context `{FI : FileInfoSliceLaws}.
Hypothesis snapshot_full : forall cl um info, good cl -> In info (level_files cl um SnapshotLevel) -> MinTXID info = 1.

Lemma plan_chain cl ts plan :
  good cl -> CalcRestorePlan cl 0 ts = Ok plan ->
  plan <> [] /\ Forall (good_info cl) plan /\ chain 0 plan (slice_MaxTXID plan) /\ Forall (fun info => eligible 0 ts info = true) plan.
Proof.
  intros Hg HP. apply plan_sound in HP as (Hne & snap & ext & cur & -> & Hsn & Hch & HF & -> & _); [|lia].
  split; [done|]. assert (Forall (good_info cl) ext /\ Forall (fun info => eligible 0 ts info = true) ext) as [HF1 HF2].
  { split; (eapply Forall_impl; [exact HF|]); intros info [He (level & Hl & Hin)]; [by eapply good_files|done]. }
  destruct snap as [s0|]; [|done]. destruct (Hsn s0 eq_refl) as [Hin He]. simpl.
  pose proof (good_files cl _ _ s0 Hg Hin) as Hgi. pose proof (gi_range _ _ Hgi). pose proof (snapshot_full cl _ s0 Hg Hin).
  split_and!; [by constructor|lia|lia|done|by constructor].
Qed.

Lemma hydrated_Disable f : hydrated (Disable f) = None.
Proof. unfold Disable. destruct (hydrated f) eqn:E; [|done]. done. Qed.

Lemma run_polls_time_travel l f ts : rv_targetTime (vf_view f) = Some ts -> run_polls l f = f.
Proof.
  intros Ht. induction l as [|[e cl] l IH]; [done|]. simpl. unfold pollReplicaClient at 1.
  destruct (poll_fetch _ _ _ _) as [pl|er|st]; [|done..]. unfold poll_apply, id. by rewrite Ht.
Qed.

(** Time travel.  When the target time of a file is set, the file shows exactly the
    database after the last transaction of the restore plan for that time, all of
    whose files are eligible at that time, and it keeps showing it whatever polls run,
    provided the database did not shrink along the plan. *)
Theorem time_travel cl f ts f' l :
  good cl -> SetTargetTime cl f ts = (f', Ok ()) -> (forall plan, CalcRestorePlan cl 0 ts = Ok plan -> plan_grows 0 plan) ->
  exists plan, CalcRestorePlan cl 0 ts = Ok plan /\ Forall (fun info => eligible 0 ts info = true) plan /\
    snapshot (run_polls l f') (slice_MaxTXID plan) /\ rv_commit (vf_view f') = hsize (slice_MaxTXID plan).
Proof.
  intros Hg. unfold SetTargetTime. destruct (time_IsZero ts); [done|].
  destruct (CalcRestorePlan cl 0 ts) as [plan|er|st] eqn:EP; [|done..]. destruct plan as [|i0 plan]; [done|].
  intros HR Hgr. destruct (plan_chain cl ts _ Hg EP) as (Hne & HF & Hch & He).
  eapply rebuildIndex_spec in HR as (Hsn & Ht & Hc & _); [|done..|by apply Hgr|apply hydrated_Disable].
  exists (i0 :: plan). split_and!; [done..| |done]. by rewrite (run_polls_time_travel _ _ ts).
Qed.

(** Opening.  A file that opens over an existing replica shows the database after
    the last transaction of the restore plan, follows the replica from there, and has
    its page size, provided the database did not shrink along the plan. *)
Theorem Open_follows e cl fuel cacheSize hydration f f' plan :
  good cl -> CalcRestorePlan cl 0 0 = Ok plan -> plan_grows 0 plan -> slice_MaxTXID plan < 2 ^ 64 - 1 -> (0 < fuel)%nat ->
  (forall ps h, hydration ps = Some h -> h_complete h = false) -> vf_lockType f = LockNone ->
  vf_hydrator f = None -> Open e (fun _ => cl) fuel cacheSize hydration f = Some (f', Ok ()) ->
  follows f' (slice_MaxTXID plan) (slice_MaxTXID plan) /\ detectPageSizeFromInfos cl plan = Ok (vf_pageSize f') /\
  (ws_writeEnabled (vf_write f) = true -> ws_expectedTXID (vf_write f') = slice_MaxTXID plan).
Proof.
  intros Hg EP Hgr Hb Hfuel Hhy Hl Hh. unfold Open, waitForRestorePlan.
  replace (if ws_writeEnabled (vf_write f) then _ else _) with (Some (Ok plan))
    by (destruct fuel; [lia|]; cbn [waitForRestorePlan_loop]; rewrite EP; by case_if).
  destruct (detectPageSizeFromInfos cl plan) as [ps|er|st]; [|done..].
  destruct (plan_chain cl 0 _ Hg EP) as (Hne & HF & Hch & _).
  match goal with |- context [let '(_, _) := ?x in _] => destruct x as [w [u|er|st]] eqn:Ew end; [|done..].
  match goal with |- context [rebuildIndex cl ?g plan None] => set (f1 := g) end.
  destruct (rebuildIndex cl f1 plan None) as [f2 [u'|er|st]] eqn:ER; [|done..]. intros [= <-]. destruct u'.
  eapply rebuildIndex_spec in ER as (Hsn & _ & _ & Hlk & Hps & Hw & Hfo); [|done..|unfold hydrated; subst f1; cbn; by rewrite Hh].
  split_and!; cbn.
  - destruct (Hfo eq_refl Hb) as [[HI HC HP] ? ? ? ? ? ? ? ? ?]. split; cbn; try done. split; cbn; [done..|].
    unfold hydrated. cbn. destruct (hydration ps) as [h|] eqn:Eh; [|done]. by rewrite (Hhy _ _ Eh).
  - by rewrite Hps.
  - intros Hwe. rewrite Hw. subst f1. cbn in *. rewrite Hwe in Ew. unfold initWriteBuffer in Ew.
    destruct (vio e BufferDir) as [[]| |], (vio e BufferOpen) as [[]| |]; try done. injection Ew as <-. cbn.
    rewrite (chain_last 0 plan _ 0 Hch). by rewrite bool_decide_eq_false_2.
Qed.
End Plans.
End History.

(** ** A least-recently-used cache

    The most recent entry first; at most [S n] entries. *)
Module Lru.
Record t := mk { spare : nat; entries : list (Z * page) }.
Definition find (k : Z) (l : list (Z * page)) : option page := snd <$> List.find (fun kv => fst kv =? k) l.
Definition drop_key (k : Z) (l : list (Z * page)) : list (Z * page) := List.filter (fun kv => negb (fst kv =? k)) l.

#[export] Instance lru : PageCache := {
  cache := t;
  cache_New n := mk (Z.to_nat (n - 1)) [];
  cache_Get c k := match find k (entries c) with
                   | Some v => (mk (spare c) ((k, v) :: drop_key k (entries c)), Some v)
                   | None => (c, None)
                   end;
  cache_Add c k v := mk (spare c) (take (S (spare c)) ((k, v) :: drop_key k (entries c)));
  cache_Remove c k := mk (spare c) (drop_key k (entries c));
  cache_Purge c := mk (spare c) []
}.

Lemma find_cons k j v l : find k ((j, v) :: l) = if j =? k then Some v else find k l.
Proof. unfold find. simpl. by destruct (j =? k). Qed.

Lemma find_drop_key k j l : find k (drop_key j l) = if j =? k then None else find k l.
Proof.
  induction l as [|[i v] l IH]; [by destruct (j =? k)|]. simpl. rewrite find_cons.
  destruct (Z.eqb_spec i j) as [->|]; simpl; [rewrite IH; by destruct (Z.eqb_spec j k)|].
  rewrite find_cons, IH. destruct (Z.eqb_spec i k), (Z.eqb_spec j k); try done; lia.
Qed.

Lemma find_take k n l : find k (take n l) = find k l \/ find k (take n l) = None.
Proof.
  revert n. induction l as [|[i v] l IH]; intros [|n]; auto. cbn [take]. rewrite !find_cons. destruct (i =? k); auto.
Qed.

#[export] Instance lru_laws : PageCacheLaws.
Proof.
  refine {| cached c k := find k (entries c) |}; simpl.
  - done.
  - intros c k. by destruct (find k (entries c)).
  - intros c k k'. destruct (find k (entries c)) as [v|] eqn:E; [|done]. simpl. rewrite find_cons, find_drop_key.
    destruct (Z.eqb_spec k k') as [->|]; [done|done].
  - intros c k v. by rewrite find_cons, Z.eqb_refl.
  - intros c k v k' Hne. rewrite find_cons. destruct (Z.eqb_spec k k'); [done|].
    destruct (find_take k' (spare c) (drop_key k (entries c))) as [->|]; [|by right].
    rewrite find_drop_key. destruct (Z.eqb_spec k k'); [done|by left].
  - intros c k. by rewrite find_drop_key, Z.eqb_refl.
  - intros c k k' Hne. rewrite find_drop_key. destruct (Z.eqb_spec k k'); done.
  - done.
Defined.
End Lru.

#[local] Existing Instance DemoFormat.format.
#[local] Existing Instance Lru.lru.
#[local] Existing Instance Lru.lru_laws.

(** ** A small replica *)
Module VfsDemo.
Definition pg (p : Z) (b : byte) : Z * page := (p, repeat b 8).
Definition obj (level lo hi commit : Z) (pages : list (Z * page)) : Mem.object :=
  let b := DemoFormat.encode (mkLTX 512 commit lo hi 0 0 0 0 pages) in
  (mkFileInfo level lo hi (Z.of_nat (length b)) lo, b).

Definition first : Mem.object := obj 0 1 1 2 [pg 1 x0a; pg 2 x0b].
Definition second : Mem.object := obj 0 2 2 2 [pg 1 x0c].
Definition replica : Mem.client := Mem.mkClient [first; second] eq_refl.

Definition hsize (t : TXID) : Z := if t <=? 0 then 0 else 2.
Definition hist (t : TXID) (p : Z) : option page :=
  if t <=? 0 then None
  else if p =? 1 then Some (repeat (if t <=? 1 then x0a else x0c) 8) else if p =? 2 then Some (repeat x0b 8) else None.
Definition good (cl : Mem.client) : Prop := cl = replica.

Definition e1 : PageIndexElem := mkElem 0 1 1 8 12.
Definition e2 : PageIndexElem := mkElem 0 1 1 20 12.
Definition e3 : PageIndexElem := mkElem 0 2 2 8 12.
Definition index1 : page_index := <[1 := e1]> (<[2 := e2]> ∅).
Definition index2 : page_index := <[1 := e3]> ∅.

Definition calm : venv := mkVEnv (fun _ => None) (x01, x02, x03, x04) (fun _ => false).
Definition disabled : write_state := mkWrite false ∅ 0 0 None 0 false false.
Definition file_with (pos max1 : TXID) (index : page_index) (commit lock pageSize : Z) : VFSFile :=
  mkVFSFile (mkView pos max1 index ∅ false None 0 commit) disabled (cache_New 2) lock pageSize None.

(** A file at the first transaction. *)
Definition file1 (lock : Z) : VFSFile := file_with 1 1 index1 2 lock 8.

Lemma hist_size t p : is_Some (hist t p) <-> 1 <= p <= hsize t.
Proof.
  unfold hist, hsize. destruct (t <=? 0); [split; [by intros []|lia]|].
  destruct (Z.eqb_spec p 1) as [->|]; [split; [lia|done]|]. destruct (Z.eqb_spec p 2) as [->|]; [split; [lia|done]|].
  split; [by intros []|lia].
Qed.

Lemma hsize_pos t : 0 <= hsize t.
Proof. unfold hsize. case_if; lia. Qed.

Lemma shows1 : shows good e1 (repeat x0a 8).
Proof. intros cl p d -> E. vm_compute in E. injection E as _ <-. reflexivity. Qed.
Lemma shows2 : shows good e2 (repeat x0b 8).
Proof. intros cl p d -> E. vm_compute in E. injection E as _ <-. reflexivity. Qed.
Lemma shows3 : shows good e3 (repeat x0c 8).
Proof. intros cl p d -> E. vm_compute in E. injection E as _ <-. reflexivity. Qed.

Lemma lookup_index1 p : index1 !! p = if p =? 1 then Some e1 else if p =? 2 then Some e2 else None.
Proof.
  unfold index1. rewrite !lookup_insert, lookup_empty.
  destruct (Z.eqb_spec p 1), (Z.eqb_spec p 2), (decide (1 = p)), (decide (2 = p)); try done; lia.
Qed.
Lemma lookup_index2 p : index2 !! p = if p =? 1 then Some e3 else None.
Proof. unfold index2. rewrite lookup_insert, lookup_empty. destruct (Z.eqb_spec p 1), (decide (1 = p)); try done; lia. Qed.

Lemma index1_at : index_at hist good index1 1.
Proof.
  intros p. rewrite lookup_index1. unfold hist. cbn [Z.leb Z.compare Pos.compare Pos.compare_cont].
  destruct (Z.eqb_spec p 1); [exists e1; split; [done|apply shows1]|].
  destruct (Z.eqb_spec p 2); [exists e2; split; [done|apply shows2]|done].
Qed.

Lemma delta1 : delta hist good index1 0 1.
Proof.
  intros p. rewrite lookup_index1. unfold hist.
  destruct (Z.eqb_spec p 1); [eexists; split; [reflexivity|apply shows1]|].
  destruct (Z.eqb_spec p 2); [eexists; split; [reflexivity|apply shows2]|]. by intros [x Hx].
Qed.
Lemma delta2 : delta hist good index2 1 2.
Proof.
  intros p. rewrite lookup_index2. unfold hist.
  destruct (Z.eqb_spec p 1); [eexists; split; [reflexivity|apply shows3]|].
  intros _ t Ht. destruct (Z.leb_spec t 0); [lia|]. reflexivity.
Qed.

Lemma infos um level info : In info (level_files replica um level) -> info = first.1 \/ info = second.1.
Proof.
  change (level_files replica um level) with (filter (fun f => Level f =? level) [first.1; second.1]).
  intros Hin. apply In_filter_bool in Hin as [_ Hin]. destruct Hin as [<-|[<-|[]]]; [by left|by right].
Qed.

Lemma good_files cl um level info : good cl -> In info (level_files cl um level) -> good_info hist hsize good cl info.
Proof.
  intros -> [->| ->]%infos; (split; [vm_compute; split; discriminate|vm_compute; reflexivity| |]).
  - intros idx E. replace (FetchPageIndex replica first.1) with (Ok index1) in E by (vm_compute; reflexivity).
    injection E as <-. apply delta1.
  - intros hdr E. vm_compute in E. injection E as <-. reflexivity.
  - intros idx E. replace (FetchPageIndex replica second.1) with (Ok index2) in E by (vm_compute; reflexivity).
    injection E as <-. apply delta2.
  - intros hdr E. vm_compute in E. injection E as <-. reflexivity.
Qed.

Lemma file1_snapshot lock : snapshot hist good (file1 lock) 1.
Proof. split; [apply index1_at|done|reflexivity]. Qed.

Lemma file1_follows lock : follows hist hsize good (file1 lock) 1 1.
Proof.
  split; [apply file1_snapshot| | | | | | | | |]; try reflexivity.
  - change (index_at hist good (∅ ∪ index1) 1). rewrite (left_id_L ∅ (∪)). apply index1_at.
  - done.
  - cbn. lia.
  - done.
Qed.
End VfsDemo.



#[local] Existing Instance last_slice.

Lemma demo_snapshot_full cl um info : VfsDemo.good cl -> In info (level_files cl um SnapshotLevel) -> MinTXID info = 1.
Proof. intros -> Hin. vm_compute in Hin. destruct Hin. Qed.

Lemma time_travel_witness :
  exists f' plan, SetTargetTime VfsDemo.replica (VfsDemo.file1 LockNone) 2 = (f', Ok ()) /\
    CalcRestorePlan VfsDemo.replica 0 2 = Ok plan /\
    snapshot VfsDemo.hist VfsDemo.good (run_polls [(VfsDemo.calm, VfsDemo.replica)] f') (slice_MaxTXID plan).
Proof.
  destruct (SetTargetTime VfsDemo.replica (VfsDemo.file1 LockNone) 2) as [f' r] eqn:ET.
  assert (r = Ok ()) as -> by (change r with ((f', r).2); rewrite <- ET; vm_compute; reflexivity).
  destruct (@time_travel Lru.lru Lru.lru_laws Mem.client Mem.client_ops Mem.client_laws DemoFormat.format
    VfsDemo.hist VfsDemo.hsize VfsDemo.good VfsDemo.hist_size VfsDemo.hsize_pos eq_refl VfsDemo.good_files last_slice last_slice_laws
    demo_snapshot_full VfsDemo.replica (VfsDemo.file1 LockNone) 2 f' [(VfsDemo.calm, VfsDemo.replica)]) as (plan & HP & _ & HS & _).
  - reflexivity.
  - exact ET.
  - intros plan E. vm_compute in E. injection E as <-. vm_compute. split; [discriminate|exact I].
  - exists f', plan. split; [reflexivity|]. split; [exact HP|exact HS].
Defined.

Lemma Open_follows_witness :
  exists f' plan, Open VfsDemo.calm (fun _ => VfsDemo.replica) 1 4096 (fun _ => None) (VfsDemo.file_with 0 0 ∅ 0 LockNone 0) = Some (f', Ok ()) /\
    CalcRestorePlan VfsDemo.replica 0 0 = Ok plan /\ follows VfsDemo.hist VfsDemo.hsize VfsDemo.good f' (slice_MaxTXID plan) (slice_MaxTXID plan).
Proof.
  destruct (Open VfsDemo.calm (fun _ => VfsDemo.replica) 1 4096 (fun _ => None) (VfsDemo.file_with 0 0 ∅ 0 LockNone 0)) as [[f' r]|] eqn:EO;
    [|vm_compute in EO; discriminate].
  assert (r = Ok ()) as -> by (assert (Some r = snd <$> Some (f', r)) as HX by reflexivity; rewrite <- EO in HX; vm_compute in HX; congruence).
  destruct (CalcRestorePlan VfsDemo.replica 0 0) as [plan|er|st] eqn:EP; [|vm_compute in EP; discriminate..].
  exists f', plan. split; [reflexivity|]. split; [reflexivity|].
  apply (@Open_follows Lru.lru Lru.lru_laws Mem.client Mem.client_ops Mem.client_laws DemoFormat.format
    VfsDemo.hist VfsDemo.hsize VfsDemo.good VfsDemo.hist_size VfsDemo.hsize_pos eq_refl VfsDemo.good_files last_slice last_slice_laws
    demo_snapshot_full VfsDemo.calm VfsDemo.replica 1 4096 (fun _ => None) (VfsDemo.file_with 0 0 ∅ 0 LockNone 0) f' plan).
  - reflexivity.
  - exact EP.
  - vm_compute in EP. injection EP as <-. vm_compute. split; [discriminate|]. split; [discriminate|exact I].
  - vm_compute in EP. injection EP as <-. vm_compute. reflexivity.
  - apply Nat.lt_0_1.
  - discriminate.
  - reflexivity.
  - reflexivity.
  - exact EO.
Defined.

(** ** Runs that the theorems above exclude *)
Module Anomalies.
Import VfsDemo.

(** The file that [rebuildIndex] makes of the restore plan of a replica. *)
Definition opened (cl : Mem.client) : VFSFile :=
  match CalcRestorePlan cl 0 0 with
  | Ok plan => (rebuildIndex cl (file_with 0 0 ∅ 0 LockNone 8) plan None).1
  | _ => file_with 0 0 ∅ 0 LockNone 8
  end.

Definition poll (cl : Mem.client) (f : VFSFile) : VFSFile := (pollReplicaClient calm cl id f).1.
Definition read_result (cl : Mem.client) (f : VFSFile) (off : Z) : result (Z * list byte) :=
  (ReadAt calm (fun _ => cl) (fun _ => id) f (repeat x00 2) off).2.

Definition lagging0 : Mem.client :=
  Mem.mkClient [obj 1 1 1 2 [pg 1 x0a; pg 2 x0b]; obj 0 2 2 2 [pg 1 x0c]; obj 0 3 3 2 [pg 1 x0d]] eq_refl.
Definition lagging : Mem.client :=
  Mem.mkClient [obj 1 1 1 2 [pg 1 x0a; pg 2 x0b]; obj 0 2 2 2 [pg 1 x0c]; obj 1 2 2 2 [pg 1 x0c]; obj 0 3 3 2 [pg 1 x0d]] eq_refl.

(** A level 1 file that lags behind level 0 rolls back pages: after the poll that
    finds it, the file is at transaction 3 and reads page 1 of transaction 2. *)
Theorem stale_after_compaction :
  rv_pos (vf_view (opened lagging0)) = 3 /\ read_result lagging0 (opened lagging0) 4 = Ok (2, repeat x0d 2) /\
  rv_pos (vf_view (poll lagging (opened lagging0))) = 3 /\ read_result lagging (poll lagging (opened lagging0)) 4 = Ok (2, repeat x0c 2).
Proof. vm_compute. repeat split. Qed.

Definition level0 (n : nat) : list Mem.object :=
  take n [obj 0 1 1 2 [pg 1 x0a; pg 2 x0b]; obj 0 2 2 2 [pg 1 x0c]; obj 0 3 3 2 [pg 1 x0d]].
Definition before_compaction : Mem.client := Mem.mkClient (level0 2) eq_refl.
Definition third_added : Mem.client := Mem.mkClient (level0 3) eq_refl.
Definition after_compaction : Mem.client :=
  Mem.mkClient (level0 1 ++ [obj 1 1 3 2 [pg 1 x0d; pg 2 x0b]] ++ drop 1 (level0 3) ++
    [obj 0 4 4 2 [pg 2 x0e]; obj 1 4 4 2 [pg 2 x0e]]) eq_refl.

(** A file opened before the first compaction: the position of level 1 is seeded in
    the middle of the first level 1 file, the next one never follows it, and no poll
    succeeds any more although level 0 is complete. *)
Theorem poll_blocked_by_level1 :
  let f := poll third_added (opened before_compaction) in
  rv_pos (vf_view f) = 3 /\ rv_maxTXID1 (vf_view f) = 2 /\
  pollReplicaClient calm after_compaction id f = (f, Err (EWrap "poll L1" (EMsg "non-contiguous ltx file"))).
Proof. vm_compute. repeat split. Qed.

Definition large : Mem.client := Mem.mkClient [obj 0 1 1 3 [pg 1 x0a; pg 2 x0b; pg 3 x0c]] eq_refl.
Definition shrunk : Mem.client := Mem.mkClient [obj 0 1 1 3 [pg 1 x0a; pg 2 x0b; pg 3 x0c]; obj 0 2 2 2 [pg 1 x0d]] eq_refl.

(** A poll that sees the database shrink drops the index entries of every page that
    the new file does not hold: page 2 cannot be read any more. *)
Theorem shrink_drops_pages :
  read_result large (opened large) 8 = Ok (2, repeat x0b 2) /\
  rv_commit (vf_view (poll shrunk (opened large))) = 2 /\
  read_result shrunk (poll shrunk (opened large)) 8 = Err (EMsg "page not found").
Proof. vm_compute. repeat split. Qed.

(** A file opened after the database shrank keeps the dropped pages in its index and
    reports the old size. *)
Theorem size_after_shrink :
  rv_commit (vf_view (opened shrunk)) = 2 /\ FileSize (opened shrunk) = Ok 24.
Proof. vm_compute. repeat split. Qed.

Definition hydrated1 : VFSFile :=
  set_hydrator (Some (mkHydrator false (repeat x0a 8 ++ repeat x0b 8) true 1 None 8)) (file1 LockShared).

(** With hydration a poll changes what a reader under a SHARED lock sees. *)
Theorem hydration_not_isolated :
  read_result replica hydrated1 4 = Ok (2, repeat x0a 2) /\
  read_result replica (poll replica hydrated1) 4 = Ok (2, repeat x0c 2).
Proof. vm_compute. repeat split. Qed.
End Anomalies.
