(* ===== verification/VfsWrite.v ===== *)
(** * The virtual file system: writing

    Model of the write side of [VFSFile] in src/vfs.go: page writes into the buffer
    file, truncation, the upload of the dirty pages as one LTX file, conflict
    detection, enabling and disabling writes at run time, and [Close]. *)

From Stdlib Require Import ZArith Lia Strings.Byte.
From stdpp Require Import base numbers list strings gmap sorting.
From S2P Require Import Prelude Ltx RestorePlan Db PageIndex Vfs.
Local Open Scope Z_scope.

Definition set_buffer (b : option (list byte)) (next : Z) (dirty : gmap Z Z) (w : write_state) : write_state :=
  mkWrite (ws_writeEnabled w) dirty (ws_pendingTXID w) (ws_expectedTXID w) b next (ws_inTransaction w) (ws_disabling w).

Definition set_disabling (b : bool) (w : write_state) : write_state :=
  mkWrite (ws_writeEnabled w) (ws_dirty w) (ws_pendingTXID w) (ws_expectedTXID w) (ws_bufferFile w) (ws_bufferNextOff w)
    (ws_inTransaction w) b.

Definition set_writeEnabled (b : bool) (w : write_state) : write_state :=
  mkWrite b (ws_dirty w) (ws_pendingTXID w) (ws_expectedTXID w) (ws_bufferFile w) (ws_bufferNextOff w)
    (ws_inTransaction w) (ws_disabling w).

Section Write.
Context `{PC : PageCache}.
Variable LockPgno : Z -> Z.

(** ** The buffer file *)

Definition writeToBuffer (e : venv) (f : VFSFile) (pgno : Z) (data : page) : VFSFile * result () :=
  let w := vf_write f in
  let '(writeOffset, next) :=
    match ws_dirty w !! pgno with
    | Some existingOff => (existingOff, ws_bufferNextOff w)
    | None => (ws_bufferNextOff w, ws_bufferNextOff w + Z.of_nat (length data))
    end in
  let failed err := (set_write (set_buffer (ws_bufferFile w) next (ws_dirty w) w) f, Err (EWrap "write page to buffer" err)) in
  match ws_bufferFile w with
  | None => failed ErrInvalid
  | Some b =>
      match vio e (BufferWrite pgno) with
      | Ok _ => (set_write (set_buffer (Some (file_writeAt b data writeOffset)) next (<[pgno := writeOffset]> (ws_dirty w)) w) f, Ok ())
      | Err err => failed err
      | Panic s => (f, Panic s)
      end
  end.

Definition clearWriteBuffer (e : venv) (f : VFSFile) : VFSFile * result () :=
  let w := vf_write f in
  match ws_bufferFile w with
  | None => (f, Err (EWrap "truncate buffer" ErrInvalid))
  | Some b =>
      match vio e BufferTruncate with
      | Ok _ => (set_write (set_buffer (Some []) 0 (ws_dirty w) w) f, Ok ())
      | Err err => (f, Err (EWrap "truncate buffer" err))
      | Panic s => (f, Panic s)
      end
  end.

Section Client.
Context {C : Type} `{RC : ReplicaClient C} `{LF : LTXFormat}.

(** ** Page writes *)

(** The page before the write; on an error the caller's buffer keeps its zeros. *)
Definition readPageForWrite (client : C) (f : VFSFile) (pgno pageSize : Z) : VFSFile * result page :=
  let buf := replicate (Z.to_nat pageSize) x00 in
  let '(c, hit) := cache_Get (vf_cache f) pgno in
  let f := set_cache c f in
  match hit with
  | Some data => (f, Ok (copy_into buf data))
  | None =>
      match vf_index f !! pgno with
      | None => (f, Err (EMsg "page not found"))
      | Some elem =>
          match fetch_elem client elem with
          | Err err => (f, Err err)
          | Panic s => (f, Panic s)
          | Ok (_, data) =>
              if negb (u32 (Z.of_nat (length data)) =? pageSize) then (f, Err (EMsg "page size mismatch"))
              else (set_cache (cache_Add (vf_cache f) pgno data) f, Ok (copy_into buf data))
          end
      end
  end.

(** [copy(page[pageOffset:], b)]. *)
Definition overlay (page_ : page) (pageOffset : Z) (b : list byte) : page :=
  take (Z.to_nat pageOffset) page_ ++ copy_into (drop (Z.to_nat pageOffset) page_) b.

Definition base_page (e : venv) (client : C) (f : VFSFile) (pgno pageSize : Z) : VFSFile * result page :=
  match ws_dirty (vf_write f) !! pgno with
  | Some bufferOff => (f, buffer_read e f pgno bufferOff wrapping "read dirty page from buffer")
  | None =>
      match readPageForWrite client f pgno pageSize with
      | (f, Err _) => (f, Ok (replicate (Z.to_nat pageSize) x00))
      | (f, r) => (f, r)
      end
  end.

Definition WriteAt (e : venv) (client : C) (f : VFSFile) (b : list byte) (off : Z) : VFSFile * result Z :=
  match pageSizeBytes f with
  | Err err => (f, Err err)
  | Panic s => (f, Panic s)
  | Ok pageSize =>
      let pgno := page_number off pageSize in
      let pageOffset := off mod pageSize in
      if pgno =? LockPgno pageSize then (f, Err (EMsg "cannot write to lock page"))
      else if negb (ws_writeEnabled (vf_write f)) then (f, Err ReadOnlyError)
      else
        match base_page e client f pgno pageSize with
        | (f, Err err) => (f, Err err)
        | (f, Panic s) => (f, Panic s)
        | (f, Ok page_) =>
            let f := if rv_commit (vf_view f) <? pgno then set_view (set_commit pgno (vf_view f)) f else f in
            match writeToBuffer e f pgno (overlay page_ pageOffset b) with
            | (f, Ok _) => (f, Ok (copied (drop (Z.to_nat pageOffset) page_) b))
            | (f, Err err) => (f, Err (EWrap "write to buffer" err))
            | (f, Panic s) => (f, Panic s)
            end
        end
  end.

Definition Truncate (e : venv) (f : VFSFile) (size : Z) : VFSFile * result () :=
  match pageSizeBytes f with
  | Err err => (f, Err err)
  | Panic s => (f, Panic s)
  | Ok pageSize =>
      let newCommit := u32 (size / pageSize) in
      let w := vf_write f in
      if negb (ws_writeEnabled w) then (f, Err ReadOnlyError)
      else
        let f := set_view (set_commit newCommit (vf_view f))
                   (set_write (set_buffer (ws_bufferFile w) (ws_bufferNextOff w)
                      (filter (fun kv => kv.1 <= newCommit) (ws_dirty w)) w) f) in
        (match hydrated f with Some h => set_hydrator (Some (hydrator_Truncate e h size).1) f | None => f end, Ok ())
  end.

(** ** Upload *)

Definition checkForConflict (client : C) (f : VFSFile) : result () :=
  itr ← LTXFiles client 0 (ws_expectedTXID (vf_write f)) false wrapping "check remote position";
  let remoteTXID := foldl (fun m info => if m <? MaxTXID info then MaxTXID info else m) 0 (itr_items itr) in
  match itr_Close itr with
  | Some err => Err (EWrap "iterate remote files" err)
  | None =>
      if ws_expectedTXID (vf_write f) <? remoteTXID then Err (EWrap "conflict" ErrConflict) else Ok ()
  end.

(** The dirty pages by page number. *)
Definition sorted_dirty (f : VFSFile) : list (Z * Z) := merge_sort pgno_le (map_to_list (ws_dirty (vf_write f))).

Fixpoint dirty_pages (e : venv) (f : VFSFile) (l : list (Z * Z)) : result (list (Z * page)) :=
  match l with
  | [] => Ok []
  | (pgno, bufferOff) :: l =>
      if pgno =? LockPgno (vf_pageSize f) then dirty_pages e f l
      else
        data ← buffer_read e f pgno bufferOff wrapping "read page from buffer";
        rest ← dirty_pages e f l;
        Ok ((pgno, data) :: rest)
  end.

(** The LTX file of the dirty pages, without its timestamp. *)
Definition dirty_ltx (f : VFSFile) (pages : list (Z * page)) : ltxFile :=
  let w := vf_write f in
  mkLTX (vf_pageSize f) (rv_commit (vf_view f)) (ws_pendingTXID w) (ws_pendingTXID w) 0 0 0 0 pages.

(** What the encoder of the ltx package refuses, and the bytes that are in the pipe
    when it stops early. *)
Variable encoder_refuses : ltxFile -> option error.
Variable partial : VFSFile -> list byte.

Definition createLTXFromDirty (e : venv) (f : VFSFile) : Reader :=
  match dirty_pages e f (sorted_dirty f) with
  | Ok pages =>
      match encoder_refuses (dirty_ltx f pages) with
      | None => mkReader (EncodeLTX (dirty_ltx f pages)) None
      | Some err => mkReader (partial f) (Some err)
      end
  | Err err => mkReader (partial f) (Some err)
  | Panic s => mkReader (partial f) (Some (EMsg s))
  end.

(** The synced pages go to the cache, up to the first that cannot be read. *)
Fixpoint cache_synced (e : venv) (f : VFSFile) (l : list (Z * Z)) : VFSFile * result () :=
  match l with
  | [] => (f, Ok ())
  | (pgno, bufferOff) :: l =>
      match buffer_read e f pgno bufferOff with
      | Ok data => cache_synced e (set_cache (cache_Add (vf_cache f) pgno data) f) l
      | Err err => (f, Err (EWrap "read page from buffer for cache" err))
      | Panic s => (f, Panic s)
      end
  end.

Fixpoint applySynced_loop (e : venv) (f : VFSFile) (h : Hydrator) (l : list (Z * Z)) : Hydrator * result () :=
  match l with
  | [] => (SetTXID (ws_expectedTXID (vf_write f)) h, Ok ())
  | (pgno, bufferOff) :: l =>
      match buffer_read e f pgno bufferOff with
      | Err err => (h, Err (EWrap "read dirty page from buffer" err))
      | Panic s => (h, Panic s)
      | Ok data =>
          match WritePage e h pgno data with
          | (h, Ok _) => applySynced_loop e f h l
          | (h, r) => (h, r)
          end
      end
  end.

Definition applySyncedPagesToHydratedFile (e : venv) (f : VFSFile) (h : Hydrator) : Hydrator * result () :=
  applySynced_loop e f h (map_to_list (ws_dirty (vf_write f))).

(** After the upload: positions, cache, hydrated file, dirty pages and buffer. *)
Definition sync_finish (e : venv) (vs : VFS) (f : VFSFile) : VFS * VFSFile * result () :=
  let w := vf_write f in
  let t := ws_pendingTXID w in
  let f := set_view (set_pos t (vf_view f)) (set_write (set_txids t (txid_succ t) w) f) in
  let vs := if vs_lastSyncedTXID vs <? t then mkVFS (vs_writeFile vs) t else vs in
  match cache_synced e f (map_to_list (ws_dirty w)) with
  | (f, Ok _) =>
      let f := match hydrated f with
               | Some h => set_hydrator (Some (applySyncedPagesToHydratedFile e f h).1) f
               | None => f
               end in
      let w := vf_write f in
      let f := set_write (set_buffer (ws_bufferFile w) (ws_bufferNextOff w) ∅ w) f in
      match clearWriteBuffer e f with
      | (f, Ok _) => (vs, f, Ok ())
      | (f, Err err) => (vs, f, Err (EWrap "clear write buffer" err))
      | (f, Panic s) => (vs, f, Panic s)
      end
  | (f, r) => (vs, f, r)
  end.

Definition syncToRemoteWithLock (e : venv) (client : C) (vs : VFS) (f : VFSFile) : C * VFS * VFSFile * result () :=
  if bool_decide (ws_dirty (vf_write f) = ∅) then (client, vs, f, Ok ())
  else
    match checkForConflict client f with
    | Err err => (client, vs, f, Err err)
    | Panic s => (client, vs, f, Panic s)
    | Ok _ =>
        let t := ws_pendingTXID (vf_write f) in
        match WriteLTXFile client 0 t t (createLTXFromDirty e f) with
        | (client, Err err) => (client, vs, f, Err (EWrap "upload LTX" err))
        | (client, Panic s) => (client, vs, f, Panic s)
        | (client, Ok info) =>
            let '(vs, f, r) := sync_finish e vs f in (client, vs, f, r)
        end
    end.

Definition Sync (e : venv) (client : C) (vs : VFS) (f : VFSFile) : C * VFS * VFSFile * result () :=
  let w := vf_write f in
  if negb (ws_writeEnabled w) || bool_decide (ws_dirty w = ∅) || ws_inTransaction w then (client, vs, f, Ok ())
  else syncToRemoteWithLock e client vs f.

(** ** Enabling and disabling writes *)

(** [SetWriteEnabled(true)].  A file that has no buffer file opens the path for enabled files of its VFS; what that does to
    the other files that have it open is [enable_opens] and [put] below. *)
Definition EnableWrites (e : venv) (f : VFSFile) : VFSFile * result () :=
  let w := vf_write f in
  if ws_writeEnabled w then (f, Ok ())
  else
    let '(w1, r) := match ws_bufferFile w with
                    | Some _ => (w, Ok ())
                    | None => match vio e BufferTempDir with
                              | Ok _ => match initWriteBuffer e w with
                                        | (w, Err err) => (w, Err (EWrap "init write buffer" err))
                                        | x => x
                                        end
                              | Err err => (w, Err (EWrap "create temp dir for write buffer" err))
                              | Panic s => (w, Panic s)
                              end
                    end in
    match r with
    | Ok _ =>
        let pos := rv_pos (vf_view f) in
        let w2 := if ws_pendingTXID w1 =? 0 then set_txids pos (txid_succ pos) w1 else w1 in
        (set_write (set_writeEnabled true w2) f, Ok ())
    | Err err => (f, Err err)
    | Panic s => (f, Panic s)
    end.

(** Disabling first raises the flag that holds back new transactions, then waits for
    the current one. *)
Definition DisableBegin (f : VFSFile) : VFSFile :=
  if ws_writeEnabled (vf_write f) then set_write (set_disabling true (vf_write f)) f else f.

(** One turn of the wait loop; [None]: wait again. *)
Definition DisableResume (e : venv) (cancelled timedOut : bool) (client : C) (vs : VFS) (f : VFSFile)
    : option (C * VFS * VFSFile * result ()) :=
  let w := vf_write f in
  if ws_inTransaction w then
    if cancelled then
      Some (client, vs, set_write (set_disabling false w) f, Err (EWrap "context cancelled while waiting for transaction" ErrCanceled))
    else if timedOut then Some (client, vs, set_write (set_disabling false w) f, Err (EMsg "timeout waiting for transaction to complete"))
    else None
  else
    match syncToRemoteWithLock e client vs f with
    | (client, vs, f, Ok _) =>
        Some (client, vs, set_write (set_disabling false (set_writeEnabled false (vf_write f))) f, Ok ())
    | (client, vs, f, Err err) =>
        Some (client, vs, set_write (set_disabling false (vf_write f)) f, Err (EWrap "sync before disable" err))
    | (client, vs, f, Panic s) => Some (client, vs, f, Panic s)
    end.

(** [Close]: a last upload, whose failure is only logged, and the release of the write
    slot; the buffer file is removed. *)
Definition close_sync (e : venv) (client : C) (vs : VFS) (f : VFSFile) : C * VFS * VFSFile :=
  if ws_writeEnabled (vf_write f) && negb (bool_decide (ws_dirty (vf_write f) = ∅))
  then let '(client, vs, f, _) := syncToRemoteWithLock e client vs f in (client, vs, f)
  else (client, vs, f).
Definition VFSFile_Close (e : venv) (client : C) (id : nat) (vs : VFS) (f : VFSFile) : C * VFS * VFSFile :=
  let '(client, vs, f) := close_sync e client vs f in
  let w := vf_write f in
  (client, if ws_writeEnabled w then release_writer id vs else vs, set_write (set_buffer None (ws_bufferNextOff w) (ws_dirty w) w) f).
End Client.
End Write.

(** ** Files written at an offset *)

Lemma length_writeAt b data off : 0 <= off ->
  Z.of_nat (length (file_writeAt b data off)) = Z.max (Z.of_nat (length b)) (off + Z.of_nat (length data)).
Proof. intros. unfold file_writeAt. rewrite !length_app, length_take, length_replicate, length_drop. lia. Qed.

Lemma slice_writeAt_same b data off : 0 <= off -> slice (file_writeAt b data off) off (Z.of_nat (length data)) = data.
Proof.
  intros Ho. unfold slice, file_writeAt. rewrite app_assoc, drop_app_ge by (rewrite length_app, length_take, length_replicate; lia).
  rewrite length_app, length_take, length_replicate. replace (_ - _)%nat with 0%nat by lia. rewrite drop_0.
  rewrite take_app_le by lia. by rewrite take_ge by lia.
Qed.

Lemma slice_writeAt_other b data off o n :
  0 <= o -> 0 <= n -> 0 <= off -> o + n <= Z.of_nat (length b) -> o + n <= off \/ off + Z.of_nat (length data) <= o ->
  slice (file_writeAt b data off) o n = slice b o n.
Proof.
  intros Ho Hn Hoff Hb [Hl|Hr]; unfold slice, file_writeAt.
  - rewrite drop_app_le by (rewrite length_take; lia). rewrite take_app_le by (rewrite length_drop, length_take; lia).
    rewrite skipn_firstn_comm, take_take. f_equal. lia.
  - rewrite !app_assoc. rewrite drop_app_ge by (rewrite !length_app, length_take, length_replicate; lia).
    rewrite !length_app, length_take, length_replicate, drop_drop. do 2 f_equal. lia.
Qed.

(** ** The write buffer *)
Section Buffer.
Context `{PCL : PageCacheLaws} {C : Type} `{RCL : ReplicaClientLaws C} `{LF : LTXFormat}.
Variable LockPgno : Z -> Z.

(** Every dirty page has a slot of its own in the buffer file. *)
Record buffer_ok (f : VFSFile) : Prop := {
  bo_pageSize : 0 < vf_pageSize f;
  bo_next : 0 <= ws_bufferNextOff (vf_write f);
  bo_slot p o : ws_dirty (vf_write f) !! p = Some o ->
    0 <= o /\ o + vf_pageSize f <= ws_bufferNextOff (vf_write f) /\
    exists b, ws_bufferFile (vf_write f) = Some b /\ o + vf_pageSize f <= Z.of_nat (length b);
  bo_disjoint p q o o' : ws_dirty (vf_write f) !! p = Some o -> ws_dirty (vf_write f) !! q = Some o' -> p <> q ->
    o + vf_pageSize f <= o' \/ o' + vf_pageSize f <= o
}.

(** A dirty page, as it is in the buffer file. *)
Definition dirty_page (f : VFSFile) (p : Z) : option page :=
  match ws_dirty (vf_write f) !! p, ws_bufferFile (vf_write f) with
  | Some o, Some b => Some (slice b o (vf_pageSize f))
  | _, _ => None
  end.

Lemma buffer_read_ok e f p o data : buffer_ok f -> ws_dirty (vf_write f) !! p = Some o ->
  buffer_read e f p o = Ok data -> dirty_page f p = Some data /\ Z.of_nat (length data) = vf_pageSize f.
Proof.
  intros Hb Ho. destruct (bo_slot _ Hb _ _ Ho) as (H1 & H2 & b & Hbf & Hlen). pose proof (bo_pageSize _ Hb).
  unfold buffer_read, dirty_page. rewrite Ho, Hbf. unfold vio. destruct (v_fault e _); [done|]. cbn [mbind result_bind].
  unfold file_readAt. case_if; [done|]. intros [= <-]. split; [done|]. unfold slice. rewrite length_take, length_drop. lia.
Qed.

Lemma buffer_read_total e f p o : buffer_ok f -> ws_dirty (vf_write f) !! p = Some o ->
  v_fault e (BufferRead p) = None -> exists data, buffer_read e f p o = Ok data /\ dirty_page f p = Some data.
Proof.
  intros Hb Ho He. destruct (bo_slot _ Hb _ _ Ho) as (H1 & H2 & b & Hbf & Hlen). pose proof (bo_pageSize _ Hb).
  unfold buffer_read, dirty_page. rewrite Ho, Hbf. unfold vio. rewrite He. cbn [mbind result_bind].
  unfold file_readAt. case_if; [breflect|by eexists]. unfold slice in *. rewrite length_take, length_drop in *. lia.
Qed.

Lemma writeToBuffer_spec e f p data f' r :
  buffer_ok f -> Z.of_nat (length data) = vf_pageSize f -> writeToBuffer e f p data = (f', r) ->
  buffer_ok f' /\ vf_pageSize f' = vf_pageSize f /\ vf_view f' = vf_view f /\ vf_cache f' = vf_cache f /\
  vf_hydrator f' = vf_hydrator f /\ vf_lockType f' = vf_lockType f /\ ws_writeEnabled (vf_write f') = ws_writeEnabled (vf_write f) /\
  (is_ok r = false -> forall q, dirty_page f' q = dirty_page f q) /\
  (is_ok r = true -> forall q, dirty_page f' q = if q =? p then Some data else dirty_page f q).
Proof.
  intros Hb Hlen. pose proof (bo_pageSize _ Hb) as Hps. pose proof (bo_next _ Hb) as Hnx. unfold writeToBuffer.
  destruct (match ws_dirty (vf_write f) !! p with Some _ => _ | None => _ end) as [wo next] eqn:Ewo.
  assert (0 <= wo /\ wo + vf_pageSize f <= next /\ ws_bufferNextOff (vf_write f) <= next /\
    forall q o, ws_dirty (vf_write f) !! q = Some o -> q <> p -> wo + vf_pageSize f <= o \/ o + vf_pageSize f <= wo) as (Hw1 & Hw2 & Hw3 & Hw4).
  { destruct (ws_dirty (vf_write f) !! p) as [o|] eqn:Ep; injection Ewo as <- <-.
    - destruct (bo_slot _ Hb _ _ Ep) as (? & ? & _). split_and!; [lia..|]. intros q o' Hq Hne. by apply (bo_disjoint _ Hb p q o o').
    - split_and!; [lia..|]. intros q o Hq _. destruct (bo_slot _ Hb _ _ Hq) as (? & ? & _). right. lia. }
  assert (buffer_ok (set_write (set_buffer (ws_bufferFile (vf_write f)) next (ws_dirty (vf_write f)) (vf_write f)) f)) as Hfail.
  { destruct Hb as [B1 B2 B3 B4]. split; cbn; [done|lia| |done]. intros q o Hq. destruct (B3 q o Hq) as (? & ? & ?). split_and!; [done|lia|done]. }
  destruct (ws_bufferFile (vf_write f)) as [b|] eqn:Ebf.
  2:{ intros [= <- <-]. split_and!; try done. intros _ q. unfold dirty_page. cbn. by rewrite Ebf. }
  destruct (vio e (BufferWrite p)) as [u|err|m] eqn:Ev.
  2:{ intros [= <- <-]. split_and!; try done. intros _ q. unfold dirty_page. cbn. by rewrite Ebf. }
  2:{ intros [= <- <-]. by split_and!. }
  intros [= <- <-]. split_and!; try done.
  - split; cbn; [done|lia| |].
    + intros q o. rewrite lookup_insert. pose proof (length_writeAt b data wo Hw1).
      destruct (decide (p = q)) as [<-|Hne]; [intros [= <-]; split_and!; [lia..|]; eexists; split; [done|]; lia|].
      intros Hq. destruct (bo_slot _ Hb _ _ Hq) as (? & ? & b' & Hbf & ?). split_and!; [lia..|].
      eexists. split; [done|]. rewrite Ebf in Hbf. injection Hbf as <-. lia.
    + intros q q' o o'. rewrite !lookup_insert. destruct (decide (p = q)) as [<-|Hq], (decide (p = q')) as [<-|Hq']; [done|..].
      * intros [= <-] Ho' _. by apply (Hw4 q').
      * intros Ho [= <-] _. destruct (Hw4 q o Ho ltac:(done)); [by right|by left].
      * apply (bo_disjoint _ Hb).
  - intros _ q. unfold dirty_page. cbn. rewrite lookup_insert, Ebf. destruct (decide (p = q)) as [<-|Hne].
    + rewrite Z.eqb_refl, <- Hlen, slice_writeAt_same by done. done.
    + destruct (Z.eqb_spec q p); [done|]. destruct (ws_dirty (vf_write f) !! q) as [o|] eqn:Eq; [|done].
      destruct (bo_slot _ Hb _ _ Eq) as (? & ? & b' & Hbf & ?). rewrite Ebf in Hbf. injection Hbf as <-.
      rewrite slice_writeAt_other; [done|lia..|]. destruct (Hw4 q o Eq ltac:(done)); [right|left]; lia.
Qed.

(** ** The local view *)

Variable hist : TXID -> Z -> option page.
Variable good : C -> Prop.

(** A page of the file: the dirty page, or the page of the snapshot. *)
Definition local_page (f : VFSFile) (s : TXID) (p : Z) : option page :=
  match dirty_page f p with Some d => Some d | None => hist s p end.

Definition zero_page (f : VFSFile) : page := replicate (Z.to_nat (vf_pageSize f)) x00.

Lemma copy_into_same (p data : list byte) : length p = length data -> copy_into p data = data.
Proof. intros E. unfold copy_into. rewrite take_ge, drop_ge by lia. apply app_nil_r. Qed.

Lemma buffer_ok_cache f c : buffer_ok f -> buffer_ok (set_cache c f).
Proof. intros [B1 B2 B3 B4]. by split. Qed.

Lemma buffer_ok_view f v : buffer_ok f -> buffer_ok (set_view v f).
Proof. intros [B1 B2 B3 B4]. by split. Qed.

Variable pageSize : Z.
Hypothesis hist_length : forall s p data, hist s p = Some data -> Z.of_nat (length data) = pageSize.
Hypothesis pageSize_u32 : pageSize < 2 ^ 32.

(** The page a write starts from. *)
Lemma base_page_spec e cl f s p f' base :
  good cl -> snapshot hist good f s -> buffer_ok f -> vf_pageSize f = pageSize ->
  base_page e cl f p (vf_pageSize f) = (f', Ok base) ->
  snapshot hist good f' s /\ vf_write f' = vf_write f /\ vf_view f' = vf_view f /\ vf_pageSize f' = vf_pageSize f /\
  vf_lockType f' = vf_lockType f /\ Z.of_nat (length base) = vf_pageSize f /\
  (base = default (zero_page f) (local_page f s p) \/
   base = zero_page f /\ exists elem err, vf_index f !! p = Some elem /\ fetch_elem cl elem = Err err).
Proof.
  intros Hg Hs Hb Hps. pose proof (bo_pageSize _ Hb). unfold base_page, local_page.
  destruct (ws_dirty (vf_write f) !! p) as [o|] eqn:Eo.
  { destruct (buffer_read e f p o) as [data|err|m] eqn:Er; cbn [wrap_err]; [|done..]. intros [= <- <-].
    destruct (buffer_read_ok e f p o data Hb Eo Er) as [-> ?]. split_and!; try done. by left. }
  assert (dirty_page f p = None) as -> by (unfold dirty_page; by rewrite Eo).
  unfold readPageForWrite. destruct (cache_Get (vf_cache f) p) as [c hit] eqn:EG.
  assert (hit = cached (vf_cache f) p) as -> by (by rewrite <- (cached_Get (vf_cache f) p), EG).
  assert (forall q d, cached c q = Some d -> hist s q = Some d) as HC.
  { intros q d Hq. apply (sn_cache _ _ _ _ Hs). rewrite <- (cached_Get_same (vf_cache f) p), EG. done. }
  pose proof (snapshot_cache _ _ f s c Hs HC) as Hs1. pose proof (length_replicate (Z.to_nat (vf_pageSize f)) x00) as Hz.
  destruct (cached (vf_cache f) p) as [data|] eqn:EC.
  { intros [= <- <-]. apply (sn_cache _ _ _ _ Hs) in EC. pose proof (hist_length s p data EC) as Hl.
    rewrite copy_into_same by lia. split_and!; try done; [lia|]. left. by rewrite EC. }
  change (vf_index (set_cache c f)) with (vf_index f). pose proof (sn_index _ _ _ _ Hs p) as Hi.
  destruct (hist s p) as [data|] eqn:Eh.
  - destruct Hi as (elem & -> & Hsh). destruct (fetch_elem cl elem) as [[q d]|err|m] eqn:EF; [| |done].
    + rewrite (Hsh cl q d Hg EF). pose proof (hist_length s p data Eh) as Hl. 
      replace (u32 (Z.of_nat (length data)) =? vf_pageSize f) with true by (rewrite u32_small by lia; symmetry; apply Z.eqb_eq; lia). cbn [negb].
      intros [= <- <-]. rewrite copy_into_same by lia. split_and!; try done; [|lia|by left].
      apply snapshot_cache; [done|]. intros q' d' Hq. destruct (decide (q' = p)) as [->|Hne].
      { rewrite cached_Add in Hq. congruence. }
      destruct (cached_Add_other c p data q' Hne) as [Hc|Hc]; rewrite Hc in Hq; [by apply HC|done].
    + intros [= <- <-]. split_and!; try done; [lia|]. right. split; [done|]. by exists elem, err.
  - rewrite Hi. intros [= <- <-]. split_and!; try done; [lia|by left].
Qed.

Lemma length_overlay (base b : list byte) o : length (overlay base o b) = length base.
Proof. unfold overlay. rewrite length_app, length_copy_into, length_take, length_drop. lia. Qed.

(** The effect of a page write on the local view. *)
Lemma WriteAt_spec e cl f s b off f' n :
  good cl -> snapshot hist good f s -> buffer_ok f -> vf_pageSize f = pageSize ->
  WriteAt LockPgno e cl f b off = (f', Ok n) ->
  let pgno := page_number off (vf_pageSize f) in
  snapshot hist good f' s /\ buffer_ok f' /\ vf_pageSize f' = vf_pageSize f /\ vf_lockType f' = vf_lockType f /\
  ws_writeEnabled (vf_write f') = true /\ rv_commit (vf_view f') = Z.max (rv_commit (vf_view f)) pgno /\
  exists base,
    (base = default (zero_page f) (local_page f s pgno) \/
     base = zero_page f /\ exists elem err, vf_index f !! pgno = Some elem /\ fetch_elem cl elem = Err err) /\
    forall q, local_page f' s q = if q =? pgno then Some (overlay base (off mod vf_pageSize f) b) else local_page f s q.
Proof.
  intros Hg Hs Hb Hps. pose proof (bo_pageSize _ Hb) as Hpos. unfold WriteAt, pageSizeBytes.
  destruct (Z.eqb_spec (vf_pageSize f) 0); [done|]. set (pgno := page_number off (vf_pageSize f)). cbv zeta.
  case_if; [done|]. destruct (ws_writeEnabled (vf_write f)) eqn:Ew; cbn [negb]; [|done].
  destruct (base_page e cl f pgno (vf_pageSize f)) as [f1 [base|err|m]] eqn:EB; [|done..].
  destruct (base_page_spec e cl f s pgno f1 base Hg Hs Hb Hps EB) as (Hs1 & Hw1 & Hv1 & Hp1 & Hl1 & Hlen & Hbase).
  set (f2 := if rv_commit (vf_view f1) <? pgno then _ else f1).
  assert (snapshot hist good f2 s /\ vf_write f2 = vf_write f /\ vf_pageSize f2 = vf_pageSize f /\ vf_lockType f2 = vf_lockType f /\
    rv_commit (vf_view f2) = Z.max (rv_commit (vf_view f)) pgno) as (Hs2 & Hw2 & Hp2 & Hl2 & Hc2).
  { subst f2. rewrite <- Hv1. destruct (Z.ltb_spec (rv_commit (vf_view f1)) pgno); split_and!; try done; cbn; try lia.
    destruct Hs1 as [A B D]. by split. }
  assert (buffer_ok f2) as Hb2.
  { destruct Hb as [B1 B2 B3 B4]. split; rewrite ?Hw2, ?Hp2; done. }
  destruct (writeToBuffer e f2 pgno _) as [f3 [u|err|m]] eqn:EW; [|done..]. intros [= <- <-].
  apply writeToBuffer_spec in EW as (Hb3 & Hp3 & Hv3 & Hc3 & Hh3 & Hl3 & Hw3 & _ & Hd3); [|done|rewrite length_overlay; congruence].
  assert (snapshot hist good f3 s) as Hs3.
  { destruct Hs2 as [A B D]. split; [unfold vf_index in *; by rewrite Hv3|by rewrite Hc3|unfold hydrated in *; by rewrite Hh3]. }
  split_and!; try done; [congruence..|]. exists base. split; [done|]. intros q. unfold local_page. rewrite (Hd3 eq_refl q).
  destruct (q =? pgno); [done|]. unfold dirty_page. by rewrite Hw2, Hp2.
Qed.

Lemma ReadAt_local e clients others f s p off f' n b :
  (forall n, good (clients n)) -> (forall n, quiet_step hist good (others n) s) -> snapshot hist good f s -> buffer_ok f ->
  LockShared <= vf_lockType f -> ws_writeEnabled (vf_write f) = true ->
  ReadAt e clients others f p off = (f', Ok (n, b)) ->
  match local_page f s (page_number off (vf_pageSize f)) with
  | Some data => b = page_bytes e (vf_pageSize f) off p data
  | None => b = replicate (length p) x00
  end.
Proof.
  intros Hg Ho Hs Hb Hl Hw HR. unfold local_page. destruct (ws_dirty (vf_write f) !! page_number off (vf_pageSize f)) as [o|] eqn:Eo.
  - unfold ReadAt, pageSizeBytes in HR. pose proof (bo_pageSize _ Hb). destruct (Z.eqb_spec (vf_pageSize f) 0); [lia|].
    rewrite Hw, Eo in HR. injection HR as _ HR.
    destruct (buffer_read e f _ o) as [data|err|m] eqn:Er; cbn [wrap_err mbind result_bind] in HR; [|done..].
    destruct (buffer_read_ok e f _ o data Hb Eo Er) as [-> _]. by apply deliver_ok in HR as [-> _].
  - assert (dirty_page f (page_number off (vf_pageSize f)) = None) as -> by (unfold dirty_page; by rewrite Eo).
    eapply ReadAt_snapshot in HR as (_ & _ & _ & _ & Hr); [|done..].
    destruct (Hr n b eq_refl) as [(data & -> & ->)|(-> & _ & ->)]; done.
Qed.

(** A write transaction reads its own writes.  After a page write succeeded, a
    read that succeeds returns the page with the written bytes in place when it is of
    the same page, and otherwise what it would have returned before, whatever polls
    run meanwhile.  The page that the write starts from is the page of the file, or
    zeros when there is none; only when the page exists and cannot be fetched the rest
    of it is lost. *)
Theorem write_then_read e cl f s b off f1 n e' clients polls p off' f2 m b' :
  good cl -> snapshot hist good f s -> buffer_ok f -> vf_pageSize f = pageSize -> LockShared <= vf_lockType f ->
  WriteAt LockPgno e cl f b off = (f1, Ok n) ->
  (forall i, good (clients i)) -> ReadAt e' clients (fun i => run_polls (polls i)) f1 p off' = (f2, Ok (m, b')) ->
  exists base,
    (base = default (zero_page f) (local_page f s (page_number off pageSize)) \/
     base = zero_page f /\ exists elem err, vf_index f !! page_number off pageSize = Some elem /\ fetch_elem cl elem = Err err) /\
    (page_number off' pageSize = page_number off pageSize ->
       b' = page_bytes e' pageSize off' p (overlay base (off mod pageSize) b)) /\
    (page_number off' pageSize <> page_number off pageSize ->
       match local_page f s (page_number off' pageSize) with
       | Some data => b' = page_bytes e' pageSize off' p data
       | None => b' = replicate (length p) x00
       end).
Proof.
  intros Hg Hs Hb Hps Hl HW Hgs HR.
  destruct (WriteAt_spec e cl f s b off f1 n Hg Hs Hb Hps HW) as (Hs1 & Hb1 & Hp1 & Hl1 & Hw1 & _ & base & Hbase & Hloc).
  eapply ReadAt_local in HR; [|done|intros i; apply run_polls_quiet|done|done|by rewrite Hl1|done].
  rewrite Hps in *. rewrite Hp1 in HR. exists base. rewrite Hloc in HR.
  split; [done|]. split; intros E; [rewrite E, Z.eqb_refl in HR; done|].
  destruct (Z.eqb_spec (page_number off' pageSize) (page_number off pageSize)); done.
Qed.

(** ** Upload *)

Variable encoder_refuses : ltxFile -> option error.
Variable partial : VFSFile -> list byte.

Lemma sorted_dirty_lookup f p o : In (p, o) (sorted_dirty f) <-> ws_dirty (vf_write f) !! p = Some o.
Proof.
  unfold sorted_dirty. rewrite <- list_elem_of_In. rewrite (merge_sort_Permutation pgno_le). apply elem_of_map_to_list.
Qed.

Lemma dirty_pages_spec e f l pages p :
  buffer_ok f -> (forall q o, In (q, o) l -> ws_dirty (vf_write f) !! q = Some o) -> dirty_pages LockPgno e f l = Ok pages ->
  p <> LockPgno (vf_pageSize f) ->
  lookup_page p pages = if bool_decide (p ∈ l.*1) then dirty_page f p else None.
Proof.
  intros Hb. revert pages. induction l as [|[q o] l IH]; intros pages Hl HD Hp; cbn [dirty_pages] in HD.
  { by injection HD as <-. }
  assert (forall q' o', In (q', o') l -> ws_dirty (vf_write f) !! q' = Some o') as Hl' by (intros; apply Hl; by right).
  rewrite fmap_cons. cbn [fst]. destruct (Z.eqb_spec q (LockPgno (vf_pageSize f))) as [Eq|Eq].
  { rewrite (IH pages Hl' HD Hp). erewrite (bool_decide_ext (p ∈ q :: l.*1)); [done|]. rewrite elem_of_cons. split; [by intros [->|]|by right]. }
  destruct (buffer_read e f q o) as [data|err|m] eqn:Er; cbn [wrap_err mbind result_bind] in HD; [|done..].
  destruct (dirty_pages LockPgno e f l) as [rest|err|m] eqn:Ed; cbn [wrap_err mbind result_bind] in HD; [|done..].
  injection HD as <-. rewrite lookup_page_cons. destruct (Z.eqb_spec q p) as [->|Hne].
  - rewrite bool_decide_eq_true_2 by constructor. by destruct (buffer_read_ok e f p o data Hb (Hl p o ltac:(by left)) Er) as [-> _].
  - rewrite (IH rest Hl' eq_refl Hp). erewrite (bool_decide_ext (p ∈ q :: l.*1)); [done|]. rewrite elem_of_cons. split; [by intros [->|]|by right].
Qed.

Lemma dirty_pages_dirty e f pages p :
  buffer_ok f -> dirty_pages LockPgno e f (sorted_dirty f) = Ok pages -> p <> LockPgno (vf_pageSize f) ->
  lookup_page p pages = dirty_page f p.
Proof.
  intros Hb HD Hp. rewrite (dirty_pages_spec e f _ pages p Hb (fun q o => proj1 (sorted_dirty_lookup f q o)) HD Hp).
  case_bool_decide as Hin; [done|]. unfold dirty_page. destruct (ws_dirty (vf_write f) !! p) as [o|] eqn:Eo; [|done].
  destruct Hin. apply list_elem_of_fmap. exists (p, o). split; [done|]. by apply list_elem_of_In, sorted_dirty_lookup.
Qed.

Lemma cache_synced_spec e f l f' r :
  cache_synced e f l = (f', r) ->
  vf_view f' = vf_view f /\ vf_write f' = vf_write f /\ vf_pageSize f' = vf_pageSize f /\ vf_lockType f' = vf_lockType f /\ vf_hydrator f' = vf_hydrator f.
Proof.
  revert f. induction l as [|[q o] l IH]; intros f; cbn [cache_synced]; [by intros [= <- <-]|].
  destruct (buffer_read e f q o); [|by intros [= <- <-]..]. intros HX. apply IH in HX. done.
Qed.

Lemma sync_finish_spec e vs f vs' f' r :
  sync_finish e vs f = (vs', f', r) ->
  let t := ws_pendingTXID (vf_write f) in
  ws_expectedTXID (vf_write f') = t /\ ws_pendingTXID (vf_write f') = txid_succ t /\ rv_pos (vf_view f') = t /\
  vf_index f' = vf_index f /\ rv_commit (vf_view f') = rv_commit (vf_view f) /\ vf_pageSize f' = vf_pageSize f /\ vf_lockType f' = vf_lockType f /\
  ws_writeEnabled (vf_write f') = ws_writeEnabled (vf_write f) /\ ws_inTransaction (vf_write f') = ws_inTransaction (vf_write f) /\
  ws_disabling (vf_write f') = ws_disabling (vf_write f) /\
  vs_writeFile vs' = vs_writeFile vs /\ vs_lastSyncedTXID vs' = Z.max (vs_lastSyncedTXID vs) t /\
  (ws_dirty (vf_write f') = ∅ \/ ws_dirty (vf_write f') = ws_dirty (vf_write f) /\ ws_bufferFile (vf_write f') = ws_bufferFile (vf_write f) /\ ws_bufferNextOff (vf_write f') = ws_bufferNextOff (vf_write f)) /\
  (0 <= ws_bufferNextOff (vf_write f) -> 0 <= ws_bufferNextOff (vf_write f')) /\
  (is_ok r = true -> ws_dirty (vf_write f') = ∅).
Proof.
  unfold sync_finish. set (f1 := set_view _ _). set (vs1 := if _ : bool then mkVFS _ _ else vs).
  destruct (cache_synced e f1 _) as [f2 r2] eqn:EC. apply cache_synced_spec in EC as (Hv & Hw & Hp & Hl & Hh).
  assert (vs_writeFile vs1 = vs_writeFile vs /\ vs_lastSyncedTXID vs1 = Z.max (vs_lastSyncedTXID vs) (ws_pendingTXID (vf_write f))) as [Hv1 Hv2].
  { unfold vs1. destruct (Z.ltb_spec (vs_lastSyncedTXID vs) (ws_pendingTXID (vf_write f))); split; cbn; try done; lia. }
  unfold vf_index. destruct r2 as [u|err|m].
  - set (f3 := match hydrated f2 with Some _ => _ | None => f2 end).
    assert (vf_view f3 = vf_view f2 /\ vf_write f3 = vf_write f2 /\ vf_pageSize f3 = vf_pageSize f2 /\ vf_lockType f3 = vf_lockType f2) as (E1 & E2 & E3 & E4)
      by (unfold f3; by destruct (hydrated f2)).
    unfold clearWriteBuffer. cbn. rewrite E2, Hw. cbn.
    destruct (ws_bufferFile (vf_write f)) as [b|] eqn:Eb; [destruct (vio e BufferTruncate)|]; intros [= <- <- <-]; cbn;
      rewrite ?E1, ?E2, ?E3, ?E4, ?Hv, ?Hw, ?Hp, ?Hl; cbn; split_and!; try done; by left.
  - intros [= <- <- <-]. rewrite Hv, Hw, Hp, Hl. cbn. split_and!; try done. by right.
  - intros [= <- <- <-]. rewrite Hv, Hw, Hp, Hl. cbn. split_and!; try done. by right.
Qed.

Lemma foldl_max_spec (l : list FileInfo) m x :
  In x l -> MaxTXID x <= foldl (fun m info => if m <? MaxTXID info then MaxTXID info else m) m l.
Proof.
  assert (forall l m, m <= foldl (fun m info => if m <? MaxTXID info then MaxTXID info else m) m l) as Hmono.
  { clear. induction l as [|y l IH]; intros m; simpl; [lia|]. etransitivity; [|apply IH]. case_if; breflect; lia. }
  revert m. induction l as [|y l IH]; intros m; simpl; [done|]. intros [->|Hin]; [|by apply IH].
  etransitivity; [|apply Hmono]. case_if; breflect; lia.
Qed.

(** Conflicts are detected.  When level 0 of the replica has a file past the
    transaction that the writer expects to be the last, an upload of dirty pages
    fails with the conflict error and changes neither the replica nor the file. *)
Theorem sync_conflict e cl vs f info itr :
  ws_dirty (vf_write f) <> ∅ -> In info (level_files cl false 0) ->
  ws_expectedTXID (vf_write f) <= MinTXID info -> ws_expectedTXID (vf_write f) < MaxTXID info ->
  LTXFiles cl 0 (ws_expectedTXID (vf_write f)) false = Ok itr -> itr_Err itr = None ->
  exists err, syncToRemoteWithLock LockPgno encoder_refuses partial e cl vs f = (cl, vs, f, Err err) /\ errors_Is err ErrConflict = true.
Proof.
  intros Hd Hin Hmin Hmax HL HE. unfold syncToRemoteWithLock. rewrite bool_decide_eq_false_2 by done.
  unfold checkForConflict. rewrite HL. cbn [mbind result_bind wrap_err]. rewrite (LTXFiles_close _ _ _ _ _ HL), HE.
  assert (In info (itr_items itr)) as Hi.
  { rewrite (LTXFiles_complete _ _ _ _ _ HL HE). apply In_filter_bool. split; [by apply Z.leb_le|done]. }
  apply (foldl_max_spec _ 0) in Hi. case_if; [|breflect; lia]. by eexists.
Qed.

(** A stream that ends with an error is not accepted. *)
Hypothesis upload_reads : forall cl level lo hi rd cl' info,
  WriteLTXFile cl level lo hi rd = (cl', Ok info) -> rd_err rd = None.

Lemma createLTX_complete e f :
  rd_err (createLTXFromDirty LockPgno encoder_refuses partial e f) = None ->
  exists pages, dirty_pages LockPgno e f (sorted_dirty f) = Ok pages /\
    createLTXFromDirty LockPgno encoder_refuses partial e f = mkReader (EncodeLTX (dirty_ltx f pages)) None.
Proof.
  unfold createLTXFromDirty. destruct (dirty_pages _ _ _ _) as [pages|err|m]; [|done..].
  destruct (encoder_refuses _); [done|]. by exists pages.
Qed.

(** C14: an upload publishes the local view.  When dirty pages were uploaded
    successfully, the object written to level 0 under the next transaction number is
    the encoding of an LTX file whose pages are exactly the dirty pages, so that
    applying it to the snapshot gives the local view of the file; afterwards no page
    is dirty and the writer expects that transaction. *)
Theorem sync_publishes e cl vs f s cl' vs' f' :
  buffer_ok f -> ws_dirty (vf_write f) <> ∅ ->
  syncToRemoteWithLock LockPgno encoder_refuses partial e cl vs f = (cl', vs', f', Ok ()) ->
  let t := ws_pendingTXID (vf_write f) in
  exists pages info,
    WriteLTXFile cl 0 t t (mkReader (EncodeLTX (dirty_ltx f pages)) None) = (cl', Ok info) /\
    (forall p, p <> LockPgno (vf_pageSize f) -> lookup_page p pages = dirty_page f p) /\
    (forall p, p <> LockPgno (vf_pageSize f) -> 1 <= p <= rv_commit (vf_view f) ->
       apply_ltx (dirty_ltx f pages) (hist s) p = local_page f s p) /\
    ws_dirty (vf_write f') = ∅ /\ ws_expectedTXID (vf_write f') = t /\ ws_pendingTXID (vf_write f') = txid_succ t /\
    t <= vs_lastSyncedTXID vs'.
Proof.
  intros Hb Hd. unfold syncToRemoteWithLock. rewrite bool_decide_eq_false_2 by done.
  destruct (checkForConflict cl f); [|done..].
  destruct (WriteLTXFile cl 0 _ _ _) as [cl1 [info|err|m]] eqn:EW; [|done..].
  destruct (sync_finish e vs f) as [[vs1 f1] r1] eqn:EF. intros [= <- <- <- ->]. cbv zeta.
  destruct (createLTX_complete e f) as (pages & Hpages & Hrd); [by eapply upload_reads|]. rewrite Hrd in EW.
  apply sync_finish_spec in EF as (H1 & H2 & _ & _ & _ & _ & _ & _ & _ & _ & _ & H3 & _ & _ & H4).
  assert (forall p, p <> LockPgno (vf_pageSize f) -> lookup_page p pages = dirty_page f p) as Hlk
    by (intros p Hp; by eapply dirty_pages_dirty).
  exists pages, info. split_and!; [done|done| |by apply H4|done|done|lia].
  intros p Hp Hr. unfold apply_ltx, local_page. cbn [dirty_ltx lf_Commit lf_pages]. rewrite (Hlk p Hp).
  destruct (Z.leb_spec 1 p), (Z.leb_spec p (rv_commit (vf_view f))); try lia. done.
Qed.

(** ** The files of a VFS

    Files are numbered; every step is one critical section of one method.

    [ws_bufferFile] is what a file reads through its handle of the buffer file.  A file that is opened for writing has a
    buffer file of its own.  All files that are enabled later open one path of the VFS, with [O_TRUNC]: [bf_inode] says which
    file on disk they have open, [bf_named] which one the path names; [Close] removes the path. *)
Record buffer_files := mkBufs { bf_inode : gmap nat nat; bf_named : option nat; bf_next : nat }.
Record system := mkSystem { sy_client : C; sy_vfs : VFS; sy_files : gmap nat VFSFile; sy_bufs : buffer_files }.

(** Two files have the same buffer file open. *)
Definition shares (b : buffer_files) (i j : nat) : Prop := is_Some (bf_inode b !! i) /\ bf_inode b !! i = bf_inode b !! j.

(** What file [id] has done to its buffer file is seen by all that have it open. *)
Definition see_buffer (c : option (list byte)) (g : VFSFile) : VFSFile :=
  set_write (set_buffer c (ws_bufferNextOff (vf_write g)) (ws_dirty (vf_write g)) (vf_write g)) g.
Definition put (b : buffer_files) (id : nat) (f' : VFSFile) (fs : gmap nat VFSFile) : gmap nat VFSFile :=
  map_imap (fun j g => Some (if bool_decide (j <> id /\ shares b id j) then see_buffer (ws_bufferFile (vf_write f')) g else g)) (<[id := f']> fs).

(** The path of files that are enabled: the file it names, or a new one. *)
Definition open_shared (id : nat) (b : buffer_files) : buffer_files :=
  match bf_named b with
  | Some n => mkBufs (<[id := n]> (bf_inode b)) (Some n) (bf_next b)
  | None => mkBufs (<[id := bf_next b]> (bf_inode b)) (Some (bf_next b)) (S (bf_next b))
  end.
(** [EnableWrites] opens the path when it succeeds on a file that has no buffer file. *)
Definition enable_opens (id : nat) (f : VFSFile) (r : result ()) (b : buffer_files) : buffer_files :=
  if negb (ws_writeEnabled (vf_write f)) && is_ok r && bool_decide (ws_bufferFile (vf_write f) = None) then open_shared id b else b.
(** [Close] removes the path of its buffer file. *)
Definition close_removes (id : nat) (b : buffer_files) : buffer_files :=
  mkBufs (delete id (bf_inode b)) (if bool_decide (is_Some (bf_inode b !! id)) then None else bf_named b) (bf_next b).

(** A file that [Open] returned. *)
Record fresh (f : VFSFile) : Prop := {
  fr_lock : vf_lockType f = LockNone;
  fr_idle : ws_inTransaction (vf_write f) = false;
  fr_clean : ws_dirty (vf_write f) = ∅;
  fr_next : ws_bufferNextOff (vf_write f) = 0;
  fr_size : 0 < vf_pageSize f
}.

Inductive sys_step : system -> system -> Prop :=
| S_remote cl cl' vs fs bs : sys_step (mkSystem cl vs fs bs) (mkSystem cl' vs fs bs)
| S_open cl vs fs bs id f : fs !! id = None -> fresh f -> sys_step (mkSystem cl vs fs bs) (mkSystem cl vs (<[id := f]> fs) bs)
| S_lock cl vs fs bs id f elock vs' f' r : fs !! id = Some f -> Lock id vs f elock = Some (vs', f', r) ->
    sys_step (mkSystem cl vs fs bs) (mkSystem cl vs' (<[id := f']> fs) bs)
| S_unlock cl vs fs bs id f elock vs' f' r : fs !! id = Some f -> Unlock id vs f elock = (vs', f', r) ->
    sys_step (mkSystem cl vs fs bs) (mkSystem cl vs' (<[id := f']> fs) bs)
| S_write cl vs fs bs id f e b off f' r : fs !! id = Some f -> WriteAt LockPgno e cl f b off = (f', r) ->
    sys_step (mkSystem cl vs fs bs) (mkSystem cl vs (put bs id f' fs) bs)
| S_truncate cl vs fs bs id f e size f' r : fs !! id = Some f -> Truncate e f size = (f', r) ->
    sys_step (mkSystem cl vs fs bs) (mkSystem cl vs (<[id := f']> fs) bs)
| S_sync cl vs fs bs id f e cl' vs' f' r : fs !! id = Some f ->
    Sync LockPgno encoder_refuses partial e cl vs f = (cl', vs', f', r) ->
    sys_step (mkSystem cl vs fs bs) (mkSystem cl' vs' (put bs id f' fs) bs)
| S_poll cl vs fs bs id f e pl : fs !! id = Some f ->
    sys_step (mkSystem cl vs fs bs) (mkSystem cl vs (<[id := poll_apply e cl f pl]> fs) bs)
| S_enable cl vs fs bs id f e f' r : fs !! id = Some f -> EnableWrites e f = (f', r) ->
    sys_step (mkSystem cl vs fs bs) (mkSystem cl vs (put (enable_opens id f r bs) id f' fs) (enable_opens id f r bs))
| S_disable cl vs fs bs id f : fs !! id = Some f ->
    sys_step (mkSystem cl vs fs bs) (mkSystem cl vs (<[id := DisableBegin f]> fs) bs)
| S_disabled cl vs fs bs id f e cancelled timedOut cl' vs' f' r : fs !! id = Some f -> ws_disabling (vf_write f) = true ->
    DisableResume LockPgno encoder_refuses partial e cancelled timedOut cl vs f = Some (cl', vs', f', r) ->
    sys_step (mkSystem cl vs fs bs) (mkSystem cl' vs' (put bs id f' fs) bs)
| S_close cl vs fs bs id f e cl1 vs1 f1 cl' vs' f' : fs !! id = Some f ->
    close_sync LockPgno encoder_refuses partial e cl vs f = (cl1, vs1, f1) ->
    VFSFile_Close LockPgno encoder_refuses partial e cl id vs f = (cl', vs', f') ->
    sys_step (mkSystem cl vs fs bs) (mkSystem cl' vs' (delete id (put bs id f1 fs)) (close_removes id bs)).

(** What holds of every open file. *)
Record file_ok (vs : VFS) (id : nat) (f : VFSFile) : Prop := {
  fk_owner : ws_inTransaction (vf_write f) = true -> ws_writeEnabled (vf_write f) = true /\ vs_writeFile vs = Some id;
  fk_lock : LockReserved <= vf_lockType f -> ws_inTransaction (vf_write f) = true
}.

Definition system_ok (s : system) : Prop := forall id f, sy_files s !! id = Some f -> file_ok (sy_vfs s) id f.

(** The flags that the locks depend on. *)
Definition same_flags (f f' : VFSFile) : Prop :=
  vf_lockType f' = vf_lockType f /\ ws_inTransaction (vf_write f') = ws_inTransaction (vf_write f) /\
  ws_writeEnabled (vf_write f') = ws_writeEnabled (vf_write f).

Lemma file_ok_flags vs vs' id f f' :
  vs_writeFile vs' = vs_writeFile vs -> same_flags f f' -> file_ok vs id f -> file_ok vs' id f'.
Proof. intros Hv (E1 & E2 & E3) [H1 H2]. split; [rewrite E2, E3, Hv|rewrite E1, E2]; done. Qed.

Lemma base_page_flags e cl f p f' r :
  base_page e cl f p (vf_pageSize f) = (f', r) ->
  vf_write f' = vf_write f /\ vf_pageSize f' = vf_pageSize f /\ vf_lockType f' = vf_lockType f /\
  (buffer_ok f -> forall base, r = Ok base -> Z.of_nat (length base) = vf_pageSize f).
Proof.
  unfold base_page, readPageForWrite. destruct (ws_dirty (vf_write f) !! p) as [o|] eqn:Eo.
  { intros [= <- <-]. split_and!; try done. intros Hb base. destruct (buffer_read e f p o) as [data|err|m] eqn:Er; cbn [wrap_err]; [|done..].
    intros [= <-]. by apply (buffer_read_ok e f p o). }
  destruct (cache_Get (vf_cache f) p) as [c [data|]].
  { intros [= <- <-]. split_and!; try done. intros Hb base [= <-]. pose proof (bo_pageSize _ Hb). rewrite length_copy_into, length_replicate. lia. }
  change (vf_index (set_cache c f)) with (vf_index f). destruct (vf_index f !! p) as [elem|].
  2:{ intros [= <- <-]. split_and!; try done. intros Hb base [= <-]. pose proof (bo_pageSize _ Hb). rewrite length_replicate. lia. }
  destruct (fetch_elem cl elem) as [[q d]|err|m]; [case_if| |];
    (intros [= <- <-]; split_and!; try done; intros Hb base [= <-]; pose proof (bo_pageSize _ Hb); rewrite ?length_copy_into, length_replicate; lia).
Qed.

Lemma writeToBuffer_flags e f p data f' r : writeToBuffer e f p data = (f', r) -> same_flags f f' /\ vf_pageSize f' = vf_pageSize f.
Proof.
  unfold writeToBuffer. destruct (match ws_dirty _ !! _ with Some _ => _ | None => _ end) as [wo nx].
  destruct (ws_bufferFile _); [destruct (vio e _)|]; by intros [= <- _].
Qed.

Lemma WriteAt_flags e cl f b off f' r :
  WriteAt LockPgno e cl f b off = (f', r) -> same_flags f f' /\ vf_pageSize f' = vf_pageSize f /\ (buffer_ok f -> buffer_ok f').
Proof.
  unfold WriteAt, pageSizeBytes. destruct (vf_pageSize f =? 0); [by intros [= <- <-]|].
  case_if; [by intros [= <- <-]|]. case_if; [by intros [= <- <-]|].
  destruct (base_page e cl f _ (vf_pageSize f)) as [f1 r1] eqn:EB.
  destruct (base_page_flags e cl f _ f1 r1 EB) as (Hw & Hp & Hl & Hlen).
  assert (buffer_ok f -> buffer_ok f1) as Hb1 by (intros [B1 B2 B3 B4]; split; rewrite ?Hw, ?Hp; done).
  assert (same_flags f f1) as Hs1 by (split_and!; congruence).
  destruct r1 as [base|err|m]; [|by intros [= <- <-]..].
  set (f2 := if _ : bool then set_view _ f1 else f1).
  assert ((buffer_ok f1 -> buffer_ok f2) /\ vf_write f2 = vf_write f1 /\ vf_pageSize f2 = vf_pageSize f1 /\ vf_lockType f2 = vf_lockType f1) as (Hb2 & Hw2 & Hp2 & Hl2)
    by (unfold f2; case_if; [split_and!; [apply buffer_ok_view|done..]|done]).
  destruct (writeToBuffer e f2 _ _) as [f3 r3] eqn:EW. pose proof (writeToBuffer_flags _ _ _ _ _ _ EW) as [(G1 & G2 & G3) G4].
  assert (same_flags f f3 /\ vf_pageSize f3 = vf_pageSize f /\ (buffer_ok f -> buffer_ok f3)) as HR.
  { split_and!; [split_and!; congruence|congruence|]. intros Hb.
    apply writeToBuffer_spec in EW as (Hb3 & _); [done|by auto|rewrite length_overlay, Hlen by done; congruence]. }
  destruct r3; intros [= <- <-]; exact HR.
Qed.

Lemma buffer_ok_empty f : 0 < vf_pageSize f -> 0 <= ws_bufferNextOff (vf_write f) -> ws_dirty (vf_write f) = ∅ -> buffer_ok f.
Proof. intros H1 H2 H3. split; [done..| |]; rewrite H3; intros *; by rewrite lookup_empty. Qed.

Lemma buffer_ok_same f f' :
  vf_pageSize f' = vf_pageSize f -> ws_dirty (vf_write f') = ws_dirty (vf_write f) -> ws_bufferFile (vf_write f') = ws_bufferFile (vf_write f) ->
  ws_bufferNextOff (vf_write f') = ws_bufferNextOff (vf_write f) -> buffer_ok f -> buffer_ok f'.
Proof. intros E1 E2 E3 E4 [B1 B2 B3 B4]. split; rewrite ?E1, ?E2, ?E3, ?E4; done. Qed.

Lemma sync_flags e cl vs f cl' vs' f' r :
  syncToRemoteWithLock LockPgno encoder_refuses partial e cl vs f = (cl', vs', f', r) ->
  same_flags f f' /\ vs_writeFile vs' = vs_writeFile vs /\ (is_ok r = true -> ws_dirty (vf_write f') = ∅) /\ (buffer_ok f -> buffer_ok f').
Proof.
  unfold syncToRemoteWithLock. case_bool_decide; [by intros [= <- <- <- <-]|].
  destruct (checkForConflict cl f); [|by intros [= <- <- <- <-]..].
  destruct (WriteLTXFile _ _ _ _ _) as [cl1 [info|err|m]]; [|by intros [= <- <- <- <-]..].
  destruct (sync_finish e vs f) as [[vs1 f1] r1] eqn:EF. intros [= <- <- <- <-].
  apply sync_finish_spec in EF as (_ & _ & _ & _ & _ & Hp & Hl & Hwe & Hit & _ & Hv & _ & Hd & Hn & Hok).
  split_and!; [by split_and!|done|done|]. intros Hb. pose proof (bo_next _ Hb). pose proof (bo_pageSize _ Hb).
  destruct Hd as [Hd|(HE1 & HE2 & HE3)]; [apply buffer_ok_empty; [by rewrite Hp|auto|done]|by apply (buffer_ok_same f)].
Qed.

Lemma Truncate_flags e f size f' r :
  Truncate e f size = (f', r) -> same_flags f f' /\ (buffer_ok f -> buffer_ok f').
Proof.
  unfold Truncate. destruct (pageSizeBytes f); [|by intros [= <- <-]..]. case_if; [by intros [= <- <-]|]. intros [= <- <-].
  match goal with |- context [hydrated ?g] => set (f1 := g) end.
  assert (buffer_ok f -> buffer_ok f1) as Hb1.
  { intros [B1 B2 B3 B4]. split; cbn; [done..| |].
    - intros p o Ho. apply map_lookup_filter_Some in Ho as [Ho _]. by apply (B3 p).
    - intros p q o o' Ho Ho'. apply map_lookup_filter_Some in Ho as [Ho _], Ho' as [Ho' _]. by apply (B4 p q). }
  destruct (hydrated f1); [|done]. split; [done|]. intros Hb. by apply (buffer_ok_same f1); auto.
Qed.

Lemma Enable_flags e f f' r :
  EnableWrites e f = (f', r) ->
  vf_lockType f' = vf_lockType f /\ ws_inTransaction (vf_write f') = ws_inTransaction (vf_write f) /\
  (ws_writeEnabled (vf_write f) = true -> ws_writeEnabled (vf_write f') = true) /\ (buffer_ok f -> buffer_ok f').
Proof.
  unfold EnableWrites. destruct (ws_writeEnabled (vf_write f)) eqn:Ew; [intros [= <- <-]; by rewrite Ew|].
  match goal with |- context [let '(_, _) := ?x in _] => destruct x as [w r1] eqn:Ei end.
  assert (r1 = Ok () -> (buffer_ok f -> buffer_ok (set_write w f)) /\ ws_inTransaction w = ws_inTransaction (vf_write f)) as Hw.
  { intros ->. destruct (ws_bufferFile (vf_write f)) as [b|] eqn:Eb; [injection Ei as <-; split; [by apply (buffer_ok_same f)|done]|].
    unfold initWriteBuffer in Ei.
    destruct (vio e BufferTempDir), (vio e BufferDir), (vio e BufferOpen); try discriminate Ei. injection Ei as <-. split; [|done]. intros Hb.
    apply buffer_ok_empty; [exact (bo_pageSize _ Hb)|done|]. apply map_empty. intros p. cbn.
    destruct (ws_dirty (vf_write f) !! p) as [o|] eqn:Eo; [|done]. destruct (bo_slot _ Hb _ _ Eo) as (_ & _ & b & Hbf & _). congruence. }
  destruct r1 as [[]|err|m]; intros [= <- <-]; [|by rewrite ?Ew..]. destruct (Hw eq_refl) as [Hb1 Hit].
  split_and!; [done|by case_if|done|]. intros Hb. case_if; by apply (buffer_ok_same (set_write w f)); auto.
Qed.

Lemma Lock_ok id vs f elock vs' f' r :
  file_ok vs id f -> Lock id vs f elock = Some (vs', f', r) ->
  file_ok vs' id f' /\ (vs_writeFile vs' = vs_writeFile vs \/ vs_writeFile vs = None) /\ (buffer_ok f -> buffer_ok f').
Proof.
  intros Hf. pose proof Hf as [HO HL]. unfold Lock, begin_transaction. case_if; [intros [= <- <- <-]; auto|]. case_if; [done|].
  case_if; [intros [= <- <- <-]; auto|]. case_if.
  - destruct (bool_decide_reflect (vs_writeFile vs <> None)) as [Hn|Hn]; cbn [andb].
    + case_bool_decide as Hne; [intros [= <- <- <-]; auto|].
      intros [= <- <- <-]. split; [|split; [left; cbn; congruence|case_if; by apply (buffer_ok_same f)]]. breflect.
      case_if; (split; cbn; [intros _; split; [done|done]|done]).
    + intros [= <- <- <-]. split; [|split; [right; by apply dec_stable|case_if; by apply (buffer_ok_same f)]]. breflect.
      case_if; (split; cbn; [intros _; split; [done|done]|done]).
  - intros [= <- <- <-]. split; [|split; [by left|by apply (buffer_ok_same f)]]. split; cbn; [done|].
    intros He. apply Z.leb_le in He. rewrite He in *. by destruct (ws_inTransaction (vf_write f)), (ws_writeEnabled (vf_write f)).
Qed.

Lemma Unlock_ok id vs f elock vs' f' r :
  file_ok vs id f -> Unlock id vs f elock = (vs', f', r) ->
  file_ok vs' id f' /\ (vs_writeFile vs' = vs_writeFile vs \/ vs_writeFile vs = Some id) /\ (buffer_ok f -> buffer_ok f').
Proof.
  intros [HO HL]. unfold Unlock, merge_pending. case_if; [intros [= <- <- <-]; split; [by split|split; [by left|done]]|].
  destruct (elock <? LockReserved) eqn:El; rewrite ?andb_true_r, ?andb_false_r; intros [= <- <- <-].
  - apply Z.ltb_lt in El. destruct (ws_inTransaction (vf_write f)) eqn:Ei.
    + destruct (HO eq_refl) as [-> Hv]. cbn [andb]. split; [|split; [by right|by apply (buffer_ok_same f)]]. split; cbn; [done|lia].
    + rewrite andb_false_r. split; [|split; [by left|by apply (buffer_ok_same f)]]. split; cbn; [congruence|lia].
  - exfalso. breflect. unfold LockShared, LockNone, LockReserved in *. lia.
Qed.

Lemma Disabled_ok id e cancelled timedOut cl vs f cl' vs' f' r :
  file_ok vs id f -> DisableResume LockPgno encoder_refuses partial e cancelled timedOut cl vs f = Some (cl', vs', f', r) ->
  file_ok vs' id f' /\ vs_writeFile vs' = vs_writeFile vs /\
  (is_ok r = true -> ws_dirty (vf_write f') = ∅ /\ ws_inTransaction (vf_write f') = false /\ ws_writeEnabled (vf_write f') = false) /\
  (is_ok r = false -> is_panic r = false -> ws_writeEnabled (vf_write f') = ws_writeEnabled (vf_write f)) /\ (buffer_ok f -> buffer_ok f').
Proof.
  intros Hf. pose proof Hf as [HO HL]. unfold DisableResume. destruct (ws_inTransaction (vf_write f)) eqn:Ei.
  { assert (file_ok vs id (set_write (set_disabling false (vf_write f)) f)) as Hf' by (by apply (file_ok_flags vs vs id f)).
    assert (buffer_ok f -> buffer_ok (set_write (set_disabling false (vf_write f)) f)) as Hb by (by apply (buffer_ok_same f)).
    destruct cancelled; [by intros [= <- <- <- <-]|]. destruct timedOut; [by intros [= <- <- <- <-]|done]. }
  destruct (syncToRemoteWithLock _ _ _ e cl vs f) as [[[cl1 vs1] f1] r1] eqn:ES.
  destruct (sync_flags e cl vs f cl1 vs1 f1 r1 ES) as (Hs1 & Hv1 & Hd1 & Hb1). pose proof Hs1 as (E1 & E2 & E3).
  assert (file_ok vs1 id f1) as Hf1 by (by apply (file_ok_flags vs vs1 id f)).
  destruct r1 as [u|err|m]; intros [= <- <- <- <-].
  - split_and!; [|done|intros _; cbn; split_and!; [by apply Hd1|congruence|done]|done|intros Hb; by apply (buffer_ok_same f1); auto].
    split; cbn; [congruence|rewrite E1, E2, Ei; done].
  - split_and!; [by apply (file_ok_flags vs1 vs1 id f1)|done|done|intros _ _; cbn; congruence|intros Hb; by apply (buffer_ok_same f1); auto].
  - by split_and!.
Qed.

Lemma poll_flags e cl f pl : same_flags f (poll_apply e cl f pl) /\ (buffer_ok f -> buffer_ok (poll_apply e cl f pl)).
Proof. unfold poll_apply. destruct (rv_targetTime _); [done|]. split; [done|by apply (buffer_ok_same f)]. Qed.

Lemma close_sync_flags e cl vs f cl1 vs1 f1 :
  close_sync LockPgno encoder_refuses partial e cl vs f = (cl1, vs1, f1) -> same_flags f f1 /\ vs_writeFile vs1 = vs_writeFile vs /\ (buffer_ok f -> buffer_ok f1).
Proof.
  unfold close_sync. case_if; [|by intros [= <- <- <-]]. destruct (syncToRemoteWithLock _ _ _ e cl vs f) as [[[cl2 vs2] f2] r2] eqn:ES.
  intros [= <- <- <-]. by apply sync_flags in ES as (? & ? & _ & ?).
Qed.

Lemma lookup_put b id f' fs j :
  put b id f' fs !! j = (fun g => if bool_decide (j <> id /\ shares b id j) then see_buffer (ws_bufferFile (vf_write f')) g else g) <$> <[id := f']> fs !! j.
Proof. unfold put. rewrite map_lookup_imap. by destruct (<[id := f']> fs !! j). Qed.
Lemma lookup_put_same b id f' fs : put b id f' fs !! id = Some f'.
Proof. rewrite lookup_put, lookup_insert_eq. cbn. by rewrite bool_decide_eq_false_2 by (by intros []). Qed.
(** Another file keeps its flags. *)
Lemma lookup_put_other b id f' fs j g : put b id f' fs !! j = Some g -> j <> id -> exists g0, fs !! j = Some g0 /\ same_flags g0 g.
Proof. rewrite lookup_put. intros Hg Hne. rewrite lookup_insert_ne in Hg by done. destruct (fs !! j) as [g0|]; [|done]. exists g0. split; [done|]. cbn in Hg. case_bool_decide; by simplify_eq. Qed.
(** And all of it when it shares nothing. *)
Lemma put_private b id f' fs : (forall j, shares b id j -> j = id) -> put b id f' fs = <[id := f']> fs.
Proof. intros Hs. apply map_eq. intros j. rewrite lookup_put. destruct (<[id := f']> fs !! j) as [g|]; [|done]. cbn. rewrite bool_decide_eq_false_2; [done|]. intros [Hne Hj]. by apply Hs in Hj. Qed.

(** One file changed and the write slot only changed hands through it. *)
Lemma system_ok_update cl cl' vs vs' fs fs' bs bs' id f' :
  system_ok (mkSystem cl vs fs bs) -> file_ok vs' id f' ->
  fs' !! id = Some f' -> (forall i g, fs' !! i = Some g -> i <> id -> exists g0, fs !! i = Some g0 /\ same_flags g0 g) ->
  vs_writeFile vs' = vs_writeFile vs \/ vs_writeFile vs = None \/ vs_writeFile vs = Some id ->
  system_ok (mkSystem cl' vs' fs' bs').
Proof.
  intros Hs Hf' Hid Hoth Hv i g Hi. cbn in *. destruct (decide (i = id)) as [->|Hne]; [by simplify_eq|].
  destruct (Hoth i g Hi Hne) as (g0 & Hg0 & E1 & E2 & E3). destruct (Hs i g0 Hg0) as [HO HL]. cbn in *. split; [|by rewrite E1, E2].
  rewrite E2, E3. intros Hit. destruct (HO Hit) as [? Hw]. split; [done|]. destruct Hv as [->|[?|?]]; congruence.
Qed.
Lemma insert_others id f' (fs : gmap nat VFSFile) i g : <[id := f']> fs !! i = Some g -> i <> id -> exists g0, fs !! i = Some g0 /\ same_flags g0 g.
Proof. intros Hi Hne. rewrite lookup_insert_ne in Hi by done. by exists g. Qed.

Lemma sys_step_ok s s' : sys_step s s' -> system_ok s -> system_ok s'.
Proof.
  intros [cl cl' vs fs bs|cl vs fs bs id f Hid Hfr|cl vs fs bs id f elock vs' f' r Hid HL|cl vs fs bs id f elock vs' f' r Hid HL
    |cl vs fs bs id f e b off f' r Hid HL|cl vs fs bs id f e size f' r Hid HL|cl vs fs bs id f e cl' vs' f' r Hid HL|cl vs fs bs id f e pl Hid
    |cl vs fs bs id f e f' r Hid HL|cl vs fs bs id f Hid|cl vs fs bs id f e ca ti cl' vs' f' r Hid Hdis HL|cl vs fs bs id f e cl1 vs1 f1 cl' vs' f' Hid HC HL] Hs;
    try (pose proof (Hs id f Hid) as Hf; cbn in Hf).
  - done.
  - destruct Hfr as [F1 F2 F3 F4 F5]. eapply system_ok_update; [exact Hs| |apply lookup_insert_eq|apply insert_others|by left].
    split; [congruence|rewrite F1; unfold LockReserved, LockNone; lia].
  - apply Lock_ok in HL as (Hf' & Hv & _); [|done]. eapply system_ok_update; [exact Hs|exact Hf'|apply lookup_insert_eq|apply insert_others|destruct Hv as [?|?]; [by left|right; by auto]].
  - apply Unlock_ok in HL as (Hf' & Hv & _); [|done]. eapply system_ok_update; [exact Hs|exact Hf'|apply lookup_insert_eq|apply insert_others|destruct Hv as [?|?]; [by left|right; by auto]].
  - apply WriteAt_flags in HL as (Hfl & _). eapply system_ok_update; [exact Hs|by eapply file_ok_flags|apply lookup_put_same|apply lookup_put_other|by left].
  - apply Truncate_flags in HL as (Hfl & _). eapply system_ok_update; [exact Hs|by eapply file_ok_flags|apply lookup_insert_eq|apply insert_others|by left].
  - unfold Sync in HL. case_if; [injection HL as <- <- <- <-; eapply system_ok_update; [exact Hs|exact Hf|apply lookup_put_same|apply lookup_put_other|by left]|].
    apply sync_flags in HL as (Hfl & Hv & _). eapply system_ok_update; [exact Hs|by eapply file_ok_flags|apply lookup_put_same|apply lookup_put_other|by left].
  - destruct (poll_flags e cl f pl) as [Hfl _]. eapply system_ok_update; [exact Hs|by eapply file_ok_flags|apply lookup_insert_eq|apply insert_others|by left].
  - apply Enable_flags in HL as (Hl & Hit & Hw & _). eapply system_ok_update; [exact Hs| |apply lookup_put_same|apply lookup_put_other|by left].
    destruct Hf as [HO HLk]. split; [|rewrite Hl, Hit; done]. rewrite Hit. intros HX. destruct (HO HX). auto.
  - eapply system_ok_update; [exact Hs| |apply lookup_insert_eq|apply insert_others|by left]. unfold DisableBegin. case_if; [|done]. by apply (file_ok_flags vs vs id f).
  - apply (Disabled_ok id) in HL as (Hf' & Hv & _); [|done]. eapply system_ok_update; [exact Hs|exact Hf'|apply lookup_put_same|apply lookup_put_other|by left].
  - apply close_sync_flags in HC as HC'. destruct HC' as (Hfl & Hv1 & _). unfold VFSFile_Close in HL. rewrite HC in HL. injection HL as <- <- <-.
    intros i g Hi. cbn in Hi. rewrite lookup_delete in Hi. destruct (decide (id = i)) as [|Hne]; [done|].
    destruct (lookup_put_other _ _ _ _ _ _ Hi ltac:(done)) as (g0 & Hg0 & E1 & E2 & E3). destruct (Hs i g0 Hg0) as [HO HLk]. cbn in *.
    split; [|by rewrite E1, E2]. rewrite E2, E3. intros Hit. destruct (HO Hit) as [? Hw]. split; [done|].
    unfold release_writer. destruct (ws_writeEnabled (vf_write f1)); [|congruence].
    destruct (bool_decide_reflect (vs_writeFile vs1 = Some id)); cbn; congruence.
Qed.

(** Reachable from a VFS with no open files. *)
Definition initial (cl0 : C) : system := mkSystem cl0 (mkVFS None 0) ∅ (mkBufs ∅ None 0).
Definition reachable (cl0 : C) : system -> Prop := rtc sys_step (initial cl0).

Lemma reachable_ok cl0 s : reachable cl0 s -> system_ok s.
Proof.
  intros Hr. assert (system_ok (initial cl0)) as Hi by (intros id f; cbn; by rewrite lookup_empty).
  revert Hi. induction Hr as [|s1 s2 s3 Hst _ IH]; [done|]. intros Hi. apply IH. by eapply sys_step_ok.
Qed.

(** *** Runs in which no two files have the same buffer file open *)
Definition unshared (s : system) : Prop := forall i j, shares (sy_bufs s) i j -> j = i.
Definition reachable_unshared (cl0 : C) : system -> Prop := rtc (fun s s' => sys_step s s' /\ unshared s') (initial cl0).
Definition buffers_ok (s : system) : Prop := forall id f, sy_files s !! id = Some f -> buffer_ok f.

Lemma buffers_ok_insert cl vs fs bs cl' vs' bs' id f' :
  buffers_ok (mkSystem cl vs fs bs) -> buffer_ok f' -> buffers_ok (mkSystem cl' vs' (<[id := f']> fs) bs').
Proof. intros Hs Hf i g. cbn. rewrite lookup_insert. destruct (decide (id = i)); [by intros [= <-]|by apply Hs]. Qed.

Lemma sys_step_buffers s s' : sys_step s s' -> unshared s' -> unshared s -> system_ok s -> buffers_ok s -> buffers_ok s'.
Proof.
  intros [cl cl' vs fs bs|cl vs fs bs id f Hid Hfr|cl vs fs bs id f elock vs' f' r Hid HL|cl vs fs bs id f elock vs' f' r Hid HL
    |cl vs fs bs id f e b off f' r Hid HL|cl vs fs bs id f e size f' r Hid HL|cl vs fs bs id f e cl' vs' f' r Hid HL|cl vs fs bs id f e pl Hid
    |cl vs fs bs id f e f' r Hid HL|cl vs fs bs id f Hid|cl vs fs bs id f e ca ti cl' vs' f' r Hid Hdis HL|cl vs fs bs id f e cl1 vs1 f1 cl' vs' f' Hid HC HL] Hu' Hu Hok Hs;
    try (pose proof (Hs id f Hid) as Hb; pose proof (Hok id f Hid) as Hf; cbn in Hf); try done; try rewrite (put_private _ _ _ _ (Hu' id)) by done;
    try (eapply buffers_ok_insert; [exact Hs|]).
  - destruct Hfr as [F1 F2 F3 F4 F5]. by apply buffer_ok_empty; [|lia|].
  - by apply Lock_ok in HL as (_ & _ & ?); auto.
  - by apply Unlock_ok in HL as (_ & _ & ?); auto.
  - apply WriteAt_flags in HL as (_ & _ & ?); auto.
  - apply Truncate_flags in HL as (_ & ?); auto.
  - unfold Sync in HL. case_if; [by injection HL as <- <- <- <-|]. apply sync_flags in HL as (_ & _ & _ & ?); auto.
  - by apply poll_flags.
  - apply Enable_flags in HL as (_ & _ & _ & ?); auto.
  - unfold DisableBegin. case_if; [|done]. by apply (buffer_ok_same f).
  - apply (Disabled_ok id) in HL as (_ & _ & _ & _ & ?); auto.
  - intros i g Hi. cbn in Hi. rewrite lookup_delete in Hi. destruct (decide (id = i)) as [|Hne]; [done|]. rewrite (put_private _ _ _ _ (Hu id)) in Hi.
    rewrite lookup_insert_ne in Hi by done. by apply (Hs i).
Qed.

Lemma reachable_buffers cl0 s : reachable_unshared cl0 s -> buffers_ok s.
Proof.
  intros Hr. assert (buffers_ok (initial cl0) /\ system_ok (initial cl0) /\ unshared (initial cl0)) as Hi.
  { split_and!; [intros id f; cbn; by rewrite lookup_empty..|]. intros i j [[n Hn] _]. cbn in Hn. by rewrite lookup_empty in Hn. }
  revert Hi. induction Hr as [|s1 s2 s3 [Hst Hu] _ IH]; [by intros (? & _)|]. intros (Hb & Hok & Hu1). apply IH.
  split_and!; [by eapply sys_step_buffers|by eapply sys_step_ok|done].
Qed.

Lemma unshared_reachable cl0 s : reachable_unshared cl0 s -> reachable cl0 s.
Proof. intros Hr. unfold reachable. induction Hr as [|s1 s2 s3 [Hst _] _ IH]; [done|]. by eapply rtc_l. Qed.

(** C15: one writer at a time.  Whatever the files of a VFS do, in any interleaving of
    locks, writes, uploads, polls, enabling, disabling and closing, at most one open
    file holds a RESERVED or stronger lock, and it is the registered writer. *)
Theorem single_writer cl0 s id f id' f' :
  reachable cl0 s -> sy_files s !! id = Some f -> sy_files s !! id' = Some f' ->
  LockReserved <= vf_lockType f -> LockReserved <= vf_lockType f' ->
  id = id' /\ vs_writeFile (sy_vfs s) = Some id /\ ws_writeEnabled (vf_write f) = true.
Proof.
  intros Hr Hid Hid' Hl Hl'. apply reachable_ok in Hr. destruct (Hr id f Hid) as [HO HL], (Hr id' f' Hid') as [HO' HL'].
  destruct (HO (HL Hl)), (HO' (HL' Hl')). split_and!; congruence.
Qed.

(** C37: the write buffer is well formed.  In every run in which no two files have the same buffer file open (files that are
    opened for writing have their own; files that are enabled later share one path, see [WriteAnomalies.enable_destroys]),
    the dirty pages of an
    open file have disjoint slots inside its buffer file, so that every dirty page can
    be read back in full unless the read itself fails. *)
Theorem buffer_well_formed cl0 s id f p o e :
  reachable_unshared cl0 s -> sy_files s !! id = Some f -> ws_dirty (vf_write f) !! p = Some o ->
  (forall q o', ws_dirty (vf_write f) !! q = Some o' -> q <> p -> o + vf_pageSize f <= o' \/ o' + vf_pageSize f <= o) /\
  (v_fault e (BufferRead p) = None ->
     exists data, buffer_read e f p o = Ok data /\ Z.of_nat (length data) = vf_pageSize f).
Proof.
  intros Hr Hid Ho. pose proof (reachable_buffers _ _ Hr id f Hid) as Hb. split.
  - intros q o' Ho' Hne. by apply (bo_disjoint _ Hb p q).
  - intros He. destruct (buffer_read_total e f p o Hb Ho He) as (data & Hr' & _). exists data. split; [done|].
    by apply (buffer_read_ok e f p o data Hb Ho).
Qed.

(** Disabling writes.  When a disable operation completes, no transaction is running,
    every dirty page was uploaded and the file holds no write lock; when it fails,
    writes stay enabled; and while it is in progress no write lock is granted. *)
Theorem disable_clean cl0 s id f e cancelled timedOut cl' vs' f' r :
  reachable cl0 s -> sy_files s !! id = Some f ->
  DisableResume LockPgno encoder_refuses partial e cancelled timedOut (sy_client s) (sy_vfs s) f = Some (cl', vs', f', r) ->
  (is_ok r = true -> ws_dirty (vf_write f') = ∅ /\ ws_inTransaction (vf_write f') = false /\
     ws_writeEnabled (vf_write f') = false /\ vf_lockType f' < LockReserved) /\
  (is_ok r = false -> is_panic r = false -> ws_writeEnabled (vf_write f') = ws_writeEnabled (vf_write f)) /\
  (ws_disabling (vf_write f) = true -> forall elock, vf_lockType f <= elock -> LockReserved <= elock -> Lock id (sy_vfs s) f elock = None).
Proof.
  intros Hr Hid HD. apply reachable_ok in Hr. pose proof (Hr id f Hid) as Hf.
  destruct (Disabled_ok id _ _ _ _ _ _ _ _ _ _ Hf HD) as ([_ HL] & _ & Hok & Herr & _). split_and!; [|done|].
  - intros Hr'. destruct (Hok Hr') as (? & Hit & ?). split_and!; [done..|]. rewrite Hit in HL.
    destruct (Z.ltb_spec (vf_lockType f') LockReserved); [done|]. by discriminate HL.
  - intros Hdis elock H1 H2. unfold Lock. rewrite Hdis. destruct (Z.ltb_spec elock (vf_lockType f)); [lia|].
    by rewrite (proj2 (Z.leb_le _ _) H2).
Qed.
End Buffer.

#[local] Existing Instance DemoFormat.format.
#[local] Existing Instance Lru.lru.
#[local] Existing Instance Lru.lru_laws.

(** ** Small runs *)
Module WriteDemo.
Import VfsDemo.
Definition lock_pgno : Z -> Z := fun _ => 1000.
Definition accepts : ltxFile -> option error := fun _ => None.
Definition cut : VFSFile -> list byte := fun _ => [].

(** A replica with the first transaction only. *)
Definition one : Mem.client := Mem.mkClient [first] eq_refl.

Definition enabled : write_state := mkWrite true ∅ 2 1 (Some []) 0 false false.
Definition writer (cacheSize lock : Z) : VFSFile :=
  mkVFSFile (mkView 1 1 index1 ∅ false None 0 2) enabled (cache_New cacheSize) lock 8 None.

Definition write (cl : Mem.client) (f : VFSFile) (b : list byte) (off : Z) : VFSFile :=
  (WriteAt lock_pgno calm cl f b off).1.
Definition sync (cl : Mem.client) (vs : VFS) (f : VFSFile) : Mem.client * VFS * VFSFile * result () :=
  Sync lock_pgno accepts cut calm cl vs f.
Definition dirty1 : VFSFile := write one (writer 2 LockNone) (repeat x77 8) 0.

Lemma writer_ok cacheSize lock : buffer_ok (writer cacheSize lock).
Proof. apply buffer_ok_empty; [reflexivity|discriminate|reflexivity]. Qed.

Lemma dirty1_ok : buffer_ok dirty1.
Proof.
  unfold dirty1, write. destruct (WriteAt lock_pgno calm one (writer 2 LockNone) (repeat x77 8) 0) as [f' r] eqn:E.
  apply (WriteAt_flags lock_pgno) in E as (_ & _ & Hb). apply Hb, writer_ok.
Qed.

Lemma hist_length s p data : hist s p = Some data -> Z.of_nat (length data) = 8.
Proof. unfold hist. repeat case_if; by intros [= <-]. Qed.

Lemma upload_reads (cl : Mem.client) level lo hi rd cl' info :
  WriteLTXFile cl level lo hi rd = (cl', Ok info) -> rd_err rd = None.
Proof. cbn. by destruct (rd_err rd). Qed.

Definition no_bufs : buffer_files := mkBufs ∅ None 0.
Lemma no_bufs_unshared cl vs fs : unshared (C := Mem.client) (mkSystem cl vs fs no_bufs).
Proof. intros i j [[n Hn] _]. cbn in Hn. by rewrite lookup_empty in Hn. Qed.
Definition locked : VFSFile :=
  match Lock 0 (mkVFS None 0) (writer 2 LockNone) LockReserved with Some (_, f, _) => f | None => writer 2 LockNone end.
Definition written : VFSFile := write one locked (repeat x77 8) 0.

Lemma writer_fresh : fresh (writer 2 LockNone).
Proof. split; reflexivity. Qed.

Definition written_files : gmap nat VFSFile := put no_bufs 0 written (<[0%nat := locked]> (<[0%nat := writer 2 LockNone]> ∅)).
Lemma written_unshared : reachable_unshared lock_pgno accepts cut one (mkSystem one (mkVFS (Some 0%nat) 0) written_files no_bufs).
Proof.
  eapply rtc_l; [split; [apply (S_open _ _ _ _ _ _ no_bufs 0 (writer 2 LockNone)); [reflexivity|apply writer_fresh]|apply no_bufs_unshared]|].
  eapply rtc_l; [split; [apply (S_lock _ _ _ _ _ _ no_bufs 0 (writer 2 LockNone) LockReserved (mkVFS (Some 0%nat) 0) locked (Ok ())); [reflexivity|vm_compute; reflexivity]|apply no_bufs_unshared]|].
  eapply rtc_l; [|apply rtc_refl]. split; [|apply no_bufs_unshared].
  apply (S_write _ _ _ one _ _ no_bufs 0 locked calm (repeat x77 8) 0 written (Ok 8)); [reflexivity|vm_compute; reflexivity].
Qed.

Definition idle : VFSFile := DisableBegin (writer 2 LockNone).
Lemma idle_reachable :
  reachable lock_pgno accepts cut one (mkSystem one (mkVFS None 0) (<[0%nat := idle]> (<[0%nat := writer 2 LockNone]> ∅)) no_bufs).
Proof.
  eapply rtc_l; [apply (S_open _ _ _ _ _ _ no_bufs 0 (writer 2 LockNone)); [reflexivity|apply writer_fresh]|].
  eapply rtc_l; [|apply rtc_refl]. apply (S_disable _ _ _ _ _ _ no_bufs 0 (writer 2 LockNone)). reflexivity.
Qed.
End WriteDemo.

Lemma single_writer_witness :
  LockReserved <= vf_lockType WriteDemo.written /\ ws_writeEnabled (vf_write WriteDemo.written) = true.
Proof.
  split; [vm_compute; discriminate|].
  apply (single_writer WriteDemo.lock_pgno WriteDemo.accepts WriteDemo.cut WriteDemo.one _ 0 WriteDemo.written 0 WriteDemo.written
    (unshared_reachable _ _ _ _ _ WriteDemo.written_unshared)); [apply lookup_put_same|apply lookup_put_same|vm_compute; discriminate|vm_compute; discriminate].
Defined.

Lemma buffer_well_formed_witness :
  exists o data, ws_dirty (vf_write WriteDemo.written) !! 1 = Some o /\ buffer_read VfsDemo.calm WriteDemo.written 1 o = Ok data.
Proof.
  exists 0. destruct (buffer_well_formed WriteDemo.lock_pgno WriteDemo.accepts WriteDemo.cut WriteDemo.one _ 0 WriteDemo.written 1 0 VfsDemo.calm
    WriteDemo.written_unshared) as [_ Hr]; [apply lookup_put_same|vm_compute; reflexivity|].
  destruct (Hr eq_refl) as (data & Hd & _). exists data. split; [vm_compute; reflexivity|exact Hd].
Defined.

Lemma disable_clean_witness :
  exists cl' vs' f', DisableResume WriteDemo.lock_pgno WriteDemo.accepts WriteDemo.cut VfsDemo.calm false false WriteDemo.one (mkVFS None 0) WriteDemo.idle
    = Some (cl', vs', f', Ok ()) /\ ws_writeEnabled (vf_write f') = false /\ Lock 0 (mkVFS None 0) WriteDemo.idle LockReserved = None.
Proof.
  do 3 eexists. split; [vm_compute; reflexivity|].
  match goal with |- ws_writeEnabled (vf_write ?f1) = _ /\ _ =>
    destruct (disable_clean WriteDemo.lock_pgno WriteDemo.accepts WriteDemo.cut WriteDemo.one _ 0 WriteDemo.idle VfsDemo.calm false false
      WriteDemo.one (mkVFS None 0) f1 (Ok ()) WriteDemo.idle_reachable) as (HA & _ & HB) end.
  - reflexivity.
  - vm_compute. reflexivity.
  - split; [apply HA; reflexivity|]. apply HB; [reflexivity|vm_compute; discriminate|vm_compute; discriminate].
Defined.

Lemma write_then_read_witness :
  exists f1 f2 base b',
    WriteAt WriteDemo.lock_pgno VfsDemo.calm VfsDemo.replica (WriteDemo.writer 2 LockShared) [x77] 10 = (f1, Ok 1) /\
    ReadAt VfsDemo.calm (fun _ => VfsDemo.replica) (fun _ => run_polls [(VfsDemo.calm, VfsDemo.replica)]) f1 [x00; x00] 9 = (f2, Ok (2, b')) /\
    b' = page_bytes VfsDemo.calm 8 9 [x00; x00] (overlay base 2 [x77]) /\ b' = [x0b; x77].
Proof.
  destruct (WriteAt WriteDemo.lock_pgno VfsDemo.calm VfsDemo.replica (WriteDemo.writer 2 LockShared) [x77] 10) as [f1 r1] eqn:EW.
  assert (r1 = Ok 1) as -> by (change r1 with ((f1, r1).2); rewrite <- EW; vm_compute; reflexivity).
  destruct (ReadAt VfsDemo.calm (fun _ => VfsDemo.replica) (fun _ => run_polls [(VfsDemo.calm, VfsDemo.replica)]) f1 [x00; x00] 9) as [f2 r2] eqn:ER.
  assert (r2 = Ok (2, [x0b; x77])) as ->.
  { change r2 with ((f2, r2).2). rewrite <- ER. change f1 with ((f1, Ok 1 : result Z).1). rewrite <- EW. vm_compute. reflexivity. }
  destruct (write_then_read WriteDemo.lock_pgno VfsDemo.hist VfsDemo.good 8 WriteDemo.hist_length eq_refl
    VfsDemo.calm VfsDemo.replica (WriteDemo.writer 2 LockShared) 1 [x77] 10 f1 1 VfsDemo.calm (fun _ => VfsDemo.replica)
    (fun _ => [(VfsDemo.calm, VfsDemo.replica)]) [x00; x00] 9 f2 2 [x0b; x77]) as (base & _ & Hsame & _).
  - reflexivity.
  - split; [apply VfsDemo.index1_at|done|reflexivity].
  - apply WriteDemo.writer_ok.
  - reflexivity.
  - vm_compute. discriminate.
  - exact EW.
  - intros i. reflexivity.
  - exact ER.
  - exists f1, f2, base, [x0b; x77]. split; [reflexivity|]. split; [exact ER|]. split; [|reflexivity]. apply Hsame. reflexivity.
Defined.

Lemma sync_conflict_witness :
  exists err, syncToRemoteWithLock WriteDemo.lock_pgno WriteDemo.accepts WriteDemo.cut VfsDemo.calm VfsDemo.replica (mkVFS None 0) WriteDemo.dirty1
    = (VfsDemo.replica, mkVFS None 0, WriteDemo.dirty1, Err err) /\ errors_Is err ErrConflict = true.
Proof.
  apply (sync_conflict WriteDemo.lock_pgno WriteDemo.accepts WriteDemo.cut VfsDemo.calm VfsDemo.replica (mkVFS None 0) WriteDemo.dirty1
    VfsDemo.second.1 (mkIter [VfsDemo.first.1; VfsDemo.second.1] None None)).
  - intros E. assert (ws_dirty (vf_write WriteDemo.dirty1) !! 1 = Some 0) as Hl by (vm_compute; reflexivity). rewrite E in Hl. discriminate Hl.
  - vm_compute. right. left. reflexivity.
  - vm_compute. discriminate.
  - vm_compute. reflexivity.
  - vm_compute. reflexivity.
  - reflexivity.
Defined.

Lemma sync_publishes_witness :
  exists cl' vs' f' pages info,
    syncToRemoteWithLock WriteDemo.lock_pgno WriteDemo.accepts WriteDemo.cut VfsDemo.calm WriteDemo.one (mkVFS None 0) WriteDemo.dirty1 = (cl', vs', f', Ok ()) /\
    WriteLTXFile WriteDemo.one 0 2 2 (mkReader (EncodeLTX (dirty_ltx WriteDemo.dirty1 pages)) None) = (cl', Ok info) /\
    ws_dirty (vf_write f') = ∅.
Proof.
  destruct (syncToRemoteWithLock WriteDemo.lock_pgno WriteDemo.accepts WriteDemo.cut VfsDemo.calm WriteDemo.one (mkVFS None 0) WriteDemo.dirty1)
    as [[[cl' vs'] f'] r] eqn:ES.
  assert (r = Ok ()) as -> by (change r with ((cl', vs', f', r).2); rewrite <- ES; vm_compute; reflexivity).
  destruct (sync_publishes WriteDemo.lock_pgno VfsDemo.hist WriteDemo.accepts WriteDemo.cut WriteDemo.upload_reads
    VfsDemo.calm WriteDemo.one (mkVFS None 0) WriteDemo.dirty1 1 cl' vs' f') as (pages & info & HW & _ & _ & Hd & _).
  - apply WriteDemo.dirty1_ok.
  - intros E. assert (ws_dirty (vf_write WriteDemo.dirty1) !! 1 = Some 0) as Hl by (vm_compute; reflexivity). rewrite E in Hl. discriminate Hl.
  - exact ES.
  - exists cl', vs', f', pages, info. split; [reflexivity|]. split; [exact HW|exact Hd].
Defined.

(** ** Runs that lose writes *)
Module WriteAnomalies.
Import VfsDemo WriteDemo Anomalies.

(** After an upload the index still has the old entries and the position is past the
    new file, so no poll adds them: once a page leaves the cache, reads return its
    content before the write. *)
Definition small_writer : VFSFile := write one (write one (writer 1 LockNone) (repeat x77 8) 0) (repeat x78 8) 8.
Definition synced : Mem.client * VFS * VFSFile * result () := sync one (mkVFS None 0) small_writer.

Theorem stale_after_upload :
  read_result one small_writer 10 = Ok (2, repeat x78 2) /\ synced.2 = Ok () /\
  let cl := synced.1.1.1 in
  let f := poll cl synced.1.2 in
  rv_pos (vf_view f) = 2 /\ read_result cl f 10 = Ok (2, repeat x0b 2).
Proof. vm_compute. repeat split. Qed.

Definition lock_for_write (id : nat) (vs : VFS) (f : VFSFile) : VFS * VFSFile :=
  match Lock id vs f LockReserved with Some (vs, f, _) => (vs, f) | None => (vs, f) end.
Definition unlock (id : nat) (vs : VFS) (f : VFSFile) : VFS * VFSFile := (Unlock id vs f LockNone).1.

(** Two connections of one VFS: the first writes page 1 and uploads it; the second,
    which has not polled yet, takes the write lock, is moved to that transaction
    without its pages, and writes page 1 from the content before: the upload succeeds
    and the first write is gone. *)
Definition first_run : Mem.client * VFS * VFSFile * result () :=
  let '(vs, f) := lock_for_write 0 (mkVFS None 0) (writer 2 LockNone) in
  let f := write one f (repeat x77 4) 0 in
  let '(vs, f) := unlock 0 vs f in
  sync one vs f.
Definition second_run : Mem.client * VFS * VFSFile * result () :=
  let '(cl, vs, _, _) := first_run in
  let '(vs, f) := lock_for_write 1 vs (writer 2 LockNone) in
  let f := write cl f (repeat x78 4) 4 in
  let '(vs, f) := unlock 1 vs f in
  sync cl vs f.

Theorem second_writer_overwrites :
  first_run.2 = Ok () /\ second_run.2 = Ok () /\
  read_result first_run.1.1.1 (opened first_run.1.1.1) 2 = Ok (2, repeat x77 2) /\
  read_result second_run.1.1.1 (opened second_run.1.1.1) 2 = Ok (2, repeat x0a 2).
Proof. vm_compute. repeat split. Qed.

(** Two processes: both check for conflicts before either uploads; the second upload
    replaces the object of the first. *)
Definition other : VFSFile := write one (writer 2 LockNone) (repeat x78 8) 8.
Definition upload (cl : Mem.client) (f : VFSFile) : Mem.client * result FileInfo :=
  WriteLTXFile cl 0 2 2 (createLTXFromDirty lock_pgno accepts cut calm f).

Theorem upload_race :
  checkForConflict one dirty1 = Ok () /\ checkForConflict one other = Ok () /\
  is_ok (upload one dirty1).2 = true /\ is_ok (upload (upload one dirty1).1 other).2 = true /\
  Mem.objects (upload (upload one dirty1).1 other).1 = Mem.objects (upload one other).1.
Proof. vm_compute. repeat split. Qed.

(** A partial write whose page cannot be fetched replaces the rest of the page with
    zeros and reports success. *)
Definition unreachable : Mem.client := Mem.mkClient [] eq_refl.

Theorem partial_write_without_page :
  (WriteAt lock_pgno calm unreachable (writer 2 LockNone) [x77] 10).2 = Ok 1 /\
  read_result one (write unreachable (writer 2 LockNone) [x77] 10) 10 = Ok (2, [x77; x00]) /\
  read_result one (write one (writer 2 LockNone) [x77] 10) 10 = Ok (2, [x77; x0b]).
Proof. vm_compute. repeat split. Qed.

(** Truncation does not reduce the size that the file reports. *)
Theorem truncate_keeps_size :
  let '(f, r) := Truncate calm (writer 2 LockNone) 8 in
  r = Ok () /\ rv_commit (vf_view f) = 1 /\ FileSize f = Ok 16.
Proof. vm_compute. repeat split. Qed.

(** Two files that were opened without write support are enabled one after the other.  They open the same buffer file, and opening it
    empties it: the page that the first has written and not yet uploaded is gone, and when the second writes a page, that is what the
    first reads and would upload in its place. *)
Definition cold : VFSFile := mkVFSFile (mkView 1 1 index1 ∅ false None 0 2) (mkWrite false ∅ 0 0 None 0 false false) (cache_New 2) LockNone 8 None.
Definition warm : VFSFile := (EnableWrites calm cold).1.
Definition first_locked : VFSFile := match Lock 0 (mkVFS None 0) warm LockReserved with Some (_, f, _) => f | None => warm end.
Definition first_written : VFSFile := write one first_locked (repeat x77 8) 0.
Definition first_idle : VFSFile := (Unlock 0 (mkVFS (Some 0%nat) 0) first_written LockNone).1.2.
Definition second_locked : VFSFile := match Lock 1 (mkVFS None 0) warm LockReserved with Some (_, f, _) => f | None => warm end.
Definition second_written : VFSFile := write one second_locked (repeat x78 8) 8.
Definition bufs (n : nat) : buffer_files := mkBufs (if (n =? 1)%nat then {[0%nat := 0%nat]} else {[0%nat := 0%nat; 1%nat := 0%nat]}) (Some 0%nat) 1.
Definition files0 : gmap nat VFSFile := <[1%nat := cold]> (<[0%nat := cold]> ∅).
Definition files1 : gmap nat VFSFile := <[0%nat := first_idle]> (put (bufs 1) 0 first_written (<[0%nat := first_locked]> (put (bufs 1) 0 warm files0))).
Definition files2 : gmap nat VFSFile := put (bufs 2) 1 warm files1.
Definition files3 : gmap nat VFSFile := put (bufs 2) 1 second_written (<[1%nat := second_locked]> files2).
Definition page1 (fs : gmap nat VFSFile) : option (result page) := f ← fs !! 0%nat; o ← ws_dirty (vf_write f) !! 1; Some (buffer_read calm f 1 o).

Lemma cold_fresh : fresh cold.
Proof. split; reflexivity. Qed.
Lemma files1_reachable : reachable lock_pgno accepts cut one (mkSystem one (mkVFS None 0) files1 (bufs 1)).
Proof.
  eapply rtc_l; [apply (S_open _ _ _ _ _ _ no_bufs 0 cold); [reflexivity|apply cold_fresh]|].
  eapply rtc_l; [apply (S_open _ _ _ _ _ _ no_bufs 1 cold); [reflexivity|apply cold_fresh]|].
  eapply rtc_l; [apply (S_enable _ _ _ one (mkVFS None 0) files0 no_bufs 0 cold calm warm (Ok ())); [reflexivity|vm_compute; reflexivity]|].
  change (enable_opens 0 cold (Ok ()) no_bufs) with (bufs 1).
  eapply rtc_l; [apply (S_lock _ _ _ one (mkVFS None 0) _ (bufs 1) 0 warm LockReserved (mkVFS (Some 0%nat) 0) first_locked (Ok ())); [apply lookup_put_same|vm_compute; reflexivity]|].
  eapply rtc_l; [apply (S_write _ _ _ one (mkVFS (Some 0%nat) 0) _ (bufs 1) 0 first_locked calm (repeat x77 8) 0 first_written (Ok 8)); [apply lookup_insert_eq|vm_compute; reflexivity]|].
  apply rtc_once. apply (S_unlock _ _ _ one (mkVFS (Some 0%nat) 0) _ (bufs 1) 0 first_written LockNone (mkVFS None 0) first_idle (Ok ())); [apply lookup_put_same|vm_compute; reflexivity].
Qed.
Lemma files2_step : sys_step lock_pgno accepts cut (mkSystem one (mkVFS None 0) files1 (bufs 1)) (mkSystem one (mkVFS None 0) files2 (bufs 2)).
Proof. apply (S_enable _ _ _ one (mkVFS None 0) files1 (bufs 1) 1 cold calm warm (Ok ())); [vm_compute; reflexivity|vm_compute; reflexivity]. Qed.
Lemma files3_reachable : rtc (sys_step lock_pgno accepts cut) (mkSystem one (mkVFS None 0) files2 (bufs 2)) (mkSystem one (mkVFS (Some 1%nat) 0) files3 (bufs 2)).
Proof.
  eapply rtc_l; [apply (S_lock _ _ _ one (mkVFS None 0) _ (bufs 2) 1 warm LockReserved (mkVFS (Some 1%nat) 0) second_locked (Ok ())); [apply lookup_put_same|vm_compute; reflexivity]|].
  apply rtc_once. apply (S_write _ _ _ one (mkVFS (Some 1%nat) 0) _ (bufs 2) 1 second_locked calm (repeat x78 8) 8 second_written (Ok 8)); [apply lookup_insert_eq|vm_compute; reflexivity].
Qed.
Theorem enable_destroys : exists s1 s2 s3,
  reachable lock_pgno accepts cut one s1 /\ page1 (sy_files s1) = Some (Ok (repeat x77 8)) /\
  sys_step lock_pgno accepts cut s1 s2 /\ (exists r, page1 (sy_files s2) = Some r /\ is_ok r = false) /\
  rtc (sys_step lock_pgno accepts cut) s2 s3 /\ page1 (sy_files s3) = Some (Ok (repeat x78 8)).
Proof.
  eexists _, _, _. split; [exact files1_reachable|]. split; [vm_compute; reflexivity|]. split; [exact files2_step|].
  split; [eexists; split; [vm_compute; reflexivity|reflexivity]|]. split; [exact files3_reachable|]. vm_compute. reflexivity.
Qed.
End WriteAnomalies.
