(* ===== verification/Hydration.v ===== *)
(** * The virtual file system: hydration

    Model of [Hydrator] and [runHydration] in src/vfs.go: the local copy of the
    database that is restored in the background, kept up to date by polls and
    uploads, and kept across restarts with a companion file that records its
    transaction. *)

From Stdlib Require Import ZArith Lia Strings.Byte.
From stdpp Require Import base numbers list strings gmap sorting.
From S2P Require Import Prelude Ltx RestorePlan Db PageIndex Vfs VfsWrite.
From S2P Require Follow.
Local Open Scope Z_scope.

(** ** The companion file

    The transaction in decimal and a newline. *)
Definition digit (d : Z) : byte := Zbyte (48 + d).

Fixpoint print_digits (fuel : nat) (z : Z) (acc : list byte) : list byte :=
  match fuel with
  | O => acc
  | S fuel => if z <? 10 then digit z :: acc else print_digits fuel (z / 10) (digit (z mod 10) :: acc)
  end.

(** [fmt.Fprintf(tmp, "%d\n", txid)]; a uint64 has at most twenty digits. *)
Definition print_meta (txid : TXID) : list byte := print_digits 20 txid [x0a].

(** [strings.TrimSpace], for the spaces of ASCII. *)
Definition is_space (b : byte) : bool := existsb (Byte.eqb b) [x09; x0a; x0b; x0c; x0d; x20].

Fixpoint trim_left (b : list byte) : list byte :=
  match b with
  | [] => []
  | c :: b' => if is_space c then trim_left b' else b
  end.

Definition TrimSpace (b : list byte) : list byte := reverse (trim_left (reverse (trim_left b))).

(** [strconv.ParseUint(s, 10, 64)]. *)
Fixpoint parse_digits (b : list byte) (acc : Z) : result Z :=
  match b with
  | [] => Ok acc
  | c :: b =>
      let d := byteZ c - 48 in
      if (d <? 0) || (9 <? d) then Err (EMsg "invalid syntax")
      else if 2 ^ 64 <=? acc * 10 + d then Err (EMsg "value out of range")
      else parse_digits b (acc * 10 + d)
  end.

Definition ParseUint (b : list byte) : result Z :=
  match b with [] => Err (EMsg "invalid syntax") | _ => parse_digits b 0 end.

(** What is on disk: the hydration file and the companion file. *)
Record hdisk := mkDisk { hd_file : option (list byte); hd_meta : option (list byte) }.

(** The file operations that can fail. *)
Inductive hop : Type :=
| HMkdir | HStat | HOpen | HCreate | HRemoveMeta | HRemoveFile | HReadMeta
| HMetaTemp | HMetaWrite | HMetaSync | HMetaClose | HMetaRename | HMetaDir | HFileClose.

Definition hio (fault : hop -> option error) (op : hop) : result () :=
  match fault op with Some err => Err err | None => Ok () end.

Definition loadMeta (fault : hop -> option error) (d : hdisk) : result TXID :=
  _ ← hio fault HReadMeta;
  match hd_meta d with
  | None => Err (EPath "open" ErrNotExist)
  | Some data => ParseUint (TrimSpace data) wrapping "parse hydration meta"
  end.

(** The rename is the only step that changes the companion file. *)
Definition saveMeta (fault : hop -> option error) (d : hdisk) (txid : TXID) : hdisk * result () :=
  match (_ ← hio fault HMetaTemp wrapping "create temp meta file";
         _ ← hio fault HMetaWrite wrapping "write hydration meta";
         _ ← hio fault HMetaSync wrapping "sync temp meta file";
         _ ← hio fault HMetaClose wrapping "close temp meta file";
         hio fault HMetaRename wrapping "rename hydration meta") with
  | Ok _ => (mkDisk (hd_file d) (Some (print_meta txid)), hio fault HMetaDir wrapping "sync hydration meta directory")
  | r => (d, r)
  end.

(** ** Opening and closing *)

(** [os.Remove] of a file that may be missing. *)
Definition ignore_missing (fault : hop -> option error) (op : hop) : result () :=
  match fault op with Some err => if os_IsNotExist err then Ok () else Err err | None => Ok () end.


(** [Init]: a persistent file is reused when its companion file can be read. *)
Definition Hydrator_Init (fault : hop -> option error) (persistent : bool) (pageSize : Z) (d : hdisk) : hdisk * result Hydrator :=
  match hio fault HMkdir wrapping "create hydration directory" with
  | Err err => (d, Err err)
  | Panic s => (d, Panic s)
  | Ok _ =>
      let resumed :=
        if persistent then
          match loadMeta fault d, hio fault HStat, hd_file d with
          | Ok txid, Ok _, Some b => Some (txid, b)
          | _, _, _ => None
          end
        else None in
      match resumed with
      | Some (txid, b) =>
          match hio fault HOpen wrapping "open persistent hydration file" with
          | Ok _ => (d, Ok (mkHydrator persistent b false txid None pageSize))
          | Err err => (d, Err err)
          | Panic s => (d, Panic s)
          end
      | None =>
          let removed :=
            if persistent then
              _ ← ignore_missing fault HRemoveMeta wrapping "remove stale hydration meta"; Ok (mkDisk (hd_file d) None)
            else Ok d in
          match removed with
          | Err err => (d, Err err)
          | Panic s => (d, Panic s)
          | Ok d =>
              match hio fault HCreate wrapping "create hydration file" with
              | Ok _ => (mkDisk (Some []) (hd_meta d), Ok (mkHydrator persistent [] false 0 None pageSize))
              | Err err => (d, Err err)
              | Panic s => (d, Panic s)
              end
          end
      end
  end.

(** [Close]: a persistent file that was restored is kept. *)
Definition Hydrator_Close (fault : hop -> option error) (h : Hydrator) (d : hdisk) : hdisk * result () :=
  let d := mkDisk (Some (h_file h)) (hd_meta d) in
  if h_persistent h && (0 <? h_txid h) then ((saveMeta fault d (h_txid h)).1, hio fault HFileClose)
  else
    match (_ ← hio fault HFileClose; ignore_missing fault HRemoveFile) with
    | Ok _ => match ignore_missing fault HRemoveMeta with
              | Ok _ => (mkDisk None None, Ok ())
              | r => (mkDisk None (hd_meta d), r)
              end
    | r => (d, r)
    end.

(** ** Restoring *)

Section Hydrate.
Context {C : Type} `{RC : ReplicaClient C} `{LF : LTXFormat}.

(** The ltx package: compacting the streams and decoding the result into a file, which
    yields the bytes written and the error, and the page decoder. *)
Variable decode_database : list Reader -> list byte * option error.
Variable ltx_NewDecoder : Reader -> Z -> Follow.decoder.

Fixpoint open_infos (client : C) (infos : list FileInfo) : result (list Reader) :=
  match infos with
  | [] => Ok []
  | info :: infos =>
      rc ← OpenLTXFile client (Level info) (MinTXID info) (MaxTXID info) 0 0 wrapping "open ltx file";
      rdrs ← open_infos client infos;
      Ok (rc :: rdrs)
  end.

Definition Restore (client : C) (h : Hydrator) (infos : list FileInfo) : Hydrator * result () :=
  match open_infos client infos with
  | Err err => (h, Err err)
  | Panic s => (h, Panic s)
  | Ok [] => (h, Err (EMsg "no ltx files for hydration"))
  | Ok rdrs =>
      match decode_database rdrs with
      | (b, Some err) => (set_h_file b h, Err (EWrap "decode database" err))
      | (b, None) => (SetTXID (match last infos with Some info => MaxTXID info | None => 0 end) (set_h_file b h), Ok ())
      end
  end.

Fixpoint apply_pages (e : venv) (h : Hydrator) (pages : list (Z * page)) (end_ : option error) : Hydrator * result () :=
  match pages with
  | [] => (h, match end_ with Some err => Err (EWrap "decode page" err) | None => Ok () end)
  | (pgno, data) :: pages =>
      match vio e (HydrationWrite pgno) with
      | Ok _ => apply_pages e (set_h_file (file_writeAt (h_file h) data (hydrated_off h pgno)) h) pages end_
      | Err err => (h, Err (EWrap "write page" err))
      | Panic s => (h, Panic s)
      end
  end.

Definition ApplyLTX (e : venv) (client : C) (h : Hydrator) (info : FileInfo) : Hydrator * result () :=
  match OpenLTXFile client (Level info) (MinTXID info) (MaxTXID info) 0 0 wrapping "open ltx file" with
  | Err err => (h, Err err)
  | Panic s => (h, Panic s)
  | Ok rc =>
      let dec := ltx_NewDecoder rc (h_pageSize h) in
      match Follow.dec_Header dec wrapping "decode header" with
      | Ok _ => apply_pages e h (Follow.dec_pages dec) (Follow.dec_end dec)
      | Err err => (h, Err err)
      | Panic s => (h, Panic s)
      end
  end.

Fixpoint CatchUp_loop (e : venv) (client : C) (h : Hydrator) (items : list FileInfo) (toTXID : TXID) : Hydrator * result () :=
  match items with
  | [] => (h, Ok ())
  | info :: items =>
      if toTXID <? MaxTXID info then (h, Ok ())
      else
        match ApplyLTX e client h info with
        | (h, Ok _) => CatchUp_loop e client (SetTXID (MaxTXID info) h) items toTXID
        | (h, Err err) => (h, Err (EWrap "apply ltx to hydrated file" err))
        | (h, Panic s) => (h, Panic s)
        end
  end.

Definition CatchUp (e : venv) (client : C) (h : Hydrator) (fromTXID toTXID : TXID) : Hydrator * result () :=
  match LTXFiles client 0 (txid_succ fromTXID) false wrapping "list ltx files for catch-up" with
  | Err err => (h, Err err)
  | Panic s => (h, Panic s)
  | Ok itr => CatchUp_loop e client h (itr_items itr) toTXID
  end.

Definition failed (r : Hydrator * result ()) : Hydrator * result () :=
  match r with (h, Err err) => (SetErr err h, Err err) | _ => r end.

(** The work of [runHydration] on the copy; the restore plan is read from the storage as it is at first, catching up lists it
    as it is then. *)
Definition hydrate (e : venv) (client later : C) (h : Hydrator) (infos : list FileInfo) (currentTXID : TXID) : Hydrator * result () :=
  let restored :=
    if (0 <? h_txid h) && (h_txid h <=? currentTXID) then (h, Ok ())
    else
      match (if 0 <? h_txid h then hydrator_Truncate e h 0 else (h, Ok ())) with
      | (h, Ok _) => failed (Restore client h infos)
      | r => failed r
      end in
  match restored with
  | (h, Ok _) =>
      match (if h_txid h <? currentTXID then failed (CatchUp e later h (h_txid h) currentTXID) else (h, Ok ())) with
      | (h, Ok _) => (set_h_complete true h, Ok ())
      | r => r
      end
  | r => r
  end.

(** [runHydration]: the position of the file is read once, at the start; [meanwhile] is what polls make of the file until the copy is
    complete (they leave a copy that is not complete alone). *)
Definition runHydration `{PageCache} (e : venv) (client later : C) (meanwhile : VFSFile -> VFSFile) (infos : list FileInfo) (f : VFSFile)
    : VFSFile * result () :=
  match vf_hydrator f with
  | None => (f, Panic "invalid memory address or nil pointer dereference")
  | Some h =>
      let '(h, r) := hydrate e client later h infos (rv_pos (vf_view f)) in
      let f := set_hydrator (Some h) (meanwhile f) in
      (match r with Ok _ => set_cache (cache_Purge (vf_cache f)) f | _ => f end, r)
  end.
End Hydrate.

(** ** The companion file is read back *)

Lemma byteZ_digit d : 0 <= d < 10 -> byteZ (digit d) = 48 + d.
Proof. intros Hd. unfold digit. rewrite byteZ_Zbyte, Z.mod_small; lia. Qed.

Lemma digit_not_space d : 0 <= d < 10 -> is_space (digit d) = false.
Proof.
  intros Hd. assert (d = 0 \/ d = 1 \/ d = 2 \/ d = 3 \/ d = 4 \/ d = 5 \/ d = 6 \/ d = 7 \/ d = 8 \/ d = 9) as Hc by lia.
  repeat destruct Hc as [->|Hc]; try reflexivity. by subst.
Qed.

(** The digits that are printed, as they are parsed. *)
Definition digits_of (ds : list byte) (z : Z) : Prop :=
  Forall (fun c => is_space c = false) ds /\ ds <> [] /\
  forall a, 0 <= a -> a * 10 ^ Z.of_nat (length ds) + z < 2 ^ 64 -> parse_digits ds a = Ok (a * 10 ^ Z.of_nat (length ds) + z).

Lemma parse_digits_app ds1 ds2 a : parse_digits (ds1 ++ ds2) a = parse_digits ds1 a ≫= parse_digits ds2.
Proof.
  revert a. induction ds1 as [|c ds1 IH]; intros a; [done|]. cbn [parse_digits app]. case_if; [done|]. case_if; [done|]. apply IH.
Qed.

Lemma digits_of_one d : 0 <= d < 10 -> digits_of [digit d] d.
Proof.
  intros Hd. split_and!; [by constructor; [apply digit_not_space|]|done|]. intros a Ha Hb. cbn [parse_digits length]. rewrite byteZ_digit by done.
  cbn in Hb |- *. destruct (Z.ltb_spec (48 + d - 48) 0), (Z.ltb_spec 9 (48 + d - 48)); try lia. cbn [orb].
  destruct (Z.leb_spec (2 ^ 64) (a * 10 + (48 + d - 48))); [lia|]. f_equal. lia.
Qed.

Lemma digits_of_snoc ds q d : 0 <= d < 10 -> 0 <= q -> digits_of ds q -> digits_of (ds ++ [digit d]) (q * 10 + d).
Proof.
  intros Hd Hq (HF & Hne & HP). destruct (digits_of_one d Hd) as (HF1 & _ & HP1).
  split_and!; [by apply Forall_app|by destruct ds|]. intros a Ha. rewrite length_app. cbn [length].
  rewrite Nat2Z.inj_add, Z.pow_add_r by lia. change (10 ^ Z.of_nat 1) with 10. intros Hb.
  assert (0 <= a * 10 ^ Z.of_nat (length ds)) by (apply Z.mul_nonneg_nonneg; [done|apply Z.pow_nonneg; lia]).
  rewrite parse_digits_app, HP by lia. cbn [mbind result_bind]. rewrite HP1 by (cbn; lia). f_equal. cbn. lia.
Qed.

Lemma print_digits_spec fuel z acc : 0 <= z < 10 ^ Z.of_nat fuel -> (0 < fuel)%nat ->
  exists ds, print_digits fuel z acc = ds ++ acc /\ digits_of ds z.
Proof.
  revert z acc. induction fuel as [|fuel IH]; intros z acc Hz Hf; [lia|]. cbn [print_digits].
  destruct (Z.ltb_spec z 10); [exists [digit z]; split; [done|by apply digits_of_one; lia]|].
  rewrite Nat2Z.inj_succ, Z.pow_succ_r in Hz by lia.
  destruct fuel as [|fuel]; [cbn in Hz; lia|].
  destruct (IH (z / 10) (digit (z mod 10) :: acc)) as (ds & -> & Hds).
  { split; [apply Z.div_pos; lia|]. apply Z.div_lt_upper_bound; lia. }
  { lia. }
  pose proof (Z.mod_pos_bound z 10 ltac:(lia)). exists (ds ++ [digit (z mod 10)]). split; [by rewrite <- app_assoc|].
  replace z with (z / 10 * 10 + z mod 10) at 2 by (pose proof (Z.div_mod z 10); lia).
  apply digits_of_snoc; [lia|apply Z.div_pos; lia|done].
Qed.

Lemma trim_left_nonspace ds b : Forall (fun c => is_space c = false) ds -> ds <> [] -> trim_left (ds ++ b) = ds ++ b.
Proof. destruct ds as [|c ds]; [done|]. intros [Hc _]%Forall_cons _. cbn [app trim_left]. by rewrite Hc. Qed.

Lemma TrimSpace_digits ds : Forall (fun c => is_space c = false) ds -> ds <> [] -> TrimSpace (ds ++ [x0a]) = ds.
Proof.
  intros HF Hne. unfold TrimSpace. rewrite trim_left_nonspace by done. rewrite reverse_app.
  change (trim_left (reverse [x0a] ++ reverse ds)) with (trim_left (reverse ds)).
  rewrite <- (app_nil_r (reverse ds)), trim_left_nonspace; [by rewrite app_nil_r, reverse_involutive| |].
  - by apply Forall_reverse.
  - intros E. apply (f_equal reverse) in E. by rewrite reverse_involutive in E.
Qed.

(** The companion file survives a restart.  The transaction that is saved is the
    one that is loaded, for every uint64; a save that fails before the rename leaves
    the previous companion file in place. *)
Theorem hydration_meta_roundtrip fault d txid d' r :
  0 <= txid < 2 ^ 64 -> saveMeta fault d txid = (d', r) ->
  (hd_meta d' = hd_meta d /\ is_ok r = false) \/
  (forall fault', fault' HReadMeta = None -> loadMeta fault' d' = Ok txid).
Proof.
  intros Ht. unfold saveMeta, hio.
  destruct (fault HMetaTemp); [intros [= <- <-]; by left|]. destruct (fault HMetaWrite); [intros [= <- <-]; by left|].
  destruct (fault HMetaSync); [intros [= <- <-]; by left|]. destruct (fault HMetaClose); [intros [= <- <-]; by left|].
  destruct (fault HMetaRename); [intros [= <- <-]; by left|]. cbn [mbind result_bind wrap_err]. intros [= <- _]. right. intros fault' Hf.
  unfold loadMeta, hio. rewrite Hf. cbn [mbind result_bind hd_meta]. unfold print_meta.
  destruct (print_digits_spec 20 txid [x0a]) as (ds & -> & HF & Hne & HP); [split; [lia|]; cbn; lia|lia|].
  rewrite TrimSpace_digits by done. unfold ParseUint. destruct ds as [|c ds]; [done|]. by rewrite (HP 0) by lia.
Qed.

(** ** The hydrated file *)
Section Exact.
Context {C : Type} `{RCL : ReplicaClientLaws C} `{LF : LTXFormat}.
Variable decode_database : list Reader -> list byte * option error.
Variable ltx_NewDecoder : Reader -> Z -> Follow.decoder.
Variable hist : TXID -> Z -> option page.
Variable hsize : TXID -> Z.
Variable pageSize : Z.
Hypothesis hist_size : forall t p, is_Some (hist t p) <-> 1 <= p <= hsize t.
Hypothesis hist_length : forall t p data, hist t p = Some data -> Z.of_nat (length data) = pageSize.
Hypothesis hsize_u32 : forall t, hsize t < 2 ^ 32.
Hypothesis pageSize_pos : 0 < pageSize.

(** Page [p] of the hydrated file. *)
Definition hydrated_page (h : Hydrator) (p : Z) : option page :=
  if p * pageSize <=? Z.of_nat (length (h_file h)) then Some (slice (h_file h) ((p - 1) * pageSize) pageSize) else None.

(** The file holds the database after transaction [t]. *)
Definition hydrated_at (h : Hydrator) (t : TXID) : Prop :=
  h_pageSize h = pageSize /\ forall p data, hist t p = Some data -> hydrated_page h p = Some data.

Lemma hist_range t p data : hist t p = Some data -> 1 <= p < 2 ^ 32.
Proof. intros E. assert (1 <= p <= hsize t) by (apply hist_size; by rewrite E). pose proof (hsize_u32 t). lia. Qed.

Lemma hydrated_page_write h p data q :
  h_pageSize h = pageSize -> 1 <= p < 2 ^ 32 -> 1 <= q -> Z.of_nat (length data) = pageSize ->
  (q = p -> hydrated_page (set_h_file (file_writeAt (h_file h) data (hydrated_off h p)) h) q = Some data) /\
  (q <> p -> is_Some (hydrated_page h q) -> hydrated_page (set_h_file (file_writeAt (h_file h) data (hydrated_off h p)) h) q = hydrated_page h q).
Proof.
  intros Hps Hp Hq Hl. unfold hydrated_page, hydrated_off. cbn [h_file set_h_file]. rewrite Hps, u32_small by lia.
  assert (0 <= (p - 1) * pageSize) by nia. rewrite (length_writeAt (h_file h) data) by done. split.
  - intros ->. destruct (Z.leb_spec (p * pageSize) (Z.max (Z.of_nat (length (h_file h))) ((p - 1) * pageSize + Z.of_nat (length data)))); [|lia].
    pose proof (slice_writeAt_same (h_file h) data ((p - 1) * pageSize) ltac:(done)) as Hw. rewrite Hl in Hw. by rewrite Hw.
  - intros Hne. destruct (Z.leb_spec (q * pageSize) (Z.of_nat (length (h_file h)))); [intros _|by intros []].
    destruct (Z.leb_spec (q * pageSize) (Z.max (Z.of_nat (length (h_file h))) ((p - 1) * pageSize + Z.of_nat (length data)))); [|lia].
    rewrite slice_writeAt_other; [done|nia|lia|done|lia|]. rewrite Hl. destruct (Z.lt_total p q) as [|[|]]; [right|lia|left]; nia.
Qed.

(** Writing the pages of transaction [T]. *)
Lemma apply_pages_spec e T h pages h' :
  h_pageSize h = pageSize -> (forall p d, In (p, d) pages -> hist T p = Some d) -> apply_pages e h pages None = (h', Ok ()) ->
  h_pageSize h' = pageSize /\ h_txid h' = h_txid h /\ h_complete h' = h_complete h /\
  forall p d, hist T p = Some d -> p ∈ pages.*1 \/ hydrated_page h p = Some d -> hydrated_page h' p = Some d.
Proof.
  revert h. induction pages as [|[q dq] pages IH]; intros h Hps Hg; cbn [apply_pages].
  { intros [= <-]. split_and!; try done. intros p d _ [Hin|]; [|done]. by apply elem_of_nil in Hin. }
  destruct (vio e (HydrationWrite q)); [|done..]. intros HA. pose proof (Hg q dq ltac:(by left)) as Hq.
  pose proof (hist_range _ _ _ Hq) as Hqr. pose proof (hist_length _ _ _ Hq) as Hql.
  apply IH in HA as (H1 & H2 & H3 & H4); [|done|intros; apply Hg; by right].
  split_and!; [done..|]. intros p d Hp Hor. apply H4; [done|]. pose proof (hist_range _ _ _ Hp) as Hpr.
  destruct (hydrated_page_write h q dq p Hps Hqr ltac:(lia) Hql) as [Hw1 Hw2]. destruct (decide (p = q)) as [->|Hne].
  - right. rewrite Hw1 by done. congruence.
  - destruct Hor as [Hin|Hh]; [|right; rewrite Hw2; [done|done|by rewrite Hh]].
    rewrite fmap_cons in Hin. apply elem_of_cons in Hin as [|Hin]; [done|by left].
Qed.

(** A stored file decodes to the pages of its last transaction. *)
Definition good_object (cl : C) (info : FileInfo) : Prop :=
  forall rd, OpenLTXFile cl (Level info) (MinTXID info) (MaxTXID info) 0 0 = Ok rd ->
    Follow.good_stream hist hsize info (ltx_NewDecoder rd pageSize).

Lemma ApplyLTX_spec e cl h info t h' :
  hydrated_at h t -> good_object cl info -> MinTXID info <= t + 1 -> t <= MaxTXID info ->
  ApplyLTX ltx_NewDecoder e cl h info = (h', Ok ()) -> hydrated_at h' (MaxTXID info) /\ h_txid h' = h_txid h.
Proof.
  intros [Hps Hat] Hg Hmin Hmax. unfold ApplyLTX.
  destruct (OpenLTXFile cl _ _ _ 0 0) as [rd|err|m] eqn:Ho; cbn [wrap_err]; [|done..]. rewrite Hps. specialize (Hg rd Ho).
  set (dec := ltx_NewDecoder rd pageSize) in *. destruct (Follow.dec_Header dec); cbn [wrap_err]; [|done..].
  destruct (Follow.dec_end dec) as [err|] eqn:Ee.
  { intros HA. exfalso. revert HA. generalize (Follow.dec_pages dec) as pages. clear. intros pages. revert h.
    induction pages as [|[q d] pages IH]; intros h; cbn [apply_pages]; [done|]. destruct (vio e _); [apply IH|done..]. }
  intros HA. apply (apply_pages_spec e (MaxTXID info)) in HA as (H1 & H2 & H3 & H4); [|done|apply (Follow.gs_page _ _ _ _ Hg)].
  split; [|done]. split; [done|]. intros p d Hp. apply H4; [done|].
  destruct (decide (p ∈ (Follow.dec_pages dec).*1)) as [|Hni]; [by left|]. right. apply Hat.
  rewrite <- Hp. apply (Follow.gs_covers _ _ _ _ Hg); [done|lia|done|]. apply hist_size. by rewrite Hp.
Qed.

(** Files of level 0 that lead from [cur] to exactly [to]. *)
Fixpoint leads (cl : C) (cur : TXID) (items : list FileInfo) (to : TXID) : Prop :=
  match items with
  | [] => cur = to
  | info :: items =>
      if to <? MaxTXID info then cur = to
      else MinTXID info <= cur + 1 /\ cur <= MaxTXID info /\ good_object cl info /\ leads cl (MaxTXID info) items to
  end.

Lemma CatchUp_loop_spec e cl items h to h' :
  hydrated_at h (h_txid h) -> leads cl (h_txid h) items to -> CatchUp_loop ltx_NewDecoder e cl h items to = (h', Ok ()) ->
  hydrated_at h' to /\ h_txid h' = to.
Proof.
  revert h. induction items as [|info items IH]; intros h Hat Hl; cbn [CatchUp_loop leads] in *.
  { intros [= <-]. by subst to. }
  destruct (to <? MaxTXID info); [intros [= <-]; by subst to|]. destruct Hl as (Hmin & Hmax & Hg & Hl).
  destruct (ApplyLTX ltx_NewDecoder e cl h info) as [h1 [u|err|m]] eqn:EA; [|done..]. destruct u.
  apply (ApplyLTX_spec e cl h info (h_txid h)) in EA as [[Hps Hat1] _]; [|done..]. apply IH; cbn; [|done]. by split.
Qed.

(** The ltx package merges the streams of a chain of files into the database of the
    last one. *)
Hypothesis decode_chain : forall infos rdrs T b h,
  Forall2 (fun info rd => Follow.good_stream hist hsize info (ltx_NewDecoder rd pageSize)) infos rdrs -> chain 0 infos T ->
  decode_database rdrs = (b, None) -> h_pageSize h = pageSize -> hydrated_at (set_h_file b h) T.

Lemma open_infos_spec cl infos rdrs :
  Forall (good_object cl) infos -> open_infos cl infos = Ok rdrs ->
  Forall2 (fun info rd => Follow.good_stream hist hsize info (ltx_NewDecoder rd pageSize)) infos rdrs.
Proof.
  intros HF. revert rdrs. induction infos as [|info infos IH]; intros rdrs; cbn [open_infos]; [intros [= <-]; constructor|].
  apply Forall_cons in HF as [Hg HF]. destruct (OpenLTXFile cl _ _ _ 0 0) as [rd|err|m] eqn:Ho; cbn [wrap_err mbind result_bind]; [|done..].
  destruct (open_infos cl infos) as [rest|err|m]; cbn [mbind result_bind]; [|done..]. intros [= <-]. constructor; [by apply Hg|by apply IH].
Qed.

Lemma Restore_spec cl h infos T h' :
  h_pageSize h = pageSize -> Forall (good_object cl) infos -> chain 0 infos T -> Restore decode_database cl h infos = (h', Ok ()) ->
  hydrated_at h' T /\ h_txid h' = T.
Proof.
  intros Hps HF Hch. unfold Restore. destruct (open_infos cl infos) as [rdrs|err|m] eqn:Eo; [|done..].
  pose proof (open_infos_spec cl infos rdrs HF Eo) as HF2. destruct rdrs as [|rd rdrs]; [done|].
  destruct (decode_database (rd :: rdrs)) as [b [err|]] eqn:Ed; [done|]. intros [= <-].
  destruct (decode_chain infos _ T b h HF2 Hch Ed Hps) as [H1 H2]. split; [by split|]. cbn.
  rewrite (chain_last 0 infos T 0 Hch). rewrite bool_decide_eq_false_2; [done|]. intros ->. by inversion HF2.
Qed.

Lemma failed_ok r h' : failed r = (h', Ok ()) -> r = (h', Ok ()).
Proof. destruct r as [h [u|err|m]]; cbn; intros E; congruence. Qed.

(** Reads inside a page. *)
Lemma hydrated_read e h t p off n b data :
  hydrated_at h t -> 0 <= off -> hist t (page_number off pageSize) = Some data -> off / pageSize + 1 < 2 ^ 32 ->
  off mod pageSize + Z.of_nat (length p) <= pageSize ->
  hydrator_ReadAt e h p off = Ok (n, b) -> b = page_bytes e pageSize off p data.
Proof.
  intros Hat Hoff Hp Hu32 Hin. unfold hydrator_ReadAt, vio. destruct (v_fault e _); cbn [wrap_err mbind result_bind]; [done|].
  pose proof (proj2 Hat _ _ Hp) as Hpg. unfold hydrated_page in Hpg. case_if; [|done]. injection Hpg as Hdata. breflect.
  assert (page_number off pageSize = off / pageSize + 1) as Hpn.
  { unfold page_number. assert (0 <= off / pageSize) by (apply Z.div_pos; lia). rewrite (u32_small (off / pageSize)), u32_small; lia. }
  rewrite Hpn in *. assert (slice (h_file h) off (Z.of_nat (length p)) = take (length p) (drop (Z.to_nat (off mod pageSize)) data)) as Hsl.
  { rewrite <- Hdata. unfold slice. rewrite skipn_firstn_comm, take_take, drop_drop.
    pose proof (Z.div_mod off pageSize ltac:(lia)). pose proof (Z.mod_pos_bound off pageSize pageSize_pos).
    assert (0 <= off / pageSize) by (apply Z.div_pos; lia). f_equal; [lia|]. f_equal. nia. }
  rewrite Hsl. pose proof (hist_length _ _ _ Hp) as Hdl. pose proof (Z.mod_pos_bound off pageSize pageSize_pos).
  assert (copy_into p (take (length p) (drop (Z.to_nat (off mod pageSize)) data)) = copy_into p (drop (Z.to_nat (off mod pageSize)) data)) as ->.
  { unfold copy_into. rewrite take_take, length_take, length_drop. f_equal; [f_equal; lia|]. rewrite !drop_ge; [done|lia|lia]. }
  unfold journal_mode, page_bytes. rewrite length_copy_into. destruct (off =? 0); cbn [negb andb]; [|by intros [= _ <-]].
  destruct (28 <=? Z.of_nat (length p)); by intros [= _ <-].
Qed.

(** The copy that catching up starts from. *)
Lemma hydration_base e cl h infos T current h1 :
  h_pageSize h = pageSize -> Forall (good_object cl) infos -> chain 0 infos T -> T <= current ->
  (0 < h_txid h <= current -> hydrated_at h (h_txid h)) ->
  (if (0 <? h_txid h) && (h_txid h <=? current) then (h, Ok ())
   else match (if 0 <? h_txid h then hydrator_Truncate e h 0 else (h, Ok ())) with
        | (h, Ok _) => failed (Restore decode_database cl h infos)
        | r => failed r
        end) = (h1, Ok ()) ->
  hydrated_at h1 (h_txid h1) /\ h_txid h1 <= current /\ (h_txid h1 = h_txid h \/ h_txid h1 = T).
Proof.
  intros Hps HF Hch HT Hres. destruct ((0 <? h_txid h) && (h_txid h <=? current)) eqn:Er.
  { intros [= <-]. breflect. split_and!; [apply Hres; lia|lia|by left]. }
  destruct (if 0 <? h_txid h then _ else _) as [h0 [u0|err|m]] eqn:E0; intros E1%failed_ok; [|done..].
  assert (h_pageSize h0 = pageSize) as Hps0
    by (destruct (0 <? h_txid h); [unfold hydrator_Truncate in E0; destruct (vio e _); injection E0 as <- _; done|by injection E0 as <- _]).
  destruct (Restore_spec cl h0 infos T h1 Hps0 HF Hch E1) as [H1 H2]. rewrite H2. split_and!; [done|lia|by right].
Qed.

(** The copy of a hydration that completes. *)
Lemma hydrate_exact e cl later h infos T current h' :
  h_pageSize h = pageSize -> Forall (good_object cl) infos -> chain 0 infos T -> T <= current ->
  (0 < h_txid h <= current -> hydrated_at h (h_txid h)) ->
  (forall t itr, t = h_txid h \/ t = T -> t < current -> LTXFiles later 0 (txid_succ t) false = Ok itr -> leads later t (itr_items itr) current) ->
  hydrate decode_database ltx_NewDecoder e cl later h infos current = (h', Ok ()) ->
  h_complete h' = true /\ hydrated_at h' current.
Proof.
  intros Hps HF Hch HT Hres Hcatch HR. unfold hydrate in HR.
  match type of HR with (match ?x with _ => _ end) = _ => destruct x as [h1 [[]|err|m]] eqn:E1 end; [|done..].
  apply (hydration_base e cl h infos T current h1) in E1 as (Hat1 & Hle & Hor); [|done..].
  destruct (Z.ltb_spec (h_txid h1) current) as [Hlt|Hge].
  - destruct (failed _) as [h2 [[]|err|m]] eqn:E2; [|done..]. injection HR as <-. split; [done|].
    apply failed_ok in E2. unfold CatchUp in E2.
    destruct (LTXFiles later 0 (txid_succ (h_txid h1)) false) as [itr|err|m] eqn:HL; cbn [wrap_err] in E2; [|done..].
    destruct (CatchUp_loop_spec e later (itr_items itr) h1 current h2 Hat1) as [[P1 P2] _]; [by apply Hcatch|done|]. by split.
  - injection HR as <-. split; [done|]. replace current with (h_txid h1) by lia. destruct Hat1 as [P1 P2]. by split.
Qed.

(** C36: hydration is exact for the position at which it starts.  When the background restore of a file completes, whether it
    resumed a persistent copy, which is right for the transaction recorded for it, or restored the plan the file was opened with, and the
    level 0 files it then applied lead to the position that the file had when it started, the local copy
    holds every page of the database at that position and reads inside a page return
    its bytes, whatever polls have run meanwhile.  That is the position of the file when they have not moved it;
    [HydrateAnomalies.polled_while_hydrating] shows what is read when they have. *)
Theorem hydration_exact `{PageCache} e cl later polls infos f h T f' :
  vf_hydrator f = Some h -> h_pageSize h = pageSize -> Forall (good_object cl) infos -> chain 0 infos T -> T <= rv_pos (vf_view f) ->
  (0 < h_txid h <= rv_pos (vf_view f) -> hydrated_at h (h_txid h)) ->
  (forall t itr, t = h_txid h \/ t = T -> t < rv_pos (vf_view f) -> LTXFiles later 0 (txid_succ t) false = Ok itr -> leads later t (itr_items itr) (rv_pos (vf_view f))) ->
  runHydration decode_database ltx_NewDecoder e cl later (run_polls polls) infos f = (f', Ok ()) ->
  exists h', vf_hydrator f' = Some h' /\ h_complete h' = true /\ hydrated_at h' (rv_pos (vf_view f)) /\
    rv_pos (vf_view f') = rv_pos (vf_view (run_polls polls f)) /\
    forall e' p off n b data, 0 <= off -> hist (rv_pos (vf_view f)) (page_number off pageSize) = Some data -> off / pageSize + 1 < 2 ^ 32 ->
      off mod pageSize + Z.of_nat (length p) <= pageSize ->
      hydrator_ReadAt e' h' p off = Ok (n, b) -> b = page_bytes e' pageSize off p data.
Proof.
  intros Hh Hps HF Hch HT Hres Hcatch HR. unfold runHydration in HR. rewrite Hh in HR.
  destruct (hydrate _ _ _ _ _ _ _ _) as [h' r] eqn:EH. injection HR as <- ->.
  destruct (hydrate_exact e cl later h infos T _ h' Hps HF Hch HT Hres Hcatch EH) as [Hc Hat].
  exists h'. split_and!; [done..|]. intros e' p off n b data. by apply hydrated_read.
Qed.

(** Polls keep the copy up to date: the updates of a poll that all arrive move it to
    the transaction that the index moves to. *)
Lemma ApplyUpdates_at (good : C -> Prop) e cl h updates t t' h' :
  good cl -> hydrated_at h t -> t <= t' -> delta hist good updates t t' -> ApplyUpdates e cl h updates = (h', Ok ()) -> hydrated_at h' t'.
Proof.
  intros Hg [Hps Hat] Ht Hd. unfold ApplyUpdates.
  assert (forall l h h', h_pageSize h = pageSize -> (forall p el, In (p, el) l -> updates !! p = Some el) ->
    ApplyUpdates_loop e cl h l = (h', Ok ()) -> h_pageSize h' = pageSize /\
    forall p d, hist t' p = Some d -> p ∈ l.*1 \/ hydrated_page h p = Some d -> hydrated_page h' p = Some d) as HL.
  { clear h h' Hps Hat. induction l as [|[q el] l IH]; intros h h' Hps Hin; cbn [ApplyUpdates_loop].
    { intros [= <-]. split; [done|]. intros p d _ [Hx|]; [|done]. by apply elem_of_nil in Hx. }
    destruct (fetch_elem cl el) as [[q' dq]|err|m] eqn:Ef; [|done..]. destruct (vio e (HydrationWrite q)); [|done..]. intros HA.
    pose proof (Hd q) as Hdq. rewrite (Hin q el ltac:(by left)) in Hdq. destruct Hdq as (data & Hq & Hsh). rewrite (Hsh cl q' dq Hg Ef) in HA.
    apply IH in HA as [HP1 HP2]; [|done|intros; apply Hin; by right]. split; [done|]. intros p d Hp Hor. apply HP2; [done|].
    destruct (hydrated_page_write h q data p Hps (hist_range _ _ _ Hq) ltac:(pose proof (hist_range _ _ _ Hp); lia) (hist_length _ _ _ Hq)) as [Hw1 Hw2].
    destruct (decide (p = q)) as [->|Hne]; [right; rewrite Hw1 by done; congruence|].
    destruct Hor as [Hx|Hh]; [|right; rewrite Hw2; [done|done|by rewrite Hh]].
    rewrite fmap_cons in Hx. apply elem_of_cons in Hx as [|Hx]; [done|by left]. }
  intros HA. apply HL in HA as [HP1 HP2]; [|done|intros p el Hin; by apply elem_of_map_to_list, list_elem_of_In].
  split; [done|]. intros p d Hp. apply HP2; [done|]. destruct (updates !! p) as [el|] eqn:Ep.
  - left. apply list_elem_of_fmap. exists (p, el). split; [done|]. by apply elem_of_map_to_list.
  - right. apply Hat. specialize (Hd p). rewrite Ep in Hd. rewrite <- Hp. apply Hd; [by rewrite Hp|lia].
Qed.

(** A poll moves the hydrated copy along with the position of the file. *)
Theorem poll_keeps_hydrated `{PCL : PageCacheLaws} (good : C -> Prop) e cl f h m1 t pl :
  (forall cl um level info, good cl -> In info (level_files cl um level) -> good_info hist hsize good cl info) -> (forall u, 0 <= hsize u) ->
  good cl -> hydrated f = Some h -> hydrated_at h t -> rv_targetTime (vf_view f) = None -> 0 <= m1 <= t -> t < 2 ^ 64 - 1 ->
  poll_fetch cl t m1 (hsize t) = Ok pl -> pl_replace pl = false -> no_lag m1 pl -> (ApplyUpdates e cl h (pl_combined pl)).2 = Ok () ->
  exists h', hydrated (poll_apply e cl f pl) = Some h' /\ hydrated_at h' (polled_pos pl) /\
    rv_pos (vf_view (poll_apply e cl f pl)) = polled_pos pl.
Proof.
  intros Hgf Hpos Hg Hh Hat Htt Hm Hb HF Hrep Hlag HU.
  apply (poll_fetch_spec hist hsize good hist_size Hpos Hgf) in HF as (Ht & Hd & _); [|done..].
  destruct (ApplyUpdates e cl h (pl_combined pl)) as [h1 r1] eqn:EU. cbn in HU. subst r1.
  pose proof (ApplyUpdates_at good e cl h (pl_combined pl) t (polled_pos pl) h1 Hg Hat ltac:(lia) Hd EU) as Hat1.
  assert (h_complete h = true) as Hc by (unfold hydrated in Hh; destruct (vf_hydrator f) as [h0|]; [|done]; destruct (h_complete h0) eqn:E; [congruence|done]).
  unfold poll_apply. rewrite Htt, Hh. cbn. case_bool_decide as He.
  - exists h. split; [|split; [|done]]; [unfold hydrated; cbn; unfold hydrated in Hh; done|].
    rewrite He in EU. unfold ApplyUpdates in EU. rewrite map_to_list_empty in EU. cbn in EU. by injection EU as <-.
  - exists h1. rewrite EU. split; [|by split]. unfold hydrated. cbn. enough (h_complete h1 = true) as -> by done. rewrite <- Hc.
    clear -EU. unfold ApplyUpdates in EU. revert h EU. induction (map_to_list (pl_combined pl)) as [|[q el] l IH]; intros h; cbn [ApplyUpdates_loop];
      [by intros [= <-]|]. destruct (fetch_elem cl el) as [[q' dq]|err|m]; [|done..]. destruct (vio e (HydrationWrite q)); [|done..].
    intros HA. by apply IH in HA.
Qed.
End Exact.

(** ** Small runs *)
Module HydrateDemo.
(** A database of one page, the number of the transaction. *)
Definition hist (t : TXID) (p : Z) : option page := if (1 <=? t) && (p =? 1) then Some [Zbyte t] else None.
Definition hsize (t : TXID) : Z := if 1 <=? t then 1 else 0.
Definition one_page (rd : Reader) (pageSize : Z) : Follow.decoder := Follow.mkDecoder (Ok 1) [(1, rd_data rd)] None None.
Definition last_stream (rdrs : list Reader) : list byte * option error :=
  (match last rdrs with Some rd => rd_data rd | None => [] end, None).
Definition cl : Mem.client :=
  Mem.mkClient [(mkFileInfo 0 1 1 1 1, [x01]); (mkFileInfo 0 2 2 1 2, [x02]); (mkFileInfo 0 3 3 1 3, [x03])] eq_refl.
Definition new : Hydrator := mkHydrator true [] false 0 None 1.
Definition resumed : Hydrator := mkHydrator true [x01] false 1 None 1.
Definition calm : venv := mkVEnv (fun _ => None) (x01, x02, x03, x04) (fun _ => false).

Lemma demo_size t p : is_Some (hist t p) <-> 1 <= p <= hsize t.
Proof.
  unfold hist, hsize. destruct (1 <=? t); cbn [andb]; cbv iota; [|split; [by intros []|intros; exfalso; lia]].
  destruct (Z.eqb_spec p 1) as [->|]; [split; [intros _; lia|done]|split; [by intros []|intros; exfalso; lia]].
Qed.

Lemma demo_length t p data : hist t p = Some data -> Z.of_nat (length data) = 1.
Proof. unfold hist. case_if; by intros [= <-]. Qed.

Lemma good (info : FileInfo) rd : 1 <= MaxTXID info -> rd_data rd = [Zbyte (MaxTXID info)] ->
  Follow.good_stream hist hsize info (one_page rd 1).
Proof.
  intros Ht Hr. assert ((1 <=? MaxTXID info) = true) as Hb by (by apply Z.leb_le). split; unfold hist, hsize; cbn.
  - intros commit [= <-]. by rewrite Hb.
  - intros p data [[= <- <-]|[]]. by rewrite Hb, Hr.
  - intros p t _ _ Hni Hp. rewrite Hb in Hp. destruct Hni. replace p with 1 by lia. left.
Qed.

Lemma chain_streams infos rdrs T b h :
  Forall2 (fun info rd => Follow.good_stream hist hsize info (one_page rd 1)) infos rdrs -> chain 0 infos T ->
  last_stream rdrs = (b, None) -> h_pageSize h = 1 -> hydrated_at hist 1 (set_h_file b h) T.
Proof.
  intros HF Hch. unfold last_stream. intros [= <-] Hps. split; [done|]. intros p data Hp.
  pose proof (chain_last 0 infos T 0 Hch) as Hl. destruct (last rdrs) as [rd|] eqn:Er.
  - apply last_Some in Er as [pre ->]. apply Forall2_app_inv_r in HF as (i1 & i2 & HF1 & HF2 & ->).
    apply Forall2_cons_inv_r in HF2 as (info & i3 & Hg & HF3 & ->). apply Forall2_nil_inv_r in HF3 as ->.
    rewrite last_snoc, bool_decide_eq_false_2 in Hl by (by destruct i1). subst T.
    pose proof (Follow.gs_page _ _ _ _ Hg 1 (rd_data rd) ltac:(by left)) as Hd.
    assert (p = 1) as -> by (unfold hist in Hp; destruct (Z.eqb_spec p 1); [done|by rewrite andb_false_r in Hp]).
    rewrite Hp in Hd. injection Hd as <-. assert (length data = 1%nat) as Hlen by (pose proof (demo_length _ _ _ Hp); lia).
    unfold hydrated_page. cbn [h_file set_h_file]. rewrite Hlen. cbn. destruct data as [|x [|]]; [done|done|done].
  - apply last_None in Er as ->. apply Forall2_nil_inv_r in HF as ->. cbn in Hch. subst T. by vm_compute in Hp.
Qed.
End HydrateDemo.

#[local] Existing Instance DemoFormat.format.
#[local] Existing Instance Lru.lru.

(** A file at transaction 3 with a copy of transaction 1; a poll runs meanwhile. *)
Definition hydrating3 : VFSFile :=
  mkVFSFile (mkView 3 0 ∅ ∅ false None 0 1) (mkWrite false ∅ 0 0 None 0 false false) (cache_New 1) LockNone 1 (Some HydrateDemo.resumed).
Lemma hydration_exact_witness :
  exists f' h', runHydration HydrateDemo.last_stream HydrateDemo.one_page HydrateDemo.calm HydrateDemo.cl HydrateDemo.cl (run_polls [(HydrateDemo.calm, HydrateDemo.cl)])
      [mkFileInfo 0 1 1 1 1; mkFileInfo 0 2 2 1 2] hydrating3 = (f', Ok ()) /\ vf_hydrator f' = Some h' /\
    h_complete h' = true /\ hydrated_at HydrateDemo.hist 1 h' 3.
Proof.
  destruct (runHydration HydrateDemo.last_stream HydrateDemo.one_page HydrateDemo.calm HydrateDemo.cl HydrateDemo.cl (run_polls [(HydrateDemo.calm, HydrateDemo.cl)])
      [mkFileInfo 0 1 1 1 1; mkFileInfo 0 2 2 1 2] hydrating3) as [f' r] eqn:ER.
  assert (r = Ok ()) as -> by (change r with ((f', r).2); rewrite <- ER; vm_compute; reflexivity).
  assert (forall info, In info [mkFileInfo 0 1 1 1 1; mkFileInfo 0 2 2 1 2; mkFileInfo 0 3 3 1 3] ->
    good_object HydrateDemo.one_page HydrateDemo.hist HydrateDemo.hsize 1 HydrateDemo.cl info) as Hgo.
  { intros info [<-|[<-|[<-|[]]]] rd E; vm_compute in E; injection E as <-; (apply HydrateDemo.good; [vm_compute; discriminate|reflexivity]). }
  destruct (hydration_exact HydrateDemo.last_stream HydrateDemo.one_page HydrateDemo.hist HydrateDemo.hsize 1 HydrateDemo.demo_size
    HydrateDemo.demo_length ltac:(intros t; unfold HydrateDemo.hsize; case_if; lia) ltac:(lia) HydrateDemo.chain_streams
    HydrateDemo.calm HydrateDemo.cl HydrateDemo.cl [(HydrateDemo.calm, HydrateDemo.cl)] [mkFileInfo 0 1 1 1 1; mkFileInfo 0 2 2 1 2] hydrating3 HydrateDemo.resumed 2 f')
    as (h' & Hh & Hc & Hat & _).
  - reflexivity.
  - reflexivity.
  - constructor; [apply Hgo; by left|constructor; [apply Hgo; right; by left|constructor]].
  - vm_compute. repeat split; discriminate.
  - cbn. lia.
  - intros _. split; [reflexivity|]. intros p data Hp. unfold HydrateDemo.hist in Hp. cbn in Hp.
    destruct (Z.eqb_spec p 1) as [->|]; [|discriminate Hp]. injection Hp as <-. vm_compute. reflexivity.
  - intros t itr [->| ->] _ E; vm_compute in E; injection E as <-; cbn.
    + split_and!; try lia; [apply Hgo; right; by left|apply Hgo; right; right; by left].
    + split_and!; try lia. apply Hgo; right; right; by left.
  - exact ER.
  - exists f', h'. split; [reflexivity|]. split; [exact Hh|]. split; [exact Hc|exact Hat].
Defined.

Lemma hydration_meta_roundtrip_witness :
  exists d', saveMeta (fun _ => None) (mkDisk (Some []) None) 18446744073709551615 = (d', Ok ()) /\
    loadMeta (fun _ => None) d' = Ok 18446744073709551615.
Proof.
  destruct (saveMeta (fun _ => None) (mkDisk (Some []) None) 18446744073709551615) as [d' r] eqn:E.
  assert (r = Ok ()) as -> by (change r with ((d', r).2); rewrite <- E; reflexivity). exists d'. split; [reflexivity|].
  destruct (hydration_meta_roundtrip (fun _ => None) (mkDisk (Some []) None) 18446744073709551615 d' (Ok ())) as [[_ HX]|HX];
    [lia|exact E|discriminate HX|apply HX; reflexivity].
Defined.

(** ** Runs that serve wrong pages *)
Module HydrateAnomalies.
Definition calm : venv := HydrateDemo.calm.

(** Pages of one byte; an object is a list of page numbers and bytes. *)
Fixpoint pairs (b : list byte) : list (Z * page) :=
  match b with p :: d :: b => (byteZ p, [d]) :: pairs b | _ => [] end.
Definition decoder2 (rd : Reader) (pageSize : Z) : Follow.decoder := Follow.mkDecoder (Ok 2) (pairs (rd_data rd)) None None.
Definition database2 (rdrs : list Reader) : list byte * option error :=
  (foldl (fun b kv => file_writeAt b kv.2 (kv.1 - 1)) [] (mjoin ((fun rd => pairs (rd_data rd)) <$> rdrs)), None).

(** Transactions 1 and 2 are compacted into level 1 and gone from level 0. *)
Definition compacted : Mem.client :=
  Mem.mkClient [(mkFileInfo 1 1 2 4 2, [x01; x02; x02; x01]); (mkFileInfo 0 3 3 2 3, [x02; x03])] eq_refl.
Definition copy1 : Hydrator := mkHydrator true [x01; x01] false 1 None 1.
Definition plan3 : list FileInfo := [mkFileInfo 1 1 2 4 2; mkFileInfo 0 3 3 2 3].

(** Catching up looks at level 0 only and does not check that its files follow each
    other: the copy misses transaction 2 and is served as complete; a restore gives
    other pages. *)
Theorem catch_up_skips_gap :
  let '(h, r) := hydrate database2 decoder2 calm compacted compacted copy1 plan3 3 in
  let '(h', r') := hydrate database2 decoder2 calm compacted compacted (mkHydrator true [] false 0 None 1) plan3 3 in
  r = Ok () /\ h_complete h = true /\ h_file h = [x01; x03] /\ r' = Ok () /\ h_file h' = [x02; x03].
Proof. vm_compute. repeat split. Qed.

(** The remote is behind a persistent copy: the copy is emptied, the restore fails, and
    closing records the old transaction again; the next start resumes the empty file
    as the database of that transaction. *)
Definition missing : Mem.client := Mem.mkClient [] eq_refl.
Definition disk9 : hdisk := mkDisk (Some [x01; x01]) (Some (print_meta 9)).
Definition no_faults : hop -> option error := fun _ => None.
Definition first_session : hdisk :=
  match Hydrator_Init no_faults true 1 disk9 with
  | (d, Ok h) => (Hydrator_Close no_faults (hydrate database2 decoder2 calm missing missing h plan3 3).1 d).1
  | (d, _) => d
  end.

Theorem discarded_copy_resumed :
  match Hydrator_Init no_faults true 1 first_session with
  | (_, Ok h) => h_txid h = 9 /\ h_file h = [] /\
      let '(h', r) := hydrate database2 decoder2 calm missing missing h plan3 9 in r = Ok () /\ h_complete h' = true /\ h_file h' = []
  | _ => False
  end.
Proof. vm_compute. repeat split. Qed.

#[local] Existing Instance DemoFormat.format.
#[local] Existing Instance Lru.lru.
#[local] Existing Instance last_slice.

(** Hydration that completes after a target time was set: reads come from the copy of
    the latest transaction. *)
Definition hydrating : VFSFile :=
  set_hydrator (Some (mkHydrator false (repeat x0c 8 ++ repeat x0b 8) false 2 None 8)) (VfsDemo.file1 LockNone).

Theorem hydration_ends_time_travel :
  let '(f, r) := SetTargetTime VfsDemo.replica hydrating 2 in
  let f' := set_hydrator (set_h_complete true <$> vf_hydrator f) f in
  r = Ok () /\ Anomalies.read_result VfsDemo.replica f 4 = Ok (2, repeat x0a 2) /\
  Anomalies.read_result VfsDemo.replica f' 4 = Ok (2, repeat x0c 2).
Proof. vm_compute. repeat split. Qed.

(** A poll moves the file to transaction 2 while the copy is restored.  Polls leave a copy that is not complete alone and the copy is
    completed for the position at its start: afterwards the file is at transaction 2 and page 1 is read as of transaction 1; before, it
    was read from the index as of transaction 2. *)
Definition restored1 (_ : list Reader) : list byte * option error := (repeat x0a 8 ++ repeat x0b 8, None).
Definition starting : VFSFile := set_hydrator (Some (mkHydrator false [] false 0 None 8)) (VfsDemo.file1 LockNone).
Definition after_poll : VFSFile := run_polls [(VfsDemo.calm, VfsDemo.replica)] starting.
Theorem polled_while_hydrating :
  let '(f, r) := runHydration restored1 decoder2 calm VfsDemo.replica VfsDemo.replica (run_polls [(VfsDemo.calm, VfsDemo.replica)]) [mkFileInfo 0 1 1 100 1] starting in
  r = Ok () /\ rv_pos (vf_view f) = 2 /\ Anomalies.read_result VfsDemo.replica after_poll 4 = Ok (2, repeat x0c 2) /\
  Anomalies.read_result VfsDemo.replica f 4 = Ok (2, repeat x0a 2).
Proof. vm_compute. repeat split. Qed.
End HydrateAnomalies.
