(* ===== verification/Snapshot.v ===== *)
(** * Snapshots and the shutdown of a database

    Model of [SnapshotReader], [Snapshot], [MaxLTXFileInfo], [SyncStatus],
    [syncReplicaWithRetry] and the backoff of [monitor] in src/db.go.  A snapshot is
    encoded by a goroutine after [SnapshotReader] has returned and released its lock:
    the files can differ between the size check, the scan of the WAL and the reading
    of each page. *)

From Stdlib Require Import ZArith Lia Strings.Byte.
From stdpp Require Import base numbers list strings gmap sorting.
From S2P Require Import Prelude WalReader Ltx Streams Compactor Replica Db PageIndex.
Local Open Scope Z_scope.

(** ** The snapshot stream *)
Section SnapshotReader.
Variable LockPgno : Z -> Z.

(** [writeLTXFromDB] over files that change: [at_ p] are the files when page [p] is
    read. *)
Fixpoint snapshot_pages (e : env) (pageSize : Z) (at_ : Z -> files) (pageMap : gmap Z Z) (pgnos : list Z)
    : result (list (Z * list byte)) :=
  match pgnos with
  | [] => Ok []
  | pgno :: pgnos =>
      if pgno =? LockPgno pageSize then snapshot_pages e pageSize at_ pageMap pgnos else
      match e_cancel e pgno with
      | Some cause => Err cause
      | None =>
          data ← match pageMap !! pgno with
                 | Some offset => read_frame_page (default [] (f_wal (at_ pgno))) pageSize offset
                 | None => read_db_page (f_db (at_ pgno)) pageSize pgno
                 end;
          pg ← encode_page e pgno data;
          pages ← snapshot_pages e pageSize at_ pageMap pgnos;
          Ok (pg :: pages)
      end
  end.

(** The goroutine: [Ok] when the stream ends well, the error it is closed with
    otherwise.  [size] is the size of the database file before it started. *)
Definition snapshot_stream (e : env) (pageSize : Z) (txID : TXID) (size : Z) (scan : files) (at_ : Z -> files) : result ltxFile :=
  w ← open_wal e scan;
  rd ← NewWALReader (wal_reader w) (wal_source w) wrapping "new wal reader";
  match PageMap (wal_fuel w) (e_ctx e) rd with
  | None => Panic "out of fuel"
  | Some (Err err, _) => Err (EWrap "page map" err)
  | Some (Panic m, _) => Panic m
  | Some (Ok (pageMap, maxOffset, walCommit), rd) =>
      let commit := if 0 <? walCommit then walCommit else u32 (Z.quot size pageSize) in
      let sz := if 0 <? maxOffset then maxOffset - Offset rd else 0 in
      _ ← io e EncodeHeader wrapping "encode ltx snapshot header";
      pages ← snapshot_pages e pageSize at_ pageMap (seqZ 1 commit) wrapping "write snapshot ltx";
      _ ← io e CloseEncoder wrapping "close ltx snapshot encoder";
      Ok (mkLTX pageSize commit 1 txID (Offset rd) sz (wr_salt1 rd) (wr_salt2 rd) pages)
  end.

(** The position it returns and the stream; [stat] are the files when the size is
    taken. *)
Definition SnapshotReader (e : env) (d : DB) (stat scan : files) (at_ : Z -> files) : DB * result (Pos * result ltxFile) :=
  if d_pageSize d =? 0 then (d, Err (EDBNotReady "page size not initialized"))
  else
    match DB_Pos e d with
    | (d, Err err) => (d, Err (EWrap "pos" err))
    | (d, Panic m) => (d, Panic m)
    | (d, Ok pos) =>
        (d, _ ← io e StatDB;
            Ok (pos, snapshot_stream e (d_pageSize d) (TXID_ pos) (Z.of_nat (length (f_db stat))) scan at_))
    end.

(** The stream of an LTX file; [partial] are the bytes before an error. *)
Definition stream_reader `{LTXFormat} (partial : list byte) (s : result ltxFile) : Reader :=
  match s with
  | Ok f => mkReader (EncodeLTX f) None
  | Err err => mkReader partial (Some err)
  | Panic m => mkReader partial (Some (EMsg m))
  end.

(** [Snapshot]: the client, the cached infos and the database afterwards. *)
Definition DB_Snapshot {C identity recipient} `{ReplicaClient C} `{LTXFormat}
    (age_Encrypt : list recipient -> result (list byte -> list byte * option error))
    (age_flushed : list recipient -> list byte -> list byte) (cfg : ReplicaConfig identity recipient)
    (partial : list byte) (e : env) (cl : C) (infos : gmap Z FileInfo) (d : DB) (stat scan : files) (at_ : Z -> files)
    : C * gmap Z FileInfo * DB * result FileInfo :=
  match SnapshotReader e d stat scan at_ with
  | (d, Err err) => (cl, infos, d, Err err)
  | (d, Panic m) => (cl, infos, d, Panic m)
  | (d, Ok (pos, s)) =>
      match r_WriteLTXFile age_Encrypt age_flushed cfg cl SnapshotLevel 1 (TXID_ pos) (stream_reader partial s) with
      | (cl, Ok info) => (cl, <[SnapshotLevel := info]> infos, d, Ok info)
      | (cl, r) => (cl, infos, d, r)
      end
  end.

(** [MaxLTXFileInfo] of the database: the cached info, or that of the replica. *)
Definition DB_MaxLTXFileInfo {C} `{ReplicaClient C} (cl : C) (infos : gmap Z FileInfo) (level : Z)
    : gmap Z FileInfo * result FileInfo :=
  match infos !! level with
  | Some info => (infos, Ok info)
  | None =>
      match r_MaxLTXFileInfo cl level with
      | Ok info => (<[level := info]> infos, Ok info)
      | Err err => (infos, Err (EWrap "cannot determine max ltx file" err))
      | Panic m => (infos, Panic m)
      end
  end.

(** ** Exactness *)

(** Other connections append to the WAL and leave the database file alone. *)
Definition only_appends (fs : files) (w : list byte) (at_ : Z -> files) : Prop :=
  forall p, f_db (at_ p) = f_db fs /\ exists w', f_wal (at_ p) = Some w' /\ w `prefix_of` w'.

Lemma frame_offset_nonneg fuel r frs r' :
  frames fuel r = Some (frs, r') -> 0 <= wr_frameN r -> 0 <= wr_pageSize r -> forall f, In f frs -> 0 <= fr_offset f.
Proof.
  intros HF Hn Hps f Hin. pose proof (frames_offset_pos _ _ _ _ HF Hn Hps) as Hall. rewrite Forall_forall in Hall.
  apply list_elem_of_In in Hin. specialize (Hall f Hin). unfold WALHeaderSize, WALFrameHeaderSize in Hall. nia.
Qed.

Lemma read_frame_page_prefix w w' ps o :
  w `prefix_of` w' -> 0 <= o -> 0 <= ps -> Z.of_nat (length (frame_page w ps o)) = ps ->
  read_frame_page w' ps o = read_frame_page w ps o.
Proof.
  intros Hp Ho Hps Hl. unfold read_frame_page, file_readAt. rewrite (slice_prefix w w'); [done..| |].
  - unfold WALFrameHeaderSize. lia.
  - fold (frame_page w ps o). lia.
Qed.

Lemma snapshot_pages_appended e ps fs w at_ (m : gmap Z Z) pgnos :
  only_appends fs w at_ -> 0 <= ps ->
  (forall p o, m !! p = Some o -> 0 <= o /\ Z.of_nat (length (frame_page w ps o)) = ps) ->
  snapshot_pages e ps at_ m pgnos = writeLTXFromDB_loop LockPgno e ps (f_db fs) w m pgnos.
Proof.
  intros Hat Hps Hm. induction pgnos as [|p pgnos IH]; [done|]. cbn [snapshot_pages writeLTXFromDB_loop].
  destruct (Hat p) as (-> & w' & -> & Hw'). cbn [default]. rewrite IH. destruct (m !! p) as [o|] eqn:Ho; [|done].
  destruct (Hm p o Ho). by rewrite (read_frame_page_prefix w w') by done.
Qed.

(** What the stream is when the WAL only grows while it is encoded. *)
Lemma snapshot_stream_spec e fs w at_ r0 frs size txID R :
  only_appends fs w at_ -> wal_at LockPgno fs w r0 [] frs -> quiet e -> commit_inside frs -> size = Z.of_nat (length (f_db fs)) ->
  (forall p, 1 <= p <= logical_size fs (wr_pageSize r0) frs -> p <> LockPgno (wr_pageSize r0) ->
     latest p (committed frs) = None -> Z.of_nat (length (db_page (f_db fs) (wr_pageSize r0) p)) = wr_pageSize r0) ->
  exists f, snapshot_stream e (wr_pageSize r0) txID size fs at_ = Ok f /\ lf_MinTXID f = 1 /\ lf_MaxTXID f = txID /\
    lf_Commit f = logical_size fs (wr_pageSize r0) frs /\
    forall p, p <> LockPgno (wr_pageSize r0) -> apply_ltx f R p = logical_page fs w (wr_pageSize r0) (committed frs) p.
Proof.
  intros Happ Hat Hq Hci -> Hdb. pose proof Hat as [Hw Ho Hpsok [rz HF] _ _]. rewrite app_nil_l in HF.
  destruct (NewWALReader_header w r0 Ho) as (_ & HfN & Hrd & _). pose proof (frameSize_ok r0 Hpsok) as Hfs.
  assert (0 < wr_pageSize r0) as Hps by (destruct Hpsok; lia).
  destruct (PageMap_result (wal_fuel w) r0 frs rz HF ltac:(lia) ltac:(lia) Hci) as (m & Hm & HP & Hlc0 & Hlc1).
  unfold snapshot_stream, open_wal. rewrite (io_quiet e OpenWAL Hq), Hw. cbn [mbind result_bind]. rewrite Ho. cbn [wrap_err mbind result_bind].
  replace (e_ctx e) with (fun _ : nat => @None error) by (symmetry; apply Hq). rewrite HP.
  fold (logical_size fs (wr_pageSize r0) frs). rewrite (io_quiet e EncodeHeader Hq). cbn [wrap_err mbind result_bind].
  assert (forall p o, m !! p = Some o -> 0 <= o /\ Z.of_nat (length (frame_page w (wr_pageSize r0) o)) = wr_pageSize r0) as Hfull.
  { intros p o. rewrite Hm. unfold spec_page. case_if; [|done]. intros (g & Hg & _ & <-)%latest_in. apply committed_incl in Hg.
    split; [|by apply (frames_bytes w _ r0 _ _ Hrd ltac:(done) ltac:(lia) ltac:(lia) HF g)]. eapply frame_offset_nonneg; [exact HF|lia|lia|exact Hg]. }
  rewrite (snapshot_pages_appended e (wr_pageSize r0) fs w at_ m _ Happ ltac:(lia) Hfull). fold (writeLTXFromDB LockPgno e (wr_pageSize r0) (f_db fs) w (logical_size fs (wr_pageSize r0) frs) m).
  destruct (writeLTXFromDB_total LockPgno e (wr_pageSize r0) (f_db fs) w (logical_size fs (wr_pageSize r0) frs) m Hq) as [pages Hpages].
  - intros p o Hpo. by apply (Hfull p o).
  - intros p Hp Hl. rewrite Hm. unfold spec_page. case_if; [by apply Hdb|]. intros _. apply Hdb; [done|done|].
    breflect. unfold logical_size in Hp. destruct (Z.ltb_spec 0 (last_commit frs)); [lia|].
    destruct (decide (committed frs = [])) as [->|Hc]; [done|]. pose proof (last_commit_pos frs Hci Hc). lia.
  - rewrite Hpages. cbn [wrap_err mbind result_bind]. rewrite (io_quiet e CloseEncoder Hq). cbn [wrap_err mbind result_bind].
    eexists. split; [done|]. split_and!; [done..|]. apply apply_snapshot; [done| | |].
    + intros p Hp Hr. cbn [lf_pages lf_Commit] in *. rewrite (writeLTXFromDB_ok LockPgno e _ _ _ _ _ _ Hpages p Hp Hr). by rewrite Hm.
    + destruct (decide (committed frs = [])) as [Hc|Hc]; [by rewrite (committed_nil_commit frs Hc)|]. pose proof (last_commit_pos frs Hci Hc). lia.
    + intros E. destruct (decide (committed frs = [])) as [|Hc]; [done|]. pose proof (last_commit_pos frs Hci Hc). lia.
Qed.

Lemma committed_app_open frs rest : committed frs = frs -> committed rest = [] -> committed (frs ++ rest) = frs.
Proof.
  intros Hf Hr. assert (existsb is_commit rest = false) as Hno.
  { destruct (existsb is_commit rest) eqn:E; [|done]. destruct rest as [|g rest]; [done|]. cbn [committed] in Hr. by rewrite E in Hr. }
  revert Hf. induction frs as [|g frs IH]; intros Hf; [done|]. cbn [app committed] in *.
  change (existsb is_commit (g :: frs ++ rest)) with (is_commit g || existsb is_commit (frs ++ rest)).
  rewrite existsb_app, Hno, orb_false_r. destruct (existsb is_commit (g :: frs)) eqn:E; [|done].
  cbn [existsb] in E. rewrite E. injection Hf as Hf. by rewrite IH.
Qed.

(** C20: a snapshot is exact.  When the last level-0 file covers every committed frame
    of the WAL, and until the snapshot has been encoded other connections only append
    to the WAL, [SnapshotReader] returns the position of that file and a stream of
    transactions 1 up to it; restored over anything, the stream gives the same
    database as all level-0 files together, page by page (the lock page apart). *)
Theorem snapshot_exact e fs w at_ r0 rest d f frs R R' :
  synced_to LockPgno fs w r0 rest d f frs R -> committed rest = [] -> only_appends fs w at_ -> quiet e ->
  commit_inside (frs ++ rest) -> db_covers LockPgno fs (wr_pageSize r0) (frs ++ rest) ->
  exists g, SnapshotReader e d fs fs at_ = (d, Ok (mkPos (lf_MaxTXID f) 0, Ok g)) /\
    lf_MinTXID g = 1 /\ lf_MaxTXID g = lf_MaxTXID f /\ lf_Commit g = logical_size fs (wr_pageSize r0) frs /\
    forall p, p <> LockPgno (wr_pageSize r0) -> apply_ltx g R' p = R p.
Proof.
  intros Hst Hrest Happ Hq Hci Hcov. pose proof Hst as [Hat Hps Htx Hpos _ _ _ _ HR]. pose proof Hat as [Hw Ho Hok HF Hcm Hlk].
  assert (wal_at LockPgno fs w r0 [] (frs ++ rest)) as Hat' by by split.
  pose proof (committed_app_open frs rest Hcm Hrest) as Hcf.
  assert (last_commit (frs ++ rest) = last_commit frs) as Hlc by (by rewrite <- (last_commit_committed (frs ++ rest)), Hcf).
  assert (logical_size fs (wr_pageSize r0) (frs ++ rest) = logical_size fs (wr_pageSize r0) frs) as Hsz by (unfold logical_size; by rewrite Hlc).
  destruct (snapshot_stream_spec e fs w at_ r0 (frs ++ rest) (Z.of_nat (length (f_db fs))) (lf_MaxTXID f) R' Happ Hat' Hq Hci eq_refl) as (g & HS & Hmin & Hmax & Hc & Hap).
  { done. }
  exists g. unfold SnapshotReader, DB_Pos. rewrite Hps, Hpos. destruct (Z.eqb_spec (wr_pageSize r0) 0); [destruct Hok; lia|].
  rewrite (io_quiet e StatDB Hq). cbn [mbind result_bind TXID_]. rewrite ?Hps, HS. split; [done|]. split_and!; [done..|by rewrite Hc|].
  intros p Hp. by rewrite Hap, HR, Hcf by done.
Qed.
End SnapshotReader.

Lemma snapshot_exact_witness :
  let at_ p := if p =? 1 then Demo.fs0 else Demo.fs_of Demo.pages1 in
  exists g, SnapshotReader Demo.lock_pgno Demo.calm Demo.d0 Demo.fs0 Demo.fs0 at_ = (Demo.d0, Ok (mkPos 1 0, Ok g)) /\
    lf_MaxTXID g = 1 /\ apply_ltx g (fun _ => None) 1 = Some (repeat x01 8).
Proof.
  intros at_. destruct (snapshot_exact Demo.lock_pgno Demo.calm Demo.fs0 (Demo.wal_of Demo.pages0) at_
    (Demo.reader (Demo.wal_of Demo.pages0)) [] Demo.d0 Demo.f0 Demo.frs0 Demo.R0 (fun _ => None)) as (g & HS & _ & Hmax & _ & Hap).
  - apply Demo.demo_synced.
  - reflexivity.
  - intros p. unfold at_. destruct (p =? 1).
    + split; [reflexivity|]. exists (Demo.wal_of Demo.pages0). split; reflexivity.
    + split; [reflexivity|]. exists (Demo.wal_of Demo.pages1). split; [reflexivity|].
      exists (drop 128 (Demo.wal_of Demo.pages1)). vm_compute. reflexivity.
  - apply Demo.calm_quiet.
  - eapply Demo.demo_commit_inside; [vm_compute; reflexivity|by vm_compute].
  - replace (wr_pageSize (Demo.reader (Demo.wal_of Demo.pages0))) with 8 by (vm_compute; reflexivity). intros p.
    replace (logical_size Demo.fs0 8 (Demo.frs0 ++ [])) with 3 by (vm_compute; reflexivity).
    intros Hp _ _. destruct (Demo.between_1_3 p Hp) as [->|[->| ->]]; vm_compute; reflexivity.
  - replace (lf_MaxTXID Demo.f0) with 1 in * by (vm_compute; reflexivity). exists g. split; [exact HS|]. split; [exact Hmax|].
    rewrite Hap; [vm_compute; reflexivity|]. vm_compute. discriminate.
Defined.

(** What happens outside the hypotheses of [snapshot_exact]. *)
Module SnapshotAnomalies.
Definition page_of (r : DB * result (Pos * result ltxFile)) (p : Z) : option (list byte) :=
  match r with (_, Ok (_, Ok g)) => apply_ltx g (fun _ => None) p | _ => None end.

(** A transaction that is in the WAL but in no level-0 file yet is part of the
    snapshot, which is labelled with the transaction before it. *)
Theorem snapshot_ahead_of_label :
  let r := SnapshotReader Demo.lock_pgno Demo.calm Demo.d0 (Demo.fs_of Demo.pages1) (Demo.fs_of Demo.pages1) (fun _ => Demo.fs_of Demo.pages1) in
  (exists g, r.2 = Ok (mkPos 1 0, Ok g) /\ lf_MaxTXID g = 1) /\ Demo.restored Demo.d0 1 = Some (repeat x01 8) /\
  page_of r 1 = Some (repeat x04 8).
Proof. split; [|by vm_compute]. eexists. vm_compute. split; reflexivity. Qed.

(** The lock against checkpoints is released when [SnapshotReader] returns, before
    the pages are read.  If the WAL is checkpointed and restarted in between, page 1
    of the snapshot is the content of page 3, and the stream ends without an error. *)
Theorem snapshot_torn_by_checkpoint :
  let after := mkFiles (Demo.backfilled Demo.fs0) (Demo.restarted <$> f_wal Demo.fs0) in
  let r := SnapshotReader Demo.lock_pgno Demo.calm Demo.d0 Demo.fs0 Demo.fs0 (fun _ => after) in
  page_of r 1 = Some (repeat x06 8) /\ Demo.db_of Demo.fs0 1 = Some (repeat x01 8) /\ Demo.db_of after 1 = Some (repeat x01 8) /\
  Demo.db_of after 3 = Some (repeat x06 8).
Proof. by vm_compute. Qed.
End SnapshotAnomalies.
