(* ===== verification/Shutdown.v ===== *)
(** * Synchronising on demand, at shutdown and in the background

    Model of [SyncStatus], [SyncAndWait], [Close], [syncReplicaWithRetry],
    [isDiskFullError] and [monitor] in src/db.go.  The retry loop runs against a
    clock: every attempt is a [Sync] of the replica (Replica.v) over a storage that
    other parties change between attempts, and the channels the loop selects on are
    times at which they become ready. *)

From Stdlib Require Import ZArith Lia Strings.String Strings.Ascii Strings.Byte.
From stdpp Require Import base numbers list strings gmap.
From S2P Require Import Prelude Ltx Streams Compactor Replica WalReader Db.
Local Open Scope Z_scope.

Definition ErrShutdownInterrupted : error := EVar "shutdown sync interrupted".
Definition DefaultShutdownSyncInterval : duration := 500 * 1000000.
Definition DefaultShutdownSyncTimeout : duration := 30 * Second.

(** ** The retry loop *)
Section Retry.
Context {C D : Type} `{ReplicaClient C} `{ReplicaDB D} {identity recipient : Type}.
Variable age_Encrypt : list recipient -> result (list byte -> list byte * option error).
Variable age_flushed : list recipient -> list byte -> list byte.
Variable cfg : ReplicaConfig identity recipient.

(** What happens outside the process: the storage when attempt [n] begins at a time,
    how long attempt [n] takes, how late the loop wakes up, and which of several
    ready channels a [select] takes. *)
Record world := mkWorld {
  w_client : nat -> time -> C -> C;
  w_latency : nat -> duration;
  w_lag : nat -> duration;
  w_pick : nat -> nat
}.

(** When the channels are closed; [None] for a channel that is nil or never closed. *)
Record signals := mkSignals { sg_Done : option time; sg_deadline : time }.

Definition is_closed (c : option time) (t : time) : bool :=
  match c with Some d => d <=? t | None => false end.

Inductive wake := WTimer | WDeadline | WDone.

(** [select] takes one of the ready cases. *)
Definition select_case (k : nat) (ready : list wake) : option wake := ready !! (k mod length ready)%nat.

Definition ready_cases (sg : signals) (timer : option time) (t : time) : list wake :=
  (if is_closed timer t then [WTimer] else []) ++ (if sg_deadline sg <=? t then [WDeadline] else []) ++
  (if is_closed (sg_Done sg) t then [WDone] else []).

(** The time at which the first of the timer, the deadline and [Done] is ready. *)
Definition first_ready (sg : signals) (timer : time) : time :=
  Z.min timer (match sg_Done sg with Some d => Z.min (sg_deadline sg) d | None => sg_deadline sg end).

Definition interrupted {A} : result A := Err (EWrap "after attempts" ErrShutdownInterrupted).
Definition timed_out {A} (lastErr : error) : result A := Err (EWrap "shutdown sync timeout" lastErr).

Definition sync_attempt (w : world) (n : nat) (t : time) (r : Replica C D) : Replica C D * result () * time :=
  let '(r, res) := Replica.Sync age_Encrypt age_flushed cfg (mkReplica (r_db r) (r_pos r) (w_client w n t (r_Client r))) t in
  (r, res, t + w_latency w n).

(** The loop, [attempt] attempts having failed. *)
Fixpoint retry_loop (fuel : nat) (w : world) (sg : signals) (interval : duration) (attempt : nat) (t : time) (r : Replica C D)
    : Replica C D * result () * time :=
  if is_closed (sg_Done sg) t then (r, interrupted, t) else
  match fuel with
  | O => (r, Panic "out of fuel", t)
  | S fuel =>
      let attempt := S attempt in
      match sync_attempt w attempt t r with
      | (r, Ok (), t) => (r, Ok (), t)
      | (r, Panic m, t) => (r, Panic m, t)
      | (r, Err lastErr, t) =>
          match select_case (w_pick w attempt) (ready_cases sg None t) with
          | Some WDeadline => (r, timed_out lastErr, t)
          | Some WDone => (r, interrupted, t)
          | _ =>
              let t' := Z.max t (first_ready sg (t + interval)) + w_lag w attempt in
              match select_case (w_pick w attempt) (ready_cases sg (Some (t + interval)) t') with
              | Some WDeadline => (r, timed_out lastErr, t')
              | Some WDone => (r, interrupted, t')
              | _ => retry_loop fuel w sg interval attempt t' r
              end
          end
      end
  end.

(** The number of attempts that fit before the deadline. *)
Definition max_attempts (timeout interval : duration) : nat := (Z.to_nat (timeout / interval) + 2)%nat.

Definition retry_interval (interval : duration) : duration :=
  if interval =? 0 then DefaultShutdownSyncInterval else interval.

(** [ctxEnd] is the time at which the caller's context ends; [WithTimeout] bounds it. *)
Definition deadline_of (ctxEnd : option time) (timeout : duration) (start : time) : time :=
  match ctxEnd with Some c => Z.min c (start + timeout) | None => start + timeout end.

Definition syncReplicaWithRetry (w : world) (Done ctxEnd : option time) (timeout interval : duration) (start : time) (r : Replica C D)
    : Replica C D * result () * time :=
  if timeout =? 0 then sync_attempt w 1 start r else
  let interval := retry_interval interval in
  retry_loop (max_attempts timeout interval) w (mkSignals Done (deadline_of ctxEnd timeout start)) interval 0 start r.

(** *** What it returns *)

(** [n] attempts have failed; [e] is the error of the last one. *)
Inductive failed_attempts (w : world) (start : time) (r0 : Replica C D) : nat -> time -> Replica C D -> option error -> Prop :=
| failed_none : failed_attempts w start r0 0 start r0 None
| failed_more n t r e t1 t2 r' e' :
    failed_attempts w start r0 n t r e -> t <= t1 -> sync_attempt w (S n) t1 r = (r', Err e', t2) ->
    failed_attempts w start r0 (S n) t2 r' (Some e').

Lemma uploadLTXFile_db level lo hi r : r_db (uploadLTXFile age_Encrypt age_flushed cfg r level lo hi).1 = r_db r.
Proof.
  unfold uploadLTXFile. destruct (db_OpenLTX _ _ _ _) as [f|e|m]; [|done..].
  by destruct (r_WriteLTXFile _ _ _ _ _ _ _ _).
Qed.

Lemma Sync_loop_end fuel r d :
  r_db (Sync_loop age_Encrypt age_flushed fuel cfg r d).1 = r_db r /\
  ((Sync_loop age_Encrypt age_flushed fuel cfg r d).2 = Ok () -> d < txid_succ (TXID_ (r_pos (Sync_loop age_Encrypt age_flushed fuel cfg r d).1))).
Proof.
  revert r. induction fuel as [|fuel IH]; intros r; cbn [Sync_loop];
    (destruct (Z.leb_spec (txid_succ (TXID_ (r_pos r))) d) as [Hle|Hlt]; [|by split]); [done|].
  pose proof (uploadLTXFile_db 0 (txid_succ (TXID_ (r_pos r))) (txid_succ (TXID_ (r_pos r))) r) as Hdb.
  destruct (uploadLTXFile _ _ _ _ _ _ _) as [r1 [[]|e|m]]; simpl in Hdb; [|done..].
  destruct (IH (SetPos r1 (mkPos (txid_succ (TXID_ (r_pos r))) 0))) as [Hd Hok]. simpl in Hd. by rewrite Hd.
Qed.

(** A sync that fails keeps the database; one that succeeds reaches its position. *)
Lemma Sync_end r now r' res :
  Replica.Sync age_Encrypt age_flushed cfg r now = (r', res) ->
  (forall e, res = Err e -> r_db r' = r_db r) /\
  (res = Ok () -> exists dpos, db_Pos (r_db r) = Ok dpos /\ TXID_ dpos < txid_succ (TXID_ (r_pos r'))).
Proof.
  unfold Replica.Sync, Sync_body. intros HS.
  destruct (if pos_IsZero (r_pos r) then _ else _) as [pos|e|m]; [|by simplify_eq/=..].
  cbn [r_db SetPos] in HS. destruct (db_Pos (r_db r)) as [dpos|e|m] eqn:HD; cbn [wrap_err] in HS; [|by simplify_eq/=..].
  destruct (pos_IsZero dpos); [by simplify_eq/=|].
  pose proof (Sync_loop_end (Z.to_nat (TXID_ dpos - TXID_ pos)) (SetPos r pos) (TXID_ dpos)) as [Hdb Hok].
  destruct (Sync_loop _ _ _ _ _ _) as [r1 [[]|e|m]]; simpl in *; simplify_eq; (split; [|try done]); intros; simplify_eq; simpl; eauto.
Qed.

Lemma failed_attempts_db w start r0 n t r e : failed_attempts w start r0 n t r e -> r_db r = r_db r0.
Proof.
  induction 1 as [|n t r e t1 t2 r' e' _ IH _ HA]; [done|]. unfold sync_attempt in HA.
  destruct (Replica.Sync _ _ _ _ _) as [r1 res] eqn:HS. simplify_eq. apply Sync_end in HS as [Hdb _]. by rewrite (Hdb e').
Qed.

Lemma select_case_in k ready c : select_case k ready = Some c -> In c ready.
Proof. intros Hs. apply list_elem_of_In. by eapply list_elem_of_lookup_2. Qed.

Lemma select_case_none k ready : select_case k ready = None -> ready = [].
Proof.
  unfold select_case. intros Hn%lookup_ge_None. destruct ready as [|c ready]; [done|].
  pose proof (Nat.mod_upper_bound k (length (c :: ready)) ltac:(done)). lia.
Qed.

Lemma ready_deadline sg timer t : In WDeadline (ready_cases sg timer t) <-> sg_deadline sg <= t.
Proof.
  unfold ready_cases. rewrite !in_app_iff. destruct (is_closed timer t), (Z.leb_spec (sg_deadline sg) t), (is_closed (sg_Done sg) t); simpl; intuition (lia || discriminate).
Qed.

Lemma ready_done sg timer t : In WDone (ready_cases sg timer t) <-> is_closed (sg_Done sg) t = true.
Proof.
  unfold ready_cases. rewrite !in_app_iff. destruct (is_closed timer t), (sg_deadline sg <=? t), (is_closed (sg_Done sg) t); simpl; intuition discriminate.
Qed.

Lemma ready_timer sg timer t : In WTimer (ready_cases sg timer t) <-> is_closed timer t = true.
Proof.
  unfold ready_cases. rewrite !in_app_iff. destruct (is_closed timer t), (sg_deadline sg <=? t), (is_closed (sg_Done sg) t); simpl; intuition discriminate.
Qed.

(** Once it waits, the loop wakes up, and by the timer only after the interval. *)
Lemma wait_wakes k sg t interval lag :
  0 <= lag -> let t' := Z.max t (first_ready sg (t + interval)) + lag in
  exists c, select_case k (ready_cases sg (Some (t + interval)) t') = Some c /\ (c = WTimer -> t + interval <= t').
Proof.
  intros Hlag t'. destruct (select_case _ _) as [c|] eqn:Hs.
  - exists c. split; [done|]. intros ->. apply select_case_in, ready_timer in Hs. by apply Z.leb_le.
  - exfalso. apply select_case_none in Hs.
    assert (sg_deadline sg <= t' \/ is_closed (Some (t + interval)) t' = true \/ is_closed (sg_Done sg) t' = true) as [Hx|[Hx|Hx]].
    { subst t'. unfold first_ready, is_closed. rewrite Z.leb_le. destruct (sg_Done sg) as [dn|]; [rewrite Z.leb_le; lia|lia]. }
    + apply (ready_deadline sg (Some (t + interval))) in Hx. by rewrite Hs in Hx.
    + apply (ready_timer sg) in Hx. by rewrite Hs in Hx.
    + apply (ready_done sg (Some (t + interval))) in Hx. by rewrite Hs in Hx.
Qed.

(** The outcomes of the loop. *)
Definition retry_outcome (w : world) (Done : option time) (deadline start : time) (r0 : Replica C D) (r' : Replica C D) (res : result ()) (t' : time) (n : nat) : Prop :=
  (res = Ok () /\ exists t1 t r e, failed_attempts w start r0 n t r e /\ t <= t1 /\ sync_attempt w (S n) t1 r = (r', Ok (), t')) \/
  (exists m t1 t r e, res = Panic m /\ failed_attempts w start r0 n t r e /\ sync_attempt w (S n) t1 r = (r', Panic m, t')) \/
  (exists t e, res = timed_out e /\ failed_attempts w start r0 n t r' (Some e) /\ deadline <= t' /\ t <= t') \/
  (exists t e, res = interrupted /\ failed_attempts w start r0 n t r' e /\ is_closed Done t' = true /\ t <= t').

Lemma retry_loop_spec w Done deadline interval timeout start r0 fuel n t0 t r e :
  0 < interval -> 0 < timeout -> deadline <= start + timeout -> (forall n, 0 <= w_latency w n) -> (forall n, 0 <= w_lag w n) ->
  failed_attempts w start r0 n t0 r e -> t0 <= t -> start + Z.of_nat n * interval <= t ->
  (n = 0%nat \/ Z.of_nat (n - 1) * interval < timeout) -> (fuel + n = max_attempts timeout interval)%nat ->
  exists n' r' res t', retry_loop fuel w (mkSignals Done deadline) interval n t r = (r', res, t') /\
    (n' <= max_attempts timeout interval)%nat /\ retry_outcome w Done deadline start r0 r' res t' n'.
Proof.
  intros Hi Ht Hdl Hlat Hlag. revert n t0 t r e. induction fuel as [|fuel IH]; intros n t0 t r e HF Ht0 Hn Hprev Hfuel;
    cbn [retry_loop sg_Done]; destruct (is_closed Done t) eqn:HD.
  1,3: exists n, r, interrupted, t; (split; [done|]); (split; [lia|]); right; right; right; by exists t0, e.
  - exfalso. unfold max_attempts in Hfuel. pose proof (Z.div_pos timeout interval ltac:(lia) Hi).
    destruct Hprev as [->|Hlt]; [lia|].
    assert (Z.of_nat (n - 1) <= timeout / interval) by (apply Z.div_le_lower_bound; lia). lia.
  - destruct (sync_attempt w (S n) t r) as [[r1 res1] t1] eqn:HA.
    assert (t1 = t + w_latency w (S n)) as Ht1 by (unfold sync_attempt in HA; destruct (Replica.Sync _ _ _ _ _); by simplify_eq).
    pose proof (Hlat (S n)). destruct res1 as [[]|e1|m].
    + exists n, r1, (Ok ()), t1. split; [done|]. split; [lia|]. left. split; [done|]. by exists t, t0, r, e.
    + assert (failed_attempts w start r0 (S n) t1 r1 (Some e1)) as HF1 by (by eapply failed_more).
      assert (forall timer t' c, select_case (w_pick w (S n)) (ready_cases (mkSignals Done deadline) timer t') = Some c -> c <> WTimer -> t1 <= t' ->
        exists n' r' res t'', match c with WDeadline => (r1, timed_out e1, t') | _ => (r1, interrupted, t') end = (r', res, t'') /\
          (n' <= max_attempts timeout interval)%nat /\ retry_outcome w Done deadline start r0 r' res t'' n') as Hstop.
      { intros timer t' c Hs Hc Hle. apply select_case_in in Hs. destruct c; [done| |].
        - apply ready_deadline in Hs. exists (S n), r1, (timed_out e1), t'. split; [done|]. split; [lia|]. right; right; left. by exists t1, e1.
        - apply ready_done in Hs. exists (S n), r1, interrupted, t'. split; [done|]. split; [lia|]. right; right; right. by exists t1, (Some e1). }
      destruct (select_case _ (ready_cases _ None t1)) as [c|] eqn:Hs1.
      { destruct c; [apply select_case_in, ready_timer in Hs1; done|apply (Hstop _ _ _ Hs1 ltac:(done) ltac:(lia))..]. }
      assert (t1 < deadline) as Hbefore.
      { destruct (Z_lt_ge_dec t1 deadline) as [|Hge]; [done|]. apply select_case_none in Hs1.
        assert (In WDeadline []) as []. { rewrite <- Hs1. apply ready_deadline. simpl. lia. } }
      destruct (wait_wakes (w_pick w (S n)) (mkSignals Done deadline) t1 interval (w_lag w (S n)) (Hlag (S n))) as (c & Hs2 & Hw).
      cbv zeta. rewrite Hs2.
      pose proof (Hlag (S n)). set (t2 := Z.max t1 _ + w_lag w (S n)) in *. assert (t1 <= t2) by lia.
      destruct c; [|exact (Hstop _ _ _ Hs2 ltac:(done) ltac:(lia))..].
      specialize (Hw eq_refl). apply (IH (S n) t1 t2 r1 (Some e1) HF1); [lia|lia| |lia]. right. replace (S n - 1)%nat with n by lia. lia.
    + exists n, r1, (Panic m), t1. split; [done|]. split; [lia|]. right; left. by exists m, t, t0, r, e.
Qed.

Lemma shutdown_result w Done ctxEnd timeout interval start r r' res t' :
  0 <= timeout -> 0 <= interval -> (forall n, 0 <= w_latency w n) -> (forall n, 0 <= w_lag w n) ->
  syncReplicaWithRetry w Done ctxEnd timeout interval start r = (r', res, t') ->
  exists n, (n <= max_attempts timeout (retry_interval interval))%nat /\
    ((res = Ok () /\ exists dpos, db_Pos (r_db r) = Ok dpos /\ TXID_ dpos < txid_succ (TXID_ (r_pos r'))) \/
     (exists t e, failed_attempts w start r n t r' e /\ t <= t' /\
        (timeout = 0 /\ n = 1%nat /\ (exists x, e = Some x /\ res = Err x) \/
         (exists x, e = Some x /\ res = timed_out x) /\ deadline_of ctxEnd timeout start <= t' \/
         res = interrupted /\ is_closed Done t' = true)) \/
     (exists m t t1 r1 e, res = Panic m /\ failed_attempts w start r n t r1 e /\ sync_attempt w (S n) t1 r1 = (r', Panic m, t'))).
Proof.
  intros Ht Hi Hlat Hlag HR. unfold syncReplicaWithRetry in HR.
  assert (forall n t t1 r1 e, failed_attempts w start r n t r1 e -> sync_attempt w (S n) t1 r1 = (r', Ok (), t') ->
    exists dpos, db_Pos (r_db r) = Ok dpos /\ TXID_ dpos < txid_succ (TXID_ (r_pos r'))) as Hok.
  { intros n t t1 r1 e HF HA. rewrite <- (failed_attempts_db _ _ _ _ _ _ _ HF). unfold sync_attempt in HA.
    destruct (Replica.Sync _ _ _ _ _) as [r2 res2] eqn:HS. simplify_eq. apply Sync_end in HS as [_ HS]. by apply HS. }
  destruct (Z.eqb_spec timeout 0) as [->|Hne].
  - destruct res as [[]|x|m]; [exists 1%nat|exists 1%nat|exists 0%nat]; (split; [unfold max_attempts; lia|]).
    + left. split; [done|]. eapply (Hok 0%nat); [constructor|done].
    + right; left. exists t', (Some x). split; [eapply (failed_more w start r 0); [constructor|reflexivity|exact HR]|]. split; [lia|]. left. eauto.
    + right; right. exists m, start, start, r, None. split; [done|]. split; [constructor|done].
  - set (iv := retry_interval interval) in *. assert (0 < iv) as Hiv
      by (subst iv; unfold retry_interval; destruct (Z.eqb_spec interval 0); unfold DefaultShutdownSyncInterval; lia).
    destruct (retry_loop_spec w Done (deadline_of ctxEnd timeout start) iv timeout start r (max_attempts timeout iv) 0 start start r None)
      as (n & r1 & res1 & t1 & HL & Hn & Hout); first [done|lia|by constructor|by left|unfold deadline_of; destruct ctxEnd; lia|idtac].
    rewrite HL in HR. injection HR as <- <- <-. exists n. split; [done|].
    destruct Hout as [(-> & tb & ta & ra & e & HF & _ & HA)|[(m & tb & ta & ra & e & -> & HF & HA)|[(t & x & -> & HF & Hd & Hle)|(t & e & -> & HF & HD & Hle)]]].
    + left. split; [done|]. by eapply Hok.
    + right; right. exists m, ta, tb, ra, e. done.
    + right; left. exists t, (Some x). split; [done|]. split; [done|]. right; left. eauto.
    + right; left. exists t, e. split; [done|]. split; [done|]. right; right. done.
Qed.

(** C21: the sync at shutdown ends and tells the truth.  Whatever the storage does, the
    retry loop returns: after at most [timeout / interval + 2] failed attempts (one
    when no timeout is set), and it panics only when an attempt, a call of [Sync], has panicked.  It returns no error only when its last attempt was a
    sync that succeeded, and the replica has then reached the position of the
    database.  Otherwise every attempt failed: it reports a timeout, wrapping the
    error of the last attempt, only once the deadline (the end of the timeout or of the caller's context)
    has passed, and an interruption
    only once [Done] was closed. *)
Theorem shutdown_sync w Done ctxEnd timeout interval start r r' res t' :
  0 <= timeout -> 0 <= interval -> (forall n, 0 <= w_latency w n) -> (forall n, 0 <= w_lag w n) ->
  syncReplicaWithRetry w Done ctxEnd timeout interval start r = (r', res, t') ->
  exists n, (n <= max_attempts timeout (retry_interval interval))%nat /\
    ((res = Ok () /\ exists dpos, db_Pos (r_db r) = Ok dpos /\ TXID_ dpos < txid_succ (TXID_ (r_pos r'))) \/
     (exists t e, failed_attempts w start r n t r' e /\ t <= t' /\
        (timeout = 0 /\ n = 1%nat /\ (exists x, e = Some x /\ res = Err x) \/
         (exists x, e = Some x /\ res = timed_out x) /\ deadline_of ctxEnd timeout start <= t' \/
         res = interrupted /\ is_closed Done t' = true)) \/
     (exists m t t1 r1 e, res = Panic m /\ failed_attempts w start r n t r1 e /\ sync_attempt w (S n) t1 r1 = (r', Panic m, t'))).
Proof. apply shutdown_result. Qed.

(** ** Closing a database *)

(** The handles a database keeps. *)
Record handles := mkHandles { h_opened : bool; h_rtx : bool; h_db : bool; h_f : bool }.

(** The calls that [Close] makes besides the replica sync: the final sync of the
    database, whether the database is initialised after it, and releasing the read
    lock, the connection and the file. *)
Record closing := mkClosing {
  c_sync : option error; c_init : handles -> handles;
  c_release : option error; c_close_db : option error; c_close_f : option error
}.

(** [if e := ...; e != nil && err == nil { err = e }]. *)
Definition keep_first (err e : option error) : option error := match err with Some _ => err | None => e end.

Definition DB_Close (c : closing) (w : world) (Done ctxEnd : option time) (timeout interval : duration) (start : time)
    (h : handles) (rep : option (Replica C D)) : handles * option (Replica C D) * result () :=
  let h := c_init c h in
  let err := c_sync c in
  match
    match rep with
    | Some r =>
        if h_db h then
          match syncReplicaWithRetry w Done ctxEnd timeout interval start r with
          | (r, Ok (), _) => Ok (Some r, err)
          | (r, Err e, _) => Ok (Some r, keep_first err (Some e))
          | (_, Panic m, _) => Panic m
          end
        else Ok (rep, err)
    | None => Ok (rep, err)
    end
  with
  | Panic m => (h, rep, Panic m)
  | Err e => (h, rep, Err e)
  | Ok (rep, err) =>
      let err := if h_rtx h then keep_first err (c_release c) else err in
      let err := if h_db h then keep_first err (c_close_db c) else err in
      let err := if h_f h then keep_first err (c_close_f c) else err in
      (mkHandles false false false false, rep, match err with Some e => Err e | None => Ok () end)
  end.

(** Closing releases every handle, whatever fails, and a close without an error has
    replicated the database. *)
Theorem close_releases c w Done timeout interval start h r h' rep' :
  0 <= timeout -> 0 <= interval -> (forall n, 0 <= w_latency w n) -> (forall n, 0 <= w_lag w n) ->
  forall res, DB_Close c w Done None timeout interval start h (Some r) = (h', rep', res) -> is_panic res = false ->
  h' = mkHandles false false false false /\
  (res = Ok () -> c_sync c = None /\ (h_db (c_init c h) = true -> exists r' dpos,
     rep' = Some r' /\ db_Pos (r_db r) = Ok dpos /\ TXID_ dpos < txid_succ (TXID_ (r_pos r')))).
Proof.
  intros Ht Hi Hlat Hlag res HC Hp. unfold DB_Close in HC. destruct (h_db (c_init c h)) eqn:Hdb.
  - destruct (syncReplicaWithRetry w Done None timeout interval start r) as [[r1 [[]|e|m]] t1] eqn:HS;
      [| |injection HC as _ _ <-; done]; injection HC as <- <- <-; (split; [done|]); intros HR.
    + assert (c_sync c = None) as Hc.
      { destruct (c_sync c); [|done]. by destruct (h_rtx (c_init c h)), (h_f (c_init c h)). }
      split; [done|]. intros _. destruct (shutdown_result _ _ _ _ _ _ _ _ _ _ Ht Hi Hlat Hlag HS) as (n & _ & [(_ & dpos & Hd & Hlt)|[(t & e & _ & _ & Hx)|(m & _ & _ & _ & _ & Hm & _)]]); [by eauto| |done].
      exfalso. destruct Hx as [(_ & _ & x & _ & ?)|[[(x & _ & ?) _]|[? _]]]; done.
    + exfalso. by destruct (c_sync c), (h_rtx (c_init c h)), (h_f (c_init c h)).
  - injection HC as <- <- <-. split; [done|]. intros HR. split; [|done].
    destruct (c_sync c); [|done]. by destruct (h_rtx (c_init c h)), (h_f (c_init c h)).
Qed.
End Retry.

(** ** The monitor of a database *)

(** ASCII letters in lower case; other bytes are kept. *)
Definition lower (a : ascii) : ascii :=
  let n := N_of_ascii a in if ((65 <=? n) && (n <=? 90))%N then ascii_of_N (n + 32) else a.

Fixpoint ToLower (s : string) : string :=
  match s with EmptyString => EmptyString | String a s => String (lower a) (ToLower s) end.

Fixpoint Contains (s sub : string) : bool :=
  String.prefix sub s || match s with EmptyString => false | String _ s => Contains s sub end.

Section Monitor.
(** [error.Error]: the messages of errors of other packages are not modelled. *)
Variable Error_ : error -> string.

Definition isDiskFullError (err : option error) : bool :=
  match err with
  | None => false
  | Some err =>
      let errStr := ToLower (Error_ err) in
      Contains errStr "no space left on device" || Contains errStr "disk quota exceeded" ||
      Contains errStr "enospc" || Contains errStr "edquot"
  end.

(** One sync of [monitor]: the state it keeps and whether it removed temporary files. *)
Definition DB_monitor_step (MonitorInterval : duration) (st : monitor_state) (err : option error) (now : time) : monitor_state * bool :=
  match err with
  | Some e =>
      if negb (errors_Is e ErrCanceled) then
        let errs := consecutiveErrs st + 1 in
        let b := if backoff st =? 0 then MonitorInterval
                 else if DefaultSyncBackoffMax <? backoff st * 2 then DefaultSyncBackoffMax else backoff st * 2 in
        let logged := if SyncErrorLogInterval <=? now - lastLogTime st then now else lastLogTime st in
        (mkMonitor b logged errs, isDiskFullError (Some e) && (3 <=? errs))
      else (mkMonitor 0 (lastLogTime st) 0, false)
  | None => (mkMonitor 0 (lastLogTime st) 0, false)
  end.

Definition DB_monitor_run (MonitorInterval : duration) (st : monitor_state) (outcomes : list (option error * time)) : monitor_state :=
  fold_left (fun st o => fst (DB_monitor_step MonitorInterval st o.1 o.2)) outcomes st.

Lemma DB_monitor_backoff MonitorInterval st outcomes :
  0 < MonitorInterval -> 0 <= backoff st <= Z.max MonitorInterval DefaultSyncBackoffMax ->
  0 <= backoff (DB_monitor_run MonitorInterval st outcomes) <= Z.max MonitorInterval DefaultSyncBackoffMax.
Proof.
  intros Hi. revert st. induction outcomes as [|o outcomes IH]; intros st Hb; [done|]. simpl. apply IH.
  unfold DB_monitor_step. destruct o.1 as [e|]; [|simpl; lia]. destruct (negb _); [|simpl; lia]. simpl.
  pose proof (next_backoff_bound MonitorInterval (backoff st) Hi Hb). unfold next_backoff in *. lia.
Qed.

(** The backoff never exceeds the larger of the interval and five minutes; a sync that
    succeeds clears it; and temporary files are removed only at the third failure in
    a row, or a later one, whose message speaks of a full disk. *)
Theorem DB_monitor_policy MonitorInterval outcomes err now :
  0 < MonitorInterval ->
  let st := DB_monitor_run MonitorInterval (mkMonitor 0 0 0) outcomes in
  0 <= backoff st <= Z.max MonitorInterval DefaultSyncBackoffMax /\
  (err = None -> backoff (DB_monitor_step MonitorInterval st err now).1 = 0) /\
  ((DB_monitor_step MonitorInterval st err now).2 = true ->
     isDiskFullError err = true /\ 2 <= consecutiveErrs st /\ 0 < backoff (DB_monitor_step MonitorInterval st err now).1).
Proof.
  intros Hi st. split; [apply DB_monitor_backoff; [done|simpl; lia]|]. split; [by intros ->|].
  assert (0 <= backoff st <= Z.max MonitorInterval DefaultSyncBackoffMax) as Hb by (apply DB_monitor_backoff; [done|simpl; lia]).
  unfold DB_monitor_step. destruct err as [e|]; [|done]. destruct (negb _); [|done]. cbn [fst snd backoff].
  intros [Hd Hn]%andb_true_iff. split; [done|]. breflect. split; [lia|].
  pose proof (next_backoff_bound MonitorInterval (backoff st) Hi Hb). unfold next_backoff in *. lia.
Qed.
End Monitor.

(** ** A storage that comes back *)
Module ShutdownDemo.
(** The storage fails while it is [false]. *)
Definition flaky : ReplicaClient bool := {|
  LTXFiles _ _ _ _ := Ok (mkIter [] None None);
  OpenLTXFile _ _ _ _ _ _ := Err ErrNotExist;
  WriteLTXFile (c : bool) level lo hi rd := (c, if c then Ok (mkFileInfo level lo hi 0 0) else Err (EMsg "unavailable"));
  DeleteLTXFiles c _ := (c, None)
|}.

Definition world3 : @world bool := mkWorld (fun n _ _ => (3 <=? n)%nat) (fun _ => 10) (fun _ => 1) (fun _ => 0%nat).

Definition run (Done : option time) (timeout interval : duration) : Replica bool time * result () * time :=
  @syncReplicaWithRetry bool time flaky demo_db_ops string string demo_encrypt demo_flush demo_plain_cfg world3 Done None timeout interval 0
    (mkReplica 0 zeroPos false).

(** The third attempt succeeds; with a shorter timeout the second is the last; a
    signal ends the loop early. *)
Example run_outcomes :
  (run None 1000 100).1.2 = Ok () /\ (run None 1000 100).2 = 232 /\
  is_ok (run None 115 100).1.2 = false /\ (run (Some 50) 1000 100).1.2 = interrupted /\ (run (Some 50) 1000 100).2 = 51 /\
  (run None 0 100).1.2 = Err (EWrap "write ltx file" (EMsg "unavailable")).
Proof. by vm_compute. Qed.
End ShutdownDemo.

Lemma shutdown_sync_witness :
  exists r' t', ShutdownDemo.run None 1000 100 = (r', Ok (), t') /\ 2 < txid_succ (TXID_ (r_pos r')).
Proof.
  destruct (ShutdownDemo.run None 1000 100) as [[r' res] t'] eqn:E.
  assert (res = Ok ()) as Hr by (apply (f_equal (fun x => x.1.2)) in E; vm_compute in E; by rewrite <- E).
  rewrite Hr in *. exists r', t'. split; [reflexivity|].
  destruct (@shutdown_sync bool time ShutdownDemo.flaky demo_db_ops string string demo_encrypt demo_flush demo_plain_cfg
    ShutdownDemo.world3 None None 1000 100 0 (mkReplica 0 zeroPos false) r' (Ok ()) t') as (n & _ & [(_ & dpos & Hd & Hlt)|[(t & e & _ & _ & Hx)|(m & _ & _ & _ & _ & Hm & _)]]).
  - lia.
  - lia.
  - intros n. simpl. lia.
  - intros n. simpl. lia.
  - exact E.
  - simpl in Hd. injection Hd as <-. exact Hlt.
  - exfalso. destruct Hx as [(_ & _ & x & _ & Hx)|[[(x & _ & Hx) _]|[Hx _]]]; discriminate.
  - discriminate.
Defined.
