(* ===== verification/Pipeline.v ===== *)
(** * From the WAL to the storage

    Model of [SyncStatus] and [SyncAndWait] in src/db.go: the database (Db.v) behind the
    interface the replica asks for (Replica.v), and the two stages of a sync one after
    the other.  The storage is any client that keeps what it acknowledges. *)

From Stdlib Require Import ZArith Lia Strings.Byte.
From stdpp Require Import base numbers list strings gmap sorting.
From S2P Require Import Prelude WalReader Ltx Streams Compactor Replica Db PageIndex.
Local Open Scope Z_scope.

(** ** The database behind the replica *)

(** A database, the environment its calls run in and the time of the last sync. *)
Record live := mkLive { lv_db : DB; lv_env : env; lv_lastSync : time }.

Section Live.
Context `{LTXFormat}.
(** The bytes of a file that does not decode. *)
Variable raw : result ltxFile -> list byte.

Definition ltx_stream (x : result ltxFile) : Reader :=
  mkReader (match x with Ok f => EncodeLTX f | _ => raw x end) None.

Definition live_ops : ReplicaDB live := {|
  db_Pos l := (DB_Pos (lv_env l) (lv_db l)).2;
  db_LTXPath _ _ lo hi := ltxPath lo hi;
  db_OpenLTX l level lo hi := if level =? 0 then x ← open_l0 (lv_env l) (lv_db l) lo hi; Ok (ltx_stream x) else Err (EPath "open" ErrNotExist);
  db_RecordSuccessfulSync l now := mkLive (lv_db l) (lv_env l) now
|}.
End Live.

Record SyncStatus := mkSyncStatus { LocalTXID : TXID; RemoteTXID : TXID; InSync : bool }.

(** ** What a storage keeps *)

(** [stored c level lo hi] are the bytes of an object.  Listings show what is stored; a
    write that is acknowledged stores the whole stream; one that fails has stored it
    or has changed nothing, and never touches another object. *)
Class StorageLaws (C : Type) `{ReplicaClientLaws C} := {
  stored : C -> Z -> TXID -> TXID -> option (list byte);
  stored_listed c um level lo hi :
    is_Some (stored c level lo hi) <-> exists f, In f (level_files c um level) /\ MinTXID f = lo /\ MaxTXID f = hi;
  WriteLTXFile_ok c level lo hi rd c' info :
    WriteLTXFile c level lo hi rd = (c', Ok info) -> rd_err rd = None /\ stored c' level lo hi = Some (rd_data rd);
  WriteLTXFile_atomic c level lo hi rd c' r :
    WriteLTXFile c level lo hi rd = (c', r) ->
    stored c' level lo hi = stored c level lo hi \/ rd_err rd = None /\ stored c' level lo hi = Some (rd_data rd);
  WriteLTXFile_others c level lo hi rd c' r level' lo' hi' :
    WriteLTXFile c level lo hi rd = (c', r) -> (level', lo', hi') <> (level, lo, hi) -> stored c' level' lo' hi' = stored c level' lo' hi'
}.

Section Pipeline.
Context {C : Type} `{RC : ReplicaClient C} `{LTXFormat} {identity recipient : Type}.
Variable age_Encrypt : list recipient -> result (list byte -> list byte * option error).
Variable age_flushed : list recipient -> list byte -> list byte.
Variable raw : result ltxFile -> list byte.
Variable cfg : ReplicaConfig identity recipient.

Definition SyncStatus_of (e : env) (d : DB) (cl : C) : DB * result SyncStatus :=
  match DB_Pos e d with
  | (d, Err err) => (d, Err (EWrap "local position" err))
  | (d, Panic m) => (d, Panic m)
  | (d, Ok localPos) =>
      (d, remotePos ← calcPos cl wrapping "remote position";
          Ok (mkSyncStatus (TXID_ localPos) (TXID_ remotePos)
                ((0 <? TXID_ localPos) && (TXID_ localPos =? TXID_ remotePos))))
  end.

(** [Sync] of the replica of a database. *)
Definition replica_sync (e : env) (d : DB) (pos : Pos) (cl : C) (now : time) : Replica C live * result () :=
  @Replica.Sync C live _ (live_ops raw) identity recipient age_Encrypt age_flushed cfg (mkReplica (mkLive d e 0) pos cl) now.

Section SyncAndWait.
Context `{SQLite}.
Variable LockPgno : Z -> Z.
Variable enc_N : ltxFile -> Z.

(** [SyncAndWait]: [e0] and [e] are the environments of the database's sync, [eu] that
    of the upload. *)
Definition SyncAndWait (e0 : env) (e : nat -> env) (eu : env) (locked : bool) (others : nat -> files -> files) (dbcfg : DBConfig)
    (fs : files) (d : DB) (modTime : result time) (pos : Pos) (cl : C) (now : time)
    : DB * files * Pos * C * result () :=
  match DB_Sync LockPgno enc_N e0 e locked others dbcfg fs d modTime with
  | (d, fs, Err err) => (d, fs, pos, cl, Err (EWrap "db sync" err))
  | (d, fs, Panic m) => (d, fs, pos, cl, Panic m)
  | (d, fs, Ok _) =>
      let '(r, res) := replica_sync eu d pos cl now in
      (d, fs, r_pos r, r_Client r, res wrapping "replica sync")
  end.
End SyncAndWait.
End Pipeline.

(** ** Uploads keep the storage a copy of the history *)
Section Durable.
Context {C : Type} `{ReplicaClientLaws C} `{!StorageLaws C} `{LTXFormat} {identity recipient : Type}.
Variable age_Encrypt : list recipient -> result (list byte -> list byte * option error).
Variable age_flushed : list recipient -> list byte -> list byte.
Variable raw : result ltxFile -> list byte.
Variable cfg : ReplicaConfig identity recipient.

(** The object [x] holds the stream [b]: as it is, or sealed for the recipients. *)
Definition sealed_as (b x : list byte) : Prop :=
  if EncryptionEnabled cfg then exists ew, age_Encrypt (AgeRecipients cfg) = Ok ew /\ ew b = (x, None) else x = b.

(** A write through the replica. *)
Lemma r_WriteLTXFile_stored cl level lo hi b cl' res :
  r_WriteLTXFile age_Encrypt age_flushed cfg cl level lo hi (mkReader b None) = (cl', res) ->
  (stored cl' level lo hi = stored cl level lo hi \/ exists x, stored cl' level lo hi = Some x /\ sealed_as b x) /\
  (is_ok res = true -> exists x, stored cl' level lo hi = Some x /\ sealed_as b x) /\
  (forall level' lo' hi', (level', lo', hi') <> (level, lo, hi) -> stored cl' level' lo' hi' = stored cl level' lo' hi').
Proof.
  unfold r_WriteLTXFile, sealed_as. destruct (EncryptionEnabled cfg); cbn [negb].
  - destruct (encrypt_pipe age_Encrypt age_flushed cfg (mkReader b None)) as [pw encErr] eqn:HP.
    assert (rd_err (Pipe.reader pw) = None -> exists ew, age_Encrypt (AgeRecipients cfg) = Ok ew /\ ew b = (rd_data (Pipe.reader pw), None)) as Hpipe.
    { unfold encrypt_pipe in HP. destruct (age_Encrypt (AgeRecipients cfg)) as [ew|e|m]; [|by simplify_eq/=..].
      cbn [rd_err rd_data] in HP. destruct (ew b) as [x [ce|]] eqn:Hew; simplify_eq; [done|]. intros _. exists ew. split; [done|].
      rewrite Hew. done. }
    destruct (WriteLTXFile cl level lo hi (Pipe.reader pw)) as [cl1 info] eqn:HW. intros [= <- <-]. split_and!.
    + destruct (WriteLTXFile_atomic _ _ _ _ _ _ _ HW) as [?|[He ?]]; [by left|right]. eauto.
    + destruct info as [info|e|m]; [|by destruct (bool_decide _)|done]. intros _.
      destruct (WriteLTXFile_ok _ _ _ _ _ _ _ HW). eauto.
    + intros ? ? ? Hne. by eapply WriteLTXFile_others.
  - destruct (RequireEncryption cfg); [intros [= <- <-]; split_and!; [by left|done|done]|]. intros HW. split_and!.
    + destruct (WriteLTXFile_atomic _ _ _ _ _ _ _ HW) as [?|[He ?]]; [by left|right]. eauto.
    + destruct res as [info|e|m]; [|done..]. intros _. destruct (WriteLTXFile_ok _ _ _ _ _ _ _ HW). eauto.
    + intros ? ? ? Hne. by eapply WriteLTXFile_others.
Qed.

(** The storage holds an initial part of the history [hist], the level-0 files written
    so far; local files of those transactions are files of the history. *)
Record replicated (hist : list ltxFile) (l0 : l0dir) (cl : C) : Prop := {
  rp_local i f x : hist !! i = Some f -> l0 !! (Z.of_nat i + 1, Z.of_nat i + 1) = Some x -> x = Ok f;
  rp_stored lo hi x : stored cl 0 lo hi = Some x ->
    lo = hi /\ exists i f, lo = Z.of_nat i + 1 /\ hist !! i = Some f /\ sealed_as (EncodeLTX f) x;
  rp_prefix t t' : 1 <= t' <= t -> is_Some (stored cl 0 t t) -> is_Some (stored cl 0 t' t')
}.

(** Everything up to [t] is in the storage. *)
Definition uploaded_to (cl : C) (t : TXID) : Prop := forall t', 1 <= t' <= t -> is_Some (stored cl 0 t' t').

(** A position of the replica is unknown or within what is stored. *)
Definition pos_ok (n : nat) (cl : C) (pos : Pos) : Prop :=
  pos = zeroPos \/ 0 <= TXID_ pos <= Z.of_nat n /\ uploaded_to cl (TXID_ pos).

Lemma replicated_write hist l0 cl cl' t f :
  replicated hist l0 cl -> hist !! t = Some f -> uploaded_to cl (Z.of_nat t) ->
  (stored cl' 0 (Z.of_nat t + 1) (Z.of_nat t + 1) = stored cl 0 (Z.of_nat t + 1) (Z.of_nat t + 1) \/
   exists x, stored cl' 0 (Z.of_nat t + 1) (Z.of_nat t + 1) = Some x /\ sealed_as (EncodeLTX f) x) ->
  (forall level lo hi, (level, lo, hi) <> (0, Z.of_nat t + 1, Z.of_nat t + 1) -> stored cl' level lo hi = stored cl level lo hi) ->
  replicated hist l0 cl'.
Proof.
  intros [Hloc Hst Hpre] Hf Hup Hkey Hoth. split; [done| |].
  - intros lo hi x Hx. destruct (decide ((0, lo, hi) = (0, Z.of_nat t + 1, Z.of_nat t + 1))) as [[= -> ->]|Hne].
    + destruct Hkey as [Heq|(y & Hy & Hs)]; [apply Hst; by rewrite <- Heq|]. rewrite Hx in Hy. injection Hy as <-.
      split; [done|]. by exists t, f.
    + apply Hst. by rewrite <- Hoth.
  - assert (forall t', is_Some (stored cl 0 t' t') -> is_Some (stored cl' 0 t' t')) as Hkeep.
    { intros t' [x Hx]. destruct (decide (t' = Z.of_nat t + 1)) as [->|Hne].
      - destruct Hkey as [Heq|(y & Hy & _)]; [by rewrite Heq, Hx|by rewrite Hy].
      - rewrite Hoth; [by rewrite Hx|]. intros [=]. lia. }
    intros u u' Hle Hu. destruct (decide (u' = u)) as [->|]; [done|]. apply Hkeep. destruct (decide (u = Z.of_nat t + 1)) as [->|Hne].
    + apply Hup. lia.
    + apply (Hpre u); [done|]. rewrite <- Hoth; [done|]. intros [=]. lia.
Qed.

#[local] Existing Instance live_ops.

(** The upload loop: the storage stays an initial part of the history, and reaches the
    target when the loop succeeds. *)
Lemma Sync_loop_durable fuel (r : Replica C live) hist :
  replicated hist (d_l0 (lv_db (r_db r))) (r_Client r) -> 0 <= TXID_ (r_pos r) <= Z.of_nat (length hist) -> Z.of_nat (length hist) < 2 ^ 64 - 1 ->
  uploaded_to (r_Client r) (TXID_ (r_pos r)) ->
  forall r' res, @Sync_loop C live _ (live_ops raw) _ _ age_Encrypt age_flushed fuel cfg r (Z.of_nat (length hist)) = (r', res) ->
  replicated hist (d_l0 (lv_db (r_db r))) (r_Client r') /\ (res = Ok () -> uploaded_to (r_Client r') (Z.of_nat (length hist))) /\
  pos_ok (length hist) (r_Client r') (r_pos r').
Proof.
  intros Hrep Hpos Hmax Hup. revert r Hrep Hpos Hup.
  induction fuel as [|fuel IH]; intros r Hrep Hpos Hup r' res; cbn [Sync_loop]; rewrite txid_succ_small by lia;
    (destruct (Z.leb_spec (TXID_ (r_pos r) + 1) (Z.of_nat (length hist))) as [Hle|Hgt]).
  1: intros [= <- <-]; split_and!; [done|done|by right].
  1,3: intros [= <- <-]; split_and!; [done|intros _; by replace (Z.of_nat (length hist)) with (TXID_ (r_pos r)) by lia|by right].
  set (t := Z.to_nat (TXID_ (r_pos r))). assert (Z.of_nat t = TXID_ (r_pos r)) as Ht by lia.
  destruct (lookup_lt_is_Some_2 hist t ltac:(lia)) as [f Hf].
  unfold uploadLTXFile. cbn [db_OpenLTX live_ops]. change (0 =? 0) with true. cbn iota.
  destruct (open_l0 (lv_env (r_db r)) (lv_db (r_db r)) _ _) as [x|e|m] eqn:HO; cbn [mbind result_bind];
    [|intros [= <- <-]; split_and!; [done|done|by right]..].
  unfold open_l0 in HO. destruct (io _ _) as [u|e|m]; cbn [mbind result_bind] in HO; [|done..].
  rewrite <- Ht in HO. destruct (d_l0 (lv_db (r_db r)) !! _) as [y|] eqn:Hy; [|done]. injection HO as <-.
  rewrite (rp_local _ _ _ Hrep t f y Hf Hy). unfold ltx_stream.
  destruct (r_WriteLTXFile _ _ _ _ _ _ _ _) as [cl1 info] eqn:HW. rewrite <- Ht in HW.
  apply r_WriteLTXFile_stored in HW as (Hkey & Hok & Hoth).
  assert (replicated hist (d_l0 (lv_db (r_db r))) cl1) as Hrep1
    by (eapply replicated_write; [done|done|by rewrite Ht|done|done]).
  assert (uploaded_to cl1 (TXID_ (r_pos r))) as Hup1.
  { intros t' Ht'. rewrite Hoth; [by apply Hup|]. intros [=]. lia. }
  destruct info as [info|e|m]; cbn [wrap_err mbind result_bind]; [|intros [= <- <-]; split_and!; [done|done|by right]..].
  intros HL. apply (IH (SetPos (mkReplica (r_db r) (r_pos r) cl1) (mkPos (TXID_ (r_pos r) + 1) 0))) in HL; [done|done|simpl; lia|].
  intros t' Ht'. cbn [r_Client SetPos r_pos TXID_] in *. destruct (Hok eq_refl) as (z & Hz & _).
  destruct (decide (t' = Z.of_nat t + 1)) as [->|Hne]; [by rewrite Hz|].
  apply Hup1. lia.
Qed.

(** The end of the remote level 0 is the number of transactions stored. *)
Lemma calcPos_durable hist l0 cl p :
  replicated hist l0 cl -> calcPos cl = Ok p -> 0 <= TXID_ p <= Z.of_nat (length hist) /\ uploaded_to cl (TXID_ p).
Proof.
  intros Hrep. unfold calcPos, r_MaxLTXFileInfo. destruct (LTXFiles cl 0 0 false) as [itr|e|m] eqn:HL; cbn [mbind result_bind wrap_err]; [|done..].
  destruct (itr_Close itr) as [e|] eqn:HC; cbn [mbind result_bind wrap_err]; [done|]. intros [= <-]. cbn [TXID_].
  rewrite (LTXFiles_close _ _ _ _ _ HL) in HC. rewrite (LTXFiles_complete _ _ _ _ _ HL HC).
  destruct (max_info_spec (filter (fun f => 0 <=? MinTXID f) (level_files cl false 0)) zeroFileInfo) as (_ & _ & [->|Hin]).
  - simpl. split; [lia|]. intros t' Ht'. lia.
  - set (f := max_info _ _) in *. apply In_filter_bool in Hin as [_ Hin].
    assert (is_Some (stored cl 0 (MinTXID f) (MaxTXID f))) as [x Hx] by (apply (stored_listed cl false); eauto).
    destruct (rp_stored _ _ _ Hrep _ _ _ Hx) as (Heq & i & g & Hi & Hg & _). apply lookup_lt_Some in Hg. split; [lia|].
    intros t' Ht'. apply (rp_prefix _ _ _ Hrep (MaxTXID f)); [done|]. by rewrite <- Heq at 1; rewrite Hx.
Qed.

Lemma replica_sync_durable e d pos cl now hist r' res :
  replicated hist (d_l0 d) cl -> (DB_Pos e d).2 = Ok (mkPos (Z.of_nat (length hist)) 0) -> 0 < Z.of_nat (length hist) < 2 ^ 64 - 1 ->
  pos_ok (length hist) cl pos ->
  replica_sync age_Encrypt age_flushed raw cfg e d pos cl now = (r', res) ->
  replicated hist (d_l0 d) (r_Client r') /\ (res = Ok () -> uploaded_to (r_Client r') (Z.of_nat (length hist))) /\
  pos_ok (length hist) (r_Client r') (r_pos r').
Proof.
  intros Hrep Hdb Hlen Hpos. unfold replica_sync, Replica.Sync, Sync_body. cbn [r_pos r_Client r_db].
  assert (forall p, (if pos_IsZero pos then calcPos cl wrapping "calc pos" else Ok pos) = Ok p ->
    0 <= TXID_ p <= Z.of_nat (length hist) /\ uploaded_to cl (TXID_ p)) as Hp.
  { intros p. destruct (pos_IsZero pos) eqn:Hz.
    - destruct (calcPos cl) as [q|er|m] eqn:HC; intros [= <-]. by apply (calcPos_durable hist (d_l0 d)).
    - intros [= <-]. destruct Hpos as [->|?]; [done|done]. }
  destruct (if pos_IsZero pos then _ else _) as [p|er|m]; [|intros [= <- <-]; split_and!; [done|done|first [by left|done]]..].
  destruct (Hp p eq_refl) as [Hr Hu]. clear Hp.
  cbn [r_db SetPos db_Pos live_ops lv_env lv_db]. rewrite Hdb. cbn [wrap_err].
  destruct (pos_IsZero _) eqn:Hz; [intros [= <- <-]; split_and!; [done|done|by left]|].
  destruct (Sync_loop _ _ _ _ _ _) as [r1 res1] eqn:HL. cbn [TXID_] in HL.
  apply (Sync_loop_durable _ _ hist) in HL as (Hrep1 & Hok & Hpok); try done; [|simpl; lia].
  destruct res1 as [[]|er|m]; intros [= <- <-]; simpl; split_and!; try done; first [intros _; by apply Hok|by left].
Qed.

(** *** Both stages *)

(** What a restore of the files of a history gives. *)
Definition restored (hist : list ltxFile) : Z -> option (list byte) := fold_left (fun R f => apply_ltx f R) hist (fun _ => None).

Lemma restored_snoc hist f : restored (hist ++ [f]) = apply_ltx f (restored hist).
Proof. unfold restored. by rewrite fold_left_app. Qed.

Lemma replicated_snoc hist l0 cl f :
  replicated hist l0 cl -> replicated (hist ++ [f]) (<[(Z.of_nat (length hist) + 1, Z.of_nat (length hist) + 1) := Ok f]> l0) cl.
Proof.
  intros [Hloc Hst Hpre]. split; [| |done].
  - intros i g x [Hg|[Hi Hg]]%lookup_app_Some Hx.
    + pose proof (lookup_lt_Some _ _ _ Hg). rewrite lookup_insert_ne in Hx by (intros [=]; lia). by eapply Hloc.
    + apply list_lookup_singleton_Some in Hg as [Hi0 <-]. replace i with (length hist) in Hx by lia.
      rewrite lookup_insert_eq in Hx. by injection Hx as <-.
  - intros lo hi x Hx. destruct (Hst lo hi x Hx) as (-> & i & g & -> & Hg & Hs). split; [done|]. exists i, g.
    split_and!; [done| |done]. by apply lookup_app_l_Some.
Qed.

Section EndToEnd.
Context `{SQLite}.
Variable LockPgno : Z -> Z.
Variable enc_N : ltxFile -> Z.

(** The files that a directory has gained are the continuation of the history. *)
Lemma extends_history l0 t R l1 t1 R1 :
  extends l0 t R l1 t1 R1 -> forall hist, t = Z.of_nat (length hist) -> R = restored hist ->
  exists new, t1 = Z.of_nat (length (hist ++ new)) /\ R1 = restored (hist ++ new) /\
    forall cl : C, replicated hist l0 cl -> replicated (hist ++ new) l1 cl.
Proof.
  induction 1 as [l0 t R|l0 t R f l0' t' R' Hmin Hmax Hx IH]; intros hist -> ->.
  - exists []. by rewrite app_nil_r.
  - destruct (IH (hist ++ [f])) as (new & Ht & HR & Hrep); [rewrite length_app; simpl; lia|by rewrite restored_snoc|].
    exists (f :: new). change (f :: new) with ([f] ++ new). rewrite (assoc_L (++)). split; [done|]. split; [done|].
    intros cl Hcl. by apply Hrep, replicated_snoc.
Qed.

(** *** The checkpoint of a sync

    What the checkpoint that may follow the first copy leaves of the files [fs], whose WAL
    [w] holds the frames [frs]: nothing changes when none is due or another goroutine is at
    one; a checkpoint that truncates the WAL leaves other files with a new WAL. *)
Inductive checkpointed (e : nat -> env) (locked : bool) (others : nat -> files -> files) (fs : files) (w : list byte) (r0 : WALReader)
    (frs : list frame) : option string -> files -> list byte -> WALReader -> list frame -> Prop :=
| no_checkpoint_due : checkpointed e locked others fs w r0 frs None fs w r0 frs
| checkpoint_skipped mode : locked = false -> checkpointed e locked others fs w r0 frs (Some mode) fs w r0 frs
| checkpoint_truncated mode fs1 w1 r1 rest1 fs4 w4 r4 frs4 :
    locked = true -> (forall i, quiet (e i)) ->
    truncation LockPgno others mode fs w frs fs1 w1 r1 rest1 fs4 w4 r4 frs4 ->
    checkpointed e locked others fs w r0 frs (Some mode) fs4 w4 r4 (committed frs4).

(** The state of a sync: the database and its files, the history and the flag of the last copy. *)
Definition in_step (fs : files) (w : list byte) (r0 : WALReader) (rest : list frame) (d : DB) (f : ltxFile) (frs : list frame) (hist : list ltxFile) : Prop :=
  synced_to LockPgno fs w r0 rest d f frs (restored hist) /\ flags_ok d f /\ lf_MaxTXID f = Z.of_nat (length hist).

Lemma in_step_flag fs w r0 rest d f frs hist b :
  in_step fs w r0 rest d f frs hist -> in_step fs w r0 rest (set_syncedSinceCheckpoint b d) f frs hist.
Proof. intros (Hst & Hfl & Hf). split; [by eapply synced_to_ext|done]. Qed.

Lemma committed_rest_nil rest rest' : rest = committed rest ++ rest' -> committed rest' = [].
Proof.
  intros Hr. destruct (decide (committed rest' = [])) as [|Hne]; [done|exfalso].
  pose proof (committed_app_commit (committed rest) rest' (committed_existsb _ Hne)) as Hx. rewrite <- Hr in Hx.
  apply Hne, (app_inv_head (committed rest)). by rewrite <- Hx, app_nil_r.
Qed.

(** The first copy. *)
Lemma copy_step e fs w r0 rest d f frs hist :
  in_step fs w r0 rest d f frs hist -> quiet e -> commit_inside rest -> grows_written LockPgno fs (wr_pageSize r0) frs rest ->
  Z.of_nat (length hist) < 2 ^ 64 - 2 ->
  exists d' f' rest' o new, verifyAndSync LockPgno enc_N e fs d = (d', Ok o) /\ (length new <= 1)%nat /\
    in_step fs w r0 rest' d' f' (frs ++ committed rest) (hist ++ new) /\ rest = committed rest ++ rest' /\ committed rest' = [] /\
    (forall cl : C, replicated hist (d_l0 d) cl -> replicated (hist ++ new) (d_l0 d') cl).
Proof.
  intros (Hst & Hfl & Hf) Hq Hci Hgrow Hlen.
  destruct (verifyAndSync_step LockPgno enc_N e fs w r0 rest d f frs (restored hist) Hst Hq Hci Hgrow ltac:(lia)) as (d1 & o & HV & Hcase).
  destruct Hcase as [[Hc ->]|(_ & f' & rest' & Hrest & _ & Hmax & Hl0 & Hst' & Hfl')].
  - exists d, f, rest, o, []. rewrite Hc, !app_nil_r. unfold in_step. split_and!; try done; simpl; lia.
  - exists d1, f', rest', o, [f']. split; [done|]. split; [done|]. rewrite <- Hrest. split; [|split_and!]; try done.
    + split; [by rewrite restored_snoc|]. split; [done|]. rewrite length_app. simpl. lia.
    + by apply (committed_rest_nil rest).
    + intros cl Hcl. rewrite Hl0, Hmax, Hf. by apply replicated_snoc.
Qed.

Lemma nothing_grows fs ps frs rest : committed rest = [] -> grows_written LockPgno fs ps frs rest.
Proof.
  intros Hc p. rewrite (committed_nil_commit _ Hc). unfold logical_size, u32.
  destruct (Z.ltb_spec 0 (last_commit frs)); [lia|]. pose proof (Z.mod_pos_bound (Z.quot (Z.of_nat (length (f_db fs))) ps) (2 ^ 32)). lia.
Qed.

(** A checkpoint that truncates, after the first copy. *)
Lemma checkpoint_step others mode fs w fs1 w1 r1 rest1 fs4 w4 r4 frs4 e rest r0 d f frs hist :
  truncation LockPgno others mode fs w frs fs1 w1 r1 rest1 fs4 w4 r4 frs4 -> (forall i, quiet (e i)) ->
  in_step fs w r0 rest d f frs hist -> committed rest = [] -> Z.of_nat (length hist) < 2 ^ 64 - 2 ->
  exists d' f' rest' new, checkpoint LockPgno enc_N e true others mode fs d = (d', fs4, Ok ()) /\
    in_step fs4 w4 r4 rest' d' f' (committed frs4) (hist ++ new) /\
    (forall cl : C, replicated hist (d_l0 d) cl -> replicated (hist ++ new) (d_l0 d') cl).
Proof.
  intros Htr Hq (Hst & Hfl & Hf) Hc Hlen. destruct (st_at _ _ _ _ _ _ _ _ _ Hst) as [Hw Ho _ _ _ _].
  destruct (verifyAndSync_step LockPgno enc_N (e 1%nat) fs w r0 rest d f frs (restored hist) Hst (Hq _)) as (d1 & o1 & HV1 & [[_ ->]|[? _]]);
    [by unfold commit_inside; rewrite Hc|by apply nothing_grows|lia| |done].
  destruct (checkpoint_second_copy LockPgno enc_N others mode fs w fs1 w1 r1 rest1 fs4 w4 r4 frs4 e rest r0 d f frs (restored hist))
    as (d2 & o2 & f2 & rest2 & HV2 & Hx2 & Hst2 & Hfl2); [done..|lia|].
  destruct (extends_history _ _ _ _ _ _ Hx2 hist Hf eq_refl) as (new & Hf2 & HR2 & Hrep).
  exists (set_syncedSinceCheckpoint false d2), f2, rest2, new. rewrite HR2 in Hst2.
  split; [by eapply checkpoint_run|]. split; [by apply in_step_flag|done].
Qed.

(** [DB_Sync]: the first copy and the checkpoint that may follow. *)
Lemma DB_Sync_step e0 e locked others dbcfg fs d modTime w r0 rest f frs hist due fs' w' r' frs' :
  in_step fs w r0 rest d f frs hist -> quiet e0 -> commit_inside rest ->
  grows_written LockPgno fs (wr_pageSize r0) frs rest -> Z.of_nat (length hist) < 2 ^ 64 - 3 ->
  (forall d' o n s, verifyAndSync LockPgno enc_N e0 fs d = (d', Ok (o, n, s)) ->
     checkpoint_decision dbcfg (if s then set_syncedSinceCheckpoint true d' else d') o n modTime (e_now (e 0%nat)) = Ok due) ->
  checkpointed e locked others fs w r0 (frs ++ committed rest) due fs' w' r' frs' ->
  exists d' f' rest' new, DB_Sync LockPgno enc_N e0 e locked others dbcfg fs d modTime =
      (d', fs', Ok (mkPos (Z.of_nat (length (hist ++ new))) 0)) /\
    in_step fs' w' r' rest' d' f' frs' (hist ++ new) /\
    (forall cl : C, replicated hist (d_l0 d) cl -> replicated (hist ++ new) (d_l0 d') cl).
Proof.
  intros Hin Hq Hci Hgrow Hlen Hdue Hck.
  destruct (copy_step e0 fs w r0 rest d f frs hist Hin Hq Hci Hgrow ltac:(lia)) as (d1 & f1 & rest1 & [[o n] s] & new & HV & Hn1 & Hin1 & _ & Hc1 & Hrep).
  specialize (Hdue _ _ _ _ HV). unfold DB_Sync. rewrite HV. set (d2 := if s then set_syncedSinceCheckpoint true d1 else d1) in *.
  assert (in_step fs w r0 rest1 d2 f1 (frs ++ committed rest) (hist ++ new)) as Hin2 by (subst d2; destruct s; [by apply in_step_flag|done]).
  assert (d_l0 d2 = d_l0 d1) as Hl0 by (subst d2; by destruct s). rewrite <- Hl0 in Hrep. clear Hl0.
  assert (exists d3 f3 rest3 new3, checkpointIfNeeded LockPgno enc_N e locked others dbcfg fs d2 o n modTime = (d3, fs', Ok ()) /\
    in_step fs' w' r' rest3 d3 f3 frs' (hist ++ new3) /\
    (forall cl : C, replicated hist (d_l0 d) cl -> replicated (hist ++ new3) (d_l0 d3) cl)) as (d3 & f3 & rest3 & new3 & -> & Hin3 & Hrep3).
  { unfold checkpointIfNeeded. rewrite Hdue. destruct Hck as [|mode ->|mode fs1 w1 r1 rest1' fs4 w4 r4 frs4 -> Hqs Htr].
    - by exists d2, f1, rest1, new.
    - by exists d2, f1, rest1, new.
    - destruct (checkpoint_step _ _ _ _ _ _ _ _ _ _ _ _ e _ _ _ _ _ _ Htr Hqs Hin2 Hc1) as (d3 & f3 & rest3 & new3 & -> & Hin3 & Hrep3);
        [rewrite length_app; lia|].
      exists d3, f3, rest3, (new ++ new3). rewrite (assoc_L (++)). split; [done|]. split; [done|]. intros cl Hcl. by apply Hrep3, Hrep. }
  exists d3, f3, rest3, new3. split; [|done]. destruct Hin3 as (Hst3 & _ & Hf3).
  unfold DB_Pos. by rewrite (st_pos _ _ _ _ _ _ _ _ _ Hst3), Hf3.
Qed.

(** C1: a sync that is acknowledged is durable.  Suppose the storage holds an initial part of
    the history of level-0 files, the history restores to the database as of its last
    file, the WAL has only grown since, the operations on local files and SQLite's statements
    succeed, and the checkpoint of this sync, if one is due, is skipped because another
    goroutine is at one or truncates the WAL, nobody committing between its check of the
    WAL's size and SQLite's checkpoint ([Db.checkpoint_window] shows what is lost there
    and in a passive checkpoint).  Then [SyncAndWait], whatever the storage
    does, leaves a history that restores to the database as of the last committed
    transaction (of the new WAL after a checkpoint), of which the storage holds an initial part; and when it returns no
    error the storage holds all of it, every file complete and sealed when encryption
    is on.  The conclusion is again the hypothesis of the next call. *)
Theorem sync_and_wait_durable e0 e eu locked others dbcfg fs0 w0 r00 rest0 fs d modTime pos cl now w r0 rest f frs hist due fs1 w1 r1 frs1 d' fs' pos' cl' res :
  in_step fs0 w0 r00 rest0 d f frs hist -> Z.of_nat (length hist) < 2 ^ 64 - 3 ->
  replicated hist (d_l0 d) cl -> pos_ok (length hist) cl pos ->
  wal_at LockPgno fs w r0 frs rest -> f_db fs = f_db fs0 -> w0 `prefix_of` w ->
  quiet e0 -> commit_inside rest -> grows_written LockPgno fs (wr_pageSize r0) frs rest ->
  (forall d' o n s, verifyAndSync LockPgno enc_N e0 fs d = (d', Ok (o, n, s)) ->
     checkpoint_decision dbcfg (if s then set_syncedSinceCheckpoint true d' else d') o n modTime (e_now (e 0%nat)) = Ok due) ->
  checkpointed e locked others fs w r0 (frs ++ committed rest) due fs1 w1 r1 frs1 ->
  SyncAndWait age_Encrypt age_flushed raw cfg LockPgno enc_N e0 e eu locked others dbcfg fs d modTime pos cl now = (d', fs', pos', cl', res) ->
  exists f' rest' hist', hist `prefix_of` hist' /\ fs' = fs1 /\
    in_step fs1 w1 r1 rest' d' f' frs1 hist' /\
    replicated hist' (d_l0 d') cl' /\ pos_ok (length hist') cl' pos' /\
    (forall p, p <> LockPgno (wr_pageSize r1) -> restored hist' p = logical_page fs1 w1 (wr_pageSize r1) frs1 p) /\
    (res = Ok () -> forall i g, hist' !! i = Some g -> exists x, stored cl' 0 (Z.of_nat i + 1) (Z.of_nat i + 1) = Some x /\ sealed_as (EncodeLTX g) x).
Proof.
  intros (Hst & Hfl & Hf) Hlen Hrep Hpok Hat Hdb Hpre Hq Hci Hgrow Hdue Hck HS.
  assert (in_step fs w r0 rest d f frs hist) as Hin by (split; [by eapply synced_grows|done]).
  destruct (DB_Sync_step e0 e locked others dbcfg fs d modTime w r0 rest f frs hist due fs1 w1 r1 frs1) as (d1 & f' & rest' & new & HD & Hin1 & Hrep1); try done.
  pose proof Hin1 as (Hst1 & _ & Hf1).
  unfold SyncAndWait in HS. rewrite HD in HS. destruct (replica_sync _ _ _ _ _ _ _ _ _) as [r' res1] eqn:HR.
  injection HS as <- <- <- <- <-.
  assert (0 < Z.of_nat (length (hist ++ new)) < 2 ^ 64 - 1) as Hn.
  { pose proof (st_txid _ _ _ _ _ _ _ _ _ Hst1). lia. }
  apply (replica_sync_durable _ _ _ _ _ (hist ++ new)) in HR as (Hrep' & Hok & Hpok');
    [|by apply Hrep1|unfold DB_Pos; by rewrite (st_pos _ _ _ _ _ _ _ _ _ Hst1), Hf1|done|].
  - exists f', rest', (hist ++ new). split; [by exists new|]. split; [done|]. split; [done|]. split; [done|]. split; [done|].
    split; [apply (st_state _ _ _ _ _ _ _ _ _ Hst1)|].
    intros HR i g Hg. assert (res1 = Ok ()) as -> by (by destruct res1 as [[]|?|?]).
    pose proof (lookup_lt_Some _ _ _ Hg). destruct (Hok eq_refl (Z.of_nat i + 1)) as [x Hx]; [lia|]. exists x. split; [done|].
    destruct (rp_stored _ _ _ Hrep' _ _ _ Hx) as (_ & j & g' & Hj & Hg' & Hs). replace j with i in Hg' by lia. by simplify_eq.
  - destruct Hpok as [->|[Hr Hu]]; [by left|right]. split; [|done]. rewrite length_app. lia.
Qed.
End EndToEnd.
End Durable.

(** ** A storage in memory *)
Module MemStorage.
Definition key (level : Z) (lo hi : TXID) : FileInfo := mkFileInfo level lo hi 0 0.
Definition lookup (k : FileInfo) (l : list Mem.object) : option (list byte) :=
  snd <$> List.find (fun o : Mem.object => same_file (fst o) k) l.

Lemma same_file_spec a b : same_file a b = true <-> Level a = Level b /\ MinTXID a = MinTXID b /\ MaxTXID a = MaxTXID b.
Proof. unfold same_file. rewrite !andb_true_iff, !Z.eqb_eq. tauto. Qed.

Lemma lookup_insert_same o k l : same_file (fst o) k = true -> lookup k (Mem.insert o l) = Some (snd o).
Proof.
  intros Hk. unfold lookup. induction l as [|p l IH]; cbn [Mem.insert List.find]; [by rewrite Hk|].
  destruct (same_file (fst p) (fst o)) eqn:Hp; cbn [List.find]; [by rewrite Hk|].
  destruct (_ <? _); cbn [List.find]; [by rewrite Hk|]. destruct (same_file (fst p) k) eqn:Hpk; [|done].
  exfalso. rewrite same_file_spec in Hk, Hpk. apply not_true_iff_false in Hp. apply Hp. rewrite same_file_spec. intuition congruence.
Qed.

Lemma lookup_insert_other o k l : same_file (fst o) k = false -> lookup k (Mem.insert o l) = lookup k l.
Proof.
  intros Hk. unfold lookup. induction l as [|p l IH]; cbn [Mem.insert List.find]; [by rewrite Hk|].
  destruct (same_file (fst p) (fst o)) eqn:Hp; cbn [List.find].
  - rewrite Hk. destruct (same_file (fst p) k) eqn:Hpk; [|done].
    exfalso. rewrite same_file_spec in Hp, Hpk. apply not_true_iff_false in Hk. apply Hk. rewrite same_file_spec. intuition congruence.
  - destruct (_ <? _); cbn [List.find]; [by rewrite Hk|]. by destruct (same_file (fst p) k).
Qed.

Lemma lookup_listed k l : is_Some (lookup k l) <-> exists f, In f l.*1 /\ same_file f k = true.
Proof.
  unfold lookup. induction l as [|p l IH]; cbn [List.find]; [split; [by intros [? ?]|by intros (? & [] & _)]|].
  destruct (same_file (fst p) k) eqn:Hp.
  - split; [|by eexists]. intros _. exists (fst p). split; [by left|done].
  - rewrite IH. split; intros (f & Hf & Hk); exists f; (split; [|done]); [by right|].
    rewrite fmap_cons in Hf. destruct Hf as [<-|?]; [congruence|done].
Qed.

Lemma write_lookup c level lo hi rd c' r :
  WriteLTXFile (C := Mem.client) c level lo hi rd = (c', r) ->
  (c' = c /\ is_ok r = false) \/ (rd_err rd = None /\ exists o, fst o = mkFileInfo level lo hi (Z.of_nat (length (rd_data rd))) 0 /\ snd o = rd_data rd /\
    Mem.objects c' = Mem.insert o (Mem.objects c)).
Proof.
  cbn [WriteLTXFile Mem.client_ops]. destruct (rd_err rd) as [e|] eqn:He; [intros [= <- <-]; by left|].
  unfold Mem.put. destruct (bool_dec _ true) as [Hwf|]; intros [= <- <-]; [right|by left].
  split; [done|]. by exists (mkFileInfo level lo hi (Z.of_nat (length (rd_data rd))) 0, rd_data rd).
Qed.

#[export] Instance laws : StorageLaws Mem.client.
Proof.
  refine {| stored c level lo hi := lookup (key level lo hi) (Mem.objects c) |}.
  - intros c um level lo hi. rewrite lookup_listed. change (level_files c um level) with (Mem.files c um level). unfold Mem.files. split.
    + intros (f & Hf & (Hl & Hlo & Hhi)%same_file_spec). exists f. split; [|done]. apply In_filter_bool. split; [by apply Z.eqb_eq|done].
    + intros (f & [Hl Hf]%In_filter_bool & Hlo & Hhi). exists f. split; [done|]. apply same_file_spec. by apply Z.eqb_eq in Hl.
  - intros c level lo hi rd c' info HW. apply write_lookup in HW as [[_ ?]|(He & o & Ho & Hd & ->)]; [done|]. split; [done|].
    rewrite lookup_insert_same; [by rewrite Hd|]. by rewrite Ho, same_file_spec.
  - intros c level lo hi rd c' r HW. apply write_lookup in HW as [[-> _]|(He & o & Ho & Hd & ->)]; [by left|right]. split; [done|].
    rewrite lookup_insert_same; [by rewrite Hd|]. by rewrite Ho, same_file_spec.
  - intros c level lo hi rd c' r level' lo' hi' HW Hne. apply write_lookup in HW as [[-> _]|(He & o & Ho & Hd & ->)]; [done|].
    apply lookup_insert_other. rewrite Ho. apply not_true_iff_false. rewrite same_file_spec. simpl. intros (-> & -> & ->). done.
Defined.
End MemStorage.
#[export] Existing Instance MemStorage.laws.

Module PipelineDemo.
#[local] Existing Instance DemoFormat.format.
#[local] Existing Instance Demo.sqlite.
Definition empty : Mem.client := Mem.mkClient [] eq_refl.
(** A sync with a truncating checkpoint, while another connection commits. *)
Definition dbcfg : DBConfig := mkDBConfig 1000 1 0.
Definition run : DB * files * Pos * Mem.client * result () :=
  SyncAndWait demo_encrypt demo_flush (fun _ => []) demo_plain_cfg Demo.lock_pgno Demo.enc_N Demo.calm (fun _ => Demo.calm) Demo.calm true (Demo.others 1)
    dbcfg Demo.fs0 Demo.d0 (Ok 0) zeroPos empty 5.

Lemma restored_f0 p : p <> Demo.lock_pgno 8 -> restored [Demo.f0] p = logical_page Demo.fs0 (Demo.wal_of Demo.pages0) 8 Demo.frs0 p.
Proof.
  intros _. unfold restored. cbn [fold_left]. unfold apply_ltx, logical_page.
  replace (logical_size Demo.fs0 8 Demo.frs0) with 3 by (vm_compute; reflexivity).
  replace (lf_Commit Demo.f0) with 3 by (vm_compute; reflexivity).
  destruct (Z.leb_spec 1 p); [|done]. destruct (Z.leb_spec p 3); [|done]. cbn [andb].
  destruct (Demo.between_1_3 p ltac:(lia)) as [->|[->| ->]]; vm_compute; reflexivity.
Qed.

Lemma synced : synced_to Demo.lock_pgno Demo.fs0 (Demo.wal_of Demo.pages0) (Demo.reader (Demo.wal_of Demo.pages0)) [] Demo.d0 Demo.f0 Demo.frs0 (restored [Demo.f0]).
Proof.
  destruct Demo.demo_synced as [[Hat Hps Htx Hpos Hfile Hend Hsalt Htail _] _]. split; try assumption.
  replace (wr_pageSize (Demo.reader (Demo.wal_of Demo.pages0))) with 8 by (vm_compute; reflexivity). exact restored_f0.
Qed.

Lemma nothing_stored : replicated demo_encrypt demo_plain_cfg [Demo.f0] (d_l0 Demo.d0) empty.
Proof.
  split.
  - intros i f x [-> <-]%list_lookup_singleton_Some Hx. vm_compute in Hx. injection Hx as <-. vm_compute. reflexivity.
  - intros lo hi x Hx. vm_compute in Hx. discriminate.
  - intros t t' _ [x Hx]. vm_compute in Hx. discriminate.
Qed.
End PipelineDemo.

#[local] Existing Instance DemoFormat.format.
#[local] Existing Instance Demo.sqlite.

Lemma sync_and_wait_durable_witness :
  exists hist d' fs' pos' cl', PipelineDemo.run = (d', fs', pos', cl', Ok ()) /\
    stored cl' 0 1 1 = Some (DemoFormat.encode Demo.f0) /\ restored hist 1 = Some (repeat x04 8).
Proof.
  destruct PipelineDemo.run as [[[[d' fs'] pos'] cl'] res] eqn:E.
  assert (res = Ok ()) as Hres by (apply (f_equal snd) in E; vm_compute in E; symmetry; exact E). rewrite Hres in *.
  destruct (sync_and_wait_durable demo_encrypt demo_flush (fun _ => []) demo_plain_cfg Demo.lock_pgno Demo.enc_N Demo.calm (fun _ => Demo.calm) Demo.calm
    true (Demo.others 1) PipelineDemo.dbcfg Demo.fs0 (Demo.wal_of Demo.pages0) (Demo.reader (Demo.wal_of Demo.pages0)) [] Demo.fs0
    Demo.d0 (Ok 0) zeroPos PipelineDemo.empty 5 (Demo.wal_of Demo.pages0) (Demo.reader (Demo.wal_of Demo.pages0)) []
    Demo.f0 Demo.frs0 [Demo.f0] (Some CheckpointModeTruncate) Demo.fs4 Demo.w4 (Demo.reader Demo.w4) (committed (Demo.frames_in Demo.w4))
    d' fs' pos' cl' (Ok ())) as (f' & rest' & hist' & [new Hh] & _ & _ & _ & _ & HR & Hok).
  - split; [exact PipelineDemo.synced|]. split; [apply Demo.demo_synced|vm_compute; reflexivity].
  - vm_compute. reflexivity.
  - exact PipelineDemo.nothing_stored.
  - left. reflexivity.
  - exact (st_at _ _ _ _ _ _ _ _ _ PipelineDemo.synced).
  - reflexivity.
  - reflexivity.
  - apply Demo.calm_quiet.
  - done.
  - by apply nothing_grows.
  - intros d1 o n s HV. vm_compute in HV. injection HV as <- <- <- <-. vm_compute. reflexivity.
  - exact (checkpoint_truncated Demo.lock_pgno (fun _ => Demo.calm) true (Demo.others 1) Demo.fs0 (Demo.wal_of Demo.pages0) (Demo.reader (Demo.wal_of Demo.pages0))
      (Demo.frs0 ++ committed []) CheckpointModeTruncate (Demo.fs_of Demo.pages1) (Demo.wal_of Demo.pages1) (Demo.reader (Demo.wal_of Demo.pages1))
      (drop 3 (Demo.frames_in (Demo.wal_of Demo.pages1))) Demo.fs4 Demo.w4 (Demo.reader Demo.w4) (Demo.frames_in Demo.w4)
      eq_refl (fun _ => Demo.calm_quiet) Demo.demo_truncation).
  - exact E.
  - exists hist', d', fs', pos', cl'. split; [reflexivity|]. split.
    + destruct (Hok eq_refl 0%nat Demo.f0) as (x & Hx & Hs); [by rewrite Hh|]. change (Z.of_nat 0 + 1) with 1 in Hx. rewrite Hx.
      vm_compute in Hs. rewrite Hs. vm_compute. reflexivity.
    + rewrite HR; [vm_compute; reflexivity|]. vm_compute. discriminate.
Defined.
