(* ===== verification/Init.v ===== *)
(** * Opening a database

    Model of [init], [checkDatabaseBehindReplica], [EnsureExists] and the checks of
    [Open] in src/db.go: what is open after a failure, and where a database that was
    restored to an earlier state resumes. *)

From Stdlib Require Import ZArith Lia Strings.Byte.
From stdpp Require Import base numbers list strings gmap sorting.
From S2P Require Import Prelude WalReader Ltx Streams RestorePlan Compactor Replica Db PageIndex.
Local Open Scope Z_scope.

(** The calls of [init] that can fail. *)
Inductive init_op := IStatDir | IOpen | IPersistWAL | IOpenFile | IJournalMode | ICreateSchema | IBeginTx | IReadLock | IPageSize | IMkdir | IStatWAL | IInsertSeq.

(** What the system answers: the failing calls, whether the database file exists, the
    journal mode, the page size and whether the WAL has a header. *)
Record answers := mkAnswers {
  a_fault : init_op -> option error; a_stat : result bool; a_mode : string; a_pageSize : Z; a_walHeader : bool
}.

(** The connection, the file descriptor, the read transaction, the replica's monitor
    and the rest of the database. *)
Record handle := mkHandle { n_db : bool; n_f : bool; n_rtx : bool; n_started : bool; n_d : DB }.

Definition set_pageSize (ps : Z) (d : DB) : DB :=
  mkDB ps (d_l0 d) (d_pos d) (d_max0 d) (d_syncedSinceCheckpoint d) (d_syncedToWALEnd d) (d_lastSyncedWALOffset d).
Definition set_l0 (l0 : l0dir) (d : DB) : DB :=
  mkDB (d_pageSize d) l0 (d_pos d) (d_max0 d) (d_syncedSinceCheckpoint d) (d_syncedToWALEnd d) (d_lastSyncedWALOffset d).

Definition call (a : answers) (op : init_op) : result () := match a_fault a op with Some e => Err e | None => Ok () end.

(** [acquireReadLock]: the transaction is kept once its query has succeeded. *)
Definition acquireReadLock (a : answers) (h : handle) : handle * result () :=
  if n_rtx h then (h, Ok ()) else
  match (_ ← call a ICreateSchema; _ ← call a IBeginTx; call a IReadLock) with
  | Ok () => (mkHandle (n_db h) (n_f h) true (n_started h) (n_d h), Ok ())
  | r => (h, r)
  end.

(** [ensureWALExists]: a WAL whose [Stat] fails or that has no header gets a frame. *)
Definition ensureWALExists (a : answers) : result () :=
  if match a_fault a IStatWAL with None => a_walHeader a | Some _ => false end then Ok () else call a IInsertSeq.

Section Init.
Context {C : Type} `{ReplicaClient C} {identity recipient : Type}.
Variable age_Decrypt : list identity -> Reader -> result Reader.
Variable cfg : ReplicaConfig identity recipient.
(** The LTX decoder on the bytes of a whole file. *)
Variable decode : list byte -> result ltxFile.

(** The removal of the level-0 directory: an error returns with what is left of it. *)
Definition remove_l0 (e : env) (d : DB) : DB * result () :=
  let '(l0, err) := RemoveAll e (d_l0 d) in
  match err with
  | Some err => (set_l0 l0 d, if os_IsNotExist err then Ok () else Err (EWrap "remove L0 directory" err))
  | None => (set_l0 l0 d, Ok ())
  end.

(** The latest remote file into a temporary file and to its place. *)
Definition fetch_l0 (e : env) (cl : C) (minTXID maxTXID : TXID) (d : DB) : DB * result () :=
  match (_ ← io e MkdirTemp wrapping "recreate L0 directory";
         reader ← r_OpenLTXFile age_Decrypt cfg cl 0 minTXID maxTXID 0 0 wrapping "open remote L0 file";
         _ ← io e OpenTemp wrapping "create temp L0 file";
         b ← ReadAll reader wrapping "copy L0 file";
         _ ← io e SyncTemp wrapping "sync L0 file";
         _ ← io e CloseTemp wrapping "close L0 file";
         _ ← io e RenameTemp wrapping "rename L0 file";
         Ok b) with
  | Ok b => (invalidatePosCache (set_l0 (<[(minTXID, maxTXID) := decode b]> (d_l0 d)) d), Ok ())
  | Err err => (d, Err err)
  | Panic m => (d, Panic m)
  end.

Definition checkDatabaseBehindReplica (e : env) (cl : C) (d : DB) : DB * result () :=
  match DB_Pos e d with
  | (d, Err err) => (d, Err (EWrap "get database position" err))
  | (d, Panic m) => (d, Panic m)
  | (d, Ok dbPos) =>
      match r_MaxLTXFileInfo cl 0 with
      | Err err => (d, Err (EWrap "get replica position" err))
      | Panic m => (d, Panic m)
      | Ok replicaInfo =>
          if MaxTXID replicaInfo =? 0 then (d, Ok ())
          else if MaxTXID replicaInfo <=? TXID_ dbPos then (d, Ok ())
          else
            match remove_l0 e d with
            | (d, Err err) => (d, Err err)
            | (d, Panic m) => (d, Panic m)
            | (d, Ok ()) => fetch_l0 e cl (MinTXID replicaInfo) (MaxTXID replicaInfo) (invalidatePosCache d)
            end
      end
  end.

(** [init] after the deferred clean-up has been installed. *)
Definition init_opened (a : answers) (e : env) (cl : C) (h : handle) : handle * result () :=
  match (_ ← call a IJournalMode; if bool_decide (a_mode a = "wal") then Ok () else Err (EMsg "enable wal failed")) with
  | Err err => (h, Err err)
  | Panic m => (h, Panic m)
  | Ok () =>
      match acquireReadLock a h with
      | (h, Err err) => (h, Err (EWrap "acquire read lock" err))
      | (h, Panic m) => (h, Panic m)
      | (h, Ok ()) =>
          match call a IPageSize wrapping "read page size" with
          | Err err => (h, Err err)
          | Panic m => (h, Panic m)
          | Ok () =>
              let h := mkHandle (n_db h) (n_f h) (n_rtx h) (n_started h) (set_pageSize (a_pageSize a) (n_d h)) in
              if a_pageSize a <=? 0 then (h, Err (EMsg "invalid db page size")) else
              match (_ ← call a IMkdir; ensureWALExists a wrapping "ensure wal exists") with
              | Err err => (h, Err err)
              | Panic m => (h, Panic m)
              | Ok () =>
                  match checkDatabaseBehindReplica e cl (n_d h) with
                  | (d, r) =>
                      let h := mkHandle (n_db h) (n_f h) (n_rtx h) (n_started h) d in
                      match r wrapping "check database behind replica" with
                      | Err err => (h, Err err)
                      | Panic m => (h, Panic m)
                      | Ok () =>
                          match Start cfg wrapping "start replica" with
                          | Ok started => (mkHandle (n_db h) (n_f h) (n_rtx h) started (n_d h), Ok ())
                          | Err err => (h, Err err)
                          | Panic m => (h, Panic m)
                          end
                      end
                  end
              end
          end
      end
  end.

(** The deferred clean-up. *)
Definition close_handle (h : handle) : handle := mkHandle false false false (n_started h) (n_d h).

Definition init (a : answers) (e : env) (cl : C) (h : handle) : handle * result () :=
  if n_db h then (h, Ok ())
  else if RequireEncryption cfg && negb (EncryptionEnabled cfg) then (h, Err ErrEncryptionRequired)
  else
    match a_stat a with
    | Err err => (h, Err err)
    | Panic m => (h, Panic m)
    | Ok false => (h, Ok ())
    | Ok true =>
        match (_ ← call a IStatDir; call a IOpen) with
        | Err err => (h, Err err)
        | Panic m => (h, Panic m)
        | Ok () =>
            let h := mkHandle true (n_f h) (n_rtx h) (n_started h) (n_d h) in
            match call a IPersistWAL wrapping "set PERSIST_WAL" with
            | Err err => (h, Err err)
            | Panic m => (h, Panic m)
            | Ok () =>
                match call a IOpenFile wrapping "open db file descriptor" with
                | Err err => (h, Err err)
                | Panic m => (h, Panic m)
                | Ok () =>
                    match init_opened a e cl (mkHandle true true (n_rtx h) (n_started h) (n_d h)) with
                    | (h, Ok ()) => (h, Ok ())
                    | (h, r) => (close_handle h, r)
                    end
                end
            end
        end
    end.

(** ** What is open afterwards *)

Definition closed (h : handle) : Prop := n_db h = false /\ n_f h = false /\ n_rtx h = false.

(** Everything the other operations rely on. *)
Definition ready (h : handle) : Prop :=
  n_db h = true /\ n_f h = true /\ n_rtx h = true /\ 0 < d_pageSize (n_d h) /\ Start cfg = Ok (n_started h).

Lemma remove_l0_pageSize e d : d_pageSize (remove_l0 e d).1 = d_pageSize d.
Proof. unfold remove_l0. by destruct (RemoveAll e (d_l0 d)) as [l0 [err|]]. Qed.

Lemma fetch_l0_pageSize e cl lo hi d : d_pageSize (fetch_l0 e cl lo hi d).1 = d_pageSize d.
Proof. unfold fetch_l0. by destruct (_ ≫= _). Qed.

Lemma DB_Pos_pageSize e d : d_pageSize (DB_Pos e d).1 = d_pageSize d.
Proof.
  unfold DB_Pos. destruct (d_pos d); [done|]. destruct (MaxLTX e d) as [[lo hi]|err|m]; [|done..]. case_if; [done|].
  by destruct (open_l0 _ _ _ _) as [[f|err|m]|err|m].
Qed.

Lemma behind_pageSize e cl d : d_pageSize (checkDatabaseBehindReplica e cl d).1 = d_pageSize d.
Proof.
  unfold checkDatabaseBehindReplica. pose proof (DB_Pos_pageSize e d) as HP. destruct (DB_Pos e d) as [d1 [p|err|m]]; cbn [fst] in HP; [|done..].
  destruct (r_MaxLTXFileInfo cl 0) as [i|err|m]; [|done..]. do 2 (case_if; [done|]).
  pose proof (remove_l0_pageSize e d1) as HR. destruct (remove_l0 e d1) as [d2 [[]|err|m]]; cbn [fst] in *; [|congruence..].
  rewrite fetch_l0_pageSize. cbn [invalidatePosCache set_pos d_pageSize]. congruence.
Qed.

Lemma init_opened_ready a e cl h h' :
  init_opened a e cl h = (h', Ok ()) -> n_db h = true -> n_f h = true -> ready h'.
Proof.
  intros HI Hdb Hf. unfold init_opened in HI. destruct (_ ≫= _) as [[]|err|m]; [|done..].
  destruct (acquireReadLock a h) as [h1 [[]|err|m]] eqn:HA; [|done..].
  assert (n_db h1 = true /\ n_f h1 = true /\ n_rtx h1 = true) as (H1 & H2 & H3).
  { unfold acquireReadLock in HA. destruct (n_rtx h) eqn:Hr; [by simplify_eq|]. destruct (_ ≫= _) as [[]|err|m]; by simplify_eq/=. }
  destruct (call a IPageSize wrapping _) as [[]|err|m]; [|done..]. cbn [n_d] in HI. destruct (Z.leb_spec (a_pageSize a) 0) as [|Hps]; [done|].
  destruct (_ ≫= _) as [[]|err|m] in HI; [|done..].
  pose proof (behind_pageSize e cl (set_pageSize (a_pageSize a) (n_d h1))) as HB.
  destruct (checkDatabaseBehindReplica _ _ _) as [d [[]|err|m]]; cbn [wrap_err] in HI; [|done..]. cbn [fst set_pageSize d_pageSize] in HB.
  destruct (Start cfg) as [st|err|m] eqn:HS; cbn [wrap_err] in HI; [|done..]. injection HI as <-. unfold ready. cbn. rewrite HB, HS. done.
Qed.

(** Initialisation is all or nothing.  From a closed database, unless setting PERSIST_WAL or opening
    the file descriptor fails, [init] either succeeds with the connection, the
    descriptor, the read transaction and the page size in place and the replica
    started as configured, or finds no database file and changes nothing, or fails
    and leaves everything closed, so that the next sync tries again. *)
Theorem init_all_or_nothing a e cl h h' r :
  closed h -> a_fault a IPersistWAL = None -> a_fault a IOpenFile = None -> init a e cl h = (h', r) -> is_panic r = false ->
  match r with
  | Ok () => ready h' \/ a_stat a = Ok false /\ h' = h
  | _ => closed h'
  end.
Proof.
  intros (Hdb & Hf & Hr) HP HO HI Hpan. unfold init in HI. rewrite Hdb in HI. destruct (RequireEncryption cfg && _); [by injection HI as <- <-|].
  destruct (a_stat a) as [[|]|err|m] eqn:Hs; [| |by injection HI as <- <-..].
  2: { injection HI as <- <-. by right. }
  destruct (_ ≫= _) as [[]|err|m]; [|by injection HI as <- <-..].
  assert (call a IPersistWAL = Ok () /\ call a IOpenFile = Ok ()) as [Hc1 Hc2] by (unfold call; by rewrite HP, HO).
  rewrite Hc1, Hc2 in HI. cbn [wrap_err] in HI.
  destruct (init_opened _ _ _ _) as [h1 r1] eqn:HIO. destruct r1 as [[]|err|m]; injection HI as <- <-; [left|done..].
  by eapply init_opened_ready.
Qed.

(** ** A database behind its replica *)

Lemma DB_Pos_cached e d d' p : DB_Pos e d = (d', Ok p) -> TXID_ p <> 0 -> d_pos d' = Some p.
Proof.
  unfold DB_Pos. destruct (d_pos d) as [q|] eqn:Hq; [intros; by simplify_eq|]. destruct (MaxLTX e d) as [[lo hi]|err|m]; [|done..].
  destruct (lo =? 0); [by intros [= <- <-]|]. destruct (open_l0 _ _ _ _) as [[f|err|m]|err|m]; intros; by simplify_eq/=.
Qed.

(** What a fetch that succeeds has written. *)
Lemma fetch_l0_ok e cl lo hi d d' :
  fetch_l0 e cl lo hi d = (d', Ok ()) -> exists rd b, r_OpenLTXFile age_Decrypt cfg cl 0 lo hi 0 0 = Ok rd /\ ReadAll rd = Ok b /\
    d' = invalidatePosCache (set_l0 (<[(lo, hi) := decode b]> (d_l0 d)) d).
Proof.
  unfold fetch_l0. destruct (io e MkdirTemp) as [[]|err|m]; [|done..]. cbn [wrap_err mbind result_bind].
  destruct (r_OpenLTXFile _ _ _ _ _ _ _ _) as [rd|err|m]; [|done..]. cbn [wrap_err mbind result_bind].
  destruct (io e OpenTemp) as [[]|err|m]; [|done..]. cbn [wrap_err mbind result_bind].
  destruct (ReadAll rd) as [b|err|m] eqn:HR; [|done..]. cbn [wrap_err mbind result_bind].
  destruct (io e SyncTemp) as [[]|?|?], (io e CloseTemp) as [[]|?|?], (io e RenameTemp) as [[]|?|?]; try done.
  intros [= <-]. by exists rd, b.
Qed.

(** A fetch that does not succeed changes nothing. *)
Lemma fetch_l0_failed e cl lo hi d d' r : fetch_l0 e cl lo hi d = (d', r) -> r <> Ok () -> d' = d.
Proof. unfold fetch_l0. destruct (mbind _ _) as [b|err|m]; intros [= <- <-]; done. Qed.

(** The newest file of the remote level 0 that a listing without an error reports. *)
Lemma remote_newest `{!ReplicaClientLaws C} cl info :
  r_MaxLTXFileInfo cl 0 = Ok info -> forall f, In f (level_files cl false 0) -> 0 <= MinTXID f -> MaxTXID f <= MaxTXID info.
Proof.
  unfold r_MaxLTXFileInfo. destruct (LTXFiles cl 0 0 false) as [itr|e|m] eqn:HL; cbn [mbind result_bind]; [|done..].
  destruct (itr_Close itr) as [e|] eqn:HC; cbn [mbind result_bind]; [done|]. intros [= <-] f Hf Hlo.
  rewrite (LTXFiles_close _ _ _ _ _ HL) in HC. rewrite (LTXFiles_complete _ _ _ _ _ HL HC).
  apply max_info_spec. apply In_filter_bool. split; [by apply Z.leb_le|done].
Qed.

(** C39: level-0 transaction numbers are not reused.  Suppose the level-0 directory can be removed, and the newest file of the remote level 0,
    if it is read without an error, decodes to a file with its last transaction.  Then
    after [checkDatabaseBehindReplica] succeeds the database's position is at or after
    the end of every file of the remote level 0: if it was behind, the local files have been
    replaced by the newest one, and the next file the database writes gets a later
    transaction number than any level-0 file in the storage.  (Snapshots and compacted files are not looked at.) *)
Theorem behind_replica_resumes `{!ReplicaClientLaws C} e e' cl d d' info :
  checkDatabaseBehindReplica e cl d = (d', Ok ()) -> r_MaxLTXFileInfo cl 0 = Ok info -> 0 < MaxTXID info -> 0 < MinTXID info ->
  (forall rd b, r_OpenLTXFile age_Decrypt cfg cl 0 (MinTXID info) (MaxTXID info) 0 0 = Ok rd -> ReadAll rd = Ok b ->
     exists f, decode b = Ok f /\ lf_MaxTXID f = MaxTXID info) ->
  e_fault e RemoveL0 = None -> quiet e' ->
  exists d2 p, DB_Pos e' d' = (d2, Ok p) /\ MaxTXID info <= TXID_ p /\
    (forall f, In f (level_files cl false 0) -> 0 <= MinTXID f -> MaxTXID f <= TXID_ p).
Proof.
  intros HC HM Hmax Hmin Hdec Hrm Hq. pose proof (remote_newest cl info HM) as Hnew.
  assert (exists d2 p, DB_Pos e' d' = (d2, Ok p) /\ MaxTXID info <= TXID_ p) as (d2 & p & HP & Hle);
    [|exists d2, p; split; [done|]; split; [done|]; intros f Hf Hlo; specialize (Hnew f Hf Hlo); lia].
  unfold checkDatabaseBehindReplica in HC. destruct (DB_Pos e d) as [d1 [pos|err|m]] eqn:HP; [|done..].
  rewrite HM in HC. destruct (Z.eqb_spec (MaxTXID info) 0); [lia|]. destruct (Z.leb_spec (MaxTXID info) (TXID_ pos)) as [Hle|Hlt].
  - injection HC as <-. exists d1, pos. split; [|done]. unfold DB_Pos. by rewrite (DB_Pos_cached _ _ _ _ HP) by lia.
  - unfold remove_l0, RemoveAll in HC. rewrite Hrm in HC. apply fetch_l0_ok in HC as (rd & b & HO & HR & ->).
    destruct (Hdec rd b HO HR) as (f & Hf & Hfm). cbn [d_l0 set_l0 invalidatePosCache set_pos]. rewrite Hf.
    unfold DB_Pos, MaxLTX. cbn [d_pos invalidatePosCache set_pos d_l0 set_l0]. destruct Hq as [Hq _]. rewrite Hq.
    unfold ReadDir. rewrite insert_empty, map_to_list_singleton. cbn [merge_sort].
    change (merge_sort entry_le [(MinTXID info, MaxTXID info, Ok f)]) with [(MinTXID info, MaxTXID info, Ok f)].
    unfold max_entry. cbn [fold_left fst snd]. destruct (Z.ltb_spec 0 (MaxTXID info)); [|lia]. destruct (Z.eqb_spec (MinTXID info) 0); [lia|].
    unfold open_l0, io. rewrite Hq. cbn [mbind result_bind d_l0 invalidatePosCache set_pos set_l0]. rewrite lookup_singleton_eq. eexists _, _. split; [reflexivity|]. simpl. lia.
Qed.

(** ** The position cache *)
Section Cache.
Variable LockPgno : Z -> Z.
Variable enc_N : ltxFile -> Z.

(** The newest file of the remote level 0 has one transaction, and that in its header if it decodes. *)
Definition remote_ok (cl : C) : Prop :=
  forall info, r_MaxLTXFileInfo cl 0 = Ok info -> MaxTXID info <> 0 ->
    MinTXID info = MaxTXID info /\ 0 < MaxTXID info < 2 ^ 64 - 1 /\
    forall rd b f, r_OpenLTXFile age_Decrypt cfg cl 0 (MinTXID info) (MaxTXID info) 0 0 = Ok rd -> ReadAll rd = Ok b ->
      decode b = Ok f -> lf_MaxTXID f = MaxTXID info.

Lemma behind_coherent e cl d : env_ok e (d_l0 d) -> removes e -> remote_ok cl -> coherent d -> coherent (checkDatabaseBehindReplica e cl d).1.
Proof.
  intros He Hrm Hcl Hco. unfold checkDatabaseBehindReplica. destruct (DB_Pos e d) as [d1 r1] eqn:HP.
  pose proof (coherent_pos _ _ _ _ Hco He HP) as Hco1. destruct r1 as [pos|err|m]; [|done..].
  destruct (r_MaxLTXFileInfo cl 0) as [info|err|m] eqn:HM; [|done..]. destruct (Z.eqb_spec (MaxTXID info) 0) as [|Hne]; [done|].
  destruct (_ <=? _); [done|]. unfold remove_l0. pose proof (RemoveAll_sub e (d_l0 d1)) as Hsub.
  destruct (RemoveAll e (d_l0 d1)) as [l0 err] eqn:ER. cbn [fst] in Hsub.
  assert (match err with Some err => (set_l0 l0 d1, if os_IsNotExist err then Ok () else Err (EWrap "remove L0 directory" err)) | None => (set_l0 l0 d1, Ok ()) end
    = (set_l0 l0 d1, Ok ())) as ->.
  { destruct err as [err|]; [|done]. unfold RemoveAll in ER. destruct (e_fault e RemoveL0) eqn:Ef; [|done]. injection ER as _ ->. by rewrite (Hrm _ Ef). }
  assert (coherent (invalidatePosCache (set_l0 l0 d1))) as Hco2 by (by apply (coherent_sub d1)).
  destruct (fetch_l0 _ _ _ _ _) as [d2 r2] eqn:HF. cbn [fst]. destruct r2 as [[]|err2|m2]; [|by rewrite (fetch_l0_failed _ _ _ _ _ _ _ HF)..].
  apply fetch_l0_ok in HF as (rd & b & HO & HR & ->). destruct (Hcl info HM Hne) as (Heq & Hrange & Hdec).
  split; [|done]. intros k r. cbn [d_l0 invalidatePosCache set_pos set_l0]. intros [[<- <-]|[_ Hk]]%lookup_insert_Some; [|by apply Hco2].
  split; [done|]. split; [done|]. intros f Hf. by eapply Hdec.
Qed.

(** The operations of a database on its level-0 directory, opening it included. *)
Inductive local_step : DB -> DB -> Prop :=
| local_op d d' : db_step LockPgno enc_N d d' -> local_step d d'
| local_behind e cl d : env_ok e (d_l0 d) -> removes e -> remote_ok cl -> local_step d (checkDatabaseBehindReplica e cl d).1.

(** C19: the position cache.  From a database that was just opened, whatever sequence of
    syncs, resets, file deletions, position queries and comparisons with the replica runs, and whichever of their
    file system operations fail, but for a removal of the directory that stops half-way while a position is cached
    ([failed_reset_stale] shows what that leaves), a cached position is the one that [Pos] computes
    from the directory when the cache is empty. *)
Theorem pos_cache_coherent d0 d p e :
  dir_ok (d_l0 d0) -> d_pos d0 = None -> rtc local_step d0 d -> d_pos d = Some p -> (forall op, e_fault e op = None) ->
  DB_Pos e (invalidatePosCache d) = (d, Ok p).
Proof.
  intros Hok Hn Hs Hp He. assert (coherent d) as [Hok' Hc'].
  { assert (coherent d0) as Hco by (split; [done|intros q Hq; congruence]).
    clear Hok Hn Hp. induction Hs as [|x y z Hxy _ IH]; [done|]. apply IH. destruct Hxy; [by eapply db_step_coherent|by apply behind_coherent]. }
  by apply cache_recomputed.
Qed.
End Cache.

(** ** Before opening *)

(** [EnsureExists]: [stat] is whether the file exists, [restore] the outcome of the restore. *)
Definition EnsureExists (hasReplica hasClient : bool) (stat mkdir restore : result ()) : result bool :=
  if negb hasReplica then Err (EMsg "no replica configured")
  else if negb hasClient then Err (EMsg "no replica client configured") else
  match stat with
  | Ok () => Ok false
  | Panic m => Panic m
  | Err err =>
      if negb (os_IsNotExist err) then Err (EWrap "stat database" err) else
      _ ← mkdir wrapping "create parent directory";
      match restore with
      | Ok () => Ok true
      | Panic m => Panic m
      | Err err =>
          if errors_Is err ErrTxNotAvailable || errors_Is err ErrNoSnapshots then Ok false
          else Err (EWrap "restore from backup" err)
      end
  end.
End Init.

(** ** A small database *)
Module InitDemo.
#[local] Existing Instance DemoFormat.format.
Definition fine : answers := mkAnswers (fun _ => None) (Ok true) "wal" 8 true.
Definition closed0 : handle := mkHandle false false false false (mkDB 0 ∅ None None false false 0).
(** The remote level 0 ends with transaction 3; the decoder of these files. *)
Definition remote : Mem.client := Mem.mkClient [DemoFormat.object 0 3 2 [(1, repeat x0a 8)]] eq_refl.
Definition decode (b : list byte) : result ltxFile := Ok (DemoFormat.ltx 3 2 [(1, repeat x0a 8)]).
Definition init_demo (a : answers) (h : handle) : handle * result () :=
  init demo_open_age demo_plain_cfg decode a Demo.calm remote h.

(** A failure to set PERSIST_WAL comes before the clean-up is installed: the
    connection stays, and the next [init] takes the database for initialised, without
    a read transaction, page size or running replica. *)
Definition persist_fails : answers := mkAnswers (fun op => match op with IPersistWAL => Some (EMsg "busy") | _ => None end) (Ok true) "wal" 8 true.
Theorem init_half_open :
  let '(h, r) := init_demo persist_fails closed0 in
  is_ok r = false /\ init_demo fine h = (h, Ok ()) /\ n_db h = true /\ n_rtx h = false /\ n_started h = false /\ d_pageSize (n_d h) = 0.
Proof. vm_compute. repeat split. Qed.
End InitDemo.

Lemma init_all_or_nothing_witness :
  exists h', InitDemo.init_demo InitDemo.fine InitDemo.closed0 = (h', Ok ()) /\ ready demo_plain_cfg h'.
Proof.
  destruct (InitDemo.init_demo InitDemo.fine InitDemo.closed0) as [h' r] eqn:E.
  assert (r = Ok ()) as Hr by (apply (f_equal snd) in E; vm_compute in E; symmetry; exact E). rewrite Hr in *.
  exists h'. split; [reflexivity|].
  destruct (init_all_or_nothing demo_open_age demo_plain_cfg InitDemo.decode InitDemo.fine Demo.calm InitDemo.remote InitDemo.closed0 h' (Ok ())) as [Hrd|[Hs _]].
  - repeat split.
  - reflexivity.
  - reflexivity.
  - exact E.
  - reflexivity.
  - exact Hrd.
  - discriminate.
Defined.

Lemma behind_replica_resumes_witness :
  exists d2 p, DB_Pos Demo.calm (checkDatabaseBehindReplica demo_open_age demo_plain_cfg InitDemo.decode Demo.calm InitDemo.remote Demo.empty_db).1 = (d2, Ok p) /\ 3 <= TXID_ p /\
    (forall f, In f (level_files InitDemo.remote false 0) -> 0 <= MinTXID f -> MaxTXID f <= TXID_ p).
Proof.
  apply (behind_replica_resumes demo_open_age demo_plain_cfg InitDemo.decode Demo.calm Demo.calm InitDemo.remote Demo.empty_db _ (mkFileInfo 0 3 3 32 3)).
  - vm_compute. reflexivity.
  - vm_compute. reflexivity.
  - reflexivity.
  - reflexivity.
  - intros rd b _ _. eexists. split; reflexivity.
  - reflexivity.
  - apply Demo.calm_quiet.
Defined.

(** The database of [Db.Demo] is found behind its replica. *)
Definition behind_db : DB := (checkDatabaseBehindReplica demo_open_age demo_plain_cfg InitDemo.decode Demo.calm InitDemo.remote Demo.d0).1.
Definition behind_pos : DB := (DB_Pos Demo.calm behind_db).1.

Lemma pos_cache_coherent_witness : d_l0 Demo.d0 !! (1, 1) = Some (Ok Demo.f0) /\ DB_Pos Demo.calm (invalidatePosCache behind_pos) = (behind_pos, Ok (mkPos 3 0)).
Proof.
  split; [vm_compute; reflexivity|].
  apply (pos_cache_coherent demo_open_age demo_plain_cfg InitDemo.decode Demo.lock_pgno Demo.enc_N Demo.empty_db behind_pos (mkPos 3 0) Demo.calm).
  - apply demo_empty_ok.
  - reflexivity.
  - eapply rtc_l; [apply local_op, demo_d0_step|]. eapply rtc_l; [|apply rtc_once, local_op, step_pos, demo_env_ok].
    apply local_behind; [apply demo_env_ok|done|]. intros info HM _. vm_compute in HM. injection HM as <-. split; [reflexivity|]. split; [split; reflexivity|].
    intros rd b f _ _ Hf. unfold InitDemo.decode in Hf. injection Hf as <-. reflexivity.
  - vm_compute. reflexivity.
  - reflexivity.
Defined.
