(* ===== verification/Store.v ===== *)
(** * The store of databases

    Model of src/store.go and src/heartbeat.go.  The registry of a [Store] is a slice of
    pointers behind a mutex; its operations release the mutex between their critical
    sections, so an operation is a sequence of steps and the theorems are about every
    interleaving of them.  The slice is modelled with its array: [slices.Delete]
    shifts the array in place, which a slice taken earlier sees. *)

From Stdlib Require Import ZArith Lia Strings.Byte.
From stdpp Require Import base numbers list strings gmap sorting relations.
From S2P Require Import Prelude Ltx Levels.
Local Open Scope Z_scope.

Definition ErrDatabaseNotFound : error := EVar "database not found".
Definition ErrDatabaseNotOpen : error := EVar "database not open".

(** ** Databases and settings *)

(** The settings a store hands to its databases; [Done] is a channel. *)
Record settings := mkSettings {
  s_L0Retention : duration; s_ShutdownSyncTimeout : duration; s_ShutdownSyncInterval : duration;
  s_VerifyCompaction : bool; s_RetentionEnabled : bool; s_done : option nat
}.

(** A [*DB] as the store sees it; [o_cVerify] and [o_cRetention] are the flags of its
    compactor. *)
Record object := mkObject {
  o_path : string; o_opened : bool; o_settings : settings;
  o_cVerify : bool; o_cRetention : bool; o_lastSync : time
}.

Definition set_opened (b : bool) (o : object) : object :=
  mkObject (o_path o) b (o_settings o) (o_cVerify o) (o_cRetention o) (o_lastSync o).
Definition set_settings (s : settings) (o : object) : object :=
  mkObject (o_path o) (o_opened o) s (o_cVerify o) (o_cRetention o) (o_lastSync o).
Definition set_compactor (v r : bool) (o : object) : object :=
  mkObject (o_path o) (o_opened o) (o_settings o) v r (o_lastSync o).

(** ** The registry *)

Abbreviation ptr := nat (only parsing).

(** [s.dbs]: an array and a length; the capacity is that of the array. *)
Record Store := mkStore {
  st_arrays : gmap nat (list (option ptr)); st_arr : nat; st_len : nat;
  st_objects : gmap ptr object; st_settings : settings
}.

Definition array (s : Store) (a : nat) : list (option ptr) := default [] (st_arrays s !! a).
Definition dbs (s : Store) : list (option ptr) := take (st_len s) (array s (st_arr s)).

Definition set_objects (m : gmap ptr object) (s : Store) : Store :=
  mkStore (st_arrays s) (st_arr s) (st_len s) m (st_settings s).
Definition update (p : ptr) (f : object -> object) (s : Store) : Store := set_objects (alter f p (st_objects s)) s.

Section Store.
(** The capacity [append] allocates for a length. *)
Variable grow : nat -> nat.

(** [append(s.dbs, db)]: in place when the array has room, otherwise into a new one. *)
Definition slice_append (p : ptr) (s : Store) : Store :=
  let a := array s (st_arr s) in
  if (st_len s <? length a)%nat
  then mkStore (<[st_arr s := <[st_len s := Some p]> a]> (st_arrays s)) (st_arr s) (S (st_len s)) (st_objects s) (st_settings s)
  else let id := fresh (dom (st_arrays s)) in
       mkStore (<[id := take (st_len s) a ++ [Some p] ++ replicate (grow (S (st_len s)) - S (st_len s)) None]> (st_arrays s))
         id (S (st_len s)) (st_objects s) (st_settings s).

(** [slices.Delete(s.dbs, i, i+1)]: the tail moves down and the freed element is
    cleared. *)
Definition slice_delete (i : nat) (s : Store) : Store :=
  let a := array s (st_arr s) in
  mkStore (<[st_arr s := take i a ++ take (st_len s - S i) (drop (S i) a) ++ [None] ++ drop (st_len s) a]> (st_arrays s))
    (st_arr s) (st_len s - 1) (st_objects s) (st_settings s).

Definition path_of (s : Store) (p : ptr) : option string := o_path <$> st_objects s !! p.

(** The loops over [s.dbs]; [existing.Path()] of a nil pointer panics. *)
Fixpoint find_path (s : Store) (path : string) (l : list (option ptr)) (i : nat) : result (option (nat * ptr)) :=
  match l with
  | [] => Ok None
  | None :: _ => Panic "nil pointer dereference"
  | Some p :: l => if bool_decide (path_of s p = Some path) then Ok (Some (i, p)) else find_path s path l (S i)
  end.

Definition FindDB (s : Store) (path : string) : result (option ptr) :=
  match find_path s path (dbs s) 0 with
  | Ok r => Ok (snd <$> r)
  | Err e => Err e
  | Panic m => Panic m
  end.

Definition is_open (s : Store) (p : ptr) : bool := default false (o_opened <$> st_objects s !! p).

(** ** Settings that change *)
Inductive setting :=
| SetL0Retention (d : duration) | SetDone (done : option nat) | SetShutdownSyncTimeout (d : duration)
| SetShutdownSyncInterval (d : duration) | SetVerifyCompaction (v : bool) | SetRetentionEnabled (v : bool).

Definition apply_setting (x : setting) (c : settings) : settings :=
  let '(mkSettings l t i v r d) := c in
  match x with
  | SetL0Retention l => mkSettings l t i v r d
  | SetDone d => mkSettings l t i v r d
  | SetShutdownSyncTimeout t => mkSettings l t i v r d
  | SetShutdownSyncInterval i => mkSettings l t i v r d
  | SetVerifyCompaction v => mkSettings l t i v r d
  | SetRetentionEnabled r => mkSettings l t i v r d
  end.

(** The two flags of the compactor are set with those of the database. *)
Definition set_on_db (x : setting) (o : object) : object :=
  let o := set_settings (apply_setting x (o_settings o)) o in
  match x with
  | SetVerifyCompaction v => set_compactor v (o_cRetention o) o
  | SetRetentionEnabled v => set_compactor (o_cVerify o) v o
  | _ => o
  end.

(** The loop of a [Set] operation over the registered databases. *)
Fixpoint set_loop (x : setting) (l : list (option ptr)) (s : Store) : result Store :=
  match l with
  | [] => Ok s
  | None :: _ => Panic "nil pointer dereference"
  | Some p :: l => set_loop x l (update p (set_on_db x) s)
  end.

Definition set_setting (x : setting) (s : Store) : result Store :=
  set_loop x (dbs s) (mkStore (st_arrays s) (st_arr s) (st_len s) (st_objects s) (apply_setting x (st_settings s))).

(** ** Operations as steps *)

(** The calls and where they are between their critical sections. *)
Inductive pc :=
| RegStart (p : ptr) | RegApply (p : ptr) | RegOpen (p : ptr) | RegInsert (p : ptr) | RegClose (p : ptr)
| UnregStart (path : string) | UnregClose (p : ptr)
| EnableStart (path : string) | EnableCheck (p : ptr) | EnableOpen (p : ptr)
| DisableStart (path : string) | DisableCheck (p : ptr) | DisableClose (p : ptr)
| Setting (x : setting)
| ValidateStart | ValidateNext (a : nat) (n i : nat)
| Fin (r : result ()).

(** What the calls to databases return: [Open], [Close], the context, and the
    validation of a replica. *)
Record outcome := mkOutcome { oc_open : option error; oc_close : option error; oc_ctx : option error; oc_validate : option error }.

(** [DB.Open] and [DB.Close] as far as the store sees them.  A database that is open
    already stays as it is. *)
Definition open_db (p : ptr) (s : Store) : Store :=
  update p (fun o => if o_opened o then o else
    set_compactor (s_VerifyCompaction (o_settings o)) (s_RetentionEnabled (o_settings o)) (set_opened true o)) s.
Definition close_db (p : ptr) (s : Store) : Store := update p (set_opened false) s.

Definition nil_err (text : string) (e : option error) : result () :=
  match e with Some e => Err (EWrap text e) | None => Ok () end.

(** One step of a call: the store afterwards and where the call is. *)
Definition step (oc : outcome) (c : pc) (s : Store) : Store * pc :=
  match c with
  | RegStart p =>
      match find_path s (default "" (path_of s p)) (dbs s) 0 with
      | Ok (Some _) => (s, Fin (Ok ()))
      | Ok None => (s, RegApply p)
      | Err e => (s, Fin (Err e))
      | Panic m => (s, Fin (Panic m))
      end
  | RegApply p => (update p (set_settings (st_settings s)) s, RegOpen p)
  | RegOpen p =>
      match oc_open oc with
      | Some e => (s, Fin (Err (EWrap "open db" e)))
      | None => (open_db p s, RegInsert p)
      end
  | RegInsert p =>
      match find_path s (default "" (path_of s p)) (dbs s) 0 with
      | Ok (Some _) => (s, RegClose p)
      | Ok None => (slice_append p s, Fin (Ok ()))
      | Err e => (s, Fin (Err e))
      | Panic m => (s, Fin (Panic m))
      end
  | RegClose p => (close_db p s, Fin (Ok ()))
  | UnregStart path =>
      if bool_decide (path = "") then (s, Fin (Err (EMsg "db path required"))) else
      match find_path s path (dbs s) 0 with
      | Ok (Some (idx, p)) => (slice_delete idx s, UnregClose p)
      | Ok None => (s, Fin (Ok ()))
      | Err e => (s, Fin (Err e))
      | Panic m => (s, Fin (Panic m))
      end
  | UnregClose p => (close_db p s, Fin (nil_err "close db" (oc_close oc)))
  | EnableStart path =>
      match FindDB s path with
      | Ok (Some p) => (s, EnableCheck p)
      | Ok None => (s, Fin (Err (EMsg "database not found")))
      | Err e => (s, Fin (Err e))
      | Panic m => (s, Fin (Panic m))
      end
  | EnableCheck p =>
      if is_open s p then (s, Fin (Err (EMsg "database already enabled"))) else
      match oc_ctx oc with Some e => (s, Fin (Err (EWrap "enable database" e))) | None => (s, EnableOpen p) end
  | EnableOpen p =>
      match oc_open oc with
      | Some e => (s, Fin (Err (EWrap "open database" e)))
      | None => (open_db p s, Fin (Ok ()))
      end
  | DisableStart path =>
      match FindDB s path with
      | Ok (Some p) => (s, DisableCheck p)
      | Ok None => (s, Fin (Err (EMsg "database not found")))
      | Err e => (s, Fin (Err e))
      | Panic m => (s, Fin (Panic m))
      end
  | DisableCheck p => if is_open s p then (s, DisableClose p) else (s, Fin (Err (EMsg "database already disabled")))
  | DisableClose p => (close_db p s, Fin (nil_err "close database" (oc_close oc)))
  | Setting x => match set_setting x s with Ok s => (s, Fin (Ok ())) | Err e => (s, Fin (Err e)) | Panic m => (s, Fin (Panic m)) end
  | ValidateStart => (s, ValidateNext (st_arr s) (st_len s) 0)
  | ValidateNext a n i =>
      if (n <=? i)%nat then (s, Fin (Ok ())) else
      match array s a !! i with
      | Some (Some _) =>
          match oc_validate oc with
          | Some e => (s, Fin (Err (EWrap "validate level" e)))
          | None => (s, ValidateNext a n (S i))
          end
      | _ => (s, Fin (Panic "nil pointer dereference"))
      end
  | Fin r => (s, Fin r)
  end.

(** ** Interleavings *)

(** A store with its running calls. *)
Record system := mkSystem { sy_store : Store; sy_calls : gmap nat pc }.

(** The calls a program can make. *)
Definition is_call (c : pc) : bool :=
  match c with RegStart _ | UnregStart _ | EnableStart _ | DisableStart _ | Setting _ | ValidateStart => true | _ => false end.

Inductive sys_step : system -> system -> Prop :=
| sys_call i c y :
    sy_calls y !! i = None -> is_call c = true ->
    (forall p, c = RegStart p -> is_Some (st_objects (sy_store y) !! p)) ->
    sys_step y (mkSystem (sy_store y) (<[i := c]> (sy_calls y)))
| sys_new p o y :
    st_objects (sy_store y) !! p = None ->
    sys_step y (mkSystem (set_objects (<[p := o]> (st_objects (sy_store y))) (sy_store y)) (sy_calls y))
| sys_run i c oc y :
    sy_calls y !! i = Some c ->
    sys_step y (mkSystem (step oc c (sy_store y)).1 (<[i := (step oc c (sy_store y)).2]> (sy_calls y)))
| sys_sync p t y :
    sys_step y (mkSystem (update p (fun o => mkObject (o_path o) (o_opened o) (o_settings o) (o_cVerify o) (o_cRetention o) t) (sy_store y)) (sy_calls y)).

(** ** The invariant of the registry *)

(** The slice holds pointers to databases with distinct paths. *)
Definition registry (s : Store) (ps : list ptr) : Prop :=
  dbs s = Some <$> ps /\ NoDup (path_of s <$> ps) /\ (forall p, In p ps -> is_Some (st_objects s !! p)) /\
  (st_len s <= length (array s (st_arr s)))%nat.

Definition pc_ptr (c : pc) : option ptr :=
  match c with RegStart p | RegApply p | RegOpen p | RegInsert p => Some p | _ => None end.

Definition sys_inv (y : system) : Prop :=
  (exists ps, registry (sy_store y) ps) /\
  (forall i c p, sy_calls y !! i = Some c -> pc_ptr c = Some p -> is_Some (st_objects (sy_store y) !! p)).

Lemma find_path_spec s path ps i :
  match find_path s path (Some <$> ps) i with
  | Ok (Some (j, p)) => (i <= j)%nat /\ ps !! (j - i)%nat = Some p /\ path_of s p = Some path
  | Ok None => forall p, In p ps -> path_of s p <> Some path
  | _ => False
  end.
Proof.
  revert i. induction ps as [|p ps IH]; intros i; cbn [fmap list_fmap find_path]; [by intros ? []|].
  case_bool_decide as Hp.
  - split; [lia|]. by rewrite Nat.sub_diag.
  - specialize (IH (S i)). destruct (find_path s path (Some <$> ps) (S i)) as [[[j q]|]|e|m]; [| |done..].
    + destruct IH as (Hle & Hq & Hpath). split; [lia|]. split; [|done]. by replace (j - i)%nat with (S (j - S i)) by lia.
    + intros q [<-|Hq]; [done|by apply IH].
Qed.

Lemma dbs_length s ps : dbs s = Some <$> ps -> (st_len s <= length (array s (st_arr s)))%nat -> st_len s = length ps.
Proof. intros Hd Hle. apply (f_equal length) in Hd. unfold dbs in Hd. rewrite length_take, length_fmap in Hd. lia. Qed.

Lemma array_insert m id a n o c : array (mkStore (<[id := a]> m) id n o c) id = a.
Proof. unfold array. cbn [st_arrays]. by rewrite lookup_insert_eq. Qed.

Lemma dbs_append p s : (st_len s <= length (array s (st_arr s)))%nat ->
  dbs (slice_append p s) = dbs s ++ [Some p] /\ (st_len (slice_append p s) <= length (array (slice_append p s) (st_arr (slice_append p s))))%nat.
Proof.
  intros Hle. unfold slice_append. destruct (Nat.ltb_spec (st_len s) (length (array s (st_arr s)))) as [Hlt|Hge]; unfold dbs; cbn [st_len st_arr];
    rewrite array_insert.
  - rewrite length_insert. split; [|lia]. erewrite take_S_r by (by apply list_lookup_insert_eq). f_equal. by rewrite take_insert_ge.
  - set (a := array s (st_arr s)) in *. assert (length (take (st_len s) a) = st_len s) as Hl by (rewrite length_take; lia).
    split; [|rewrite !length_app, Hl; simpl; lia]. rewrite app_assoc, take_app_le by (rewrite length_app; simpl; lia).
    by rewrite take_ge by (rewrite length_app; simpl; lia).
Qed.

Lemma dbs_delete i s : (st_len s <= length (array s (st_arr s)))%nat -> (i < st_len s)%nat ->
  dbs (slice_delete i s) = base.delete i (dbs s) /\ (st_len (slice_delete i s) <= length (array (slice_delete i s) (st_arr (slice_delete i s))))%nat.
Proof.
  intros Hle Hi. unfold slice_delete, dbs. cbn [st_len st_arr]. rewrite array_insert.
  set (a := array s (st_arr s)) in *.
  assert (length (take i a) = i) as H1 by (rewrite length_take; lia).
  assert (length (take (st_len s - S i) (drop (S i) a)) = (st_len s - S i)%nat) as H2 by (rewrite length_take, length_drop; lia).
  split; [|rewrite !length_app, H1, H2; simpl; lia].
  rewrite delete_take_drop, take_take, Nat.min_l by lia. rewrite app_assoc, take_app_le by (rewrite length_app, H1, H2; lia).
  rewrite take_ge by (rewrite length_app, H1, H2; lia). f_equal. by rewrite take_drop_commute; replace (S i + (st_len s - S i))%nat with (st_len s) by lia.
Qed.

(** Databases keep their paths. *)
Lemma path_update p f s q : (forall o, o_path (f o) = o_path o) -> path_of (update p f s) q = path_of s q.
Proof.
  intros Hf. unfold path_of, update. cbn [st_objects set_objects]. destruct (decide (q = p)) as [->|Hne].
  - rewrite lookup_alter_eq. destruct (st_objects s !! p); [simpl; by rewrite Hf|done].
  - by rewrite lookup_alter_ne.
Qed.

Lemma object_update p f s q : is_Some (st_objects (update p f s) !! q) <-> is_Some (st_objects s !! q).
Proof.
  unfold update. cbn [st_objects set_objects]. destruct (decide (q = p)) as [->|Hne].
  - rewrite lookup_alter_eq. by rewrite fmap_is_Some.
  - by rewrite lookup_alter_ne.
Qed.

Lemma registry_update p f s ps : (forall o, o_path (f o) = o_path o) -> registry s ps -> registry (update p f s) ps.
Proof.
  intros Hf (Hd & Hnd & Hob & Hl). split; [done|]. split; [|split; [|done]].
  - erewrite list_fmap_ext; [done|]. intros i q _. by apply path_update.
  - intros q Hq. apply object_update. by apply Hob.
Qed.

Lemma registry_settings s ps c :
  registry s ps -> registry (mkStore (st_arrays s) (st_arr s) (st_len s) (st_objects s) c) ps.
Proof. done. Qed.

Lemma set_on_db_path x o : o_path (set_on_db x o) = o_path o.
Proof. by destruct x. Qed.

Lemma set_loop_registry x l s ps : registry s ps ->
  exists s', set_loop x (Some <$> l) s = Ok s' /\ registry s' ps /\ forall q, is_Some (st_objects s' !! q) <-> is_Some (st_objects s !! q).
Proof.
  revert s. induction l as [|p l IH]; intros s Hr; cbn [fmap list_fmap set_loop]; [by exists s|].
  destruct (IH (update p (set_on_db x) s)) as (s' & HS & Hr' & Hob); [apply registry_update; [apply set_on_db_path|done]|].
  exists s'. split; [done|]. split; [done|]. intros q. by rewrite Hob, object_update.
Qed.

Lemma open_db_path o : o_path (if o_opened o then o else
    set_compactor (s_VerifyCompaction (o_settings o)) (s_RetentionEnabled (o_settings o)) (set_opened true o)) = o_path o.
Proof. by destruct (o_opened o). Qed.

Lemma registry_append p s ps :
  registry s ps -> is_Some (st_objects s !! p) -> (forall q, In q ps -> path_of s q <> path_of s p) -> registry (slice_append p s) (ps ++ [p]).
Proof.
  intros (Hd & Hnd & Hob & Hl) Hp Hnew. destruct (dbs_append p s Hl) as [Ha Hla].
  assert (st_objects (slice_append p s) = st_objects s) as Hso by (unfold slice_append; by case_if).
  split; [by rewrite Ha, Hd, fmap_app|]. split; [|split; [|done]].
  - assert (path_of (slice_append p s) = path_of s) as -> by (unfold path_of; by rewrite Hso).
    rewrite fmap_app. apply NoDup_app. split; [done|]. split; [|apply NoDup_singleton].
    intros x Hx Hin%list_elem_of_singleton. subst x. apply list_elem_of_fmap in Hx as (q & Hq & Hin). apply list_elem_of_In, Hnew in Hin. by apply Hin.
  - rewrite Hso. intros q [Hq|[<-|[]]]%in_app_or; [by apply Hob|done].
Qed.

Lemma registry_delete j s ps : registry s ps -> (j < st_len s)%nat -> registry (slice_delete j s) (base.delete j ps).
Proof.
  intros (Hd & Hnd & Hob & Hl) Hj. destruct (dbs_delete j s Hl Hj) as [Ha Hla].
  split; [rewrite Ha, Hd; by rewrite list_fmap_delete|]. split; [|split; [|done]].
  - change (path_of (slice_delete j s)) with (path_of s). rewrite list_fmap_delete. eapply sublist_NoDup; [done|apply sublist_delete].
  - intros x Hx. apply Hob. apply list_elem_of_In. apply list_elem_of_In in Hx. eapply elem_of_sublist; [exact Hx|apply sublist_delete].
Qed.

Lemma find_dbs s ps path : registry s ps ->
  (exists j p, find_path s path (dbs s) 0 = Ok (Some (j, p)) /\ (j < st_len s)%nat /\ ps !! j = Some p /\ path_of s p = Some path) \/
  find_path s path (dbs s) 0 = Ok None /\ forall p, In p ps -> path_of s p <> Some path.
Proof.
  intros (Hd & _ & _ & Hl). rewrite Hd. pose proof (find_path_spec s path ps 0) as HF.
  destruct (find_path _ _ _ _) as [[[j p]|]|e|m]; [left|by right|done..].
  destruct HF as (_ & Hj & Hp). rewrite Nat.sub_0_r in Hj. exists j, p. split; [done|]. split; [|done].
  rewrite (dbs_length s ps Hd Hl). by eapply lookup_lt_Some.
Qed.

(** Every step keeps the registry, and panics only in [Validate]. *)
Lemma step_registry oc c s ps :
  registry s ps -> (forall p, pc_ptr c = Some p -> is_Some (st_objects s !! p)) ->
  (exists ps', registry (step oc c s).1 ps') /\
  (forall q, is_Some (st_objects s !! q) -> is_Some (st_objects (step oc c s).1 !! q)) /\
  (forall p, pc_ptr (step oc c s).2 = Some p -> pc_ptr c = Some p) /\
  (forall m, (step oc c s).2 = Fin (Panic m) -> c = Fin (Panic m) \/ exists a n i, c = ValidateNext a n i).
Proof.
  intros Hr Hc.
  assert (forall p f, (forall o, o_path (f o) = o_path o) -> (exists ps', registry (update p f s) ps') /\
    (forall q, is_Some (st_objects s !! q) -> is_Some (st_objects (update p f s) !! q))) as Hupd.
  { intros p f Hf. split; [exists ps; by apply registry_update|]. intros q. by rewrite object_update. }
  destruct c; cbn [step]; unfold FindDB, close_db, open_db.
  - destruct (find_dbs s ps (default "" (path_of s p)) Hr) as [(j & q & -> & _)|[-> _]]; split_and!; eauto; done.
  - destruct (Hupd p (set_settings (st_settings s)) ltac:(done)). split_and!; eauto; done.
  - destruct (Hupd p _ open_db_path). destruct (oc_open oc); split_and!; eauto; done.
  - destruct (Hc p eq_refl) as [o Ho].
    destruct (find_dbs s ps (default "" (path_of s p)) Hr) as [(j & q & -> & _)|[-> Hnew]]; [split_and!; eauto; done|].
    split_and!; [|by (unfold slice_append; case_if)|done|done]. exists (ps ++ [p]). apply registry_append; [done|by exists o|].
    intros q Hq%Hnew. unfold path_of at 2. rewrite Ho. unfold path_of in Hq. by rewrite Ho in Hq.
  - destruct (Hupd p (set_opened false) ltac:(done)). split_and!; eauto; done.
  - case_bool_decide; [split_and!; eauto; done|].
    destruct (find_dbs s ps path Hr) as [(j & q & -> & Hj & _)|[-> _]]; [|split_and!; eauto; done].
    split_and!; [exists (base.delete j ps); by apply registry_delete|done..].
  - destruct (Hupd p (set_opened false) ltac:(done)). split_and!; eauto; by destruct (oc_close oc).
  - destruct (find_dbs s ps path Hr) as [(j & q & -> & _)|[-> _]]; split_and!; eauto; done.
  - destruct (is_open s p), (oc_ctx oc); split_and!; eauto; done.
  - destruct (Hupd p _ open_db_path). destruct (oc_open oc); split_and!; eauto; done.
  - destruct (find_dbs s ps path Hr) as [(j & q & -> & _)|[-> _]]; split_and!; eauto; done.
  - destruct (is_open s p); split_and!; eauto; done.
  - destruct (Hupd p (set_opened false) ltac:(done)). split_and!; eauto; by destruct (oc_close oc).
  - unfold set_setting. pose proof Hr as (Hd & _). rewrite Hd.
    destruct (set_loop_registry x ps _ ps (registry_settings s ps (apply_setting x (st_settings s)) Hr)) as (s' & -> & Hr' & Hob).
    split_and!; [eauto|intros q; by rewrite Hob|done|done].
  - split_and!; eauto; done.
  - destruct (n <=? i)%nat; [split_and!; eauto; done|]. destruct (array s a !! i) as [[q|]|]; [destruct (oc_validate oc)|..]; split_and!; eauto; done.
  - split_and!; eauto.
Qed.

Lemma sys_step_inv y y' : sys_step y y' -> sys_inv y -> sys_inv y'.
Proof.
  intros Hs [[ps Hr] Hc]. destruct Hs as [i c y Hi Hcall Hp|p o y Hp|i c oc y Hi|p t y].
  - split; [by exists ps|]. intros j c' p Hj Hcp. cbn [sy_calls sy_store] in *. apply lookup_insert_Some in Hj as [[<- <-]|[_ Hj]]; [|by eapply Hc].
    destruct c; try done. injection Hcp as ->. by apply Hp.
  - assert (forall q, is_Some (st_objects (sy_store y) !! q) -> is_Some (<[p := o]> (st_objects (sy_store y)) !! q)) as Hmono.
    { intros q [o' Hq]. rewrite lookup_insert_is_Some. right. split; [congruence|by exists o']. }
    split; [|intros j c q Hj Hcp; apply Hmono; by eapply Hc]. exists ps. destruct Hr as (Hd & Hnd & Hob & Hl). split; [done|]. split; [|split; [|done]].
    + cbn [sy_store]. erewrite list_fmap_ext; [exact Hnd|]. intros j q Hq. unfold path_of. cbn [st_objects set_objects].
      rewrite lookup_insert_ne; [done|]. intros ->. apply list_elem_of_lookup_2, list_elem_of_In, Hob in Hq as [? ?]. congruence.
    + intros q Hq. apply Hmono. by apply Hob.
  - destruct (step_registry oc c (sy_store y) ps Hr) as (Hr' & Hmono & Hpc & _); [intros p; by apply (Hc i)|]. split; [done|].
    intros j c' p Hj Hcp. cbn [sy_calls sy_store] in *. apply Hmono. apply lookup_insert_Some in Hj as [[<- <-]|[_ Hj]]; [|by eapply Hc].
    eapply (Hc i c); [done|]. by apply Hpc.
  - split; [exists ps; by apply registry_update|]. intros j c q Hj Hcp. cbn [sy_store]. rewrite object_update. by eapply Hc.
Qed.

(** C22: paths are registered once.  Start with a registry of distinct paths and let any number of
    goroutines register, unregister, enable and disable databases, change settings and
    validate, in any interleaving of their critical sections, while databases are
    created and synced: the registered databases always have distinct paths, no entry
    of the slice is nil, and [FindDB] of a registered database's path finds it.  No
    step of these calls panics, except possibly one of a running [Validate]. *)
Theorem registry_unique y y' :
  rtc sys_step y y' -> (exists ps, registry (sy_store y) ps) -> sy_calls y = ∅ ->
  (exists ps, dbs (sy_store y') = Some <$> ps /\ NoDup (path_of (sy_store y') <$> ps) /\
     forall p path, In p ps -> path_of (sy_store y') p = Some path -> FindDB (sy_store y') path = Ok (Some p)) /\
  (forall i c oc m, sy_calls y' !! i = Some c -> (step oc c (sy_store y')).2 = Fin (Panic m) ->
     c = Fin (Panic m) \/ exists a n k, c = ValidateNext a n k).
Proof.
  intros Hs Hr Hc. assert (sys_inv y') as [[ps Hps] Hpc].
  { clear -Hs Hr Hc. assert (sys_inv y) as Hi by (split; [done|]; intros i c p Hi; by rewrite Hc in Hi).
    clear Hr Hc. induction Hs as [|y y1 y2 H1 _ IH]; [done|]. apply IH. by eapply sys_step_inv. }
  split.
  - exists ps. pose proof Hps as (Hd & Hnd & _). split; [done|]. split; [done|]. intros p path Hp Hpath. unfold FindDB.
    destruct (find_dbs _ ps path Hps) as [(j & q & -> & _ & Hq & Hqp)|[_ Hno]]; [|by destruct (Hno p Hp)].
    simpl. do 2 f_equal. apply list_elem_of_In, list_elem_of_lookup in Hp as [k Hk].
    assert (k = j) as ->; [|congruence]. apply (NoDup_lookup _ k j (Some path) Hnd); rewrite list_lookup_fmap; [rewrite Hk|rewrite Hq]; simpl; by f_equal.
  - intros i c oc m Hi HP. destruct (step_registry oc c (sy_store y') ps Hps) as (_ & _ & _ & Hpan); [intros p; by apply (Hpc i)|]. by apply Hpan.
Qed.
End Store.

(** ** Interleavings that go wrong *)
Module StoreDemo.
Definition grow : nat -> nat := fun n => (2 * n)%nat.
Definition calm : outcome := mkOutcome None None None None.
Definition cfg0 : settings := mkSettings 300 30 1 false true None.
Definition obj (path : string) (opened : bool) : object := mkObject path opened cfg0 false true 0.
(** Two databases are registered; a third object exists for the path of the first. *)
Definition store0 : Store :=
  mkStore {[0%nat := [Some 0%nat; Some 1%nat]]} 0 2 {[0%nat := obj "a" true; 1%nat := obj "b" true; 2%nat := obj "a" false; 3%nat := obj "c" false]} cfg0.
Definition sys0 : system := mkSystem store0 ∅.

(** A schedule starts calls and lets them step. *)
Inductive action := Call (i : nat) (c : pc) | Run (i : nat).
Definition act (a : action) (y : system) : system :=
  match a with
  | Call i c => mkSystem (sy_store y) (<[i := c]> (sy_calls y))
  | Run i => match sy_calls y !! i with
             | Some c => mkSystem (step grow calm c (sy_store y)).1 (<[i := (step grow calm c (sy_store y)).2]> (sy_calls y))
             | None => y
             end
  end.
Definition allowed (a : action) (y : system) : bool :=
  match a with
  | Call i c => bool_decide (sy_calls y !! i = None) && is_call c &&
                match c with RegStart p => bool_decide (is_Some (st_objects (sy_store y) !! p)) | _ => true end
  | Run i => bool_decide (is_Some (sy_calls y !! i))
  end.
Fixpoint exec (l : list action) (y : system) : option system :=
  match l with
  | [] => Some y
  | a :: l => if allowed a y then exec l (act a y) else None
  end.

Lemma exec_reachable l y y' : exec l y = Some y' -> rtc (sys_step grow) y y'.
Proof.
  revert y. induction l as [|a l IH]; intros y HE; cbn [exec] in HE; [injection HE as <-; constructor|].
  destruct (allowed a y) eqn:Ha; [|done]. eapply rtc_l; [|by apply IH]. destruct a as [i c|i]; cbn [allowed act] in *.
  - breflect. apply sys_call; [done|done|]. intros p ->. by breflect.
  - breflect. destruct Ha as [c Hc]. rewrite Hc. by apply (sys_run grow i c calm).
Qed.

Lemma registry0 : registry store0 [0%nat; 1%nat].
Proof.
  split; [reflexivity|]. split; [|split; [|apply Nat.le_refl]].
  - vm_compute. apply NoDup_cons; split; [|apply NoDup_singleton]. rewrite list_elem_of_singleton. discriminate.
  - intros p Hp. destruct Hp as [<-|[<-|[]]]; vm_compute; eauto.
Qed.

(** [Validate] walks over the array of [s.dbs] without the mutex: a database
    unregistered meanwhile leaves a nil entry, which it dereferences. *)
Definition validate_race : list action :=
  [Call 0 ValidateStart; Run 0; Call 1 (UnregStart "a"); Run 1; Run 0; Run 0].
Theorem validate_dereferences_nil :
  exists y, exec validate_race sys0 = Some y /\ sy_calls y !! 0%nat = Some (Fin (Panic "nil pointer dereference")).
Proof. eexists. split; vm_compute; reflexivity. Qed.

(** A setting that changes between the copy of the settings and the registration is
    lost for that database. *)
Definition settings_race : list action :=
  [Call 0 (RegStart 3); Run 0; Run 0; Call 1 (Setting (SetRetentionEnabled false)); Run 1; Run 0; Run 0].
Theorem settings_lost :
  exists y, exec settings_race sys0 = Some y /\ sy_calls y !! 0%nat = Some (Fin (Ok ())) /\ sy_calls y !! 1%nat = Some (Fin (Ok ())) /\
    dbs (sy_store y) !! 2%nat = Some (Some 3%nat) /\ s_RetentionEnabled (st_settings (sy_store y)) = false /\
    (o_cRetention <$> st_objects (sy_store y) !! 3%nat) = Some true.
Proof. eexists. split; [vm_compute; reflexivity|]. vm_compute. repeat split. Qed.

(** A database that is enabled while it is unregistered ends open and in no registry:
    nothing closes it. *)
Definition enable_race : list action :=
  [Call 0 (DisableStart "a"); Run 0; Run 0; Run 0; Call 1 (EnableStart "a"); Run 1; Run 1;
   Call 2 (UnregStart "a"); Run 2; Run 2; Run 1].
Theorem enabled_after_unregister :
  exists y, exec enable_race sys0 = Some y /\ sy_calls y !! 1%nat = Some (Fin (Ok ())) /\ sy_calls y !! 2%nat = Some (Fin (Ok ())) /\
    is_open (sy_store y) 0 = true /\ FindDB (sy_store y) "a" = Ok None.
Proof. eexists. split; [vm_compute; reflexivity|]. vm_compute. repeat split. Qed.

(** [UnregisterDB] closes the database after it has left the registry: registering the
    path again opens a second database on it before the first is closed. *)
Definition reopen_race : list action :=
  [Call 0 (UnregStart "a"); Run 0; Call 1 (RegStart 2); Run 1; Run 1; Run 1; Run 1].
Theorem two_databases_open :
  exists y, exec reopen_race sys0 = Some y /\ is_open (sy_store y) 0 = true /\ is_open (sy_store y) 2 = true /\
    path_of (sy_store y) 0 = path_of (sy_store y) 2 /\ FindDB (sy_store y) "a" = Ok (Some 2%nat).
Proof. eexists. split; [vm_compute; reflexivity|]. vm_compute. repeat split. Qed.
End StoreDemo.

Lemma registry_unique_witness :
  exists y, StoreDemo.exec StoreDemo.reopen_race StoreDemo.sys0 = Some y /\ exists ps, dbs (sy_store y) = Some <$> ps /\ NoDup (path_of (sy_store y) <$> ps).
Proof.
  destruct (StoreDemo.exec StoreDemo.reopen_race StoreDemo.sys0) as [y|] eqn:E; [|vm_compute in E; discriminate].
  exists y. split; [reflexivity|].
  destruct (registry_unique StoreDemo.grow StoreDemo.sys0 y) as [(ps & Hd & Hnd & _) _].
  - exact (StoreDemo.exec_reachable _ _ _ E).
  - exists [0%nat; 1%nat]. exact StoreDemo.registry0.
  - reflexivity.
  - exists ps. split; [exact Hd|exact Hnd].
Defined.
