(* ===== verification/StoreTasks.v ===== *)
(** * The background tasks of the store

    Model of the rest of src/store.go and of src/heartbeat.go: scheduled compactions and
    snapshots ([CompactDB], [monitorCompactionLevel], [DB.Compact]), forced syncs
    ([SyncDB]), validation, heartbeats, and the errors of [Close]. *)

From Stdlib Require Import ZArith Lia Strings.Byte.
From stdpp Require Import base numbers list strings gmap sorting.
From S2P Require Import Prelude WalReader Ltx Levels Streams Compactor Replica Db Retention PageIndex Snapshot Shutdown Pipeline Store.
Local Open Scope Z_scope.

(** ** Heartbeats *)

Definition MinHeartbeatInterval : duration := Minute.
Definition DefaultHeartbeatTimeout : duration := 30 * Second.

Record HeartbeatClient := mkHeartbeat { hb_URL : string; hb_Interval : duration; hb_Timeout : duration; hb_lastPingAt : time }.

Definition NewHeartbeatClient (url : string) (interval : duration) : HeartbeatClient :=
  mkHeartbeat url (if interval <? MinHeartbeatInterval then MinHeartbeatInterval else interval) DefaultHeartbeatTimeout 0.

(** [time.Since] saturates at the largest duration. *)
Definition time_Since (now t : time) : duration := Z.min (now - t) (2 ^ 63 - 1).

Definition ShouldPing (c : HeartbeatClient) (now : time) : bool := hb_Interval c <=? time_Since now (hb_lastPingAt c).
Definition RecordPing (c : HeartbeatClient) (now : time) : HeartbeatClient :=
  mkHeartbeat (hb_URL c) (hb_Interval c) (hb_Timeout c) now.

(** [http] is the status the endpoint answers with. *)
Definition Ping (c : HeartbeatClient) (http : result Z) : result () :=
  if bool_decide (hb_URL c = "") then Ok () else
  match http with
  | Err e => Err (EWrap "http request" e)
  | Panic m => Panic m
  | Ok code => if (code <? 200) || (300 <=? code) then Err (EMsg "unexpected status code") else Ok ()
  end.

Fixpoint healthy_loop (s : Store) (since : time) (l : list (option ptr)) (enabledCount : Z) : bool :=
  match l with
  | [] => 0 <? enabledCount
  | e :: l =>
      match e ≫= (fun p => st_objects s !! p) with
      | Some o =>
          if negb (o_opened o) then healthy_loop s since l enabledCount
          else if time_IsZero (o_lastSync o) || time_Before (o_lastSync o) since then false
          else healthy_loop s since l (enabledCount + 1)
      | None => false
      end
  end.

Definition allDatabasesHealthy (s : Store) (since : time) : bool :=
  if (length (dbs s) =? 0)%nat then false else healthy_loop s since (dbs s) 0.

(** A check at the times [t1] (is a ping due?), [t2] (since when must databases have
    synced?) and [t3] (the ping): the client afterwards and the result of the ping, if
    one was sent. *)
Definition sendHeartbeatIfNeeded (s : Store) (hb : option HeartbeatClient) (t1 t2 t3 : time) (http : result Z)
    : option HeartbeatClient * option (result ()) :=
  match hb with
  | None => (None, None)
  | Some c =>
      if bool_decide (hb_URL c = "") then (hb, None)
      else if negb (ShouldPing c t1) then (hb, None)
      else if negb (allDatabasesHealthy s (t2 - hb_Interval c)) then (hb, None)
      else (Some (RecordPing c t3), Some (Ping (RecordPing c t3) http))
  end.

(** The checks of [monitorHeartbeats] one after the other: the times of the pings, the
    latest last, with the store they looked at. *)
Record check := mkCheck { ck_store : Store; ck_t1 : time; ck_t2 : time; ck_t3 : time; ck_http : result Z }.

Fixpoint monitorHeartbeats (hb : option HeartbeatClient) (l : list check) : list check :=
  match l with
  | [] => []
  | k :: l =>
      match sendHeartbeatIfNeeded (ck_store k) hb (ck_t1 k) (ck_t2 k) (ck_t3 k) (ck_http k) with
      | (hb, Some _) => k :: monitorHeartbeats hb l
      | (hb, None) => monitorHeartbeats hb l
      end
  end.

(** The clock does not run backwards. *)
Fixpoint clocked (t : time) (l : list check) : Prop :=
  match l with
  | [] => True
  | k :: l => t <= ck_t1 k <= ck_t2 k /\ ck_t2 k <= ck_t3 k /\ clocked (ck_t3 k) l
  end.

Lemma healthy_loop_spec s since l n :
  healthy_loop s since l n = true ->
  (forall p o, In (Some p) l -> st_objects s !! p = Some o -> o_opened o = true -> o_lastSync o <> 0 /\ since <= o_lastSync o) /\
  (0 < n \/ exists p o, In (Some p) l /\ st_objects s !! p = Some o /\ o_opened o = true).
Proof.
  revert n. induction l as [|e l IH]; intros n; cbn [healthy_loop]; [intros Hn; breflect; split; [by intros ? ? []|by left]|].
  destruct (e ≫= _) as [o|] eqn:He; [|done]. destruct e as [p|]; [|done]. simpl in He.
  destruct (o_opened o) eqn:Ho; simpl.
  - destruct (time_IsZero (o_lastSync o)) eqn:Hz; [done|]. destruct (time_Before (o_lastSync o) since) eqn:Hb; [done|]. simpl.
    intros HL. destruct (IH _ HL) as [IH1 _]. split; [|right; exists p, o; split; [by left|done]].
    intros q o' [[= ->]|Hin] Hq Ho'; [|by eapply IH1]. rewrite He in Hq. injection Hq as <-. unfold time_IsZero, time_Before in *. breflect. lia.
  - intros HL. destruct (IH _ HL) as [IH1 [Hn|(q & o' & Hin & Hq)]].
    + split; [|by left]. intros q o' [[= ->]|Hin] Hq Ho'; [congruence|by eapply IH1].
    + split; [|right; exists q, o'; split; [by right|done]]. intros q' o1 [[= ->]|Hin'] Hq' Ho'; [congruence|by eapply IH1].
Qed.

(** What a ping says about the databases when it is sent. *)
Definition all_synced (interval : duration) (k : check) : Prop :=
  (exists p o, In (Some p) (dbs (ck_store k)) /\ st_objects (ck_store k) !! p = Some o /\ o_opened o = true) /\
  (forall p o, In (Some p) (dbs (ck_store k)) -> st_objects (ck_store k) !! p = Some o -> o_opened o = true ->
     ck_t2 k - interval <= o_lastSync o).

Lemma heartbeats_spec c l t :
  clocked t l -> hb_lastPingAt c <= t -> 0 < hb_Interval c < 2 ^ 63 ->
  Forall (all_synced (hb_Interval c)) (monitorHeartbeats (Some c) l) /\
  Forall (fun k => hb_lastPingAt c + hb_Interval c <= ck_t3 k) (monitorHeartbeats (Some c) l) /\
  StronglySorted (fun a b => ck_t3 a + hb_Interval c <= ck_t3 b) (monitorHeartbeats (Some c) l).
Proof.
  revert c t. induction l as [|k l IH]; intros c t Hcl Hlast Hi; [repeat constructor|]. cbn [monitorHeartbeats].
  destruct Hcl as ([Ht1 Ht2] & Ht3 & Hcl). unfold sendHeartbeatIfNeeded.
  assert (forall P : Prop, (Forall (all_synced (hb_Interval c)) (monitorHeartbeats (Some c) l) /\
    Forall (fun k => hb_lastPingAt c + hb_Interval c <= ck_t3 k) (monitorHeartbeats (Some c) l) /\
    StronglySorted (fun a b => ck_t3 a + hb_Interval c <= ck_t3 b) (monitorHeartbeats (Some c) l) -> P) -> P) as Hskip.
  { intros P HP. apply HP. apply (IH c (ck_t3 k)); [done|lia|done]. }
  case_bool_decide; [by apply Hskip|]. destruct (ShouldPing c (ck_t1 k)) eqn:Hsp; cbn [negb]; [|by apply Hskip].
  destruct (allDatabasesHealthy _ _) eqn:Hh; cbn [negb]; [|by apply Hskip].
  unfold ShouldPing, time_Since in Hsp. breflect.
  destruct (IH (RecordPing c (ck_t3 k)) (ck_t3 k)) as (IH1 & IH2 & IH3); [done|simpl; lia|done|]. cbn [hb_Interval hb_lastPingAt RecordPing] in *.
  assert (all_synced (hb_Interval c) k).
  { unfold allDatabasesHealthy in Hh. case_if; [done|]. apply healthy_loop_spec in Hh as [H1 [?|H2]]; [lia|]. split; [done|].
    intros p o Hp Ho Hop. by apply (H1 p o). }
  assert (hb_lastPingAt c + hb_Interval c <= ck_t3 k) by lia.
  split; [by constructor|]. split; [|by constructor]. constructor; [done|]. eapply Forall_impl; [exact IH2|]. intros a Ha. simpl in Ha. lia.
Qed.

(** Heartbeats are truthful.  Over any sequence of checks, with the databases and their syncs
    changing in between, a ping is sent only if at least one registered database is
    open and every open one has synced within the heartbeat interval; and two pings
    are at least that interval apart, which is at least one minute, even when pings
    fail. *)
Theorem heartbeat_sound url interval l t :
  clocked t l -> 0 <= t -> interval < 2 ^ 63 ->
  let c := NewHeartbeatClient url interval in
  MinHeartbeatInterval <= hb_Interval c /\
  Forall (all_synced (hb_Interval c)) (monitorHeartbeats (Some c) l) /\
  StronglySorted (fun a b => ck_t3 a + hb_Interval c <= ck_t3 b) (monitorHeartbeats (Some c) l).
Proof.
  intros Hcl Ht Hi c. assert (MinHeartbeatInterval <= hb_Interval c < 2 ^ 63) as Hm.
  { unfold c, NewHeartbeatClient, MinHeartbeatInterval, Minute, Second. simpl. destruct (Z.ltb_spec interval (60 * (1000 * 1000 * 1000))); lia. }
  destruct (heartbeats_spec c l t Hcl) as (H1 & _ & H3); [done| |split_and!; [lia|done|done]].
  unfold MinHeartbeatInterval, Minute, Second in Hm. lia.
Qed.

(** ** Closing the store *)

(** The error [Close] keeps while it closes the databases. *)
Fixpoint close_errors (results : list (option error)) (err : option error) : option error :=
  match results with
  | [] => err
  | None :: results => close_errors results err
  | Some e :: results =>
      close_errors results
        (if errors_Is e ErrShutdownInterrupted then match err with None => Some e | _ => err end
         else match err with
              | None => Some e
              | Some e' => if errors_Is e' ErrShutdownInterrupted then Some e else err
              end)
  end.

Definition Store_Close (results : list (option error)) : option error := close_errors results None.

Definition is_interrupted (e : option error) : bool :=
  match e with Some e => errors_Is e ErrShutdownInterrupted | None => false end.

(** The first error of a kind. *)
Definition first_error (P : option error -> bool) (l : list (option error)) : option error :=
  match List.find P l with Some e => e | None => None end.

Definition is_failure (e : option error) : bool := match e with Some _ => negb (is_interrupted e) | None => false end.

Lemma first_error_cons P e l : first_error P (e :: l) = if P e then e else first_error P l.
Proof. unfold first_error. cbn [List.find]. by destruct (P e). Qed.

Lemma close_errors_spec l err :
  close_errors l err = if is_failure err then err else
    match first_error is_failure l with
    | Some e => Some e
    | None => match err with Some _ => err | None => first_error is_interrupted l end
    end.
Proof.
  revert err. induction l as [|[e|] l IH]; intros err; cbn [close_errors].
  - unfold first_error, is_failure. cbn [List.find]. destruct err as [e|]; [by destruct (negb _)|done].
  - assert (forall x, is_failure (Some x) = negb (errors_Is x ErrShutdownInterrupted)) as Hf by done.
    assert (forall x, is_interrupted (Some x) = errors_Is x ErrShutdownInterrupted) as Hi by done.
    rewrite IH, !first_error_cons. destruct err as [e'|]; rewrite ?Hf, ?Hi;
      destruct (errors_Is e ErrShutdownInterrupted) eqn:He; try destruct (errors_Is e' ErrShutdownInterrupted) eqn:He';
      rewrite ?Hf, ?Hi, ?He, ?He'; by cbn.
  - by rewrite IH, !first_error_cons.
Qed.

(** The error of a close: the first one that is not an interruption, or the first
    interruption when there is no other; none only if every database closed well. *)
Theorem Store_Close_error l :
  Store_Close l = (match first_error is_failure l with Some e => Some e | None => first_error is_interrupted l end) /\
  (Store_Close l = None <-> Forall (fun e => e = None) l).
Proof.
  unfold Store_Close. rewrite close_errors_spec. cbn [is_failure]. split; [done|]. unfold first_error.
  induction l as [|[e|] l IH]; cbn [List.find]; [split; [constructor|done]| |].
  - unfold is_failure at 1, is_interrupted at 1 2. split; [|by inversion 1].
    destruct (errors_Is e ErrShutdownInterrupted); cbn [negb]; [|done].
    destruct (List.find is_failure l) as [x|] eqn:Hf; [|done]. apply find_some in Hf as [_ Hf]. by destruct x.
  - rewrite IH. split; [by constructor|]. by inversion 1.
Qed.

(** ** Scheduling compactions *)

Definition ErrDBNotReady : error := EDBNotReady "".
Definition ErrCompactionTooEarly : error := EVar "compaction too early".
Definition DefaultDBInitTimeout : duration := 30 * Second.

(** The outcome of a database that makes the monitor try again soon. *)
Definition not_ready (err : option error) : bool :=
  match err with
  | Some e => negb (errors_Is e ErrNoCompaction || errors_Is e ErrCompactionTooEarly) && errors_Is e ErrDBNotReady
  | None => false
  end.

(** The end of an iteration of [monitorCompactionLevel] that began at [now]: [now2] is
    the time at which it computed the delay, [results] are the outcomes of [CompactDB]
    for the open databases.  It returns the delay and the new retry deadline. *)
Definition monitor_delay (lvl : CompactionLevel) (retryDeadline now now2 : time) (results : list (option error)) : duration * time :=
  let nextDelay := NextCompactionAt lvl now - now2 in
  let timedOut := negb (time_IsZero retryDeadline) && time_After now retryDeadline in
  let '(nextDelay, retryDeadline) :=
    if existsb not_ready results && negb timedOut
    then (Second, if time_IsZero retryDeadline then now + DefaultDBInitTimeout else retryDeadline)
    else (nextDelay, 0) in
  ((if nextDelay <? 0 then 0 else nextDelay), retryDeadline).

(** An iteration: when it starts, when it computes the delay, and its outcomes. *)
Record iteration := mkIteration { it_start : time; it_delay_at : time; it_results : list (option error) }.

Definition waiting (k : iteration) : bool := existsb not_ready (it_results k).

Definition monitor_iteration (lvl : CompactionLevel) (retryDeadline : time) (k : iteration) : duration * time :=
  monitor_delay lvl retryDeadline (it_start k) (it_delay_at k) (it_results k).

(** The retry deadline after the iterations [l] of [monitorCompactionLevel]. *)
Definition monitorCompactionLevel (lvl : CompactionLevel) (l : list iteration) : time :=
  fold_left (fun rd k => (monitor_iteration lvl rd k).2) l 0.

(** The retries in progress: they began with [k0] and all came within the timeout. *)
Definition retrying (l : list iteration) (rd : time) : Prop :=
  rd = 0 \/ exists l1 k0 l2, l = l1 ++ k0 :: l2 /\ rd = it_start k0 + DefaultDBInitTimeout /\
    Forall (fun k => waiting k = true) (k0 :: l2) /\ Forall (fun k => it_start k <= rd) l2.

Lemma monitor_iteration_spec lvl rd k :
  let regular := Z.max 0 (NextCompactionAt lvl (it_start k) - it_delay_at k) in
  monitor_iteration lvl rd k =
    if waiting k && ((rd =? 0) || (it_start k <=? rd)) then (Second, if rd =? 0 then it_start k + DefaultDBInitTimeout else rd) else (regular, 0).
Proof.
  intros regular. unfold monitor_iteration, monitor_delay, time_IsZero, time_After. fold (waiting k).
  replace (negb (negb (rd =? 0) && (rd <? it_start k))) with ((rd =? 0) || (it_start k <=? rd)).
  2: { destruct (Z.eqb_spec rd 0), (Z.ltb_spec rd (it_start k)), (Z.leb_spec (it_start k) rd); simpl; lia || done. }
  destruct (waiting k && _); [done|]. subst regular. f_equal. destruct (Z.ltb_spec (NextCompactionAt lvl (it_start k) - it_delay_at k) 0); lia.
Qed.

Lemma monitor_retrying lvl l : Forall (fun k => 0 <= it_start k) l -> retrying l (monitorCompactionLevel lvl l).
Proof.
  induction l as [|k l IH] using rev_ind; intros HF; [by left|]. apply Forall_app in HF as [HF Hk]. apply Forall_singleton in Hk.
  specialize (IH HF). unfold monitorCompactionLevel in *. rewrite fold_left_app. cbn [fold_left]. rewrite monitor_iteration_spec.
  set (rd := fold_left _ l 0) in *. destruct (waiting k) eqn:Hw; cbn [andb]; [|by left].
  destruct (Z.eqb_spec rd 0) as [Hz|Hz]; cbn [orb].
  - right. exists l, k, []. split_and!; [done|done|by constructor|done].
  - destruct (Z.leb_spec (it_start k) rd) as [Hle|]; [|by left]. destruct IH as [?|(l1 & k0 & l2 & -> & Hrd & Hw2 & Hs)]; [done|].
    right. exists l1, k0, (l2 ++ [k]). split; [by rewrite <- app_assoc|]. split; [done|]. cbn [snd]. split.
    + rewrite app_comm_cons. apply Forall_app. split; [done|by constructor].
    + apply Forall_app. split; [done|by constructor].
Qed.

(** Databases that are not ready are waited for, for a bounded time.  After any iterations, the next
    one waits one second when a database is not initialised yet, as long as the
    retries that are in progress began at most thirty seconds before; all iterations
    since the first of them found a database that is not ready.  In every other case
    it waits until the next compaction time of the level, and the retries start over.
    The delay is never negative. *)
Theorem compaction_retry lvl l k :
  Forall (fun k => 0 <= it_start k) l -> 0 <= it_start k ->
  let rd := monitorCompactionLevel lvl l in
  let regular := Z.max 0 (NextCompactionAt lvl (it_start k) - it_delay_at k) in
  retrying l rd /\ 0 <= (monitor_iteration lvl rd k).1 /\
  (waiting k = true -> (rd = 0 \/ it_start k <= rd) -> (monitor_iteration lvl rd k).1 = Second /\ 0 < (monitor_iteration lvl rd k).2) /\
  ((waiting k = false \/ 0 < rd < it_start k) -> monitor_iteration lvl rd k = (regular, 0)).
Proof.
  intros HF Hk rd regular. pose proof (monitor_retrying lvl l HF) as Hr. fold rd in Hr. split; [done|]. rewrite monitor_iteration_spec. fold regular.
  assert (0 <= rd) as Hrd.
  { destruct Hr as [->|(l1 & k0 & l2 & -> & -> & _)]; [done|]. apply Forall_app in HF as [_ HF]. apply Forall_cons in HF as [H0 _].
    unfold DefaultDBInitTimeout, Second. lia. }
  unfold DefaultDBInitTimeout, Second. destruct (waiting k); cbn [andb].
  - destruct (Z.eqb_spec rd 0), (Z.leb_spec (it_start k) rd); cbn [orb fst snd]; split_and!; try lia; intros; try lia; try done; destruct_or?; try done; lia.
  - split; [simpl; lia|]. split; [done|done].
Qed.

(** ** Compacting one database *)
Section CompactDB.
Context {C : Type} `{ReplicaClient C} `{LTXFormat} {identity recipient : Type}.
Abbreviation compactor := (@Compactor DB identity recipient).
Abbreviation dbstate := (@state C DB).
Variable age_Decrypt : list identity -> Reader -> result Reader.
Variable age_Encrypt : list recipient -> result (list byte -> list byte * option error).
Variable age_flushed : list recipient -> list byte -> list byte.
Variable ltx_NewCompactor : list Reader -> option error.
Variable ltx_Compact : list Reader -> list byte * option error.
Variable stat_local : DB -> TXID -> TXID -> option time.
Variable LockPgno : Z -> Z.

(** [DB.Compact]: after level 1, expired files of level 0 are removed; an error of that
    is only logged. *)
Definition DB_Compact (e : env) (c : compactor) (l0Retention : duration) (st : dbstate) (dstLevel : Z) : dbstate * result FileInfo :=
  match Compact age_Decrypt age_Encrypt ltx_NewCompactor ltx_Compact c st dstLevel with
  | (st, Err err) => (st, Err err)
  | (st, Panic m) => (st, Panic m)
  | (st, Ok info) =>
      if dstLevel =? 1 then
        match EnforceL0RetentionByTime stat_local e (RetentionEnabled c) l0Retention st with
        | (st, Panic m) => (st, Panic m)
        | (st, _) => (st, Ok info)
        end
      else (st, Ok info)
  end.

(** [Store.CompactDB].  [now] is the time it reads; a snapshot reads the files [stat],
    [scan] and [at_] (Snapshot.v). *)
Definition CompactDB (e : env) (cfg : ReplicaConfig identity recipient) (c : compactor) (levels : CompactionLevels) (l0Retention : duration)
    (partial : list byte) (stat scan : files) (at_ : Z -> files) (now : time) (lvl : CompactionLevel) (st : dbstate)
    : dbstate * result FileInfo :=
  if d_pageSize (st_local st) =? 0 then (st, Err (EDBNotReady "page size not initialized")) else
  let dstLevel := lvl_Level lvl in
  let prevCompactionAt := PrevCompactionAt lvl now in
  let '(infos, dst) := DB_MaxLTXFileInfo (st_client st) (st_cache st) dstLevel in
  let st := set_cache st infos in
  match dst with
  | Err err => (st, Err (EWrap "fetch dst level info" err))
  | Panic m => (st, Panic m)
  | Ok dstInfo =>
      if time_After (CreatedAt dstInfo) prevCompactionAt then (st, Err ErrCompactionTooEarly)
      else if dstLevel =? SnapshotLevel then
        let '(cl, infos, d, r) := DB_Snapshot LockPgno age_Encrypt age_flushed cfg partial e (st_client st) (st_cache st) (st_local st) stat scan at_ in
        (mkState cl infos d (st_verifyErrors st), r)
      else
        let '(infos, src) := DB_MaxLTXFileInfo (st_client st) (st_cache st) (PrevLevel levels dstLevel) in
        let st := set_cache st infos in
        match src with
        | Err err => (st, Err (EWrap "fetch src level info" err))
        | Panic m => (st, Panic m)
        | Ok srcInfo =>
            if MaxTXID srcInfo <=? MinTXID dstInfo then (st, Err ErrNoCompaction)
            else DB_Compact e c l0Retention st dstLevel
        end
  end.

(** What a compaction leaves in the cache. *)
Lemma remove_locals_pageSize e level l d : d_pageSize (remove_locals e level l d) = d_pageSize d.
Proof.
  unfold remove_locals. revert d. induction l as [|f l IH]; intros d; [done|]. cbn [fold_left]. rewrite IH. unfold remove_local.
  destruct (e_fault e RemoveFile); [done|]. by case_if.
Qed.

Lemma EnforceL0_keeps e enabled ret (st : dbstate) :
  st_cache (EnforceL0RetentionByTime stat_local e enabled ret st).1 = st_cache st /\
  d_pageSize (st_local (EnforceL0RetentionByTime stat_local e enabled ret st).1) = d_pageSize (st_local st).
Proof.
  unfold EnforceL0RetentionByTime. case_if; [done|]. destruct (LTXFiles _ 1 0 false) as [itr|err|m]; [|done..].
  destruct (itr_Close itr); [done|]. case_if; [done|]. destruct (LTXFiles _ 0 0 false) as [itr0|err|m]; [|done..].
  destruct (db_l0_loop _ _ _ _ _ _ _ _) as [[deleted lastInfo] all]. case_if; [done|].
  destruct (remove_remote _ _ _) as [cl [err|]]; [done|]. cbn [fst st_cache st_local d_pageSize invalidatePosCache set_pos].
  split; [done|]. apply remove_locals_pageSize.
Qed.

Lemma MaxLTXFileInfo_keeps (c : compactor) (st : dbstate) level : st_local (MaxLTXFileInfo c st level).1 = st_local st.
Proof.
  unfold MaxLTXFileInfo. destruct (if CacheGetter c then _ else _); [done|]. destruct (LTXFiles _ _ _ _); [|done..].
  by destruct (CacheSetter c && _).
Qed.

Lemma Compact_cached (c : compactor) (st : dbstate) dst (st' : dbstate) info :
  Compact age_Decrypt age_Encrypt ltx_NewCompactor ltx_Compact c st dst = (st', Ok info) -> CacheSetter c = true ->
  st_cache st' !! dst = Some info /\ st_local st' = st_local st.
Proof.
  intros HC Hset. unfold Compact in HC. case_if; [done|]. pose proof (MaxLTXFileInfo_keeps c st dst) as Hl.
  destruct (MaxLTXFileInfo c st dst) as [st1 prev]. cbn [fst] in Hl. destruct prev as [p|err|m]; [|done..].
  destruct (_ ≫= _) as [[[lo hi] rdrs]|err|m]; [|done..]. case_if; [done|].
  destruct (WriteLTXFile _ _ _ _ _) as [cl [i|err|m]]; [|done..]. rewrite Hset in HC.
  assert (forall s : dbstate, st_cache s !! dst = Some i /\ st_local s = st_local st ->
    (if VerifyCompaction c then match VerifyLevelConsistency (st_client s) dst with
      | Ok () => s | _ => mkState (st_client s) (st_cache s) (st_local s) (st_verifyErrors s + 1) end else s, Ok i) = (st', Ok info) ->
    st_cache st' !! dst = Some info /\ st_local st' = st_local st) as Hend.
  { clear HC. intros s Hs. destruct (VerifyCompaction c); [destruct (VerifyLevelConsistency (st_client s) dst) as [[]|?|?]|]; intros [= <- <-]; exact Hs. }
  eapply Hend; [|exact HC]. split; [|done]. cbn [st_cache set_cache]. by rewrite lookup_insert_eq.
Qed.

Lemma SnapshotReader_keeps e d stat scan at_ : d_pageSize (SnapshotReader LockPgno e d stat scan at_).1 = d_pageSize d.
Proof.
  unfold SnapshotReader. case_if; [done|]. unfold DB_Pos. destruct (d_pos d); [done|].
  destruct (MaxLTX e d) as [[lo hi]|err|m]; [|done..]. case_if; [done|]. by destruct (open_l0 _ _ _ _) as [[f|err|m]|err|m].
Qed.

Lemma CompactDB_cached e cfg c levels ret partial stat scan at_ now lvl (st st' : dbstate) info :
  CompactDB e cfg c levels ret partial stat scan at_ now lvl st = (st', Ok info) -> CacheSetter c = true ->
  st_cache st' !! lvl_Level lvl = Some info /\ d_pageSize (st_local st') = d_pageSize (st_local st) /\ d_pageSize (st_local st) <> 0.
Proof.
  intros HC Hset. unfold CompactDB in HC. destruct (Z.eqb_spec (d_pageSize (st_local st)) 0) as [|Hps]; [done|].
  destruct (DB_MaxLTXFileInfo _ _ _) as [infos [dst|err|m]]; [|done..]. case_if; [done|].
  destruct (Z.eqb_spec (lvl_Level lvl) SnapshotLevel) as [Hl|Hl].
  - unfold DB_Snapshot in HC. cbn [st_client st_cache st_local set_cache] in HC.
    pose proof (SnapshotReader_keeps e (st_local st) stat scan at_) as Hk.
    destruct (SnapshotReader _ _ _ _ _ _) as [d [[pos s]|err|m]]; [|done..]. cbn [fst] in Hk.
    destruct (r_WriteLTXFile _ _ _ _ _ _ _ _) as [cl [i|err|m]]; [|done..]. injection HC as <- <-. cbn [st_cache st_local].
    rewrite Hl, lookup_insert_eq. done.
  - destruct (DB_MaxLTXFileInfo _ _ _) as [infos2 [src|err|m]]; [|done..]. case_if; [done|]. unfold DB_Compact in HC.
    destruct (Compact _ _ _ _ _ _ _) as [st1 [i|err|m]] eqn:HCC; [|done..].
    apply Compact_cached in HCC as [Hc Hloc]; [|done]. cbn [st_local set_cache] in Hloc. rewrite <- Hloc.
    destruct (lvl_Level lvl =? 1) eqn:H1.
    + pose proof (EnforceL0_keeps e (RetentionEnabled c) ret st1) as [Hk1 Hk2].
      destruct (EnforceL0RetentionByTime _ _ _ _ _) as [st2 r]. cbn [fst] in *.
      destruct r; try done; injection HC as <- <-; rewrite Hk1, Hk2, Hloc; done.
    + injection HC as <- <-. rewrite Hloc. done.
Qed.

(** At most one compaction per window.  When [CompactDB] has compacted a level, or taken a snapshot,
    and the file it wrote is dated after the last compaction time of the level, then
    every later call up to the next compaction time returns "compaction too early" and
    changes nothing, whatever is in the storage by then. *)
Theorem compact_once e cfg c levels ret partial stat scan at_ now lvl (st st' : dbstate) info e' stat' scan' at' now' :
  CompactDB e cfg c levels ret partial stat scan at_ now lvl st = (st', Ok info) -> CacheSetter c = true ->
  0 < Interval lvl -> PrevCompactionAt lvl now < CreatedAt info -> now <= now' < NextCompactionAt lvl now ->
  CompactDB e' cfg c levels ret partial stat' scan' at' now' lvl st' = (st', Err ErrCompactionTooEarly).
Proof.
  intros HC Hset Hi Hcr Hnow. destruct (CompactDB_cached _ _ _ _ _ _ _ _ _ _ _ _ _ _ HC Hset) as (Hc & Hps & Hne).
  assert (PrevCompactionAt lvl now' = PrevCompactionAt lvl now) as Hprev.
  { unfold NextCompactionAt, PrevCompactionAt, time_Truncate in *. destruct (Z.leb_spec (Interval lvl) 0); [lia|].
    pose proof (Z.div_mod now (Interval lvl) ltac:(lia)). pose proof (Z.mod_pos_bound now (Interval lvl) Hi).
    pose proof (Z.div_mod now' (Interval lvl) ltac:(lia)). pose proof (Z.mod_pos_bound now' (Interval lvl) Hi).
    assert (now' / Interval lvl = now / Interval lvl); [|nia].
    apply Z.le_antisymm; [|apply Z.div_le_mono; lia]. apply Z.lt_succ_r. apply Z.div_lt_upper_bound; [lia|]. nia. }
  unfold CompactDB. rewrite Hps. destruct (Z.eqb_spec (d_pageSize (st_local st)) 0); [done|].
  unfold DB_MaxLTXFileInfo. rewrite Hc. destruct st' as [cl cache loc ve]. cbn [set_cache st_client st_cache st_local st_verifyErrors].
  rewrite Hprev. unfold time_After. destruct (Z.ltb_spec (PrevCompactionAt lvl now) (CreatedAt info)); [done|lia].
Qed.
End CompactDB.

(** ** Validation and forced syncs *)
Section Validate.
Context {C : Type} `{ReplicaClient C}.

Fixpoint validate_levels (cl : C) (levels : CompactionLevels) : result (list ValidationError) :=
  match levels with
  | [] => Ok []
  | lvl :: levels =>
      errs ← ValidateLevel cl (lvl_Level lvl) wrapping "validate level";
      rest ← validate_levels cl levels;
      Ok (errs ++ rest)
  end.

(** [Validate] over the databases; [None] has no replica.  The result is whether the
    replicas are valid, and the errors. *)
Fixpoint Validate_dbs (replicas : list (option C)) (levels : CompactionLevels) : result (list ValidationError) :=
  match replicas with
  | [] => Ok []
  | None :: replicas => Validate_dbs replicas levels
  | Some cl :: replicas =>
      errs ← validate_levels cl levels;
      rest ← Validate_dbs replicas levels;
      Ok (errs ++ rest)
  end.

Definition Store_Validate (replicas : list (option C)) (levels : CompactionLevels) : result (bool * list ValidationError) :=
  errs ← Validate_dbs replicas levels;
  Ok ((length errs =? 0)%nat, errs).

(** The levels of a replica, one by one. *)
Lemma validate_levels_spec cl levels errs :
  validate_levels cl levels = Ok errs ->
  (errs = [] <-> Forall (fun lvl => ValidateLevel cl (lvl_Level lvl) = Ok []) levels).
Proof.
  revert errs. induction levels as [|lvl levels IH]; intros errs; cbn [validate_levels]; [intros [= <-]; by split|].
  destruct (ValidateLevel cl (lvl_Level lvl)) as [a|err|m] eqn:HV; cbn [wrap_err mbind result_bind]; [|done..].
  destruct (validate_levels cl levels) as [b|err|m]; cbn [mbind result_bind]; [|done..]. intros [= <-].
  rewrite Forall_cons, app_nil, (IH b eq_refl). split; intros [Ha Hb]; (split; [congruence|done]).
Qed.

(** [Validate] reports a valid store exactly when it found no violation in any level of
    any replica. *)
Theorem Store_Validate_valid replicas levels v errs :
  Store_Validate replicas levels = Ok (v, errs) ->
  (v = true <-> forall cl lvl, In (Some cl) replicas -> In lvl levels -> ValidateLevel cl (lvl_Level lvl) = Ok []).
Proof.
  unfold Store_Validate. destruct (Validate_dbs replicas levels) as [es|err|m] eqn:HV; cbn [mbind result_bind]; [|done..]. intros [= <- <-].
  rewrite Nat.eqb_eq, length_zero_iff_nil. revert es HV. induction replicas as [|[cl|] replicas IH]; intros es; cbn [Validate_dbs].
  - intros [= <-]. by split.
  - destruct (validate_levels cl levels) as [a|err|m] eqn:Ha; cbn [mbind result_bind]; [|done..].
    destruct (Validate_dbs replicas levels) as [b|err|m]; cbn [mbind result_bind]; [|done..]. intros [= <-].
    rewrite app_nil, (IH b eq_refl), (validate_levels_spec _ _ _ Ha), Forall_forall. setoid_rewrite list_elem_of_In. split.
    + intros [H1 H2] cl' lvl [[= <-]|Hin] Hl; [by apply H1|by apply H2].
    + intros Hall. split; intros; apply Hall; simpl; auto.
  - intros HV. rewrite (IH es HV). split; intros Hall cl' lvl Hin; apply Hall; [by destruct Hin|by right].
Qed.
End Validate.

Record SyncDBResult := mkSyncDBResult { sr_TXID : Z; sr_ReplicatedTXID : Z; sr_Changed : bool }.

Section SyncDB.
Context {C : Type} `{RC : ReplicaClient C} `{LTXFormat} `{SQLite} {identity recipient : Type}.
Variable age_Encrypt : list recipient -> result (list byte -> list byte * option error).
Variable age_flushed : list recipient -> list byte -> list byte.
Variable raw : result ltxFile -> list byte.
Variable cfg : ReplicaConfig identity recipient.
Variable LockPgno : Z -> Z.
Variable enc_N : ltxFile -> Z.

(** [SyncDB]; [found] tells whether the path is registered, and then whether it is open. *)
Definition SyncDB (found : option bool) (wait : bool) (e0 : env) (e : nat -> env) (eu : env) (locked : bool) (others : nat -> files -> files)
    (dbcfg : DBConfig) (fs : files) (d : DB) (modTime : result time) (pos : Pos) (cl : C) (now : time)
    : DB * files * Pos * C * result SyncDBResult :=
  match found with
  | None => (d, fs, pos, cl, Err (EWrap "" ErrDatabaseNotFound))
  | Some false => (d, fs, pos, cl, Err (EWrap "" ErrDatabaseNotOpen))
  | Some true =>
      match MaxLTX e0 d with
      | Err err => (d, fs, pos, cl, Err (EWrap "read position before sync" err))
      | Panic m => (d, fs, pos, cl, Panic m)
      | Ok (_, beforeTXID) =>
          let '(d, fs, pos, cl, r) :=
            if wait then SyncAndWait age_Encrypt age_flushed raw cfg LockPgno enc_N e0 e eu locked others dbcfg fs d modTime pos cl now
            else let '(d, fs, r) := DB_Sync LockPgno enc_N e0 e locked others dbcfg fs d modTime in
                 (d, fs, pos, cl, _ ← r; Ok ()) in
          (d, fs, pos, cl,
           _ ← r wrapping "sync database";
           after ← MaxLTX eu d wrapping "read position after sync";
           Ok (mkSyncDBResult (snd after) (TXID_ pos) (beforeTXID <? snd after)))
      end
  end.
End SyncDB.

(** ** Witnesses *)
Module TasksDemo.
#[local] Existing Instance DemoFormat.format.
Definition synced_store (t : time) : Store :=
  mkStore {[0%nat := [Some 0%nat]]} 0 1 {[0%nat := mkObject "a" true StoreDemo.cfg0 false true t]} StoreDemo.cfg0.
Definition tick (s : Store) (t : Z) : check := mkCheck s (t * Second) (t * Second) (t * Second) (Ok 200).
(** Synced at second 50: the checks at seconds 62 and 180 differ. *)
Definition ticks : list check := [tick (synced_store (50 * Second)) 30; tick (synced_store (50 * Second)) 62; tick (synced_store (50 * Second)) 180].

Definition busy : iteration := mkIteration (10 * Second) (10 * Second) [Some (EDBNotReady "page size not initialized")].
Definition busy_at (t : Z) : iteration := mkIteration (t * Second) (t * Second) [None; Some (EDBNotReady "page size not initialized")].

(** A storage that dates what it writes. *)
Definition dated : ReplicaClient Mem.client := {|
  LTXFiles := LTXFiles; OpenLTXFile := OpenLTXFile; DeleteLTXFiles := DeleteLTXFiles;
  WriteLTXFile c level lo hi rd :=
    match WriteLTXFile c level lo hi rd with
    | (c, Ok i) => (c, Ok (mkFileInfo (Level i) (MinTXID i) (MaxTXID i) (FSize i) 105))
    | r => r
    end
|}.
Definition st0 : @state Mem.client DB := mkState PipelineDemo.empty ∅ Demo.d0 0.
Definition compact (now : time) (st : @state Mem.client DB) : @state Mem.client DB * result FileInfo :=
  @CompactDB Mem.client dated DemoFormat.format string string (fun _ r => Ok r) demo_encrypt demo_flush (fun _ => None) (fun _ => ([], None)) (fun _ _ _ => None)
    Demo.lock_pgno Demo.calm demo_plain_cfg RetentionDemo.keeper DefaultCompactionLevels 300 [] Demo.fs0 Demo.fs0 (fun _ => Demo.fs0) now (mkLevel 9 100) st.
End TasksDemo.

Lemma heartbeat_sound_witness :
  length (monitorHeartbeats (Some (NewHeartbeatClient "http://localhost" 0)) TasksDemo.ticks) = 1%nat /\
  Forall (all_synced Minute) (monitorHeartbeats (Some (NewHeartbeatClient "http://localhost" 0)) TasksDemo.ticks).
Proof.
  split; [vm_compute; reflexivity|].
  apply (heartbeat_sound "http://localhost" 0 TasksDemo.ticks 0); [|lia|lia].
  vm_compute. repeat split; discriminate.
Defined.

Lemma compaction_retry_witness :
  (monitor_iteration (mkLevel 1 (30 * Second)) (monitorCompactionLevel (mkLevel 1 (30 * Second)) [TasksDemo.busy]) (TasksDemo.busy_at 11)).1 = Second.
Proof.
  apply (compaction_retry (mkLevel 1 (30 * Second)) [TasksDemo.busy] (TasksDemo.busy_at 11)).
  - constructor; [vm_compute; discriminate|constructor].
  - vm_compute. discriminate.
  - reflexivity.
  - right. vm_compute. discriminate.
Defined.

Lemma compact_once_witness :
  exists st' info, TasksDemo.compact 110 TasksDemo.st0 = (st', Ok info) /\ TasksDemo.compact 199 st' = (st', Err ErrCompactionTooEarly).
Proof.
  destruct (TasksDemo.compact 110 TasksDemo.st0) as [st' r] eqn:E.
  assert (exists info, r = Ok info /\ CreatedAt info = 105) as (info & Hr & Hc).
  { apply (f_equal snd) in E. vm_compute in E. eexists. split; [symmetry; exact E|reflexivity]. }
  rewrite Hr in E |- *. exists st', info. split; [reflexivity|]. unfold TasksDemo.compact in *.
  eapply (@compact_once Mem.client TasksDemo.dated DemoFormat.format string string).
  - exact E.
  - reflexivity.
  - reflexivity.
  - rewrite Hc. vm_compute. reflexivity.
  - vm_compute. split; [discriminate|reflexivity].
Defined.
