(* ===== verification/Server.v ===== *)
(** * The control server

    Model of the handlers of src/server.go that change or look up databases: a request is
    checked, its path expanded, and the operation of the store (Store.v) run to its end.
    One after the other, the handlers implement a finite map from paths to whether the
    database is open.  The encoding of bodies, the socket and the profiler are left out. *)

From Stdlib Require Import ZArith Lia Strings.Byte.
From stdpp Require Import base numbers list strings gmap sorting relations.
From S2P Require Import Prelude WalReader Ltx Levels Streams Compactor Replica Db Retention PageIndex Snapshot Shutdown Pipeline Store StoreTasks.
Local Open Scope Z_scope.

Definition StatusOK : Z := 200.
Definition StatusBadRequest : Z := 400.
Definition StatusNotFound : Z := 404.
Definition StatusConflict : Z := 409.
Definition StatusInternalServerError : Z := 500.

(** A response: its code, and the status or the error message.  A panic of a handler
    ends the connection without one. *)
Record response := mkResponse { rs_code : Z; rs_status : string }.
Definition no_response : response := mkResponse 0 "".

Section Server.
Variable grow : nat -> nat.
(** [PathExpander], when it is set. *)
Variable PathExpander : option (string -> result string).
(** [NewReplicaClientFromURL]: the error it returns for a URL. *)
Variable client_error : string -> option error.
(** The settings of [NewDB]. *)
Variable new_settings : settings.

Definition expandPath (path : string) : result string :=
  match PathExpander with Some f => f path | None => Ok path end.

(** A call of the store, undisturbed, to its end; no call has more than five steps. *)
Fixpoint run_steps (n : nat) (oc : outcome) (c : pc) (s : Store) : Store * result () :=
  match c with
  | Fin r => (s, r)
  | _ => match n with
         | O => (s, Panic "out of fuel")
         | S n => let '(s, c) := step grow oc c s in run_steps n oc c s
         end
  end.
Definition run_call : outcome -> pc -> Store -> Store * result () := run_steps 5.

(** The checks the handlers share. *)
Definition with_path (path : string) (s : Store) (k : string -> Store * response) : Store * response :=
  if bool_decide (path = "") then (s, mkResponse StatusBadRequest "path required") else
  match expandPath path with
  | Ok path => k path
  | _ => (s, mkResponse StatusBadRequest "invalid path")
  end.

Definition respond (status : string) (r : Store * result ()) : Store * response :=
  match r with
  | (s, Ok ()) => (s, mkResponse StatusOK status)
  | (s, Err _) => (s, mkResponse StatusInternalServerError "failed")
  | (s, Panic _) => (s, no_response)
  end.

Definition handleStart (oc : outcome) (path : string) (s : Store) : Store * response :=
  with_path path s (fun path => respond "started" (run_call oc (EnableStart path) s)).

Definition handleStop (oc : outcome) (path : string) (s : Store) : Store * response :=
  with_path path s (fun path => respond "stopped" (run_call oc (DisableStart path) s)).

Definition handleUnregister (oc : outcome) (path : string) (s : Store) : Store * response :=
  with_path path s (fun path => respond "unregistered" (run_call oc (UnregStart path) s)).

(** [NewDB]: a new object. *)
Definition new_db (path : string) (s : Store) : ptr * Store :=
  let p := fresh (dom (st_objects s)) in
  (p, set_objects (<[p := mkObject path false new_settings false true 0]> (st_objects s)) s).

Definition handleRegister (oc : outcome) (path url : string) (s : Store) : Store * response :=
  if bool_decide (path = "") then (s, mkResponse StatusBadRequest "path required")
  else if bool_decide (url = "") then (s, mkResponse StatusBadRequest "replica_url required")
  else
    match expandPath path with
    | Ok path =>
        match FindDB s path with
        | Ok (Some _) => (s, mkResponse StatusOK "already_exists")
        | Ok None =>
            match client_error url with
            | Some _ => (s, mkResponse StatusBadRequest "invalid replica url")
            | None => let '(p, s) := new_db path s in respond "registered" (run_call oc (RegStart p) s)
            end
        | _ => (s, no_response)
        end
    | _ => (s, mkResponse StatusBadRequest "invalid path")
    end.

(** The response to a sync: the code and the status of [SyncResponse]. *)
Definition sync_response (wait : bool) (r : result SyncDBResult) : response :=
  match r with
  | Err e =>
      if errors_Is e ErrDatabaseNotFound then mkResponse StatusNotFound "error"
      else if errors_Is e ErrDatabaseNotOpen then mkResponse StatusConflict "error"
      else mkResponse StatusInternalServerError "error"
  | Panic m => no_response
  | Ok res =>
      mkResponse StatusOK (if negb (sr_Changed res) then "no_change" else if wait then "synced" else "synced_local")
  end.

(** The lookup of [SyncDB]. *)
Definition found (s : Store) (path : string) : option bool :=
  match FindDB s path with Ok (Some p) => Some (is_open s p) | _ => None end.

(** [handleSync]; [sync] is [SyncDB] on the rest of the state. *)
Definition handleSync {A} (sync : option bool -> bool -> A * result SyncDBResult) (a : A) (path : string) (wait : bool) (s : Store) : A * response :=
  if bool_decide (path = "") then (a, mkResponse StatusBadRequest "path required") else
  match expandPath path with
  | Ok path => let '(a, r) := sync (found s path) wait in (a, sync_response wait r)
  | _ => (a, mkResponse StatusBadRequest "invalid path")
  end.

(** [handleTXID]; [pos] is the position of a database. *)
Definition handleTXID (pos : ptr -> result Z) (path : string) (s : Store) : response * option Z :=
  if bool_decide (path = "") then (mkResponse StatusBadRequest "path required", None) else
  match expandPath path with
  | Ok path =>
      match FindDB s path with
      | Ok (Some p) =>
          match pos p with
          | Ok txid => (mkResponse StatusOK "", Some txid)
          | Err _ => (mkResponse StatusInternalServerError "error", None)
          | Panic _ => (no_response, None)
          end
      | Ok None => (mkResponse StatusNotFound "database not found", None)
      | _ => (no_response, None)
      end
  | _ => (mkResponse StatusBadRequest "invalid path", None)
  end.

(** The timeouts, in seconds, that the handlers give the store; [None] is none. *)
Definition stop_timeout (timeout : Z) : Z := if timeout =? 0 then 30 else timeout.
Definition unregister_timeout (timeout : Z) : Z := if timeout <=? 0 then 30 else timeout.
Definition sync_timeout (wait : bool) (timeout : Z) : option Z :=
  let timeout := if wait && (timeout =? 0) then 30 else timeout in
  if 0 <? timeout then Some timeout else None.

(** [handleList]: the path and status of every database; [handleInfo] counts them.
    [monitored] is [db.Replica != nil && db.Replica.MonitorEnabled]. *)
Definition list_status (monitored : ptr -> bool) (s : Store) (p : ptr) : string :=
  if is_open s p then if monitored p then "replicating" else "open" else "stopped".
Definition handleList (monitored : ptr -> bool) (s : Store) : list (string * string) :=
  omap (fun e => match e with Some p => Some (default "" (path_of s p), list_status monitored s p) | None => None end) (dbs s).
Definition handleInfo_DatabaseCount (s : Store) : nat := length (dbs s).

(** ** The abstract map *)

(** The store shows the map: its paths are the registered ones, with whether they are open. *)
Definition maps (s : Store) (ps : list ptr) (m : gmap string bool) : Prop :=
  forall path b, m !! path = Some b <-> exists p, In p ps /\ path_of s p = Some path /\ is_open s p = b.
Definition shows (s : Store) (m : gmap string bool) : Prop := exists ps, registry s ps /\ maps s ps m.

Inductive command := CRegister (path url : string) | CUnregister (path : string) | CStart (path : string) | CStop (path : string).

Definition handle (oc : outcome) (c : command) : Store -> Store * response :=
  match c with
  | CRegister path url => handleRegister oc path url
  | CUnregister path => handleUnregister oc path
  | CStart path => handleStart oc path
  | CStop path => handleStop oc path
  end.

(** What a request does to the map and the code it is answered with. *)
Definition api (oc : outcome) (c : command) (m : gmap string bool) : gmap string bool * Z :=
  let ok (e : option error) := match e with None => StatusOK | Some _ => StatusInternalServerError end in
  let checked (path : string) (k : string -> gmap string bool * Z) :=
    if bool_decide (path = "") then (m, StatusBadRequest) else
    match expandPath path with Ok path => k path | _ => (m, StatusBadRequest) end in
  match c with
  | CRegister path url =>
      checked path (fun path =>
        if bool_decide (url = "") then (m, StatusBadRequest) else
        match m !! path, client_error url, oc_open oc with
        | Some _, _, _ => (m, StatusOK)
        | None, Some _, _ => (m, StatusBadRequest)
        | None, None, Some _ => (m, StatusInternalServerError)
        | None, None, None => (<[path := true]> m, StatusOK)
        end)
  | CUnregister path =>
      checked path (fun path =>
        if bool_decide (path = "") then (m, StatusInternalServerError) else
        match m !! path with None => (m, StatusOK) | Some _ => (base.delete path m, ok (oc_close oc)) end)
  | CStart path =>
      checked path (fun path =>
        match m !! path, oc_ctx oc, oc_open oc with
        | Some false, None, None => (<[path := true]> m, StatusOK)
        | _, _, _ => (m, StatusInternalServerError)
        end)
  | CStop path =>
      checked path (fun path =>
        match m !! path with
        | Some true => (<[path := false]> m, ok (oc_close oc))
        | _ => (m, StatusInternalServerError)
        end)
  end.

(** ** The handlers implement the map *)

Lemma shows_lookup s m ps path :
  registry s ps -> maps s ps m ->
  (exists j p, find_path s path (dbs s) 0 = Ok (Some (j, p)) /\ ps !! j = Some p /\ (j < st_len s)%nat /\ path_of s p = Some path /\ m !! path = Some (is_open s p)) \/
  find_path s path (dbs s) 0 = Ok None /\ m !! path = None.
Proof.
  intros Hr Hm. destruct (find_dbs s ps path Hr) as [(j & p & HF & Hj & Hp & Hpath)|[HF Hno]].
  - left. exists j, p. split_and!; try done. apply Hm. exists p. split; [|done]. apply list_elem_of_In. by eapply list_elem_of_lookup_2.
  - right. split; [done|]. apply eq_None_not_Some. intros [b Hb]. apply Hm in Hb as (p & Hp & Hpath & _). by apply (Hno p Hp).
Qed.

Lemma registry_path_inj s ps p q path :
  registry s ps -> In p ps -> In q ps -> path_of s p = Some path -> path_of s q = Some path -> p = q.
Proof.
  intros (_ & Hnd & _) Hp Hq Hpp Hqp. apply list_elem_of_In, list_elem_of_lookup in Hp as [i Hi]. apply list_elem_of_In, list_elem_of_lookup in Hq as [j Hj].
  assert (i = j) as ->; [|congruence]. apply (NoDup_lookup _ i j (Some path) Hnd); rewrite list_lookup_fmap; [rewrite Hi|rewrite Hj]; simpl; by f_equal.
Qed.

Lemma is_open_update p f s q :
  is_open (update p f s) q = if decide (q = p) then default false (o_opened <$> (f <$> st_objects s !! p)) else is_open s q.
Proof.
  unfold is_open, update. cbn [st_objects set_objects]. destruct (decide (q = p)) as [->|Hne]; [by rewrite lookup_alter_eq|by rewrite lookup_alter_ne].
Qed.

(** Opening or closing the database of a path. *)
Lemma shows_set_open s m ps p f path b :
  registry s ps -> maps s ps m ->
  In p ps -> path_of s p = Some path -> (forall o, o_path (f o) = o_path o) -> (forall o, o_opened (f o) = b) ->
  shows (update p f s) (<[path := b]> m).
Proof.
  intros Hr Hm Hp Hpath Hf Ho. exists ps. split; [by apply registry_update|]. intros q c.
  assert (forall x, path_of (update p f s) x = path_of s x) as Hpo by (intros x; by apply path_update).
  assert (is_Some (st_objects s !! p)) as [o Hob] by (destruct Hr as (_ & _ & Hob & _); by apply Hob).
  destruct (decide (q = path)) as [->|Hne].
  - rewrite lookup_insert_eq. split.
    + intros [= <-]. exists p. split; [done|]. rewrite Hpo. split; [done|]. rewrite is_open_update. destruct (decide (p = p)); [|done]. rewrite Hob. simpl. apply Ho.
    + intros (x & Hx & Hxp & <-). rewrite Hpo in Hxp. rewrite (registry_path_inj s ps x p path Hr Hx Hp Hxp Hpath), is_open_update.
      destruct (decide (p = p)); [|done]. rewrite Hob. simpl. by rewrite Ho.
  - rewrite lookup_insert_ne by done. rewrite (Hm q c). split; intros (x & Hx & Hxp & Hxo); exists x; rewrite Hpo, is_open_update in *; (split; [done|]); (split; [done|]);
      destruct (decide (x = p)) as [->|]; congruence.
Qed.

(** Changes to an object that is not registered do not show. *)
Lemma shows_other s m ps p f :
  registry s ps -> maps s ps m ->
  ~ In p ps -> (forall o, o_path (f o) = o_path o) ->
  registry (update p f s) ps /\ maps (update p f s) ps m.
Proof.
  intros Hr Hm Hp Hf. split; [by apply registry_update|]. intros q b. rewrite (Hm q b).
  split; intros (x & Hx & Hxp & Hxo); exists x; rewrite path_update, is_open_update in * by done; destruct (decide (x = p)); by subst.
Qed.

Lemma shows_append s m ps p path :
  registry s ps -> maps s ps m ->
  path_of s p = Some path -> m !! path = None -> shows (slice_append grow p s) (<[path := is_open s p]> m).
Proof.
  intros Hr Hm Hp Hnone. assert (st_objects (slice_append grow p s) = st_objects s) as Hso by (unfold slice_append; by case_if).
  assert (forall q, In q ps -> path_of s q <> path_of s p) as Hnew.
  { intros q Hq Heq. assert (m !! path = Some (is_open s q)) by (apply Hm; exists q; split; [done|]; split; [congruence|done]). congruence. }
  exists (ps ++ [p]). split.
  { apply registry_append; [done| |done]. unfold path_of in Hp. destruct (st_objects s !! p) eqn:E; [done|]. done. }
  intros q b. unfold path_of, is_open. rewrite Hso. fold (path_of s). destruct (decide (q = path)) as [->|Hne].
  - rewrite lookup_insert_eq. split.
    + intros [= <-]. exists p. split; [apply in_or_app; right; by left|]. done.
    + intros (x & [Hx|[<-|[]]]%in_app_or & Hxp & <-); [|done]. exfalso. apply (Hnew x Hx). unfold path_of in *. congruence.
  - rewrite lookup_insert_ne by done. rewrite (Hm q b). split.
    + intros (x & Hx & Hxp). exists x. split; [apply in_or_app; by left|done].
    + intros (x & [Hx|[<-|[]]]%in_app_or & Hxp); [by exists x|]. exfalso. destruct Hxp as [Hxp _]. unfold path_of in *. congruence.
Qed.

Lemma shows_delete s m ps j p path :
  registry s ps -> maps s ps m -> ps !! j = Some p -> (j < st_len s)%nat -> path_of s p = Some path ->
  registry (slice_delete j s) (base.delete j ps) /\ maps (slice_delete j s) (base.delete j ps) (base.delete path m) /\ ~ In p (base.delete j ps).
Proof.
  intros Hr Hm Hj Hlt Hp. assert (In p ps) as Hin by (apply list_elem_of_In; by eapply list_elem_of_lookup_2).
  assert (NoDup ps) as Hnd by (destruct Hr as (_ & Hnd & _); by eapply NoDup_fmap_1).
  assert (forall x, In x (base.delete j ps) <-> In x ps /\ x <> p) as Hdel.
  { intros x. rewrite <- !list_elem_of_In. pose proof (delete_Permutation ps j p Hj) as Hperm. assert (x ∈ ps <-> x = p \/ x ∈ base.delete j ps) as ->.
    { rewrite <- elem_of_cons. by apply elem_of_Permutation_proper. }
    apply (NoDup_Permutation_proper _ _ Hperm) in Hnd. apply NoDup_cons in Hnd as [Hnp _]. split; [|by intros [[->|?] ?]]. intros Hx. split; [by right|]. by intros ->. }
  split; [by apply registry_delete|]. split; [|rewrite Hdel; by intros [_ ?]]. intros q b.
  change (path_of (slice_delete j s)) with (path_of s). change (is_open (slice_delete j s)) with (is_open s).
  rewrite lookup_delete_Some, (Hm q b). split.
  - intros [Hne (x & Hx & Hxp & Hxo)]. exists x. rewrite Hdel. split; [|done]. split; [done|]. intros ->. congruence.
  - intros (x & [Hx Hxne]%Hdel & Hxp & Hxo). split; [|by exists x]. intros ->. apply Hxne. by eapply registry_path_inj.
Qed.

Lemma in_lookup (ps : list ptr) j p : ps !! j = Some p -> In p ps.
Proof. intros Hj. apply list_elem_of_In. by eapply list_elem_of_lookup_2. Qed.

Lemma run_S n oc c s : run_steps (S n) oc c s = run_steps n oc (step grow oc c s).2 (step grow oc c s).1.
Proof. destruct c; cbn [run_steps]; try (by destruct (step grow oc _ s)). by destruct n. Qed.
Lemma run_Fin n oc r s : run_steps n oc (Fin r) s = (s, r).
Proof. by destruct n. Qed.

(** One step of a call whose state is known. *)
Ltac run_one := rewrite run_S; cbn [step fst snd].
Ltac run_end := rewrite run_Fin; cbn [respond fst snd rs_code].

(** The requests with a path, once the path is known. *)
Lemma with_path_refines path s m (k : string -> Store * response) (spec : string -> gmap string bool * Z) :
  shows s m ->
  (forall p, shows (k p).1 (spec p).1 /\ rs_code (k p).2 = (spec p).2) ->
  let r := if bool_decide (path = "") then (m, StatusBadRequest) else
           match expandPath path with Ok path => spec path | _ => (m, StatusBadRequest) end in
  shows (with_path path s k).1 r.1 /\ rs_code (with_path path s k).2 = r.2.
Proof. intros Hs Hk. unfold with_path. case_bool_decide; [done|]. by destruct (expandPath path) as [p|e|x]. Qed.

Lemma start_refines oc path s m :
  shows s m -> shows (handleStart oc path s).1 (api oc (CStart path) m).1 /\ rs_code (handleStart oc path s).2 = (api oc (CStart path) m).2.
Proof.
  intros Hs. apply with_path_refines; [done|]. intros p'. pose proof Hs as (ps & Hr & Hm). unfold run_call. run_one. unfold FindDB.
  destruct (shows_lookup s m ps p' Hr Hm) as [(j & p & -> & Hj & _ & Hp & ->)|[-> ->]]; cbn [fmap option_fmap option_map fst snd]; [|by run_end].
  run_one. destruct (is_open s p) eqn:Hop; cbn [fst snd]; [by run_end|].
  destruct (oc_ctx oc) eqn:Hctx; cbn [fst snd]; [by run_end|]. run_one. destruct (oc_open oc) eqn:Hopn; cbn [fst snd]; [by run_end|].
  run_end. split; [|done]. unfold open_db.
  assert (is_Some (st_objects s !! p)) as [o Ho] by (destruct Hr as (_ & _ & Hob & _); apply Hob; by eapply in_lookup).
  replace (update p _ s) with (update p (fun o => set_compactor (s_VerifyCompaction (o_settings o)) (s_RetentionEnabled (o_settings o)) (set_opened true o)) s).
  - eapply (shows_set_open s m ps); try done. by eapply in_lookup.
  - unfold update. f_equal. apply partial_alter_ext. intros y Hy. rewrite Ho in Hy. subst y.
    unfold is_open in Hop. rewrite Ho in Hop. simpl in Hop. simpl. by rewrite Hop.
Qed.

Lemma stop_refines oc path s m :
  shows s m -> shows (handleStop oc path s).1 (api oc (CStop path) m).1 /\ rs_code (handleStop oc path s).2 = (api oc (CStop path) m).2.
Proof.
  intros Hs. apply with_path_refines; [done|]. intros p'. pose proof Hs as (ps & Hr & Hm). unfold run_call. run_one. unfold FindDB.
  destruct (shows_lookup s m ps p' Hr Hm) as [(j & p & -> & Hj & _ & Hp & ->)|[-> ->]]; cbn [fmap option_fmap option_map fst snd]; [|by run_end].
  run_one. destruct (is_open s p) eqn:Hop; cbn [fst snd]; [|by run_end]. run_one. run_end.
  assert (shows (close_db p s) (<[p' := false]> m)) as Hsh by (eapply (shows_set_open s m ps); try done; by eapply in_lookup).
  destruct (oc_close oc); cbn [nil_err respond fst snd rs_code]; split; done.
Qed.

Lemma unregister_refines oc path s m :
  shows s m -> shows (handleUnregister oc path s).1 (api oc (CUnregister path) m).1 /\ rs_code (handleUnregister oc path s).2 = (api oc (CUnregister path) m).2.
Proof.
  intros Hs. apply with_path_refines; [done|]. intros p'. pose proof Hs as (ps & Hr & Hm). unfold run_call. run_one.
  case_bool_decide; cbn [fst snd]; [by run_end|].
  destruct (shows_lookup s m ps p' Hr Hm) as [(j & p & -> & Hj & Hlt & Hp & ->)|[-> ->]]; cbn [fst snd]; [|by run_end].
  run_one. run_end. destruct (shows_delete s m ps j p p' Hr Hm Hj Hlt Hp) as (Hr' & Hm' & Hnot).
  assert (shows (close_db p (slice_delete j s)) (base.delete p' m)) as Hsh.
  { exists (base.delete j ps). by apply shows_other. }
  destruct (oc_close oc); cbn [nil_err respond fst snd rs_code]; split; done.
Qed.

(** A new object is not registered, and does not show. *)
Lemma new_db_fresh path s m ps :
  registry s ps -> maps s ps m ->
  registry (new_db path s).2 ps /\ maps (new_db path s).2 ps m /\ ~ In (new_db path s).1 ps /\
  path_of (new_db path s).2 (new_db path s).1 = Some path /\ dbs (new_db path s).2 = dbs s.
Proof.
  intros (Hd & Hnd & Hob & Hl) Hm. set (p := (new_db path s).1).
  assert (st_objects s !! p = None) as Hp by (apply not_elem_of_dom; unfold p, new_db; apply is_fresh).
  assert (~ In p ps) as Hnot by (intros Hin%Hob; destruct Hin; congruence).
  assert (forall q, In q ps -> st_objects (new_db path s).2 !! q = st_objects s !! q) as Hsame.
  { intros q Hq. unfold new_db. cbn [snd set_objects st_objects]. apply lookup_insert_ne. intros <-. by apply Hnot. }
  split; [|split; [|split; [done|split; [|done]]]].
  - split; [done|]. split; [|split; [|done]].
    + erewrite list_fmap_ext; [exact Hnd|]. intros i q Hq. unfold path_of. rewrite Hsame; [done|]. by eapply in_lookup.
    + intros q Hq. rewrite Hsame by done. by apply Hob.
  - intros q b. rewrite (Hm q b). split; intros (x & Hx & Hxp); exists x; unfold path_of, is_open in *; rewrite Hsame in * by done; done.
  - unfold path_of, new_db, p. cbn [fst snd set_objects st_objects]. by rewrite lookup_insert_eq.
Qed.

Lemma register_refines oc path url s m :
  shows s m -> shows (handleRegister oc path url s).1 (api oc (CRegister path url) m).1 /\
    rs_code (handleRegister oc path url s).2 = (api oc (CRegister path url) m).2.
Proof.
  intros Hs. unfold handleRegister. cbn [api]. case_bool_decide; [done|]. case_bool_decide as Hurl; [destruct (expandPath path); by rewrite ?bool_decide_eq_true_2|].
  destruct (expandPath path) as [p'|e|x]; [|done..]. pose proof Hs as (ps & Hr & Hm). unfold FindDB.
  destruct (shows_lookup s m ps p' Hr Hm) as [(j & p & -> & Hj & _ & Hp & ->)|[HF Hnone]]; [done|].
  rewrite HF, Hnone. cbn [fmap option_fmap option_map]. destruct (client_error url); [done|].
  destruct (new_db_fresh p' s m ps Hr Hm) as (Hr1 & Hm1 & Hnot & Hp1 & Hdbs). destruct (new_db p' s) as [p s1]. cbn [fst snd] in *.
  assert (forall s2, registry s2 ps -> maps s2 ps m -> find_path s2 p' (dbs s2) 0 = Ok None) as Hfind.
  { intros s2 H1 H2. destruct (shows_lookup s2 m ps p' H1 H2) as [(j & q & _ & _ & _ & _ & Hq)|[-> _]]; [congruence|done]. }
  unfold run_call. run_one. rewrite Hp1. cbn [default]. rewrite Hfind by done. cbn [fst snd]. run_one. run_one.
  destruct (shows_other s1 m ps p (set_settings (st_settings s1)) Hr1 Hm1 Hnot) as [Hr2 Hm2]; [done|].
  set (s2 := update p _ s1) in *. assert (path_of s2 p = Some p') as Hp2 by (unfold s2; by rewrite path_update).
  destruct (oc_open oc); cbn [fst snd]; [run_end; split; [by exists ps|done]|].
  destruct (shows_other s2 m ps p _ Hr2 Hm2 Hnot open_db_path) as [Hr3 Hm3]. fold (open_db p s2) in Hr3, Hm3.
  assert (path_of (open_db p s2) p = Some p') as Hp3 by (unfold open_db; rewrite path_update; [done|apply open_db_path]).
  run_one. rewrite Hp3. cbn [default]. rewrite Hfind by done. cbn [fst snd]. run_end. split; [|done].
  replace true with (is_open (open_db p s2) p); [by eapply shows_append|].
  unfold path_of in Hp2. destruct (st_objects s2 !! p) as [o|] eqn:Ho; [|done].
  unfold open_db. rewrite is_open_update, Ho. destruct (decide (p = p)); [|done]. simpl. by destruct (o_opened o) eqn:E.
Qed.

Lemma handle_refines oc c s m :
  shows s m -> shows (handle oc c s).1 (api oc c m).1 /\ rs_code (handle oc c s).2 = (api oc c m).2.
Proof. destruct c; [apply register_refines|apply unregister_refines|apply start_refines|apply stop_refines]. Qed.

(** ** Requests that only read *)

Lemma dbs_listed monitored s ps : dbs s = Some <$> ps ->
  handleList monitored s = (fun p => (default "" (path_of s p), list_status monitored s p)) <$> ps.
Proof. intros Hd. unfold handleList. rewrite Hd. clear Hd. induction ps as [|p ps IH]; [done|]. simpl. by f_equal. Qed.

Lemma list_status_stopped monitored s p : list_status monitored s p = "stopped" <-> is_open s p = false.
Proof. unfold list_status. destruct (is_open s p), (monitored p); done. Qed.

Lemma list_shows monitored s m : shows s m ->
  (forall path st, In (path, st) (handleList monitored s) -> m !! path = Some (negb (bool_decide (st = "stopped")))) /\
  (forall path b, m !! path = Some b -> exists st, In (path, st) (handleList monitored s)) /\
  NoDup (fst <$> handleList monitored s) /\ handleInfo_DatabaseCount s = size m.
Proof.
  intros (ps & Hr & Hm). pose proof Hr as (Hd & Hnd & Hob & _). rewrite (dbs_listed monitored s ps Hd).
  assert (forall p, In p ps -> path_of s p = Some (default "" (path_of s p))) as Hpath.
  { intros p Hp. destruct (Hob p Hp) as [o Ho]. unfold path_of. by rewrite Ho. }
  assert (NoDup ((fun p => default "" (path_of s p)) <$> ps)) as Hnd2.
  { apply (NoDup_fmap_1 Some). rewrite <- list_fmap_compose. erewrite list_fmap_ext; [exact Hnd|].
    intros i p Hp. symmetry. apply Hpath. by eapply in_lookup. }
  split; [|split; [|split]].
  - intros path st (p & Heq & Hp)%list_elem_of_In%list_elem_of_fmap. injection Heq as -> ->. apply list_elem_of_In in Hp.
    apply Hm. exists p. split; [done|]. split; [by apply Hpath|]. pose proof (list_status_stopped monitored s p) as Hst.
    case_bool_decide as Hb; [by apply Hst|]. destruct (is_open s p); [done|]. exfalso. by apply Hb, Hst.
  - intros path b (p & Hp & Hpp & Ho)%Hm. exists (list_status monitored s p). apply list_elem_of_In, list_elem_of_fmap.
    exists p. split; [by rewrite Hpp|by apply list_elem_of_In].
  - by rewrite <- list_fmap_compose.
  - unfold handleInfo_DatabaseCount. rewrite Hd, length_fmap. rewrite <- size_dom.
    rewrite <- (length_fmap (fun p => default "" (path_of s p)) ps). rewrite <- (size_list_to_set (C := gset string) _ Hnd2). f_equal.
    apply set_eq. intros path. rewrite elem_of_list_to_set, elem_of_dom, list_elem_of_fmap. split.
    + intros (p & -> & Hp%list_elem_of_In). exists (is_open s p). apply Hm. exists p. split; [done|]. split; [by apply Hpath|done].
    + intros [b (p & Hp & Hpp & _)%Hm]. exists p. rewrite Hpp. split; [done|by apply list_elem_of_In].
Qed.

Lemma found_shows s m path : shows s m -> found s path = m !! path.
Proof.
  intros (ps & Hr & Hm). unfold found, FindDB.
  by destruct (shows_lookup s m ps path Hr Hm) as [(j & p & -> & _ & _ & _ & ->)|[-> ->]].
Qed.

(** ** Sequences of requests *)

Fixpoint serve (l : list (outcome * command)) (s : Store) : Store * list Z :=
  match l with
  | [] => (s, [])
  | (oc, c) :: l =>
      let '(s, r) := handle oc c s in
      let '(s, codes) := serve l s in (s, rs_code r :: codes)
  end.
Fixpoint serve_api (l : list (outcome * command)) (m : gmap string bool) : gmap string bool * list Z :=
  match l with
  | [] => (m, [])
  | (oc, c) :: l =>
      let '(m, code) := api oc c m in
      let '(m, codes) := serve_api l m in (m, code :: codes)
  end.

Lemma serve_refines l s m : shows s m -> shows (serve l s).1 (serve_api l m).1 /\ (serve l s).2 = (serve_api l m).2.
Proof.
  revert s m. induction l as [|[oc c] l IH]; intros s m Hs; cbn [serve serve_api]; [done|].
  destruct (handle_refines oc c s m Hs) as [Hs' Hc]. destruct (handle oc c s) as [s' r], (api oc c m) as [m' code]. cbn [fst snd] in *.
  destruct (IH s' m' Hs') as [Hs2 Hc2]. destruct (serve l s') as [s2 cs], (serve_api l m') as [m2 cs2]. cbn [fst snd] in *. split; [done|]. by f_equal.
Qed.

(** The control server implements a map from paths to whether the database is open.
    Any sequence of register, unregister, start and stop requests, served one after
    the other with any failures of opening, closing, contexts and URLs, answers with
    the codes of the abstract map and leaves a store that shows it: afterwards lookups
    agree with the map, the listing has exactly its paths, each once, "stopped" exactly
    when it is closed, and the reported number of databases is its size. *)
Theorem control_api_refines monitored l s m :
  shows s m ->
  let '(s', codes) := serve l s in
  let '(m', codes') := serve_api l m in
  codes = codes' /\ (forall path, found s' path = m' !! path) /\
  (forall path st, In (path, st) (handleList monitored s') -> m' !! path = Some (negb (bool_decide (st = "stopped")))) /\
  (forall path b, m' !! path = Some b -> exists st, In (path, st) (handleList monitored s')) /\
  NoDup (fst <$> handleList monitored s') /\ handleInfo_DatabaseCount s' = size m'.
Proof.
  intros Hs. destruct (serve_refines l s m Hs) as [Hs' Hc]. destruct (serve l s) as [s' codes], (serve_api l m) as [m' codes']. cbn [fst snd] in *.
  split; [done|]. split; [intros path; by apply found_shows|]. by apply list_shows.
Qed.

(** ** Syncs *)
Section Sync.
Context {C : Type} `{RC : ReplicaClient C} `{LTXFormat} `{SQLite} {identity recipient : Type}.
Variable age_Encrypt : list recipient -> result (list byte -> list byte * option error).
Variable age_flushed : list recipient -> list byte -> list byte.
Variable raw : result ltxFile -> list byte.
Variable cfg : ReplicaConfig identity recipient.
Variable LockPgno : Z -> Z.
Variable enc_N : ltxFile -> Z.

(** A sync request of a path that is not registered is answered 404 and one of a closed
    database 409, both without touching the database or the storage; 200 is only
    answered for an open database. *)
Theorem sync_codes e0 e eu locked others dbcfg fs d modTime pos cl now path p wait s m :
  shows s m -> path <> "" -> expandPath path = Ok p ->
  let sync f w := SyncDB age_Encrypt age_flushed raw cfg LockPgno enc_N f w e0 e eu locked others dbcfg fs d modTime pos cl now in
  let r := handleSync sync (d, fs, pos, cl) path wait s in
  (m !! p = None -> r = ((d, fs, pos, cl), mkResponse StatusNotFound "error")) /\
  (m !! p = Some false -> r = ((d, fs, pos, cl), mkResponse StatusConflict "error")) /\
  (rs_code r.2 = StatusOK -> m !! p = Some true).
Proof.
  intros Hs Hne Hx sync r. unfold r, handleSync. rewrite bool_decide_eq_false_2 by done. rewrite Hx, (found_shows s m p Hs).
  destruct (m !! p) as [[|]|]; split_and!; try done.
Qed.
End Sync.
End Server.

Module ServerDemo.
Definition failing : outcome := mkOutcome (Some (EMsg "open")) (Some (EMsg "close")) None None.
Definition shown0 : gmap string bool := {["a" := true; "b" := true]}.
(** Stop, start and stop one; register another, once with failures; unregister. *)
Definition requests : list (outcome * command) :=
  [(StoreDemo.calm, CStop "a"); (failing, CStart "a"); (StoreDemo.calm, CStart "a"); (StoreDemo.calm, CStart "a"); (failing, CRegister "d" "file:///d");
   (StoreDemo.calm, CRegister "d" "file:///d"); (failing, CUnregister "b"); (StoreDemo.calm, CStop "b"); (StoreDemo.calm, CRegister "" "x")].

Lemma shows0 : shows StoreDemo.store0 shown0.
Proof.
  exists [0%nat; 1%nat]. split; [exact StoreDemo.registry0|]. intros path b. unfold shown0. split.
  - intros [[<- <-]|[Hne [<- <-]%lookup_singleton_Some]]%lookup_insert_Some; [exists 0%nat|exists 1%nat]; (split; [simpl; tauto|]); split; vm_compute; reflexivity.
  - intros (p & [<-|[<-|[]]] & Hp & Hb); vm_compute in Hp, Hb; injection Hp as <-; subst b; reflexivity.
Qed.
End ServerDemo.

Lemma control_api_refines_witness :
  serve_api None (fun _ => None) ServerDemo.requests ServerDemo.shown0 = ({["a" := true; "d" := true]}, [200; 500; 200; 500; 500; 200; 500; 500; 400]) /\
  (serve StoreDemo.grow None (fun _ => None) StoreDemo.cfg0 ServerDemo.requests StoreDemo.store0).2 = [200; 500; 200; 500; 500; 200; 500; 500; 400].
Proof.
  assert (serve_api None (fun _ => None) ServerDemo.requests ServerDemo.shown0 = ({["a" := true; "d" := true]}, [200; 500; 200; 500; 500; 200; 500; 500; 400])) as Ha
    by (vm_compute; reflexivity).
  split; [exact Ha|].
  pose proof (control_api_refines StoreDemo.grow None (fun _ => None) StoreDemo.cfg0 (fun _ => true) ServerDemo.requests StoreDemo.store0 ServerDemo.shown0 ServerDemo.shows0) as HT.
  destruct (serve StoreDemo.grow None (fun _ => None) StoreDemo.cfg0 ServerDemo.requests StoreDemo.store0) as [s' codes].
  rewrite Ha in HT. exact (proj1 HT).
Defined.
