(* ===== verification/Restore.v ===== *)
(** * Restoring a database

    Model of [Restore], [RestoreV3], [downloadSnapshotV3] and [checkIntegrity] in
    src/replica.go: the plan (RestorePlan.v) is opened through the replica, merged by the
    ltx package into a temporary file and renamed into place.  Follow mode (Follow.v)
    starts from the result. *)

From Stdlib Require Import ZArith Lia Strings.Byte.
From stdpp Require Import base numbers list strings gmap sorting.
From S2P Require Import Prelude WalReader Ltx Streams RestorePlan Compactor Replica V3 Db PageIndex Pipeline.
From S2P Require Follow.
Local Open Scope Z_scope.

(** ** Options, files and what can fail *)

Record RestoreOptions := mkRestoreOptions {
  OutputPath : string; ro_TXID : TXID; ro_Timestamp : time; ro_Parallelism : Z;
  ro_Follow : bool; ro_FollowInterval : duration; ro_IntegrityCheck : Z
}.

Definition IntegrityCheckNone : Z := 0.
Definition IntegrityCheckQuick : Z := 1.
Definition IntegrityCheckFull : Z := 2.
Definition valid_mode (mode : Z) : bool :=
  negb (negb (mode =? IntegrityCheckNone) && negb (mode =? IntegrityCheckQuick) && negb (mode =? IntegrityCheckFull)).

Definition DefaultRestoreParallelism : Z := 8.
Definition DefaultFollowInterval : duration := Second.
Definition NewRestoreOptions : RestoreOptions := mkRestoreOptions "" 0 0 DefaultRestoreParallelism false DefaultFollowInterval 0.

(** The files of a restore: the output, its temporary file and the WAL beside that, and
    the TXID file of follow mode. *)
Record disk := mkDisk { dk_out : option (list byte); dk_tmp : option (list byte); dk_tmpwal : option (list byte); dk_txid : option TXID }.
Definition set_out (x : option (list byte)) (d : disk) : disk := mkDisk x (dk_tmp d) (dk_tmpwal d) (dk_txid d).
Definition set_tmp (x : option (list byte)) (d : disk) : disk := mkDisk (dk_out d) x (dk_tmpwal d) (dk_txid d).
Definition set_tmpwal (x : option (list byte)) (d : disk) : disk := mkDisk (dk_out d) (dk_tmp d) x (dk_txid d).
Definition set_txid (x : option TXID) (d : disk) : disk := mkDisk (dk_out d) (dk_tmp d) (dk_tmpwal d) x.

Inductive rop := RStatFollow | RReadTXID | RStat | RMkdir | RCreate | RSync | RClose | RRename | RSqlOpen.

(** The surroundings of a call: failing operations, the answer of SQLite's integrity
    pragma ([true]: the full one), and whether the context is done by then. *)
Record renv := mkREnv {
  re_fault : rop -> option error;
  re_pragma : bool -> list byte -> result string;
  re_cancelled : bool;
  re_sidecar : nat -> option error
}.

Definition rio (e : renv) (op : rop) : result () := match re_fault e op with Some err => Err err | None => Ok () end.

(** [os.Stat] of the output path: whether it exists. *)
Definition stat_out (e : renv) (op : rop) (d : disk) : result bool :=
  match re_fault e op with
  | Some err => if os_IsNotExist err then Ok false else Err err
  | None => Ok (bool_decide (is_Some (dk_out d)))
  end.

Definition checkIntegrity (e : renv) (mode : Z) (db : list byte) : result () :=
  if mode =? IntegrityCheckNone then Ok () else
  _ ← rio e RSqlOpen wrapping "open database for integrity check";
  full ← (if mode =? IntegrityCheckQuick then Ok false else if mode =? IntegrityCheckFull then Ok true
          else Err (EMsg "unsupported integrity check mode"));
  res ← re_pragma e full db wrapping "integrity check";
  if bool_decide (res = "ok") then Ok () else Err (EMsg ("integrity check failed: " +:+ res)).

(** The check after the rename: a database that fails it is removed, unless the context
    is done. *)
Definition check_restored (e : renv) (mode : Z) (db : list byte) (d : disk) : disk * result () :=
  if mode =? IntegrityCheckNone then (d, Ok ()) else
  match checkIntegrity e mode db with
  | Ok () => (d, Ok ())
  | Err err => (if re_cancelled e then d else set_out None d, Err (EWrap "post-restore integrity check" err))
  | Panic m => (d, Panic m)
  end.

(** ** Restoring LTX files *)
Section Restore.
Context {C : Type} `{RC : ReplicaClient C} `{RC3 : ReplicaClientV3 C} `{FS : FileInfoSliceOps} `{LF : LTXFormat}.
Context {identity recipient : Type}.
Variable age_Decrypt : list identity -> Reader -> result Reader.
Variable cfg : ReplicaConfig identity recipient.
(** The ltx package: [Compactor] piped into [DecodeDatabaseTo] a file, which yields the
    bytes written and the error. *)
Variable decode_database : list Reader -> list byte * option error.
(** The size of the reads of the ltx package. *)
Variable chunk : Z.
(** Whether the client is a [ReplicaClientV3]. *)
Variable v3 : bool.
Variable checkpointV3 : list byte -> list byte -> result (list byte * list byte).

(** *** Readers that resume *)

(** A connection delivers the rest of its data, then its error or the end. *)
Definition rd_Read (rd : Reader) (n : Z) : list byte * option error * Reader :=
  if bool_decide (rd_data rd = []) then ([], Some (default io_EOF (rd_err rd)), rd)
  else (take (Z.to_nat n) (rd_data rd), None, mkReader (drop (Z.to_nat n) (rd_data rd)) (rd_err rd)).
Definition reopen (cl : C) (info : FileInfo) (w : ()) (off : Z) : () * result Reader :=
  (w, OpenLTXFile cl (Level info) (MinTXID info) (MaxTXID info) off 0).

(** What a [ResumableReader] on the file delivers when it is read to its end; every
    read but the last delivers a byte of the file. *)
Definition resumable (cl : C) (info : FileInfo) (rc : Reader) : Reader :=
  match Resumable.read_all (reopen cl info) rd_Read (S (Z.to_nat (FSize info))) () (Resumable.NewResumableReader (FSize info) rc) chunk [] with
  | Some (b, err) => mkReader b err
  | None => mkReader [] (Some (EMsg "out of fuel"))
  end.

Fixpoint open_plan (cl : C) (infos : list FileInfo) : result (list Reader) :=
  match infos with
  | [] => Ok []
  | info :: infos =>
      if FSize info <? HeaderSize then Err (EMsg "invalid ltx file") else
      f ← r_OpenLTXFile age_Decrypt cfg cl (Level info) (MinTXID info) (MaxTXID info) 0 0 wrapping "open ltx file";
      rdrs ← open_plan cl infos;
      Ok ((if DecryptionEnabled cfg then f else resumable cl info f) :: rdrs)
  end.

(** From the opened files to the renamed database. *)
Definition write_database (e : renv) (rdrs : list Reader) (d : disk) : disk * result (list byte) :=
  match (_ ← rio e RMkdir wrapping "create parent directory"; rio e RCreate wrapping "create temp database path") with
  | Err err => (d, Err err)
  | Panic m => (d, Panic m)
  | Ok _ =>
      let '(b, err) := decode_database rdrs in
      let d := set_tmp (Some b) d in
      match err with
      | Some err => (d, Err (EWrap "decode database" err))
      | None =>
          match (_ ← rio e RSync; _ ← rio e RClose; rio e RRename) with
          | Err err => (d, Err err)
          | Panic m => (d, Panic m)
          | Ok _ => (set_out (Some b) (set_tmp None d), Ok b)
          end
      end
  end.

(** [WriteTXIDFile] beside the output. *)
Definition write_txid (e : renv) (txid : TXID) (d : disk) : disk * result () :=
  let '(w, r) := Follow.WriteTXIDFile (re_sidecar e) (Follow.mkWorld (Follow.mkFile ∅ 0) (dk_txid d) 0) txid in
  (set_txid (Follow.w_saved w) d, r).

(** The LTX part of [Restore].  [Ok (Some t)]: follow mode starts at transaction [t]. *)
Definition restore_ltx (e : renv) (opt : RestoreOptions) (cl : C) (d : disk) : disk * result (option TXID) :=
  match CalcRestorePlan cl (ro_TXID opt) (ro_Timestamp opt) wrapping "cannot calc restore plan" with
  | Err err => (d, Err err)
  | Panic m => (d, Panic m)
  | Ok infos =>
      match last infos with
      | None => (d, Panic "index out of range")
      | Some info =>
          match open_plan cl infos with
          | Err err => (d, Err err)
          | Panic m => (d, Panic m)
          | Ok [] => (d, Err (EMsg "no matching backup files available"))
          | Ok rdrs =>
              match write_database e rdrs d with
              | (d, Err err) => (d, Err err)
              | (d, Panic m) => (d, Panic m)
              | (d, Ok b) =>
                  match check_restored e (ro_IntegrityCheck opt) b d with
                  | (d, Err err) => (d, Err err)
                  | (d, Panic m) => (d, Panic m)
                  | (d, Ok _) =>
                      if ro_Follow opt then
                        match write_txid e (MaxTXID info) d with
                        | (d, Ok _) => (d, Ok (Some (MaxTXID info)))
                        | (d, Err err) => (d, Err (EWrap "write initial txid file" err))
                        | (d, Panic m) => (d, Panic m)
                        end
                      else (d, Ok None)
                  end
              end
          end
      end
  end.

(** ** Restoring v0.3.x backups *)

Definition open_v3 (rc : result Reader) (text : string) : result Reader :=
  rc ← rc;
  if DecryptionEnabled cfg then DecryptIfSealed rc (age_Decrypt (AgeIdentities cfg)) wrapping text else Ok rc.

Definition downloadSnapshotV3 (e : renv) (cl : C) (generation : string) (index : Z) (d : disk) : disk * result () :=
  match open_v3 (OpenSnapshotV3 cl generation index) "age decrypt snapshot" with
  | Err err => (d, Err err)
  | Panic m => (d, Panic m)
  | Ok rd =>
      match rio e RCreate with
      | Ok _ => (set_tmp (Some (rd_data rd)) d, match rd_err rd with Some err => Err err | None => rio e RSync end)
      | r => (d, r)
      end
  end.

Definition read_segment (cl : C) (generation : string) (seg : WALSegmentInfoV3) : result Reader :=
  open_v3 (OpenWALSegmentV3 cl generation (w_Index seg) (w_Offset seg)) "age decrypt WAL segment".

(** The WAL file that is left when the replay stops; a file that was never opened is
    left empty. *)
Fixpoint left_wal (cl : C) (gen : string) (st : replay) (segments : list WALSegmentInfoV3) : list byte :=
  match segments with
  | [] => match applyLastWalFile checkpointV3 st with Ok st => rp_wal st | _ => rp_wal st end
  | seg :: segments =>
      match (if w_Offset seg =? 0
             then st ← applyLastWalFile checkpointV3 st; Ok (mkReplay (rp_db st) (rp_wal st) (Some 0%nat))
             else Ok st) with
      | Ok st =>
          match appendWALSegmentV3 (read_segment cl gen) st seg with
          | Ok st => left_wal cl gen st segments
          | _ => match read_segment cl gen seg, rp_f st with
                 | Ok rd, Some off => write_at (rp_wal st) off (rd_data rd)
                 | _, _ => rp_wal st
                 end
          end
      | _ => rp_wal st
      end
  end.

(** All snapshots of the generations; the messages differ from those of the choice
    between the formats. *)
Fixpoint v3_snapshots (cl : C) (generations : list string) : result (list SnapshotInfoV3) :=
  match generations with
  | [] => Ok []
  | gen :: generations =>
      snapshots ← SnapshotsV3 cl gen wrapping "list snapshots for generation";
      rest ← v3_snapshots cl generations;
      Ok (snapshots ++ rest)
  end.

(** The snapshot and the segments to restore. *)
Definition v3_plan (cl : C) (timestamp : time) : result (SnapshotInfoV3 * list WALSegmentInfoV3) :=
  generations ← GenerationsV3 cl wrapping "list generations";
  if bool_decide (length generations = 0%nat) then Err ErrNoSnapshots else
  allSnapshots ← v3_snapshots cl generations;
  if bool_decide (length allSnapshots = 0%nat) then Err ErrNoSnapshots else
  match findBestSnapshotV3 (sortSnapshotsV3ByCreatedAt allSnapshots) timestamp with
  | None => Err ErrNoSnapshots
  | Some snapshot =>
      segments ← WALSegmentsV3 cl (s_Generation snapshot) wrapping "list WAL segments";
      Ok (snapshot, filterWALSegmentsV3 segments (s_Index snapshot) timestamp)
  end.

(** The files once the snapshot and the segments are known; the temporary file is removed
    on every way out, the WAL beside it is not. *)
Definition restore_v3_files (e : renv) (cl : C) (snapshot : SnapshotInfoV3) (segments : list WALSegmentInfoV3) (d : disk) : disk * result (list byte) :=
  match downloadSnapshotV3 e cl (s_Generation snapshot) (s_Index snapshot) d with
  | (d, Err err) => (set_tmp None d, Err (EWrap "download snapshot" err))
  | (d, Panic m) => (set_tmp None d, Panic m)
  | (d, Ok _) =>
      let st := mkReplay (default [] (dk_tmp d)) (default [] (dk_tmpwal d)) None in
      match applyWALSegmentsV3 checkpointV3 (read_segment cl (s_Generation snapshot)) st segments with
      | Err err => (set_tmp None (set_tmpwal (Some (left_wal cl (s_Generation snapshot) st segments)) d), Err (EWrap "apply WAL segments" err))
      | Panic m => (set_tmp None d, Panic m)
      | Ok st =>
          let d := if bool_decide (length segments = 0%nat) then d else set_tmpwal (Some (rp_wal st)) d in
          match rio e RRename with
          | Ok _ => (set_out (Some (rp_db st)) (set_tmp None d), Ok (rp_db st))
          | Err err => (set_tmp None d, Err (EWrap "rename to output path" err))
          | Panic m => (set_tmp None d, Panic m)
          end
      end
  end.

Definition RestoreV3 (e : renv) (opt : RestoreOptions) (cl : C) (d : disk) : disk * result () :=
  if negb v3 then (d, Err (EMsg "replica client does not support v0.3.x restore"))
  else if bool_decide (OutputPath opt = "") then (d, Err (EMsg "output path required"))
  else if negb (valid_mode (ro_IntegrityCheck opt)) then (d, Err (EMsg "unsupported integrity check mode"))
  else
    match stat_out e RStat d with
    | Err err => (d, Err err)
    | Panic m => (d, Panic m)
    | Ok true => (d, Err (EMsg "cannot restore, output path already exists"))
    | Ok false =>
        match (plan ← v3_plan cl (ro_Timestamp opt); _ ← rio e RMkdir wrapping "create parent directory"; Ok plan) with
        | Err err => (d, Err err)
        | Panic m => (d, Panic m)
        | Ok (snapshot, segments) =>
            match restore_v3_files e cl snapshot segments d with
            | (d, Ok b) => check_restored e (ro_IntegrityCheck opt) b d
            | (d, Err err) => (d, Err err)
            | (d, Panic m) => (d, Panic m)
            end
        end
    end.

(** ** [Restore] *)

Definition validate_options (opt : RestoreOptions) : result () :=
  if bool_decide (OutputPath opt = "") then Err (EMsg "output path required")
  else if negb (ro_TXID opt =? 0) && negb (time_IsZero (ro_Timestamp opt)) then Err (EMsg "cannot specify index & timestamp to restore")
  else if ro_Follow opt && negb (ro_TXID opt =? 0) then Err (EMsg "cannot use follow mode with -txid")
  else if ro_Follow opt && negb (time_IsZero (ro_Timestamp opt)) then Err (EMsg "cannot use follow mode with -timestamp")
  else if negb (valid_mode (ro_IntegrityCheck opt)) then Err (EMsg "unsupported integrity check mode")
  else Ok ().

(** Crash recovery of follow mode; the database file itself is not read. *)
Definition resume (e : renv) (cl : C) (d : disk) : result TXID :=
  _ ← rio e RReadTXID wrapping "read txid file for crash recovery";
  Follow.resume_follow cl (Follow.mkWorld (Follow.mkFile ∅ 0) (dk_txid d) 0).

Definition Restore (e : renv) (opt : RestoreOptions) (cl : C) (d : disk) : disk * result (option TXID) :=
  match validate_options opt with
  | Err err => (d, Err err)
  | Panic m => (d, Panic m)
  | Ok _ =>
      if ro_Follow opt && match re_fault e RStatFollow with None => bool_decide (is_Some (dk_out d)) | Some _ => false end
      then (d, t ← resume e cl d; Ok (Some t))
      else
        match stat_out e RStat d with
        | Err err => (d, Err err)
        | Panic m => (d, Panic m)
        | Ok true => (d, Err (EMsg "cannot restore, output path already exists"))
        | Ok false =>
            match (if (ro_TXID opt =? 0) && negb (ro_Follow opt) && v3 then shouldUseV3Restore cl (ro_Timestamp opt) else Ok false) with
            | Err err => (d, Err err)
            | Panic m => (d, Panic m)
            | Ok true => let '(d, r) := RestoreV3 e opt cl d in (d, _ ← r; Ok None)
            | Ok false => restore_ltx e opt cl d
            end
        end
  end.
End Restore.

(** ** What the packages promise *)

(** Page [p] of a database file. *)
Definition db_pages (ps : Z) (b : list byte) (p : Z) : option (list byte) :=
  if (1 <=? p) && (p * ps <=? Z.of_nat (length b)) then Some (slice b ((p - 1) * ps) ps) else None.

(** The pages of files that are compacted: the newest of each, up to the size of the
    last file. *)
Fixpoint newest (gs : list ltxFile) (p : Z) : option (list byte) :=
  match gs with
  | [] => None
  | g :: gs => match newest gs p with Some data => Some data | None => lookup_page p (lf_pages g) end
  end.
Definition merge (gs : list ltxFile) (p : Z) : option (list byte) :=
  match last gs with
  | Some g => if (1 <=? p) && (p <=? lf_Commit g) then newest gs p else None
  | None => None
  end.

(** The ltx package accepts only complete LTX streams, and decodes the compacted files
    into their pages.  SQLite's lock page is not part of a file. *)
Class MergeLaws `{LTXFormat} (LockPgno : Z -> Z) (decode_database : list Reader -> list byte * option error) := {
  decode_complete rdrs b : decode_database rdrs = (b, None) ->
    Forall (fun rd => rd_err rd = None) rdrs /\ exists gs, rd_data <$> rdrs = EncodeLTX <$> gs;
  decode_merge rdrs b gs ps : decode_database rdrs = (b, None) -> rd_data <$> rdrs = EncodeLTX <$> gs ->
    Forall (fun g => lf_PageSize g = ps) gs -> forall p, p <> LockPgno ps -> db_pages ps b p = merge gs p
}.

(** A storage delivers its objects from an offset; a stream that is cut short says so. *)
Class OpenLaws (C : Type) `{StorageLaws C} := {
  OpenLTXFile_data c level lo hi off rd : 0 <= off -> OpenLTXFile c level lo hi off 0 = Ok rd ->
    exists x, stored c level lo hi = Some x /\ rd_data rd `prefix_of` drop (Z.to_nat off) x /\
      (rd_err rd = None -> rd_data rd = drop (Z.to_nat off) x)
}.

(** The age package: sealed streams start with its header, and decryption ends without an
    error only when it has read all of one. *)
Class AgeLaws {identity recipient : Type} (age_Encrypt : list recipient -> result (list byte -> list byte * option error))
    (age_Decrypt : list identity -> Reader -> result Reader) (ids : list identity) (rcpts : list recipient) := {
  age_intro ew b x : age_Encrypt rcpts = Ok ew -> ew b = (x, None) -> exists ct, x = ageStreamIntro_bytes ++ ct;
  age_sound ew b x rd rd' : age_Encrypt rcpts = Ok ew -> ew b = (x, None) -> rd_data rd `prefix_of` x ->
    (rd_err rd = None -> rd_data rd = x) -> age_Decrypt ids rd = Ok rd' -> rd_err rd' = None -> rd_data rd' = b
}.

(** ** A backup of a history *)
Section Backup.
Context `{LF : LTXFormat}.
Variable LockPgno : Z -> Z.
(** [H t p] is page [p] after transaction [t]. *)
Variable H : TXID -> Z -> option (list byte).
Variable ps : Z.

(** A file of the transactions [lo] to [hi]: the pages that changed, as they are after
    [hi], and the size. *)
Record good_file (lo hi : TXID) (g : ltxFile) : Prop := {
  gf_ps : lf_PageSize g = ps;
  gf_page p data : lookup_page p (lf_pages g) = Some data -> H hi p = Some data;
  gf_size p : p <> LockPgno ps -> is_Some (H hi p) <-> 1 <= p <= lf_Commit g;
  gf_rest p k : lookup_page p (lf_pages g) = None -> lo - 1 <= k < hi -> is_Some (H hi p) -> H k p = H hi p
}.

(** The files of a chain merge to the database after the last. *)
Lemma newest_chain infos gs cur T p :
  chain cur infos T -> Forall2 (fun info g => good_file (MinTXID info) (MaxTXID info) g) infos gs -> is_Some (H T p) ->
  H T p = match newest gs p with Some data => Some data | None => H cur p end.
Proof.
  revert gs cur. induction infos as [|info infos IH]; intros gs cur Hc HF Hp.
  { apply Forall2_nil_inv_l in HF as ->. cbn in Hc. by subst. }
  apply Forall2_cons_inv_l in HF as (g & gs' & Hg & HF & ->). destruct Hc as (Hmin & Hmax & Hc). cbn [newest].
  specialize (IH gs' _ Hc HF Hp). destruct (newest gs' p) as [data|]; [done|].
  destruct (lookup_page p (lf_pages g)) as [data|] eqn:Hl; [by rewrite IH; apply (gf_page _ _ _ Hg)|].
  rewrite IH. symmetry. apply (gf_rest _ _ _ Hg p); [done|lia|by rewrite <- IH].
Qed.

Lemma chain_ends infos cur T info : chain cur (infos ++ [info]) T -> MaxTXID info = T.
Proof. revert cur. induction infos as [|i infos IH]; intros cur; cbn [app chain]; [tauto|]. intros (_ & _ & Hc). by eapply IH. Qed.

Lemma merge_chain infos gs T p :
  chain 0 infos T -> infos <> [] -> Forall2 (fun info g => good_file (MinTXID info) (MaxTXID info) g) infos gs ->
  (forall q, H 0 q = None) -> p <> LockPgno ps -> merge gs p = H T p.
Proof.
  intros Hc Hne HF H0 Hp. destruct (exists_last Hne) as (infos' & info & ->).
  pose proof (chain_ends _ _ _ _ Hc) as Hmax.
  pose proof HF as HF0. apply Forall2_app_inv_l in HF0 as (gs' & gl & HF' & Hlast & ->).
  apply Forall2_cons_inv_l in Hlast as (g & gn & Hg & Hnil & ->). apply Forall2_nil_inv_l in Hnil as ->.
  unfold merge. rewrite last_snoc. rewrite Hmax in Hg. pose proof (gf_size _ _ _ Hg p Hp) as Hs.
  destruct (Z.leb_spec 1 p), (Z.leb_spec p (lf_Commit g)); cbn [andb].
  - rewrite (newest_chain _ _ _ _ p Hc HF) by (apply Hs; lia). rewrite H0. by destruct (newest (gs' ++ [g]) p).
  - symmetry. apply eq_None_not_Some. rewrite Hs. lia.
  - symmetry. apply eq_None_not_Some. rewrite Hs. lia.
  - symmetry. apply eq_None_not_Some. rewrite Hs. lia.
Qed.
End Backup.

(** ** Restores are exact *)
Section Exact.
Context {C : Type} `{SL : StorageLaws C} `{OL : !OpenLaws C} `{RC3 : ReplicaClientV3 C} `{FI : FileInfoSliceLaws} `{LF : LTXFormat}.
Context {identity recipient : Type}.
Variable age_Encrypt : list recipient -> result (list byte -> list byte * option error).
Variable age_Decrypt : list identity -> Reader -> result Reader.
Variable cfg : ReplicaConfig identity recipient.
Variable LockPgno : Z -> Z.
Variable decode_database : list Reader -> list byte * option error.
Context `{ML : !MergeLaws LockPgno decode_database} `{AL : !AgeLaws age_Encrypt age_Decrypt (AgeIdentities cfg) (AgeRecipients cfg)}.
Variable chunk : Z.
Variable checkpointV3 : list byte -> list byte -> result (list byte * list byte).
Variable page_at : TXID -> Z -> option (list byte).
Variable ps : Z.
(** LTX streams do not start like age streams. *)
Hypothesis ltx_not_sealed : forall g ct, EncodeLTX g <> ageStreamIntro_bytes ++ ct.

(** An object holds the stream [b], as it is or sealed. *)
Definition object_of (b x : list byte) : Prop := x = b \/ exists ew, age_Encrypt (AgeRecipients cfg) = Ok ew /\ ew b = (x, None).

(** The storage is a backup of the history: every object is a file of its transactions,
    snapshots start at the first, and listings show the sizes. *)
Record backup (cl : C) : Prop := {
  bk_object level lo hi x : 0 <= level <= SnapshotLevel -> stored cl level lo hi = Some x ->
    exists g, object_of (EncodeLTX g) x /\ good_file LockPgno page_at ps lo hi g /\ 1 <= hi /\ (level = SnapshotLevel -> lo <= 1);
  bk_size um level f x : In f (level_files cl um level) -> stored cl level (MinTXID f) (MaxTXID f) = Some x ->
    FSize f = Z.of_nat (length x)
}.

(** *** Readers *)

Lemma rd_Read_at (x : list byte) c off n b err c' :
  (0 <= off /\ rd_data c `prefix_of` drop (Z.to_nat off) x) -> rd_Read c n = (b, err, c') ->
  b = slice x off (Z.of_nat (length b)) /\ Z.of_nat (length b) <= Z.max 0 n /\
  0 <= off + Z.of_nat (length b) /\ rd_data c' `prefix_of` drop (Z.to_nat (off + Z.of_nat (length b))) x.
Proof.
  intros [Hoff [k Hk]]. unfold rd_Read. case_bool_decide as Hd.
  - intros [= <- <- <-]. split_and!; [done|simpl; lia|simpl; lia|]. rewrite Hd. apply prefix_nil.
  - intros [= <- <- <-]. cbn [rd_data]. set (m := length (take (Z.to_nat n) (rd_data c))).
    assert (m <= length (rd_data c))%nat as Hm by (unfold m; rewrite length_take; lia).
    assert (take (Z.to_nat n) (rd_data c) = take m (rd_data c)) as Ht
      by (unfold m; rewrite length_take; destruct (Nat.min_spec (Z.to_nat n) (length (rd_data c))) as [[? ->]|[? ->]]; [done|]; rewrite !take_ge by lia; done).
    assert (drop (Z.to_nat n) (rd_data c) = drop m (rd_data c)) as Hdr
      by (unfold m; rewrite length_take; destruct (Nat.min_spec (Z.to_nat n) (length (rd_data c))) as [[? ->]|[? ->]]; [done|]; rewrite !drop_ge by lia; done).
    split_and!.
    + rewrite Ht. unfold slice. rewrite Nat2Z.id, Hk. by rewrite take_app_le by lia.
    + unfold m. rewrite length_take. lia.
    + lia.
    + rewrite Hdr, Z2Nat.inj_add, Nat2Z.id, <- drop_drop, Hk by lia. exists k. by rewrite drop_app_le by lia.
Qed.

Lemma resumable_data cl info rc x :
  stored cl (Level info) (MinTXID info) (MaxTXID info) = Some x -> FSize info = Z.of_nat (length x) -> 0 < FSize info ->
  rd_data rc `prefix_of` x -> rd_err (resumable chunk cl info rc) = None -> rd_data (resumable chunk cl info rc) = x.
Proof.
  intros Hx Hs Hpos Hrc. unfold resumable. destruct (Resumable.read_all _ _ _ _ _ _ _) as [[b err]|] eqn:HR; cbn [rd_err rd_data]; [|done].
  intros ->. revert HR. apply (Resumable.read_all_spec (reopen cl info) rd_Read x (fun c off => 0 <= off /\ rd_data c `prefix_of` drop (Z.to_nat off) x)).
  - intros c off n b0 err c' Hc HR. by apply (rd_Read_at x c off n b0 err c' Hc) in HR.
  - intros w off w' c Hoff Ho. injection Ho as _ Ho. split; [done|].
    apply OpenLTXFile_data in Ho as (y & Hy & Hp & _); [|done]. rewrite Hx in Hy. by injection Hy as <-.
  - split; [simpl; lia|]. simpl. by rewrite drop_0.
  - done.
  - done.
  - done.
Qed.

Lemma sealed_prefix rd x : rd_data rd `prefix_of` x -> sealed rd = true -> exists ct, x = ageStreamIntro_bytes ++ ct.
Proof.
  intros [k ->] Hs. unfold sealed, sniff in Hs. apply bool_decide_eq_true in Hs.
  exists (drop (length ageStreamIntro_bytes) (rd_data rd) ++ k). rewrite app_assoc. f_equal. by rewrite <- Hs at 1; rewrite take_drop.
Qed.

(** An opened file delivers its plaintext, or an error. *)
Lemma opened_data cl info x g f :
  stored cl (Level info) (MinTXID info) (MaxTXID info) = Some x -> object_of (EncodeLTX g) x -> FSize info = Z.of_nat (length x) -> 0 < FSize info ->
  r_OpenLTXFile age_Decrypt cfg cl (Level info) (MinTXID info) (MaxTXID info) 0 0 = Ok f ->
  let rd := if DecryptionEnabled cfg then f else resumable chunk cl info f in
  rd_err rd = None -> rd_data rd = EncodeLTX g \/ exists ct, rd_data rd = ageStreamIntro_bytes ++ ct.
Proof.
  intros Hx Hobj Hs Hpos. unfold r_OpenLTXFile. destruct (OpenLTXFile cl _ _ _ 0 0) as [rc|e|m] eqn:HO; cbn [mbind result_bind]; [|done..].
  destruct (OpenLTXFile_data _ _ _ _ _ _ (Z.le_refl 0) HO) as (y & Hy & Hp & Hfull). rewrite Hx in Hy. injection Hy as <-. rewrite drop_0 in Hp, Hfull.
  destruct (DecryptionEnabled cfg) eqn:HD; cbn [negb].
  - intros HF' Herr.
    destruct (sealed rc) eqn:Hse.
    + rewrite DecryptIfSealed_sealed in HF' by done. destruct (age_Decrypt (AgeIdentities cfg) rc) as [rd|e|m] eqn:HA; [|done..]. injection HF' as <-.
      destruct Hobj as [->|(ew & He & Hw)]; [|left; by eapply age_sound].
      exfalso. destruct (sealed_prefix rc _ Hp Hse) as [ct Hct]. by apply ltx_not_sealed in Hct.
    + rewrite DecryptIfSealed_plain in HF' by done. injection HF' as <-. rewrite (Hfull Herr).
      destruct Hobj as [->|(ew & He & Hw)]; [by left|right]. by eapply age_intro.
  - intros [= ->] Herr. rewrite (resumable_data cl info f x Hx Hs Hpos Hp Herr).
    destruct Hobj as [->|(ew & He & Hw)]; [by left|right]. by eapply age_intro.
Qed.

Hypothesis HeaderSize_pos : 0 < HeaderSize.

Definition listed_file (cl : C) (info : FileInfo) : Prop :=
  exists um level, 0 <= level <= SnapshotLevel /\ In info (level_files cl um level).

Lemma backup_file cl info : backup cl -> listed_file cl info ->
  exists x g, stored cl (Level info) (MinTXID info) (MaxTXID info) = Some x /\ object_of (EncodeLTX g) x /\
    good_file LockPgno page_at ps (MinTXID info) (MaxTXID info) g /\ 1 <= MaxTXID info /\
    (Level info = SnapshotLevel -> MinTXID info <= 1) /\ FSize info = Z.of_nat (length x).
Proof.
  intros Hb (um & level & Hl & Hin). pose proof (level_files_level _ _ _ _ Hin) as HL.
  assert (is_Some (stored cl level (MinTXID info) (MaxTXID info))) as [x Hx] by (apply (stored_listed cl um); eauto).
  destruct (bk_object _ Hb level _ _ x Hl Hx) as (g & Ho & Hg & Hhi & Hs). exists x, g. rewrite HL.
  split_and!; try done. by eapply bk_size.
Qed.

Lemma open_plan_files cl infos rdrs :
  backup cl -> Forall (listed_file cl) infos -> open_plan age_Decrypt cfg chunk cl infos = Ok rdrs ->
  exists gs, Forall2 (fun info g => good_file LockPgno page_at ps (MinTXID info) (MaxTXID info) g) infos gs /\
    Forall2 (fun rd g => rd_err rd = None -> rd_data rd = EncodeLTX g \/ exists ct, rd_data rd = ageStreamIntro_bytes ++ ct) rdrs gs.
Proof.
  intros Hb. revert rdrs. induction infos as [|info infos IH]; intros rdrs HF; cbn [open_plan].
  { intros [= <-]. by exists []. }
  apply Forall_cons in HF as [Hi HF]. destruct (Z.ltb_spec (FSize info) HeaderSize); [done|].
  destruct (backup_file cl info Hb Hi) as (x & g & Hx & Ho & Hg & _ & _ & Hs).
  destruct (r_OpenLTXFile _ _ _ _ _ _ _ _) as [f|e|m] eqn:HO; cbn [mbind result_bind wrap_err]; [|done..].
  destruct (open_plan _ _ _ cl infos) as [rest|e|m]; cbn [mbind result_bind]; [|done..]. intros [= <-].
  destruct (IH rest HF eq_refl) as (gs & HG & HR). exists (g :: gs). split; constructor; try done.
  by apply (opened_data cl info x g f Hx Ho Hs ltac:(lia) HO).
Qed.

(** What is decoded without an error is the merge of the files. *)
Lemma decoded_exact infos gs rdrs b T :
  chain 0 infos T -> infos <> [] -> (forall q, page_at 0 q = None) ->
  Forall2 (fun info g => good_file LockPgno page_at ps (MinTXID info) (MaxTXID info) g) infos gs ->
  Forall2 (fun rd g => rd_err rd = None -> rd_data rd = EncodeLTX g \/ exists ct, rd_data rd = ageStreamIntro_bytes ++ ct) rdrs gs ->
  decode_database rdrs = (b, None) -> forall p, p <> LockPgno ps -> db_pages ps b p = page_at T p.
Proof.
  intros Hc Hne Hz HG HR HD p Hp. destruct (decode_complete _ _ HD) as [Herr [gs' Hgs']].
  assert (rd_data <$> rdrs = EncodeLTX <$> gs) as Hdata.
  { apply list_eq. intros i. rewrite !list_lookup_fmap. destruct (rdrs !! i) as [rd|] eqn:Hi.
    - destruct (Forall2_lookup_l _ _ _ _ _ HR Hi) as (g & Hgi & Hdat). rewrite Hgi. simpl. f_equal.
      rewrite Forall_lookup in Herr. destruct (Hdat (Herr _ _ Hi)) as [?|[ct Hct]]; [done|]. exfalso.
      assert ((rd_data <$> rdrs) !! i = Some (rd_data rd)) as Hl by (by rewrite list_lookup_fmap, Hi).
      rewrite Hgs', list_lookup_fmap, Hct in Hl. destruct (gs' !! i) as [g'|]; [|done]. injection Hl as Hl. by apply ltx_not_sealed in Hl.
    - apply lookup_ge_None in Hi. rewrite (proj2 (lookup_ge_None gs i)); [done|]. by rewrite <- (Forall2_length _ _ _ HR). }
  rewrite (decode_merge rdrs b gs ps HD Hdata); [|clear -HG; induction HG as [|? ? ? ? Hg]; constructor; [apply (gf_ps _ _ _ _ _ _ Hg)|done]|done].
  by eapply merge_chain.
Qed.

(** A plan is a chain of listed files from the start of the history. *)
Lemma restore_chain cl txID ts infos :
  backup cl -> 0 <= txID -> CalcRestorePlan cl txID ts = Ok infos ->
  infos <> [] /\ Forall (listed_file cl) infos /\ chain 0 infos (slice_MaxTXID infos) /\ (txID <> 0 -> slice_MaxTXID infos = txID) /\
  Forall (fun f => eligible txID ts f = true) infos.
Proof.
  intros Hb Ht HP. destruct (plan_sound cl txID ts infos HP Ht) as (Hne & snap & ext & cur & -> & Hsnap & Hc & HF & Hmax & Heq).
  split; [done|]. rewrite Hmax. split; [|split; [|split; [done|]]].
  - apply Forall_app. split.
    + destruct snap as [s|]; [|constructor]. constructor; [|constructor]. exists (negb (time_IsZero ts)), SnapshotLevel.
      split; [unfold SnapshotLevel; lia|]. by apply Hsnap.
    + eapply Forall_impl; [exact HF|]. intros f [_ (level & Hl & Hin)]. exists (negb (time_IsZero ts)), level. split; [lia|done].
  - destruct snap as [s|]; [|done]. cbn [option_list app chain snapshot_max] in *.
    destruct (Hsnap s eq_refl) as [Hin _].
    destruct (backup_file cl s Hb) as (x & g & _ & _ & _ & Hhi & Hlo & _); [by exists (negb (time_IsZero ts)), SnapshotLevel|].
    specialize (Hlo (level_files_level _ _ _ _ Hin)). split_and!; [lia|lia|done].
  - apply Forall_app. split; [|eapply Forall_impl; [exact HF|]; by intros f []]. destruct snap as [s|]; [|constructor]. constructor; [|constructor]. by apply Hsnap.
Qed.

(** The transaction of a restore to a time: files created before it lead there, and, when every level can be listed, no chain of such files after the
    last snapshot before that time leads further. *)
Definition as_of (cl : C) (ts : time) (T : TXID) : Prop :=
  (exists infos, chain 0 infos T /\ Forall (fun f => listed_file cl f /\ CreatedAt f < ts) infos) /\
  (readable cl ts -> forall fs t, chain (snapshot_max (plan_snapshot cl 0 ts)) fs t -> Forall (restorable cl 0 ts) fs -> t <= T).
Lemma plan_as_of cl ts infos : backup cl -> ts <> 0 -> CalcRestorePlan cl 0 ts = Ok infos -> as_of cl ts (slice_MaxTXID infos).
Proof.
  intros Hb Hts HP. destruct (restore_chain cl 0 ts infos Hb ltac:(lia) HP) as (_ & HF & Hc & _ & He). split.
  - exists infos. split; [done|]. apply Forall_and. split; [done|]. eapply Forall_impl; [exact He|]. intros f. unfold eligible, time_IsZero, time_Before.
    destruct (Z.eqb_spec ts 0); [done|]. cbn. intros Hf. breflect. lia.
  - intros Hr fs t Hfs HFs. destruct (Z.ltb_spec 0 t) as [Hp|Hn]; [|apply chain_le in Hc; lia].
    destruct (plan_complete cl 0 ts fs t Hr Hp ltac:(by right) Hfs HFs) as (plan & HP' & Hle). rewrite HP in HP'. by injection HP' as ->.
Qed.

(** *** The output file *)

(** The output is the database after transaction [t], in full. *)
Definition restored_to (d : disk) (t : TXID) : Prop :=
  exists b, dk_out d = Some b /\ forall p, p <> LockPgno ps -> db_pages ps b p = page_at t p.

(** The temporary file becomes the output only when it is complete. *)
Lemma write_database_out e rdrs d d' r :
  write_database decode_database e rdrs d = (d', r) ->
  match r with
  | Ok b => decode_database rdrs = (b, None) /\ d' = set_out (Some b) (set_tmp None d)
  | _ => dk_out d' = dk_out d /\ dk_txid d' = dk_txid d
  end.
Proof.
  unfold write_database. destruct (rio e RMkdir) as [u|err|m]; cbn [mbind result_bind wrap_err]; [|intros [= <- <-]; done..].
  destruct (rio e RCreate) as [u1|err|m]; cbn [mbind result_bind wrap_err]; [|intros [= <- <-]; done..].
  destruct (decode_database rdrs) as [b [err|]] eqn:HD; [intros [= <- <-]; done|].
  destruct (rio e RSync) as [u2|err|m]; cbn [mbind result_bind]; [|intros [= <- <-]; done..].
  destruct (rio e RClose) as [u3|err|m]; cbn [mbind result_bind]; [|intros [= <- <-]; done..].
  destruct (rio e RRename) as [u4|err|m]; intros [= <- <-]; done.
Qed.

Lemma check_restored_out e mode b d d' r :
  check_restored e mode b d = (d', r) ->
  (d' = d \/ d' = set_out None d) /\ (is_ok r = true -> d' = d /\ checkIntegrity e mode b = Ok ()).
Proof.
  unfold check_restored, checkIntegrity. destruct (mode =? IntegrityCheckNone) eqn:Hm; [intros [= <- <-]; auto|].
  destruct (_ ← rio e RSqlOpen wrapping _; _) as [[]|err|m]; intros [= <- <-]; (split; [|done || by auto]); [by left| |by left]. destruct (re_cancelled e); auto.
Qed.

Lemma restore_ltx_exact e opt cl d d' res :
  backup cl -> (forall q, page_at 0 q = None) -> 0 <= ro_TXID opt -> dk_out d = None ->
  restore_ltx age_Decrypt cfg decode_database chunk e opt cl d = (d', res) ->
  (dk_out d' = None \/ exists T, restored_to d' T) /\
  (forall r, res = Ok r -> exists T, restored_to d' T /\
    (ro_TXID opt <> 0 -> T = ro_TXID opt) /\
    (ro_TXID opt = 0 -> ro_Timestamp opt = 0 -> forall level lo hi, 0 <= level < SnapshotLevel -> is_Some (stored cl level lo hi) -> hi <= T) /\
    (ro_TXID opt = 0 -> ro_Timestamp opt <> 0 -> as_of cl (ro_Timestamp opt) T) /\
    (if ro_Follow opt then r = Some T /\ dk_txid d' = Some T else r = None)).
Proof.
  intros Hb Hz Ht Hout. unfold restore_ltx.
  destruct (CalcRestorePlan cl _ _) as [infos|err|m] eqn:HP; cbn [wrap_err]; [|intros [= <- <-]; split; [by left|done]..].
  destruct (restore_chain cl _ _ infos Hb Ht HP) as (Hne & HF & Hc & Heq & _).
  destruct (exists_last Hne) as (infos' & info & Hlast). assert (last infos = Some info) as Hl by (rewrite Hlast; apply last_snoc). rewrite Hl.
  assert (MaxTXID info = slice_MaxTXID infos) as Hmax by (rewrite Hlast in Hc at 1; by apply chain_ends in Hc). rewrite Hmax.
  destruct (open_plan _ _ _ cl infos) as [rdrs|err|m] eqn:HO; [|intros [= <- <-]; split; [by left|done]..].
  destruct (open_plan_files cl infos rdrs Hb HF HO) as (gs & HG & HR).
  destruct rdrs as [|rd rdrs0]; [intros [= <- <-]; split; [by left|done]|]. set (rdrs := rd :: rdrs0) in *.
  destruct (write_database _ e rdrs d) as [d1 r1] eqn:HW. apply write_database_out in HW.
  destruct r1 as [b|err|m]; [|intros [= <- <-]; destruct HW as [-> _]; split; [by left|done]..].
  destruct HW as [HD Hd1]. set (T := slice_MaxTXID infos) in *.
  assert (forall d, dk_out d = Some b -> restored_to d T) as Hex.
  { intros d2 Hd2. exists b. split; [done|]. by eapply decoded_exact. }
  assert (dk_out d1 = Some b) as Hout1 by (by rewrite Hd1). clear Hd1.
  destruct (check_restored e _ b d1) as [d2 r2] eqn:HC. apply check_restored_out in HC as [Hd2 Hok2].
  assert (dk_out d2 = None \/ exists t, restored_to d2 t) as Hor2.
  { destruct Hd2 as [->| ->]; [right; exists T; by apply Hex|by left]. }
  assert (forall level lo hi, ro_TXID opt = 0 -> ro_Timestamp opt = 0 -> 0 <= level < SnapshotLevel -> is_Some (stored cl level lo hi) -> hi <= T) as Hlatest.
  { intros level lo hi Htx Hts Hlv Hst. apply (stored_listed cl (negb (time_IsZero (ro_Timestamp opt)))) in Hst as (f & Hf & _ & <-).
    exact (plan_latest cl (ro_TXID opt) (ro_Timestamp opt) infos f level Htx Hts HP Hlv Hf). }
  assert (ro_TXID opt = 0 -> ro_Timestamp opt <> 0 -> as_of cl (ro_Timestamp opt) T) as Has.
  { intros Htx Hts. rewrite Htx in HP. by apply plan_as_of. }
  destruct r2 as [u|err|m]; [|intros [= <- <-]; split; [done|done]..]. destruct (Hok2 eq_refl) as [-> _].
  destruct (ro_Follow opt).
  - unfold write_txid. destruct (Follow.WriteTXIDFile _ _ _) as [w r3] eqn:HWT. apply Follow.WriteTXIDFile_spec in HWT as [_ Hsv].
    assert (dk_out (set_txid (Follow.w_saved w) d1) = Some b) as Hout3 by done.
    destruct r3 as [u3|err|m]; intros [= <- <-]; (split; [right; exists T; by apply Hex|]); [|done..].
    intros r [= <-]. exists T. split_and!; try done; [by apply Hex|intros; by eapply Hlatest|].
    destruct Hsv as [[_ ?]|Hsv]; [done|]. simpl. by rewrite Hsv.
  - intros [= <- <-]. split; [right; exists T; by apply Hex|]. intros r [= <-]. exists T. split_and!; try done; [by apply Hex|intros; by eapply Hlatest].
Qed.

(** The restore uses the backup of version 3, because it is newer than that of LTX files (before the time, if one is given). *)
Definition chooses_v3 (v3 : bool) (opt : RestoreOptions) (cl : C) : Prop :=
  v3 = true /\ ro_TXID opt = 0 /\ ro_Follow opt = false /\ shouldUseV3Restore cl (ro_Timestamp opt) = Ok true.
(** Without generations of version 3 it does not. *)
Lemma no_generations v3 opt cl : GenerationsV3 cl = Ok [] -> ~ chooses_v3 v3 opt cl.
Proof.
  intros Hg (_ & _ & _ & Hv). unfold shouldUseV3Restore, TimeBoundsV3 in Hv. rewrite Hg in Hv. cbn [mbind result_bind wrap_err TimeBoundsV3_loop] in Hv.
  by destruct (TimeBounds cl) as [[a b]|e|m].
Qed.

(** A restore from the start, from LTX files. *)
Lemma restore_new v3 e opt cl d d' res :
  backup cl -> (forall q, page_at 0 q = None) -> 0 <= ro_TXID opt -> dk_out d = None -> ~ chooses_v3 v3 opt cl ->
  Restore age_Decrypt cfg decode_database chunk v3 checkpointV3 e opt cl d = (d', res) ->
  (dk_out d' = None \/ exists T, restored_to d' T) /\
  (forall r, res = Ok r -> exists T, restored_to d' T /\
    (ro_TXID opt <> 0 -> T = ro_TXID opt) /\
    (ro_TXID opt = 0 -> ro_Timestamp opt = 0 -> forall level lo hi, 0 <= level < SnapshotLevel -> is_Some (stored cl level lo hi) -> hi <= T) /\
    (ro_TXID opt = 0 -> ro_Timestamp opt <> 0 -> as_of cl (ro_Timestamp opt) T) /\
    (if ro_Follow opt then r = Some T /\ dk_txid d' = Some T else r = None)).
Proof.
  intros Hb Hz Ht Hout Hv3. unfold Restore. destruct (validate_options opt); [|intros [= <- <-]; split; [by left|done]..].
  rewrite Hout. assert (ro_Follow opt && match re_fault e RStatFollow with Some _ => false | None => bool_decide (is_Some (@None (list byte))) end = false) as ->.
  { by destruct (ro_Follow opt), (re_fault e RStatFollow). }
  destruct (stat_out e RStat d) as [[]|err|m]; [intros [= <- <-]; split; [by left|done]| |intros [= <- <-]; split; [by left|done]..].
  destruct (_ && v3) eqn:Ev; [|by apply restore_ltx_exact].
  destruct (shouldUseV3Restore cl (ro_Timestamp opt)) as [[]|err|m] eqn:Es; [|by apply restore_ltx_exact|intros [= <- <-]; split; [by left|done]..].
  destruct Hv3. apply andb_prop in Ev as [[Etx Ef]%andb_prop ->]. split_and!; [done|by apply Z.eqb_eq|by apply negb_true_iff|done].
Qed.

(** C3: a restore from LTX files is exact or leaves nothing.  From a storage that is a backup of a
    history, whether or not its client also reads backups of version 3, unless such a backup is chosen because it is newer, and
    whatever fails on the way (listings, connections that end early,
    sealed or plain objects, the file system, the integrity check), afterwards the output
    does not exist or is, page for page, the database after a transaction of the history.
    When [Restore] returns no error it is the requested transaction; for the latest state one that no
    file of a compaction level goes beyond; for a time one that files created before it lead to, and
    beyond which no chain of such files leads when every level can be listed; and follow mode starts
    at that transaction, which is also recorded on disk. *)
Theorem restore_exact v3 e opt cl d d' res :
  backup cl -> (forall q, page_at 0 q = None) -> 0 <= ro_TXID opt -> dk_out d = None -> ~ chooses_v3 v3 opt cl ->
  Restore age_Decrypt cfg decode_database chunk v3 checkpointV3 e opt cl d = (d', res) ->
  (dk_out d' = None \/ exists T, restored_to d' T) /\
  (forall r, res = Ok r -> exists T, restored_to d' T /\
    (ro_TXID opt <> 0 -> T = ro_TXID opt) /\
    (ro_TXID opt = 0 -> ro_Timestamp opt = 0 -> forall level lo hi, 0 <= level < SnapshotLevel -> is_Some (stored cl level lo hi) -> hi <= T) /\
    (ro_TXID opt = 0 -> ro_Timestamp opt <> 0 -> as_of cl (ro_Timestamp opt) T) /\
    (if ro_Follow opt then r = Some T /\ dk_txid d' = Some T else r = None)).
Proof. apply restore_new. Qed.
End Exact.

(** ** Acknowledged syncs are restored *)
Section Acknowledged.
Context {C : Type} `{SL : StorageLaws C} `{OL : !OpenLaws C} `{RC3 : ReplicaClientV3 C} `{FI : FileInfoSliceLaws} `{LF : LTXFormat}.
Context {identity recipient : Type}.
Variable age_Encrypt : list recipient -> result (list byte -> list byte * option error).
Variable age_Decrypt : list identity -> Reader -> result Reader.
Variable cfg : ReplicaConfig identity recipient.
Variable LockPgno : Z -> Z.
Variable decode_database : list Reader -> list byte * option error.
Context `{ML : !MergeLaws LockPgno decode_database} `{AL : !AgeLaws age_Encrypt age_Decrypt (AgeIdentities cfg) (AgeRecipients cfg)}.
Variable chunk : Z.
Variable checkpointV3 : list byte -> list byte -> result (list byte * list byte).
Variable ps : Z.
Hypothesis not_sealed : forall g ct, EncodeLTX g <> ageStreamIntro_bytes ++ ct.
Hypothesis HeaderSize_ok : 0 < HeaderSize.

(** The database after the first transactions of a history of level-0 files. *)
Definition state_at (hist : list ltxFile) (t : TXID) : Z -> option (list byte) := restored (take (Z.to_nat t) hist).

(** The files have one page size, pages inside the database, and all pages a growing
    database gains. *)
Definition well_formed (hist : list ltxFile) : Prop :=
  forall i f, hist !! i = Some f ->
    lf_PageSize f = ps /\ (forall p data, lookup_page p (lf_pages f) = Some data -> 1 <= p <= lf_Commit f) /\
    (forall p, p <> LockPgno ps -> 1 <= p <= lf_Commit f -> is_Some (state_at hist (Z.of_nat i + 1) p)).

Lemma state_at_step hist i f : hist !! i = Some f -> state_at hist (Z.of_nat i + 1) = apply_ltx f (state_at hist (Z.of_nat i)).
Proof.
  intros Hf. unfold state_at. rewrite Z2Nat.inj_add, !Nat2Z.id by lia. change (Z.to_nat 1) with 1%nat. rewrite Nat.add_1_r.
  by rewrite (take_S_r _ _ f Hf), restored_snoc.
Qed.

(** A level-0 file is a file of its transaction. *)
Lemma level0_good hist i f :
  well_formed hist -> hist !! i = Some f -> good_file LockPgno (state_at hist) ps (Z.of_nat i + 1) (Z.of_nat i + 1) f.
Proof.
  intros Hwf Hf. destruct (Hwf i f Hf) as (Hps & Hin & Hgrow). pose proof (state_at_step hist i f Hf) as Hst. split.
  - done.
  - intros p data Hp. rewrite Hst. unfold apply_ltx. destruct (Hin p data Hp) as [Hl Hu].
    destruct (Z.leb_spec 1 p), (Z.leb_spec p (lf_Commit f)); try lia. cbn [andb]. by rewrite Hp.
  - intros p Hp. split; [|by apply Hgrow]. rewrite Hst. unfold apply_ltx.
    destruct (Z.leb_spec 1 p), (Z.leb_spec p (lf_Commit f)); cbn [andb]; [lia|by intros []..].
  - intros p k Hp Hk Hsome. replace k with (Z.of_nat i) by lia. rewrite Hst in Hsome |- *. unfold apply_ltx in *.
    destruct ((1 <=? p) && (p <=? lf_Commit f)); [by rewrite Hp|by destruct Hsome].
Qed.

(** C2: what was acknowledged is restored.  When the storage holds the whole history of
    level-0 files, as it does after a sync that returned no error, and whatever else
    compactions and snapshots have added to it, a restore of the latest state that
    returns no error, unless it chooses a backup of version 3 that is newer than all of these files, yields the database the history ends with: every page but SQLite's
    lock page, and nothing beyond its size. *)
Theorem acknowledged_restored v3 e opt cl d d' r hist l0 :
  well_formed hist -> replicated age_Encrypt cfg hist l0 cl -> uploaded_to cl (Z.of_nat (length hist)) -> hist <> [] ->
  (forall level lo hi x, 0 < level <= SnapshotLevel -> stored cl level lo hi = Some x ->
     exists g, object_of age_Encrypt cfg (EncodeLTX g) x /\ good_file LockPgno (state_at hist) ps lo hi g /\ 1 <= hi /\ (level = SnapshotLevel -> lo <= 1)) ->
  (forall um level f x, In f (level_files cl um level) -> stored cl level (MinTXID f) (MaxTXID f) = Some x -> FSize f = Z.of_nat (length x)) ->
  ro_TXID opt = 0 -> ro_Timestamp opt = 0 -> dk_out d = None -> ~ chooses_v3 v3 opt cl ->
  Restore age_Decrypt cfg decode_database chunk v3 checkpointV3 e opt cl d = (d', Ok r) ->
  exists b, dk_out d' = Some b /\ forall p, p <> LockPgno ps -> db_pages ps b p = restored hist p.
Proof.
  intros Hwf Hrep Hup Hne Hother Hsize Htx Hts Hout Hv3 HR.
  assert (backup age_Encrypt cfg LockPgno (state_at hist) ps cl) as Hb.
  { split; [|done]. intros level lo hi x Hl Hx. destruct (decide (level = 0)) as [->|]; [|apply Hother; [lia|done]].
    destruct (rp_stored _ _ _ _ _ Hrep lo hi x Hx) as (<- & i & f & -> & Hf & Hs). exists f. split_and!.
    - unfold sealed_as in Hs. destruct (EncryptionEnabled cfg); [by right|by left].
    - by apply level0_good.
    - lia.
    - done. }
  assert (forall q, state_at hist 0 q = None) as Hzero by done.
  destruct (restore_new age_Encrypt age_Decrypt cfg LockPgno decode_database chunk checkpointV3 (state_at hist) ps not_sealed HeaderSize_ok
    v3 e opt cl d d' (Ok r) Hb Hzero ltac:(lia) Hout Hv3 HR) as [_ HT].
  destruct (HT r eq_refl) as (T & (b & Hb1 & Hb2) & _ & Hlatest & _). exists b. split; [done|]. intros p Hp. rewrite (Hb2 p Hp).
  assert (0 < Z.of_nat (length hist)) as Hlen by (destruct hist; [done|simpl; lia]).
  assert (Z.of_nat (length hist) <= T) as HTn
    by (apply (Hlatest Htx Hts 0 (Z.of_nat (length hist))); [unfold SnapshotLevel; lia|apply Hup; lia]).
  unfold state_at. by rewrite take_ge by lia.
Qed.
End Acknowledged.

(** ** Concrete packages *)

(** A storage in memory delivers what it holds. *)
#[export] Instance mem_open_laws : OpenLaws Mem.client.
Proof.
  split. intros c level lo hi off rd Hoff HO. cbn [OpenLTXFile Mem.client_ops] in HO.
  change (stored c level lo hi) with (MemStorage.lookup (MemStorage.key level lo hi) (Mem.objects c)). unfold MemStorage.lookup, MemStorage.key.
  destruct (List.find _ (Mem.objects c)) as [[i b]|]; [|done]. injection HO as <-. exists b. split; [done|]. split; [done|]. done.
Qed.

(** A format in which every file has its own encoding. *)
Module PlainFormat.
#[local] Instance byte_eq_dec : EqDecision byte := Byte.byte_eq_dec.
#[local] Instance byte_countable : Countable byte.
Proof. apply (inj_countable' Byte.to_N (fun n => default x00 (Byte.of_N n))). intros b. by rewrite Byte.of_to_N. Defined.
#[local] Instance ltxFile_eq_dec : EqDecision ltxFile.
Proof. solve_decision. Defined.
#[local] Instance ltxFile_countable : Countable ltxFile.
Proof.
  apply (inj_countable' (fun f => (lf_PageSize f, lf_Commit f, lf_MinTXID f, lf_MaxTXID f, (lf_WALOffset f, lf_WALSize f, lf_WALSalt1 f, lf_WALSalt2 f), lf_pages f))
    (fun '(a, b, c, d, (e, f, g, h), l) => mkLTX a b c d e f g h l)). by intros [].
Defined.

Fixpoint pos_bytes (p : positive) : list byte :=
  match p with xH => [x01] | xO p => x02 :: pos_bytes p | xI p => x03 :: pos_bytes p end.
Fixpoint bytes_pos (b : list byte) : option positive :=
  match b with
  | [x01] => Some xH
  | x02 :: b => xO <$> bytes_pos b
  | x03 :: b => xI <$> bytes_pos b
  | _ => None
  end.
Lemma bytes_pos_bytes p : bytes_pos (pos_bytes p) = Some p.
Proof. induction p as [p IH|p IH|]; cbn [pos_bytes bytes_pos]; [by rewrite IH|by rewrite IH|done]. Qed.

Definition encode_ltx (f : ltxFile) : list byte := pos_bytes (countable.encode f).
Definition parse (b : list byte) : option ltxFile := bytes_pos b ≫= countable.decode.
Lemma parse_encode f : parse (encode_ltx f) = Some f.
Proof. unfold parse, encode_ltx. rewrite bytes_pos_bytes. cbn. apply decode_encode. Qed.

#[export] Instance format : LTXFormat := {
  HeaderSize := 1; TrailerSize := 0;
  DecodePageIndex _ _ _ _ := Err (EMsg "no page index"); PeekHeader _ := Err (EMsg "no header"); DecodePageData _ := Err (EMsg "no page");
  EncodeLTX := encode_ltx
}.

Lemma encode_not_sealed (g : ltxFile) ct : EncodeLTX g <> ageStreamIntro_bytes ++ ct.
Proof. cbn. unfold encode_ltx. destruct (countable.encode g); discriminate. Qed.

(** The database file of the merged pages; every page has to be there. *)
Definition page_of (gs : list ltxFile) (ps : Z) (p : nat) : option (list byte) :=
  data ← newest gs (Z.of_nat p); if Z.of_nat (length data) =? ps then Some data else None.
Definition image (gs : list ltxFile) : option (list byte) :=
  g ← last gs;
  if (0 <? lf_PageSize g) && (0 <=? lf_Commit g)
  then mjoin <$> mapM (page_of gs (lf_PageSize g)) (seq 1 (Z.to_nat (lf_Commit g))) else None.
Definition parse_reader (rd : Reader) : option ltxFile :=
  match rd_err rd with None => g ← parse (rd_data rd); if bool_decide (encode_ltx g = rd_data rd) then Some g else None | Some _ => None end.
Definition decode_database (rdrs : list Reader) : list byte * option error :=
  match mapM parse_reader rdrs ≫= image with Some b => (b, None) | None => ([], Some (EMsg "decode")) end.

Lemma parse_reader_spec rd g : parse_reader rd = Some g -> rd_err rd = None /\ rd_data rd = encode_ltx g.
Proof.
  unfold parse_reader. destruct (rd_err rd); [done|]. destruct (parse (rd_data rd)) as [g'|]; [|done]. cbn. case_bool_decide as E; [|done].
  by intros [= <-].
Qed.

Lemma parse_readers rdrs gs : mapM parse_reader rdrs = Some gs -> Forall (fun rd => rd_err rd = None) rdrs /\ rd_data <$> rdrs = encode_ltx <$> gs.
Proof.
  rewrite mapM_Some. induction 1 as [|rd g rdrs gs Hg _ [IH1 IH2]]; [done|]. apply parse_reader_spec in Hg as [He Hd].
  split; [by constructor|]. rewrite !fmap_cons. by f_equal.
Qed.

(** Page [i] of a concatenation of pages of one size. *)
Lemma slice_join (n i : nat) (pages : list (list byte)) :
  (forall x, In x pages -> length x = n) -> (i < length pages)%nat -> Some (take n (drop (i * n) (mjoin pages))) = pages !! i.
Proof.
  revert i. induction pages as [|x pages IH]; intros i Hn Hi; simpl in Hi; [lia|]. change (mjoin (x :: pages)) with (x ++ mjoin pages).
  assert (length x = n) as Hx by (apply Hn; by left). destruct i as [|i]; simpl.
  - rewrite drop_0. by rewrite <- Hx, take_app_length.
  - replace (n + i * n)%nat with (length x + i * n)%nat by lia. rewrite <- drop_drop, drop_app_length. apply IH; [|lia]. intros y Hy. apply Hn. by right.
Qed.

Lemma length_join (n : nat) (pages : list (list byte)) : (forall x, In x pages -> length x = n) -> length (mjoin pages) = (length pages * n)%nat.
Proof.
  induction pages as [|x pages IH]; intros Hn; [done|]. change (mjoin (x :: pages)) with (x ++ mjoin pages). rewrite length_app, IH, (Hn x); [done|by left|].
  intros y Hy. apply Hn. by right.
Qed.

Lemma image_pages gs b ps p : image gs = Some b -> Forall (fun g => lf_PageSize g = ps) gs -> db_pages ps b p = merge gs p.
Proof.
  unfold image, merge, db_pages. destruct (last gs) as [g|] eqn:Hl; [|done]. cbn [mbind option_bind]. intros HI HF.
  assert (lf_PageSize g = ps) as Hps by (rewrite Forall_forall in HF; apply HF; by apply last_Some_elem_of). rewrite Hps in HI.
  destruct (Z.ltb_spec 0 ps) as [Hpos|]; [|done]. destruct (Z.leb_spec 0 (lf_Commit g)) as [Hc|]; [|done]. cbn [andb] in HI.
  destruct (mapM _ _) as [pages|] eqn:HM; [|done]. injection HI as <-. apply mapM_Some in HM.
  pose proof (Forall2_length _ _ _ HM) as Hlen. rewrite length_seq in Hlen.
  assert (forall x, In x pages -> length x = Z.to_nat ps) as Hn.
  { intros x Hx. apply list_elem_of_In, list_elem_of_lookup in Hx as [i Hi]. destruct (Forall2_lookup_r _ _ _ _ _ HM Hi) as (q & _ & Hq).
    unfold page_of in Hq. destruct (newest gs (Z.of_nat q)) as [data|]; [|done]. cbn in Hq. destruct (Z.eqb_spec (Z.of_nat (length data)) ps); [|done]. injection Hq as <-. lia. }
  rewrite (length_join (Z.to_nat ps) pages Hn), <- Hlen.
  replace (Z.of_nat (Z.to_nat (lf_Commit g) * Z.to_nat ps)) with (lf_Commit g * ps) by lia.
  destruct (Z.leb_spec 1 p) as [H1|]; [|done]. cbn [andb]. destruct (Z.leb_spec p (lf_Commit g)) as [H2|H2].
  - destruct (Z.leb_spec (p * ps) (lf_Commit g * ps)); [|nia]. unfold slice.
    replace (Z.to_nat ((p - 1) * ps)) with (Z.to_nat (p - 1) * Z.to_nat ps)%nat by (rewrite Z2Nat.inj_mul by lia; done).
    rewrite (slice_join _ _ pages Hn) by lia. destruct (lookup_lt_is_Some_2 pages (Z.to_nat (p - 1)) ltac:(lia)) as [data Hd]. rewrite Hd.
    destruct (Forall2_lookup_r _ _ _ _ _ HM Hd) as (q & Hq & Hpq). apply lookup_seq in Hq as [-> _]. unfold page_of in Hpq.
    replace (Z.of_nat (1 + Z.to_nat (p - 1))) with p in Hpq by lia. destruct (newest gs p) as [data'|]; [|done]. cbn in Hpq.
    destruct (_ =? _); [|done]. by injection Hpq as ->.
  - destruct (Z.leb_spec (p * ps) (lf_Commit g * ps)); [nia|done].
Qed.

#[export] Instance merge_laws LockPgno : MergeLaws LockPgno decode_database.
Proof.
  assert (forall rdrs b, decode_database rdrs = (b, None) -> exists gs, mapM parse_reader rdrs = Some gs /\ image gs = Some b) as Hdec.
  { intros rdrs b. unfold decode_database. destruct (mapM parse_reader rdrs) as [gs|]; cbn; [|done]. destruct (image gs) as [b'|] eqn:HI; [|done].
    intros [= <-]. by exists gs. }
  split.
  - intros rdrs b (gs & HM & _)%Hdec. apply parse_readers in HM as [He Hd]. split; [done|]. by exists gs.
  - intros rdrs b gs ps (gs' & HM & HI)%Hdec Hd HF p _. apply parse_readers in HM as [_ Hd'].
    assert (gs' = gs) as ->; [|by apply image_pages]. rewrite Hd in Hd'. apply (f_equal (fmap parse)) in Hd'. rewrite <- !list_fmap_compose in Hd'.
    assert (forall l : list ltxFile, parse ∘ encode_ltx <$> l = Some <$> l) as Hid
      by (intros l; induction l as [|x l IH]; [done|]; rewrite !fmap_cons; f_equal; [apply parse_encode|done]).
    change (EncodeLTX <$> gs) with (encode_ltx <$> gs) in Hd'. rewrite !Hid in Hd'. by apply (inj (fmap Some)) in Hd'.
Qed.
End PlainFormat.

#[export] Instance demo_age_laws ids rcpts : AgeLaws demo_encrypt demo_open_age ids rcpts.
Proof.
  split.
  - intros ew b x [= <-] [= <-]. by eexists.
  - intros ew b x rd rd' [= <-] [= <-] _ Hfull [= <-] He. cbn [rd_data rd_err] in *. rewrite (Hfull He). reflexivity.
Qed.

(** A history of three transactions that shrinks and grows the database; the storage
    holds it and a snapshot, sealed. *)
Module RestoreDemo.
#[local] Existing Instance PlainFormat.format.
Definition f1 : ltxFile := mkLTX 2 2 1 1 0 0 0 0 [(1, [x0a; x0a]); (2, [x0b; x0b])].
Definition f2 : ltxFile := mkLTX 2 1 2 2 0 0 0 0 [(1, [x0c; x0c])].
Definition f3 : ltxFile := mkLTX 2 2 3 3 0 0 0 0 [(2, [x0d; x0d])].
Definition snap : ltxFile := mkLTX 2 1 1 2 0 0 0 0 [(1, [x0c; x0c])].
Definition hist : list ltxFile := [f1; f2; f3].
Definition seal (g : ltxFile) : list byte := ageStreamIntro_bytes ++ PlainFormat.encode_ltx g.
Definition obj (level lo hi : Z) (g : ltxFile) : Mem.object := (mkFileInfo level lo hi (Z.of_nat (length (seal g))) 0, seal g).
Definition storage : Mem.client := Mem.mkClient [obj 9 1 2 snap; obj 0 1 1 f1; obj 0 2 2 f2; obj 0 3 3 f3] eq_refl.
Definition lock : Z -> Z := fun _ => 0.
Definition no_v3 : ReplicaClientV3 Mem.client := {|
  GenerationsV3 _ := Ok []; SnapshotsV3 _ _ := Ok []; WALSegmentsV3 _ _ := Ok [];
  OpenSnapshotV3 _ _ _ := Err ErrNotExist; OpenWALSegmentV3 _ _ _ _ := Err ErrNotExist
|}.
Definition calm : renv := mkREnv (fun _ => None) (fun _ _ => Ok "ok") false (fun _ => None).
Definition opts (txid : TXID) (follow : bool) : RestoreOptions := mkRestoreOptions "/db" txid 0 8 follow Second IntegrityCheckQuick.
Definition no_files : disk := mkDisk None None None None.
Definition restore (e : renv) (opt : RestoreOptions) : disk * result (option TXID) :=
  @Restore Mem.client Mem.client_ops no_v3 last_slice PlainFormat.format string string demo_open_age demo_cfg PlainFormat.decode_database 4096 true
    (fun _ _ => Err ErrNotExist) e opt storage no_files.

Lemma stored_objects level lo hi x : stored storage level lo hi = Some x ->
  (level, lo, hi, x) = (9, 1, 2, seal snap) \/ (level, lo, hi, x) = (0, 1, 1, seal f1) \/
  (level, lo, hi, x) = (0, 2, 2, seal f2) \/ (level, lo, hi, x) = (0, 3, 3, seal f3).
Proof.
  change (stored storage level lo hi) with (MemStorage.lookup (MemStorage.key level lo hi) (Mem.objects storage)).
  unfold MemStorage.lookup, MemStorage.key. cbn [Mem.objects storage List.find obj fst].
  destruct (same_file _ _) eqn:E1 in |- *.
  { apply MemStorage.same_file_spec in E1 as (Hl & Hlo & Hhi). cbn in Hl, Hlo, Hhi. subst. intros [= <-]. by left. }
  destruct (same_file _ _) eqn:E2 in |- *.
  { apply MemStorage.same_file_spec in E2 as (Hl & Hlo & Hhi). cbn in Hl, Hlo, Hhi. subst. intros [= <-]. right. by left. }
  destruct (same_file _ _) eqn:E3 in |- *.
  { apply MemStorage.same_file_spec in E3 as (Hl & Hlo & Hhi). cbn in Hl, Hlo, Hhi. subst. intros [= <-]. do 2 right. by left. }
  destruct (same_file _ _) eqn:E4 in |- *; [|done].
  apply MemStorage.same_file_spec in E4 as (Hl & Hlo & Hhi). cbn in Hl, Hlo, Hhi. subst. intros [= <-]. by do 3 right.
Qed.

Lemma state_cases t p : p <> 1 -> p <> 2 -> state_at hist t p = None.
Proof.
  intros H1 H2. unfold state_at. assert (forall gs, (forall g, In g gs -> lf_Commit g <= 2) -> restored gs p = None) as HR.
  { intros gs. induction gs as [|g gs IH] using rev_ind; intros Hg; [done|]. rewrite restored_snoc. unfold apply_ltx.
    assert (lf_Commit g <= 2) by (apply Hg, in_or_app; right; by left). destruct (Z.leb_spec 1 p), (Z.leb_spec p (lf_Commit g)); try done. lia. }
  apply HR. intros g Hg. assert (In g hist) as Hin by (apply list_elem_of_In; apply list_elem_of_In in Hg; by eapply elem_of_sublist; [exact Hg|apply sublist_take]).
  by destruct Hin as [<-|[<-|[<-|[]]]].
Qed.

Lemma hist_well_formed : well_formed lock 2 hist.
Proof.
  assert (forall g p data, In g hist -> lookup_page p (lf_pages g) = Some data -> 1 <= p <= lf_Commit g) as Hin.
  { intros g p data [<-|[<-|[<-|[]]]]; unfold lookup_page; cbn [lf_pages f1 f2 f3 List.find fst lf_Commit];
      try (destruct (Z.eqb_spec 1 p) as [<-|]; [intros _; lia|]); try (destruct (Z.eqb_spec 2 p) as [<-|]; [intros _; lia|]); done. }
  intros i f Hf. split; [|split].
  - by destruct i as [|[|[|i]]]; simplify_eq/=.
  - intros p data. apply Hin. apply list_elem_of_In. by eapply list_elem_of_lookup_2.
  - intros p _ Hp. assert (lf_Commit f <= 2) as Hc by (by destruct i as [|[|[|i]]]; simplify_eq/=).
    assert (p = 1 \/ p = 2) as [-> | ->] by lia; destruct i as [|[|[|i]]]; simplify_eq/=; try (by vm_compute; eauto); lia.
Qed.

Lemma snap_good : good_file lock (state_at hist) 2 1 2 snap.
Proof.
  split.
  - done.
  - intros p data. unfold lookup_page. cbn [lf_pages snap List.find fst]. destruct (Z.eqb_spec 1 p) as [<-|]; [|done]. intros [= <-]. vm_compute. reflexivity.
  - intros p _. destruct (decide (p = 1)) as [->|H1]; [split; [intros _; cbn; lia|intros _; vm_compute; eauto]|].
    destruct (decide (p = 2)) as [->|H2]; [split; [vm_compute; by intros []|cbn; lia]|]. rewrite state_cases by done. split; [by intros []|cbn; lia].
  - intros p k. unfold lookup_page. cbn [lf_pages snap List.find fst]. destruct (Z.eqb_spec 1 p) as [<-|Hp]; [done|]. intros _ _.
    destruct (decide (p = 2)) as [->|H2]; [vm_compute; by intros []|]. rewrite state_cases by done. by intros [].
Qed.

Lemma storage_replicated : replicated demo_encrypt demo_cfg hist ∅ storage.
Proof.
  split.
  - intros i f x _ Hx. by rewrite lookup_empty in Hx.
  - intros lo hi x Hx. apply stored_objects in Hx as [Hx|[Hx|[Hx|Hx]]]; [discriminate|..]; injection Hx as -> -> ->; (split; [done|]);
      [exists 0%nat, f1|exists 1%nat, f2|exists 2%nat, f3]; (split; [done|]); (split; [done|]); by exists demo_ew.
  - intros t t' Ht [x Hx]. assert (t <= 3) as Hle by (apply stored_objects in Hx as [Hx|[Hx|[Hx|Hx]]]; [discriminate|..]; injection Hx as -> _; lia).
    assert (t' = 1 \/ t' = 2 \/ t' = 3) as [->|[-> | ->]] by lia; by eexists.
Qed.

Lemma storage_sizes um level f x :
  In f (level_files storage um level) -> stored storage level (MinTXID f) (MaxTXID f) = Some x -> FSize f = Z.of_nat (length x).
Proof.
  change (level_files storage um level) with (Mem.files storage um level). unfold Mem.files. intros [Hl Hf]%In_filter_bool Hx.
  apply stored_objects in Hx. cbn [fmap list_fmap Mem.objects storage obj fst] in Hf.
  destruct Hf as [<-|[<-|[<-|[<-|[]]]]]; cbn [MinTXID MaxTXID FSize Level] in *; destruct Hx as [Hx|[Hx|[Hx|Hx]]]; try discriminate Hx; by injection Hx as _ ->.
Qed.

(** The storage is a backup of the history. *)
Lemma storage_backup (cfg : ReplicaConfig string string) : backup demo_encrypt cfg lock (state_at hist) 2 storage.
Proof.
  split; [|exact storage_sizes]. intros level lo hi x Hl Hx.
  assert (forall i f, hist !! i = Some f -> x = seal f -> level = 0 -> lo = Z.of_nat i + 1 -> hi = Z.of_nat i + 1 ->
    exists g, object_of demo_encrypt cfg (EncodeLTX g) x /\ good_file lock (state_at hist) 2 lo hi g /\ 1 <= hi /\ (level = SnapshotLevel -> lo <= 1)) as H0.
  { intros i f Hf -> -> -> ->. exists f. split; [right; exists demo_ew; split; reflexivity|]. split; [exact (level0_good _ _ _ _ _ hist_well_formed Hf)|]. split; [lia|discriminate]. }
  apply stored_objects in Hx as [Hx|[Hx|[Hx|Hx]]]; injection Hx as -> -> -> ->; [|exact (H0 0%nat f1 eq_refl eq_refl eq_refl eq_refl eq_refl)|
    exact (H0 1%nat f2 eq_refl eq_refl eq_refl eq_refl eq_refl)|exact (H0 2%nat f3 eq_refl eq_refl eq_refl eq_refl eq_refl)].
  exists snap. split; [right; exists demo_ew; split; reflexivity|]. split; [exact snap_good|]. split; [lia|]. intros _. lia.
Qed.
End RestoreDemo.

#[local] Existing Instance PlainFormat.format.
#[local] Existing Instance last_slice.
#[local] Existing Instance last_slice_laws.
#[local] Existing Instance RestoreDemo.no_v3.
#[local] Existing Instance PlainFormat.merge_laws.

(** Restoring transaction 2 and following from it. *)
Lemma restore_exact_witness :
  exists d', RestoreDemo.restore RestoreDemo.calm (RestoreDemo.opts 2 false) = (d', Ok None) /\
    restored_to RestoreDemo.lock (state_at RestoreDemo.hist) 2 d' 2.
Proof.
  destruct (RestoreDemo.restore RestoreDemo.calm (RestoreDemo.opts 2 false)) as [d' res] eqn:E.
  assert (res = Ok None) as Hres by (apply (f_equal snd) in E; vm_compute in E; symmetry; exact E). rewrite Hres in *.
  exists d'. split; [reflexivity|].
  destruct (restore_exact demo_encrypt demo_open_age demo_cfg RestoreDemo.lock PlainFormat.decode_database 4096 (fun _ _ => Err ErrNotExist) (state_at RestoreDemo.hist) 2
    PlainFormat.encode_not_sealed ltac:(reflexivity) true RestoreDemo.calm (RestoreDemo.opts 2 false) RestoreDemo.storage RestoreDemo.no_files d' (Ok None)) as [_ HT].
  - exact (RestoreDemo.storage_backup _).
  - reflexivity.
  - cbn. lia.
  - reflexivity.
  - by apply no_generations.
  - exact E.
  - destruct (HT None eq_refl) as (T & HR & Heq & _). rewrite Heq in HR; [exact HR|]. cbn. discriminate.
Defined.

Lemma acknowledged_restored_witness :
  exists d' b, RestoreDemo.restore RestoreDemo.calm (RestoreDemo.opts 0 false) = (d', Ok None) /\
    dk_out d' = Some b /\ b = [x0c; x0c; x0d; x0d] /\ db_pages 2 b 2 = restored RestoreDemo.hist 2.
Proof.
  destruct (RestoreDemo.restore RestoreDemo.calm (RestoreDemo.opts 0 false)) as [d' res] eqn:E.
  assert (res = Ok None) as Hres by (apply (f_equal snd) in E; vm_compute in E; symmetry; exact E). rewrite Hres in *.
  assert (dk_out d' = Some [x0c; x0c; x0d; x0d]) as Hb by (apply (f_equal (fun x => dk_out (fst x))) in E; vm_compute in E; symmetry; exact E).
  destruct (acknowledged_restored demo_encrypt demo_open_age demo_cfg RestoreDemo.lock PlainFormat.decode_database 4096 (fun _ _ => Err ErrNotExist) 2
    PlainFormat.encode_not_sealed ltac:(reflexivity) true RestoreDemo.calm (RestoreDemo.opts 0 false) RestoreDemo.storage RestoreDemo.no_files d' None RestoreDemo.hist ∅)
    as (b & Hout & Hp).
  - exact RestoreDemo.hist_well_formed.
  - exact RestoreDemo.storage_replicated.
  - intros t Ht. cbn in Ht. assert (t = 1 \/ t = 2 \/ t = 3) as [->|[-> | ->]] by lia; eexists; reflexivity.
  - discriminate.
  - intros level lo hi x Hl Hx. apply RestoreDemo.stored_objects in Hx as [Hx|[Hx|[Hx|Hx]]]; injection Hx as -> -> -> ->; [|lia..].
    exists RestoreDemo.snap. split; [right; exists demo_ew; split; reflexivity|]. split; [exact RestoreDemo.snap_good|]. split; [lia|]. intros _. lia.
  - exact RestoreDemo.storage_sizes.
  - reflexivity.
  - reflexivity.
  - reflexivity.
  - by apply no_generations.
  - exact E.
  - exists d', b. split; [reflexivity|]. split; [exact Hout|]. rewrite Hb in Hout. injection Hout as <-. split; [reflexivity|]. apply Hp. discriminate.
Defined.

(** ** Restores of v0.3.x backups *)
Section ExactV3.
Context {C : Type} `{RC : ReplicaClient C} `{RC3 : ReplicaClientV3 C} {identity recipient : Type}.
Variable age_Decrypt : list identity -> Reader -> result Reader.
Variable cfg : ReplicaConfig identity recipient.
Variable checkpointV3 : list byte -> list byte -> result (list byte * list byte).

(** A database restored from a v0.3.x backup: the chosen snapshot with the chosen
    segments replayed over it, next to the WAL file [wal] that was there. *)
Definition v3_database (cl : C) (ts : time) (wal : list byte) (b : list byte) : Prop :=
  exists snapshot segments rd st, v3_plan cl ts = Ok (snapshot, segments) /\
    open_v3 age_Decrypt cfg (OpenSnapshotV3 cl (s_Generation snapshot) (s_Index snapshot)) "age decrypt snapshot" = Ok rd /\ rd_err rd = None /\
    applyWALSegmentsV3 checkpointV3 (read_segment age_Decrypt cfg cl (s_Generation snapshot)) (mkReplay (rd_data rd) wal None) segments = Ok st /\ b = rp_db st.

Lemma restore_v3_files_out e cl snapshot segments d d' r :
  restore_v3_files age_Decrypt cfg checkpointV3 e cl snapshot segments d = (d', r) ->
  dk_tmp d' = None /\
  match r with
  | Ok b => dk_out d' = Some b /\ exists rd st,
      open_v3 age_Decrypt cfg (OpenSnapshotV3 cl (s_Generation snapshot) (s_Index snapshot)) "age decrypt snapshot" = Ok rd /\ rd_err rd = None /\
      applyWALSegmentsV3 checkpointV3 (read_segment age_Decrypt cfg cl (s_Generation snapshot)) (mkReplay (rd_data rd) (default [] (dk_tmpwal d)) None) segments = Ok st /\
      b = rp_db st
  | _ => dk_out d' = dk_out d
  end.
Proof.
  unfold restore_v3_files, downloadSnapshotV3.
  destruct (open_v3 _ _ _ _) as [rd|err|m]; [|intros [= <- <-]; done..].
  destruct (rio e RCreate) as [u|err|m]; [|intros [= <- <-]; done..].
  destruct (rd_err rd) as [err|] eqn:He; [intros [= <- <-]; done|].
  destruct (rio e RSync) as [u1|err|m]; [|intros [= <- <-]; done..]. cbn [dk_tmp set_tmp dk_tmpwal default].
  destruct (applyWALSegmentsV3 _ _ _ segments) as [st|err|m] eqn:HA; [|intros [= <- <-]; done..].
  destruct (rio e RRename) as [u2|err|m]; intros [= <- <-]; (split; [done|]); [|by case_bool_decide..].
  split; [done|]. exists rd, st. done.
Qed.

(** The call [HR] ended before it changed a file. *)
Ltac unchanged HR := injection HR as <- <-; split_and!; [by left|done|done].

(** A v0.3.x restore is complete or leaves nothing.  Afterwards the output does not
    exist or is the chosen snapshot with all chosen segments replayed, the second whenever no
    error is returned; the temporary file is gone if there was none before.  Started
    without a WAL file beside the temporary file, and when the segments are whole WAL files in order, that is the
    snapshot with each of these WAL files checkpointed in turn. *)
Theorem restore_v3_complete e opt cl d d' r :
  dk_out d = None -> RestoreV3 age_Decrypt cfg true checkpointV3 e opt cl d = (d', r) ->
  (dk_out d' = None \/ exists b, dk_out d' = Some b /\ v3_database cl (ro_Timestamp opt) (default [] (dk_tmpwal d)) b) /\
  (is_ok r = true -> is_Some (dk_out d')) /\ (dk_tmp d = None -> dk_tmp d' = None) /\
  (forall b groups data snapshot rd, dk_out d' = Some b -> dk_tmpwal d = None ->
     (forall db w db' w', checkpointV3 db w = Ok (db', w') -> w' = []) -> Forall wal_group groups ->
     v3_plan cl (ro_Timestamp opt) = Ok (snapshot, concat groups) ->
     open_v3 age_Decrypt cfg (OpenSnapshotV3 cl (s_Generation snapshot) (s_Index snapshot)) "age decrypt snapshot" = Ok rd ->
     (forall s, In s (concat groups) -> read_segment age_Decrypt cfg cl (s_Generation snapshot) s = Ok (mkReader (data s) None)) ->
     replay_wals checkpointV3 (rd_data rd) ((fun g => concat (data <$> g)) <$> groups) = Ok b).
Proof.
  intros Hout HR.
  assert ((dk_out d' = None \/ exists b, dk_out d' = Some b /\ v3_database cl (ro_Timestamp opt) (default [] (dk_tmpwal d)) b) /\
    (is_ok r = true -> is_Some (dk_out d')) /\ (dk_tmp d = None -> dk_tmp d' = None)) as (Hor & Hok & Htmp).
  { unfold RestoreV3 in HR. cbn [negb] in HR. case_bool_decide; [unchanged HR|].
    destruct (negb (valid_mode _)); [unchanged HR|].
    destruct (stat_out e RStat d) as [[]|err|m]; [unchanged HR| |unchanged HR..].
    destruct (v3_plan cl _) as [[snapshot segments]|err|m] eqn:HP; cbn [mbind result_bind] in HR; [|unchanged HR..].
    destruct (rio e RMkdir) as [u|err|m]; cbn [mbind result_bind wrap_err] in HR; [|unchanged HR..].
    destruct (restore_v3_files _ _ _ e cl snapshot segments d) as [d1 r1] eqn:HF. apply restore_v3_files_out in HF as [Ht1 HF].
    destruct r1 as [b|err|m]; [|injection HR as <- <-; split_and!; [left; congruence|done|done]..].
    destruct HF as (Hb & rd & st & Ho & He & HA & ->). apply check_restored_out in HR as [Hd' Hok]. split_and!.
    - destruct Hd' as [->| ->]; [right|by left]. exists (rp_db st). split; [done|]. by exists snapshot, segments, rd, st.
    - intros Hr. destruct (Hok Hr) as [-> _]. by rewrite Hb.
    - intros _. by destruct Hd' as [->| ->]. }
  split_and!; try done. intros b groups data snapshot rd Hb Hwal Htr HG HP Ho Hseg.
  destruct Hor as [?|(b' & Hb' & snap & segs & rd' & st & HP' & Ho' & _ & HA & Heq)]; [congruence|].
  rewrite HP in HP'. injection HP' as <- <-. rewrite Ho in Ho'. injection Ho' as <-. rewrite Hwal in HA. cbn [default] in HA.
  pose proof (applyWALSegmentsV3_correct checkpointV3 (read_segment age_Decrypt cfg cl (s_Generation snapshot)) data (rd_data rd) groups Htr HG Hseg) as HC.
  rewrite HA in HC. destruct HC as [-> _]. congruence.
Qed.
End ExactV3.

(** A v0.3.x backup: a snapshot at time 10 and three segments of one WAL file, written at
    20, 30 and 40; the third cannot be read when [broken].  A checkpoint appends the WAL to the database. *)
Module V3Demo.
Definition seg (off at_ : Z) : WALSegmentInfoV3 := mkSegmentV3 "g" 1 off 2 at_.
Definition client (broken : bool) : ReplicaClientV3 Mem.client := {|
  GenerationsV3 _ := Ok ["g"]; SnapshotsV3 _ _ := Ok [mkSnapshotV3 "g" 1 1 10]; WALSegmentsV3 _ _ := Ok [seg 0 20; seg 2 30; seg 4 40];
  OpenSnapshotV3 _ _ _ := Ok (mkReader [xff] None);
  OpenWALSegmentV3 _ _ _ off := if broken && (off =? 4) then Err (EMsg "connection reset") else Ok (mkReader [Zbyte off; Zbyte (off + 1)] None)
|}.
Definition append_wal (db wal : list byte) : result (list byte * list byte) := Ok (db ++ wal, []).
Definition opts (ts : time) : RestoreOptions := mkRestoreOptions "/db" 0 ts 8 false Second 0.
Definition restore (broken : bool) (ts : time) (d : disk) : disk * result () :=
  @RestoreV3 Mem.client (client broken) string string demo_open_age demo_cfg true append_wal RestoreDemo.calm (opts ts) RestoreDemo.storage d.

(** A restore that failed leaves the WAL file of its temporary database behind.  The next
    one writes over it without truncating: a restore to time 25 then contains the
    segment of time 30, which a restore on clean files does not. *)
Theorem stale_wal_replayed :
  exists d1, restore true 0 RestoreDemo.no_files = (d1, Err (EWrap "apply WAL segments" (EWrap "write WAL segment" (EMsg "connection reset")))) /\
    dk_out d1 = None /\ dk_tmp d1 = None /\
    dk_out (restore false 25 RestoreDemo.no_files).1 = Some [xff; x00; x01] /\
    dk_out (restore false 25 d1).1 = Some [xff; x00; x01; x02; x03] /\ (restore false 25 d1).2 = Ok ().
Proof. eexists. split; [vm_compute; reflexivity|]. vm_compute. repeat split. Qed.
End V3Demo.

Lemma restore_v3_complete_witness :
  exists d', V3Demo.restore false 0 RestoreDemo.no_files = (d', Ok ()) /\ dk_out d' = Some [xff; x00; x01; x02; x03; x04; x05] /\
    replay_wals V3Demo.append_wal [xff] [[x00; x01; x02; x03; x04; x05]] = Ok [xff; x00; x01; x02; x03; x04; x05].
Proof.
  destruct (V3Demo.restore false 0 RestoreDemo.no_files) as [d' res] eqn:E.
  assert (res = Ok ()) as Hres by (apply (f_equal snd) in E; vm_compute in E; symmetry; exact E). rewrite Hres in *.
  assert (dk_out d' = Some [xff; x00; x01; x02; x03; x04; x05]) as Hb by (apply (f_equal (fun x => dk_out (fst x))) in E; vm_compute in E; symmetry; exact E).
  exists d'. split; [reflexivity|]. split; [exact Hb|].
  destruct (@restore_v3_complete Mem.client (V3Demo.client false) string string demo_open_age demo_cfg V3Demo.append_wal RestoreDemo.calm (V3Demo.opts 0)
    RestoreDemo.storage RestoreDemo.no_files d' (Ok ()) eq_refl E) as (_ & _ & _ & HT).
  apply (HT [xff; x00; x01; x02; x03; x04; x05] [[V3Demo.seg 0 20; V3Demo.seg 2 30; V3Demo.seg 4 40]] (fun s => [Zbyte (w_Offset s); Zbyte (w_Offset s + 1)])
    (mkSnapshotV3 "g" 1 1 10) (mkReader [xff] None)).
  - exact Hb.
  - reflexivity.
  - intros db w db' w' Hc. injection Hc as _ <-. reflexivity.
  - constructor; [|constructor]. split; [reflexivity|]. repeat constructor; discriminate.
  - vm_compute. reflexivity.
  - vm_compute. reflexivity.
  - intros s Hs. destruct Hs as [<-|[<-|[<-|[]]]]; vm_compute; reflexivity.
Defined.
