(* ===== verification/Sdk.v ===== *)
(** * The library entry points

    Model of src/sdk.go: the replica that [Stream] and [Restore] build from the
    environment, with its policy that nothing is replicated in plaintext unless that is
    asked for, and what their results mean. *)

From Stdlib Require Import ZArith Lia Strings.Byte.
From stdpp Require Import base numbers list strings gmap sorting.
From S2P Require Import Prelude WalReader Ltx Streams RestorePlan Compactor Replica V3 Db PageIndex Pipeline Restore.
Local Open Scope Z_scope.

(** The environment of the process; a variable that is not set reads as empty. *)
Abbreviation environ := (gmap string string).
Definition Getenv (env : environ) (key : string) : string := default "" (env !! key).

Definition envOr (env : environ) (key fallback : string) : string :=
  if bool_decide (Getenv env key = "") then fallback else Getenv env key.

(** [strconv.ParseBool]: the value, false with an error. *)
Definition ParseBool (s : string) : bool := bool_decide (s ∈ ["1"; "t"; "T"; "TRUE"; "true"; "True"]).
Definition boolEnv (env : environ) (key : string) : bool := ParseBool (Getenv env key).

Definition DefaultSyncInterval : duration := Second.

Section Sdk.
Context {C : Type} `{RC : ReplicaClient C} {identity recipient : Type}.
(** [NewReplicaClientFromURL], which reads the environment, the age package's parsers,
    and [time.ParseDuration]. *)
Variable NewReplicaClientFromURL : environ -> string -> result C.
Variable ParseRecipients : string -> result (list recipient).
Variable ParseIdentities : string -> result (list identity).
Variable ParseDuration : string -> result duration.
(** [os.Hostname] and the escaping of [net/url]. *)
Variable Hostname : string.
Variable PathEscape QueryEscape : string -> string.

Definition parseDur (env : environ) (key : string) (fallback : duration) : duration :=
  if bool_decide (Getenv env key = "") then fallback
  else match ParseDuration (Getenv env key) with Ok d => d | _ => fallback end.

Definition ReplicaURL (env : environ) (prefix : string) : string :=
  let endpoint := Getenv env "REPLICATE_S3_ENDPOINT" in
  if bool_decide (endpoint = "") then "" else
  let prefix := if bool_decide (prefix = "") then Getenv env "REPLICATE_S3_PATH" else prefix in
  "s3://" +:+ PathEscape (envOr env "REPLICATE_S3_BUCKET" "replicate") +:+ "/" +:+ PathEscape prefix +:+
  "?endpoint=" +:+ QueryEscape endpoint +:+ "&region=" +:+ QueryEscape (envOr env "REPLICATE_S3_REGION" "us-central1") +:+
  "&force-path-style=true".

(** The credentials the S3 client reads. *)
Definition set_credentials (env : environ) : environ :=
  let env := if bool_decide (Getenv env "REPLICATE_S3_ACCESS_KEY" = "") then env
             else <["AWS_ACCESS_KEY_ID" := Getenv env "REPLICATE_S3_ACCESS_KEY"]> env in
  if bool_decide (Getenv env "REPLICATE_S3_SECRET_KEY" = "") then env
  else <["AWS_SECRET_ACCESS_KEY" := Getenv env "REPLICATE_S3_SECRET_KEY"]> env.

(** [newReplica]: the environment afterwards, the client and the settings. *)
Definition newReplica (env : environ) (dbPath replicaURL : string) : environ * result (C * ReplicaConfig identity recipient) :=
  if bool_decide (dbPath = "") then (env, Err (EMsg "replicate: database path required"))
  else if bool_decide (replicaURL = "") then (env, Err (EMsg "replicate: replica URL required"))
  else
    let env := set_credentials env in
    (env,
     client ← NewReplicaClientFromURL env replicaURL wrapping "replicate: bad replica URL";
     let requireEncryption := negb (boolEnv env "REPLICATE_ALLOW_PLAINTEXT") in
     rcs ← (if bool_decide (Getenv env "REPLICATE_AGE_RECIPIENT" = "") then Ok []
            else ParseRecipients (Getenv env "REPLICATE_AGE_RECIPIENT") wrapping "replicate: invalid REPLICATE_AGE_RECIPIENT");
     ids ← (if bool_decide (Getenv env "REPLICATE_AGE_IDENTITY" = "") then Ok []
            else ParseIdentities (Getenv env "REPLICATE_AGE_IDENTITY") wrapping "replicate: invalid REPLICATE_AGE_IDENTITY");
     if requireEncryption && (length rcs =? 0)%nat then Err (EMsg "replicate: REPLICATE_AGE_RECIPIENT is not set")
     else Ok (client, mkConfig (parseDur env "REPLICATE_SYNC_INTERVAL" DefaultSyncInterval) true false ids rcs requireEncryption)).

(** *** Streaming *)

(** What happened to the database handle of [Stream]. *)
Inductive handle := NotOpened | Running | Closed.

(** [Stream]; [open] and [sync] are the results of [Open] and of the first [Sync]. *)
Definition Stream (env : environ) (open sync : option error) (dbPath replicaURL : string)
    : environ * handle * result (C * ReplicaConfig identity recipient) :=
  match newReplica env dbPath replicaURL with
  | (env, Err e) => (env, NotOpened, Err e)
  | (env, Panic m) => (env, NotOpened, Panic m)
  | (env, Ok r) =>
      match open, sync with
      | Some e, _ => (env, NotOpened, Err (EWrap "replicate: open" e))
      | None, Some e => (env, Closed, Err (EWrap "replicate: initial sync" e))
      | None, None => (env, Running, Ok r)
      end
  end.

(** [AutoReplicate]: the handle that its stop function closes, if any. *)
Definition AutoReplicate (env : environ) (open sync : option error) (dbPath : string)
    : environ * handle * option (C * ReplicaConfig identity recipient) :=
  let prefix := if bool_decide (Getenv env "REPLICATE_S3_PATH" = "") then Hostname else Getenv env "REPLICATE_S3_PATH" in
  let replicaURL := ReplicaURL env prefix in
  if bool_decide (replicaURL = "") then (env, NotOpened, None) else
  match Stream env open sync dbPath replicaURL with
  | (env, h, Ok r) => (env, h, Some r)
  | (env, h, _) => (env, h, None)
  end.

(** *** Restoring *)
Section Restore.
Context `{RC3 : ReplicaClientV3 C} `{FS : FileInfoSliceOps} `{LF : LTXFormat}.
Variable age_Decrypt : list identity -> Reader -> result Reader.
Variable decode_database : list Reader -> list byte * option error.
Variable chunk : Z.
Variable v3 : bool.
Variable checkpointV3 : list byte -> list byte -> result (list byte * list byte).

(** The errors that mean that there is nothing to restore. *)
Definition cold_start (err : error) : bool :=
  errors_Is err ErrTxNotAvailable || errors_Is err ErrNoSnapshots || errors_Is err ErrNotExist.

Definition sdk_Restore (env : environ) (e : renv) (dbPath replicaURL : string) (d : disk) : environ * disk * result bool :=
  match newReplica env dbPath replicaURL with
  | (env, Err err) => (env, d, Err err)
  | (env, Panic m) => (env, d, Panic m)
  | (env, Ok (cl, cfg)) =>
      let opt := mkRestoreOptions dbPath (ro_TXID NewRestoreOptions) (ro_Timestamp NewRestoreOptions) (ro_Parallelism NewRestoreOptions)
                   (ro_Follow NewRestoreOptions) (ro_FollowInterval NewRestoreOptions) (ro_IntegrityCheck NewRestoreOptions) in
      match Restore age_Decrypt cfg decode_database chunk v3 checkpointV3 e opt cl d with
      | (d, Ok _) => (env, d, Ok true)
      | (d, Err err) => (env, d, if cold_start err then Ok false else Err err)
      | (d, Panic m) => (env, d, Panic m)
      end
  end.
End Restore.

(** ** The policy *)

(** The variables of the policy are not among the credentials. *)
Lemma Getenv_credentials env key :
  key <> "AWS_ACCESS_KEY_ID" -> key <> "AWS_SECRET_ACCESS_KEY" -> Getenv (set_credentials env) key = Getenv env key.
Proof.
  intros H1 H2. unfold set_credentials, Getenv. repeat case_bool_decide; by rewrite ?lookup_insert_ne by done.
Qed.

Lemma newReplica_policy env dbPath replicaURL env' cl cfg :
  newReplica env dbPath replicaURL = (env', Ok (cl, cfg)) ->
  MonitorEnabled cfg = true /\ RequireEncryption cfg = negb (boolEnv env "REPLICATE_ALLOW_PLAINTEXT") /\
  (boolEnv env "REPLICATE_ALLOW_PLAINTEXT" = false -> EncryptionEnabled cfg = true) /\
  (Getenv env "REPLICATE_AGE_RECIPIENT" <> "" -> ParseRecipients (Getenv env "REPLICATE_AGE_RECIPIENT") = Ok (AgeRecipients cfg)).
Proof.
  unfold newReplica. repeat (case_bool_decide; [done|]). intros [= _ HR]. unfold boolEnv in *. rewrite !Getenv_credentials in HR by done.
  destruct (NewReplicaClientFromURL _ _) as [cl0|e|m]; cbn [mbind result_bind wrap_err] in HR; [|done..].
  destruct (if bool_decide (Getenv env "REPLICATE_AGE_RECIPIENT" = "") then _ else _) as [rcs|e|m] eqn:HRc; cbn [mbind result_bind] in HR; [|done..].
  destruct (if bool_decide (Getenv env "REPLICATE_AGE_IDENTITY" = "") then _ else _) as [ids|e|m]; cbn [mbind result_bind] in HR; [|done..].
  destruct (negb _ && _) eqn:Hp; [done|]. injection HR as _ <-. cbn [RequireEncryption AgeRecipients]. split; [done|]. split; [done|]. split.
  - intros Hallow. rewrite Hallow in Hp. cbn [negb andb] in Hp. unfold EncryptionEnabled. cbn [AgeRecipients].
    apply Nat.eqb_neq in Hp. apply Nat.ltb_lt. lia.
  - intros Hne. rewrite bool_decide_eq_false_2 in HRc by done. destruct (ParseRecipients _) as [l|e|m]; cbn in HRc; [|done..]. by injection HRc as ->.
Qed.

Lemma Stream_running env open sync dbPath url env' h r :
  Stream env open sync dbPath url = (env', h, Ok r) -> h = Running /\ newReplica env dbPath url = (env', Ok r).
Proof.
  unfold Stream. destruct (newReplica env dbPath url) as [env1 [r1|e|m]]; [|intros [=]..].
  destruct open, sync; intros [=]; by subst.
Qed.
End Sdk.

Section Policy.
Context {C : Type} `{SL : StorageLaws C} {identity recipient : Type}.
Variable NewReplicaClientFromURL : environ -> string -> result C.
Variable ParseRecipients : string -> result (list recipient).
Variable ParseIdentities : string -> result (list identity).
Variable ParseDuration : string -> result duration.
Variable Hostname : string.
Variable PathEscape QueryEscape : string -> string.
Variable age_Encrypt : list recipient -> result (list byte -> list byte * option error).
Variable age_flushed : list recipient -> list byte -> list byte.

(** C23: nothing is streamed in plaintext unless that is asked for.  When [Stream] or
    [AutoReplicate] starts streaming and REPLICATE_ALLOW_PLAINTEXT is not a true value,
    the replica has the recipients of REPLICATE_AGE_RECIPIENT, at least one, its monitor starts, and
    every write through it leaves the object as it was or stores the stream sealed for
    these recipients, whatever the storage does; other objects are untouched.  A
    recipient that cannot be parsed never starts a stream. *)
Theorem sdk_fail_closed env open sync dbPath env' h cl (cfg : ReplicaConfig identity recipient) :
  AutoReplicate NewReplicaClientFromURL ParseRecipients ParseIdentities ParseDuration Hostname PathEscape QueryEscape env open sync dbPath = (env', h, Some (cl, cfg)) \/
  (exists url, Stream NewReplicaClientFromURL ParseRecipients ParseIdentities ParseDuration env open sync dbPath url = (env', h, Ok (cl, cfg))) ->
  h = Running /\
  (Getenv env "REPLICATE_AGE_RECIPIENT" <> "" -> ParseRecipients (Getenv env "REPLICATE_AGE_RECIPIENT") = Ok (AgeRecipients cfg)) /\
  (boolEnv env "REPLICATE_ALLOW_PLAINTEXT" = false ->
     AgeRecipients cfg <> [] /\ Start cfg = Ok true /\
     forall c level lo hi b c' res, r_WriteLTXFile age_Encrypt age_flushed cfg c level lo hi (mkReader b None) = (c', res) ->
       (stored c' level lo hi = stored c level lo hi \/
        exists ew x, age_Encrypt (AgeRecipients cfg) = Ok ew /\ ew b = (x, None) /\ stored c' level lo hi = Some x) /\
       (forall level' lo' hi', (level', lo', hi') <> (level, lo, hi) -> stored c' level' lo' hi' = stored c level' lo' hi')).
Proof.
  intros Hrun. assert (exists url, Stream NewReplicaClientFromURL ParseRecipients ParseIdentities ParseDuration env open sync dbPath url = (env', h, Ok (cl, cfg))) as [url HS].
  { destruct Hrun as [HA|?]; [|done]. unfold AutoReplicate in HA. case_bool_decide; [done|]. eexists.
    destruct (Stream _ _ _ _ _ _ _ _ _) as [[env1 h1] [r|e|m]] eqn:E; [|done..]. injection HA as <- <- ->. exact E. }
  apply Stream_running in HS as [-> HN]. destruct (newReplica_policy _ _ _ _ _ _ _ _ _ _ HN) as (Hmon & Hreq & Henc & Hrc).
  split; [done|]. split; [done|]. intros Hallow. specialize (Henc Hallow). split; [|split].
  - unfold EncryptionEnabled in Henc. by destruct (AgeRecipients cfg).
  - unfold Start. by rewrite Hmon, Henc, andb_false_r.
  - intros c level lo hi b c' res HW. apply r_WriteLTXFile_stored in HW as (Hor & _ & Hoth). split; [|done].
    destruct Hor as [?|(x & Hx & Hs)]; [by left|right]. unfold sealed_as in Hs. rewrite Henc in Hs. destruct Hs as (ew & He & Hw). by exists ew, x.
Qed.
End Policy.

(** ** What a restore reports *)
Section Report.
Context {C : Type} `{SL : StorageLaws C} `{OL : !OpenLaws C} `{RC3 : ReplicaClientV3 C} `{FI : FileInfoSliceLaws} `{LF : LTXFormat}.
Context {identity recipient : Type}.
Variable NewReplicaClientFromURL : environ -> string -> result C.
Variable ParseRecipients : string -> result (list recipient).
Variable ParseIdentities : string -> result (list identity).
Variable ParseDuration : string -> result duration.
Variable age_Encrypt : list recipient -> result (list byte -> list byte * option error).
Variable age_Decrypt : list identity -> Reader -> result Reader.
Variable LockPgno : Z -> Z.
Variable decode_database : list Reader -> list byte * option error.
Context `{ML : !MergeLaws LockPgno decode_database}.
Variable chunk : Z.
Variable checkpointV3 : list byte -> list byte -> result (list byte * list byte).
Variable page_at : TXID -> Z -> option (list byte).
Variable ps : Z.
Hypothesis ltx_not_sealed : forall g ct, EncodeLTX g <> ageStreamIntro_bytes ++ ct.
Hypothesis HeaderSize_pos : 0 < HeaderSize.

(** The restore of the library.  It refuses where streaming would refuse.  When it
    reports that there was something, the file is exactly the database of a transaction
    that no file of a compaction level in the storage goes beyond; when it reports nothing or
    an error the file is absent or exact.  A newer backup of version 3 is left out. *)
Theorem sdk_restore_sound v3 env e dbPath url d env' d' res cl cfg :
  newReplica NewReplicaClientFromURL ParseRecipients ParseIdentities ParseDuration env dbPath url = (env', Ok (cl, cfg)) ->
  AgeLaws age_Encrypt age_Decrypt (AgeIdentities cfg) (AgeRecipients cfg) ->
  backup age_Encrypt cfg LockPgno page_at ps cl -> (forall q, page_at 0 q = None) -> dk_out d = None ->
  sdk_Restore NewReplicaClientFromURL ParseRecipients ParseIdentities ParseDuration age_Decrypt decode_database chunk v3 checkpointV3 env e dbPath url d = (env', d', res) ->
  (v3 = true -> shouldUseV3Restore cl 0 <> Ok true) ->
  (boolEnv env "REPLICATE_ALLOW_PLAINTEXT" = false -> EncryptionEnabled cfg = true) /\
  (dk_out d' = None \/ exists T, restored_to LockPgno page_at ps d' T) /\
  (res = Ok true -> exists T, restored_to LockPgno page_at ps d' T /\
     forall level lo hi, 0 <= level < SnapshotLevel -> is_Some (stored cl level lo hi) -> hi <= T).
Proof.
  intros HN HAL Hb Hz Hout HS Hv3. split; [by apply (newReplica_policy _ _ _ _ _ _ _ _ _ _ HN)|].
  unfold sdk_Restore in HS. rewrite HN in HS. destruct (Restore _ _ _ _ _ _ _ _ _ _) as [d1 r1] eqn:HR.
  apply (restore_new age_Encrypt age_Decrypt cfg LockPgno decode_database chunk checkpointV3 page_at ps ltx_not_sealed HeaderSize_pos) in HR as [Hor Hok]; [|done|done|cbn; lia|done|by intros (Ev & _ & _ & Es); apply (Hv3 Ev)].
  destruct r1 as [r|err|m]; injection HS as <- <-; (split; [done|]); [|by destruct (cold_start err)|done].
  intros _. destruct (Hok r eq_refl) as (T & HT & _ & Hl & _). exists T. split; [done|]. by apply Hl.
Qed.
End Report.

Module SdkDemo.
#[local] Existing Instance PlainFormat.format.
Definition env : environ := {["REPLICATE_AGE_RECIPIENT" := "age1"; "REPLICATE_AGE_IDENTITY" := "key"; "REPLICATE_S3_ENDPOINT" := "s3.local"]}.
Definition parse (s : string) : result (list string) := Ok [s].
Definition no_duration (s : string) : result duration := Err (EMsg "invalid duration").
Definition connect (cl : Mem.client) (env : environ) (url : string) : result Mem.client := Ok cl.
Definition restore (cl : Mem.client) : environ * disk * result bool :=
  @sdk_Restore Mem.client Mem.client_ops string string (connect cl) parse parse no_duration RestoreDemo.no_v3 last_slice PlainFormat.format
    demo_open_age PlainFormat.decode_database 4096 false (fun _ _ => Err ErrNotExist) env RestoreDemo.calm "/db" "s3://b/p" RestoreDemo.no_files.

(** The second of three level-0 files is gone and the snapshot with it: the replica
    holds transactions that cannot be restored, and the answer is that it holds
    nothing yet. *)
Definition damaged : Mem.client := Mem.mkClient [RestoreDemo.obj 0 2 2 RestoreDemo.f2; RestoreDemo.obj 0 3 3 RestoreDemo.f3] eq_refl.
Theorem damaged_is_cold_start :
  stored damaged 0 3 3 = Some (RestoreDemo.seal RestoreDemo.f3) /\ (restore damaged).2 = Ok false /\ dk_out (restore damaged).1.2 = None.
Proof. vm_compute. repeat split. Qed.

(** A file that is deleted between the plan and its opening gives the same answer. *)
Definition vanishing : ReplicaClient Mem.client := {|
  LTXFiles := LTXFiles; OpenLTXFile _ _ _ _ _ _ := Err (EPath "open" ErrNotExist); DeleteLTXFiles := DeleteLTXFiles; WriteLTXFile := WriteLTXFile
|}.
Theorem vanished_is_cold_start :
  (@sdk_Restore Mem.client vanishing string string (connect RestoreDemo.storage) parse parse no_duration RestoreDemo.no_v3 last_slice PlainFormat.format
    demo_open_age PlainFormat.decode_database 4096 false (fun _ _ => Err ErrNotExist) env RestoreDemo.calm "/db" "s3://b/p" RestoreDemo.no_files).2 = Ok false.
Proof. vm_compute. reflexivity. Qed.
End SdkDemo.

#[local] Existing Instance PlainFormat.format.
#[local] Existing Instance PlainFormat.merge_laws.
#[local] Existing Instance last_slice.
#[local] Existing Instance last_slice_laws.
#[local] Existing Instance RestoreDemo.no_v3.

Lemma sdk_fail_closed_witness :
  exists env' cl cfg,
    AutoReplicate (SdkDemo.connect RestoreDemo.storage) SdkDemo.parse SdkDemo.parse SdkDemo.no_duration "host" id id SdkDemo.env None None "/db" = (env', Running, Some (cl, cfg)) /\
    @AgeRecipients string string cfg <> [] /\ Start cfg = Ok true.
Proof.
  destruct (AutoReplicate (SdkDemo.connect RestoreDemo.storage) SdkDemo.parse SdkDemo.parse SdkDemo.no_duration "host" id id SdkDemo.env None None "/db")
    as [[env' h] [[cl cfg]|]] eqn:E; [|vm_compute in E; discriminate].
  destruct (sdk_fail_closed (SdkDemo.connect RestoreDemo.storage) SdkDemo.parse SdkDemo.parse SdkDemo.no_duration "host" id id demo_encrypt demo_flush
    SdkDemo.env None None "/db" env' h cl cfg) as (-> & _ & HT).
  - left. exact E.
  - destruct HT as (Hne & Hst & _); [vm_compute; reflexivity|]. exists env', cl, cfg. split; [reflexivity|]. split; [exact Hne|exact Hst].
Defined.

Lemma sdk_restore_sound_witness :
  exists env' d', SdkDemo.restore RestoreDemo.storage = (env', d', Ok true) /\ dk_out d' = Some [x0c; x0c; x0d; x0d] /\
    exists T, restored_to RestoreDemo.lock (state_at RestoreDemo.hist) 2 d' T.
Proof.
  destruct (SdkDemo.restore RestoreDemo.storage) as [[env' d'] res] eqn:E.
  assert (res = Ok true) as Hres by (apply (f_equal snd) in E; vm_compute in E; symmetry; exact E). rewrite Hres in *.
  destruct (newReplica (SdkDemo.connect RestoreDemo.storage) SdkDemo.parse SdkDemo.parse SdkDemo.no_duration SdkDemo.env "/db" "s3://b/p") as [env1 r1] eqn:HN.
  assert (env1 = env' /\ r1 = Ok (RestoreDemo.storage, mkConfig Second true false ["key"] ["age1"] true)) as [-> ->].
  { unfold SdkDemo.restore, sdk_Restore in E. rewrite HN in E. apply (f_equal snd) in HN. vm_compute in HN. cbn [snd] in HN. subst r1.
    split; [|reflexivity]. destruct (Restore _ _ _ _ _ _ _ _ _ _) as [d2 [r2|e2|m2]]; congruence. }
  exists env', d'. split; [reflexivity|]. split; [apply (f_equal (fun x => dk_out x.1.2)) in E; vm_compute in E; symmetry; exact E|].
  destruct (sdk_restore_sound (SdkDemo.connect RestoreDemo.storage) SdkDemo.parse SdkDemo.parse SdkDemo.no_duration demo_encrypt demo_open_age RestoreDemo.lock
    PlainFormat.decode_database 4096 (fun _ _ => Err ErrNotExist) (state_at RestoreDemo.hist) 2 PlainFormat.encode_not_sealed ltac:(reflexivity)
    false SdkDemo.env RestoreDemo.calm "/db" "s3://b/p" RestoreDemo.no_files env' d' (Ok true) RestoreDemo.storage (mkConfig Second true false ["key"] ["age1"] true))
    as (_ & _ & HT).
  - exact HN.
  - apply demo_age_laws.
  - exact (RestoreDemo.storage_backup _).
  - reflexivity.
  - reflexivity.
  - exact E.
  - discriminate.
  - destruct (HT eq_refl) as (T & HR & _). exists T. exact HR.
Defined.
