(* ===== verification/Urls.v ===== *)
(** * Replica URLs, endpoints and keys

    Model of the string functions of src/replica_url.go and src/sharded_prefix.go:
    cleaning of replica paths, access point ARNs, classification of S3 endpoints, and sharded keys.
    Strings are lists of ASCII characters. *)

From Stdlib Require Import ZArith Lia Ascii String Strings.Byte.
From stdpp Require Import base numbers list strings gmap sorting.
From S2P Require Import Prelude V3.
Local Open Scope Z_scope.

Abbreviation str := (list ascii).
Definition lit (s : string) : str := list_ascii_of_string s.

(** ** The strings package *)

Definition HasPrefix (s prefix : str) : bool := bool_decide (take (length prefix) s = prefix).
Definition HasSuffix (s suffix : str) : bool := bool_decide (drop (length s - length suffix) s = suffix).
Definition TrimPrefix (s prefix : str) : str := if HasPrefix s prefix then drop (length prefix) s else s.

(** [strings.Index]: the first position of a substring. *)
Fixpoint Index (s sub : str) : option nat :=
  if HasPrefix s sub then Some 0%nat else
  match s with [] => None | _ :: s => S <$> Index s sub end.
Definition Contains (s sub : str) : bool := bool_decide (is_Some (Index s sub)).

Definition lower (c : ascii) : ascii :=
  let n := nat_of_ascii c in if (65 <=? n)%nat && (n <=? 90)%nat then ascii_of_nat (n + 32) else c.
Definition ToLower (s : str) : str := lower <$> s.

(** [strings.Split] at one character, and [strings.Join]. *)
Fixpoint split (sep : ascii) (s : str) : list str :=
  match s with
  | [] => [[]]
  | c :: s => if bool_decide (c = sep) then [] :: split sep s
              else match split sep s with w :: ws => (c :: w) :: ws | [] => [[c]] end
  end.
Fixpoint join (sep : ascii) (ws : list str) : str :=
  match ws with
  | [] => []
  | [w] => w
  | w :: ws => w ++ sep :: join sep ws
  end.

Definition slash : ascii := "/"%char.
Definition dot : str := lit ".".
Definition dotdot : str := lit "..".

(** ** [path.Clean] *)

(** The elements that remain, the last one first. *)
Fixpoint clean_elems (rooted : bool) (stack ws : list str) : list str :=
  match ws with
  | [] => stack
  | w :: ws =>
      if bool_decide (w = []) || bool_decide (w = dot) then clean_elems rooted stack ws
      else if bool_decide (w = dotdot) then
        match stack with
        | top :: rest => if bool_decide (top = dotdot) then clean_elems rooted (w :: stack) ws else clean_elems rooted rest ws
        | [] => clean_elems rooted (if rooted then [] else [w]) ws
        end
      else clean_elems rooted (w :: stack) ws
  end.

Definition path_Clean (p : str) : str :=
  if bool_decide (p = []) then dot else
  let rooted := HasPrefix p [slash] in
  let ws := rev (clean_elems rooted [] (split slash p)) in
  if rooted then slash :: join slash ws
  else if bool_decide (ws = []) then dot else join slash ws.

(** [path.Base]. *)
Fixpoint trim_slashes (r : str) : str := match r with c :: r' => if bool_decide (c = slash) then trim_slashes r' else r | [] => [] end.
Definition path_Base (p : str) : str :=
  if bool_decide (p = []) then dot else
  let p := rev (trim_slashes (rev p)) in
  if bool_decide (p = []) then [slash] else List.last (split slash p) [].

Definition CleanReplicaURLPath (p : str) : str :=
  if bool_decide (p = []) then [] else
  let cleaned := TrimPrefix (path_Clean (slash :: p)) [slash] in
  if bool_decide (cleaned = dot) then [] else cleaned.

(** ** Access point ARNs *)

Definition accesspoint : str := lit ":accesspoint/".

Definition splitS3AccessPointARN (s : str) : result (str * str) :=
  match Index (ToLower s) accesspoint with
  | None => Err (EMsg "invalid s3 access point arn")
  | Some idx =>
      let nameStart := (idx + length accesspoint)%nat in
      if (length s <=? nameStart)%nat then Err (EMsg "invalid s3 access point arn") else
      let remainder := drop nameStart s in
      match Index remainder [slash] with
      | None => Ok (s, [])
      | Some slashIdx => Ok (take (nameStart + slashIdx) s, drop (S slashIdx) remainder)
      end
  end.

(** [parseS3AccessPointURL]: scheme, host, path and the raw query. *)
Definition parseS3AccessPointURL (s : str) : result (str * str * str * str) :=
  let prefix := lit "s3://" in
  if negb (HasPrefix (ToLower s) prefix) then Err (EMsg "invalid s3 access point url") else
  let arnWithPath := drop (length prefix) s in
  let '(arnWithPath, queryStr) :=
    match Index arnWithPath (lit "?") with
    | Some idx => (take idx arnWithPath, drop (S idx) arnWithPath)
    | None => (arnWithPath, [])
    end in
  '(bucket, key) ← splitS3AccessPointARN arnWithPath;
  Ok (lit "s3", bucket, CleanReplicaURLPath key, queryStr).

(** [strings.SplitN(arn, ":", 6)]: at most six parts. *)
Fixpoint SplitN (n : nat) (sep : ascii) (s : str) : list str :=
  match n with
  | O => []
  | S O => [s]
  | S n => match Index s [sep] with
           | Some i => take i s :: SplitN n sep (drop (S i) s)
           | None => [s]
           end
  end.
Definition RegionFromS3ARN (arn : str) : str :=
  let parts := SplitN 6 ":"%char arn in
  if (4 <=? length parts)%nat then default [] (parts !! 3%nat) else [].

(** [query.Get] of the keys in turn. *)
Fixpoint BoolQueryValue (query : string -> str) (keys : list string) : bool * bool :=
  match keys with
  | [] => (false, false)
  | key :: keys =>
      let raw := query key in
      if bool_decide (raw = []) then BoolQueryValue query keys
      else (bool_decide (ToLower raw ∈ [lit "true"; lit "1"; lit "t"; lit "yes"]), true)
  end.

(** ** Endpoints *)
Section Endpoints.
(** [strings.TrimSpace], and the host of an http URL by [url.Parse]; [None] is an error
    or an empty host. *)
Variable TrimSpace : str -> str.
Variable url_host : str -> option str.

Definition has_scheme (s : str) : bool := HasPrefix s (lit "http://") || HasPrefix s (lit "https://").

Definition extractEndpointHost (endpoint : str) : str :=
  let endpoint := TrimSpace (ToLower endpoint) in
  if bool_decide (endpoint = []) then []
  else if has_scheme endpoint then default endpoint (url_host endpoint) else endpoint.

Definition host_suffix (suffix : string) (endpoint : str) : bool :=
  let host := extractEndpointHost endpoint in
  if bool_decide (host = []) then false else HasSuffix host (lit suffix).
Definition IsHetznerEndpoint : str -> bool := host_suffix ".your-objectstorage.com".
Definition IsDigitalOceanEndpoint : str -> bool := host_suffix ".digitaloceanspaces.com".
Definition IsBackblazeEndpoint : str -> bool := host_suffix ".backblazeb2.com".
Definition IsScalewayEndpoint : str -> bool := host_suffix ".scw.cloud".
Definition IsCloudflareR2Endpoint : str -> bool := host_suffix ".r2.cloudflarestorage.com".
Definition IsSupabaseEndpoint : str -> bool := host_suffix ".supabase.co".
Definition IsTigrisEndpoint (endpoint : str) : bool :=
  let host := extractEndpointHost endpoint in bool_decide (host = lit "fly.storage.tigris.dev") || bool_decide (host = lit "t3.storage.dev").
Definition IsFilebaseEndpoint (endpoint : str) : bool :=
  let host := extractEndpointHost endpoint in if bool_decide (host = []) then false else bool_decide (host = lit "s3.filebase.com").

Definition cloud_providers : list str :=
  [lit ".amazonaws.com"; lit ".digitaloceanspaces.com"; lit ".backblazeb2.com"; lit ".filebase.com"; lit ".scw.cloud";
   lit ".r2.cloudflarestorage.com"; lit "tigris.dev"; lit "t3.storage.dev"; lit ".supabase.co"].
Definition IsSelfHostedS3Endpoint (endpoint : str) : bool :=
  let host := extractEndpointHost endpoint in
  if bool_decide (host = []) then false
  else if negb (Contains host (lit ":")) then false
  else negb (existsb (Contains host) cloud_providers).

(** The host without its port: up to the last colon. *)
Definition without_port (host : str) : str :=
  match Index (rev host) (lit ":") with Some i => take (length host - S i) host | None => host end.

Definition local_prefixes : list str :=
  [lit "192.168."; lit "10."; lit "172.16."; lit "172.17."; lit "172.18."; lit "172.19."; lit "172.2"; lit "172.30."; lit "172.31."].
Definition IsLocalEndpoint (endpoint : str) : bool :=
  let host := extractEndpointHost endpoint in
  if bool_decide (host = []) then false else
  let host := without_port host in
  bool_decide (host = lit "localhost") || bool_decide (host = lit "127.0.0.1") || existsb (HasPrefix host) local_prefixes ||
  HasSuffix host (lit ".local") || HasSuffix host (lit ".localhost").

Definition EnsureEndpointScheme (endpoint : str) : str * bool :=
  if bool_decide (endpoint = []) then ([], false)
  else if has_scheme endpoint then (endpoint, false)
  else if IsLocalEndpoint endpoint then (lit "http://" ++ endpoint, true)
  else (lit "https://" ++ endpoint, true).
End Endpoints.

(** ** Sharded keys *)
Section Shards.
(** The first byte of the keyed hash of a symbol. *)
Variable blake3 : str -> byte.

Definition ShardedPrefix (symbol : str) : str := hexN 2 (byteZ (blake3 symbol)).
Definition ShardedKey (rootSegment symbol suffix : str) : str :=
  (if bool_decide (rootSegment = []) then [] else rootSegment ++ [slash]) ++ ShardedPrefix symbol ++ [slash] ++ symbol ++
  (if bool_decide (suffix = []) then [] else slash :: suffix).
End Shards.

(** ** Splitting and joining *)

Definition no_sep (sep : ascii) (w : str) : Prop := ~ In sep w.

Lemma split_ne sep s : split sep s <> [].
Proof. destruct s as [|c s]; [done|]. cbn [split]. case_bool_decide; [done|]. by destruct (split sep s). Qed.

Lemma join_cons sep w ws : ws <> [] -> join sep (w :: ws) = w ++ sep :: join sep ws.
Proof. by destruct ws. Qed.

Lemma join_split sep s : join sep (split sep s) = s.
Proof.
  induction s as [|c s IH]; [done|]. cbn [split]. pose proof (split_ne sep s) as Hne. case_bool_decide as Hc.
  - rewrite join_cons, IH by done. by subst.
  - destruct (split sep s) as [|w ws]; [done|]. destruct ws as [|w' ws]; [simpl in *; by f_equal|].
    rewrite join_cons in IH |- * by done. rewrite <- app_comm_cons. by f_equal.
Qed.

Lemma split_no_sep sep s : Forall (no_sep sep) (split sep s).
Proof.
  induction s as [|c s IH]; [by repeat constructor; intros []|]. cbn [split]. case_bool_decide as Hc; [constructor; [by intros []|done]|].
  destruct (split sep s) as [|w ws]; [repeat constructor; intros [?|[]]; congruence|].
  apply Forall_cons in IH as [Hw Hws]. constructor; [|done]. intros [?|?]; [congruence|by apply Hw].
Qed.

Lemma split_app sep w s : no_sep sep w -> split sep (w ++ sep :: s) = w :: split sep s.
Proof.
  intros Hw. induction w as [|c w IH]; cbn [app split]; [by rewrite bool_decide_eq_true_2|].
  rewrite bool_decide_eq_false_2 by (intros ->; apply Hw; by left). rewrite IH; [done|]. intros ?. apply Hw. by right.
Qed.

Lemma split_single sep w : no_sep sep w -> split sep w = [w].
Proof.
  intros Hw. induction w as [|c w IH]; [done|]. cbn [split].
  rewrite bool_decide_eq_false_2 by (intros ->; apply Hw; by left). rewrite IH; [done|]. intros ?. apply Hw. by right.
Qed.

Lemma split_join sep ws : ws <> [] -> Forall (no_sep sep) ws -> split sep (join sep ws) = ws.
Proof.
  induction ws as [|w ws IH]; [done|]. intros _ [Hw Hws]%Forall_cons. destruct ws as [|w' ws]; [by apply split_single|].
  rewrite join_cons, split_app by done. f_equal. by apply IH.
Qed.

(** ** Cleaned paths *)

(** An element that names an entry of its directory. *)
Definition safe_elem (w : str) : Prop := w <> [] /\ w <> dot /\ w <> dotdot /\ no_sep slash w.

Lemma clean_elems_safe stack ws :
  Forall safe_elem stack -> Forall (no_sep slash) ws -> Forall safe_elem (clean_elems true stack ws).
Proof.
  revert stack. induction ws as [|w ws IH]; intros stack Hs Hw; cbn [clean_elems]; [done|]. apply Forall_cons in Hw as [Hw Hws].
  case_bool_decide as H1; cbn [orb]; [by apply IH|]. case_bool_decide as H2; [by apply IH|]. case_bool_decide as H3.
  - destruct stack as [|top rest]; [by apply IH|]. apply Forall_cons in Hs as [Ht Hrest]. case_bool_decide as H4; [|by apply IH].
    by destruct Ht as (_ & _ & ? & _).
  - apply IH; [|done]. by constructor.
Qed.

Lemma clean_elems_id rooted stack ws : Forall safe_elem ws -> clean_elems rooted stack ws = rev ws ++ stack.
Proof.
  revert stack. induction ws as [|w ws IH]; intros stack Hw; cbn [clean_elems]; [done|]. apply Forall_cons in Hw as [(H1 & H2 & H3 & _) Hws].
  rewrite !bool_decide_eq_false_2 by done. cbn [orb]. rewrite IH by done. simpl. by rewrite <- app_assoc.
Qed.

Lemma join_dot ws : Forall safe_elem ws -> join slash ws <> dot.
Proof.
  destruct ws as [|w ws]; [done|]. intros [(H1 & H2 & _) _]%Forall_cons. destruct ws as [|w' ws]; [done|]. rewrite join_cons by done.
  destruct w as [|c [|c' w]]; [done|..]; discriminate.
Qed.

(** A cleaned path, by its elements. *)
Lemma CleanReplicaURLPath_elems p :
  exists ws, Forall safe_elem ws /\ CleanReplicaURLPath p = join slash ws /\ (p <> [] -> ws = rev (clean_elems true [] (split slash p))).
Proof.
  unfold CleanReplicaURLPath. case_bool_decide as Hp; [by exists []|].
  exists (rev (clean_elems true [] (split slash p))).
  assert (Forall safe_elem (rev (clean_elems true [] (split slash p)))) as Hs
    by (apply Forall_rev, clean_elems_safe; [constructor|apply split_no_sep]).
  split; [done|]. split; [|done]. unfold path_Clean. cbn [split]. rewrite (bool_decide_eq_false_2 (slash :: p = [])) by done.
  assert (HasPrefix (slash :: p) [slash] = true) as -> by (by apply bool_decide_eq_true).
  rewrite (bool_decide_eq_true_2 (slash = slash)) by done. cbn [clean_elems]. rewrite (bool_decide_eq_true_2 (@nil ascii = [])) by done. cbn [orb].
  unfold TrimPrefix. assert (HasPrefix (slash :: join slash (rev (clean_elems true [] (split slash p)))) [slash] = true) as -> by (by apply bool_decide_eq_true).
  cbn [length drop]. rewrite drop_0. by rewrite bool_decide_eq_false_2 by (by apply join_dot).
Qed.

Lemma CleanReplicaURLPath_id ws : Forall safe_elem ws -> CleanReplicaURLPath (join slash ws) = join slash ws.
Proof.
  intros Hs. destruct (decide (ws = [])) as [->|Hne]; [done|].
  destruct (CleanReplicaURLPath_elems (join slash ws)) as (ws' & _ & -> & Hws'). f_equal.
  assert (split slash (join slash ws) = ws) as Hsp by (apply split_join; [done|]; eapply Forall_impl; [exact Hs|]; by intros w (_ & _ & _ & ?)).
  rewrite Hws', Hsp, clean_elems_id by first [done | intros E; rewrite E in Hsp; cbn in Hsp; subst ws; apply Forall_cons in Hs as [[? _] _]; done].
  by rewrite app_nil_r, rev_involutive.
Qed.

(** A replica path stays under its root.  Every cleaned path is empty or a sequence
    of elements that are neither empty nor "." nor "..", so joined to a prefix it names
    something below that prefix; cleaning it again changes nothing; and paths that consist of
    such elements are left as they are. *)
Theorem clean_path_safe p :
  (CleanReplicaURLPath p = [] \/ Forall safe_elem (split slash (CleanReplicaURLPath p))) /\
  CleanReplicaURLPath (CleanReplicaURLPath p) = CleanReplicaURLPath p /\
  (Forall safe_elem (split slash p) -> CleanReplicaURLPath p = p).
Proof.
  split; [|split].
  - destruct (CleanReplicaURLPath_elems p) as (ws & Hs & -> & _). destruct (decide (ws = [])) as [->|Hne]; [by left|right].
    rewrite split_join; [done|done|]. eapply Forall_impl; [exact Hs|]. by intros w (_ & _ & _ & ?).
  - destruct (CleanReplicaURLPath_elems p) as (ws & Hs & -> & _). by apply CleanReplicaURLPath_id.
  - intros Hs. rewrite <- (join_split slash p) at 1. rewrite CleanReplicaURLPath_id by done. apply join_split.
Qed.

(** ** Substrings *)

Lemma HasPrefix_app s sub : HasPrefix s sub = true <-> exists post, s = sub ++ post.
Proof.
  unfold HasPrefix. rewrite bool_decide_eq_true. split.
  - intros <-. exists (drop (length sub) s). by rewrite take_drop.
  - intros [post ->]. by rewrite take_app_length.
Qed.

Lemma Index_Some s sub i : Index s sub = Some i -> exists post, s = take i s ++ sub ++ post /\ length (take i s) = i.
Proof.
  revert i. induction s as [|c s IH]; intros i; cbn [Index].
  - destruct (HasPrefix [] sub) eqn:E; [|done]. intros [= <-]. apply HasPrefix_app in E as [post ->]. by exists post.
  - destruct (HasPrefix (c :: s) sub) eqn:E.
    + intros [= <-]. apply HasPrefix_app in E as [post Hp]. exists post. by rewrite Hp.
    + destruct (Index s sub) as [j|]; [|done]. intros [= <-]. destruct (IH j eq_refl) as (post & Hs & Hl). exists post. simpl. split; [by f_equal|by rewrite Hl].
Qed.

Lemma Index_first s c i : Index s [c] = Some i -> ~ In c (take i s).
Proof.
  revert i. induction s as [|x s IH]; intros i; cbn [Index]; [by destruct (HasPrefix [] [c]) eqn:E; [apply HasPrefix_app in E as [? ?]|]|].
  destruct (HasPrefix (x :: s) [c]) eqn:E; [intros [= <-]; by intros []|].
  destruct (Index s [c]) as [j|]; [|done]. intros [= <-]. simpl. intros [->|Hin]; [|by apply (IH j eq_refl)].
  apply not_true_iff_false in E. apply E, HasPrefix_app. by exists s.
Qed.

Lemma Index_None s c : Index s [c] = None -> ~ In c s.
Proof.
  induction s as [|x s IH]; cbn [Index]; [by intros _ []|]. destruct (HasPrefix (x :: s) [c]) eqn:E; [done|].
  destruct (Index s [c]); [done|]. intros _ [->|Hin]; [|by apply IH]. apply not_true_iff_false in E. apply E, HasPrefix_app. by exists s.
Qed.

(** Splitting an access point ARN loses nothing: a result gives back the input, the
    bucket ends with an access point name without a slash, and the key is what follows. *)
Theorem split_arn_roundtrip s bucket key :
  splitS3AccessPointARN s = Ok (bucket, key) ->
  (s = bucket /\ key = [] \/ s = bucket ++ slash :: key) /\
  exists i name, ToLower (take (i + length accesspoint) bucket) = ToLower (take i bucket) ++ accesspoint /\
    bucket = take (i + length accesspoint) bucket ++ name /\ ~ In slash name.
Proof.
  unfold splitS3AccessPointARN. destruct (Index (ToLower s) accesspoint) as [idx|] eqn:HI; [|done].
  apply Index_Some in HI as (post & Hlow & Hlen). unfold ToLower in *.
  rewrite <- fmap_take in Hlow, Hlen. rewrite length_fmap, length_take in Hlen.
  set (n := (idx + length accesspoint)%nat). destruct (Nat.leb_spec (length s) n) as [|Hn]; [done|].
  assert (lower <$> take n s = (lower <$> take idx s) ++ accesspoint) as Htake.
  { rewrite fmap_take, Hlow. unfold n. rewrite app_assoc, take_app_le, take_ge; [done|..]; rewrite length_app, length_fmap, length_take; unfold n in *; lia. }
  destruct (Index (drop n s) [slash]) as [j|] eqn:HS; intros [= <- <-].
  - pose proof (Index_first _ _ _ HS) as Hno. apply Index_Some in HS as (post' & Hs' & Hj). rewrite length_take in Hj.
    assert (take (n + j) s = take n s ++ take j (drop n s)) as Hsplit by (by rewrite take_take_drop).
    split.
    + right. rewrite <- (take_drop n s) at 1. rewrite Hs' at 1. rewrite app_assoc, <- Hsplit. f_equal. simpl. f_equal.
      rewrite Hs'. rewrite drop_app_ge by (rewrite length_take; lia). rewrite length_take. replace (S j - j `min` length (drop n s))%nat with 1%nat by lia. done.
    + exists idx, (take j (drop n s)). fold n. rewrite !take_take, !Nat.min_l by lia. split; [done|]. split; [|done]. exact Hsplit.
  - split; [by left|]. exists idx, (drop n s). fold n. split; [done|]. split; [by rewrite take_drop|by apply Index_None].
Qed.

(** ** Endpoints and keys *)

(** An endpoint that is not empty ends up with a scheme, its own text after it, http only for a
    local one; with a scheme it stays as it is. *)
Theorem endpoint_scheme TrimSpace url_host endpoint endpoint' added :
  endpoint <> [] -> EnsureEndpointScheme TrimSpace url_host endpoint = (endpoint', added) ->
  has_scheme endpoint' = true /\ EnsureEndpointScheme TrimSpace url_host endpoint' = (endpoint', false) /\
  (added = negb (has_scheme endpoint)) /\
  (added = true -> endpoint' = lit (if IsLocalEndpoint TrimSpace url_host endpoint then "http://" else "https://") ++ endpoint).
Proof.
  intros Hne. unfold EnsureEndpointScheme. rewrite (bool_decide_eq_false_2 (endpoint = [])) by done.
  assert (forall e, has_scheme (lit "http://" ++ e) = true /\ has_scheme (lit "https://" ++ e) = true) as Hsch.
  { intros e. unfold has_scheme. rewrite (proj2 (HasPrefix_app (lit "http://" ++ e) (lit "http://"))) by (by exists e).
    rewrite (proj2 (HasPrefix_app (lit "https://" ++ e) (lit "https://"))) by (by exists e). by rewrite orb_true_r. }
  destruct (has_scheme endpoint) eqn:Hh.
  - intros [= <- <-]. rewrite (bool_decide_eq_false_2 (endpoint = [])), Hh by done. done.
  - destruct (IsLocalEndpoint TrimSpace url_host endpoint); intros [= <- <-]; destruct (Hsch endpoint) as [H1 H2];
      rewrite ?H1, ?H2, bool_decide_eq_false_2 by done; done.
Qed.

(** The prefix for 172.20 to 172.29 also matches public addresses: 172.200.1.1 is not in
    172.16.0.0/12, and its endpoint is completed to plain http. *)
Theorem public_endpoint_plain :
  EnsureEndpointScheme id (fun _ => None) (lit "172.200.1.1:9000") = (lit "http://172.200.1.1:9000", true) /\
  EnsureEndpointScheme id (fun _ => None) (lit "172.32.1.1:9000") = (lit "https://172.32.1.1:9000", true).
Proof. split; vm_compute; reflexivity. Qed.

Lemma ShardedPrefix_no_sep blake3 symbol : no_sep slash (ShardedPrefix blake3 symbol).
Proof.
  unfold ShardedPrefix. intros Hin. pose proof (is_hex_hexN 2 (byteZ (blake3 symbol))) as Hx. unfold is_hex in Hx.
  pose proof (proj1 (forallb_forall _ _) Hx slash Hin) as Hs. vm_compute in Hs. discriminate Hs.
Qed.

(** Keys of different roots, symbols or suffixes are different: the segments can be
    read back from a key. *)
Theorem sharded_keys_distinct blake3 root symbol suffix root' symbol' suffix' :
  Forall (fun w => w <> [] /\ no_sep slash w) [root; symbol; suffix; root'; symbol'; suffix'] ->
  ShardedKey blake3 root symbol suffix = ShardedKey blake3 root' symbol' suffix' -> root = root' /\ symbol = symbol' /\ suffix = suffix'.
Proof.
  intros HF. rewrite !Forall_cons in HF. destruct HF as ([H1 H1s] & [H2 H2s] & [H3 H3s] & [H4 H4s] & [H5 H5s] & [H6 H6s] & _).
  assert (forall r s x, r <> [] -> x <> [] -> no_sep slash r -> no_sep slash s -> no_sep slash x ->
    split slash (ShardedKey blake3 r s x) = [r; ShardedPrefix blake3 s; s; x]) as Hsp.
  { intros r s x Hr Hx Hrs Hss Hxs. unfold ShardedKey. rewrite !bool_decide_eq_false_2, <- !app_assoc by done. cbn [app].
    rewrite !split_app by (done || apply ShardedPrefix_no_sep). by rewrite split_single. }
  intros Heq. apply (f_equal (split slash)) in Heq. rewrite !Hsp in Heq by done. injection Heq as Hr _ Hs Hx. done.
Qed.

Lemma endpoint_scheme_witness :
  EnsureEndpointScheme id (fun _ => None) (lit "minio.local:9000") = (lit "http://minio.local:9000", true) /\ has_scheme (lit "http://minio.local:9000") = true.
Proof.
  assert (EnsureEndpointScheme id (fun _ => None) (lit "minio.local:9000") = (lit "http://minio.local:9000", true)) as E by (vm_compute; reflexivity).
  split; [exact E|]. exact (proj1 (endpoint_scheme id (fun _ => None) (lit "minio.local:9000") _ _ ltac:(discriminate) E)).
Defined.

Lemma split_arn_roundtrip_witness :
  splitS3AccessPointARN (lit "arn:aws:s3:us-east-1:1:accesspoint/db/a/b") = Ok (lit "arn:aws:s3:us-east-1:1:accesspoint/db", lit "a/b") /\
  lit "arn:aws:s3:us-east-1:1:accesspoint/db/a/b" = lit "arn:aws:s3:us-east-1:1:accesspoint/db" ++ slash :: lit "a/b".
Proof.
  assert (splitS3AccessPointARN (lit "arn:aws:s3:us-east-1:1:accesspoint/db/a/b") = Ok (lit "arn:aws:s3:us-east-1:1:accesspoint/db", lit "a/b")) as E
    by (vm_compute; reflexivity).
  split; [exact E|]. destruct (split_arn_roundtrip _ _ _ E) as [[[Hx _]|Hx] _]; [discriminate Hx|exact Hx].
Defined.
