(* ===== verification/Peer.v ===== *)
(** * Streaming to a standby peer

    Model of src/peer/peer.go: the wire format, the pooled read of a frame, the client
    that pushes a frame and waits for its acknowledgement, and the standby's handlers.
    The sink that stores frames is an interface; the network delivers a request or
    loses it or its response. *)

From Stdlib Require Import ZArith Lia Strings.Byte.
From stdpp Require Import base numbers list strings gmap sorting.
From S2P Require Import Prelude Ltx Streams Compactor Replica Db PageIndex.
Local Open Scope Z_scope.

(** ** The wire format *)

Abbreviation MarketID := (list byte) (only parsing).

Definition ErrCodeOK : byte := x00.
Definition ErrCodeBadFrame : byte := x01.
Definition ErrCodeUnknownMarket : byte := x02.
Definition ErrCodeServerInternal : byte := x03.
Definition ErrCodeNotStandby : byte := x04.

(** [copy] into a fixed array of eight bytes. *)
Definition MarketIDFromBytes (b : list byte) : MarketID := take 8 (b ++ repeat x00 8).
Definition zeroMarket : MarketID := repeat x00 8.

Definition PutUint32LE (z : Z) : list byte := [Zbyte z; Zbyte (Z.shiftr z 8); Zbyte (Z.shiftr z 16); Zbyte (Z.shiftr z 24)].
Definition PutUint64LE (z : Z) : list byte := PutUint32LE (z mod 2 ^ 32) ++ PutUint32LE (z / 2 ^ 32).
Definition Uint64LE (b : list byte) : Z := Uint32 LittleEndian b + Uint32 LittleEndian (drop 4 b) * 2 ^ 32.

Definition walFrameHeaderLen : nat := 16.
Definition ackLen : nat := 13.
Definition snapshotReqLen : nat := 16.
Definition snapshotRespHdrLen : nat := 17.

Definition encodeWALFrameReq (mkt : MarketID) (txid : Z) (body : list byte) : list byte :=
  mkt ++ PutUint32LE txid ++ PutUint32LE (u32 (Z.of_nat (length body))) ++ body.

Definition decodeWALFrameReq (payload : list byte) : result (MarketID * Z * list byte) :=
  if (length payload <? walFrameHeaderLen)%nat then Err (EMsg "short wal frame") else
  let frameLen := Uint32 LittleEndian (drop 12 payload) in
  if negb (frameLen =? Z.of_nat (length payload - walFrameHeaderLen)) then Err (EMsg "frame_len mismatch")
  else Ok (take 8 payload, Uint32 LittleEndian (drop 8 payload), drop walFrameHeaderLen payload).

Definition encodeAck (code : byte) (mkt : MarketID) (txid : Z) : list byte := code :: mkt ++ PutUint32LE txid.

(** A ZAP message: absent, without a root, or with a payload. *)
Inductive message := NilMessage | NullRoot | Payload (b : list byte).

Definition decodeWALFrameAck (msg : message) : result (byte * MarketID * Z) :=
  match msg with
  | NilMessage => Err (EMsg "nil ack")
  | NullRoot => Err (EMsg "null ack root")
  | Payload payload =>
      if (length payload <? ackLen)%nat then Err (EMsg "short ack")
      else Ok (default x00 (head payload), take 8 (drop 1 payload), Uint32 LittleEndian (drop 9 payload))
  end.

Definition encodeSnapshotReq (mkt : MarketID) (fromTXID : Z) : list byte := mkt ++ PutUint64LE fromTXID.
Definition decodeSnapshotReq (payload : list byte) : result (MarketID * Z) :=
  if (length payload <? snapshotReqLen)%nat then Err (EMsg "short snapshot req") else Ok (take 8 payload, Uint64LE (drop 8 payload)).

Definition encodeSnapshotResp (code : byte) (mkt : MarketID) (txid : Z) (body : list byte) : list byte :=
  code :: mkt ++ PutUint64LE txid ++ body.
Definition DecodeSnapshotResp (msg : message) : result (byte * MarketID * Z * list byte) :=
  match msg with
  | NilMessage => Err (EMsg "nil resp")
  | NullRoot => Err (EMsg "null root")
  | Payload payload =>
      if (length payload <? snapshotRespHdrLen)%nat then Err (EMsg "short snapshot resp")
      else Ok (default x00 (head payload), take 8 (drop 1 payload), Uint64LE (drop 9 payload), drop snapshotRespHdrLen payload)
  end.

(** ** Pooled reads *)

Definition ltxPoolCap : nat := 64 * 1024.

(** The loop of [readPooled] on a buffer of a capacity, the pooled one of capacity [c0] at
    first: a read fills at most the room that is left, at least one byte unless the stream
    is at its end; [chunk n] is how much the [n]-th read delivers.  The result comes with the
    capacity of the buffer that goes back to the pool, if one does. *)
Section Pooled.
Variable chunk : nat -> nat.

Fixpoint readPooled_loop (fuel n c0 cap : nat) (buf rest : list byte) (err : option error) : result (list byte) * option nat :=
  match fuel with
  | O => (Panic "out of fuel", None)
  | S fuel =>
      let cap := if (cap =? 0)%nat then 4096%nat else cap in
      if (length buf =? cap)%nat && (ltxPoolCap <=? cap)%nat then
        (match err with Some e => Err e | None => Ok (buf ++ rest) end, None)
      else
        let cap := if (length buf =? cap)%nat then (2 * cap)%nat else cap in
        match rest with
        | [] => match err with Some e => (Err e, Some c0) | None => (Ok buf, Some cap) end
        | _ => let k := Nat.min (Nat.max 1 (chunk n)) (cap - length buf) in
               readPooled_loop fuel (S n) c0 cap (buf ++ take k rest) (drop k rest) err
        end
  end.

(** The pool holds the capacities of free buffers; [Get] takes one or makes one. *)
Definition pool_Get (pool : list nat) : nat * list nat := match pool with c :: pool => (c, pool) | [] => (ltxPoolCap, []) end.
Definition putPooled (c : nat) (pool : list nat) : list nat := if (ltxPoolCap <? c)%nat then pool else c :: pool.

(** [readPooled] and the release of the buffer after its use. *)
Definition readPooled (pool : list nat) (rd : Reader) : list nat * result (list byte) :=
  let '(c, pool) := pool_Get pool in
  let '(r, released) := readPooled_loop (S (length (rd_data rd))) 0 c c [] (rd_data rd) (rd_err rd) in
  (match released with Some c => putPooled c pool | None => pool end, r).
End Pooled.

(** ** The standby *)

(** [FrameSink]: a panic of the sink is a [Panic]. *)
Class FrameSink (S : Type) := {
  Apply : S -> MarketID -> TXID -> list byte -> S * result ();
  sink_Snapshot : S -> MarketID -> TXID -> result (Reader * TXID)
}.

Section Peer.
Context {S : Type} `{FS : FrameSink S}.

(** [s.sink] may be nil. *)
Record PeerServer := mkPeerServer { ps_sink : option S; ps_closed : bool }.

Definition Server_Close (s : PeerServer) : PeerServer := mkPeerServer (ps_sink s) true.

Definition onWALFrame (s : PeerServer) (payload : list byte) : PeerServer * list byte :=
  match ps_closed s, ps_sink s with
  | false, Some sink =>
      match decodeWALFrameReq payload with
      | Ok (mkt, txid, body) =>
          let '(sink, r) := Apply sink mkt txid body in
          (mkPeerServer (Some sink) false,
           match r with
           | Ok _ => encodeAck ErrCodeOK mkt txid
           | Err _ => encodeAck ErrCodeServerInternal mkt txid
           | Panic _ => encodeAck ErrCodeServerInternal zeroMarket 0
           end)
      | _ => (s, encodeAck ErrCodeBadFrame zeroMarket 0)
      end
  | _, _ => (s, encodeAck ErrCodeNotStandby zeroMarket 0)
  end.

Definition onSnapshotReq (s : PeerServer) (payload : list byte) : list byte :=
  match ps_closed s, ps_sink s with
  | false, Some sink =>
      match decodeSnapshotReq payload with
      | Ok (mkt, fromTXID) =>
          match sink_Snapshot sink mkt fromTXID with
          | Err e => if errors_Is e io_EOF then encodeSnapshotResp ErrCodeOK mkt fromTXID [] else encodeSnapshotResp ErrCodeUnknownMarket mkt 0 []
          | Panic _ => encodeSnapshotResp ErrCodeServerInternal zeroMarket 0 []
          | Ok (rc, txid) =>
              match ReadAll rc with
              | Ok body => encodeSnapshotResp ErrCodeOK mkt txid body
              | _ => encodeSnapshotResp ErrCodeServerInternal mkt 0 []
              end
          end
      | _ => encodeSnapshotResp ErrCodeBadFrame zeroMarket 0 []
      end
  | _, _ => encodeSnapshotResp ErrCodeNotStandby zeroMarket 0 []
  end.

(** ** The client *)

(** What the network does with a call: it fails before the peer sees the request or
    after it handled it, or delivers the response. *)
Inductive fate := LostRequest (e : error) | LostResponse (e : error) | Delivered.

(** The client of a market with the standby at the other end of its node. *)
Record PeerClient := mkPeerClient { pc_market : MarketID; pc_closed : bool; pc_node : bool; pc_server : PeerServer; pc_fates : list fate; pc_pool : list nat }.

Definition Call (c : PeerClient) (payload : list byte) : PeerClient * result message :=
  let set srv := mkPeerClient (pc_market c) (pc_closed c) (pc_node c) srv (tail (pc_fates c)) (pc_pool c) in
  match head (pc_fates c) with
  | Some (LostRequest e) => (set (pc_server c), Err e)
  | Some (LostResponse e) => (set (onWALFrame (pc_server c) payload).1, Err e)
  | _ => let '(srv, resp) := onWALFrame (pc_server c) payload in (set srv, Ok (Payload resp))
  end.

Variable chunk : nat -> nat.
Variable now : time.

(** The checks of an acknowledgement; 32 bits of the transaction are compared. *)
Definition check_ack (mkt : MarketID) (maxTXID : TXID) (resp : message) : result () :=
  '(code, ackID, ackTXID) ← decodeWALFrameAck resp wrapping "peer: decode ack";
  if negb (bool_decide (code = ErrCodeOK)) then Err (EMsg "peer: ack error")
  else if negb (bool_decide (ackID = mkt)) then Err (EMsg "peer: ack market mismatch")
  else if negb (ackTXID =? u32 maxTXID) then Err (EMsg "peer: ack txid mismatch")
  else Ok ().

Definition peer_WriteLTXFile (c : PeerClient) (level : Z) (minTXID maxTXID : TXID) (rd : Reader) : PeerClient * result FileInfo :=
  if pc_closed c then (c, Err (EVar "io: read/write on closed pipe"))
  else if negb (pc_node c) then (c, Err (EMsg "peer: nil node"))
  else
    let '(pool, read) := readPooled chunk (pc_pool c) rd in
    let c := mkPeerClient (pc_market c) (pc_closed c) (pc_node c) (pc_server c) (pc_fates c) pool in
    match read with
    | Err e => (c, Err (EWrap "peer: read ltx" e))
    | Panic m => (c, Panic m)
    | Ok body =>
        let '(c, resp) := Call c (encodeWALFrameReq (pc_market c) (u32 maxTXID) body) in
        (c, resp ← resp wrapping "peer: ack call";
            _ ← check_ack (pc_market c) maxTXID resp;
            Ok (mkFileInfo level minTXID maxTXID (Z.of_nat (length body)) now))
    end.

(** The peer is no content store: nothing is listed, opened or deleted. *)
Definition peer_client_ops : ReplicaClient PeerClient := {|
  LTXFiles _ _ _ _ := Ok (mkIter [] None None);
  OpenLTXFile _ _ _ _ _ _ := Err (EVar "unexpected EOF");
  WriteLTXFile := peer_WriteLTXFile;
  DeleteLTXFiles c _ := (c, None)
|}.
End Peer.
Arguments PeerServer : clear implicits.
Arguments PeerClient : clear implicits.

(** ** Pooled reads read everything *)

Lemma readPooled_loop_spec chunk fuel n c0 cap buf rest err :
  (length rest < fuel)%nat -> (length buf <= cap)%nat ->
  (readPooled_loop chunk fuel n c0 cap buf rest err).1 = match err with Some e => Err e | None => Ok (buf ++ rest) end.
Proof.
  revert n cap buf rest. induction fuel as [|fuel IH]; intros n cap buf rest Hf Hc; [lia|]. cbn [readPooled_loop].
  set (cap1 := if (cap =? 0)%nat then 4096%nat else cap). assert (length buf <= cap1)%nat as Hc1.
  { unfold cap1. destruct (Nat.eqb_spec cap 0); [|done]. lia. }
  assert (0 < cap1)%nat as Hpos by (unfold cap1; destruct (Nat.eqb_spec cap 0); lia).
  destruct ((length buf =? cap1)%nat && (ltxPoolCap <=? cap1)%nat) eqn:Hout; [by destruct err|].
  set (cap2 := if (length buf =? cap1)%nat then (2 * cap1)%nat else cap1).
  assert (length buf < cap2)%nat as Hc2 by (unfold cap2; destruct (Nat.eqb_spec (length buf) cap1); lia).
  destruct rest as [|x rest]; [rewrite app_nil_r; by destruct err|].
  set (k := (Nat.max 1 (chunk n) `min` (cap2 - length buf))%nat). assert (1 <= k <= cap2 - length buf)%nat as Hk by (unfold k; lia).
  rewrite IH; [|rewrite length_drop; simpl in Hf |- *; lia|rewrite length_app, length_take; lia].
  by rewrite <- app_assoc, take_drop.
Qed.

(** A pooled read is a read to the end, and no buffer in the pool is larger than the
    limit, whatever the sizes of the frames and of the reads. *)
Theorem readPooled_correct chunk pool rd :
  Forall (fun c => (c <= ltxPoolCap)%nat) pool ->
  (readPooled chunk pool rd).2 = ReadAll rd /\ Forall (fun c => (c <= ltxPoolCap)%nat) (readPooled chunk pool rd).1.
Proof.
  intros Hp. unfold readPooled, pool_Get, putPooled.
  assert (forall c p, Forall (fun c => (c <= ltxPoolCap)%nat) p -> Forall (fun c => (c <= ltxPoolCap)%nat) (if (ltxPoolCap <? c)%nat then p else c :: p)) as Hput.
  { intros c p HF. destruct (Nat.ltb_spec ltxPoolCap c); [done|]. by constructor. }
  destruct pool as [|c pool]; [|apply Forall_cons in Hp as [_ Hp]];
    (pose proof (readPooled_loop_spec chunk (S (length (rd_data rd))) 0) as HL; match goal with |- context [readPooled_loop _ _ _ ?c ?c _ _ _] => specialize (HL c c [] (rd_data rd) (rd_err rd) ltac:(lia) ltac:(simpl; lia)) end;
     destruct (readPooled_loop _ _ _ _ _ _ _ _) as [r released]; cbn [fst snd] in *; rewrite HL; unfold ReadAll; split; [by destruct (rd_err rd)|destruct released; [by apply Hput|done]]).
Qed.

(** ** Round trips of the wire format *)

Lemma Uint32_PutLE z rest : Uint32 LittleEndian (PutUint32LE z ++ rest) = u32 z.
Proof. rewrite <- (Uint32_Put z []). reflexivity. Qed.

Lemma Uint64_PutLE z rest : 0 <= z < 2 ^ 64 -> Uint64LE (PutUint64LE z ++ rest) = z.
Proof.
  intros Hz. unfold Uint64LE, PutUint64LE. rewrite <- app_assoc.
  change (drop 4 (PutUint32LE (z mod 2 ^ 32) ++ PutUint32LE (z / 2 ^ 32) ++ rest)) with (PutUint32LE (z / 2 ^ 32) ++ rest).
  rewrite !Uint32_PutLE. unfold u32. rewrite (Z.mod_small (z / 2 ^ 32)) by (split; [apply Z.div_pos; lia|apply Z.div_lt_upper_bound; lia]).
  rewrite Z.mod_mod by lia. pose proof (Z.div_mod z (2 ^ 32)). lia.
Qed.

Lemma drop_market (mkt rest : list byte) n : length mkt = 8%nat -> drop (8 + n) (mkt ++ rest) = drop n rest.
Proof. intros Hm. rewrite <- drop_drop. by rewrite drop_app_length' by done. Qed.

Lemma take_market (mkt rest : list byte) : length mkt = 8%nat -> take 8 (mkt ++ rest) = mkt.
Proof. intros Hm. by rewrite take_app_length' by done. Qed.

Lemma frame_roundtrip mkt txid body :
  length mkt = 8%nat -> Z.of_nat (length body) < 2 ^ 32 -> decodeWALFrameReq (encodeWALFrameReq mkt txid body) = Ok (mkt, u32 txid, body).
Proof.
  intros Hm Hb. unfold decodeWALFrameReq, encodeWALFrameReq, walFrameHeaderLen.
  rewrite !length_app, Hm. change (length (PutUint32LE _)) with 4%nat. change (length (PutUint32LE _)) with 4%nat.
  destruct (Nat.ltb_spec (8 + (4 + (4 + length body))) 16); [lia|].
  rewrite (drop_market mkt _ 4), (drop_market mkt _ 8), (drop_market mkt _ 0), take_market, drop_0 by done.
  change (drop 4 (PutUint32LE txid ++ ?r)) with r. change (drop 8 (PutUint32LE txid ++ PutUint32LE ?z ++ ?r)) with r.
  rewrite !Uint32_PutLE. unfold u32 at 1. unfold u32 at 1. rewrite Z.mod_mod, Z.mod_small by lia.
  replace (8 + (4 + (4 + length body)) - 16)%nat with (length body) by lia. by rewrite Z.eqb_refl.
Qed.

Lemma ack_roundtrip code mkt txid : length mkt = 8%nat -> decodeWALFrameAck (Payload (encodeAck code mkt txid)) = Ok (code, mkt, u32 txid).
Proof.
  intros Hm. unfold decodeWALFrameAck, encodeAck, ackLen. cbn [length]. rewrite length_app, Hm. change (length (PutUint32LE txid)) with 4%nat. cbn [Nat.ltb Nat.leb Nat.add].
  cbn [head default drop]. rewrite drop_0, take_market by done. rewrite (drop_market mkt _ 0), drop_0 by done.
  by rewrite <- (app_nil_r (PutUint32LE txid)), Uint32_PutLE.
Qed.

(** Every message of the protocol is decoded to what was encoded: frames below 4 GiB
    with the low 32 bits of their transaction, acknowledgements, and snapshot requests and
    responses with all 64. *)
Theorem wire_roundtrip code mkt txid txid64 body :
  length mkt = 8%nat -> 0 <= txid64 < 2 ^ 64 -> Z.of_nat (length body) < 2 ^ 32 ->
  decodeWALFrameReq (encodeWALFrameReq mkt txid body) = Ok (mkt, u32 txid, body) /\
  decodeWALFrameAck (Payload (encodeAck code mkt txid)) = Ok (code, mkt, u32 txid) /\
  decodeSnapshotReq (encodeSnapshotReq mkt txid64) = Ok (mkt, txid64) /\
  DecodeSnapshotResp (Payload (encodeSnapshotResp code mkt txid64 body)) = Ok (code, mkt, txid64, body).
Proof.
  intros Hm Ht Hb. split; [by apply frame_roundtrip|]. split; [by apply ack_roundtrip|]. split.
  - unfold decodeSnapshotReq, encodeSnapshotReq, snapshotReqLen. rewrite length_app, Hm. change (length (PutUint64LE txid64)) with 8%nat. cbn [Nat.ltb Nat.leb Nat.add].
    rewrite take_market, (drop_market mkt _ 0), drop_0 by done. by rewrite <- (app_nil_r (PutUint64LE txid64)), Uint64_PutLE.
  - unfold DecodeSnapshotResp, encodeSnapshotResp, snapshotRespHdrLen. cbn [length]. rewrite !length_app, Hm. change (length (PutUint64LE txid64)) with 8%nat.
    destruct (Nat.ltb_spec (S (8 + (8 + length body))) 17); [lia|]. cbn [head default drop].
    rewrite drop_0, take_market, (drop_market mkt _ 0), (drop_market mkt _ 8), drop_0 by done.
    rewrite Uint64_PutLE by done. done.
Qed.

(** ** An acknowledged frame is on the standby *)
Section Ack.
Context {S : Type} `{FS : FrameSink S}.
Variable chunk : nat -> nat.
Variable now : time.
(** The frames a sink holds durably.  [Apply] keeps what was there and, when it returns no error, holds
    the frame. *)
Variable durable : S -> MarketID -> TXID -> list byte -> Prop.
Hypothesis Apply_durable : forall s mkt txid body s', Apply s mkt txid body = (s', Ok ()) -> durable s' mkt txid body.

(** What an accepted response says about the standby that sent it. *)
Lemma served_durable (s s' : PeerServer S) mkt t body resp :
  length mkt = 8%nat -> Z.of_nat (length body) < 2 ^ 32 ->
  onWALFrame s (encodeWALFrameReq mkt (u32 t) body) = (s', resp) -> check_ack mkt t (Payload resp) = Ok () ->
  ps_closed s = false /\ exists sink, ps_sink s' = Some sink /\ durable sink mkt (u32 t) body.
Proof.
  intros Hm Hb. assert (u32 (u32 t) = u32 t) as Hu by (unfold u32; by rewrite Z.mod_mod).
  unfold onWALFrame, check_ack. destruct (ps_closed s); [intros [= <- <-]; by rewrite ack_roundtrip|].
  destruct (ps_sink s) as [sink|]; [|intros [= <- <-]; by rewrite ack_roundtrip].
  rewrite frame_roundtrip, Hu by done. destruct (Apply sink mkt (u32 t) body) as [sink' r] eqn:HA. intros [= <- <-].
  destruct r as [[]|e|m]; rewrite ack_roundtrip by done; [|done..]. intros _. split; [done|]. exists sink'. split; [done|]. by eapply Apply_durable.
Qed.

(** C24: an acknowledged write is durable on the standby.  Whatever the network loses and
    whatever the sizes of the reads, when the peer client's [WriteLTXFile] returns no
    error the stream had no error, the standby is open, and its sink holds exactly the bytes of the
    stream under the market and the low 32 bits of the transaction; the transaction itself when it is
    below 2^32.  A closed standby, and a sink that fails or panics, is never
    acknowledged. *)
Theorem ack_means_durable (c : PeerClient S) level minTXID maxTXID rd c' info :
  length (pc_market c) = 8%nat -> Forall (fun k => (k <= ltxPoolCap)%nat) (pc_pool c) -> Z.of_nat (length (rd_data rd)) < 2 ^ 32 ->
  peer_WriteLTXFile chunk now c level minTXID maxTXID rd = (c', Ok info) ->
  rd_err rd = None /\ info = mkFileInfo level minTXID maxTXID (Z.of_nat (length (rd_data rd))) now /\
  ps_closed (pc_server c) = false /\
  exists sink, ps_sink (pc_server c') = Some sink /\ durable sink (pc_market c) (u32 maxTXID) (rd_data rd) /\
    (0 <= maxTXID < 2 ^ 32 -> durable sink (pc_market c) maxTXID (rd_data rd)).
Proof.
  intros Hm Hpool Hlen. unfold peer_WriteLTXFile. destruct (pc_closed c); [done|]. destruct (negb (pc_node c)); [done|].
  destruct (readPooled_correct chunk (pc_pool c) rd Hpool) as [Hread _]. destruct (readPooled chunk (pc_pool c) rd) as [pool read]. cbn [snd] in Hread. subst read.
  unfold ReadAll. destruct (rd_err rd) as [e|]; [done|]. unfold Call. cbn [pc_fates pc_market pc_server pc_closed pc_node pc_pool].
  destruct (onWALFrame (pc_server c) _) as [srv r] eqn:HW.
  assert (check_ack (pc_market c) maxTXID (Payload r) = Ok () -> ps_closed (pc_server c) = false /\ exists sink, ps_sink srv = Some sink /\
    durable sink (pc_market c) (u32 maxTXID) (rd_data rd) /\ (0 <= maxTXID < 2 ^ 32 -> durable sink (pc_market c) maxTXID (rd_data rd))) as Hserver.
  { intros Hack. destruct (served_durable _ _ _ _ _ _ Hm Hlen HW Hack) as (Hcl & sink & Hs & Hd). split; [done|]. exists sink. split; [done|]. split; [done|].
    intros Ht. unfold u32 in Hd. by rewrite Z.mod_small in Hd by done. }
  destruct (head (pc_fates c)) as [[e|e|]|]; cbn [wrap_err mbind result_bind pc_market]; [by intros [=]|by intros [=]|..];
    (destruct (check_ack (pc_market c) maxTXID (Payload r)) as [[]|e|m]; cbn [mbind result_bind]; [|intros [=]..]; intros [= <- <-]; split; [done|]; split; [done|]; by apply Hserver).
Qed.
End Ack.

(** ** A sink in memory *)
Module PeerDemo.
(** Frames by market and transaction. *)
Abbreviation store := (gmap (Z * Z) (list byte)).
Definition key (mkt : list byte) : Z := Uint64LE mkt.
#[export] Instance sink : FrameSink store := {
  Apply s mkt txid body := (<[(key mkt, txid) := body]> s, Ok ());
  sink_Snapshot s mkt from := match s !! (key mkt, from) with Some b => Ok (mkReader b None, from) | None => Err io_EOF end
}.
Definition market : list byte := MarketIDFromBytes [x01; x02].
Definition client : PeerClient store := mkPeerClient market false true (mkPeerServer (Some ∅) false) [LostResponse (EMsg "timeout")] [].
Definition push (c : PeerClient store) (txid : TXID) (b : list byte) : PeerClient store * result FileInfo :=
  peer_WriteLTXFile (fun _ => 3%nat) 7 c 0 txid txid (mkReader b None).
Definition frames (c : PeerClient store) : list (Z * Z * list byte) := from_option map_to_list [] (ps_sink (pc_server c)).

(** Transactions have 64 bits and the frame carries 32: the frame of transaction 2^32 + 5 is
    acknowledged, and replaces transaction 5 on the standby. *)
Theorem txid_truncated :
  let c5 := (push (push client 5 [x05]).1 5 [x05]).1 in
  let '(c, r) := push c5 (2 ^ 32 + 5) [xff] in
  is_ok r = true /\ frames c5 = [(key market, 5, [x05])] /\ frames c = [(key market, 5, [xff])].
Proof. vm_compute. repeat split. Qed.

(** A database at transaction 3 whose first level-0 file is gone, as after retention. *)
Definition aged_db : ReplicaDB time := {|
  db_Pos _ := Ok (mkPos 3 0);
  db_LTXPath _ _ _ _ := "";
  db_OpenLTX _ _ lo _ := if (2 <=? lo) && (lo <=? 3) then Ok (mkReader [x01; Zbyte lo] None) else Err (EPath "open" ErrNotExist);
  db_RecordSuccessfulSync _ now := now
|}.
Definition sync (c : PeerClient store) : Replica (PeerClient store) time * result () :=
  @Replica.Sync (PeerClient store) time (peer_client_ops (fun _ => 3%nat) 7) aged_db string string demo_encrypt demo_flush demo_plain_cfg (mkReplica 0 zeroPos c) 7.

(** The peer lists no files, so a replica without a position starts at transaction 1:
    after a restart, or after one failed call, every sync of a database that
    no longer has that file fails, however many it makes. *)
Theorem restart_starts_over :
  forall c, exists e r, sync c = (r, Err e) /\ r_pos r = zeroPos /\ r_Client r = c.
Proof. intros c. do 2 eexists. split; [vm_compute; reflexivity|]. split; reflexivity. Qed.
End PeerDemo.

Lemma ack_means_durable_witness :
  exists c' info sink, PeerDemo.push (PeerDemo.push PeerDemo.client 5 [x01; x02; x03; x04; x05]).1 5 [x01; x02; x03; x04; x05] = (c', Ok info) /\
    ps_sink (pc_server c') = Some sink /\ sink !! (PeerDemo.key PeerDemo.market, 5) = Some [x01; x02; x03; x04; x05].
Proof.
  destruct (PeerDemo.push (PeerDemo.push PeerDemo.client 5 [x01; x02; x03; x04; x05]).1 5 [x01; x02; x03; x04; x05]) as [c' [info|e|m]] eqn:E;
    [|apply (f_equal snd) in E; vm_compute in E; discriminate E..].
  destruct (ack_means_durable (FS := PeerDemo.sink) (fun _ => 3%nat) 7 (fun s mkt txid body => s !! (PeerDemo.key mkt, txid) = Some body)) with
    (c := (PeerDemo.push PeerDemo.client 5 [x01; x02; x03; x04; x05]).1) (level := 0) (minTXID := 5) (maxTXID := 5)
    (rd := mkReader [x01; x02; x03; x04; x05] None) (c' := c') (info := info) as (_ & _ & _ & sink & Hs & _ & Hd).
  - intros s mkt txid body s' HA. cbn [Apply PeerDemo.sink] in HA. injection HA as <-. apply lookup_insert_eq.
  - vm_compute. reflexivity.
  - apply (bool_decide_unpack _). vm_compute. exact I.
  - vm_compute. reflexivity.
  - exact E.
  - exists c', info, sink. split; [reflexivity|]. split; [exact Hs|]. exact (Hd ltac:(lia)).
Defined.
