(* ===== verification/FileClient.v ===== *)
(** * The file client

    Model of src/file/replica_client.go: LTX files in the directories of a file system
    whose operations can fail, and the v0.3.x files beside them.  The client keeps the laws
    of the client interface (Ltx.v), of a storage (Pipeline.v) and of readers (Restore.v),
    so what is proved from these laws holds for replicas in a directory. *)

From Stdlib Require Import ZArith Lia Strings.Byte Ascii String.
From stdpp Require Import base numbers list strings gmap sorting.
From S2P Require Import Prelude WalReader Ltx Streams RestorePlan Compactor Replica V3 Db PageIndex Pipeline Restore.
Local Open Scope Z_scope.

(** ** The directory *)

(** Level, first and last transaction: the path of a file. *)
Abbreviation path := (Z * Z * Z)%type.
Definition path_of (f : FileInfo) : path := (Level f, MinTXID f, MaxTXID f).

(** An entry of a directory of v0.3.x files; its size and time may fail to be read. *)
Record DirEntry := mkEntry { de_Name : list ascii; de_IsDir : bool; de_Info : result (Z * time) }.

(** The level directories, the files with their contents and modification times, and the
    temporary files beside them.  [fc_fault n] is the error of the [n]-th change of the file
    system, if it fails; listing a level, opening a file and seeking in it fail as
    [fc_list], [fc_open] and [fc_seek] say.  These are I/O errors: whether a file exists is
    in the state.  [fc_left] are the files a failed [RemoveAll] leaves. *)
Record FileStore := mkFileStore {
  fc_dirs : gset Z; fc_files : gmap path (list byte * time); fc_tmp : gmap path (list byte);
  fc_ops : nat; fc_fault : nat -> option string;
  fc_list : Z -> option string; fc_open : path -> option string; fc_seek : path -> option string;
  fc_left : path -> bool;
  fc_readdir : list (list ascii) -> result (list DirEntry); fc_read : list (list ascii) -> result (list byte)
}.
Definition set_dirs (m : gset Z) (c : FileStore) : FileStore :=
  mkFileStore m (fc_files c) (fc_tmp c) (fc_ops c) (fc_fault c) (fc_list c) (fc_open c) (fc_seek c) (fc_left c) (fc_readdir c) (fc_read c).
Definition set_files (m : gmap path (list byte * time)) (c : FileStore) : FileStore :=
  mkFileStore (fc_dirs c) m (fc_tmp c) (fc_ops c) (fc_fault c) (fc_list c) (fc_open c) (fc_seek c) (fc_left c) (fc_readdir c) (fc_read c).
Definition set_tmps (m : gmap path (list byte)) (c : FileStore) : FileStore :=
  mkFileStore (fc_dirs c) (fc_files c) m (fc_ops c) (fc_fault c) (fc_list c) (fc_open c) (fc_seek c) (fc_left c) (fc_readdir c) (fc_read c).
Definition tick (c : FileStore) : FileStore :=
  mkFileStore (fc_dirs c) (fc_files c) (fc_tmp c) (S (fc_ops c)) (fc_fault c) (fc_list c) (fc_open c) (fc_seek c) (fc_left c) (fc_readdir c) (fc_read c).

(** *** Calls that change the file system *)

Definition fs (A : Type) : Type := FileStore -> FileStore * result A.
#[export] Instance fs_ret : MRet fs := fun A a c => (c, Ok a).
#[export] Instance fs_bind : MBind fs := fun A B k m c =>
  match m c with (c, Ok a) => k a c | (c, Err e) => (c, Err e) | (c, Panic s) => (c, Panic s) end.

Definition lift {A} (r : result A) : fs A := fun c => (c, r).

(** A change takes effect, or fails and has another one. *)
Definition fio (effect partial : FileStore -> FileStore) : fs () := fun c =>
  match fc_fault c (fc_ops c) with
  | Some e => (partial (tick c), Err (EMsg e))
  | None => (effect (tick c), Ok ())
  end.

Definition fs_mkdir (level : Z) : fs () := fio (fun c => set_dirs ({[level]} ∪ fc_dirs c) c) id.
(** What a failed write leaves in the temporary file is never read. *)
Definition fs_write (k : path) (b : list byte) : fs () := fio (fun c => set_tmps (<[k := b]> (fc_tmp c)) c) id.
Definition fs_create (k : path) : fs () := fio (fun c => set_tmps (<[k := []]> (fc_tmp c)) c) id.
Definition fs_check : fs () := fio id id. (* sync, stat, close *)
(** The file becomes visible under its name, with the time of its last write. *)
Definition fs_rename (k : path) (now : time) : fs () :=
  fio (fun c => set_tmps (base.delete k (fc_tmp c)) (set_files (<[k := (default [] (fc_tmp c !! k), now)]> (fc_files c)) c)) id.
Definition fs_chtimes (k : path) (t : time) : fs () :=
  fio (fun c => set_files (alter (fun x => (x.1, t)) k (fc_files c)) c) id.
Definition fs_remove_tmp (k : path) : fs () := fio (fun c => set_tmps (base.delete k (fc_tmp c)) c) id.
Definition fs_remove (k : path) : fs () := fun c =>
  match fc_files c !! k with
  | None => (c, Err (EPath "remove" ErrNotExist))
  | Some _ => fio (fun c => set_files (base.delete k (fc_files c)) c) id c
  end.

(** The deferred function of [WriteLTXFile]: an error removes the temporary file. *)
Definition cleanup {A} (k : path) (m : fs A) : fs A := fun c =>
  match m c with
  | (c, Err e) => ((fs_remove_tmp k c).1, Err e)
  | r => r
  end.

(** TXIDs are uint64; all names made of them parse. *)
Definition is_txid (t : TXID) : bool := (0 <=? t) && (t <? 2 ^ 64).
Definition in_range (k : path) : bool := let '(_, lo, hi) := k in is_txid lo && is_txid hi.

Section FileClient.
(** [ltx.NewFileInfoSliceIterator], which orders the files it is given, the header
    timestamp of an LTX stream, the LZ4 decoder and the clock. *)
Variable NewFileInfoSliceIterator : list FileInfo -> list FileInfo.
Variable peek : Reader -> result Z.
Variable NewLZ4Reader : Reader -> Reader.
Variable now : time.

(** The entries of a level's directory whose names parse, in the order of the file system. *)
Definition info_of (kv : path * (list byte * time)) : FileInfo :=
  let '((level, lo, hi), (b, t)) := kv in mkFileInfo level lo hi (Z.of_nat (length b)) t.
Definition readdir (c : FileStore) (level : Z) : list FileInfo :=
  info_of <$> filter (fun kv => bool_decide (kv.1.1.1 = level) && in_range kv.1 = true) (map_to_list (fc_files c)).
Definition open_dir (c : FileStore) (level : Z) : result (list FileInfo) :=
  match fc_list c level with
  | Some e => Err (EMsg e)
  | None => match readdir c level with
            | [] => if bool_decide (level ∈ fc_dirs c) then Ok [] else Err (EPath "open" ErrNotExist)
            | fis => Ok fis
            end
  end.

Definition file_LTXFiles (c : FileStore) (level : Z) (seek : TXID) (useMetadata : bool) : result FileIterator :=
  match open_dir c level with
  | Err e => if os_IsNotExist e then Ok (mkIter (NewFileInfoSliceIterator []) None None) else Err e
  | Panic m => Panic m
  | Ok fis => Ok (mkIter (NewFileInfoSliceIterator (filter (fun f => negb (MinTXID f <? seek)) fis)) None None)
  end.

Definition os_Open (c : FileStore) (k : path) : result (list byte) :=
  match fc_files c !! k, fc_open c k with
  | None, _ => Err (EPath "open" ErrNotExist)
  | Some _, Some e => Err (EMsg e)
  | Some (b, _), None => Ok b
  end.

Definition file_OpenLTXFile (c : FileStore) (level : Z) (minTXID maxTXID : TXID) (offset size : Z) : result Reader :=
  let k := (level, minTXID, maxTXID) in
  if negb (in_range k) then Err (EMsg "not a transaction id") else
  match os_Open c k with
  | Err e => Err (NewLTXError "open" "" level minTXID maxTXID e)
  | Panic m => Panic m
  | Ok f =>
      f ← (if 0 <? offset then match fc_seek c k with Some e => Err (EMsg e) | None => Ok (drop (Z.to_nat offset) f) end else Ok f);
      Ok (mkReader (if 0 <? size then take (Z.to_nat size) f else f) None)
  end.

(** [io.Copy]: the stream is written as far as it goes. *)
Definition io_Copy (k : path) (rd : Reader) : fs () :=
  _ ← fs_write k (rd_data rd);
  lift (match rd_err rd with Some e => Err e | None => Ok () end).

Definition write_body (k : path) (timestamp : time) (fullReader : Reader) : fs FileInfo :=
  _ ← io_Copy k fullReader;
  _ ← fs_check; (* sync *)
  _ ← fs_check; (* stat *)
  let info := mkFileInfo k.1.1 k.1.2 k.2 (Z.of_nat (length (rd_data fullReader))) timestamp in
  _ ← fs_check; (* close *)
  _ ← fs_rename k now;
  _ ← fs_chtimes k timestamp;
  mret info.

Definition file_WriteLTXFile (c : FileStore) (level : Z) (minTXID maxTXID : TXID) (rd : Reader) : FileStore * result FileInfo :=
  let k := (level, minTXID, maxTXID) in
  if negb (in_range k) then (c, Err (EMsg "not a transaction id")) else
  match ExtractLTXTimestamp peek now rd with
  | Err e => (c, Err e)
  | Panic m => (c, Panic m)
  | Ok (timestamp, fullReader) =>
      (_ ← fs_mkdir level; _ ← fs_create k; cleanup k (write_body k timestamp fullReader)) c
  end.

Fixpoint file_DeleteLTXFiles (c : FileStore) (a : list FileInfo) : FileStore * option error :=
  match a with
  | [] => (c, None)
  | info :: a =>
      match fs_remove (path_of info) c with
      | (c, Err e) => if negb (os_IsNotExist e) then (c, Some e) else file_DeleteLTXFiles c a
      | (c, _) => file_DeleteLTXFiles c a
      end
  end.

Definition file_DeleteAll (c : FileStore) : FileStore * option error :=
  match fio (fun c => set_dirs ∅ (set_tmps ∅ (set_files ∅ c)))
            (fun c => set_files (filter (fun kv => fc_left c kv.1 = true) (fc_files c)) c) c with
  | (c, Err e) => (c, if os_IsNotExist e then None else Some e)
  | (c, _) => (c, None)
  end.

#[local] Instance file_client_ops : ReplicaClient FileStore := {
  LTXFiles := file_LTXFiles; OpenLTXFile := file_OpenLTXFile; WriteLTXFile := file_WriteLTXFile; DeleteLTXFiles := file_DeleteLTXFiles
}.

(** *** Version 3 files *)

Definition GenerationsDirV3 : list ascii := list_ascii_of_string "generations".
Definition SnapshotsDirV3 : list ascii := list_ascii_of_string "snapshots".
Definition WALDirV3 : list ascii := list_ascii_of_string "wal".

(** [slices.Sort] and [slices.SortFunc]. *)
Definition string_le (a b : string) : Prop := String.leb a b = true.
Definition index_le (a b : SnapshotInfoV3) : Prop := s_Index a - s_Index b <= 0.
Definition pos_le (a b : WALSegmentInfoV3) : Prop :=
  (if negb (w_Index a =? w_Index b) then w_Index a - w_Index b else w_Offset a - w_Offset b) <= 0.
#[export] Instance string_le_dec a b : Decision (string_le a b).
Proof. unfold string_le. apply _. Defined.
#[export] Instance index_le_dec a b : Decision (index_le a b).
Proof. unfold index_le. apply _. Defined.
#[export] Instance pos_le_dec a b : Decision (pos_le a b).
Proof. unfold pos_le. apply _. Defined.

(** [os.ReadDir] of a directory that may be missing. *)
Definition read_dir_v3 (c : FileStore) (dir : list (list ascii)) : result (list DirEntry) :=
  match fc_readdir c dir with
  | Err e => if os_IsNotExist e then Ok [] else Err e
  | r => r
  end.

Definition file_GenerationsV3 (c : FileStore) : result (list string) :=
  entries ← read_dir_v3 c [GenerationsDirV3];
  Ok (merge_sort string_le (string_of_list_ascii ∘ de_Name <$> filter (fun e => de_IsDir e && IsGenerationIDV3 (de_Name e) = true) entries)).

(** The loop of the two listings: directories and names that do not parse are skipped. *)
Fixpoint entries_v3 {P A} (parse : list ascii -> result P) (mk : P -> Z -> time -> A) (entries : list DirEntry) : result (list A) :=
  match entries with
  | [] => Ok []
  | entry :: entries =>
      if de_IsDir entry then entries_v3 parse mk entries else
      match parse (de_Name entry) with
      | Ok p =>
          info ← de_Info entry;
          rest ← entries_v3 parse mk entries;
          Ok (mk p info.1 info.2 :: rest)
      | Err _ => entries_v3 parse mk entries
      | Panic m => Panic m
      end
  end.

Definition file_SnapshotsV3 (c : FileStore) (generation : string) : result (list SnapshotInfoV3) :=
  entries ← read_dir_v3 c [GenerationsDirV3; list_ascii_of_string generation; SnapshotsDirV3];
  snapshots ← entries_v3 ParseSnapshotFilenameV3 (fun index size t => mkSnapshotV3 generation index size t) entries;
  Ok (merge_sort index_le snapshots).

Definition file_WALSegmentsV3 (c : FileStore) (generation : string) : result (list WALSegmentInfoV3) :=
  entries ← read_dir_v3 c [GenerationsDirV3; list_ascii_of_string generation; WALDirV3];
  segments ← entries_v3 ParseWALSegmentFilenameV3 (fun p size t => mkSegmentV3 generation p.1 p.2 size t) entries;
  Ok (merge_sort pos_le segments).

Definition file_OpenSnapshotV3 (c : FileStore) (generation : string) (index : Z) : result Reader :=
  f ← fc_read c [GenerationsDirV3; list_ascii_of_string generation; SnapshotsDirV3; FormatSnapshotFilenameV3 index];
  Ok (NewLZ4Reader (mkReader f None)).

Definition file_OpenWALSegmentV3 (c : FileStore) (generation : string) (index offset : Z) : result Reader :=
  f ← fc_read c [GenerationsDirV3; list_ascii_of_string generation; WALDirV3; FormatWALSegmentFilenameV3 index offset];
  Ok (NewLZ4Reader (mkReader f None)).

#[local] Instance file_client_v3 : ReplicaClientV3 FileStore := {
  GenerationsV3 := file_GenerationsV3; SnapshotsV3 := file_SnapshotsV3; WALSegmentsV3 := file_WALSegmentsV3;
  OpenSnapshotV3 := file_OpenSnapshotV3; OpenWALSegmentV3 := file_OpenWALSegmentV3
}.

(** ** Listings *)

Definition key_le (f g : FileInfo) : Prop := MinTXID f < MinTXID g \/ MinTXID f = MinTXID g /\ MaxTXID f <= MaxTXID g.
Hypothesis iterator_permutes : forall l, NewFileInfoSliceIterator l ≡ₚ l.
Hypothesis iterator_orders : forall l, StronglySorted key_le (NewFileInfoSliceIterator l).

Lemma readdir_In c level f :
  f ∈ readdir c level <-> Level f = level /\ in_range (path_of f) = true /\
    exists b, fc_files c !! path_of f = Some (b, CreatedAt f) /\ FSize f = Z.of_nat (length b).
Proof.
  unfold readdir. rewrite list_elem_of_fmap. split.
  - intros ([[[l lo] hi] [b t]] & -> & Hin). apply list_elem_of_filter in Hin as [Hp Hin]. apply elem_of_map_to_list in Hin.
    cbn [fst] in Hp. apply andb_true_iff in Hp as [Hl%bool_decide_eq_true Hr]. split; [done|]. split; [done|]. by exists b.
  - intros (Hl & Hr & b & Hf & Hs). exists (path_of f, (b, CreatedAt f)). split; [destruct f; cbn in *; by subst|].
    apply list_elem_of_filter. split; [|by apply elem_of_map_to_list]. apply andb_true_iff. split; [by apply bool_decide_eq_true|done].
Qed.

Lemma readdir_path c level f g : f ∈ readdir c level -> g ∈ readdir c level -> path_of f = path_of g -> f = g.
Proof.
  intros (_ & _ & b & Hf & Hs)%readdir_In (_ & _ & b' & Hg & Hs')%readdir_In Hp. rewrite Hp, Hg in Hf. injection Hf as <- Ht.
  destruct f, g. unfold path_of in Hp. cbn in *. congruence.
Qed.

Lemma readdir_NoDup c level : NoDup (readdir c level).
Proof.
  unfold readdir. apply NoDup_fmap_2_strong.
  - intros [[[l lo] hi] [b t]] [[[l' lo'] hi'] [b' t']] Hx Hy Heq. apply list_elem_of_filter in Hx as [_ Hx], Hy as [_ Hy].
    apply elem_of_map_to_list in Hx, Hy. injection Heq as -> -> -> _ ->. congruence.
  - apply NoDup_filter, NoDup_map_to_list.
Qed.

(** Lists of files of a level that are ordered and have the same elements are equal. *)
Lemma ordered_unique c level l1 l2 :
  (forall f, f ∈ l1 -> f ∈ readdir c level) -> l1 ≡ₚ l2 -> StronglySorted key_le l1 -> StronglySorted key_le l2 -> l1 = l2.
Proof.
  intros Hin Hp H1 H2. apply (StronglySorted_unique_strong key_le); [|done..]. intros f g Hf Hg Hfg Hgf.
  apply (readdir_path c level); [by apply Hin|by apply Hin; rewrite Hp|].
  assert (Level f = level /\ Level g = level) as [<- Hl] by (split; [by apply (readdir_In c), Hin|by apply (readdir_In c), Hin; rewrite Hp]).
  unfold path_of. rewrite Hl. unfold key_le in *. f_equal; [f_equal|]; lia.
Qed.

Lemma sorted_filter (P : FileInfo -> bool) l : StronglySorted key_le l -> StronglySorted key_le (filter (fun f => P f) l).
Proof.
  induction 1 as [|f l Hs IH HF]; [constructor|]. rewrite filter_cons. destruct (decide (P f)); [|done]. constructor; [done|].
  apply Forall_forall. intros g [_ Hg]%list_elem_of_filter. by apply (proj1 (Forall_forall _ _) HF).
Qed.

Definition file_level_files (c : FileStore) (um : bool) (level : Z) : list FileInfo := NewFileInfoSliceIterator (readdir c level).

Lemma level_In c um level f : In f (file_level_files c um level) <-> f ∈ readdir c level.
Proof. unfold file_level_files. by rewrite <- list_elem_of_In, iterator_permutes. Qed.

(** An ordered list with the files of a level that pass a test is the filtered listing. *)
Lemma listing_filter c level (P : FileInfo -> bool) l :
  l ≡ₚ filter (fun f => P f) (readdir c level) -> NewFileInfoSliceIterator l = filter (fun f => P f) (file_level_files c false level).
Proof.
  intros Hl. apply (ordered_unique c level).
  - intros f. rewrite iterator_permutes, Hl. by intros [_ ?]%list_elem_of_filter.
  - unfold file_level_files. by rewrite !iterator_permutes, Hl.
  - apply iterator_orders.
  - apply sorted_filter, iterator_orders.
Qed.

Lemma file_LTXFiles_spec c level seek um it :
  file_LTXFiles c level seek um = Ok it -> it = mkIter (filter (fun f => seek <=? MinTXID f) (file_level_files c um level)) None None.
Proof.
  unfold file_LTXFiles, open_dir. destruct (fc_list c level); [done|].
  destruct (readdir c level) as [|f fs] eqn:ER.
  - intros HE. assert (it = mkIter (NewFileInfoSliceIterator []) None None) as -> by (case_bool_decide; by injection HE as <-).
    f_equal. by rewrite (listing_filter c level (fun f => seek <=? MinTXID f) []) by (by rewrite ER).
  - intros [= <-]. f_equal. rewrite <- ER. apply (listing_filter c level (fun f => seek <=? MinTXID f)).
    rewrite (list_filter_iff _ (fun f => seek <=? MinTXID f)); [done|]. intros g.
    by rewrite <- Z.leb_antisym.
Qed.

(** ** Deleting *)

Lemma fs_remove_files k c c' r :
  fs_remove k c = (c', r) -> fc_files c' = fc_files c \/ fc_files c' = base.delete k (fc_files c).
Proof.
  unfold fs_remove, fio. destruct (fc_files c !! k); [|intros [= <- <-]; by left].
  destruct (fc_fault _ _); intros [= <- <-]; [by left|by right].
Qed.

Lemma fs_remove_gone k c c' r :
  fs_remove k c = (c', r) -> (is_ok r = true \/ exists e, r = Err e /\ os_IsNotExist e = true) -> fc_files c' = base.delete k (fc_files c).
Proof.
  unfold fs_remove, fio. destruct (fc_files c !! k) eqn:E.
  - destruct (fc_fault _ _); intros [= <- <-]; [|done]. by intros [|(e & [= <-] & ?)].
  - intros [= <- <-] _. by rewrite delete_id.
Qed.

Lemma file_Delete_lookup c a c' e k :
  file_DeleteLTXFiles c a = (c', e) ->
  (k ∉ path_of <$> a -> fc_files c' !! k = fc_files c !! k) /\ (e = None -> k ∈ path_of <$> a -> fc_files c' !! k = None).
Proof.
  revert c. induction a as [|f a IH]; intros c; cbn [file_DeleteLTXFiles].
  { intros [= <- <-]. split; [done|]. by intros _ ?%not_elem_of_nil. }
  destruct (fs_remove (path_of f) c) as [c1 r] eqn:ER. rewrite fmap_cons, not_elem_of_cons, elem_of_cons.
  pose proof (fs_remove_files _ _ _ _ ER) as Hf. pose proof (fs_remove_gone _ _ _ _ ER) as Hg.
  assert (k <> path_of f -> fc_files c1 !! k = fc_files c !! k) as Hk by (intros; destruct Hf as [->| ->]; [done|by rewrite lookup_delete_ne]).
  assert (file_DeleteLTXFiles c1 a = (c', e) -> fc_files c1 = base.delete (path_of f) (fc_files c) ->
    (k ≠ path_of f ∧ k ∉ path_of <$> a → fc_files c' !! k = fc_files c !! k) /\
    (e = None → k = path_of f ∨ k ∈ path_of <$> a → fc_files c' !! k = None)) as Hgo.
  { intros Hd Hf1. destruct (IH c1 Hd) as [H1 H2]. split; [intros [? ?]; rewrite H1; by auto|]. intros He Hin.
    destruct (decide (k ∈ path_of <$> a)); [by apply H2|]. destruct Hin as [->|]; [|done]. rewrite H1 by done. by rewrite Hf1, lookup_delete_eq. }
  destruct r as [u|err|m]; [intros HD; apply Hgo; [done|apply Hg; by left]| |by exfalso; revert ER; unfold fs_remove, fio; repeat case_match; congruence].
  destruct (os_IsNotExist err) eqn:EN; cbn [negb]; [intros HD; apply Hgo; [done|apply Hg; right; by exists err]|].
  intros [= <- <-]. split; [by intros [? _]; auto|done].
Qed.

Lemma listed_path a f : listed a f = bool_decide (path_of f ∈ path_of <$> a).
Proof.
  unfold listed. apply eq_true_iff_eq. rewrite existsb_exists, bool_decide_eq_true, list_elem_of_fmap. unfold same_file, path_of. split.
  - intros (g & Hg & HE). exists g. breflect. split; [congruence|]. by apply list_elem_of_In.
  - intros (g & HE & Hg). exists g. split; [by apply list_elem_of_In|]. injection HE as -> -> ->. by rewrite !Z.eqb_refl.
Qed.

Lemma readdir_delete c a c' level :
  file_DeleteLTXFiles c a = (c', None) -> readdir c' level ≡ₚ filter (fun f => negb (listed a f)) (readdir c level).
Proof.
  intros HD. apply NoDup_Permutation; [apply readdir_NoDup|apply NoDup_filter, readdir_NoDup|]. intros f.
  rewrite list_elem_of_filter, !readdir_In, listed_path. destruct (file_Delete_lookup c a c' None (path_of f) HD) as [Hout Hin].
  case_bool_decide as Hl; cbn [negb].
  - split; [|by intros [[] _]]. intros (_ & _ & b & Hb & _). rewrite (Hin eq_refl Hl) in Hb. done.
  - rewrite (Hout Hl). split; [by intros ?|by intros [_ ?]].
Qed.

Lemma sorted_weaken (R S : FileInfo -> FileInfo -> Prop) l : (forall f g, R f g -> S f g) -> StronglySorted R l -> StronglySorted S l.
Proof. intros Hi. induction 1 as [|f l Hs IH HF]; constructor; [done|]. eapply Forall_impl; [exact HF|]. auto. Qed.

Lemma dir_distinct c level l :
  NoDup l -> (forall f, f ∈ l -> f ∈ readdir c level) -> StronglySorted (fun a b => same_file a b = false) l.
Proof.
  induction 1 as [|f l Hf Hnd IH]; intros Hin; constructor; [by apply IH; intros; apply Hin; right|].
  apply Forall_forall. intros g Hg. destruct (same_file f g) eqn:E; [|done]. contradict Hf.
  assert (f = g) as ->; [|done]. apply (readdir_path c level); [apply Hin; by left|apply Hin; by right|].
  unfold same_file in E. breflect. unfold path_of. congruence.
Qed.

#[local] Instance file_laws : ReplicaClientLaws FileStore.
Proof.
  refine {| level_files := file_level_files |}.
  - intros c um level. apply (sorted_weaken key_le); [unfold key_le; lia|apply iterator_orders].
  - intros c um level. apply (dir_distinct c level).
    + unfold file_level_files. rewrite iterator_permutes. apply readdir_NoDup.
    + intros f. by rewrite list_elem_of_In, level_In.
  - intros c um level f Hf. apply level_In, readdir_In in Hf. apply Hf.
  - intros c um level f Hf. apply level_In, readdir_In in Hf as (_ & Hr & _). unfold path_of, in_range, is_txid in Hr. lia.
  - intros c level seek um it HL. by rewrite (file_LTXFiles_spec _ _ _ _ _ HL).
  - intros c level seek um it HL _. by rewrite (file_LTXFiles_spec _ _ _ _ _ HL).
  - intros c level seek um it HL. by rewrite (file_LTXFiles_spec _ _ _ _ _ HL).
  - intros c a c' um level HD. apply (listing_filter c level (fun f => negb (listed a f))). by apply readdir_delete.
  - intros c a c' e um level f HD Hf Hl. apply level_In, readdir_In in Hf. apply level_In, readdir_In.
    destruct (file_Delete_lookup c a c' _ (path_of f) HD) as [Hout _]. rewrite listed_path in Hl. apply bool_decide_eq_false in Hl.
    by rewrite (Hout Hl).
Defined.

(** ** Writing *)

Lemma ExtractLTXTimestamp_reader rd t rd' : ExtractLTXTimestamp peek now rd = Ok (t, rd') -> rd' = rd.
Proof. unfold ExtractLTXTimestamp. case_bool_decide; [by intros [= _ <-]|]. destruct (peek rd); [by intros [= _ <-]|done..]. Qed.

Lemma fio_cases eff par c c' r :
  fio eff par c = (c', r) -> (c' = eff (tick c) /\ r = Ok ()) \/ (c' = par (tick c) /\ exists e, r = Err (EMsg e)).
Proof. unfold fio. destruct (fc_fault _ _); intros [= <- <-]; [right|left]; eauto. Qed.

(** Steps that leave the visible files alone. *)
Definition quiet {A} (m : fs A) : Prop := forall c, fc_files (m c).1 = fc_files c.

Lemma quiet_fio eff par : (forall c, fc_files (eff c) = fc_files c) -> (forall c, fc_files (par c) = fc_files c) -> quiet (fio eff par).
Proof. intros He Hp c. unfold fio. destruct (fc_fault _ _); cbn [fst]; [by rewrite Hp|by rewrite He]. Qed.

Lemma quiet_bind {A B} (m : fs A) (k : A -> fs B) : quiet m -> (forall a, quiet (k a)) -> quiet (m ≫= k).
Proof.
  intros Hm Hk c. unfold mbind, fs_bind. pose proof (Hm c) as Hc. destruct (m c) as [c1 [a|e|s]]; cbn [fst] in *; [|done..].
  by rewrite Hk.
Qed.

Lemma quiet_mkdir level : quiet (fs_mkdir level).
Proof. by apply quiet_fio. Qed.
Lemma quiet_create k : quiet (fs_create k).
Proof. by apply quiet_fio. Qed.
Lemma quiet_check : quiet fs_check.
Proof. by apply quiet_fio. Qed.
Lemma quiet_remove_tmp k : quiet (fs_remove_tmp k).
Proof. by apply quiet_fio. Qed.
Lemma quiet_copy k rd : quiet (io_Copy k rd).
Proof. apply quiet_bind; [by apply quiet_fio|done]. Qed.

(** The steps before the rename: they end without an error only with the whole stream in
    the temporary file. *)
Definition prepare (k : path) (rd : Reader) : fs () := _ ← io_Copy k rd; _ ← fs_check; _ ← fs_check; fs_check.

Lemma quiet_prepare k rd : quiet (prepare k rd).
Proof. repeat (apply quiet_bind; [apply quiet_copy || apply quiet_check|intros []]). apply quiet_check. Qed.

Lemma prepare_tmp k rd c c' : prepare k rd c = (c', Ok ()) -> rd_err rd = None /\ fc_tmp c' !! k = Some (rd_data rd).
Proof.
  unfold prepare, io_Copy, fs_write, fs_check, fio, lift, mbind, fs_bind.
  destruct (fc_fault c _); [done|]. destruct (rd_err rd); [done|].
  repeat (match goal with |- context [fc_fault ?x ?y] => destruct (fc_fault x y); [done|] end).
  intros [= <-]. split; [done|]. cbn. by rewrite lookup_insert_eq.
Qed.

Lemma write_body_split k t rd c :
  write_body k t rd c =
  (_ ← prepare k rd; _ ← fs_rename k now; _ ← fs_chtimes k t; mret (mkFileInfo k.1.1 k.1.2 k.2 (Z.of_nat (length (rd_data rd))) t)) c.
Proof.
  unfold write_body, prepare, mbind, fs_bind. destruct (io_Copy k rd c) as [c1 [u|e|m]]; [|done..].
  destruct (fs_check c1) as [c2 [u2|e|m]]; [|done..]. destruct (fs_check c2) as [c3 [u3|e|m]]; [|done..].
  by destruct (fs_check c3) as [c4 [u4|e|m]].
Qed.

(** What a write does to the visible files. *)
Definition written (k : path) (rd : Reader) (c c' : FileStore) (r : result FileInfo) : Prop :=
  fc_files c' = fc_files c /\ is_ok r = false \/
  rd_err rd = None /\ exists t, fc_files c' = <[k := (rd_data rd, t)]> (fc_files c) /\
    (forall info, r = Ok info -> info = mkFileInfo k.1.1 k.1.2 k.2 (Z.of_nat (length (rd_data rd))) t).

Lemma write_body_spec k t rd c c' r : write_body k t rd c = (c', r) -> written k rd c c' r.
Proof.
  rewrite write_body_split. pose proof (quiet_prepare k rd c) as Hq. pose proof (prepare_tmp k rd c) as Ht. unfold mbind, fs_bind at 1.
  destruct (prepare k rd c) as [c1 [[]|e|m]]; cbn [fst] in Hq; [|intros [= <- <-]; by left..].
  destruct (Ht c1 eq_refl) as [He Hd]. unfold fs_rename, fs_chtimes, mret, fs_ret, fs_bind, fio. cbn beta.
  destruct (fc_fault c1 _); [intros [= <- <-]; left; split; [exact Hq|done]|].
  destruct (fc_fault _ _); intros [= <- <-]; right; (split; [done|]); cbn; rewrite Hq, Hd.
  - exists now. split; [done|]. done.
  - exists t. split; [by rewrite alter_insert_eq|]. by intros info [= <-].
Qed.

Lemma file_Write_spec c level lo hi rd c' r :
  file_WriteLTXFile c level lo hi rd = (c', r) ->
  (in_range (level, lo, hi) = false /\ c' = c /\ is_ok r = false) \/
  (in_range (level, lo, hi) = true /\ written (level, lo, hi) rd c c' r).
Proof.
  unfold file_WriteLTXFile. destruct (in_range _); cbn [negb]; [|intros [= <- <-]; by left]. intros HW. right. split; [done|].
  destruct (ExtractLTXTimestamp peek now rd) as [[t rd']|e|m] eqn:ET; [|injection HW as <- <-; by left..].
  apply ExtractLTXTimestamp_reader in ET as ->. revert HW. unfold mbind, fs_bind.
  pose proof (quiet_mkdir level c) as H1. destruct (fs_mkdir level c) as [c1 [u1|e|m]]; cbn [fst] in H1; [|intros [= <- <-]; by left..].
  pose proof (quiet_create (level, lo, hi) c1) as H2. destruct (fs_create _ c1) as [c2 [u2|e|m]]; cbn [fst] in H2; [|intros [= <- <-]; left; split; [congruence|done]..].
  unfold cleanup. destruct (write_body _ t rd c2) as [c3 r3] eqn:HB. apply write_body_spec in HB. unfold written in *. rewrite H2, H1 in HB.
  destruct r3 as [info|e|m]; intros [= <- <-]; [done| |done]. rewrite (quiet_remove_tmp (level, lo, hi) c3). exact HB.
Qed.

Definition file_stored (c : FileStore) (level : Z) (lo hi : TXID) : option (list byte) :=
  if in_range (level, lo, hi) then fst <$> fc_files c !! (level, lo, hi) else None.

#[local] Instance file_storage : StorageLaws FileStore.
Proof.
  refine {| stored := file_stored |}.
  - intros c um level lo hi. unfold file_stored. split.
    + destruct (in_range _) eqn:ER; [|by intros []]. intros [b Hb]. destruct (fc_files c !! _) as [[b' t]|] eqn:EF; [|done].
      exists (mkFileInfo level lo hi (Z.of_nat (length b')) t). split; [|done]. apply level_In, readdir_In. split; [done|].
      split; [done|]. by exists b'.
    + intros (f & Hf & <- & <-). apply level_In, readdir_In in Hf as (<- & HR & b & Hb & _). unfold path_of in HR, Hb. by rewrite HR, Hb.
  - intros c level lo hi rd c' info HW. apply file_Write_spec in HW as [(_ & _ & ?)|[HR [[_ ?]|(He & t & Hf & _)]]]; [done..|].
    split; [done|]. unfold file_stored. by rewrite HR, Hf, lookup_insert_eq.
  - intros c level lo hi rd c' r HW. apply file_Write_spec in HW as [(_ & -> & _)|[HR [[Hf _]|(He & t & Hf & _)]]]; [by left| |right; split; [done|]].
    + left. unfold file_stored. by rewrite Hf.
    + unfold file_stored. by rewrite HR, Hf, lookup_insert_eq.
  - intros c level lo hi rd c' r level' lo' hi' HW Hk.
    apply file_Write_spec in HW as [(_ & -> & _)|[HR [[Hf _]|(He & t & Hf & _)]]]; [done|..]; unfold file_stored; rewrite Hf; [done|].
    by rewrite lookup_insert_ne by done.
Defined.

#[local] Instance file_readers : OpenLaws FileStore.
Proof.
  split. intros c level lo hi off rd Hoff. cbn. unfold file_OpenLTXFile, os_Open, file_stored.
  destruct (in_range _); cbn [negb]; [|done]. destruct (fc_files c !! _) as [[b t]|]; [|done]. destruct (fc_open c _); [done|].
  intros HO. exists b. split; [done|]. enough (rd = mkReader (drop (Z.to_nat off) b) None) as -> by done.
  destruct (Z.ltb_spec 0 off); [destruct (fc_seek c _); [done|]|]; injection HO as <-; [done|]. by replace off with 0 by lia.
Qed.

Lemma file_Open_stored c level lo hi off b t :
  in_range (level, lo, hi) = true -> fc_files c !! (level, lo, hi) = Some (b, t) -> 0 <= off ->
  fc_open c (level, lo, hi) = None -> fc_seek c (level, lo, hi) = None ->
  file_OpenLTXFile c level lo hi off 0 = Ok (mkReader (drop (Z.to_nat off) b) None).
Proof.
  intros HR Hf Hoff Ho Hs. unfold file_OpenLTXFile, os_Open. rewrite HR, Hf, Ho, Hs. cbn [negb].
  destruct (Z.ltb_spec 0 off); [done|]. by replace off with 0 by lia.
Qed.

Lemma file_LTXFiles_ok c level seek um :
  fc_list c level = None -> is_Some (match file_LTXFiles c level seek um with Ok it => Some it | _ => None end).
Proof. intros Hl. unfold file_LTXFiles, open_dir. rewrite Hl. destruct (readdir c level); [case_bool_decide|]; cbn; by eauto. Qed.

(** C25: a write to a replica in a directory is atomic whatever fails on the way, be it the
    stream, the creation of the temporary file, the copy, the sync, the close, the rename or
    the change of its times.  Afterwards every other file is as before, and the file is as before or
    holds the whole stream, which is the case whenever no error is returned.  A file written
    without an error is listed with the size and the timestamp that the call returned, and is
    read back from any offset. *)
Theorem file_write_atomic c level lo hi rd c' r :
  file_WriteLTXFile c level lo hi rd = (c', r) ->
  (forall k, k <> (level, lo, hi) -> fc_files c' !! k = fc_files c !! k) /\
  (fc_files c' !! (level, lo, hi) = fc_files c !! (level, lo, hi) \/
   rd_err rd = None /\ exists t, fc_files c' !! (level, lo, hi) = Some (rd_data rd, t)) /\
  (forall info, r = Ok info ->
     info = mkFileInfo level lo hi (Z.of_nat (length (rd_data rd))) (CreatedAt info) /\
     (forall off, 0 <= off -> fc_open c' (level, lo, hi) = None -> fc_seek c' (level, lo, hi) = None ->
        file_OpenLTXFile c' level lo hi off 0 = Ok (mkReader (drop (Z.to_nat off) (rd_data rd)) None)) /\
     (forall seek um, seek <= lo -> fc_list c' level = None ->
        exists it, file_LTXFiles c' level seek um = Ok it /\ In info (itr_items it) /\ itr_Err it = None)).
Proof.
  intros [(_ & -> & Hno)|(HR & [[Hf Hno]|(He & t & Hf & Hinfo)])]%file_Write_spec.
  - split_and!; [done|by left|]. by intros info ->.
  - rewrite Hf. split_and!; [done|by left|]. by intros info ->.
  - assert (fc_files c' !! (level, lo, hi) = Some (rd_data rd, t)) as Hk by (by rewrite Hf, lookup_insert_eq).
    split_and!; [intros k Hne; by rewrite Hf, lookup_insert_ne|right; eauto|]. intros info ->. specialize (Hinfo info eq_refl).
    split_and!; [by rewrite Hinfo|intros; by eapply file_Open_stored|]. intros seek um Hseek Hl.
    destruct (file_LTXFiles_ok c' level seek um Hl) as [it Hit]. destruct (file_LTXFiles c' level seek um) as [it'|?|?] eqn:EL; [|done..].
    apply file_LTXFiles_spec in EL as ->. eexists. split; [done|]. split; [|done]. cbn [itr_items].
    apply list_elem_of_In, list_elem_of_filter. split; [rewrite Hinfo; cbn; by apply Is_true_true, Z.leb_le|].
    apply list_elem_of_In, level_In, readdir_In. rewrite Hinfo. cbn. split; [done|]. split; [done|]. by exists (rd_data rd).
Qed.

(** ** Version 3 listings *)

(** The loop lists exactly the files whose names parse. *)
Lemma entries_v3_spec {P A} (parse : list ascii -> result P) (mk : P -> Z -> time -> A) entries l x :
  entries_v3 parse mk entries = Ok l ->
  x ∈ l <-> exists e p size t, e ∈ entries /\ de_IsDir e = false /\ parse (de_Name e) = Ok p /\ de_Info e = Ok (size, t) /\ x = mk p size t.
Proof.
  revert l. induction entries as [|e entries IH]; intros l; cbn [entries_v3].
  { intros [= <-]. rewrite elem_of_nil. split; [done|]. intros (? & ? & ? & ? & ?%elem_of_nil & _). done. }
  destruct (de_IsDir e) eqn:ED; [|destruct (parse (de_Name e)) as [p|err|m] eqn:EP; [|..|done]].
  - intros HL. rewrite (IH l HL). split; [intros (e' & p & n & t & ? & ?); exists e', p, n, t; split; [by right|done]|].
    intros (e' & p & n & t & [->|?]%elem_of_cons & Hd & Hr); [congruence|]. by exists e', p, n, t.
  - destruct (de_Info e) as [[n t]|err|m] eqn:EI; cbn [mbind result_bind]; [|done..].
    destruct (entries_v3 parse mk entries) as [rest|err|m]; cbn [mbind result_bind]; [|done..]. intros [= <-].
    rewrite elem_of_cons, (IH rest eq_refl). split.
    + intros [->|(e' & p' & n' & t' & ? & ?)]; [exists e, p, n, t; split_and!; [by left|done..]|]. exists e', p', n', t'. split; [by right|done].
    + intros (e' & p' & n' & t' & [->|?]%elem_of_cons & Hd & Hp & Hi & ->); [left; rewrite EP in Hp; rewrite EI in Hi; by simplify_eq|].
      right. by exists e', p', n', t'.
  - intros HL. rewrite (IH l HL). split; [intros (e' & p & n & t & ? & ?); exists e', p, n, t; split; [by right|done]|].
    intros (e' & p & n & t & [->|?]%elem_of_cons & Hd & Hp & Hr); [congruence|]. by exists e', p, n, t.
Qed.

#[local] Instance index_le_total : Total index_le.
Proof. intros a b. unfold index_le. lia. Qed.
#[local] Instance index_le_trans : Transitive index_le.
Proof. intros a b d. unfold index_le. lia. Qed.
#[local] Instance pos_le_total : Total pos_le.
Proof. intros a b. unfold pos_le. repeat case_match; breflect; lia. Qed.
#[local] Instance pos_le_trans : Transitive pos_le.
Proof. intros a b d. unfold pos_le. destruct (Z.eqb_spec (w_Index a) (w_Index b)), (Z.eqb_spec (w_Index b) (w_Index d)), (Z.eqb_spec (w_Index a) (w_Index d)); cbn [negb]; lia. Qed.

(** The listings of v0.3.x files are sorted; a listed snapshot or segment is the
    file of the directory that opening it reads. *)
Theorem file_v3_listings c g l segs :
  (file_SnapshotsV3 c g = Ok l ->
    StronglySorted index_le l /\
    forall s, s ∈ l -> s_Generation s = g /\ exists entries, fc_readdir c [GenerationsDirV3; list_ascii_of_string g; SnapshotsDirV3] = Ok entries /\
      mkEntry (FormatSnapshotFilenameV3 (s_Index s)) false (Ok (s_Size s, s_CreatedAt s)) ∈ entries) /\
  (file_WALSegmentsV3 c g = Ok segs ->
    StronglySorted pos_le segs /\
    forall s, s ∈ segs -> w_Generation s = g /\ exists entries, fc_readdir c [GenerationsDirV3; list_ascii_of_string g; WALDirV3] = Ok entries /\
      mkEntry (FormatWALSegmentFilenameV3 (w_Index s) (w_Offset s)) false (Ok (w_Size s, w_CreatedAt s)) ∈ entries).
Proof.
  split; unfold file_SnapshotsV3, file_WALSegmentsV3, read_dir_v3;
    destruct (fc_readdir c _) as [entries|err|m] eqn:ER; cbn [mbind result_bind]; [| |done| | |done].
  2,4: (destruct (os_IsNotExist err); [|done]; intros [= <-]; split; [constructor|]; by intros s ?%elem_of_nil).
  - destruct (entries_v3 _ _ entries) as [l'|err|m] eqn:EE; cbn [mbind result_bind]; [|done..]. intros [= <-].
    split; [apply StronglySorted_merge_sort; apply _|]. intros s. rewrite merge_sort_Permutation, (entries_v3_spec _ _ _ _ _ EE).
    intros ([nm d i] & p & n & t & Hin & Hd & Hp & Hi & ->). cbn in *. subst. split; [done|]. exists entries. split; [done|].
    by destruct (proj1 (proj2 (proj2 (filenames_roundtrip p 0 nm))) Hp) as [-> _].
  - destruct (entries_v3 _ _ entries) as [l'|err|m] eqn:EE; cbn [mbind result_bind]; [|done..]. intros [= <-].
    split; [apply StronglySorted_merge_sort; apply _|]. intros s. rewrite merge_sort_Permutation, (entries_v3_spec _ _ _ _ _ EE).
    intros ([nm d i] & [p o] & n & t & Hin & Hd & Hp & Hi & ->). cbn in *. subst. split; [done|]. exists entries. split; [done|].
    by destruct (proj2 (proj2 (proj2 (filenames_roundtrip p o nm))) Hp) as [-> _].
Qed.
End FileClient.

(** ** A replica in a directory *)

Module DirDemo.
#[local] Instance key_le_dec f g : Decision (key_le f g).
Proof. unfold key_le. apply _. Defined.
#[local] Instance key_le_total : Total key_le.
Proof. intros f g. unfold key_le. lia. Qed.
#[local] Instance key_le_trans : Transitive key_le.
Proof. intros f g h. unfold key_le. lia. Qed.
Definition sorted_iterator : list FileInfo -> list FileInfo := merge_sort key_le.

Lemma sorted_permutes l : sorted_iterator l ≡ₚ l.
Proof. apply merge_sort_Permutation. Qed.
Lemma sorted_orders l : StronglySorted key_le (sorted_iterator l).
Proof. apply StronglySorted_merge_sort; apply _. Qed.

Definition demo_peek (rd : Reader) : result Z := match rd_data rd with [] => Err io_EOF | b :: _ => Ok (Z.of_N (Byte.to_N b)) end.
Definition no_v3 {A} (_ : list (list ascii)) : result A := Err (EPath "open" ErrNotExist).
(** An empty directory whose [n]-th change fails if [n] is in [bad]. *)
Definition empty (bad : list nat) : FileStore :=
  mkFileStore ∅ ∅ ∅ 0 (fun n => if bool_decide (n ∈ bad) then Some "disk full"%string else None) (fun _ => None) (fun _ => None) (fun _ => None)
    (fun _ => true) no_v3 no_v3.
Definition put (c : FileStore) (level lo hi : Z) (b : list byte) : FileStore * result FileInfo :=
  file_WriteLTXFile demo_peek 99 c level lo hi (mkReader b None).
Definition dir : FileStore := (put (put (put (empty []) 0 2 2 [x02; x12]).1 0 1 1 [x01; x11]).1 1 1 2 [x02]).1.

(** The clients of this directory keep all laws, so the theorems about syncing and
    restoring hold for it. *)
#[export] Instance ops : ReplicaClient FileStore := file_client_ops sorted_iterator demo_peek 99.
#[export] Instance laws : ReplicaClientLaws FileStore := file_laws sorted_iterator demo_peek 99 sorted_permutes sorted_orders.
#[export] Instance storage : StorageLaws FileStore := file_storage sorted_iterator demo_peek 99 sorted_permutes sorted_orders.
#[export] Instance readers : OpenLaws FileStore := file_readers sorted_iterator demo_peek 99 sorted_permutes sorted_orders.

Example listed_in_order : match LTXFiles dir 0 0 false with Ok it => MinTXID <$> itr_items it | _ => [] end = [1; 2].
Proof. vm_compute. reflexivity. Qed.

(** The change of the times fails after the rename: the call returns an error, and the file is visible with the time of
    the write. *)
Theorem failed_chtimes_visible :
  exists c e, put (empty [7%nat]) 0 1 1 [x01; x11] = (c, Err e) /\ CreatedAt <$> readdir c 0 = [99] /\
    fc_files c !! (0, 1, 1) = Some ([x01; x11], 99) /\ fc_tmp c = ∅.
Proof. eexists _, _. split; [vm_compute; reflexivity|]. repeat split; vm_compute; reflexivity. Qed.
End DirDemo.

Lemma file_write_atomic_witness :
  exists c', file_WriteLTXFile DirDemo.demo_peek 99 (DirDemo.empty []) 0 1 1 (mkReader [x01; x11] None) = (c', Ok (mkFileInfo 0 1 1 2 (time_UnixMilli 1))) /\
    file_OpenLTXFile c' 0 1 1 1 0 = Ok (mkReader [x11] None).
Proof.
  assert ((file_WriteLTXFile DirDemo.demo_peek 99 (DirDemo.empty []) 0 1 1 (mkReader [x01; x11] None)).2 = Ok (mkFileInfo 0 1 1 2 (time_UnixMilli 1))) as Hr by (vm_compute; reflexivity).
  assert (fc_open (file_WriteLTXFile DirDemo.demo_peek 99 (DirDemo.empty []) 0 1 1 (mkReader [x01; x11] None)).1 (0, 1, 1) = None) as Ho by (vm_compute; reflexivity).
  assert (fc_seek (file_WriteLTXFile DirDemo.demo_peek 99 (DirDemo.empty []) 0 1 1 (mkReader [x01; x11] None)).1 (0, 1, 1) = None) as Hs by (vm_compute; reflexivity).
  destruct (file_WriteLTXFile DirDemo.demo_peek 99 (DirDemo.empty []) 0 1 1 (mkReader [x01; x11] None)) as [c' r] eqn:E. cbn [fst snd] in Hr, Ho, Hs. subst r.
  exists c'. split; [reflexivity|].
  destruct (file_write_atomic DirDemo.sorted_iterator DirDemo.demo_peek 99 DirDemo.sorted_permutes DirDemo.sorted_orders
    (DirDemo.empty []) 0 1 1 (mkReader [x01; x11] None) c' _ E) as (_ & _ & HO).
  destruct (HO _ eq_refl) as (_ & Hread & _). apply (Hread 1); [lia|exact Ho|exact Hs].
Defined.
