(* ===== verification/S3Config.v ===== *)
(** * Configuration of the S3 client

    Model of the configuration half of src/s3/replica_client.go: hosts of S3-like
    services, clients made from replica URLs, the validation of server-side encryption,
    the initialization of the SDK client with its options, and the middleware that
    prepares requests.  Strings are lists of ASCII characters, as in Urls.v. *)

From Stdlib Require Import ZArith Lia Ascii String Strings.Byte.
From stdpp Require Import base numbers list strings gmap sorting.
From S2P Require Import Prelude V3 Urls.
Local Open Scope Z_scope.

(** ** The strings, strconv and base64 packages *)

Definition TrimSuffix (s suffix : str) : str := if HasSuffix s suffix then take (length s - length suffix) s else s.
Definition dotc : ascii := "."%char.
(** A string split at its last dot. *)
Definition rsplit_dot (s : str) : option (str * str) :=
  match Index (rev s) [dotc] with
  | Some i => Some (take (length s - S i) s, drop (length s - i) s)
  | None => None
  end.

Definition dec_digit (c : ascii) : option Z :=
  let n := Z.of_nat (nat_of_ascii c) in if (48 <=? n) && (n <=? 57) then Some (n - 48) else None.
Fixpoint digits (acc : Z) (s : str) : option Z :=
  match s with
  | [] => Some acc
  | c :: s => match dec_digit c with Some d => digits (acc * 10 + d) s | None => None end
  end.
(** [strconv.ParseInt(s, 10, 64)] and [strconv.Atoi]: an optional sign, digits, and 64 bits. *)
Definition ParseInt (s : str) : option Z :=
  let '(neg, body) := match s with
                      | c :: rest => if bool_decide (c = "-"%char) then (true, rest)
                                     else if bool_decide (c = "+"%char) then (false, rest) else (false, s)
                      | [] => (false, [])
                      end in
  if bool_decide (body = []) then None else
  n ← digits 0 body;
  let z := if neg : bool then - n else n in
  if (- 2 ^ 63 <=? z) && (z <? 2 ^ 63) then Some z else None.

(** [base64.StdEncoding]: groups of four characters, the last one padded; line ends are
    skipped when decoding. *)
Definition b64_alphabet : str := lit "ABCDEFGHIJKLMNOPQRSTUVWXYZabcdefghijklmnopqrstuvwxyz0123456789+/".
Definition b64_char (n : Z) : ascii := nth (Z.to_nat n) b64_alphabet "A"%char.
Definition b64_val (c : ascii) : option Z := Z.of_nat <$> Index b64_alphabet [c].
Definition pad : ascii := "="%char.

Fixpoint EncodeToString (b : list byte) : str :=
  match b with
  | [] => []
  | [x] => [b64_char (byteZ x / 4); b64_char (byteZ x mod 4 * 16); pad; pad]
  | [x; y] => [b64_char (byteZ x / 4); b64_char (byteZ x mod 4 * 16 + byteZ y / 16); b64_char (byteZ y mod 16 * 4); pad]
  | x :: y :: z :: b =>
      b64_char (byteZ x / 4) :: b64_char (byteZ x mod 4 * 16 + byteZ y / 16) ::
      b64_char (byteZ y mod 16 * 4 + byteZ z / 64) :: b64_char (byteZ z mod 64) :: EncodeToString b
  end.

Definition b64_group (c1 c2 c3 c4 : ascii) : option (list byte) :=
  match b64_val c1, b64_val c2 with
  | Some v1, Some v2 =>
      if bool_decide (c3 = pad) then if bool_decide (c4 = pad) then Some [Zbyte (v1 * 4 + v2 / 16)] else None
      else match b64_val c3 with
           | None => None
           | Some v3 =>
               if bool_decide (c4 = pad) then Some [Zbyte (v1 * 4 + v2 / 16); Zbyte (v2 mod 16 * 16 + v3 / 4)]
               else match b64_val c4 with
                    | None => None
                    | Some v4 => Some [Zbyte (v1 * 4 + v2 / 16); Zbyte (v2 mod 16 * 16 + v3 / 4); Zbyte (v3 mod 4 * 64 + v4)]
                    end
           end
  | _, _ => None
  end.
Fixpoint b64_groups (s : str) : option (list byte) :=
  match s with
  | [] => Some []
  | c1 :: c2 :: c3 :: c4 :: s =>
      g ← b64_group c1 c2 c3 c4;
      if bool_decide (s = []) then Some g
      else if bool_decide (length g = 3%nat) then rest ← b64_groups s; Some (g ++ rest) else None
  | _ => None
  end.
Definition newline (c : ascii) : bool := (nat_of_ascii c =? 10)%nat || (nat_of_ascii c =? 13)%nat.
Definition DecodeString (s : str) : result (list byte) :=
  match b64_groups (filter (fun c => newline c = false) s) with
  | Some b => Ok b
  | None => Err (EMsg "illegal base64 data")
  end.

(** ** Hosts *)

(** The greedy bucket and the rest, of a string that ends with a bucket separator and
    [s3], any character, and a name without dots: the last position where this matches. *)
Fixpoint s3_region_at (x : str) (p : nat) : option (str * str) :=
  let here := bool_decide (take 2 (drop p x) = lit "s3") && (p + 4 <=? length x)%nat &&
              negb (Contains (drop (p + 3) x) [dotc]) in
  match p with
  | O => if here then Some ([], drop 3 x) else None
  | S q => if here && bool_decide (x !! q = Some dotc) && (1 <=? q)%nat then Some (take q x, drop (p + 3) x)
           else s3_region_at x q
  end.
Definition s3_region (x : str) : option (str * str) := s3_region_at x (length x).

(** A suffix with one character that may be anything before its last three. *)
Definition TrimAnyCom (s : str) (suffix : string) : option str :=
  let n := (length s - length (lit suffix) - 4)%nat in
  if (length (lit suffix) + 4 <=? length s)%nat && bool_decide (take (length (lit suffix)) (drop n s) = lit suffix) &&
     bool_decide (drop (length s - 3) s = lit "com")
  then Some (take n s) else None.

Definition awsS3Regex (host : str) : option (str * str) :=
  if negb (HasSuffix host (lit ".amazonaws.com")) then None else
  let x := TrimSuffix host (lit ".amazonaws.com") in
  if HasSuffix x (lit ".s3") && (3 <? length x)%nat then Some (TrimSuffix x (lit ".s3"), [])
  else match rsplit_dot x with
       | Some (y, reg) =>
           if negb (bool_decide (reg = [])) && HasSuffix y (lit ".s3") && (3 <? length y)%nat
           then Some (TrimSuffix y (lit ".s3"), reg) else None
       | None => None
       end.
Definition digitaloceanRegex (host : str) : option (str * str) :=
  x ← TrimAnyCom host ".digitaloceanspaces";
  match rsplit_dot x with
  | Some (b, reg) => if bool_decide (b = []) || bool_decide (reg = []) then None else Some (b, reg)
  | None => if bool_decide (x = []) then None else Some ([], x)
  end.
Definition backblazeRegex (host : str) : option (str * str) := x ← TrimAnyCom host ".backblazeb2"; s3_region x.
Definition filebaseRegex (host : str) : option str :=
  x ← TrimAnyCom host "filebase";
  let n := (length x - 3)%nat in
  if (3 <=? length x)%nat && bool_decide (take 2 (drop n x) = lit "s3") then
    let b := take n x in
    if bool_decide (b = []) then Some []
    else if HasSuffix b [dotc] && (1 <? length b)%nat then Some (TrimSuffix b [dotc]) else None
  else None.
Definition scalewayRegex (host : str) : option (str * str) :=
  if HasSuffix host (lit ".scw.cloud") then s3_region (TrimSuffix host (lit ".scw.cloud")) else None.

Definition DefaultRegion : str := lit "us-east-1".

(** Bucket, region, endpoint and path style. *)
Definition ParseHost (host : str) : str * str * str * bool :=
  if Contains host (lit ":") && negb (Contains host (lit ".com")) then
    match SplitN 2 dotc host with
    | [b; rest] => (b, DefaultRegion, lit "http://" ++ rest, true)
    | _ => ([], [], lit "http://" ++ host, true)
    end
  else match awsS3Regex host with
  | Some (bucket, region) => (bucket, region, [], false)
  | None => match digitaloceanRegex host with
  | Some (bucket, region) => (bucket, region, lit "https://" ++ region ++ lit ".digitaloceanspaces.com", false)
  | None => match backblazeRegex host with
  | Some (bucket, region) => (bucket, region, lit "https://s3." ++ region ++ lit ".backblazeb2.com", true)
  | None => match filebaseRegex host with
  | Some bucket => (bucket, [], lit "s3.filebase.com", false)
  | None => match scalewayRegex host with
  | Some (bucket, region) => (bucket, region, lit "s3." ++ region ++ lit ".scw.cloud", false)
  | None => (host, [], [], false)
  end end end end end.

(** [ParseURL] of a URL already parsed into scheme, host and path. *)
Definition ParseURL (url : result (str * str * str)) : result (str * str * str) :=
  '(scheme, host, upath) ← url;
  if negb (bool_decide (scheme = lit "s3")) then Err (EMsg "s3: invalid url scheme")
  else if bool_decide (host = lit "filebase.com") then
    let parts := SplitN 2 slash (TrimPrefix upath [slash]) in
    Ok (default [] (parts !! 0%nat), [], default [] (parts !! 1%nat))
  else
    let '(bucket, region, _, _) := ParseHost host in
    Ok (if bool_decide (bucket = []) then host else bucket, region, TrimPrefix upath [slash]).

(** ** Clients made from URLs *)

Record S3Config := mkS3Config {
  AccessKeyID : str; SecretAccessKey : str;
  Region : str; Bucket : str; Path : str; Endpoint : str;
  ForcePathStyle : bool; SkipVerify : bool; SignPayload : bool; RequireContentMD5 : bool;
  PartSize : Z; Concurrency : Z; MetadataConcurrency : Z;
  SSECustomerAlgorithm : str; SSECustomerKey : str; SSECustomerKeyMD5 : str; SSEKMSKeyID : str
}.

Definition NewReplicaClient : S3Config := mkS3Config [] [] [] [] [] [] false false true true 0 0 0 [] [] [] [].
Definition DefaultR2Concurrency : Z := 2.

Definition nonempty (s : str) : bool := negb (bool_decide (s = [])).
(** The first of some query parameters or environment variables that is set. *)
Fixpoint first_set (get : string -> str) (keys : list string) : str :=
  match keys with
  | [] => []
  | key :: keys => if nonempty (get key) then get key else first_set get keys
  end.
Definition positive (v : str) : option Z :=
  n ← ParseInt v; if 0 <? n then Some n else None.

Section FromURL.
Variable TrimSpace : str -> str.
Variable url_host : str -> option str.
Variable getenv : string -> str.

Abbreviation ensure := (fun e => (EnsureEndpointScheme TrimSpace url_host e).1).

(** The host and the query: bucket, region, endpoint and path style. *)
Definition url_location (host : str) (query : string -> str) : str * str * str * bool :=
  let '(bucket, region, endpoint, forcePathStyle) :=
    if HasPrefix host (lit "arn:") then (host, RegionFromS3ARN host, [], false) else ParseHost host in
  let keys := ["forcePathStyle"; "force-path-style"]%string in
  let '(v, ok) := BoolQueryValue query keys in
  let '(endpoint, forcePathStyle) :=
    if nonempty (query "endpoint") then (ensure (query "endpoint"), if negb ok || v then true else forcePathStyle)
    else (endpoint, forcePathStyle) in
  let region := if nonempty (query "region") then query "region"%string else region in
  (bucket, region, endpoint, if ok then v else forcePathStyle).

(** The path style and the payload settings that a provider needs. *)
Definition signed_provider (endpoint : str) : bool :=
  IsHetznerEndpoint TrimSpace url_host endpoint || IsDigitalOceanEndpoint TrimSpace url_host endpoint ||
  IsBackblazeEndpoint TrimSpace url_host endpoint || IsFilebaseEndpoint TrimSpace url_host endpoint ||
  IsScalewayEndpoint TrimSpace url_host endpoint || IsCloudflareR2Endpoint TrimSpace url_host endpoint ||
  IsSelfHostedS3Endpoint TrimSpace url_host endpoint || IsSupabaseEndpoint TrimSpace url_host endpoint.
Definition path_provider (endpoint : str) : bool :=
  IsFilebaseEndpoint TrimSpace url_host endpoint || IsBackblazeEndpoint TrimSpace url_host endpoint ||
  IsSelfHostedS3Endpoint TrimSpace url_host endpoint || IsSupabaseEndpoint TrimSpace url_host endpoint.

(** A setting is [Some] once it is set. *)
Definition provider_sign (endpoint : str) (sign : option bool) : option bool :=
  let sign := if IsTigrisEndpoint TrimSpace url_host endpoint then Some (default true sign) else sign in
  if signed_provider endpoint then Some (default true sign) else sign.
Definition provider_md5 (endpoint : str) (md5 : option bool) : option bool :=
  if IsTigrisEndpoint TrimSpace url_host endpoint then Some (default false md5) else md5.

Definition bool_setting (query : string -> str) (keys : list string) : option bool :=
  let '(v, ok) := BoolQueryValue query keys in if ok then Some v else None.

Definition NewReplicaClientFromURL (host urlPath : str) (query : string -> str) : result S3Config :=
  let '(bucket, region, endpoint, forcePathStyle) := url_location host query in
  let skipVerify := default false (bool_setting query ["skipVerify"; "skip-verify"]%string) in
  let sign := bool_setting query ["signPayload"; "sign-payload"]%string in
  let md5 := bool_setting query ["requireContentMD5"; "require-content-md5"]%string in
  let concurrency := if nonempty (query "concurrency") then positive (query "concurrency"%string) else None in
  let partSize :=
    if nonempty (query "partSize") then positive (query "partSize"%string)
    else if nonempty (query "part-size") then positive (query "part-size"%string) else None in
  if bool_decide (bucket = []) then Err (EMsg "bucket required for s3 replica URL") else
  let forcePathStyleSet := nonempty (query "forcePathStyle") || nonempty (query "force-path-style") in
  let accessKeyID := first_set getenv ["AWS_ACCESS_KEY_ID"; "REPLICATE_ACCESS_KEY_ID"]%string in
  let secretAccessKey := first_set getenv ["AWS_SECRET_ACCESS_KEY"; "REPLICATE_SECRET_ACCESS_KEY"]%string in
  let '(endpoint, forcePathStyle) :=
    if negb (nonempty endpoint) && nonempty (getenv "REPLICATE_S3_ENDPOINT")
    then (ensure (getenv "REPLICATE_S3_ENDPOINT"), if forcePathStyleSet then forcePathStyle else true)
    else (endpoint, forcePathStyle) in
  let sign := provider_sign endpoint sign in
  let md5 := provider_md5 endpoint md5 in
  let forcePathStyle := if negb forcePathStyleSet && path_provider endpoint then true else forcePathStyle in
  Ok (mkS3Config accessKeyID secretAccessKey region bucket urlPath endpoint forcePathStyle skipVerify
        (default (SignPayload NewReplicaClient) sign) (default (RequireContentMD5 NewReplicaClient) md5)
        (default 0 partSize)
        (default (if IsCloudflareR2Endpoint TrimSpace url_host endpoint then DefaultR2Concurrency else 0) concurrency) 0
        (first_set query ["sseCustomerAlgorithm"; "sse-customer-algorithm"]%string)
        (first_set query ["sseCustomerKey"; "sse-customer-key"]%string)
        (first_set query ["sseCustomerKeyMD5"; "sse-customer-key-md5"]%string)
        (first_set query ["sseKmsKeyId"; "sse-kms-key-id"]%string)).
End FromURL.

(** ** Server-side encryption *)
Section SSE.
(** The MD5 sum, the host name of a URL that parses, and whether a host name is the
    address of a loopback or private network. *)
Variable md5_Sum : list byte -> list byte.
Variable url_Hostname : str -> option str.
Variable private_ip : str -> bool.

Definition with_scheme (endpoint : str) : str := if has_scheme endpoint then endpoint else lit "https://" ++ endpoint.

Definition set_sse (alg md5 : str) (c : S3Config) : S3Config :=
  mkS3Config (AccessKeyID c) (SecretAccessKey c) (Region c) (Bucket c) (Path c) (Endpoint c) (ForcePathStyle c) (SkipVerify c)
    (SignPayload c) (RequireContentMD5 c) (PartSize c) (Concurrency c) (MetadataConcurrency c) alg (SSECustomerKey c) md5 (SSEKMSKeyID c).

(** An endpoint to which a customer key may be sent. *)
Definition sse_endpoint_ok (endpoint : str) : bool :=
  if nonempty endpoint && HasPrefix (with_scheme endpoint) (lit "http://") then
    match url_Hostname (with_scheme endpoint) with
    | None => true
    | Some host => bool_decide (host = lit "localhost") || private_ip host
    end
  else true.

(** The algorithm and the checksum are filled in on the way, also before an error. *)
Definition validateSSEConfig (c : S3Config) : S3Config * result () :=
  if nonempty (SSECustomerKey c) && nonempty (SSEKMSKeyID c) then
    (c, Err (EMsg "s3: cannot use both sse-customer-key and sse-kms-key-id; they are mutually exclusive"))
  else if negb (nonempty (SSECustomerKey c)) then (c, Ok ())
  else if nonempty (SSECustomerAlgorithm c) && negb (bool_decide (SSECustomerAlgorithm c = lit "AES256")) then
    (c, Err (EMsg "s3: sse-customer-algorithm must be AES256"))
  else
    let c := set_sse (lit "AES256") (SSECustomerKeyMD5 c) c in
    match DecodeString (SSECustomerKey c) with
    | Err e => (c, Err (EWrap "s3: sse-customer-key must be valid base64" e))
    | Panic m => (c, Panic m)
    | Ok keyBytes =>
        if negb (length keyBytes =? 32)%nat then (c, Err (EMsg "s3: sse-customer-key must be 256-bit (32 bytes) when decoded")) else
        let c := if nonempty (SSECustomerKeyMD5 c) then c
                 else set_sse (SSECustomerAlgorithm c) (EncodeToString (md5_Sum keyBytes)) c in
        if sse_endpoint_ok (Endpoint c) then (c, Ok ())
        else (c, Err (EMsg "s3: sse-customer-key requires HTTPS endpoint (HTTP only allowed for localhost/private networks)"))
    end.

(** ** Initialization *)

(** The options of the SDK client and of its uploader that the code sets. *)
Record S3Options := mkS3Options {
  o_Region : str; o_UsePathStyle : bool; o_BaseEndpoint : option str; o_DisableHTTPS : bool;
  o_InsecureSkipVerify : bool; o_StaticCredentials : option (str * str);
  o_ChecksumWhenRequired : bool; u_ChecksumWhenRequired : bool; u_PartSize : option Z; u_Concurrency : option Z
}.

(** The client: its configuration and, once it is initialized, the SDK client. *)
Record S3Client := mkS3Client { s3_cfg : S3Config; s3_opts : option S3Options }.

(** [configureEndpoint]: base endpoint and whether HTTPS is disabled. *)
Definition configureEndpoint (c : S3Config) : option str * bool :=
  if nonempty (Endpoint c) then
    (Some (with_scheme (Endpoint c)), HasPrefix (with_scheme (Endpoint c)) (lit "http://"))
  else (None, false).

(** [findBucketRegion]: [load] is the error of loading the SDK configuration, and
    [location] the answer of the service. *)
Definition findBucketRegion (load : option error) (location : result str) : result str :=
  match load with
  | Some e => Err (EWrap "s3: cannot load aws config for region lookup" e)
  | None => constraint ← location; Ok (if nonempty constraint then constraint else DefaultRegion)
  end.

Definition static_credentials (c : S3Config) : option (str * str) :=
  if nonempty (AccessKeyID c) && nonempty (SecretAccessKey c) then Some (AccessKeyID c, SecretAccessKey c) else None.

(** [HTTPClient] is unset: the client makes its own transport. *)
Definition Init (load1 load2 : option error) (location : result str) (c : S3Client) : S3Client * result () :=
  match s3_opts c with
  | Some _ => (c, Ok ())
  | None =>
      if negb (nonempty (Bucket (s3_cfg c))) then (c, Err (EMsg "s3: bucket name is required")) else
      let '(cfg, r) := validateSSEConfig (s3_cfg c) in
      let c := mkS3Client cfg None in
      match r with
      | Err e => (c, Err e)
      | Panic m => (c, Panic m)
      | Ok _ =>
          match (if nonempty (Region cfg) then Ok (Region cfg)
                 else if negb (nonempty (Endpoint cfg)) then findBucketRegion load1 location wrapping "s3: cannot lookup bucket region"
                 else Ok DefaultRegion) with
          | Err e => (c, Err e)
          | Panic m => (c, Panic m)
          | Ok region =>
              match load2 with
              | Some e => (c, Err (EWrap "s3: cannot load aws config" e))
              | None =>
                  let '(base, plain) := configureEndpoint cfg in
                  (mkS3Client cfg (Some (mkS3Options region (ForcePathStyle cfg) base plain (SkipVerify cfg) (static_credentials cfg)
                     (nonempty (Endpoint cfg)) (nonempty (Endpoint cfg))
                     (if 0 <? PartSize cfg then Some (PartSize cfg) else None)
                     (if 0 <? Concurrency cfg then Some (Concurrency cfg) else None))), Ok ())
              end
          end
      end
  end.
End SSE.

(** ** Middleware *)

Record ObjectIdentifier := mkOID {
  oi_ETag : option str; oi_Key : option str; oi_LastModifiedTime : option str; oi_Size : option str; oi_VersionId : option str
}.
Record Delete := mkDelete { d_Objects : list ObjectIdentifier; d_Quiet : option bool }.

(** A request on its way through the stack: the operation, its delete document, the
    headers the code touches, how the payload is signed, and whether a checksum trailer is added. *)
Record Request := mkRequest {
  rq_op : string; rq_delete : option Delete; rq_UserAgent : str; rq_TigrisConsistent : bool;
  rq_ContentMD5 : str; rq_unsigned : bool; rq_trailer : bool
}.

Definition dquote : ascii := ascii_of_nat 34.

Section Middleware.
(** The text escaping of the XML encoder and the MD5 sum; the number and time texts of
    an identifier are given. *)
Variable xml_escape : str -> str.
Variable md5_Sum : list byte -> list byte.
Variable TrimSpace : str -> str.
Variable url_host : str -> option str.

Definition element (name : string) (content : str) : str := lit "<" ++ lit name ++ lit ">" ++ content ++ lit "</" ++ lit name ++ lit ">".
Definition member (name : string) (v : option str) : str := match v with Some t => element name (xml_escape t) | None => [] end.

Definition encodeObjectIdentifier (v : ObjectIdentifier) : str :=
  element "Object" (member "ETag" (oi_ETag v) ++ member "Key" (oi_Key v) ++ member "LastModifiedTime" (oi_LastModifiedTime v) ++
                    member "Size" (oi_Size v) ++ member "VersionId" (oi_VersionId v)).
Definition encodeObjectIdentifierList (v : list ObjectIdentifier) : str := concat (encodeObjectIdentifier <$> v).
Definition encodeDeleteDocument (v : Delete) : str :=
  encodeObjectIdentifierList (d_Objects v) ++
  match d_Quiet v with Some q => element "Quiet" (lit (if q then "true" else "false")) | None => [] end.
Definition marshalDeleteObjects (v : option Delete) : str :=
  match v with
  | None => []
  | Some v => lit "<Delete xmlns=" ++ dquote :: lit "http://s3.amazonaws.com/doc/2006-03-01/" ++ dquote :: lit ">" ++
              encodeDeleteDocument v ++ lit "</Delete>"
  end.
Definition computeDeleteObjectsContentMD5 (v : option Delete) : str :=
  let payload := marshalDeleteObjects v in
  if bool_decide (payload = []) then [] else EncodeToString (md5_Sum (byte_of_ascii <$> payload)).

(** The serialize step: the checksum that is passed to the finalize step. *)
Definition serialize_md5 (c : S3Config) (rq : Request) : str :=
  if negb (RequireContentMD5 c) || negb (bool_decide (rq_op rq = "DeleteObjects"%string)) then [] else
  match rq_delete rq with
  | Some d => if bool_decide (d_Objects d = []) then [] else computeDeleteObjectsContentMD5 (Some d)
  | None => []
  end.

Definition user_agent (current : str) : str :=
  if bool_decide (current = []) then lit "replicate"
  else if negb (Contains current (lit "replicate")) then lit "replicate " ++ current else current.

Definition middlewareOption (c : S3Config) (rq : Request) : Request :=
  let checksum := serialize_md5 c rq in
  mkRequest (rq_op rq) (rq_delete rq) (user_agent (rq_UserAgent rq))
    (rq_TigrisConsistent rq || IsTigrisEndpoint TrimSpace url_host (Endpoint c))
    (if bool_decide (rq_ContentMD5 rq = []) then checksum else rq_ContentMD5 rq)
    (rq_unsigned rq || negb (SignPayload c))
    (rq_trailer rq && SignPayload c && negb (nonempty (Endpoint c))).
End Middleware.

(** [parseS3DebugEnv]: bits in the order signing, retries, request, request with body,
    response, response with body of the SDK's log modes, given by the caller. *)
Section Debug.
Variable TrimSpace : str -> str.
Variables LogSigning LogRetries LogRequest LogRequestWithBody LogResponse LogResponseWithBody : Z.

Definition debug_mode (mode : str) : Z :=
  let m := ToLower (TrimSpace mode) in
  if bool_decide (m = lit "signing") then LogSigning
  else if bool_decide (m = lit "request") then LogRequest
  else if bool_decide (m = lit "request-with-body") then LogRequestWithBody
  else if bool_decide (m = lit "response") then LogResponse
  else if bool_decide (m = lit "response-with-body") then LogResponseWithBody
  else if bool_decide (m = lit "retries") then LogRetries
  else if bool_decide (m = lit "all") then
    Z.lor LogSigning (Z.lor LogRequest (Z.lor LogRequestWithBody (Z.lor LogResponse (Z.lor LogResponseWithBody LogRetries))))
  else 0.
Definition parseS3DebugEnv (v : str) : Z :=
  if bool_decide (v = []) then 0 else fold_left (fun acc mode => Z.lor acc (debug_mode mode)) (split ","%char v) 0.
End Debug.

(** ** Theorems *)

Lemma nonempty_true s : nonempty s = true <-> s <> [].
Proof. unfold nonempty. rewrite negb_true_iff, bool_decide_eq_false. done. Qed.
Lemma nonempty_false s : nonempty s = false <-> s = [].
Proof. unfold nonempty. rewrite negb_false_iff, bool_decide_eq_true. done. Qed.

Lemma has_scheme_with endpoint : has_scheme (with_scheme endpoint) = true.
Proof. unfold with_scheme. destruct (has_scheme endpoint) eqn:E; [done|]. unfold has_scheme. apply orb_true_iff. right. by apply HasPrefix_app; eexists. Qed.

(** What a validated configuration with a customer key looks like. *)
Lemma validate_sse_ok md5 hostname private c c' :
  validateSSEConfig md5 hostname private c = (c', Ok ()) ->
  Endpoint c' = Endpoint c /\ SSECustomerKey c' = SSECustomerKey c /\ ForcePathStyle c' = ForcePathStyle c /\
  (SSECustomerKey c <> [] ->
     SSEKMSKeyID c = [] /\ SSECustomerAlgorithm c' = lit "AES256" /\ sse_endpoint_ok hostname private (Endpoint c) = true /\
     exists key, DecodeString (SSECustomerKey c) = Ok key /\ length key = 32%nat /\
       SSECustomerKeyMD5 c' = if nonempty (SSECustomerKeyMD5 c) then SSECustomerKeyMD5 c else EncodeToString (md5 key)).
Proof.
  unfold validateSSEConfig. destruct (nonempty (SSECustomerKey c)) eqn:EK; cbn [andb negb].
  2:{ intros [= <-]. split_and!; [done..|]. by apply nonempty_false in EK. }
  destruct (nonempty (SSEKMSKeyID c)) eqn:EM; [done|]. apply nonempty_false in EM.
  destruct (_ && _); [done|]. cbn [SSECustomerKey set_sse SSECustomerKeyMD5 SSECustomerAlgorithm Endpoint].
  destruct (DecodeString _) as [key|e|m]; [|done..]. destruct (length key =? 32)%nat eqn:EL; cbn [negb]; [|done].
  apply Nat.eqb_eq in EL.
  destruct (nonempty (SSECustomerKeyMD5 c)); cbn [Endpoint set_sse]; destruct (sse_endpoint_ok _ _ _) eqn:EE; intros [= <-];
    (split_and!; [done..|]); intros _; (split_and!; [done..|]); by exists key.
Qed.

(** An initialized S3 client never sends a customer key over plain HTTP to a public host.
    When the initialization of a fresh client succeeds and HTTPS is disabled while a customer
    key is configured, the endpoint is an http URL whose host is localhost or a private address
    (or one that does not parse as a URL); the key then decodes to 32 bytes, is used with AES256 and its checksum, and
    no KMS key is set.  The region is never empty for a configured region, a custom endpoint or a location the
    service reports, and a custom endpoint always has a scheme. *)
Theorem s3_customer_key_protected md5 hostname private load1 load2 location cfg c' opts :
  Init md5 hostname private load1 load2 location (mkS3Client cfg None) = (c', Ok ()) -> s3_opts c' = Some opts ->
  o_Region opts <> [] /\
  (forall base, o_BaseEndpoint opts = Some base -> has_scheme base = true /\ o_DisableHTTPS opts = HasPrefix base (lit "http://")) /\
  (o_BaseEndpoint opts = None -> o_DisableHTTPS opts = false) /\
  (SSECustomerKey (s3_cfg c') <> [] ->
     SSEKMSKeyID cfg = [] /\ SSECustomerAlgorithm (s3_cfg c') = lit "AES256" /\
     (exists key, DecodeString (SSECustomerKey (s3_cfg c')) = Ok key /\ length key = 32%nat) /\
     (o_DisableHTTPS opts = true -> exists base, o_BaseEndpoint opts = Some base /\
        (hostname base = None \/ exists host, hostname base = Some host /\ (host = lit "localhost" \/ private host = true)))).
Proof.
  unfold Init. cbn [s3_opts s3_cfg]. destruct (negb _); [done|].
  destruct (validateSSEConfig md5 hostname private cfg) as [cfg' [[]|e|m]] eqn:EV; [|done..].
  apply validate_sse_ok in EV as (HE & HK & HF & HS).
  destruct (if nonempty (Region cfg') then _ else _) as [region|e|m] eqn:ER; [|done..]. destruct load2; [done|].
  destruct (configureEndpoint cfg') as [base plain] eqn:EC. intros [= <-]. cbn [s3_opts s3_cfg]. intros [= <-].
  cbn [o_Region o_BaseEndpoint o_DisableHTTPS]. unfold configureEndpoint in EC. split_and!.
  - destruct (nonempty (Region cfg')) eqn:E1; [injection ER as <-; by apply nonempty_true|].
    destruct (nonempty (Endpoint cfg')); cbn [negb] in ER; [by injection ER as <-|]. unfold findBucketRegion, wrap_err in ER.
    destruct load1; [done|]. destruct location as [l|e|m]; cbn [mbind result_bind] in ER; [|done..]. injection ER as <-.
    destruct (nonempty l) eqn:E2; [by apply nonempty_true|done].
  - intros b ->. destruct (nonempty (Endpoint cfg')); [|done]. injection EC as <- <-. split; [apply has_scheme_with|done].
  - intros ->. destruct (nonempty (Endpoint cfg')); [done|]. by injection EC as <-.
  - rewrite HK. intros Hkey. destruct (HS Hkey) as (HM & HA & HO & key & HD & HL & _). split_and!; [done|done|by exists key|].
    intros ->. rewrite HE in EC. unfold sse_endpoint_ok in HO. destruct (nonempty (Endpoint cfg)) eqn:EN; [|done].
    apply pair_equal_spec in EC as [<- EP]. rewrite EP in HO. cbn [andb] in HO. eexists. split; [done|].
    destruct (hostname _) as [host|]; [right|by left]. exists host. split; [done|].
    apply orb_true_iff in HO as [HO|HO]; [left; by apply bool_decide_eq_true in HO|by right].
Qed.

(** Initialization happens once: after it succeeded it does nothing, and a failed one leaves the
    client uninitialized, so the next call tries again. *)
Theorem init_once md5 hostname private load1 load2 location c c' r :
  Init md5 hostname private load1 load2 location c = (c', r) ->
  (is_ok r = true -> forall l1 l2 loc, Init md5 hostname private l1 l2 loc c' = (c', Ok ())) /\
  (is_ok r = false -> s3_opts c' = None).
Proof.
  unfold Init at 1. destruct (s3_opts c) as [o|] eqn:EO.
  { intros [= <- <-]. split; [|done]. intros _ l1 l2 loc. unfold Init. by rewrite EO. }
  destruct (negb _); [intros [= <- <-]; done|]. destruct (validateSSEConfig md5 hostname private (s3_cfg c)) as [cfg' [[]|e|m]]; [|by intros [= <- <-]..].
  destruct (if nonempty (Region cfg') then _ else _) as [region|e|m]; [|by intros [= <- <-]..]. destruct load2; [by intros [= <- <-]|].
  destruct (configureEndpoint cfg') as [base plain]. intros [= <- <-]. by split.
Qed.

(** A client made from a URL signs payloads and sends MD5 sums unless that is switched off:
    payloads are unsigned only by an explicit query parameter, and MD5 sums are left out only
    by a parameter or for Tigris; a parameter always wins. *)
Theorem s3_url_settings trim uhost getenv host upath query c :
  NewReplicaClientFromURL trim uhost getenv host upath query = Ok c ->
  Bucket c <> [] /\ Path c = upath /\
  SignPayload c = default true (bool_setting query ["signPayload"; "sign-payload"]%string) /\
  RequireContentMD5 c = default (negb (IsTigrisEndpoint trim uhost (Endpoint c))) (bool_setting query ["requireContentMD5"; "require-content-md5"]%string) /\
  (forall v, bool_setting query ["forcePathStyle"; "force-path-style"]%string = Some v -> ForcePathStyle c = v) /\ 0 <= PartSize c /\ 0 <= Concurrency c.
Proof.
  unfold NewReplicaClientFromURL. destruct (url_location trim uhost host query) as [[[bucket region] endpoint] fps] eqn:EL.
  case_bool_decide as HB; [done|].
  destruct (if negb (nonempty endpoint) && nonempty (getenv "REPLICATE_S3_ENDPOINT"%string) then _ else _) as [ep fps'] eqn:EP. intros [= <-].
  cbn [Bucket Path SignPayload RequireContentMD5 Endpoint ForcePathStyle PartSize Concurrency].
  split_and!; [done|done|..].
  - unfold provider_sign. destruct (bool_setting query _) as [v|]; destruct (IsTigrisEndpoint trim uhost ep), (signed_provider trim uhost ep); done.
  - unfold provider_md5. destruct (bool_setting query _) as [v|]; destruct (IsTigrisEndpoint trim uhost ep); done.
  - intros v Hv. unfold bool_setting in Hv. destruct (BoolQueryValue query ["forcePathStyle"; "force-path-style"]%string) as [w ok] eqn:EB.
    destruct ok; [|done]. injection Hv as ->.
    assert (nonempty (query "forcePathStyle"%string) || nonempty (query "force-path-style"%string) = true) as Hset.
    { cbn in EB. unfold nonempty. repeat case_bool_decide; done. }
    rewrite Hset in *. cbn [negb andb]. assert (fps = v) as ->.
    { unfold url_location in EL. destruct (if HasPrefix host _ then _ else _) as [[[b r] e] f]. rewrite EB in EL.
      destruct (if nonempty (query "endpoint"%string) then _ else _). by injection EL. }
    destruct (negb (nonempty endpoint) && _); by injection EP.
  - assert (forall v, 0 <= default 0 (positive v)) as Hpos.
    { intros v. unfold positive. destruct (ParseInt v) as [n|]; [|done]. cbn. destruct (Z.ltb_spec 0 n); cbn; lia. }
    repeat case_match; try apply Hpos; done.
  - assert (forall v d, 0 <= d -> 0 <= default d (positive v)) as Hpos.
    { intros v d Hd. unfold positive. destruct (ParseInt v) as [n|]; [|done]. cbn. destruct (Z.ltb_spec 0 n); cbn; lia. }
    repeat case_match; try apply Hpos; unfold DefaultR2Concurrency; cbn; lia.
Qed.

(** *** Base64 *)

Lemma b64_val_char n : 0 <= n < 64 -> b64_val (b64_char n) = Some n.
Proof.
  intros Hn. assert (forallb (fun k => bool_decide (b64_val (b64_char (Z.of_nat k)) = Some (Z.of_nat k))) (seq 0 64) = true) as HF by (vm_compute; reflexivity).
  rewrite forallb_forall in HF. specialize (HF (Z.to_nat n)). rewrite Z2Nat.id in HF by lia.
  assert (In (Z.to_nat n) (seq 0 64)) as Hin by (apply in_seq; lia). specialize (HF Hin). by apply bool_decide_eq_true in HF.
Qed.

Lemma b64_char_plain n : 0 <= n < 64 -> b64_char n <> pad /\ newline (b64_char n) = false.
Proof.
  intros Hn.
  assert (forallb (fun k => negb (bool_decide (b64_char (Z.of_nat k) = pad)) && negb (newline (b64_char (Z.of_nat k)))) (seq 0 64) = true) as HF by (vm_compute; reflexivity).
  rewrite forallb_forall in HF. specialize (HF (Z.to_nat n)). rewrite Z2Nat.id in HF by lia.
  assert (In (Z.to_nat n) (seq 0 64)) as Hin by (apply in_seq; lia). specialize (HF Hin). breflect. by split.
Qed.

Lemma b64_group_val v1 v2 v3 v4 :
  0 <= v1 < 64 -> 0 <= v2 < 64 -> 0 <= v3 < 64 -> 0 <= v4 < 64 ->
  b64_group (b64_char v1) (b64_char v2) pad pad = Some [Zbyte (v1 * 4 + v2 / 16)] /\
  b64_group (b64_char v1) (b64_char v2) (b64_char v3) pad = Some [Zbyte (v1 * 4 + v2 / 16); Zbyte (v2 mod 16 * 16 + v3 / 4)] /\
  b64_group (b64_char v1) (b64_char v2) (b64_char v3) (b64_char v4) =
    Some [Zbyte (v1 * 4 + v2 / 16); Zbyte (v2 mod 16 * 16 + v3 / 4); Zbyte (v3 mod 4 * 64 + v4)].
Proof.
  intros H1 H2 H3 H4. unfold b64_group. rewrite !b64_val_char by done.
  destruct (b64_char_plain v3 H3) as [P3 _], (b64_char_plain v4 H4) as [P4 _].
  rewrite (bool_decide_eq_false_2 (b64_char v3 = pad)), (bool_decide_eq_false_2 (b64_char v4 = pad)) by done. done.
Qed.

Ltac Zb := repeat match goal with |- context [byteZ ?x] => lazymatch goal with
  | H : 0 <= byteZ x < 256 |- _ => fail | _ => pose proof (byteZ_range x) end end; Z.div_mod_to_equations; lia.

Lemma Zbyte_of z x : z = byteZ x -> Zbyte z = x.
Proof. intros ->. destruct x; vm_compute; reflexivity. Qed.

Lemma encode_groups b : b64_groups (EncodeToString b) = Some b.
Proof.
  induction b as [b IH] using (induction_ltof1 _ (@length byte)). unfold ltof in IH. destruct b as [|x [|y [|z b]]].
  - done.
  - cbn [EncodeToString b64_groups]. destruct (b64_group_val (byteZ x / 4) (byteZ x mod 4 * 16) 0 0) as (-> & _ & _); [Zb..|].
    cbn. rewrite (Zbyte_of _ x) by Zb. done.
  - cbn [EncodeToString b64_groups]. destruct (b64_group_val (byteZ x / 4) (byteZ x mod 4 * 16 + byteZ y / 16) (byteZ y mod 16 * 4) 0) as (_ & -> & _); [Zb..|].
    cbn. rewrite (Zbyte_of _ x), (Zbyte_of _ y) by Zb. done.
  - cbn [EncodeToString b64_groups].
    destruct (b64_group_val (byteZ x / 4) (byteZ x mod 4 * 16 + byteZ y / 16) (byteZ y mod 16 * 4 + byteZ z / 64) (byteZ z mod 64)) as (_ & _ & ->); [Zb..|].
    cbn [mbind option_bind]. rewrite (bool_decide_eq_true_2 (length _ = 3%nat)) by done. rewrite IH by (cbn; lia). cbn [mbind option_bind].
    rewrite (Zbyte_of _ x), (Zbyte_of _ y), (Zbyte_of _ z) by Zb.
    case_bool_decide as HE; [|done]. destruct b as [|? [|? [|? ?]]]; done.
Qed.

Lemma encode_plain b : filter (fun c => newline c = false) (EncodeToString b) = EncodeToString b.
Proof.
  assert (forall n, 0 <= n < 64 -> newline (b64_char n) = false) as Hp by (intros n Hn; apply b64_char_plain, Hn).
  induction b as [b IH] using (induction_ltof1 _ (@length byte)). unfold ltof in IH. destruct b as [|x [|y [|z b]]]; [done|..];
    cbn [EncodeToString]; rewrite !filter_cons_True by (done || (apply Hp; Zb)); [done..|]. by rewrite IH by (cbn; lia).
Qed.

(** Base64 text decodes to the bytes it was made from. *)
Theorem base64_roundtrip b : DecodeString (EncodeToString b) = Ok b.
Proof. unfold DecodeString. by rewrite encode_plain, encode_groups. Qed.

(** *** Hosts *)

Lemma HasSuffix_app a b : HasSuffix (a ++ b) b = true.
Proof. unfold HasSuffix. apply bool_decide_eq_true. rewrite length_app, Nat.add_sub. apply drop_app_length. Qed.

Lemma HasSuffix_inv s suffix : HasSuffix s suffix = true -> exists a, s = a ++ suffix.
Proof. unfold HasSuffix. rewrite bool_decide_eq_true. intros HE. exists (take (length s - length suffix) s). rewrite <- HE at 2. by rewrite take_drop. Qed.

Lemma TrimSuffix_app a b : TrimSuffix (a ++ b) b = a.
Proof. unfold TrimSuffix. rewrite HasSuffix_app, length_app, Nat.add_sub. apply take_app_length. Qed.

Lemma Contains_app a sub b : Contains (a ++ sub ++ b) sub = true.
Proof.
  unfold Contains. apply bool_decide_eq_true. induction a as [|c a IH].
  - assert (HasPrefix (sub ++ b) sub = true) as HP by (apply HasPrefix_app; by exists b).
    rewrite app_nil_l. destruct (sub ++ b) eqn:E; cbn [Index]; rewrite HP; eauto.
  - rewrite <- app_comm_cons. cbn [Index]. destruct (HasPrefix _ _); [by eauto|]. destruct IH as [i ->]. by eauto.
Qed.

Lemma Index_skip w c t : ~ In c w -> Index (w ++ c :: t) [c] = Some (length w).
Proof.
  induction w as [|x w IH]; intros Hn.
  - cbn. unfold HasPrefix. cbn. by rewrite bool_decide_eq_true_2.
  - rewrite <- app_comm_cons. cbn [Index]. unfold HasPrefix at 1. cbn [length take].
    rewrite bool_decide_eq_false_2 by (intros [= ->]; apply Hn; by left). rewrite IH; [done|]. intros ?. apply Hn. by right.
Qed.

Lemma rsplit_dot_app a r : no_sep dotc r -> rsplit_dot (a ++ dotc :: r) = Some (a, r).
Proof.
  intros Hr. unfold rsplit_dot. rewrite rev_app_distr. cbn [rev]. rewrite <- app_assoc. cbn [app].
  rewrite Index_skip by (by rewrite <- in_rev). rewrite length_rev, length_app. cbn [length].
  rewrite take_app_length' by lia. replace (length a + S (length r) - length r)%nat with (S (length a)) by lia.
  f_equal. f_equal. rewrite drop_app_ge by lia. by replace (S (length a) - length a)%nat with 1%nat by lia.
Qed.

(** Hosts of AWS buckets round trip: the bucket and the region are read back from the
    host name that is made of them, and the endpoint stays that of AWS. *)
Theorem aws_host_roundtrip bucket region :
  bucket <> [] ->
  ParseHost (bucket ++ lit ".s3.amazonaws.com") = (bucket, [], [], false) /\
  (region <> [] -> region <> lit "s3" -> no_sep dotc region ->
     ParseHost (bucket ++ lit ".s3." ++ region ++ lit ".amazonaws.com") = (bucket, region, [], false)).
Proof.
  intros Hb. assert (forall x, Contains (x ++ lit ".amazonaws.com") (lit ".com") = true) as Hcom.
  { intros x. replace (x ++ lit ".amazonaws.com") with ((x ++ lit ".amazonaws") ++ lit ".com" ++ []) by (by rewrite <- app_assoc). apply Contains_app. }
  assert (length bucket <> 0%nat) as Hl by (by destruct bucket). split.
  - change (bucket ++ lit ".s3.amazonaws.com") with (bucket ++ lit ".s3" ++ lit ".amazonaws.com"). rewrite app_assoc.
    unfold ParseHost. rewrite Hcom, andb_false_r. unfold awsS3Regex. rewrite HasSuffix_app, TrimSuffix_app, HasSuffix_app, TrimSuffix_app.
    rewrite length_app. cbn [negb andb]. destruct (Nat.ltb_spec 3 (length bucket + length (lit ".s3"))) as [_|Hx]; [done|]. cbn in Hx. lia.
  - intros Hr Hs3 Hdot. replace (bucket ++ lit ".s3." ++ region ++ lit ".amazonaws.com") with (((bucket ++ lit ".s3") ++ dotc :: region) ++ lit ".amazonaws.com")
      by (by rewrite <- !app_assoc).
    unfold ParseHost. rewrite Hcom, andb_false_r. unfold awsS3Regex. rewrite HasSuffix_app, TrimSuffix_app. cbn [negb].
    assert (HasSuffix ((bucket ++ lit ".s3") ++ dotc :: region) (lit ".s3") = false) as ->.
    { apply not_true_is_false. intros [a Ha]%HasSuffix_inv. change (lit ".s3") with (dotc :: lit "s3") in Ha at 2.
      assert (no_sep dotc (lit "s3")) as Hn by (intros [|[|[]]]; done). apply Hs3.
      pose proof (rsplit_dot_app (bucket ++ lit ".s3") region Hdot) as E1. rewrite Ha, (rsplit_dot_app a _ Hn) in E1. congruence. }
    cbn [andb]. rewrite rsplit_dot_app, HasSuffix_app, TrimSuffix_app by done. rewrite bool_decide_eq_false_2 by done. rewrite length_app.
    destruct (Nat.ltb_spec 3 (length bucket + length (lit ".s3"))) as [_|Hx]; [done|]. cbn in Hx. lia.
Qed.

(** An address with a port is taken for a bucket: [192.168.1.5:9000] becomes the bucket [192] at
    the host [168.1.5:9000]. *)
Theorem address_is_split : ParseHost (lit "192.168.1.5:9000") = (lit "192", DefaultRegion, lit "http://168.1.5:9000", true).
Proof. vm_compute. reflexivity. Qed.

(** Requests to delete objects carry the MD5 sum of their document when the configuration asks for
    it, other requests carry none of the code's making; no request has both an unsigned payload or
    a custom endpoint and a checksum trailer; every request names the program in its user agent. *)
Theorem middleware_headers esc md5 trim uhost c rq :
  let rq' := middlewareOption esc md5 trim uhost c rq in
  Contains (rq_UserAgent rq') (lit "replicate") = true /\
  (rq_trailer rq' = true -> SignPayload c = true /\ Endpoint c = []) /\
  (rq_op rq <> "DeleteObjects"%string \/ RequireContentMD5 c = false -> rq_ContentMD5 rq' = rq_ContentMD5 rq) /\
  (forall d, rq_op rq = "DeleteObjects"%string -> RequireContentMD5 c = true -> rq_delete rq = Some d -> d_Objects d <> [] -> rq_ContentMD5 rq = [] ->
     rq_ContentMD5 rq' = EncodeToString (md5 (byte_of_ascii <$> marshalDeleteObjects esc (Some d)))).
Proof.
  unfold middlewareOption. cbn [rq_UserAgent rq_trailer rq_ContentMD5]. split_and!.
  - unfold user_agent. case_bool_decide; [done|]. destruct (Contains (rq_UserAgent rq) (lit "replicate")) eqn:E; [done|]. cbn [negb].
    change (lit "replicate " ++ rq_UserAgent rq) with ([] ++ lit "replicate" ++ " "%char :: rq_UserAgent rq). apply Contains_app.
  - intros HT. breflect. split; [done|]. by apply nonempty_false.
  - intros Ho. case_bool_decide as HM; [|done]. rewrite HM. unfold serialize_md5. destruct Ho as [Ho| ->]; [|done].
    by rewrite (bool_decide_eq_false_2 (rq_op rq = _)), orb_true_r by done.
  - intros d Hop HR Hd Hne HM. unfold serialize_md5. rewrite HR, Hd, HM.
    rewrite (bool_decide_eq_true_2 (rq_op rq = _)), (bool_decide_eq_false_2 (d_Objects d = [])) by done. cbn [negb orb].
    rewrite bool_decide_eq_true_2 by done. done.
Qed.

(** ** A self-hosted service *)

Module S3ConfigDemo.
Definition key32 : list byte := replicate 32 x07.
Definition no_md5 (b : list byte) : list byte := take 16 b.
Definition hostname (u : str) : option str := Some (drop 7 u).
Definition cfg (endpoint : string) : S3Config :=
  mkS3Config [] [] [] (lit "bkt") (lit "db") (lit endpoint) true false true true 0 0 0 [] (EncodeToString key32) [] [].
Definition init (endpoint : string) : S3Client * result () :=
  Init no_md5 hostname (fun h => bool_decide (h = lit "10.0.0.1")) None None (Ok []) (mkS3Client (cfg endpoint) None).

Example public_refused : is_ok (init "http://example.org").2 = false.
Proof. vm_compute. reflexivity. Qed.
End S3ConfigDemo.

Lemma s3_customer_key_protected_witness :
  exists c' opts, S3ConfigDemo.init "http://10.0.0.1" = (c', Ok ()) /\ s3_opts c' = Some opts /\ o_DisableHTTPS opts = true /\ o_Region opts <> [].
Proof.
  assert ((S3ConfigDemo.init "http://10.0.0.1").2 = Ok ()) as Hr by (vm_compute; reflexivity).
  assert (o_DisableHTTPS <$> s3_opts (S3ConfigDemo.init "http://10.0.0.1").1 = Some true) as Hd by (vm_compute; reflexivity).
  unfold S3ConfigDemo.init in *.
  destruct (Init S3ConfigDemo.no_md5 _ _ _ _ _ _) as [c' r] eqn:E. cbn [fst snd] in Hr, Hd. subst r.
  destruct (s3_opts c') as [opts|] eqn:EO; [|discriminate]. injection Hd as Hd. exists c', opts.
  split; [reflexivity|]. split; [exact EO|]. split; [exact Hd|].
  apply (s3_customer_key_protected S3ConfigDemo.no_md5 S3ConfigDemo.hostname (fun h => bool_decide (h = lit "10.0.0.1")) None None (Ok []) (S3ConfigDemo.cfg "http://10.0.0.1") c' opts E EO).
Defined.
