(* ===== verification/S3Client.v ===== *)
(** * The S3 client

    Model of the object operations of src/s3/replica_client.go over a bucket: the paged
    listing with its batches of metadata requests, ranged reads, uploads, deletions in
    batches, and the v0.3.x listings.  The service fails as an environment says.  The client keeps
    the laws of the client interface (Ltx.v), of a storage (Pipeline.v) and of readers
    (Restore.v), so what is proved from them holds for replicas in S3. *)

From Stdlib Require Import ZArith Lia Ascii String Strings.Byte.
From stdpp Require Import base numbers list strings gmap sorting.
From S2P Require Import Prelude WalReader Ltx Streams RestorePlan Compactor Replica V3 Db PageIndex Pipeline Restore Urls FileClient S3Config.
Local Open Scope Z_scope.

(** ** Keys *)

(** Keys are ordered by their bytes. *)
Fixpoint key_leb (a b : str) : bool :=
  match a, b with
  | [], _ => true
  | _ :: _, [] => false
  | x :: a, y :: b => (nat_of_ascii x <? nat_of_ascii y)%nat || ((nat_of_ascii x =? nat_of_ascii y)%nat && key_leb a b)
  end.

(** The names of LTX files, by the ltx package: they parse back, contain no slash, and
    sort by their first transaction. *)
Class LtxNames := { FormatFilename : TXID -> TXID -> str; ParseFilename : str -> result (TXID * TXID) }.
Class LtxNamesLaws `{LtxNames} := {
  parse_format lo hi : is_txid lo && is_txid hi = true -> ParseFilename (FormatFilename lo hi) = Ok (lo, hi);
  parse_inv name lo hi : ParseFilename name = Ok (lo, hi) -> is_txid lo && is_txid hi = true /\ name = FormatFilename lo hi;
  format_plain lo hi : FormatFilename lo hi <> [] /\ no_sep slash (FormatFilename lo hi);
  format_long lo hi : (2 < length (FormatFilename lo hi))%nat;
  format_order lo hi lo' hi' : is_txid lo && is_txid hi = true -> is_txid lo' && is_txid hi' = true ->
    key_leb (FormatFilename lo hi) (FormatFilename lo' hi') = true -> lo <= lo'
}.

(** ** The service *)

(** An object: contents, the time of the upload, its metadata, and the customer and KMS keys it was
    encrypted with. *)
Record s3_object := mkObject { ob_data : list byte; ob_LastModified : time; ob_Metadata : gmap string str; ob_sse : str; ob_kms : str }.

(** How an upload ends: with or without an ETag, or with an error that may come after
    the object was stored. *)
Inductive put_fate := PutOk (etag : bool) | PutErr (stored : bool) (e : error).
(** How a batch of deletions ends: with an error after some were done, or with the
    messages of the keys that failed. *)
Inductive del_fate := DelErr (done : str -> bool) (e : error) | DelOut (failed : str -> option str).

(** What the service does: how it cuts listings into pages and which page fails, which
    metadata batch is cancelled and which metadata request fails, errors and cut streams of reads, and
    the fate of the [n]-th change. *)
Record S3Env := mkS3Env {
  ev_load1 : option error; ev_load2 : option error; ev_location : result str;
  ev_pages : list nat; ev_page_err : nat -> option error;
  ev_cancel : nat -> option error; ev_head : str -> option error;
  ev_get : str -> option error; ev_cut : str -> option (nat * error);
  ev_put : nat -> put_fate; ev_delete : nat -> del_fate
}.

(** Objects below the replica's path are in directories, with a file name below, except
    those of the v0.3.x format. *)
Definition GenDir : str := lit "generations".
Definition key_wf (path k : str) : bool :=
  if HasPrefix k (path ++ [slash]) then
    match split slash (drop (length path + 1) k) with
    | [d; name] => bool_decide (d = GenDir) || nonempty name
    | d :: _ :: _ => bool_decide (d = GenDir)
    | _ => true
    end
  else true.

(** The client, the objects of its bucket, the number of changes so far, and the service. *)
Record S3 := mkS3 { s3_client : S3Client; s3_objects : gmap str s3_object; s3_calls : nat; s3_env : S3Env }.

Definition wf (c : S3) : Prop := forall k, is_Some (s3_objects c !! k) -> key_wf (Path (s3_cfg (s3_client c))) k = true.

Definition obj_le (a b : str * s3_object) : Prop := key_leb a.1 b.1 = true.
#[export] Instance obj_le_dec a b : Decision (obj_le a b).
Proof. unfold obj_le. apply _. Defined.

(** [ListObjectsV2]: the objects below a prefix in the order of their keys, in pages. *)
Definition below (prefix : str) (m : gmap str s3_object) : list (str * s3_object) :=
  merge_sort obj_le (filter (fun ko => HasPrefix ko.1 prefix = true) (map_to_list m)).
Fixpoint cut {A} (sizes : list nat) (l : list A) : list (list A) :=
  match sizes with [] => [l] | n :: sizes => take n l :: cut sizes (drop n l) end.
Definition NewListObjectsV2Paginator (c : S3) (prefix : str) : list (result (list (str * s3_object))) :=
  imap (fun n page => match ev_page_err (s3_env c) n with Some e => Err e | None => Ok page end)
       (cut (ev_pages (s3_env c)) (below prefix (s3_objects c))).

Definition api_error (code : string) : error := EVar code.
Definition err_NoSuchKey (e : error) : bool := errors_Is e (api_error "NoSuchKey").

(** [GetObject] with a customer key, from an offset, of at most [size] bytes when [size] is positive.  A
    range that starts after the last byte is an error; one that is malformed is ignored. *)
Definition GetObject (c : S3) (key sse : str) (range : option (Z * Z)) : result Reader :=
  match ev_get (s3_env c) key with
  | Some e => Err e
  | None =>
      match s3_objects c !! key with
      | None => Err (api_error "NoSuchKey")
      | Some o =>
          if negb (bool_decide (ob_sse o = sse)) then Err (api_error "AccessDenied") else
          match range with
          | Some (off, size) =>
              if off <? 0 then Ok (mkReader (ob_data o) None)
              else if Z.of_nat (length (ob_data o)) <=? off then Err (api_error "InvalidRange")
              else Ok (mkReader (if 0 <? size then take (Z.to_nat size) (drop (Z.to_nat off) (ob_data o)) else drop (Z.to_nat off) (ob_data o)) None)
          | None => Ok (mkReader (ob_data o) None)
          end
      end
  end.
(** The body of a response may break off. *)
Definition get_body (c : S3) (key : str) (rd : Reader) : Reader :=
  match ev_cut (s3_env c) key with Some (n, e) => mkReader (take n (rd_data rd)) (Some e) | None => rd end.

Section S3Ops.
Context `{LtxNames}.
Variable md5_Sum : list byte -> list byte.
Variable url_Hostname : str -> option str.
Variable private_ip : str -> bool.
(** The timestamp of an LTX header, the clock, the texts of times, the LZ4 decoder. *)
Variable peek : Reader -> result Z.
Variable now : time.
Variable FormatTime : time -> str.
Variable ParseTime : str -> option time.
Variable NewLZ4Reader : Reader -> Reader.

Definition s3_Init (c : S3) : S3Client * result () :=
  Init md5_Sum url_Hostname private_ip (ev_load1 (s3_env c)) (ev_load2 (s3_env c)) (ev_location (s3_env c)) (s3_client c).

Definition level_prefix (path : str) (level : Z) : str := path ++ [slash] ++ fmt_hex 4 level ++ [slash].
Definition object_key (path : str) (level : Z) (minTXID maxTXID : TXID) : str := level_prefix path level ++ FormatFilename minTXID maxTXID.
Definition MetadataKeyTimestamp : string := "replicate-timestamp".

(** ** The iterator *)

Record fileIterator := mkFileIterator {
  it_level : Z; it_seek : TXID; it_useMetadata : bool; it_metadataCache : gmap str time;
  it_pages : list (result (list (str * s3_object)));  (** the pages the paginator has left *)
  it_pageno : nat;
  it_page : list (str * s3_object);                   (** the current page from its index on *)
  it_closed : bool; it_err : option error; it_info : option FileInfo
}.

Definition newFileIterator (c : S3) (level : Z) (seek : TXID) (useMetadata : bool) : fileIterator :=
  mkFileIterator level seek useMetadata ∅ (NewListObjectsV2Paginator c (level_prefix (Path (s3_cfg (s3_client c))) level)) 0 [] false None None.

(** A metadata request: a failure or a missing or malformed timestamp is not an error. *)
Definition head_timestamp (c : S3) (key : str) : option time :=
  match ev_head (s3_env c) key with
  | Some _ => None
  | None =>
      o ← s3_objects c !! key;
      if negb (bool_decide (ob_sse o = SSECustomerKey (s3_cfg (s3_client c)))) then None else
      ts ← ob_Metadata o !! MetadataKeyTimestamp;
      ParseTime ts
  end.

(** The batch of a page; [n] numbers it.  It fails only when its context ends. *)
Definition fetchMetadataBatch (c : S3) (n : nat) (keys : list str) (cache : gmap str time) : result (gmap str time) :=
  if bool_decide (keys = []) then Ok cache else
  match ev_cancel (s3_env c) n with
  | Some e => Err e
  | None => Ok (fold_left (fun results key => match head_timestamp c key with Some t => <[key := t]> results | None => results end) keys ∅ ∪ cache)
  end.

(** What [Next] makes of an object: [None] skips it. *)
Definition object_info (level : Z) (seek : TXID) (useMetadata : bool) (cache : gmap str time) (obj : str * s3_object) : option FileInfo :=
  match ParseFilename (path_Base obj.1) with
  | Ok (minTXID, maxTXID) =>
      if minTXID <? seek then None else
      let createdAt := if useMetadata then default (ob_LastModified obj.2) (cache !! obj.1) else ob_LastModified obj.2 in
      Some (mkFileInfo level minTXID maxTXID (Z.of_nat (length (ob_data obj.2))) createdAt)
  | _ => None
  end.

(** The first file of a page, and the rest of the page. *)
Fixpoint scan_page (level : Z) (seek : TXID) (useMetadata : bool) (cache : gmap str time) (page : list (str * s3_object))
    : option (FileInfo * list (str * s3_object)) :=
  match page with
  | [] => None
  | obj :: page =>
      match object_info level seek useMetadata cache obj with
      | Some info => Some (info, page)
      | None => scan_page level seek useMetadata cache page
      end
  end.

Definition it_set (it : fileIterator) (cache : gmap str time) pages (n : nat) page (err : option error) (info : option FileInfo) : fileIterator :=
  mkFileIterator (it_level it) (it_seek it) (it_useMetadata it) cache pages n page (it_closed it) err info.

Fixpoint next_loop (c : S3) (it : fileIterator) (cache : gmap str time) (pages : list (result (list (str * s3_object)))) (n : nat)
    (page : list (str * s3_object)) : fileIterator * bool :=
  match scan_page (it_level it) (it_seek it) (it_useMetadata it) cache page with
  | Some (info, rest) => (it_set it cache pages n rest None (Some info), true)
  | None =>
      match pages with
      | [] => (it_set it cache [] n [] None (it_info it), false)
      | Err e :: pages => (it_set it cache pages (S n) [] (Some e) (it_info it), false)
      | Panic m :: pages => (it_set it cache pages (S n) [] (Some (EMsg m)) (it_info it), false)
      | Ok page :: pages =>
          if it_useMetadata it && negb (bool_decide (page = [])) then
            match fetchMetadataBatch c n (page.*1) cache with
            | Ok cache => next_loop c it cache pages (S n) page
            | Err e => (it_set it cache pages (S n) page (Some e) (it_info it), false)
            | Panic m => (it_set it cache pages (S n) page (Some (EMsg m)) (it_info it), false)
            end
          else next_loop c it cache pages (S n) page
      end
  end.
Definition Next (c : S3) (it : fileIterator) : fileIterator * bool :=
  if it_closed it || bool_decide (is_Some (it_err it)) then (it, false)
  else next_loop c it (it_metadataCache it) (it_pages it) (it_pageno it) (it_page it).

Definition it_Close (it : fileIterator) : fileIterator * option error :=
  (mkFileIterator (it_level it) (it_seek it) (it_useMetadata it) (it_metadataCache it) (it_pages it) (it_pageno it) (it_page it) true
     (it_err it) (it_info it), it_err it).

(** The loop of every caller: [Next] and [Item] until there are no more. *)
Fixpoint drain (fuel : nat) (c : S3) (it : fileIterator) : list FileInfo * fileIterator :=
  match fuel with
  | O => ([], it)
  | S fuel =>
      match Next c it with
      | (it, true) => let '(items, it') := drain fuel c it in (match it_info it with Some i => [i] | None => [] end ++ items, it')
      | (it, false) => ([], it)
      end
  end.
Definition objects_left (it : fileIterator) : nat :=
  (length (it_page it) + list_sum ((fun p => match p with Ok page => length page | _ => 0%nat end) <$> it_pages it))%nat.

Definition s3_LTXFiles (c : S3) (level : Z) (seek : TXID) (useMetadata : bool) : result FileIterator :=
  _ ← (s3_Init c).2;
  let it := newFileIterator c level seek useMetadata in
  let '(items, it) := drain (S (objects_left it)) c it in
  Ok (mkIter items (it_err it) (it_Close it).2).

(** ** Reading *)

Definition s3_OpenLTXFile (c : S3) (level : Z) (minTXID maxTXID : TXID) (offset size : Z) : result Reader :=
  if negb (is_txid minTXID && is_txid maxTXID) then Err (EMsg "not a transaction id") else
  _ ← (s3_Init c).2;
  let cfg := s3_cfg (s3_Init c).1 in
  let key := object_key (Path cfg) level minTXID maxTXID in
  match GetObject c key (SSECustomerKey cfg) (Some (offset, size)) with
  | Ok out => Ok (get_body c key out)
  | Err e => if err_NoSuchKey e then Err ErrNotExist else Err (EWrap "s3: get object" e)
  | Panic m => Panic m
  end.

(** ** Writing *)

Definition set_client (cl : S3Client) (c : S3) : S3 := mkS3 cl (s3_objects c) (s3_calls c) (s3_env c).
Definition set_objects (m : gmap str s3_object) (c : S3) : S3 := mkS3 (s3_client c) m (S (s3_calls c)) (s3_env c).

(** [uploader.Upload]: whether an ETag came back.  A body that breaks off stores nothing. *)
Definition Upload (c : S3) (key : str) (o : s3_object) (rd : Reader) : S3 * result bool :=
  match rd_err rd with
  | Some e => (set_objects (s3_objects c) c, Err e)
  | None =>
      match ev_put (s3_env c) (s3_calls c) with
      | PutOk etag => (set_objects (<[key := o]> (s3_objects c)) c, Ok etag)
      | PutErr stored e => (set_objects (if stored then <[key := o]> (s3_objects c) else s3_objects c) c, Err e)
      end
  end.

Definition s3_WriteLTXFile (c : S3) (level : Z) (minTXID maxTXID : TXID) (r : Reader) : S3 * result FileInfo :=
  if negb (is_txid minTXID && is_txid maxTXID) then (c, Err (EMsg "not a transaction id")) else
  match s3_Init c with
  | (cl, Err e) => (set_client cl c, Err e)
  | (cl, Panic m) => (set_client cl c, Panic m)
  | (cl, Ok _) =>
      let c := set_client cl c in
      match ExtractLTXTimestamp peek now r with
      | Err e => (c, Err e)
      | Panic m => (c, Panic m)
      | Ok (timestamp, rc) =>
          let cfg := s3_cfg cl in
          let key := object_key (Path cfg) level minTXID maxTXID in
          let o := mkObject (rd_data rc) now {[MetadataKeyTimestamp := FormatTime timestamp]} (SSECustomerKey cfg) (SSEKMSKeyID cfg) in
          match Upload c key o rc with
          | (c, Err e) => (c, Err (EWrap "s3: upload" e))
          | (c, Panic m) => (c, Panic m)
          | (c, Ok etag) =>
              if negb etag then (c, Err (EMsg "s3: upload failed: no ETag returned"))
              else (c, Ok (mkFileInfo level minTXID maxTXID (Z.of_nat (length (rd_data rc))) timestamp))
          end
      end
  end.

(** ** Deleting *)

Definition MaxKeys : nat := 1000.

Definition newline_sep : str := [ascii_of_nat 10].
Definition deleteOutputError (errors : list (str * str)) : option error :=
  if bool_decide (errors = []) then None
  else Some (EMsg (string_of_list_ascii (lit "failed to delete files:" ++ concat ((fun km : str * str => newline_sep ++ km.1 ++ lit ": " ++ km.2) <$> errors)))).

(** [DeleteObjects]: the keys that failed with their messages. *)
Definition DeleteObjects (c : S3) (keys : list str) : S3 * result (list (str * str)) :=
  match ev_delete (s3_env c) (s3_calls c) with
  | DelErr done e => (set_objects (foldr base.delete (s3_objects c) (filter (fun k => done k = true) keys)) c, Err e)
  | DelOut failed =>
      (set_objects (foldr base.delete (s3_objects c) (filter (fun k => failed k = None) keys)) c,
       Ok (omap (fun k => (fun m => (k, m)) <$> failed k) keys))
  end.

(** The loop over the batches; the number of keys is enough fuel. *)
Fixpoint delete_batches (text : string) (fuel : nat) (c : S3) (keys : list str) : S3 * option error :=
  match fuel, keys with
  | _, [] => (c, None)
  | O, _ => (c, Some (EMsg "out of fuel"))
  | S fuel, _ =>
      let n := Nat.min (length keys) MaxKeys in
      match DeleteObjects c (take n keys) with
      | (c, Err e) => (c, Some (EWrap text e))
      | (c, Panic m) => (c, Some (EMsg m))
      | (c, Ok errors) =>
          match deleteOutputError errors with
          | Some e => (c, Some e)
          | None => delete_batches text fuel c (drop n keys)
          end
      end
  end.

Definition s3_DeleteLTXFiles (c : S3) (a : list FileInfo) : S3 * option error :=
  if negb (forallb (fun info => is_txid (MinTXID info) && is_txid (MaxTXID info)) a) then (c, Some (EMsg "not a transaction id")) else
  match s3_Init c with
  | (cl, Err e) => (set_client cl c, Some e)
  | (cl, Panic m) => (set_client cl c, Some (EMsg m))
  | (cl, Ok _) =>
      let c := set_client cl c in
      if bool_decide (a = []) then (c, None) else
      let keys := (fun info => object_key (Path (s3_cfg cl)) (Level info) (MinTXID info) (MaxTXID info)) <$> a in
      delete_batches "s3: delete batch" (length keys) c keys
  end.

(** All pages, or the error of the first that fails. *)
Fixpoint all_pages (text : string) (pages : list (result (list (str * s3_object)))) : result (list (str * s3_object)) :=
  match pages with
  | [] => Ok []
  | page :: pages => page ← page wrapping text; rest ← all_pages text pages; Ok (page ++ rest)
  end.

Definition s3_DeleteAll (c : S3) : S3 * option error :=
  match s3_Init c with
  | (cl, Err e) => (set_client cl c, Some e)
  | (cl, Panic m) => (set_client cl c, Some (EMsg m))
  | (cl, Ok _) =>
      let c := set_client cl c in
      match all_pages "s3: list objects page" (NewListObjectsV2Paginator c (Path (s3_cfg cl) ++ [slash])) with
      | Err e => (c, Some e)
      | Panic m => (c, Some (EMsg m))
      | Ok objs => delete_batches "s3: delete all batch" (length objs) c (objs.*1)
      end
  end.

(** ** Version 3 files *)

(** [path.Join], which leaves out empty elements. *)
Definition dir_v3 (path : str) (elems : list str) : str :=
  match filter (fun e => nonempty e = true) (path :: elems) with [] => [] | es => path_Clean (join slash es) end.

(** The prefixes up to the next slash below a prefix, in their order without repetition. *)
Definition common_prefixes (prefix : str) (objs : list (str * s3_object)) : list str :=
  remove_dups (omap (fun ko => match Index (drop (length prefix) ko.1) [slash] with
                               | Some i => Some (take (length prefix + S i) ko.1)
                               | None => None
                               end) objs).
Definition s3_GenerationsV3 (c : S3) : result (list string) :=
  _ ← (s3_Init c).2;
  let prefix := dir_v3 (Path (s3_cfg (s3_Init c).1)) [GenDir] ++ [slash] in
  objs ← all_pages "s3: list generations" (NewListObjectsV2Paginator c prefix);
  Ok (merge_sort string_le (string_of_list_ascii <$>
        filter (fun p => IsGenerationIDV3 p = true) ((fun p => TrimSuffix (TrimPrefix p prefix) [slash]) <$> common_prefixes prefix objs))).

Definition s3_SnapshotsV3 (c : S3) (generation : string) : result (list SnapshotInfoV3) :=
  _ ← (s3_Init c).2;
  let prefix := dir_v3 (Path (s3_cfg (s3_Init c).1)) [GenDir; lit generation; SnapshotsDirV3] ++ [slash] in
  objs ← all_pages "s3: list snapshots" (NewListObjectsV2Paginator c prefix);
  Ok (merge_sort index_le (omap (fun ko => match ParseSnapshotFilenameV3 (path_Base ko.1) with
                                           | Ok index => Some (mkSnapshotV3 generation index (Z.of_nat (length (ob_data ko.2))) (ob_LastModified ko.2))
                                           | _ => None
                                           end) objs)).

Definition s3_WALSegmentsV3 (c : S3) (generation : string) : result (list WALSegmentInfoV3) :=
  _ ← (s3_Init c).2;
  let prefix := dir_v3 (Path (s3_cfg (s3_Init c).1)) [GenDir; lit generation; WALDirV3] ++ [slash] in
  objs ← all_pages "s3: list wal segments" (NewListObjectsV2Paginator c prefix);
  Ok (merge_sort pos_le (omap (fun ko => match ParseWALSegmentFilenameV3 (path_Base ko.1) with
                                         | Ok (index, offset) => Some (mkSegmentV3 generation index offset (Z.of_nat (length (ob_data ko.2))) (ob_LastModified ko.2))
                                         | _ => None
                                         end) objs)).

(** [OpenSnapshotV3] and [OpenWALSegmentV3] of a key. *)
Definition open_v3_object (c : S3) (text : string) (elems : list str) : result Reader :=
  _ ← (s3_Init c).2;
  let cfg := s3_cfg (s3_Init c).1 in
  let key := dir_v3 (Path cfg) elems in
  match GetObject c key (SSECustomerKey cfg) None with
  | Ok out => Ok (NewLZ4Reader (get_body c key out))
  | Err e => if err_NoSuchKey e then Err ErrNotExist else Err (EWrap text e)
  | Panic m => Panic m
  end.
Definition s3_OpenSnapshotV3 (c : S3) (generation : string) (index : Z) : result Reader :=
  open_v3_object c "s3: get snapshot" [GenDir; lit generation; SnapshotsDirV3; FormatSnapshotFilenameV3 index].
Definition s3_OpenWALSegmentV3 (c : S3) (generation : string) (index offset : Z) : result Reader :=
  open_v3_object c "s3: get wal segment" [GenDir; lit generation; WALDirV3; FormatWALSegmentFilenameV3 index offset].
End S3Ops.

Lemma validate_path md5 hostname private cfg : Path (validateSSEConfig md5 hostname private cfg).1 = Path cfg.
Proof. unfold validateSSEConfig. repeat case_match; done. Qed.

Lemma Init_path md5 hostname private l1 l2 loc c : Path (s3_cfg (Init md5 hostname private l1 l2 loc c).1) = Path (s3_cfg c).
Proof.
  unfold Init. destruct (s3_opts c); [done|]. destruct (negb _); [done|].
  pose proof (validate_path md5 hostname private (s3_cfg c)) as Hp. destruct (validateSSEConfig _ _ _ _) as [cfg [[]|e|m]]; cbn [fst] in Hp; [|done..].
  destruct (if nonempty (Region cfg) then _ else _); [|done..]. destruct l2; [done|]. by destruct (configureEndpoint cfg).
Qed.

Lemma fmt_hex_chars w n c : In c (fmt_hex w n) -> is_Some (hexval c) \/ c = "-"%char.
Proof.
  assert (forall k m, In c (hexN k m) -> is_Some (hexval c)) as Hx.
  { intros k m Hc. pose proof (is_hex_hexN k m) as Hh. unfold is_hex in Hh. rewrite forallb_forall in Hh. specialize (Hh c Hc).
    destruct (hexval c); [by eauto|done]. }
  unfold fmt_hex. destruct (n <? 0); [intros [<-|Hc]; [by right|]|intros Hc]; left; by eapply Hx.
Qed.

Lemma fmt_hex_no_slash w n : no_sep slash (fmt_hex w n).
Proof. intros Hc. apply fmt_hex_chars in Hc as [[? Hc]|Hc]; by vm_compute in Hc. Qed.

Lemma fmt_hex_not_gen w n : fmt_hex w n <> GenDir.
Proof. intros Hg. destruct (fmt_hex_chars w n "g"%char) as [[? Hc]|Hc]; [rewrite Hg; by left|by vm_compute in Hc..]. Qed.

Lemma drop_prefix (p s : str) : drop (length p + 1) (p ++ slash :: s) = s.
Proof. rewrite drop_app_ge by lia. by replace (length p + 1 - length p)%nat with 1%nat by lia. Qed.

Section S3Keys.
Context `{LtxNamesLaws}.

Lemma object_key_wf path level lo hi : key_wf path (object_key path level lo hi) = true.
Proof.
  unfold key_wf, object_key, level_prefix. destruct (format_plain lo hi) as [Hne Hsep].
  assert ((path ++ [slash] ++ fmt_hex 4 level ++ [slash]) ++ FormatFilename lo hi = path ++ slash :: fmt_hex 4 level ++ slash :: FormatFilename lo hi) as ->
    by (by rewrite <- !app_assoc).
  destruct (HasPrefix _ _); [|done]. rewrite drop_prefix, split_app, split_single by (done || apply fmt_hex_no_slash).
  apply orb_true_iff. right. by apply nonempty_true.
Qed.


Lemma hexlen_bound n : 0 <= n -> n < 16 ^ Z.of_nat (hexlen n).
Proof.
  intros Hn. destruct (Z.eq_dec n 0) as [->|Hz]; [done|]. unfold hexlen.
  pose proof (Z.log2_nonneg n). assert (0 <= Z.log2 n / 4 + 1) as Hd by (pose proof (Z.div_pos (Z.log2 n) 4); lia).
  rewrite Z2Nat.id by done. change 16 with (2 ^ 4). rewrite <- Z.pow_mul_r by lia.
  pose proof (Z.log2_spec n ltac:(lia)) as [_ Hl]. eapply Z.lt_le_trans; [exact Hl|]. apply Z.pow_le_mono_r; [lia|].
  pose proof (Z.div_mod (Z.log2 n) 4 ltac:(lia)). pose proof (Z.mod_pos_bound (Z.log2 n) 4 ltac:(lia)). lia.
Qed.

Lemma ParseHex_long k n : 0 <= n -> ParseHex (hexN (Nat.max k (hexlen n)) n) = n.
Proof.
  intros Hn. rewrite ParseHex_hexN by done. apply Z.mod_small. split; [done|]. eapply Z.lt_le_trans; [by apply hexlen_bound|].
  apply Z.pow_le_mono_r; lia.
Qed.

Lemma fmt_hex_inj w n m : fmt_hex w n = fmt_hex w m -> n = m.
Proof.
  assert (forall k z, ~ In "-"%char (hexN k z)) as Hminus.
  { intros k z Hc. pose proof (is_hex_hexN k z) as Hh. unfold is_hex in Hh. rewrite forallb_forall in Hh. by specialize (Hh _ Hc). }
  unfold fmt_hex. destruct (Z.ltb_spec n 0), (Z.ltb_spec m 0); intros HE.
  - injection HE as HE. apply (f_equal ParseHex) in HE. rewrite !ParseHex_long in HE by lia. lia.
  - exfalso. apply (Hminus (Nat.max w (hexlen m)) m). rewrite <- HE. by left.
  - exfalso. apply (Hminus (Nat.max w (hexlen n)) n). rewrite HE. by left.
  - apply (f_equal ParseHex) in HE. by rewrite !ParseHex_long in HE by lia.
Qed.

Lemma object_key_inj path level lo hi level' lo' hi' :
  is_txid lo && is_txid hi = true -> object_key path level lo hi = object_key path level' lo' hi' ->
  is_txid lo' && is_txid hi' = true -> (level, lo, hi) = (level', lo', hi').
Proof.
  intros HR HE HR'. unfold object_key, level_prefix in HE. rewrite <- !app_assoc in HE. apply app_inv_head in HE. injection HE as HE.
  apply (f_equal (split slash)) in HE. cbn [app] in HE. rewrite !split_app in HE by apply fmt_hex_no_slash.
  injection HE as HL HN. apply fmt_hex_inj in HL as ->.
  rewrite !split_single in HN by apply format_plain. injection HN as HN.
  pose proof (parse_format _ _ HR) as P1. pose proof (parse_format _ _ HR') as P2. rewrite HN, P2 in P1. congruence.
Qed.

(** The files of a level are the objects below its prefix whose names parse. *)
Lemma trim_slashes_plain s : no_sep slash s -> trim_slashes s = s.
Proof. destruct s as [|c s]; [done|]. intros Hs. cbn. rewrite bool_decide_eq_false_2; [done|]. intros ->. apply Hs. by left. Qed.

Lemma last_split_app p name : no_sep slash name -> List.last (split slash (p ++ slash :: name)) [] = name.
Proof.
  intros Hn. induction p as [|c p IH].
  - cbn. rewrite split_single by done. done.
  - cbn [app split]. pose proof (split_ne slash (p ++ slash :: name)) as Hne.
    case_bool_decide; destruct (split slash (p ++ slash :: name)) as [|w ws] eqn:E; try done.
    destruct ws; [|done]. exfalso. pose proof (join_split slash (p ++ slash :: name)) as HJ. rewrite E in HJ. cbn in HJ.
    pose proof (split_no_sep slash (p ++ slash :: name)) as HF. rewrite E in HF. apply Forall_cons in HF as [HF _]. apply HF. rewrite HJ. apply in_app_iff. right. by left.
Qed.

Lemma path_Base_file p name : name <> [] -> no_sep slash name -> path_Base (p ++ slash :: name) = name.
Proof.
  intros Hne Hn. unfold path_Base. rewrite bool_decide_eq_false_2 by (by destruct p).
  assert (trim_slashes (rev (p ++ slash :: name)) = rev (p ++ slash :: name)) as ->.
  { destruct (rev name) as [|c r] eqn:E; [by apply (f_equal (@rev ascii)) in E; rewrite rev_involutive in E|].
    rewrite rev_app_distr. cbn [rev]. rewrite E. cbn. rewrite bool_decide_eq_false_2; [done|]. intros ->. apply Hn.
    apply in_rev. rewrite E. by left. }
  rewrite rev_involutive, bool_decide_eq_false_2 by (by destruct p). by apply last_split_app.
Qed.

Lemma level_key path level k :
  key_wf path k = true -> HasPrefix k (level_prefix path level) = true ->
  exists name, k = level_prefix path level ++ name /\ path_Base k = name /\ name <> [] /\ no_sep slash name.
Proof.
  intros Hwf HP. apply HasPrefix_app in HP as [name ->]. exists name. split; [done|].
  unfold key_wf, level_prefix in *. rewrite <- !app_assoc in *. cbn [app] in *.
  assert (HasPrefix (path ++ slash :: fmt_hex 4 level ++ slash :: name) (path ++ [slash]) = true) as HP.
  { apply HasPrefix_app. exists (fmt_hex 4 level ++ slash :: name). by rewrite <- app_assoc. }
  rewrite HP, drop_prefix, split_app in Hwf by apply fmt_hex_no_slash. rewrite (bool_decide_eq_false_2 (fmt_hex 4 level = GenDir)) in Hwf by apply fmt_hex_not_gen.
  destruct (split slash name) as [|w ws] eqn:E; [by apply split_ne in E|]. destruct ws as [|? ?]; [|done].
  pose proof (join_split slash name) as HJ. rewrite E in HJ. cbn in HJ. subst w.
  pose proof (split_no_sep slash name) as HF. rewrite E in HF. apply Forall_cons in HF as [HF _].
  cbn [orb] in Hwf. apply nonempty_true in Hwf. split; [|done]. rewrite app_comm_cons, app_assoc. by apply path_Base_file.
Qed.
End S3Keys.

(** ** Listings are independent of their pages *)

Lemma concat_cut {A} sizes (l : list A) : concat (cut sizes l) = l.
Proof. revert l. induction sizes as [|n sizes IH]; intros l; cbn; [by rewrite app_nil_r|]. by rewrite IH, take_drop. Qed.

Section Iterate.
Context `{LtxNames}.
Variable ParseTime : str -> option time.
Variable c : S3.

(** What the iterator should make of an object. *)
Definition expected (level : Z) (seek : TXID) (useMetadata : bool) (obj : str * s3_object) : option FileInfo :=
  match ParseFilename (path_Base obj.1) with
  | Ok (minTXID, maxTXID) =>
      if minTXID <? seek then None else
      Some (mkFileInfo level minTXID maxTXID (Z.of_nat (length (ob_data obj.2)))
              (if useMetadata then default (ob_LastModified obj.2) (head_timestamp ParseTime c obj.1) else ob_LastModified obj.2))
  | _ => None
  end.

(** A page that the paginator delivers, or an error in its place. *)
Definition delivers (r : result (list (str * s3_object))) (page : list (str * s3_object)) : Prop := r = Ok page \/ exists e, r = Err e.

Definition cache_sound (cache : gmap str time) : Prop := forall k t, cache !! k = Some t -> head_timestamp ParseTime c k = Some t.
Definition cache_covers (um : bool) (cache : gmap str time) (page : list (str * s3_object)) : Prop :=
  um = true -> forall ko, ko ∈ page -> cache !! ko.1 = head_timestamp ParseTime c ko.1.

Lemma object_info_expected level seek um cache obj :
  (um = true -> cache !! obj.1 = head_timestamp ParseTime c obj.1) -> object_info level seek um cache obj = expected level seek um obj.
Proof.
  intros Hc. unfold object_info, expected. destruct (ParseFilename _) as [[lo hi]|e|m]; [|done..]. destruct (lo <? seek); [done|].
  destruct um; [|done]. by rewrite Hc.
Qed.

Lemma scan_page_spec level seek um cache page :
  cache_covers um cache page ->
  match scan_page level seek um cache page with
  | Some (info, rest) => omap (expected level seek um) page = info :: omap (expected level seek um) rest /\
                         (length rest < length page)%nat /\ (forall ko, ko ∈ rest -> ko ∈ page)
  | None => omap (expected level seek um) page = []
  end.
Proof.
  induction page as [|obj page IH]; intros Hc; [done|]. cbn [scan_page].
  rewrite (object_info_expected level seek um cache obj) by (intros Hu; apply Hc; [done|by left]). cbn [omap list_omap length].
  destruct (expected level seek um obj) as [info|].
  - split_and!; [done|lia|]. intros ko ?. by right.
  - assert (cache_covers um cache page) as Hc' by (intros Hu ko Hk; apply Hc; [done|by right]). specialize (IH Hc').
    destruct (scan_page _ _ _ _ page) as [[info rest]|]; [|done]. destruct IH as (HE & Hl & Hin). split_and!; [done|lia|]. intros ko Hk. right. by apply Hin.
Qed.

Lemma fetch_spec n keys cache cache' :
  cache_sound cache -> fetchMetadataBatch ParseTime c n keys cache = Ok cache' ->
  cache_sound cache' /\ forall k, k ∈ keys -> cache' !! k = head_timestamp ParseTime c k.
Proof.
  intros Hs. unfold fetchMetadataBatch. case_bool_decide as Hk; [intros [= <-]; split; [done|]; subst; by intros k ?%elem_of_nil|].
  destruct (ev_cancel _ _); [done|]. intros [= <-]. set (f := fun results key => _).
  assert (forall ks m, (forall k t, m !! k = Some t -> head_timestamp ParseTime c k = Some t) ->
    (forall k t, fold_left f ks m !! k = Some t -> head_timestamp ParseTime c k = Some t) /\
    (forall k, k ∈ ks -> fold_left f ks m !! k = head_timestamp ParseTime c k) /\
    (forall k t, m !! k = Some t -> fold_left f ks m !! k = Some t)) as HF.
  { induction ks as [|k0 ks IH]; intros m Hm; [split_and!; [done|by intros k ?%elem_of_nil|done]|]. cbn [fold_left].
    assert (forall k t, f m k0 !! k = Some t -> head_timestamp ParseTime c k = Some t) as Hm'.
    { intros k t. unfold f. destruct (head_timestamp ParseTime c k0) as [t0|] eqn:E; [|apply Hm].
      destruct (decide (k0 = k)) as [->|]; [rewrite lookup_insert_eq; congruence|rewrite lookup_insert_ne by done; apply Hm]. }
    destruct (IH _ Hm') as (I1 & I2 & I3). split_and!; [done|..].
    - intros k [->|Hk0]%elem_of_cons; [|by apply I2]. destruct (head_timestamp ParseTime c k0) as [t0|] eqn:E.
      + apply I3. unfold f. by rewrite E, lookup_insert_eq.
      + destruct (fold_left f ks (f m k0) !! k0) eqn:E2; [|done]. apply I1 in E2. congruence.
    - intros k t Hk0. apply I3. unfold f. destruct (head_timestamp ParseTime c k0) as [t0|] eqn:E; [|done].
      destruct (decide (k0 = k)) as [->|]; [|by rewrite lookup_insert_ne]. rewrite lookup_insert_eq. apply Hm in Hk0. congruence. }
  destruct (HF keys ∅) as (F1 & F2 & _); [by intros k t; rewrite lookup_empty|]. split.
  - intros k t [Hk1|[_ Hk1]]%lookup_union_Some_raw; [by apply F1|by apply Hs].
  - intros k Hk1. specialize (F2 k Hk1). destruct (head_timestamp ParseTime c k) as [t|] eqn:E.
    + by apply lookup_union_Some_l.
    + apply lookup_union_None. split; [done|]. destruct (cache !! k) eqn:E2; [|done]. apply Hs in E2. congruence.
Qed.

(** The state of an iterator in progress: [ps] are the pages to come. *)
Record running (it : fileIterator) (ps : list (list (str * s3_object))) : Prop := {
  rn_pages : Forall2 delivers (it_pages it) ps;
  rn_sound : cache_sound (it_metadataCache it);
  rn_covers : cache_covers (it_useMetadata it) (it_metadataCache it) (it_page it);
  rn_err : it_err it = None; rn_closed : it_closed it = false
}.

Abbreviation exp it := (expected (it_level it) (it_seek it) (it_useMetadata it)).

Lemma next_loop_spec it cache pages n page ps it' b :
  it_closed it = false -> Forall2 delivers pages ps -> cache_sound cache -> cache_covers (it_useMetadata it) cache page ->
  next_loop ParseTime c it cache pages n page = (it', b) ->
  it_level it' = it_level it /\ it_seek it' = it_seek it /\ it_useMetadata it' = it_useMetadata it /\
  if b then exists info ps', it_info it' = Some info /\ running it' ps' /\
      omap (exp it) (page ++ concat ps) = info :: omap (exp it) (it_page it' ++ concat ps') /\
      (objects_left it' < length page + list_sum ((fun p => match p with Ok page => length page | _ => 0%nat end) <$> pages))%nat
  else it_err it' = None -> omap (exp it) (page ++ concat ps) = [].
Proof.
  intros Hcl HP. revert cache n page. induction HP as [|r p pages ps Hr HP IH]; intros cache n page Hs Hc; cbn [next_loop];
    pose proof (scan_page_spec (it_level it) (it_seek it) (it_useMetadata it) cache page Hc) as HS;
    destruct (scan_page _ _ _ cache page) as [[info rest]|].
  - destruct HS as (HS & Hl & Hin). intros [= <- <-]. split_and!; [done..|]. exists info, []. split_and!; [done| |by rewrite !omap_app, HS|unfold objects_left; cbn in *; lia].
    split; [done|done| |done|done]. intros Hu ko Hk. apply Hc; [done|by apply Hin].
  - intros [= <- <-]. split_and!; [done..|]. intros _. by rewrite omap_app, HS.
  - destruct HS as (HS & Hl & Hin). intros [= <- <-]. split_and!; [done..|]. exists info, (p :: ps). split_and!; [done| |by rewrite !omap_app, HS|unfold objects_left; cbn in *; lia].
    split; [by constructor|done| |done|done]. intros Hu ko Hk. apply Hc; [done|by apply Hin].
  - rewrite omap_app, HS. cbn [app]. destruct Hr as [->|[e ->]]; [|intros [= <- <-]; by split_and!]. cbn [concat]. intros HN.
    assert (exists cache', next_loop ParseTime c it cache' pages (S n) p = (it', b) /\ cache_sound cache' /\ cache_covers (it_useMetadata it) cache' p
            \/ b = false /\ is_Some (it_err it') /\ it_level it' = it_level it /\ it_seek it' = it_seek it /\ it_useMetadata it' = it_useMetadata it) as (cache' & [(HN' & Hs' & Hc')|(-> & [e He] & ? & ? & ?)]).
    { destruct (it_useMetadata it) eqn:EU; cbn [andb] in HN; [|exists cache; left; split_and!; [done|done|done]].
      case_bool_decide as HE; cbn [negb] in HN; [exists cache; left; split_and!; [done|done|]; subst; by intros _ ko ?%elem_of_nil|].
      destruct (fetchMetadataBatch ParseTime c n p.*1 cache) as [cache'|e|m] eqn:EF.
      - destruct (fetch_spec _ _ _ _ Hs EF) as [Hs' Hk]. exists cache'. left. split_and!; [done|done|]. intros _ ko Hko. apply Hk. apply list_elem_of_fmap. by exists ko.
      - injection HN as <- <-. exists cache. right. cbn. split_and!; [done|by eauto|done..].
      - injection HN as <- <-. exists cache. right. cbn. split_and!; [done|by eauto|done..]. }
    + apply (IH cache' (S n) p Hs' Hc') in HN' as (E1 & E2 & E3 & HB). split_and!; [done..|]. destruct b; [|done].
      destruct HB as (info & ps' & HI & HR & HO & HL). exists info, ps'. split_and!; [done..|]. rewrite fmap_cons. unfold list_sum in *. cbn [foldr]. lia.
    + split_and!; [done..|]. congruence.
Qed.

Lemma drain_spec fuel it ps items it' :
  running it ps -> (objects_left it < fuel)%nat -> drain ParseTime fuel c it = (items, it') ->
  items `prefix_of` omap (exp it) (it_page it ++ concat ps) /\ (it_err it' = None -> items = omap (exp it) (it_page it ++ concat ps)).
Proof.
  revert it ps items it'. induction fuel as [|fuel IH]; intros it ps items it' HR Hf; [lia|]. cbn [drain].
  destruct (Next ParseTime c it) as [it1 b] eqn:EN. unfold Next in EN. rewrite (rn_closed _ _ HR), (rn_err _ _ HR) in EN.
  rewrite bool_decide_eq_false_2 in EN by (by intros []). cbn [orb] in EN.
  apply (next_loop_spec it _ _ _ _ ps) in EN as (E1 & E2 & E3 & HB); [|apply HR..]. destruct b.
  - destruct HB as (info & ps' & HI & HR1 & HO & HL). rewrite HI. destruct (drain ParseTime fuel c it1) as [items1 it2] eqn:ED. intros [= <- <-].
    assert (objects_left it1 < fuel)%nat as Hf1 by (unfold objects_left in *; lia).
    destruct (IH it1 ps' items1 it2 HR1 Hf1 ED) as [Hp Hd]. rewrite E1, E2, E3 in Hp, Hd. rewrite HO. cbn [app]. split; [by apply prefix_cons|].
    intros He. by rewrite (Hd He).
  - intros [= <- <-]. split; [apply prefix_nil|]. intros He. symmetry. by apply HB.
Qed.

Lemma paginator_delivers prefix : Forall2 delivers (NewListObjectsV2Paginator c prefix) (cut (ev_pages (s3_env c)) (below prefix (s3_objects c))).
Proof.
  unfold NewListObjectsV2Paginator. generalize (cut (ev_pages (s3_env c)) (below prefix (s3_objects c))). intros l.
  generalize (ev_page_err (s3_env c)). induction l as [|p l IH]; intros f; [by constructor|].
  rewrite imap_cons. constructor; [|apply (IH (fun n => f (S n)))]. destruct (f 0%nat); [right; by eexists|by left].
Qed.

(** However the service cuts a listing into pages: an iteration that ends without an error has all files from the
    seek position on, and one that ends with an error the first of them. *)
Lemma paging_transparent level seek um items it' :
  let it := newFileIterator c level seek um in
  drain ParseTime (S (objects_left it)) c it = (items, it') ->
  let files := omap (expected level seek um) (below (level_prefix (Path (s3_cfg (s3_client c))) level) (s3_objects c)) in
  items `prefix_of` files /\ (it_err it' = None -> items = files).
Proof.
  intros it HD files. unfold files. rewrite <- (concat_cut (ev_pages (s3_env c)) (below _ _)).
  apply (drain_spec (S (objects_left it)) it _ items it'); [|lia|done]. split; [|done|by intros _ ko ?%elem_of_nil|done|done].
  apply paginator_delivers.
Qed.
End Iterate.

(** ** The order of keys *)

Lemma key_leb_total a b : key_leb a b = true \/ key_leb b a = true.
Proof.
  revert b. induction a as [|x a IH]; intros [|y b]; cbn [key_leb]; [by left|by left|by right|].
  destruct (Nat.ltb_spec (nat_of_ascii x) (nat_of_ascii y)); [by left|]. destruct (Nat.ltb_spec (nat_of_ascii y) (nat_of_ascii x)); [by right|].
  assert (nat_of_ascii x = nat_of_ascii y) as -> by lia. rewrite Nat.eqb_refl. cbn. apply IH.
Qed.
Lemma key_leb_trans a b d : key_leb a b = true -> key_leb b d = true -> key_leb a d = true.
Proof.
  revert b d. induction a as [|x a IH]; intros [|y b] [|z d]; cbn [key_leb]; try done. intros H1 H2.
  apply orb_true_iff in H1, H2. apply orb_true_iff. rewrite !andb_true_iff, !Nat.ltb_lt, !Nat.eqb_eq in *.
  destruct H1 as [H1|[-> H1]], H2 as [H2|[E2 H2]]; [left; lia..|right]. split; [lia|by eapply IH].
Qed.
Lemma key_leb_antisym a b : key_leb a b = true -> key_leb b a = true -> a = b.
Proof.
  revert b. induction a as [|x a IH]; intros [|y b]; cbn [key_leb]; try done. intros H1 H2.
  apply orb_true_iff in H1, H2. rewrite !andb_true_iff, !Nat.ltb_lt, !Nat.eqb_eq in *.
  destruct H1 as [H1|[E1 H1]], H2 as [H2|[E2 H2]]; [lia..|]. f_equal; [|by apply IH].
  by rewrite <- (ascii_nat_embedding x), <- (ascii_nat_embedding y), E1.
Qed.
Lemma key_leb_app p a b : key_leb (p ++ a) (p ++ b) = key_leb a b.
Proof. induction p as [|x p IH]; [done|]. cbn [app key_leb]. rewrite Nat.ltb_irrefl, Nat.eqb_refl. apply IH. Qed.

#[export] Instance obj_le_total : Total obj_le.
Proof. intros a b. apply key_leb_total. Qed.
#[export] Instance obj_le_trans : Transitive obj_le.
Proof. intros a b d. apply key_leb_trans. Qed.

Lemma below_In prefix m k o : (k, o) ∈ below prefix m <-> m !! k = Some o /\ HasPrefix k prefix = true.
Proof. unfold below. rewrite merge_sort_Permutation, list_elem_of_filter, elem_of_map_to_list. cbn. tauto. Qed.
Lemma below_sorted prefix m : StronglySorted obj_le (below prefix m).
Proof. apply StronglySorted_merge_sort; apply _. Qed.
Lemma below_NoDup prefix m : NoDup (below prefix m).*1.
Proof.
  unfold below. rewrite merge_sort_Permutation. eapply sublist_NoDup; [apply (NoDup_fst_map_to_list m)|].
  apply fmap_sublist, sublist_filter.
Qed.

Lemma StronglySorted_filter_dec {A} (R : A -> A -> Prop) (P : A -> Prop) `{!forall x, Decision (P x)} l : StronglySorted R l -> StronglySorted R (filter P l).
Proof.
  induction 1 as [|x l Hs IH HF]; [constructor|]. rewrite filter_cons. destruct (decide (P x)); [|done]. constructor; [done|].
  apply Forall_forall. intros y [_ Hy]%list_elem_of_filter. by apply (proj1 (Forall_forall _ _) HF).
Qed.

(** After a deletion a listing lacks exactly the deleted keys. *)
Lemma below_delete prefix m m' (keys : list str) :
  (forall k, m' !! k = if bool_decide (k ∈ keys) then None else m !! k) ->
  below prefix m' = filter (fun ko => ko.1 ∉ keys) (below prefix m).
Proof.
  intros Hm. assert (below prefix m' ≡ₚ filter (fun ko => ko.1 ∉ keys) (below prefix m)) as HP.
  { apply NoDup_Permutation; [eapply NoDup_fmap_1, below_NoDup|apply NoDup_filter; eapply NoDup_fmap_1, below_NoDup|].
    intros [k o]. rewrite list_elem_of_filter, !below_In, Hm. cbn [fst]. case_bool_decide as Hk; [|tauto]. split; [by intros []|tauto]. }
  apply (StronglySorted_unique_strong obj_le); [|apply below_sorted|apply StronglySorted_filter_dec, below_sorted|done].
  intros [k o] [k' o'] Hx Hy Hle Hge. pose proof (key_leb_antisym _ _ Hle Hge) as Hk. cbn in Hk. subst k'.
  rewrite <- HP in Hy. apply below_In in Hx as [Hx _], Hy as [Hy _]. congruence.
Qed.

(** ** Files of a level *)

Section S3Files.
Context `{NL : LtxNamesLaws}.
Variable ParseTime : str -> option time.

Definition s3_level_files (c : S3) (um : bool) (level : Z) : list FileInfo :=
  omap (expected ParseTime c level 0 um) (below (level_prefix (Path (s3_cfg (s3_client c))) level) (s3_objects c)).

Lemma expected_Some c level seek um ko info :
  expected ParseTime c level seek um ko = Some info ->
  Level info = level /\ seek <= MinTXID info /\ is_txid (MinTXID info) && is_txid (MaxTXID info) = true /\
  path_Base ko.1 = FormatFilename (MinTXID info) (MaxTXID info).
Proof.
  unfold expected. destruct (ParseFilename _) as [[lo hi]|e|m] eqn:EP; [|done..]. destruct (Z.ltb_spec lo seek); [done|]. intros [= <-]. cbn.
  apply parse_inv in EP as [? ?]. by split_and!.
Qed.

Lemma level_object c um level ko info :
  wf c -> ko ∈ below (level_prefix (Path (s3_cfg (s3_client c))) level) (s3_objects c) -> expected ParseTime c level 0 um ko = Some info ->
  ko.1 = object_key (Path (s3_cfg (s3_client c))) level (MinTXID info) (MaxTXID info).
Proof.
  intros Hwf Hin HE. destruct ko as [k o]. apply below_In in Hin as [Hk HP]. cbn [fst].
  destruct (level_key _ _ k (Hwf k (mk_is_Some _ _ Hk)) HP) as (name & Hkey & HB & _). apply expected_Some in HE as (_ & _ & _ & HF).
  cbn in HF. unfold object_key. by rewrite <- HF, HB.
Qed.

Lemma level_files_elem c um level f :
  f ∈ s3_level_files c um level <->
  exists ko, ko ∈ below (level_prefix (Path (s3_cfg (s3_client c))) level) (s3_objects c) /\ expected ParseTime c level 0 um ko = Some f.
Proof. apply list_elem_of_omap. Qed.

(** Relations between objects carry over to their files. *)
Lemma omap_sorted {A B} (f : A -> option B) (R : A -> A -> Prop) (S : B -> B -> Prop) l :
  (forall x y x' y', x ∈ l -> y ∈ l -> R x y -> f x = Some x' -> f y = Some y' -> S x' y') -> StronglySorted R l -> StronglySorted S (omap f l).
Proof.
  intros HRS Hs. induction Hs as [|x l Hs IH HF]; [constructor|]. cbn. destruct (f x) as [x'|] eqn:E.
  - constructor; [apply IH; intros; eapply (HRS x0 y); by (done || right)|]. apply Forall_forall. intros y' (y & Hy & Hy')%list_elem_of_omap.
    eapply (HRS x y); [by left|by right| |done|done]. by apply (proj1 (Forall_forall _ _) HF).
  - apply IH. intros x0 y x' y' ? ? ? ? ?. eapply (HRS x0 y); by (done || right).
Qed.

Lemma s3_sorted c um level : wf c -> StronglySorted (fun a b => MinTXID a <= MinTXID b) (s3_level_files c um level).
Proof.
  intros Hwf. eapply omap_sorted; [|apply below_sorted]. intros x y fx fy Hx Hy Hle Ex Ey.
  pose proof (level_object c um level x fx Hwf Hx Ex) as Kx. pose proof (level_object c um level y fy Hwf Hy Ey) as Ky.
  apply expected_Some in Ex as (_ & _ & Rx & _), Ey as (_ & _ & Ry & _). unfold obj_le in Hle. rewrite Kx, Ky in Hle. unfold object_key in Hle.
  rewrite key_leb_app in Hle. by eapply format_order.
Qed.

Lemma NoDup_keys_sorted (l : list (str * s3_object)) : NoDup l.*1 -> StronglySorted (fun a b => a.1 <> b.1) l.
Proof.
  induction l as [|x l IH]; [constructor|]. rewrite fmap_cons. intros [Hx Hl]%NoDup_cons. constructor; [by apply IH|].
  apply Forall_forall. intros y Hy HE. apply Hx. rewrite HE. apply list_elem_of_fmap. by exists y.
Qed.

Lemma s3_distinct c um level : wf c -> StronglySorted (fun a b => same_file a b = false) (s3_level_files c um level).
Proof.
  intros Hwf. eapply omap_sorted; [|apply NoDup_keys_sorted, below_NoDup]. intros x y fx fy Hx Hy Hne Ex Ey.
  pose proof (level_object c um level x fx Hwf Hx Ex) as Kx. pose proof (level_object c um level y fy Hwf Hy Ey) as Ky.
  destruct (same_file fx fy) eqn:E; [|done]. contradict Hne. unfold same_file in E. breflect. rewrite Kx, Ky. congruence.
Qed.

Lemma s3_level c um level f : In f (s3_level_files c um level) -> Level f = level.
Proof. intros (ko & _ & HE)%list_elem_of_In%level_files_elem. by apply expected_Some in HE as []. Qed.

Lemma s3_range c um level f : In f (s3_level_files c um level) -> is_txid (MinTXID f) && is_txid (MaxTXID f) = true.
Proof. intros (ko & _ & HE)%list_elem_of_In%level_files_elem. by apply expected_Some in HE as (_ & _ & ? & _). Qed.

(** Files from the seek position on. *)
Lemma s3_seek c um level seek :
  omap (expected ParseTime c level seek um) (below (level_prefix (Path (s3_cfg (s3_client c))) level) (s3_objects c)) =
  filter (fun f => seek <=? MinTXID f) (s3_level_files c um level).
Proof.
  unfold s3_level_files. induction (below _ _) as [|ko l IH]; [done|]. cbn [omap list_omap].
  assert (expected ParseTime c level seek um ko =
          (f ← expected ParseTime c level 0 um ko; if seek <=? MinTXID f then Some f else None)) as ->.
  { unfold expected. destruct (ParseFilename (path_Base ko.1)) as [[lo hi]|e|m] eqn:EP; [|done..]. apply parse_inv in EP as [HR _].
    assert ((lo <? 0) = false) as -> by (unfold is_txid in HR; lia). cbn [mbind option_bind MinTXID]. by rewrite Z.leb_antisym; destruct (lo <? seek). }
  destruct (expected ParseTime c level 0 um ko) as [f|]; [|done]. cbn [mbind option_bind]. rewrite filter_cons.
  destruct (seek <=? MinTXID f); [rewrite decide_True by done; by rewrite IH|rewrite decide_False by (by intros []); done].
Qed.

(** The object of a path. *)
Lemma s3_object_listed c um level lo hi :
  wf c -> is_txid lo && is_txid hi = true ->
  is_Some (s3_objects c !! object_key (Path (s3_cfg (s3_client c))) level lo hi) <->
  exists f, In f (s3_level_files c um level) /\ MinTXID f = lo /\ MaxTXID f = hi.
Proof.
  intros Hwf HR. split.
  - intros [o Ho]. assert (path_Base (object_key (Path (s3_cfg (s3_client c))) level lo hi) = FormatFilename lo hi) as HB.
    { unfold object_key, level_prefix. rewrite !app_assoc, <- app_assoc. cbn [app]. apply path_Base_file; apply format_plain. }
    eexists. rewrite <- list_elem_of_In, level_files_elem. split.
    + exists (object_key (Path (s3_cfg (s3_client c))) level lo hi, o). split.
      * apply below_In. split; [done|]. apply HasPrefix_app. by eexists.
      * unfold expected. cbn [fst]. rewrite HB, (parse_format lo hi HR).
        assert ((lo <? 0) = false) as -> by (unfold is_txid in HR; lia). done.
    + done.
  - intros (f & Hf & <- & <-). apply list_elem_of_In, level_files_elem in Hf as ([k o] & Hko & HE).
    pose proof (level_object c um level (k, o) f Hwf Hko HE) as Hk. cbn in Hk. apply below_In in Hko as [Hko _]. rewrite <- Hk. by eexists.
Qed.
End S3Files.

(** ** Deletions *)

Lemma foldr_delete_lookup (keys : list str) (m : gmap str s3_object) k :
  foldr base.delete m keys !! k = if bool_decide (k ∈ keys) then None else m !! k.
Proof.
  case_bool_decide as Hk; [by apply lookup_foldr_delete|by apply lookup_foldr_delete_not_elem_of].
Qed.

(** What deletions do: some of the keys disappear, all of them when no error is returned. *)
Record deleted (keys : list str) (c c' : S3) (e : option error) : Prop := {
  dl_client : s3_client c' = s3_client c; dl_env : s3_env c' = s3_env c;
  dl_others k : k ∉ keys -> s3_objects c' !! k = s3_objects c !! k;
  dl_some k o : s3_objects c' !! k = Some o -> s3_objects c !! k = Some o;
  dl_gone k : e = None -> k ∈ keys -> s3_objects c' !! k = None
}.

Lemma DeleteObjects_spec c keys c' r :
  DeleteObjects c keys = (c', r) -> deleted keys c c' None \/ deleted keys c c' (Some io_EOF) /\ forall errors, r = Ok errors -> errors <> [].
Proof.
  unfold DeleteObjects. destruct (ev_delete _ _) as [done e|failed]; intros [= <- <-].
  - right. split; [|done]. split; [done|done|..]; cbn [s3_objects set_objects].
    + intros k Hk. rewrite foldr_delete_lookup, bool_decide_eq_false_2; [done|]. intros [_ ?]%list_elem_of_filter. done.
    + intros k o. rewrite foldr_delete_lookup. by case_bool_decide.
    + done.
  - destruct (omap (fun k => (fun m => (k, m)) <$> failed k) keys) as [|err errs] eqn:EO; [left|right; split; [|by intros ? [= <-]]]; (split; [done|done|..]; cbn [s3_objects set_objects]).
    1,4: (intros k Hk; rewrite foldr_delete_lookup, bool_decide_eq_false_2; [done|]; intros [_ ?]%list_elem_of_filter; done).
    1,3: (intros k o; rewrite foldr_delete_lookup; by case_bool_decide).
    + intros k _ Hk. rewrite foldr_delete_lookup, bool_decide_eq_true_2; [done|]. apply list_elem_of_filter. split; [|done].
      destruct (failed k) as [m|] eqn:EF; [|done]. exfalso. assert ((k, m) ∈ omap (fun k => (fun m => (k, m)) <$> failed k) keys) as Hin
        by (apply list_elem_of_omap; exists k; by rewrite EF). rewrite EO in Hin. by apply elem_of_nil in Hin.
    + done.
Qed.

Lemma deleted_app keys1 keys2 c c1 c2 e :
  deleted keys1 c c1 None -> deleted keys2 c1 c2 e -> deleted (keys1 ++ keys2) c c2 e.
Proof.
  intros D1 D2. split.
  - by rewrite (dl_client _ _ _ _ D2), (dl_client _ _ _ _ D1).
  - by rewrite (dl_env _ _ _ _ D2), (dl_env _ _ _ _ D1).
  - intros k [Hk1 Hk2]%not_elem_of_app. by rewrite (dl_others _ _ _ _ D2), (dl_others _ _ _ _ D1).
  - intros k o Ho. by eapply (dl_some _ _ _ _ D1), (dl_some _ _ _ _ D2).
  - intros k He [Hk|Hk]%elem_of_app; [|by apply (dl_gone _ _ _ _ D2)].
    destruct (s3_objects c2 !! k) as [o|] eqn:E; [|done]. apply (dl_some _ _ _ _ D2) in E. rewrite (dl_gone _ _ _ _ D1) in E by done. done.
Qed.

Lemma deleted_weaken keys keys' c c' e : (forall k, k ∈ keys -> k ∈ keys') -> deleted keys c c' (Some io_EOF) -> deleted keys' c c' (Some e).
Proof.
  intros Hk D. split; [apply D|apply D|..].
  - intros k Hn. apply (dl_others _ _ _ _ D). intros Hx. by apply Hn, Hk.
  - apply (dl_some _ _ _ _ D).
  - done.
Qed.

Lemma delete_batches_spec text fuel c keys c' e :
  (length keys <= fuel)%nat -> delete_batches text fuel c keys = (c', e) -> deleted keys c c' e.
Proof.
  revert c keys. induction fuel as [|fuel IH]; intros c keys Hf.
  { destruct keys; [|cbn in Hf; lia]. intros [= <- <-]. split; try done. by intros k _ ?%elem_of_nil. }
  destruct keys as [|k0 keys0] eqn:EK; [intros [= <- <-]; split; try done; by intros k _ ?%elem_of_nil|]. rewrite <- EK in *.
  assert (delete_batches text (S fuel) c keys = let n := Nat.min (length keys) MaxKeys in
    match DeleteObjects c (take n keys) with
    | (c, Err e) => (c, Some (EWrap text e))
    | (c, Panic m) => (c, Some (EMsg m))
    | (c, Ok errors) => match deleteOutputError errors with Some e => (c, Some e) | None => delete_batches text fuel c (drop n keys) end
    end) as -> by (by rewrite EK). cbn zeta. set (n := Nat.min (length keys) MaxKeys).
  assert (0 < n <= length keys)%nat as Hn by (unfold n, MaxKeys; rewrite EK; cbn [length]; lia).
  destruct (DeleteObjects c (take n keys)) as [c1 r] eqn:ED. apply DeleteObjects_spec in ED.
  assert (forall k, k ∈ take n keys -> k ∈ keys) as Hin by (intros k Hk; rewrite <- (take_drop n keys); apply elem_of_app; by left).
  assert (deleted (take n keys) c c1 (Some io_EOF)) as DE.
  { destruct ED as [D|[D _]]; [|done]. split; try apply D. done. }
  destruct r as [errors|err|m].
  - unfold deleteOutputError. case_bool_decide as Herr.
    + destruct ED as [D|[_ D]]; [|by destruct (D errors)]. intros HD. rewrite <- (take_drop n keys). eapply deleted_app; [done|].
      apply IH; [rewrite length_drop; lia|done].
    + intros [= <- <-]. by eapply deleted_weaken.
  - intros [= <- <-]. by eapply deleted_weaken.
  - intros [= <- <-]. by eapply deleted_weaken.
Qed.

(** ** The laws *)

Lemma validate_key md5 hostname private cfg : SSECustomerKey (validateSSEConfig md5 hostname private cfg).1 = SSECustomerKey cfg.
Proof. unfold validateSSEConfig. repeat case_match; done. Qed.

Lemma Init_key md5 hostname private l1 l2 loc c : SSECustomerKey (s3_cfg (Init md5 hostname private l1 l2 loc c).1) = SSECustomerKey (s3_cfg c).
Proof.
  unfold Init. destruct (s3_opts c); [done|]. destruct (negb _); [done|].
  pose proof (validate_key md5 hostname private (s3_cfg c)) as Hp. destruct (validateSSEConfig _ _ _ _) as [cfg [[]|e|m]]; cbn [fst] in Hp; [|done..].
  destruct (if nonempty (Region cfg) then _ else _); [|done..]. destruct l2; [done|]. by destruct (configureEndpoint cfg).
Qed.

(** Two states whose listings agree where their objects do. *)
Definition same_client (c c' : S3) : Prop :=
  Path (s3_cfg (s3_client c')) = Path (s3_cfg (s3_client c)) /\
  SSECustomerKey (s3_cfg (s3_client c')) = SSECustomerKey (s3_cfg (s3_client c)) /\ s3_env c' = s3_env c.

Section S3Laws.
Context `{NL : LtxNamesLaws}.
Variable md5_Sum : list byte -> list byte.
Variable url_Hostname : str -> option str.
Variable private_ip : str -> bool.
Variable peek : Reader -> result Z.
Variable now : time.
Variable FormatTime : time -> str.
Variable ParseTime : str -> option time.

Abbreviation init := (s3_Init md5_Sum url_Hostname private_ip).
Abbreviation write := (s3_WriteLTXFile md5_Sum url_Hostname private_ip peek now FormatTime).
Abbreviation delete := (s3_DeleteLTXFiles md5_Sum url_Hostname private_ip).
Abbreviation key_of c := (object_key (Path (s3_cfg (s3_client c)))).

Lemma init_same c : same_client c (set_client (init c).1 c).
Proof. split_and!; [apply Init_path|apply Init_key|done]. Qed.

Lemma expected_same c c' level seek um ko :
  same_client c c' -> s3_objects c' !! ko.1 = s3_objects c !! ko.1 -> expected ParseTime c' level seek um ko = expected ParseTime c level seek um ko.
Proof. intros (_ & Hk & He) Ho. unfold expected, head_timestamp. by rewrite Hk, He, Ho. Qed.

Lemma set_client_files c um level : s3_level_files ParseTime (set_client (init c).1 c) um level = s3_level_files ParseTime c um level.
Proof.
  unfold s3_level_files. destruct (init_same c) as (Hp & Hrest). rewrite Hp. induction (below _ _) as [|ko l IH]; [done|]. cbn [omap list_omap].
  rewrite (expected_same c) by done. by rewrite IH.
Qed.

Lemma omap_filter_iff {A B} (f g : A -> option B) (P : A -> Prop) (Q : B -> bool) `{!forall x, Decision (P x)} (l : list A) :
  (forall x, x ∈ l -> P x -> g x = f x) -> (forall x y, x ∈ l -> f x = Some y -> P x <-> Q y = true) ->
  omap g (filter P l) = filter (fun y => Q y) (omap f l).
Proof.
  intros Hg HQ. induction l as [|x l IH]; [done|]. rewrite filter_cons. cbn [omap list_omap].
  assert (omap g (filter P l) = filter (fun y => Q y) (omap f l)) as HI
    by (apply IH; [intros y ?; apply Hg; by right|intros y z ?; apply HQ; by right]).
  destruct (decide (P x)) as [Hx|Hx]; cbn [omap list_omap].
  - rewrite Hg by (done || by left). destruct (f x) as [y|] eqn:E; [|done]. rewrite filter_cons.
    rewrite decide_True by (apply Is_true_true, (HQ x y); [by left|done|done]). by rewrite HI.
  - destruct (f x) as [y|] eqn:E; [|done]. rewrite filter_cons.
    rewrite decide_False; [done|]. intros Hq%Is_true_true. apply Hx, (HQ x y); [by left|done|done].
Qed.

Lemma listed_keys c a info level :
  forallb (fun i => is_txid (MinTXID i) && is_txid (MaxTXID i)) a = true -> Level info = level -> is_txid (MinTXID info) && is_txid (MaxTXID info) = true ->
  listed a info = bool_decide (key_of c level (MinTXID info) (MaxTXID info) ∈ ((fun i => key_of c (Level i) (MinTXID i) (MaxTXID i)) <$> a)).
Proof.
  intros Ha Hl HR. rewrite forallb_forall in Ha. unfold listed. apply eq_true_iff_eq. rewrite existsb_exists, bool_decide_eq_true, list_elem_of_fmap. split.
  - intros (g & Hg & HE). exists g. unfold same_file in HE. breflect. split; [congruence|by apply list_elem_of_In].
  - intros (g & HE & Hg%list_elem_of_In). exists g. split; [done|]. apply object_key_inj in HE; [|done|by apply Ha].
    unfold same_file. injection HE as -> -> ->. rewrite Hl, !Z.eqb_refl. done.
Qed.

Lemma delete_spec c a c' e :
  delete c a = (c', e) ->
  same_client c c' /\ (forall k o, s3_objects c' !! k = Some o -> s3_objects c !! k = Some o) /\
  (e = None \/ s3_objects c' <> s3_objects c -> forallb (fun i => is_txid (MinTXID i) && is_txid (MaxTXID i)) a = true) /\
  let keys := (fun i => key_of c (Level i) (MinTXID i) (MaxTXID i)) <$> a in
  (forall k, k ∉ keys -> s3_objects c' !! k = s3_objects c !! k) /\ (e = None -> forall k, k ∈ keys -> s3_objects c' !! k = None).
Proof.
  unfold s3_DeleteLTXFiles. destruct (forallb _ a) eqn:EA; cbn [negb]; [|intros [= <- <-]; split; [done|split; [done|split; [by intros [|?]|done]]]].
  pose proof (init_same c) as HS. destruct (init c) as [cl r] eqn:EI. cbn [fst] in HS.
  assert ((set_client cl c, e) = (c', e) -> e <> None \/ a = [] -> same_client c c' /\ (forall k o, s3_objects c' !! k = Some o -> s3_objects c !! k = Some o) /\
    (e = None \/ s3_objects c' <> s3_objects c -> true = true) /\
    let keys := (fun i => key_of c (Level i) (MinTXID i) (MaxTXID i)) <$> a in
    (forall k, k ∉ keys -> s3_objects c' !! k = s3_objects c !! k) /\ (e = None -> forall k, k ∈ keys -> s3_objects c' !! k = None)) as Hstop.
  { intros [= <-] Hor. split; [done|]. split; [done|]. split; [done|]. split; [by intros k _|]. intros -> k Hk. destruct Hor as [| ->]; [done|]. by apply elem_of_nil in Hk. }
  destruct r as [u|err|m]; [|intros [= <- <-]; apply Hstop; [done|by left]..].
  case_bool_decide as Ha; [intros [= <- <-]; apply Hstop; [done|by right]|].
  intros HD. apply delete_batches_spec in HD; [|done]. destruct HS as (Hp & Hk & He). cbn [s3_client set_client s3_env] in Hp, Hk, He.
  rewrite Hp in HD. split; [|split; [|split; [|split]]].
  - unfold same_client. rewrite (dl_client _ _ _ _ HD), (dl_env _ _ _ _ HD). done.
  - apply (dl_some _ _ _ _ HD).
  - done.
  - intros k Hn. by apply (dl_others _ _ _ _ HD).
  - intros He' k Hin. by apply (dl_gone _ _ _ _ HD).
Qed.

Lemma Extract_reader rd t rd' : ExtractLTXTimestamp peek now rd = Ok (t, rd') -> rd' = rd.
Proof. unfold ExtractLTXTimestamp. case_bool_decide; [by intros [= _ <-]|]. destruct (peek rd); [by intros [= _ <-]|done..]. Qed.

(** A write leaves the objects alone or stores the whole stream under the key of the
    file, with the timestamp as metadata and the customer key of the client. *)
Lemma write_spec c level lo hi rd c' r :
  write c level lo hi rd = (c', r) ->
  same_client c c' /\
  (s3_objects c' = s3_objects c /\ is_ok r = false \/
   is_txid lo && is_txid hi = true /\ rd_err rd = None /\ exists o t,
     s3_objects c' = <[key_of c level lo hi := o]> (s3_objects c) /\ ob_data o = rd_data rd /\
     ob_sse o = SSECustomerKey (s3_cfg (s3_client c)) /\ ob_Metadata o = {[MetadataKeyTimestamp := FormatTime t]} /\
     (forall info, r = Ok info -> info = mkFileInfo level lo hi (Z.of_nat (length (rd_data rd))) t)).
Proof.
  unfold s3_WriteLTXFile. destruct (is_txid lo && is_txid hi) eqn:ER; cbn [negb]; [|intros [= <- <-]; split; [done|by left]].
  pose proof (init_same c) as HS. destruct (init c) as [cl ri]. cbn [fst] in HS.
  destruct ri as [u|err|m]; [|intros [= <- <-]; split; [done|by left]..].
  destruct (ExtractLTXTimestamp peek now rd) as [[t rd']|err|m] eqn:ET; [|intros [= <- <-]; split; [done|by left]..].
  apply Extract_reader in ET as ->. destruct HS as (Hp & Hk & He). cbn [s3_client set_client] in Hp, Hk. rewrite Hp, Hk.
  set (o := mkObject _ _ _ _ _). unfold Upload. destruct (rd_err rd) eqn:ERd; [intros [= <- <-]; split; [done|by left]|].
  destruct (ev_put _ _) as [etag|st err].
  - intros HE. split; [destruct etag; by injection HE as <- _|]. right. split_and!; [done|done|]. exists o, t.
    split; [destruct etag; by injection HE as <- _|]. split_and!; [done..|]. intros info ->. destruct etag; [|done]. by injection HE as _ <-.
  - intros [= <- <-]. split; [done|]. destruct st; [right|by left]. split_and!; [done|done|]. exists o, t. by split_and!.
Qed.

(** The directories stay in order. *)
Lemma write_wf c level lo hi rd : wf c -> wf (write c level lo hi rd).1.
Proof.
  intros Hwf k Hk. destruct (write c level lo hi rd) as [c' r] eqn:E. apply write_spec in E as ((Hp & _) & [[Ho _]|(_ & _ & o & t & Ho & _)]); cbn [fst] in *.
  - rewrite Hp. apply Hwf. by rewrite <- Ho.
  - rewrite Hp, Ho in *. destruct (decide (k = key_of c level lo hi)) as [->|]; [apply object_key_wf|]. rewrite lookup_insert_ne in Hk by done. by apply Hwf.
Qed.
Lemma delete_wf c a : wf c -> wf (delete c a).1.
Proof.
  intros Hwf k [o Hk]. destruct (delete c a) as [c' r] eqn:E. apply delete_spec in E as ((Hp & _) & Hs & _). cbn [fst] in *.
  rewrite Hp. apply Hwf. exists o. by apply Hs.
Qed.

(** *** The instance *)

Definition wfS3 : Type := { c : S3 | wf c }.

#[local] Instance s3_client_ops : ReplicaClient wfS3 := {
  LTXFiles c := s3_LTXFiles md5_Sum url_Hostname private_ip ParseTime (`c);
  OpenLTXFile c := s3_OpenLTXFile md5_Sum url_Hostname private_ip (`c);
  WriteLTXFile c level lo hi rd := (exist _ (write (`c) level lo hi rd).1 (write_wf (`c) level lo hi rd (proj2_sig c)), (write (`c) level lo hi rd).2);
  DeleteLTXFiles c a := (exist _ (delete (`c) a).1 (delete_wf (`c) a (proj2_sig c)), (delete (`c) a).2)
}.

Lemma s3_LTXFiles_spec c level seek um it :
  s3_LTXFiles md5_Sum url_Hostname private_ip ParseTime c level seek um = Ok it ->
  itr_items it `prefix_of` filter (fun f => seek <=? MinTXID f) (s3_level_files ParseTime c um level) /\
  (itr_Err it = None -> itr_items it = filter (fun f => seek <=? MinTXID f) (s3_level_files ParseTime c um level)) /\
  itr_Close it = itr_Err it.
Proof.
  unfold s3_LTXFiles. destruct (init c).2; cbn [mbind result_bind]; [|done..].
  destruct (drain _ _ _ _) as [items it'] eqn:ED. intros [= <-]. cbn [itr_items itr_Err itr_Close it_Close snd].
  apply paging_transparent in ED as [Hp He]. rewrite s3_seek in Hp, He. by split_and!.
Qed.

Lemma s3_delete_files c a c' um level :
  wf c -> delete c a = (c', None) -> s3_level_files ParseTime c' um level = filter (fun f => negb (listed a f)) (s3_level_files ParseTime c um level).
Proof.
  intros Hwf HD. apply delete_spec in HD as (HS & Hsome & Hval & Hout & Hin). specialize (Hval (or_introl eq_refl)). specialize (Hin eq_refl).
  set (keys := (fun i => key_of c (Level i) (MinTXID i) (MaxTXID i)) <$> a) in *.
  unfold s3_level_files. destruct HS as (Hp & Hrest). rewrite Hp.
  rewrite (below_delete _ (s3_objects c) (s3_objects c') keys) by (intros k; case_bool_decide; [by apply Hin|by apply Hout]).
  apply omap_filter_iff.
  - intros ko _ Hk. apply expected_same; [done|by apply Hout].
  - intros ko info Hko HE. pose proof (level_object ParseTime c um level ko info Hwf Hko HE) as Hkey. apply expected_Some in HE as (Hl & _ & HR & _).
    rewrite (listed_keys c a info level Hval Hl HR), Hkey, negb_true_iff, bool_decide_eq_false. done.
Qed.

Lemma s3_delete_keeps c a c' e um level f :
  wf c -> delete c a = (c', e) -> In f (s3_level_files ParseTime c um level) -> listed a f = false -> In f (s3_level_files ParseTime c' um level).
Proof.
  intros Hwf HD Hf Hl. apply delete_spec in HD as (HS & Hsome & Hval & Hout & Hin).
  apply list_elem_of_In, level_files_elem in Hf as ([k o] & Hko & HE). apply list_elem_of_In, level_files_elem. exists (k, o).
  destruct HS as (Hp & Hrest). rewrite Hp. pose proof (level_object ParseTime c um level (k, o) f Hwf Hko HE) as Hkey. cbn in Hkey.
  pose proof (expected_Some _ _ _ _ _ _ _ HE) as (HL & _ & HR & _).
  assert (s3_objects c' !! k = s3_objects c !! k) as Ho.
  { destruct (s3_objects c' !! k) as [o'|] eqn:E'; [symmetry; by apply Hsome|]. rewrite <- E'. apply Hout.
    assert (forallb (fun i => is_txid (MinTXID i) && is_txid (MaxTXID i)) a = true) as Hv
      by (apply Hval; right; intros Heq; apply below_In in Hko as [Hk _]; congruence).
    rewrite (listed_keys c a f level Hv HL HR) in Hl. apply bool_decide_eq_false in Hl. by rewrite Hkey. }
  split; [|rewrite <- HE; by apply expected_same]. apply below_In in Hko as [Hk HP]. apply below_In. by rewrite Ho.
Qed.

#[local] Instance s3_laws : ReplicaClientLaws wfS3.
Proof.
  refine {| level_files := fun c => s3_level_files ParseTime (`c) |}.
  - intros c um level. apply s3_sorted, (proj2_sig c).
  - intros c um level. apply s3_distinct, (proj2_sig c).
  - intros c um level f. apply s3_level.
  - intros c um level f Hf%s3_range. unfold is_txid in Hf. lia.
  - intros c level seek um it HL. by apply s3_LTXFiles_spec in HL as [? _].
  - intros c level seek um it HL He. apply s3_LTXFiles_spec in HL as (_ & HL & _). by apply HL.
  - intros c level seek um it HL. by apply s3_LTXFiles_spec in HL as (_ & _ & ?).
  - intros [c Hwf] a c' um level. cbn. intros [<- He]%pair_equal_spec. cbn. apply s3_delete_files; [done|]. rewrite <- He. apply surjective_pairing.
  - intros [c Hwf] a c' e um level f. cbn. intros [<- He]%pair_equal_spec. cbn. apply (s3_delete_keeps c a _ _ um level f Hwf (surjective_pairing _)).
Defined.

Definition s3_stored (c : S3) (level : Z) (lo hi : TXID) : option (list byte) :=
  if is_txid lo && is_txid hi then ob_data <$> s3_objects c !! key_of c level lo hi else None.

Lemma s3_stored_other c c' level lo hi o level' lo' hi' :
  same_client c c' -> is_txid lo && is_txid hi = true -> s3_objects c' = <[key_of c level lo hi := o]> (s3_objects c) -> (level', lo', hi') <> (level, lo, hi) ->
  s3_stored c' level' lo' hi' = s3_stored c level' lo' hi'.
Proof.
  intros (Hp & _) HR Ho Hne. unfold s3_stored. destruct (is_txid lo' && is_txid hi') eqn:ER; [|done]. rewrite Hp, Ho, lookup_insert_ne; [done|].
  intros HK. apply Hne. by apply object_key_inj in HK.
Qed.

#[local] Instance s3_storage : StorageLaws wfS3.
Proof.
  refine {| stored := fun c => s3_stored (`c) |}.
  - intros [c Hwf] um level lo hi. cbn. unfold s3_stored. destruct (is_txid lo && is_txid hi) eqn:HR.
    + rewrite <- (s3_object_listed ParseTime c um level lo hi Hwf HR). by rewrite fmap_is_Some.
    + split; [by intros []|]. intros (f & Hf & <- & <-). apply s3_range in Hf. congruence.
  - intros [c Hwf] level lo hi rd c' info. cbn. intros [<- Hr]%pair_equal_spec. cbn.
    pose proof (write_spec c level lo hi rd _ _ (surjective_pairing _)) as E. rewrite Hr in E. destruct E as ((Hp & _) & [[_ ?]|(HR & He & o & t & Ho & Hd & _)]); [done|]. split; [done|].
    unfold s3_stored. by rewrite HR, Hp, Ho, lookup_insert_eq, <- Hd.
  - intros [c Hwf] level lo hi rd c' r. cbn. intros [<- Hr]%pair_equal_spec. cbn.
    destruct (write_spec c level lo hi rd _ _ (surjective_pairing _)) as ((Hp & _) & [[Ho _]|(HR & He & o & t & Ho & Hd & _)]); [left|right; split; [done|]].
    + unfold s3_stored. by rewrite Hp, Ho.
    + unfold s3_stored. by rewrite HR, Hp, Ho, lookup_insert_eq, <- Hd.
  - intros [c Hwf] level lo hi rd c' r level' lo' hi'. cbn. intros [<- Hr]%pair_equal_spec Hne. cbn.
    destruct (write_spec c level lo hi rd _ _ (surjective_pairing _)) as (HS & [[Ho _]|(HR & He & o & t & Ho & Hd & _)]).
    + destruct HS as (Hp & _). unfold s3_stored. by rewrite Hp, Ho.
    + by eapply s3_stored_other.
Defined.

#[local] Instance s3_readers : OpenLaws wfS3.
Proof.
  split. intros [c Hwf] level lo hi off rd Hoff. cbn. unfold s3_OpenLTXFile, s3_stored. destruct (is_txid lo && is_txid hi); cbn [negb]; [|done].
  destruct (init_same c) as (Hp & Hk & _). cbn [s3_client set_client] in Hp, Hk.
  destruct (init c).2; cbn [mbind result_bind]; [|done..]. rewrite Hp, Hk. unfold GetObject.
  destruct (ev_get _ _) as [e|]; [destruct (err_NoSuchKey e); done|]. destruct (s3_objects c !! _) as [o|]; [|done]. destruct (negb _); [done|].
  destruct (Z.ltb_spec off 0); [lia|]. destruct (_ <=? off); [done|]. intros [= <-]. exists (ob_data o). split; [done|].
  unfold get_body. destruct (ev_cut _ _) as [[n e]|]; cbn [rd_data rd_err]; [split; [apply prefix_take|done]|done].
Qed.

Lemma all_pages_concat text pages ps l : Forall2 delivers pages ps -> all_pages text pages = Ok l -> l = concat ps.
Proof.
  intros HP. revert l. induction HP as [|r p pages ps Hr HP IH]; intros l; cbn [all_pages]; [by intros [= <-]|].
  destruct Hr as [->|[e ->]]; cbn [wrap_err mbind result_bind]; [|done]. destruct (all_pages text pages) as [rest|e|m]; cbn [mbind result_bind]; [|done..].
  intros [= <-]. cbn. by rewrite (IH rest).
Qed.


(** [DeleteAll] without an error leaves no object below the path of the replica, and touches no other. *)
Theorem s3_delete_all c c' e :
  s3_DeleteAll md5_Sum url_Hostname private_ip c = (c', e) ->
  (forall k, HasPrefix k (Path (s3_cfg (s3_client c)) ++ [slash]) = false -> s3_objects c' !! k = s3_objects c !! k) /\
  (e = None -> forall k, HasPrefix k (Path (s3_cfg (s3_client c)) ++ [slash]) = true -> s3_objects c' !! k = None).
Proof.
  unfold s3_DeleteAll. destruct (init_same c) as (Hp & _). destruct (init c) as [cl r]. cbn [fst s3_client set_client] in Hp.
  destruct r as [u|err|m]; [|intros [= <- <-]; split; [done|done]..]. rewrite Hp.
  destruct (all_pages _ _) as [objs|err|m] eqn:EA; [|intros [= <- <-]; split; [done|done]..].
  apply (all_pages_concat _ _ _ _ (paginator_delivers _ _)) in EA. rewrite concat_cut in EA. subst objs.
  intros HD. apply delete_batches_spec in HD; [|by rewrite length_fmap].
  assert (forall k, k ∈ (below (Path (s3_cfg (s3_client c)) ++ [slash]) (s3_objects (set_client cl c))).*1 <->
    is_Some (s3_objects c !! k) /\ HasPrefix k (Path (s3_cfg (s3_client c)) ++ [slash]) = true) as Hin.
  { intros k. rewrite list_elem_of_fmap. split.
    - intros ([k' o] & -> & [Hk HP]%below_In). split; [by eexists|done].
    - intros [[o Hk] HP]. exists (k, o). split; [done|]. by apply below_In. }
  split.
  - intros k HP. apply (dl_others _ _ _ _ HD). intros [_ HP']%Hin. congruence.
  - intros He k HP. destruct (s3_objects c' !! k) as [o|] eqn:E; [|done]. pose proof (dl_some _ _ _ _ HD k o E) as Hk.
    rewrite (dl_gone _ _ _ _ HD k He) in E; [done|]. apply Hin. split; [by exists o|done].
Qed.

(** C26: a listing of an S3 replica is exact however the service cuts it into pages and whichever requests
    fail.  The files come in the order of their transactions from the seek position
    on, and each is an object of the level with its size and time; a
    listing that reports no error contains every file of the level.  The time is that of the
    metadata when it is asked for and was read, and the time of the upload otherwise. *)
Theorem s3_listing_exact c level seek um it :
  wf c -> s3_LTXFiles md5_Sum url_Hostname private_ip ParseTime c level seek um = Ok it ->
  StronglySorted (fun a b => MinTXID a <= MinTXID b) (itr_items it) /\
  (forall f, In f (itr_items it) -> Level f = level /\ seek <= MinTXID f /\
     exists o, s3_objects c !! key_of c level (MinTXID f) (MaxTXID f) = Some o /\ FSize f = Z.of_nat (length (ob_data o)) /\
       CreatedAt f = if um then default (ob_LastModified o) (head_timestamp ParseTime c (key_of c level (MinTXID f) (MaxTXID f))) else ob_LastModified o) /\
  (itr_Err it = None -> forall lo hi, is_txid lo && is_txid hi = true -> seek <= lo -> is_Some (s3_objects c !! key_of c level lo hi) ->
     exists f, In f (itr_items it) /\ MinTXID f = lo /\ MaxTXID f = hi).
Proof.
  intros Hwf HL. apply s3_LTXFiles_spec in HL as ([rest Hp] & He & _). split_and!.
  - pose proof (StronglySorted_filter_dec _ (fun f => seek <=? MinTXID f) _ (s3_sorted ParseTime c um level Hwf)) as HS. rewrite Hp in HS. by eapply StronglySorted_app_1_l.
  - intros f Hf. assert (f ∈ filter (fun f => seek <=? MinTXID f) (s3_level_files ParseTime c um level)) as Hin
      by (rewrite Hp; apply elem_of_app; left; by apply list_elem_of_In).
    apply list_elem_of_filter in Hin as [Hs%Is_true_true%Z.leb_le Hin]. apply level_files_elem in Hin as ([k o] & Hko & HE).
    pose proof (level_object ParseTime c um level (k, o) f Hwf Hko HE) as Hk. cbn in Hk. pose proof (expected_Some _ _ _ _ _ _ _ HE) as (Hl & _).
    split_and!; [done|done|]. exists o. rewrite <- Hk. apply below_In in Hko as [Hko _]. split; [done|].
    unfold expected in HE. destruct (ParseFilename _) as [[lo hi]|?|?]; [|done..]. destruct (lo <? 0); [done|]. injection HE as <-. by split.
  - intros Hn lo hi HR Hs Ho. rewrite (He Hn). apply (s3_object_listed ParseTime c um level lo hi Hwf HR) in Ho as (f & Hf & <- & <-).
    exists f. split; [|done]. apply list_elem_of_In, list_elem_of_filter. split; [by apply Is_true_true, Z.leb_le|by apply list_elem_of_In].
Qed.
End S3Laws.

(** ** Names of sixteen digits *)

Module HexNames.
Definition suffix : str := lit ".ltx".
Definition format (lo hi : TXID) : str := hexN 16 lo ++ "-"%char :: hexN 16 hi ++ suffix.
Definition parse (name : str) : result (TXID * TXID) :=
  let m1 := take 16 name in
  let m2 := take 16 (drop 17 name) in
  if is_hex m1 && is_hex m2 && bool_decide (name = format (ParseHex m1) (ParseHex m2)) then Ok (ParseHex m1, ParseHex m2)
  else Err (EMsg "invalid ltx filename").
#[export] Instance names : LtxNames := { FormatFilename := format; ParseFilename := parse }.

Lemma ParseHex_cons c s : is_hex (c :: s) = true -> ParseHex (c :: s) = default 0 (hexval c) * 16 ^ Z.of_nat (length s) + ParseHex s.
Proof.
  intros _. unfold ParseHex. cbn [fold_left].
  assert (forall s a, fold_left (fun acc c => acc * 16 + default 0 (hexval c)) s a = a * 16 ^ Z.of_nat (length s) + fold_left (fun acc c => acc * 16 + default 0 (hexval c)) s 0) as HF.
  { clear. induction s as [|c s IH]; intros a; cbn [fold_left length]; [lia|]. rewrite IH, (IH (0 * 16 + _)).
    replace (Z.of_nat (S (length s))) with (Z.of_nat (length s) + 1) by lia. rewrite Z.pow_add_r by lia. lia. }
  rewrite HF. lia.
Qed.

Lemma hexval_order x y dx dy : hexval x = Some dx -> hexval y = Some dy -> (nat_of_ascii x < nat_of_ascii y)%nat -> dx < dy.
Proof. unfold hexval. intros Hx Hy. repeat case_match; simplify_eq; breflect; lia. Qed.

Lemma key_leb_hex s t x y :
  length s = length t -> is_hex s = true -> is_hex t = true -> key_leb (s ++ x) (t ++ y) = true -> ParseHex s <= ParseHex t.
Proof.
  revert t. induction s as [|a s IH]; intros [|b t] Hl Hs Ht HK; try done. rewrite !ParseHex_cons by done.
  cbn [app key_leb] in HK. cbn [length] in Hl. injection Hl as Hl. pose proof Hs as Hs1. pose proof Ht as Ht1.
  cbn [is_hex forallb] in Hs, Ht. apply andb_true_iff in Hs as [Ha Hs], Ht as [Hb Ht].
  destruct (hexval a) as [da|] eqn:Ea; [|done]. destruct (hexval b) as [db|] eqn:Eb; [|done]. cbn [default from_option]. unfold id.
  apply orb_true_iff in HK as [HK%Nat.ltb_lt|[HK%Nat.eqb_eq HR]%andb_true_iff].
  - pose proof (hexval_order a b da db Ea Eb HK). pose proof (ParseHex_range s Hs). pose proof (ParseHex_range t Ht). rewrite Hl in *. nia.
  - apply (f_equal ascii_of_nat) in HK. rewrite !ascii_nat_embedding in HK. subst b. rewrite Ea in Eb. injection Eb as ->. rewrite Hl.
    specialize (IH t Hl Hs Ht HR). lia.
Qed.

Lemma hex_txid t : is_txid t = true -> ParseHex (hexN 16 t) = t.
Proof. unfold is_txid. intros Ht. rewrite ParseHex_hexN by lia. apply Z.mod_small. change (16 ^ Z.of_nat 16) with (2 ^ 64). lia. Qed.

Lemma format_parts lo hi : take 16 (format lo hi) = hexN 16 lo /\ take 16 (drop 17 (format lo hi)) = hexN 16 hi.
Proof.
  unfold format. split; [by rewrite take_app_length' by (by rewrite length_hexN)|].
  assert (drop 17 (hexN 16 lo ++ "-"%char :: hexN 16 hi ++ suffix) = hexN 16 hi ++ suffix) as ->.
  { change 17%nat with (16 + 1)%nat. rewrite <- drop_drop, drop_app_length' by (by rewrite length_hexN). done. }
  by rewrite take_app_length' by (by rewrite length_hexN).
Qed.

Lemma hex_no_slash k n : no_sep slash (hexN k n).
Proof. intros Hc. pose proof (is_hex_hexN k n) as Hh. unfold is_hex in Hh. rewrite forallb_forall in Hh. by specialize (Hh _ Hc). Qed.

#[export] Instance names_laws : LtxNamesLaws.
Proof.
  split; unfold FormatFilename, ParseFilename, names.
  - intros lo hi [Hl Hh]%andb_true_iff. unfold parse. destruct (format_parts lo hi) as [-> ->]. rewrite !is_hex_hexN, !hex_txid by done.
    by rewrite bool_decide_eq_true_2.
  - intros name lo hi. unfold parse. destruct (_ && _) eqn:E; [|done]. intros [= <- <-]. breflect.
    rename select (is_hex (take 16 name) = true) into Hx1. rename select (is_hex (take 16 (drop 17 name)) = true) into Hx2.
    split; [|done].
    assert (forall m, is_hex m = true -> (length m <= 16)%nat -> is_txid (ParseHex m) = true) as Hr.
    { intros m Hm Hlen. pose proof (ParseHex_range m Hm) as Hb. unfold is_txid.
      assert (16 ^ Z.of_nat (length m) <= 2 ^ 64) by (change (2 ^ 64) with (16 ^ 16); apply Z.pow_le_mono_r; lia). lia. }
    rewrite !Hr by (done || (rewrite length_take; lia)). done.
  - intros lo hi. split; [unfold format; by destruct (hexN 16 lo)|]. unfold format. intros Hc.
    apply in_app_iff in Hc as [Hc|[Hc|Hc]]; [by apply hex_no_slash in Hc|done|]. apply in_app_iff in Hc as [Hc|Hc]; [by apply hex_no_slash in Hc|].
    repeat destruct Hc as [Hc|Hc]; done.
  - intros lo hi. unfold format. rewrite length_app, length_hexN. cbn. lia.
  - intros lo hi lo' hi' [Hl _]%andb_true_iff [Hl' _]%andb_true_iff HK. unfold format in HK.
    apply key_leb_hex in HK; [|by rewrite !length_hexN|by apply is_hex_hexN..]. by rewrite !hex_txid in HK.
Qed.
End HexNames.
#[local] Existing Instance HexNames.names.
#[local] Existing Instance HexNames.names_laws.

(** ** A bucket *)

Module S3Demo.
Definition cfg : S3Config := mkS3Config [] [] (lit "r") (lit "bkt") (lit "db") [] false false true true 0 0 0 [] [] [] [].
(** Pages of two objects; the [n]-th page fails if [n] is in [bad], metadata requests of [lost] fail. *)
Definition env (bad : list nat) (lost : list str) : S3Env :=
  mkS3Env None None (Ok []) [2; 0; 1]%nat (fun n => if bool_decide (n ∈ bad) then Some (EMsg "503") else None) (fun _ => None)
    (fun k => if bool_decide (k ∈ lost) then Some (EMsg "503") else None) (fun _ => None) (fun _ => None) (fun _ => PutOk true) (fun _ => DelOut (fun _ => None)).
Definition empty (bad : list nat) (lost : list str) : S3 := mkS3 (mkS3Client cfg None) ∅ 0 (env bad lost).
Definition demo_peek (rd : Reader) : result Z := match rd_data rd with [] => Err io_EOF | b :: _ => Ok (Z.of_N (Byte.to_N b)) end.
Definition fmt_time (t : time) : str := fmt_hex 1 t.
Definition parse_time (s : str) : option time := if is_hex s then Some (ParseHex s) else None.
Definition put (lo hi : Z) (b : list byte) (c : S3) : S3 :=
  (s3_WriteLTXFile (fun b => b) (fun _ => None) (fun _ => false) demo_peek 99 fmt_time c 0 lo hi (mkReader b None)).1.
Definition bucket (bad : list nat) (lost : list str) : S3 := put 3 3 [x03] (put 1 1 [x01] (put 4 16 [x04; x05] (put 2 2 [x02] (empty bad lost)))).
Definition list_files (um : bool) (c : S3) : result FileIterator := s3_LTXFiles (fun b => b) (fun _ => None) (fun _ => false) parse_time c 0 2 um.

Lemma bucket_wf bad lost : wf (bucket bad lost).
Proof. unfold bucket, put. do 4 apply write_wf. intros k [o Hk]. cbn in Hk. by rewrite lookup_empty in Hk. Qed.

Example listed : MinTXID <$> match list_files true (bucket [] []) with Ok it => itr_items it | _ => [] end = [2; 3; 4].
Proof. vm_compute. reflexivity. Qed.
Example listed_until_error :
  exists e, list_files true (bucket [2%nat] []) = Ok (mkIter [mkFileInfo 0 2 2 1 (time_UnixMilli 2)] (Some e) (Some e)).
Proof. eexists. vm_compute. reflexivity. Qed.

(** One metadata request fails: the listing reports no error, and the file has the time of its upload. *)
Theorem lost_metadata_moves_time :
  exists it, list_files true (bucket [] [object_key (lit "db") 0 3 3]) = Ok it /\ itr_Err it = None /\
    CreatedAt <$> itr_items it = [time_UnixMilli 2; 99; time_UnixMilli 4].
Proof. eexists. split; [vm_compute; reflexivity|]. split; reflexivity. Qed.
End S3Demo.

Lemma s3_listing_exact_witness :
  exists it, s3_LTXFiles (fun b => b) (fun _ => None) (fun _ => false) S3Demo.parse_time (S3Demo.bucket [] []) 0 2 true = Ok it /\ itr_Err it = None /\ exists f, In f (itr_items it) /\ MinTXID f = 4 /\ MaxTXID f = 16.
Proof.
  assert (match s3_LTXFiles (fun b => b) (fun _ => None) (fun _ => false) S3Demo.parse_time (S3Demo.bucket [] []) 0 2 true with Ok it => itr_Err it | _ => Some io_EOF end = None) as He by (vm_compute; reflexivity).
  assert (match s3_objects (S3Demo.bucket [] []) !! object_key (lit "db") 0 4 16 with Some _ => true | None => false end = true) as Ho by (vm_compute; reflexivity).
  assert (Path (s3_cfg (s3_client (S3Demo.bucket [] []))) = lit "db") as Hp by (vm_compute; reflexivity).
  destruct (s3_LTXFiles (fun b => b) (fun _ => None) (fun _ => false) S3Demo.parse_time (S3Demo.bucket [] []) 0 2 true) as [it|e|m] eqn:Hit; [|discriminate He|discriminate He].
  exists it. split; [reflexivity|]. split; [exact He|].
  destruct (@s3_listing_exact HexNames.names HexNames.names_laws (fun b => b) (fun _ => None) (fun _ => false) S3Demo.parse_time (S3Demo.bucket [] []) 0 2 true it (S3Demo.bucket_wf [] []) Hit)
    as (_ & _ & HC). apply (HC He 4 16); [reflexivity|lia|]. rewrite Hp.
  destruct (s3_objects (S3Demo.bucket [] []) !! object_key (lit "db") 0 4 16) as [o|]; [exists o; reflexivity|discriminate Ho].
Defined.
