(* ===== verification/ReplicaConfig.v ===== *)
(** * Replica configurations

    Model of the replica part of src/cmd/replicate/main.go (settings with their global
    defaults, paths, and the construction of replicas and clients from a configuration)
    and of the generic URLs of src/replica_url.go. *)

From Stdlib Require Import ZArith Lia Ascii String Strings.Byte.
From stdpp Require Import base numbers list strings gmap sorting.
From S2P Require Import Prelude Ltx V3 Urls S3Config.
Local Open Scope Z_scope.

(** ** Replica URLs *)

(** A URL as [url.Parse] takes it apart; [u_bare] is its text without scheme and query. *)
Record URL := mkURL {
  u_Scheme : str; u_User : option (str * option str); u_Host : str; u_Path : str; u_Query : string -> str; u_bare : str
}.

Section ReplicaURLs.
Variable url_Parse : str -> result URL.
(** [url.ParseQuery] of the raw query of an access point URL. *)
Variable ParseQuery : str -> result (string -> str).

Definition no_query (_ : string) : str := [].

Definition access_point (s : str) : result (str * str * str * (string -> str)) :=
  '(scheme, host, upath, raw) ← parseS3AccessPointURL s;
  query ← (if bool_decide (raw = []) then Ok no_query else ParseQuery raw wrapping "parse query string");
  Ok (scheme, host, upath, query).

(** Scheme, host, path, query and user. *)
Definition ParseReplicaURLWithQuery (s : str) : result (str * str * str * (string -> str) * option (str * option str)) :=
  if HasPrefix (ToLower s) (lit "s3://arn:") then
    '(scheme, host, upath, query) ← access_point s; Ok (scheme, host, upath, query, None)
  else
    u ← url_Parse s;
    if bool_decide (u_Scheme u = lit "file") then Ok (lit "file", [], path_Clean (u_bare u), no_query, None)
    else if bool_decide (u_Scheme u = []) then Err (EMsg "replica url scheme required")
    else Ok (u_Scheme u, u_Host u, TrimPrefix (path_Clean (u_Path u)) [slash], u_Query u, u_User u).

Definition ParseReplicaURL (s : str) : result (str * str * str) :=
  if HasPrefix (ToLower s) (lit "s3://arn:") then
    '(scheme, host, upath, _) ← access_point s; Ok (scheme, host, upath)
  else '(scheme, host, upath, _, _) ← ParseReplicaURLWithQuery s; Ok (scheme, host, upath).

(** An invalid URL and one without a scheme have no type. *)
Definition ReplicaTypeFromURL (s : str) : str :=
  match ParseReplicaURL s with
  | Ok (scheme, _, _) => if bool_decide (scheme = lit "webdavs") then lit "webdav" else scheme
  | _ => []
  end.

(** [IsURL]: word characters and a scheme separator. *)
Definition word_char (c : ascii) : bool :=
  let n := nat_of_ascii c in
  ((48 <=? n) && (n <=? 57) || (65 <=? n) && (n <=? 90) || (97 <=? n) && (n <=? 122) || (n =? 95))%nat.
Definition IsURL (s : str) : bool :=
  match Index s (lit "://") with Some i => (1 <=? i)%nat && forallb word_char (take i s) | None => false end.

(** [NewReplicaClientFromURL] over the registered factories. *)
Definition client_from_url {A} (factories : str -> option (str -> str -> str -> (string -> str) -> option (str * option str) -> result A)) (s : str) : result A :=
  '(scheme, host, upath, query, userinfo) ← ParseReplicaURLWithQuery s;
  match factories (if bool_decide (scheme = lit "webdavs") then lit "webdav" else scheme) with
  | None => Err (EMsg "unsupported replica URL scheme")
  | Some factory => factory scheme host upath query userinfo
  end.
End ReplicaURLs.

(** ** Settings *)

Record AgeSettings := mkAge { age_Identities : list str; age_Recipients : list str; age_AllowPlaintext : option bool }.

Record ReplicaSettings := mkSettings {
  rs_SyncInterval : option Z; rs_ValidationInterval : option Z; rs_AutoRecover : option bool;
  rs_AccessKeyID : str; rs_SecretAccessKey : str; rs_Region : str; rs_Bucket : str; rs_Endpoint : str;
  rs_ForcePathStyle : option bool; rs_SignPayload : option bool; rs_RequireContentMD5 : option bool; rs_SkipVerify : bool;
  rs_PartSize : option Z; rs_Concurrency : option Z;
  rs_SSECustomerAlgorithm : str; rs_SSECustomerKey : str; rs_SSECustomerKeyPath : str; rs_SSEKMSKeyID : str;
  rs_AccountName : str; rs_AccountKey : str; rs_SASToken : str;
  rs_Host : str; rs_User : str; rs_Password : str; rs_KeyPath : str; rs_ConcurrentWrites : option bool; rs_HostKey : str;
  rs_WebDAVURL : str; rs_WebDAVUsername : str; rs_WebDAVPassword : str;
  rs_JWT : str; rs_Seed : str; rs_Creds : str; rs_NKey : str; rs_Username : str; rs_Token : str; rs_TLS : bool;
  rs_RootCAs : list str; rs_ClientCert : str; rs_ClientKey : str;
  rs_MaxReconnects : option Z; rs_ReconnectWait : option Z; rs_Timeout : option Z;
  rs_Age : AgeSettings
}.

Definition or_str (own def : str) : str := if bool_decide (own = []) then def else own.
Definition or_list {A} (own def : list A) : list A := match own with [] => def | _ => own end.
Definition or_opt {A} (own def : option A) : option A := match own with None => def | _ => own end.

(** [SetDefaults]: the part size, the concurrency, the host key and the WebDAV settings
    are left as they are. *)
Definition SetDefaults (src rs : ReplicaSettings) : ReplicaSettings :=
  mkSettings
    (or_opt (rs_SyncInterval rs) (rs_SyncInterval src)) (or_opt (rs_ValidationInterval rs) (rs_ValidationInterval src))
    (or_opt (rs_AutoRecover rs) (rs_AutoRecover src))
    (or_str (rs_AccessKeyID rs) (rs_AccessKeyID src)) (or_str (rs_SecretAccessKey rs) (rs_SecretAccessKey src))
    (or_str (rs_Region rs) (rs_Region src)) (or_str (rs_Bucket rs) (rs_Bucket src)) (or_str (rs_Endpoint rs) (rs_Endpoint src))
    (or_opt (rs_ForcePathStyle rs) (rs_ForcePathStyle src)) (or_opt (rs_SignPayload rs) (rs_SignPayload src))
    (or_opt (rs_RequireContentMD5 rs) (rs_RequireContentMD5 src)) (if rs_SkipVerify src then true else rs_SkipVerify rs)
    (rs_PartSize rs) (rs_Concurrency rs)
    (or_str (rs_SSECustomerAlgorithm rs) (rs_SSECustomerAlgorithm src)) (or_str (rs_SSECustomerKey rs) (rs_SSECustomerKey src))
    (or_str (rs_SSECustomerKeyPath rs) (rs_SSECustomerKeyPath src)) (or_str (rs_SSEKMSKeyID rs) (rs_SSEKMSKeyID src))
    (or_str (rs_AccountName rs) (rs_AccountName src)) (or_str (rs_AccountKey rs) (rs_AccountKey src)) (or_str (rs_SASToken rs) (rs_SASToken src))
    (or_str (rs_Host rs) (rs_Host src)) (or_str (rs_User rs) (rs_User src)) (or_str (rs_Password rs) (rs_Password src))
    (or_str (rs_KeyPath rs) (rs_KeyPath src)) (or_opt (rs_ConcurrentWrites rs) (rs_ConcurrentWrites src)) (rs_HostKey rs)
    (rs_WebDAVURL rs) (rs_WebDAVUsername rs) (rs_WebDAVPassword rs)
    (or_str (rs_JWT rs) (rs_JWT src)) (or_str (rs_Seed rs) (rs_Seed src)) (or_str (rs_Creds rs) (rs_Creds src)) (or_str (rs_NKey rs) (rs_NKey src))
    (or_str (rs_Username rs) (rs_Username src)) (or_str (rs_Token rs) (rs_Token src)) (if rs_TLS rs then true else rs_TLS src)
    (or_list (rs_RootCAs rs) (rs_RootCAs src)) (or_str (rs_ClientCert rs) (rs_ClientCert src)) (or_str (rs_ClientKey rs) (rs_ClientKey src))
    (or_opt (rs_MaxReconnects rs) (rs_MaxReconnects src)) (or_opt (rs_ReconnectWait rs) (rs_ReconnectWait src)) (or_opt (rs_Timeout rs) (rs_Timeout src))
    (mkAge (or_list (age_Identities (rs_Age rs)) (age_Identities (rs_Age src)))
           (or_list (age_Recipients (rs_Age rs)) (age_Recipients (rs_Age src)))
           (or_opt (age_AllowPlaintext (rs_Age rs)) (age_AllowPlaintext (rs_Age src)))).

Record ReplicaConfig := mkReplicaConfig { rc_Settings : ReplicaSettings; rc_Type : str; rc_Name : str; rc_Path : str; rc_URL : str }.

(** ** Paths *)

Definition StripSQLitePrefix (s : str) : str :=
  if (length s <? 9)%nat || negb (bool_decide (take 1 s = lit "s")) then s
  else if HasPrefix s (lit "sqlite3://") then TrimPrefix s (lit "sqlite3://")
  else if HasPrefix s (lit "sqlite://") then TrimPrefix s (lit "sqlite://")
  else s.

(** [path.Join] and [filepath.Join]: empty elements are left out. *)
Definition path_Join (elems : list str) : str :=
  match filter (fun e => nonempty e = true) elems with [] => [] | es => path_Clean (join slash es) end.

(** [filepath.Abs] in a working directory. *)
Definition filepath_Abs (cwd : result str) (s : str) : result str :=
  if HasPrefix s [slash] then Ok (path_Clean s) else d ← cwd; Ok (path_Join [d; s]).

(** [expand]: [home] is the home directory of the user. *)
Definition expand (cwd home : result str) (s : str) : result str :=
  let s := StripSQLitePrefix s in
  if negb (bool_decide (s = lit "~")) && negb (HasPrefix s (lit "~/")) then filepath_Abs cwd s else
  h ← home;
  if bool_decide (h = []) then Err (EMsg "cannot expand path, no home directory available")
  else if bool_decide (s = lit "~") then Ok h
  else Ok (path_Join [h; TrimPrefix s (lit "~/")]).

(** [ParseByteSize]: [humanize] is the parser of the size; the result fits an int64. *)
Definition MaxInt64 : Z := 2 ^ 63 - 1.
Definition ParseByteSize (TrimSpace : str -> str) (humanize : str -> result Z) (s : str) : result Z :=
  let s := TrimSpace s in
  if bool_decide (s = []) then Err (EMsg "empty size string") else
  bytes ← humanize s wrapping "invalid size format";
  if MaxInt64 <? bytes then Err (EMsg "size exceeds maximum allowed value") else Ok bytes.

(** ** Settings that know whether they were set *)

Record boolSetting := mkBoolSetting { bs_value : bool; bs_set : bool }.
Definition newBoolSetting (defaultValue : bool) : boolSetting := mkBoolSetting defaultValue false.
Definition bs_Set (value : bool) (s : boolSetting) : boolSetting := mkBoolSetting value true.
Definition bs_ApplyDefault (value : bool) (s : boolSetting) : boolSetting := if bs_set s then s else mkBoolSetting value false.

(** The flag of a compaction level: a number up to the snapshot level, or all of them. *)
Definition levelAll : Z := -1.
Definition levelVar_Set (s : str) : result Z :=
  if bool_decide (s = lit "all") then Ok levelAll else
  match ParseInt s with
  | None => Err (EMsg "invalid level")
  | Some n => if (n <? 0) || (SnapshotLevel <? n) then Err (EMsg "level out of range") else Ok n
  end.

(** [applyReplicateEnv]: a variable of AWS is set from the first of its counterparts
    that exists, unless it exists itself. *)
Definition apply_env_key (aws own legacy : string) (env : gmap string str) : gmap string str :=
  match env !! own with
  | Some v => if bool_decide (is_Some (env !! aws)) then env else <[aws := v]> env
  | None => match env !! legacy with
            | Some v => if bool_decide (is_Some (env !! aws)) then env else <[aws := v]> env
            | None => env
            end
  end.
Definition applyReplicateEnv (env : gmap string str) : gmap string str :=
  apply_env_key "AWS_SECRET_ACCESS_KEY" "REPLICATE_SECRET_ACCESS_KEY" "LITESTREAM_SECRET_ACCESS_KEY"
    (apply_env_key "AWS_ACCESS_KEY_ID" "REPLICATE_ACCESS_KEY_ID" "LITESTREAM_ACCESS_KEY_ID" env).

Definition defaultConfigPath : str := lit "/etc/replicate.yml".
Definition legacyConfigPath : str := lit "/etc/litestream.yml".
Definition DefaultConfigPath (getenv : string -> str) (exists_ : str -> bool) : str :=
  if nonempty (getenv "REPLICATE_CONFIG") then getenv "REPLICATE_CONFIG"%string
  else if nonempty (getenv "LITESTREAM_CONFIG") then getenv "LITESTREAM_CONFIG"%string
  else if exists_ defaultConfigPath then defaultConfigPath
  else if exists_ legacyConfigPath then legacyConfigPath else defaultConfigPath.

(** ** Clients *)

Record SFTPConfig := mkSFTPConfig { sf_Host : str; sf_User : str; sf_Password : str; sf_Path : str; sf_KeyPath : str; sf_HostKey : str; sf_ConcurrentWrites : bool }.
Record WebDAVConfig := mkWebDAVConfig { wd_URL : str; wd_Username : str; wd_Password : str; wd_Path : str }.
Record NATSConfig := mkNATSConfig {
  na_URL : str; na_BucketName : str; na_JWT : str; na_Seed : str; na_Creds : str; na_NKey : str; na_Username : str; na_Password : str; na_Token : str;
  na_RootCAs : list str; na_ClientCert : str; na_ClientKey : str; na_MaxReconnects : Z; na_ReconnectWait : Z; na_Timeout : Z
}.
Inductive ClientConfig := CFile (path : str) | CS3 (c : S3Config) | CSFTP (c : SFTPConfig) | CWebDAV (c : WebDAVConfig) | CNATS (c : NATSConfig).

(** The fields of a replica that the configuration sets. *)
Record ReplicaFromConfig {identity recipient : Type} := mkReplicaFromConfig {
  rf_SyncInterval : Z; rf_AutoRecoverEnabled : bool; rf_AgeIdentities : list identity; rf_AgeRecipients : list recipient;
  rf_RequireEncryption : bool; rf_Client : ClientConfig
}.
Arguments ReplicaFromConfig : clear implicits.
Arguments mkReplicaFromConfig {_ _}.

Section Clients.
Variable url_Parse : str -> result URL.
Variable ParseQuery : str -> result (string -> str).
Variable TrimSpace : str -> str.
Variable url_host : str -> option str.
(** The working directory, the home directory, and the contents of files. *)
Variables cwd home : result str.
Variable ReadFile : str -> result str.

Definition ReplicaType (c : ReplicaConfig) : str :=
  let t := ReplicaTypeFromURL url_Parse ParseQuery (rc_URL c) in
  if nonempty t then t else if nonempty (rc_Type c) then rc_Type c else lit "file".

Definition newFileReplicaClientFromConfig (c : ReplicaConfig) : result str :=
  if nonempty (rc_URL c) && nonempty (rc_Path c) then Err (EMsg "cannot specify url & path for file replica") else
  configPath ← (if nonempty (rc_URL c) then '(_, _, p) ← ParseReplicaURL url_Parse ParseQuery (rc_URL c); Ok p else Ok (rc_Path c));
  if negb (nonempty configPath) then Err (EMsg "file replica path required") else expand cwd home configPath.

(** Bucket, path, region, endpoint, path style and the settings that a URL gives, on top of
    those of the configuration. *)
Record s3_parts := mkParts {
  pt_bucket : str; pt_path : str; pt_region : str; pt_endpoint : str; pt_forcePathStyle : bool; pt_skipVerify : bool;
  pt_sign : boolSetting; pt_md5 : boolSetting; pt_endpointWasSet : bool
}.
Definition parts_of_config (c : ReplicaConfig) : s3_parts :=
  let rs := rc_Settings c in
  let sign := match rs_SignPayload rs with Some v => bs_Set v (newBoolSetting true) | None => newBoolSetting true end in
  let md5 := match rs_RequireContentMD5 rs with Some v => bs_Set v (newBoolSetting true) | None => newBoolSetting true end in
  mkParts (rs_Bucket rs) (rc_Path c) (rs_Region rs) (rs_Endpoint rs)
    (default (nonempty (rs_Endpoint rs)) (rs_ForcePathStyle rs)) (rs_SkipVerify rs) sign md5 (nonempty (rs_Endpoint rs)).

Definition apply_url (host upath : str) (query : string -> str) (p : s3_parts) : s3_parts :=
  let '(ubucket, uregion, uendpoint, uforcePathStyle) :=
    if HasPrefix host (lit "arn:") then (host, RegionFromS3ARN host, [], false) else ParseHost host in
  let '(uendpoint, uforcePathStyle, endpointWasSet) :=
    if nonempty (query "endpoint") then
      ((EnsureEndpointScheme TrimSpace url_host (query "endpoint"%string)).1,
       if negb (bool_decide (query "forcePathStyle"%string = lit "false")) then true else uforcePathStyle, true)
    else (uendpoint, uforcePathStyle, pt_endpointWasSet p) in
  let uregion := if nonempty (query "region") then query "region"%string else uregion in
  let uforcePathStyle := if nonempty (query "forcePathStyle") then bool_decide (query "forcePathStyle"%string = lit "true") else uforcePathStyle in
  let skipVerify := if nonempty (query "skipVerify") then bool_decide (query "skipVerify"%string = lit "true") else pt_skipVerify p in
  let sign := match bool_setting query ["signPayload"; "sign-payload"]%string with
              | Some v => if bs_set (pt_sign p) then pt_sign p else bs_Set v (pt_sign p)
              | None => pt_sign p
              end in
  let md5 := match bool_setting query ["requireContentMD5"; "require-content-md5"]%string with
             | Some v => if bs_set (pt_md5 p) then pt_md5 p else bs_Set v (pt_md5 p)
             | None => pt_md5 p
             end in
  mkParts (or_str (pt_bucket p) ubucket) (or_str (pt_path p) upath) (or_str (pt_region p) uregion) (or_str (pt_endpoint p) uendpoint)
    (if pt_forcePathStyle p then true else uforcePathStyle) skipVerify sign md5 endpointWasSet.

(** The customer key, from a file if a path is given. *)
Definition sse_customer_key (rs : ReplicaSettings) : result str :=
  if nonempty (rs_SSECustomerKeyPath rs) then
    keyPath ← (if HasPrefix (rs_SSECustomerKeyPath rs) (lit "~")
               then h ← home wrapping "cannot expand home directory for sse-customer-key-path"; Ok (h ++ drop 1 (rs_SSECustomerKeyPath rs))
               else Ok (rs_SSECustomerKeyPath rs));
    keyData ← ReadFile keyPath wrapping "cannot read sse-customer-key-path";
    Ok (TrimSpace keyData)
  else Ok (rs_SSECustomerKey rs).

Definition config_signed_provider (endpoint : str) : bool :=
  IsDigitalOceanEndpoint TrimSpace url_host endpoint || IsBackblazeEndpoint TrimSpace url_host endpoint ||
  IsFilebaseEndpoint TrimSpace url_host endpoint || IsScalewayEndpoint TrimSpace url_host endpoint ||
  IsCloudflareR2Endpoint TrimSpace url_host endpoint || IsSelfHostedS3Endpoint TrimSpace url_host endpoint ||
  IsSupabaseEndpoint TrimSpace url_host endpoint.

Definition NewS3ReplicaClientFromConfig (c : ReplicaConfig) : result S3Config :=
  let rs := rc_Settings c in
  if nonempty (rc_URL c) && nonempty (rc_Path c) then Err (EMsg "cannot specify url & path for s3 replica")
  else if nonempty (rc_URL c) && nonempty (rs_Bucket rs) then Err (EMsg "cannot specify url & bucket for s3 replica") else
  p ← (if nonempty (rc_URL c) then
         '(_, host, upath, query, _) ← ParseReplicaURLWithQuery url_Parse ParseQuery (rc_URL c);
         Ok (apply_url host upath query (parts_of_config c))
       else Ok (parts_of_config c));
  if negb (nonempty (pt_bucket p)) then Err (EMsg "bucket required for s3 replica") else
  let endpoint := pt_endpoint p in
  let isTigris := IsTigrisEndpoint TrimSpace url_host endpoint ||
                  (negb (pt_endpointWasSet p) && IsTigrisEndpoint TrimSpace url_host (rs_Endpoint rs)) in
  let sign := if isTigris then bs_ApplyDefault true (pt_sign p) else pt_sign p in
  let sign := if config_signed_provider endpoint then bs_ApplyDefault true sign else sign in
  let md5 := if isTigris then bs_ApplyDefault false (pt_md5 p) else pt_md5 p in
  let forcePathStyle :=
    if negb (bool_decide (is_Some (rs_ForcePathStyle rs))) && path_provider TrimSpace url_host endpoint then true else pt_forcePathStyle p in
  '(algorithm, key) ←
    (if nonempty (rs_SSECustomerKey rs) || nonempty (rs_SSECustomerKeyPath rs) then
       k ← sse_customer_key rs; Ok (or_str (rs_SSECustomerAlgorithm rs) (lit "AES256"), k)
     else Ok ([], []));
  Ok (mkS3Config (rs_AccessKeyID rs) (rs_SecretAccessKey rs) (pt_region p) (pt_bucket p) (pt_path p) endpoint forcePathStyle (pt_skipVerify p)
        (bs_value sign) (bs_value md5) (default 0 (rs_PartSize rs))
        (default (if IsCloudflareR2Endpoint TrimSpace url_host endpoint then DefaultR2Concurrency else 0) (rs_Concurrency rs)) 0
        algorithm key [] (rs_SSEKMSKeyID rs)).

Definition user_name (u : URL) : str := match u_User u with Some (name, _) => name | None => [] end.
Definition user_password (u : URL) : str := match u_User u with Some (_, Some p) => p | _ => [] end.

Definition newSFTPReplicaClientFromConfig (c : ReplicaConfig) : result SFTPConfig :=
  let rs := rc_Settings c in
  if nonempty (rc_URL c) && nonempty (rc_Path c) then Err (EMsg "cannot specify url & path for sftp replica")
  else if nonempty (rc_URL c) && nonempty (rs_Host rs) then Err (EMsg "cannot specify url & host for sftp replica") else
  '(host, user, password, path) ←
    (if nonempty (rc_URL c) then
       u ← url_Parse (rc_URL c);
       Ok (or_str (rs_Host rs) (u_Host u), or_str (rs_User rs) (user_name u), or_str (rs_Password rs) (user_password u), or_str (rc_Path c) (u_Path u))
     else Ok (rs_Host rs, rs_User rs, rs_Password rs, rc_Path c));
  if negb (nonempty host) then Err (EMsg "host required for sftp replica")
  else if negb (nonempty user) then Err (EMsg "user required for sftp replica")
  else Ok (mkSFTPConfig host user password path (rs_KeyPath rs) (rs_HostKey rs) (default true (rs_ConcurrentWrites rs))).

Definition newWebDAVReplicaClientFromConfig (c : ReplicaConfig) : result WebDAVConfig :=
  let rs := rc_Settings c in
  if nonempty (rc_URL c) && nonempty (rc_Path c) then Err (EMsg "cannot specify url & path for webdav replica")
  else if nonempty (rc_URL c) && nonempty (rs_WebDAVURL rs) then Err (EMsg "cannot specify url & webdav-url for webdav replica") else
  '(webdavURL, username, password, path) ←
    (if nonempty (rc_URL c) then
       u ← url_Parse (rc_URL c);
       let scheme := if bool_decide (u_Scheme u = lit "webdavs") then lit "https" else lit "http" in
       Ok (if negb (nonempty (rs_WebDAVURL rs)) && nonempty (u_Host u) then scheme ++ lit "://" ++ u_Host u else rs_WebDAVURL rs,
           or_str (rs_WebDAVUsername rs) (user_name u), or_str (rs_WebDAVPassword rs) (user_password u), or_str (rc_Path c) (u_Path u))
     else Ok (rs_WebDAVURL rs, rs_WebDAVUsername rs, rs_WebDAVPassword rs, rc_Path c));
  if negb (nonempty webdavURL) then Err (EMsg "webdav-url required for webdav replica")
  else Ok (mkWebDAVConfig webdavURL username password path).

(** [strings.Trim(s, "/")]. *)
Fixpoint trim_left (s : str) : str := match s with c :: t => if bool_decide (c = slash) then trim_left t else s | [] => [] end.
Definition trim_both (s : str) : str := rev (trim_left (rev (trim_left s))).

(** [defaults]: the reconnects, wait and timeout of a new NATS client. *)
Definition newNATSReplicaClientFromConfig (defaults : Z * Z * Z) (c : ReplicaConfig) : result NATSConfig :=
  let rs := rc_Settings c in
  '(url, ubucket) ←
    (if nonempty (rc_URL c) then
       '(scheme, host, bucketPath) ← ParseReplicaURL url_Parse ParseQuery (rc_URL c) wrapping "invalid NATS URL";
       if negb (bool_decide (scheme = lit "nats")) then Err (EMsg "invalid scheme for NATS replica")
       else Ok (if nonempty host then lit "nats://" ++ host else [], trim_both bucketPath)
     else Ok ([], []));
  let bucket := or_str ubucket (rs_Bucket rs) in
  if negb (nonempty bucket) then Err (EMsg "bucket required for NATS replica")
  else if negb (eqb (nonempty (rs_ClientCert rs)) (nonempty (rs_ClientKey rs)))
  then Err (EMsg "client-cert and client-key must both be specified for mutual TLS authentication")
  else Ok (mkNATSConfig url bucket (rs_JWT rs) (rs_Seed rs) (rs_Creds rs) (rs_NKey rs) (rs_Username rs) (rs_Password rs) (rs_Token rs)
             (rs_RootCAs rs) (rs_ClientCert rs) (rs_ClientKey rs) (default defaults.1.1 (rs_MaxReconnects rs))
             (default defaults.1.2 (rs_ReconnectWait rs)) (default defaults.2 (rs_Timeout rs))).

Section Replica.
Context {identity recipient : Type}.
Variable ParseIdentities : str -> result (list identity).
Variable ParseRecipients : str -> result (list recipient).
Variable nats_defaults : Z * Z * Z.
Variable DefaultSync : Z.

Fixpoint parse_all {A} (parse : str -> result (list A)) (text : string) (l : list str) : result (list A) :=
  match l with
  | [] => Ok []
  | s :: l => a ← parse s wrapping text; rest ← parse_all parse text l; Ok (a ++ rest)
  end.

Definition build_client (c : ReplicaConfig) : result ClientConfig :=
  let t := ReplicaType c in
  if bool_decide (t = lit "file") then p ← newFileReplicaClientFromConfig c; Ok (CFile p)
  else if bool_decide (t = lit "s3") then p ← NewS3ReplicaClientFromConfig c; Ok (CS3 p)
  else if bool_decide (t = lit "sftp") then p ← newSFTPReplicaClientFromConfig c; Ok (CSFTP p)
  else if bool_decide (t = lit "webdav") then p ← newWebDAVReplicaClientFromConfig c; Ok (CWebDAV p)
  else if bool_decide (t = lit "nats") then p ← newNATSReplicaClientFromConfig nats_defaults c; Ok (CNATS p)
  else Err (EMsg "unknown replica type in config").

Definition NewReplicaFromConfig (c : ReplicaConfig) : result (ReplicaFromConfig identity recipient) :=
  let rs := rc_Settings c in
  if IsURL (rc_Path c) then Err (EMsg "replica path cannot be a url, please use the 'url' field instead") else
  ids ← parse_all ParseIdentities "parse age identity" (age_Identities (rs_Age rs));
  rcpts ← parse_all ParseRecipients "parse age recipient" (age_Recipients (rs_Age rs));
  client ← build_client c;
  Ok (mkReplicaFromConfig (default DefaultSync (rs_SyncInterval rs)) (default false (rs_AutoRecover rs)) ids rcpts
        (negb (default false (age_AllowPlaintext (rs_Age rs)))) client).
End Replica.
End Clients.

(** ** Theorems *)

Lemma or_str_assoc a b d : or_str a (or_str b d) = or_str (or_str a b) d.
Proof. unfold or_str. repeat case_bool_decide; done. Qed.
Lemma or_list_assoc {A} (a b d : list A) : or_list a (or_list b d) = or_list (or_list a b) d.
Proof. by destruct a. Qed.
Lemma or_opt_assoc {A} (a b d : option A) : or_opt a (or_opt b d) = or_opt (or_opt a b) d.
Proof. by destruct a. Qed.
Lemma or_str_idem a b : or_str (or_str a b) b = or_str a b.
Proof. unfold or_str. repeat case_bool_decide; done. Qed.
Lemma or_list_idem {A} (a b : list A) : or_list (or_list a b) b = or_list a b.
Proof. by destruct a, b. Qed.
Lemma or_opt_idem {A} (a b : option A) : or_opt (or_opt a b) b = or_opt a b.
Proof. by destruct a, b. Qed.

(** Defaults layer: applying them twice is applying them once, and defaults of defaults can be
    merged first. *)
Theorem settings_layer src src' rs :
  SetDefaults src (SetDefaults src rs) = SetDefaults src rs /\
  SetDefaults src' (SetDefaults src rs) = SetDefaults (SetDefaults src' src) rs.
Proof.
  split; unfold SetDefaults; cbn; f_equal;
    try (apply or_str_idem || apply or_list_idem || apply or_opt_idem || (symmetry; apply or_str_assoc) || (symmetry; apply or_list_assoc) || (symmetry; apply or_opt_assoc)).
  all: try (by destruct (rs_TLS rs), (rs_TLS src), (rs_TLS src')); try (by destruct (rs_SkipVerify rs), (rs_SkipVerify src), (rs_SkipVerify src')).
  all: f_equal; first [apply or_list_idem|apply or_opt_idem|symmetry; apply or_list_assoc|symmetry; apply or_opt_assoc].
Qed.

Section ConfigTheorems.
Variable url_Parse : str -> result URL.
Variable ParseQuery : str -> result (string -> str).
Variable TrimSpace : str -> str.
Variable url_host : str -> option str.
Variables cwd home : result str.
Variable ReadFile : str -> result str.
Context {identity recipient : Type}.
Variable ParseIdentities : str -> result (list identity).
Variable ParseRecipients : str -> result (list recipient).
Variable nats_defaults : Z * Z * Z.
Variable DefaultSync : Z.

Abbreviation new_replica := (NewReplicaFromConfig url_Parse ParseQuery TrimSpace url_host cwd home ReadFile ParseIdentities ParseRecipients nats_defaults DefaultSync).

Lemma parse_all_nonempty {A} (parse : str -> result (list A)) text l a :
  (forall s x, parse s = Ok x -> x <> []) -> parse_all parse text l = Ok a -> l <> [] -> a <> [].
Proof.
  intros Hp. destruct l as [|s l]; [done|]. cbn [parse_all]. destruct (parse s) as [x|e|m] eqn:E; cbn [wrap_err mbind result_bind]; [|done..].
  destruct (parse_all parse text l) as [rest|e|m]; cbn [mbind result_bind]; [|done..]. intros [= <-] _. apply Hp in E. by destruct x.
Qed.

(** C31: a replica made from a configuration requires encryption unless plaintext is allowed
    explicitly: by the replica itself, or by the global settings when the replica does not say.  Its
    recipients are those of the replica, or the global ones when it names none; when
    recipients are named, some are configured. *)
Theorem config_fail_closed global c r :
  (forall s x, ParseRecipients s = Ok x -> x <> []) ->
  new_replica (mkReplicaConfig (SetDefaults global (rc_Settings c)) (rc_Type c) (rc_Name c) (rc_Path c) (rc_URL c)) = Ok r ->
  (rf_RequireEncryption r = false <->
     age_AllowPlaintext (rs_Age (rc_Settings c)) = Some true \/
     age_AllowPlaintext (rs_Age (rc_Settings c)) = None /\ age_AllowPlaintext (rs_Age global) = Some true) /\
  parse_all ParseRecipients "parse age recipient"
    (if bool_decide (age_Recipients (rs_Age (rc_Settings c)) = []) then age_Recipients (rs_Age global) else age_Recipients (rs_Age (rc_Settings c)))
    = Ok (rf_AgeRecipients r) /\
  (age_Recipients (rs_Age (rc_Settings c)) <> [] \/ age_Recipients (rs_Age global) <> [] -> rf_AgeRecipients r <> []).
Proof.
  intros Hne. unfold NewReplicaFromConfig. cbn [rc_Settings rc_Path]. destruct (IsURL _); [done|].
  destruct (parse_all ParseIdentities _ _) as [ids|e|m]; cbn [mbind result_bind]; [|done..].
  destruct (parse_all ParseRecipients _ _) as [rcpts|e|m] eqn:ER; cbn [mbind result_bind]; [|done..].
  destruct (build_client _ _ _ _ _ _ _ _ _) as [cl|e|m]; cbn [mbind result_bind]; [|done..]. intros [= <-]. cbn [rf_RequireEncryption rf_AgeRecipients].
  assert (age_Recipients (rs_Age (SetDefaults global (rc_Settings c))) =
    if bool_decide (age_Recipients (rs_Age (rc_Settings c)) = []) then age_Recipients (rs_Age global) else age_Recipients (rs_Age (rc_Settings c))) as HR.
  { cbn. unfold or_list. case_bool_decide as Hb; [by rewrite Hb|]. by destruct (age_Recipients (rs_Age (rc_Settings c))). }
  rewrite HR in ER. split_and!.
  - cbn. unfold or_opt. destruct (age_AllowPlaintext (rs_Age (rc_Settings c))) as [[]|], (age_AllowPlaintext (rs_Age global)) as [[]|]; cbn; intuition congruence.
  - done.
  - intros Ho. eapply parse_all_nonempty; [done|exact ER|]. case_bool_decide as Hb; [|done]. by destruct Ho.
Qed.

(** The result of a path expansion is absolute. *)
Lemma path_Clean_rooted p : HasPrefix p [slash] = true -> HasPrefix (path_Clean p) [slash] = true.
Proof.
  intros Hp. unfold path_Clean. case_bool_decide as Hn; [by subst|]. rewrite Hp. apply HasPrefix_app. by eexists.
Qed.
Lemma path_Join_rooted d s : HasPrefix d [slash] = true -> HasPrefix (path_Join [d; s]) [slash] = true.
Proof.
  intros Hd. pose proof Hd as [t ->]%HasPrefix_app. unfold path_Join. rewrite filter_cons_True by done.
  destruct (nonempty s) eqn:E; [rewrite filter_cons_True by done|rewrite filter_cons_False by congruence]; rewrite filter_nil;
    apply path_Clean_rooted; apply HasPrefix_app; eexists; reflexivity.
Qed.

Theorem expand_absolute s p :
  (forall d, cwd = Ok d -> HasPrefix d [slash] = true) -> (forall h, home = Ok h -> h <> [] -> HasPrefix h [slash] = true) ->
  expand cwd home s = Ok p -> HasPrefix p [slash] = true.
Proof.
  intros Hc Hh. unfold expand, filepath_Abs. destruct (_ && _).
  - destruct (HasPrefix (StripSQLitePrefix s) [slash]) eqn:E; [intros [= <-]; by apply path_Clean_rooted|].
    destruct cwd as [d|e|m]; cbn [mbind result_bind]; [|done..]. intros [= <-]. apply path_Join_rooted. by apply Hc.
  - destruct home as [h|e|m]; cbn [mbind result_bind]; [|done..]. case_bool_decide as Hn; [done|]. specialize (Hh h eq_refl Hn).
    case_bool_decide; intros [= <-]; [done|by apply path_Join_rooted].
Qed.

(** Sizes and levels stay in their ranges. *)
Theorem parse_bounds humanize s n :
  (forall t k, humanize t = Ok k -> 0 <= k < 2 ^ 64) ->
  (ParseByteSize TrimSpace humanize s = Ok n -> 0 <= n <= MaxInt64) /\
  (levelVar_Set s = Ok n -> n = levelAll \/ 0 <= n <= SnapshotLevel) /\ (ParseInt s = Some n -> - 2 ^ 63 <= n < 2 ^ 63).
Proof.
  intros Hh. split_and!.
  - unfold ParseByteSize. case_bool_decide; [done|]. destruct (humanize (TrimSpace s)) as [k|e|m] eqn:E; cbn [wrap_err mbind result_bind]; [|done..].
    apply Hh in E. destruct (Z.ltb_spec MaxInt64 k); [done|]. intros [= <-]. lia.
  - unfold levelVar_Set. case_bool_decide; [intros [= <-]; by left|]. destruct (ParseInt s) as [k|]; [|done].
    destruct (Z.ltb_spec k 0), (Z.ltb_spec SnapshotLevel k); cbn; try done. intros [= <-]. right. lia.
  - unfold ParseInt. destruct (match s with [] => _ | _ => _ end) as [neg body]. case_bool_decide; [done|].
    destruct (digits 0 body) as [k|]; [|done]. cbn [mbind option_bind]. destruct (_ && _) eqn:E; [|done]. intros [= <-]. breflect. lia.
Qed.
End ConfigTheorems.

(** ** The two ways to an S3 client *)

Definition no_settings : ReplicaSettings :=
  mkSettings None None None [] [] [] [] [] None None None false None None [] [] [] [] [] [] [] [] [] [] [] None [] [] [] [] [] [] [] [] [] [] false [] [] []
    None None None (mkAge [] [] None).
Definition url_only (url : str) : ReplicaConfig := mkReplicaConfig no_settings [] [] [] url.

Lemma or_str_nil d : or_str [] d = d.
Proof. unfold or_str. by rewrite bool_decide_eq_true_2. Qed.

Section BuildersAgree.
Variable url_Parse : str -> result URL.
Variable ParseQuery : str -> result (string -> str).
Variable TrimSpace : str -> str.
Variable url_host : str -> option str.
Variables cwd home : result str.
Variable ReadFile : str -> result str.
Variable getenv : string -> str.

Lemma tigris_nil : TrimSpace [] = [] -> IsTigrisEndpoint TrimSpace url_host [] = false.
Proof. intros Ht. unfold IsTigrisEndpoint, extractEndpointHost. cbn [ToLower fmap list_fmap]. rewrite Ht. done. Qed.

Lemma sign_agrees endpoint q :
  default (SignPayload S3Config.NewReplicaClient) (provider_sign TrimSpace url_host endpoint q) =
  bs_value (let s := match q with Some v => if bs_set (newBoolSetting true) then newBoolSetting true else bs_Set v (newBoolSetting true) | None => newBoolSetting true end in
            let s := if IsTigrisEndpoint TrimSpace url_host endpoint then bs_ApplyDefault true s else s in
            if config_signed_provider TrimSpace url_host endpoint then bs_ApplyDefault true s else s).
Proof.
  unfold provider_sign. destruct q as [v|], (IsTigrisEndpoint TrimSpace url_host endpoint), (signed_provider TrimSpace url_host endpoint),
    (config_signed_provider TrimSpace url_host endpoint); done.
Qed.
Lemma md5_agrees endpoint q :
  default (RequireContentMD5 S3Config.NewReplicaClient) (provider_md5 TrimSpace url_host endpoint q) =
  bs_value (let s := match q with Some v => if bs_set (newBoolSetting true) then newBoolSetting true else bs_Set v (newBoolSetting true) | None => newBoolSetting true end in
            if IsTigrisEndpoint TrimSpace url_host endpoint then bs_ApplyDefault false s else s).
Proof. unfold provider_md5. by destruct q as [v|], (IsTigrisEndpoint TrimSpace url_host endpoint). Qed.

(** A client made from a URL in a configuration and one made from the URL itself have the
    same bucket, region, path, endpoint and payload settings, and fail together; the path style is
    the same when the URL does not set it. *)
Theorem s3_builders_agree url scheme host upath query userinfo :
  TrimSpace [] = [] -> getenv "REPLICATE_S3_ENDPOINT"%string = [] -> url <> [] ->
  ParseReplicaURLWithQuery url_Parse ParseQuery url = Ok (scheme, host, upath, query, userinfo) ->
  match NewReplicaClientFromURL TrimSpace url_host getenv host upath query,
        NewS3ReplicaClientFromConfig url_Parse ParseQuery TrimSpace url_host home ReadFile (url_only url) with
  | Ok a, Ok b =>
      Bucket a = Bucket b /\ Region a = Region b /\ Path a = Path b /\ Endpoint a = Endpoint b /\ SignPayload a = SignPayload b /\
      RequireContentMD5 a = RequireContentMD5 b /\
      (query "forcePathStyle"%string = [] -> query "force-path-style"%string = [] -> ForcePathStyle a = ForcePathStyle b)
  | Err _, Err _ => True
  | _, _ => False
  end.
Proof.
  intros Ht Hg Hu HP. unfold NewS3ReplicaClientFromConfig. cbn [rc_URL rc_Path rc_Settings url_only]. rewrite HP.
  assert (nonempty url = true) as -> by (by apply nonempty_true). change (nonempty (rs_Bucket no_settings)) with false. change (nonempty []) with false.
  cbn [andb mbind result_bind]. unfold apply_url, NewReplicaClientFromURL, url_location. rewrite Hg. change (nonempty []) with false.
  destruct (if HasPrefix host _ then _ else _) as [[[b r] ep] f].
  destruct (BoolQueryValue query ["forcePathStyle"; "force-path-style"]%string) as [v ok] eqn:EB.
  set (ep' := if nonempty (query "endpoint"%string) then (EnsureEndpointScheme TrimSpace url_host (query "endpoint"%string)).1 else ep).
  set (f1 := if nonempty (query "endpoint"%string) then if negb ok || v then true else f else f).
  assert ((if nonempty (query "endpoint"%string)
     then ((EnsureEndpointScheme TrimSpace url_host (query "endpoint"%string)).1, if negb ok || v then true else f) else (ep, f)) = (ep', f1)) as ->
    by (unfold ep', f1; by destruct (nonempty (query "endpoint"%string))).
  set (f2 := if nonempty (query "endpoint"%string) then if negb (bool_decide (query "forcePathStyle"%string = lit "false")) then true else f else f).
  set (was := if nonempty (query "endpoint"%string) then true else pt_endpointWasSet (parts_of_config (url_only url))).
  assert ((if nonempty (query "endpoint"%string)
     then ((EnsureEndpointScheme TrimSpace url_host (query "endpoint"%string)).1,
           if negb (bool_decide (query "forcePathStyle"%string = lit "false")) then true else f, true)
     else (ep, f, pt_endpointWasSet (parts_of_config (url_only url)))) = (ep', f2, was)) as ->
    by (unfold ep', f2, was; by destruct (nonempty (query "endpoint"%string))).
  cbn [pt_bucket pt_path pt_region pt_endpoint pt_forcePathStyle pt_skipVerify pt_sign pt_md5 pt_endpointWasSet parts_of_config url_only rc_Settings rc_Path
       no_settings rs_Bucket rs_Region rs_Endpoint rs_ForcePathStyle rs_SignPayload rs_RequireContentMD5 rs_SSECustomerKey rs_SSECustomerKeyPath default from_option].
  change (nonempty []) with false. rewrite !or_str_nil, !andb_false_r, (tigris_nil Ht), andb_false_r, orb_false_r. cbn [orb mbind result_bind].
  destruct (bool_decide (b = [])) eqn:EBk; unfold nonempty at 1; rewrite EBk; cbn [negb]; [done|].
  cbn [Bucket Region Path Endpoint SignPayload RequireContentMD5 ForcePathStyle]. split_and!; [done..| | |].
  - apply sign_agrees.
  - apply md5_agrees.
  - intros Hf1 Hf2. cbn in EB. rewrite Hf1, Hf2 in EB. injection EB as <- <-. unfold f1, f2. rewrite Hf1, Hf2. change (nonempty []) with false. cbn.
    by destruct (nonempty (query "endpoint"%string)).
Qed.
End BuildersAgree.

(** ** Configurations that lose settings *)

Module ReplicaConfigDemo.
(** URLs of a host, with a query of one parameter. *)
Definition url (scheme host : string) (param : string * str) : URL :=
  mkURL (lit scheme) None (lit host) (lit "/db") (fun k => if bool_decide (k = param.1) then param.2 else []) [].
Definition parse (u : URL) (s : str) : result URL := if bool_decide (s = []) then Err (EMsg "empty url") else Ok u.
Definition query (_ : str) : result (string -> str) := Ok (fun _ => []).
Definition trim (s : str) : str := s.
Definition uhost (s : str) : option str := Some s.

(** A host key among the global settings does not reach the replicas: the client accepts
    every host. *)
Definition with_host_key : ReplicaSettings :=
  mkSettings None None None [] [] [] [] [] None None None false (Some 8) (Some 4) [] [] [] [] [] [] [] [] [] [] [] None (lit "ssh-ed25519 AAAA") (lit "https://dav") [] []
    [] [] [] [] [] [] false [] [] [] None None None (mkAge [] [] None).
Theorem global_host_key_lost :
  exists c, newSFTPReplicaClientFromConfig (parse (url "sftp" "host" ("", [])))
    (mkReplicaConfig (SetDefaults with_host_key (SetDefaults
       (mkSettings None None None [] [] [] [] [] None None None false None None [] [] [] [] [] [] [] (lit "h") (lit "u") [] [] None [] [] [] []
         [] [] [] [] [] [] false [] [] [] None None None (mkAge [] [] None)) no_settings)) (lit "sftp") [] (lit "/db") []) = Ok c /\ sf_HostKey c = [].
Proof. eexists. split; [vm_compute; reflexivity|reflexivity]. Qed.

(** The customer key of a URL is used by the library and dropped by the command line. *)
Definition sse_url : URL := url "s3" "bkt" ("sseCustomerKey", lit "a2V5")%string.
Theorem url_sse_ignored :
  exists a b, NewReplicaClientFromURL trim uhost (fun _ => []) (u_Host sse_url) (lit "db") (u_Query sse_url) = Ok a /\
    NewS3ReplicaClientFromConfig (parse sse_url) query trim uhost (Ok []) (fun _ => Err ErrNotExist) (url_only (lit "s3://bkt/db")) = Ok b /\
    SSECustomerKey a = lit "a2V5" /\ SSECustomerKey b = [].
Proof. eexists _, _. split; [vm_compute; reflexivity|]. split; [vm_compute; reflexivity|]. done. Qed.

(** A path style that is switched off is switched on again by the host of the URL. *)
Definition no_path_style : ReplicaSettings :=
  mkSettings None None None [] [] [] [] [] (Some false) None None false None None [] [] [] [] [] [] [] [] [] [] [] None [] [] [] []
    [] [] [] [] [] [] false [] [] [] None None None (mkAge [] [] None).
Theorem path_style_forced :
  exists c, NewS3ReplicaClientFromConfig (parse (url "s3" "bkt.localhost:9000" ("", []))) query trim uhost (Ok []) (fun _ => Err ErrNotExist)
    (mkReplicaConfig no_path_style [] [] [] (lit "s3://bkt.localhost:9000/db")) = Ok c /\ ForcePathStyle c = true.
Proof. eexists. split; [vm_compute; reflexivity|reflexivity]. Qed.

Definition parse_rcpt (s : str) : result (list str) := Ok [s].
Definition new (c : ReplicaConfig) := @NewReplicaFromConfig (parse (url "file" "" ("", []))) query trim uhost (Ok (lit "/")) (Ok []) (fun _ => Err ErrNotExist) str str
  parse_rcpt parse_rcpt (0, 0, 0) 1 c.
End ReplicaConfigDemo.

Lemma config_fail_closed_witness :
  exists r, ReplicaConfigDemo.new (mkReplicaConfig (SetDefaults no_settings no_settings) [] [] (lit "/backup") []) = Ok r /\ rf_RequireEncryption r = true.
Proof.
  assert (match ReplicaConfigDemo.new (mkReplicaConfig (SetDefaults no_settings no_settings) [] [] (lit "/backup") []) with Ok _ => true | _ => false end = true) as Hok
    by (vm_compute; reflexivity).
  unfold ReplicaConfigDemo.new in *.
  destruct (NewReplicaFromConfig _ _ _ _ _ _ _ _ _ _ _ _) as [r|e|m] eqn:E; [|discriminate Hok|discriminate Hok]. exists r. split; [reflexivity|].
  assert (forall s x, ReplicaConfigDemo.parse_rcpt s = Ok x -> x <> []) as Hp by (intros s x Hx; injection Hx as <-; discriminate).
  destruct (config_fail_closed _ _ _ _ _ _ _ _ _ _ _ no_settings (mkReplicaConfig no_settings [] [] (lit "/backup") []) r Hp E) as ([Hf _] & _).
  destruct (rf_RequireEncryption r); [reflexivity|]. exfalso. destruct (Hf eq_refl) as [Hx|[_ Hx]]; discriminate Hx.
Defined.
