(* ===== verification/Config.v ===== *)
(** * The configuration file and directories of databases

    Model of the rest of the configuration in src/cmd/replicate/main.go: the defaults, parsing and
    validation of a configuration file, databases made from it, and the databases found
    below a directory. *)

From Stdlib Require Import ZArith Lia Ascii String Strings.Byte.
From stdpp Require Import base numbers list strings gmap sorting.
From S2P Require Import Prelude Ltx Levels V3 Urls S3Config ReplicaConfig.
Local Open Scope Z_scope.

(** ** The configuration *)

Record DBConfig := mkDBConfig {
  dc_Path : str; dc_Dir : str; dc_Pattern : str; dc_Recursive : bool; dc_Watch : bool; dc_MetaPath : option str;
  dc_MonitorInterval : option Z; dc_CheckpointInterval : option Z; dc_BusyTimeout : option Z;
  dc_MinCheckpointPageN : option Z; dc_TruncatePageN : option Z; dc_RestoreIfDBNotExists : bool;
  dc_Replica : option ReplicaConfig; dc_Replicas : list ReplicaConfig
}.

Record SecretConfig := mkSecret { sc_Path : str; sc_Keys : list str }.

(** The fields that the modelled code reads; addresses, logging and the socket are passed on. *)
Record Config := mkConf {
  cf_Settings : ReplicaSettings; cf_Levels : list duration;
  cf_SnapshotInterval : option duration; cf_SnapshotRetention : option duration; cf_ValidationInterval : option duration;
  cf_L0Retention : option duration; cf_L0RetentionCheckInterval : option duration; cf_VerifyCompaction : bool; cf_RetentionEnabled : option bool;
  cf_HeartbeatURL : str; cf_HeartbeatInterval : option duration; cf_DBs : list DBConfig; cf_Exec : str;
  cf_ShutdownSyncTimeout : option duration; cf_ShutdownSyncInterval : option duration
}.

Definition set_DBs (dbs : list DBConfig) (c : Config) : Config :=
  mkConf (cf_Settings c) (cf_Levels c) (cf_SnapshotInterval c) (cf_SnapshotRetention c) (cf_ValidationInterval c) (cf_L0Retention c)
    (cf_L0RetentionCheckInterval c) (cf_VerifyCompaction c) (cf_RetentionEnabled c) (cf_HeartbeatURL c) (cf_HeartbeatInterval c) dbs (cf_Exec c)
    (cf_ShutdownSyncTimeout c) (cf_ShutdownSyncInterval c).

(** Constants of src/store.go, src/db.go and src/heartbeat.go. *)
Definition DefaultL0Retention : duration := 5 * Minute.
Definition DefaultL0RetentionCheckInterval : duration := 15 * Second.
Definition DefaultShutdownSyncTimeout : duration := 30 * Second.
Definition DefaultShutdownSyncInterval : duration := 500 * 1000000.
Definition MinHeartbeatInterval : duration := Minute.

Definition empty_settings : ReplicaSettings := no_settings.
Definition DefaultConfig : Config :=
  mkConf empty_settings (Interval <$> drop 1 DefaultCompactionLevels) (Some (24 * Hour)) (Some (24 * Hour)) None
    (Some DefaultL0Retention) (Some DefaultL0RetentionCheckInterval) false None [] None [] []
    (Some DefaultShutdownSyncTimeout) (Some DefaultShutdownSyncInterval).

Definition set_replica_defaults (global : ReplicaSettings) (rc : ReplicaConfig) : ReplicaConfig :=
  mkReplicaConfig (SetDefaults global (rc_Settings rc)) (rc_Type rc) (rc_Name rc) (rc_Path rc) (rc_URL rc).
Definition set_replicas (r : option ReplicaConfig) (rs : list ReplicaConfig) (d : DBConfig) : DBConfig :=
  mkDBConfig (dc_Path d) (dc_Dir d) (dc_Pattern d) (dc_Recursive d) (dc_Watch d) (dc_MetaPath d) (dc_MonitorInterval d) (dc_CheckpointInterval d)
    (dc_BusyTimeout d) (dc_MinCheckpointPageN d) (dc_TruncatePageN d) (dc_RestoreIfDBNotExists d) r rs.
Definition propagateGlobalSettings (c : Config) : Config :=
  set_DBs ((fun d => set_replicas (set_replica_defaults (cf_Settings c) <$> dc_Replica d) (set_replica_defaults (cf_Settings c) <$> dc_Replicas d) d) <$> cf_DBs c) c.

(** ** Validation *)

Definition isValidHeartbeatURL (u : str) : bool := has_scheme u.
Definition invalid {A} (name field : string) : result A := Err (EWrap field (EVar name)).
Definition nonpositive (o : option duration) : bool := match o with Some v => v <=? 0 | None => false end.

Definition validate_levels (levels : list duration) : result () :=
  if existsb (fun i => i <=? 0) levels then invalid "compaction interval must be greater than 0" "levels" else Ok ().

Definition validate_db (db : DBConfig) : result () :=
  if nonempty (dc_Path db) && nonempty (dc_Dir db) then Err (EMsg "cannot specify both 'path' and 'dir'")
  else if negb (nonempty (dc_Path db)) && negb (nonempty (dc_Dir db)) then Err (EMsg "must specify either 'path' or 'dir'")
  else if nonempty (dc_Dir db) && negb (nonempty (dc_Pattern db)) then Err (EMsg "'pattern' is required when using 'dir'")
  else if dc_Watch db && negb (nonempty (dc_Dir db)) then Err (EMsg "'watch' can only be enabled with a directory")
  else if match dc_Replica db with Some r => nonpositive (rs_SyncInterval (rc_Settings r)) | None => false end
  then invalid "sync interval must be greater than 0" "replica.sync-interval"
  else if existsb (fun r => nonpositive (rs_SyncInterval (rc_Settings r))) (dc_Replicas db)
  then invalid "sync interval must be greater than 0" "replicas.sync-interval"
  else Ok ().
Fixpoint validate_dbs (dbs : list DBConfig) : result () :=
  match dbs with [] => Ok () | db :: dbs => _ ← validate_db db; validate_dbs dbs end.

Definition Config_Validate (c : Config) : result () :=
  if nonpositive (cf_SnapshotInterval c) then invalid "snapshot interval must be greater than 0" "snapshot.interval"
  else if nonpositive (cf_SnapshotRetention c) then invalid "snapshot retention must be greater than 0" "snapshot.retention"
  else if nonpositive (cf_L0Retention c) then invalid "l0 retention must be greater than 0" "l0-retention"
  else if nonpositive (cf_L0RetentionCheckInterval c) then invalid "l0 retention check interval must be greater than 0" "l0-retention-check-interval"
  else if match cf_ShutdownSyncTimeout c with Some v => v <? 0 | None => false end then invalid "shutdown-sync-timeout must be >= 0" "shutdown-sync-timeout"
  else if nonpositive (cf_ShutdownSyncInterval c) then invalid "shutdown sync interval must be greater than 0" "shutdown-sync-interval"
  else if nonempty (cf_HeartbeatURL c) && negb (isValidHeartbeatURL (cf_HeartbeatURL c))
  then invalid "heartbeat URL must be a valid HTTP or HTTPS URL" "heartbeat-url"
  else if match cf_HeartbeatInterval c with Some v => v <? MinHeartbeatInterval | None => false end
  then invalid "heartbeat interval must be at least 1 minute" "heartbeat-interval"
  else _ ← validate_levels (cf_Levels c); validate_dbs (cf_DBs c).

Definition Config_CompactionLevels (c : Config) : CompactionLevels :=
  mkLevel 0 0 :: imap (fun i interval => mkLevel (Z.of_nat i + 1) interval) (cf_Levels c).

Definition Config_DBConfig (c : Config) (configPath : str) : option DBConfig :=
  List.find (fun d => bool_decide (dc_Path d = configPath)) (cf_DBs c).

(** ** Parsing *)
Section Parse.
(** The YAML decoder, which writes over the fields it is given, of the configuration and of
    its secrets; the store of secrets; [os.Expand]; environment and process id. *)
Variable yaml_Unmarshal : str -> Config -> result Config.
Variable yaml_Secrets : str -> result (list SecretConfig).
Variable secret_Boot : str -> list str -> result (gmap str str).
Variable os_Expand : str -> (str -> str) -> str.
Variable getenv : str -> str.
Variable pid : str.
Variables cwd home : result str.

Fixpoint read_secrets (stores : list SecretConfig) (vals : gmap str str) : result (gmap str str) :=
  match stores with
  | [] => Ok vals
  | store :: stores => got ← secret_Boot (sc_Path store) (sc_Keys store); read_secrets stores (got ∪ vals)
  end.
Definition expand_name (vals : gmap str str) (key : str) : str :=
  match vals !! key with
  | Some v => v
  | None => if bool_decide (key = lit "PID") then pid else getenv key
  end.

(** Defaults come back where empty sections removed them. *)
Definition restore_defaults (c : Config) : Config :=
  mkConf (cf_Settings c) (cf_Levels c) (or_opt (cf_SnapshotInterval c) (cf_SnapshotInterval DefaultConfig))
    (or_opt (cf_SnapshotRetention c) (cf_SnapshotRetention DefaultConfig)) (cf_ValidationInterval c)
    (or_opt (cf_L0Retention c) (cf_L0Retention DefaultConfig))
    (or_opt (cf_L0RetentionCheckInterval c) (cf_L0RetentionCheckInterval DefaultConfig)) (cf_VerifyCompaction c) (cf_RetentionEnabled c)
    (cf_HeartbeatURL c) (cf_HeartbeatInterval c) (cf_DBs c) (cf_Exec c) (cf_ShutdownSyncTimeout c) (cf_ShutdownSyncInterval c).

Definition set_path (p : str) (d : DBConfig) : DBConfig :=
  mkDBConfig p (dc_Dir d) (dc_Pattern d) (dc_Recursive d) (dc_Watch d) (dc_MetaPath d) (dc_MonitorInterval d) (dc_CheckpointInterval d)
    (dc_BusyTimeout d) (dc_MinCheckpointPageN d) (dc_TruncatePageN d) (dc_RestoreIfDBNotExists d) (dc_Replica d) (dc_Replicas d).
Fixpoint normalize_paths (dbs : list DBConfig) : result (list DBConfig) :=
  match dbs with
  | [] => Ok []
  | d :: dbs =>
      d ← (if nonempty (dc_Path d) then p ← expand cwd home (dc_Path d); Ok (set_path p d) else Ok d);
      rest ← normalize_paths dbs; Ok (d :: rest)
  end.

Definition ParseConfig (buf : result str) (expandEnv : bool) : result Config :=
  buf ← buf;
  buf ← (if expandEnv then
           stores ← yaml_Secrets buf;
           vals ← read_secrets stores ∅;
           Ok (os_Expand buf (expand_name vals))
         else Ok buf);
  c ← yaml_Unmarshal buf DefaultConfig;
  let c := restore_defaults c in
  dbs ← normalize_paths (cf_DBs c);
  let c := propagateGlobalSettings (set_DBs dbs c) in
  _ ← Config_Validate c;
  Ok c.

(** [os.Open] and reading to the end; a missing file has an error of its own. *)
Variable os_Open : str -> result (result str).
Definition ErrConfigFileNotFound : error := EVar "config file not found".
Definition OpenConfigFile (filename : str) : result (result str) :=
  filename ← expand cwd home filename;
  match os_Open filename with
  | Err e => if os_IsNotExist e then Err (EWrap "open" ErrConfigFileNotFound) else Err e
  | r => r
  end.
Definition ReadConfigFile (filename : str) (expandEnv : bool) : result Config :=
  f ← OpenConfigFile filename; ParseConfig f expandEnv.
End Parse.

(** ** What a parsed configuration promises *)

Definition positive (o : option duration) : Prop := exists v, o = Some v /\ 0 < v.
Definition not_nonpositive (o : option duration) : Prop := forall v, o = Some v -> 0 < v.

(** A database is a path or a directory with a pattern, its replicas sync at positive
    intervals. *)
Record db_ok (d : DBConfig) : Prop := {
  db_one : dc_Path d <> [] /\ dc_Dir d = [] \/ dc_Path d = [] /\ dc_Dir d <> [] /\ dc_Pattern d <> [];
  db_watch : dc_Watch d = true -> dc_Dir d <> [];
  db_replica : forall r, dc_Replica d = Some r -> not_nonpositive (rs_SyncInterval (rc_Settings r));
  db_replicas : forall r, In r (dc_Replicas d) -> not_nonpositive (rs_SyncInterval (rc_Settings r))
}.

Record config_ok (c : Config) : Prop := {
  ok_snapshot : positive (cf_SnapshotInterval c) /\ positive (cf_SnapshotRetention c);
  ok_l0 : positive (cf_L0Retention c) /\ positive (cf_L0RetentionCheckInterval c);
  ok_shutdown : (forall v, cf_ShutdownSyncTimeout c = Some v -> 0 <= v) /\ not_nonpositive (cf_ShutdownSyncInterval c);
  ok_heartbeat : (cf_HeartbeatURL c <> [] -> has_scheme (cf_HeartbeatURL c) = true) /\ (forall v, cf_HeartbeatInterval c = Some v -> Minute <= v);
  ok_levels : Forall (fun i => 0 < i) (cf_Levels c);
  ok_dbs : Forall db_ok (cf_DBs c)
}.

Lemma nonpositive_false o : nonpositive o = false <-> not_nonpositive o.
Proof.
  unfold nonpositive, not_nonpositive. destruct o as [v|]; [|split; [intros _ v [=]|done]]. destruct (Z.leb_spec v 0); split; try done.
  - intros Hv. specialize (Hv v eq_refl). lia.
  - by intros _ ? [= <-].
Qed.
Lemma positive_some o : nonpositive o = false -> is_Some o -> positive o.
Proof. intros Hn%nonpositive_false [v ->]. exists v. split; [done|]. by apply Hn. Qed.
Lemma existsb_false {A} (f : A -> bool) l : existsb f l = false <-> Forall (fun x => f x = false) l.
Proof. induction l as [|x l IH]; cbn; [split; [constructor|done]|]. rewrite orb_false_iff, Forall_cons, IH. done. Qed.

Lemma validate_db_ok d : validate_db d = Ok () -> db_ok d.
Proof.
  unfold validate_db. destruct (nonempty (dc_Path d)) eqn:HP, (nonempty (dc_Dir d)) eqn:HD, (nonempty (dc_Pattern d)) eqn:HT, (dc_Watch d) eqn:HW;
    cbn [andb negb]; try done.
  all: destruct (match dc_Replica d with Some _ => _ | None => _ end) eqn:HR; [done|]; destruct (existsb _ _) eqn:HRs; [done|]; intros _.
  all: repeat match goal with H : nonempty _ = true |- _ => apply nonempty_true in H | H : nonempty ?x = false |- _ => unfold nonempty in H; apply negb_false_iff, bool_decide_eq_true in H end.
  all: constructor; [tauto|congruence| |].
  all: try (intros r Hr; rewrite Hr in HR; by apply nonpositive_false).
  all: intros r Hr; apply nonpositive_false; apply existsb_false in HRs; rewrite List.Forall_forall in HRs; by apply HRs.
Qed.
Lemma validate_dbs_ok dbs : validate_dbs dbs = Ok () -> Forall db_ok dbs.
Proof.
  induction dbs as [|d dbs IH]; cbn [validate_dbs]; [constructor|]. destruct (validate_db d) as [[]|e|m] eqn:E; cbn [mbind result_bind]; [|done..].
  intros H. constructor; [by apply validate_db_ok|by apply IH].
Qed.

Lemma Config_Validate_ok c :
  is_Some (cf_SnapshotInterval c) -> is_Some (cf_SnapshotRetention c) -> is_Some (cf_L0Retention c) -> is_Some (cf_L0RetentionCheckInterval c) ->
  Config_Validate c = Ok () -> config_ok c.
Proof.
  intros Hs1 Hs2 Hs3 Hs4. unfold Config_Validate. destruct (nonpositive (cf_SnapshotInterval c)) eqn:E1; [done|].
  destruct (nonpositive (cf_SnapshotRetention c)) eqn:E2; [done|]. destruct (nonpositive (cf_L0Retention c)) eqn:E3; [done|].
  destruct (nonpositive (cf_L0RetentionCheckInterval c)) eqn:E4; [done|].
  destruct (match cf_ShutdownSyncTimeout c with Some _ => _ | None => _ end) eqn:E5; [done|].
  destruct (nonpositive (cf_ShutdownSyncInterval c)) eqn:E6; [done|]. destruct (nonempty _ && _) eqn:E7; [done|].
  destruct (match cf_HeartbeatInterval c with Some _ => _ | None => _ end) eqn:E8; [done|]. unfold validate_levels.
  destruct (existsb _ _) eqn:E9; [done|]. cbn [mbind result_bind]. intros HD. constructor.
  - split; by apply positive_some.
  - split; by apply positive_some.
  - split; [intros v Hv; rewrite Hv in E5; lia|by apply nonpositive_false].
  - split; [intros Hn%nonempty_true; rewrite Hn in E7; by apply negb_false_iff in E7|].
    intros v Hv. rewrite Hv in E8. unfold MinHeartbeatInterval in E8. lia.
  - apply existsb_false in E9. eapply Forall_impl; [exact E9|]. cbn. intros. lia.
  - by apply validate_dbs_ok.
Qed.

Lemma set_replica_defaults_idem g rc : set_replica_defaults g (set_replica_defaults g rc) = set_replica_defaults g rc.
Proof. unfold set_replica_defaults. cbn. f_equal. apply settings_layer. exact g. Qed.

Lemma propagate_idem c : propagateGlobalSettings (propagateGlobalSettings c) = propagateGlobalSettings c.
Proof.
  unfold propagateGlobalSettings. cbn. unfold set_DBs. cbn. f_equal. rewrite <- list_fmap_compose. apply list_fmap_ext. intros _ d _. unfold set_replicas. cbn. f_equal.
  - destruct (dc_Replica d); cbn; [|done]. by rewrite set_replica_defaults_idem.
  - rewrite <- list_fmap_compose. apply list_fmap_ext. intros _ r _. apply set_replica_defaults_idem.
Qed.

(** The levels of a configuration. *)
Lemma Config_levels_lookup c i : Config_CompactionLevels c !! S i = mkLevel (Z.of_nat i + 1) <$> cf_Levels c !! i.
Proof. exact (list_lookup_imap (fun (i : nat) (interval : duration) => mkLevel (Z.of_nat i + 1) interval) (cf_Levels c) i). Qed.
Lemma Config_levels_valid c :
  Forall (fun i => 0 < i) (cf_Levels c) -> (Validate (Config_CompactionLevels c) = Ok () <-> (length (cf_Levels c) <= 8)%nat).
Proof.
  intros Hp. rewrite Validate_correct. split.
  - intros [_ H]. destruct (decide (cf_Levels c = [])) as [->|Hne]; [cbn; lia|].
    assert (is_Some (cf_Levels c !! (length (cf_Levels c) - 1)%nat)) as [i Hi] by (apply lookup_lt_is_Some; destruct (cf_Levels c); [done|cbn; lia]).
    specialize (H (S (length (cf_Levels c) - 1))). rewrite Config_levels_lookup, Hi in H. specialize (H _ eq_refl). unfold level_ok in H. lia.
  - intros Hl. split; [done|]. intros [|i] lvl; [intros [= <-]; unfold level_ok; cbn; lia|]. rewrite Config_levels_lookup.
    destruct (cf_Levels c !! i) as [v|] eqn:Hi; [|done]. intros [= <-]. pose proof (lookup_lt_Some _ _ _ Hi). unfold level_ok. cbn [lvl_Level Interval].
    assert (0 < v) by (by eapply Forall_lookup_1 in Hi). lia.
Qed.

Section ParseTheorems.
Variable yaml_Unmarshal : str -> Config -> result Config.
Variable yaml_Secrets : str -> result (list SecretConfig).
Variable secret_Boot : str -> list str -> result (gmap str str).
Variable os_Expand : str -> (str -> str) -> str.
Variable getenv : str -> str.
Variable pid : str.
Variables cwd home : result str.

Lemma normalize_paths_abs dbs dbs' :
  (forall d, cwd = Ok d -> HasPrefix d [slash] = true) -> (forall h, home = Ok h -> h <> [] -> HasPrefix h [slash] = true) ->
  normalize_paths cwd home dbs = Ok dbs' -> Forall (fun d => dc_Path d = [] \/ HasPrefix (dc_Path d) [slash] = true) dbs'.
Proof.
  intros Hc Hh. revert dbs'. induction dbs as [|d dbs IH]; intros dbs'; cbn [normalize_paths]; [by intros [= <-]|].
  destruct (nonempty (dc_Path d)) eqn:HP; [destruct (expand cwd home (dc_Path d)) as [p|e|m] eqn:E|]; cbn [mbind result_bind]; [|done..|].
  all: destruct (normalize_paths cwd home dbs) as [rest|e|m]; cbn [mbind result_bind]; [|done..]; intros [= <-]; constructor; [|by apply IH].
  - right. cbn. by apply (expand_absolute cwd home (dc_Path d)).
  - left. unfold nonempty in HP. by apply negb_false_iff, bool_decide_eq_true in HP.
Qed.

(** A configuration that is read without an error is one the program can run with: its
    snapshot and level-0 settings are there and every duration in it is in range, every database is
    either an absolute path or a directory with a pattern, every replica has the global defaults
    (propagating them again changes nothing), and its compaction levels are accepted by the
    store exactly when there are at most eight. *)
Theorem ParseConfig_valid buf expandEnv c :
  (forall d, cwd = Ok d -> HasPrefix d [slash] = true) -> (forall h, home = Ok h -> h <> [] -> HasPrefix h [slash] = true) ->
  ParseConfig yaml_Unmarshal yaml_Secrets secret_Boot os_Expand getenv pid cwd home buf expandEnv = Ok c ->
  config_ok c /\ Forall (fun d => dc_Path d = [] \/ HasPrefix (dc_Path d) [slash] = true) (cf_DBs c) /\
  propagateGlobalSettings c = c /\ (Validate (Config_CompactionLevels c) = Ok () <-> (length (cf_Levels c) <= 8)%nat).
Proof.
  intros Hc Hh. unfold ParseConfig. destruct buf as [b|e|m]; cbn [mbind result_bind]; [|done..].
  destruct (if expandEnv then _ else _) as [b'|e|m]; cbn [mbind result_bind]; [|done..].
  destruct (yaml_Unmarshal b' DefaultConfig) as [c0|e|m]; cbn [mbind result_bind]; [|done..].
  destruct (normalize_paths _ _ _) as [dbs|e|m] eqn:EN; cbn [mbind result_bind]; [|done..]. apply normalize_paths_abs in EN; [|done..].
  destruct (Config_Validate _) as [[]|e|m] eqn:EV; cbn [mbind result_bind]; [|done..]. intros [= <-].
  assert (config_ok (propagateGlobalSettings (set_DBs dbs (restore_defaults c0)))) as Hok.
  { apply Config_Validate_ok; [..|exact EV]; cbn; unfold or_opt; [by destruct (cf_SnapshotInterval c0)|by destruct (cf_SnapshotRetention c0)|
      by destruct (cf_L0Retention c0)|by destruct (cf_L0RetentionCheckInterval c0)]. }
  split; [done|]. split; [|split; [apply propagate_idem|apply Config_levels_valid, Hok]].
  cbn. rewrite Forall_fmap. eapply Forall_impl; [exact EN|]. done.
Qed.

(** A secret of a later store hides the one of an earlier store and both hide the environment;
    a failing store stops the program before anything is expanded. *)
Theorem secrets_first stores vals all key :
  read_secrets secret_Boot stores vals = Ok all ->
  (forall store got v, In store stores -> secret_Boot (sc_Path store) (sc_Keys store) = Ok got -> got !! key = Some v ->
     exists v', all !! key = Some v' /\ expand_name getenv pid all key = v') /\
  ((forall store got, In store stores -> secret_Boot (sc_Path store) (sc_Keys store) = Ok got -> got !! key = None) -> all !! key = vals !! key) /\
  Forall (fun store => exists got, secret_Boot (sc_Path store) (sc_Keys store) = Ok got) stores.
Proof.
  intros H. assert (Hgot : (forall v, vals !! key = Some v -> is_Some (all !! key)) /\
    (forall store got v, In store stores -> secret_Boot (sc_Path store) (sc_Keys store) = Ok got -> got !! key = Some v -> is_Some (all !! key)) /\
    ((forall store got, In store stores -> secret_Boot (sc_Path store) (sc_Keys store) = Ok got -> got !! key = None) -> all !! key = vals !! key) /\
    Forall (fun store => exists got, secret_Boot (sc_Path store) (sc_Keys store) = Ok got) stores).
  { revert vals H. induction stores as [|s stores IH]; intros vals; cbn [read_secrets]; [intros [= <-]; split_and!; [by intros v ->|by intros|done|constructor]|].
    destruct (secret_Boot (sc_Path s) (sc_Keys s)) as [got|e|m] eqn:E; cbn [mbind result_bind]; [|done..]. intros H.
    destruct (IH _ H) as (H1 & H2 & H3 & H4). split_and!.
    - intros v Hv. destruct (got !! key) as [w|] eqn:Eg; eapply H1; rewrite lookup_union, Eg, Hv; reflexivity.
    - intros store got' v [->|Hin] Eg Hv; [|by eapply H2]. rewrite Eg in E. injection E as ->. eapply H1. rewrite lookup_union, Hv. by destruct (vals !! key).
    - intros Hn. rewrite H3; [|intros; eapply Hn; [by right|done]]. rewrite lookup_union, (Hn s got) by first [by left|done]. by destruct (vals !! key).
    - constructor; [by eexists|done]. }
  destruct Hgot as (_ & H2 & H3 & H4). split_and!; [|done..].
  intros store got v Hin Eg Hv. destruct (H2 _ _ _ Hin Eg Hv) as [v' Hv']. exists v'. split; [done|]. unfold expand_name. by rewrite Hv'.
Qed.
End ParseTheorems.

(** ** A configuration of one database *)
Module ConfigDemo.
Definition app_db : DBConfig := mkDBConfig (lit "app.db") [] [] false false None None None None None None false (Some (mkReplicaConfig no_settings [] [] (lit "/backup") [])) [].
Definition decode (dbs : list DBConfig) (_ : str) (c : Config) : result Config := Ok (set_DBs dbs c).
Definition parse (dbs : list DBConfig) : result Config :=
  ParseConfig (decode dbs) (fun _ => Ok []) (fun _ _ => Ok ∅) (fun s _ => s) (fun _ => []) [] (Ok (lit "/srv")) (Ok []) (Ok []) true.

Example parse_relative : (c ← parse [app_db]; Ok (dc_Path <$> cf_DBs c, length (Config_CompactionLevels c))) = Ok ([lit "/srv/app.db"], 4%nat).
Proof. vm_compute. reflexivity. Qed.
Example parse_both : exists e, parse [mkDBConfig (lit "app.db") (lit "data") [] false false None None None None None None false None []] = Err e.
Proof. eexists. vm_compute. reflexivity. Qed.

(** Null values in the configuration file switch the retries of the shutdown off:
    their defaults do not come back. *)
Definition decode_null (_ : str) (c : Config) : result Config :=
  Ok (mkConf (cf_Settings c) (cf_Levels c) None None (cf_ValidationInterval c) None None (cf_VerifyCompaction c) (cf_RetentionEnabled c)
        (cf_HeartbeatURL c) (cf_HeartbeatInterval c) [] (cf_Exec c) None None).
Theorem shutdown_defaults_lost :
  exists c, ParseConfig decode_null (fun _ => Ok []) (fun _ _ => Ok ∅) (fun s _ => s) (fun _ => []) [] (Ok (lit "/srv")) (Ok []) (Ok []) true = Ok c /\
    cf_SnapshotInterval c = Some (24 * Hour) /\ cf_L0Retention c = Some DefaultL0Retention /\ cf_ShutdownSyncTimeout c = None /\ cf_ShutdownSyncInterval c = None.
Proof. eexists. split; [vm_compute; reflexivity|]. done. Qed.
End ConfigDemo.

Lemma ParseConfig_valid_witness : exists c, ConfigDemo.parse [ConfigDemo.app_db] = Ok c /\ config_ok c /\ Validate (Config_CompactionLevels c) = Ok ().
Proof.
  assert (match ConfigDemo.parse [ConfigDemo.app_db] with Ok c => length (cf_Levels c) = 3%nat | _ => False end) as Hok by (vm_compute; reflexivity).
  unfold ConfigDemo.parse in *.
  destruct (ParseConfig _ _ _ _ _ _ _ _ _ _) as [c|e|m] eqn:E; [|destruct Hok|destruct Hok]. exists c. split; [reflexivity|].
  assert (forall d : str, Ok (lit "/srv") = Ok d -> HasPrefix d [slash] = true) as Hd by (intros d Hx; injection Hx as <-; reflexivity).
  assert (forall h : str, Ok ([] : str) = Ok h -> h <> [] -> HasPrefix h [slash] = true) as Hh by (intros h Hx; injection Hx as <-; intros Hx; destruct (Hx eq_refl)).
  destruct (ParseConfig_valid _ _ _ _ _ _ _ _ _ _ c Hd Hh E) as (H1 & _ & _ & H2). split; [exact H1|]. apply H2. rewrite Hok. lia.
Defined.
