(* ===== verification/Directory.v ===== *)
(** * Directories of databases

    Model of the directory part of src/cmd/replicate/main.go: databases made from the
    configuration, the search for databases below a directory, and the metadata and replica paths
    they are given. *)

From Stdlib Require Import ZArith Lia Ascii String Strings.Byte.
From stdpp Require Import base numbers list strings gmap sorting.
From S2P Require Import Prelude Ltx V3 Urls S3Config ReplicaConfig Config.
Local Open Scope Z_scope.

(** ** Paths of the operating system *)

(** [filepath.Split]: the directory with its last separator, and the file. *)
Fixpoint filepath_Split (p : str) : str * str :=
  match p with
  | [] => ([], [])
  | c :: p =>
      let '(dir, file) := filepath_Split p in
      if bool_decide (dir = []) && negb (bool_decide (c = slash)) then ([], c :: file) else (c :: dir, file)
  end.

(** [filepath.Rel], by the elements of the two paths. *)
Definition elems (p : str) : list str := filter (fun w => nonempty w = true) (split slash p).
Fixpoint rel_elems (base targ : list str) : result (list str) :=
  match base, targ with
  | b :: base', t :: targ' =>
      if bool_decide (b = t) then rel_elems base' targ'
      else if bool_decide (b = dotdot) then Err (EMsg "Rel: can't make target relative to base")
      else Ok (((fun _ => dotdot) <$> base) ++ targ)
  | _, _ => Ok (((fun _ => dotdot) <$> base) ++ targ)
  end.
Definition filepath_Rel (basepath targpath : str) : result str :=
  let base := path_Clean basepath in
  let targ := path_Clean targpath in
  if bool_decide (targ = base) then Ok dot else
  let base := if bool_decide (base = dot) then [] else base in
  if negb (eqb (HasPrefix base [slash]) (HasPrefix targ [slash])) then Err (EMsg "Rel: can't make target relative to base")
  else r ← rel_elems (elems base) (elems targ); Ok (join slash r).

(** [filepath.Match], on single-byte characters. *)
Inductive tok := TStar | TAny | TLit (c : ascii) | TClass (negated : bool) (ranges : list (ascii * ascii)).
Definition ErrBadPattern : error := EVar "syntax error in pattern".
Definition is_char (c : ascii) (k : nat) : bool := (nat_of_ascii c =? k)%nat.
(** One character of a class, possibly escaped; more must follow. *)
Definition getEsc (p : str) : result (ascii * str) :=
  match p with
  | [] => Err ErrBadPattern
  | c :: p =>
      if is_char c 45 || is_char c 93 then Err ErrBadPattern else
      '(c, p) ← (if is_char c 92 then match p with [] => Err ErrBadPattern | c :: p => Ok (c, p) end else Ok (c, p));
      if bool_decide (p = []) then Err ErrBadPattern else Ok (c, p)
  end.
Fixpoint class_ranges (fuel : nat) (p : str) (ranges : list (ascii * ascii)) : result (list (ascii * ascii) * str) :=
  match fuel with
  | O => Err ErrBadPattern
  | S fuel =>
      match p with
      | c :: p' => if is_char c 93 && negb (bool_decide (ranges = [])) then Ok (ranges, p') else
          '(lo, p) ← getEsc p;
          '(hi, p) ← match p with d :: p' => if is_char d 45 then getEsc p' else Ok (lo, p) | [] => Ok (lo, p) end;
          class_ranges fuel p (ranges ++ [(lo, hi)])
      | [] => Err ErrBadPattern
      end
  end.
Fixpoint parse_pattern (fuel : nat) (p : str) : result (list tok) :=
  match fuel with
  | O => Ok []
  | S fuel =>
      match p with
      | [] => Ok []
      | c :: p =>
          if is_char c 42 then ts ← parse_pattern fuel p; Ok (TStar :: ts)
          else if is_char c 63 then ts ← parse_pattern fuel p; Ok (TAny :: ts)
          else if is_char c 91 then
            let negated := match p with d :: _ => is_char d 94 | [] => false end in
            '(ranges, p) ← class_ranges (S (length p)) (if negated then drop 1 p else p) [];
            ts ← parse_pattern fuel p; Ok (TClass negated ranges :: ts)
          else if is_char c 92 then
            match p with [] => Err ErrBadPattern | c :: p => ts ← parse_pattern fuel p; Ok (TLit c :: ts) end
          else ts ← parse_pattern fuel p; Ok (TLit c :: ts)
      end
  end.
Definition in_range (c : ascii) (r : ascii * ascii) : bool :=
  ((nat_of_ascii r.1 <=? nat_of_ascii c) && (nat_of_ascii c <=? nat_of_ascii r.2))%nat.
Fixpoint match_toks (ts : list tok) (s : str) {struct ts} : bool :=
  match ts with
  | [] => bool_decide (s = [])
  | TStar :: ts =>
      (fix star (s : str) : bool := match_toks ts s || match s with c :: s => negb (bool_decide (c = slash)) && star s | [] => false end) s
  | t :: ts =>
      match s with
      | [] => false
      | c :: s =>
          match t with
          | TLit d => bool_decide (c = d)
          | TClass negated ranges => negb (eqb (existsb (in_range c) ranges) negated)
          | _ => negb (bool_decide (c = slash))
          end && match_toks ts s
      end
  end.
Definition filepath_Match (pattern name : str) : result bool :=
  ts ← parse_pattern (length pattern) pattern; Ok (match_toks ts name).

(** ** Finding databases *)

(** What a walk sees below a path: something that is not a directory and what opening and reading it
    gives, a directory with its entries ordered by name, a directory that cannot be read, or an
    entry that cannot be examined. *)
Inductive node := NFile (contents : result str) | NDir (names : entries) | NUnreadable (e : error) | NBad (e : error)
with entries := ENil | ECons (name : str) (n : node) (names : entries).

Definition sqlite_magic : str := lit "SQLite format 3" ++ [ascii_of_nat 0].
(** [IsSQLiteDatabase]: the first read fills a zeroed buffer of 16 bytes. *)
Definition IsSQLiteDatabase (contents : result str) : bool :=
  match contents with
  | Ok s => if bool_decide (s = []) then false
            else bool_decide (take 16 s ++ replicate (16 - length (take 16 s)) (ascii_of_nat 0) = sqlite_magic)
  | _ => false
  end.

(** [filepath.Walk] with the callback of [FindSQLiteDatabases]: the callback sees an error first. *)
Fixpoint walk (dir pattern : str) (recursive : bool) (path : str) (n : node) : result (list str) :=
  match n with
  | NFile contents =>
      matched ← filepath_Match pattern (path_Base path);
      Ok (if negb matched then [] else if IsSQLiteDatabase contents then [path] else [])
  | NDir names => if negb recursive && negb (bool_decide (path = dir)) then Ok [] else walk_names dir pattern recursive path names
  | NUnreadable e | NBad e => Err e
  end
with walk_names (dir pattern : str) (recursive : bool) (path : str) (names : entries) : result (list str) :=
  match names with
  | ENil => Ok []
  | ECons name n names =>
      l ← walk dir pattern recursive (path_Join [path; name]) n; rest ← walk_names dir pattern recursive path names; Ok (l ++ rest)
  end.
Definition FindSQLiteDatabases (root : node) (dir pattern : str) (recursive : bool) : result (list str) :=
  walk dir pattern recursive dir root.

(** ** Databases *)

Definition MetaDirSuffix : str := lit "-replicate".
Definition meta_name (file : str) : str := lit "." ++ file ++ MetaDirSuffix.

Section DBs.
Context {replica : Type}.
Variable url_Parse : str -> result URL.
Variable url_String : URL -> str.
Variable ParseQuery : str -> result (string -> str).
Variables cwd home : result str.
Variable NewReplica : ReplicaConfig -> result replica.

(** The part of a database that the configuration determines. *)
Record DB := mkDB {
  db_path : str; db_metaPath : str; db_MonitorInterval : Z; db_CheckpointInterval : Z; db_BusyTimeout : Z; db_MinCheckpointPageN : Z;
  db_TruncatePageN : Z; db_Replica : option replica
}.
Definition NewDB (path : str) : DB :=
  let '(dir, file) := filepath_Split path in
  mkDB path (path_Join [dir; meta_name file]) Second Minute Second 1000 121359 None.

Definition NewDBFromConfig (dbc : DBConfig) : result DB :=
  configPath ← expand cwd home (dc_Path dbc);
  let db := NewDB configPath in
  metaPath ← match dc_MetaPath dbc with
             | Some p => expand cwd home p wrapping "failed to expand meta path"
             | None => Ok (db_metaPath db)
             end;
  rc ← match dc_Replica dbc, dc_Replicas dbc with
       | None, [] => Err (EMsg "must specify replica for database")
       | Some _, _ :: _ => Err (EMsg "cannot specify 'replica' and 'replicas' on a database")
       | None, _ :: _ :: _ => Err (EMsg "multiple replicas on a single database are no longer supported")
       | Some rc, [] => Ok rc
       | None, [rc] => Ok rc
       end;
  r ← NewReplica rc;
  Ok (mkDB configPath metaPath (default (db_MonitorInterval db) (dc_MonitorInterval dbc)) (default (db_CheckpointInterval db) (dc_CheckpointInterval dbc))
        (default (db_BusyTimeout db) (dc_BusyTimeout dbc)) (default (db_MinCheckpointPageN db) (dc_MinCheckpointPageN dbc))
        (default (db_TruncatePageN db) (dc_TruncatePageN dbc)) (Some r)).

(** ** Databases of a directory *)

Definition appendRelativePathToURL (u : URL) (relPath : str) : URL :=
  let cleanRel := TrimPrefix relPath [slash] in
  if bool_decide (cleanRel = []) || bool_decide (cleanRel = dot) then u else
  let joined := if bool_decide (u_Path u = []) then cleanRel else path_Join [u_Path u; cleanRel] in
  mkURL (u_Scheme u) (u_User u) (u_Host u) (slash :: TrimPrefix joined [slash]) (u_Query u) (u_bare u).

Definition set_rc_Path (p : str) (c : ReplicaConfig) : ReplicaConfig := mkReplicaConfig (rc_Settings c) (rc_Type c) (rc_Name c) p (rc_URL c).
Definition set_rc_URL (u : str) (c : ReplicaConfig) : ReplicaConfig := mkReplicaConfig (rc_Settings c) (rc_Type c) (rc_Name c) (rc_Path c) u.

(** File and object paths are joined alike where the separator is a slash. *)
Definition cloneReplicaConfigWithRelativePath (base : ReplicaConfig) (relPath : str) : result ReplicaConfig :=
  if bool_decide (relPath = []) || bool_decide (relPath = dot) then Ok base
  else if nonempty (rc_URL base) then
    u ← url_Parse (rc_URL base) wrapping "parse replica url";
    Ok (set_rc_URL (url_String (appendRelativePathToURL u relPath)) base)
  else Ok (set_rc_Path (if nonempty (rc_Path base) then path_Join [rc_Path base; relPath] else relPath) base).

Definition deriveMetaPathForDirectoryEntry (basePath relPath : str) : str :=
  let relPath := path_Clean relPath in
  if bool_decide (relPath = dot) || bool_decide (relPath = []) then basePath else
  let '(relDir, relFile) := filepath_Split relPath in
  if bool_decide (relFile = []) || bool_decide (relFile = dot) then path_Join [basePath; relPath]
  else path_Join [basePath; relDir; meta_name relFile].

Fixpoint clone_all (l : list ReplicaConfig) (relPath : str) : result (list ReplicaConfig) :=
  match l with
  | [] => Ok []
  | rc :: l => rc ← cloneReplicaConfigWithRelativePath rc relPath wrapping "failed to configure replica"; rest ← clone_all l relPath; Ok (rc :: rest)
  end.

Definition newDBFromDirectoryEntry (dbc : DBConfig) (dirPath dbPath : str) : result DB :=
  relPath ← filepath_Rel dirPath dbPath wrapping "failed to calculate relative path";
  metaPath ← match dc_MetaPath dbc with
             | Some p => baseMetaPath ← expand cwd home p wrapping "failed to expand meta path"; Ok (Some (deriveMetaPathForDirectoryEntry baseMetaPath relPath))
             | None => Ok None
             end;
  rc ← match dc_Replica dbc with
       | Some rc => rc ← cloneReplicaConfigWithRelativePath rc relPath wrapping "failed to configure replica"; Ok (Some rc)
       | None => Ok None
       end;
  rcs ← clone_all (dc_Replicas dbc) relPath;
  NewDBFromConfig (mkDBConfig dbPath [] [] false false metaPath (dc_MonitorInterval dbc) (dc_CheckpointInterval dbc) (dc_BusyTimeout dbc)
    (dc_MinCheckpointPageN dbc) (dc_TruncatePageN dbc) (dc_RestoreIfDBNotExists dbc) rc rcs).

(** The metadata paths seen so far are the keys of [metaPaths]. *)
Fixpoint new_dbs (dbc : DBConfig) (dirPath : str) (dbPaths : list str) (metaPaths : gmap str str) : result (list DB) :=
  match dbPaths with
  | [] => Ok []
  | dbPath :: dbPaths =>
      db ← newDBFromDirectoryEntry dbc dirPath dbPath wrapping "failed to create DB";
      let mp := db_metaPath db in
      if nonempty mp && bool_decide (is_Some (metaPaths !! mp)) then Err (EMsg "meta-path collision") else
      rest ← new_dbs dbc dirPath dbPaths (if nonempty mp then <[mp := dbPath]> metaPaths else metaPaths);
      Ok (db :: rest)
  end.
Definition NewDBsFromDirectoryConfig (fs : str -> node) (dbc : DBConfig) : result (list DB) :=
  if bool_decide (dc_Dir dbc = []) then Err (EMsg "directory path is required for directory replication")
  else if bool_decide (dc_Pattern dbc = []) then Err (EMsg "pattern is required for directory replication") else
  dirPath ← expand cwd home (dc_Dir dbc);
  dbPaths ← FindSQLiteDatabases (fs dirPath) dirPath (dc_Pattern dbc) (dc_Recursive dbc) wrapping "failed to scan directory";
  if bool_decide (dbPaths = []) && negb (dc_Watch dbc) then Err (EMsg "no SQLite databases found in directory") else
  new_dbs dbc dirPath dbPaths ∅.
End DBs.
Arguments DB : clear implicits.

(** ** Cleaned paths *)

Definition abs (ws : list str) : str := slash :: join slash ws.
(** The elements of a rooted path. *)
Definition root_elems (p : str) : list str := rev (clean_elems true [] (split slash p)).

Lemma clean_elems_app rooted stack a b : clean_elems rooted stack (a ++ b) = clean_elems rooted (clean_elems rooted stack a) b.
Proof.
  revert stack. induction a as [|w a IH]; intros stack; cbn [app clean_elems]; [done|]. rewrite !IH.
  repeat (case_bool_decide; cbn [orb]; try done). destruct stack as [|t rest]; [done|]. by case_bool_decide.
Qed.
Lemma split_sep_app sep a b : split sep (a ++ sep :: b) = split sep a ++ split sep b.
Proof.
  induction a as [|c a IH]; cbn [app split]; [by rewrite bool_decide_eq_true_2|]. rewrite IH. case_bool_decide; [done|].
  pose proof (split_ne sep a). by destruct (split sep a).
Qed.
Lemma clean_no_sep rooted stack ws : Forall (no_sep slash) stack -> Forall (no_sep slash) ws -> Forall (no_sep slash) (clean_elems rooted stack ws).
Proof.
  revert stack. induction ws as [|w ws IH]; intros stack Hs Hw; cbn [clean_elems]; [done|]. apply Forall_cons in Hw as [Hw Hws].
  repeat case_bool_decide; cbn [orb]; try (by apply IH); try (by apply IH; [constructor|]).
  destruct stack as [|t rest]; [by apply IH; [destruct rooted; repeat constructor|]|]. apply Forall_cons in Hs as [Ht Hr].
  case_bool_decide; apply IH; try done; by repeat constructor.
Qed.
Lemma safe_no_sep ws : Forall safe_elem ws -> Forall (no_sep slash) ws.
Proof. intros H. eapply Forall_impl; [exact H|]. by intros w (_ & _ & _ & ?). Qed.
Lemma join_inj a b : Forall (no_sep slash) a -> Forall (no_sep slash) b -> a <> [] -> b <> [] -> join slash a = join slash b -> a = b.
Proof. intros Ha Hb Hna Hnb E. rewrite <- (split_join slash a), <- (split_join slash b) by done. by rewrite E. Qed.
Lemma join_safe_ne ws : ws <> [] -> Forall safe_elem ws -> join slash ws <> [].
Proof. destruct ws as [|w ws]; [done|]. intros _ [(H & _) _]%Forall_cons. destruct ws; [done|]. rewrite join_cons by done. by destruct w. Qed.
Lemma abs_inj a b : Forall safe_elem a -> Forall safe_elem b -> abs a = abs b -> a = b.
Proof.
  intros Ha Hb [= E]. destruct (decide (a = [])) as [->|Hna], (decide (b = [])) as [->|Hnb]; [done|..].
  - symmetry in E. by apply join_safe_ne in E.
  - by apply join_safe_ne in E.
  - apply join_inj; try done; by apply safe_no_sep.
Qed.

Lemma root_elems_safe p : Forall safe_elem (root_elems p).
Proof. apply Forall_rev, clean_elems_safe; [constructor|apply split_no_sep]. Qed.
Lemma path_Clean_abs p : HasPrefix p [slash] = true -> path_Clean p = abs (root_elems p).
Proof. intros Hp. unfold path_Clean. rewrite Hp. rewrite bool_decide_eq_false_2 by (by intros ->). done. Qed.
Lemma split_abs ws : ws <> [] -> Forall safe_elem ws -> split slash (abs ws) = [] :: ws.
Proof. intros Hn Hs. unfold abs. cbn [split]. rewrite bool_decide_eq_true_2 by done. rewrite split_join; [done|done|by apply safe_no_sep]. Qed.
Lemma root_elems_abs ws : Forall safe_elem ws -> root_elems (abs ws) = ws.
Proof.
  intros Hs. destruct (decide (ws = [])) as [->|Hn]; [by vm_compute|]. unfold root_elems. rewrite split_abs by done. cbn [clean_elems].
  rewrite bool_decide_eq_true_2 by done. cbn [orb]. by rewrite clean_elems_id, app_nil_r, rev_involutive.
Qed.
Lemma abs_rooted ws : HasPrefix (abs ws) [slash] = true.
Proof. by apply HasPrefix_app; eexists. Qed.

(** A path below a base, whatever the base. *)
Definition base_elems (base : str) : list str := rev (clean_elems (HasPrefix base [slash]) [] (split slash base)).
Definition dest (base : str) (ws : list str) : str :=
  if nonempty base then (if HasPrefix base [slash] then [slash] else []) ++ join slash (base_elems base ++ ws) else join slash ws.
Lemma base_elems_no_sep base : Forall (no_sep slash) (base_elems base).
Proof. apply Forall_rev, clean_no_sep; [constructor|apply split_no_sep]. Qed.
Lemma HasPrefix_slash_app base s : base <> [] -> HasPrefix (base ++ s) [slash] = HasPrefix base [slash].
Proof. by destruct base. Qed.
Lemma path_Join_dest base ws : base <> [] -> ws <> [] -> Forall safe_elem ws -> path_Join [base; join slash ws] = dest base ws.
Proof.
  intros Hb Hn Hs. unfold path_Join. rewrite filter_cons_True by (by apply nonempty_true). rewrite filter_cons_True by (by apply nonempty_true, join_safe_ne).
  rewrite filter_nil. cbn [join]. unfold path_Clean. rewrite bool_decide_eq_false_2 by (by destruct base).
  rewrite HasPrefix_slash_app, split_sep_app, split_join, clean_elems_app, clean_elems_id, rev_app_distr, rev_involutive by first [done|by apply safe_no_sep].
  unfold dest. rewrite (proj2 (nonempty_true base)) by done. unfold base_elems. destruct (HasPrefix base [slash]); [done|].
  rewrite bool_decide_eq_false_2; [done|]. intros [_ ?]%app_eq_nil. done.
Qed.
Lemma path_Join_abs p ws : HasPrefix p [slash] = true -> ws <> [] -> Forall safe_elem ws -> path_Join [p; join slash ws] = abs (root_elems p ++ ws).
Proof.
  intros Hp Hn Hs. assert (p <> []) as Hne by (by intros ->). rewrite path_Join_dest by done. unfold dest, base_elems. rewrite Hp.
  by rewrite (proj2 (nonempty_true p)).
Qed.

(** Destinations below one base are distinct, and none is a directory of another, when the
    relative paths are so. *)
Definition under (p q : str) : Prop := q = p \/ exists s, q = p ++ slash :: s.
Lemma join_app ws1 ws2 : ws1 <> [] -> ws2 <> [] -> join slash (ws1 ++ ws2) = join slash ws1 ++ slash :: join slash ws2.
Proof.
  induction ws1 as [|w ws1 IH]; [done|]. intros _ H2. destruct ws1 as [|w' ws1]; [cbn [app]; by rewrite (join_cons _ w ws2)|].
  change ((w :: w' :: ws1) ++ ws2) with (w :: ((w' :: ws1) ++ ws2)). rewrite join_cons by done. rewrite IH by done.
  rewrite (join_cons _ w (w' :: ws1)) by done. by rewrite <- app_assoc.
Qed.
Lemma join_prefix a b s : a <> [] -> Forall (no_sep slash) a -> Forall (no_sep slash) b -> b <> [] -> join slash b = join slash a ++ slash :: s -> a `prefix_of` b.
Proof.
  intros Hna Ha Hb Hnb E. apply (f_equal (split slash)) in E. rewrite split_sep_app, !split_join in E by done. by exists (split slash s).
Qed.
Lemma dest_under base ws ws' : ws <> [] -> ws' <> [] -> Forall safe_elem ws -> Forall safe_elem ws' -> under (dest base ws) (dest base ws') -> ws `prefix_of` ws'.
Proof.
  intros Hn Hn' Hs%safe_no_sep Hs'%safe_no_sep. pose proof (base_elems_no_sep base) as HB.
  assert (join slash (base_elems base ++ ws') = join slash (base_elems base ++ ws) \/
    (exists s, join slash (base_elems base ++ ws') = join slash (base_elems base ++ ws) ++ slash :: s) -> ws `prefix_of` ws') as Hgo.
  { assert (base_elems base ++ ws <> [] /\ base_elems base ++ ws' <> []) as [H1 H2] by (split; by intros [_ ?]%app_eq_nil).
    intros [E|[s E]].
    - apply join_inj in E; [|apply Forall_app; by split|apply Forall_app; by split|done|done]. apply app_inv_head in E. by subst.
    - apply join_prefix in E; [|done|apply Forall_app; by split|apply Forall_app; by split|done]. destruct E as [k E]. rewrite <- app_assoc in E. apply app_inv_head in E. by exists k. }
  unfold dest, under. destruct (nonempty base).
  - destruct (HasPrefix base [slash]); cbn [app]; intros [E|[s E]]; apply Hgo; [left; by injection E|right; exists s; by injection E|by left|right; by exists s].
  - intros [E|[s E]]; [apply join_inj in E; try done; by subst|by apply join_prefix in E].
Qed.

(** ** Relative paths, files and their metadata *)

Lemma elems_abs ws : Forall safe_elem ws -> elems (abs ws) = ws.
Proof.
  intros Hs. destruct (decide (ws = [])) as [->|Hn]; [by vm_compute|]. unfold elems. rewrite split_abs by done. rewrite filter_cons_False by done.
  induction Hs as [|w ws (Hw & _) _ IH]; [done|]. rewrite filter_cons_True by (by apply nonempty_true). f_equal.
  destruct (decide (ws = [])) as [->|]; [done|by apply IH].
Qed.
Lemma rel_elems_app a ws : rel_elems a (a ++ ws) = Ok ws.
Proof. induction a as [|w a IH]; cbn; [by destruct ws|]. by rewrite bool_decide_eq_true_2. Qed.

Lemma filepath_Rel_below dir ws :
  HasPrefix dir [slash] = true -> ws <> [] -> Forall safe_elem ws -> filepath_Rel dir (abs (root_elems dir ++ ws)) = Ok (join slash ws).
Proof.
  intros Hd Hn Hs. pose proof (root_elems_safe dir) as HD. assert (Forall safe_elem (root_elems dir ++ ws)) as HDs by (apply Forall_app; by split).
  unfold filepath_Rel. rewrite (path_Clean_abs dir), (path_Clean_abs (abs _)), root_elems_abs by first [done|apply abs_rooted].
  rewrite bool_decide_eq_false_2.
  2:{ intros E%abs_inj; [|done|done]. apply (f_equal length) in E. rewrite length_app in E. destruct ws; [done|]. cbn in E. lia. }
  rewrite bool_decide_eq_false_2 by done. rewrite !abs_rooted. cbn [eqb negb]. rewrite !elems_abs by done. by rewrite rel_elems_app.
Qed.

Lemma Split_app w s : filepath_Split (w ++ slash :: s) = (w ++ slash :: (filepath_Split s).1, (filepath_Split s).2).
Proof.
  induction w as [|c w IH]; cbn [app filepath_Split].
  - destruct (filepath_Split s) as [d f]. by rewrite (bool_decide_eq_true_2 (slash = slash)), andb_false_r.
  - rewrite IH. rewrite bool_decide_eq_false_2 by (by destruct w). done.
Qed.
Lemma Split_file f : no_sep slash f -> filepath_Split f = ([], f).
Proof.
  intros Hf. induction f as [|c f IH]; [done|]. cbn [filepath_Split]. rewrite IH by (intros ?; apply Hf; by right).
  rewrite bool_decide_eq_true_2 by done. by rewrite bool_decide_eq_false_2 by (intros ->; apply Hf; by left).
Qed.
(** The directory of a relative path, with its separator. *)
Definition dir_part (ds : list str) : str := match ds with [] => [] | _ => join slash ds ++ [slash] end.
Lemma Split_join ds f : no_sep slash f -> filepath_Split (join slash (ds ++ [f])) = (dir_part ds, f).
Proof.
  intros Hf. destruct (decide (ds = [])) as [->|Hn]; [by apply Split_file|]. rewrite join_app by done. rewrite Split_app, Split_file by done. by destruct ds.
Qed.
Lemma Split_abs ds f : no_sep slash f -> filepath_Split (abs (ds ++ [f])) = (slash :: dir_part ds, f).
Proof. intros Hf. pose proof (Split_app [] (join slash (ds ++ [f]))) as E. rewrite Split_join in E by done. exact E. Qed.
Lemma clean_dir_part rooted stack ds : Forall safe_elem ds -> clean_elems rooted stack (split slash (dir_part ds)) = rev ds ++ stack.
Proof.
  intros Hs. destruct (decide (ds = [])) as [->|Hn]; [by cbn|]. replace (dir_part ds) with (join slash ds ++ slash :: []) by (by destruct ds).
  rewrite split_sep_app, split_join, clean_elems_app, (clean_elems_id _ _ ds) by first [done|by apply safe_no_sep]. cbn [split clean_elems].
  by rewrite bool_decide_eq_true_2.
Qed.
Lemma root_elems_dir ds : Forall safe_elem ds -> root_elems (slash :: dir_part ds) = ds.
Proof.
  intros Hs. unfold root_elems. cbn [split]. rewrite bool_decide_eq_true_2 by done. cbn [clean_elems]. rewrite bool_decide_eq_true_2 by done. cbn [orb].
  rewrite clean_dir_part by done. by rewrite app_nil_r, rev_involutive.
Qed.

Lemma meta_name_safe f : no_sep slash f -> safe_elem (meta_name f).
Proof.
  intros Hf. split_and!; [done|by destruct f|by destruct f as [|? [|]]|]. unfold no_sep, meta_name. rewrite !in_app_iff. intros [Hx|[Hx|Hx]]; [|done|].
  all: cbn in Hx; repeat destruct Hx as [Hx|Hx]; done.
Qed.
Lemma meta_name_inj f g : meta_name f = meta_name g -> f = g.
Proof. unfold meta_name. intros E%app_inv_head. by apply app_inv_tail in E. Qed.

(** Metadata goes to a directory beside the database, or below the configured one. *)
Lemma NewDB_meta {replica} ds f : Forall safe_elem ds -> safe_elem f -> db_metaPath (@NewDB replica (abs (ds ++ [f]))) = abs (ds ++ [meta_name f]).
Proof.
  intros Hd (_ & _ & _ & Hf). unfold NewDB. rewrite Split_abs by done. cbn [db_metaPath].
  change (meta_name f) with (join slash [meta_name f]) at 1. rewrite path_Join_abs; [by rewrite root_elems_dir|by apply HasPrefix_app; eexists|done|].
  constructor; [by apply meta_name_safe|constructor].
Qed.
Lemma path_Clean_rel ws : ws <> [] -> Forall safe_elem ws -> path_Clean (join slash ws) = join slash ws.
Proof.
  intros Hn Hs. unfold path_Clean. rewrite bool_decide_eq_false_2 by (by apply join_safe_ne).
  assert (HasPrefix (join slash ws) [slash] = false) as ->.
  { apply not_true_iff_false. intros [t E]%HasPrefix_app. apply (f_equal (split slash)) in E. rewrite split_join in E by first [done|by apply safe_no_sep].
    subst ws. cbn [app split] in Hs. rewrite bool_decide_eq_true_2 in Hs by done. apply Forall_cons in Hs as [(? & _) _]. done. }
  rewrite split_join, clean_elems_id, app_nil_r, rev_involutive by first [done|by apply safe_no_sep]. by rewrite bool_decide_eq_false_2.
Qed.
Lemma derive_meta base ds f : base <> [] -> Forall safe_elem ds -> safe_elem f ->
  deriveMetaPathForDirectoryEntry base (join slash (ds ++ [f])) = dest base (ds ++ [meta_name f]).
Proof.
  intros Hb Hd Hf. assert (Forall safe_elem (ds ++ [f])) as Hs by (apply Forall_app; split; [done|by constructor]).
  assert (ds ++ [f] <> []) as Hn by (by intros [_ ?]%app_eq_nil). unfold deriveMetaPathForDirectoryEntry. rewrite path_Clean_rel by done.
  rewrite bool_decide_eq_false_2 by (by apply join_dot). rewrite bool_decide_eq_false_2 by (by apply join_safe_ne). cbn [orb].
  destruct Hf as (H1 & H2 & H3 & H4). rewrite Split_join by done. rewrite !bool_decide_eq_false_2 by done. cbn [orb].
  pose proof (meta_name_safe f H4) as Hm. destruct (decide (ds = [])) as [->|Hds].
  { cbn [dir_part app]. rewrite <- (path_Join_dest base [meta_name f]) by first [done|by apply Forall_singleton]. unfold path_Join. cbn [join].
    rewrite !(filter_cons_True _ base) by (by apply nonempty_true). by rewrite (filter_cons_False _ []) by done. }
  unfold path_Join. rewrite filter_cons_True by (by apply nonempty_true). rewrite filter_cons_True by (apply nonempty_true; destruct ds; [done|]; by intros [_ ?]%app_eq_nil).
  rewrite filter_cons_True, filter_nil by done. cbn [join]. unfold path_Clean. rewrite bool_decide_eq_false_2 by (by destruct base).
  rewrite HasPrefix_slash_app, split_sep_app, split_sep_app, !clean_elems_app, clean_dir_part, (split_single _ (meta_name f)) by first [done|apply Hm].
  rewrite clean_elems_id by (by apply Forall_singleton). rewrite !rev_app_distr, rev_involutive. unfold dest, base_elems.
  rewrite (proj2 (nonempty_true base)) by done. cbn [rev app]. rewrite <- app_assoc. destruct (HasPrefix base [slash]); [done|].
  rewrite bool_decide_eq_false_2; [done|]. intros [_ [_ ?]%app_eq_nil]%app_eq_nil. done.
Qed.

(** ** The files of a tree *)

Scheme node_mut := Induction for node Sort Prop with entries_mut := Induction for entries Sort Prop.
Combined Scheme tree_ind from node_mut, entries_mut.

(** Every file below a node, by the elements of its path, with its contents. *)
Fixpoint files (n : node) : list (list str * result str) :=
  match n with NFile c => [([], c)] | NDir names => names_files names | _ => [] end
with names_files (names : entries) : list (list str * result str) :=
  match names with ENil => [] | ECons name n names => (prod_map (cons name) id <$> files n) ++ names_files names end.

(** The names of a directory are distinct and name entries. *)
Fixpoint entry_names (names : entries) : list str := match names with ENil => [] | ECons name _ names => name :: entry_names names end.
Fixpoint tree_ok (n : node) : Prop := match n with NDir names => names_ok names | _ => True end
with names_ok (names : entries) : Prop :=
  match names with ENil => True | ECons name n names => safe_elem name /\ ~ In name (entry_names names) /\ tree_ok n /\ names_ok names end.

Lemma files_safe :
  (forall n, tree_ok n -> Forall (fun x => Forall safe_elem x.1) (files n)) /\
  (forall names, names_ok names -> Forall (fun x => x.1 <> [] /\ Forall safe_elem x.1 /\ (exists w, head x.1 = Some w /\ In w (entry_names names))) (names_files names)).
Proof.
  apply tree_ind; cbn [files names_files tree_ok names_ok entry_names].
  - intros c _. by repeat constructor.
  - intros names IH Hn. eapply Forall_impl; [by apply IH|]. intros x Hx. apply Hx.
  - intros; constructor.
  - intros; constructor.
  - intros _. constructor.
  - intros name n IHn names IH (Hs & _ & Hn & Hns). apply Forall_app. split.
    + rewrite Forall_fmap. eapply Forall_impl; [by apply IHn|]. intros [ws c] Hw. cbn. split_and!; [done|by constructor|]. exists name. split; [done|by left].
    + eapply Forall_impl; [by apply IH|]. intros [ws c] (H1 & H2 & w & Hw & Hin). split_and!; [done..|]. exists w. split; [done|by right].
Qed.

(** No file is below another. *)
Definition apart (x y : list str * result str) : Prop := ~ x.1 `prefix_of` y.1 /\ ~ y.1 `prefix_of` x.1.
Lemma FOP_app {A} (R : A -> A -> Prop) l1 l2 :
  ForallOrdPairs R l1 -> ForallOrdPairs R l2 -> (forall x y, In x l1 -> In y l2 -> R x y) -> ForallOrdPairs R (l1 ++ l2).
Proof.
  intros H1 H2 Hx. induction H1 as [|x l1 Hf H1 IH]; cbn; [done|]. constructor; [|apply IH; intros; apply Hx; [by right|done]].
  rewrite List.Forall_app. split; [done|]. apply List.Forall_forall. intros y Hy. apply Hx; [by left|done].
Qed.
Lemma FOP_fmap {A B} (R : B -> B -> Prop) (f : A -> B) l : ForallOrdPairs (fun x y => R (f x) (f y)) l -> ForallOrdPairs R (f <$> l).
Proof. induction 1 as [|x l Hf H1 IH]; cbn; constructor; [|done]. by rewrite Forall_fmap. Qed.
Lemma FOP_impl {A} (R R' : A -> A -> Prop) (P : A -> Prop) l :
  (forall x y, P x -> P y -> R x y -> R' x y) -> Forall P l -> ForallOrdPairs R l -> ForallOrdPairs R' l.
Proof.
  intros Hr HP. induction 1 as [|x l Hf H1 IH]; constructor; apply Forall_cons in HP as [Hx HP]; [|by apply IH].
  apply List.Forall_forall. intros y Hy. rewrite List.Forall_forall in Hf, HP. by apply Hr; [|apply HP|apply Hf].
Qed.
Lemma Forall2_with {A B} (P : A -> Prop) (R : A -> B -> Prop) l k : Forall P l -> Forall2 R l k -> Forall2 (fun x y => P x /\ R x y) l k.
Proof. intros HP HR. induction HR; constructor; apply Forall_cons in HP as [? ?]; [done|auto]. Qed.
Lemma filter_none {A} (P : A -> Prop) `{forall x, Decision (P x)} l : Forall (fun x => ~ P x) l -> filter P l = [].
Proof. induction 1; [done|]. by rewrite filter_cons_False. Qed.
Lemma filter_map {A B} (P : B -> Prop) `{forall x, Decision (P x)} (f : A -> B) (l : list A) : filter P (f <$> l) = f <$> filter (fun x => P (f x)) l.
Proof. induction l as [|x l IH]; [done|]. rewrite fmap_cons, !filter_cons, IH. by case_decide. Qed.
Lemma FOP_filter {A} (R : A -> A -> Prop) (P : A -> Prop) `{forall x, Decision (P x)} l : ForallOrdPairs R l -> ForallOrdPairs R (filter P l).
Proof.
  induction 1 as [|x l Hf H1 IH]; [constructor|]. rewrite filter_cons. case_decide; [|done]. constructor; [|done].
  apply List.Forall_forall. intros y Hy%list_elem_of_In%list_elem_of_filter. rewrite List.Forall_forall in Hf. apply Hf, list_elem_of_In. tauto.
Qed.
Lemma FOP_NoDup {A} (R : A -> A -> Prop) l : (forall x, ~ R x x) -> ForallOrdPairs R l -> NoDup l.
Proof.
  intros Hi. induction 1 as [|x l Hf H1 IH]; constructor; [|done]. intros Hx%list_elem_of_In. rewrite List.Forall_forall in Hf. by apply Hf, Hi in Hx.
Qed.

Lemma files_apart :
  (forall n, tree_ok n -> ForallOrdPairs apart (files n)) /\ (forall names, names_ok names -> ForallOrdPairs apart (names_files names)).
Proof.
  apply tree_ind; cbn [files names_files tree_ok names_ok entry_names].
  - intros c _. by repeat constructor.
  - done.
  - intros; constructor.
  - intros; constructor.
  - constructor.
  - intros name n IHn names IH (Hs & Hni & Hn & Hns). apply FOP_app.
    + apply FOP_fmap. eapply (FOP_impl apart _ (fun _ => True)); [|by apply Forall_true|by apply IHn]. intros [a ca] [b cb] _ _ [H1 H2]. unfold apart. cbn.
      split; intros Hp%prefix_cons_inv_2; done.
    + by apply IH.
    + intros x y Hx Hy. apply list_elem_of_In, list_elem_of_fmap in Hx as ([a ca] & -> & _).
      pose proof (proj2 files_safe _ Hns) as HF. rewrite List.Forall_forall in HF. destruct (HF y Hy) as (_ & _ & w & Hw & Hin).
      destruct y as [[|w' b] cb]; [done|]. injection Hw as ->. unfold apart. cbn. split; intros Hp%prefix_cons_inv_1; subst; by apply Hni.
Qed.

(** ** What the search finds *)

Section Find.
Variables (dir pattern : str) (recursive : bool).
Hypothesis dir_rooted : HasPrefix dir [slash] = true.
Abbreviation D := (root_elems dir).

(** The databases that are looked for: in subdirectories only if the search is recursive. *)
Definition chosen (x : list str * result str) : bool :=
  (recursive || (length x.1 <=? 1)%nat) && match filepath_Match pattern (List.last x.1 []) with Ok b => b | _ => false end && IsSQLiteDatabase x.2.

Lemma path_Base_abs ws f : Forall safe_elem ws -> safe_elem f -> path_Base (abs (ws ++ [f])) = f.
Proof.
  intros Hw Hf. assert (Forall safe_elem (ws ++ [f])) as Hs by (apply Forall_app; split; [done|by apply Forall_singleton]).
  assert (ws ++ [f] <> []) as Hn by (by intros [_ ?]%app_eq_nil). destruct Hf as (H1 & _ & _ & Hf).
  assert (exists p c, abs (ws ++ [f]) = p ++ [c] /\ c <> slash) as (p & c & Hp & Hc).
  { destruct f as [|c f] using rev_ind; [done|]. unfold abs. destruct (decide (ws = [])) as [->|Hws].
    - exists (slash :: f), c. split; [done|]. intros ->. apply Hf, in_app_iff. right. by left.
    - rewrite join_app by done. exists (slash :: join slash ws ++ slash :: f), c. split; [cbn; rewrite <- app_assoc; done|]. intros ->. apply Hf, in_app_iff. right. by left. }
  unfold path_Base. rewrite bool_decide_eq_false_2 by done. assert (rev (trim_slashes (rev (abs (ws ++ [f])))) = abs (ws ++ [f])) as ->.
  { rewrite Hp, rev_app_distr. cbn [rev app trim_slashes]. rewrite bool_decide_eq_false_2 by done.
    change (c :: rev p) with ([c] ++ rev p). by rewrite rev_app_distr, rev_involutive. }
  rewrite bool_decide_eq_false_2 by done. rewrite split_abs by done. rewrite app_comm_cons. apply last_last.
Qed.

Lemma below_dir pre : Forall safe_elem pre -> pre <> [] -> abs (D ++ pre) <> dir.
Proof.
  intros Hs Hn E. apply (f_equal root_elems) in E. rewrite root_elems_abs in E by (apply Forall_app; split; [apply root_elems_safe|done]).
  apply (f_equal length) in E. rewrite length_app in E. destruct pre; [done|]. cbn in E. lia.
Qed.

Abbreviation found pre := (fun x : list str * result str => abs (D ++ pre ++ x.1)).
Abbreviation picked pre := (fun x : list str * result str => chosen (pre ++ x.1, x.2) = true).

Lemma walk_spec :
  (forall n, tree_ok n -> forall pre l, Forall safe_elem pre -> pre <> [] -> (recursive = true \/ length pre = 1%nat) ->
     walk dir pattern recursive (abs (D ++ pre)) n = Ok l -> l = found pre <$> filter (picked pre) (files n)) /\
  (forall names, names_ok names -> forall p pre l, Forall safe_elem pre -> (recursive = true \/ pre = []) ->
     HasPrefix p [slash] = true -> root_elems p = D ++ pre ->
     walk_names dir pattern recursive p names = Ok l -> l = found pre <$> filter (picked pre) (names_files names)).
Proof.
  apply tree_ind; cbn [files names_files tree_ok names_ok walk walk_names].
  - intros c _ pre l Hs Hn Hr. destruct (exists_last Hn) as (pre' & f & ->). apply Forall_app in Hs as [Hs [Hf _]%Forall_cons].
    rewrite (app_assoc D pre' [f]), path_Base_abs by first [done|apply Forall_app; split; [apply root_elems_safe|done]].
    destruct (filepath_Match pattern f) as [b|e|m] eqn:EM; cbn [mbind result_bind]; [|done..]. intros [= <-].
    assert (chosen ((pre' ++ [f]) ++ [], c) = b && IsSQLiteDatabase c) as Hc.
    { unfold chosen. cbn [fst snd]. rewrite app_nil_r, last_last, EM. destruct Hr as [-> | ->]; [done|]. by rewrite orb_true_r. }
    rewrite filter_cons, filter_nil. cbn [fst snd]. rewrite Hc. case_decide as Hd; destruct b, (IsSQLiteDatabase c); try done. cbn. by rewrite app_nil_r, app_assoc.
  - intros names IH Hn pre l Hs Hpre _. rewrite bool_decide_eq_false_2 by (by apply below_dir). rewrite andb_true_r. destruct recursive eqn:ER; cbn [negb].
    + intros Hw. eapply IH; [done..|by left|apply abs_rooted| |exact Hw]. apply root_elems_abs, Forall_app. split; [apply root_elems_safe|done].
    + intros [= <-]. replace (filter (picked pre) (names_files names)) with (@nil (list str * result str)); [done|]. symmetry. apply filter_none.
      eapply Forall_impl; [exact (proj2 files_safe _ Hn)|]. intros [ws c] (Hw & _). cbn [fst snd] in *. unfold chosen. rewrite ER. cbn [orb fst].
      destruct pre, ws; try done. cbn. rewrite length_app. cbn. replace (length pre + S (length ws) <=? 0)%nat with false; [done|]. symmetry. apply Nat.leb_gt. lia.
  - done.
  - done.
  - intros _ p pre l _ _ _ _ [= <-]. done.
  - intros name n IHn names IH (Hs & _ & Hn & Hns) p pre l Hpre Hr Hp Hpe.
    assert (path_Join [p; name] = abs (D ++ pre ++ [name])) as ->.
    { change name with (join slash [name]) at 1. rewrite path_Join_abs by first [done|by apply Forall_singleton]. by rewrite Hpe, <- app_assoc. }
    destruct (walk dir pattern recursive (abs (D ++ pre ++ [name])) n) as [l1|e|m] eqn:E1; cbn [mbind result_bind]; [|done..].
    destruct (walk_names dir pattern recursive p names) as [l2|e|m] eqn:E2; cbn [mbind result_bind]; [|done..]. intros [= <-].
    apply IHn in E1; [|done|apply Forall_app; split; [done|by apply Forall_singleton]|by intros [_ ?]%app_eq_nil|destruct Hr as [->| ->]; [by left|by right]].
    eapply IH in E2; [|done..]. rewrite E1, E2, filter_app, fmap_app. f_equal. rewrite filter_map, <- list_fmap_compose.
    erewrite list_filter_iff; [apply list_fmap_ext|].
    + intros _ [ws c] _. cbn. by rewrite <- app_assoc.
    + intros [ws c]. cbn. by rewrite <- app_assoc.
Qed.
End Find.

(** The search gives, in order, exactly the matching databases of the tree; none is listed twice. *)
Theorem find_databases dir pattern recursive names l :
  HasPrefix dir [slash] = true -> names_ok names -> FindSQLiteDatabases (NDir names) dir pattern recursive = Ok l ->
  l = (fun x => abs (root_elems dir ++ x.1)) <$> filter (fun x => chosen pattern recursive x = true) (names_files names) /\ NoDup l.
Proof.
  intros Hd Hn HF. unfold FindSQLiteDatabases in HF. cbn [walk] in HF. rewrite bool_decide_eq_true_2, andb_false_r in HF by done.
  apply (proj2 (walk_spec dir pattern recursive) _ Hn dir []) in HF; [|constructor|by right|done|by rewrite app_nil_r].
  assert (l = (fun x => abs (root_elems dir ++ x.1)) <$> filter (fun x => chosen pattern recursive x = true) (names_files names)) as ->.
  { rewrite HF. erewrite list_filter_iff; [reflexivity|]. by intros [ws c]. }
  split; [done|]. assert (Forall (fun x => Forall safe_elem x.1) (names_files names)) as Hs
    by (eapply Forall_impl; [exact (proj2 files_safe _ Hn)|]; intros x Hx; apply Hx).
  eapply (FOP_NoDup (fun p q => p <> q)); [by intros x Hx|]. apply FOP_fmap. eapply FOP_filter, FOP_impl; [|exact Hs|exact (proj2 files_apart _ Hn)].
  intros x y Hx Hy [Hxy _] E. apply abs_inj in E; [|apply Forall_app; split; [apply root_elems_safe|done]..]. apply app_inv_head in E. apply Hxy. by rewrite E.
Qed.

Section Entries.
Context {replica : Type}.
Variable url_Parse : str -> result URL.
Variable url_String : URL -> str.
Variables cwd home : result str.
Variable NewReplica : ReplicaConfig -> result replica.
Hypothesis cwd_rooted : forall d, cwd = Ok d -> HasPrefix d [slash] = true.
Hypothesis home_rooted : forall h, home = Ok h -> h <> [] -> HasPrefix h [slash] = true.

Abbreviation entry := (newDBFromDirectoryEntry url_Parse url_String cwd home NewReplica).
Abbreviation new_directory := (NewDBsFromDirectoryConfig url_Parse url_String cwd home NewReplica).

Lemma expand_abs ws : Forall safe_elem ws -> expand cwd home (abs ws) = Ok (abs ws).
Proof.
  intros Hs. unfold expand. assert (StripSQLitePrefix (abs ws) = abs ws) as ->.
  { unfold StripSQLitePrefix. rewrite (bool_decide_eq_false_2 (take 1 (abs ws) = lit "s")) by done. cbn [negb]. by rewrite orb_true_r. }
  rewrite bool_decide_eq_false_2 by done. assert (HasPrefix (abs ws) (lit "~/") = false) as ->.
  { apply not_true_iff_false. intros [t E]%HasPrefix_app. discriminate E. }
  cbn [negb andb]. unfold filepath_Abs. rewrite abs_rooted, path_Clean_abs, root_elems_abs by first [done|apply abs_rooted]. done.
Qed.

(** The elements of the directory that metadata goes to, and of one database in it. *)
Definition meta_base (dbc : DBConfig) (dirPath : str) : list str :=
  match dc_MetaPath dbc with
  | None => root_elems dirPath
  | Some m => match expand cwd home m with Ok base => root_elems base | _ => [] end
  end.
Definition meta_elems (ws : list str) : list str := removelast ws ++ [meta_name (List.last ws [])].

Lemma meta_base_safe dbc dirPath : Forall safe_elem (meta_base dbc dirPath).
Proof. unfold meta_base. destruct (dc_MetaPath dbc) as [s|]; [destruct (expand cwd home s)|]; first [apply root_elems_safe|constructor]. Qed.
Lemma meta_elems_safe ws : Forall safe_elem ws -> ws <> [] -> Forall safe_elem (meta_elems ws).
Proof.
  intros Hs Hn. destruct (exists_last Hn) as (ds & f & ->). unfold meta_elems. rewrite removelast_last, last_last. apply Forall_app in Hs as [Hd [Hf _]%Forall_cons].
  apply Forall_app. split; [done|]. apply Forall_singleton, meta_name_safe, Hf.
Qed.
Lemma meta_elems_inj ws ws' : ws <> [] -> ws' <> [] -> meta_elems ws = meta_elems ws' -> ws = ws'.
Proof.
  intros Hn Hn' [E1 [= E2%app_inv_tail]]%app_inj_tail. rewrite (app_removelast_last [] Hn), (app_removelast_last [] Hn'). by rewrite E1, E2.
Qed.

(** What a database of a directory is made of. *)
Lemma entry_spec dbc dirPath ws db :
  HasPrefix dirPath [slash] = true -> ws <> [] -> Forall safe_elem ws -> entry dbc dirPath (abs (root_elems dirPath ++ ws)) = Ok db ->
  db_path db = abs (root_elems dirPath ++ ws) /\ db_metaPath db = abs (meta_base dbc dirPath ++ meta_elems ws) /\
  forall rc, dc_Replica dbc = Some rc -> rc_URL rc = [] ->
    exists r, db_Replica db = Some r /\ NewReplica (set_rc_Path (dest (rc_Path rc) ws) rc) = Ok r.
Proof.
  intros Hd Hn Hs. pose proof (root_elems_safe dirPath) as HD. assert (Forall safe_elem (root_elems dirPath ++ ws)) as HDs by (apply Forall_app; by split).
  unfold newDBFromDirectoryEntry. rewrite filepath_Rel_below by done. cbn [wrap_err mbind result_bind].
  set (meta := match dc_MetaPath dbc with Some _ => _ | None => _ end).
  assert (forall m, meta = Ok m -> m = match dc_MetaPath dbc with None => None | Some _ => Some (abs (meta_base dbc dirPath ++ meta_elems ws)) end) as Hmeta.
  { intros m. unfold meta, meta_base. destruct (dc_MetaPath dbc) as [s|]; [|by intros [= <-]]. destruct (expand cwd home s) as [base|e|msg] eqn:EX; cbn; [|done..].
    intros [= <-]. f_equal. assert (HasPrefix base [slash] = true) as Hb by (by apply (expand_absolute cwd home s)). destruct (exists_last Hn) as (ds & f & ->).
    apply Forall_app in Hs as [Hds [Hf _]%Forall_cons]. rewrite derive_meta by first [done|by intros ->]. unfold meta_elems. rewrite removelast_last, last_last.
    unfold dest, base_elems. rewrite Hb. rewrite (proj2 (nonempty_true base)) by (by intros ->). done. }
  destruct meta as [m|e|msg]; cbn [mbind result_bind]; [|done..]. specialize (Hmeta m eq_refl). subst m.
  set (rcr := match dc_Replica dbc with Some _ => _ | None => _ end). destruct rcr as [rc'|e|msg] eqn:ER; cbn [mbind result_bind]; [|done..].
  destruct (clone_all _ _ _ _) as [rcs|e|msg]; cbn [mbind result_bind]; [|done..]. unfold NewDBFromConfig. cbn [dc_Path dc_MetaPath dc_Replica dc_Replicas].
  rewrite expand_abs by done. cbn [mbind result_bind].
  set (mp := match match dc_MetaPath dbc with Some _ => _ | None => _ end with Some _ => _ | None => _ end).
  assert (mp = Ok (abs (meta_base dbc dirPath ++ meta_elems ws))) as ->.
  { unfold mp. destruct (dc_MetaPath dbc) as [s|] eqn:EMP.
    - rewrite expand_abs; [done|]. apply Forall_app. split; [apply meta_base_safe|by apply meta_elems_safe].
    - destruct (exists_last Hn) as (ds & f & ->). apply Forall_app in Hs as [Hds [Hf _]%Forall_cons]. rewrite app_assoc, NewDB_meta by first [done|apply Forall_app; by split].
      unfold meta_base, meta_elems. rewrite EMP, removelast_last, last_last. by rewrite <- app_assoc. }
  cbn [mbind result_bind]. destruct (match rc' with Some _ => _ | None => _ end) as [rc|e|msg] eqn:EC; cbn [mbind result_bind]; [|done..].
  destruct (NewReplica rc) as [r|e|msg] eqn:EN; cbn [mbind result_bind]; [|done..]. intros [= <-]. cbn. split_and!; [done..|].
  intros rc0 Hrc0 Hurl. exists r. split; [done|]. rewrite <- EN. f_equal. unfold rcr in ER. rewrite Hrc0 in ER. unfold cloneReplicaConfigWithRelativePath in ER.
  rewrite bool_decide_eq_false_2 in ER by (by apply join_safe_ne). rewrite bool_decide_eq_false_2 in ER by (by apply join_dot). rewrite Hurl in ER.
  cbn [orb nonempty wrap_err mbind result_bind] in ER. injection ER as <-. destruct rcs; [|done]. injection EC as <-.
  destruct (nonempty (rc_Path rc0)) eqn:EP; [|unfold dest; by rewrite EP]. by rewrite path_Join_dest by first [done|by apply nonempty_true].
Qed.

Section One.
Variables (dbc : DBConfig) (dirPath : str) (names : entries).
Hypothesis dir_rooted : HasPrefix dirPath [slash] = true.
Hypothesis names_fine : names_ok names.

Abbreviation place x := (abs (root_elems dirPath ++ x.1)).
Abbreviation matching := (filter (fun x => chosen (dc_Pattern dbc) (dc_Recursive dbc) x = true) (names_files names)).

Lemma matching_fine : Forall (fun x => x.1 <> [] /\ Forall safe_elem x.1) matching /\ ForallOrdPairs apart matching.
Proof.
  split; [|apply FOP_filter, files_apart, names_fine]. apply List.Forall_forall. intros x Hx%list_elem_of_In%list_elem_of_filter. destruct Hx as [_ Hx%list_elem_of_In].
  pose proof (proj2 files_safe _ names_fine) as HF. rewrite List.Forall_forall in HF. destruct (HF x Hx) as (H1 & H2 & _). done.
Qed.

(** The databases that are made are those of the entries, in order. *)
Lemma new_dbs_entries xs seen dbs :
  new_dbs url_Parse url_String cwd home NewReplica dbc dirPath ((fun x : list str * result str => place x) <$> xs) seen = Ok dbs ->
  Forall2 (fun x db => entry dbc dirPath (place x) = Ok db) xs dbs.
Proof.
  revert seen dbs. induction xs as [|x xs IH]; intros seen dbs; cbn [fmap list_fmap new_dbs]; [intros [= <-]; constructor|].
  destruct (entry dbc dirPath (place x)) as [db|e|m] eqn:E; cbn [wrap_err mbind result_bind]; [|done..].
  destruct (nonempty (db_metaPath db) && _); [done|].
  destruct (new_dbs _ _ _ _ _ _ _ _ _) as [rest|e|m] eqn:ER; cbn [mbind result_bind]; [|done..]. intros [= <-]. constructor; [done|by eapply IH].
Qed.
(** Distinct entries have distinct metadata, so that no collision is ever reported. *)
Lemma entry_meta (x : list str * result str) db : x.1 <> [] -> Forall safe_elem x.1 -> entry dbc dirPath (place x) = Ok db -> db_metaPath db = abs (meta_base dbc dirPath ++ meta_elems x.1).
Proof. intros Hn Hs E. by eapply entry_spec in E as (_ & ? & _). Qed.
Lemma meta_apart (x y : list str * result str) : x.1 <> [] -> Forall safe_elem x.1 -> y.1 <> [] -> Forall safe_elem y.1 -> x.1 <> y.1 ->
  abs (meta_base dbc dirPath ++ meta_elems x.1) <> abs (meta_base dbc dirPath ++ meta_elems y.1).
Proof.
  intros Hx Hxs Hy Hys Hne E. apply abs_inj in E; [|apply Forall_app; split; [apply meta_base_safe|by apply meta_elems_safe]..].
  apply app_inv_head, meta_elems_inj in E; done.
Qed.
Lemma new_dbs_ok xs seen :
  Forall (fun x => x.1 <> [] /\ Forall safe_elem x.1) xs -> ForallOrdPairs apart xs ->
  Forall (fun x => exists db, entry dbc dirPath (place x) = Ok db) xs ->
  (forall x, In x xs -> seen !! abs (meta_base dbc dirPath ++ meta_elems x.1) = None) ->
  exists dbs, new_dbs url_Parse url_String cwd home NewReplica dbc dirPath ((fun x : list str * result str => place x) <$> xs) seen = Ok dbs.
Proof.
  intros HF HA. revert HF seen. induction HA as [|x xs Hx HA IH]; intros HF seen Hok Hseen; cbn [fmap list_fmap new_dbs]; [by eexists|].
  apply Forall_cons in HF as [(Hn & Hs) HF]. apply Forall_cons in Hok as [[db E] Hok]. rewrite E. cbn [wrap_err mbind result_bind].
  rewrite (entry_meta x db Hn Hs E). rewrite (Hseen x) by (by left). rewrite bool_decide_eq_false_2, andb_false_r by (by intros [? ?]).
  change (nonempty (abs (meta_base dbc dirPath ++ meta_elems x.1))) with true. cbn iota.
  destruct (IH HF (<[abs (meta_base dbc dirPath ++ meta_elems x.1) := place x]> seen)) as [rest ->]; [done| |by eexists].
  intros y Hy. rewrite lookup_insert_ne; [apply Hseen; by right|]. rewrite List.Forall_forall in HF, Hx. destruct (HF y Hy) as [Hny Hys].
  apply meta_apart; try done. intros Exy. apply (Hx y Hy). by rewrite Exy.
Qed.
End One.


(** A directory is replicated when each of its databases can be made: the guard against shared
    metadata never fires. *)
Theorem no_meta_collision fs dbc dirPath names l :
  dc_Dir dbc <> [] -> dc_Pattern dbc <> [] -> expand cwd home (dc_Dir dbc) = Ok dirPath -> fs dirPath = NDir names -> names_ok names ->
  FindSQLiteDatabases (NDir names) dirPath (dc_Pattern dbc) (dc_Recursive dbc) = Ok l -> (l <> [] \/ dc_Watch dbc = true) ->
  Forall (fun p => exists db, entry dbc dirPath p = Ok db) l -> exists dbs, new_directory fs dbc = Ok dbs.
Proof.
  intros Hdir Hpat EX Efs Hok EF Hl Hall. assert (HasPrefix dirPath [slash] = true) as Hd by (by apply (expand_absolute cwd home (dc_Dir dbc))).
  unfold NewDBsFromDirectoryConfig. rewrite !bool_decide_eq_false_2 by done. rewrite EX. cbn [mbind result_bind]. rewrite Efs, EF. cbn [wrap_err mbind result_bind].
  destruct (bool_decide (l = []) && negb (dc_Watch dbc)) eqn:Hg.
  { apply andb_true_iff in Hg as [Hg1%bool_decide_eq_true Hg2%negb_true_iff]. destruct Hl; congruence. }
  destruct (find_databases _ _ _ _ _ Hd Hok EF) as [-> _]. destruct (matching_fine dbc names Hok) as [Hfine Hapart].
  apply new_dbs_ok; try done. by rewrite Forall_fmap in Hall.
Qed.
End Entries.

(** ** A directory of two databases *)
Module DirectoryDemo.
Definition sqlite : node := NFile (Ok (sqlite_magic ++ lit "page")).
Definition tree : entries := ECons (lit "a.db") sqlite (ECons (lit "notes.txt") (NFile (Ok (lit "text"))) (ECons (lit "sub") (NDir (ECons (lit "a.db") sqlite ENil)) ENil)).
Definition rconf (typ path url : string) : ReplicaConfig := mkReplicaConfig no_settings (lit typ) [] (lit path) (lit url).
Definition conf (rc : ReplicaConfig) (recursive : bool) : DBConfig :=
  mkDBConfig [] (lit "data") (lit "*.db") recursive false None None None None None None false (Some rc) [].
Definition no_url (_ : str) : result URL := Err (EMsg "invalid port after host").
Definition dbs {R} (NewReplica : ReplicaConfig -> result R) (n : node) (rc : ReplicaConfig) (recursive : bool) : result (list (DB R)) :=
  NewDBsFromDirectoryConfig no_url u_bare (Ok (lit "/srv")) (Ok []) NewReplica (fun _ => n) (conf rc recursive).
Definition by_path (rc : ReplicaConfig) : result str := Ok (rc_Path rc).
Definition show {R} (r : result (list (DB R))) : result (list (str * option R)) :=
  match r with Ok l => Ok ((fun d => (db_metaPath d, db_Replica d)) <$> l) | Err e => Err e | Panic m => Panic m end.

Example two_databases : show (dbs by_path (NDir tree) (rconf "file" "/backup" "") true) =
  Ok [(lit "/srv/data/.a.db-replicate", Some (lit "/backup/a.db")); (lit "/srv/data/sub/.a.db-replicate", Some (lit "/backup/sub/a.db"))].
Proof. vm_compute. reflexivity. Qed.
Example patterns : filepath_Match (lit "[^n-z]*.d?") (lit "a.db") = Ok true /\ filepath_Match (lit "[^n-z]*.d?") (lit "notes.db") = Ok false /\
  filepath_Match (lit "[]a]") (lit "a") = Err ErrBadPattern /\ filepath_Match (lit "\*") (lit "*") = Ok true.
Proof. vm_compute. done. Qed.
Example relative_up : filepath_Rel (lit "/a/b") (lit "/a/c/d") = Ok (lit "../c/d").
Proof. vm_compute. reflexivity. Qed.

(** A bucket of NATS has no paths: the databases of a directory share their replica. *)
Definition nats (rc : ReplicaConfig) : result NATSConfig := newNATSReplicaClientFromConfig no_url (fun _ => Ok (fun _ => [])) (0, 0, 0) rc.
Definition nats_conf : ReplicaConfig :=
  mkReplicaConfig (mkSettings None None None [] [] [] (lit "bkt") [] None None None false None None [] [] [] [] [] [] [] [] [] [] [] None [] [] [] []
    [] [] [] [] [] [] false [] [] [] None None None (mkAge [] [] None)) (lit "nats") [] [] [].
Theorem nats_directory_shared :
  exists m1 m2 c, show (dbs nats (NDir tree) nats_conf true) = Ok [(m1, Some c); (m2, Some c)] /\ m1 <> m2.
Proof. eexists _, _, _. split; [vm_compute; reflexivity|]. vm_compute. discriminate. Qed.

(** An access point is a valid replica URL, but not one that [url.Parse] accepts: its
    databases cannot be configured. *)
Definition arn : ReplicaConfig := rconf "" "" "s3://arn:aws:s3:us-east-1:123456789012:accesspoint/ap/db".
Theorem access_point_directory_fails :
  is_ok (ParseReplicaURL no_url (fun _ => Ok (fun _ => [])) (rc_URL arn)) = true /\ exists e, dbs by_path (NDir tree) arn true = Err e.
Proof. split; [vm_compute; reflexivity|]. eexists. vm_compute. reflexivity. Qed.

(** A directory that cannot be read stops the search, although it would have been skipped. *)
Theorem unreadable_directory_stops :
  FindSQLiteDatabases (NDir (ECons (lit "a.db") sqlite (ECons (lit "lost+found") (NUnreadable (EPath "open" (EVar "permission denied"))) ENil)))
    (lit "/srv") (lit "*.db") false = Err (EPath "open" (EVar "permission denied")) /\
  FindSQLiteDatabases (NDir (ECons (lit "a.db") sqlite (ECons (lit "lost+found") (NDir (ECons (lit "b.db") sqlite ENil)) ENil)))
    (lit "/srv") (lit "*.db") false = Ok [lit "/srv/a.db"].
Proof. split; vm_compute; reflexivity. Qed.

(** A file of 15 bytes passes for a database. *)
Theorem short_header_accepted : IsSQLiteDatabase (Ok (lit "SQLite format 3")) = true.
Proof. vm_compute. reflexivity. Qed.
End DirectoryDemo.

