(* ===== verification/DirWatch.v ===== *)
(** * Watching directories

    Model of src/cmd/replicate/directory_watcher.go: the monitor that follows the changes of a
    directory, the databases it registers with the store and removes from it, and the events it
    holds back for a while. *)

From Stdlib Require Import ZArith Lia Ascii String Strings.Byte.
From stdpp Require Import base numbers list strings gmap sorting.
From S2P Require Import Prelude Ltx V3 Urls S3Config ReplicaConfig Config Directory Store.
Local Open Scope Z_scope.

(** ** The store, as the monitor uses it *)

(** [RegisterDB] and [UnregisterDB], given what opening and closing the database returns. *)
Class Registry (S : Type) := {
  reg_add : option error -> str -> S -> S * option error;
  reg_remove : option error -> str -> S -> S * option error;
  reg_has : S -> str -> Prop
}.
(** Adding opens the database unless its path is registered; removing forgets the path even when
    closing fails. *)
Class RegistryLaws (S : Type) `{Registry S} (ok : S -> Prop) := {
  add_ok oc p s s' e : ok s -> p <> [] -> reg_add oc p s = (s', e) -> ok s';
  add_spec oc p s s' e : ok s -> p <> [] -> reg_add oc p s = (s', e) ->
    (oc = None -> e = None) /\ (e = None -> forall q, reg_has s' q <-> reg_has s q \/ q = p) /\
    (e <> None -> ~ reg_has s p /\ forall q, reg_has s' q <-> reg_has s q);
  remove_ok oc p s s' e : ok s -> p <> [] -> reg_remove oc p s = (s', e) -> ok s';
  remove_spec oc p s s' e : ok s -> p <> [] -> reg_remove oc p s = (s', e) ->
    (oc = None -> e = None) /\ (~ reg_has s p -> e = None) /\ forall q, reg_has s' q <-> reg_has s q /\ q <> p
}.

(** ** The monitor *)

(** Databases are known by their path; a path under construction has none. *)
Record DirectoryMonitor {S : Type} := mkDM {
  dm_dbs : gmap str (option str); dm_watchedDirs : gset str; dm_pendingEvents : gmap str Z; dm_debounceActive : bool; dm_store : S
}.
Arguments DirectoryMonitor : clear implicits.
Arguments mkDM {_}.

(** Operations of [fsnotify], as bits. *)
Definition Create : Z := 1.
Definition Write : Z := 2.
Definition Remove : Z := 4.
Definition Rename : Z := 8.
Definition has_op (op mask : Z) : bool := negb (Z.land op mask =? 0).

(** What the system answers during a call: the kind of a path, the contents of a file, what is below a
    directory, the results of adding a watch, of opening and of closing a database, whether the
    context has ended before the nth element of a loop, and the order of a loop over a map. *)
Record world := mkWorld {
  w_isDir : str -> result bool; w_read : str -> result str; w_tree : str -> node; w_watch : str -> option error;
  w_open : str -> option error; w_close : str -> option error; w_done : nat -> bool; w_order : list str -> list str
}.

Section Monitor.
Context {S : Type} `{Registry S}.
Variables (dirPath pattern : str) (recursive : bool).
(** [newDBFromDirectoryEntry]: the path of the database it makes. *)
Variable newDB : str -> result str.

Abbreviation DM := (DirectoryMonitor S).
Definition set_dbs (f : gmap str (option str) -> gmap str (option str)) (dm : DM) : DM :=
  mkDM (f (dm_dbs dm)) (dm_watchedDirs dm) (dm_pendingEvents dm) (dm_debounceActive dm) (dm_store dm).
Definition set_watched (f : gset str -> gset str) (dm : DM) : DM :=
  mkDM (dm_dbs dm) (f (dm_watchedDirs dm)) (dm_pendingEvents dm) (dm_debounceActive dm) (dm_store dm).
Definition set_pending (f : gmap str Z -> gmap str Z) (dm : DM) : DM :=
  mkDM (dm_dbs dm) (dm_watchedDirs dm) (f (dm_pendingEvents dm)) (dm_debounceActive dm) (dm_store dm).
Definition set_debounce (b : bool) (dm : DM) : DM := mkDM (dm_dbs dm) (dm_watchedDirs dm) (dm_pendingEvents dm) b (dm_store dm).
Definition set_store (s : S) (dm : DM) : DM := mkDM (dm_dbs dm) (dm_watchedDirs dm) (dm_pendingEvents dm) (dm_debounceActive dm) s.

Definition matchesPattern (path : str) : bool :=
  match filepath_Match pattern (path_Base path) with Ok b => b | _ => false end.
Definition shouldSkipPath (path : str) : bool :=
  let base := path_Base path in HasSuffix base (lit "-wal") || HasSuffix base (lit "-shm") || HasSuffix base (lit "-journal").

Definition addDirectoryWatch (w : world) (path : str) (dm : DM) : DM * option error :=
  let abspath := path_Clean path in
  if bool_decide (abspath ∈ dm_watchedDirs dm) then (dm, None)
  else match w_watch w abspath with
       | Some e => (dm, Some e)
       | None => (set_watched (fun s => {[abspath]} ∪ s) dm, None)
       end.
Definition removeDirectoryWatch (path : str) (dm : DM) : DM := set_watched (fun s => s ∖ {[path_Clean path]}) dm.

(** A path that turns out not to be a database, or cannot be registered, is forgotten again. *)
Definition handlePotentialDatabase (w : world) (path : str) (dm : DM) : DM :=
  if negb (matchesPattern path) then dm
  else if bool_decide (is_Some (dm_dbs dm !! path)) then dm else
  let dm := set_dbs <[path := None]> dm in
  let forget := set_dbs (base.delete path) in
  if negb (IsSQLiteDatabase (w_read w path)) then forget dm else
  match newDB path with
  | Ok db =>
      let '(s, e) := reg_add (w_open w db) db (dm_store dm) in
      match e with
      | Some _ => forget (set_store (reg_remove (w_close w db) db s).1 dm)
      | None => set_dbs <[path := Some db]> (set_store s dm)
      end
  | _ => forget dm
  end.

(** A database that cannot be closed stays in the map, although the store has forgotten it. *)
Definition removeDatabase (w : world) (path : str) (dm : DM) : DM :=
  match dm_dbs dm !! path with
  | Some (Some db) =>
      let '(s, e) := reg_remove (w_close w db) db (dm_store dm) in
      match e with Some _ => set_store s dm | None => set_dbs (base.delete path) (set_store s dm) end
  | _ => dm
  end.

Definition is_under (dir path : str) : bool := bool_decide (path = dir) || HasPrefix path (dir ++ [slash]).
Fixpoint close_each (w : world) (l : list (str * option str)) (dm : DM) : DM :=
  match l with
  | [] => dm
  | (path, None) :: l => close_each w l (set_dbs (base.delete path) dm)
  | (path, Some db) :: l =>
      let '(s, e) := reg_remove (w_close w db) db (dm_store dm) in
      close_each w l (match e with Some _ => set_store s dm | None => set_dbs (base.delete path) (set_store s dm) end)
  end.
Definition removeDatabasesUnder (w : world) (dir : str) (dm : DM) : DM :=
  let toClose := omap (fun path => if is_under dir path then pair path <$> dm_dbs dm !! path else None) (w_order w ((map_to_list (dm_dbs dm)).*1)) in
  close_each w toClose dm.

(** [scanDirectory]: the files of the directory itself, or everything below it. *)
Fixpoint scan_files (w : world) (dir : str) (names : entries) (dm : DM) : DM :=
  match names with
  | ENil => dm
  | ECons name n names =>
      scan_files w dir names (match n with NDir _ | NUnreadable _ => dm | _ => handlePotentialDatabase w (path_Join [dir; name]) dm end)
  end.
Fixpoint scan_tree (w : world) (dir path : str) (n : node) (dm : DM) : DM :=
  match n with
  | NFile _ => handlePotentialDatabase w path dm
  | NDir names => scan_names w dir path names (if bool_decide (path = dir) then dm else (addDirectoryWatch w path dm).1)
  | NUnreadable _ => if bool_decide (path = dir) then dm else (addDirectoryWatch w path dm).1
  | NBad _ => dm
  end
with scan_names (w : world) (dir path : str) (names : entries) (dm : DM) : DM :=
  match names with ENil => dm | ECons name n names => scan_names w dir path names (scan_tree w dir (path_Join [path; name]) n dm) end.
Definition scanDirectory (w : world) (dir : str) (dm : DM) : DM :=
  if recursive then scan_tree w dir dir (w_tree w dir) dm
  else match w_tree w dir with NDir names => scan_files w dir names dm | _ => dm end.

(** [handleEvent]: whether an event was queued. *)
Definition handleEvent (w : world) (name : str) (op : Z) (dm : DM) : DM * bool :=
  let path := path_Clean name in
  if bool_decide (path = []) then (dm, false)
  else if shouldSkipPath path then (dm, false) else
  let isDir := match w_isDir w path with Ok b => b | _ => false end in
  if negb isDir && has_op op (Z.lor Create Write) && negb (matchesPattern path) then (dm, false) else
  let wasWatchedDir := bool_decide (path ∈ dm_watchedDirs dm) in
  let dm := if isDir && has_op op (Z.lor Create Rename) && recursive
            then scanDirectory w path (addDirectoryWatch w path dm).1 else dm in
  if (isDir || wasWatchedDir) && has_op op (Z.lor Remove Rename)
  then (removeDatabasesUnder w path (removeDirectoryWatch path dm), false)
  else if isDir then (dm, false)
  else if match w_isDir w path with Err e => negb (os_IsNotExist e) | _ => false end then (dm, false)
  else if has_op op (Z.lor Remove Rename) then (removeDatabase w path dm, false)
  else if has_op op (Z.lor (Z.lor Create Write) Rename)
  then (set_pending (fun m => <[path := Z.lor (default 0 (m !! path)) op]> m) dm, true)
  else (dm, false).

(** [flushPendingEvents]; an ended context leaves the events where they are. *)
Fixpoint flush_each (w : world) (n : nat) (l : list str) (dm : DM) : DM * bool :=
  match l with
  | [] => (dm, true)
  | path :: l => if w_done w n then (dm, false) else flush_each w (n + 1)%nat l (handlePotentialDatabase w path dm)
  end.
Definition flushPendingEvents (w : world) (dm : DM) : DM :=
  let '(dm, finished) := flush_each w 0 (w_order w ((map_to_list (dm_pendingEvents dm)).*1)) dm in
  if finished then set_debounce false (set_pending (fun _ => ∅) dm) else dm.

(** One turn of [run]: an event, or the timer that the first queued event starts. *)
Inductive wake := WEvent (name : str) (op : Z) | WTimer | WError.
Definition run_step (w : world) (k : wake) (dm : DM) : DM :=
  match k with
  | WEvent name op => let '(dm, queued) := handleEvent w name op dm in if queued && negb (dm_debounceActive dm) then set_debounce true dm else dm
  | WTimer => if dm_debounceActive dm then flushPendingEvents w dm else dm
  | WError => dm
  end.

(** Watches of the directory, and of everything below it. *)
Fixpoint watch_tree (w : world) (path : str) (n : node) (dm : DM) : DM * option error :=
  match n with
  | NFile _ => (dm, None)
  | NBad e => (dm, Some e)
  | NUnreadable e => match addDirectoryWatch w path dm with (dm, None) => (dm, Some e) | r => r end
  | NDir names => match addDirectoryWatch w path dm with (dm, None) => watch_names w path names dm | r => r end
  end
with watch_names (w : world) (path : str) (names : entries) (dm : DM) : DM * option error :=
  match names with
  | ENil => (dm, None)
  | ECons name n names => match watch_tree w (path_Join [path; name]) n dm with (dm, None) => watch_names w path names dm | r => r end
  end.
Definition addInitialWatches (w : world) (dm : DM) : DM * option error :=
  if recursive then watch_tree w dirPath (w_tree w dirPath) dm else addDirectoryWatch w dirPath dm.

(** [NewDirectoryMonitor], for the expanded directory and the databases made from it. *)
Definition NewDirectoryMonitor (w : world) (watcher : result ()) (existing : list str) (s : S) : result DM :=
  _ ← w_isDir w dirPath;
  _ ← watcher;
  let dm := mkDM (list_to_map ((fun p => (p, Some p)) <$> rev existing)) ∅ ∅ false s in
  match addInitialWatches w dm with
  | (_, Some e) => Err e
  | (dm, None) => Ok (scanDirectory w dirPath dm)
  end.
End Monitor.

(** ** What the monitor tracks *)

Definition good (p : str) : Prop := exists ws, p = abs ws /\ ws <> [] /\ Forall safe_elem ws.
Lemma good_ne p : good p -> p <> [].
Proof. by intros (ws & -> & _). Qed.
Lemma good_clean p : good p -> path_Clean p = p.
Proof. intros (ws & -> & _ & Hs). by rewrite path_Clean_abs, root_elems_abs by first [done|apply abs_rooted]. Qed.
Lemma good_join p name : HasPrefix p [slash] = true -> safe_elem name -> good (path_Join [p; name]).
Proof.
  intros Hp Hn. exists (root_elems p ++ [name]). change name with (join slash [name]) at 1. assert (Forall safe_elem [name]) as Hs by (by apply Forall_singleton).
  split; [by apply path_Join_abs|]. split; [by intros [_ ?]%app_eq_nil|]. apply Forall_app. split; [apply root_elems_safe|done].
Qed.
Lemma good_rooted p : good p -> HasPrefix p [slash] = true.
Proof. intros (ws & -> & _). apply abs_rooted. Qed.

(** The databases of the configuration keep the paths they are made for. *)
Lemma entry_path {replica} url_Parse url_String cwd home (NewReplica : ReplicaConfig -> result replica) dbc dirPath p db :
  good p -> newDBFromDirectoryEntry url_Parse url_String cwd home NewReplica dbc dirPath p = Ok db -> db_path db = p.
Proof.
  intros (ws & -> & _ & Hs). unfold newDBFromDirectoryEntry. destruct (filepath_Rel dirPath (abs ws)) as [rel|e|m]; cbn [wrap_err mbind result_bind]; [|done..].
  destruct (match dc_MetaPath dbc with Some _ => _ | None => _ end) as [mp|e|m]; cbn [mbind result_bind]; [|done..].
  destruct (match dc_Replica dbc with Some _ => _ | None => _ end) as [rc|e|m]; cbn [mbind result_bind]; [|done..].
  destruct (clone_all _ _ _ _) as [rcs|e|m]; cbn [mbind result_bind]; [|done..]. unfold NewDBFromConfig. cbn [dc_Path].
  rewrite expand_abs by done. cbn [mbind result_bind]. destruct (match mp with Some _ => _ | None => _ end) as [x|e|m]; cbn [mbind result_bind]; [|done..].
  destruct (match rc with Some _ => _ | None => _ end) as [y|e|m]; cbn [mbind result_bind]; [|done..].
  destruct (NewReplica y) as [r|e|m]; cbn [mbind result_bind]; [|done..]. by intros [= <-].
Qed.

Section Invariant.
Context {S : Type} `{HR : Registry S} (ok : S -> Prop) `{HL : !RegistryLaws S ok}.
Variables (dirPath pattern : str) (recursive : bool).
Variable newDB : str -> result str.
Hypothesis newDB_path : forall p q, good p -> newDB p = Ok q -> q = p.
(** Databases that others have registered. *)
Variable others : str -> Prop.

Abbreviation DM := (DirectoryMonitor S).

(** Between calls no path is left under construction, every tracked database has its own
    path, and every database of the store is tracked or registered by others. *)
Definition mon_inv (dm : DM) : Prop :=
  ok (dm_store dm) /\ (forall p o, dm_dbs dm !! p = Some o -> o = Some p /\ good p) /\
  (forall p, reg_has (dm_store dm) p -> others p \/ is_Some (dm_dbs dm !! p)) /\ (forall p, is_Some (dm_pendingEvents dm !! p) -> good p).

(** What a potential database becomes: nothing, or a tracked and registered database. *)
Lemma potential_spec w p dm : mon_inv dm -> good p ->
  let dm' := handlePotentialDatabase pattern newDB w p dm in
  mon_inv dm' /\ dm_watchedDirs dm' = dm_watchedDirs dm /\ dm_pendingEvents dm' = dm_pendingEvents dm /\ dm_debounceActive dm' = dm_debounceActive dm /\
  (dm_dbs dm' = dm_dbs dm \/ dm_dbs dm' = <[p := Some p]> (dm_dbs dm) /\ IsSQLiteDatabase (w_read w p) = true /\ reg_has (dm_store dm') p) /\
  (forall q, reg_has (dm_store dm) q -> reg_has (dm_store dm') q) /\
  (matchesPattern pattern p = true -> IsSQLiteDatabase (w_read w p) = true -> newDB p = Ok p -> w_open w p = None -> is_Some (dm_dbs dm' !! p)).
Proof.
  intros Hinv Hg. pose proof (good_ne p Hg) as Hne. unfold handlePotentialDatabase. destruct (matchesPattern pattern p); cbn [negb]; [|split_and!; auto; done].
  case_bool_decide as Hp; [by split_and!; auto|]. apply eq_None_not_Some in Hp. destruct (Hinv) as (Hok & Hd & Hs & Hpd).
  assert (base.delete p (<[p := None]> (dm_dbs dm)) = dm_dbs dm) as Hdel by (by rewrite delete_insert_eq, delete_id).
  assert (set_dbs (base.delete p) (set_dbs <[p := None]> dm) = dm) as Hf by (destruct dm; unfold set_dbs; cbn in *; by rewrite Hdel).
  destruct (IsSQLiteDatabase (w_read w p)) eqn:EQ; cbn [negb]; [|rewrite Hf; split_and!; auto; done].
  destruct (newDB p) as [q|e|m] eqn:EN; [|rewrite Hf; split_and!; auto; done..].
  apply newDB_path in EN as ->; [|done]. destruct (reg_add (w_open w p) p _) as [s e] eqn:EA. cbn [dm_store set_dbs] in EA.
  pose proof (add_ok (ok := ok) _ _ _ _ _ Hok Hne EA) as Hok'.
  destruct (add_spec (ok := ok) _ _ _ _ _ Hok Hne EA) as (Hopen & Hadd & Hfail). clear EA. destruct e as [e|]; cbn.
  - destruct (Hfail ltac:(done)) as [Hno Hh]. destruct (reg_remove (w_close w p) p s) as [s' e'] eqn:ER. pose proof (remove_ok (ok := ok) _ _ _ _ _ Hok' Hne ER).
    destruct (remove_spec (ok := ok) _ _ _ _ _ Hok' Hne ER) as (_ & _ & Hrem). unfold mon_inv. cbn. rewrite Hdel.
    assert (forall q, reg_has s' q <-> reg_has (dm_store dm) q) as Hsame by (intros q; rewrite Hrem, Hh; intuition congruence).
    split_and!; try done; [intros q Hq; apply Hs; by apply Hsame|by left|intros q Hq; by apply Hsame|].
    intros _ _ _ Ho. by apply Hopen in Ho.
  - specialize (Hadd eq_refl). rewrite insert_insert_eq. split_and!; try done.
    + unfold mon_inv. cbn. rewrite insert_insert_eq. split_and!; [done|intros q o [[<- <-]|[_ Hq]]%lookup_insert_Some; [done|by apply Hd]| |done].
      intros q Hq%Hadd. destruct (decide (q = p)) as [->|Hqp]; [right; by rewrite lookup_insert_eq|]. rewrite lookup_insert_ne by done.
      apply Hs. by destruct Hq.
    + right. split_and!; [done..|]. apply Hadd. by right.
    + intros q Hq. apply Hadd. by left.
    + intros _ _ _ _. by rewrite lookup_insert_eq.
Qed.

Lemma remove_inv w p dm : mon_inv dm ->
  let dm' := removeDatabase w p dm in
  mon_inv dm' /\ dm_watchedDirs dm' = dm_watchedDirs dm /\ dm_pendingEvents dm' = dm_pendingEvents dm /\ dm_debounceActive dm' = dm_debounceActive dm /\
  (dm_dbs dm' = dm_dbs dm \/ dm_dbs dm' = base.delete p (dm_dbs dm)) /\ (w_close w p = None -> dm_dbs dm' !! p = None) /\
  (forall q, q <> p -> reg_has (dm_store dm) q -> reg_has (dm_store dm') q).
Proof.
  intros (Hok & Hd & Hs & Hpd). unfold removeDatabase. destruct (dm_dbs dm !! p) as [[db|]|] eqn:EP.
  2:{ by destruct (Hd _ _ EP) as [? _]. }
  2:{ split_and!; auto; done. }
  destruct (Hd _ _ EP) as [[= ->] Hg]. pose proof (good_ne p Hg) as Hne. destruct (reg_remove _ _ _) as [s e] eqn:ER.
  pose proof (remove_ok (ok := ok) _ _ _ _ _ Hok Hne ER). destruct (remove_spec (ok := ok) _ _ _ _ _ Hok Hne ER) as (Hc & _ & Hrem). clear ER.
  unfold mon_inv. destruct e as [e|]; cbn; split_and!; try done.
  - intros q [Hq _]%Hrem. by apply Hs.
  - by left.
  - intros Hx. by apply Hc in Hx.
  - intros q Hqp Hq. by apply Hrem.
  - intros q o [_ Hq]%lookup_delete_Some. by apply Hd.
  - intros q [Hq Hqp]%Hrem. rewrite lookup_delete_ne by done. by apply Hs.
  - by right.
  - intros _. by rewrite lookup_delete_eq.
  - intros q Hqp Hq. by apply Hrem.
Qed.

Lemma close_each_inv w l dm : mon_inv dm -> Forall (fun x => dm_dbs dm !! x.1 = Some x.2) l -> NoDup l.*1 -> mon_inv (close_each w l dm).
Proof.
  revert dm. induction l as [|[p o] l IH]; intros dm Hi Hl Hn; cbn [close_each]; [done|]. apply Forall_cons in Hl as [Hp Hl]. cbn in Hp, Hn. apply NoDup_cons in Hn as [Hni Hn].
  assert (Forall (fun x => x.1 <> p) l) as Hne. { apply List.Forall_forall. intros x Hx E. apply Hni. rewrite <- E. apply list_elem_of_fmap. exists x. by rewrite list_elem_of_In. }
  destruct Hi as (Hok & Hd & Hs & Hpd). destruct (Hd _ _ Hp) as [-> Hg]. pose proof (good_ne p Hg) as Hpe. destruct (reg_remove _ _ _) as [s e] eqn:ER.
  pose proof (remove_ok (ok := ok) _ _ _ _ _ Hok Hpe ER). destruct (remove_spec (ok := ok) _ _ _ _ _ Hok Hpe ER) as (_ & _ & Hrem). clear ER.
  destruct e as [e|]; apply IH; cbn; try done.
  - split_and!; try done. intros q [Hq _]%Hrem. by apply Hs.
  - split_and!; cbn; [done| | |done].
    + intros q o [_ Hq]%lookup_delete_Some. by apply Hd.
    + intros q [Hq Hqp]%Hrem. rewrite lookup_delete_ne by done. by apply Hs.
  - rewrite List.Forall_forall in Hl, Hne |- *. intros x Hx. rewrite lookup_delete_ne by (symmetry; by apply Hne). by apply Hl.
Qed.
Lemma removeUnder_inv w dir dm : (forall l, w_order w l ≡ₚ l) -> mon_inv dm -> mon_inv (removeDatabasesUnder w dir dm).
Proof.
  intros Hord Hi. unfold removeDatabasesUnder. set (keys := w_order w _).
  assert (NoDup keys) as Hk. { unfold keys. rewrite Hord. apply NoDup_fst_map_to_list. }
  apply close_each_inv; [done| |].
  - apply List.Forall_forall. intros [p o] Hx%list_elem_of_In. apply list_elem_of_omap in Hx as (q & _ & Hq). destruct (is_under dir q); [|done].
    destruct (dm_dbs dm !! q) eqn:E; [|done]. cbn in Hq. by injection Hq as <- <-.
  - clearbody keys. induction Hk as [|p keys Hp Hk IH]; [constructor|]. cbn. destruct (is_under dir p); [|done]. destruct (dm_dbs dm !! p) as [o|]; [|done]. cbn.
    constructor; [|done]. intros Hx. apply Hp. apply list_elem_of_fmap in Hx as ([q o'] & -> & Hx). apply list_elem_of_omap in Hx as (q' & Hq' & Hx).
    destruct (is_under dir q'); [|done]. destruct (dm_dbs dm !! q'); [|done]. cbn in Hx. by injection Hx as <- _.
Qed.

(** Scans and watches. *)
Lemma watch_inv w p dm : mon_inv dm -> mon_inv (addDirectoryWatch w p dm).1.
Proof. intros Hi. unfold addDirectoryWatch. case_bool_decide; [done|]. by destruct (w_watch w (path_Clean p)). Qed.
Lemma potential_inv w p dm : mon_inv dm -> good p -> mon_inv (handlePotentialDatabase pattern newDB w p dm).
Proof. intros Hi Hg. apply (potential_spec w p dm Hi Hg). Qed.

Lemma scan_tree_inv w dir :
  (forall n, tree_ok n -> forall path dm, good path -> mon_inv dm -> mon_inv (scan_tree pattern newDB w dir path n dm)) /\
  (forall names, names_ok names -> forall path dm, good path -> mon_inv dm -> mon_inv (scan_names pattern newDB w dir path names dm)).
Proof.
  apply tree_ind; cbn [scan_tree scan_names tree_ok names_ok].
  - intros c _ path dm Hg Hi. by apply potential_inv.
  - intros names IH Hn path dm Hg Hi. apply IH; [done..|]. case_bool_decide; [done|by apply watch_inv].
  - intros e _ path dm Hg Hi. case_bool_decide; [done|by apply watch_inv].
  - done.
  - done.
  - intros name n IHn names IH (Hs & _ & Hn & Hns) path dm Hg Hi. apply IH; [done..|]. apply IHn; [done| |done]. apply good_join; [by apply good_rooted|done].
Qed.
Lemma scan_files_inv w dir names dm : names_ok names -> good dir -> mon_inv dm -> mon_inv (scan_files pattern newDB w dir names dm).
Proof.
  revert dm. induction names as [|name n names IH]; intros dm; cbn [scan_files names_ok]; [done|]. intros (Hs & _ & _ & Hns) Hg Hi. apply IH; [done..|].
  assert (good (path_Join [dir; name])) by (apply good_join; [by apply good_rooted|done]). destruct n; try done; by apply potential_inv.
Qed.
Lemma scanDirectory_inv w dir dm : tree_ok (w_tree w dir) -> good dir -> mon_inv dm -> mon_inv (scanDirectory pattern recursive newDB w dir dm).
Proof.
  intros Ht Hg Hi. unfold scanDirectory. destruct recursive; [by apply scan_tree_inv|]. destruct (w_tree w dir); try done. by apply scan_files_inv.
Qed.

(** Worlds with possible directories and loops, and events with possible names. *)
Definition world_ok (w : world) : Prop := (forall p, tree_ok (w_tree w p)) /\ forall l, w_order w l ≡ₚ l.
Definition wake_ok (k : wake) : Prop := match k with WEvent name _ => good (path_Clean name) | _ => True end.

Lemma same_dbs_inv (dm dm' : DM) :
  dm_dbs dm' = dm_dbs dm -> dm_store dm' = dm_store dm -> (forall p, is_Some (dm_pendingEvents dm' !! p) -> is_Some (dm_pendingEvents dm !! p) \/ good p) ->
  mon_inv dm -> mon_inv dm'.
Proof. intros E1 E2 E3 (H1 & H2 & H3 & H4). unfold mon_inv. rewrite E1, E2. split_and!; try done. intros p [Hp|Hp]%E3; [by apply H4|done]. Qed.
Lemma handleEvent_inv w name op dm : world_ok w -> good (path_Clean name) -> mon_inv dm ->
  mon_inv (handleEvent pattern recursive newDB w name op dm).1.
Proof.
  intros [Ht Hord] Hg Hi. unfold handleEvent. case_bool_decide; [done|]. destruct (shouldSkipPath _); [done|]. destruct (_ && negb (matchesPattern _ _)); [done|].
  set (dm1 := if _ && recursive then _ else _). assert (mon_inv dm1) as Hi1.
  { unfold dm1. destruct (_ && recursive); [|done]. apply scanDirectory_inv; [done..|by apply watch_inv]. }
  clearbody dm1. destruct (_ && has_op op (Z.lor Remove Rename)).
  { apply removeUnder_inv; [done|]. apply (same_dbs_inv dm1); [..|exact Hi1]; auto. }
  destruct (match w_isDir w (path_Clean name) with Ok _ => _ | _ => _ end); [done|]. destruct (match w_isDir w (path_Clean name) with Ok _ => _ | _ => _ end); [done|].
  destruct (has_op op _); [by apply remove_inv|]. destruct (has_op op _); [|done]. apply (same_dbs_inv dm1); [done..| |exact Hi1].
  intros p. cbn. destruct (decide (p = path_Clean name)) as [->|Hne]; [by right|]. rewrite lookup_insert_ne by done. by left.
Qed.

Lemma flush_each_inv w n l dm : Forall good l -> mon_inv dm ->
  let dm' := (flush_each pattern newDB w n l dm).1 in
  mon_inv dm' /\ dm_watchedDirs dm' = dm_watchedDirs dm /\ dm_pendingEvents dm' = dm_pendingEvents dm /\ dm_debounceActive dm' = dm_debounceActive dm.
Proof.
  revert n dm. induction l as [|p l IH]; intros n dm Hl Hi; cbn [flush_each]; [done|]. apply Forall_cons in Hl as [Hp Hl]. destruct (w_done w n); [done|].
  destruct (potential_spec w p dm Hi Hp) as (Hi' & E1 & E2 & E3 & _). destruct (IH (n + 1)%nat _ Hl Hi') as (H1 & H2 & H3 & H4). split_and!; [done|congruence..].
Qed.
Lemma flush_keys w dm : world_ok w -> mon_inv dm -> Forall good (w_order w ((map_to_list (dm_pendingEvents dm)).*1)).
Proof.
  intros [_ Hord] (_ & _ & _ & Hp). apply List.Forall_forall. intros p Hx%list_elem_of_In. rewrite Hord in Hx. apply list_elem_of_fmap in Hx as ([q o] & -> & Hx%elem_of_map_to_list).
  apply Hp. by exists o.
Qed.
Lemma flush_inv w dm : world_ok w -> mon_inv dm -> mon_inv (flushPendingEvents pattern newDB w dm).
Proof.
  intros Hw Hi. unfold flushPendingEvents. pose proof (flush_each_inv w 0 _ dm (flush_keys w dm Hw Hi) Hi) as (Hi' & _).
  destruct (flush_each _ _ _ _ _ _) as [dm1 fin]. cbn in Hi'. destruct fin; [|done]. apply (same_dbs_inv dm1); [done..| |exact Hi']. intros p [? Hx]. cbn in Hx. by rewrite lookup_empty in Hx.
Qed.
Lemma run_step_inv w k dm : world_ok w -> wake_ok k -> mon_inv dm -> mon_inv (run_step pattern recursive newDB w k dm).
Proof.
  intros Hw Hk Hi. destruct k as [name op| |]; cbn [run_step]; [|destruct (dm_debounceActive dm); [by apply flush_inv|done]|done].
  pose proof (handleEvent_inv w name op dm Hw Hk Hi) as Hi'. destruct (handleEvent _ _ _ _ _ _ _) as [dm1 q]. cbn in Hi'. destruct (_ && _); [|done].
  apply (same_dbs_inv dm1); auto.
Qed.

(** The monitor at its start. *)
Lemma watch_tree_inv w :
  (forall n path dm, mon_inv dm -> mon_inv (watch_tree w path n dm).1) /\ (forall names path dm, mon_inv dm -> mon_inv (watch_names w path names dm).1).
Proof.
  apply tree_ind; cbn [watch_tree watch_names]; try done.
  - intros names IH path dm Hi. pose proof (watch_inv w path dm Hi) as Hi'. destruct (addDirectoryWatch w path dm) as [dm' [e|]]; [done|by apply IH].
  - intros e path dm Hi. pose proof (watch_inv w path dm Hi) as Hi'. by destruct (addDirectoryWatch w path dm) as [dm' [e'|]].
  - intros name n IHn names IH path dm Hi. pose proof (IHn (path_Join [path; name]) dm Hi) as Hi'. destruct (watch_tree w _ n dm) as [dm' [e|]]; [done|by apply IH].
Qed.
Lemma NewDirectoryMonitor_inv w watcher existing s dm :
  ok s -> Forall good existing -> world_ok w -> good dirPath -> (forall p, reg_has s p -> others p \/ In p existing) ->
  NewDirectoryMonitor dirPath pattern recursive newDB w watcher existing s = Ok dm -> mon_inv dm.
Proof.
  intros Hok Hex [Ht Hord] Hg Hs. unfold NewDirectoryMonitor. destruct (w_isDir w dirPath) as [b|e|m]; cbn [mbind result_bind]; [|done..].
  destruct watcher as [[]|e|m]; cbn [mbind result_bind]; [|done..]. set (dm0 := mkDM _ _ _ _ _).
  assert (mon_inv dm0) as Hi0.
  { unfold mon_inv, dm0. cbn. split_and!; [done| | |by intros p [? ?%lookup_empty_Some]].
    - intros p o Hp%elem_of_list_to_map_2. apply list_elem_of_fmap in Hp as (q & [= -> ->] & Hq). split; [done|]. rewrite List.Forall_forall in Hex. apply Hex.
      rewrite in_rev. by apply list_elem_of_In.
    - intros p Hp. destruct (Hs p Hp) as [?|Hin]; [by left|right]. apply elem_of_dom. rewrite dom_list_to_map_L, elem_of_list_to_set, <- list_fmap_compose.
      apply list_elem_of_fmap. exists p. split; [done|]. apply list_elem_of_In. by rewrite <- in_rev. }
  clearbody dm0. assert (mon_inv (addInitialWatches dirPath recursive w dm0).1) as Hi1
    by (unfold addInitialWatches; destruct recursive; [by apply watch_tree_inv|by apply watch_inv]).
  destruct (addInitialWatches _ _ _ _) as [dm1 [e|]]; [done|]. intros [= <-]. by apply scanDirectory_inv.
Qed.

(** The monitor and the store stay together.  Whatever the file system, the watcher and
    the databases answer, errors and interruptions included, between two turns of the loop no path is
    under construction, every tracked database is tracked under its own path, and every database of the store is
    one the monitor tracks, or one that others have registered. *)
Theorem watch_invariant w watcher existing s dm turns :
  ok s -> Forall good existing -> world_ok w -> good dirPath -> (forall p, reg_has s p -> others p \/ In p existing) ->
  NewDirectoryMonitor dirPath pattern recursive newDB w watcher existing s = Ok dm ->
  Forall (fun t => world_ok t.1 /\ wake_ok t.2) turns ->
  mon_inv (foldl (fun dm t => run_step pattern recursive newDB t.1 t.2 dm) dm turns).
Proof.
  intros Hok Hex Hw Hg Hs HN Ht. apply NewDirectoryMonitor_inv in HN; try done. clear -HN Ht newDB_path HL. revert dm HN.
  induction Ht as [|[w k] turns [Hw Hk] _ IH]; intros dm Hi; cbn [foldl]; [done|]. by apply IH, run_step_inv.
Qed.
End Invariant.

(** ** A directory and its monitor *)

Section Converge.
Context {S : Type} `{HR : Registry S} (ok : S -> Prop) `{HL : !RegistryLaws S ok}.
Variables (dirPath pattern : str).
Variable newDB : str -> result str.
Hypothesis newDB_path : forall p q, good p -> newDB p = Ok q -> q = p.
Hypothesis dir_good : good dirPath.
Variable others : str -> Prop.

Abbreviation DM := (DirectoryMonitor S).
Abbreviation inv := (mon_inv ok others).

(** The paths the monitor cares about; a database can be made for each of them. *)
Definition scope (p : str) : Prop := good p /\ p <> dirPath /\ matchesPattern pattern p = true /\ shouldSkipPath p = false.
Hypothesis newDB_ok : forall p, scope p -> newDB p = Ok p.

(** A world in which the files are as given and nothing fails. *)
Record sees (w : world) (fs : gmap str str) : Prop := {
  see_ok : world_ok w;
  see_dir : forall p, p <> dirPath -> w_isDir w p = match fs !! p with Some _ => Ok false | None => Err ErrNotExist end;
  see_read : forall p, w_read w p = match fs !! p with Some c => Ok c | None => Err ErrNotExist end;
  see_open : forall p, w_open w p = None;
  see_close : forall p, w_close w p = None;
  see_done : forall n, w_done w n = false
}.
Definition is_db (fs : gmap str str) (p : str) : Prop := exists c, fs !! p = Some c /\ IsSQLiteDatabase (Ok c) = true.

Definition is_remove (op : Z) : bool := has_op op (Z.lor Remove Rename).
Definition is_write (op : Z) : bool := has_op op (Z.lor Create Write) && negb (is_remove op).

(** Files, the queue of the watcher, and the monitor. *)
Record sys := mkSys { y_fs : gmap str str; y_queue : list (str * Z); y_dm : DM }.

(** The moves of the monitor: the next event, and the timer. *)
Inductive own : sys -> sys -> Prop :=
| own_event w p op fs q dm : sees w fs -> own (mkSys fs ((p, op) :: q) dm) (mkSys fs q (run_step pattern false newDB w (WEvent p op) dm))
| own_timer w fs q dm : sees w fs -> own (mkSys fs q dm) (mkSys fs q (run_step pattern false newDB w WTimer dm)).
(** Files are written and removed, which is reported in order. *)
Inductive move : sys -> sys -> Prop :=
| move_own y y' : own y y' -> move y y'
| move_write p c op fs q dm : scope p -> is_write op = true -> move (mkSys fs q dm) (mkSys (<[p := c]> fs) (q ++ [(p, op)]) dm)
| move_remove p op fs q dm : scope p -> is_remove op = true -> is_Some (fs !! p) -> move (mkSys fs q dm) (mkSys (base.delete p fs) (q ++ [(p, op)]) dm).

Definition about (p : str) (q : list (str * Z)) : list (str * Z) := filter (fun e => e.1 = p) q.

(** The last report of a path says whether its file exists; without one, a database is tracked or
    waiting, and what is tracked exists. *)
Definition settled (fs : gmap str str) (q : list (str * Z)) (dm : DM) (p : str) : Prop :=
  match last (about p q) with
  | Some e => is_Some (fs !! p) <-> is_remove e.2 = false
  | None => (is_db fs p -> is_Some (dm_dbs dm !! p) \/ is_Some (dm_pendingEvents dm !! p)) /\ (is_Some (dm_dbs dm !! p) -> is_Some (fs !! p))
  end.
Record sys_ok (y : sys) : Prop := {
  j_inv : inv (y_dm y);
  j_watch : dm_watchedDirs (y_dm y) = {[dirPath]};
  j_pending : forall p, is_Some (dm_pendingEvents (y_dm y) !! p) -> scope p;
  j_timer : dm_pendingEvents (y_dm y) <> ∅ -> dm_debounceActive (y_dm y) = true;
  j_reg : forall p, is_Some (dm_dbs (y_dm y) !! p) -> reg_has (dm_store (y_dm y)) p;
  j_queue : Forall (fun e => scope e.1 /\ (is_write e.2 = true \/ is_remove e.2 = true)) (y_queue y);
  j_settled : forall p, scope p -> settled (y_fs y) (y_queue y) (y_dm y) p
}.

Lemma has_more op : has_op op (Z.lor Create Write) = true -> has_op op (Z.lor (Z.lor Create Write) Rename) = true.
Proof.
  unfold has_op. rewrite !negb_true_iff, !Z.eqb_neq. intros Hn E. apply Hn. change (Z.lor Create Write) with (Z.land (Z.lor (Z.lor Create Write) Rename) 3).
  by rewrite Z.land_assoc, E.
Qed.

(** The two kinds of events. *)
Lemma event_common w fs p op (dm : DM) : sees w fs -> scope p -> dm_watchedDirs dm = {[dirPath]} ->
  handleEvent pattern false newDB w p op dm =
  if is_remove op then (removeDatabase w p dm, false)
  else if has_op op (Z.lor (Z.lor Create Write) Rename)
  then (set_pending (fun m => <[p := Z.lor (default 0 (m !! p)) op]> m) dm, true) else (dm, false).
Proof.
  intros Hw (Hg & Hne & Hm & Hsk) HW. unfold handleEvent. rewrite (good_clean p Hg), bool_decide_eq_false_2, Hsk by (by apply good_ne).
  rewrite (see_dir _ _ Hw p Hne), Hm, HW. rewrite (bool_decide_eq_false_2 (p ∈ {[dirPath]})) by (by rewrite elem_of_singleton).
  rewrite andb_false_r. unfold is_remove. by destruct (fs !! p).
Qed.

Lemma own_write_ok fs p op q dm w : sys_ok (mkSys fs ((p, op) :: q) dm) -> sees w fs -> is_write op = true ->
  sys_ok (mkSys fs q (run_step pattern false newDB w (WEvent p op) dm)).
Proof.
  intros [Hi HW Hp Ht Hr Hq Hs] Hw Hop. cbn [y_fs y_queue y_dm] in *. apply Forall_cons in Hq as [[Hsc _] Hq]. cbn in Hsc. pose proof Hop as [Hop1 Hop2%negb_true_iff]%andb_true_iff.
  set (dm' := run_step pattern false newDB w (WEvent p op) dm). assert (exists b, dm' = mkDM (dm_dbs dm) (dm_watchedDirs dm) (<[p := b]> (dm_pendingEvents dm)) true (dm_store dm)) as [b E].
  { unfold dm', run_step. rewrite (event_common w fs) by done. rewrite Hop2, has_more by done. cbn. destruct (dm_debounceActive dm) eqn:Ed; cbn; eexists; unfold set_debounce, set_pending; cbn; rewrite ?Ed; reflexivity. }
  rewrite E. clear E dm'. split; cbn; try done.
  - apply (same_dbs_inv ok others dm); [done..| |done]. intros p'. cbn. destruct (decide (p' = p)) as [->|Hne]; [intros _; right; apply Hsc|]. rewrite lookup_insert_ne by done. by left.
  - intros p'. destruct (decide (p' = p)) as [->|Hne]; [done|]. rewrite lookup_insert_ne by done. apply Hp.
  - intros p' Hsp. specialize (Hs p' Hsp). unfold settled, about in *. rewrite filter_cons in Hs. cbn [fst] in Hs.
    destruct (decide (p = p')) as [<-|Hne]; cbn [dm_dbs dm_pendingEvents].
    + rewrite lookup_insert_eq. destruct (filter _ q) as [|e l]; [|rewrite last_cons_cons in Hs; destruct (last (e :: l)) eqn:EL; [exact Hs|by apply last_None in EL]]. cbn in Hs |- *. split; [by right|]. intros _. by apply Hs.
    + by rewrite lookup_insert_ne.
Qed.

Lemma own_remove_ok fs p op q dm w : sys_ok (mkSys fs ((p, op) :: q) dm) -> sees w fs -> is_remove op = true ->
  sys_ok (mkSys fs q (run_step pattern false newDB w (WEvent p op) dm)).
Proof.
  intros [Hi HW Hp Ht Hr Hq Hs] Hw Hop. cbn [y_fs y_queue y_dm] in *. apply Forall_cons in Hq as [[Hsc _] Hq]. cbn in Hsc.
  assert (run_step pattern false newDB w (WEvent p op) dm = removeDatabase w p dm) as -> by (unfold run_step; rewrite (event_common w fs) by done; by rewrite Hop).
  destruct (remove_inv ok others w p dm Hi) as (Hi' & E1 & E2 & E3 & Hd & Hn & Hreg). specialize (Hn (see_close _ _ Hw p)). set (dm' := removeDatabase w p dm) in *.
  assert (forall p', p' <> p -> dm_dbs dm' !! p' = dm_dbs dm !! p') as Hother by (intros p' Hne; destruct Hd as [-> | ->]; [done|by rewrite lookup_delete_ne]).
  split; cbn; rewrite ?E1, ?E2, ?E3; try done.
  - intros p' Hx. destruct (decide (p' = p)) as [->|Hne]; [rewrite Hn in Hx; by destruct Hx|]. apply Hreg; [done|]. apply Hr. by rewrite <- Hother.
  - intros p' Hsp. specialize (Hs p' Hsp). unfold settled, about in *. rewrite filter_cons in Hs. cbn [fst] in Hs. rewrite E2.
    destruct (decide (p = p')) as [<-|Hne]; [|by rewrite Hother]. rewrite Hn. destruct (filter _ q) as [|e l]; [|rewrite last_cons_cons in Hs; destruct (last (e :: l)) eqn:EL; [exact Hs|by apply last_None in EL]]. cbn in Hs |- *. rewrite Hop in Hs.
    split; [|by intros [? ?]]. intros (c & Hc & _). destruct Hs as [Hs _]. assert (is_Some (fs !! p)) as Hx by (by exists c). by apply Hs in Hx.
Qed.

(** A potential database, in a world without failures: tracked if and only if it was or is one. *)
Lemma potential_calm w fs p (dm : DM) : sees w fs -> good p -> inv dm -> (forall q, is_Some (dm_dbs dm !! q) -> reg_has (dm_store dm) q) ->
  let dm' := handlePotentialDatabase pattern newDB w p dm in
  inv dm' /\ (forall q, is_Some (dm_dbs dm' !! q) -> reg_has (dm_store dm') q) /\
  (forall q, scope q -> is_Some (dm_dbs dm' !! q) <-> is_Some (dm_dbs dm !! q) \/ (q = p /\ is_db fs p)).
Proof.
  intros Hw Hg Hi Hr dm'. destruct (potential_spec ok pattern newDB newDB_path others w p dm Hi Hg) as (Hi' & _ & _ & _ & Hcase & Hmono & Hyes).
  fold dm' in Hi', Hcase, Hmono, Hyes. rewrite (see_read _ _ Hw) in Hcase, Hyes.
  assert (is_db fs p <-> IsSQLiteDatabase (match fs !! p with Some c => Ok c | None => Err ErrNotExist end) = true) as Hdb.
  { unfold is_db. destruct (fs !! p) as [c|]; [|split; [intros (? & [=] & _)|done]]. split; [intros (c' & [= <-] & Hc); done|intros Hc; by exists c]. }
  split; [done|]. split.
  - intros q Hq. destruct Hcase as [E|(E & _ & Hp)]; rewrite E in Hq; [by apply Hmono, Hr|].
    destruct (decide (q = p)) as [->|Hne]; [done|]. rewrite lookup_insert_ne in Hq by done. by apply Hmono, Hr.
  - intros q Hsq. split.
    + destruct Hcase as [E|(E & Hx & _)]; rewrite E; [by left|]. destruct (decide (q = p)) as [->|Hne]; [right; split; [done|by apply Hdb]|]. rewrite lookup_insert_ne by done. by left.
    + intros [Hq|[-> Hq%Hdb]]; [|apply Hyes; [apply Hsq|done|by apply newDB_ok|apply (see_open _ _ Hw)]]. destruct Hcase as [E|(E & _)]; rewrite E; [done|].
      destruct (decide (q = p)) as [->|Hne]; [by rewrite lookup_insert_eq|by rewrite lookup_insert_ne].
Qed.
Lemma flush_calm w fs l n (dm : DM) : sees w fs -> Forall scope l -> inv dm -> (forall q, is_Some (dm_dbs dm !! q) -> reg_has (dm_store dm) q) ->
  exists dm', flush_each pattern newDB w n l dm = (dm', true) /\ inv dm' /\ (forall q, is_Some (dm_dbs dm' !! q) -> reg_has (dm_store dm') q) /\
  (forall q, scope q -> is_Some (dm_dbs dm' !! q) <-> is_Some (dm_dbs dm !! q) \/ (q ∈ l /\ is_db fs q)).
Proof.
  intros Hw. revert n dm. induction l as [|p l IH]; intros n dm Hl Hi Hr; cbn [flush_each].
  { exists dm. split_and!; try done. intros q _. rewrite elem_of_nil. tauto. }
  apply Forall_cons in Hl as [Hp Hl]. rewrite (see_done _ _ Hw). destruct (potential_calm w fs p dm Hw (proj1 Hp) Hi Hr) as (Hi' & Hr' & Hiff).
  destruct (IH (n + 1)%nat _ Hl Hi' Hr') as (dm' & -> & Hi2 & Hr2 & Hiff2). exists dm'. split_and!; try done.
  intros q Hsq. rewrite Hiff2, Hiff, elem_of_cons by done. split; [intros [[?|[-> ?]]|[? ?]]; tauto|intros [?|[[->|?] ?]]; tauto].
Qed.

Lemma own_timer_ok fs q dm w : sys_ok (mkSys fs q dm) -> sees w fs -> sys_ok (mkSys fs q (run_step pattern false newDB w WTimer dm)).
Proof.
  intros HJ Hw. pose proof HJ as [Hi HW Hp Ht Hr Hq Hs]. cbn [y_fs y_queue y_dm] in *. cbn [run_step]. destruct (dm_debounceActive dm) eqn:Ed; [|done].
  unfold flushPendingEvents. set (l := w_order w _).
  assert (forall p, p ∈ l <-> is_Some (dm_pendingEvents dm !! p)) as Hl.
  { intros p. unfold l. rewrite (proj2 (see_ok _ _ Hw)), list_elem_of_fmap. split.
    - intros ([k v] & -> & Hx%elem_of_map_to_list). by exists v.
    - intros [v Hv]. exists (p, v). split; [done|by apply elem_of_map_to_list]. }
  assert (Forall scope l) as Hsl by (apply List.Forall_forall; intros p Hx%list_elem_of_In%Hl; by apply Hp).
  destruct (flush_calm w fs l 0 dm Hw Hsl Hi Hr) as (dm' & EF & Hi' & Hr' & Hiff). rewrite EF.
  assert (dm_watchedDirs dm' = dm_watchedDirs dm) as EW.
  { pose proof (flush_each_inv ok pattern newDB newDB_path others w 0 l dm) as Hx. rewrite EF in Hx. apply Hx; [|done]. eapply Forall_impl; [exact Hsl|]. by intros p [? _]. }
  split; cbn; rewrite ?EW; try done.
  - apply (same_dbs_inv ok others dm'); [done..| |done]. intros p [? Hx]. cbn in Hx. by rewrite lookup_empty in Hx.
  - intros p [? Hx]. by rewrite lookup_empty in Hx.
  - intros p Hsp. specialize (Hs p Hsp). unfold settled in *. cbn. destruct (last (about p q)); [done|]. destruct Hs as [Hs1 Hs2]. split.
    + intros Hdb. left. apply Hiff; [done|]. destruct (Hs1 Hdb) as [?|Hpe]; [by left|right]. split; [by apply Hl|done].
    + intros Hx. apply Hiff in Hx as [?|[_ (c & Hc & _)]]; [by apply Hs2|by exists c|done].
Qed.

Lemma about_snoc p q p' op : about p (q ++ [(p', op)]) = if decide (p' = p) then about p q ++ [(p', op)] else about p q.
Proof. unfold about. rewrite filter_app, filter_cons, filter_nil. cbn. case_decide; [done|]. by rewrite app_nil_r. Qed.
Lemma write_is_not_remove op : is_write op = true -> is_remove op = false.
Proof. unfold is_write. intros [_ ?%negb_true_iff]%andb_true_iff. done. Qed.

Lemma move_ok y y' : sys_ok y -> move y y' -> sys_ok y'.
Proof.
  intros HJ Hm. destruct Hm as [y y' [w p op fs q dm Hw|w fs q dm Hw]|p c op fs q dm Hsc Hop|p op fs q dm Hsc Hop Hex].
  - pose proof (j_queue _ HJ) as Hq. cbn in Hq. apply Forall_cons in Hq as [[_ [Hw1|Hr1]] _]; [by apply own_write_ok|by apply own_remove_ok].
  - by apply own_timer_ok.
  - destruct HJ as [Hi HW Hp Ht Hr Hq Hs]. cbn in *. split; cbn; try done.
    + apply Forall_app. split; [done|]. apply Forall_singleton. split; [done|by left].
    + intros p' Hsp. specialize (Hs p' Hsp). unfold settled in *. rewrite about_snoc. case_decide as Hd.
      * subst p'. rewrite last_snoc. cbn. rewrite lookup_insert_eq, (write_is_not_remove op Hop). done.
      * destruct (last (about p' q)); unfold is_db in *; by rewrite lookup_insert_ne.
  - destruct HJ as [Hi HW Hp Ht Hr Hq Hs]. cbn in *. split; cbn; try done.
    + apply Forall_app. split; [done|]. apply Forall_singleton. split; [done|by right].
    + intros p' Hsp. specialize (Hs p' Hsp). unfold settled in *. rewrite about_snoc. case_decide as Hd.
      * subst p'. rewrite last_snoc. cbn. rewrite lookup_delete_eq, Hop. split; [by intros [? ?]|done].
      * destruct (last (about p' q)); unfold is_db in *; by rewrite lookup_delete_ne.
Qed.

(** The start: the directory is listed, with every file in it. *)
Fixpoint listed (p : str) (names : entries) : Prop :=
  match names with
  | ENil => False
  | ECons name n names => (p = path_Join [dirPath; name] /\ match n with NDir _ | NUnreadable _ => False | _ => True end) \/ listed p names
  end.
Lemma scan_calm w fs names (dm : DM) : sees w fs -> names_ok names -> inv dm -> (forall q, is_Some (dm_dbs dm !! q) -> reg_has (dm_store dm) q) ->
  let dm' := scan_files pattern newDB w dirPath names dm in
  inv dm' /\ (forall q, is_Some (dm_dbs dm' !! q) -> reg_has (dm_store dm') q) /\
  (forall q, scope q -> is_Some (dm_dbs dm' !! q) <-> is_Some (dm_dbs dm !! q) \/ (listed q names /\ is_db fs q)).
Proof.
  intros Hw. revert dm. induction names as [|name n names IH]; intros dm; cbn [scan_files names_ok listed]; [intros; split_and!; try done; tauto|].
  intros (Hsn & _ & _ & Hns) Hi Hr. set (p := path_Join [dirPath; name]). assert (good p) as Hg by (apply good_join; [by apply good_rooted|done]).
  destruct (potential_calm w fs p dm Hw Hg Hi Hr) as (Hi' & Hr' & Hiff).
  destruct n; [destruct (IH _ Hns Hi' Hr') as (H1 & H2 & H3)|destruct (IH _ Hns Hi Hr) as (H1 & H2 & H3)|destruct (IH _ Hns Hi Hr) as (H1 & H2 & H3)|
    destruct (IH _ Hns Hi' Hr') as (H1 & H2 & H3)].
  all: split_and!; [exact H1|exact H2|]; intros q Hq; rewrite H3 by done; rewrite ?Hiff by done; intuition (subst; tauto).
Qed.
Lemma potential_same w p (dm : DM) :
  let dm' := handlePotentialDatabase pattern newDB w p dm in
  dm_watchedDirs dm' = dm_watchedDirs dm /\ dm_pendingEvents dm' = dm_pendingEvents dm /\ dm_debounceActive dm' = dm_debounceActive dm.
Proof.
  unfold handlePotentialDatabase. destruct (negb _); [done|]. case_bool_decide; [done|]. destruct (negb _); [done|]. destruct (newDB p); [|done..].
  by destruct (reg_add _ _ _) as [s' [e|]].
Qed.
Lemma scan_same w dir names (dm : DM) :
  let dm' := scan_files pattern newDB w dir names dm in
  dm_watchedDirs dm' = dm_watchedDirs dm /\ dm_pendingEvents dm' = dm_pendingEvents dm /\ dm_debounceActive dm' = dm_debounceActive dm.
Proof.
  revert dm. induction names as [|name n names IH]; intros dm; cbn [scan_files]; [done|]. pose proof (potential_same w (path_Join [dir; name]) dm) as (E1 & E2 & E3).
  destruct n; [destruct (IH (handlePotentialDatabase pattern newDB w (path_Join [dir; name]) dm)) as (-> & -> & ->)|apply IH|apply IH|
    destruct (IH (handlePotentialDatabase pattern newDB w (path_Join [dir; name]) dm)) as (-> & -> & ->)]; done.
Qed.

Lemma existing_tracked (existing : list str) p o :
  (list_to_map ((fun p => (p, Some p)) <$> rev existing) : gmap str (option str)) !! p = Some o -> o = Some p /\ In p existing.
Proof.
  intros Hp%elem_of_list_to_map_2. apply list_elem_of_fmap in Hp as (q & [= -> ->] & Hq). split; [done|]. rewrite in_rev. by apply list_elem_of_In.
Qed.
Lemma tracked_existing (existing : list str) p :
  In p existing -> is_Some ((list_to_map ((fun p => (p, Some p)) <$> rev existing) : gmap str (option str)) !! p).
Proof.
  intros Hin. apply elem_of_dom. rewrite dom_list_to_map_L, elem_of_list_to_set, <- list_fmap_compose.
  apply list_elem_of_fmap. exists p. split; [done|]. apply list_elem_of_In. by rewrite <- in_rev.
Qed.

(** The databases the monitor is started with are registered, and those below the directory have their files. *)
Record started (existing : list str) (fs : gmap str str) (s : S) : Prop := {
  sd_good : Forall good existing;
  sd_reg : forall p, In p existing -> reg_has s p;
  sd_file : forall p, In p existing -> scope p -> is_Some (fs !! p);
  sd_others : forall p, reg_has s p -> others p \/ In p existing
}.

Lemma start_ok w watcher fs names existing s dm :
  sees w fs -> ok s -> started existing fs s -> w_tree w dirPath = NDir names -> (forall p, is_Some (fs !! p) -> scope p -> listed p names) ->
  NewDirectoryMonitor dirPath pattern false newDB w watcher existing s = Ok dm -> sys_ok (mkSys fs [] dm).
Proof.
  intros Hw Hok [Hgood Hreg Hfile Hoth] Htree Hlist. unfold NewDirectoryMonitor. destruct (w_isDir w dirPath) as [b|e|m]; cbn [mbind result_bind]; [|done..].
  destruct watcher as [[]|e|m]; cbn [mbind result_bind]; [|done..]. unfold addInitialWatches, addDirectoryWatch. cbn [dm_watchedDirs].
  rewrite (good_clean dirPath dir_good), bool_decide_eq_false_2 by (apply not_elem_of_empty). destruct (w_watch w dirPath) as [e|]; [done|]. unfold scanDirectory. rewrite Htree.
  set (dm0 := set_watched _ _). intros [= <-]. assert (names_ok names) as Hn by (pose proof (proj1 (see_ok _ _ Hw) dirPath) as Hx; by rewrite Htree in Hx).
  assert (inv dm0) as Hi0.
  { unfold mon_inv, dm0. cbn. split_and!; [done| | |by intros p [? ?%lookup_empty_Some]].
    - intros p o [-> Hin]%existing_tracked. split; [done|]. rewrite List.Forall_forall in Hgood. by apply Hgood.
    - intros p Hp. destruct (Hoth p Hp) as [?|Hin]; [by left|right]. by apply tracked_existing. }
  assert (forall p, is_Some (dm_dbs dm0 !! p) -> In p existing) as F0 by (intros p [o Ho]; by apply (existing_tracked existing p o)).
  assert (dm_store dm0 = s /\ dm_pendingEvents dm0 = ∅ /\ dm_watchedDirs dm0 = {[dirPath]}) as (F1 & F2 & F3) by (split_and!; [done..|unfold dm0; cbn; by rewrite (right_id_L ∅ (∪))]).
  clearbody dm0. destruct (scan_calm w fs names dm0 Hw Hn Hi0) as (Hi' & Hr' & Hiff); [rewrite F1; intros q Hq; by apply Hreg, F0|].
  destruct (scan_same w dirPath names dm0) as (E1 & E2 & E3). rewrite F2 in E2. rewrite F3 in E1. split; cbn; try done.
  - rewrite E2. by intros p [? ?%lookup_empty_Some].
  - intros p Hp. cbn. split.
    + intros Hdb. left. apply Hiff; [done|]. right. split; [|done]. destruct Hdb as (c & Hc & _). by apply Hlist; [exists c|].
    + intros Hx. apply Hiff in Hx as [Hx|[_ (c & Hc & _)]]; [by apply Hfile, Hp; apply F0|by exists c|done].
Qed.

(** A world for given files. *)
Definition calm_world (fs : gmap str str) : world :=
  mkWorld (fun p => if bool_decide (p = dirPath) then Ok true else match fs !! p with Some _ => Ok false | None => Err ErrNotExist end)
    (fun p => match fs !! p with Some c => Ok c | None => Err ErrNotExist end) (fun _ => NDir ENil) (fun _ => None) (fun _ => None) (fun _ => None) (fun _ => false) (fun l => l).
Lemma calm_sees fs : sees (calm_world fs) fs.
Proof. split; try done. intros p Hp. cbn. by rewrite bool_decide_eq_false_2. Qed.

Definition quiet (y : sys) : Prop := y_queue y = [] /\ dm_debounceActive (y_dm y) = false.
Lemma reaches_quiet y : sys_ok y -> exists y', rtc own y y' /\ y_fs y' = y_fs y /\ quiet y'.
Proof.
  destruct y as [fs q dm]. revert dm. induction q as [|[p op] q IH]; intros dm HJ.
  - destruct (dm_debounceActive dm) eqn:Ed; [|by exists (mkSys fs [] dm)]. eexists. split; [apply rtc_once, own_timer, calm_sees|]. split; [done|]. split; [done|].
    cbn [y_dm run_step]. rewrite Ed. unfold flushPendingEvents. destruct HJ as [Hi _ Hp _ Hr _ _]. cbn in *.
    assert (Forall scope ((map_to_list (dm_pendingEvents dm)).*1)) as Hl.
    { apply List.Forall_forall. intros p Hx%list_elem_of_In. apply list_elem_of_fmap in Hx as ([k v] & -> & Hx%elem_of_map_to_list). apply Hp. by exists v. }
    destruct (flush_calm (calm_world fs) fs _ 0 dm (calm_sees fs) Hl Hi Hr) as (dm' & -> & _). done.
  - pose proof (own_event (calm_world fs) p op fs q dm (calm_sees fs)) as Ho. destruct (IH _ (move_ok _ _ HJ (move_own _ _ Ho))) as (y' & H1 & H2 & H3).
    exists y'. split; [by eapply rtc_l|done].
Qed.

End Converge.

(** ** The store as a registry *)

Module StoreRegistry.
Section Inst.
(** Growth of the slice, and the settings a new database has. *)
Variable grow : nat -> nat.
Variable fresh_settings : settings.

Definition name (p : str) : string := string_of_list_ascii p.
Lemma name_inj p q : name p = name q -> p = q.
Proof. intros E. rewrite <- (list_ascii_of_string_of_list_ascii p), <- (list_ascii_of_string_of_list_ascii q). by f_equal. Qed.

(** A call that no other call interrupts. *)
Fixpoint run (fuel : nat) (oc : outcome) (c : pc) (s : Store) : Store * result () :=
  match c, fuel with
  | Fin r, _ => (s, r)
  | _, O => (s, Panic "running")
  | _, Datatypes.S fuel => let '(s, c) := step grow oc c s in run fuel oc c s
  end.
Lemma run_to fuel oc c s s' c' : match c with Fin _ => False | _ => True end -> step grow oc c s = (s', c') -> run (Datatypes.S fuel) oc c s = run fuel oc c' s'.
Proof. intros Hc E. destruct c; [..|done]; cbn [run]; by rewrite E. Qed.
Lemma run_fin fuel oc r s : run fuel oc (Fin r) s = (s, r).
Proof. by destruct fuel. Qed.
Definition err_of (r : result ()) : option error := match r with Ok _ => None | Err e => Some e | Panic m => Some (EMsg m) end.
Definition new_object (p : str) (s : Store) : nat * Store :=
  let ptr := fresh (dom (st_objects s)) in (ptr, set_objects (<[ptr := mkObject (name p) false fresh_settings false false 0]> (st_objects s)) s).

#[export] Instance store_registry : Registry Store := {
  reg_add oc p s := let '(ptr, s) := new_object p s in let '(s, r) := run 4 (mkOutcome oc None None None) (RegStart ptr) s in (s, err_of r);
  reg_remove oc p s := let '(s, r) := run 2 (mkOutcome None oc None None) (UnregStart (name p)) s in (s, err_of r);
  reg_has s p := exists q, Some q ∈ dbs s /\ path_of s q = Some (name p)
}.
Definition store_ok (s : Store) : Prop := exists ps, registry s ps.

Lemma has_registry s ps p : registry s ps -> (reg_has s p <-> exists q, In q ps /\ path_of s q = Some (name p)).
Proof.
  intros (Hd & _). cbn. rewrite Hd. split; intros (q & Hq & Hp); exists q; (split; [|done]).
  - apply list_elem_of_fmap in Hq as (q' & [= ->] & Hq). by apply list_elem_of_In.
  - apply list_elem_of_fmap. exists q. split; [done|by apply list_elem_of_In].
Qed.
Lemma has_update s ps p f q : registry s ps -> (forall o, o_path (f o) = o_path o) -> (reg_has (update p f s) q <-> reg_has s q).
Proof.
  intros Hr Hf. rewrite (has_registry _ _ _ (registry_update p f s ps Hf Hr)), (has_registry _ _ _ Hr).
  split; intros (x & Hx & Hp); exists x; (split; [done|]); [by rewrite path_update in Hp|by rewrite path_update].
Qed.
Lemma new_object_registry p s ps : registry s ps ->
  let '(ptr, s') := new_object p s in registry s' ps /\ path_of s' ptr = Some (name p) /\ is_Some (st_objects s' !! ptr) /\ forall q, reg_has s' q <-> reg_has s q.
Proof.
  intros Hr. unfold new_object. set (ptr := fresh _). assert (st_objects s !! ptr = None) as Hf by (apply not_elem_of_dom, is_fresh).
  set (s' := set_objects _ s). assert (forall q, In q ps -> path_of s' q = path_of s q) as Hpath.
  { intros q Hq. destruct Hr as (_ & _ & Hob & _). unfold path_of, s'. cbn [st_objects set_objects]. rewrite lookup_insert_ne; [done|]. intros <-. apply Hob in Hq as [? ?]. congruence. }
  assert (registry s' ps) as Hr'.
  { destruct Hr as (Hd & Hnd & Hob & Hl). split; [done|]. split; [|split; [|done]].
    - erewrite list_fmap_ext; [exact Hnd|]. intros j q Hq. apply Hpath. by apply list_elem_of_lookup_2, list_elem_of_In in Hq.
    - intros q Hq. unfold s'. cbn. destruct (decide (q = ptr)) as [->|Hne]; [by rewrite lookup_insert_eq|]. rewrite lookup_insert_ne by done. by apply Hob. }
  split_and!; [done|unfold path_of, s'; cbn; by rewrite lookup_insert_eq|unfold s'; cbn; by rewrite lookup_insert_eq|].
  intros q. rewrite (has_registry _ _ _ Hr'), (has_registry _ _ _ Hr). split; intros (x & Hx & Hp); exists x; (split; [done|]); [by rewrite Hpath in Hp|by rewrite Hpath].
Qed.

Lemma has_append s ps ptr p : registry s ps -> is_Some (st_objects s !! ptr) -> path_of s ptr = Some (name p) -> ~ reg_has s p ->
  registry (slice_append grow ptr s) (ps ++ [ptr]) /\ forall q, reg_has (slice_append grow ptr s) q <-> reg_has s q \/ q = p.
Proof.
  intros Hr Ho Hp Hno. assert (registry (slice_append grow ptr s) (ps ++ [ptr])) as Hr'.
  { apply registry_append; [done..|]. intros q Hq E. apply Hno. apply (has_registry _ _ _ Hr). exists q. split; [done|]. by rewrite E. }
  split; [done|]. assert (st_objects (slice_append grow ptr s) = st_objects s) as Hso by (unfold slice_append; by case_if).
  intros q. rewrite (has_registry _ _ _ Hr'), (has_registry _ _ _ Hr). unfold path_of in *. rewrite Hso. split.
  - intros (x & [Hx|[<-|[]]]%in_app_or & Hpx); [left; by exists x|right]. apply name_inj. congruence.
  - intros [(x & Hx & Hpx)| ->]; [exists x|exists ptr]; (split; [apply in_or_app|done]); [by left|right; by left].
Qed.

Lemma store_add oc p s s' e : store_ok s -> reg_add oc p s = (s', e) ->
  store_ok s' /\ (oc = None -> e = None) /\ (e = None -> forall q, reg_has s' q <-> reg_has s q \/ q = p) /\
  (e <> None -> ~ reg_has s p /\ forall q, reg_has s' q <-> reg_has s q).
Proof.
  intros [ps Hr]. cbn [reg_add store_registry]. pose proof (new_object_registry p s ps Hr) as Hnew. destruct (new_object p s) as [ptr s1].
  destruct Hnew as (Hr1 & Hp1 & Ho1 & Hsame). set (out := mkOutcome oc None None None).
  destruct (find_dbs s1 ps (name p) Hr1) as [(j & q & HF & _ & Hq & Hpq)|[HF Hno]].
  { rewrite (run_to 3 out (RegStart ptr) s1 s1 (Fin (Ok ()))), run_fin by first [exact I|cbn [step]; rewrite Hp1; cbn [default from_option id]; by rewrite HF].
    intros [= <- <-]. split_and!; [by exists ps|done| |done]. intros _ x. rewrite Hsame. split; [by left|]. intros [?| ->]; [done|]. apply Hsame.
    apply (has_registry _ _ _ Hr1). exists q. split; [|done]. by apply list_elem_of_lookup_2, list_elem_of_In in Hq. }
  assert (~ reg_has s1 p) as Hno1 by (intros (x & Hx & Hpx)%(has_registry _ _ _ Hr1); by apply (Hno x)).
  rewrite (run_to 3 out (RegStart ptr) s1 s1 (RegApply ptr)) by first [exact I|cbn [step]; rewrite Hp1; cbn [default from_option id]; by rewrite HF].
  set (s2 := update ptr (set_settings (st_settings s1)) s1). rewrite (run_to 2 out _ _ s2 (RegOpen ptr)) by done.
  assert (registry s2 ps) as Hr2 by (by apply registry_update). assert (forall q, reg_has s2 q <-> reg_has s1 q) as Hs2 by (intros; by eapply has_update).
  destruct oc as [er|].
  { rewrite (run_to 1 out _ _ s2 (Fin (Err (EWrap "open db" er)))), run_fin by done. intros [= <- <-]. split_and!; [by exists ps|done|done|].
    intros _. split; [by rewrite <- Hsame|]. intros q. by rewrite Hs2. }
  set (s3 := open_db ptr s2). rewrite (run_to 1 out _ _ s3 (RegInsert ptr)) by done.
  assert (registry s3 ps) as Hr3 by (apply registry_update; [apply open_db_path|done]).
  assert (forall q, reg_has s3 q <-> reg_has s1 q) as Hs3 by (intros; unfold s3, open_db; rewrite (has_update _ ps) by first [done|apply open_db_path]; apply Hs2).
  assert (path_of s3 ptr = Some (name p)) as Hp3 by (unfold s3, s2, open_db; rewrite !path_update by first [done|apply open_db_path]; done).
  assert (is_Some (st_objects s3 !! ptr)) as Ho3 by (unfold s3, s2, open_db; by rewrite !object_update).
  destruct (find_dbs s3 ps (name p) Hr3) as [(j & q & _ & _ & Hq & Hpq)|[HF3 _]].
  { destruct Hno1. apply Hs3. apply (has_registry _ _ _ Hr3). exists q. split; [|done]. by apply list_elem_of_lookup_2, list_elem_of_In in Hq. }
  rewrite (run_to 0 out _ _ (slice_append grow ptr s3) (Fin (Ok ()))), run_fin by first [exact I|cbn [step]; rewrite Hp3; cbn [default from_option id]; by rewrite HF3].
  intros [= <- <-]. destruct (has_append s3 ps ptr p Hr3 Ho3 Hp3) as [Hr4 Hs4]; [by rewrite Hs3|]. split_and!; [by eexists|done| |done].
  intros _ q. by rewrite Hs4, Hs3, Hsame.
Qed.

Lemma has_delete s ps j ptr p : registry s ps -> (j < st_len s)%nat -> ps !! j = Some ptr -> path_of s ptr = Some (name p) ->
  forall q, reg_has (slice_delete j s) q <-> reg_has s q /\ q <> p.
Proof.
  intros Hr Hj Hptr Hp q. pose proof (registry_delete j s ps Hr Hj) as Hr'. rewrite (has_registry _ _ _ Hr'), (has_registry _ _ _ Hr).
  change (path_of (slice_delete j s)) with (path_of s). destruct Hr as (_ & Hnd & _). split.
  - intros (x & Hx & Hpx). apply list_elem_of_In, list_elem_of_lookup in Hx as [i Hi]. assert (ps !! (if decide (i < j)%nat then i else Datatypes.S i) = Some x) as Hi'.
    { case_decide; [by rewrite list_lookup_delete_lt in Hi|]. rewrite list_lookup_delete_ge in Hi by lia. done. }
    split; [exists x; split; [apply list_elem_of_In; by apply list_elem_of_lookup_2 in Hi'|done]|].
    intros ->. assert ((if decide (i < j)%nat then i else Datatypes.S i) = j) as E.
    { apply (NoDup_lookup _ _ _ (Some (name p)) Hnd); rewrite list_lookup_fmap; [rewrite Hi'|rewrite Hptr]; cbn; by f_equal. }
    case_decide; lia.
  - intros [(x & Hx & Hpx) Hne]. exists x. split; [|done]. apply list_elem_of_In, list_elem_of_lookup in Hx as [i Hi]. apply list_elem_of_In, list_elem_of_lookup.
    destruct (decide (i = j)) as [->|Hij]; [rewrite Hptr in Hi; injection Hi as <-; rewrite Hp in Hpx; injection Hpx as E%name_inj; congruence|].
    destruct (decide (i < j)%nat); [exists i; by rewrite list_lookup_delete_lt|]. exists (i - 1)%nat. rewrite list_lookup_delete_ge by lia. by replace (Datatypes.S (i - 1)) with i by lia.
Qed.
Lemma store_remove oc p s s' e : store_ok s -> p <> [] -> reg_remove oc p s = (s', e) ->
  store_ok s' /\ (oc = None -> e = None) /\ (~ reg_has s p -> e = None) /\ forall q, reg_has s' q <-> reg_has s q /\ q <> p.
Proof.
  intros [ps Hr] Hne. cbn [reg_remove store_registry]. set (out := mkOutcome None oc None None). assert (name p <> "") as Hnm by (intros E; apply Hne; by destruct p).
  destruct (find_dbs s ps (name p) Hr) as [(j & ptr & HF & Hj & Hptr & Hp)|[HF Hno]].
  - rewrite (run_to 1 out _ _ (slice_delete j s) (UnregClose ptr)) by first [exact I|cbn [step]; rewrite bool_decide_eq_false_2 by done; by rewrite HF].
    rewrite (run_to 0 out _ _ (close_db ptr (slice_delete j s)) (Fin (nil_err "close db" oc))), run_fin by done. intros [= <- <-].
    pose proof (registry_delete j s ps Hr Hj) as Hr'. assert (reg_has s p) as Hh.
    { apply (has_registry _ _ _ Hr). exists ptr. split; [|done]. by apply list_elem_of_lookup_2, list_elem_of_In in Hptr. }
    split_and!; [eexists; by apply registry_update|by intros ->|done|]. intros q. unfold close_db. rewrite (has_update _ _ _ _ _ Hr') by done. by eapply has_delete.
  - rewrite (run_to 1 out _ _ s (Fin (Ok ()))), run_fin by first [exact I|cbn [step]; rewrite bool_decide_eq_false_2 by done; by rewrite HF]. intros [= <- <-].
    split_and!; [by exists ps|done..|]. intros q. split; [|tauto]. intros Hq. split; [done|]. intros ->. apply (has_registry _ _ _ Hr) in Hq as (x & Hx & Hpx). by apply (Hno x).
Qed.

#[export] Instance store_laws : RegistryLaws Store store_ok.
Proof.
  split.
  - intros oc p s s' e Hok _ H. by eapply store_add in H as (? & _).
  - intros oc p s s' e Hok _ H. by eapply store_add in H as (_ & ?).
  - intros oc p s s' e Hok Hne H. by eapply store_remove in H as (? & _).
  - intros oc p s s' e Hok Hne H. by eapply store_remove in H as (_ & ?).
Qed.
End Inst.
End StoreRegistry.

(** ** A directory with one database *)
Module DirWatchDemo.
Export StoreRegistry.
Definition dir : str := lit "/srv/data".
Definition a_db : str := lit "/srv/data/a.db".
Definition empty_store : Store := mkStore {[0%nat := []]} 0 0 ∅ StoreDemo.cfg0.
Definition reg : Registry Store := store_registry StoreDemo.grow StoreDemo.cfg0.
Definition newDB (p : str) : result str := Ok p.
Definition contents : str := sqlite_magic ++ lit "page".
Definition files_with : gmap str str := {[a_db := contents]}.
(** The world with these files, whose closing of databases can fail. *)
Definition seen (fs : gmap str str) (close : option error) : world :=
  let w := calm_world dir fs in
  mkWorld (w_isDir w) (w_read w) (fun _ => NDir (if bool_decide (is_Some (fs !! a_db)) then ECons (lit "a.db") (NFile (Ok contents)) ENil else ENil)) (w_watch w) (w_open w)
    (fun _ => close) (w_done w) (w_order w).
Definition start (fs : gmap str str) : result (DirectoryMonitor Store) := @NewDirectoryMonitor Store reg dir (lit "*.db") false newDB (seen fs None) (Ok ()) [] empty_store.
Definition turn (w : world) (k : wake) (dm : DirectoryMonitor Store) : DirectoryMonitor Store := @run_step Store reg (lit "*.db") false newDB w k dm.
(** The paths of the registered databases, and the tracked paths. *)
Definition registered (dm : DirectoryMonitor Store) : list (option string) := (fun o => o ≫= path_of (dm_store dm)) <$> dbs (dm_store dm).
Definition tracked (dm : DirectoryMonitor Store) : list str := (map_to_list (dm_dbs dm)).*1.

Example found_at_start : (dm ← start files_with; Ok (registered dm)) = Ok [Some "/srv/data/a.db"%string].
Proof. vm_compute. reflexivity. Qed.
Example created_later :
  (dm ← start ∅; let dm := turn (seen files_with None) (WEvent a_db Create) dm in
   let dm' := turn (seen files_with None) WTimer dm in Ok (registered dm, registered dm')) = Ok ([], [Some "/srv/data/a.db"%string]).
Proof. vm_compute. reflexivity. Qed.

(** A database that fails to close when its file is removed stays tracked although the store has
    forgotten it: when the file is created again, it is not replicated. *)
Theorem recreated_database_ignored :
  (dm ← start files_with;
   let dm := turn (seen ∅ (Some (EMsg "final sync failed"))) (WEvent a_db Remove) dm in
   let dm := turn (seen files_with None) (WEvent a_db Create) dm in
   let dm := turn (seen files_with None) WTimer dm in
   Ok (registered dm, tracked dm, dm_debounceActive dm)) = Ok ([], [a_db], false).
Proof. vm_compute. reflexivity. Qed.

Lemma good_a : good a_db.
Proof. exists [lit "srv"; lit "data"; lit "a.db"]. split; [reflexivity|]. split; [done|]. repeat constructor; try done; intros Hx; vm_compute in Hx; intuition discriminate. Qed.
Lemma good_dir : good dir.
Proof. exists [lit "srv"; lit "data"]. split; [reflexivity|]. split; [done|]. repeat constructor; try done; intros Hx; vm_compute in Hx; intuition discriminate. Qed.
Lemma tree_fine fs close : world_ok (seen fs close).
Proof.
  split; [|done]. intros p. cbn. case_bool_decide; cbn; [|done]. repeat split; try done; intros Hx; vm_compute in Hx; intuition discriminate.
Qed.
Lemma sees_files fs : sees dir (seen fs None) fs.
Proof. split; try done; [apply tree_fine|]. intros p Hp. cbn. by rewrite bool_decide_eq_false_2. Qed.
Lemma empty_ok : store_ok empty_store.
Proof. exists []. split; [done|]. split; [apply NoDup_nil_2|]. split; [done|cbn; lia]. Qed.
End DirWatchDemo.


Lemma watch_invariant_witness :
  exists dm, DirWatchDemo.start DirWatchDemo.files_with = Ok dm /\
    @mon_inv Store DirWatchDemo.reg StoreRegistry.store_ok (fun _ => False) (DirWatchDemo.turn (DirWatchDemo.seen ∅ (Some (EMsg "close"))) (WEvent DirWatchDemo.a_db Remove) dm).
Proof.
  assert (match DirWatchDemo.start DirWatchDemo.files_with with Ok dm => True | _ => False end) as Hok by (vm_compute; exact I).
  unfold DirWatchDemo.start in *. destruct (NewDirectoryMonitor _ _ _ _ _ _ _ _) as [dm|e|m] eqn:E; [|destruct Hok|destruct Hok]. exists dm. split; [reflexivity|].
  assert (forall p q, good p -> DirWatchDemo.newDB p = Ok q -> q = p) as Hn by (intros p q _ Hx; injection Hx as ->; reflexivity).
  assert (forall p, @reg_has _ DirWatchDemo.reg DirWatchDemo.empty_store p -> False \/ In p []) as Hno by (intros p (q & Hq & _); left; apply elem_of_nil in Hq; exact Hq).
  assert (Forall (fun t => world_ok t.1 /\ wake_ok t.2) [(DirWatchDemo.seen ∅ (Some (EMsg "close")), WEvent DirWatchDemo.a_db Remove)]) as Ht.
  { constructor; [split; [apply DirWatchDemo.tree_fine|cbn [snd wake_ok]; rewrite good_clean by exact DirWatchDemo.good_a; exact DirWatchDemo.good_a]|constructor]. }
  exact (@watch_invariant Store DirWatchDemo.reg StoreRegistry.store_ok (StoreRegistry.store_laws StoreDemo.grow StoreDemo.cfg0) DirWatchDemo.dir (lit "*.db") false DirWatchDemo.newDB Hn
    (fun _ => False) (DirWatchDemo.seen DirWatchDemo.files_with None) (Ok ()) [] DirWatchDemo.empty_store dm
    [(DirWatchDemo.seen ∅ (Some (EMsg "close")), WEvent DirWatchDemo.a_db Remove)] DirWatchDemo.empty_ok (List.Forall_nil _) (DirWatchDemo.tree_fine _ _) DirWatchDemo.good_dir Hno E
    Ht).
Defined.
