(* ===== verification/RemoteFiles.v ===== *)
(** * SFTP and WebDAV clients

    Model of src/sftp/replica_client.go and src/webdav/replica_client.go: LTX files on a
    remote file system, over a connection that is made on demand and lost.  The remote
    directory is that of the file client (FileClient.v); what differs is how files are
    written, read and timed. *)

From Stdlib Require Import ZArith Lia Strings.Byte Ascii String.
From stdpp Require Import base numbers list strings gmap sorting.
From S2P Require Import Prelude WalReader Ltx Streams RestorePlan Compactor Replica V3 Db PageIndex Pipeline Restore FileClient.
From S2P Require Import Urls S3Config ReplicaConfig.
Local Open Scope Z_scope.

(** ** The SFTP connection *)

Inductive hostkey := FixedHostKey (key : str) | InsecureIgnoreHostKey.
Inductive auth := Password (p : str) | PublicKeys (signer : str).
(** What is dialled: the address, the user, how the host is checked, how the user is authenticated. *)
Record Dial := mkDial { d_host : str; d_user : str; d_hostkey : hostkey; d_auth : list auth; d_concurrent : bool }.

(** The client: its settings, whether it is connected, the results of dialling and of starting
    the protocol on the [n]-th connection, and the remote file system. *)
Record Sftp := mkSftp {
  sp_cfg : SFTPConfig; sp_client : option Dial; sp_dials : nat;
  sp_dial : nat -> option error; sp_start : nat -> option error; sp_fs : FileStore
}.
Definition set_client (cl : option Dial) (c : Sftp) : Sftp := mkSftp (sp_cfg c) cl (sp_dials c) (sp_dial c) (sp_start c) (sp_fs c).
Definition set_fs (f : FileStore) (c : Sftp) : Sftp := mkSftp (sp_cfg c) (sp_client c) (sp_dials c) (sp_dial c) (sp_start c) f.
Definition dialled (c : Sftp) : Sftp := mkSftp (sp_cfg c) (sp_client c) (S (sp_dials c)) (sp_dial c) (sp_start c) (sp_fs c).

Definition ErrSSHFxConnectionLost : error := EMsg "connection lost".

Definition sftp_NewReplicaClientFromURL (host urlPath : str) (userinfo : option (str * option str)) : result SFTPConfig :=
  let user := match userinfo with Some (u, _) => u | None => [] end in
  let password := match userinfo with Some (_, Some p) => p | _ => [] end in
  if bool_decide (host = []) then Err (EMsg "host required for sftp replica URL")
  else if bool_decide (user = []) then Err (EMsg "user required for sftp replica URL")
  else Ok (mkSFTPConfig host user password urlPath [] [] true).

Section Sftp.
Variable NewFileInfoSliceIterator : list FileInfo -> list FileInfo.
Variable peek : Reader -> result Z.
Variable now : time.
(** The parsers of the ssh package, the file of the private key, and [net.SplitHostPort]. *)
Variable ParseAuthorizedKey ParsePrivateKey ReadFile : str -> result str.
Variable has_port : str -> bool.
(** How much of a write arrives when the [n]-th change of the file system fails. *)
Variable arrived : nat -> nat.

Definition dial_config (cfg : SFTPConfig) : result Dial :=
  if bool_decide (sf_User cfg = []) then Err (EMsg "sftp user required") else
  hk ← (if nonempty (sf_HostKey cfg)
        then k ← ParseAuthorizedKey (sf_HostKey cfg) wrapping "cannot parse sftp host key"; Ok (FixedHostKey k)
        else Ok InsecureIgnoreHostKey);
  keys ← (if nonempty (sf_KeyPath cfg) then
            buf ← ReadFile (sf_KeyPath cfg) wrapping "sftp: cannot read sftp key path";
            signer ← ParsePrivateKey buf wrapping "sftp: cannot parse sftp key path";
            Ok [PublicKeys signer]
          else Ok []);
  let host := if has_port (sf_Host cfg) then sf_Host cfg else sf_Host cfg ++ lit ":22" in
  Ok (mkDial host (sf_User cfg) hk ((if nonempty (sf_Password cfg) then [Password (sf_Password cfg)] else []) ++ keys) (sf_ConcurrentWrites cfg)).

(** [init]: no-op when connected. *)
Definition sftp_init (c : Sftp) : Sftp * result () :=
  match sp_client c with
  | Some _ => (c, Ok ())
  | None =>
      match dial_config (sp_cfg c) with
      | Ok d =>
          let n := sp_dials c in
          match sp_dial c n, sp_start c n with
          | Some e, _ | None, Some e => (dialled c, Err e)
          | None, None => (set_client (Some d) (dialled c), Ok ())
          end
      | Err e => (c, Err e)
      | Panic m => (c, Panic m)
      end
  end.

Definition resetOnConnError (e : error) (c : Sftp) : Sftp := if errors_Is e ErrSSHFxConnectionLost then set_client None c else c.

(** Every operation connects, and disconnects when it fails because the connection was lost. *)
Definition operation {A} (body : fs A) (c : Sftp) : Sftp * result A :=
  match sftp_init c with
  | (c, Err e) => (resetOnConnError e c, Err e)
  | (c, Panic m) => (c, Panic m)
  | (c, Ok _) =>
      match body (sp_fs c) with
      | (f, Err e) => (resetOnConnError e (set_fs f c), Err e)
      | (f, r) => (set_fs f c, r)
      end
  end.

Definition sftp_LTXFiles (level : Z) (seek : TXID) (um : bool) : Sftp -> Sftp * result FileIterator :=
  operation (fun f => (f, file_LTXFiles NewFileInfoSliceIterator f level seek um)).

(** The file is truncated and written in place: what has arrived is visible. *)
Definition open_trunc (k : path) : fs () := fio (fun f => set_files (<[k := ([], now)]> (fc_files f)) f) id.
Definition copy_in_place (k : path) (rd : Reader) : fs () := fun f =>
  match fio (fun f => set_files (<[k := (rd_data rd, now)]> (fc_files f)) f)
            (fun f' => set_files (<[k := (take (arrived (fc_ops f)) (rd_data rd), now)]> (fc_files f')) f') f with
  | (f, Ok _) => (f, match rd_err rd with Some e => Err e | None => Ok () end)
  | r => r
  end.
Definition wrap_fs {A} (text : string) (m : fs A) : fs A := fun f => let '(f, r) := m f in (f, wrap_err text r).

Definition sftp_write (level : Z) (minTXID maxTXID : TXID) (rd : Reader) : fs FileInfo := fun f =>
  let k := (level, minTXID, maxTXID) in
  if negb (in_range k) then (f, Err (EMsg "not a transaction id")) else
  match ExtractLTXTimestamp peek now rd with
  | Err e => (f, Err e)
  | Panic m => (f, Panic m)
  | Ok (timestamp, fullReader) =>
      (_ ← wrap_fs "sftp: cannot make parent snapshot directory" (fs_mkdir level);
       _ ← wrap_fs "sftp: cannot open snapshot file for writing" (open_trunc k);
       _ ← copy_in_place k fullReader;
       _ ← fs_check; (* close *)
       _ ← wrap_fs "sftp: cannot set file timestamps" (fs_chtimes k timestamp);
       mret (mkFileInfo level minTXID maxTXID (Z.of_nat (length (rd_data fullReader))) timestamp)) f
  end.
Definition sftp_WriteLTXFile (c : Sftp) (level : Z) (minTXID maxTXID : TXID) (rd : Reader) : Sftp * result FileInfo :=
  operation (sftp_write level minTXID maxTXID rd) c.

Definition sftp_open (level : Z) (minTXID maxTXID : TXID) (offset size : Z) (f : FileStore) : result Reader :=
  let k := (level, minTXID, maxTXID) in
  if negb (in_range k) then Err (EMsg "not a transaction id") else
  b ← os_Open f k;
  b ← (if 0 <? offset then match fc_seek f k with Some e => Err (EMsg e) | None => Ok (drop (Z.to_nat offset) b) end else Ok b);
  Ok (mkReader (if 0 <? size then take (Z.to_nat size) b else b) None).
Definition sftp_OpenLTXFile (level : Z) (minTXID maxTXID : TXID) (offset size : Z) : Sftp -> Sftp * result Reader :=
  operation (fun f => (f, sftp_open level minTXID maxTXID offset size f)).

(** [Remove] in a loop: a missing file is no error. *)
Fixpoint remove_each (text : string) (ks : list path) : fs () := fun f =>
  match ks with
  | [] => (f, Ok ())
  | k :: ks =>
      match fs_remove k f with
      | (f, Err e) => if negb (os_IsNotExist e) then (f, Err (EWrap text e)) else remove_each text ks f
      | (f, Panic m) => (f, Panic m)
      | (f, Ok _) => remove_each text ks f
      end
  end.
Definition opt_err {A} (r : result A) : option error := match r with Ok _ => None | Err e => Some e | Panic m => Some (EMsg m) end.
Definition sftp_DeleteLTXFiles (c : Sftp) (a : list FileInfo) : Sftp * option error :=
  let '(c, r) := operation (remove_each "sftp: cannot delete ltx file" (path_of <$> a)) c in (c, opt_err r).

(** [DeleteAll]: the files that the walk finds, then the directories, the deepest first. *)
Fixpoint remove_dirs (levels : list Z) : fs () :=
  match levels with
  | [] => mret tt
  | level :: levels => _ ← wrap_fs "sftp: cannot delete directory" (fio (fun f => set_dirs (fc_dirs f ∖ {[level]}) f) id); remove_dirs levels
  end.
Definition level_keys (f : FileStore) (level : Z) : list path := filter (fun k => k.1.1 = level) ((map_to_list (fc_files f)).*1).
Fixpoint remove_levels (levels : list Z) : fs () := fun f =>
  match levels with
  | [] => (f, Ok ())
  | level :: levels =>
      match fc_list f level with
      | Some e => (f, Err (EWrap "sftp: cannot walk path" (EMsg e)))
      | None => (_ ← remove_each "sftp: cannot delete file" (level_keys f level); remove_levels levels) f
      end
  end.
Definition sftp_delete_all : fs () := fun f =>
  (_ ← remove_levels (elements (fc_dirs f)); remove_dirs (rev (elements (fc_dirs f)))) f.
Definition sftp_DeleteAll (c : Sftp) : Sftp * option error := let '(c, r) := operation sftp_delete_all c in (c, opt_err r).

(** [Cleanup]: the directory of the replica, if it is empty. *)
Definition sftp_Cleanup (c : Sftp) : Sftp * option error :=
  let '(c, r) := operation (fun f => match fs_check f with
                                     | (f, Err e) => if negb (os_IsNotExist e) then (f, Err (EWrap "sftp: cannot delete path" e)) else (f, Ok ())
                                     | r => r
                                     end) c in (c, opt_err r).

#[local] Instance sftp_ops : ReplicaClient Sftp := {
  LTXFiles c level seek um := (sftp_LTXFiles level seek um c).2;
  OpenLTXFile c level lo hi off size := (sftp_OpenLTXFile level lo hi off size c).2;
  WriteLTXFile := sftp_WriteLTXFile; DeleteLTXFiles := sftp_DeleteLTXFiles
}.

Hypothesis iterator_permutes : forall l, NewFileInfoSliceIterator l ≡ₚ l.
Hypothesis iterator_orders : forall l, StronglySorted key_le (NewFileInfoSliceIterator l).

(** *** Connections *)

(** A client with a host key is only ever connected to a host that is checked against it. *)
Lemma sftp_init_client c c' r : sftp_init c = (c', r) ->
  sp_cfg c' = sp_cfg c /\ sp_fs c' = sp_fs c /\ (r = Ok () -> exists d, sp_client c' = Some d) /\
  (forall d, sp_client c' = Some d -> sp_client c = Some d \/ dial_config (sp_cfg c) = Ok d).
Proof.
  unfold sftp_init. destruct (sp_client c) as [d|] eqn:EC; [intros [= <- <-]; split_and!; [done..|by exists d|by left; congruence]|].
  destruct (dial_config (sp_cfg c)) as [d|e|m]; [|intros [= <- <-]; split_and!; try done; intros d; rewrite EC; done..].
  destruct (sp_dial c (sp_dials c)), (sp_start c (sp_dials c)); intros [= <- <-]; split_and!; try done; cbn; try (rewrite EC; done).
  - by exists d.
  - intros d' [= <-]. by right.
Qed.
Lemma reset_cases e c : resetOnConnError e c = c \/ errors_Is e ErrSSHFxConnectionLost = true /\ resetOnConnError e c = set_client None c.
Proof. unfold resetOnConnError. destruct (errors_Is _ _); [by right|by left]. Qed.

(** What an operation does: it fails to connect, or it does its work on the files. *)
Lemma operation_cases {A} (body : fs A) c c' r : operation body c = (c', r) ->
  sp_cfg c' = sp_cfg c /\ (sp_fs c' = sp_fs c /\ is_ok r = false \/ body (sp_fs c) = (sp_fs c', r)) /\
  (forall d, sp_client c' = Some d -> sp_client c = Some d \/ dial_config (sp_cfg c) = Ok d) /\
  (forall e, r = Err e -> errors_Is e ErrSSHFxConnectionLost = true -> sp_client c' = None).
Proof.
  unfold operation. destruct (sftp_init c) as [c1 r1] eqn:EI. apply sftp_init_client in EI as (Hc & Hf & _ & Hd).
  assert (forall e (c2 : Sftp), sp_cfg c2 = sp_cfg c -> (forall d, sp_client c2 = Some d -> sp_client c = Some d \/ dial_config (sp_cfg c) = Ok d) ->
    sp_cfg (resetOnConnError e c2) = sp_cfg c /\ sp_fs (resetOnConnError e c2) = sp_fs c2 /\
    (forall d, sp_client (resetOnConnError e c2) = Some d -> sp_client c = Some d \/ dial_config (sp_cfg c) = Ok d) /\
    (errors_Is e ErrSSHFxConnectionLost = true -> sp_client (resetOnConnError e c2) = None)) as Hreset.
  { intros e c2 H1 H2. unfold resetOnConnError. destruct (errors_Is e _); cbn; split_and!; try done. }
  destruct r1 as [[]|e|m].
  - destruct (body (sp_fs c1)) as [f [a|e|m]] eqn:EB; intros [= <- <-]; rewrite Hf in EB.
    + split_and!; try done. by right.
    + destruct (Hreset e (set_fs f c1) Hc Hd) as (H1 & H2 & H3 & H4). split_and!; try done; [right; by rewrite H2|by intros e' [= <-]].
    + split_and!; try done. by right.
  - intros [= <- <-]. destruct (Hreset e c1 Hc Hd) as (H1 & H2 & H3 & H4). split_and!; try done; [left; by rewrite H2|by intros e' [= <-]].
  - intros [= <- <-]. split_and!; try done. by left.
Qed.

(** The host key of a connected client is the configured one, through any operations. *)
Theorem sftp_host_checked {A} (body : fs A) c c' r key :
  operation body c = (c', r) -> nonempty (sf_HostKey (sp_cfg c)) = true -> ParseAuthorizedKey (sf_HostKey (sp_cfg c)) = Ok key ->
  (forall d, sp_client c = Some d -> d_hostkey d = FixedHostKey key) -> forall d, sp_client c' = Some d -> d_hostkey d = FixedHostKey key.
Proof.
  intros HO Hn Hk Hc d Hd. apply operation_cases in HO as (_ & _ & Hcl & _). destruct (Hcl d Hd) as [?|HD]; [by apply Hc|].
  unfold dial_config in HD. case_bool_decide; [done|]. rewrite Hn, Hk in HD. cbn [wrap_err mbind result_bind] in HD.
  destruct (if nonempty (sf_KeyPath _) then _ else _) as [keys|e|m]; cbn [mbind result_bind] in HD; [|done..]. by injection HD as <-.
Qed.

(** *** Listing and deleting *)

Lemma remove_each_delete text a f f' r :
  remove_each text (path_of <$> a) f = (f', r) -> exists e, file_DeleteLTXFiles f a = (f', e) /\ opt_err r = EWrap text <$> e /\ is_panic r = false.
Proof.
  revert f. induction a as [|i a IH]; intros f; cbn [fmap list_fmap remove_each file_DeleteLTXFiles]; [intros [= <- <-]; by exists None|].
  destruct (fs_remove (path_of i) f) as [f1 [u|e|m]] eqn:ER; [apply IH| |by exfalso; revert ER; unfold fs_remove, fio; repeat case_match; congruence].
  destruct (os_IsNotExist e); cbn [negb]; [apply IH|]. intros [= <- <-]. by exists (Some e).
Qed.

Abbreviation files_of c um level := (file_level_files NewFileInfoSliceIterator (sp_fs c) um level).

Lemma sftp_list_spec c level seek um it : (sftp_LTXFiles level seek um c).2 = Ok it ->
  it = mkIter (filter (fun f => seek <=? MinTXID f) (files_of c um level)) None None.
Proof.
  destruct (sftp_LTXFiles level seek um c) as [c' r] eqn:E. cbn. intros ->. apply operation_cases in E as (_ & [[_ ?]|E] & _); [done|].
  injection E as _ E. by apply file_LTXFiles_spec in E.
Qed.
Lemma sftp_delete_spec c a c' e : sftp_DeleteLTXFiles c a = (c', e) ->
  (sp_fs c' = sp_fs c /\ e <> None) \/ exists e', file_DeleteLTXFiles (sp_fs c) a = (sp_fs c', e') /\ (e = None <-> e' = None).
Proof.
  unfold sftp_DeleteLTXFiles. destruct (operation _ c) as [c1 r] eqn:E. intros [= <- <-]. apply operation_cases in E as (_ & [[Hf Hr]|E] & _).
  - left. split; [done|]. by destruct r.
  - right. apply remove_each_delete in E as (e' & HD & He & _). exists e'. split; [done|]. rewrite He. by destruct e'.
Qed.

(** The laws of the client interface hold for SFTP. *)
#[local] Instance sftp_laws : ReplicaClientLaws Sftp.
Proof.
  pose (L := file_laws NewFileInfoSliceIterator peek now iterator_permutes iterator_orders).
  refine {| level_files := fun c um level => files_of c um level |}.
  - intros c um level. exact (@level_files_sorted _ _ L (sp_fs c) um level).
  - intros c um level. exact (@level_files_distinct _ _ L (sp_fs c) um level).
  - intros c um level f Hf. exact (@level_files_level _ _ L (sp_fs c) um level f Hf).
  - intros c um level f Hf. exact (@level_files_range _ _ L (sp_fs c) um level f Hf).
  - intros c level seek um it H. by rewrite (sftp_list_spec _ _ _ _ _ H).
  - intros c level seek um it H _. by rewrite (sftp_list_spec _ _ _ _ _ H).
  - intros c level seek um it H. by rewrite (sftp_list_spec _ _ _ _ _ H).
  - intros c a c' um level H. apply sftp_delete_spec in H as [[_ ?]|(e' & HD & [He _])]; [done|]. rewrite (He eq_refl) in HD.
    exact (@DeleteLTXFiles_ok _ _ L _ _ _ um level HD).
  - intros c a c' e um level f H. apply sftp_delete_spec in H as [[-> _]|(e' & HD & _)]; [done|]. intros Hin Hl.
    destruct e' as [e'|]; [exact (@DeleteLTXFiles_err _ _ L (sp_fs c) a (sp_fs c') e' um level f HD Hin Hl)|]. pose proof (@DeleteLTXFiles_ok _ _ L _ _ _ um level HD) as E.
    cbn [level_files L file_laws] in E. rewrite E. apply list_elem_of_In, list_elem_of_filter. split; [by rewrite Hl|by apply list_elem_of_In].
Defined.

(** *** Writing *)

Definition in_place (k : path) (rd : Reader) (f f' : FileStore) (r : result FileInfo) : Prop :=
  fc_files f' = fc_files f /\ is_ok r = false \/
  exists b t, fc_files f' = <[k := (b, t)]> (fc_files f) /\ b `prefix_of` rd_data rd /\
    (forall info, r = Ok info -> b = rd_data rd /\ rd_err rd = None /\ info = mkFileInfo k.1.1 k.1.2 k.2 (Z.of_nat (length (rd_data rd))) t).

Lemma copy_in_place_spec k rd f f' r : copy_in_place k rd f = (f', r) ->
  exists b, fc_files f' = <[k := (b, now)]> (fc_files f) /\ b `prefix_of` rd_data rd /\ (r = Ok () -> b = rd_data rd /\ rd_err rd = None).
Proof.
  unfold copy_in_place, fio. destruct (fc_fault f _); intros [= <- <-].
  - eexists. split; [reflexivity|]. split; [apply prefix_take|done].
  - eexists. split; [reflexivity|]. split; [done|]. by destruct (rd_err rd).
Qed.
Lemma sftp_write_spec level lo hi rd f f' r : sftp_write level lo hi rd f = (f', r) -> in_place (level, lo, hi) rd f f' r.
Proof.
  unfold sftp_write. destruct (in_range _); cbn [negb]; [|intros [= <- <-]; by left].
  destruct (ExtractLTXTimestamp peek now rd) as [[t rd']|e|m] eqn:ET; [|intros [= <- <-]; by left..]. apply ExtractLTXTimestamp_reader in ET as ->.
  set (k := (level, lo, hi)). unfold mbind, fs_bind, wrap_fs at 1, fs_mkdir, fio at 1. destruct (fc_fault f _); [intros [= <- <-]; by left|]. cbn [wrap_err].
  set (f1 := set_dirs _ _). assert (fc_files f1 = fc_files f) as E1 by done. unfold wrap_fs at 1, open_trunc, fio at 1.
  destruct (fc_fault f1 _); [intros [= <- <-]; by left|]. cbn [wrap_err]. set (f2 := set_files _ _).
  assert (fc_files f2 = <[k := ([], now)]> (fc_files f)) as E2 by done. destruct (copy_in_place k rd f2) as [f3 r3] eqn:EC.
  apply copy_in_place_spec in EC as (b & E3 & Hb & Hok). rewrite E2, insert_insert_eq in E3.
  destruct r3 as [[]|e|m]; [|intros [= <- <-]; right; exists b, now; by split_and!..]. destruct (Hok eq_refl) as [-> He].
  unfold fs_check, fio at 1. destruct (fc_fault f3 _); [intros [= <- <-]; right; exists (rd_data rd), now; by split_and!|].
  unfold wrap_fs, fs_chtimes, fio, mret, fs_ret. destruct (fc_fault _ _); intros [= <- <-]; right.
  - exists (rd_data rd), now. by split_and!.
  - exists (rd_data rd), t. split_and!; [cbn; by rewrite E3, alter_insert_eq|done|]. by intros info [= <-].
Qed.

(** An upload over SFTP that returns no error is complete and has its timestamp; a failed
    one leaves the file as it was or cut short, and never touches another file. *)
Theorem sftp_write_complete c level lo hi rd c' r :
  sftp_WriteLTXFile c level lo hi rd = (c', r) ->
  (forall k, k <> (level, lo, hi) -> fc_files (sp_fs c') !! k = fc_files (sp_fs c) !! k) /\
  (fc_files (sp_fs c') !! (level, lo, hi) = fc_files (sp_fs c) !! (level, lo, hi) \/
   exists b t, fc_files (sp_fs c') !! (level, lo, hi) = Some (b, t) /\ b `prefix_of` rd_data rd) /\
  (forall info, r = Ok info -> rd_err rd = None /\ fc_files (sp_fs c') !! (level, lo, hi) = Some (rd_data rd, CreatedAt info) /\
     FSize info = Z.of_nat (length (rd_data rd))).
Proof.
  intros HW. apply operation_cases in HW as (_ & [[-> Hr]|HW] & _); [split_and!; [done|by left|by intros info ->]|].
  apply sftp_write_spec in HW as [[-> Hr]|(b & t & -> & Hb & Hok)]; [split_and!; [done|by left|by intros info ->]|]. split_and!.
  - intros k Hk. by rewrite lookup_insert_ne.
  - right. exists b, t. by rewrite lookup_insert_eq.
  - intros info Hi. destruct (Hok info Hi) as (-> & He & ->). by rewrite lookup_insert_eq.
Qed.

(** What is opened is what the file holds. *)
Lemma sftp_open_data c level lo hi off rd : 0 <= off -> (sftp_OpenLTXFile level lo hi off 0 c).2 = Ok rd ->
  exists b t, fc_files (sp_fs c) !! (level, lo, hi) = Some (b, t) /\ rd = mkReader (drop (Z.to_nat off) b) None.
Proof.
  intros Hoff. destruct (sftp_OpenLTXFile level lo hi off 0 c) as [c' r] eqn:E. cbn. intros ->. apply operation_cases in E as (_ & [[_ ?]|E] & _); [done|].
  injection E as _ E. unfold sftp_open, os_Open in E. destruct (negb _); [done|]. destruct (fc_files (sp_fs c) !! _) as [[b t]|]; [|done].
  destruct (fc_open _ _); [done|]. cbn [mbind result_bind] in E. exists b, t. split; [done|].
  destruct (Z.ltb_spec 0 off); [destruct (fc_seek _ _); [done|]|]; cbn in E; injection E as <-; [done|]. by replace off with 0 by lia.
Qed.
End Sftp.

(** ** A broken upload *)
Module SftpDemo.
#[export] Existing Instance DirDemo.ops.
Definition cfg : SFTPConfig := mkSFTPConfig (lit "host") (lit "user") [] (lit "/db") [] [] true.
(** The connection is lost during the copy, the third change; two bytes have arrived. *)
Definition remote : FileStore :=
  mkFileStore ∅ ∅ ∅ 0 (fun n => if bool_decide (n = 2%nat) then Some "connection lost"%string else None) (fun _ => None) (fun _ => None) (fun _ => None)
    (fun _ => true) DirDemo.no_v3 DirDemo.no_v3.
Definition c0 : Sftp := mkSftp cfg None 0 (fun _ => None) (fun _ => None) remote.
Definition no_key (_ : str) : result str := Err (EMsg "no key").
Definition write (c : Sftp) : Sftp * result FileInfo :=
  sftp_WriteLTXFile DirDemo.demo_peek 99 no_key no_key no_key (fun _ => false) (fun _ => 2%nat) c 0 1 1 (mkReader [x01; x02; x03; x04] None).
#[export] Instance sops : ReplicaClient Sftp := sftp_ops DirDemo.sorted_iterator DirDemo.demo_peek 99 no_key no_key no_key (fun _ => false) (fun _ => 2%nat).

(** The upload fails and the connection is given up, but the two bytes are listed as the file of transaction 1: a replica
    that starts over takes the transaction for uploaded, and restores read the damaged file. *)
Theorem partial_upload_counts :
  exists c e, write c0 = (c, Err e) /\ sp_client c = None /\ calcPos c = Ok (mkPos 1 0) /\ OpenLTXFile c 0 1 1 0 0 = Ok (mkReader [x01; x02] None).
Proof. eexists _, _. split; [vm_compute; reflexivity|]. repeat split; vm_compute; reflexivity. Qed.
End SftpDemo.

(** ** WebDAV *)

Definition webdav_NewReplicaClientFromURL (scheme host urlPath : str) (userinfo : option (str * option str)) : result WebDAVConfig :=
  let httpScheme := if bool_decide (scheme = lit "webdavs") then lit "https" else lit "http" in
  let user := match userinfo with Some (u, _) => u | None => [] end in
  let password := match userinfo with Some (_, Some p) => p | _ => [] end in
  if bool_decide (host = []) then Err (EMsg "host required for webdav replica URL")
  else Ok (mkWebDAVConfig (httpScheme ++ lit "://" ++ host) user password urlPath).

(** The client, the results of connecting, of the local staging of the [n]-th upload (creating, copying
    and rewinding the temporary file), and the files of the server. *)
Record Dav := mkDav {
  dv_cfg : WebDAVConfig; dv_client : bool; dv_connects : nat; dv_connect : nat -> option error;
  dv_uploads : nat; dv_stage : nat -> option error * option error * option error; dv_fs : FileStore
}.
Definition dav_connected (b : bool) (c : Dav) : Dav :=
  mkDav (dv_cfg c) b (S (dv_connects c)) (dv_connect c) (dv_uploads c) (dv_stage c) (dv_fs c).
Definition dav_set_fs (f : FileStore) (c : Dav) : Dav := mkDav (dv_cfg c) (dv_client c) (dv_connects c) (dv_connect c) (dv_uploads c) (dv_stage c) f.
Definition dav_staged (c : Dav) : Dav := mkDav (dv_cfg c) (dv_client c) (dv_connects c) (dv_connect c) (S (dv_uploads c)) (dv_stage c) (dv_fs c).

Definition IsErrNotFound (e : error) : bool := errors_Is e (EVar "404").
Definition not_found (e : error) : bool := os_IsNotExist e || IsErrNotFound e.

Section Dav.
Variable NewFileInfoSliceIterator : list FileInfo -> list FileInfo.
Variable peek : Reader -> result Z.
Variable now : time.
(** How much of a failed upload the server keeps, if it replaces the file at all. *)
Variable kept : nat -> option nat.

Definition dav_init (c : Dav) : Dav * result () :=
  if dv_client c then (c, Ok ())
  else if bool_decide (wd_URL (dv_cfg c) = []) then (c, Err (EMsg "webdav url required"))
  else match dv_connect c (dv_connects c) with
       | Some e => (dav_connected false c, Err (EWrap "webdav: cannot connect to server" e))
       | None => (dav_connected true c, Ok ())
       end.
Definition dav_operation {A} (body : fs A) (c : Dav) : Dav * result A :=
  match dav_init c with
  | (c, Err e) => (c, Err e)
  | (c, Panic m) => (c, Panic m)
  | (c, Ok _) => let '(f, r) := body (dv_fs c) in (dav_set_fs f c, r)
  end.

#[local] Instance key_le_dec f g : Decision (key_le f g).
Proof. unfold key_le. apply _. Defined.
Definition dav_list (level : Z) (seek : TXID) (f : FileStore) : result FileIterator :=
  match open_dir f level with
  | Err e => if not_found e then Ok (mkIter (NewFileInfoSliceIterator []) None None) else Err (EWrap "webdav: cannot read directory" e)
  | Panic m => Panic m
  | Ok fis => Ok (mkIter (NewFileInfoSliceIterator (merge_sort key_le (filter (fun f => negb (MinTXID f <? seek)) fis))) None None)
  end.
Definition dav_LTXFiles (level : Z) (seek : TXID) : Dav -> Dav * result FileIterator := dav_operation (fun f => (f, dav_list level seek f)).

(** [WriteStreamWithLength]: the server sets the time. *)
Definition dav_put (k : path) (b : list byte) : fs () := fun f =>
  fio (fun f => set_files (<[k := (b, now)]> (fc_files f)) f)
      (fun f' => match kept (fc_ops f) with Some n => set_files (<[k := (take n b, now)]> (fc_files f')) f' | None => f' end) f.
(** The stream is staged in a local file first. *)
Definition stage (st : option error * option error * option error) (rd : Reader) : result (list byte) :=
  match st with
  | (Some e, _, _) => Err (EWrap "webdav: cannot create temp file" e)
  | (None, Some e, _) => Err (EWrap "webdav: cannot copy to temp file" e)
  | (None, None, s) =>
      match rd_err rd, s with
      | Some e, _ => Err (EWrap "webdav: cannot copy to temp file" e)
      | None, Some e => Err (EWrap "webdav: cannot seek temp file" e)
      | None, None => Ok (rd_data rd)
      end
  end.
Definition dav_write (st : option error * option error * option error) (level : Z) (minTXID maxTXID : TXID) (rd : Reader) : fs FileInfo := fun f =>
  let k := (level, minTXID, maxTXID) in
  if negb (in_range k) then (f, Err (EMsg "not a transaction id")) else
  match ExtractLTXTimestamp peek now rd with
  | Err e => (f, Err e)
  | Panic m => (f, Panic m)
  | Ok (timestamp, fullReader) =>
      (b ← lift (stage st fullReader);
       _ ← wrap_fs "webdav: cannot create parent directory" (fs_mkdir level);
       _ ← wrap_fs "webdav: cannot write file" (dav_put k b);
       mret (mkFileInfo level minTXID maxTXID (Z.of_nat (length b)) timestamp)) f
  end.
Definition dav_WriteLTXFile (c : Dav) (level : Z) (minTXID maxTXID : TXID) (rd : Reader) : Dav * result FileInfo :=
  let '(c', r) := dav_operation (dav_write (dv_stage c (dv_uploads c)) level minTXID maxTXID rd) c in (dav_staged c', r).

(** A range is asked for; an offset without a size is skipped, and the end of the file before it is an
    empty stream. *)
Definition dav_open (level : Z) (minTXID maxTXID : TXID) (offset size : Z) (f : FileStore) : result Reader :=
  let k := (level, minTXID, maxTXID) in
  if negb (in_range k) then Err (EMsg "not a transaction id") else
  match os_Open f k with
  | Err e => if not_found e then Err ErrNotExist else Err (EWrap "webdav: cannot read file" e)
  | Panic m => Panic m
  | Ok b =>
      if 0 <? size then Ok (mkReader (take (Z.to_nat size) (drop (Z.to_nat offset) b)) None)
      else if 0 <? offset then
        if Z.of_nat (length b) <? offset then Ok (mkReader [] None)
        else match fc_seek f k with Some e => Err (EWrap "webdav: cannot skip offset in file" (EMsg e)) | None => Ok (mkReader (drop (Z.to_nat offset) b) None) end
      else Ok (mkReader b None)
  end.
Definition dav_OpenLTXFile (level : Z) (minTXID maxTXID : TXID) (offset size : Z) : Dav -> Dav * result Reader :=
  dav_operation (fun f => (f, dav_open level minTXID maxTXID offset size f)).

Fixpoint dav_remove_each (ks : list path) : fs () := fun f =>
  match ks with
  | [] => (f, Ok ())
  | k :: ks =>
      match fs_remove k f with
      | (f, Err e) => if negb (not_found e) then (f, Err (EWrap "webdav: cannot delete ltx file" e)) else dav_remove_each ks f
      | (f, Panic m) => (f, Panic m)
      | (f, Ok _) => dav_remove_each ks f
      end
  end.
Definition dav_DeleteLTXFiles (c : Dav) (a : list FileInfo) : Dav * option error :=
  let '(c, r) := dav_operation (dav_remove_each (path_of <$> a)) c in (c, opt_err r).
Definition dav_DeleteAll (c : Dav) : Dav * option error :=
  let '(c, r) := dav_operation (fun f => match file_DeleteAll f with
                                        | (f, Some e) => (f, if not_found e then Ok () else Err (EWrap "webdav: cannot delete path" e))
                                        | (f, None) => (f, Ok ())
                                        end) c in (c, opt_err r).

#[local] Instance dav_ops : ReplicaClient Dav := {
  LTXFiles c level seek um := (dav_LTXFiles level seek c).2;
  OpenLTXFile c level lo hi off size := (dav_OpenLTXFile level lo hi off size c).2;
  WriteLTXFile := dav_WriteLTXFile; DeleteLTXFiles := dav_DeleteLTXFiles
}.

Hypothesis iterator_permutes : forall l, NewFileInfoSliceIterator l ≡ₚ l.
Hypothesis iterator_orders : forall l, StronglySorted key_le (NewFileInfoSliceIterator l).

Lemma dav_operation_cases {A} (body : fs A) c c' r : dav_operation body c = (c', r) ->
  dv_fs c' = dv_fs c /\ is_ok r = false \/ body (dv_fs c) = (dv_fs c', r).
Proof.
  unfold dav_operation, dav_init. destruct (dv_client c); [destruct (body (dv_fs c)) as [f x] eqn:E; intros [= <- <-]; by right|].
  case_bool_decide; [intros [= <- <-]; by left|]. destruct (dv_connect c _); [intros [= <- <-]; by left|].
  cbn. destruct (body (dv_fs c)) as [f x] eqn:E. intros [= <- <-]. by right.
Qed.

Abbreviation dav_files c um level := (file_level_files NewFileInfoSliceIterator (dv_fs c) um level).
Lemma dav_list_spec c level seek it : (dav_LTXFiles level seek c).2 = Ok it ->
  it = mkIter (filter (fun f => seek <=? MinTXID f) (dav_files c false level)) None None.
Proof.
  destruct (dav_LTXFiles level seek c) as [c' r] eqn:E. cbn. intros ->. apply dav_operation_cases in E as [[_ ?]|E]; [done|]. injection E as _ E.
  unfold dav_list, open_dir in E. destruct (fc_list (dv_fs c) level) as [e|]; [by destruct (not_found (EMsg e)) eqn:En; [unfold not_found, os_IsNotExist, IsErrNotFound in En; cbn in En|]|].
  destruct (readdir (dv_fs c) level) as [|f l] eqn:ER.
  - assert (it = mkIter (NewFileInfoSliceIterator []) None None) as -> by (case_bool_decide; injection E as <-; [by rewrite filter_nil|done]).
    f_equal. apply (listing_filter NewFileInfoSliceIterator iterator_permutes iterator_orders (dv_fs c) level (fun f => seek <=? MinTXID f) []). by rewrite ER.
  - injection E as <-. f_equal. rewrite <- ER. apply (listing_filter NewFileInfoSliceIterator iterator_permutes iterator_orders (dv_fs c) level (fun f => seek <=? MinTXID f)).
    rewrite merge_sort_Permutation. rewrite (list_filter_iff _ (fun f => seek <=? MinTXID f)); [done|]. intros g. by rewrite <- Z.leb_antisym.
Qed.
Lemma dav_remove_delete a f f' r : dav_remove_each (path_of <$> a) f = (f', r) ->
  exists e, file_DeleteLTXFiles f a = (f', e) /\ (opt_err r = None <-> e = None).
Proof.
  revert f. induction a as [|i a IH]; intros f; cbn [fmap list_fmap dav_remove_each file_DeleteLTXFiles]; [intros [= <- <-]; by exists None|].
  destruct (fs_remove (path_of i) f) as [f1 [u|e|m]] eqn:ER; [apply IH| |by exfalso; revert ER; unfold fs_remove, fio; repeat case_match; congruence].
  assert (not_found e = os_IsNotExist e) as ->.
  { unfold fs_remove, fio in ER. repeat case_match; try done; injection ER as <- <-; done. }
  destruct (os_IsNotExist e); cbn [negb]; [apply IH|]. intros [= <- <-]. by exists (Some e).
Qed.
Lemma dav_delete_spec c a c' e : dav_DeleteLTXFiles c a = (c', e) ->
  (dv_fs c' = dv_fs c /\ e <> None) \/ exists e', file_DeleteLTXFiles (dv_fs c) a = (dv_fs c', e') /\ (e = None <-> e' = None).
Proof.
  unfold dav_DeleteLTXFiles. destruct (dav_operation _ c) as [c1 r] eqn:E. intros [= <- <-]. apply dav_operation_cases in E as [[Hf Hr]|E].
  - left. split; [done|]. by destruct r.
  - right. apply dav_remove_delete in E as (e' & HD & He). by exists e'.
Qed.

#[local] Instance dav_laws : ReplicaClientLaws Dav.
Proof.
  pose (L := file_laws NewFileInfoSliceIterator peek now iterator_permutes iterator_orders).
  refine {| level_files := fun c um level => dav_files c um level |}.
  - intros c um level. exact (@level_files_sorted _ _ L (dv_fs c) um level).
  - intros c um level. exact (@level_files_distinct _ _ L (dv_fs c) um level).
  - intros c um level f Hf. exact (@level_files_level _ _ L (dv_fs c) um level f Hf).
  - intros c um level f Hf. exact (@level_files_range _ _ L (dv_fs c) um level f Hf).
  - intros c level seek um it H. by rewrite (dav_list_spec _ _ _ _ H).
  - intros c level seek um it H _. by rewrite (dav_list_spec _ _ _ _ H).
  - intros c level seek um it H. by rewrite (dav_list_spec _ _ _ _ H).
  - intros c a c' um level H. apply dav_delete_spec in H as [[_ ?]|(e' & HD & [He _])]; [done|]. rewrite (He eq_refl) in HD.
    exact (@DeleteLTXFiles_ok _ _ L _ _ _ um level HD).
  - intros c a c' e um level f H. apply dav_delete_spec in H as [[-> _]|(e' & HD & _)]; [done|]. intros Hin Hl.
    destruct e' as [e'|]; [exact (@DeleteLTXFiles_err _ _ L (dv_fs c) a (dv_fs c') e' um level f HD Hin Hl)|].
    pose proof (@DeleteLTXFiles_ok _ _ L _ _ _ um level HD) as E. cbn [level_files L file_laws] in E. rewrite E.
    apply list_elem_of_In, list_elem_of_filter. split; [by rewrite Hl|by apply list_elem_of_In].
Defined.

(** *** Writing and reading *)

(** A whole file is uploaded, at the server's time, or a failed upload leaves what the server keeps of it. *)
Lemma dav_write_spec st level lo hi rd f f' r : dav_write st level lo hi rd f = (f', r) ->
  fc_files f' = fc_files f /\ is_ok r = false \/
  in_range (level, lo, hi) = true /\ rd_err rd = None /\
  exists b, fc_files f' = <[(level, lo, hi) := (b, now)]> (fc_files f) /\
    (b = rd_data rd \/ is_ok r = false /\ exists i n, kept i = Some n /\ b = take n (rd_data rd)).
Proof.
  unfold dav_write. destruct (in_range _) eqn:ER; cbn [negb]; [|intros [= <- <-]; by left].
  destruct (ExtractLTXTimestamp peek now rd) as [[t rd']|e|m] eqn:ET; [|intros [= <- <-]; by left..]. apply ExtractLTXTimestamp_reader in ET as ->.
  destruct (stage st rd) as [b|e|m] eqn:ES; [|intros [= <- <-]; by left..].
  assert (rd_err rd = None /\ b = rd_data rd) as [He ->] by (destruct st as [[[?|] [?|]] [?|]]; cbn in ES; destruct (rd_err rd); cbn in ES; by simplify_eq).
  unfold mbind, fs_bind, lift, wrap_fs at 1, fs_mkdir, fio at 1. destruct (fc_fault f _); [intros [= <- <-]; by left|]. cbn [wrap_err].
  set (f1 := set_dirs _ _). assert (fc_files f1 = fc_files f) as E1 by done. unfold wrap_fs, dav_put, fio, mret, fs_ret.
  destruct (fc_fault f1 _); intros [= <- <-].
  - destruct (kept (S (fc_ops f))) as [n|] eqn:EK; [right|by left].
    split; [done|]. split; [done|]. eexists. split; [reflexivity|]. right. split; [done|]. by exists (S (fc_ops f)), n.
  - right. split; [done|]. split; [done|]. eexists. split; [reflexivity|]. by left.
Qed.

Lemma dav_WriteLTXFile_spec c level lo hi rd c' r : dav_WriteLTXFile c level lo hi rd = (c', r) ->
  exists f, dv_fs c' = f /\
    (fc_files f = fc_files (dv_fs c) /\ is_ok r = false \/
     in_range (level, lo, hi) = true /\ rd_err rd = None /\
     exists b, fc_files f = <[(level, lo, hi) := (b, now)]> (fc_files (dv_fs c)) /\
       (b = rd_data rd \/ is_ok r = false /\ exists i n, kept i = Some n /\ b = take n (rd_data rd))).
Proof.
  unfold dav_WriteLTXFile. destruct (dav_operation _ c) as [c1 r1] eqn:E. intros [= <- <-]. eexists. split; [reflexivity|]. cbn [dav_staged dv_fs].
  apply dav_operation_cases in E as [[-> Hr]|E]; [by left|]. by apply dav_write_spec in E.
Qed.

Lemma dav_open_data c level lo hi off rd : 0 <= off -> (dav_OpenLTXFile level lo hi off 0 c).2 = Ok rd ->
  exists b, file_stored (dv_fs c) level lo hi = Some b /\ rd = mkReader (drop (Z.to_nat off) b) None.
Proof.
  intros Hoff. destruct (dav_OpenLTXFile level lo hi off 0 c) as [c' r] eqn:E. cbn. intros ->. apply dav_operation_cases in E as [[_ ?]|E]; [done|].
  injection E as _ E. unfold dav_open, os_Open in E. unfold file_stored. destruct (in_range _); cbn [negb] in E; [|done].
  destruct (fc_files (dv_fs c) !! _) as [[b t]|]; [|by cbn in E]. destruct (fc_open _ _) as [e|]; [by destruct (not_found _)|].
  exists b. split; [done|]. cbn in E. destruct (Z.ltb_spec 0 off); [|injection E as <-; by replace off with 0 by lia].
  destruct (Z.ltb_spec (Z.of_nat (length b)) off); [injection E as <-; by rewrite drop_ge by lia|]. destruct (fc_seek _ _); [done|]. by injection E as <-.
Qed.

(** A server that keeps nothing of a failed upload gives the laws of the storage: uploads are atomic. *)
Section Atomic.
Hypothesis kept_nothing : forall n, kept n = None.

#[local] Instance dav_storage : StorageLaws Dav.
Proof.
  pose (L := file_laws NewFileInfoSliceIterator peek now iterator_permutes iterator_orders).
  pose (T := file_storage NewFileInfoSliceIterator peek now iterator_permutes iterator_orders).
  refine {| stored := fun c => file_stored (dv_fs c) |}.
  - intros c um level lo hi. exact (@stored_listed _ _ L T (dv_fs c) um level lo hi).
  - intros c level lo hi rd c' info HW. apply dav_WriteLTXFile_spec in HW as (f & -> & [[_ ?]|(HR & He & b & Hf & [-> |[? _]])]); [done| |done].
    split; [done|]. unfold file_stored. by rewrite HR, Hf, lookup_insert_eq.
  - intros c level lo hi rd c' r HW.
    apply dav_WriteLTXFile_spec in HW as (f & -> & [[Hf _]|(HR & He & b & Hf & [-> |(_ & i & n & Hk & _)])]); [left| right; split; [done|] |by rewrite kept_nothing in Hk];
      unfold file_stored; [by rewrite Hf|by rewrite HR, Hf, lookup_insert_eq].
  - intros c level lo hi rd c' r level' lo' hi' HW Hk.
    apply dav_WriteLTXFile_spec in HW as (f & -> & [[Hf _]|(HR & He & b & Hf & _)]); unfold file_stored; rewrite Hf; [done|]. by rewrite lookup_insert_ne by done.
Defined.
#[local] Instance dav_readers : OpenLaws Dav.
Proof.
  split. intros c level lo hi off rd Hoff HO. destruct (dav_open_data _ _ _ _ _ _ Hoff HO) as (b & Hb & ->). exists b. by split_and!.
Qed.
End Atomic.
End Dav.

(** ** Times on a WebDAV server *)
Module DavDemo.
Definition cfg : WebDAVConfig := mkWebDAVConfig (lit "http://host") [] [] (lit "/db").
Definition remote : FileStore :=
  mkFileStore ∅ ∅ ∅ 0 (fun _ => None) (fun _ => None) (fun _ => None) (fun _ => None) (fun _ => true) DirDemo.no_v3 DirDemo.no_v3.
Definition c0 : Dav := mkDav cfg false 0 (fun _ => None) 0 (fun _ => (None, None, None)) remote.
Definition keep_none (_ : nat) : option nat := None.
#[export] Instance dops : ReplicaClient Dav := dav_ops DirDemo.sorted_iterator DirDemo.demo_peek 99 keep_none.
#[export] Instance dlaws : ReplicaClientLaws Dav := dav_laws DirDemo.sorted_iterator DirDemo.demo_peek 99 keep_none DirDemo.sorted_permutes DirDemo.sorted_orders.
#[export] Instance dstorage : StorageLaws Dav :=
  dav_storage DirDemo.sorted_iterator DirDemo.demo_peek 99 keep_none DirDemo.sorted_permutes DirDemo.sorted_orders (fun _ => eq_refl).
#[export] Instance dreaders : OpenLaws Dav :=
  dav_readers DirDemo.sorted_iterator DirDemo.demo_peek 99 keep_none DirDemo.sorted_permutes DirDemo.sorted_orders (fun _ => eq_refl).
Definition stream : Reader := mkReader [x01; x02; x03] None.

(** The time in the file's header is what the write returns, but every listing has the time of the upload. *)
Theorem dav_time_lost :
  exists c info f, WriteLTXFile c0 0 1 1 stream = (c, Ok info) /\ LTXFiles c 0 0 true = Ok (mkIter [f] None None) /\
    CreatedAt info <> CreatedAt f /\ CreatedAt f = 99 /\ OpenLTXFile c 0 1 1 0 0 = Ok stream.
Proof. eexists _, _, _. split; [vm_compute; reflexivity|]. split; [vm_compute; reflexivity|]. by vm_compute. Qed.
End DavDemo.
