(* ===== verification/NatsClient.v ===== *)
(** * The NATS client

    Model of src/nats/replica_client.go: a connection made once, LTX files as objects of a
    JetStream bucket with their times in headers, and the paths that name them
    ([LTXFilePath] of src/replicate.go).  The server fails as an environment says. *)

From Stdlib Require Import ZArith Lia Ascii String Strings.Byte.
From stdpp Require Import base numbers list strings gmap sorting.
From S2P Require Import Prelude WalReader Ltx Streams RestorePlan Compactor Replica V3 Db PageIndex Pipeline Restore Urls FileClient.
From S2P Require Import S3Config S3Client ReplicaConfig Config Directory.
Local Open Scope Z_scope.

(** ** Paths of LTX files *)

(** [strconv.Itoa]: 20 digits hold every 64-bit integer. *)
Definition dec_char (d : Z) : ascii := ascii_of_nat (Z.to_nat (48 + d)).
Fixpoint dec_loop (fuel : nat) (n : Z) (acc : str) : str :=
  match fuel with
  | O => acc
  | S fuel => let acc := dec_char (n mod 10) :: acc in if n <? 10 then acc else dec_loop fuel (n / 10) acc
  end.
Definition Itoa (n : Z) : str := if n <? 0 then "-"%char :: dec_loop 20 (- n) [] else dec_loop 20 n [].

Definition LTXDir (root : str) : str := path_Join [root; lit "ltx"].
Definition LTXLevelDir (root : str) (level : Z) : str := path_Join [LTXDir root; Itoa level].
Definition LTXFilePath `{LtxNames} (root : str) (level : Z) (minTXID maxTXID : TXID) : str :=
  path_Join [LTXLevelDir root level; FormatFilename minTXID maxTXID].

(** [parseLTXPath]: the base path is removed if it is there; what follows the name is ignored. *)
Definition parseLTXPath `{LtxNames} (Path objPath : str) : result (Z * TXID * TXID) :=
  let objPath := if nonempty Path && HasPrefix objPath (Path ++ [slash]) then TrimPrefix objPath (Path ++ [slash]) else objPath in
  match split slash objPath with
  | p0 :: p1 :: filename :: _ =>
      if negb (bool_decide (p0 = lit "ltx")) then Err (EMsg "invalid ltx path") else
      match ParseInt p1 with
      | None => Err (EMsg "invalid level in path")
      | Some level => '(lo, hi) ← ParseFilename filename wrapping "invalid filename in path"; Ok (level, lo, hi)
      end
  | _ => Err (EMsg "invalid ltx path")
  end.

(** ** Connecting *)

(** The fields of the client: those the configuration sets, and the others. *)
Record NatsSettings := mkNatsSettings {
  ns_cfg : NATSConfig; ns_Path : str; ns_ReconnectJitter : Z; ns_PingInterval : Z; ns_MaxPingsOut : Z; ns_ReconnectBufSize : Z;
  ns_UserJWT : bool; ns_SigCB : bool
}.
Definition nats_config (url bucket user password : str) : NATSConfig :=
  mkNATSConfig url bucket [] [] [] [] user password [] [] [] [] (-1) (2 * 1000000000) (10 * 1000000000).
Definition nats_settings (cfg : NATSConfig) : NatsSettings := mkNatsSettings cfg [] 0 (120 * 1000000000) 2 (8 * 1024 * 1024) false false.
Definition nats_NewReplicaClient : NatsSettings := nats_settings (nats_config [] [] [] []).

Definition nats_NewReplicaClientFromURL (host urlPath : str) (userinfo : option (str * option str)) : result NatsSettings :=
  let url := if nonempty host then lit "nats://" ++ host else [] in
  let user := match userinfo with Some (u, _) => u | None => [] end in
  let password := match userinfo with Some (_, Some p) => p | _ => [] end in
  let bucket := trim_both urlPath in
  if bool_decide (bucket = []) then Err (EMsg "bucket required for nats replica URL") else Ok (nats_settings (nats_config url bucket user password)).

(** The options of a connection; for callbacks, whether they are there. *)
Inductive nats_option :=
| OMaxReconnects (n : Z) | OReconnectWait (d : Z) | OReconnectJitter (d tls : Z) | OTimeout (d : Z) | OPingInterval (d : Z)
| OMaxPingsOutstanding (n : Z) | OReconnectBufSize (n : Z)
| OUserJWTAndSeed (jwt seed : str) | OUserCredentials (file : str) | ONkey (key : str) (sig : bool) | OUserInfo (user password : str) | OToken (t : str)
| OUserJWT (sig : bool) | OClientCert (cert key : str) | ORootCAs (files : list str).

Definition auth_option (s : NatsSettings) : list nats_option :=
  let c := ns_cfg s in
  if nonempty (na_JWT c) && nonempty (na_Seed c) then [OUserJWTAndSeed (na_JWT c) (na_Seed c)]
  else if nonempty (na_Creds c) then [OUserCredentials (na_Creds c)]
  else if nonempty (na_NKey c) then [ONkey (na_NKey c) (ns_SigCB s)]
  else if nonempty (na_Username c) && nonempty (na_Password c) then [OUserInfo (na_Username c) (na_Password c)]
  else if nonempty (na_Token c) then [OToken (na_Token c)]
  else [].
Definition connect_options (s : NatsSettings) : list nats_option :=
  let c := ns_cfg s in
  [OMaxReconnects (na_MaxReconnects c); OReconnectWait (na_ReconnectWait c); OReconnectJitter (ns_ReconnectJitter s) (ns_ReconnectJitter s * 2);
   OTimeout (na_Timeout c); OPingInterval (ns_PingInterval s); OMaxPingsOutstanding (ns_MaxPingsOut s); OReconnectBufSize (ns_ReconnectBufSize s)]
  ++ auth_option s
  ++ (if ns_UserJWT s then [OUserJWT (ns_SigCB s)] else [])
  ++ (if nonempty (na_ClientCert c) && nonempty (na_ClientKey c) then [OClientCert (na_ClientCert c) (na_ClientKey c)] else [])
  ++ (if bool_decide (na_RootCAs c = []) then [] else [ORootCAs (na_RootCAs c)]).
Definition DefaultURL : str := lit "nats://127.0.0.1:4222".

(** An object: contents, the time it was put, and its headers. *)
Record nats_object := mkNatsObject { no_data : list byte; no_ModTime : time; no_Headers : gmap string (list str) }.

(** What the server does: connections, the JetStream context and the bucket on the [n]-th attempt, errors of listings,
    of reads and the [n]-th change; reads that break off. *)
Record NatsEnv := mkNatsEnv {
  ne_connect : nat -> str -> list nats_option -> option error; ne_js : nat -> option error; ne_bucket : nat -> option error;
  ne_list : option error; ne_get : str -> option error; ne_cut : str -> option (nat * error);
  ne_put : nat -> put_fate; ne_delete : nat -> option error
}.
(** The client: its settings, whether it has a connection and a bucket, the attempts to connect; the objects, the changes. *)
Record Nats := mkNats {
  nt_set : NatsSettings; nt_nc : bool; nt_store : bool; nt_attempts : nat; nt_objects : gmap str nats_object; nt_calls : nat; nt_env : NatsEnv
}.
Definition nt_conn (nc store : bool) (c : Nats) : Nats :=
  mkNats (nt_set c) nc store (S (nt_attempts c)) (nt_objects c) (nt_calls c) (nt_env c).
Definition nt_put (m : gmap str nats_object) (c : Nats) : Nats :=
  mkNats (nt_set c) (nt_nc c) (nt_store c) (nt_attempts c) m (S (nt_calls c)) (nt_env c).

Definition nats_connect (c : Nats) : result () :=
  let s := nt_set c in
  let url := if nonempty (na_URL (ns_cfg s)) then na_URL (ns_cfg s) else DefaultURL in
  match ne_connect (nt_env c) (nt_attempts c) url (connect_options s) with
  | Some e => Err (EWrap "failed to connect to NATS server" e)
  | None => match ne_js (nt_env c) (nt_attempts c) with
            | Some e => Err (EWrap "failed to create JetStream context" e)
            | None => Ok ()
            end
  end.
Definition initObjectStore (c : Nats) : result () :=
  if bool_decide (na_BucketName (ns_cfg (nt_set c)) = []) then Err (EMsg "bucket name is required") else
  match ne_bucket (nt_env c) (nt_attempts c) with
  | Some e => Err (EWrap "failed to access object store bucket (bucket must be created beforehand)" e)
  | None => Ok ()
  end.
(** [Init]: a client with a connection is initialized. *)
Definition nats_Init (c : Nats) : Nats * result () :=
  if nt_nc c then (c, Ok ()) else
  match nats_connect c with
  | Err e => (nt_conn false (nt_store c) c, Err (EWrap "nats: failed to connect" e))
  | Panic m => (c, Panic m)
  | Ok _ =>
      match initObjectStore c with
      | Err e => (nt_conn true (nt_store c) c, Err (EWrap "nats: failed to initialize object store" e))
      | Panic m => (c, Panic m)
      | Ok _ => (nt_conn true true c, Ok ())
      end
  end.
Definition nats_Close (c : Nats) : Nats := if nt_nc c then mkNats (nt_set c) false false (nt_attempts c) (nt_objects c) (nt_calls c) (nt_env c) else c.

(** ** The bucket *)

(** Calls of a bucket that was never set. *)
Definition nil_store {A} : result A := Panic "invalid memory address or nil pointer dereference".
Definition ErrNoObjectsFound : error := EVar "nats: no objects found".
Definition ErrObjectNotFound : error := EVar "nats: object not found".
Definition no_objects (e : error) : bool := Contains (lit (Error e)) (lit "no objects found").
Definition nats_isNotFoundError (e : error) : bool := errors_Is e ErrObjectNotFound || Contains (lit (Error e)) (lit "not found").

Definition store_List (c : Nats) : result (list (str * nats_object)) :=
  if negb (nt_store c) then nil_store else
  match ne_list (nt_env c) with
  | Some e => Err e
  | None => if bool_decide (nt_objects c = ∅) then Err ErrNoObjectsFound else Ok (map_to_list (nt_objects c))
  end.
Definition store_Get (c : Nats) (key : str) : result Reader :=
  if negb (nt_store c) then nil_store else
  match ne_get (nt_env c) key with
  | Some e => Err e
  | None =>
      match nt_objects c !! key with
      | None => Err ErrObjectNotFound
      | Some o => Ok (match ne_cut (nt_env c) key with Some (n, e) => mkReader (take n (no_data o)) (Some e) | None => mkReader (no_data o) None end)
      end
  end.
(** [Put]: chunks of a stream that breaks off are purged. *)
Definition store_Put (c : Nats) (key : str) (headers : gmap string (list str)) (now : time) (rd : Reader) : Nats * result Z :=
  if negb (nt_store c) then (c, nil_store) else
  match rd_err rd with
  | Some e => (nt_put (nt_objects c) c, Err e)
  | None =>
      let m := <[key := mkNatsObject (rd_data rd) now headers]> (nt_objects c) in
      match ne_put (nt_env c) (nt_calls c) with
      | PutOk _ => (nt_put m c, Ok (Z.of_nat (length (rd_data rd))))
      | PutErr stored e => (nt_put (if stored : bool then m else nt_objects c) c, Err e)
      end
  end.
Definition store_Delete (c : Nats) (key : str) : Nats * result () :=
  if negb (nt_store c) then (c, nil_store) else
  match ne_delete (nt_env c) (nt_calls c) with
  | Some e => (nt_put (nt_objects c) c, Err e)
  | None => match nt_objects c !! key with
            | None => (nt_put (nt_objects c) c, Err ErrObjectNotFound)
            | Some _ => (nt_put (base.delete key (nt_objects c)) c, Ok ())
            end
  end.

(** ** The iterator *)

Record ltxFileIterator := mkLtxFileIterator { li_files : list FileInfo; li_index : Z; li_err : option error }.
Definition li_Next (itr : ltxFileIterator) : ltxFileIterator * bool :=
  let i := li_index itr + 1 in (mkLtxFileIterator (li_files itr) i (li_err itr), i <? Z.of_nat (length (li_files itr))).
Definition li_Item (itr : ltxFileIterator) : option FileInfo :=
  if (li_index itr <? 0) || (Z.of_nat (length (li_files itr)) <=? li_index itr) then None else li_files itr !! Z.to_nat (li_index itr).
(** A caller's loop. *)
Fixpoint li_drain (fuel : nat) (itr : ltxFileIterator) : list FileInfo :=
  match fuel with
  | O => []
  | S fuel => let '(itr, more) := li_Next itr in
              if more : bool then match li_Item itr with Some f => [f] | None => [] end ++ li_drain fuel itr else []
  end.
Definition iterator (itr : ltxFileIterator) : FileIterator := mkIter (li_drain (S (length (li_files itr))) itr) (li_err itr) (li_err itr).

Definition HeaderKeyTimestamp : string := "Replicate-Timestamp".

Section NatsOps.
Context `{LtxNames}.
Variable peek : Reader -> result Z.
Variable now : time.
Variable FormatTime : time -> str.
Variable ParseTime : str -> option time.
(** [sort.Slice] by the first transaction. *)
Variable sort_Slice : list FileInfo -> list FileInfo.

Definition nats_ltxPath (c : Nats) (level : Z) (minTXID maxTXID : TXID) : str := LTXFilePath (ns_Path (nt_set c)) level minTXID maxTXID.

Definition created_at (o : nats_object) : time :=
  match no_Headers o !! HeaderKeyTimestamp with
  | Some (value :: _) => default (no_ModTime o) (ParseTime value)
  | _ => no_ModTime o
  end.
(** What the loop of [LTXFiles] makes of an object. *)
Definition nats_info (Path : str) (level : Z) (seek : TXID) (obj : str * nats_object) : option FileInfo :=
  if negb (HasPrefix obj.1 (LTXLevelDir Path level ++ [slash])) then None else
  match parseLTXPath Path obj.1 with
  | Ok (fileLevel, minTXID, maxTXID) =>
      if negb (fileLevel =? level) then None
      else if minTXID <? seek then None
      else Some (mkFileInfo fileLevel minTXID maxTXID (Z.of_nat (length (no_data obj.2))) (created_at obj.2))
  | _ => None
  end.

(** The objects, where an empty bucket is no error. *)
Definition list_all (text : string) (c : Nats) : result (list (str * nats_object)) :=
  match store_List c with
  | Err e => if no_objects e then Ok [] else Err (EWrap text e)
  | r => r
  end.
Definition nats_list (level : Z) (seek : TXID) (c : Nats) : result FileIterator :=
  objectList ← list_all "failed to list objects" c;
  Ok (iterator (mkLtxFileIterator (sort_Slice (omap (nats_info (ns_Path (nt_set c)) level seek) objectList)) (-1) None)).

Definition nats_operation {A} (body : Nats -> Nats * result A) (c : Nats) : Nats * result A :=
  match nats_Init c with
  | (c, Err e) => (c, Err e)
  | (c, Panic m) => (c, Panic m)
  | (c, Ok _) => body c
  end.
Definition nats_LTXFiles (level : Z) (seek : TXID) : Nats -> Nats * result FileIterator := nats_operation (fun c => (c, nats_list level seek c)).

(** The end of the object before the offset is an error. *)
Definition discard (offset : Z) (rd : Reader) : result Reader :=
  if 0 <? offset then
    if Z.of_nat (length (rd_data rd)) <? offset then Err (EWrap "failed to discard offset bytes" (default io_EOF (rd_err rd)))
    else Ok (mkReader (drop (Z.to_nat offset) (rd_data rd)) (rd_err rd))
  else Ok rd.
Definition limit (size : Z) (rd : Reader) : Reader :=
  if 0 <? size then mkReader (take (Z.to_nat size) (rd_data rd)) (if size <=? Z.of_nat (length (rd_data rd)) then None else rd_err rd) else rd.
Definition nats_open (level : Z) (minTXID maxTXID : TXID) (offset size : Z) (c : Nats) : result Reader :=
  if negb (is_txid minTXID && is_txid maxTXID) then Err (EMsg "not a transaction id") else
  match store_Get c (nats_ltxPath c level minTXID maxTXID) with
  | Err e => if nats_isNotFoundError e then Err ErrNotExist else Err (EWrap "failed to get object" e)
  | Panic m => Panic m
  | Ok rd => rd ← discard offset rd; Ok (limit size rd)
  end.
Definition nats_OpenLTXFile (level : Z) (minTXID maxTXID : TXID) (offset size : Z) : Nats -> Nats * result Reader :=
  nats_operation (fun c => (c, nats_open level minTXID maxTXID offset size c)).

Definition nats_write (level : Z) (minTXID maxTXID : TXID) (r : Reader) (c : Nats) : Nats * result FileInfo :=
  if negb (is_txid minTXID && is_txid maxTXID) then (c, Err (EMsg "not a transaction id")) else
  match ExtractLTXTimestamp peek now r with
  | Err e => (c, Err e)
  | Panic m => (c, Panic m)
  | Ok (timestamp, rc) =>
      match store_Put c (nats_ltxPath c level minTXID maxTXID) {[HeaderKeyTimestamp := [FormatTime timestamp]]} now rc with
      | (c, Err e) => (c, Err (EWrap "failed to put object" e))
      | (c, Panic m) => (c, Panic m)
      | (c, Ok size) => (c, Ok (mkFileInfo level minTXID maxTXID size timestamp))
      end
  end.
Definition nats_WriteLTXFile (c : Nats) (level : Z) (minTXID maxTXID : TXID) (r : Reader) : Nats * result FileInfo :=
  nats_operation (nats_write level minTXID maxTXID r) c.

(** The loop over [Delete]; a missing object is no error. *)
Fixpoint delete_each (keys : list str) (c : Nats) : Nats * result () :=
  match keys with
  | [] => (c, Ok ())
  | key :: keys =>
      match store_Delete c key with
      | (c, Err e) => if negb (nats_isNotFoundError e) then (c, Err (EWrap "failed to delete object" e)) else delete_each keys c
      | (c, Panic m) => (c, Panic m)
      | (c, Ok _) => delete_each keys c
      end
  end.
Definition nats_DeleteLTXFiles (c : Nats) (a : list FileInfo) : Nats * result () :=
  if negb (forallb (fun info => is_txid (MinTXID info) && is_txid (MaxTXID info)) a) then (c, Err (EMsg "not a transaction id")) else
  nats_operation (fun c => delete_each ((fun info => nats_ltxPath c (Level info) (MinTXID info) (MaxTXID info)) <$> a) c) c.
Definition nats_DeleteAll (c : Nats) : Nats * result () :=
  nats_operation (fun c => match list_all "failed to list all objects" c with
                           | Err e => (c, Err e)
                           | Panic m => (c, Panic m)
                           | Ok objectList => delete_each (objectList.*1) c
                           end) c.
End NatsOps.

(** ** Paths parse back *)

Lemma dec_char_digit d : 0 <= d < 10 -> dec_digit (dec_char d) = Some d.
Proof. intros Hd. assert (d = 0 \/ d = 1 \/ d = 2 \/ d = 3 \/ d = 4 \/ d = 5 \/ d = 6 \/ d = 7 \/ d = 8 \/ d = 9) as H by lia. by repeat destruct H as [-> |H]; [..|subst d]. Qed.
Lemma dec_loop_digits fuel n acc : 0 <= n < 10 ^ Z.of_nat (S fuel) -> digits 0 (dec_loop (S fuel) n acc) = digits n acc.
Proof.
  revert n acc. induction fuel as [|fuel IH]; intros n acc Hn.
  - change (10 ^ Z.of_nat 1) with 10 in Hn. cbn [dec_loop]. rewrite Z.mod_small by lia. destruct (Z.ltb_spec n 10); [|lia].
    cbn [digits]. by rewrite dec_char_digit by lia.
  - change (dec_loop (S (S fuel)) n acc) with (let acc := dec_char (n mod 10) :: acc in if n <? 10 then acc else dec_loop (S fuel) (n / 10) acc).
    cbv zeta. pose proof (Z.mod_pos_bound n 10). destruct (Z.ltb_spec n 10).
    + cbn [digits]. rewrite Z.mod_small by lia. by rewrite dec_char_digit by lia.
    + rewrite IH; [cbn [digits]; rewrite dec_char_digit by lia; f_equal; pose proof (Z.div_mod n 10); lia|].
      rewrite (Nat2Z.inj_succ (S fuel)), Z.pow_succ_r in Hn by lia. split; [apply Z.div_pos; lia|apply Z.div_lt_upper_bound; lia].
Qed.
(** Only digits are written, and at least one. *)
Definition digit_char (c : ascii) : Prop := exists d, 0 <= d < 10 /\ c = dec_char d.
Lemma dec_loop_chars fuel n acc : Forall digit_char acc -> Forall digit_char (dec_loop fuel n acc).
Proof.
  revert n acc. induction fuel as [|fuel IH]; intros n acc Ha; [done|]. cbn [dec_loop].
  assert (Forall digit_char (dec_char (n mod 10) :: acc)) by (constructor; [exists (n mod 10); split; [apply Z.mod_pos_bound; lia|done]|done]).
  destruct (n <? 10); [done|by apply IH].
Qed.
Lemma dec_loop_ne fuel n acc : acc <> [] -> dec_loop fuel n acc <> [].
Proof. revert n acc. induction fuel as [|fuel IH]; intros n acc Ha; [done|]. cbn [dec_loop]. destruct (n <? 10); [done|by apply IH]. Qed.
Lemma dec_loop_S_ne fuel n acc : dec_loop (S fuel) n acc <> [].
Proof. cbn [dec_loop]. destruct (n <? 10); [done|by apply dec_loop_ne]. Qed.
Lemma digit_char_not c : digit_char c -> c <> slash /\ c <> "."%char /\ c <> "-"%char /\ c <> "+"%char.
Proof.
  intros (d & Hd & ->). assert (d = 0 \/ d = 1 \/ d = 2 \/ d = 3 \/ d = 4 \/ d = 5 \/ d = 6 \/ d = 7 \/ d = 8 \/ d = 9) as H by lia.
  by repeat destruct H as [-> |H]; [..|subst d].
Qed.

(** The digits of a 64-bit number. *)
Lemma dec_loop_fuel fuel n : 0 <= n < 10 ^ Z.of_nat (S fuel) ->
  exists c s, dec_loop (S fuel) n [] = c :: s /\ Forall digit_char (c :: s) /\ digits 0 (c :: s) = Some n.
Proof.
  intros Hn. pose proof (dec_loop_S_ne fuel n []) as Hne. pose proof (dec_loop_chars (S fuel) n [] (Forall_nil_2 _)) as Hc.
  pose proof (dec_loop_digits fuel n [] Hn) as Hd. generalize dependent (dec_loop (S fuel) n []). intros [|c s]; [done|]. intros. by exists c, s.
Qed.
Lemma dec_loop_20 n : 0 <= n <= 2 ^ 63 -> exists c s, dec_loop 20 n [] = c :: s /\ Forall digit_char (c :: s) /\ digits 0 (c :: s) = Some n.
Proof. intros Hn. apply (dec_loop_fuel 19). assert (2 ^ 63 < 10 ^ Z.of_nat 20) by by vm_compute. lia. Qed.
Lemma dec_loop_plain n : dec_loop 20 n [] <> [] /\ Forall digit_char (dec_loop 20 n []).
Proof. split; [exact (dec_loop_S_ne 19 n [])|exact (dec_loop_chars 20 n [] (Forall_nil_2 _))]. Qed.

Definition is_int (n : Z) : bool := (- 2 ^ 63 <=? n) && (n <? 2 ^ 63).
Lemma ParseInt_Itoa n : is_int n = true -> ParseInt (Itoa n) = Some n.
Proof.
  unfold is_int. intros Hn. unfold Itoa. destruct (Z.ltb_spec n 0).
  - destruct (dec_loop_20 (- n) ltac:(lia)) as (c & s & -> & _ & Hd). unfold ParseInt. rewrite bool_decide_eq_true_2 by done.
    rewrite bool_decide_eq_false_2 by done. rewrite Hd. cbn [mbind option_bind]. rewrite Z.opp_involutive. by rewrite Hn.
  - destruct (dec_loop_20 n ltac:(lia)) as (c & s & -> & Hc & Hd). apply Forall_cons in Hc as [Hc _].
    apply digit_char_not in Hc as (_ & _ & Hm & Hp). unfold ParseInt. rewrite (bool_decide_eq_false_2 (c = _)), (bool_decide_eq_false_2 (c = _)) by done.
    rewrite bool_decide_eq_false_2 by done. rewrite Hd. cbn [mbind option_bind]. by rewrite Hn.
Qed.
Lemma Itoa_safe n : safe_elem (Itoa n).
Proof.
  assert (forall s, Forall digit_char s -> no_sep slash s) as Hns.
  { intros s Hs Hin. eapply List.Forall_forall in Hs; [|done]. by apply digit_char_not in Hs as [? _]. }
  unfold Itoa. destruct (dec_loop_plain (- n)) as [_ H1]. destruct (dec_loop_plain n) as [Hne H2].
  generalize dependent (dec_loop 20 (- n) []). generalize dependent (dec_loop 20 n []). intros s Hne H2 s' H1. destruct (n <? 0).
  - split_and!; [done..|]. intros [?|Hin]; [done|by apply (Hns _ H1)].
  - split_and!; [done| | |by apply Hns]; intros ->; apply Forall_cons in H2 as [H2 _]; by apply digit_char_not in H2 as (_ & ? & _).
Qed.

(** A base path in the form that [path.Join] gives: empty, or elements below the root or not. *)
Definition below_base (rooted : bool) (ws : list str) : str := (if rooted then [slash] else []) ++ join slash ws.
Definition canonical (Path : str) : Prop :=
  exists rooted ws, Path = below_base rooted ws /\ Forall safe_elem ws /\ (ws = [] -> rooted = false).

Lemma path_Join_below rooted ws w : Forall safe_elem ws -> safe_elem w -> (ws = [] -> rooted = false) ->
  path_Join [below_base rooted ws; w] = below_base rooted (ws ++ [w]).
Proof.
  intros Hws Hw He. assert (Forall safe_elem (ws ++ [w])) as Hs by (apply Forall_app; split; [done|by apply Forall_singleton]).
  assert (ws ++ [w] <> []) as Hn by (by intros [_ ?]%app_eq_nil). destruct rooted.
  - change (below_base true ws) with (abs ws). change w with (join slash [w]) at 1. rewrite path_Join_abs by first [apply abs_rooted|done|by apply Forall_singleton].
    by rewrite root_elems_abs.
  - unfold below_base. cbn [app]. rewrite <- (path_Clean_rel (ws ++ [w])) by done. unfold path_Join. destruct ws as [|x ws].
    + cbn [join app]. rewrite filter_cons_False by done. rewrite filter_cons_True by (destruct Hw; by apply nonempty_true). by rewrite filter_nil.
    + rewrite filter_cons_True by (by apply nonempty_true, join_safe_ne). rewrite filter_cons_True by (destruct Hw; by apply nonempty_true).
      rewrite filter_nil. f_equal. by rewrite join_app.
Qed.

Section Paths.
Context `{NL : LtxNamesLaws}.

Lemma FormatFilename_safe lo hi : safe_elem (FormatFilename lo hi).
Proof.
  destruct (format_plain lo hi) as [? ?]. pose proof (format_long lo hi) as Hl. split_and!; [done| | |done]; intros E; rewrite E in Hl; cbn in Hl; lia.
Qed.
Lemma ltx_safe : safe_elem (lit "ltx").
Proof. by split_and!; [..|unfold no_sep; cbn; intuition]. Qed.

Lemma file_elems_safe level lo hi : Forall safe_elem [lit "ltx"; Itoa level; FormatFilename lo hi].
Proof. constructor; [apply ltx_safe|constructor; [apply Itoa_safe|constructor; [apply FormatFilename_safe|constructor]]]. Qed.

Lemma LTXLevelDir_below rooted ws level : Forall safe_elem ws -> (ws = [] -> rooted = false) ->
  LTXLevelDir (below_base rooted ws) level = below_base rooted (ws ++ [lit "ltx"; Itoa level]).
Proof.
  intros Hws He. unfold LTXLevelDir, LTXDir. pose proof ltx_safe. pose proof (Itoa_safe level).
  rewrite path_Join_below by done. rewrite path_Join_below; [by rewrite <- app_assoc|apply Forall_app; split; [done|by apply Forall_singleton]|done|by intros [_ ?]%app_eq_nil].
Qed.
Lemma LTXFilePath_below rooted ws level lo hi : Forall safe_elem ws -> (ws = [] -> rooted = false) ->
  LTXFilePath (below_base rooted ws) level lo hi = below_base rooted (ws ++ [lit "ltx"; Itoa level; FormatFilename lo hi]).
Proof.
  intros Hws He. unfold LTXFilePath. rewrite LTXLevelDir_below by done. rewrite path_Join_below; [by rewrite <- app_assoc| |apply FormatFilename_safe|by intros [_ ?]%app_eq_nil].
  apply Forall_app; split; [done|]. constructor; [apply ltx_safe|constructor; [apply Itoa_safe|constructor]].
Qed.

Lemma level_dir_prefix Path level lo hi : canonical Path -> HasPrefix (LTXFilePath Path level lo hi) (LTXLevelDir Path level ++ [slash]) = true.
Proof.
  intros (rooted & ws & -> & Hws & He). rewrite LTXFilePath_below, LTXLevelDir_below by done. apply HasPrefix_app. exists (FormatFilename lo hi).
  change [lit "ltx"; Itoa level; FormatFilename lo hi] with ([lit "ltx"; Itoa level] ++ [FormatFilename lo hi]). rewrite app_assoc. unfold below_base.
  rewrite (join_app (ws ++ _)) by first [done|by intros [_ ?]%app_eq_nil]. cbn [join]. by rewrite <- !app_assoc.
Qed.

(** The base path comes off again. *)
Lemma trim_base rooted ws x : Forall safe_elem ws -> x <> [] -> Forall safe_elem x -> (ws = [] -> rooted = false) ->
  (let Path := below_base rooted ws in let obj := below_base rooted (ws ++ x) in
   if nonempty Path && HasPrefix obj (Path ++ [slash]) then TrimPrefix obj (Path ++ [slash]) else obj) = join slash x.
Proof.
  intros Hws Hx Hxs He. cbv zeta. destruct (decide (ws = [])) as [->|Hne]; [by rewrite (He eq_refl)|].
  assert (below_base rooted (ws ++ x) = (below_base rooted ws ++ [slash]) ++ join slash x) as ->.
  { unfold below_base. rewrite join_app by done. by rewrite <- !app_assoc. }
  assert (nonempty (below_base rooted ws) = true) as ->.
  { apply nonempty_true. unfold below_base. destruct rooted; [done|]. by apply join_safe_ne. }
  assert (HasPrefix ((below_base rooted ws ++ [slash]) ++ join slash x) (below_base rooted ws ++ [slash]) = true) as HP by (apply HasPrefix_app; by eexists).
  cbn [andb]. unfold TrimPrefix. rewrite HP. by rewrite drop_app_length.
Qed.

(** The object path of an LTX file parses back to its level and transactions, whatever the
    base path of the client, if it is in the form that [path.Join] gives. *)
Lemma ltx_path_roundtrip Path level lo hi :
  canonical Path -> is_int level = true -> is_txid lo && is_txid hi = true -> parseLTXPath Path (LTXFilePath Path level lo hi) = Ok (level, lo, hi).
Proof.
  intros (rooted & ws & -> & Hws & He) Hl HR. unfold parseLTXPath. rewrite LTXFilePath_below by done.
  assert (Forall safe_elem [lit "ltx"; Itoa level; FormatFilename lo hi]) as Hx by apply file_elems_safe.
  rewrite trim_base by done. rewrite split_join by first [done|by apply safe_no_sep]. rewrite bool_decide_eq_true_2 by done. cbn [negb].
  rewrite ParseInt_Itoa by done. by rewrite parse_format.
Qed.
End Paths.

(** ** What operations do *)

Lemma li_drain_from files e i : (i <= length files)%nat ->
  li_drain (S (length files - i)) (mkLtxFileIterator files (Z.of_nat i - 1) e) = drop i files.
Proof.
  intros Hi. remember (length files - i)%nat as n eqn:En. revert i Hi En. induction n as [|n IH]; intros i Hi En; cbn [li_drain li_Next li_files li_index li_err].
  - replace (Z.of_nat i - 1 + 1) with (Z.of_nat i) by lia. destruct (Z.ltb_spec (Z.of_nat i) (Z.of_nat (length files))); [lia|]. by rewrite drop_ge by lia.
  - replace (Z.of_nat i - 1 + 1) with (Z.of_nat i) by lia. destruct (Z.ltb_spec (Z.of_nat i) (Z.of_nat (length files))); [|lia].
    unfold li_Item. cbn [li_index li_files]. destruct (Z.ltb_spec (Z.of_nat i) 0); [lia|]. destruct (Z.leb_spec (Z.of_nat (length files)) (Z.of_nat i)); [lia|].
    cbn [orb]. rewrite Nat2Z.id. destruct (files !! i) as [f|] eqn:Ef; [|apply lookup_ge_None in Ef; lia].
    rewrite (drop_S _ f) by done. cbn [app]. f_equal. replace (Z.of_nat i) with (Z.of_nat (S i) - 1) by lia. apply IH; lia.
Qed.
(** The iterator delivers every file once, in order. *)
Lemma iterator_items files : iterator (mkLtxFileIterator files (-1) None) = mkIter files None None.
Proof. unfold iterator. cbn [li_files li_err]. f_equal. pose proof (li_drain_from files None 0 ltac:(lia)) as E. by rewrite Nat.sub_0_r in E. Qed.

(** *** The connection *)

(** A client that has a connection has its bucket. *)
Definition ready (c : Nats) : bool := implb (nt_nc c) (nt_store c).

Lemma nats_Init_cases c c' r : nats_Init c = (c', r) ->
  nt_set c' = nt_set c /\ nt_objects c' = nt_objects c /\ nt_env c' = nt_env c /\ is_panic r = false /\
  (ready c = true -> is_ok r = true -> nt_store c' = true) /\ (ready c = true -> is_ok (initObjectStore c) = true -> ready c' = true).
Proof.
  unfold nats_Init, ready. destruct (nt_nc c) eqn:EN; [intros [= <- <-]; rewrite EN; by split_and!|].
  assert (is_panic (nats_connect c) = false /\ is_panic (initObjectStore c) = false) as [H1 H2].
  { unfold nats_connect, initObjectStore. split; [destruct (ne_connect _ _ _ _); [done|]; by destruct (ne_js _ _)|].
    case_bool_decide; [done|]. by destruct (ne_bucket _ _). }
  destruct (nats_connect c) as [[]|e|m]; [|intros [= <- <-]; by split_and!|done].
  destruct (initObjectStore c) as [[]|e|m]; intros [= <- <-]; [by split_and!..|done].
Qed.

(** What an operation does: nothing to the objects when it does not connect, and otherwise its work. *)
Lemma nats_operation_cases {A} (body : Nats -> Nats * result A) c c' r : nats_operation body c = (c', r) ->
  exists c1, nt_set c1 = nt_set c /\ nt_objects c1 = nt_objects c /\ nt_env c1 = nt_env c /\
    ((c' = c1 /\ is_ok r = false /\ is_panic r = false) \/ (body c1 = (c', r) /\ (ready c = true -> nt_store c1 = true))).
Proof.
  unfold nats_operation. destruct (nats_Init c) as [c1 r1] eqn:EI. apply nats_Init_cases in EI as (Hs & Ho & He & Hp & Hst & _).
  destruct r1 as [[]|e|m]; [intros HB; exists c1; split_and!; [done..|right; split; [done|]; intros; by apply Hst]|intros [= <- <-]; exists c1; split_and!; [done..|by left]|done].
Qed.

(** *** The files of a level *)

Section NatsFiles.
Context `{NL : LtxNamesLaws}.
Variable peek : Reader -> result Z.
Variable now : time.
Variable FormatTime : time -> str.
Variable ParseTime : str -> option time.
Variable sort_Slice : list FileInfo -> list FileInfo.
Abbreviation base c := (ns_Path (nt_set c)).

(** Nothing is stored below the file of a path, and levels are written in the usual way. *)
Definition nats_key_wf (Path k : str) : bool :=
  match parseLTXPath Path k with
  | Ok (level, lo, hi) => implb (HasPrefix k (LTXLevelDir Path level ++ [slash])) (bool_decide (k = LTXFilePath Path level lo hi))
  | _ => true
  end.
Definition nats_wf (c : Nats) : Prop := canonical (base c) /\ forall k, is_Some (nt_objects c !! k) -> nats_key_wf (base c) k = true.

Lemma LTXFilePath_wf Path level lo hi : canonical Path -> is_int level = true -> is_txid lo && is_txid hi = true -> nats_key_wf Path (LTXFilePath Path level lo hi) = true.
Proof.
  intros HP Hl HR. unfold nats_key_wf. rewrite ltx_path_roundtrip by done. rewrite bool_decide_eq_true_2 by done. by destruct (HasPrefix _ _).
Qed.
Lemma LTXFilePath_inj Path level lo hi level' lo' hi' :
  canonical Path -> is_int level = true -> is_int level' = true -> is_txid lo && is_txid hi = true -> is_txid lo' && is_txid hi' = true ->
  LTXFilePath Path level lo hi = LTXFilePath Path level' lo' hi' -> (level, lo, hi) = (level', lo', hi').
Proof. intros HP H1 H2 H3 H4 E. apply (f_equal (parseLTXPath Path)) in E. rewrite !ltx_path_roundtrip in E by done. congruence. Qed.

Definition nats_files (c : Nats) (level : Z) (seek : TXID) : list FileInfo :=
  omap (nats_info ParseTime (base c) level seek) (map_to_list (nt_objects c)).

Lemma nats_info_Some c level seek ko f :
  nats_wf c -> nt_objects c !! ko.1 = Some ko.2 -> nats_info ParseTime (base c) level seek ko = Some f ->
  Level f = level /\ seek <= MinTXID f /\ is_txid (MinTXID f) && is_txid (MaxTXID f) = true /\ ko.1 = LTXFilePath (base c) level (MinTXID f) (MaxTXID f) /\
  FSize f = Z.of_nat (length (no_data ko.2)) /\ CreatedAt f = created_at ParseTime ko.2.
Proof.
  intros [_ Hwf] Hk. unfold nats_info. destruct (HasPrefix ko.1 _) eqn:EP; cbn [negb]; [|done].
  destruct (parseLTXPath (base c) ko.1) as [[[l lo] hi]|e|m] eqn:EX; [|done..]. destruct (Z.eqb_spec l level) as [->|]; [|done]. cbn [negb].
  destruct (Z.ltb_spec lo seek); [done|]. intros [= <-]. cbn. specialize (Hwf ko.1 (mk_is_Some _ _ Hk)). unfold nats_key_wf in Hwf. rewrite EX, EP in Hwf.
  cbn [implb] in Hwf. apply bool_decide_eq_true in Hwf. split_and!; try done.
  unfold parseLTXPath in EX. destruct (split slash _) as [|? [|? [|name ?]]]; try done. destruct (negb _); [done|]. destruct (ParseInt _); [|done].
  destruct (ParseFilename name) as [[lo' hi']|e|m] eqn:EN; cbn in EX; [|done..]. apply parse_inv in EN as [EN _]. by injection EX as _ <- <-.
Qed.

Lemma nats_files_elem c level seek f : nats_wf c -> is_int level = true ->
  f ∈ nats_files c level seek <->
  exists o, nt_objects c !! LTXFilePath (base c) level (MinTXID f) (MaxTXID f) = Some o /\ Level f = level /\ seek <= MinTXID f /\
    is_txid (MinTXID f) && is_txid (MaxTXID f) = true /\ FSize f = Z.of_nat (length (no_data o)) /\ CreatedAt f = created_at ParseTime o.
Proof.
  intros Hwf Hl. unfold nats_files. rewrite list_elem_of_omap. split.
  - intros ([k o] & Hk & HI). apply elem_of_map_to_list in Hk. destruct (nats_info_Some c level seek (k, o) f Hwf Hk HI) as (H1 & H2 & H3 & H4 & H5 & H6).
    cbn in H4, H5, H6. subst k. by exists o.
  - intros (o & Ho & HL & Hs & HR & HF & HC). exists (LTXFilePath (base c) level (MinTXID f) (MaxTXID f), o). split; [by apply elem_of_map_to_list|].
    unfold nats_info. cbn [fst snd]. rewrite level_dir_prefix by apply Hwf. cbn [negb]. rewrite ltx_path_roundtrip by (done || apply Hwf).
    rewrite Z.eqb_refl. cbn [negb]. destruct (Z.ltb_spec (MinTXID f) seek); [lia|]. destruct f; cbn in *. by subst.
Qed.

(** One object per path. *)
Lemma nats_files_distinct c level seek : nats_wf c -> NoDup ((fun f => (MinTXID f, MaxTXID f)) <$> nats_files c level seek).
Proof.
  intros Hwf. unfold nats_files. pose proof (NoDup_fst_map_to_list (nt_objects c)) as HN.
  assert (forall ko, ko ∈ map_to_list (nt_objects c) -> nt_objects c !! ko.1 = Some ko.2) as Hin by (intros [k o]; apply elem_of_map_to_list).
  induction (map_to_list (nt_objects c)) as [|ko l IH]; [constructor|]. rewrite fmap_cons in HN. apply NoDup_cons in HN as [Hko HN]. cbn [omap list_omap].
  assert (forall x, x ∈ l -> nt_objects c !! x.1 = Some x.2) as Hl by (intros; apply Hin; by right). specialize (IH HN Hl).
  destruct (nats_info ParseTime (base c) level seek ko) as [f|] eqn:EI; [|done]. rewrite fmap_cons. apply NoDup_cons. split; [|done].
  intros (g & Eg & (x & Hx & EX)%list_elem_of_omap)%list_elem_of_fmap. apply Hko. apply list_elem_of_fmap. exists x. split; [|done].
  apply nats_info_Some in EI as (_ & _ & _ & -> & _); [|done|apply Hin; by left]. apply nats_info_Some in EX as (_ & _ & _ & -> & _); [|done|by apply Hl].
  by injection Eg as -> ->.
Qed.

(** [sort.Slice]: ordered by the first transaction; it promises nothing about files with the same one. *)
Hypothesis sort_permutes : forall l, sort_Slice l ≡ₚ l.
Hypothesis sort_orders : forall l, StronglySorted (fun a b => MinTXID a <= MinTXID b) (sort_Slice l).

Lemma nats_list_spec c level seek it : (forall e, ne_list (nt_env c) = Some e -> no_objects e = false) ->
  (nats_LTXFiles ParseTime sort_Slice level seek c).2 = Ok it -> it = mkIter (sort_Slice (nats_files c level seek)) None None.
Proof.
  intros Hlist. destruct (nats_LTXFiles ParseTime sort_Slice level seek c) as [c' r] eqn:E. cbn. intros ->.
  apply nats_operation_cases in E as (c1 & Hs & Ho & He & [(_ & ? & _)|[E _]]); [done|]. injection E as _ E.
  unfold nats_list, list_all, store_List in E. rewrite He, Hs, Ho in E. destruct (nt_store c1); cbn [negb] in E; [|done].
  unfold nats_files. destruct (ne_list (nt_env c)) as [e|]; [by rewrite Hlist in E|].
  case_bool_decide as Hemp; [|cbn in E; injection E as <-; apply iterator_items].
  replace (no_objects ErrNoObjectsFound) with true in E by by vm_compute. cbn in E. injection E as <-. rewrite Hemp, map_to_list_empty. apply iterator_items.
Qed.

(** A listing without an error has exactly the stored files of the level from the seek position, each once, in the order of their
    first transactions, with the times of their headers. *)
Theorem nats_listing_exact c level seek it :
  nats_wf c -> is_int level = true -> (forall e, ne_list (nt_env c) = Some e -> no_objects e = false) ->
  (nats_LTXFiles ParseTime sort_Slice level seek c).2 = Ok it ->
  itr_Err it = None /\ StronglySorted (fun a b => MinTXID a <= MinTXID b) (itr_items it) /\ NoDup ((fun f => (MinTXID f, MaxTXID f)) <$> itr_items it) /\
  forall f, f ∈ itr_items it <->
    exists o, nt_objects c !! nats_ltxPath c level (MinTXID f) (MaxTXID f) = Some o /\ Level f = level /\ seek <= MinTXID f /\
      is_txid (MinTXID f) && is_txid (MaxTXID f) = true /\ FSize f = Z.of_nat (length (no_data o)) /\ CreatedAt f = created_at ParseTime o.
Proof.
  intros Hwf Hl Hlist HL. apply nats_list_spec in HL as ->; [|done]. cbn [itr_Err itr_items]. split_and!; [done|apply sort_orders| |].
  - rewrite sort_permutes. by apply nats_files_distinct.
  - intros f. rewrite sort_permutes. by apply nats_files_elem.
Qed.

(** *** Writing *)

Abbreviation stored_object rd t := (mkNatsObject (rd_data rd) now {[HeaderKeyTimestamp := [FormatTime t]]}).
(** An upload puts the whole stream with its time, or nothing; an error may come after the object was put. *)
Lemma nats_write_spec c level lo hi rd c' r : nats_WriteLTXFile peek now FormatTime c level lo hi rd = (c', r) ->
  nt_set c' = nt_set c /\ nt_env c' = nt_env c /\
  (nt_objects c' = nt_objects c /\ is_ok r = false \/
   is_txid lo && is_txid hi = true /\ rd_err rd = None /\
   exists t, nt_objects c' = <[nats_ltxPath c level lo hi := stored_object rd t]> (nt_objects c) /\
     forall info, r = Ok info -> info = mkFileInfo level lo hi (Z.of_nat (length (rd_data rd))) t).
Proof.
  intros HW. apply nats_operation_cases in HW as (c1 & Hs & Ho & He & [(-> & ? & _)|[HW _]]); [split_and!; [done..|by left]|].
  unfold nats_write in HW. destruct (is_txid lo && is_txid hi) eqn:ER; cbn [negb] in HW; [|injection HW as <- <-; split_and!; [done..|by left]].
  destruct (ExtractLTXTimestamp peek now rd) as [[t rd']|e|m] eqn:ET; [|injection HW as <- <-; split_and!; [done..|by left]..].
  apply ExtractLTXTimestamp_reader in ET as ->. assert (nats_ltxPath c1 level lo hi = nats_ltxPath c level lo hi) as Hk by (unfold nats_ltxPath; by rewrite Hs).
  rewrite Hk in HW. unfold store_Put in HW. destruct (nt_store c1); cbn [negb] in HW; [|injection HW as <- <-; split_and!; [done..|by left]].
  destruct (rd_err rd) as [e|] eqn:Ed; [injection HW as <- <-; split_and!; [done..|by left]|].
  destruct (ne_put (nt_env c1) (nt_calls c1)) as [b|[] e]; injection HW as <- <-; split_and!; try done; cbn [nt_objects nt_put]; rewrite <- ?Ho;
    [right; split_and!; [done..|]|right; split_and!; [done..|]|by left]; exists t; (split; [by rewrite <- ?Ho|]); by intros info [= <-].
Qed.

(** The time a write returns is the time of every later listing. *)
Theorem nats_time_kept c level lo hi rd c' info it :
  (forall t, ParseTime (FormatTime t) = Some t) -> (forall e, ne_list (nt_env c) = Some e -> no_objects e = false) ->
  nats_wf c -> is_int level = true -> nats_WriteLTXFile peek now FormatTime c level lo hi rd = (c', Ok info) ->
  (nats_LTXFiles ParseTime sort_Slice level lo c').2 = Ok it -> info ∈ itr_items it.
Proof.
  intros HT Hlist Hwf Hl HW HL. apply nats_write_spec in HW as (Hs & He & [[_ ?]|(HR & Hd & t & Ho & Hi)]); [done|]. rewrite (Hi info eq_refl).
  assert (nats_wf c') as Hwf'.
  { destruct Hwf as [HP Hk]. split; [by rewrite Hs|]. rewrite Hs, Ho. intros k. destruct (decide (k = nats_ltxPath c level lo hi)) as [->|Hne].
    - intros _. by apply LTXFilePath_wf.
    - rewrite lookup_insert_ne by done. apply Hk. }
  rewrite <- He in Hlist. apply nats_list_spec in HL as ->; [|done]. cbn [itr_items]. rewrite sort_permutes, nats_files_elem by done. cbn.
  exists (stored_object rd t). rewrite Ho, Hs. split_and!; [by rewrite lookup_insert_eq|done|lia|done|done|].
  unfold created_at. cbn [no_Headers no_ModTime]. by rewrite lookup_singleton_eq, HT.
Qed.

(** *** Deleting and reading *)

(** Errors of the server that speak of something not found mean the object. *)
Abbreviation honest c := (forall n e, ne_delete (nt_env c) n = Some e -> nats_isNotFoundError e = false).
Record removed (keys : list str) (c c' : Nats) (ok : bool) : Prop := {
  rm_set : nt_set c' = nt_set c /\ nt_env c' = nt_env c;
  rm_sub k o : nt_objects c' !! k = Some o -> nt_objects c !! k = Some o;
  rm_others k : k ∉ keys -> nt_objects c' !! k = nt_objects c !! k;
  rm_gone k : ok = true -> honest c -> k ∈ keys -> nt_objects c' !! k = None
}.
Definition deleted_or_missing (r : result ()) : bool := match r with Ok _ => true | Err e => nats_isNotFoundError e | Panic _ => false end.

Lemma store_Delete_spec key c c' r : store_Delete c key = (c', r) -> removed [key] c c' (deleted_or_missing r).
Proof.
  unfold store_Delete. destruct (nt_store c); cbn [negb]; [|intros [= <- <-]; by split].
  destruct (ne_delete (nt_env c) (nt_calls c)) as [e|] eqn:EE.
  { intros [= <- <-]. split; try done. cbn. intros k Hf Hh. by rewrite (Hh _ _ EE) in Hf. }
  destruct (nt_objects c !! key) as [o|] eqn:EO; intros [= <- <-]; (split; [done|..]); cbn [nt_objects nt_put]; try done.
  - by intros k o' [_ ?]%lookup_delete_Some.
  - intros k Hk. apply lookup_delete_ne. set_solver.
  - intros k _ _ ->%list_elem_of_singleton. apply lookup_delete_eq.
  - by intros k _ _ ->%list_elem_of_singleton.
Qed.
Lemma removed_trans keys1 keys2 c c1 c2 ok : removed keys1 c c1 true -> removed keys2 c1 c2 ok -> removed (keys1 ++ keys2) c c2 ok.
Proof.
  intros [[S1 E1] B1 O1 G1] [[S2 E2] B2 O2 G2]. split; [split; congruence|by eauto| |].
  - intros k [? ?]%not_elem_of_app. rewrite O2 by done. by apply O1.
  - intros k Hok Hh [Hk|Hk]%elem_of_app; [|apply G2; [done|by rewrite E1|done]].
    destruct (nt_objects c2 !! k) as [o|] eqn:E; [|done]. apply B2 in E. by rewrite (G1 k eq_refl Hh Hk) in E.
Qed.
Lemma removed_weaken keys keys' c c' : removed keys c c' false -> removed (keys ++ keys') c c' false.
Proof. intros [S1 B1 O1 _]. split; try done. intros k [? _]%not_elem_of_app. by apply O1. Qed.
Lemma removed_false keys c c' ok : removed keys c c' ok -> removed keys c c' false.
Proof. intros [S1 B1 O1 _]. by split. Qed.

Lemma delete_each_spec keys c c' r : delete_each keys c = (c', r) -> removed keys c c' (is_ok r).
Proof.
  revert c. induction keys as [|key keys IH]; intros c; cbn [delete_each]; [intros [= <- <-]; split; try done; by intros k _ _ ?%not_elem_of_nil|].
  destruct (store_Delete c key) as [c1 r1] eqn:ED. apply store_Delete_spec in ED. destruct r1 as [[]|e|m]; cbn [deleted_or_missing] in ED.
  - intros HX%IH. by apply (removed_trans [key] keys c c1).
  - destruct (nats_isNotFoundError e); cbn [negb]; [intros HX%IH; by apply (removed_trans [key] keys c c1)|].
    intros [= <- <-]. by apply (removed_weaken [key] keys).
  - intros [= <- <-]. by apply (removed_weaken [key] keys).
Qed.

(** Deleting removes the objects of the given files and nothing else. *)
Theorem nats_delete_exact c a c' r : nats_DeleteLTXFiles c a = (c', r) ->
  removed ((fun info => nats_ltxPath c (Level info) (MinTXID info) (MaxTXID info)) <$> a) c c' (is_ok r).
Proof.
  unfold nats_DeleteLTXFiles. destruct (negb _); [intros [= <- <-]; by split|].
  intros HD. apply nats_operation_cases in HD as (c1 & Hs & Ho & He & [(-> & -> & _)|[HD _]]); [by split; try rewrite Ho|].
  apply delete_each_spec in HD as [[S1 E1] B1 O1 G1]. unfold nats_ltxPath in *. rewrite Hs in *. split; [split; congruence|by rewrite <- Ho..|].
  intros k Hok Hh Hk. apply G1; [done|by rewrite He|done].
Qed.
(** [DeleteAll] empties the bucket, whatever the base path of the client. *)
Theorem nats_delete_all_empties c c' :
  honest c -> (forall e, ne_list (nt_env c) = Some e -> no_objects e = false) -> nats_DeleteAll c = (c', Ok ()) -> nt_objects c' = ∅.
Proof.
  intros Hh Hlist HD. apply nats_operation_cases in HD as (c1 & Hs & Ho & He & [(_ & ? & _)|[HD _]]); [done|].
  unfold list_all, store_List in HD. rewrite He in HD. destruct (nt_store c1); cbn [negb] in HD; [|done].
  destruct (ne_list (nt_env c)) as [e|]; [by rewrite Hlist in HD|]. case_bool_decide as Hemp.
  { replace (no_objects ErrNoObjectsFound) with true in HD by by vm_compute. by injection HD as <-. }
  apply delete_each_spec in HD as [_ B1 _ G1]. apply map_empty. intros k. destruct (nt_objects c' !! k) as [o|] eqn:E; [|done].
  rewrite G1 in E; [done|done|by rewrite He|]. apply B1 in E. apply list_elem_of_fmap. exists (k, o). split; [done|]. by apply elem_of_map_to_list.
Qed.

(** What is read is a prefix of the object from the offset on, and all of it when the stream ends without an error. *)
Lemma nats_open_data c level lo hi off rd : 0 <= off -> (nats_OpenLTXFile level lo hi off 0 c).2 = Ok rd ->
  exists o, nt_objects c !! nats_ltxPath c level lo hi = Some o /\ rd_data rd `prefix_of` drop (Z.to_nat off) (no_data o) /\
    (rd_err rd = None -> rd_data rd = drop (Z.to_nat off) (no_data o)).
Proof.
  intros Hoff. destruct (nats_OpenLTXFile level lo hi off 0 c) as [c' r] eqn:E. cbn. intros ->.
  apply nats_operation_cases in E as (c1 & Hs & Ho & He & [(_ & ? & _)|[E _]]); [done|]. injection E as _ E. unfold nats_open in E. destruct (negb _); [done|].
  unfold nats_ltxPath in *. rewrite Hs in E. unfold store_Get in E. rewrite He, Ho in E. destruct (negb _); [done|].
  destruct (ne_get _ _) as [e|]; [by destruct (nats_isNotFoundError e)|]. destruct (nt_objects c !! _) as [o|]; [|by cbn in E]. exists o. split; [done|].
  unfold discard, limit in E. destruct (Z.ltb_spec 0 off); [|assert (off = 0) as -> by lia];
    destruct (ne_cut _ _) as [[n e]|]; cbn [rd_data rd_err] in E; try (destruct (_ <? off); [done|]); cbn in E; injection E as <-; cbn [rd_data rd_err drop Z.to_nat]; (split; [|done]); try done.
  - destruct (decide (Z.to_nat off <= n)%nat).
    + replace n with (Z.to_nat off + (n - Z.to_nat off))%nat by lia. rewrite <- take_drop_commute. apply prefix_take.
    + rewrite drop_ge; [apply prefix_nil|]. rewrite length_take. lia.
  - apply prefix_take.
Qed.
End NatsFiles.

(** *** Panics *)

(** A client that is ready never calls a bucket it does not have: listing, reading, writing and
    deleting return errors. *)
Theorem nats_ready_no_panic `{LtxNames} ParseTime sort_Slice peek now FormatTime c level seek lo hi off size rd a :
  ready c = true -> (forall r, is_panic (peek r) = false) ->
  is_panic (nats_LTXFiles ParseTime sort_Slice level seek c).2 = false /\ is_panic (nats_OpenLTXFile level lo hi off size c).2 = false /\
  is_panic (nats_WriteLTXFile peek now FormatTime c level lo hi rd).2 = false /\ is_panic (nats_DeleteLTXFiles c a).2 = false.
Proof.
  intros Hr Hpeek.
  assert (forall A (body : Nats -> Nats * result A), (forall c1, nt_store c1 = true -> is_panic (body c1).2 = false) -> is_panic (nats_operation body c).2 = false) as Hop.
  { intros A body Hb. destruct (nats_operation body c) as [c' r] eqn:E. apply nats_operation_cases in E as (c1 & _ & _ & _ & [(_ & _ & ?)|[E Hst]]); [done|].
    specialize (Hb c1 (Hst Hr)). by rewrite E in Hb. }
  split_and!.
  - apply Hop. intros c1 Hst. cbn. unfold nats_list, list_all, store_List. rewrite Hst. cbn [negb].
    destruct (ne_list _) as [e|]; [by destruct (no_objects e)|]. case_bool_decide; [by destruct (no_objects _)|done].
  - apply Hop. intros c1 Hst. cbn. unfold nats_open, store_Get. destruct (negb _); [done|]. rewrite Hst. cbn [negb].
    destruct (ne_get _ _) as [e|]; [by destruct (nats_isNotFoundError e)|]. destruct (nt_objects c1 !! _); [|by destruct (nats_isNotFoundError _)].
    unfold discard. destruct (0 <? off); [|done]. by destruct (_ <? off).
  - apply Hop. intros c1 Hst. unfold nats_write. destruct (negb _); [done|]. pose proof (Hpeek rd) as Hp.
    assert (is_panic (ExtractLTXTimestamp peek now rd) = false) as HE.
    { unfold ExtractLTXTimestamp. repeat case_match; done. }
    destruct (ExtractLTXTimestamp peek now rd) as [[t rd']|e|m]; [|done..]. unfold store_Put. rewrite Hst. cbn [negb].
    destruct (rd_err rd'); [done|]. by destruct (ne_put _ _).
  - unfold nats_DeleteLTXFiles. destruct (negb _); [done|]. apply Hop. intros c1 Hst. generalize ((fun info => nats_ltxPath c1 (Level info) (MinTXID info) (MaxTXID info)) <$> a).
    intros keys. revert c1 Hst. induction keys as [|key keys IH]; intros c1 Hst; [done|]. cbn [delete_each].
    unfold store_Delete. rewrite Hst. cbn [negb].
    destruct (ne_delete _ _) as [e|]; [destruct (nats_isNotFoundError e); [by apply IH|done]|]. destruct (nt_objects c1 !! key); [by apply IH|].
    destruct (nats_isNotFoundError _); [by apply IH|done].
Qed.

(** Which credentials are offered: a client configured with an nkey and nothing better offers it without the callback
    that signs, since no configuration sets one. *)
Lemma nkey_without_callback cfg :
  nonempty (na_JWT cfg) && nonempty (na_Seed cfg) = false -> na_Creds cfg = [] -> nonempty (na_NKey cfg) = true ->
  ONkey (na_NKey cfg) false ∈ connect_options (nats_settings cfg).
Proof.
  intros HJ HC HN. unfold connect_options, auth_option. cbn [nats_settings ns_cfg ns_SigCB]. rewrite HJ, HC, HN. cbn [nonempty].
  rewrite !elem_of_app. right. left. cbn. set_solver.
Qed.
(** The NATS package refuses an nkey without a callback, so such a client never connects. *)
Theorem nkey_config_refused c cfg :
  (forall n url opts key, ONkey key false ∈ opts -> ne_connect (nt_env c) n url opts <> None) ->
  nt_set c = nats_settings cfg -> nt_nc c = false ->
  nonempty (na_JWT cfg) && nonempty (na_Seed cfg) = false -> na_Creds cfg = [] -> nonempty (na_NKey cfg) = true ->
  exists c' e, nats_Init c = (c', Err e) /\ nt_nc c' = false.
Proof.
  intros HE HS HN HJ HC HK. unfold nats_Init, nats_connect. rewrite HN, HS.
  pose proof (nkey_without_callback cfg HJ HC HK) as Hin. destruct (ne_connect _ _ _ _) as [e|] eqn:E; [by eexists _, _|]. by destruct (HE _ _ _ _ Hin E).
Qed.

(** ** Examples *)
Module NatsDemo.
#[export] Existing Instance HexNames.names.
#[export] Existing Instance HexNames.names_laws.
Definition cfg : NATSConfig := nats_config (lit "nats://host") (lit "bkt") [] [].
(** The bucket is missing on the attempts of [missing]. *)
Definition env (missing : list nat) : NatsEnv :=
  mkNatsEnv (fun _ _ _ => None) (fun _ => None) (fun n => if bool_decide (n ∈ missing) then Some (EMsg "stream not found") else None)
    None (fun _ => None) (fun _ => None) (fun _ => PutOk true) (fun _ => None).
Definition c0 (missing : list nat) : Nats := mkNats (nats_settings cfg) false false 0 ∅ 0 (env missing).
Definition min_le (f g : FileInfo) : Prop := MinTXID f <= MinTXID g.
#[export] Instance min_le_dec f g : Decision (min_le f g).
Proof. unfold min_le. apply _. Defined.
(** Two ways to order files by their first transactions; both are what [sort.Slice] promises. *)
Definition sort1 (l : list FileInfo) : list FileInfo := merge_sort min_le l.
Definition sort2 (l : list FileInfo) : list FileInfo := merge_sort min_le (rev l).
#[export] Instance min_le_total : Total min_le.
Proof. intros f g. unfold min_le. lia. Qed.
#[export] Instance min_le_trans : Transitive min_le.
Proof. intros f g h. unfold min_le. lia. Qed.
Lemma sort1_permutes l : sort1 l ≡ₚ l.
Proof. apply merge_sort_Permutation. Qed.
Lemma sort1_orders l : StronglySorted (fun a b => MinTXID a <= MinTXID b) (sort1 l).
Proof. apply (StronglySorted_merge_sort min_le). Qed.
Lemma sort2_permutes l : sort2 l ≡ₚ l.
Proof. unfold sort2. rewrite merge_sort_Permutation. symmetry. apply Permutation_rev. Qed.
Lemma sort2_orders l : StronglySorted (fun a b => MinTXID a <= MinTXID b) (sort2 l).
Proof. apply (StronglySorted_merge_sort min_le). Qed.

Definition fmt_time (t : time) : str := S3Demo.fmt_time t.
Definition parse_time (s : str) : option time := S3Demo.parse_time s.
Definition put (level lo hi : Z) (b : list byte) (c : Nats) : Nats := (nats_WriteLTXFile DirDemo.demo_peek 99 fmt_time c level lo hi (mkReader b None)).1.
Definition list_files (sort : list FileInfo -> list FileInfo) (level seek : Z) (c : Nats) := (nats_LTXFiles parse_time sort level seek c).2.

Definition bucket : Nats := put 0 2 2 [x02] (put 0 1 1 [x01] (c0 [])).
Lemma nats_listed : list_files sort1 0 2 bucket = Ok (mkIter [mkFileInfo 0 2 2 1 62135596800002000000] None None).
Proof. vm_compute. reflexivity. Qed.

(** The bucket is missing when the client connects and there when it is used again: the first call returns an error, the
    second calls a bucket that was never set. *)
Theorem failed_init_then_panic :
  exists c e m, nats_LTXFiles parse_time sort1 0 0 (c0 [0%nat]) = (c, Err e) /\ (nats_LTXFiles parse_time sort1 0 0 c).2 = Panic m.
Proof. eexists _, _, _. split; [vm_compute; reflexivity|]. vm_compute. reflexivity. Qed.

(** A base path that ends in a slash: the files that are written are not listed. *)
Definition slashed : Nats := mkNats (mkNatsSettings cfg (lit "db/") 0 0 2 0 false false) false false 0 ∅ 0 (env []).
Theorem trailing_slash_hides : list_files sort1 0 0 (put 0 1 1 [x01] slashed) = Ok (mkIter [] None None).
Proof. vm_compute. reflexivity. Qed.

(** Retention of snapshots keeps the last one listed.  All snapshots start at transaction 1, and their order in a listing is
    that of [sort.Slice]: with one order the newest is deleted, with the other it is kept. *)
Definition ops (sort : list FileInfo -> list FileInfo) : ReplicaClient Nats := {|
  LTXFiles c level seek um := (nats_LTXFiles parse_time sort level seek c).2;
  OpenLTXFile c level lo hi off size := (nats_OpenLTXFile level lo hi off size c).2;
  WriteLTXFile := nats_WriteLTXFile DirDemo.demo_peek 99 fmt_time;
  DeleteLTXFiles c a := let '(c, r) := nats_DeleteLTXFiles c a in (c, match r with Ok _ => None | Err e => Some e | Panic m => Some (EMsg m) end)
|}.
Definition snapshots : Nats := put SnapshotLevel 1 9 [x02] (put SnapshotLevel 1 5 [x01] (c0 [])).
Definition keeper : @Compactor () () () := mkCompactor false true None None false false [] [] false.
Definition retained (sort : list FileInfo -> list FileInfo) : list Z :=
  let st := (@EnforceSnapshotRetention Nats (ops sort) () () () keeper (mkState snapshots ∅ () 0) (10 ^ 20) 1).1 in
  match list_files sort1 SnapshotLevel 0 (st_client st) with Ok it => MaxTXID <$> itr_items it | _ => [] end.
Theorem newest_snapshot_deleted :
  (forall l, sort1 l ≡ₚ l /\ StronglySorted (fun a b => MinTXID a <= MinTXID b) (sort1 l)) /\ retained sort1 = [5] /\
  (forall l, sort2 l ≡ₚ l /\ StronglySorted (fun a b => MinTXID a <= MinTXID b) (sort2 l)) /\ retained sort2 = [9].
Proof.
  split_and!; [intros l; split; [apply sort1_permutes|apply sort1_orders]|vm_compute; reflexivity|intros l; split; [apply sort2_permutes|apply sort2_orders]|vm_compute; reflexivity].
Qed.
End NatsDemo.
