(* ===== verification/VfsTemp.v ===== *)
(** * Files of the virtual file system

    Model of the part of src/vfs.go that is not about the database file: which files SQLite
    can open, the temporary directory, temporary files and journals on local disk, and the
    settings and paths that a connection gets. *)

From Stdlib Require Import ZArith Lia Ascii String Strings.Byte.
From stdpp Require Import base numbers list strings gmap.
From S2P Require Import Prelude Ltx V3 Urls S3Config ReplicaConfig Config Directory S3Client NatsClient.
From S2P Require Import RestorePlan FileClient Vfs Hydration.
Local Open Scope Z_scope.

(** ** Flags *)

(** SQLite's flags of [xOpen]. *)
Definition OpenReadOnly : Z := 1.
Definition OpenReadWrite : Z := 2.
Definition OpenCreate : Z := 4.
Definition OpenDeleteOnClose : Z := 8.
Definition OpenExclusive : Z := 16.
Definition OpenMainDB : Z := 256.
Definition OpenTempDB : Z := 512.
Definition OpenTransientDB : Z := 1024.
Definition OpenMainJournal : Z := 2048.
Definition OpenTempJournal : Z := 4096.
Definition OpenSubJournal : Z := 8192.
Definition OpenSuperJournal : Z := 16384.
Definition has (flags mask : Z) : bool := negb (Z.land flags mask =? 0).

Definition O_RDWR : Z := 2.
Definition O_CREATE : Z := 64.
Definition O_EXCL : Z := 128.
Definition openFlagToOSFlag (flag : Z) : Z :=
  let v := if has flag OpenReadWrite then O_RDWR else 0 in
  let v := if has flag OpenCreate then Z.lor v O_CREATE else v in
  if has flag OpenExclusive then Z.lor v O_EXCL else v.

Definition tempMask : Z :=
  Z.lor OpenTempDB (Z.lor OpenTempJournal (Z.lor OpenSubJournal (Z.lor OpenSuperJournal (Z.lor OpenTransientDB OpenMainJournal)))).
Definition requiresTempFile (flags : Z) : bool := has flags tempMask || has flags OpenDeleteOnClose.

(** ** Names *)

Definition canonicalTempName (name : str) : str :=
  if bool_decide (name = []) then [] else
  let name := path_Clean name in
  if bool_decide (name = dot) || bool_decide (name = [slash]) then [] else name.

(** [hash/fnv]: 64-bit FNV-1a. *)
Definition fnv_offset : Z := 14695981039346656037.
Definition fnv_prime : Z := 1099511628211.
Definition fnv1a (s : str) : Z := fold_left (fun h c => u64 (Z.lxor h (Z.of_nat (nat_of_ascii c)) * fnv_prime)) s fnv_offset.

Definition tempFilenameFromCanonical (canonical : str) : result str :=
  let base := path_Base canonical in
  if bool_decide (base = dot) || bool_decide (base = [slash]) then Err (EMsg "invalid temp file name")
  else Ok (base ++ "-"%char :: hexN 16 (fnv1a canonical)).

(** ** State *)

(** The settings of the file system. *)
Record VFSConfig := mkVFSConfig {
  vc_PollInterval : Z; vc_CacheSize : Z; vc_WriteEnabled : bool; vc_WriteSyncInterval : Z; vc_WriteBufferPath : str; vc_CompactionEnabled : bool;
  vc_HydrationEnabled : bool; vc_HydrationPath : str
}.
(** The local disk: names, the contents of files, which outlive their names while they are open, and the number of calls. *)
Record VDisk := mkVDisk { vd_names : gmap str nat; vd_files : gmap nat (list byte); vd_next : nat; vd_calls : nat }.
Record VFS := mkVFS {
  v_cfg : VFSConfig; v_lastSyncedTXID : TXID; v_writeSeq : Z;
  v_tempDir : option (result str);    (** set by the first [ensureTempDir] *)
  v_tempFiles : gmap str str; v_tempNames : gset str; v_disk : VDisk
}.
(** What the system does: the temporary directory, and errors of the [n]-th call. *)
Record VFSEnv := mkVFSEnv { ve_MkdirTemp : result str; ve_fault : nat -> option error }.

Definition set_disk (d : VDisk) (v : VFS) : VFS := mkVFS (v_cfg v) (v_lastSyncedTXID v) (v_writeSeq v) (v_tempDir v) (v_tempFiles v) (v_tempNames v) d.
Definition set_temps (fs : gmap str str) (ns : gset str) (v : VFS) : VFS :=
  mkVFS (v_cfg v) (v_lastSyncedTXID v) (v_writeSeq v) (v_tempDir v) fs ns (v_disk v).
Definition set_tempDir (d : result str) (v : VFS) : VFS :=
  mkVFS (v_cfg v) (v_lastSyncedTXID v) (v_writeSeq v) (Some d) (v_tempFiles v) (v_tempNames v) (v_disk v).
Definition set_write (seq : Z) (last : TXID) (v : VFS) : VFS := mkVFS (v_cfg v) last seq (v_tempDir v) (v_tempFiles v) (v_tempNames v) (v_disk v).

(** A temporary file that is open. *)
Record localTempFile := mkTemp { tf_file : nat; tf_path : str; tf_writable : bool; tf_deleteOnClose : bool; tf_lockType : Z; tf_tracked : option str }.

Section VfsFiles.
Variable e : VFSEnv.

Definition ensureTempDir (v : VFS) : VFS * result str :=
  match v_tempDir v with
  | Some r => (v, r)
  | None => let r := ve_MkdirTemp e wrapping "create temp dir" in (set_tempDir r v, r)
  end.

(** *** The disk *)

Definition calls (d : VDisk) : VDisk := mkVDisk (vd_names d) (vd_files d) (vd_next d) (S (vd_calls d)).
(** [os.OpenFile]: an existing file is opened as it is. *)
Definition os_OpenFile (path : str) (flag : Z) (d : VDisk) : VDisk * result nat :=
  let fault := ve_fault e (vd_calls d) in
  let d := calls d in
  match fault with
  | Some err => (d, Err err)
  | None =>
      match vd_names d !! path with
      | Some i => if has flag O_CREATE && has flag O_EXCL then (d, Err (EPath "open" (EVar "file exists"))) else (d, Ok i)
      | None =>
          if has flag O_CREATE
          then (mkVDisk (<[path := vd_next d]> (vd_names d)) (<[vd_next d := []]> (vd_files d)) (S (vd_next d)) (vd_calls d), Ok (vd_next d))
          else (d, Err (EPath "open" ErrNotExist))
      end
  end.
Definition os_Remove (path : str) (d : VDisk) : VDisk * result () :=
  let fault := ve_fault e (vd_calls d) in
  let d := calls d in
  match fault with
  | Some err => (d, Err err)
  | None =>
      match vd_names d !! path with
      | Some _ => (mkVDisk (base.delete path (vd_names d)) (vd_files d) (vd_next d) (vd_calls d), Ok ())
      | None => (d, Err (EPath "remove" ErrNotExist))
      end
  end.
Definition os_Stat (path : str) (d : VDisk) : result () :=
  match ve_fault e (vd_calls d) with
  | Some err => Err err
  | None => match vd_names d !! path with Some _ => Ok () | None => Err (EPath "stat" ErrNotExist) end
  end.

(** *** Tracking *)

Definition loadTempFilePath (v : VFS) (name : str) : option str :=
  let canonical := canonicalTempName name in
  if bool_decide (canonical = []) then None else v_tempFiles v !! canonical.
Definition isTempFileName (v : VFS) (name : str) : bool := bool_decide (is_Some (loadTempFilePath v name)).
Definition wasTempFileName (v : VFS) (name : str) : bool :=
  let canonical := canonicalTempName name in negb (bool_decide (canonical = [])) && bool_decide (canonical ∈ v_tempNames v).
Definition untrack (canonical : str) (v : VFS) : VFS := set_temps (base.delete canonical (v_tempFiles v)) (v_tempNames v) v.
Definition unregisterTempFile (name : str) (v : VFS) : VFS :=
  let canonical := canonicalTempName name in if bool_decide (canonical = []) then v else untrack canonical v.
(** [trackTempFile], and the name that its callback gives up. *)
Definition trackTempFile (canonical path : str) (v : VFS) : VFS * option str :=
  if bool_decide (canonical = []) then (v, None)
  else (set_temps (<[canonical := path]> (v_tempFiles v)) ({[canonical]} ∪ v_tempNames v) v, Some canonical).

Definition CantOpenError : error := EVar "unable to open database file".
Definition errTempFileNotFound : error := EMsg "temp file not tracked".

(** *** Opening, deleting, looking *)

(** [os.CreateTemp] picks a name that no file has. *)
Definition fresh_name (d : VDisk) : str := lit "temp-" ++ Itoa (Z.of_nat (vd_next d)).
Definition openTempFile (name : str) (flags : Z) (v : VFS) : VFS * result localTempFile :=
  match ensureTempDir v with
  | (v, Err err) => (v, Err err)
  | (v, Panic m) => (v, Panic m)
  | (v, Ok dir) =>
      let deleteOnClose := has flags OpenDeleteOnClose || bool_decide (name = []) in
      if bool_decide (name = []) then
        let path := path_Join [dir; fresh_name (v_disk v)] in
        match os_OpenFile path (Z.lor O_RDWR (Z.lor O_CREATE O_EXCL)) (v_disk v) with
        | (d, Ok i) => (set_disk d v, Ok (mkTemp i path true deleteOnClose 0 None))
        | (d, _) => (set_disk d v, Err CantOpenError)
        end
      else
        let canonical := canonicalTempName name in
        if bool_decide (canonical = []) then (v, Err CantOpenError) else
        match tempFilenameFromCanonical canonical with
        | Ok fname =>
            let path := path_Join [dir; fname] in
            let flag := openFlagToOSFlag flags in
            let flag := if flag =? 0 then O_RDWR else flag in
            match os_OpenFile path (Z.lor flag O_CREATE) (v_disk v) with
            | (d, Ok i) => let '(v, onClose) := trackTempFile canonical path (set_disk d v) in (v, Ok (mkTemp i path (has flag O_RDWR) deleteOnClose 0 onClose))
            | (d, _) => (set_disk d v, Err CantOpenError)
            end
        | _ => (v, Err CantOpenError)
        end
  end.

Definition deleteTempFile (name : str) (v : VFS) : VFS * result () :=
  match loadTempFilePath v name with
  | None => if wasTempFileName v name then (unregisterTempFile name v, Err ErrNotExist) else (v, Err errTempFileNotFound)
  | Some path =>
      match os_Remove path (v_disk v) with
      | (d, Err err) => if negb (os_IsNotExist err) then (set_disk d v, Err err) else (unregisterTempFile name (set_disk d v), Ok ())
      | (d, Panic m) => (set_disk d v, Panic m)
      | (d, Ok _) => (unregisterTempFile name (set_disk d v), Ok ())
      end
  end.
Definition VFS_Delete (name : str) (v : VFS) : VFS * result () :=
  match deleteTempFile name v with
  | (v, Err err) =>
      (v, if errors_Is err ErrNotExist then Ok () else if errors_Is err errTempFileNotFound then Err (EMsg "cannot delete vfs file") else Err err)
  | r => r
  end.

Definition accessTempFile (name : str) (v : VFS) : result bool :=
  match loadTempFilePath v name with
  | None => Ok false
  | Some path => match os_Stat path (v_disk v) with
                 | Ok _ => Ok true
                 | Err err => if os_IsNotExist err then Ok false else Err err
                 | Panic m => Panic m
                 end
  end.
Definition VFS_Access (name : str) (v : VFS) : result bool :=
  if HasSuffix name (lit "-wal") then Ok false
  else if isTempFileName v name then accessTempFile name v else Ok false.

(** *** An open temporary file *)

Definition tf_data (t : localTempFile) (v : VFS) : list byte := default [] (vd_files (v_disk v) !! tf_file t).
Definition tf_ReadAt (t : localTempFile) (n off : nat) (v : VFS) : list byte * option error :=
  let b := take n (drop off (tf_data t v)) in (b, if (length b <? n)%nat then Some io_EOF else None).
Definition put_file (i : nat) (b : list byte) (v : VFS) : VFS :=
  set_disk (mkVDisk (vd_names (v_disk v)) (<[i := b]> (vd_files (v_disk v))) (vd_next (v_disk v)) (vd_calls (v_disk v))) v.
Definition tf_WriteAt (t : localTempFile) (b : list byte) (off : nat) (v : VFS) : VFS * result Z :=
  if tf_writable t then (put_file (tf_file t) (write_at (tf_data t v) off b) v, Ok (Z.of_nat (length b)))
  else (v, Err (EPath "write" (EVar "bad file descriptor"))).
Definition tf_Truncate (t : localTempFile) (size : nat) (v : VFS) : VFS * result () :=
  if tf_writable t then (put_file (tf_file t) (take size (tf_data t v) ++ repeat x00 (size - length (tf_data t v))) v, Ok ())
  else (v, Err (EPath "truncate" (EVar "invalid argument"))).
Definition tf_FileSize (t : localTempFile) (v : VFS) : Z := Z.of_nat (length (tf_data t v)).
Definition set_tf_lock (l : Z) (t : localTempFile) : localTempFile := mkTemp (tf_file t) (tf_path t) (tf_writable t) (tf_deleteOnClose t) l (tf_tracked t).
Definition tf_Lock (elock : Z) (t : localTempFile) : localTempFile := if elock =? LockNone then t else set_tf_lock elock t.
Definition tf_Unlock (elock : Z) (t : localTempFile) : localTempFile := set_tf_lock elock t.
Definition tf_CheckReservedLock (t : localTempFile) : bool := LockReserved <=? tf_lockType t.
Definition tf_Close (t : localTempFile) (v : VFS) : VFS * result () :=
  let '(v, r) := if tf_deleteOnClose t then
                   match os_Remove (tf_path t) (v_disk v) with
                   | (d, Err err) => (set_disk d v, if negb (os_IsNotExist err) then Err err else Ok ())
                   | (d, r) => (set_disk d v, r)
                   end
                 else (v, Ok ()) in
  (match tf_tracked t with Some canonical => untrack canonical v | None => v end, r).

(** *** Connections *)

(** What a connection to the database is opened with. *)
Record mainFile := mkMain {
  mf_name : str; mf_PollInterval : Z; mf_CacheSize : Z; mf_writeEnabled : bool; mf_syncInterval : Z; mf_bufferPath : str; mf_compactor : bool;
  mf_hydrationPath : str; mf_hydrationPersistent : bool
}.
Definition FormatUint (n : Z) : str := dec_loop 20 n [].
Definition bufferPath (v : VFS) : VFS * result str :=
  let seq := u64 (v_writeSeq v + 1) in
  let v := set_write seq (v_lastSyncedTXID v) v in
  let p := vc_WriteBufferPath (v_cfg v) in
  if nonempty p then (v, Ok (if seq =? 1 then p else p ++ lit "." ++ FormatUint seq))
  else match ensureTempDir v with
       | (v, r) => (v, dir ← r wrapping "create temp dir for write buffer"; Ok (path_Join [dir; lit "write-buffer-" ++ FormatUint seq]))
       end.
Definition hydration_path (v : VFS) : VFS * result (str * bool) :=
  let p := vc_HydrationPath (v_cfg v) in
  if nonempty p then (v, Ok (p, true))
  else match ensureTempDir v with
       | (v, r) => (v, dir ← r wrapping "create temp dir for hydration"; Ok (path_Join [dir; lit "hydration.db"], false))
       end.
(** The settings of the connection, before the file is opened with them. *)
Definition main_settings (name : str) (v : VFS) : VFS * result mainFile :=
  let cfg := v_cfg v in
  let '(v, rb) := if vc_WriteEnabled cfg then bufferPath v else (v, Ok []) in
  match rb with
  | Err err => (v, Err err)
  | Panic m => (v, Panic m)
  | Ok buffer =>
      let '(v, rh) := if vc_HydrationEnabled cfg then hydration_path v else (v, Ok ([], false)) in
      (v, '(hp, persistent) ← rh;
          Ok (mkMain name (vc_PollInterval cfg) (vc_CacheSize cfg) (vc_WriteEnabled cfg)
                (if vc_WriteEnabled cfg then if vc_WriteSyncInterval cfg =? 0 then Second else vc_WriteSyncInterval cfg else 0) buffer
                (vc_WriteEnabled cfg && vc_CompactionEnabled cfg) hp persistent))
  end.
(** [openMainDB]: [open] opens the file and gives the transaction it is at. *)
Definition openMainDB (open : mainFile -> result TXID) (name : str) (flags : Z) (v : VFS) : VFS * result (mainFile * Z) :=
  match main_settings name v with
  | (v, Err err) => (v, Err err)
  | (v, Panic m) => (v, Panic m)
  | (v, Ok f) =>
      match open f with
      | Err err => (v, Err err)
      | Panic m => (v, Panic m)
      | Ok expectedTXID =>
          let v := if vc_WriteEnabled (v_cfg v) && (v_lastSyncedTXID v <? expectedTXID) then set_write (v_writeSeq v) expectedTXID v else v in
          (v, Ok (f, if has flags OpenReadOnly then flags else Z.lor flags OpenReadWrite))
      end
  end.

Inductive opened := OMain (f : mainFile) (flags : Z) | OTemp (t : localTempFile).
Definition VFS_Open (open : mainFile -> result TXID) (name : str) (flags : Z) (v : VFS) : VFS * result opened :=
  if has flags OpenMainDB then
    let '(v, r) := openMainDB open name flags v in (v, '(f, flags) ← r; Ok (OMain f flags))
  else if requiresTempFile flags then
    let '(v, r) := openTempFile name flags v in (v, t ← r; Ok (OTemp t))
  else (v, Err CantOpenError).
End VfsFiles.

(** ** Sequences of calls *)

(** The calls of SQLite on temporary files; handles are numbered. *)
Inductive call :=
| CallOpen (h : nat) (name : str) (flags : Z) | CallClose (h : nat) | CallWrite (h : nat) (b : list byte) (off : nat) | CallTruncate (h : nat) (size : nat)
| CallDelete (name : str) | CallLock (h : nat) (l : Z) | CallUnlock (h : nat) (l : Z).
Record sys := mkSys { sy_vfs : VFS; sy_open : gmap nat localTempFile }.

Section Calls.
Variable e : VFSEnv.
(** One call; a call on a handle that is not open does nothing. *)
Definition do_call (c : call) (s : sys) : sys :=
  let on h (f : localTempFile -> sys) := match sy_open s !! h with Some t => f t | None => s end in
  match c with
  | CallOpen h name flags =>
      match sy_open s !! h with
      | Some _ => s
      | None => match openTempFile e name flags (sy_vfs s) with
                | (v, Ok t) => mkSys v (<[h := t]> (sy_open s))
                | (v, _) => mkSys v (sy_open s)
                end
      end
  | CallClose h => on h (fun t => mkSys (tf_Close e t (sy_vfs s)).1 (base.delete h (sy_open s)))
  | CallWrite h b off => on h (fun t => mkSys (tf_WriteAt t b off (sy_vfs s)).1 (sy_open s))
  | CallTruncate h size => on h (fun t => mkSys (tf_Truncate t size (sy_vfs s)).1 (sy_open s))
  | CallDelete name => mkSys (VFS_Delete e name (sy_vfs s)).1 (sy_open s)
  | CallLock h l => on h (fun t => mkSys (sy_vfs s) (<[h := tf_Lock l t]> (sy_open s)))
  | CallUnlock h l => on h (fun t => mkSys (sy_vfs s) (<[h := tf_Unlock l t]> (sy_open s)))
  end.
Definition do_calls (cs : list call) (s : sys) : sys := fold_left (fun s c => do_call c s) cs s.

(** *** Names stay in the directory *)

(** A file directly in a directory. *)
Definition inside (dir p : str) : Prop := exists fname, p = path_Join [dir; fname] /\ no_sep slash fname /\ fname <> [] /\ fname <> dot /\ fname <> dotdot.

Lemma fname_safe base h : no_sep slash base -> safe_elem (base ++ "-"%char :: hexN 16 h).
Proof.
  intros Hb. pose proof (length_hexN 16 h) as Hl. split_and!; try (intros E; apply (f_equal length) in E; rewrite length_app in E; cbn [length] in E; rewrite Hl in E; cbn in E; lia).
  intros [Hin|[?|Hin]]%in_app_iff; [by apply Hb|done|]. by apply (HexNames.hex_no_slash 16 h).
Qed.
Lemma path_Base_no_sep p : path_Base p <> [slash] -> no_sep slash (path_Base p).
Proof.
  unfold path_Base. case_bool_decide; [intros _; by vm_compute; intuition|]. case_bool_decide; [done|]. intros _.
  pose proof (split_no_sep slash (rev (trim_slashes (rev p)))) as HF. pose proof (split_ne slash (rev (trim_slashes (rev p)))) as Hne.
  apply (Forall_forall _ _) with (x := List.last (split slash (rev (trim_slashes (rev p)))) []) in HF; [done|]. apply list_elem_of_In.
  destruct (exists_last Hne) as (l & x & ->). rewrite last_last. apply in_or_app. right. by left.
Qed.
Lemma tempFilename_safe canonical fname : tempFilenameFromCanonical canonical = Ok fname -> safe_elem fname.
Proof.
  unfold tempFilenameFromCanonical. case_bool_decide; [done|]. case_bool_decide; [done|]. cbn [orb]. intros [= <-]. by apply fname_safe, path_Base_no_sep.
Qed.
Lemma fresh_safe d : safe_elem (fresh_name d).
Proof.
  unfold fresh_name. destruct (Itoa_safe (Z.of_nat (vd_next d))) as (_ & _ & _ & Hs). split_and!; [done..|].
  intros [Hin|Hin]%in_app_iff; [|by apply Hs]. by vm_compute in Hin; intuition.
Qed.

(** *** The invariant *)

(** Files, tracked names and open handles are in the temporary directory, and a file belongs to the path it was made at. *)
Record temp_inv (s : sys) : Prop := {
  ti_dir p i : vd_names (v_disk (sy_vfs s)) !! p = Some i -> exists dir, v_tempDir (sy_vfs s) = Some (Ok dir) /\ inside dir p;
  ti_tracked c p : v_tempFiles (sy_vfs s) !! c = Some p ->
    c ∈ v_tempNames (sy_vfs s) /\ exists dir fname, v_tempDir (sy_vfs s) = Some (Ok dir) /\ tempFilenameFromCanonical c = Ok fname /\ p = path_Join [dir; fname];
  ti_handle h t : sy_open s !! h = Some t -> exists dir, v_tempDir (sy_vfs s) = Some (Ok dir) /\ inside dir (tf_path t) /\
    (tf_file t < vd_next (v_disk (sy_vfs s)))%nat /\
    forall c, tf_tracked t = Some c -> exists fname, tempFilenameFromCanonical c = Ok fname /\ tf_path t = path_Join [dir; fname];
  ti_origin : exists origin : nat -> str,
    (forall p i, vd_names (v_disk (sy_vfs s)) !! p = Some i -> origin i = p /\ (i < vd_next (v_disk (sy_vfs s)))%nat) /\
    (forall h t, sy_open s !! h = Some t -> origin (tf_file t) = tf_path t)
}.

(** A call that makes no name, no file and no handle. *)
Record shrinks (s s' : sys) : Prop := {
  sh_dir : v_tempDir (sy_vfs s') = v_tempDir (sy_vfs s);
  sh_next : vd_next (v_disk (sy_vfs s')) = vd_next (v_disk (sy_vfs s));
  sh_names p i : vd_names (v_disk (sy_vfs s')) !! p = Some i -> vd_names (v_disk (sy_vfs s)) !! p = Some i;
  sh_temps c p : v_tempFiles (sy_vfs s') !! c = Some p -> v_tempFiles (sy_vfs s) !! c = Some p;
  sh_seen : v_tempNames (sy_vfs s') = v_tempNames (sy_vfs s);
  sh_open h t' : sy_open s' !! h = Some t' -> exists t, sy_open s !! h = Some t /\ tf_file t' = tf_file t /\ tf_path t' = tf_path t /\ tf_tracked t' = tf_tracked t
}.
Lemma shrinks_inv s s' : shrinks s s' -> temp_inv s -> temp_inv s'.
Proof.
  intros [Hd Hn Hnm Ht Hs Ho] [I1 I2 I3 (origin & I4 & I5)]. split.
  - intros p i Hp. rewrite Hd. by eapply I1, Hnm.
  - intros c p Hc. rewrite Hd, Hs. by apply I2, Ht.
  - intros h t' Hh. apply Ho in Hh as (t & Hh & -> & -> & ->). rewrite Hd, Hn. by apply (I3 h).
  - exists origin. rewrite Hn. split; [intros p i Hp; by apply I4, Hnm|]. intros h t' Hh. apply Ho in Hh as (t & Hh & -> & -> & _). by apply (I5 h).
Qed.
Lemma shrinks_refl s : shrinks s s.
Proof. split; try done. intros h t Hh. by exists t. Qed.

Lemma os_Remove_spec path d d' r : os_Remove e path d = (d', r) ->
  vd_files d' = vd_files d /\ vd_next d' = vd_next d /\ (forall p i, vd_names d' !! p = Some i -> vd_names d !! p = Some i) /\
  (r = Ok () -> vd_names d' !! path = None) /\ (forall err, r = Err err -> os_IsNotExist err = true -> ve_fault e (vd_calls d) = None -> vd_names d' !! path = None).
Proof.
  unfold os_Remove. destruct (ve_fault e (vd_calls d)) as [err|]; [intros [= <- <-]; by split_and!|].
  destruct (vd_names (calls d) !! path) as [i|] eqn:E; intros [= <- <-]; split_and!; try done; cbn.
  - by intros p j [_ ?]%lookup_delete_Some.
  - intros _. apply lookup_delete_eq.
Qed.

Lemma untrack_shrinks c v o : shrinks (mkSys v o) (mkSys (untrack c v) o).
Proof. split; try done; [intros c' p Hc; cbn in Hc; by apply lookup_delete_Some in Hc as [_ ?]|]. intros h t Hh. by exists t. Qed.
Lemma shrinks_trans s1 s2 s3 : shrinks s1 s2 -> shrinks s2 s3 -> shrinks s1 s3.
Proof.
  intros [A1 A2 A3 A4 A5 A6] [B1 B2 B3 B4 B5 B6]. split; [congruence|congruence|by eauto|by eauto|congruence|].
  intros h t'' Hh. apply B6 in Hh as (t' & Hh & -> & -> & ->). by apply A6.
Qed.
Lemma remove_shrinks path v o d r : os_Remove e path (v_disk v) = (d, r) -> shrinks (mkSys v o) (mkSys (set_disk d v) o).
Proof. intros (_ & Hn & Hnm & _)%os_Remove_spec. split; try done. intros h t Hh. by exists t. Qed.
Lemma unregister_shrinks name v o : shrinks (mkSys v o) (mkSys (unregisterTempFile name v) o).
Proof. unfold unregisterTempFile. case_bool_decide; [apply shrinks_refl|apply untrack_shrinks]. Qed.

Lemma delete_shrinks name v o : shrinks (mkSys v o) (mkSys (VFS_Delete e name v).1 o).
Proof.
  unfold VFS_Delete. assert (shrinks (mkSys v o) (mkSys (deleteTempFile e name v).1 o)) as HD.
  { unfold deleteTempFile. destruct (loadTempFilePath v name) as [path|].
    - destruct (os_Remove e path (v_disk v)) as [d [u|err|m]] eqn:ER; pose proof (remove_shrinks _ v o _ _ ER) as HS; [|destruct (negb _)|]; cbn [fst]; try done;
        by eapply shrinks_trans; [|apply unregister_shrinks].
    - destruct (wasTempFileName v name); [apply unregister_shrinks|apply shrinks_refl]. }
  by destruct (deleteTempFile e name v) as [v' [u|err|m]].
Qed.
Lemma close_shrinks t v o h : shrinks (mkSys v o) (mkSys (tf_Close e t v).1 (base.delete h o)).
Proof.
  assert (forall v', shrinks (mkSys v o) (mkSys v' o) -> shrinks (mkSys v o) (mkSys v' (base.delete h o))) as Hdel.
  { intros v' [A1 A2 A3 A4 A5 A6]. split; try done. intros k t' Hk. cbn in Hk. apply lookup_delete_Some in Hk as [_ Hk]. by apply A6. }
  apply Hdel. unfold tf_Close.
  assert (exists v', shrinks (mkSys v o) (mkSys v' o) /\ exists r, (if tf_deleteOnClose t then
                   match os_Remove e (tf_path t) (v_disk v) with
                   | (d, Err err) => (set_disk d v, if negb (os_IsNotExist err) then Err err else Ok ())
                   | (d, r) => (set_disk d v, r)
                   end
                 else (v, Ok ())) = (v', r)) as (v' & HS & r & ->).
  { destruct (tf_deleteOnClose t); [|exists v; split; [apply shrinks_refl|by eexists]].
    destruct (os_Remove e (tf_path t) (v_disk v)) as [d r] eqn:ER. apply (remove_shrinks _ v o) in ER. exists (set_disk d v). split; [done|]. destruct r; by eexists. }
  destruct (tf_tracked t); [|done]. by eapply shrinks_trans; [|apply untrack_shrinks].
Qed.
Lemma put_file_shrinks i b v o : shrinks (mkSys v o) (mkSys (put_file i b v) o).
Proof. split; try done. intros h t Hh. by exists t. Qed.

(** Opening a file: an existing one, or a new one. *)
Lemma os_OpenFile_spec path flag d d' r : os_OpenFile e path flag d = (d', r) ->
  vd_names d' = vd_names d /\ vd_next d' = vd_next d /\ vd_files d' = vd_files d /\ (forall i, r = Ok i -> vd_names d !! path = Some i) \/
  vd_names d !! path = None /\ r = Ok (vd_next d) /\ vd_names d' = <[path := vd_next d]> (vd_names d) /\ vd_next d' = S (vd_next d) /\
    vd_files d' = <[vd_next d := []]> (vd_files d).
Proof.
  unfold os_OpenFile. destruct (ve_fault e (vd_calls d)) as [err|]; [intros [= <- <-]; by left|].
  change (vd_names (calls d)) with (vd_names d). change (vd_next (calls d)) with (vd_next d). change (vd_files (calls d)) with (vd_files d).
  destruct (vd_names d !! path) as [i|] eqn:E.
  - destruct (_ && _); intros [= <- <-]; left; split_and!; try done. by intros j [= <-].
  - destruct (has flag O_CREATE); intros [= <- <-]; [by right|by left].
Qed.


Lemma ensureTempDir_spec v v' r : ensureTempDir e v = (v', r) ->
  v_disk v' = v_disk v /\ v_tempFiles v' = v_tempFiles v /\ v_tempNames v' = v_tempNames v /\ v_tempDir v' = Some r /\
  (v_tempDir v = None \/ v_tempDir v = Some r).
Proof. unfold ensureTempDir. destruct (v_tempDir v) as [x|] eqn:E; intros [= <- <-]; split_and!; try done; [by right|by left]. Qed.
(** The directory is made once. *)
Lemma ensure_inv v v' r o : ensureTempDir e v = (v', r) -> temp_inv (mkSys v o) -> temp_inv (mkSys v' o).
Proof.
  intros (Hd & Hf & Hn & Hr & Hold)%ensureTempDir_spec [I1 I2 I3 I4]. cbn in *.
  assert (forall dir, v_tempDir v = Some (Ok dir) -> v_tempDir v' = Some (Ok dir)) as Hsame by (intros dir; destruct Hold as [-> | ->]; [done|by rewrite Hr]).
  split; cbn; rewrite ?Hd, ?Hf, ?Hn.
  - intros p i Hp. destruct (I1 p i Hp) as (dir & H1 & H2). exists dir. split; [by apply Hsame|done].
  - intros c p Hc. destruct (I2 c p Hc) as (H1 & dir & fname & H2 & H3). split; [done|]. exists dir, fname. split; [by apply Hsame|done].
  - intros h t Hh. destruct (I3 h t Hh) as (dir & H1 & H2). exists dir. split; [by apply Hsame|done].
  - done.
Qed.

(** A handle on the file of a path in the directory. *)
Lemma open_inv v o d path flag i dir h t :
  temp_inv (mkSys v o) -> v_tempDir v = Some (Ok dir) -> inside dir path -> os_OpenFile e path flag (v_disk v) = (d, Ok i) ->
  tf_file t = i -> tf_path t = path -> (forall c, tf_tracked t = Some c -> exists fname, tempFilenameFromCanonical c = Ok fname /\ path = path_Join [dir; fname]) ->
  temp_inv (mkSys (set_disk d v) (<[h := t]> o)).
Proof.
  intros [I1 I2 I3 (origin & I4 & I5)] Hdir Hin HO Hi Hp Ht. cbn in *. apply os_OpenFile_spec in HO as [(En & Ex & _ & Hr)|(Hno & [= ->] & En & Ex & _)].
  - specialize (Hr i eq_refl). split; cbn; rewrite ?En, ?Ex; [done|done| |].
    + intros k u [[_ <-]|[_ Hk]]%lookup_insert_Some; [|by apply (I3 k)]. exists dir. rewrite Hp, Hi. split_and!; [done..| |done]. by apply (I4 path).
    + exists origin. split; [done|]. intros k u [[_ <-]|[_ Hk]]%lookup_insert_Some; [|by apply (I5 k)]. rewrite Hi, Hp. by apply I4.
  - split; cbn; rewrite ?En, ?Ex; [|done| |].
    + intros q j [[<- _]|[_ Hq]]%lookup_insert_Some; [by exists dir|by eapply I1].
    + intros k u [[_ <-]|[_ Hk]]%lookup_insert_Some; [exists dir; rewrite Hp, Hi; split_and!; [done..|lia|done]|].
      destruct (I3 k u Hk) as (dir' & H1 & H2 & H3 & H4). exists dir'. split_and!; [done..|lia|done].
    + exists (fun j => if bool_decide (j = vd_next (v_disk v)) then path else origin j). split.
      * intros q j [[<- <-]|[_ Hq]]%lookup_insert_Some; [rewrite bool_decide_eq_true_2 by done; split; [done|lia]|].
        destruct (I4 q j Hq) as [H1 H2]. rewrite bool_decide_eq_false_2 by lia. split; [done|lia].
      * intros k u [[_ <-]|[_ Hk]]%lookup_insert_Some; [by rewrite Hi, bool_decide_eq_true_2|].
        destruct (I3 k u Hk) as (_ & _ & _ & H3 & _). rewrite bool_decide_eq_false_2 by lia. by apply (I5 k).
Qed.
(** A failed open changes at most the number of calls. *)
Lemma open_failed_inv v o d path flag r : temp_inv (mkSys v o) -> os_OpenFile e path flag (v_disk v) = (d, r) -> is_ok r = false -> temp_inv (mkSys (set_disk d v) o).
Proof.
  intros HI HO Hr. apply os_OpenFile_spec in HO as [(En & Ex & _ & _)|(_ & -> & _)]; [|done]. eapply shrinks_inv; [|done].
  split; cbn; rewrite ?En, ?Ex; try done. intros h t Hh. by exists t.
Qed.
Lemma track_inv v o canonical path dir fname :
  temp_inv (mkSys v o) -> v_tempDir v = Some (Ok dir) -> tempFilenameFromCanonical canonical = Ok fname -> path = path_Join [dir; fname] ->
  temp_inv (mkSys (trackTempFile canonical path v).1 o).
Proof.
  intros [I1 I2 I3 I4] Hdir Hf Hp. unfold trackTempFile. case_bool_decide; [by split|]. cbn in *. split; cbn; try done.
  intros c p [[<- <-]|[_ Hc]]%lookup_insert_Some; [split; [apply elem_of_union; left; by apply elem_of_singleton|by exists dir, fname]|].
  destruct (I2 c p Hc) as [? ?]. split; [apply elem_of_union; by right|done].
Qed.

Lemma openTempFile_inv name flags v v' r o h : temp_inv (mkSys v o) -> openTempFile e name flags v = (v', r) ->
  match r with Ok t => temp_inv (mkSys v' (<[h := t]> o)) | _ => temp_inv (mkSys v' o) end.
Proof.
  intros HI. unfold openTempFile. destruct (ensureTempDir e v) as [v1 [dir|err|m]] eqn:EE; pose proof (ensure_inv _ _ _ o EE HI) as H1; [|by intros [= <- <-]..].
  apply ensureTempDir_spec in EE as (_ & _ & _ & Hdir & _). case_bool_decide as Hname.
  - set (path := path_Join [dir; fresh_name (v_disk v1)]). destruct (os_OpenFile e path _ (v_disk v1)) as [d r1] eqn:EO.
    assert (inside dir path) as Hin by (destruct (fresh_safe (v_disk v1)) as (? & ? & ? & ?); by exists (fresh_name (v_disk v1))).
    destruct r1 as [i|err|m]; intros [= <- <-]; [by eapply open_inv|by eapply open_failed_inv..].
  - case_bool_decide as Hcan; [by intros [= <- <-]|]. destruct (tempFilenameFromCanonical (canonicalTempName name)) as [fname|err|m] eqn:EF; [|by intros [= <- <-]..].
    set (path := path_Join [dir; fname]). set (flag := if openFlagToOSFlag flags =? 0 then O_RDWR else openFlagToOSFlag flags).
    destruct (os_OpenFile e path (Z.lor flag O_CREATE) (v_disk v1)) as [d r1] eqn:EO.
    assert (inside dir path) as Hin by (destruct (tempFilename_safe _ _ EF) as (? & ? & ? & ?); by exists fname).
    destruct r1 as [i|err|m]; [|intros [= <- <-]; by eapply open_failed_inv..].
    pose proof (fun t => open_inv v1 o d path _ i dir h t H1 Hdir Hin EO) as HOI.
    pose proof (fun t H => track_inv (set_disk d v1) (<[h := t]> o) (canonicalTempName name) path dir fname H Hdir EF eq_refl) as HTI.
    destruct (trackTempFile (canonicalTempName name) path (set_disk d v1)) as [v2 oc] eqn:ET. intros [= <- <-]. cbn [fst] in HTI. apply HTI, HOI; [done..|].
    cbn. intros c ->. unfold trackTempFile in ET. case_bool_decide; [done|]. injection ET as _ <-. by exists fname.
Qed.

Lemma do_call_inv c s : temp_inv s -> temp_inv (do_call c s).
Proof.
  destruct s as [v o]. intros HI. destruct c as [h name flags|h|h b off|h size|name|h l|h l]; cbn [do_call sy_open sy_vfs].
  - destruct (o !! h) as [t|] eqn:Eh; [done|]. destruct (openTempFile e name flags v) as [v' r] eqn:EO. pose proof (openTempFile_inv _ _ _ _ _ o h HI EO) as HR.
    by destruct r.
  - destruct (o !! h); [|done]. eapply shrinks_inv; [apply close_shrinks|done].
  - destruct (o !! h) as [t|]; [|done]. unfold tf_WriteAt. destruct (tf_writable t); [|done]. eapply shrinks_inv; [apply put_file_shrinks|done].
  - destruct (o !! h) as [t|]; [|done]. unfold tf_Truncate. destruct (tf_writable t); [|done]. eapply shrinks_inv; [apply put_file_shrinks|done].
  - eapply shrinks_inv; [apply delete_shrinks|done].
  - destruct (o !! h) as [t|] eqn:Eh; [|done]. eapply shrinks_inv; [|done]. split; try done. intros k t' Hk. cbn in Hk.
    apply lookup_insert_Some in Hk as [[<- <-]|[_ Hk]]; [exists t; split; [done|]; unfold tf_Lock; by destruct (l =? LockNone)|by exists t'].
  - destruct (o !! h) as [t|] eqn:Eh; [|done]. eapply shrinks_inv; [|done]. split; try done. intros k t' Hk. cbn in Hk.
    apply lookup_insert_Some in Hk as [[<- <-]|[_ Hk]]; [by exists t|by exists t'].
Qed.
Lemma do_calls_inv cs s : temp_inv s -> temp_inv (do_calls cs s).
Proof. unfold do_calls. revert s. induction cs as [|c cs IH]; intros s HI; [done|]. cbn. by apply IH, do_call_inv. Qed.

(** The directory is the one the system made. *)
Lemma tempDir_made cs s0 dir :
  v_tempDir (sy_vfs (do_calls cs s0)) = Some (Ok dir) -> v_tempDir (sy_vfs s0) = Some (Ok dir) \/ ve_MkdirTemp e = Ok dir.
Proof.
  unfold do_calls. revert s0. induction cs as [|c cs IH]; intros [v o]; [by left|]. cbn [fold_left]. intros [HD|HD]%IH; [|by right].
  assert (forall o', shrinks (mkSys v o) o' -> v_tempDir (sy_vfs o') = Some (Ok dir) -> v_tempDir v = Some (Ok dir)) as Hsh by (intros o' [E _ _ _ _ _] H; by rewrite E in H).
  destruct c as [h name flags|h|h b off|h size|name|h l|h l]; cbn [do_call sy_open sy_vfs] in HD;
    try (destruct (o !! h) as [t|]; [|by left]).
  2: { left. by eapply (Hsh _ (close_shrinks t v o h)). }
  2,3: left; revert HD; unfold tf_WriteAt, tf_Truncate; by destruct (tf_writable t).
  2: { left. by eapply (Hsh _ (delete_shrinks name v o)). }
  2,3: by left.
  destruct (o !! h); [by left|].
  assert (v_tempDir (openTempFile e name flags v).1 = Some (Ok dir)) as HO by (by destruct (openTempFile e name flags v) as [v' [t|err|m]]).
  clear HD. unfold openTempFile in HO. destruct (ensureTempDir e v) as [v1 r1] eqn:EE. unfold ensureTempDir in EE.
  assert (v_tempDir v1 = Some (Ok dir) -> v_tempDir v = Some (Ok dir) \/ ve_MkdirTemp e = Ok dir) as H1.
  { destruct (v_tempDir v) as [x|] eqn:EV; injection EE as <- <-; [rewrite EV; by left|]. cbn. destruct (ve_MkdirTemp e); intros [= <-]. by right. }
  destruct r1 as [d1|err|m]; [|by apply H1..]. case_bool_decide.
  - destruct (os_OpenFile _ _ _ _) as [d [i|err|m]]; by apply H1.
  - case_bool_decide; [by apply H1|]. destruct (tempFilenameFromCanonical _); [|by apply H1..]. destruct (os_OpenFile _ _ _ _) as [d [i|err|m]]; [|by apply H1..].
    unfold trackTempFile in HO. case_bool_decide; by apply H1.
Qed.

(** The start: no file was opened yet. *)
Definition fresh_vfs (v : VFS) : Prop := v_tempDir v = None /\ v_tempFiles v = ∅ /\ v_tempNames v = ∅ /\ vd_names (v_disk v) = ∅.
Lemma fresh_inv v : fresh_vfs v -> temp_inv (mkSys v ∅).
Proof.
  intros (H1 & H2 & H3 & H4). split; cbn; rewrite ?H2, ?H4; try (intros ? ?; rewrite lookup_empty; done). exists (fun _ => []).
  split; intros ? ?; by rewrite lookup_empty.
Qed.

(** *** Names and paths *)

Lemma fnv1a_range s : is_txid (fnv1a s) = true.
Proof.
  unfold fnv1a. assert (forall h, is_txid h = true -> is_txid (fold_left (fun h c => u64 (Z.lxor h (Z.of_nat (nat_of_ascii c)) * fnv_prime)) s h) = true) as Hf.
  { induction s as [|c s IH]; intros h Hh; [done|]. cbn. apply IH. unfold is_txid. pose proof (u64_range (Z.lxor h (Z.of_nat (nat_of_ascii c)) * fnv_prime)). lia. }
  apply Hf. by vm_compute.
Qed.
Lemma fname_hash base1 base2 a b : is_txid a = true -> is_txid b = true -> base1 ++ "-"%char :: hexN 16 a = base2 ++ "-"%char :: hexN 16 b -> a = b.
Proof.
  intros Ha Hb E. apply (f_equal (@rev ascii)) in E. rewrite !rev_app_distr in E. cbn [rev] in E. rewrite <- !app_assoc in E.
  apply (f_equal (take 16)) in E. rewrite !take_app_length' in E by (by rewrite length_rev, length_hexN). apply (f_equal (@rev ascii)) in E. rewrite !rev_involutive in E.
  by rewrite <- (HexNames.hex_txid a Ha), <- (HexNames.hex_txid b Hb), E.
Qed.
Lemma join_dir_inj dir f g : HasPrefix dir [slash] = true -> safe_elem f -> safe_elem g -> path_Join [dir; f] = path_Join [dir; g] -> f = g.
Proof.
  intros Hd Hf Hg E. change f with (join slash [f]) in E. change g with (join slash [g]) in E.
  rewrite !path_Join_abs in E by first [done|by apply Forall_singleton]. apply abs_inj in E; [|apply Forall_app; split; [apply root_elems_safe|by apply Forall_singleton]..].
  apply app_inv_head in E. congruence.
Qed.
Lemma tracked_paths_apart dir c1 c2 f1 f2 : HasPrefix dir [slash] = true -> tempFilenameFromCanonical c1 = Ok f1 -> tempFilenameFromCanonical c2 = Ok f2 ->
  fnv1a c1 <> fnv1a c2 -> path_Join [dir; f1] <> path_Join [dir; f2].
Proof.
  intros Hd H1 H2 Hne E. apply join_dir_inj in E; [|done|by eapply tempFilename_safe..]. subst f2.
  unfold tempFilenameFromCanonical in H1, H2. destruct (_ || _); [done|]. destruct (_ || _); [done|]. simplify_eq. apply Hne. symmetry.
  eapply fname_hash; [apply fnv1a_range..|done].
Qed.

(** Contents of one file do not depend on writes to another. *)
Lemma write_others t1 t2 b off v : tf_file t1 <> tf_file t2 -> tf_data t2 (tf_WriteAt t1 b off v).1 = tf_data t2 v.
Proof. intros Hne. unfold tf_WriteAt. destruct (tf_writable t1); [|done]. unfold tf_data, put_file. cbn. by rewrite lookup_insert_ne. Qed.
Lemma truncate_others t1 t2 n v : tf_file t1 <> tf_file t2 -> tf_data t2 (tf_Truncate t1 n v).1 = tf_data t2 v.
Proof. intros Hne. unfold tf_Truncate. destruct (tf_writable t1); [|done]. unfold tf_data, put_file. cbn. by rewrite lookup_insert_ne. Qed.

(** Temporary files stay where they belong and apart: after any calls, every file on disk and every
    open file is directly in the temporary directory, whatever the names SQLite gave; and two open files whose names have different
    hashes share nothing, so that writing or truncating one leaves the other. *)
Theorem temp_files_isolated v cs s :
  fresh_vfs v -> (forall dir, ve_MkdirTemp e = Ok dir -> HasPrefix dir [slash] = true) -> do_calls cs (mkSys v ∅) = s ->
  (forall p i, vd_names (v_disk (sy_vfs s)) !! p = Some i -> exists dir, v_tempDir (sy_vfs s) = Some (Ok dir) /\ inside dir p) /\
  (forall h t, sy_open s !! h = Some t -> exists dir, v_tempDir (sy_vfs s) = Some (Ok dir) /\ inside dir (tf_path t)) /\
  (forall h1 h2 t1 t2 c1 c2 b off n, sy_open s !! h1 = Some t1 -> sy_open s !! h2 = Some t2 -> tf_tracked t1 = Some c1 -> tf_tracked t2 = Some c2 ->
     fnv1a c1 <> fnv1a c2 ->
     tf_data t2 (tf_WriteAt t1 b off (sy_vfs s)).1 = tf_data t2 (sy_vfs s) /\ tf_data t2 (tf_Truncate t1 n (sy_vfs s)).1 = tf_data t2 (sy_vfs s)).
Proof.
  intros Hv He Hs. pose proof (do_calls_inv cs _ (fresh_inv v Hv)) as HI. rewrite Hs in HI. destruct HI as [I1 I2 I3 (origin & _ & I5)].
  split; [done|]. split; [intros h t Hh; destruct (I3 h t Hh) as (dir & ? & ? & _); by exists dir|].
  intros h1 h2 t1 t2 c1 c2 b off n H1 H2 T1 T2 Hne. destruct (I3 h1 t1 H1) as (dir & D1 & _ & _ & P1). destruct (I3 h2 t2 H2) as (dir' & D2 & _ & _ & P2).
  rewrite D1 in D2. injection D2 as <-. destruct (P1 c1 T1) as (f1 & F1 & E1). destruct (P2 c2 T2) as (f2 & F2 & E2).
  assert (tf_file t1 <> tf_file t2) as Hdiff.
  { intros Heq. assert (HasPrefix dir [slash] = true) as Hr.
    { rewrite <- Hs in D1. destruct (tempDir_made _ _ _ D1) as [Hd|Hd]; [destruct Hv as (Hv & _); cbn in Hd; congruence|by apply He]. }
    apply (tracked_paths_apart dir c1 c2 f1 f2 Hr F1 F2 Hne). rewrite <- E1, <- E2, <- (I5 h1 t1 H1), <- (I5 h2 t2 H2). by rewrite Heq. }
  split; [by apply write_others|by apply truncate_others].
Qed.
End Calls.

(** ** Deleting and looking *)

(** A file that was deleted is no longer seen. *)
Theorem delete_forgets e name v v' : (forall n err, ve_fault e n = Some err -> errors_Is err ErrNotExist = false) ->
  VFS_Delete e name v = (v', Ok ()) -> VFS_Access e name v' = Ok false.
Proof.
  intros He HD. assert (loadTempFilePath v' name = None) as HL; [|unfold VFS_Access, isTempFileName; rewrite HL; by destruct (HasSuffix _ _)].
  assert (forall u, loadTempFilePath (unregisterTempFile name u) name = None) as Hu.
  { intros u. unfold unregisterTempFile, loadTempFilePath. case_bool_decide; [done|]. cbn. apply lookup_delete_eq. }
  revert HD. unfold VFS_Delete, deleteTempFile. destruct (loadTempFilePath v name) as [path|] eqn:EL.
  - destruct (os_Remove e path (v_disk v)) as [d [u|err|m]] eqn:ER; [intros [= <-]; apply Hu| |done].
    destruct (os_IsNotExist err) eqn:EN; cbn [negb]; [intros [= <-]; apply Hu|].
    assert (errors_Is err ErrNotExist = false) as ->; [|by destruct (errors_Is _ _)].
    unfold os_Remove in ER. destruct (ve_fault e _) as [err'|] eqn:EF; [injection ER as _ <-; by eapply He|]. destruct (_ !! path); [done|]. by injection ER as _ <-.
  - destruct (wasTempFileName v name); [|by cbn]. cbn. intros [= <-]. apply Hu.
Qed.

(** A file that is open under a tracked name and on disk is seen, unless its name is that of a WAL. *)
Lemma access_tracked e name v path : loadTempFilePath v name = Some path -> HasSuffix name (lit "-wal") = false -> ve_fault e (vd_calls (v_disk v)) = None ->
  VFS_Access e name v = Ok (bool_decide (is_Some (vd_names (v_disk v) !! path))).
Proof.
  intros HL HW HF. unfold VFS_Access, isTempFileName, accessTempFile, os_Stat. rewrite HW, HL, HF. rewrite bool_decide_eq_true_2 by by eexists.
  destruct (vd_names _ !! path) as [i|]; done.
Qed.

(** ** Write buffers *)

Lemma FormatUint_inj n m : is_txid n = true -> is_txid m = true -> FormatUint n = FormatUint m -> n = m.
Proof.
  unfold is_txid, FormatUint. intros Hn Hm E. assert (2 ^ 64 <= 10 ^ Z.of_nat 20) as Hb by by vm_compute.
  destruct (dec_loop_fuel 19 n ltac:(lia)) as (c & s & En & _ & Dn). destruct (dec_loop_fuel 19 m ltac:(lia)) as (c' & s' & Em & _ & Dm).
  rewrite En, Em in E. rewrite E in Dn. congruence.
Qed.
Lemma FormatUint_no_slash n : no_sep slash (FormatUint n).
Proof.
  unfold FormatUint. destruct (dec_loop_plain n) as [_ Hc]. generalize dependent (dec_loop 20 n []). intros s Hs Hin.
  eapply List.Forall_forall in Hs; [|done]. by apply digit_char_not in Hs as [? _].
Qed.
Lemma buffer_name_safe n : safe_elem (lit "write-buffer-" ++ FormatUint n).
Proof. split_and!; [done..|]. intros [Hin|Hin]%in_app_iff; [vm_compute in Hin; intuition done|]. by apply (FormatUint_no_slash n). Qed.

(** Connections never share a write buffer: the buffer of a connection differs from that of any earlier
    one of the same file system. *)
Theorem buffers_apart e v1 v1' p1 v2 v2' p2 :
  bufferPath e v1 = (v1', Ok p1) -> bufferPath e v2 = (v2', Ok p2) ->
  v_cfg v2 = v_cfg v1 -> v_tempDir v1' = v_tempDir v2' -> 0 <= v_writeSeq v1 < v_writeSeq v2 -> v_writeSeq v2 + 1 < 2 ^ 64 ->
  (forall dir, v_tempDir v1' = Some (Ok dir) -> HasPrefix dir [slash] = true) -> p1 <> p2.
Proof.
  unfold bufferPath. intros H1 H2 Hcfg Hdir Hseq Hmax Hroot. rewrite !u64_small in H1, H2 by lia. cbn [set_write v_cfg] in H1, H2. rewrite Hcfg in H2.
  assert (v_writeSeq v2 + 1 <> 1) as Hne by lia.
  destruct (nonempty (vc_WriteBufferPath (v_cfg v1))).
  - injection H1 as _ <-. injection H2 as _ <-. destruct (Z.eqb_spec (v_writeSeq v2 + 1) 1); [done|]. destruct (Z.eqb_spec (v_writeSeq v1 + 1) 1); intros E.
    + apply (f_equal length) in E. rewrite length_app in E. cbn in E. lia.
    + apply app_inv_head in E. injection E as E. apply FormatUint_inj in E; unfold is_txid; lia.
  - destruct (ensureTempDir e (set_write (v_writeSeq v1 + 1) _ v1)) as [u1 r1] eqn:E1. destruct (ensureTempDir e (set_write (v_writeSeq v2 + 1) _ v2)) as [u2 r2] eqn:E2.
    apply ensureTempDir_spec in E1 as (_ & _ & _ & D1 & _). apply ensureTempDir_spec in E2 as (_ & _ & _ & D2 & _).
    injection H1 as <- H1. injection H2 as <- H2. rewrite D1, D2 in Hdir. injection Hdir as <-. destruct r1 as [dir|err|m]; [|done..]. cbn [mbind result_bind wrap_err] in H1, H2. injection H1 as <-. injection H2 as <-.
    intros E. apply join_dir_inj in E; [|by apply Hroot|apply (buffer_name_safe (v_writeSeq v1 + 1))|apply (buffer_name_safe (v_writeSeq v2 + 1))].
    apply (app_inv_head (lit "write-buffer-")) in E. apply FormatUint_inj in E; unfold is_txid; lia.
Qed.

(** ** Examples *)
Module TempDemo.
Definition calm : VFSEnv := mkVFSEnv (Ok (lit "/tmp/vfs")) (fun _ => None).
Definition cfg (hydrate : bool) : VFSConfig := mkVFSConfig Second 0 true 0 [] false hydrate [].
Definition v0 (hydrate : bool) : VFS := mkVFS (cfg hydrate) 0 0 None ∅ ∅ (mkVDisk ∅ ∅ 0 0).
Definition journal : str := lit "app.db-journal".
Definition rw : Z := Z.lor OpenMainJournal (Z.lor OpenReadWrite OpenCreate).
Lemma v0_fresh : fresh_vfs (v0 false).
Proof. by split_and!. Qed.
Lemma calm_rooted dir : ve_MkdirTemp calm = Ok dir -> HasPrefix dir [slash] = true.
Proof. by intros [= <-]. Qed.

(** SQLite's commit in the rollback mode: the journal is closed, then deleted. *)
Definition commit : list call := [CallOpen 1 journal rw; CallWrite 1 [x01; x02] 0; CallClose 1; CallDelete journal].
(** Closing forgets the path, so the deletion removes nothing and reports success; the journal of the next transaction is the old
    file with its old contents. *)
Theorem deleted_journal_reappears :
  let s := do_calls calm commit (mkSys (v0 false) ∅) in
  (exists v, VFS_Delete calm journal (sy_vfs (do_calls calm (take 3 commit) (mkSys (v0 false) ∅))) = (v, Ok ())) /\
  exists t, sy_open (do_call calm (CallOpen 2 journal rw) s) !! 2%nat = Some t /\ tf_data t (sy_vfs (do_call calm (CallOpen 2 journal rw) s)) = [x01; x02].
Proof. split; [eexists; vm_compute; reflexivity|]. eexists. split; vm_compute; reflexivity. Qed.

(** Two connections with the same journal: once one of them has closed it, it is not seen any more, though it is
    on disk and open. *)
Theorem open_journal_hidden :
  let s := do_calls calm [CallOpen 1 journal rw; CallOpen 2 journal rw; CallWrite 1 [x01] 0; CallClose 2] (mkSys (v0 false) ∅) in
  VFS_Access calm journal (sy_vfs s) = Ok false /\ is_Some (sy_open s !! 1%nat) /\ map_to_list (vd_names (v_disk (sy_vfs s))) <> [].
Proof. split; [vm_compute; reflexivity|]. split; [eexists; vm_compute; reflexivity|]. by vm_compute. Qed.

(** Two connections without a configured path hydrate into the same file, and opening the second empties it. *)
Definition main (v : VFS) : VFS * result mainFile := main_settings calm (lit "app.db") v.
Theorem hydration_file_shared :
  exists v1 f1 v2 f2, main (v0 true) = (v1, Ok f1) /\ main v1 = (v2, Ok f2) /\
    mf_bufferPath f1 <> mf_bufferPath f2 /\ mf_hydrationPath f1 = mf_hydrationPath f2 /\ mf_hydrationPersistent f2 = false /\
    forall contents, (Hydrator_Init (fun _ => None) (mf_hydrationPersistent f2) 4096 (mkDisk (Some contents) None)).1 = mkDisk (Some []) None.
Proof.
  eexists _, _, _, _. split; [vm_compute; reflexivity|]. split; [vm_compute; reflexivity|]. split; [by vm_compute|]. split; [vm_compute; reflexivity|].
  split; [vm_compute; reflexivity|]. intros contents. vm_compute. reflexivity.
Qed.
End TempDemo.

Lemma temp_files_isolated_witness :
  exists t, sy_open (do_calls TempDemo.calm [CallOpen 1 (lit "/db/../a") TempDemo.rw; CallOpen 2 (lit "../b") TempDemo.rw; CallWrite 2 [x07] 0] (mkSys (TempDemo.v0 false) ∅)) !! 2%nat = Some t /\
    forall v, v = sy_vfs (do_calls TempDemo.calm [CallOpen 1 (lit "/db/../a") TempDemo.rw; CallOpen 2 (lit "../b") TempDemo.rw; CallWrite 2 [x07] 0] (mkSys (TempDemo.v0 false) ∅)) ->
      exists t1, tf_data t (tf_WriteAt t1 [x01; x02] 0 v).1 = [x07].
Proof.
  set (cs := [CallOpen 1 _ _; _; _]). destruct (temp_files_isolated TempDemo.calm (TempDemo.v0 false) cs _ TempDemo.v0_fresh TempDemo.calm_rooted eq_refl) as (_ & _ & HW).
  destruct (sy_open (do_calls TempDemo.calm cs (mkSys (TempDemo.v0 false) ∅)) !! 1%nat) as [t1|] eqn:E1; [|vm_compute in E1; discriminate].
  destruct (sy_open (do_calls TempDemo.calm cs (mkSys (TempDemo.v0 false) ∅)) !! 2%nat) as [t2|] eqn:E2; [|vm_compute in E2; discriminate].
  exists t2. split; [reflexivity|]. intros v ->. exists t1.
  assert (tf_tracked t1 = Some (lit "/a")) as T1 by (vm_compute in E1; injection E1 as <-; reflexivity).
  assert (tf_tracked t2 = Some (lit "../b")) as T2 by (vm_compute in E2; injection E2 as <-; reflexivity).
  destruct (HW 1%nat 2%nat t1 t2 _ _ [x01; x02] 0%nat 0%nat E1 E2 T1 T2) as [H1 _]; [vm_compute; discriminate|]. rewrite H1.
  vm_compute in E2. injection E2 as <-. vm_compute. reflexivity.
Defined.
