(* ===== verification/VfsControl.v ===== *)
(** * Snapshots, pragmas and connections of the virtual file system

    Model of the rest of src/vfs.go: snapshots that a writing connection makes from remote files, the
    background tasks it starts, the pragmas that control a file, and the functions of the
    loadable extension that work on the file of a SQLite connection. *)

From Stdlib Require Import ZArith Lia Ascii String Strings.Byte.
From stdpp Require Import base numbers list strings gmap sorting.
From S2P Require Import Prelude Ltx Levels Streams RestorePlan Compactor Replica V3 Db PageIndex Pipeline Urls Vfs VfsWrite NatsClient.
Local Open Scope Z_scope.

(** ** Snapshots *)

Section VfsSnapshot.
Context `{PC : PageCache} {C : Type} `{RC : ReplicaClient C} `{LF : LTXFormat}.
(** The bytes of a stream that breaks off, and errors of the encoder. *)
Variable broken : list (Z * page) -> list byte.
Variable enc_header enc_close : option error.
Variable enc_page : Z -> option error.

(** The pages in the order of their numbers: those encoded, and the error that ended the stream. *)
Fixpoint encode_pages (client : C) (elems : list (Z * PageIndexElem)) (pages : list (Z * page)) : list (Z * page) * option error :=
  match elems with
  | [] => (pages, match enc_close with Some err => Some (EWrap "close encoder" err) | None => None end)
  | (pgno, elem) :: elems =>
      match fetch_elem client elem with
      | Err err => (pages, Some (EWrap "fetch page" err))
      | Panic m => (pages, Some (EMsg m))
      | Ok (_, data) =>
          match enc_page pgno with
          | Some err => (pages, Some (EWrap "encode page" err))
          | None => encode_pages client elems (pages ++ [(pgno, data)])
          end
      end
  end.
Definition pgno_le (a b : Z * PageIndexElem) : Prop := a.1 <= b.1.
#[global] Instance pgno_le_dec a b : Decision (pgno_le a b).
Proof. unfold pgno_le. apply _. Defined.

Definition snapshot_ltx (f : VFSFile) (pages : list (Z * page)) : ltxFile :=
  mkLTX (vf_pageSize f) (rv_commit (vf_view f)) 1 (rv_pos (vf_view f)) 0 0 0 0 pages.
Definition vfs_snapshot_stream (client : C) (f : VFSFile) : Reader :=
  match enc_header with
  | Some err => mkReader (broken []) (Some (EWrap "encode header" err))
  | None =>
      match encode_pages client (merge_sort pgno_le (map_to_list (vf_index f))) [] with
      | (pages, Some err) => mkReader (broken pages) (Some err)
      | (pages, None) => mkReader (EncodeLTX (snapshot_ltx f pages)) None
      end
  end.
(** [Snapshot]; [compacting] says whether the file has a compactor. *)
Definition VFSFile_Snapshot (compacting : bool) (client : C) (f : VFSFile) : C * result FileInfo :=
  if negb compacting then (client, Err (EMsg "compaction not enabled"))
  else if vf_pageSize f =? 0 then (client, Err (EDBNotReady "page size not initialized"))
  else WriteLTXFile client SnapshotLevel 1 (rv_pos (vf_view f)) (vfs_snapshot_stream client f).

(** One tick of the snapshot monitor: a snapshot, and retention after one that succeeds. *)
Context {L identity recipient : Type}.
Definition snapshot_tick (snapshotRetention : duration) (c : @Compactor L identity recipient) (f : VFSFile) (now : time) (st : @state C L) : state * list error :=
  match VFSFile_Snapshot true (st_client st) f with
  | (cl, Err err) =>
      (set_client st cl,
       if errors_Is err ErrCanceled || errors_Is err ErrDeadlineExceeded || errors_Is err (EDBNotReady "") then [] else [EWrap "snapshot failed" err])
  | (cl, Panic m) => (set_client st cl, [EMsg m])
  | (cl, Ok _) =>
      let st := set_client st cl in
      if 0 <? snapshotRetention then
        match EnforceSnapshotRetention c st now snapshotRetention with
        | (st, Err err) => (st, [EWrap "snapshot retention failed" err])
        | (st, Panic m) => (st, [EMsg m])
        | (st, Ok _) => (st, [])
        end
      else (st, [])
  end.
End VfsSnapshot.

(** ** Background tasks *)

Inductive monitor := MonCompaction (level : Z) (interval : duration) | MonSnapshots (interval : duration) | MonL0Retention (interval : duration).
(** [monitorL0Retention]: a quarter of the retention, and at least a minute. *)
Definition l0_check_interval (retention : duration) : duration := if Z.quot retention 4 <? Minute then Minute else Z.quot retention 4.
Definition startCompactionMonitors (levels : option CompactionLevels) (snapshotInterval l0Retention : duration) : list monitor :=
  let levels := default DefaultCompactionLevels levels in
  ((fun lvl => MonCompaction (lvl_Level lvl) (Interval lvl)) <$> filter (fun lvl => lvl_Level lvl <> 0) levels)
  ++ (if 0 <? snapshotInterval then [MonSnapshots snapshotInterval] else [])
  ++ (if 0 <? l0Retention then [MonL0Retention (l0_check_interval l0Retention)] else []).

(** ** Pragmas *)

Definition int_seconds (d : duration) : Z := Z.quot d Second.
(** Seconds since the last successful poll, [-1] before the first; the zero time is 0. *)
Definition poll_lag (now lastPoll : time) : Z := if time_IsZero lastPoll then -1 else int_seconds (now - lastPoll).
Definition TXID_String (t : TXID) : str := hexN 16 t.

Section Control.
Context `{PC : PageCache} {C : Type} `{RC : ReplicaClient C} `{LF : LTXFormat} `{FS : FileInfoSliceOps}.
Variable LockPgno : Z -> Z.
Variable encoder_refuses : ltxFile -> option error.
Variable partial : VFSFile -> list byte.
Variable e : venv.
(** [time.Parse] and [Format] with RFC3339Nano and RFC3339, the dateparser package, and the progress of a hydration. *)
Variable ParseNano ParseRFC3339 : str -> option time.
Variable FormatNano : time -> str.
Variable dateparser_Parse : time -> str -> result time.
Variable hydration_pct : Hydrator -> str.

Definition parseTimeValue (now : time) (value : str) : result time :=
  match ParseNano value, ParseRFC3339 value with
  | Some t, _ | None, Some t => Ok t
  | None, None =>
      match dateparser_Parse now value with
      | Ok t => if time_IsZero t then Err (EMsg "could not parse time") else Ok t
      | Err _ => Err (EMsg "invalid timestamp (expected RFC3339 or relative time like '5 minutes ago')")
      | Panic m => Panic m
      end
  end.
Definition currentTimeString (f : VFSFile) : str :=
  match rv_targetTime (vf_view f) with
  | Some t => FormatNano t
  | None => if time_IsZero (rv_latestLTXTime (vf_view f)) then lit "latest" else FormatNano (rv_latestLTXTime (vf_view f))
  end.

(** [SetWriteEnabled]; [None]: it waits for the transaction to end. *)
Definition SetWriteEnabled (enabled cancelled : bool) (client : C) (vs : VFS) (f : VFSFile) : option (C * VFS * VFSFile * result ()) :=
  if eqb (ws_writeEnabled (vf_write f)) enabled then Some (client, vs, f, Ok ())
  else if enabled then let '(f, r) := EnableWrites e f in Some (client, vs, f, r)
  else DisableResume LockPgno encoder_refuses partial e cancelled false client vs (DisableBegin f).

(** What a file has besides its state: the path of its hydration and its last successful poll. *)
Record controlled := mkControlled { cl_file : VFSFile; cl_hydrationPath : str; cl_lastPoll : time }.
Definition SQLITE_FCNTL_PRAGMA : Z := 14.
Definition NotFoundError : error := EVar "sqlite3vfs: not found".
Definition read_only {A} (value : option str) (r : result A) : result A :=
  match value with Some _ => Err (EMsg "pragma is read-only") | None => r end.

(** [FileControl]: the text that is returned, if any. *)
Definition FileControl (now : time) (cancelled : bool) (op : Z) (pragmaName : str) (value : option str) (client : C) (vs : VFS) (c : controlled)
    : option (C * VFS * VFSFile * result (option str)) :=
  let f := cl_file c in
  let here r := Some (client, vs, f, r) in
  if negb (op =? SQLITE_FCNTL_PRAGMA) then here (Err (EMsg "unsupported file control op")) else
  let name := ToLower pragmaName in
  if bool_decide (name = lit "replicate_txid") then here (read_only value (Ok (Some (TXID_String (rv_pos (vf_view f))))))
  else if bool_decide (name = lit "replicate_lag") then here (read_only value (Ok (Some (Itoa (poll_lag now (cl_lastPoll c))))))
  else if bool_decide (name = lit "replicate_time") then
    match value with
    | None => here (Ok (Some (currentTimeString f)))
    | Some v =>
        if bool_decide (ToLower v = lit "latest") then
          let '(f, r) := ResetTime client f in Some (client, vs, f, _ ← r; Ok None)
        else
          match parseTimeValue now v with
          | Err err => here (Err err)
          | Panic m => here (Panic m)
          | Ok t => let '(f, r) := SetTargetTime client f t in Some (client, vs, f, _ ← r; Ok None)
          end
    end
  else if bool_decide (name = lit "replicate_hydration_progress") then
    here (read_only value (Ok (Some (match vf_hydrator f with None => lit "0" | Some h => hydration_pct h end))))
  else if bool_decide (name = lit "replicate_hydration_file") then here (read_only value (Ok (Some (cl_hydrationPath c))))
  else if bool_decide (name = lit "replicate_write_enabled") then
    match value with
    | None => here (Ok (Some (if ws_writeEnabled (vf_write f) then lit "1" else lit "0")))
    | Some v =>
        let set b := match SetWriteEnabled b cancelled client vs f with
                     | Some (client, vs, f, r) => Some (client, vs, f, _ ← r; Ok None)
                     | None => None
                     end in
        if bool_decide (ToLower v ∈ [lit "0"; lit "false"; lit "off"]) then set false
        else if bool_decide (ToLower v ∈ [lit "1"; lit "true"; lit "on"]) then set true
        else here (Err (EMsg "invalid value for replicate_write_enabled (use 0 or 1)"))
    end
  else here (Err NotFoundError).

(** ** Connections *)

(** The files of SQLite, some of which are not database files, and the file of each connection. *)
Record Conns := mkConns { cn_files : gmap Z (option controlled); cn_map : gmap Z Z }.
Definition lookupVFSFile (s : Conns) (fileID : Z) : option controlled := mjoin (cn_files s !! fileID).
Definition RegisterVFSConnection (dbPtr fileID : Z) (s : Conns) : Conns * result () :=
  match lookupVFSFile s fileID with
  | None => (s, Err (EMsg "vfs file not found"))
  | Some _ => (mkConns (cn_files s) (<[dbPtr := fileID]> (cn_map s)), Ok ())
  end.
Definition UnregisterVFSConnection (dbPtr : Z) (s : Conns) : Conns := mkConns (cn_files s) (base.delete dbPtr (cn_map s)).
Definition vfsFileForConnection (s : Conns) (dbPtr : Z) : result (Z * controlled) :=
  match cn_map s !! dbPtr with
  | None => Err (EMsg "connection not registered")
  | Some fileID => match lookupVFSFile s fileID with Some c => Ok (fileID, c) | None => Err (EMsg "vfs file not found") end
  end.
Definition put_conn (id : Z) (c : controlled) (f : VFSFile) (s : Conns) : Conns :=
  mkConns (<[id := Some (mkControlled f (cl_hydrationPath c) (cl_lastPoll c))]> (cn_files s)) (cn_map s).
(** An operation on the file of a connection. *)
Definition on_connection (op : VFSFile -> VFSFile * result ()) (dbPtr : Z) (s : Conns) : Conns * result () :=
  match vfsFileForConnection s dbPtr with
  | Ok (id, c) => let '(f, r) := op (cl_file c) in (put_conn id c f s, r)
  | Err err => (s, Err err)
  | Panic m => (s, Panic m)
  end.
Definition SetVFSConnectionTime (now : time) (client : C) (dbPtr : Z) (timestamp : str) (s : Conns) : Conns * result () :=
  on_connection (fun f => match parseTimeValue now timestamp with
                          | Ok t => SetTargetTime client f t
                          | Err err => (f, Err err)
                          | Panic m => (f, Panic m)
                          end) dbPtr s.
Definition ResetVFSConnectionTime (client : C) : Z -> Conns -> Conns * result () := on_connection (ResetTime client).
Definition GetVFSConnectionTime (s : Conns) (dbPtr : Z) : result str := '(_, c) ← vfsFileForConnection s dbPtr; Ok (currentTimeString (cl_file c)).
Definition GetVFSConnectionTXID (s : Conns) (dbPtr : Z) : result str := '(_, c) ← vfsFileForConnection s dbPtr; Ok (TXID_String (rv_pos (vf_view (cl_file c)))).
Definition GetVFSConnectionLag (now : time) (s : Conns) (dbPtr : Z) : result Z := '(_, c) ← vfsFileForConnection s dbPtr; Ok (poll_lag now (cl_lastPoll c)).
End Control.

(** ** What a snapshot holds *)

Section SnapshotExact.
Context `{PCL : PageCacheLaws} {C : Type} `{RCL : ReplicaClientLaws C} `{!StorageLaws C} `{LF : LTXFormat}.
Variable hist : TXID -> Z -> option page.
Variable hsize : TXID -> Z.
Variable good : C -> Prop.
Variable broken : list (Z * page) -> list byte.
Variable enc_header enc_close : option error.
Variable enc_page : Z -> option error.

Lemma lookup_page_app p pages q data : lookup_page p (pages ++ [(q, data)]) = match lookup_page p pages with Some d => Some d | None => if q =? p then Some data else None end.
Proof.
  induction pages as [|[r d] pages IH]; cbn [app]; [by rewrite lookup_page_cons|]. rewrite !lookup_page_cons, IH. by destruct (r =? p).
Qed.

(** The pages that are encoded are what the entries of the index show. *)
Lemma encode_pages_spec cl elems pages out :
  good cl -> NoDup elems.*1 -> (forall p, p ∈ elems.*1 -> lookup_page p pages = None) ->
  encode_pages enc_close enc_page cl elems pages = (out, None) ->
  (forall p, p ∉ elems.*1 -> lookup_page p out = lookup_page p pages) /\
  (forall p el data, (p, el) ∈ elems -> shows good el data -> lookup_page p out = Some data).
Proof.
  intros Hg. revert pages. induction elems as [|[q el] elems IH]; intros pages HN Hp; cbn [encode_pages].
  { destruct enc_close; [done|]. intros [= <-]. split; [done|]. by intros p el data ?%not_elem_of_nil. }
  rewrite fmap_cons in HN, Hp. cbn [fst] in HN, Hp. apply NoDup_cons in HN as [Hq HN].
  destruct (fetch_elem cl el) as [[q' d]|err|m] eqn:EF; [|done..]. destruct (enc_page q); [done|]. intros HE. apply IH in HE as [H1 H2]; [|done|].
  2: { intros p Hin. rewrite lookup_page_app, Hp by (by right). destruct (Z.eqb_spec q p) as [->|]; [done|done]. }
  split.
  - intros p [Hne Hin]%not_elem_of_cons. rewrite H1, lookup_page_app by done. destruct (lookup_page p pages); [done|]. by destruct (Z.eqb_spec q p) as [->|].
  - intros p el' data Hin Hs. apply elem_of_cons in Hin as [[= -> ->]|Hin]; [|by eapply H2].
    rewrite H1, lookup_page_app, Hp by (done || by left). rewrite Z.eqb_refl. by rewrite (Hs cl q' d Hg EF).
Qed.

End SnapshotExact.

(** ** Examples *)
Module ControlDemo.
Import VfsDemo.
#[export] Existing Instance Lru.lru.
#[export] Existing Instance DemoFormat.format.
Definition no_fault : option error := None.
Definition no_page_fault (_ : Z) : option error := None.
Definition snap (f : VFSFile) : Mem.client * result FileInfo := VFSFile_Snapshot (fun _ => []) no_fault no_fault no_page_fault true replica f.
(** The page that a restore from the snapshot of transactions 1 to [t] finds. *)
Definition restored_page (cl : Mem.client) (t : TXID) (p : Z) : option page :=
  match FetchPageIndex cl (mkFileInfo SnapshotLevel 1 t (match stored cl SnapshotLevel 1 t with Some b => Z.of_nat (length b) | None => 0 end) 0) with
  | Ok idx => match idx !! p with Some el => match fetch_elem cl el with Ok (_, d) => Some d | _ => None end | None => None end
  | _ => None
  end.

(** A poll during a read transaction moves the position to transaction 2 and keeps its pages back; a snapshot taken then is
    stored for transactions 1 to 2 with the pages of transaction 1. *)
Definition reading : VFSFile := (pollReplicaClient calm replica id (file1 LockShared)).1.
Theorem snapshot_ahead_of_its_pages :
  exists cl info, snap reading = (cl, Ok info) /\ MaxTXID info = 2 /\ restored_page cl 2 1 = hist 1 1 /\ hist 1 1 <> hist 2 1.
Proof. eexists _, _. split; [vm_compute; reflexivity|]. split; [reflexivity|]. split; [vm_compute; reflexivity|]. by vm_compute. Qed.

(** A write transaction has appended a third page and not synced: a snapshot that the monitor makes then, if the encoder takes it, is
    stored for transaction 1 with three pages as its size, though the database has two pages at that transaction. *)
Definition writing : VFSFile :=
  (WriteAt WriteDemo.lock_pgno calm replica (set_write (mkWrite true ∅ 2 1 (Some []) 0 true false) (file1 LockNone)) (repeat x0b 8) 16).1.
Theorem unsynced_size_in_snapshot : exists g,
  stored (snap writing).1 SnapshotLevel 1 1 = Some (EncodeLTX g) /\ lf_MaxTXID g = 1 /\ lf_Commit g = 3 /\ hsize 1 = 2.
Proof. exists (snapshot_ltx writing [(1, repeat x0a 8); (2, repeat x0b 8)]). by vm_compute. Qed.

(** Without a retention no files of level 0 are ever deleted. *)
Theorem no_l0_retention levels i r : MonL0Retention i ∉ startCompactionMonitors levels r 0.
Proof.
  unfold startCompactionMonitors. rewrite app_nil_r. intros [(lvl & ? & _)%list_elem_of_fmap|Hin]%elem_of_app; [done|].
  destruct (0 <? r); [by apply list_elem_of_singleton in Hin|by apply not_elem_of_nil in Hin].
Qed.
End ControlDemo.

#[local] Existing Instance Lru.lru.
#[local] Existing Instance DemoFormat.format.

(** The intervals of the background tasks: retention is checked at least every minute or four times per period, and never more
    often than once a minute. *)
Lemma l0_check_bounds r : 0 <= r -> Minute <= l0_check_interval r /\ (l0_check_interval r <= Minute \/ 4 * l0_check_interval r <= r).
Proof. intros Hr. unfold l0_check_interval. rewrite Z.quot_div_nonneg by lia. destruct (Z.ltb_spec (r / 4) Minute); [lia|]. split; [lia|]. right. pose proof (Z.mul_div_le r 4). lia. Qed.

(** ** Connections are independent *)
Section ConnLaws.
Context `{PC : PageCache}.

Lemma register_lookup dbPtr id (s s' : Conns) : RegisterVFSConnection dbPtr id s = (s', Ok ()) ->
  exists c, lookupVFSFile s id = Some c /\ vfsFileForConnection s' dbPtr = Ok (id, c) /\
    forall q, q <> dbPtr -> vfsFileForConnection s' q = vfsFileForConnection s q.
Proof.
  unfold RegisterVFSConnection. destruct (lookupVFSFile s id) as [c|] eqn:E; [|done]. intros [= <-]. exists c. split; [done|].
  unfold vfsFileForConnection. cbn [cn_map]. split; [rewrite lookup_insert_eq; change (lookupVFSFile _ id) with (lookupVFSFile s id); by rewrite E|].
  intros q Hq. by rewrite lookup_insert_ne by done.
Qed.

(** Time travel on one connection leaves the files of the others. *)
Theorem connections_apart op dbPtr (s s' : Conns) r id c q id' c' :
  on_connection op dbPtr s = (s', r) -> vfsFileForConnection s dbPtr = Ok (id, c) -> vfsFileForConnection s q = Ok (id', c') -> id' <> id ->
  vfsFileForConnection s' q = Ok (id', c').
Proof.
  unfold on_connection. intros HO Hd Hq Hne. rewrite Hd in HO. destruct (op (cl_file c)) as [f r']. injection HO as <- <-.
  unfold vfsFileForConnection in *. unfold put_conn. cbn [cn_map]. destruct (cn_map s !! q) as [k|]; [|done].
  unfold lookupVFSFile in *. cbn [cn_files]. destruct (mjoin (cn_files s !! k)) as [c''|] eqn:E; [|done]. injection Hq as -> ->.
  rewrite lookup_insert_ne by done. by rewrite E.
Qed.
End ConnLaws.
