(* ===== verification/Command.v ===== *)
(** * The replicate command

    Model of src/cmd/replicate/replicate.go, of the part of src/cmd/replicate/main.go that runs it, and of the creation and
    opening of the store (src/store.go): flags, restoring missing databases, the settings of
    the store, one-shot replication, and how the process ends.  Databases and replicas are those
    the configuration makes (Config.v, Directory.v). *)

From Stdlib Require Import ZArith Lia Ascii String Strings.Byte.
From stdpp Require Import base numbers list strings gmap.
From S2P Require Import Prelude Ltx Levels RestorePlan V3 Urls S3Config ReplicaConfig Config Directory Shutdown.
Local Open Scope Z_scope.

(** ** The store *)

(** The settings of a store. *)
Record StoreSettings := mkStoreSettings {
  ss_SnapshotInterval : duration; ss_SnapshotRetention : duration; ss_L0Retention : duration; ss_L0RetentionCheckInterval : duration;
  ss_CompactionMonitorEnabled : bool; ss_VerifyCompaction : bool; ss_RetentionEnabled : bool; ss_ShutdownSyncTimeout : duration;
  ss_ShutdownSyncInterval : duration; ss_HeartbeatCheckInterval : duration; ss_Heartbeat : option (str * duration); ss_ValidationInterval : duration
}.
Definition DefaultHeartbeatInterval : duration := 5 * Minute.
Definition NewStore_settings : StoreSettings :=
  mkStoreSettings (24 * Hour) (24 * Hour) DefaultL0Retention DefaultL0RetentionCheckInterval true false true DefaultShutdownSyncTimeout
    DefaultShutdownSyncInterval (15 * Second) None 0.

(** The settings that [NewStore] and the setters of the store give each of its databases. *)
Record DBSettings := mkDBSettings { bs_L0Retention : duration; bs_ShutdownSyncTimeout : duration; bs_ShutdownSyncInterval : duration; bs_VerifyCompaction : bool; bs_RetentionEnabled : bool }.
Definition db_settings (s : StoreSettings) : DBSettings :=
  mkDBSettings (ss_L0Retention s) (ss_ShutdownSyncTimeout s) (ss_ShutdownSyncInterval s) (ss_VerifyCompaction s) (ss_RetentionEnabled s).

(** Settings of the configuration that are there override the defaults. *)
Definition apply_config (c : Config) (s : StoreSettings) : StoreSettings :=
  mkStoreSettings (default (ss_SnapshotInterval s) (cf_SnapshotInterval c)) (default (ss_SnapshotRetention s) (cf_SnapshotRetention c))
    (default (ss_L0Retention s) (cf_L0Retention c)) (default (ss_L0RetentionCheckInterval s) (cf_L0RetentionCheckInterval c))
    (ss_CompactionMonitorEnabled s) (if cf_VerifyCompaction c then true else ss_VerifyCompaction s)
    (match cf_RetentionEnabled c with Some false => false | _ => ss_RetentionEnabled s end)
    (default (ss_ShutdownSyncTimeout s) (cf_ShutdownSyncTimeout c)) (default (ss_ShutdownSyncInterval s) (cf_ShutdownSyncInterval c))
    (ss_HeartbeatCheckInterval s)
    (if nonempty (cf_HeartbeatURL c) then Some (cf_HeartbeatURL c, default DefaultHeartbeatInterval (cf_HeartbeatInterval c)) else ss_Heartbeat s)
    (default (ss_ValidationInterval s) (cf_ValidationInterval c)).
Definition once_settings (s : StoreSettings) : StoreSettings :=
  mkStoreSettings (ss_SnapshotInterval s) (ss_SnapshotRetention s) (ss_L0Retention s) 0 false (ss_VerifyCompaction s) (ss_RetentionEnabled s)
    (ss_ShutdownSyncTimeout s) (ss_ShutdownSyncInterval s) (ss_HeartbeatCheckInterval s) (ss_Heartbeat s) (ss_ValidationInterval s).

(** The tasks that [Store.Open] starts. *)
Inductive task := TCompaction (level : Z) | TSnapshots | TL0Retention | THeartbeats | TValidation.
#[export] Instance task_eq_dec : EqDecision task.
Proof. solve_decision. Defined.
Definition heartbeat_needed (s : StoreSettings) : bool :=
  (0 <? ss_HeartbeatCheckInterval s) && match ss_Heartbeat s with Some (url, _) => nonempty url | None => false end.
Definition store_tasks (levels : CompactionLevels) (s : StoreSettings) : list task :=
  (if ss_CompactionMonitorEnabled s
   then ((fun l => TCompaction (lvl_Level l)) <$> filter (fun l => lvl_Level l <> 0) levels) ++ [TSnapshots] else [])
  ++ (if (0 <? ss_L0Retention s) && (0 <? ss_L0RetentionCheckInterval s) then [TL0Retention] else [])
  ++ (if heartbeat_needed s then [THeartbeats] else [])
  ++ (if 0 <? ss_ValidationInterval s then [TValidation] else []).

(** Opening the databases in a group: the [n]-th does not start when the context is cancelled before, because another has failed.
    Those that are open, and the error that came first. *)
Definition open_group {D} (open : D -> option error) (skipped : nat -> bool) (first : nat) (dbs : list D) : list bool * option error :=
  let rs := imap (fun n db => if skipped n then Some ErrCanceled else open db) dbs in
  ((fun r => match r with None => true | Some _ => false end) <$> rs,
   match omap id rs with [] => None | err :: errs => Some (nth first (err :: errs) err) end).
(** [Store.Open]: which databases are open, and the tasks. *)
Definition Store_Open {D} (open : D -> option error) (skipped : nat -> bool) (first : nat) (levels : CompactionLevels) (s : StoreSettings) (dbs : list D)
    : list bool * result (list task) :=
  match Validate levels with
  | Err err => (repeat false (length dbs), Err err)
  | Panic m => (repeat false (length dbs), Panic m)
  | Ok _ =>
      match open_group open skipped first dbs with
      | (l, Some err) => (l, Err err)
      | (l, None) => (l, Ok (store_tasks levels s))
      end
  end.

(** ** Flags *)

(** The flags and arguments after [flag.Parse]. *)
Record Flags := mkFlags {
  fl_exec : str; fl_restore : bool; fl_once : bool; fl_forceSnapshot : bool; fl_enforceRetention : bool; fl_config : str; fl_noExpandEnv : bool; fl_args : list str
}.
Record Command := mkCommand { cm_Config : Config; cm_ConfigPath : str; cm_once : bool; cm_forceSnapshot : bool; cm_enforceRetention : bool }.
Definition set_Exec (x : str) (c : Config) : Config :=
  mkConf (cf_Settings c) (cf_Levels c) (cf_SnapshotInterval c) (cf_SnapshotRetention c) (cf_ValidationInterval c) (cf_L0Retention c)
    (cf_L0RetentionCheckInterval c) (cf_VerifyCompaction c) (cf_RetentionEnabled c) (cf_HeartbeatURL c) (cf_HeartbeatInterval c) (cf_DBs c) x
    (cf_ShutdownSyncTimeout c) (cf_ShutdownSyncInterval c).
Definition set_restore (b : bool) (d : DBConfig) : DBConfig :=
  mkDBConfig (dc_Path d) (dc_Dir d) (dc_Pattern d) (dc_Recursive d) (dc_Watch d) (dc_MetaPath d) (dc_MonitorInterval d) (dc_CheckpointInterval d)
    (dc_BusyTimeout d) (dc_MinCheckpointPageN d) (dc_TruncatePageN d) b (dc_Replica d) (dc_Replicas d).
Definition sync_settings (d : duration) : ReplicaSettings :=
  mkSettings (Some d) None None [] [] [] [] [] None None None false None None [] [] [] [] [] [] [] [] [] [] [] None [] [] [] [] [] [] [] [] [] [] false [] [] []
    None None None (mkAge [] [] None).

Section ParseFlags.
(** Reading a configuration file, and the path of the default one. *)
Variable read_config : str -> bool -> result Config.
Variable DefaultConfigPath : str.
Variable DefaultSyncInterval : duration.

(** The replicas of the arguments; a flag among them is an error. *)
Fixpoint url_replicas (urls : list str) : result (list ReplicaConfig) :=
  match urls with
  | [] => Ok []
  | u :: urls =>
      if HasPrefix u (lit "-") then Err (EMsg "flag must be positioned before DB_PATH and REPLICA_URL arguments") else
      rest ← url_replicas urls; Ok (mkReplicaConfig (sync_settings DefaultSyncInterval) [] [] [] u :: rest)
  end.
Definition ParseFlags (fl : Flags) : result Command :=
  '(c, path) ←
    match fl_args fl with
    | [] => let path := if nonempty (fl_config fl) then fl_config fl else DefaultConfigPath in
            c ← read_config path (negb (fl_noExpandEnv fl)); Ok (c, path)
    | [_] => Err (EMsg "must specify at least one replica URL")
    | db :: urls =>
        if nonempty (fl_config fl) then Err (EMsg "cannot specify a replica URL and the -config flag") else
        rs ← url_replicas urls;
        Ok (set_DBs [mkDBConfig db [] [] false false None None None None None None (fl_restore fl) None rs] DefaultConfig, fl_config fl)
    end;
  let c := if nonempty (fl_exec fl) then set_Exec (fl_exec fl) c else c in
  let c := if fl_restore fl then set_DBs (set_restore true <$> cf_DBs c) c else c in
  if fl_once fl && nonempty (cf_Exec c) then Err (EMsg "cannot specify -once flag with -exec")
  else if fl_forceSnapshot fl && negb (fl_once fl) then Err (EMsg "cannot specify -force-snapshot flag without -once")
  else if fl_enforceRetention fl && negb (fl_once fl) then Err (EMsg "cannot specify -enforce-retention flag without -once")
  else Ok (mkCommand c path (fl_once fl) (fl_forceSnapshot fl) (fl_enforceRetention fl)).

(** A command that was parsed never has options that exclude each other. *)
Theorem ParseFlags_consistent fl c : ParseFlags fl = Ok c ->
  (cm_once c = true -> cf_Exec (cm_Config c) = []) /\ (cm_once c = false -> cm_forceSnapshot c = false /\ cm_enforceRetention c = false) /\
  (fl_restore fl = true -> Forall (fun d => dc_RestoreIfDBNotExists d = true) (cf_DBs (cm_Config c))).
Proof.
  unfold ParseFlags. destruct (match fl_args fl with [] => _ | _ => _ end) as [[cfg path]|err|m]; cbn [mbind result_bind]; [|done..].
  set (c1 := if nonempty (fl_exec fl) then _ else _). set (c2 := if fl_restore fl then _ else _).
  destruct (fl_once fl && nonempty (cf_Exec c2)) eqn:E1; [done|]. destruct (fl_forceSnapshot fl && negb (fl_once fl)) eqn:E2; [done|].
  destruct (fl_enforceRetention fl && negb (fl_once fl)) eqn:E3; [done|]. intros [= <-]. cbn. split_and!.
  - intros Ho. rewrite Ho in E1. cbn in E1. by destruct (cf_Exec c2).
  - intros Ho. rewrite Ho in E2, E3. cbn in E2, E3. by rewrite andb_true_r in E2, E3.
  - intros Hr. subst c2. rewrite Hr. cbn. apply Forall_forall. by intros d (x & -> & _)%list_elem_of_fmap.
Qed.
End ParseFlags.

(** ** Running *)

(** What a command does after it has started: it waits for its subprocess, replicates once, or waits for a signal. *)
Inductive action := ActExec (argv : list str) | ActOnce | ActWait.

Section Run.
Context {replica : Type}.
Variable url_Parse : str -> result URL.
Variable url_String : URL -> str.
Variable ParseQuery : str -> result (string -> str).
Variables cwd home : result str.
Variable NewReplica : ReplicaConfig -> result replica.
Variable fs : str -> node.

(** The disk: database files, errors of [os.Stat] other than a missing file, and restores. *)
Abbreviation disk := (gmap str (list byte)).
Variable stat_fault : str -> option error.
Variable Restore : replica -> str -> disk -> disk * result ().

Definition os_Stat (d : disk) (p : str) : option error :=
  match stat_fault p with Some err => Some err | None => match d !! p with Some _ => None | None => Some (EPath "stat" ErrNotExist) end end.
Definition restore_config (dbc : DBConfig) : option ReplicaConfig :=
  match dc_Replica dbc, dc_Replicas dbc with Some rc, _ => Some rc | None, rc :: _ => Some rc | None, [] => None end.
Definition restoreIfNeeded (dbc : DBConfig) (d : disk) : disk * result () :=
  match expand cwd home (dc_Path dbc) with
  | Err err => (d, Err err)
  | Panic m => (d, Panic m)
  | Ok dbPath =>
      if negb (match os_Stat d dbPath with Some err => os_IsNotExist err | None => false end) then (d, Ok ()) else
      match restore_config dbc with
      | None => (d, Err (EMsg "no replica configured for database"))
      | Some rc =>
          match NewReplica rc with
          | Err err => (d, Err (EWrap "cannot create replica for restore" err))
          | Panic m => (d, Panic m)
          | Ok r =>
              match Restore r dbPath d with
              | (d, Err err) => if errors_Is err ErrTxNotAvailable then (d, Ok ()) else (d, Err (EWrap "restore failed" err))
              | x => x
              end
          end
      end
  end.
Fixpoint restore_all (dbcs : list DBConfig) (d : disk) : disk * result () :=
  match dbcs with
  | [] => (d, Ok ())
  | dbc :: dbcs =>
      if dc_RestoreIfDBNotExists dbc && nonempty (dc_Path dbc) then
        match restoreIfNeeded dbc d with
        | (d, Ok _) => restore_all dbcs d
        | x => x
        end
      else restore_all dbcs d
  end.

(** The databases of the configuration, and the directories to watch with the databases found there. *)
Fixpoint make_dbs (dbcs : list DBConfig) : result (list (DB replica) * list (DBConfig * list (DB replica))) :=
  match dbcs with
  | [] => Ok ([], [])
  | dbc :: dbcs =>
      if nonempty (dc_Dir dbc) then
        dirDbs ← NewDBsFromDirectoryConfig url_Parse url_String cwd home NewReplica fs dbc;
        '(dbs, watch) ← make_dbs dbcs;
        Ok (dirDbs ++ dbs, (if dc_Watch dbc then [(dbc, dirDbs)] else []) ++ watch)
      else
        db ← NewDBFromConfig cwd home NewReplica dbc;
        '(dbs, watch) ← make_dbs dbcs;
        Ok (db :: dbs, watch)
  end.

(** What the system does, and the addresses of the configuration. *)
Record RunEnv := mkRunEnv {
  re_mcp : option error; re_open : DB replica -> option error; re_skipped : nat -> bool; re_first : nat; re_monitor : nat -> option error;
  re_Addr : str; re_SplitHostPort : str -> str * str; re_shellwords : str -> result (list str); re_start : list str -> option error
}.
(** A command that runs: its databases with their replicas' background sync, what is open. *)
Record Running := mkRunning {
  rn_settings : StoreSettings; rn_dbs : list (DB replica * bool); rn_open : list bool; rn_tasks : list task; rn_monitors : list str; rn_action : action
}.
Definition not_running : Running := mkRunning NewStore_settings [] [] [] [] ActWait.
Definition quiet_db (db : DB replica) : DB replica * bool :=
  (mkDB (db_path db) (db_metaPath db) 0 (db_CheckpointInterval db) (db_BusyTimeout db) (db_MinCheckpointPageN db) (db_TruncatePageN db) (db_Replica db), false).

(** The monitors of the directories; one that fails leaves none. *)
Fixpoint start_monitors (e : RunEnv) (n : nat) (watch : list (DBConfig * list (DB replica))) (started : list str) : result (list str) :=
  match watch with
  | [] => Ok started
  | (dbc, _) :: watch =>
      match re_monitor e n with
      | Some err => Err (EWrap "start directory monitor" err)
      | None => start_monitors e (S n) watch (started ++ [dc_Dir dbc])
      end
  end.
(** The last steps: the address of the metrics and the subprocess. *)
Definition start_action (e : RunEnv) (cmd : Command) : result action :=
  if nonempty (re_Addr e) && negb (nonempty (re_SplitHostPort e (re_Addr e)).2) then Err (EMsg "must specify port for bind address") else
  if nonempty (cf_Exec (cm_Config cmd)) then
    argv ← re_shellwords e (cf_Exec (cm_Config cmd)) wrapping "cannot parse exec command";
    match argv with
    | [] => Panic "index out of range [0] with length 0"
    | _ => match re_start e argv with Some err => Err (EWrap "cannot start exec command" err) | None => Ok (ActExec argv) end
    end
  else Ok (if cm_once cmd then ActOnce else ActWait).

(** [Run]: the disk, what is running, and the result. *)
Definition Run (e : RunEnv) (mcp : bool) (cmd : Command) (d : disk) : disk * Running * result () :=
  let c := cm_Config cmd in
  match (if mcp : bool then re_mcp e else None) with
  | Some err => (d, not_running, Err err)
  | None =>
      match restore_all (cf_DBs c) d with
      | (d, Err err) => (d, not_running, Err err)
      | (d, Panic m) => (d, not_running, Panic m)
      | (d, Ok _) =>
          match make_dbs (cf_DBs c) with
          | Err err => (d, not_running, Err err)
          | Panic m => (d, not_running, Panic m)
          | Ok (dbs, watch) =>
              let levels := Config_CompactionLevels c in
              let s := apply_config c NewStore_settings in
              let s := if cm_once cmd then once_settings s else s in
              let rdbs := if cm_once cmd then quiet_db <$> dbs else (fun db => (db, true)) <$> dbs in
              match Store_Open (fun x => re_open e x.1) (re_skipped e) (re_first e) levels s rdbs with
              | (l, Err err) => (d, mkRunning s rdbs l [] [] ActWait, Err (EWrap "cannot open store" err))
              | (l, Panic m) => (d, mkRunning s rdbs l [] [] ActWait, Panic m)
              | (l, Ok tasks) =>
                  match start_monitors e 0 watch [] with
                  | Err err => (d, mkRunning s rdbs (repeat false (length rdbs)) [] [] ActWait, Err err)
                  | Panic m => (d, mkRunning s rdbs l tasks [] ActWait, Panic m)
                  | Ok mons =>
                      match start_action e cmd with
                      | Err err => (d, mkRunning s rdbs l tasks mons ActWait, Err err)
                      | Panic m => (d, mkRunning s rdbs l tasks mons ActWait, Panic m)
                      | Ok a => (d, mkRunning s rdbs l tasks mons a, Ok ())
                      end
                  end
              end
          end
      end
  end.

(** *** Restoring missing databases *)

(** The backup of a replica, if it has one. *)
Variable backup : replica -> option (list byte).
Definition tmp_path (p : str) : str := p ++ lit ".tmp".

(** What [Replica.Restore] promises: the output file is the backup, a failure leaves no output file, and that no transaction is
    available means there is no backup; other files are not touched. *)
Class RestoreLaws := {
  restore_output r p d d' : d !! p = None -> Restore r p d = (d', Ok ()) -> exists b, backup r = Some b /\ d' !! p = Some b;
  restore_failed r p d d' err : d !! p = None -> Restore r p d = (d', Err err) -> d' !! p = None;
  restore_no_backup r p d d' err : Restore r p d = (d', Err err) -> errors_Is err ErrTxNotAvailable = true -> backup r = None;
  restore_frame r p d d' x q : Restore r p d = (d', x) -> q <> p -> q <> tmp_path p -> d' !! q = d !! q;
  restore_panics r p d d' m : Restore r p d <> (d', Panic m)
}.
Context `{HRL : !RestoreLaws}.
Hypothesis stat_fault_other : forall p err, stat_fault p = Some err -> os_IsNotExist err = false.

(** A database that [restoreIfNeeded] is asked for: its path, and that it is not the temporary file of another. *)
Definition db_at (dbc : DBConfig) (p : str) : Prop := expand cwd home (dc_Path dbc) = Ok p.
Definition not_temporary (dbcs : list DBConfig) (q : str) : Prop := forall dbc p, dbc ∈ dbcs -> db_at dbc p -> q <> tmp_path p.
Definition wanted (dbc : DBConfig) : bool := dc_RestoreIfDBNotExists dbc && nonempty (dc_Path dbc).
(** The backup that the configuration of a database names. *)
Definition configured_backup (dbc : DBConfig) (b : option (list byte)) : Prop :=
  exists rc r, restore_config dbc = Some rc /\ NewReplica rc = Ok r /\ backup r = b.

(** One database: what was there stays; the database is there afterwards unless there is no backup or its state is unknown. *)
Lemma restoreIfNeeded_spec dbc p d d' x : db_at dbc p -> restoreIfNeeded dbc d = (d', x) ->
  (forall q b, q <> tmp_path p -> d !! q = Some b -> d' !! q = Some b) /\
  (forall q b, q <> tmp_path p -> d' !! q = Some b -> d !! q = Some b \/ (q = p /\ configured_backup dbc (Some b))) /\
  (x = Ok () -> stat_fault p = None -> is_Some (d' !! p) \/ configured_backup dbc None).
Proof.
  unfold db_at, restoreIfNeeded, os_Stat. intros Hp. rewrite Hp.
  destruct (stat_fault p) as [err|] eqn:Ef.
  { rewrite (stat_fault_other _ _ Ef). cbn. intros [= <- <-]. split_and!; [done|by left|done]. }
  destruct (d !! p) as [b0|] eqn:Ed; cbn [negb].
  { intros [= <- <-]. split_and!; [done|by left|]. left. by rewrite Ed. }
  replace (negb (os_IsNotExist (EPath "stat" ErrNotExist))) with false by reflexivity.
  destruct (restore_config dbc) as [rc|] eqn:Er; [|intros [= <- <-]; split_and!; [done|by left|done]].
  destruct (NewReplica rc) as [r|err|m] eqn:En; [|intros [= <- <-]; split_and!; [done|by left|done]..].
  destruct (Restore r p d) as [d1 [u|err|m]] eqn:ER; [| |exfalso; by eapply restore_panics].
  - destruct u. intros [= <- <-]. destruct (restore_output _ _ _ _ Ed ER) as (b & Hb & H1). split_and!.
    + intros q b' Hq H. rewrite (restore_frame _ _ _ _ _ _ ER); [done|congruence|done].
    + intros q b' Hq H. destruct (decide (q = p)) as [->|Hne].
      * right. split; [done|]. exists rc, r. split_and!; [done..|congruence].
      * left. by rewrite <- (restore_frame _ _ _ _ _ _ ER).
    + left. by rewrite H1.
  - assert (Hd1 : d1 !! p = None) by exact (restore_failed _ _ _ _ _ Ed ER).
    assert (F : (forall q b, q <> tmp_path p -> d !! q = Some b -> d1 !! q = Some b) /\
      (forall q b, q <> tmp_path p -> d1 !! q = Some b -> d !! q = Some b \/ (q = p /\ configured_backup dbc (Some b)))).
    { split; intros q b Hq H; (destruct (decide (q = p)) as [->|Hne]; [congruence|]).
      - by rewrite (restore_frame _ _ _ _ _ _ ER).
      - left. by rewrite <- (restore_frame _ _ _ _ _ _ ER). }
    destruct F as [F1 F2]. destruct (errors_Is err ErrTxNotAvailable) eqn:Ee; intros [= <- <-]; (split; [exact F1|]); (split; [exact F2|]); intros [=] _.
    right. exists rc, r. split_and!; [done..|]. exact (restore_no_backup _ _ _ _ _ ER Ee).
Qed.
Lemma restoreIfNeeded_expands dbc d d' : restoreIfNeeded dbc d = (d', Ok ()) -> exists p, db_at dbc p.
Proof. unfold restoreIfNeeded, db_at. destruct (expand cwd home (dc_Path dbc)) as [p|err|m]; [by exists p|done..]. Qed.
Lemma restoreIfNeeded_no_path dbc d d' x : restoreIfNeeded dbc d = (d', x) -> (exists p, db_at dbc p) \/ d' = d.
Proof. unfold restoreIfNeeded, db_at. destruct (expand cwd home (dc_Path dbc)) as [p|err|m]; [left; by exists p|intros [= <- _]; by right..]. Qed.

Lemma not_temporary_cons dbc dbcs q : not_temporary (dbc :: dbcs) q -> not_temporary dbcs q.
Proof. intros H x p Hx. apply H. by right. Qed.
Lemma restoreIfNeeded_keeps dbc dbcs d d' x q b : restoreIfNeeded dbc d = (d', x) -> not_temporary (dbc :: dbcs) q ->
  d !! q = Some b -> d' !! q = Some b.
Proof.
  intros H Hq Hb. destruct (restoreIfNeeded_no_path _ _ _ _ H) as [(p & Hp) | ->]; [|done].
  eapply restoreIfNeeded_spec; [exact Hp|exact H| |exact Hb]. eapply Hq; [left|exact Hp].
Qed.
(** No database that is there is changed, whether the restores succeed or fail. *)
Lemma restore_all_keeps dbcs d d' x q b : restore_all dbcs d = (d', x) -> not_temporary dbcs q -> d !! q = Some b -> d' !! q = Some b.
Proof.
  revert d. induction dbcs as [|dbc dbcs IH]; intros d; cbn [restore_all]; [intros [= <- _]; done|].
  intros H Hq Hb. pose proof (not_temporary_cons _ _ _ Hq) as Hq'.
  destruct (dc_RestoreIfDBNotExists dbc && nonempty (dc_Path dbc)) eqn:Ew; [|by eapply IH].
  destruct (restoreIfNeeded dbc d) as [d1 y] eqn:E. pose proof (restoreIfNeeded_keeps _ dbcs _ _ _ _ _ E Hq Hb) as H1.
  destruct y as [u|err|m]; [by eapply IH|injection H as <- _; done..].
Qed.
(** What is there afterwards was there, or is the backup of a database of that path. *)
Lemma restore_all_source dbcs d d' x q b : restore_all dbcs d = (d', x) -> not_temporary dbcs q -> d' !! q = Some b ->
  d !! q = Some b \/ exists dbc, dbc ∈ dbcs /\ wanted dbc = true /\ db_at dbc q /\ configured_backup dbc (Some b).
Proof.
  revert d. induction dbcs as [|dbc dbcs IH]; intros d; cbn [restore_all]; [intros [= <- _]; by left|].
  intros H Hq Hb. pose proof (not_temporary_cons _ _ _ Hq) as Hq'.
  assert (Up : forall d0, restore_all dbcs d0 = (d', x) -> d0 !! q = Some b \/
    exists y, y ∈ dbc :: dbcs /\ wanted y = true /\ db_at y q /\ configured_backup y (Some b)).
  { intros d0 H0. destruct (IH _ H0 Hq' Hb) as [?|(y & Hy & ?)]; [by left|]. right. exists y. split; [by right|done]. }
  destruct (dc_RestoreIfDBNotExists dbc && nonempty (dc_Path dbc)) eqn:Ew; [|by apply Up].
  destruct (restoreIfNeeded dbc d) as [d1 y] eqn:E.
  assert (One : d1 !! q = Some b -> d !! q = Some b \/ exists y, y ∈ dbc :: dbcs /\ wanted y = true /\ db_at y q /\ configured_backup y (Some b)).
  { intros H1. destruct (restoreIfNeeded_no_path _ _ _ _ E) as [(p & Hp) | ->]; [|by left].
    destruct (restoreIfNeeded_spec _ _ _ _ _ Hp E) as (_ & H2 & _).
    destruct (H2 q b) as [?|[-> ?]]; [eapply Hq; [left|exact Hp]|done|by left|]. right. exists dbc. split_and!; [left|done..]. }
  destruct y as [u|err|m]; [|injection H as <- _; by apply One..]. destruct (Up _ H) as [?|?]; [by apply One|by right].
Qed.
(** Once the restores have succeeded, each database that was asked for is there, or there is no backup. *)
Lemma restore_all_present dbcs d d' dbc p : restore_all dbcs d = (d', Ok ()) -> dbc ∈ dbcs -> wanted dbc = true -> db_at dbc p ->
  stat_fault p = None -> not_temporary dbcs p -> is_Some (d' !! p) \/ configured_backup dbc None.
Proof.
  revert d. induction dbcs as [|y dbcs IH]; intros d; cbn [restore_all]; [intros _ []%elem_of_nil|].
  intros H Hin Hw Hp Hf Hq. pose proof (not_temporary_cons _ _ _ Hq) as Hq'.
  apply elem_of_cons in Hin as [<-|Hin].
  - unfold wanted in Hw. rewrite Hw in H. destruct (restoreIfNeeded dbc d) as [d1 [[]|err|m]] eqn:E; [|done..].
    destruct (restoreIfNeeded_spec _ _ _ _ _ Hp E) as (_ & _ & H3). destruct (H3 eq_refl Hf) as [[b Hb]|?]; [|by right].
    left. exists b. by eapply restore_all_keeps.
  - destruct (dc_RestoreIfDBNotExists y && nonempty (dc_Path y)); [|by eapply IH].
    destruct (restoreIfNeeded y d) as [d1 [[]|err|m]] eqn:E; [by eapply IH|done..].
Qed.

(** *** What is running *)

Lemma no_errors_open (rs : list (option error)) :
  omap id rs = [] -> (fun r => match r with None => true | Some _ => false end) <$> rs = repeat true (length rs).
Proof. induction rs as [|[err|] rs IH]; cbn; [done|done|]. intros H. by rewrite IH. Qed.
Lemma open_group_ok {D} (open : D -> option error) skipped first dbs l :
  open_group open skipped first dbs = (l, None) -> l = repeat true (length dbs).
Proof.
  unfold open_group. set (rs := imap _ dbs). destruct (omap id rs) eqn:E; [|done]. intros [= <-].
  rewrite no_errors_open by done. subst rs. by rewrite length_imap.
Qed.
Lemma Store_Open_ok {D} (open : D -> option error) skipped first levels s dbs l ts :
  Store_Open open skipped first levels s dbs = (l, Ok ts) -> l = repeat true (length dbs) /\ ts = store_tasks levels s /\ Validate levels = Ok ().
Proof.
  unfold Store_Open. destruct (Validate levels) as [[]|err|m]; [|done..].
  destruct (open_group open skipped first dbs) as [l' [err|]] eqn:E; [done|]. intros [= <- <-]. by rewrite (open_group_ok _ _ _ _ _ E).
Qed.
Lemma start_monitors_ok e n watch started mons :
  start_monitors e n watch started = Ok mons -> mons = started ++ ((fun x => dc_Dir x.1) <$> watch).
Proof.
  revert n started. induction watch as [|[dbc dbs] watch IH]; intros n started; cbn; [intros [= <-]; by rewrite app_nil_r|].
  destruct (re_monitor e n); [done|]. intros H. apply IH in H. by rewrite H, <- app_assoc.
Qed.
(** A one-shot store compacts nothing and takes no snapshots of its own. *)
Lemma once_tasks levels s t : t ∈ store_tasks levels (once_settings s) -> t = THeartbeats \/ t = TValidation.
Proof.
  unfold store_tasks. cbn. rewrite andb_false_r. cbn. rewrite elem_of_app.
  intros [H|H]; [left; destruct (heartbeat_needed _)|right; destruct (0 <? _)]; by apply list_elem_of_singleton in H || apply elem_of_nil in H.
Qed.

Lemma Run_disk e mcp cmd d d' rn x : Run e mcp cmd d = (d', rn, x) ->
  (d' = d /\ exists err, x = Err err) \/ exists y, restore_all (cf_DBs (cm_Config cmd)) d = (d', y) /\ (x = Ok () -> y = Ok ()).
Proof.
  unfold Run. destruct (if mcp then re_mcp e else None) as [err|]; [intros [= <- <- <-]; left; by split; [|exists err]|].
  destruct (restore_all (cf_DBs (cm_Config cmd)) d) as [d1 [[]|err|m]]; [|intros [= <- <- <-]; right; by eexists..].
  intros H. right. exists (Ok ()). split; [|done]. repeat case_match; by injection H as <- <- <-.
Qed.
(** Starting the command never changes a database that is there, whether it starts or fails; a database file that appears is the
    backup of a replica the configuration gives for that path; and once it has started, every database to be restored is there
    unless its replica has no backup. *)
Theorem start_keeps_databases e mcp cmd d d' rn x q : Run e mcp cmd d = (d', rn, x) -> not_temporary (cf_DBs (cm_Config cmd)) q ->
  (forall b, d !! q = Some b -> d' !! q = Some b) /\
  (forall b, d' !! q = Some b -> d !! q = Some b \/
     exists dbc, dbc ∈ cf_DBs (cm_Config cmd) /\ wanted dbc = true /\ db_at dbc q /\ configured_backup dbc (Some b)) /\
  (x = Ok () -> forall dbc, dbc ∈ cf_DBs (cm_Config cmd) -> wanted dbc = true -> db_at dbc q -> stat_fault q = None ->
     is_Some (d' !! q) \/ configured_backup dbc None).
Proof.
  intros H Hq. destruct (Run_disk _ _ _ _ _ _ _ H) as [(-> & err & ->)|(y & Hy & Hok)]; [split_and!; [done|by left|done]|]. split_and!.
  - intros b. by eapply restore_all_keeps.
  - intros b. by eapply restore_all_source.
  - intros Hx dbc Hd Hw Hp Hf. rewrite (Hok Hx) in Hy. by eapply restore_all_present.
Qed.

(** A command that has started has every database of its configuration open, watches every directory to be watched, and runs the tasks
    of its settings; a one-shot command has none of them that compacts, snapshots or syncs. *)
Theorem Run_started e mcp cmd d d' rn : Run e mcp cmd d = (d', rn, Ok ()) -> exists dbs watch,
  make_dbs (cf_DBs (cm_Config cmd)) = Ok (dbs, watch) /\ rn_open rn = repeat true (length dbs) /\
  rn_monitors rn = (fun x => dc_Dir x.1) <$> watch /\
  rn_tasks rn = store_tasks (Config_CompactionLevels (cm_Config cmd)) (rn_settings rn) /\
  (cm_once cmd = false -> rn_dbs rn = (fun db => (db, true)) <$> dbs /\ rn_settings rn = apply_config (cm_Config cmd) NewStore_settings) /\
  (cm_once cmd = true -> rn_dbs rn = quiet_db <$> dbs /\ forall t, t ∈ rn_tasks rn -> t = THeartbeats \/ t = TValidation).
Proof.
  unfold Run. destruct (if mcp then re_mcp e else None); [done|].
  destruct (restore_all (cf_DBs (cm_Config cmd)) d) as [d1 [[]|err|m]]; [|done..].
  destruct (make_dbs (cf_DBs (cm_Config cmd))) as [[dbs watch]|err|m]; [|done..]. cbv zeta.
  set (s := if cm_once cmd then _ else _). set (rdbs := if cm_once cmd then _ else _).
  destruct (Store_Open _ _ _ _ _) as [l [ts|err|m]] eqn:Eo; [|done..].
  destruct (start_monitors e 0 watch []) as [mons|err|m] eqn:Em; [|done..].
  destruct (start_action e cmd) as [a|err|m]; [|done..]. intros [= <- <-]. cbn.
  apply Store_Open_ok in Eo as (-> & -> & _). apply start_monitors_ok in Em as ->. exists dbs, watch. split_and!; try done.
  - replace (length rdbs) with (length dbs); [done|]. subst rdbs. by destruct (cm_once cmd); rewrite length_fmap.
  - intros Ho. subst rdbs s. rewrite Ho. by split.
  - intros Ho. subst rdbs s. rewrite Ho. split; [done|]. intros t. apply once_tasks.
Qed.
(** A start that fails leaves no database open and no task running, except for databases that were open when another could not be
    opened, and after an address or a subprocess that is wrong: then the whole store stays open. *)
Theorem Run_failed e mcp cmd d d' rn err : Run e mcp cmd d = (d', rn, Err err) ->
  rn_tasks rn = [] /\ rn_monitors rn = [] /\ (Forall (eq false) (rn_open rn) \/ exists err0, err = EWrap "cannot open store" err0) \/
  start_action e cmd = Err err.
Proof.
  unfold Run. destruct (if mcp then re_mcp e else None); [intros [= <- <- <-]; left; split_and!; [done..|by left]|].
  destruct (restore_all (cf_DBs (cm_Config cmd)) d) as [d1 [[]|e1|m]]; [|intros [= <- <- <-]; left; split_and!; [done..|by left]|done].
  destruct (make_dbs (cf_DBs (cm_Config cmd))) as [[dbs watch]|e1|m]; [|intros [= <- <- <-]; left; split_and!; [done..|by left]|done]. cbv zeta.
  destruct (Store_Open _ _ _ _ _) as [l [ts|e1|m]]; [|intros [= <- <- <-]; left; split_and!; [done..|right; by eexists]|done].
  destruct (start_monitors e 0 watch []) as [mons|e1|m]; [|intros [= <- <- <-]; left; split_and!; [done..|left]|done].
  - destruct (start_action e cmd) as [a|e1|m]; [done| |done]. intros [= <- <- <-]. by right.
  - apply Forall_forall. intros b Hb%list_elem_of_In. by apply repeat_spec in Hb.
Qed.
End Run.

(** ** Replicating once *)

Section RunOnce.
Context {D St : Type}.
(** What the store and its databases do: [DB.Sync], [Replica.Sync], [DB.Snapshot] and [Store.EnforceSnapshotRetention]. *)
Variables Sync ReplicaSync Snapshot EnforceSnapshotRetention : D -> St -> St * option error.

(** A step that stops at an error, which it wraps. *)
Definition then_step (op : St -> St * option error) (msg : string) (rest : St -> St * option error) (st : St) : St * option error :=
  match op st with (st, Some err) => (st, Some (EWrap msg err)) | (st, None) => rest st end.
Definition only_if (b : bool) (op : St -> St * option error) (st : St) : St * option error := if b then op st else (st, None).
Fixpoint runOnce (forceSnapshot enforceRetention : bool) (dbs : list D) : St -> St * option error :=
  match dbs with
  | [] => fun st => (st, None)
  | db :: dbs =>
      then_step (Sync db) "sync database" (
      then_step (ReplicaSync db) "sync replica" (
      then_step (only_if forceSnapshot (Snapshot db)) "snapshot" (
      then_step (only_if enforceRetention (EnforceSnapshotRetention db)) "enforce retention" (runOnce forceSnapshot enforceRetention dbs))))
  end.

(** What a database promises to the command: a sync followed by a sync of the replica leaves every change on the replica; a snapshot is
    there once it has been taken; and no operation takes from another database what it has. *)
Variables synced replicated snapshotted : D -> St -> Prop.
Definition foreign (op : D -> St -> St * option error) (P : D -> St -> Prop) : Prop :=
  forall db db' st, db <> db' -> P db st -> P db (op db' st).1.
Class OnceLaws := {
  sync_synced db st st' : Sync db st = (st', None) -> synced db st';
  replica_sync_done db st st' : synced db st -> ReplicaSync db st = (st', None) -> replicated db st';
  snapshot_taken db st st' : replicated db st -> Snapshot db st = (st', None) -> replicated db st' /\ snapshotted db st';
  retention_keeps db st : replicated db st -> replicated db (EnforceSnapshotRetention db st).1;
  retention_keeps_snapshot db st : snapshotted db st -> snapshotted db (EnforceSnapshotRetention db st).1;
  foreign_replicated op : op ∈ [Sync; ReplicaSync; Snapshot; EnforceSnapshotRetention] -> foreign op replicated;
  foreign_snapshotted op : op ∈ [Sync; ReplicaSync; Snapshot; EnforceSnapshotRetention] -> foreign op snapshotted
}.
Context `{HOL : !OnceLaws}.

Lemma then_step_ok op msg rest st st' : then_step op msg rest st = (st', None) -> exists st1, op st = (st1, None) /\ rest st1 = (st', None).
Proof. unfold then_step. destruct (op st) as [st1 [err|]]; [done|]. by exists st1. Qed.
Lemma only_if_result b op st st' e : only_if b op st = (st', e) -> op st = (st', e) \/ (b = false /\ st' = st).
Proof. destruct b; cbn; [by left|]. intros [= <- _]. by right. Qed.
(** A property of one database that no operation of the others takes away survives the turns of the others. *)
Lemma runOnce_foreign (P : D -> St -> Prop) f r dbs db st st' :
  (forall op, op ∈ [Sync; ReplicaSync; Snapshot; EnforceSnapshotRetention] -> foreign op P) ->
  db ∉ dbs -> P db st -> runOnce f r dbs st = (st', None) -> P db st'.
Proof.
  intros HF. revert st. induction dbs as [|db' dbs IH]; intros st; cbn [runOnce]; [by intros _ ? [= <-]|].
  intros [Hne Hin]%not_elem_of_cons HP (s1 & H1 & (s2 & H2 & (s3 & H3 & (s4 & H4 & H5)%then_step_ok)%then_step_ok)%then_step_ok)%then_step_ok.
  assert (K : forall op st0 st1, op ∈ [Sync; ReplicaSync; Snapshot; EnforceSnapshotRetention] -> op db' st0 = (st1, None) -> P db st0 -> P db st1).
  { intros op st0 st1 Ho E HP0. pose proof (HF _ Ho db db' st0 Hne HP0) as H. by rewrite E in H. }
  assert (P2 : P db s2) by (eapply K; [|exact H2|eapply K; [|exact H1|exact HP]]; set_solver).
  assert (P3 : P db s3) by (apply only_if_result in H3 as [H3|[_ ->]]; [eapply K; [|exact H3|done]; set_solver|done]).
  apply (IH s4); [done| |done]. apply only_if_result in H4 as [H4|[_ ->]]; [eapply K; [|exact H4|done]; set_solver|done].
Qed.
(** A database after its turn. *)
Lemma runOnce_turn f r db dbs st st' : runOnce f r (db :: dbs) st = (st', None) ->
  exists st1, replicated db st1 /\ (f = true -> snapshotted db st1) /\ runOnce f r dbs st1 = (st', None).
Proof.
  cbn [runOnce]. intros (s1 & H1 & (s2 & H2 & (s3 & H3 & (s4 & H4 & H5)%then_step_ok)%then_step_ok)%then_step_ok)%then_step_ok.
  pose proof (replica_sync_done _ _ _ (sync_synced _ _ _ H1) H2) as R2.
  assert (R3 : replicated db s3 /\ (f = true -> snapshotted db s3)).
  { apply only_if_result in H3 as [H3|[-> ->]]; [|by split]. destruct (snapshot_taken _ _ _ R2 H3). by split. }
  destruct R3 as [R3 S3]. exists s4. apply only_if_result in H4 as [H4|[_ ->]]; [|by split_and!].
  pose proof (retention_keeps _ _ R3) as R4. rewrite H4 in R4. split_and!; [done| |done].
  intros Hf. pose proof (retention_keeps_snapshot _ _ (S3 Hf)) as S4. by rewrite H4 in S4.
Qed.
(** One-shot replication that ends without an error has put every change of every database on its replica, and taken a snapshot of each
    when asked to. *)
Theorem runOnce_replicates f r dbs st st' : NoDup dbs -> runOnce f r dbs st = (st', None) ->
  Forall (fun db => replicated db st' /\ (f = true -> snapshotted db st')) dbs.
Proof.
  intros Hn. revert st. induction Hn as [|db dbs Hin _ IH]; intros st H; [constructor|].
  destruct (runOnce_turn _ _ _ _ _ _ H) as (st1 & R & S & H1). constructor; [|by eapply IH]. split.
  - eapply runOnce_foreign; [exact foreign_replicated|done|exact R|exact H1].
  - intros Hf. eapply runOnce_foreign; [exact foreign_snapshotted|done|exact (S Hf)|exact H1].
Qed.
(** It stops at the first database that fails: those before it are replicated. *)
Theorem runOnce_stops f r dbs st st' err : NoDup dbs -> runOnce f r dbs st = (st', Some err) ->
  exists before db after st1, dbs = before ++ db :: after /\ runOnce f r before st = (st1, None) /\
    Forall (fun db => replicated db st1) before /\ runOnce f r [db] st1 = (st', Some err).
Proof.
  intros Hn H. assert (G : exists before db after st1, dbs = before ++ db :: after /\ runOnce f r before st = (st1, None) /\ runOnce f r [db] st1 = (st', Some err)).
  { clear Hn. revert st H. induction dbs as [|db dbs IH]; intros st; [done|]. intros H.
    assert (T : runOnce f r [db] st = (st', Some err) \/ exists st1, runOnce f r [db] st = (st1, None) /\ runOnce f r dbs st1 = (st', Some err)).
    { cbn [runOnce] in *. unfold then_step in *. repeat (case_match; simplify_eq; try (by left)). right. by eexists. }
    destruct T as [T|(st1 & T1 & T2)]; [by exists [], db, dbs, st|].
    destruct (IH _ T2) as (b & y & a & st2 & -> & H1 & H2). exists (db :: b), y, a, st2. split_and!; [done| |done].
    cbn [runOnce] in *. unfold then_step in *. repeat (case_match; simplify_eq; try done). }
  destruct G as (b & y & a & st1 & -> & H1 & H2). exists b, y, a, st1. split_and!; [done..| |done].
  apply NoDup_app in Hn as [Hn _]. eapply Forall_impl; [exact (runOnce_replicates _ _ _ _ _ Hn H1)|]. by intros x [].
Qed.
End RunOnce.

(** ** The process *)

(** What [Main.Run] runs for the name of a command. *)
Inductive program := PDatabases | PReplicate | PStart | PStop | PRegister | PUnregister | PReset | PRestore | PStatus | PSync | PList | PInfo | PVersion
  | PLTX | PHelp | PUnknown.
Definition Main_command (args : list str) : program :=
  let cmd := default [] (head args) in
  let named s := bool_decide (cmd = lit s) in
  if named "databases" then PDatabases else if named "replicate" then PReplicate else if named "start" then PStart else if named "stop" then PStop
  else if named "register" then PRegister else if named "unregister" then PUnregister else if named "reset" then PReset else if named "restore" then PRestore
  else if named "status" then PStatus else if named "sync" then PSync else if named "list" then PList else if named "info" then PInfo
  else if named "version" then PVersion else if named "ltx" then PLTX else if named "wal" then PLTX
  else if named "" || named "help" || HasPrefix cmd (lit "-") then PHelp else PUnknown.

(** What ends the wait of a running command: its subprocess or the one-shot replication ends, or a signal arrives. *)
Inductive ending := EndDone (err : option error) | EndSignal.
(** What happens to a subprocess that is signalled: whether it can be, and how it exits. *)
Record Child := mkChild { ch_signal : option error; ch_wait : option error; ch_killed : error -> bool }.

(** [Close] of the command: its monitors and its store are closed; an error of the store is logged and not returned. *)
Inductive log_level := LogWarn | LogError.
Definition Close {replica} (store_close : option error) (rn : @Running replica) : @Running replica * option log_level * option error :=
  (mkRunning (rn_settings rn) (rn_dbs rn) (repeat false (length (rn_open rn))) [] [] (rn_action rn),
   match store_close with
   | Some err => Some (if errors_Is err ErrShutdownInterrupted then LogWarn else LogError)
   | None => None
   end, None).
(** The end of [Main.Run] for a command that runs. *)
Definition Main_wait {replica} (child : Child) (store_close : option error) (ev : ending) (rn : @Running replica) : @Running replica * option error :=
  let close err := let '(rn, _, e) := Close store_close rn in (rn, match err with None => e | Some _ => err end) in
  match ev, rn_action rn with
  | EndDone err, _ => close err
  | EndSignal, ActExec _ =>
      match ch_signal child with
      | Some err => (rn, Some (EWrap "cannot signal exec process" err))
      | None =>
          match ch_wait child with
          | Some err => if ch_killed child err then close None else (rn, Some (EWrap "cannot wait for exec process" err))
          | None => close None
          end
      end
  | EndSignal, _ => close None
  end.

Definition closed {replica} (rn : @Running replica) : Prop := Forall (eq false) (rn_open rn) /\ rn_tasks rn = [] /\ rn_monitors rn = [].
Lemma Close_closed {replica} store_close (rn : @Running replica) : closed (Close store_close rn).1.1.
Proof. split_and!; [|done..]. apply Forall_forall. intros b Hb%list_elem_of_In. by apply repeat_spec in Hb. Qed.
(** A command without a subprocess always closes its store before the process ends, and ends with the error of its one-shot run; with a
    subprocess it does unless the signal cannot be delivered or the subprocess fails. *)
Theorem Main_wait_closes {replica} child store_close ev (rn : @Running replica) :
  match rn_action rn with ActExec _ => ev = EndSignal -> ch_signal child = None /\ forall err, ch_wait child = Some err -> ch_killed child err = true | _ => True end ->
  closed (Main_wait child store_close ev rn).1 /\ (Main_wait child store_close ev rn).2 = match ev with EndDone err => err | EndSignal => None end.
Proof.
  unfold Main_wait. intros H. pose proof (Close_closed store_close rn) as C.
  destruct ev as [[err|]|]; [by split..|]. destruct (rn_action rn) as [argv| |]; [|by split..].
  destruct (H eq_refl) as [-> W]. destruct (ch_wait child) as [err|]; [rewrite (W err eq_refl)|]; by split.
Qed.
(** Any other command names exactly one program, and a name that none has is refused. *)
Theorem Main_command_known args :
  Main_command (lit "wal" :: args) = Main_command (lit "ltx" :: args) /\ Main_command [] = PHelp /\
  Main_command (lit "replicate" :: args) = PReplicate /\ Main_command (lit "frob" :: args) = PUnknown.
Proof. by split_and!. Qed.

(** ** Examples *)

Module CommandDemo.
Definition rc (u : string) : ReplicaConfig := mkReplicaConfig (sync_settings 1) [] [] [] (lit u).
Definition dbc (path : string) (urls : list string) : DBConfig :=
  mkDBConfig (lit path) [] [] false false None None None None None None true None (rc <$> urls).
Definition cfg (dbs : list DBConfig) : Config := set_DBs dbs DefaultConfig.
Definition new_replica (c : ReplicaConfig) : result str := Ok (rc_URL c).
Definition backup (u : str) : option (list byte) := if bool_decide (u = lit "file:///new") then None else Some [x61].
Definition restore (u : str) (p : str) (d : gmap str (list byte)) : gmap str (list byte) * result () :=
  match backup u with Some b => (<[p := b]> d, Ok ()) | None => (d, Err ErrTxNotAvailable) end.
Definition no_fault (_ : str) : option error := None.
Definition cwd : result str := Ok (lit "/data").
Definition env : @RunEnv str := mkRunEnv None (fun _ => None) (fun _ => false) 0 (fun _ => None) [] (fun a => (a, [])) (fun s => Ok []) (fun _ => None).
Definition cmd (dbs : list DBConfig) : Command := mkCommand (cfg dbs) [] true false false.
Definition start := @Run str (fun _ => Err (EMsg "url")) (fun _ => []) cwd cwd new_replica (fun _ => NBad (EMsg "none")) no_fault restore.
Lemma restore_laws : RestoreLaws restore backup.
Proof.
  unfold restore. split.
  - intros r p d d' _. destruct (backup r) as [b|]; [|done]. intros [= <-]. exists b. by rewrite lookup_insert_eq.
  - intros r p d d' err Hd. destruct (backup r); [done|]. by intros [= <- _].
  - intros r p d d' err. by destruct (backup r).
  - intros r p d d' x q. destruct (backup r); intros [= <- _]; [intros Hne _; by rewrite lookup_insert_ne|done].
  - intros r p d d' m. by destruct (backup r).
Qed.
Definition disk0 : gmap str (list byte) := {[lit "/data/kept" := [x62]]}.
Definition dbs : list DBConfig := [dbc "/data/kept" ["file:///old"]; dbc "/data/lost" ["file:///old"]; dbc "/data/fresh" ["file:///new"]].
End CommandDemo.

Example start_demo : let '(d, rn, x) := CommandDemo.start CommandDemo.env false (CommandDemo.cmd CommandDemo.dbs) CommandDemo.disk0 in
  x = Ok () /\ d !! lit "/data/kept" = Some [x62] /\ d !! lit "/data/lost" = Some [x61] /\ d !! lit "/data/fresh" = None /\ rn_open rn = [true; true; true] /\ rn_tasks rn = [] /\
  rn_action rn = ActOnce.
Proof. vm_compute. by split_and!. Qed.
(** The theorem at a start that keeps a database, restores one, and finds no backup of a third. *)
Lemma start_keeps_databases_witness :
  (CommandDemo.start CommandDemo.env false (CommandDemo.cmd CommandDemo.dbs) CommandDemo.disk0).1.1 !! lit "/data/kept" = Some [x62].
Proof.
  destruct (CommandDemo.start CommandDemo.env false (CommandDemo.cmd CommandDemo.dbs) CommandDemo.disk0) as [[d rn] x] eqn:E.
  refine (proj1 (start_keeps_databases _ _ _ _ _ _ _ CommandDemo.restore CommandDemo.backup (HRL := CommandDemo.restore_laws) _ _ _ _ _ _ _ _ (lit "/data/kept") E _) [x62] _).
  - done.
  - intros dbc p Hin Hp Heq. apply list_elem_of_In in Hin. cbn in Hin.
    destruct Hin as [<-|[<-|[<-|[]]]]; vm_compute in Hp; injection Hp as <-; vm_compute in Heq; discriminate Heq.
  - vm_compute. reflexivity.
Defined.

(** *** Findings *)

(** One-shot replication is to disable all background monitors; validation and heartbeats stay. *)
Definition monitored_config : Config :=
  mkConf (cf_Settings DefaultConfig) (cf_Levels DefaultConfig) None None (Some Hour) None None false None (lit "http://ping") None [] [] None None.
Example once_keeps_tasks :
  store_tasks (Config_CompactionLevels monitored_config) (once_settings (apply_config monitored_config NewStore_settings)) = [THeartbeats; TValidation].
Proof. by vm_compute. Qed.
(** Several replica URLs, as the usage has them, are parsed and then refused. *)
Example several_urls_refused :
  exists c, ParseFlags (fun _ _ => Err (EMsg "none")) [] 1 (mkFlags [] false true false false [] false [lit "/data/db"; lit "file:///a"; lit "file:///b"]) = Ok c /\
    (CommandDemo.start CommandDemo.env false c ∅).2 = Err (EMsg "multiple replicas on a single database are no longer supported").
Proof. eexists. split; [by vm_compute|]. by vm_compute. Qed.
(** A blank command for the subprocess passes the flags and then panics. *)
Definition blank_exec : Flags := mkFlags (lit " ") false false false false [] false [lit "/data/db"; lit "file:///a"].
Example blank_exec_panics :
  exists c m, ParseFlags (fun _ _ => Err (EMsg "none")) [] 1 blank_exec = Ok c /\ (CommandDemo.start CommandDemo.env false c ∅).2 = Panic m.
Proof. eexists _, _. split; [by vm_compute|]. by vm_compute. Qed.
(** A subprocess that cannot be started ends the command with its databases open: they are not closed or synced. *)
Example failed_exec_leaves_open :
  exists c, ParseFlags (fun _ _ => Err (EMsg "none")) [] 1 blank_exec = Ok c /\
    let e := mkRunEnv None (fun _ => None) (fun _ => false) 0 (fun _ => None) [] (fun a => (a, [])) (fun s => Ok [s]) (fun _ => Some (EMsg "not found")) in
    let '(_, rn, x) := CommandDemo.start e false c ∅ in x = Err (EWrap "cannot start exec command" (EMsg "not found")) /\ rn_open rn = [true].
Proof. eexists. split; [by vm_compute|]. vm_compute. by split. Qed.
(** A signal for a subprocess that has just exited ends the process without closing the store. *)
Example late_signal_skips_close (rn : @Running str) argv : rn_action rn = ActExec argv ->
  Main_wait (mkChild (Some (EMsg "os: process already finished")) None (fun _ => false)) None EndSignal rn =
    (rn, Some (EWrap "cannot signal exec process" (EMsg "os: process already finished"))).
Proof. unfold Main_wait. by intros ->. Qed.
(** A shutdown sync that fails does not reach the exit status. *)
Example failed_close_unreported (rn : @Running str) err : (Main_wait (mkChild None None (fun _ => false)) (Some err) (EndDone None) rn).2 = None.
Proof. done. Qed.
