(* ===== verification/Locks.v ===== *)
(** * The lock of a database file

    Model of src/dblock/dblock_unix.go, to which src/internal/lock_unix.go forwards: the byte ranges that SQLite uses as
    its lock, taken with [fcntl].  The system keeps, for each process and byte, the kind of lock; a request that conflicts
    waits.  Processes that apply LTX files run [LockExclusive], work, and run [Unlock], in steps that interleave with those
    of every other process.  Every lock belongs to a process, not to a thread or an open file. *)

From Stdlib Require Import ZArith Lia.
From stdpp Require Import base numbers list strings gmap relations.
From S2P Require Import Prelude.
Local Open Scope Z_scope.

Definition sqlitePendingByte : Z := 0x40000000.
Definition sqliteSharedFirst : Z := sqlitePendingByte + 2.
Definition sqliteSharedSize : Z := 510.

(** ** Record locks *)

Abbreviation pid := nat.
Inductive mode := Rd | Wr.
#[export] Instance mode_eq_dec : EqDecision mode.
Proof. solve_decision. Defined.
Inductive lock_type := F_RDLCK | F_WRLCK | F_UNLCK.
Definition mode_of (t : lock_type) : option mode := match t with F_RDLCK => Some Rd | F_WRLCK => Some Wr | F_UNLCK => None end.

(** The locks of a file. *)
Abbreviation table := (gmap (pid * Z) mode).
Definition in_range (start len b : Z) : Prop := start <= b < start + len.
#[export] Instance in_range_dec start len b : Decision (in_range start len b).
Proof. unfold in_range. apply _. Defined.

Definition set_range (T : table) (p : pid) (m : option mode) (start len : Z) : table :=
  foldr (fun b T => match m with Some m => <[(p, b) := m]> T | None => base.delete (p, b) T end) T (seqZ start len).
(** A lock waits for a lock of another process when one of them is a write lock. *)
Definition conflicts (T : table) (p : pid) (m : mode) (start len : Z) : Prop :=
  map_Exists (fun k m' => k.1 <> p /\ in_range start len k.2 /\ (m = Wr \/ m' = Wr)) T.
Definition blocked (T : table) (p : pid) (t : lock_type) (start len : Z) : bool :=
  match mode_of t with Some m => bool_decide (conflicts T p m start len) | None => false end.

(** [setLock] with [F_SETLKW]: it waits ([None]), or fails, or sets the lock. *)
Definition setLock (fault : option error) (T : table) (p : pid) (t : lock_type) (start len : Z) : option (table * result ()) :=
  match fault with
  | Some err => Some (T, Err err)
  | None => if blocked T p t start len then None else Some (set_range T p (mode_of t) start len, Ok ())
  end.

(** ** LockExclusive and Unlock *)

(** Where a process is: inside [LockExclusive], with the lock, inside [Unlock], or after either has returned an error or [Unlock] has
    returned. *)
Inductive pc := LockPending | LockShared | UndoPending (err : error) | Held | UnlockShared | UnlockPending (err1 : option error) | Returned (r : result ()).

Definition pc_step (fault : option error) (p : pid) (T : table) (c : pc) : option (table * pc) :=
  match c with
  | LockPending =>
      '(T, r) ← setLock fault T p F_WRLCK sqlitePendingByte 1;
      Some (T, match r with Ok _ => LockShared | _ => Returned r end)
  | LockShared =>
      '(T, r) ← setLock fault T p F_WRLCK sqliteSharedFirst sqliteSharedSize;
      Some (T, match r with Err err => UndoPending err | _ => Held end)
  | UndoPending err =>
      '(T, _) ← setLock fault T p F_UNLCK sqlitePendingByte 1; Some (T, Returned (Err err))
  | Held => Some (T, UnlockShared)
  | UnlockShared =>
      '(T, r) ← setLock fault T p F_UNLCK sqliteSharedFirst sqliteSharedSize;
      Some (T, UnlockPending (match r with Err err => Some err | _ => None end))
  | UnlockPending err1 =>
      '(T, r) ← setLock fault T p F_UNLCK sqlitePendingByte 1;
      Some (T, Returned (match err1 with Some err => Err err | None => r end))
  | Returned _ => Some (T, LockPending)
  end.

(** ** The system *)

(** The locks, and the processes that apply files; any other process sets its own locks as the system lets it. *)
Record sys := mkSys { sy_table : table; sy_pcs : gmap pid pc }.
Inductive sys_step : sys -> sys -> Prop :=
  | applier_step fault p c T T' c' pcs :
      pcs !! p = Some c -> pc_step fault p T c = Some (T', c') -> sys_step (mkSys T pcs) (mkSys T' (<[p := c']> pcs))
  | other_step q t start len T T' pcs :
      pcs !! q = None -> setLock None T q t start len = Some (T', Ok ()) -> sys_step (mkSys T pcs) (mkSys T' pcs).

(** Locks that exclude each other are never held together. *)
Definition compatible (T : table) : Prop :=
  forall p q b m m', p <> q -> T !! (p, b) = Some m -> T !! (q, b) = Some m' -> m = Rd /\ m' = Rd.
(** What a process has at a point. *)
Definition pending_byte (b : Z) : Prop := b = sqlitePendingByte.
Definition shared_byte (b : Z) : Prop := in_range sqliteSharedFirst sqliteSharedSize b.
Definition owned (c : pc) (b : Z) : option mode :=
  match c with
  | LockPending | Returned _ => None
  | LockShared | UndoPending _ | UnlockPending _ => if decide (b = sqlitePendingByte) then Some Wr else None
  | Held | UnlockShared => if decide (b = sqlitePendingByte) then Some Wr else if decide (in_range sqliteSharedFirst sqliteSharedSize b) then Some Wr else None
  end.
Definition owns (T : table) (p : pid) (c : pc) : Prop := forall b m, owned c b = Some m -> T !! (p, b) = Some m.
Definition lock_inv (s : sys) : Prop := compatible (sy_table s) /\ forall p c, sy_pcs s !! p = Some c -> owns (sy_table s) p c.
Definition lock_init (s : sys) : Prop := compatible (sy_table s) /\ forall p c, sy_pcs s !! p = Some c -> c = LockPending.

(** ** Setting a range *)

Lemma lookup_set_range T p m start len q b :
  set_range T p m start len !! (q, b) = if decide (q = p /\ in_range start len b) then m else T !! (q, b).
Proof.
  unfold set_range.
  assert (G : forall l, foldr (fun b T => match m with Some m => <[(p, b) := m]> T | None => base.delete (p, b) T end) T l !! (q, b)
    = if decide (q = p /\ b ∈ l) then m else T !! (q, b)).
  { induction l as [|x l IH]; cbn [foldr]; [destruct (decide _) as [[_ []%elem_of_nil]|]; done|].
    destruct (decide ((p, x) = (q, b))) as [[= <- <-]|Hne].
    - rewrite decide_True by (split; [done|left]). destruct m; cbv beta iota; [by rewrite lookup_insert_eq|by rewrite lookup_delete_eq].
    - transitivity (foldr (fun b T => match m with Some m => <[(p, b) := m]> T | None => base.delete (p, b) T end) T l !! (q, b)).
      { destruct m; cbv beta iota; [by rewrite lookup_insert_ne|by rewrite lookup_delete_ne]. }
      rewrite IH. apply decide_ext. rewrite elem_of_cons. naive_solver. }
  rewrite G. apply decide_ext. by rewrite elem_of_seqZ.
Qed.

Lemma not_conflicting T p m start len q b m' :
  ~ conflicts T p m start len -> q <> p -> in_range start len b -> T !! (q, b) = Some m' -> m = Rd /\ m' = Rd.
Proof.
  intros H Hne Hb HT. destruct m, m'; try done; exfalso; apply H; exists (q, b); eexists; split; try done; cbn; naive_solver.
Qed.

(** What [setLock] does, when it returns. *)
Lemma setLock_spec fault T p t start len T' r : setLock fault T p t start len = Some (T', r) ->
  (exists err, fault = Some err /\ r = Err err /\ T' = T) \/
  (fault = None /\ r = Ok () /\ T' = set_range T p (mode_of t) start len /\ forall m, mode_of t = Some m -> ~ conflicts T p m start len).
Proof.
  unfold setLock, blocked. destruct fault as [err|]; [intros [= <- <-]; left; by exists err|].
  destruct (mode_of t) as [m|]; [case_bool_decide as Hc; [done|]|]; intros [= <- <-]; right; split_and!; try done.
  by intros m' [= <-].
Qed.
Lemma setLock_compatible fault T p t start len T' r : compatible T -> setLock fault T p t start len = Some (T', r) -> compatible T'.
Proof.
  intros HC H. destruct (setLock_spec _ _ _ _ _ _ _ _ H) as [(err & _ & _ & ->)|(_ & _ & -> & Hn)]; [done|].
  intros p1 q1 b m m' Hne. rewrite !lookup_set_range.
  destruct (decide (p1 = p /\ _)) as [[-> Hb]|H1]; destruct (decide (q1 = p /\ _)) as [[-> Hb']|H2]; [done| | |by apply HC].
  - intros Hm HT. by eapply not_conflicting; [apply Hn| |exact Hb|exact HT].
  - intros HT Hm. destruct (not_conflicting T p m' start len p1 b m (Hn _ Hm)) as [? ?]; done.
Qed.
(** Other processes keep what they have. *)
Lemma setLock_frame fault T p t start len T' r q b : setLock fault T p t start len = Some (T', r) -> q <> p -> T' !! (q, b) = T !! (q, b).
Proof.
  intros H Hne. destruct (setLock_spec _ _ _ _ _ _ _ _ H) as [(err & _ & _ & ->)|(_ & _ & -> & _)]; [done|].
  rewrite lookup_set_range, decide_False; [done|]. by intros [? _].
Qed.

(** ** Exclusion *)

(** One step of a process: the others keep their locks, and it has what its next point says. *)
Lemma pc_step_frame fault p T c T' c' q b : pc_step fault p T c = Some (T', c') -> q <> p -> T' !! (q, b) = T !! (q, b).
Proof.
  intros H Hne. destruct c; cbn in H; try (by injection H as <- <-);
    (destruct (setLock _ _ _ _ _ _) as [[T1 r]|] eqn:E; [|done]); cbn in H; injection H as <- <-; by eapply setLock_frame.
Qed.
Lemma pc_step_compatible fault p T c T' c' : compatible T -> pc_step fault p T c = Some (T', c') -> compatible T'.
Proof.
  intros HC H. destruct c; cbn in H; try (by injection H as <- <-);
    (destruct (setLock _ _ _ _ _ _) as [[T1 r]|] eqn:E; [|done]); cbn in H; injection H as <- <-; by eapply setLock_compatible.
Qed.
(** What a range sets or leaves of the bytes of the lock. *)
Lemma pending_not_shared : ~ in_range sqliteSharedFirst sqliteSharedSize sqlitePendingByte.
Proof. unfold in_range, sqliteSharedFirst. lia. Qed.
Lemma in_pending b : in_range sqlitePendingByte 1 b <-> b = sqlitePendingByte.
Proof. unfold in_range. lia. Qed.

Ltac range_cases :=
  repeat first
    [ rewrite lookup_set_range
    | match goal with
      | |- context [decide (?P)] => destruct (decide P)
      | H : context [decide (?P)] |- _ => destruct (decide P)
      end ];
  rewrite ?in_pending in *; pose proof pending_not_shared; naive_solver.

Lemma pc_step_owns fault p T c T' c' : owns T p c -> pc_step fault p T c = Some (T', c') -> owns T' p c'.
Proof.
  intros HO H b m Hb. specialize (HO b). destruct c; cbn in H; try (injection H as <- <-; by apply HO);
    try (destruct (setLock _ _ _ _ _ _) as [[T1 r]|] eqn:E; [|done]); cbn in H; injection H as <- <-; try done;
    destruct (setLock_spec _ _ _ _ _ _ _ _ E) as [(err & _ & -> & ->)|(_ & -> & -> & _)]; cbn in *; try done; try (by apply HO); range_cases.
Qed.
Lemma lock_step_inv s s' : sys_step s s' -> lock_inv s -> lock_inv s'.
Proof.
  intros Hs [HC HO]. destruct Hs as [fault p c T T' c' pcs Hp Hc|q t start len T T' pcs Hq Hc]; cbn [sy_table sy_pcs] in *; split; cbn [sy_table sy_pcs].
  - by eapply pc_step_compatible.
  - intros q d. destruct (decide (q = p)) as [->|Hne].
    + rewrite lookup_insert_eq. intros [= <-]. eapply pc_step_owns; [|exact Hc]. by apply HO.
    + rewrite lookup_insert_ne by done. intros Hd b m Hm. rewrite (pc_step_frame _ _ _ _ _ _ q b Hc) by done. by eapply HO.
  - exact (setLock_compatible _ _ _ _ _ _ _ _ HC Hc).
  - intros p c Hp b m Hm. rewrite (setLock_frame _ _ _ _ _ _ _ _ p b Hc); [by eapply HO|]. intros ->. congruence.
Qed.
Lemma sys_inv s s' : lock_inv s -> rtc sys_step s s' -> lock_inv s'.
Proof. intros Hi H. induction H as [|x y z Hxy _ IH]; [done|]. apply IH. by eapply lock_step_inv. Qed.
Lemma init_inv s : lock_init s -> lock_inv s.
Proof. intros [HC Hp]. split; [done|]. intros p c Hc. by rewrite (Hp p c Hc). Qed.

(** C27: Whatever the other processes do and whichever calls fail, while [LockExclusive] has succeeded and [Unlock] has not begun no other
    process has any lock on the pending byte or on a byte of the shared range: no SQLite connection of another process reads or writes the
    database, and no other process applies a file. *)
Theorem exclusive_lock s0 s p q b : lock_init s0 -> rtc sys_step s0 s -> sy_pcs s !! p = Some Held -> q <> p ->
  pending_byte b \/ shared_byte b -> sy_table s !! (q, b) = None.
Proof.
  intros Hi Hr Hp Hne Hb. destruct (sys_inv _ _ (init_inv _ Hi) Hr) as [HC HO]. apply eq_None_not_Some. intros [m Hm].
  assert (HW : sy_table s !! (p, b) = Some Wr).
  { apply (HO p Held Hp). cbn. unfold pending_byte, shared_byte in Hb. range_cases. }
  by destruct (HC p q b Wr m ltac:(done) HW Hm).
Qed.

(** ** Waiting *)

(** Other processes that use the lock as SQLite does: a lock of the shared range is taken while a lock of the pending byte is held. *)
Definition polite (s s' : sys) : Prop :=
  forall q b, sy_pcs s !! q = None -> shared_byte b -> sy_table s !! (q, b) = None -> is_Some (sy_table s' !! (q, b)) -> is_Some (sy_table s !! (q, sqlitePendingByte)).
Definition polite_step (s s' : sys) : Prop := sys_step s s' /\ polite s s'.
(** The other processes that have a lock in the shared range. *)
Definition holds_shared (p : pid) (s : sys) (q : pid) : Prop := q <> p /\ exists b, shared_byte b /\ is_Some (sy_table s !! (q, b)).

Lemma waiting_step p s s' : lock_inv s -> polite_step s s' -> sy_pcs s !! p = Some LockShared ->
  forall q, sy_pcs s !! q = None -> holds_shared p s' q -> holds_shared p s q.
Proof.
  intros [HC HO] [Hs Hpol] Hp q Hq (Hne & b & Hb & Hm). split; [done|].
  destruct (sy_table s !! (q, b)) as [m|] eqn:E; [exists b; split; [done|by rewrite E]|]. exfalso.
  destruct (Hpol q b Hq Hb E Hm) as [m Hpend].
  assert (HW : sy_table s !! (p, sqlitePendingByte) = Some Wr) by (by apply (HO p LockShared Hp)).
  by destruct (HC p q sqlitePendingByte Wr m ltac:(done) HW Hpend).
Qed.
(** The wait for the shared range is served: as soon as no other process has a lock there, the call returns with the lock. *)
Lemma LockShared_served p T : (forall q b, q <> p -> shared_byte b -> T !! (q, b) = None) -> exists T', pc_step None p T LockShared = Some (T', Held).
Proof.
  intros H. unfold pc_step, setLock, blocked. cbn [mode_of]. rewrite bool_decide_false; [by eexists|].
  intros ([q b] & m & HT & Hne & Hb & _). cbn in *. by rewrite H in HT.
Qed.
Lemma other_stays s s' q : sys_step s s' -> sy_pcs s !! q = None -> sy_pcs s' !! q = None.
Proof. destruct 1 as [fault p c T T' c' pcs Hp _|]; cbn; [|done]. intros Hq. rewrite lookup_insert_ne; [done|]. intros ->. congruence. Qed.
(** Processes that do not apply files and hold the shared range only leave it while a process waits for it; none that has left comes back. *)
Theorem readers_drain p s s' q : lock_inv s -> sy_pcs s !! p = Some LockShared -> sy_pcs s !! q = None ->
  rtc (fun a b => polite_step a b /\ sy_pcs b !! p = Some LockShared) s s' -> holds_shared p s' q -> holds_shared p s q.
Proof.
  intros Hi Hp Hq H. induction H as [|x y z [Hxy Hy] _ IH]; [done|]. intros Hz.
  assert (Hqy : sy_pcs y !! q = None) by (destruct Hxy as [Hxy _]; by eapply other_stays).
  eapply waiting_step; [exact Hi|exact Hxy|exact Hp|exact Hq|].
  apply IH; [|done..]. destruct Hxy as [Hxy _]. by eapply lock_step_inv.
Qed.

(** ** No deadlock *)

(** Without failures a process has exactly the locks of its point. *)
Inductive calm_step : sys -> sys -> Prop :=
  | calm_applier p c T T' c' pcs : pcs !! p = Some c -> pc_step None p T c = Some (T', c') -> calm_step (mkSys T pcs) (mkSys T' (<[p := c']> pcs))
  | calm_other q t start len T T' pcs : pcs !! q = None -> setLock None T q t start len = Some (T', Ok ()) -> calm_step (mkSys T pcs) (mkSys T' pcs).
Definition exactly (T : table) (p : pid) (c : pc) : Prop := forall b, T !! (p, b) = owned c b.
Definition calm_init (s : sys) : Prop :=
  compatible (sy_table s) /\ forall p c, sy_pcs s !! p = Some c -> c = LockPending /\ forall b, sy_table s !! (p, b) = None.
Definition calm_inv (s : sys) : Prop := compatible (sy_table s) /\ forall p c, sy_pcs s !! p = Some c -> exactly (sy_table s) p c.

Lemma pc_step_exactly p T c T' c' : exactly T p c -> pc_step None p T c = Some (T', c') -> exactly T' p c'.
Proof.
  intros HO H b. specialize (HO b). destruct c; cbn [pc_step] in H; try (injection H as <- <-; done);
    (destruct (setLock _ _ _ _ _ _) as [[T1 r]|] eqn:E; [|done]); cbn in H; injection H as <- <-;
    destruct (setLock_spec _ _ _ _ _ _ _ _ E) as [(e0 & ? & _)|(_ & -> & -> & _)]; try done; cbn in *; range_cases.
Qed.
Lemma calm_step_inv s s' : calm_step s s' -> calm_inv s -> calm_inv s'.
Proof.
  intros Hs [HC HO]. destruct Hs as [p c T T' c' pcs Hp Hc|q t start len T T' pcs Hq Hc]; cbn [sy_table sy_pcs] in *; split; cbn [sy_table sy_pcs].
  - exact (pc_step_compatible _ _ _ _ _ _ HC Hc).
  - intros q d. destruct (decide (q = p)) as [->|Hne].
    + rewrite lookup_insert_eq. intros [= <-]. eapply pc_step_exactly; [|exact Hc]. by apply HO.
    + rewrite lookup_insert_ne by done. intros Hd b. rewrite (pc_step_frame _ _ _ _ _ _ q b Hc) by done. by apply HO.
  - exact (setLock_compatible _ _ _ _ _ _ _ _ HC Hc).
  - intros p c Hp b. rewrite (setLock_frame _ _ _ _ _ _ _ _ p b Hc); [by apply HO|]. intros ->. congruence.
Qed.
Lemma calm_sys_inv s s' : calm_init s -> rtc calm_step s s' -> calm_inv s'.
Proof.
  intros [HC Hp] H. assert (Hi : calm_inv s) by (split; [done|]; intros p c Hc; by destruct (Hp p c Hc) as [-> ?]).
  clear HC Hp. induction H as [|x y z Hxy _ IH]; [done|]. apply IH. by eapply calm_step_inv.
Qed.

(** Points that never wait. *)
Definition waits (c : pc) : bool := match c with LockPending | LockShared => true | _ => false end.
Definition has_pending (c : pc) : bool := match c with LockShared => true | _ => false end.
Lemma runs_on p T c : waits c = false -> exists T' c', pc_step None p T c = Some (T', c').
Proof. destruct c; try done; intros _; cbn; eexists _, _; done. Qed.
Lemma lock_free p T start len : (forall q b, q <> p -> in_range start len b -> T !! (q, b) = None) -> blocked T p F_WRLCK start len = false.
Proof. intros H. unfold blocked. cbn. apply bool_decide_false. intros ([q b] & m & HT & Hne & Hb & _). cbn in *. by rewrite H in HT. Qed.
(** Processes that apply files never wait for each other in a circle: whatever the interleaving, when the other processes have no lock
    on the bytes of the lock, some process that applies files can go on. *)
Theorem no_deadlock s0 s p : calm_init s0 -> rtc calm_step s0 s -> is_Some (sy_pcs s !! p) ->
  (forall q b, sy_pcs s !! q = None -> pending_byte b \/ shared_byte b -> sy_table s !! (q, b) = None) ->
  exists p' c s', sy_pcs s !! p' = Some c /\ pc_step None p' (sy_table s) c = Some s'.
Proof.
  intros Hi Hr [c Hc] Hother. destruct (calm_sys_inv _ _ Hi Hr) as [HC HO].
  destruct (decide (map_Exists (fun _ c => waits c = false) (sy_pcs s))) as [(p' & c' & Hp' & Hw)|Hall].
  { destruct (runs_on p' (sy_table s) c' Hw) as (T' & d & E). by exists p', c', (T', d). }
  assert (W : forall q d, sy_pcs s !! q = Some d -> waits d = true).
  { intros q d Hd. destruct (waits d) eqn:E; [done|]. exfalso. apply Hall. by exists q, d. }
  assert (Sh : forall q b, shared_byte b -> sy_table s !! (q, b) = None).
  { intros q b Hb. destruct (sy_pcs s !! q) as [d|] eqn:Hd; [|by apply Hother; [|right]]. rewrite (HO q d Hd b).
    specialize (W q d Hd). destruct d; try done; cbn. rewrite decide_False; [done|]. intros ->. by apply pending_not_shared. }
  destruct (decide (map_Exists (fun _ c => has_pending c = true) (sy_pcs s))) as [(p' & c' & Hp' & Hh)|Hno].
  { destruct c'; try done. destruct (LockShared_served p' (sy_table s)) as [T' E]; [by intros q b _; apply Sh|]. by exists p', LockShared, (T', Held). }
  assert (P : forall q, sy_table s !! (q, sqlitePendingByte) = None).
  { intros q. destruct (sy_pcs s !! q) as [d|] eqn:Hd; [|by apply Hother; [|left]]. rewrite (HO q d Hd).
    specialize (W q d Hd). destruct d; try done. exfalso. apply Hno. by exists q, LockShared. }
  pose proof (W p c Hc). destruct c; try done; [|by destruct Hno; exists p, LockShared].
  exists p, LockPending. unfold pc_step, setLock. rewrite lock_free; [by eexists|]. intros q b _ ->%in_pending. apply P.
Qed.

(** ** Examples *)

Lemma setLock_free T p t start len : blocked T p t start len = false -> setLock None T p t start len = Some (set_range T p (mode_of t) start len, Ok ()).
Proof. unfold setLock. by intros ->. Qed.

Module LocksDemo.
(** A reader, process 7, has a shared lock; process 1 is to apply a file. *)
Definition T0 : table := set_range ∅ 7%nat (Some Rd) sqliteSharedFirst sqliteSharedSize.
Definition s0 : sys := mkSys T0 {[1%nat := LockPending; 2%nat := LockPending]}.
(** The locks after process 1 has taken the pending byte, after the reader has left, and after process 1 has the lock. *)
Definition T1 : table := set_range T0 1%nat (Some Wr) sqlitePendingByte 1.
Definition T2 : table := set_range T1 7%nat None sqliteSharedFirst sqliteSharedSize.
Definition T3 : table := set_range T2 1%nat (Some Wr) sqliteSharedFirst sqliteSharedSize.
Definition s3 : sys := mkSys T3 (<[1%nat := Held]> (<[1%nat := LockShared]> (sy_pcs s0))).
Lemma initial : lock_init s0.
Proof.
  split.
  - intros p q b m m' Hne. cbn. unfold T0. rewrite !lookup_set_range. intros H1 H2. destruct (decide (p = 7%nat /\ _)) as [[-> _]|]; [|done].
    destruct (decide (q = 7%nat /\ _)) as [[-> _]|]; done.
  - intros p c. cbn. rewrite lookup_insert_Some, lookup_singleton_Some. naive_solver.
Qed.
Lemma run : rtc sys_step s0 s3.
Proof.
  assert (E1 : blocked T0 1%nat F_WRLCK sqlitePendingByte 1 = false) by (vm_compute; reflexivity).
  assert (E2 : blocked T2 1%nat F_WRLCK sqliteSharedFirst sqliteSharedSize = false) by (vm_compute; reflexivity).
  eapply rtc_l; [apply (applier_step None 1%nat LockPending T0 T1 LockShared); [done|unfold pc_step; by rewrite (setLock_free _ _ _ _ _ E1)]|].
  eapply rtc_l; [apply (other_step 7%nat F_UNLCK sqliteSharedFirst sqliteSharedSize T1 T2); [done|by rewrite setLock_free]|].
  eapply rtc_l; [apply (applier_step None 1%nat LockShared T2 T3 Held); [done|unfold pc_step; by rewrite (setLock_free _ _ _ _ _ E2)]|]. done.
Qed.
(** The reader keeps process 1 waiting, and process 1 keeps new readers waiting. *)
Example reader_waited_for : pc_step None 1%nat T1 LockShared = None /\ setLock None T1 8%nat F_RDLCK sqlitePendingByte 1 = None.
Proof.
  assert (E1 : blocked T1 1%nat F_WRLCK sqliteSharedFirst sqliteSharedSize = true) by (vm_compute; reflexivity).
  assert (E2 : blocked T1 8%nat F_RDLCK sqlitePendingByte 1 = true) by (vm_compute; reflexivity).
  split; [unfold pc_step, setLock; rewrite E1|unfold setLock; rewrite E2]; reflexivity.
Qed.
End LocksDemo.

(** The theorem at that run: process 2 has no lock on the first byte of the shared range. *)
Lemma exclusive_lock_witness : sy_table LocksDemo.s3 !! (2%nat, sqliteSharedFirst) = None.
Proof.
  apply (exclusive_lock LocksDemo.s0 LocksDemo.s3 1%nat 2%nat sqliteSharedFirst LocksDemo.initial LocksDemo.run).
  - unfold LocksDemo.s3. cbn [sy_pcs]. apply lookup_insert_eq.
  - discriminate.
  - right. vm_compute. split; [discriminate|reflexivity].
Defined.

(** *** Findings *)

(** A lock that another process has does not make [LockExclusive] return an error; without another failure it only waits. *)
Theorem lock_never_refused p T c T' err : waits c = true -> pc_step None p T c = Some (T', Returned (Err err)) -> False.
Proof.
  destruct c; try done; intros _; cbn [pc_step]; (destruct (setLock _ _ _ _ _ _) as [[T1 r]|] eqn:E; [|done]); cbn;
    destruct (setLock_spec _ _ _ _ _ _ _ _ E) as [(e0 & ? & _)|(_ & -> & _)]; done.
Qed.
(** Two callers in one process do not exclude each other: the second has the lock at once while the first has it. *)
Example same_process_not_excluded :
  exists T, pc_step None 1%nat LocksDemo.T3 LockPending = Some (T, LockShared) /\ exists T', pc_step None 1%nat T LockShared = Some (T', Held).
Proof.
  assert (E1 : blocked LocksDemo.T3 1%nat F_WRLCK sqlitePendingByte 1 = false) by (vm_compute; reflexivity).
  eexists. split; [unfold pc_step; rewrite (setLock_free _ _ _ _ _ E1); reflexivity|].
  assert (E2 : blocked (set_range LocksDemo.T3 1%nat (mode_of F_WRLCK) sqlitePendingByte 1) 1%nat F_WRLCK sqliteSharedFirst sqliteSharedSize = false)
    by (vm_compute; reflexivity).
  eexists. unfold pc_step. rewrite (setLock_free _ _ _ _ _ E2). reflexivity.
Qed.
