(* ===== verification/Control.v ===== *)
(** * The control socket and its commands

    Model of the rest of src/server.go (the socket, the routes and the bodies of requests and responses) and of the commands that talk to
    a running process: start, stop, register, unregister, sync, list and info (src/cmd/replicate).  A command checks its
    arguments, sends a request, and turns the response into output or an error; the handlers are those of Server.v.  Bodies are JSON
    values; the text that encodes a value, and the parser of flags, are not modelled. *)

From Stdlib Require Import ZArith Lia Ascii String.
From stdpp Require Import base numbers list strings gmap.
From S2P Require Import Prelude WalReader Ltx Levels Streams Compactor Replica Db Retention PageIndex Snapshot Shutdown Pipeline Store StoreTasks Server.
Local Open Scope string_scope.
Local Open Scope Z_scope.

(** ** JSON *)

Inductive json := JNull | JBool (b : bool) | JInt (n : Z) | JString (s : string) | JArr (l : list json) | JObj (fields : list (string * json)).

(** Keys are compared without regard to case. *)
Definition lower (c : ascii) : ascii := let n := Ascii.nat_of_ascii c in if ((65 <=? n) && (n <=? 90))%nat then Ascii.ascii_of_nat (n + 32) else c.
Fixpoint fold_key (s : string) : string := match s with EmptyString => EmptyString | String c s => String (lower c) (fold_key s) end.

(** The value of a field in a struct: the last one in the object counts, [null] changes nothing, another type is an error. *)
Section Field.
Context {A : Type}.
Variable get : json -> result A.
Variable name : string.
Fixpoint field (l : list (string * json)) (acc : A) : result A :=
  match l with
  | [] => Ok acc
  | (k, v) :: l =>
      if bool_decide (fold_key k = name)
      then match v with JNull => field l acc | _ => x ← get v; field l x end
      else field l acc
  end.
End Field.
Definition as_string (v : json) : result string := match v with JString s => Ok s | _ => Err (EMsg "json: cannot unmarshal into Go value of type string") end.
Definition as_bool (v : json) : result bool := match v with JBool b => Ok b | _ => Err (EMsg "json: cannot unmarshal into Go value of type bool") end.
Definition int64_ok (n : Z) : bool := (- 2 ^ 63 <=? n) && (n <? 2 ^ 63).
Definition uint64_ok (n : Z) : bool := (0 <=? n) && (n <? 2 ^ 64).
Definition as_int (v : json) : result Z :=
  match v with JInt n => if int64_ok n then Ok n else Err (EMsg "json: cannot unmarshal number into Go value of type int") | _ => Err (EMsg "json: cannot unmarshal into Go value of type int") end.
Definition as_uint64 (v : json) : result Z :=
  match v with JInt n => if uint64_ok n then Ok n else Err (EMsg "json: cannot unmarshal number into Go value of type uint64") | _ => Err (EMsg "json: cannot unmarshal into Go value of type uint64") end.
(** A struct is decoded from an object; [null] leaves it as it is. *)
Definition object (v : option json) : result (list (string * json)) :=
  match v with
  | Some (JObj l) => Ok l
  | Some JNull => Ok []
  | Some _ => Err (EMsg "json: cannot unmarshal into Go struct")
  | None => Err (EMsg "invalid character")
  end.
Definition omitempty_int (name : string) (n : Z) : list (string * json) := if n =? 0 then [] else [(name, JInt n)].
Definition omitempty_bool (name : string) (b : bool) : list (string * json) := if b then [(name, JBool b)] else [].

(** ** Requests and responses *)

(** [StartRequest], [StopRequest] and [UnregisterDatabaseRequest]. *)
Record PathRequest := mkPathRequest { pr_Path : string; pr_Timeout : Z }.
Record RegisterDatabaseRequest := mkRegisterRequest { rr_Path : string; rr_ReplicaURL : string }.
Record SyncRequest := mkSyncRequest { sq_Path : string; sq_Wait : bool; sq_Timeout : Z }.
(** [StartResponse], [StopResponse], [RegisterDatabaseResponse] and [UnregisterDatabaseResponse]. *)
Record StatusResponse := mkStatusResponse { sp_Status : string; sp_Path : string }.
Record SyncResponse := mkSyncResponse { yp_Status : string; yp_Path : string; yp_TXID : Z; yp_ReplicatedTXID : Z }.
Record ErrorResponse := mkErrorResponse { ep_Error : string; ep_Details : option string }.
Record DatabaseSummary := mkSummary { ds_Path : string; ds_Status : string; ds_LastSyncAt : option string }.
Record InfoResponse := mkInfo { in_Version : string; in_PID : Z; in_UptimeSeconds : Z; in_StartedAt : string; in_DatabaseCount : Z }.

Definition marshal_path (r : PathRequest) : json := JObj (("path", JString (pr_Path r)) :: omitempty_int "timeout" (pr_Timeout r)).
Definition marshal_register (r : RegisterDatabaseRequest) : json := JObj [("path", JString (rr_Path r)); ("replica_url", JString (rr_ReplicaURL r))].
Definition marshal_sync (r : SyncRequest) : json :=
  JObj (("path", JString (sq_Path r)) :: omitempty_bool "wait" (sq_Wait r) ++ omitempty_int "timeout" (sq_Timeout r)).
Definition marshal_status (r : StatusResponse) : json := JObj [("status", JString (sp_Status r)); ("path", JString (sp_Path r))].
Definition marshal_synced (r : SyncResponse) : json :=
  JObj [("status", JString (yp_Status r)); ("path", JString (yp_Path r)); ("txid", JInt (yp_TXID r)); ("replicated_txid", JInt (yp_ReplicatedTXID r))].
Definition marshal_error (r : ErrorResponse) : json :=
  JObj (("error", JString (ep_Error r)) :: match ep_Details r with Some d => [("details", JString d)] | None => [] end).
Definition marshal_summary (d : DatabaseSummary) : json :=
  JObj (("path", JString (ds_Path d)) :: ("status", JString (ds_Status d)) :: match ds_LastSyncAt d with Some t => [("last_sync_at", JString t)] | None => [] end).
Definition marshal_list (l : list DatabaseSummary) : json := JObj [("databases", JArr (marshal_summary <$> l))].
Definition marshal_info (r : InfoResponse) : json :=
  JObj [("version", JString (in_Version r)); ("pid", JInt (in_PID r)); ("uptime_seconds", JInt (in_UptimeSeconds r)); ("started_at", JString (in_StartedAt r));
        ("database_count", JInt (in_DatabaseCount r))].

Definition decode_path (v : option json) : result PathRequest :=
  l ← object v; path ← field as_string "path" l ""; timeout ← field as_int "timeout" l 0; Ok (mkPathRequest path timeout).
Definition decode_register (v : option json) : result RegisterDatabaseRequest :=
  l ← object v; path ← field as_string "path" l ""; url ← field as_string "replica_url" l ""; Ok (mkRegisterRequest path url).
Definition decode_sync (v : option json) : result SyncRequest :=
  l ← object v; path ← field as_string "path" l ""; wait ← field as_bool "wait" l false; timeout ← field as_int "timeout" l 0; Ok (mkSyncRequest path wait timeout).
Definition decode_status (v : option json) : result StatusResponse :=
  l ← object v; status ← field as_string "status" l ""; path ← field as_string "path" l ""; Ok (mkStatusResponse status path).
Definition decode_synced (v : option json) : result SyncResponse :=
  l ← object v; status ← field as_string "status" l ""; path ← field as_string "path" l ""; txid ← field as_uint64 "txid" l 0;
  rtxid ← field as_uint64 "replicated_txid" l 0; Ok (mkSyncResponse status path txid rtxid).
Definition decode_error (v : option json) : result string := l ← object v; field as_string "error" l "".
Definition decode_summary (v : json) : result DatabaseSummary :=
  l ← object (Some v); path ← field as_string "path" l ""; status ← field as_string "status" l "";
  t ← field (fun v => s ← as_string v; Ok (Some s)) "last_sync_at" l None; Ok (mkSummary path status t).
Fixpoint decode_all {A} (f : json -> result A) (l : list json) : result (list A) :=
  match l with [] => Ok [] | v :: l => x ← f v; xs ← decode_all f l; Ok (x :: xs) end.
Definition decode_list (v : option json) : result (list DatabaseSummary) :=
  l ← object v; field (fun v => match v with JArr l => decode_all decode_summary l | _ => Err (EMsg "json: cannot unmarshal into Go struct") end) "databases" l [].
Definition decode_info (v : option json) : result InfoResponse :=
  l ← object v; version ← field as_string "version" l ""; pid ← field as_int "pid" l 0; up ← field as_int "uptime_seconds" l 0;
  at_ ← field as_string "started_at" l ""; n ← field as_int "database_count" l 0; Ok (mkInfo version pid up at_ n).

(** Requests and responses come back as they were sent. *)
Lemma decode_marshal_path r : int64_ok (pr_Timeout r) = true -> decode_path (Some (marshal_path r)) = Ok r.
Proof.
  destruct r as [p t]. intros H. cbn in H. unfold marshal_path, omitempty_int. cbn [pr_Path pr_Timeout]. destruct (t =? 0) eqn:E; [apply Z.eqb_eq in E as ->; done|].
  unfold decode_path. cbn -[int64_ok]. by rewrite H.
Qed.
Lemma decode_marshal_register r : decode_register (Some (marshal_register r)) = Ok r.
Proof. by destruct r. Qed.
Lemma decode_marshal_sync r : int64_ok (sq_Timeout r) = true -> decode_sync (Some (marshal_sync r)) = Ok r.
Proof.
  destruct r as [p w t]. intros H. cbn in H. unfold marshal_sync, omitempty_int, omitempty_bool. cbn [sq_Path sq_Wait sq_Timeout].
  destruct w, (t =? 0) eqn:E; try (apply Z.eqb_eq in E as ->); try done; unfold decode_sync; cbn -[int64_ok]; by rewrite H.
Qed.
Lemma decode_marshal_status r : decode_status (Some (marshal_status r)) = Ok r.
Proof. by destruct r. Qed.
Lemma decode_marshal_synced r : uint64_ok (yp_TXID r) = true -> uint64_ok (yp_ReplicatedTXID r) = true -> decode_synced (Some (marshal_synced r)) = Ok r.
Proof. destruct r as [s p a b]. cbn. intros Ha Hb. unfold decode_synced. cbn -[uint64_ok]. rewrite Ha. cbn -[uint64_ok]. by rewrite Hb. Qed.
Lemma decode_marshal_summary d : decode_summary (marshal_summary d) = Ok d.
Proof. by destruct d as [p s [t|]]. Qed.
Lemma decode_marshal_list l : decode_list (Some (marshal_list l)) = Ok l.
Proof.
  unfold decode_list. cbn -[decode_summary]. assert (E : decode_all decode_summary (marshal_summary <$> l) = Ok l); [|by rewrite E].
  induction l as [|d l IH]; [done|]. cbn -[decode_summary marshal_summary]. rewrite decode_marshal_summary. cbn -[decode_summary marshal_summary]. by rewrite IH.
Qed.
Lemma decode_marshal_info r : int64_ok (in_PID r) = true -> int64_ok (in_UptimeSeconds r) = true -> int64_ok (in_DatabaseCount r) = true -> decode_info (Some (marshal_info r)) = Ok r.
Proof.
  destruct r as [v p u a n]. cbn. intros Hp Hu Hn. unfold decode_info. cbn -[int64_ok]. rewrite Hp. cbn -[int64_ok]. rewrite Hu. cbn -[int64_ok]. by rewrite Hn.
Qed.

(** ** The server *)

Record http_request := mkRequest { hr_Method : string; hr_Path : string; hr_Query : string; hr_Body : option json }.
(** A response: its code and its body, [None] when it is plain text. *)
Record http_response := mkHTTP { hp_Code : Z; hp_Body : option json }.
Definition StatusMethodNotAllowed : Z := 405.
Definition writeJSON (code : Z) (v : json) : http_response := mkHTTP code (Some v).
Definition writeJSONError (code : Z) (message : string) (details : option string) : http_response :=
  writeJSON code (marshal_error (mkErrorResponse message details)).

Section Control.
Variable grow : nat -> nat.
Variable PathExpander : option (string -> result string).
Variable client_error : string -> option error.
Variable new_settings : settings.
(** [SyncDB] on the rest of the state. *)
Context {A : Type}.
Variable sync : A -> option bool -> bool -> option Z -> A * result SyncDBResult.
(** What the databases and the process answer: the position of a database, whether it is monitored, its last successful sync; the process,
    its version and start, and the seconds it has run. *)
Record Answers := mkAnswers {
  an_pos : ptr -> result Z; an_monitored : ptr -> bool; an_synced_at : ptr -> option string; an_Version : string; an_pid : Z; an_started_at : string; an_uptime : Z
}.

(** A status of a handler of Server.v as a response: [None] when the handler panicked. *)
Definition written (path : string) (r : response) : option http_response :=
  if rs_code r =? 0 then None
  else if rs_code r =? StatusOK then Some (writeJSON StatusOK (marshal_status (mkStatusResponse (rs_status r) path)))
  else Some (writeJSONError (rs_code r) (rs_status r) None).
Definition bad_body (err : error) : http_response := writeJSONError StatusBadRequest "invalid request body" (Some "").
Definition expanded (path : string) : string := match expandPath PathExpander path with Ok p => p | _ => "" end.

(** A handler of a path: the body is decoded, the request handled. *)
Definition on_path (h : string -> Store -> Store * response) (body : option json) (s : Store) : Store * option http_response :=
  match decode_path body with
  | Ok r => let '(s, rs) := h (pr_Path r) s in (s, written (expanded (pr_Path r)) rs)
  | Err err => (s, Some (bad_body err))
  | Panic _ => (s, None)
  end.
Definition serve_register (oc : outcome) (body : option json) (s : Store) : Store * option http_response :=
  match decode_register body with
  | Ok r => let '(s, rs) := handleRegister grow PathExpander client_error new_settings oc (rr_Path r) (rr_ReplicaURL r) s in
            (s, written (expanded (rr_Path r)) rs)
  | Err err => (s, Some (bad_body err))
  | Panic _ => (s, None)
  end.
Definition serve_sync (body : option json) (a : A) (s : Store) : A * option http_response :=
  match decode_sync body with
  | Ok r =>
      if bool_decide (sq_Path r = "") then (a, Some (writeJSONError StatusBadRequest "path required" None)) else
      match expandPath PathExpander (sq_Path r) with
      | Ok path =>
          let '(a, res) := sync a (found s path) (sq_Wait r) (sync_timeout (sq_Wait r) (sq_Timeout r)) in
          let rs := sync_response (sq_Wait r) res in
          (a, match res with
              | Ok x => Some (writeJSON StatusOK (marshal_synced (mkSyncResponse (rs_status rs) path (sr_TXID x) (sr_ReplicatedTXID x))))
              | Err _ => Some (writeJSONError (rs_code rs) (rs_status rs) None)
              | Panic _ => None
              end)
      | _ => (a, Some (writeJSONError StatusBadRequest "invalid path" None))
      end
  | Err err => (a, Some (bad_body err))
  | Panic _ => (a, None)
  end.
Definition serve_txid (an : Answers) (query : string) (s : Store) : option http_response :=
  match handleTXID PathExpander (an_pos an) query s with
  | (_, Some txid) => Some (writeJSON StatusOK (JObj [("txid", JInt txid)]))
  | (r, None) => written "" r
  end.
Definition serve_list (an : Answers) (s : Store) : http_response :=
  writeJSON StatusOK (marshal_list (omap (fun e => match e with
    | Some p => Some (mkSummary (default "" (path_of s p)) (list_status (an_monitored an) s p) (an_synced_at an p))
    | None => None end) (dbs s))).
Definition serve_info (an : Answers) (s : Store) : http_response :=
  writeJSON StatusOK (marshal_info (mkInfo (an_Version an) (an_pid an) (an_uptime an) (an_started_at an) (Z.of_nat (handleInfo_DatabaseCount s)))).

(** The routes of [NewServer]; those of the profiler are left out. *)
Inductive route := RStart | RStop | RTxid | RRegister | RUnregister | RSync | RList | RInfo.
Definition routes : list (string * string * route) :=
  [("POST", "/start", RStart); ("POST", "/stop", RStop); ("GET", "/txid", RTxid); ("POST", "/register", RRegister); ("POST", "/unregister", RUnregister);
   ("POST", "/sync", RSync); ("GET", "/list", RList); ("GET", "/info", RInfo)].
Definition method_matches (pattern m : string) : bool := bool_decide (m = pattern) || (bool_decide (pattern = "GET") && bool_decide (m = "HEAD")).
Definition find_route (req : http_request) : route + http_response :=
  match filter (fun x => x.1.2 = hr_Path req) routes with
  | [] => inr (mkHTTP StatusNotFound None)
  | l => match filter (fun x => method_matches x.1.1 (hr_Method req) = true) l with
         | x :: _ => inl x.2
         | [] => inr (mkHTTP StatusMethodNotAllowed None)
         end
  end.
Definition ServeHTTP (oc : outcome) (an : Answers) (req : http_request) (st : A * Store) : (A * Store) * option http_response :=
  let '(a, s) := st in
  let on (r : Store * option http_response) := ((a, r.1), r.2) in
  match find_route req with
  | inr resp => (st, Some resp)
  | inl RStart => on (on_path (handleStart grow PathExpander oc) (hr_Body req) s)
  | inl RStop => on (on_path (handleStop grow PathExpander oc) (hr_Body req) s)
  | inl RUnregister => on (on_path (handleUnregister grow PathExpander oc) (hr_Body req) s)
  | inl RRegister => on (serve_register oc (hr_Body req) s)
  | inl RSync => let '(a, r) := serve_sync (hr_Body req) a s in ((a, s), r)
  | inl RTxid => (st, serve_txid an (hr_Query req) s)
  | inl RList => (st, Some (serve_list an s))
  | inl RInfo => (st, Some (serve_info an s))
  end.

(** ** The commands *)

(** The flags and arguments of a command. *)
Record ctl_flags := mkCtl { ct_timeout : Z; ct_replica : string; ct_wait : bool; ct_json : bool; ct_args : list string }.
(** What becomes of a request: it is not sent; or the client gives up (its timeout passes) when the call that the handler makes to the store
    has taken some of its steps; or the handler has ended and the rest of its response is lost; or the response arrives. *)
Inductive net := NotSent (err : error) | NoReply (steps : nat) (err : error) | BodyLost (err : error) | Delivered.
(** The server with the handlers that a client no longer waits for: the context of such a handler is that of the server, so it goes on. *)
Abbreviation world := ((A * Store) * list (outcome * pc))%type (only parsing).

(** Some steps of a call of the store. *)
Fixpoint advance (n : nat) (oc : outcome) (c : pc) (s : Store) : Store * pc :=
  match n with O => (s, c) | S n => let '(s, c) := step grow oc c s in advance n oc c s end.
(** The call of the store that the handler of a request makes, if it does not answer before. *)
Definition call_on_path (call : string -> pc) (body : option json) (s : Store) : option (Store * pc) :=
  match decode_path body with
  | Ok r => if bool_decide (pr_Path r = "") then None else match expandPath PathExpander (pr_Path r) with Ok path => Some (s, call path) | _ => None end
  | _ => None
  end.
Definition call_to_register (body : option json) (s : Store) : option (Store * pc) :=
  match decode_register body with
  | Ok r =>
      if bool_decide (rr_Path r = "") then None else if bool_decide (rr_ReplicaURL r = "") then None else
      match expandPath PathExpander (rr_Path r) with
      | Ok path =>
          match FindDB s path, client_error (rr_ReplicaURL r) with
          | Ok None, None => let '(p, s) := new_db new_settings path s in Some (s, RegStart p)
          | _, _ => None
          end
      | _ => None
      end
  | _ => None
  end.
Definition call_of (req : http_request) (s : Store) : option (Store * pc) :=
  match find_route req with
  | inl RStart => call_on_path EnableStart (hr_Body req) s
  | inl RStop => call_on_path DisableStart (hr_Body req) s
  | inl RUnregister => call_on_path UnregStart (hr_Body req) s
  | inl RRegister => call_to_register (hr_Body req) s
  | _ => None
  end.

(** The exchange that all commands share: the response, or an error.  After a timeout the handler stays with the rest of its call to do. *)
Definition exchange (n : net) (oc : outcome) (an : Answers) (req : http_request) (w : world) : world * result http_response :=
  let '(st, running) := w in
  match n with
  | NotSent err => (w, Err (EWrap "failed to connect to control socket" err))
  | NoReply steps err =>
      (match call_of req st.2 with
       | Some (s, c) => let '(s, c) := advance steps oc c s in ((st.1, s), (running ++ [(oc, c)])%list)
       | None => ((ServeHTTP oc an req st).1, running)
       end, Err (EWrap "failed to connect to control socket" err))
  | BodyLost err => (((ServeHTTP oc an req st).1, running), Err (EWrap "failed to read response" err))
  | Delivered =>
      match ServeHTTP oc an req st with
      | (st, Some resp) => ((st, running), Ok resp)
      | (st, None) => ((st, running), Err (EWrap "failed to connect to control socket" io_EOF))
      end
  end.
(** A step of a handler that is still running. *)
Definition later (i : nat) (w : world) : world :=
  let '((a, s), running) := w in
  match running !! i with
  | Some (oc, c) => let '(s, c) := step grow oc c s in ((a, s), <[i := (oc, c)]> running)
  | None => w
  end.
(** The body of a response with status 200; the error of another. *)
Definition response_body (name : string) (r : result http_response) : result (option json) :=
  resp ← r;
  if hp_Code resp =? StatusOK then Ok (hp_Body resp)
  else match decode_error (hp_Body resp) with
       | Ok msg => if bool_decide (msg = "") then Err (EMsg (name ++ " failed")%string) else Err (EMsg (name ++ " failed: " ++ msg)%string)
       | _ => Err (EMsg (name ++ " failed")%string)
       end.
Definition parsed {B} (r : result B) : result B := r wrapping "failed to parse response".

Definition one_path (args : list string) : result string :=
  match args with [] => Err (EMsg "database path required") | [p] => Ok p | _ => Err (EMsg "too many arguments") end.
Definition positive_timeout (f : ctl_flags) : result () := if ct_timeout f <=? 0 then Err (EMsg "timeout must be greater than 0") else Ok ().

Definition StartCommand_Run (f : ctl_flags) (n : net) (oc : outcome) (an : Answers) (st : world) : world * result json :=
  match one_path (ct_args f) with
  | Ok path =>
      let '(st, r) := exchange n oc an (mkRequest "POST" "/start" "" (Some (marshal_path (mkPathRequest path (ct_timeout f))))) st in
      (st, body ← response_body "start" r; x ← parsed (decode_status body); Ok (marshal_status x))
  | Err err => (st, Err err)
  | Panic m => (st, Panic m)
  end.
Definition StopCommand_Run (f : ctl_flags) (n : net) (oc : outcome) (an : Answers) (st : world) : world * result json :=
  match one_path (ct_args f) with
  | Ok path =>
      let '(st, r) := exchange n oc an (mkRequest "POST" "/stop" "" (Some (marshal_path (mkPathRequest path (ct_timeout f))))) st in
      (st, body ← response_body "stop" r; x ← parsed (decode_status body); Ok (marshal_status x))
  | Err err => (st, Err err)
  | Panic m => (st, Panic m)
  end.
Definition register_args (f : ctl_flags) : result string :=
  path ← one_path (ct_args f);
  if bool_decide (ct_replica f = "") then Err (EMsg "replica URL required (use -replica flag)") else _ ← positive_timeout f; Ok path.
Definition RegisterCommand_Run (f : ctl_flags) (n : net) (oc : outcome) (an : Answers) (st : world) : world * result json :=
  match register_args f with
  | Ok path =>
      let '(st, r) := exchange n oc an (mkRequest "POST" "/register" "" (Some (marshal_register (mkRegisterRequest path (ct_replica f))))) st in
      (st, body ← response_body "register" r; x ← parsed (decode_status body); Ok (marshal_status x))
  | Err err => (st, Err err)
  | Panic m => (st, Panic m)
  end.
Definition path_and_timeout (f : ctl_flags) : result string := path ← one_path (ct_args f); _ ← positive_timeout f; Ok path.
Definition UnregisterCommand_Run (f : ctl_flags) (n : net) (oc : outcome) (an : Answers) (st : world) : world * result json :=
  match path_and_timeout f with
  | Ok path =>
      let '(st, r) := exchange n oc an (mkRequest "POST" "/unregister" "" (Some (marshal_path (mkPathRequest path (ct_timeout f))))) st in
      (st, body ← response_body "unregister" r; x ← parsed (decode_status body); Ok (marshal_status x))
  | Err err => (st, Err err)
  | Panic m => (st, Panic m)
  end.
Definition SyncCommand_Run (f : ctl_flags) (n : net) (oc : outcome) (an : Answers) (st : world) : world * result json :=
  match path_and_timeout f with
  | Ok path =>
      let '(st, r) := exchange n oc an (mkRequest "POST" "/sync" "" (Some (marshal_sync (mkSyncRequest path (ct_wait f) (ct_timeout f))))) st in
      (st, body ← response_body "sync" r; x ← parsed (decode_synced body); Ok (marshal_synced x))
  | Err err => (st, Err err)
  | Panic m => (st, Panic m)
  end.
Definition no_args (f : ctl_flags) : result () := match ct_args f with [] => positive_timeout f | _ => Err (EMsg "too many arguments") end.

(** The output of list and info: the value, or lines of text. *)
Inductive output := OutJSON (v : json) | OutLines (l : list (list string)).
Definition list_lines (l : list DatabaseSummary) : list (list string) :=
  match l with
  | [] => [["No databases configured"]]
  | _ => (fun d => [ds_Path d; ds_Status d; default "never" (ds_LastSyncAt d)]) <$> l
  end.
Definition ListCommand_Run (f : ctl_flags) (n : net) (oc : outcome) (an : Answers) (st : world) : world * result output :=
  match no_args f with
  | Ok _ =>
      let '(st, r) := exchange n oc an (mkRequest "GET" "/list" "" None) st in
      (st, body ← response_body "list" r; x ← parsed (decode_list body); Ok (if ct_json f then OutJSON (marshal_list x) else OutLines (list_lines x)))
  | Err err => (st, Err err)
  | Panic m => (st, Panic m)
  end.
Definition InfoCommand_Run (f : ctl_flags) (n : net) (oc : outcome) (an : Answers) (st : world) : world * result InfoResponse :=
  match no_args f with
  | Ok _ =>
      let '(st, r) := exchange n oc an (mkRequest "GET" "/info" "" None) st in
      (st, body ← response_body "info" r; parsed (decode_info body))
  | Err err => (st, Err err)
  | Panic m => (st, Panic m)
  end.

(** ** The commands implement the map *)

Inductive ctl := KRegister | KUnregister | KStart | KStop.
Definition run_ctl (k : ctl) : ctl_flags -> net -> outcome -> Answers -> world -> world * result json :=
  match k with KRegister => RegisterCommand_Run | KUnregister => UnregisterCommand_Run | KStart => StartCommand_Run | KStop => StopCommand_Run end.
(** The request that a command line asks for, if it is one. *)
Definition command_of (k : ctl) (f : ctl_flags) : result command :=
  match k with
  | KRegister => path ← register_args f; Ok (CRegister path (ct_replica f))
  | KUnregister => path ← path_and_timeout f; Ok (CUnregister path)
  | KStart => path ← one_path (ct_args f); Ok (CStart path)
  | KStop => path ← one_path (ct_args f); Ok (CStop path)
  end.
(** What a command does to the map, and whether it succeeds: a lost response is a failure of the command, not of the request. *)
Definition ctl_spec (k : ctl) (f : ctl_flags) (n : net) (oc : outcome) (m : gmap string bool) : gmap string bool * bool :=
  match command_of k f with
  | Ok c =>
      let '(m', code) := api PathExpander client_error oc c m in
      match n with NotSent _ => (m, false) | NoReply _ _ | BodyLost _ => (m', false) | Delivered => (m', code =? StatusOK) end
  | _ => (m, false)
  end.
Definition succeeds {B} (r : result B) : bool := match r with Ok _ => true | _ => false end.

Lemma api_code oc c m : (api PathExpander client_error oc c m).2 <> 0.
Proof. destruct c; cbn; repeat (case_match; try done). Qed.
Lemma error_refused name code msg details : (code =? StatusOK) = false -> exists err, response_body name (Ok (writeJSONError code msg details)) = Err err.
Proof. intros Hc. unfold response_body, writeJSONError, writeJSON. cbn [mbind result_bind hp_Code hp_Body]. rewrite Hc. repeat case_match; by eexists. Qed.
(** A written response is accepted by a command exactly when its code is 200. *)
Lemma written_accepted name path r : rs_code r <> 0 ->
  exists resp, written path r = Some resp /\
    succeeds (body ← response_body name (Ok resp); x ← parsed (decode_status body); Ok (marshal_status x)) = (rs_code r =? StatusOK).
Proof.
  intros Hc. unfold written. destruct (rs_code r =? 0) eqn:E0; [lia|]. destruct (rs_code r =? StatusOK) eqn:E1; eexists; (split; [reflexivity|]); [done|].
  by destruct (error_refused name _ (rs_status r) None E1) as [err ->].
Qed.
(** The server handles the request of a command as the handler of Server.v does. *)
Definition ctl_request (c : command) (timeout : Z) : http_request :=
  match c with
  | CRegister path url => mkRequest "POST" "/register" "" (Some (marshal_register (mkRegisterRequest path url)))
  | CUnregister path => mkRequest "POST" "/unregister" "" (Some (marshal_path (mkPathRequest path timeout)))
  | CStart path => mkRequest "POST" "/start" "" (Some (marshal_path (mkPathRequest path timeout)))
  | CStop path => mkRequest "POST" "/stop" "" (Some (marshal_path (mkPathRequest path timeout)))
  end.
Lemma ServeHTTP_command oc an c timeout a s : int64_ok timeout = true -> exists path,
  ServeHTTP oc an (ctl_request c timeout) (a, s) =
    ((a, (handle grow PathExpander client_error new_settings oc c s).1), written path (handle grow PathExpander client_error new_settings oc c s).2).
Proof.
  intros Ht. destruct c as [path url|path|path|path]; cbn [ctl_request]; exists (expanded path); unfold ServeHTTP; cbn [handle].
  - replace (find_route _) with (@inl route http_response RRegister) by reflexivity. cbn [hr_Body]. unfold serve_register. rewrite decode_marshal_register.
    cbn [rr_Path rr_ReplicaURL]. by destruct (handleRegister _ _ _ _ _ _ _ _).
  - replace (find_route _) with (@inl route http_response RUnregister) by reflexivity. cbn [hr_Body]. unfold on_path. rewrite decode_marshal_path by done.
    cbn [pr_Path]. by destruct (handleUnregister _ _ _ _ _).
  - replace (find_route _) with (@inl route http_response RStart) by reflexivity. cbn [hr_Body]. unfold on_path. rewrite decode_marshal_path by done.
    cbn [pr_Path]. by destruct (handleStart _ _ _ _ _).
  - replace (find_route _) with (@inl route http_response RStop) by reflexivity. cbn [hr_Body]. unfold on_path. rewrite decode_marshal_path by done.
    cbn [pr_Path]. by destruct (handleStop _ _ _ _ _).
Qed.
Definition accept (name : string) (r : result http_response) : result json :=
  body ← response_body name r; x ← parsed (decode_status body); Ok (marshal_status x).
Definition ctl_name (k : ctl) : string := match k with KRegister => "register" | KUnregister => "unregister" | KStart => "start" | KStop => "stop" end.
(** A command that is well formed is an exchange. *)
Lemma run_ctl_exchange k f n oc an st c : command_of k f = Ok c ->
  run_ctl k f n oc an st = ((exchange n oc an (ctl_request c (ct_timeout f)) st).1, accept (ctl_name k) (exchange n oc an (ctl_request c (ct_timeout f)) st).2).
Proof.
  destruct k; cbn [command_of run_ctl ctl_name]; unfold RegisterCommand_Run, UnregisterCommand_Run, StartCommand_Run, StopCommand_Run;
    (match goal with |- context [match ?x with Ok _ => _ | Err _ => _ | Panic _ => _ end] => destruct x as [path|err|msg] end; cbn [mbind result_bind]; [|done..]);
    intros [= <-]; cbn [ctl_request]; by destruct (exchange _ _ _ _ _).
Qed.
Lemma run_ctl_refused k f n oc an st : (forall c, command_of k f <> Ok c) -> (run_ctl k f n oc an st).1 = st /\ succeeds (run_ctl k f n oc an st).2 = false.
Proof.
  destruct k; cbn [command_of run_ctl]; unfold RegisterCommand_Run, UnregisterCommand_Run, StartCommand_Run, StopCommand_Run;
    match goal with |- context [match ?x with Ok _ => _ | Err _ => _ | Panic _ => _ end] => destruct x as [path|err|msg] end; cbn [mbind result_bind]; intros H; try done;
    by destruct (H _ eq_refl).
Qed.
(** *** Handlers that go on *)

Lemma advance_add n n' oc c s : advance (n + n') oc c s = advance n' oc (advance n oc c s).2 (advance n oc c s).1.
Proof. revert c s. induction n as [|n IH]; intros c s; cbn [Nat.add advance]; [done|]. destruct (step grow oc c s). apply IH. Qed.
Lemma advance_Fin n oc r s : advance n oc (Fin r) s = (s, Fin r).
Proof. induction n as [|n IH]; [done|exact IH]. Qed.
Lemma run_steps_advance n oc c s : (run_steps grow n oc c s).1 = (advance n oc c s).1.
Proof. revert c s. induction n as [|n IH]; intros c s; [by destruct c|]. rewrite run_S. cbn [advance]. rewrite IH. by destruct (step grow oc c s). Qed.

(** The steps that a call has left, at most; the calls of the handlers have five. *)
Definition steps_left (c : pc) : nat :=
  match c with
  | RegStart _ => 5 | RegApply _ => 4 | RegOpen _ => 3 | RegInsert _ => 2 | RegClose _ => 1
  | UnregStart _ => 2 | UnregClose _ => 1 | EnableStart _ => 3 | EnableCheck _ => 2 | EnableOpen _ => 1
  | DisableStart _ => 3 | DisableCheck _ => 2 | DisableClose _ => 1 | Setting _ => 1
  | ValidateStart | ValidateNext _ _ _ => 6 | Fin _ => 0
  end.
Definition has_ended (x : outcome * pc) : bool := match x.2 with Fin _ => true | _ => false end.
Lemma step_left oc c s : (steps_left c <= 5)%nat -> (steps_left (step grow oc c s).2 <= steps_left c - 1)%nat.
Proof. destruct c; cbn; repeat case_match; cbn; lia. Qed.
Lemma advance_ends n oc c s : (steps_left c <= n)%nat -> (n <= 5)%nat -> has_ended (oc, (advance n oc c s).2) = true.
Proof.
  revert c s. induction n as [|n IH]; intros c s Hc Hn; [by destruct c; cbn in *; try lia|]. cbn [advance].
  pose proof (step_left oc c s). destruct (step grow oc c s). apply IH; cbn in *; lia.
Qed.
(** A call that has ended did what it does undisturbed. *)
Lemma advance_ended n oc c s : (steps_left c <= 5)%nat -> has_ended (oc, (advance n oc c s).2) = true -> (advance n oc c s).1 = (run_call grow oc c s).1.
Proof.
  intros Hc Hn. unfold run_call. rewrite run_steps_advance. pose proof (advance_ends 5 oc c s Hc (le_n 5)) as H5. unfold has_ended in *. cbn [snd] in *.
  destruct (le_ge_dec n 5) as [Hle|Hge].
  - replace 5%nat with (n + (5 - n))%nat by lia. rewrite advance_add. destruct (advance n oc c s).2; try done. by rewrite advance_Fin.
  - replace n with (5 + (n - 5))%nat by lia. rewrite advance_add. destruct (advance 5 oc c s).2; try done. by rewrite advance_Fin.
Qed.
Lemma respond_store status r : (respond status r).1 = r.1.
Proof. by destruct r as [s [[]|e|m]]. Qed.

(** The handler of a request runs the call. *)
Lemma call_on_path_serves call h body s s' c oc status :
  (forall path, h path s = with_path PathExpander path s (fun path => respond status (run_call grow oc (call path) s))) ->
  call_on_path call body s = Some (s', c) -> (on_path h body s).1 = (run_call grow oc c s').1 /\ exists path, c = call path.
Proof.
  intros Hh. unfold call_on_path, on_path. destruct (decode_path body) as [r|err|msg]; [|done..]. rewrite Hh. unfold with_path. case_bool_decide; [done|].
  destruct (expandPath PathExpander (pr_Path r)) as [path|err|msg]; [|done..]. intros [= <- <-]. split; [|by exists path].
  rewrite <- (respond_store status). by destruct (respond status _).
Qed.
Lemma call_to_register_serves oc body s s' c :
  call_to_register body s = Some (s', c) -> (serve_register oc body s).1 = (run_call grow oc c s').1 /\ exists p, c = RegStart p.
Proof.
  unfold call_to_register, serve_register. destruct (decode_register body) as [r|err|msg]; [|done..]. unfold handleRegister. case_bool_decide; [done|].
  case_bool_decide; [done|]. destruct (expandPath PathExpander (rr_Path r)) as [path|err|msg]; [|done..].
  destruct (FindDB s path) as [[q|]|err|msg]; [done| |done..]. destruct (client_error _); [done|]. destruct (new_db new_settings path s) as [p s1].
  intros [= <- <-]. split; [|by exists p]. rewrite <- (respond_store "registered"). by destruct (respond "registered" _).
Qed.
Lemma call_of_serves oc an req a s s' c : call_of req s = Some (s', c) ->
  (ServeHTTP oc an req (a, s)).1 = (a, (run_call grow oc c s').1) /\ (steps_left c <= 5)%nat.
Proof.
  unfold call_of, ServeHTTP. destruct (find_route req) as [[]|]; try done; intros H.
  - destruct (call_on_path_serves _ (handleStart grow PathExpander oc) _ _ _ _ oc "started" (fun _ => eq_refl) H) as [Hs [path ->]].
    cbn [fst]. rewrite Hs. split; [done|cbn; lia].
  - destruct (call_on_path_serves _ (handleStop grow PathExpander oc) _ _ _ _ oc "stopped" (fun _ => eq_refl) H) as [Hs [path ->]].
    cbn [fst]. rewrite Hs. split; [done|cbn; lia].
  - destruct (call_to_register_serves oc _ _ _ _ H) as [Hs [p ->]]. cbn [fst]. rewrite Hs. split; [done|cbn; lia].
  - destruct (call_on_path_serves _ (handleUnregister grow PathExpander oc) _ _ _ _ oc "unregistered" (fun _ => eq_refl) H) as [Hs [path ->]].
    cbn [fst]. rewrite Hs. split; [done|cbn; lia].
Qed.

(** Steps of running handlers, and that they have all ended. *)
Definition laters (js : list nat) (w : world) : world := foldl (fun w i => later i w) w js.
Definition all_ended (w : world) : bool := forallb has_ended w.2.
Lemma later_ended i st running x : running !! i = Some x -> has_ended x = true -> later i (st, running) = (st, running).
Proof.
  destruct st as [a s], x as [oc c]. unfold later. intros Hi Hx. rewrite Hi. destruct c; try done. cbn. by rewrite list_insert_id.
Qed.
Lemma later_last a s running oc c :
  later (length running) ((a, s), (running ++ [(oc, c)])%list) = ((a, (step grow oc c s).1), (running ++ [(oc, (step grow oc c s).2)])%list).
Proof.
  unfold later. rewrite list_lookup_middle by done. destruct (step grow oc c s) as [s1 c1]. by rewrite insert_app_r_alt, Nat.sub_diag by done.
Qed.
(** When all but the last have ended, only the last one moves. *)
Lemma laters_last js a s running oc c : forallb has_ended running = true -> exists n,
  laters js ((a, s), (running ++ [(oc, c)])%list) = ((a, (advance n oc c s).1), (running ++ [(oc, (advance n oc c s).2)])%list).
Proof.
  intros Hr. revert s c. induction js as [|i js IH]; intros s c; cbn [laters foldl]; [by exists 0%nat|]. fold (laters js).
  destruct (running !! i) as [x|] eqn:Ei.
  - rewrite (later_ended i (a, s) _ x); [apply IH|by apply lookup_app_l_Some|].
    rewrite forallb_forall in Hr. apply Hr, list_elem_of_In. by eapply list_elem_of_lookup_2.
  - destruct (decide (i = length running)) as [->|Hne].
    + rewrite later_last. destruct (IH (step grow oc c s).1 (step grow oc c s).2) as [n Hn]. exists (S n). cbn [advance].
      destruct (step grow oc c s). exact Hn.
    + replace (later i _) with ((a, s), (running ++ [(oc, c)])%list); [apply IH|]. unfold later.
      rewrite (proj2 (lookup_ge_None _ _)); [done|]. apply lookup_ge_None in Ei. rewrite length_app. cbn. lia.
Qed.
Lemma laters_ended js st running : forallb has_ended running = true -> laters js (st, running) = (st, running).
Proof.
  intros Hr. induction js as [|i js IH]; cbn [laters foldl]; [done|]. fold (laters js). destruct (running !! i) as [x|] eqn:Ei.
  - rewrite (later_ended i st running x); [done..|]. rewrite forallb_forall in Hr. apply Hr, list_elem_of_In. by eapply list_elem_of_lookup_2.
  - replace (later i (st, running)) with (st, running); [done|]. unfold later. destruct st. by rewrite Ei.
Qed.

(** A command whose handler ends before the next one does to the map what its request does. *)
Lemma run_ctl_refines k f n oc an js a s running m : shows s m -> int64_ok (ct_timeout f) = true -> forallb has_ended running = true ->
  let r := run_ctl k f n oc an ((a, s), running) in let w := laters js r.1 in let x := ctl_spec k f n oc m in
  all_ended w = true -> w.1.1 = a /\ shows w.1.2 x.1 /\ succeeds r.2 = x.2.
Proof.
  intros Hs Ht Hr. cbn zeta. unfold ctl_spec. destruct (command_of k f) as [c|err|msg] eqn:Ec;
    [|destruct (run_ctl_refused k f n oc an ((a, s), running)) as [-> ->]; [by rewrite Ec|by rewrite laters_ended]..].
  rewrite (run_ctl_exchange _ _ _ _ _ _ _ Ec). destruct (handle_refines grow PathExpander client_error new_settings oc c s m Hs) as [Hs' Hc].
  pose proof (api_code oc c m) as Hc0. destruct (ServeHTTP_command oc an c (ct_timeout f) a s Ht) as [path HS].
  destruct (api PathExpander client_error oc c m) as [m' code]. cbn [fst snd] in *.
  destruct n as [err|steps err|err|]; unfold exchange; rewrite ?HS; cbn [fst snd]; try (by rewrite laters_ended).
  - destruct (call_of (ctl_request c (ct_timeout f)) s) as [[s1 pc1]|] eqn:Ecall; [|by rewrite laters_ended].
    destruct (call_of_serves oc an _ a s s1 pc1 Ecall) as [HE Hl]. rewrite HS in HE. injection HE as HE.
    destruct (advance steps oc pc1 s1) as [s2 c2] eqn:Ea. destruct (laters_last js a s2 running oc c2 Hr) as [j ->].
    unfold all_ended. cbn [snd fst]. rewrite forallb_app. intros [_ He]%andb_true_iff. cbn [forallb] in He. rewrite andb_true_r in He.
    assert (HA : advance j oc c2 s2 = advance (steps + j) oc pc1 s1) by (rewrite advance_add, Ea; done).
    rewrite HA in He |- *. rewrite (advance_ended _ _ _ _ Hl He), <- HE. done.
  - destruct (written_accepted (ctl_name k) path (handle grow PathExpander client_error new_settings oc c s).2) as (resp & -> & Hacc); [congruence|].
    cbn [fst snd]. rewrite laters_ended by done. intros _. split_and!; [done..|]. unfold accept. by rewrite Hacc, Hc.
Qed.

(** *** Sessions *)

(** Commands one after the other, each with what becomes of its request, how the calls of the store end, and the steps that handlers still
    running take before the next command. *)
Abbreviation sent := (ctl * ctl_flags * net * outcome * list nat)%type (only parsing).
Fixpoint session (l : list sent) (an : Answers) (w : world) : world * list bool :=
  match l with
  | [] => (w, [])
  | (k, f, n, oc, js) :: l => let '(w, r) := run_ctl k f n oc an w in let '(w, rs) := session l an (laters js w) in (w, succeeds r :: rs)
  end.
Fixpoint session_spec (l : list sent) (m : gmap string bool) : gmap string bool * list bool :=
  match l with
  | [] => (m, [])
  | (k, f, n, oc, _) :: l => let '(m, b) := ctl_spec k f n oc m in let '(m, bs) := session_spec l m in (m, b :: bs)
  end.
Definition valid_session (l : list sent) : Prop := Forall (fun x => int64_ok (ct_timeout x.1.1.1.2) = true) l.
(** No handler is still running when the next command is given, or at the end. *)
Fixpoint settled (l : list sent) (an : Answers) (w : world) : bool :=
  match l with
  | [] => true
  | (k, f, n, oc, js) :: l => let w := laters js (run_ctl k f n oc an w).1 in all_ended w && settled l an w
  end.

Lemma session_refines l an a s running m : shows s m -> valid_session l -> forallb has_ended running = true -> settled l an ((a, s), running) = true ->
  let r := session l an ((a, s), running) in let x := session_spec l m in r.1.1.1 = a /\ shows r.1.1.2 x.1 /\ r.2 = x.2.
Proof.
  intros Hs Hl. revert s m running Hs. induction Hl as [|[[[[k f] n] oc] js] l Ht _ IH]; intros s m running Hs Hr; cbn zeta; cbn [session session_spec settled]; [done|].
  intros [He Hse]%andb_true_iff. destruct (run_ctl_refines k f n oc an js a s running m Hs Ht Hr He) as (Ha & Hs' & Hb).
  destruct (run_ctl k f n oc an ((a, s), running)) as [w r], (ctl_spec k f n oc m) as [m' b]. cbn [fst snd] in *. subst b.
  destruct (laters js w) as [[a' s'] running']. cbn [fst snd] in *. subst a'. destruct (IH s' m' running' Hs' He Hse) as (Ha & Hs2 & Hbs).
  destruct (session l an ((a, s'), running')) as [w2 rs], (session_spec l m') as [m2 bs]. cbn [fst snd] in *. split_and!; [done..|by f_equal].
Qed.

(** The databases that the server lists. *)
Definition summaries (an : Answers) (s : Store) : list DatabaseSummary :=
  omap (fun e => match e with
    | Some p => Some (mkSummary (default "" (path_of s p)) (list_status (an_monitored an) s p) (an_synced_at an p)) | None => None end) (dbs s).
Lemma summaries_listed an s : (fun d => (ds_Path d, ds_Status d)) <$> summaries an s = handleList (an_monitored an) s.
Proof. unfold summaries, handleList. induction (dbs s) as [|[p|] l IH]; cbn; [done| |done]. by f_equal. Qed.
Lemma summaries_shown an s m : shows s m ->
  NoDup (ds_Path <$> summaries an s) /\
  (forall path b, m !! path = Some b <-> exists d, d ∈ summaries an s /\ ds_Path d = path /\ b = negb (bool_decide (ds_Status d = "stopped"))).
Proof.
  intros Hs. destruct (list_shows (an_monitored an) s m Hs) as (H1 & H2 & H3 & _). rewrite <- summaries_listed in H1, H2, H3.
  assert (G : forall path b, (exists d, d ∈ summaries an s /\ ds_Path d = path /\ b = negb (bool_decide (ds_Status d = "stopped"))) -> m !! path = Some b).
  { intros path b (d & Hd & <- & ->). apply H1. apply list_elem_of_In, list_elem_of_fmap. by exists d. }
  split; [by rewrite <- list_fmap_compose in H3|]. intros path b. split; [|apply G]. intros Hb. destruct (H2 _ _ Hb) as (st & Hst%list_elem_of_In).
  apply list_elem_of_fmap in Hst as (d & [= -> ->] & Hd). exists d. split_and!; [done..|].
  rewrite (G (ds_Path d) (negb (bool_decide (ds_Status d = "stopped")))) in Hb; [by injection Hb|by exists d].
Qed.
Lemma ListCommand_lists f oc an a s running : no_args f = Ok () -> ct_json f = false ->
  ListCommand_Run f Delivered oc an ((a, s), running) = (((a, s), running), Ok (OutLines (list_lines (summaries an s)))).
Proof.
  intros Hf Hj. unfold ListCommand_Run. rewrite Hf. unfold exchange, ServeHTTP. replace (find_route _) with (@inl route http_response RList) by reflexivity.
  unfold serve_list, writeJSON, response_body, parsed. cbn [mbind result_bind hp_Code hp_Body]. rewrite Z.eqb_refl. cbn [mbind result_bind].
  rewrite decode_marshal_list. cbn. by rewrite Hj.
Qed.

(** C40: Through their flags, the socket and the bodies of the requests, the commands register, unregister, start and stop implement a map from
    paths to whether the database is open: for every sequence of command lines, with requests that are not sent, responses that are lost
    and clients that give up at any step of the handler, a command succeeds exactly when the map says so (a client that gives up
    has failed, its request is handled), and the list command then prints each database of the map once, stopped exactly when it is
    closed.  This is so when every handler, that of a client that gave up too, has ended before the next command is given ([settled]);
    [stop_overlaps_start] shows what happens when one has not. *)
Theorem control_commands_refine l an a s m f oc : shows s m -> valid_session l -> settled l an ((a, s), []) = true -> no_args f = Ok () -> ct_json f = false ->
  let '(((a', s'), running), oks) := session l an ((a, s), []) in
  let '(m', oks') := session_spec l m in
  oks = oks' /\ a' = a /\
  exists ds, (ListCommand_Run f Delivered oc an ((a', s'), running)).2 = Ok (OutLines (list_lines ds)) /\ NoDup (ds_Path <$> ds) /\
    forall path b, m' !! path = Some b <-> exists d, d ∈ ds /\ ds_Path d = path /\ b = negb (bool_decide (ds_Status d = "stopped")).
Proof.
  intros Hs Hl Hse Hf Hj. destruct (session_refines l an a s [] m Hs Hl eq_refl Hse) as (Ha & Hs' & Hr).
  destruct (session l an ((a, s), [])) as [[[a' s'] running] oks], (session_spec l m) as [m' oks']. cbn [fst snd] in *.
  split; [done|]. split; [done|]. exists (summaries an s'). rewrite (ListCommand_lists f oc an a' s' running Hf Hj). split; [done|]. by apply summaries_shown.
Qed.

(** A sync command that succeeds reports the transactions of a sync of the named database with the timeout of the command line; one that was
    not sent does nothing. *)
Theorem sync_command_reports f n oc an a s running w' out :
  (forall a found wait t x, (sync a found wait t).2 = Ok x -> uint64_ok (sr_TXID x) = true /\ uint64_ok (sr_ReplicatedTXID x) = true) ->
  int64_ok (ct_timeout f) = true -> SyncCommand_Run f n oc an ((a, s), running) = (w', Ok out) ->
  exists a' path p x, w' = ((a', s), running) /\ ct_args f = [path] /\ expandPath PathExpander path = Ok p /\ 0 < ct_timeout f /\
    sync a (found s p) (ct_wait f) (Some (ct_timeout f)) = (a', Ok x) /\
    out = marshal_synced (mkSyncResponse (rs_status (sync_response (ct_wait f) (Ok x))) p (sr_TXID x) (sr_ReplicatedTXID x)).
Proof.
  intros Hu Ht. unfold SyncCommand_Run, path_and_timeout, one_path, positive_timeout. destruct (ct_args f) as [|path [|]]; [done| |done].
  cbn [mbind result_bind]. destruct (ct_timeout f <=? 0) eqn:E0; [done|]. cbn [mbind result_bind]. unfold exchange.
  destruct n as [err|steps err|err|]; [done|done|done|].
  unfold ServeHTTP. replace (find_route _) with (@inl route http_response RSync) by reflexivity. cbn [hr_Body]. unfold serve_sync.
  rewrite decode_marshal_sync by done. cbn [sq_Path sq_Wait sq_Timeout]. case_bool_decide; [done|].
  destruct (expandPath PathExpander path) as [p|err|msg] eqn:Ex; [|done..].
  replace (sync_timeout (ct_wait f) (ct_timeout f)) with (Some (ct_timeout f))
    by (unfold sync_timeout; destruct (ct_wait f); cbn [andb]; repeat case_match; (lia || done)).
  destruct (sync a (found s p) (ct_wait f) (Some (ct_timeout f))) as [a1 res] eqn:Es. pose proof (Hu a (found s p) (ct_wait f) (Some (ct_timeout f))) as Hx.
  rewrite Es in Hx. cbn [snd] in Hx. destruct res as [x|err|msg]; [| |done].
  - destruct (Hx x eq_refl) as [H1 H2]. unfold response_body, writeJSON, parsed. cbn [mbind result_bind hp_Code hp_Body]. rewrite Z.eqb_refl.
    cbn [mbind result_bind]. rewrite decode_marshal_synced by done. cbn [mbind result_bind]. intros [= <- <-].
    exists a1, path, p, x. split_and!; try done. lia.
  - assert (Hc : (rs_code (sync_response (ct_wait f) (Err err)) =? StatusOK) = false) by (unfold sync_response; by repeat case_match).
    destruct (error_refused "sync" _ (rs_status (sync_response (ct_wait f) (Err err))) None Hc) as [e He]. by rewrite He.
Qed.
End Control.

(** ** The timeout of a command

    [time.Duration(timeout) * time.Second] in 64 bits: seconds that fit stay positive, others wrap around. *)
Definition int64 (n : Z) : Z := (n + 2 ^ 63) mod 2 ^ 64 - 2 ^ 63.
Definition client_timeout (timeout : Z) : duration := int64 (timeout * Second).
Theorem client_timeout_fits t : 0 < t <= 9223372036 -> client_timeout t = t * Second.
Proof. intros H. unfold client_timeout, int64, Second in *. rewrite Z.mod_small; lia. Qed.
Example client_timeout_wraps : client_timeout 9223372037 < 0.
Proof. by vm_compute. Qed.

(** ** The socket *)

(** What is at the path of the socket: nothing, a socket that a process made, or something else. *)
Inductive socket_node := NoFile | Socket (owner : nat) (perm : Z) | OtherFile.
(** Calls of the system that fail, and the permissions that a new socket gets. *)
Record socket_env := mkSocketEnv { se_lstat : option error; se_remove : option error; se_listen : option error; se_chmod : option error; se_perm : Z }.
Record SocketServer := mkSocketServer { sv_SocketPath : string; sv_SocketPerms : Z; sv_listening : bool }.
Definition NewServer_perms : Z := 384. (* 0600 *)
Definition set_listening (b : bool) (v : SocketServer) : SocketServer := mkSocketServer (sv_SocketPath v) (sv_SocketPerms v) b.

(** [Start] of process [me]: a socket that is there is replaced, anything else is left. *)
Definition Server_Start (me : nat) (e : socket_env) (v : SocketServer) (nd : socket_node) : SocketServer * socket_node * result () :=
  if bool_decide (sv_SocketPath v = "") then (v, nd, Err (EMsg "socket path required")) else
  let cleared :=
    match se_lstat e, nd with
    | Some err, _ => if os_IsNotExist err then Ok nd else Err (EWrap "check socket path" err)
    | None, NoFile => Ok NoFile
    | None, OtherFile => Err (EMsg "socket path exists but is not a socket")
    | None, Socket _ _ => match se_remove e with Some err => Err (EWrap "remove existing socket" err) | None => Ok NoFile end
    end in
  match cleared with
  | Err err => (v, nd, Err err)
  | Panic m => (v, nd, Panic m)
  | Ok NoFile =>
      match se_listen e with
      | Some err => (v, NoFile, Err (EWrap "listen on unix socket" err))
      | None =>
          match se_chmod e with
          | Some err => (v, NoFile, Err (EWrap "chmod socket" err))
          | None => (set_listening true v, Socket me (sv_SocketPerms v), Ok ())
          end
      end
  | Ok nd => (v, nd, Err (EWrap "listen on unix socket" (EMsg "address already in use")))
  end.
(** [Close]: the listener removes the file of its path. *)
Definition Server_Close (v : SocketServer) (nd : socket_node) : SocketServer * socket_node :=
  if sv_listening v then (set_listening false v, match nd with Socket _ _ => NoFile | _ => nd end) else (v, nd).

(** A server that has started listens on a socket of its own with the permissions it was given; one that has not leaves whatever is not a
    socket as it was. *)
Theorem Server_Start_spec me e v nd v' nd' r : sv_listening v = false -> Server_Start me e v nd = (v', nd', r) ->
  (r = Ok () -> sv_listening v' = true /\ nd' = Socket me (sv_SocketPerms v)) /\
  (r <> Ok () -> v' = v /\ (nd = OtherFile -> nd' = OtherFile)) /\
  (nd = OtherFile -> se_lstat e = None -> r <> Ok ()).
Proof. intros Hl. unfold Server_Start. repeat (case_match; simplify_eq); intros [= <- <- <-]; split_and!; done. Qed.
Theorem Server_Close_removes me e v nd v' nd' : sv_listening v = false -> Server_Start me e v nd = (v', nd', Ok ()) ->
  Server_Close v' nd' = (set_listening false v, NoFile).
Proof.
  intros Hl H. unfold Server_Start in H. repeat (case_match; simplify_eq); unfold Server_Close; cbn; destruct v as [p q l]; cbn in *; by subst.
Qed.

(** ** Examples *)

Module ControlDemo.
Definition an : Answers := mkAnswers (fun _ => Ok 7) (fun _ => true) (fun _ => None) "v1" 42 "2020-01-01T00:00:00Z" 3.
Definition no_sync (a : ()) (found : option bool) (wait : bool) (t : option Z) : () * result SyncDBResult := (a, Err ErrDatabaseNotFound).
Definition flags (args : list string) : ctl_flags := mkCtl 30 "file:///d" false false args.
(** The client that registers d gives up after two steps of the handler, which ends before the next command. *)
Definition commands : list (ctl * ctl_flags * net * outcome * list nat) :=
  [(KStop, flags ["a"], Delivered, StoreDemo.calm, []); (KStart, flags [], Delivered, StoreDemo.calm, []);
   (KRegister, flags ["d"], NoReply 2 (EMsg "timeout"), StoreDemo.calm, [0; 0; 0]%nat);
   (KRegister, flags ["d"], Delivered, StoreDemo.calm, []); (KUnregister, flags ["b"], NotSent (EMsg "refused"), StoreDemo.calm, []);
   (KUnregister, flags ["b"], Delivered, ServerDemo.failing, [])].
Definition run := session StoreDemo.grow None (fun _ => None) StoreDemo.cfg0 no_sync commands an (((), StoreDemo.store0), []).
(** The client that stops a gives up while the database is being closed; it is started again, and then the close ends. *)
Definition overlap : list (ctl * ctl_flags * net * outcome * list nat) :=
  [(KStop, flags ["a"], NoReply 2 (EMsg "timeout"), StoreDemo.calm, []); (KStart, flags ["a"], Delivered, StoreDemo.calm, [0]%nat)].
Definition run_overlap := session StoreDemo.grow None (fun _ => None) StoreDemo.cfg0 no_sync overlap an (((), StoreDemo.store0), []).
(** Two processes use one path: the first one that ends takes the socket of the other with it. *)
Definition server : SocketServer := mkSocketServer "/run/r.sock" NewServer_perms false.
Definition fine : socket_env := mkSocketEnv None None None None 511.
Definition first : SocketServer * socket_node * result () := Server_Start 1 fine server NoFile.
Definition second : SocketServer * socket_node * result () := Server_Start 2 fine server first.1.2.
End ControlDemo.

Lemma control_commands_refine_witness :
  session_spec None (fun _ => None) ControlDemo.commands ServerDemo.shown0 = ({["a" := false; "d" := true]}, [true; false; false; true; false; false]) /\
  ControlDemo.run.2 = [true; false; false; true; false; false].
Proof.
  assert (session_spec None (fun _ => None) ControlDemo.commands ServerDemo.shown0 = ({["a" := false; "d" := true]}, [true; false; false; true; false; false])) as Hx
    by (vm_compute; reflexivity).
  assert (valid_session ControlDemo.commands) as Hv by (repeat constructor).
  assert (settled StoreDemo.grow None (fun _ => None) StoreDemo.cfg0 ControlDemo.no_sync ControlDemo.commands ControlDemo.an (((), StoreDemo.store0), []) = true) as Hse
    by (vm_compute; reflexivity).
  split; [exact Hx|]. unfold ControlDemo.run.
  pose proof (control_commands_refine StoreDemo.grow None (fun _ => None) StoreDemo.cfg0 ControlDemo.no_sync ControlDemo.commands ControlDemo.an () StoreDemo.store0
    ServerDemo.shown0 (ControlDemo.flags []) StoreDemo.calm ServerDemo.shows0 Hv Hse eq_refl eq_refl) as HT.
  rewrite Hx in HT. destruct (session _ _ _ _ _ _ _ _) as [[[a s] running] oks]. exact (proj1 HT).
Defined.
(** A stop that times out while [DB.Close] still runs, then a start: the database counts as open until the end of [Close], so the start is
    refused, and the database ends stopped; the map, in which the stop has happened before the start, has it open. *)
Theorem stop_overlaps_start :
  settled StoreDemo.grow None (fun _ => None) StoreDemo.cfg0 ControlDemo.no_sync ControlDemo.overlap ControlDemo.an (((), StoreDemo.store0), []) = false /\
  ControlDemo.run_overlap.2 = [false; false] /\ found ControlDemo.run_overlap.1.1.2 "a" = Some false /\
  (session_spec None (fun _ => None) ControlDemo.overlap ServerDemo.shown0).2 = [false; true] /\
  (session_spec None (fun _ => None) ControlDemo.overlap ServerDemo.shown0).1 !! "a" = Some true.
Proof. by vm_compute. Qed.
Example socket_taken_away :
  ControlDemo.second.2 = Ok () /\ sv_listening ControlDemo.second.1.1 = true /\ (Server_Close ControlDemo.first.1.1 ControlDemo.second.1.2).2 = NoFile.
Proof. by vm_compute. Qed.
