(* ===== verification/Commands.v ===== *)
(** * The commands on files and replicas

    Model of the commands that need no running process: restore, ltx, databases, status and reset (src/cmd/replicate).  They read the
    configuration (Config.v), make databases and replicas from it (Directory.v), and call the library: [Replica.Restore]
    (Restore.v) as an interface with its promises, the listings of a client (Ltx.v), and [DB.ResetLocalState] and [DB.MaxLTX] (Db.v).
    Here the flags are values; Flags.v reads them from arguments, and Text.v lays out tables. *)

From Stdlib Require Import ZArith Lia Ascii String Strings.Byte.
From stdpp Require Import base numbers list strings gmap.
From S2P Require Import Prelude WalReader Ltx Levels Streams RestorePlan Compactor Replica V3 Db Restore Urls S3Config ReplicaConfig Config Directory Shutdown Command.
Local Open Scope Z_scope.

Section Commands.
Context {replica : Type}.
Variable read_config : str -> bool -> result Config.
Variable DefaultConfigPath : str.
Variable DefaultSyncInterval : duration.
Variables cwd home : result str.
Variable NewReplica : ReplicaConfig -> result replica.
(** Files, and errors of [os.Stat] other than a missing file. *)
Abbreviation files := (gmap str (list byte)).
Variable stat_fault : str -> option error.

(** ** restore *)

(** [time.Parse] of RFC 3339. *)
Variable parse_time : str -> option time.
(** [Replica.CalcRestoreTarget] and [Replica.Restore]. *)
Variable target : replica -> time -> result time.
Variable restore : replica -> RestoreOptions -> files -> files * result ().

Record RestoreFlags := mkRestoreFlags {
  rf_config : str; rf_noExpandEnv : bool; rf_o : str; rf_txid : TXID; rf_parallelism : Z; rf_ifDBNotExists : bool; rf_ifReplicaExists : bool;
  rf_timestamp : str; rf_follow : bool; rf_followInterval : duration; rf_integrityCheck : str; rf_args : list str
}.
Definition errSkipDBExists : error := EVar "database already exists, skipping".

(** The options without the output path. *)
Definition options (f : RestoreFlags) (timestamp : time) (mode : Z) (out : str) : RestoreOptions :=
  mkRestoreOptions (string_of_list_ascii out) (rf_txid f) timestamp (rf_parallelism f) (rf_follow f) (rf_followInterval f) mode.
Definition integrity_mode (s : str) : result Z :=
  if bool_decide (s = lit "none") then Ok IntegrityCheckNone else if bool_decide (s = lit "quick") then Ok IntegrityCheckQuick
  else if bool_decide (s = lit "full") then Ok IntegrityCheckFull else Err (EMsg "invalid -integrity-check value").
(** [os.Stat] does not report that the file is missing. *)
Definition not_missing (d : files) (p : str) : bool :=
  negb (match os_Stat stat_fault d p with Some err => os_IsNotExist err | None => false end).

(** The replica and the output path. *)
Definition loadFromURL (url : str) (f : RestoreFlags) (timestamp : time) (d : files) : result (replica * str) :=
  if negb (nonempty (rf_o f)) then Err (EMsg "output path required") else
  if not_missing d (rf_o f) && rf_ifDBNotExists f then Err errSkipDBExists else
  r ← NewReplica (mkReplicaConfig (sync_settings DefaultSyncInterval) [] [] [] url);
  _ ← target r timestamp;
  Ok (r, rf_o f).
Definition loadFromConfig (dbPath configPath : str) (f : RestoreFlags) (d : files) : result (replica * str) :=
  config ← read_config configPath (negb (rf_noExpandEnv f));
  dbPath ← expand cwd home dbPath;
  match Config_DBConfig config dbPath with
  | None => Err (EMsg "database not found in config")
  | Some dbc =>
      db ← NewDBFromConfig cwd home NewReplica dbc;
      let out := if nonempty (rf_o f) then rf_o f else dbPath in
      if not_missing d out && rf_ifDBNotExists f then Err errSkipDBExists else
      match db_Replica db with Some r => Ok (r, out) | None => Panic "nil pointer dereference" end
  end.

(** The arguments: the time and the mode of the check, and where to restore from and to. *)
Definition restore_args (f : RestoreFlags) (d : files) : result (replica * str * time * Z) :=
  arg ← match rf_args f with
        | [] => Err (EMsg "database path or replica URL required")
        | [a] => if nonempty a then Ok a else Err (EMsg "database path or replica URL required")
        | a :: _ => if nonempty a then Err (EMsg "too many arguments") else Err (EMsg "database path or replica URL required")
        end;
  mode ← integrity_mode (rf_integrityCheck f);
  timestamp ← (if nonempty (rf_timestamp f)
               then match parse_time (rf_timestamp f) with Some t => Ok t | None => Err (EMsg "invalid -timestamp, must specify in ISO 8601 format") end
               else Ok 0);
  '(r, out) ← (if IsURL arg then
                 if nonempty (rf_config f) then Err (EMsg "cannot specify a replica URL and the -config flag") else loadFromURL arg f timestamp d
               else loadFromConfig arg (if nonempty (rf_config f) then rf_config f else DefaultConfigPath) f d);
  Ok (r, out, timestamp, mode).
Definition RestoreCommand_Run (f : RestoreFlags) (d : files) : files * result () :=
  match restore_args f d with
  | Err err => (d, if errors_Is err errSkipDBExists then Ok () else Err err)
  | Panic m => (d, Panic m)
  | Ok (r, out, timestamp, mode) =>
      match restore r (options f timestamp mode out) d with
      | (d, Err err) =>
          (d, if errors_Is err ErrTxNotAvailable
              then if rf_ifReplicaExists f then Ok () else Err (EMsg "no matching backup files available")
              else Err err)
      | x => x
      end
  end.

(** What [Restore] promises when it does not follow: an output that exists is refused, one that does not becomes a database of the replica, and no
    other file changes but the temporary one; that no transaction is available is the answer of a replica without a backup for the options. *)
Variable database_of : replica -> RestoreOptions -> list byte -> Prop.
Class RestoreOptionLaws := {
  option_exists r opt d b : ro_Follow opt = false -> d !! list_ascii_of_string (OutputPath opt) = Some b -> exists err, restore r opt d = (d, Err err) /\ errors_Is err ErrTxNotAvailable = false;
  option_output r opt d d' : ro_Follow opt = false -> restore r opt d = (d', Ok ()) -> exists b, d' !! list_ascii_of_string (OutputPath opt) = Some b /\ database_of r opt b;
  option_failed r opt d d' err : ro_Follow opt = false -> restore r opt d = (d', Err err) -> d' !! list_ascii_of_string (OutputPath opt) = d !! list_ascii_of_string (OutputPath opt);
  option_frame r opt d d' x q : restore r opt d = (d', x) -> q <> list_ascii_of_string (OutputPath opt) ->
    q <> tmp_path (list_ascii_of_string (OutputPath opt)) -> d' !! q = d !! q;
  option_no_backup r opt d d' err b : restore r opt d = (d', Err err) -> errors_Is err ErrTxNotAvailable = true -> ~ database_of r opt b;
  option_panics r opt d d' m : restore r opt d <> (d', Panic m)
}.
Context `{HRO : !RestoreOptionLaws}.

Lemma options_output f ts mode out : list_ascii_of_string (OutputPath (options f ts mode out)) = out.
Proof. apply list_ascii_of_string_of_list_ascii. Qed.
(** The command ends in one of three ways: without a restore, with one, or after a skip. *)
Lemma restore_skips f d err : restore_args f d = Err err -> RestoreCommand_Run f d = (d, if errors_Is err errSkipDBExists then Ok () else Err err).
Proof. unfold RestoreCommand_Run. by intros ->. Qed.

(** A restore that does not follow never changes a file that exists, except the temporary file of its output, whatever the flags; and one that
    reports success has left a database of the replica for the options at the output, or was told to accept that there is no backup, or that the output
    exists. *)
Theorem restore_command_safe f d d' x r out ts mode : rf_follow f = false -> restore_args f d = Ok (r, out, ts, mode) -> RestoreCommand_Run f d = (d', x) ->
  (forall q b, q <> tmp_path out -> d !! q = Some b -> d' !! q = Some b) /\
  (x = Ok () -> (exists b, d' !! out = Some b /\ database_of r (options f ts mode out) b) \/
                (rf_ifReplicaExists f = true /\ d' !! out = d !! out /\ forall b, ~ database_of r (options f ts mode out) b)).
Proof.
  intros Hf Ha. unfold RestoreCommand_Run. rewrite Ha. set (opt := options f ts mode out).
  assert (Hfo : ro_Follow opt = false) by done. assert (Ho : list_ascii_of_string (OutputPath opt) = out) by apply options_output.
  destruct (restore r opt d) as [d1 y] eqn:ER.
  assert (K : forall q b, q <> tmp_path out -> d !! q = Some b -> d1 !! q = Some b).
  { intros q b Hq Hb. destruct (decide (q = out)) as [->|Hne].
    - rewrite <- Ho in Hb. destruct (option_exists r opt d b Hfo Hb) as (err & He & _). rewrite He in ER. injection ER as <- _. by rewrite <- Ho.
    - rewrite (option_frame _ _ _ _ _ _ ER); [done|by rewrite Ho..]. }
  destruct y as [[]|err|m]; [| |exfalso; by eapply option_panics].
  - intros [= <- <-]. split; [done|]. intros _. left. destruct (option_output _ _ _ _ Hfo ER) as (b & Hb & Hd). exists b. by rewrite <- Ho at 1.
  - destruct (errors_Is err ErrTxNotAvailable) eqn:Ee; [|intros [= <- <-]; by split]. destruct (rf_ifReplicaExists f) eqn:Ei; intros [= <- <-]; (split; [exact K|]); [|done].
    intros _. right. split_and!; [done| |by intros b; eapply option_no_backup].
    pose proof (option_failed _ _ _ _ _ Hfo ER) as H. by rewrite Ho in H.
Qed.

(** With [-if-db-not-exists] an output that exists is success, follow mode or not, and nothing changes. *)
Theorem restore_command_skips f d url b : rf_args f = [url] -> nonempty url = true -> IsURL url = true -> rf_config f = [] -> nonempty (rf_o f) = true ->
  rf_ifDBNotExists f = true -> rf_timestamp f = [] -> integrity_mode (rf_integrityCheck f) <> Err (EMsg "invalid -integrity-check value") ->
  stat_fault (rf_o f) = None -> d !! rf_o f = Some b -> RestoreCommand_Run f d = (d, Ok ()).
Proof.
  intros Ha Hn Hu Hc Ho Hi Ht Hm Hs Hb. apply (restore_skips f d errSkipDBExists). unfold restore_args. rewrite Ha, Hn. cbn [mbind result_bind].
  destruct (integrity_mode (rf_integrityCheck f)) as [mode|err|m] eqn:Em; cbn [mbind result_bind];
    [|exfalso; revert Em Hm; unfold integrity_mode; repeat case_bool_decide; congruence|exfalso; revert Em; unfold integrity_mode; repeat case_bool_decide; done].
  rewrite Ht, Hu, Hc. cbn [nonempty mbind result_bind]. unfold loadFromURL. rewrite Ho. cbn [negb]. unfold not_missing, os_Stat. rewrite Hs, Hb, Hi. done.
Qed.

(** ** Databases of the configuration *)

(** A database of the configuration by its path, for restore and ltx; commands over all of them. *)
Definition find_db (configPath : str) (noExpandEnv : bool) (arg : str) : result (DB replica) :=
  config ← read_config configPath (negb noExpandEnv);
  path ← expand cwd home arg;
  match Config_DBConfig config path with
  | None => Err (EMsg "database not found in config")
  | Some dbc => NewDBFromConfig cwd home NewReplica dbc
  end.
Definition config_path (config : str) : str := if nonempty config then config else DefaultConfigPath.

(** ** ltx *)

Section Ltx.
Context {C : Type} `{RC : ReplicaClient C}.
Variable client_of : replica -> C.
Record LtxFlags := mkLtxFlags { lf_config : str; lf_noExpandEnv : bool; lf_level : Z; lf_args : list str }.

Definition ltx_levels (level : Z) : list Z := if level =? levelAll then seqZ 0 (SnapshotLevel + 1) else [level].
(** The rows of the levels; those before an error are printed. *)
Fixpoint ltx_rows (cl : C) (levels : list Z) (rows : list (Z * FileInfo)) : list (Z * FileInfo) * result () :=
  match levels with
  | [] => (rows, Ok ())
  | lvl :: levels =>
      match LTXFiles cl lvl 0 false with
      | Err err => (rows, Err err)
      | Panic m => (rows, Panic m)
      | Ok itr =>
          let rows := (rows ++ ((fun info => (lvl, info)) <$> itr_items itr))%list in
          match itr_Close itr with Some err => (rows, Err err) | None => ltx_rows cl levels rows end
      end
  end.
Definition ltx_replica (f : LtxFlags) : result replica :=
  arg ← match lf_args f with
        | [] => Err (EMsg "database path required")
        | [a] => if nonempty a then Ok a else Err (EMsg "database path required")
        | a :: _ => if nonempty a then Err (EMsg "too many arguments") else Err (EMsg "database path required")
        end;
  if IsURL arg then
    if nonempty (lf_config f) then Err (EMsg "cannot specify a replica URL and the -config flag")
    else NewReplica (mkReplicaConfig empty_settings [] [] [] arg)
  else
    db ← find_db (config_path (lf_config f)) (lf_noExpandEnv f) arg;
    match db_Replica db with None => Err (EMsg "database has no replica") | Some r => Ok r end.
Definition LTXCommand_Run (f : LtxFlags) : list (Z * FileInfo) * result () :=
  match ltx_replica f with
  | Err err => ([], Err err)
  | Panic m => ([], Panic m)
  | Ok r => ltx_rows (client_of r) (ltx_levels (lf_level f)) []
  end.

Context `{RL : !ReplicaClientLaws C}.
Lemma ltx_rows_exact cl levels rows out : Forall (fun l => 0 <= l) levels -> ltx_rows cl levels rows = (out, Ok ()) ->
  out = (rows ++ (levels ≫= (fun l => (fun info => (l, info)) <$> level_files cl false l)))%list.
Proof.
  intros Hl. revert rows. induction Hl as [|l levels _ _ IH]; intros rows; cbn [ltx_rows mbind list_bind]; [intros [= <-]; by rewrite app_nil_r|].
  destruct (LTXFiles cl l 0 false) as [itr|err|m] eqn:E; [|done..]. destruct (itr_Close itr) as [err|] eqn:Ec; [done|].
  rewrite (LTXFiles_close _ _ _ _ _ E) in Ec. intros H. rewrite (IH _ H), <- app_assoc. do 2 f_equal.
  by rewrite (LTXFiles_all _ _ _ _ E Ec).
Qed.
(** A listing that succeeds has every file of the levels asked for, each level in the order of the client, and nothing else. *)
Theorem ltx_command_exact f r out : 0 <= lf_level f \/ lf_level f = levelAll -> ltx_replica f = Ok r -> LTXCommand_Run f = (out, Ok ()) ->
  out = (ltx_levels (lf_level f) ≫= (fun l => (fun info => (l, info)) <$> level_files (client_of r) false l)) /\
  (lf_level f = levelAll -> forall l info, 0 <= l <= SnapshotLevel -> info ∈ level_files (client_of r) false l -> (l, info) ∈ out).
Proof.
  intros Hl Hr. unfold LTXCommand_Run. rewrite Hr. intros H. apply ltx_rows_exact in H as ->.
  - split; [done|]. intros -> l info Hl' Hi. cbn [app]. unfold ltx_levels. rewrite Z.eqb_refl. apply list_elem_of_bind. exists l. split; [by apply list_elem_of_fmap_2|].
    apply elem_of_seqZ. lia.
  - unfold ltx_levels. destruct Hl as [Hl | ->]; [destruct (lf_level f =? levelAll)|rewrite Z.eqb_refl]; repeat constructor; try done;
      apply Forall_forall; intros x [Hx _]%elem_of_seqZ; lia.
Qed.
End Ltx.

(** ** databases and status *)

Variable replica_type : replica -> str.
Fixpoint each_db {B} (f : DB replica -> result (list B)) (dbcs : list DBConfig) (rows : list B) : list B * result () :=
  match dbcs with
  | [] => (rows, Ok ())
  | dbc :: dbcs =>
      match db ← NewDBFromConfig cwd home NewReplica dbc; f db with
      | Ok l => each_db f dbcs (rows ++ l)%list
      | Err err => (rows, Err err)
      | Panic m => (rows, Panic m)
      end
  end.
Definition DatabasesCommand_Run (config : str) (noExpandEnv : bool) (args : list str) : list (str * str) * result () :=
  match args with
  | _ :: _ => ([], Err (EMsg "too many arguments"))
  | [] =>
      match read_config (config_path config) (negb noExpandEnv) with
      | Err err => ([], Err err)
      | Panic m => ([], Panic m)
      | Ok c => each_db (fun db => match db_Replica db with Some r => Ok [(db_path db, replica_type r)] | None => Panic "nil pointer dereference" end) (cf_DBs c) []
      end
  end.

(** The status of a database: the file, the size of its WAL and its last local transaction.  [wal_stat] is [os.Stat] of the WAL. *)
Variable wal_stat : str -> result Z.
Variable max_ltx : DB replica -> result (TXID * TXID).
Inductive wal_size := WalUnknown | WalZero | WalSize (n : Z).
Record DBStatus := mkStatus { dst_Status : string; dst_LocalTXID : option TXID; dst_WALSize : wal_size }.
Definition getDBStatus (d : files) (db : DB replica) : DBStatus :=
  if negb (not_missing d (db_path db)) then mkStatus "no database" None WalUnknown else
  let wal := match wal_stat (db_path db ++ lit "-wal")%list with Ok n => WalSize n | Err err => if os_IsNotExist err then WalZero else WalUnknown | Panic _ => WalUnknown end in
  match max_ltx db with
  | Ok (_, maxTXID) => if 0 <? maxTXID then mkStatus "ok" (Some maxTXID) wal else mkStatus "not initialized" None wal
  | _ => mkStatus "error" None wal
  end.
Definition StatusCommand_Run (config : str) (noExpandEnv : bool) (args : list str) (d : files) : list (str * DBStatus) * result () :=
  match read_config (config_path config) (negb noExpandEnv) with
  | Err err => ([], Err err)
  | Panic m => ([], Panic m)
  | Ok c =>
      let filterPath := default [] (head args) in
      each_db (fun db => if nonempty filterPath && negb (bool_decide (db_path db = filterPath)) then Ok [] else Ok [(db_path db, getDBStatus d db)]) (cf_DBs c) []
  end.

(** Rows that [each_db] adds come from databases of the configuration, in their order. *)
Lemma each_db_rows {B} (f : DB replica -> result (list B)) dbcs rows out : each_db f dbcs rows = (out, Ok ()) ->
  exists ls, Forall2 (fun dbc l => exists db, NewDBFromConfig cwd home NewReplica dbc = Ok db /\ f db = Ok l) dbcs ls /\ out = (rows ++ mjoin ls)%list.
Proof.
  revert rows. induction dbcs as [|dbc dbcs IH]; intros rows; cbn [each_db]; [intros [= <-]; exists []; split; [constructor|by rewrite app_nil_r]|].
  destruct (NewDBFromConfig cwd home NewReplica dbc) as [db|err|m] eqn:Ed; cbn [mbind result_bind]; [|done..].
  destruct (f db) as [l|err|m] eqn:Ef; [|done..]. intros H. destruct (IH _ H) as (ls & HF & ->). exists (l :: ls). split; [constructor; [by exists db|done]|].
  by rewrite <- app_assoc.
Qed.
(** The status is ok exactly when the database file is not missing and there is a local transaction, which is then shown. *)
Theorem status_ok_iff d db : dst_Status (getDBStatus d db) = "ok"%string <->
  not_missing d (db_path db) = true /\ exists lo hi, max_ltx db = Ok (lo, hi) /\ 0 < hi /\ dst_LocalTXID (getDBStatus d db) = Some hi.
Proof.
  unfold getDBStatus. destruct (not_missing d (db_path db)); cbn [negb]; [|split; [done|by intros []]].
  destruct (max_ltx db) as [[lo hi]|err|m]; [|split; [done|by intros (_ & ? & ? & ? & _)]..].
  destruct (Z.ltb_spec 0 hi); cbn; split; try done; [intros _; split; [done|]; by exists lo, hi|intros (_ & lo' & hi' & [= <- <-] & ? & _); lia].
Qed.
(** Every database of the configuration that the filter lets through has its row. *)
Theorem status_command_complete config noExpandEnv args d out c : StatusCommand_Run config noExpandEnv args d = (out, Ok ()) ->
  read_config (config_path config) (negb noExpandEnv) = Ok c ->
  forall dbc, dbc ∈ cf_DBs c -> exists db, NewDBFromConfig cwd home NewReplica dbc = Ok db /\
    (default [] (head args) = [] \/ default [] (head args) = db_path db -> (db_path db, getDBStatus d db) ∈ out).
Proof.
  intros H Hc dbc Hin. unfold StatusCommand_Run in H. rewrite Hc in H. apply each_db_rows in H as (ls & HF & ->). cbn [app].
  apply list_elem_of_lookup in Hin as [i Hi]. destruct (Forall2_lookup_l _ _ _ _ _ HF Hi) as (l & Hl & db & Hdb & Hrow). exists db. split; [done|].
  intros Hfilter. apply list_elem_of_join. exists l. split; [|by eapply list_elem_of_lookup_2].
  destruct (nonempty (default [] (head args)) && negb (bool_decide (db_path db = default [] (head args)))) eqn:E.
  - exfalso. destruct Hfilter as [Hf|Hf]; rewrite Hf in E; [done|]. rewrite bool_decide_eq_true_2 in E by done. by rewrite andb_false_r in E.
  - injection Hrow as <-. by left.
Qed.

(** ** reset *)

(** The local state of databases, by the path of their metadata. *)
Abbreviation locals := (gmap str Db.DB).
Definition abs (p : str) : result str := if HasPrefix p [slash] then Ok p else filepath_Abs cwd p.
Definition same_path (dbPath : str) (dbc : DBConfig) : bool :=
  bool_decide ((match abs (dc_Path dbc) with Ok p => p | _ => [] end) = dbPath).
Definition reset_db (config : str) (noExpandEnv : bool) (dbPath : str) (d : files) : result (DB replica) :=
  dbc ← (if nonempty config
         then c ← read_config config (negb noExpandEnv) wrapping "cannot read config"; Ok (List.find (same_path dbPath) (cf_DBs c))
         else Ok None);
  match os_Stat stat_fault d dbPath with
  | Some err => if os_IsNotExist err then Err (EMsg "database does not exist") else Err (EWrap "cannot access database" err)
  | None =>
      match dbc with
      | Some dbc => NewDBFromConfig cwd home NewReplica dbc wrapping "cannot create database from config"
      | None => Ok (NewDB dbPath)
      end
  end.
Definition ResetCommand_Run (e : Db.env) (config : str) (noExpandEnv : bool) (args : list str) (d : files) (ls : locals) : locals * result () :=
  match (dbPath ← match args with [] => Err (EMsg "database path required") | [a] => Ok a | _ => Err (EMsg "too many arguments") end;
         dbPath ← abs dbPath;
         reset_db config noExpandEnv dbPath d) with
  | Err err => (ls, Err err)
  | Panic m => (ls, Panic m)
  | Ok db =>
      match ls !! db_metaPath db with
      | None => (ls, Ok ())
      | Some st =>
          match ResetLocalState e st with
          | (st, Err err) => (<[db_metaPath db := st]> ls, Err (EWrap "reset failed" err))
          | (st, r) => (<[db_metaPath db := st]> ls, r)
          end
      end
  end.

(** A reset touches the local state of the named database alone; when it succeeds, that state is gone, and a failure leaves some of its files. *)
Theorem reset_command_local e config ne a dbPath db d ls ls' r : abs a = Ok dbPath -> reset_db config ne dbPath d = Ok db ->
  ResetCommand_Run e config ne [a] d ls = (ls', r) ->
  (forall q, q <> db_metaPath db -> ls' !! q = ls !! q) /\
  (r = Ok () -> e_fault e RemoveL0 = None -> forall st, ls' !! db_metaPath db = Some st -> d_l0 st = ∅ /\ d_pos st = None) /\
  (r <> Ok () -> forall st, ls' !! db_metaPath db = Some st -> exists st0, ls !! db_metaPath db = Some st0 /\ d_l0 st ⊆ d_l0 st0).
Proof.
  intros Ha Hdb. unfold ResetCommand_Run. cbn [mbind result_bind]. rewrite Ha. cbn [mbind result_bind]. rewrite Hdb.
  destruct (ls !! db_metaPath db) as [st|] eqn:El; [|intros [= <- <-]; split_and!; [done| |done]; intros _ _ st; by rewrite El].
  pose proof (RemoveAll_sub e (d_l0 st)) as Hsub. unfold ResetLocalState. destruct (RemoveAll e (d_l0 st)) as [l0 [err|]] eqn:ER; cbn [fst] in Hsub;
    [destruct (os_IsNotExist err)|]; intros [= <- <-]; (split; [intros q Hq; by rewrite lookup_insert_ne|]); rewrite lookup_insert_eq; (split; [|try done]).
  - intros _ Hf. unfold RemoveAll in ER. by rewrite Hf in ER.
  - done.
  - intros _ st' [= <-]. eauto.
  - intros _ Hf st' [= <-]. unfold RemoveAll in ER. rewrite Hf in ER. by injection ER as <-.
Qed.
End Commands.

(** ** Examples *)

Module CommandsDemo.
Definition cwd : result str := Ok (lit "/work").
Definition new_replica (c : ReplicaConfig) : result str := Ok (rc_URL c).
Definition no_fault (_ : str) : option error := None.
Definition dbc (path dir : string) (meta : option str) : DBConfig :=
  mkDBConfig (lit path) (lit dir) [] false false meta None None None None None false (Some (mkReplicaConfig (sync_settings 1) [] [] [] (lit "file:///r"))) [].
Definition reads (dbs : list DBConfig) (path : str) (_ : bool) : result Config :=
  if bool_decide (path = lit "/etc/replicate.yml") then Ok (set_DBs dbs DefaultConfig) else Err ErrNotExist.
Definition default_path : str := lit "/etc/replicate.yml".
(** Restores that write the name of the replica, and a replica that has no backup. *)
Definition restore (r : str) (opt : RestoreOptions) (d : gmap str (list byte)) : gmap str (list byte) * result () :=
  let p := list_ascii_of_string (OutputPath opt) in
  match d !! p with
  | Some _ => (d, Err (EMsg "cannot restore, output path already exists"))
  | None => if bool_decide (r = lit "file:///empty") then (d, Err ErrTxNotAvailable) else (<[p := [x61]]> d, Ok ())
  end.
Definition database_of (r : str) (opt : RestoreOptions) (b : list byte) : Prop := r <> lit "file:///empty" /\ b = [x61].
Lemma command_restore_laws : RestoreOptionLaws restore database_of.
Proof.
  unfold restore, database_of. split.
  - intros r opt d b _ Hb. eexists. rewrite Hb. by split.
  - intros r opt d d' _. destruct (d !! _) eqn:E; [done|]. case_bool_decide; [done|]. intros [= <-]. exists [x61]. by rewrite lookup_insert_eq.
  - intros r opt d d' err _. destruct (d !! _) eqn:E; [intros [= <- _]; done|]. case_bool_decide; [intros [= <- _]; done|done].
  - intros r opt d d' x q. destruct (d !! _) eqn:E; [intros [= <- _]; done|]. case_bool_decide; intros [= <- _]; [done|]. intros Hq _. by rewrite lookup_insert_ne.
  - intros r opt d d' err b. destruct (d !! _) eqn:E; [intros [= _ <-]; done|]. case_bool_decide; [|done]. intros _ _ [Hr _]. done.
  - intros r opt d d' m. destruct (d !! _); [done|]. by case_bool_decide.
Qed.
Definition flags (url out timestamp : string) (ifReplicaExists : bool) : RestoreFlags :=
  mkRestoreFlags [] false (lit out) 0 8 false ifReplicaExists (lit timestamp) false Second (lit "none") [lit url].
Definition run (target : str -> time -> result time) (f : RestoreFlags) (d : gmap str (list byte)) : gmap str (list byte) * result () :=
  RestoreCommand_Run (reads []) default_path 1 cwd cwd new_replica no_fault (fun _ => Some 50) target restore f d.
Definition any_target (_ : str) (_ : time) : result time := Ok 0.
Definition disk0 : gmap str (list byte) := {[lit "/data/kept" := [x62]]}.
End CommandsDemo.

(** The theorem at a restore next to another database. *)
Lemma restore_command_safe_witness :
  (CommandsDemo.run CommandsDemo.any_target (CommandsDemo.flags "file:///r" "/data/new" "" false) CommandsDemo.disk0).1 !! lit "/data/kept" = Some [x62].
Proof.
  unfold CommandsDemo.run. set (f := CommandsDemo.flags _ _ _ _).
  assert (Ha : restore_args (CommandsDemo.reads []) CommandsDemo.default_path 1 CommandsDemo.cwd CommandsDemo.cwd CommandsDemo.new_replica CommandsDemo.no_fault
    (fun _ => Some 50) CommandsDemo.any_target f CommandsDemo.disk0 = Ok (lit "file:///r", lit "/data/new", 0, 0)) by (vm_compute; reflexivity).
  destruct (RestoreCommand_Run _ _ _ _ _ _ _ _ _ _ f CommandsDemo.disk0) as [d' x] eqn:E.
  refine (proj1 (restore_command_safe _ _ _ _ _ _ _ _ _ _ CommandsDemo.database_of (HRO := CommandsDemo.command_restore_laws) f _ _ _ _ _ _ _ eq_refl Ha E) (lit "/data/kept") [x62] _ _).
  - vm_compute. discriminate.
  - vm_compute. reflexivity.
Defined.

(** *** Findings *)

(** No backup is to be success with [-if-replica-exists]; with a URL and a time it is an error. *)
Definition empty_target (_ : str) (ts : time) : result time := CalcRestoreTarget (Mem.mkClient [] eq_refl) None ts.
Example no_backup_not_accepted :
  (CommandsDemo.run empty_target (CommandsDemo.flags "file:///empty" "/data/new" "" true) ∅).2 = Ok () /\
  (CommandsDemo.run empty_target (CommandsDemo.flags "file:///empty" "/data/new" "2020-01-01T00:00:00Z" true) ∅).2 = Err (EMsg "no backups found").
Proof. by vm_compute. Qed.
(** A directory of databases is listed as one database, the working directory. *)
Example directory_listed_as_database :
  DatabasesCommand_Run (CommandsDemo.reads [CommandsDemo.dbc "" "/data" None]) CommandsDemo.default_path CommandsDemo.cwd CommandsDemo.cwd CommandsDemo.new_replica
    (fun _ => lit "file") [] false [] = ([(lit "/work", lit "file")], Ok ()).
Proof. by vm_compute. Qed.
(** The path that filters the status is not expanded: a database is not found under the path the other commands take. *)
Definition status (args : list str) : list (str * DBStatus) * result () :=
  StatusCommand_Run (CommandsDemo.reads [CommandsDemo.dbc "/work/db" "" None]) CommandsDemo.default_path CommandsDemo.cwd CommandsDemo.cwd CommandsDemo.new_replica
    CommandsDemo.no_fault (fun _ => Ok 32) (fun _ => Ok (1, 5)) [] false args {[lit "/work/db" := []]}.
Example status_of_relative_path : status [lit "db"] = ([], Ok ()) /\ (status [lit "/work/db"]).1 = [(lit "/work/db", mkStatus "ok" (Some 5) (WalSize 32))].
Proof. by vm_compute. Qed.
(** Without [-config] the default configuration is not read: the state of a database with a metadata path of its own stays. *)
Definition reset (config : str) : gmap str Db.DB * result () :=
  ResetCommand_Run (CommandsDemo.reads [CommandsDemo.dbc "/work/db" "" (Some (lit "/meta"))]) CommandsDemo.cwd CommandsDemo.cwd CommandsDemo.new_replica CommandsDemo.no_fault
    Demo.calm config false [lit "/work/db"] {[lit "/work/db" := []]} {[lit "/meta" := Demo.d0]}.
Example default_config_ignored : (reset []).2 = Ok () /\ (reset []).1 !! lit "/meta" = Some Demo.d0.
Proof. by vm_compute. Qed.
