(* ===== verification/VfsDisable.v ===== *)
(** * Disabling writes while connections lock

    Model of the waiting in [SetWriteEnabledWithTimeout], [Lock] and [Unlock] of src/vfs.go: the mutex of a file, its condition variable, any number of
    calls that disable writes, which share one flag, each with the goroutine that wakes it at a timeout or a cancellation, and any number of callers of [Lock].  [sync.Cond] puts a caller on
    the list of waiters while it has the mutex, and a broadcast wakes those that are on the list: one that comes before a caller is on the list does not
    wake it.  What the calls do to pages is in VfsWrite.v; here are the flags and who waits for whom. *)

From Stdlib Require Import ZArith Lia.
From stdpp Require Import base numbers list strings gmap relations.
From S2P Require Import Prelude.
Local Open Scope Z_scope.

(** A caller of [SetWriteEnabledWithTimeout(false, timeout)]: before the call, between the check and the list of waiters (with the mutex), on the
    list, woken, or returned. *)
Inductive dpc := DStart | DAdd | DSleep | DWoken | DDone (r : result ()).
(** A caller of [Lock] with a write lock. *)
Inductive lpc := LStart | LAdd | LSleep | LWoken | LDone (granted : bool).
(** The goroutine of a call: it waits for the context, the timer or the end of the call, and broadcasts at most once. *)
Inductive watcher := WIdle | WArmed | WGone.
Inductive holder := HDisable (i : nat) | HLock (i : nat).
Record dcall := mkCall { dc_pc : dpc; dc_watcher : watcher; dc_timeout : Z; dc_timer : Z; dc_deadline : Z }.

Record dsys := mkDsys {
  ds_writeEnabled : bool; ds_inTransaction : bool; ds_disabling : bool; ds_mu : option holder; ds_d : gmap nat dcall; ds_l : gmap nat lpc;
  ds_cancelled : bool; ds_now : Z
}.

Definition wake_d (d : dpc) : dpc := match d with DSleep => DWoken | _ => d end.
Definition wake_call (c : dcall) : dcall := mkCall (wake_d (dc_pc c)) (dc_watcher c) (dc_timeout c) (dc_timer c) (dc_deadline c).
Definition wake_l (l : lpc) : lpc := match l with LSleep => LWoken | _ => l end.
Definition broadcast (s : dsys) : dsys :=
  mkDsys (ds_writeEnabled s) (ds_inTransaction s) (ds_disabling s) (ds_mu s) (wake_call <$> ds_d s) (wake_l <$> ds_l s) (ds_cancelled s) (ds_now s).
Definition set_flags (we tx dis : bool) (s : dsys) : dsys := mkDsys we tx dis (ds_mu s) (ds_d s) (ds_l s) (ds_cancelled s) (ds_now s).
Definition set_d (mu : option holder) (i : nat) (c : dcall) (s : dsys) : dsys :=
  mkDsys (ds_writeEnabled s) (ds_inTransaction s) (ds_disabling s) mu (<[i := c]> (ds_d s)) (ds_l s) (ds_cancelled s) (ds_now s).
Definition set_l (mu : option holder) (i : nat) (l : lpc) (s : dsys) : dsys :=
  mkDsys (ds_writeEnabled s) (ds_inTransaction s) (ds_disabling s) mu (ds_d s) (<[i := l]> (ds_l s)) (ds_cancelled s) (ds_now s).
Definition set_clock (cancelled : bool) (now : Z) (s : dsys) : dsys :=
  mkDsys (ds_writeEnabled s) (ds_inTransaction s) (ds_disabling s) (ds_mu s) (ds_d s) (ds_l s) cancelled now.
Definition at_pc (p : dpc) (c : dcall) : dcall := mkCall p (dc_watcher c) (dc_timeout c) (dc_timer c) (dc_deadline c).

(** The end of call [i]: the flag is reset, whoever has set it, and everyone woken. *)
Definition d_finish (i : nat) (c : dcall) (we : bool) (r : result ()) (s : dsys) : dsys :=
  set_d None i (mkCall (DDone r) WGone (dc_timeout c) (dc_timer c) (dc_deadline c)) (broadcast (set_flags we (ds_inTransaction s) false s)).
(** A turn of the loop of call [i], with the mutex; [synced] is the error of the last sync. *)
Definition d_test (i : nat) (c : dcall) (synced : option error) (s : dsys) : dsys :=
  if ds_inTransaction s then
    if ds_cancelled s then d_finish i c (ds_writeEnabled s) (Err (EWrap "context cancelled while waiting for transaction" ErrCanceled)) s
    else if (0 <? dc_timeout c) && (dc_deadline c <? ds_now s) then d_finish i c (ds_writeEnabled s) (Err (EMsg "timeout waiting for transaction to complete")) s
    else set_d (Some (HDisable i)) i (at_pc DAdd c) s
  else match synced with
       | Some err => d_finish i c (ds_writeEnabled s) (Err (EWrap "sync before disable" err)) s
       | None => d_finish i c false (Ok ()) s
       end.
(** The start of a call: the timer is set before the deadline is computed; [d] is the time between. *)
Definition d_start (i : nat) (timeout d : Z) (synced : option error) (s : dsys) : dsys :=
  d_test i (mkCall DStart WArmed timeout (ds_now s + timeout) (ds_now s + d + timeout)) synced
    (set_clock (ds_cancelled s) (ds_now s + d) (set_flags (ds_writeEnabled s) (ds_inTransaction s) true s)).
(** A turn of the loop of [Lock], with the mutex; [busy]: another file of the VFS is writing. *)
Definition l_test (i : nat) (busy : bool) (s : dsys) : dsys :=
  if ds_disabling s then set_l (Some (HLock i)) i LAdd s
  else if negb (ds_writeEnabled s) then set_l None i (LDone false) s
  else if negb (ds_inTransaction s) && busy then set_l None i (LDone false) s
  else set_l None i (LDone true) (set_flags (ds_writeEnabled s) true (ds_disabling s) s).

Inductive dstep : dsys -> dsys -> Prop :=
  (** a call that disables *)
  | St_noop s i c : ds_d s !! i = Some c -> dc_pc c = DStart -> ds_mu s = None -> ds_writeEnabled s = false -> dstep s (set_d None i (at_pc (DDone (Ok ())) c) s)
  | St_disable s i c timeout d synced : ds_d s !! i = Some c -> dc_pc c = DStart -> ds_mu s = None -> ds_writeEnabled s = true -> 0 <= d ->
      dstep s (d_start i timeout d synced s)
  | St_add s i c : ds_d s !! i = Some c -> dc_pc c = DAdd -> dstep s (set_d None i (at_pc DSleep c) s)
  | St_again s i c synced : ds_d s !! i = Some c -> dc_pc c = DWoken -> ds_mu s = None -> dstep s (d_test i c synced s)
  | St_call s i c r : ds_d s !! i = Some c -> dc_pc c = DDone r -> dstep s (set_d (ds_mu s) i (at_pc DStart c) s)
  (** callers of [Lock] *)
  | St_lock s i busy : ds_l s !! i = Some LStart \/ ds_l s !! i = Some LWoken -> ds_mu s = None -> dstep s (l_test i busy s)
  | St_lock_add s i : ds_l s !! i = Some LAdd -> dstep s (set_l None i LSleep s)
  | St_lock_call s i b : ds_l s !! i = Some (LDone b) -> dstep s (set_l (ds_mu s) i LStart s)
  (** [Unlock] at the end of a transaction, and enabling *)
  | St_unlock s : ds_mu s = None -> ds_writeEnabled s = true -> ds_inTransaction s = true -> dstep s (broadcast (set_flags true false (ds_disabling s) s))
  | St_enable s : ds_mu s = None -> ds_writeEnabled s = false -> dstep s (set_flags true (ds_inTransaction s) (ds_disabling s) s)
  (** the goroutine of a call needs no mutex *)
  | St_watch s i c : ds_d s !! i = Some c -> dc_watcher c = WArmed -> ds_cancelled s = true \/ (0 < dc_timeout c /\ dc_timer c <= ds_now s) ->
      dstep s (broadcast (set_d (ds_mu s) i (mkCall (dc_pc c) WGone (dc_timeout c) (dc_timer c) (dc_deadline c)) s))
  (** time and the context *)
  | St_cancel s : dstep s (set_clock true (ds_now s) s)
  | St_tick s n : 0 <= n -> dstep s (set_clock (ds_cancelled s) (ds_now s + n) s).

(** Where call [i] is. *)
Definition pc_of (s : dsys) (i : nat) : option dpc := dc_pc <$> ds_d s !! i.
Definition dinit (s : dsys) : Prop :=
  ds_disabling s = false /\ ds_mu s = None /\ (forall i p, pc_of s i = Some p -> p = DStart) /\ forall i l, ds_l s !! i = Some l -> l = LStart.

(** A call that disables is under way. *)
Definition under_way (d : dpc) : bool := match d with DAdd | DSleep | DWoken => true | _ => false end.
Record dinv (s : dsys) : Prop := {
  inv_flag : ds_disabling s = true -> exists i p, pc_of s i = Some p /\ under_way p = true;
  inv_tx : forall i, pc_of s i = Some DAdd \/ pc_of s i = Some DSleep -> ds_inTransaction s = true;
  inv_d_mu : forall i, pc_of s i = Some DAdd <-> ds_mu s = Some (HDisable i);
  inv_l_mu : forall i, ds_l s !! i = Some LAdd <-> ds_mu s = Some (HLock i);
  inv_l : forall i, ds_l s !! i = Some LAdd \/ ds_l s !! i = Some LSleep -> ds_disabling s = true
}.

Lemma wake_lookup_add (m : gmap nat lpc) i : (wake_l <$> m) !! i = Some LAdd <-> m !! i = Some LAdd.
Proof. rewrite lookup_fmap. destruct (m !! i) as [[]|]; cbn; split; by intros [=]. Qed.
Lemma wake_lookup_sleep (m : gmap nat lpc) i : (wake_l <$> m) !! i <> Some LSleep.
Proof. rewrite lookup_fmap. destruct (m !! i) as [[]|]; cbn; by intros [=]. Qed.
Lemma wake_d_under_way d : under_way (wake_d d) = under_way d.
Proof. by destruct d. Qed.
Lemma pc_set_d mu i c s j : pc_of (set_d mu i c s) j = if decide (i = j) then Some (dc_pc c) else pc_of s j.
Proof. unfold pc_of. cbn. case_decide; [subst; by rewrite lookup_insert_eq|by rewrite lookup_insert_ne]. Qed.
Lemma pc_broadcast s j : pc_of (broadcast s) j = wake_d <$> pc_of s j.
Proof. unfold pc_of. cbn. rewrite lookup_fmap. by destruct (ds_d s !! j). Qed.
Lemma pc_broadcast_add s j : pc_of (broadcast s) j = Some DAdd <-> pc_of s j = Some DAdd.
Proof. rewrite pc_broadcast. destruct (pc_of s j) as [[]|]; cbn; split; by intros [=]. Qed.
Lemma pc_broadcast_sleep s j : pc_of (broadcast s) j <> Some DSleep.
Proof. rewrite pc_broadcast. destruct (pc_of s j) as [[]|]; cbn; by intros [=]. Qed.
Lemma pc_at s i c : ds_d s !! i = Some c -> pc_of s i = Some (dc_pc c).
Proof. intros E. unfold pc_of. by rewrite E. Qed.

(** With the mutex free nobody is between its check and the list. *)
Lemma mu_free_no_add s : dinv s -> ds_mu s = None -> (forall i, pc_of s i <> Some DAdd) /\ forall i, ds_l s !! i <> Some LAdd.
Proof. intros H Hmu. split; intros i Hx; [apply (proj1 (inv_d_mu s H i)) in Hx|apply (proj1 (inv_l_mu s H i)) in Hx]; congruence. Qed.

(** The end of a call keeps the invariant: nobody is left on the list. *)
Lemma d_finish_inv i c we r s : (forall j, pc_of s j <> Some DAdd) -> (forall j, ds_l s !! j <> Some LAdd) -> dinv (d_finish i c we r s).
Proof.
  intros Hd Hl. unfold d_finish. split; [done|..]; intros j; rewrite ?pc_set_d.
  - case_decide; [by intros [[=]|[=]]|]. intros [Hx|Hx]; [by apply pc_broadcast_add, Hd in Hx|by apply pc_broadcast_sleep in Hx].
  - cbn. split; [|done]. case_decide; [by intros [=]|]. intros Hx. by apply pc_broadcast_add, Hd in Hx.
  - cbn. rewrite wake_lookup_add. split; [by intros ?%Hl|done].
  - cbn. intros [H|H]; [by apply wake_lookup_add, Hl in H|by apply wake_lookup_sleep in H].
Qed.
Lemma d_test_inv i c synced s :
  ds_mu s = None -> ds_disabling s = true \/ (forall j, ds_l s !! j <> Some LSleep) ->
  (forall j, pc_of s j = Some DSleep -> ds_inTransaction s = true) -> (forall j, pc_of s j <> Some DAdd) -> (forall j, ds_l s !! j <> Some LAdd) ->
  dinv (d_test i c synced s).
Proof.
  intros Hmu Hdis Htx Hd Hl. unfold d_test.
  destruct (ds_inTransaction s) eqn:Ht; [destruct (ds_cancelled s); [|destruct (_ && _)]|destruct synced]; try (by apply d_finish_inv).
  split; [| |intros j; rewrite pc_set_d|intros j|].
  - intros _. exists i, DAdd. by rewrite pc_set_d, decide_True.
  - done.
  - cbn. case_decide; [subst; done|]. split; [by intros ?%Hd|intros [=]; done].
  - cbn. split; [by intros ?%Hl|done].
  - cbn. intros j [?%Hl|Hs]; [done|]. destruct Hdis as [?|Hn]; [done|by apply Hn in Hs].
Qed.

Lemma l_test_inv i busy s : dinv s -> ds_mu s = None -> dinv (l_test i busy s).
Proof.
  intros Hi Hmu. destruct (mu_free_no_add s Hi Hmu) as [Hnd Hna]. destruct Hi as [H1 H2 H3 H4 H5]. unfold l_test.
  assert (forall j p, p <> LAdd -> p <> LSleep -> (<[i := p]> (ds_l s) !! j = Some LAdd \/ <[i := p]> (ds_l s) !! j = Some LSleep -> ds_disabling s = true)) as Hset.
  { intros j p Hp Hp'. destruct (decide (i = j)) as [->|Hne]; [rewrite lookup_insert_eq; by intros [[=]|[=]]|rewrite lookup_insert_ne by done; apply H5]. }
  assert (forall j p, p <> LAdd -> <[i := p]> (ds_l s) !! j = Some LAdd <-> None = Some (HLock j)) as Hset'.
  { intros j p Hp. split; [|done]. destruct (decide (i = j)) as [->|Hne]; [rewrite lookup_insert_eq; by intros [=]|rewrite lookup_insert_ne by done; by intros ?%Hna]. }
  assert (forall j, pc_of s j = Some DAdd <-> None = Some (HDisable j)) as Hd by (intros j; split; [by intros ?%Hnd|done]).
  destruct (ds_disabling s) eqn:Ed; [|destruct (negb _); [|destruct (_ && _)]]; split; cbn; rewrite ?Ed; try done; try (intros j; by apply Hset); try (intros j; by apply Hset').
  - intros j. split; [by intros ?%Hnd|done].
  - intros j. destruct (decide (i = j)) as [->|Hne]; [by rewrite lookup_insert_eq|rewrite lookup_insert_ne by done]. split; [by intros ?%Hna|congruence].
Qed.
Lemma broadcast_inv s : dinv s -> dinv (broadcast s).
Proof.
  intros [H1 H2 H3 H4 H5]. split.
  - intros Hd. destruct (H1 Hd) as (i & p & Hp & Hu). exists i, (wake_d p). by rewrite pc_broadcast, Hp, wake_d_under_way.
  - intros i [Hx|Hx]; [rewrite pc_broadcast_add in Hx; apply (H2 i); by left|by apply pc_broadcast_sleep in Hx].
  - intros i. rewrite pc_broadcast_add. apply H3.
  - intros i. cbn. rewrite wake_lookup_add. apply H4.
  - intros i. cbn. intros [Hx|Hx]; [rewrite wake_lookup_add in Hx; apply (H5 i); by left|by apply wake_lookup_sleep in Hx].
Qed.
(** The goroutine of a call does not move it. *)
Lemma same_pc_inv i c c' s : dinv s -> ds_d s !! i = Some c -> dc_pc c' = dc_pc c -> dinv (set_d (ds_mu s) i c' s).
Proof.
  intros [H1 H2 H3 H4 H5] Hc Hpc. assert (forall j, pc_of (set_d (ds_mu s) i c' s) j = pc_of s j) as E.
  { intros j. rewrite pc_set_d. case_decide; [subst; by rewrite Hpc, (pc_at s j c Hc)|done]. }
  split; [intros Hd; destruct (H1 Hd) as (j & p & ? & ?); exists j, p; by rewrite E|intros j; rewrite E..|done|done]; [apply H2|apply H3].
Qed.
(** A call that is not under way goes on to a point at which it is not under way. *)
Lemma idle_inv i c p s : dinv s -> ds_d s !! i = Some c -> under_way (dc_pc c) = false -> under_way p = false -> dinv (set_d (ds_mu s) i (at_pc p c) s).
Proof.
  intros [H1 H2 H3 H4 H5] Hc Hu Hp. pose proof (pc_at s i c Hc) as Hi. split; [|intros j; rewrite pc_set_d..|done|done].
  - intros Hd. destruct (H1 Hd) as (j & q & Hq & Huq). exists j, q. rewrite pc_set_d, decide_False; [done|]. intros ->. congruence.
  - case_decide; [|apply H2]. cbn. by intros [[= ->]|[= ->]].
  - case_decide; [|apply H3]. subst j. cbn. split; [by intros [= ->]|]. intros Hm. apply H3 in Hm. rewrite Hi in Hm. injection Hm as Hm. by rewrite Hm in Hu.
Qed.

Lemma dstep_inv s s' : dstep s s' -> dinv s -> dinv s'.
Proof.
  intros Hs Hi. pose proof Hi as [H1 H2 H3 H4 H5].
  destruct Hs as [s i c Hc Hd Hmu Hw|s i c t d synced Hc Hd Hmu Hw _|s i c Hc Hd|s i c synced Hc Hd Hmu|s i c r Hc Hd|s i busy Hl Hmu|s i Hl|s i b Hl|s Hmu Hw Ht|s Hmu Hw|s i c Hc Hw _|s|s n _].
  - rewrite <- Hmu. apply idle_inv; [done|done|by rewrite Hd|done].
  - destruct (mu_free_no_add s Hi Hmu) as [Hnd Hna]. unfold d_start. apply d_test_inv; [done|by left| |done|done]. intros j Hj. apply (H2 j). by right.
  - pose proof (pc_at s i c Hc) as Hp. rewrite Hd in Hp. assert (Hmu : ds_mu s = Some (HDisable i)) by (by apply H3).
    split; [|intros j; rewrite pc_set_d..|intros j|done].
    + intros _. exists i, DSleep. by rewrite pc_set_d, decide_True.
    + case_decide; [|apply H2]. intros _. apply (H2 i). by left.
    + cbn. split; [|done]. case_decide; [by intros [=]|]. intros Hj. apply H3 in Hj. congruence.
    + cbn. split; [|done]. intros Hj%H4. congruence.
  - destruct (mu_free_no_add s Hi Hmu) as [Hnd Hna]. apply d_test_inv; [done| |intros j Hj; apply (H2 j); by right|done|done].
    destruct (ds_disabling s) eqn:E; [by left|right]. intros j Hj. specialize (H5 j (or_intror Hj)). congruence.
  - apply idle_inv; [done|done|by rewrite Hd|done].
  - by apply l_test_inv.
  - assert (Hmu : ds_mu s = Some (HLock i)) by (by apply H4). assert (Hdis : ds_disabling s = true) by (apply (H5 i); by left).
    split; cbn; try done.
    + intros j. split; [|done]. intros Hj. apply (proj1 (H3 j)) in Hj. congruence.
    + intros j. split; [|done]. destruct (decide (j = i)) as [->|Hne]; [rewrite lookup_insert_eq; by intros [=]|rewrite lookup_insert_ne by done].
      intros Hj. apply (proj1 (H4 j)) in Hj. congruence.
  - split; cbn; try done; intros j; (destruct (decide (j = i)) as [->|Hne]; [rewrite lookup_insert_eq|rewrite lookup_insert_ne by done; first [apply H4 | apply H5]]).
    + split; [done|]. intros Hj. apply (proj2 (H4 i)) in Hj. congruence.
    + by intros [[=]|[=]].
  - destruct (mu_free_no_add s Hi Hmu) as [Hnd Hna]. split.
    + intros Hd. destruct (H1 Hd) as (i & p & Hp & Hu). exists i, (wake_d p). rewrite pc_broadcast, wake_d_under_way. split; [|done]. unfold pc_of in *. cbn. by rewrite Hp.
    + intros i [Hx|Hx]; [rewrite pc_broadcast_add in Hx; by apply (Hnd i) in Hx|by apply pc_broadcast_sleep in Hx].
    + intros i. rewrite pc_broadcast_add. cbn. rewrite Hmu. split; [intros Hx; by apply (Hnd i) in Hx|done].
    + intros i. cbn. rewrite wake_lookup_add, Hmu. split; [by intros ?%Hna|done].
    + intros i. cbn. intros [Hx|Hx]; [rewrite wake_lookup_add in Hx; by apply Hna in Hx|by apply wake_lookup_sleep in Hx].
  - by split.
  - apply broadcast_inv. by eapply same_pc_inv.
  - by split.
  - by split.
Qed.

Lemma reachable_inv s0 s : dinit s0 -> rtc dstep s0 s -> dinv s.
Proof.
  intros (Hd & Hmu & Hp & Hl) H. assert (Hi : dinv s0).
  { split; rewrite ?Hmu, ?Hd; try done; intros i; [by intros [?%Hp|?%Hp]|split; [|done]; by intros ?%Hp|split; [|done]; by intros ?%Hl|by intros [?%Hl|?%Hl]]. }
  clear Hd Hmu Hp Hl. induction H as [|x y z Hxy _ IH]; [done|]. apply IH. by eapply dstep_inv.
Qed.
(** A turn of the loop without a transaction ends the call. *)
Lemma d_test_ends i c synced s : ds_inTransaction s = false -> exists r, pc_of (d_test i c synced s) i = Some (DDone r).
Proof. intros Ht. unfold d_test. rewrite Ht. destruct synced; eexists; unfold d_finish; by rewrite pc_set_d, decide_True. Qed.
(** The holder of the mutex has a step that releases it. *)
Lemma mutex_released s h : dinv s -> ds_mu s = Some h -> exists s', dstep s s' /\ ds_mu s' = None.
Proof.
  intros Hi Hmu. destruct h as [i|i].
  - apply (inv_d_mu s Hi) in Hmu. unfold pc_of in Hmu. destruct (ds_d s !! i) as [c|] eqn:Hc; [|done]. injection Hmu as Hmu. eexists. by split; [apply (St_add s i c)|].
  - apply (inv_l_mu s Hi i) in Hmu. eexists. by split; [apply (St_lock_add s i)|].
Qed.
(** No transaction begins while the flag is set. *)
Lemma d_test_tx i c synced s : ds_inTransaction (d_test i c synced s) = ds_inTransaction s.
Proof. unfold d_test. destruct (ds_inTransaction s) eqn:E; [destruct (ds_cancelled s); [|destruct (_ && _)]|destruct synced]; cbn; by rewrite ?E. Qed.
Lemma no_new_transaction s s' : dstep s s' -> ds_disabling s = true -> ds_inTransaction s' = true -> ds_inTransaction s = true.
Proof.
  intros Hs Hd. destruct Hs as [s i c ? ? ? ?|s i c t d synced ? ? ? ? ?|s i c ? ?|s i c synced ? ? ?|s i c r ? ?|s i busy ? ?|s i ?|s i b ?|s ? ? ?|s ? ?|s i c ? ? ?|s|s n ?]; cbn; try done.
  - unfold d_start. by rewrite d_test_tx.
  - by rewrite d_test_tx.
  - unfold l_test. by rewrite Hd.
Qed.
(** The flag is cleared only by the end of a call. *)
Lemma d_test_flag i c synced s : ds_disabling s = true -> ds_disabling (d_test i c synced s) = true \/ exists r, pc_of (d_test i c synced s) i = Some (DDone r).
Proof.
  intros Hd. unfold d_test. destruct (ds_inTransaction s); [destruct (ds_cancelled s); [|destruct (_ && _)]|destruct synced];
    first [by left|right; eexists; unfold d_finish; by rewrite pc_set_d, decide_True].
Qed.
Lemma flag_cleared s s' : dstep s s' -> ds_disabling s = true -> ds_disabling s' = false -> exists i p r, pc_of s i = Some p /\ (forall r', p <> DDone r') /\ pc_of s' i = Some (DDone r).
Proof.
  intros Hs Hd. destruct Hs as [s i c ? ? ? ?|s i c t d synced Hc Hp ? ? ?|s i c ? ?|s i c synced Hc Hp ?|s i c r ? ?|s i busy ? ?|s i ?|s i b ?|s ? ? ?|s ? ?|s i c ? ? ?|s|s n ?]; cbn; try congruence.
  - intros Hf. unfold d_start in *. match type of Hf with ds_disabling (d_test ?i ?c ?sy ?s1) = _ => destruct (d_test_flag i c sy s1 eq_refl) as [?|[r Hr]] end; [congruence|].
    exists i, DStart, r. by rewrite (pc_at s i c Hc), Hp.
  - intros Hf. destruct (d_test_flag i c synced s Hd) as [?|[r Hr]]; [congruence|]. exists i, DWoken, r. by rewrite (pc_at s i c Hc), Hp.
  - unfold l_test. rewrite Hd. cbn. congruence.
Qed.

(** C29: In every interleaving of any number of calls that disable writes, the goroutines that watch their timeouts, any callers of [Lock] and the end of transactions: a
    call never sleeps when there is no transaction, so the end of a transaction wakes it, and a turn it takes while there is none ends the call; a caller of [Lock] sleeps only while
    the flag of disabling is set and a call that disables is under way; the mutex is always released; no
    transaction begins while the flag is set; and only the end of a call clears it (the end of any of them: see [other_call_lets_in]). *)
Theorem disable_wakes s0 s : dinit s0 -> rtc dstep s0 s ->
  (forall i c, ds_d s !! i = Some c -> ds_inTransaction s = false -> under_way (dc_pc c) = true -> dc_pc c = DWoken /\
     forall synced, ds_mu s = None -> dstep s (d_test i c synced s) /\ exists r, pc_of (d_test i c synced s) i = Some (DDone r)) /\
  (forall i, ds_l s !! i = Some LSleep -> ds_disabling s = true /\ exists j p, pc_of s j = Some p /\ under_way p = true) /\
  (forall h, ds_mu s = Some h -> exists s', dstep s s' /\ ds_mu s' = None) /\
  (forall s', dstep s s' -> ds_disabling s = true ->
     (ds_inTransaction s' = true -> ds_inTransaction s = true) /\
     (ds_disabling s' = false -> exists i p r, pc_of s i = Some p /\ (forall r', p <> DDone r') /\ pc_of s' i = Some (DDone r))).
Proof.
  intros H0 Hr. pose proof (reachable_inv s0 s H0 Hr) as Hi. split_and!.
  - intros i c Hc Ht Hu. assert (Hd : dc_pc c = DWoken).
    { pose proof (inv_tx s Hi i) as Hx. rewrite (pc_at s i c Hc) in Hx. destruct (dc_pc c); try done; exfalso; rewrite Hx in Ht by auto; done. }
    split; [done|]. intros synced Hmu. split; [by apply St_again|by apply d_test_ends].
  - intros i Hl. assert (ds_disabling s = true) as Hd by (apply (inv_l s Hi i); by right). split; [done|by apply (inv_flag s Hi)].
  - intros h. by apply mutex_released.
  - intros s' Hs Hd. split; [by apply (no_new_transaction s s')|by apply (flag_cleared s s')].
Qed.

(** ** The timeout and the cancellation can be missed *)

(** The only call sleeps and the goroutine that was to wake it is gone. *)
Definition deaf (s : dsys) : Prop := exists c, ds_d s = {[0%nat := c]} /\ dc_pc c = DSleep /\ dc_watcher c = WGone.
Lemma deaf_step s s' : deaf s -> dstep s s' -> ds_inTransaction s' = true -> deaf s'.
Proof.
  intros (c & Hm & Hd & Hw) Hs. assert (forall i c', ds_d s !! i = Some c' -> c' = c) as Hone by (intros i c'; rewrite Hm; by intros [_ ?]%lookup_singleton_Some).
  destruct Hs as [s i c' Hc ? ? ?|s i c' t d synced Hc ? ? ? ?|s i c' Hc ?|s i c' synced Hc ? ?|s i c' r Hc ?|s i busy ? ?|s i ?|s i b ?|s ? ? ?|s ? ?|s i c' Hc ? ?|s|s n ?];
    try (apply Hone in Hc; congruence); try (by exists c); try done.
  intros _. exists c. split; [|done]. unfold l_test. by repeat case_match.
Qed.
(** Once deaf, the call waits for as long as the transaction is open, whatever the time and the context. *)
Lemma deaf_stays s s' : deaf s -> rtc (fun a b => dstep a b /\ ds_inTransaction b = true) s s' -> deaf s'.
Proof. intros Hd H. revert Hd. induction H as [|x y z [Hxy Ht] _ IH]; [done|]. intros Hd. apply IH. by eapply deaf_step. Qed.

Module DisableDemo.
Definition call0 : dcall := mkCall DStart WIdle 0 0 0.
(** A transaction is open; one call to disable writes, or two. *)
Definition s0 : dsys := mkDsys true true false None {[0%nat := call0]} {[0%nat := LStart]} false 0.
Definition two : dsys := mkDsys true true false None {[0%nat := call0; 1%nat := call0]} {[0%nat := LStart]} false 0.
Lemma init0 : dinit s0.
Proof.
  split_and!; try done.
  - intros i p. unfold pc_of. destruct (ds_d s0 !! i) as [c|] eqn:E; [|done]. cbn in E. apply lookup_singleton_Some in E as [_ <-]. by intros [= <-].
  - intros i l. cbn. intros [<- <-]%lookup_singleton_Some. done.
Qed.
(** The timer fires a moment before the deadline that is computed after it. *)
Definition missed : dsys := mkDsys true true true None {[0%nat := mkCall DSleep WGone 5 5 6]} {[0%nat := LStart]} false 105.
Lemma missed_reached : rtc dstep s0 missed.
Proof.
  eapply rtc_l; [by apply (St_disable s0 0%nat call0 5 1 None)|]. eapply rtc_l; [by eapply (St_add _ 0%nat)|]. eapply rtc_l; [by apply (St_tick _ 4)|].
  eapply rtc_l; [eapply (St_watch _ 0%nat); [done|done|]; right; done|]. eapply rtc_l; [by eapply (St_again _ 0%nat _ None)|]. eapply rtc_l; [by eapply (St_add _ 0%nat)|].
  eapply rtc_l; [by apply (St_tick _ 100)|]. exact (rtc_refl _ missed).
Qed.
(** The context is cancelled between the check and the list of waiters. *)
Definition unheard : dsys := mkDsys true true true None {[0%nat := mkCall DSleep WGone 0 0 0]} {[0%nat := LStart]} true 0.
Lemma unheard_reached : rtc dstep s0 unheard.
Proof.
  eapply rtc_l; [by apply (St_disable s0 0%nat call0 0 0 None)|]. eapply rtc_l; [apply St_cancel|]. eapply rtc_l; [eapply (St_watch _ 0%nat); [done|done|by left]|].
  eapply rtc_l; [by eapply (St_add _ 0%nat)|]. exact (rtc_refl _ unheard).
Qed.
(** A call without a timeout waits for the transaction of a connection that asks for the EXCLUSIVE lock. *)
Definition knotted : dsys := mkDsys true true true None {[0%nat := mkCall DSleep WArmed 0 0 0]} {[0%nat := LSleep]} false 0.
Lemma knotted_reached : rtc dstep s0 knotted.
Proof.
  eapply rtc_l; [by apply (St_disable s0 0%nat call0 0 0 None)|]. eapply rtc_l; [by eapply (St_add _ 0%nat)|].
  eapply rtc_l; [apply (St_lock _ 0%nat false); [by left|done]|]. eapply rtc_l; [by apply (St_lock_add _ 0%nat)|]. exact (rtc_refl _ knotted).
Qed.
(** Call 0 waits without a timeout; call 1 waits for 5, its timeout comes, and the transaction ends. *)
Definition waiting : dsys := mkDsys true true true None {[0%nat := mkCall DSleep WArmed 0 0 0; 1%nat := call0]} {[0%nat := LStart]} false 0.
Definition ended : dsys :=
  mkDsys true false false None {[0%nat := mkCall DWoken WArmed 0 0 0; 1%nat := mkCall (DDone (Err (EMsg "timeout waiting for transaction to complete"))) WGone 5 5 5]} {[0%nat := LStart]} false 6.
Definition again : dsys :=
  mkDsys true true false None {[0%nat := mkCall DSleep WArmed 0 0 0; 1%nat := mkCall (DDone (Err (EMsg "timeout waiting for transaction to complete"))) WGone 5 5 5]} {[0%nat := LDone true]} false 6.
Lemma waiting_reached : rtc dstep two waiting.
Proof. eapply rtc_l; [by apply (St_disable two 0%nat call0 0 0 None)|]. eapply rtc_l; [by eapply (St_add _ 0%nat)|]. exact (rtc_refl _ waiting). Qed.
Lemma ended_reached : rtc dstep waiting ended.
Proof.
  eapply rtc_l; [by apply (St_disable waiting 1%nat call0 5 0 None)|]. eapply rtc_l; [by eapply (St_add _ 1%nat)|]. eapply rtc_l; [by apply (St_tick _ 6)|].
  eapply rtc_l; [eapply (St_watch _ 1%nat); [done|done|]; right; done|]. eapply rtc_l; [by eapply (St_again _ 1%nat _ None)|]. eapply rtc_l; [by apply St_unlock|].
  exact (rtc_refl _ ended).
Qed.
Lemma again_reached : rtc dstep ended again.
Proof.
  eapply rtc_l; [apply (St_lock ended 0%nat false); [by left|done]|]. eapply rtc_l; [by eapply (St_again _ 0%nat _ None)|]. eapply rtc_l; [by eapply (St_add _ 0%nat)|].
  exact (rtc_refl _ again).
Qed.
End DisableDemo.

(** The claim at a run in which the call waits and the transaction ends. *)
Lemma disable_wakes_witness : exists s, rtc dstep DisableDemo.s0 s /\ ds_inTransaction s = false /\ pc_of s 0%nat = Some DWoken.
Proof.
  assert (H : exists s c, rtc dstep DisableDemo.s0 s /\ ds_d s !! 0%nat = Some c /\ ds_inTransaction s = false /\ under_way (dc_pc c) = true).
  { eexists _, _. split; [|split; [|split]].
    - eapply rtc_r; [exact DisableDemo.missed_reached|]. by apply St_unlock.
    - reflexivity.
    - reflexivity.
    - reflexivity. }
  destruct H as (s & c & Hr & Hc & Ht & Hu). exists s. split; [exact Hr|]. split; [exact Ht|]. rewrite (pc_at s 0%nat c Hc). f_equal.
  exact (proj1 (proj1 (disable_wakes DisableDemo.s0 s DisableDemo.init0 Hr) 0%nat c Hc Ht Hu)).
Defined.

(** A timeout that has long passed, and a context that is cancelled, with the call asleep until the transaction ends. *)
Theorem timeout_missed : exists s, rtc dstep DisableDemo.s0 s /\ (exists c, ds_d s !! 0%nat = Some c /\ 0 < dc_timeout c /\ dc_deadline c + 99 <= ds_now s) /\
  forall s', rtc (fun a b => dstep a b /\ ds_inTransaction b = true) s s' -> pc_of s' 0%nat = Some DSleep.
Proof.
  exists DisableDemo.missed. split; [exact DisableDemo.missed_reached|]. split; [by eexists|]. intros s' H.
  apply deaf_stays in H as (c & Hm & Hd & _); [|by eexists]. unfold pc_of. by rewrite Hm, lookup_singleton_eq, <- Hd.
Qed.
Theorem cancellation_missed : exists s, rtc dstep DisableDemo.s0 s /\ ds_cancelled s = true /\
  forall s', rtc (fun a b => dstep a b /\ ds_inTransaction b = true) s s' -> pc_of s' 0%nat = Some DSleep.
Proof.
  exists DisableDemo.unheard. split; [exact DisableDemo.unheard_reached|]. split; [done|]. intros s' H.
  apply deaf_stays in H as (c & Hm & Hd & _); [|by eexists]. unfold pc_of. by rewrite Hm, lookup_singleton_eq, <- Hd.
Qed.
(** Two calls share the flag: the timeout of one clears it while the other, which has no timeout, still waits.  The transaction it waits for ends, but before its turn a new one begins, and it waits
    for that one too. *)
Theorem other_call_lets_in : exists a b s,
  rtc dstep DisableDemo.two a /\ pc_of a 0%nat = Some DSleep /\
  rtc dstep a b /\ pc_of b 0%nat = Some DWoken /\ ds_inTransaction b = false /\ ds_disabling b = false /\
  rtc dstep b s /\ pc_of s 0%nat = Some DSleep /\ ds_inTransaction s = true /\ ds_l s !! 0%nat = Some (LDone true).
Proof.
  exists DisableDemo.waiting, DisableDemo.ended, DisableDemo.again.
  split_and!; [exact DisableDemo.waiting_reached|done|exact DisableDemo.ended_reached|done|done|done|exact DisableDemo.again_reached|done..].
Qed.
(** [Lock] waits for the flag also when it upgrades the lock of the transaction that the call waits for: without a timeout
    both sleep until the context is cancelled, since the transaction is ended by the connection that sleeps. *)
Definition knot (s : dsys) : Prop := exists c, ds_d s = {[0%nat := c]} /\ dc_pc c = DSleep /\ dc_timeout c = 0 /\ ds_l s = {[0%nat := LSleep]} /\ ds_cancelled s = false.
Lemma knot_step s s' : knot s -> dstep s s' -> ds_inTransaction s' = true -> ds_cancelled s' = false -> knot s'.
Proof.
  intros (c & Hm & Hd & Ht & Hl & Hca) Hs. assert (forall i c', ds_d s !! i = Some c' -> c' = c) as Hone by (intros i c'; rewrite Hm; by intros [_ ?]%lookup_singleton_Some).
  assert (forall i l, ds_l s !! i = Some l -> l = LSleep) as Hone' by (intros i l; rewrite Hl; by intros [_ ?]%lookup_singleton_Some).
  destruct Hs as [s i c' Hc ? ? ?|s i c' t d synced Hc ? ? ? ?|s i c' Hc ?|s i c' synced Hc ? ?|s i c' r Hc ?|s i busy Hx ?|s i Hx|s i b Hx|s ? ? ?|s ? ?|s i c' Hc ? Hx|s|s n ?];
    try (apply Hone in Hc; congruence); try (apply Hone' in Hx; congruence); try (by exists c); try done.
  - destruct Hx as [Hx|Hx]; apply Hone' in Hx; congruence.
  - apply Hone in Hc as ->. destruct Hx as [?|[? _]]; [congruence|lia].
Qed.
Lemma knot_stays s s' : knot s -> rtc (fun a b => dstep a b /\ ds_inTransaction b = true /\ ds_cancelled b = false) s s' -> knot s'.
Proof. intros Hd H. revert Hd. induction H as [|x y z (Hxy & Ht & Hc) _ IH]; [done|]. intros Hd. apply IH. by eapply knot_step. Qed.
Theorem upgrade_deadlock : exists s, rtc dstep DisableDemo.s0 s /\
  forall s', rtc (fun a b => dstep a b /\ ds_inTransaction b = true /\ ds_cancelled b = false) s s' -> pc_of s' 0%nat = Some DSleep /\ ds_l s' !! 0%nat = Some LSleep.
Proof.
  exists DisableDemo.knotted. split; [exact DisableDemo.knotted_reached|]. intros s' H. apply knot_stays in H as (c & Hm & Hd & _ & Hl & _); [|by eexists].
  unfold pc_of. by rewrite Hm, Hl, !lookup_singleton_eq, <- Hd.
Qed.
