(* ===== verification/Helpers.v ===== *)
(** * Files and directories

    Model of [MkdirAll] and [CreateFile] of src/internal/internal.go, [Fileinfo] of src/internal/internal_unix.go, [removeTmpFiles] of
    src/replicate.go, and the readers that internal.go wraps, over a tree of directories without symbolic links.  [MkdirAll] looks for the parent in the text of
    the path and calls itself; the reference is the creation of the missing prefixes of its elements, one after the other. *)

From Stdlib Require Import ZArith Lia Ascii String Strings.Byte.
From stdpp Require Import base numbers list strings gmap.
From S2P Require Import Prelude Urls.
Local Open Scope Z_scope.

(** ** Paths *)

(** The names in a path: empty ones and the dot are nothing. *)
Definition emit (name : str) : list str := if bool_decide (name = []) || bool_decide (name = lit ".") then [] else [name].
Fixpoint elems (cur p : str) : list str :=
  match p with
  | [] => emit cur
  | c :: p => if bool_decide (c = slash) then (emit cur ++ elems [] p)%list else elems (cur ++ [c])%list p
  end.
Definition names (p : str) : list str := elems [] p.

Lemma elems_slash a b cur : elems cur (a ++ slash :: b)%list = (elems cur a ++ elems [] b)%list.
Proof.
  revert cur. induction a as [|c a IH]; intros cur; cbn [elems app]; [by rewrite bool_decide_eq_true_2|].
  case_bool_decide; [by rewrite IH, app_assoc|apply IH].
Qed.
Lemma elems_plain e cur : slash ∉ e -> elems cur e = emit (cur ++ e)%list.
Proof.
  revert cur. induction e as [|c e IH]; intros cur; cbn [elems]; [by rewrite app_nil_r|]. intros [Hc He]%not_elem_of_cons.
  rewrite bool_decide_eq_false_2 by congruence. rewrite IH by done. by rewrite <- app_assoc.
Qed.

(** The trailing slashes and then the last element are taken off the reversed path. *)
Fixpoint skip_slashes (r : str) : str := match r with c :: r' => if bool_decide (c = slash) then skip_slashes r' else r | [] => [] end.
Fixpoint skip_name (r : str) : str := match r with c :: r' => if bool_decide (c = slash) then r else skip_name r' | [] => [] end.
(** [path[:j]], reversed. *)
Definition before_last (p : str) : str := skip_name (skip_slashes (rev p)).

Lemma skip_slashes_spec r : exists k : nat, (r = replicate k slash ++ skip_slashes r)%list.
Proof. induction r as [|c r [k IH]]; [by exists 0%nat|]. cbn. case_bool_decide as Hc; [exists (S k); cbn; by rewrite Hc, <- IH|by exists 0%nat]. Qed.
Lemma skip_name_spec r : exists e : str, (r = e ++ skip_name r)%list /\ slash ∉ e /\ (skip_name r = [] \/ exists q, skip_name r = slash :: q).
Proof.
  induction r as [|c r (e & IH & He & Hq)]; [exists []; split_and!; [done|apply not_elem_of_nil|by left]|]. cbn. case_bool_decide as Hc.
  - exists []. split_and!; [done|apply not_elem_of_nil|right; exists r; by rewrite Hc].
  - exists (c :: e). cbn. rewrite <- IH. split_and!; [done| |done]. apply not_elem_of_cons. split; [congruence|done].
Qed.
Lemma elems_slashes k : elems [] (replicate k slash) = [].
Proof. induction k as [|k IH]; [done|]. cbn [replicate elems]. by rewrite bool_decide_eq_true_2. Qed.
Lemma names_slashes a k : names (a ++ replicate k slash)%list = names a.
Proof. unfold names. destruct k as [|k]; [by rewrite app_nil_r|]. cbn [replicate]. by rewrite elems_slash, elems_slashes, app_nil_r. Qed.
Lemma rev_replicate k (c : ascii) : rev (replicate k c) = replicate k c.
Proof. rewrite rev_alt. apply reverse_replicate. Qed.
(** The names of a path are those before its last element, and that element. *)
Lemma names_split p : exists e, slash ∉ e /\
  ((before_last p = [] /\ names p = emit e) \/ (exists q, before_last p = slash :: q /\ names p = (names (rev q) ++ emit e)%list)).
Proof.
  destruct (skip_slashes_spec (rev p)) as [k Hk]. destruct (skip_name_spec (skip_slashes (rev p))) as (e & He & Hns & Hq).
  fold (before_last p) in He, Hq. revert He Hq. generalize (before_last p). intros bl He Hq. assert (Hp : p = ((rev bl ++ rev e) ++ replicate k slash)%list).
  { transitivity (rev (rev p)); [by rewrite rev_involutive|]. rewrite Hk, He. by rewrite !rev_app_distr, rev_replicate. }
  exists (rev e). split; [by rewrite list_elem_of_In, <- in_rev, <- list_elem_of_In|]. destruct Hq as [Hq|[q Hq]]; [left|right; exists q]; (split; [done|]).
  - rewrite Hp, Hq, names_slashes. cbn. apply elems_plain. by rewrite list_elem_of_In, <- in_rev, <- list_elem_of_In.
  - rewrite Hp at 1. rewrite Hq, names_slashes. cbn [rev]. rewrite <- app_assoc. cbn [app]. unfold names. rewrite elems_slash. f_equal. apply elems_plain.
    by rewrite list_elem_of_In, <- in_rev, <- list_elem_of_In.
Qed.

(** ** The tree *)

(** A directory or another file, with its mode and the owner it was given. *)
Inductive entry := Dir (mode : Z) (owner : option (Z * Z)) | Plain (mode : Z) (owner : option (Z * Z)) (data : list byte).
Abbreviation tree := (gmap (list str) entry).
(** The working directory, from which every path starts, is there. *)
Definition at_ (t : tree) (l : list str) : option entry := match l with [] => Some (Dir 493 None) | _ => t !! l end.
Definition is_dir (x : option entry) : bool := match x with Some (Dir _ _) => true | _ => false end.
(** What lies in a directory lies in a directory that is there. *)
Definition tree_ok (t : tree) : Prop := forall l x, is_Some (t !! (l ++ [x])%list) -> is_dir (at_ t l) = true.

(** Calls that fail, and the mask of the process. *)
Record treeenv := mkTreeEnv { te_mkdir : list str -> option error; te_chown : list str -> bool; te_open : list str -> option error; te_umask : Z }.
Definition EEXIST : error := EVar "file exists".
Definition ENOTDIR : error := EVar "not a directory".
Definition masked (e : treeenv) (mode : Z) : Z := Z.land mode (Z.lnot (te_umask e)).

Definition os_Mkdir (e : treeenv) (t : tree) (p : str) (mode : Z) : result tree :=
  let l := names p in
  match at_ t l with
  | Some _ => Err (EPath "mkdir" EEXIST)
  | None =>
      match at_ t (removelast l) with
      | Some (Dir _ _) => match te_mkdir e l with Some err => Err err | None => Ok (<[l := Dir (masked e mode) None]> t) end
      | Some _ => Err (EPath "mkdir" ENOTDIR)
      | None => Err (EPath "mkdir" ErrNotExist)
      end
  end.
(** Information on a file: its mode and owner; [Fileinfo] is the owner, or nothing to change. *)
Definition FileInfoOf := option (Z * (Z * Z)).
Definition Fileinfo (fi : FileInfoOf) : option (Z * Z) := match fi with Some (_, o) => Some o | None => None end.
Definition own (o : option (Z * Z)) (x : entry) : entry :=
  match o, x with Some _, Dir m _ => Dir m o | Some _, Plain m _ d => Plain m o d | None, _ => x end.
(** [os.Chown], whose errors are ignored. *)
Definition chown (e : treeenv) (fi : FileInfoOf) (l : list str) (t : tree) : tree :=
  if te_chown e l then match t !! l with Some x => <[l := own (Fileinfo fi) x]> t | None => t end else t.

Section MkdirAll.
Variable e : treeenv.
Variable fi : FileInfoOf.
Definition mkdir_mode : Z := match fi with Some (m, _) => m | None => 448 end.

Fixpoint MkdirAll (fuel : nat) (path : str) (t : tree) : tree * result () :=
  match at_ t (names path) with
  | Some (Dir _ _) => (t, Ok ())
  | Some _ => (t, Err (EPath "mkdir" ENOTDIR))
  | None =>
      let r := before_last path in
      let '(t, x) :=
        if (1 <? length r)%nat
        then match fuel with O => (t, Panic "out of fuel") | S fuel => MkdirAll fuel (rev (tail r)) t end
        else (t, Ok ()) in
      match x with
      | Ok _ =>
          match os_Mkdir e t path mkdir_mode with
          | Ok t => (chown e fi (names path) t, Ok ())
          | Err err => match at_ t (names path) with Some (Dir _ _) => (chown e fi (names path) t, Ok ()) | _ => (t, Err err) end
          | Panic m => (t, Panic m)
          end
      | x => (t, x)
      end
  end.

(** The reference: the missing prefixes, from the first. *)
Definition ensure (l : list str) (t : tree) : tree * result () :=
  match at_ t l with
  | Some (Dir _ _) => (t, Ok ())
  | Some _ => (t, Err (EPath "mkdir" ENOTDIR))
  | None => match te_mkdir e l with Some err => (t, Err err) | None => (chown e fi l (<[l := Dir (masked e mkdir_mode) None]> t), Ok ()) end
  end.
Fixpoint mkdirs (rl : list str) (t : tree) : tree * result () :=
  match rl with
  | [] => (t, Ok ())
  | _ :: up => match mkdirs up t with (t, Ok _) => ensure (rev rl) t | r => r end
  end.
(** The directory that is made. *)
Definition made (l : list str) : entry := if te_chown e l then own (Fileinfo fi) (Dir (masked e mkdir_mode) None) else Dir (masked e mkdir_mode) None.

Lemma at_insert t l k x : l <> [] -> at_ (<[l := x]> t) k = if decide (k = l) then Some x else at_ t k.
Proof.
  intros Hl. destruct (decide (k = l)) as [->|Hne]; [destruct l; [done|]; cbn; by rewrite lookup_insert_eq|].
  destruct k; [done|]. cbn. by rewrite lookup_insert_ne.
Qed.
Lemma made_dir l : exists m o, made l = Dir m o.
Proof. unfold made. destruct (te_chown e l), (Fileinfo fi); cbn; by eexists _, _. Qed.
Lemma at_nonempty t l : l <> [] -> at_ t l = t !! l.
Proof. by destruct l. Qed.
Lemma chown_made l t : chown e fi l (<[l := Dir (masked e mkdir_mode) None]> t) = <[l := made l]> t.
Proof. unfold chown, made. destruct (te_chown e l); [|done]. rewrite lookup_insert_eq. apply insert_insert_eq. Qed.
Lemma chown_again l t : t !! l = Some (made l) -> chown e fi l t = t.
Proof.
  intros H. unfold chown. destruct (te_chown e l) eqn:E; [|done]. rewrite H. apply insert_id. rewrite H. f_equal. unfold made. rewrite E.
  by destruct (Fileinfo fi).
Qed.
(** What one step does. *)
Lemma ensure_spec l t t' x : l <> [] -> ensure l t = (t', x) ->
  (x = Ok () -> is_dir (at_ t' l) = true) /\ (t' = t \/ (at_ t l = None /\ t' = <[l := made l]> t)) /\ (x = Ok () -> at_ t l = None -> t' = <[l := made l]> t).
Proof.
  intros Hl. unfold ensure. destruct (at_ t l) as [[m o|m o d]|] eqn:E; [intros [= <- <-]; split_and!; [by rewrite E|by left|done]|intros [= <- <-]; split_and!; [done|by left|done]|].
  destruct (te_mkdir e l); intros [= <- <-]; [split_and!; [done|by left|done]|]. rewrite chown_made. split_and!; [|by right|done].
  intros _. rewrite at_insert by done. rewrite decide_True by done. by destruct (made_dir l) as (? & ? & ->).
Qed.
(** Only prefixes of the path change, and only missing ones. *)
Lemma mkdirs_frame rl t t' x k : mkdirs rl t = (t', x) -> is_Some (at_ t k) \/ ~ (exists up, rl = up ++ rev k)%list -> at_ t' k = at_ t k.
Proof.
  revert t'. revert x. induction rl as [|n rl IH]; intros x t'; cbn [mkdirs]; [by intros [= <- _]|].
  destruct (mkdirs rl t) as [t1 y] eqn:E. intros H Hk. assert (H1 : at_ t1 k = at_ t k).
  { eapply IH; [done|]. destruct Hk as [Hk|Hk]; [by left|right]. intros [up ->]. apply Hk. by exists (n :: up). }
  destruct y as [u|err|m]; [|by injection H as <- _..]. assert (Hne : rev (n :: rl) <> []) by (cbn; by destruct (rev rl)).
  destruct (ensure_spec _ _ _ _ Hne H) as (_ & [->|[Hn ->]] & _); [done|]. rewrite at_insert by done. destruct (decide (k = rev (n :: rl))) as [->|]; [|done].
  exfalso. destruct Hk as [[y Hy]|Hk]; [congruence|]. apply Hk. exists []. by rewrite rev_involutive.
Qed.
Lemma mkdirs_dir rl t t' : mkdirs rl t = (t', Ok ()) -> is_dir (at_ t' (rev rl)) = true.
Proof.
  destruct rl as [|n rl]; cbn [mkdirs]; [by intros [= <-]|]. destruct (mkdirs rl t) as [t1 [u|err|m]]; [|done..].
  intros H. eapply ensure_spec; [|exact H|done]. cbn. by destruct (rev rl).
Qed.
(** Parents of what is there are there. *)
Lemma mkdirs_there rl t x : tree_ok t -> at_ t (rev rl) = Some x -> rl <> [] -> mkdirs rl t = ensure (rev rl) t.
Proof.
  intros Ht. revert x. induction rl as [|n rl IH]; intros x Hx Hne; [done|]. cbn [mkdirs].
  assert (E : mkdirs rl t = (t, Ok ())); [|by rewrite E]. destruct rl as [|n' rl]; [done|].
  assert (Hd : is_dir (at_ t (rev (n' :: rl))) = true).
  { apply (Ht _ n). cbn [rev] in Hx |- *. rewrite at_nonempty in Hx by (by destruct (rev rl)). by rewrite Hx. }
  destruct (at_ t (rev (n' :: rl))) as [y|] eqn:Ey; [|done]. rewrite (IH y) by done. unfold ensure. rewrite Ey. by destruct y.
Qed.

Lemma before_last_length p : (length (before_last p) <= length p)%nat.
Proof.
  unfold before_last. rewrite <- (length_rev p). generalize (rev p). intros r.
  assert (forall r, (length (skip_slashes r) <= length r)%nat) as H1 by (induction r0 as [|c r0 IH]; cbn; [lia|]; case_bool_decide; cbn; lia).
  assert (forall r, (length (skip_name r) <= length r)%nat) as H2 by (induction r0 as [|c r0 IH]; cbn; [lia|]; case_bool_decide; cbn; lia).
  etrans; [apply H2|apply H1].
Qed.
Lemma emit_cases x : emit x = [] \/ emit x = [x].
Proof. unfold emit. destruct (_ || _); auto. Qed.
(** [os.Mkdir] of a missing name in a directory, and what follows, is one step of the reference. *)
Lemma mkdir_step path t l x : names path = (l ++ [x])%list -> at_ t (l ++ [x])%list = None -> is_dir (at_ t l) = true ->
  match os_Mkdir e t path mkdir_mode with
  | Ok t => (chown e fi (names path) t, Ok ())
  | Err err => match at_ t (names path) with Some (Dir _ _) => (chown e fi (names path) t, Ok ()) | _ => (t, Err err) end
  | Panic m => (t, Panic m)
  end = ensure (l ++ [x])%list t.
Proof.
  intros Hn Hm Hd. unfold os_Mkdir, ensure. rewrite Hn, Hm, removelast_last. destruct (at_ t l) as [[]|]; [|done..].
  by destruct (te_mkdir e (l ++ [x])%list).
Qed.
(** The result of the last step, whatever came before it. *)
Lemma mkdir_after path t t1 l z : names path = (l ++ emit z)%list -> at_ t (names path) = None -> mkdirs (rev l) t = (t1, Ok ()) ->
  match os_Mkdir e t1 path mkdir_mode with
  | Ok t => (chown e fi (names path) t, Ok ())
  | Err err => match at_ t1 (names path) with Some (Dir _ _) => (chown e fi (names path) t1, Ok ()) | _ => (t1, Err err) end
  | Panic m => (t1, Panic m)
  end = mkdirs (rev (names path)) t.
Proof.
  intros Hn Hm H1. pose proof (mkdirs_dir _ _ _ H1) as Hd. rewrite rev_involutive in Hd. destruct (emit_cases z) as [Hz|Hz]; rewrite Hz in Hn.
  - rewrite app_nil_r in Hn. rewrite <- Hn in H1, Hd. rewrite H1. unfold os_Mkdir. destruct (at_ t1 (names path)) as [[m o|]|] eqn:E1; [|done..].
    assert (Hne : names path <> []) by (intros E; rewrite E in Hm; done). f_equal. apply chown_again.
    destruct (rev (names path)) as [|n up] eqn:Er; [apply (f_equal (@rev _)) in Er; rewrite rev_involutive in Er; done|].
    cbn [mkdirs] in H1. destruct (mkdirs up t) as [t2 [u|err|m']] eqn:E2; [|done..].
    rewrite <- Er, rev_involutive in H1. destruct (ensure_spec _ _ _ _ Hne H1) as (_ & _ & Hmade). rewrite Hmade; [by rewrite lookup_insert_eq|done|].
    rewrite <- Hm. eapply mkdirs_frame; [exact E2|]. right. intros [v Hv]. rewrite Er in Hv. apply (f_equal length) in Hv. rewrite length_app in Hv. cbn in Hv. lia.
  - assert (Hm1 : at_ t1 (l ++ [z])%list = None).
    { rewrite <- Hn in *. rewrite <- Hm. eapply mkdirs_frame; [exact H1|]. right. intros [v Hv]. rewrite Hn, rev_app_distr in Hv. apply (f_equal length) in Hv.
      rewrite length_app, length_app, !length_rev in Hv. cbn in Hv. lia. }
    rewrite (mkdir_step path t1 l z Hn Hm1 Hd), Hn, rev_app_distr. cbn [rev app mkdirs]. rewrite H1. cbn [rev]. by rewrite rev_involutive.
Qed.
(** The text of a path is taken apart as its names are: [MkdirAll] makes the missing prefixes of the path, from the first on, and stops at the first
    error. *)
Theorem MkdirAll_prefixes fuel path t : tree_ok t -> (length path <= fuel)%nat -> MkdirAll fuel path t = mkdirs (rev (names path)) t.
Proof.
  intros Ht. revert path. induction fuel as [|fuel IH]; intros path Hf.
  { destruct path; [done|cbn in Hf; lia]. }
  cbn [MkdirAll]. destruct (at_ t (names path)) as [x|] eqn:Ex.
  { destruct (decide (names path = [])) as [En|Hne]; [rewrite En in *; injection Ex as <-; done|].
    rewrite (mkdirs_there (rev (names path)) t x); [|done|by rewrite rev_involutive|by intros Er; apply Hne; rewrite <- (rev_involutive (names path)), Er].
    rewrite rev_involutive. unfold ensure. rewrite Ex. by destruct x. }
  destruct (names_split path) as (z & _ & [[Hb Hn]|(q & Hb & Hn)]); rewrite Hb.
  - cbn [length Nat.ltb Nat.leb]. by apply (mkdir_after path t t [] z).
  - cbn [tail]. destruct (1 <? length (slash :: q))%nat eqn:El.
    + pose proof (before_last_length path) as Hlen. rewrite Hb in Hlen. cbn in Hlen.
      rewrite IH by (rewrite length_rev; lia). destruct (mkdirs (rev (names (rev q))) t) as [t1 [[]|err|m]] eqn:E1; [by apply (mkdir_after path t t1 (names (rev q)) z)|..].
      * destruct (emit_cases z) as [Hz|Hz]; rewrite Hz in Hn; [rewrite app_nil_r in Hn; by rewrite Hn, E1|]. rewrite Hn, rev_app_distr. cbn [rev app mkdirs]. by rewrite E1.
      * destruct (emit_cases z) as [Hz|Hz]; rewrite Hz in Hn; [rewrite app_nil_r in Hn; by rewrite Hn, E1|]. rewrite Hn, rev_app_distr. cbn [rev app mkdirs]. by rewrite E1.
    + destruct q; [|done]. by apply (mkdir_after path t t [] z).
Qed.
(** Afterwards the directory is there; nothing that was there has changed, whatever fails. *)
Theorem MkdirAll_makes path t t' x : tree_ok t -> MkdirAll (length path) path t = (t', x) ->
  (x = Ok () -> is_dir (at_ t' (names path)) = true) /\ (forall l y, at_ t l = Some y -> at_ t' l = Some y).
Proof.
  intros Ht H. rewrite MkdirAll_prefixes in H by (done || lia). split.
  - intros ->. apply mkdirs_dir in H. by rewrite rev_involutive in H.
  - intros l y Hl. rewrite (mkdirs_frame _ _ _ _ l H); [done|]. left. by rewrite Hl.
Qed.
End MkdirAll.

(** ** Files *)

(** [CreateFile]: a file that is there is emptied and keeps its mode. *)
Definition CreateFile (e : treeenv) (fi : FileInfoOf) (filename : str) (t : tree) : tree * result () :=
  let l := names filename in
  match te_open e l with
  | Some err => (t, Err err)
  | None =>
      match at_ t l with
      | Some (Dir _ _) => (t, Err (EPath "open" (EVar "is a directory")))
      | Some (Plain m o _) => (chown e fi l (<[l := Plain m o []]> t), Ok ())
      | None =>
          if is_dir (at_ t (removelast l))
          then (chown e fi l (<[l := Plain (masked e (match fi with Some (m, _) => m | None => 384 end)) None []]> t), Ok ())
          else (t, Err (EPath "open" ErrNotExist))
      end
  end.
(** The file is empty, and its owner is that of the information when the system allows it; nothing else changes. *)
Theorem CreateFile_spec e fi p t t' x : names p <> [] -> CreateFile e fi p t = (t', x) ->
  (x = Ok () -> exists m o, t' !! names p = Some (Plain m o []) /\ (te_chown e (names p) = true -> Fileinfo fi <> None -> o = Fileinfo fi)) /\
  (x <> Ok () -> t' = t) /\ (forall l, l <> names p -> t' !! l = t !! l).
Proof.
  intros Hne. unfold CreateFile, chown.
  assert (Hin : forall m o, exists o', (if te_chown e (names p) then
      match <[names p := Plain m o []]> t !! names p with Some y => <[names p := own (Fileinfo fi) y]> (<[names p := Plain m o []]> t) | None => <[names p := Plain m o []]> t end
    else <[names p := Plain m o []]> t) = <[names p := Plain m o' []]> t /\ (te_chown e (names p) = true -> Fileinfo fi <> None -> o' = Fileinfo fi)).
  { intros m o. rewrite lookup_insert_eq. destruct (te_chown e (names p)); [|by exists o]. rewrite insert_insert_eq. destruct (Fileinfo fi) as [w|]; [by exists (Some w)|by exists o]. }
  destruct (te_open e (names p)); [intros [= <- <-]; by split_and!|]. destruct (at_ t (names p)) as [[m o|m o d]|]; [intros [= <- <-]; by split_and!|..].
  - destruct (Hin m o) as (o' & -> & Ho). intros [= <- <-]. split_and!; [intros _; exists m, o'; by rewrite lookup_insert_eq|done|]. intros l Hl. by rewrite lookup_insert_ne.
  - destruct (is_dir _); [|intros [= <- <-]; by split_and!].
    destruct (Hin (masked e (match fi with Some (m, _) => m | None => 384 end)) None) as (o' & -> & Ho). intros [= <- <-].
    split_and!; [intros _; eexists _, o'; by rewrite lookup_insert_eq|done|]. intros l Hl. by rewrite lookup_insert_ne.
Qed.

(** [removeTmpFiles]: the files that a walk visits, those it could not look at marked. *)
Definition is_tmp (l : list str) : bool := HasSuffix (default [] (last l)) (lit ".tmp").
Fixpoint removeTmpFiles (fault : list str -> option error) (visited : list (list str * bool)) (t : tree) : tree * result () :=
  match visited with
  | [] => (t, Ok ())
  | (l, errored) :: visited =>
      if errored : bool then removeTmpFiles fault visited t else
      match t !! l with
      | Some (Plain _ _ _) =>
          if is_tmp l
          then match fault l with Some err => (t, Err err) | None => removeTmpFiles fault visited (base.delete l t) end
          else removeTmpFiles fault visited t
      | _ => removeTmpFiles fault visited t
      end
  end.
Definition tmp_file (t : tree) (l : list str) : bool := is_tmp l && match t !! l with Some (Plain _ _ _) => true | _ => false end.
(** Nothing but temporary files is removed, and after a success none that the walk could look at is left. *)
Theorem removeTmpFiles_exact fault visited t t' x : removeTmpFiles fault visited t = (t', x) ->
  (forall l, tmp_file t l = false -> t' !! l = t !! l) /\ (forall l y, t' !! l = Some y -> t !! l = Some y) /\
  (x = Ok () -> forall l, (l, false) ∈ visited -> tmp_file t' l = false).
Proof.
  revert t. induction visited as [|[l b] visited IH]; intros t; cbn [removeTmpFiles].
  { intros [= <- <-]. split_and!; [done..|]. intros _ l []%elem_of_nil. }
  assert (Skip : removeTmpFiles fault visited t = (t', x) -> (b = true \/ tmp_file t l = false) ->
    (forall l, tmp_file t l = false -> t' !! l = t !! l) /\ (forall l y, t' !! l = Some y -> t !! l = Some y) /\
    (x = Ok () -> forall k, (k, false) ∈ (l, b) :: visited -> tmp_file t' k = false)).
  { intros H Hb. destruct (IH _ H) as (H1 & H2 & H3). split_and!; [done..|]. intros Hx k [[= <- <-]|Hk]%elem_of_cons; [|by apply H3].
    destruct Hb as [?|Hb]; [done|]. unfold tmp_file. rewrite (H1 _ Hb). exact Hb. }
  destruct b; [intros H; apply Skip; [done|by left]|]. destruct (t !! l) as [[m o|m o d]|] eqn:El;
    try (intros H; apply Skip; [done|right; unfold tmp_file; rewrite El; by rewrite andb_false_r]).
  destruct (is_tmp l) eqn:Ei; [|intros H; apply Skip; [done|right; unfold tmp_file; by rewrite Ei]].
  destruct (fault l); [intros [= <- <-]; by split_and!|]. intros H. destruct (IH _ H) as (H1 & H2 & H3).
  assert (Htmp : tmp_file t l = true) by (unfold tmp_file; by rewrite Ei, El).
  assert (Hgone : t' !! l = None).
  { destruct (t' !! l) as [y|] eqn:Ey; [|done]. apply H2 in Ey. by rewrite lookup_delete_eq in Ey. }
  split_and!.
  - intros k Hk. destruct (decide (k = l)) as [->|Hne]; [congruence|]. rewrite H1; [by rewrite lookup_delete_ne|]. unfold tmp_file in *. by rewrite lookup_delete_ne.
  - intros k y Hy. destruct (decide (k = l)) as [->|Hne]; [congruence|]. apply H2 in Hy. by rewrite lookup_delete_ne in Hy.
  - intros Hx k [[= ->]|Hk]%elem_of_cons; [|by apply H3]. unfold tmp_file. by rewrite Hgone, andb_false_r.
Qed.

(** ** Examples *)

Module HelpersDemo.
Definition env : treeenv := mkTreeEnv (fun _ => None) (fun _ => true) (fun _ => None) 18.
Definition fi : FileInfoOf := Some (493, (7, 8)).
Definition t0 : tree := {[[lit "a"] := Dir 448 None; [lit "f"] := Plain 420 None []]}.
Definition made : tree * result () := MkdirAll env fi 20 (lit "/a//b/./c/") t0.
Example makes : made.2 = Ok () /\ made.1 !! [lit "a"] = Some (Dir 448 None) /\ made.1 !! [lit "a"; lit "b"] = Some (Dir 493 (Some (7, 8))) /\
  made.1 !! [lit "a"; lit "b"; lit "c"] = Some (Dir 493 (Some (7, 8))).
Proof. by vm_compute. Qed.
Example not_through_files : (MkdirAll env fi 20 (lit "f/x") t0).2 = Err (EPath "mkdir" ENOTDIR) /\ (MkdirAll env fi 20 (lit "f/x") t0).1 !! [lit "f"; lit "x"] = None.
Proof. by vm_compute. Qed.
Definition cleaned : tree * result () :=
  removeTmpFiles (fun _ => None) [([lit "a"], false); ([lit "a"; lit "x.ltx"], false); ([lit "a"; lit "x.ltx.tmp"], false)]
    (<[[lit "a"; lit "x.ltx"] := Plain 0 None [x61]]> (<[[lit "a"; lit "x.ltx.tmp"] := Plain 0 None []]> t0)).
Example cleans : cleaned.2 = Ok () /\ cleaned.1 !! [lit "a"; lit "x.ltx"] = Some (Plain 0 None [x61]) /\ cleaned.1 !! [lit "a"; lit "x.ltx.tmp"] = None.
Proof. by vm_compute. Qed.
End HelpersDemo.
