(* ===== verification/Text.v ===== *)
(** * Text

    What the command line uses of Go's standard library for text: white space and fields of UTF-8 text (package strings), the lines of a
    [bufio.Scanner], and tables of package text/tabwriter. *)

From Stdlib Require Import ZArith Lia Ascii String.
From stdpp Require Import base numbers list strings.
From S2P Require Import Prelude Urls.
Local Open Scope nat_scope.

(** ** Characters *)

Definition code (c : ascii) : nat := nat_of_ascii c.
Definition between (lo hi : nat) (c : ascii) : bool := (lo <=? code c) && (code c <=? hi).
Definition continuation : ascii -> bool := between 0x80 0xBF.
(** The second byte of a sequence of three or four bytes, by the first: no overlong sequences, no surrogates, nothing above U+10FFFF. *)
Definition second_of_three (b0 b1 : ascii) : bool :=
  if code b0 =? 0xE0 then between 0xA0 0xBF b1 else if code b0 =? 0xED then between 0x80 0x9F b1 else continuation b1.
Definition second_of_four (b0 b1 : ascii) : bool :=
  if code b0 =? 0xF0 then between 0x90 0xBF b1 else if code b0 =? 0xF4 then between 0x80 0x8F b1 else continuation b1.
(** The number of bytes of the first character; a byte that starts none is one of its own. *)
Definition rune_size (s : str) : nat :=
  match s with
  | [] => 0
  | b0 :: b1 :: t =>
      if between 0xC2 0xDF b0 && continuation b1 then 2 else
      match t with
      | b2 :: t =>
          if between 0xE0 0xEF b0 && second_of_three b0 b1 && continuation b2 then 3 else
          match t with
          | b3 :: _ => if between 0xF0 0xF4 b0 && second_of_four b0 b1 && continuation b2 && continuation b3 then 4 else 1
          | [] => 1
          end
      | [] => 1
      end
  | [_] => 1
  end.
Fixpoint runes_loop (fuel : nat) (s : str) : list str :=
  match fuel, s with
  | S fuel, _ :: _ => take (rune_size s) s :: runes_loop fuel (drop (rune_size s) s)
  | _, _ => []
  end.
(** The characters of a text, each as its bytes. *)
Definition runes (s : str) : list str := runes_loop (length s) s.
Definition RuneCount (s : str) : nat := length (runes s).

(** [unicode.IsSpace]. *)
Definition bytes_of (l : list nat) : str := ascii_of_nat <$> l.
Definition IsSpace (r : str) : bool :=
  match code <$> r with
  | [n] => ((9 <=? n) && (n <=? 13)) || (n =? 32)
  | [0xC2; n] => (n =? 0x85) || (n =? 0xA0)
  | [0xE1; 0x9A; 0x80] => true
  | [0xE2; 0x80; n] => ((0x80 <=? n) && (n <=? 0x8A)) || (n =? 0xA8) || (n =? 0xA9) || (n =? 0xAF)
  | [0xE2; 0x81; 0x9F] => true
  | [0xE3; 0x80; 0x80] => true
  | _ => false
  end.

(** [strings.Fields]: the longest parts without white space; [cur] is the part that is being read. *)
Fixpoint fields_of (rs : list str) (cur : str) : list str :=
  match rs with
  | [] => if bool_decide (cur = []) then [] else [cur]
  | r :: rs => if IsSpace r then (if bool_decide (cur = []) then [] else [cur]) ++ fields_of rs [] else fields_of rs (cur ++ r)
  end.
Definition Fields (s : str) : list str := fields_of (runes s) [].

(** [strings.TrimSpace]. *)
Fixpoint trim_runes (rs : list str) : list str := match rs with r :: rs' => if IsSpace r then trim_runes rs' else rs | [] => [] end.
Definition trim_space (s : str) : str := mjoin (reverse (trim_runes (reverse (trim_runes (runes s))))).

(** ** Lines and tables *)

Definition nl : ascii := ascii_of_nat 10.
Definition cr : ascii := ascii_of_nat 13.
Definition space : ascii := " "%char.

(** [bufio.ScanLines] of a scanner: lines without their ends, a last line without one only when it is not empty; a line that does not fit the
    buffer ends the scan. *)
Definition MaxScanTokenSize : nat := Z.to_nat 65536.
Definition drop_cr (l : str) : str := match reverse l with c :: t => if bool_decide (c = cr) then reverse t else l | [] => l end.
Fixpoint scan_pieces (ls : list str) : list str :=
  match ls with
  | [] => []
  | l :: ls => if (match ls with [] => bool_decide (l = []) | _ => false end) || negb (length l <? MaxScanTokenSize) then [] else drop_cr l :: scan_pieces ls
  end.
Definition scan_lines (s : str) : list str := scan_pieces (split nl s).

(** [tabwriter.NewWriter(w, 0, 8, 2, ' ', 0)] for rows of the same number of cells without tabs and line breaks: every cell but the last of a row is filled
    with spaces to two more than the longest of its column. *)
Definition width (rows : list (list str)) (j : nat) : nat := foldr Nat.max 0 ((fun row => RuneCount (default [] (row !! j))) <$> rows) + 2.
Fixpoint row_text (widths : list nat) (row : list str) {struct row} : str :=
  match row with
  | [] => []
  | c :: row =>
      match row, widths with
      | _ :: _, w :: widths => c ++ repeat space (w - RuneCount c) ++ row_text widths row
      | _, _ => c
      end
  end.
Definition tabulate_row (rows : list (list str)) (row : list str) : str := row_text (width rows <$> seq 0 (length row)) row.
Definition tabulate (rows : list (list str)) : str := mjoin ((fun row => tabulate_row rows row ++ [nl]) <$> rows).

(** ** Lemmas *)

Definition plain (c : ascii) : Prop := code c < 128.

Lemma plain_not_continuation c : plain c -> continuation c = false.
Proof. unfold plain, continuation, between. intros H. destruct (Nat.leb_spec 0x80 (code c)); [lia|done]. Qed.
Lemma plain_not_second b0 c : plain c -> second_of_three b0 c = false /\ second_of_four b0 c = false.
Proof.
  unfold plain, second_of_three, second_of_four, continuation, between. intros H.
  split; repeat case_match; apply andb_false_iff; left; apply Nat.leb_gt; lia.
Qed.
Lemma rune_size_pos s : s <> [] -> 1 <= rune_size s <= length s.
Proof.
  destruct s as [|b0 [|b1 [|b2 [|b3 t]]]]; intros H; try done; cbn; repeat match goal with |- context [if ?b then _ else _] => destruct b end; lia.
Qed.
(** A plain character never belongs to the sequence before it. *)
Lemma rune_size_app w c r : w <> [] -> plain c -> rune_size (w ++ c :: r) = rune_size w.
Proof.
  intros Hw Hc. pose proof (plain_not_continuation c Hc) as H1.
  destruct w as [|b0 [|b1 [|b2 [|b3 t]]]]; try done; cbn [app rune_size].
  - rewrite H1, andb_false_r. destruct r as [|b2 [|b3 r]]; try done; destruct (plain_not_second b0 c Hc) as [E3 E4]; rewrite ?E3, ?E4, ?andb_false_r; done.
  - destruct (_ && _); [done|]. rewrite H1, !andb_false_r. by destruct r.
  - rewrite H1, !andb_false_r. done.
Qed.
Lemma runes_fuel n s : length s <= n -> runes_loop n s = runes s.
Proof.
  unfold runes. remember (length s) as m eqn:Em. intros H. revert n s Em H. induction m as [m IH] using lt_wf_ind. intros n s Em H.
  destruct s as [|c s]; [destruct n, m; done|]. destruct n as [|n]; [cbn in Em; lia|]. destruct m as [|m]; [done|]. cbn [runes_loop].
  pose proof (rune_size_pos (c :: s) ltac:(done)) as Hp. f_equal. set (rest := drop _ (c :: s)).
  assert (Hr : length rest < S m) by (unfold rest; rewrite length_drop; lia).
  rewrite (IH (length rest) Hr n rest eq_refl) by lia. by rewrite (IH (length rest) Hr m rest eq_refl) by lia.
Qed.
Lemma runes_cons s : s <> [] -> runes s = take (rune_size s) s :: runes (drop (rune_size s) s).
Proof.
  intros H. destruct s as [|c s]; [done|]. unfold runes at 1. cbn [length runes_loop]. f_equal. apply runes_fuel.
  pose proof (rune_size_pos (c :: s) ltac:(done)). rewrite length_drop. cbn [length] in *. lia.
Qed.
Lemma runes_join s : mjoin (runes s) = s.
Proof.
  remember (length s) as n eqn:En. revert s En. induction n as [n IH] using lt_wf_ind. intros s En. destruct (decide (s = [])) as [->|Hs]; [done|].
  rewrite runes_cons by done. cbn [mjoin list_join]. pose proof (rune_size_pos s Hs). rewrite (IH (length (drop (rune_size s) s))); [apply take_drop|rewrite length_drop; lia|done].
Qed.
Lemma runes_app_plain w c r : plain c -> runes (w ++ c :: r) = runes w ++ runes (c :: r).
Proof.
  intros Hc. remember (length w) as n eqn:En. revert w En. induction n as [n IH] using lt_wf_ind. intros w En. destruct (decide (w = [])) as [->|Hw]; [done|].
  pose proof (rune_size_pos w Hw) as Hp. rewrite (runes_cons (w ++ c :: r)) by (by destruct w). rewrite (runes_cons w Hw), rune_size_app by done.
  rewrite take_app_le by lia. rewrite drop_app_le by lia. cbn [app]. f_equal. apply (IH (length (drop (rune_size w) w))); [rewrite length_drop; lia|done].
Qed.
Lemma runes_plain_cons c r : plain c -> runes (c :: r) = [c] :: runes r.
Proof.
  intros Hc. rewrite runes_cons by done. assert (Hs : rune_size (c :: r) = 1).
  { unfold plain in Hc. destruct r as [|b1 [|b2 [|b3 t]]]; [done|..]; cbn [rune_size]; unfold between;
      repeat match goal with |- context [?a <=? code c] => destruct (Nat.leb_spec a (code c)); [lia|] end; done. }
  by rewrite Hs.
Qed.

(** A word: not empty and without white space. *)
Definition wordb (s : str) : bool := negb (bool_decide (s = [])) && forallb (fun r => negb (IsSpace r)) (runes s).
Lemma fields_of_word rs cur : Forall (fun r => IsSpace r = false) rs -> forall rest, fields_of (rs ++ rest) cur = fields_of rest (cur ++ mjoin rs).
Proof.
  intros H. revert cur. induction H as [|r rs Hr _ IH]; intros cur rest; cbn [app fields_of mjoin list_join]; [by rewrite app_nil_r|].
  rewrite Hr, IH. by rewrite <- app_assoc.
Qed.
Lemma Fields_word w r : wordb w = true -> Fields (w ++ space :: r) = w :: Fields r.
Proof.
  unfold wordb, Fields. rewrite andb_true_iff. intros [Hne Hw]. apply negb_true_iff, bool_decide_eq_false in Hne.
  assert (HF : Forall (fun r => IsSpace r = false) (runes w)).
  { apply Forall_forall. intros x Hx. rewrite forallb_forall in Hw. apply negb_true_iff, Hw. by apply list_elem_of_In. }
  rewrite runes_app_plain by (unfold plain; vm_compute; lia). rewrite fields_of_word by done. rewrite runes_join. cbn [app].
  rewrite runes_plain_cons by (unfold plain; vm_compute; lia). cbn [fields_of]. change (IsSpace [space]) with true. cbn iota.
  by rewrite bool_decide_eq_false_2.
Qed.
Lemma fields_repeat_space n r : Fields (repeat space n ++ r) = Fields r.
Proof.
  induction n as [|n IH]; [done|]. cbn [repeat app]. rewrite <- IH. unfold Fields. by rewrite runes_plain_cons by (unfold plain; vm_compute; lia).
Qed.
Lemma width_le rows row j c : row ∈ rows -> row !! j = Some c -> RuneCount c + 2 <= width rows j.
Proof.
  intros Hin Hj. unfold width. induction Hin as [row rows|row row' rows _ IH]; cbn [fmap list_fmap foldr]; [rewrite Hj; change (default [] (Some c)) with c; lia|].
  specialize (IH Hj). lia.
Qed.
(** What a table shows in its first column is the first field of its line. *)
Lemma first_field rows w c row : wordb w = true -> (w :: c :: row) ∈ rows -> head (Fields (tabulate_row rows (w :: c :: row))) = Some w.
Proof.
  intros Hw Hin. pose proof (width_le rows _ 0 w Hin eq_refl) as Hle. unfold tabulate_row. cbn [length seq fmap list_fmap row_text].
  destruct (width rows 0 - RuneCount w) as [|n] eqn:En; [lia|]. cbn [repeat app]. by rewrite Fields_word.
Qed.

(** *** Lines of a table *)

Lemma split_app_sep sep l r : sep ∉ l -> split sep (l ++ sep :: r) = l :: split sep r.
Proof.
  induction l as [|c l IH]; intros H; cbn [app split]; [by rewrite bool_decide_eq_true_2|].
  rewrite bool_decide_eq_false_2 by (intros ->; apply H; left). rewrite IH; [done|]. intros Hl. apply H. by right.
Qed.
Lemma row_text_no_nl widths row : Forall (fun c => nl ∉ c) row -> nl ∉ row_text widths row.
Proof.
  intros H. revert widths. induction H as [|c row Hc Hr IH]; intros widths; [apply not_elem_of_nil|]. cbn [row_text].
  destruct row as [|c' row]; [done|]. destruct widths as [|w widths]; [done|]. rewrite !not_elem_of_app. split_and!; [done| |by apply IH].
  intros Hn%list_elem_of_In. apply repeat_spec in Hn. discriminate.
Qed.
Lemma split_lines (ls : list str) : Forall (fun l => nl ∉ l) ls -> split nl (mjoin ((fun l => l ++ [nl]) <$> ls)) = ls ++ [[]].
Proof.
  intros H. induction H as [|l ls Hl _ IH]; [done|]. cbn [fmap list_fmap mjoin list_join app]. rewrite <- app_assoc. cbn [app].
  rewrite split_app_sep by done. f_equal. exact IH.
Qed.
(** The lines of a scan are those of the table, when they fit the buffer and none ends in a carriage return. *)
Lemma scan_pieces_lines ls : Forall (fun l => length l < MaxScanTokenSize /\ drop_cr l = l) ls -> scan_pieces (ls ++ [[]]) = ls.
Proof.
  intros H. induction H as [|l ls [Hl Hc] _ IH]; [done|]. cbn [app scan_pieces].
  assert ((length l <? MaxScanTokenSize) = true) as -> by (by apply Nat.ltb_lt). destruct (ls ++ [[]]) eqn:E; [by destruct ls|]. cbn [orb negb].
  by rewrite Hc, IH.
Qed.
Lemma scan_tabulate rows :
  Forall (fun row => Forall (fun c => nl ∉ c) row /\ length (tabulate_row rows row) < MaxScanTokenSize /\ drop_cr (tabulate_row rows row) = tabulate_row rows row) rows ->
  scan_lines (tabulate rows) = tabulate_row rows <$> rows.
Proof.
  intros H. unfold scan_lines, tabulate. change (fun row => tabulate_row rows row ++ [nl]) with ((fun l => l ++ [nl]) ∘ tabulate_row rows).
  rewrite list_fmap_compose, split_lines; [apply scan_pieces_lines|]; apply Forall_fmap; (eapply Forall_impl; [exact H|]); intros row (Hc & Hl & Hd); [done|].
  by apply row_text_no_nl.
Qed.
