(* ===== verification/Flags.v ===== *)
(** * Flags

    The parser of Go's package flag, as the commands of src/cmd/replicate use it, the values it reads (package strconv), and the flags of restore, ltx,
    databases, status and reset.  A flag is an argument that begins with one or two minus signs; the value of a flag that is not boolean may
    be the next argument, that of a boolean flag never is; the first argument that is no flag ends the flags. *)

From Stdlib Require Import ZArith Lia Ascii String Strings.Byte.
From stdpp Require Import base numbers list strings gmap.
From S2P Require Import Prelude Ltx Restore Urls S3Config ReplicaConfig Commands.
Local Open Scope Z_scope.

(** ** Values *)

(** [strconv.ParseBool]. *)
Definition parse_bool (s : str) : option bool :=
  if existsb (fun t => bool_decide (s = lit t)) ["1"; "t"; "T"; "TRUE"; "true"; "True"]%string then Some true
  else if existsb (fun t => bool_decide (s = lit t)) ["0"; "f"; "F"; "FALSE"; "false"; "False"]%string then Some false else None.

(** [strconv.ParseInt(s, 0, 64)]: a sign, a prefix for the base, and digits, between which underscores may stand. *)
Definition lower (c : ascii) : Z := Z.lor (Z.of_nat (nat_of_ascii c)) 32.
Definition digit_value (c : ascii) : option Z :=
  let n := Z.of_nat (nat_of_ascii c) in
  if (48 <=? n) && (n <=? 57) then Some (n - 48)
  else if (97 <=? lower c) && (lower c <=? 122) then Some (lower c - 97 + 10) else None.
Fixpoint digits_in (base acc : Z) (s : str) : option Z :=
  match s with
  | [] => Some acc
  | c :: s => if bool_decide (c = "_"%char) then digits_in base acc s else
              match digit_value c with
              | Some d => if base <=? d then None else digits_in base (acc * base + d) s
              | None => None
              end
  end.
Definition base_prefix (s : str) : Z * str :=
  match s with
  | "0"%char :: c :: (_ :: _) as rest =>
      if lower c =? 98 then (2, drop 2 s) else if lower c =? 111 then (8, drop 2 s) else if lower c =? 120 then (16, drop 2 s) else (8, drop 1 s)
  | "0"%char :: _ => (8, drop 1 s)
  | _ => (10, s)
  end.
(** What was seen before a character: nothing, a digit, an underscore, another character. *)
Inductive saw := SawStart | SawDigit | SawUnderscore | SawOther.
Fixpoint underscores (hex : bool) (seen : saw) (s : str) : bool :=
  match s with
  | [] => match seen with SawUnderscore => false | _ => true end
  | c :: s =>
      let n := Z.of_nat (nat_of_ascii c) in
      if ((48 <=? n) && (n <=? 57)) || (hex && (97 <=? lower c) && (lower c <=? 102)) then underscores hex SawDigit s
      else if bool_decide (c = "_"%char) then match seen with SawDigit => underscores hex SawUnderscore s | _ => false end
      else match seen with SawUnderscore => false | _ => underscores hex SawOther s end
  end.
Definition underscoreOK (s : str) : bool :=
  match s with
  | "0"%char :: c :: rest =>
      if (lower c =? 98) || (lower c =? 111) || (lower c =? 120) then underscores (lower c =? 120) SawDigit rest else underscores false SawStart s
  | _ => underscores false SawStart s
  end.
Definition unsigned (s : str) : option Z :=
  let '(base, body) := base_prefix s in
  n ← digits_in base 0 body;
  if bool_decide ("_"%char ∈ body) && negb (underscoreOK s) then None else Some n.
Definition ParseInt0 (s : str) : option Z :=
  match s with
  | [] => None
  | c :: rest =>
      let neg := bool_decide (c = "-"%char) in
      let body := if neg || bool_decide (c = "+"%char) then rest else s in
      if bool_decide (body = []) then None else
      n ← unsigned body;
      let z := if neg then - n else n in
      if (- 2 ^ 63 <=? z) && (z <? 2 ^ 63) then Some z else None
  end.

(** ** The parser *)

Definition ErrHelp : error := EVar "flag: help requested".
Inductive flag_value (F : Type) := BoolFlag (set : bool -> F -> F) | ValueFlag (set : str -> F -> result F).
Arguments BoolFlag {F}.
Arguments ValueFlag {F}.

(** An argument: no flag, the end of the flags, a malformed flag, or a flag with the value after an equals sign. *)
Inductive word := WArg | WEnd | WBad | WFlag (name : str) (value : option str).
Fixpoint split_value (s : str) : str * option str :=
  match s with
  | [] => ([], None)
  | c :: s => if bool_decide (c = "="%char) then ([], Some s) else let '(name, value) := split_value s in (c :: name, value)
  end.
Definition named (s : str) : word :=
  match s with
  | [] => WBad
  | c :: rest => if bool_decide (c = "-"%char) || bool_decide (c = "="%char) then WBad else let '(name, value) := split_value rest in WFlag (c :: name) value
  end.
Definition word_of (s : str) : word :=
  match s with
  | m :: c :: rest =>
      if negb (bool_decide (m = "-"%char)) then WArg
      else if bool_decide (c = "-"%char) then match rest with [] => WEnd | _ => named rest end
      else named (c :: rest)
  | _ => WArg
  end.

Section Parse.
Context {F : Type}.
Variable formal : list (string * flag_value F).
Definition flag_named (name : str) : option (flag_value F) := snd <$> List.find (fun x => bool_decide (lit x.1 = name)) formal.

Fixpoint FlagSet_Parse (args : list str) (f : F) : result (F * list str) :=
  match args with
  | [] => Ok (f, [])
  | s :: rest =>
      match word_of s with
      | WArg => Ok (f, args)
      | WEnd => Ok (f, rest)
      | WBad => Err (EMsg "bad flag syntax")
      | WFlag name value =>
          match flag_named name with
          | None => Err (if bool_decide (name = lit "help") || bool_decide (name = lit "h") then ErrHelp else EMsg "flag provided but not defined")
          | Some (BoolFlag set) =>
              match value with
              | None => FlagSet_Parse rest (set true f)
              | Some v => match parse_bool v with Some b => FlagSet_Parse rest (set b f) | None => Err (EMsg "invalid boolean value") end
              end
          | Some (ValueFlag set) =>
              match value, rest with
              | Some v, _ => f ← set v f wrapping "invalid value"; FlagSet_Parse rest f
              | None, v :: rest => f ← set v f wrapping "invalid value"; FlagSet_Parse rest f
              | None, [] => Err (EMsg "flag needs an argument")
              end
          end
      end
  end.

(** A command line made of flags with their values, and arguments. *)
Definition flag_args (opts : list (string * str)) : list str := mjoin ((fun o => [("-"%char :: lit o.1); o.2]) <$> opts).
Fixpoint set_all (opts : list (string * str)) (f : F) : result F :=
  match opts with
  | [] => Ok f
  | (name, v) :: opts =>
      match flag_named (lit name) with
      | Some (ValueFlag set) => f ← set v f wrapping "invalid value"; set_all opts f
      | _ => Err (EMsg "no such flag")
      end
  end.
Lemma set_all_value name set v opts f : flag_named (lit name) = Some (ValueFlag set) ->
  set_all ((name, v) :: opts) f = (f ← set v f wrapping "invalid value"; set_all opts f).
Proof. intros H. cbn [set_all]. by rewrite H. Qed.
Lemma set_all_nil f : set_all [] f = Ok f.
Proof. done. Qed.
Lemma set_all_app o1 o2 f : set_all (o1 ++ o2) f = (f ← set_all o1 f; set_all o2 f).
Proof.
  revert f. induction o1 as [|[name v] o1 IH]; intros f; [done|]. cbn [app set_all]. destruct (flag_named (lit name)) as [[set|set]|]; [done| |done].
  destruct (set v f) as [f'|err|m]; cbn [wrap_err mbind result_bind]; [apply IH|done..].
Qed.
(** A name that reads back: it is a flag with a value, and does not look like another word. *)
Definition value_flag (name : string) : bool :=
  match word_of ("-"%char :: lit name), flag_named (lit name) with
  | WFlag n None, Some (ValueFlag _) => bool_decide (n = lit name)
  | _, _ => false
  end.
Definition is_arg (s : str) : bool := match word_of s with WArg => true | _ => false end.

(** Values are never taken for flags, whatever they are. *)
Lemma parse_prefix opts args f : forallb (fun o => value_flag o.1) opts = true ->
  FlagSet_Parse (flag_args opts ++ args) f = (f ← set_all opts f; FlagSet_Parse args f).
Proof.
  intros Ho. revert f. induction opts as [|[name v] opts IH]; intros f; [done|].
  cbn [forallb] in Ho. apply andb_prop in Ho as [Hn Ho]. cbn [flag_args fmap list_fmap mjoin list_join app FlagSet_Parse set_all fst snd].
  unfold value_flag in Hn. cbn [fst] in Hn. destruct (word_of ("-"%char :: lit name)) as [| | |n value]; try done. destruct value; [done|].
  destruct (flag_named (lit name)) as [[set|set]|] eqn:Ef; try done. apply bool_decide_eq_true in Hn as ->. rewrite Ef.
  destruct (set v f) as [f'|err|m]; cbn [wrap_err mbind result_bind]; [apply (IH Ho f')|done..].
Qed.
Lemma parse_stop a args f : is_arg a = true -> FlagSet_Parse (a :: args) f = Ok (f, a :: args).
Proof. unfold is_arg. cbn. by destruct (word_of a). Qed.
(** A line of flags with values and arguments, the first of which is no flag, sets exactly those values. *)
Lemma parse_printed opts args f : forallb (fun o => value_flag o.1) opts = true -> match args with [] => True | a :: _ => is_arg a = true end ->
  FlagSet_Parse (flag_args opts ++ args) f = (f ← set_all opts f; Ok (f, args)).
Proof.
  intros Ho Ha. rewrite parse_prefix by done. destruct (set_all opts f); [|done..]. cbn [mbind result_bind]. destruct args; [done|by apply parse_stop].
Qed.
(** The value of a boolean flag is never the next argument: that argument, when it is no flag, ends the flags. *)
Lemma parse_bool_flag opts name set v args f : forallb (fun o => value_flag o.1) opts = true ->
  word_of ("-"%char :: lit name) = WFlag (lit name) None -> flag_named (lit name) = Some (BoolFlag set) -> is_arg v = true ->
  FlagSet_Parse (flag_args opts ++ ("-"%char :: lit name) :: v :: args) f = (f ← set_all opts f; Ok (set true f, v :: args)).
Proof.
  intros Ho Hw Hf Hv. rewrite parse_prefix by done. destruct (set_all opts f) as [f'| |]; [|done..]. cbn [mbind result_bind].
  rewrite <- (parse_stop v args (set true f') Hv). cbn [FlagSet_Parse]. by rewrite Hw, Hf.
Qed.
(** A last word that looks like a flag leaves no arguments. *)
Lemma parse_no_arg a f f' rest : is_arg a = false -> FlagSet_Parse [a] f = Ok (f', rest) -> rest = [].
Proof.
  unfold is_arg. cbn. destruct (word_of a) as [| | |name value]; try done; [intros _ [= _ <-]; done|]. intros _.
  destruct (flag_named name) as [[set|set]|]; [| |done].
  - destruct value as [v|]; [destruct (parse_bool v)|]; try done; by intros [= _ <-].
  - destruct value as [v|]; [|done]. destruct (set v f); cbn; [by intros [= _ <-]|done..].
Qed.
End Parse.

(** ** The flags of the commands *)

(** [registerConfigFlag], for a command with no other flags. *)
Record ConfigFlags := mkConfigFlags { kf_config : str; kf_noExpandEnv : bool }.
Definition config_flags : list (string * flag_value ConfigFlags) :=
  [("config", ValueFlag (fun v f => Ok (mkConfigFlags v (kf_noExpandEnv f))));
   ("no-expand-env", BoolFlag (fun b f => mkConfigFlags (kf_config f) b))]%string.
Definition no_config_flags : ConfigFlags := mkConfigFlags [] false.

(** [ltx.ParseTXID] and [time.ParseDuration]. *)
Section CommandFlags.
Variable ParseTXID : str -> option TXID.
Variable ParseDuration : str -> option duration.

Definition txidVar_Set (s : str) : result TXID := match ParseTXID s with Some n => Ok n | None => Err (EMsg "invalid txid format") end.

Definition restore_flags : list (string * flag_value RestoreFlags) :=
  [("config", ValueFlag (fun v f => Ok (mkRestoreFlags v (rf_noExpandEnv f) (rf_o f) (rf_txid f) (rf_parallelism f) (rf_ifDBNotExists f) (rf_ifReplicaExists f)
       (rf_timestamp f) (rf_follow f) (rf_followInterval f) (rf_integrityCheck f) (rf_args f))));
   ("no-expand-env", BoolFlag (fun b f => mkRestoreFlags (rf_config f) b (rf_o f) (rf_txid f) (rf_parallelism f) (rf_ifDBNotExists f) (rf_ifReplicaExists f)
       (rf_timestamp f) (rf_follow f) (rf_followInterval f) (rf_integrityCheck f) (rf_args f)));
   ("o", ValueFlag (fun v f => Ok (mkRestoreFlags (rf_config f) (rf_noExpandEnv f) v (rf_txid f) (rf_parallelism f) (rf_ifDBNotExists f) (rf_ifReplicaExists f)
       (rf_timestamp f) (rf_follow f) (rf_followInterval f) (rf_integrityCheck f) (rf_args f))));
   ("txid", ValueFlag (fun v f => n ← txidVar_Set v; Ok (mkRestoreFlags (rf_config f) (rf_noExpandEnv f) (rf_o f) n (rf_parallelism f) (rf_ifDBNotExists f)
       (rf_ifReplicaExists f) (rf_timestamp f) (rf_follow f) (rf_followInterval f) (rf_integrityCheck f) (rf_args f))));
   ("parallelism", ValueFlag (fun v f => match ParseInt0 v with
       | Some n => Ok (mkRestoreFlags (rf_config f) (rf_noExpandEnv f) (rf_o f) (rf_txid f) n (rf_ifDBNotExists f) (rf_ifReplicaExists f)
                         (rf_timestamp f) (rf_follow f) (rf_followInterval f) (rf_integrityCheck f) (rf_args f))
       | None => Err (EMsg "parse error") end));
   ("if-db-not-exists", BoolFlag (fun b f => mkRestoreFlags (rf_config f) (rf_noExpandEnv f) (rf_o f) (rf_txid f) (rf_parallelism f) b (rf_ifReplicaExists f)
       (rf_timestamp f) (rf_follow f) (rf_followInterval f) (rf_integrityCheck f) (rf_args f)));
   ("if-replica-exists", BoolFlag (fun b f => mkRestoreFlags (rf_config f) (rf_noExpandEnv f) (rf_o f) (rf_txid f) (rf_parallelism f) (rf_ifDBNotExists f) b
       (rf_timestamp f) (rf_follow f) (rf_followInterval f) (rf_integrityCheck f) (rf_args f)));
   ("timestamp", ValueFlag (fun v f => Ok (mkRestoreFlags (rf_config f) (rf_noExpandEnv f) (rf_o f) (rf_txid f) (rf_parallelism f) (rf_ifDBNotExists f)
       (rf_ifReplicaExists f) v (rf_follow f) (rf_followInterval f) (rf_integrityCheck f) (rf_args f))));
   ("f", BoolFlag (fun b f => mkRestoreFlags (rf_config f) (rf_noExpandEnv f) (rf_o f) (rf_txid f) (rf_parallelism f) (rf_ifDBNotExists f) (rf_ifReplicaExists f)
       (rf_timestamp f) b (rf_followInterval f) (rf_integrityCheck f) (rf_args f)));
   ("follow-interval", ValueFlag (fun v f => match ParseDuration v with
       | Some d => Ok (mkRestoreFlags (rf_config f) (rf_noExpandEnv f) (rf_o f) (rf_txid f) (rf_parallelism f) (rf_ifDBNotExists f) (rf_ifReplicaExists f)
                         (rf_timestamp f) (rf_follow f) d (rf_integrityCheck f) (rf_args f))
       | None => Err (EMsg "parse error") end));
   ("integrity-check", ValueFlag (fun v f => Ok (mkRestoreFlags (rf_config f) (rf_noExpandEnv f) (rf_o f) (rf_txid f) (rf_parallelism f) (rf_ifDBNotExists f)
       (rf_ifReplicaExists f) (rf_timestamp f) (rf_follow f) (rf_followInterval f) v (rf_args f))))]%string.
Definition default_restore_flags : RestoreFlags :=
  mkRestoreFlags [] false [] 0 (ro_Parallelism NewRestoreOptions) false false [] false (ro_FollowInterval NewRestoreOptions) (lit "none") [].
Definition with_args (f : RestoreFlags) (args : list str) : RestoreFlags :=
  mkRestoreFlags (rf_config f) (rf_noExpandEnv f) (rf_o f) (rf_txid f) (rf_parallelism f) (rf_ifDBNotExists f) (rf_ifReplicaExists f)
    (rf_timestamp f) (rf_follow f) (rf_followInterval f) (rf_integrityCheck f) args.
Definition parse_restore (args : list str) : result RestoreFlags :=
  '(f, rest) ← FlagSet_Parse restore_flags args default_restore_flags; Ok (with_args f rest).

(** The level is 0 unless it is given. *)
Definition ltx_flags : list (string * flag_value LtxFlags) :=
  [("config", ValueFlag (fun v f => Ok (mkLtxFlags v (lf_noExpandEnv f) (lf_level f) (lf_args f))));
   ("no-expand-env", BoolFlag (fun b f => mkLtxFlags (lf_config f) b (lf_level f) (lf_args f)));
   ("level", ValueFlag (fun v f => l ← levelVar_Set v; Ok (mkLtxFlags (lf_config f) (lf_noExpandEnv f) l (lf_args f))))]%string.
Definition parse_ltx (args : list str) : result LtxFlags :=
  '(f, rest) ← FlagSet_Parse ltx_flags args (mkLtxFlags [] false 0 []); Ok (mkLtxFlags (lf_config f) (lf_noExpandEnv f) (lf_level f) rest).
Definition parse_config (args : list str) : result (ConfigFlags * list str) := FlagSet_Parse config_flags args no_config_flags.
End CommandFlags.
