(* ===== verification/Mcp.v ===== *)
(** * Tools for assistants

    Model of src/cmd/replicate/mcp.go: tools that run the program itself, with arguments made from a request.  A request is a parameter (package mcp): it answers
    [RequireString] and [RequireBool].  What the program does with the arguments is in Flags.v and Commands.v; here is whether they mean what the
    request asked. *)

From Stdlib Require Import ZArith Lia Ascii String Strings.Byte.
From stdpp Require Import base numbers list strings gmap.
From S2P Require Import Prelude Ltx Restore Urls S3Config ReplicaConfig Config Directory Command Commands Text Flags.
Local Open Scope Z_scope.

(** ** Arguments *)

Record request := mkRequest { RequireString : string -> str * option error; RequireBool : string -> bool * option error }.
Definition asked (req : request) (name : string) : option str := match RequireString req name with (v, None) => Some v | _ => None end.
Definition asked_bool (req : request) (name : string) : option bool := match RequireBool req name with (v, None) => Some v | _ => None end.
Definition the_path (req : request) : str := (RequireString req "path").1.

Definition isReplicaURL (path : str) : bool := bool_decide (is_Some (Index path (lit "://"))).
Definition FormatBool (b : bool) : str := lit (if b then "true" else "false").
Definition flag_of (name : string) (v : option str) : list str := match v with Some v => ["-"%char :: lit name; v] | None => [] end.

Section Args.
Variable configPath : str.
Definition config_of (req : request) : str := default configPath (asked req "config").
(** The configuration is named only for paths of databases, and only when there is one. *)
Definition config_args (req : request) : list str :=
  if isReplicaURL (the_path req) then [] else if nonempty (config_of req) then [lit "-config"; config_of req] else [].
Definition path_args (req : request) : list str := if nonempty (the_path req) then [the_path req] else [].

Definition RestoreTool_args (req : request) : list str :=
  [lit "restore"] ++ flag_of "o" (asked req "o") ++ config_args req ++ flag_of "txid" (asked req "txid") ++ flag_of "timestamp" (asked req "timestamp") ++
  flag_of "parallelism" (asked req "parallelism") ++ flag_of "if-db-not-exists" (FormatBool <$> asked_bool req "if_db_not_exists") ++
  flag_of "if-replica-exists" (FormatBool <$> asked_bool req "if_replica_exists") ++ path_args req.
Definition LTXTool_args (req : request) : list str := [lit "ltx"] ++ config_args req ++ path_args req.
Definition DatabasesTool_args (req : request) : list str := [lit "databases"; lit "-config"; config_of req].
Definition StatusTool_args (req : request) : list str := [lit "status"; lit "-config"; config_of req] ++ option_list (asked req "path").
Definition ResetTool_args (req : request) : list str := [lit "reset"; lit "-config"; config_of req] ++ option_list (asked req "path").
Definition VersionTool_args : list str := [lit "version"].

(** ** Running *)

(** What the program does with its arguments: the combined output, and the text of the error when it fails. *)
Section Run.
Context {W : Type}.
Variable program : list str -> W -> W * (str * option str).
Inductive tool_result := ToolText (s : str) | ToolError (s : str).

Definition run_tool (args : list str) (w : W) : W * tool_result :=
  let '(w, (output, err)) := program args w in
  (w, match err with Some e => ToolError (trim_space output ++ lit ": " ++ e) | None => ToolText output end).
Definition RestoreTool (req : request) : W -> W * tool_result := run_tool (RestoreTool_args req).
Definition LTXTool (req : request) : W -> W * tool_result := run_tool (LTXTool_args req).
Definition DatabasesTool (req : request) : W -> W * tool_result := run_tool (DatabasesTool_args req).
Definition StatusTool (req : request) : W -> W * tool_result := run_tool (StatusTool_args req).
Definition ResetTool (req : request) : W -> W * tool_result := run_tool (ResetTool_args req).
Definition VersionTool : W -> W * tool_result := run_tool VersionTool_args.

(** The report: the version, the databases, and the files of each database that the table of the databases shows. *)
Definition line (s : string) : str := lit s ++ [nl].
Definition table_paths (output : str) : list str := omap (fun l => head (Fields l)) (tail (scan_lines output)).
Definition ltx_args (config dbPath : str) : list str := [lit "ltx"] ++ (if nonempty config then [lit "-config"; config] else []) ++ [dbPath].
Fixpoint ltx_reports (config : str) (paths : list str) (w : W) : W * str :=
  match paths with
  | [] => (w, [])
  | p :: paths =>
      let '(w, (output, err)) := program (ltx_args config p) w in
      let '(w, rest) := ltx_reports config paths w in
      (w, match err with
          | Some e => lit "Failed to get LTX files for " ++ p ++ lit ": " ++ e ++ [nl] ++ output
          | None => lit "Database: " ++ p ++ [nl] ++ output ++ [nl]
          end ++ rest)
  end.
Definition InfoTool (req : request) (w : W) : W * tool_result :=
  match program [lit "version"] w with
  | (w, (_, Some e)) => (w, ToolError (lit "Failed to get version info: " ++ e))
  | (w, (version, None)) =>
      match program (DatabasesTool_args req) w with
      | (w, (_, Some e)) => (w, ToolError (lit "Failed to get databases info: " ++ e))
      | (w, (dbOutput, None)) =>
          let '(w, reports) := ltx_reports (config_of req) (table_paths dbOutput) w in
          (w, ToolText (line "=== Replicate Status Report ===" ++ [nl] ++ line "Version Information:" ++ version ++ [nl] ++ line "Current Config Path:" ++ config_of req ++
                        [nl; nl] ++ line "Databases:" ++ dbOutput ++ [nl] ++ line "LTX Files:" ++ reports))
      end
  end.
End Run.
End Args.

(** ** What a request means *)

Section Meaning.
Variable ParseTXID : str -> option TXID.
Variable ParseDuration : str -> option duration.
Variable configPath : str.

(** The flags that a request for a restore asks for. *)
Definition asked_restore (req : request) : result RestoreFlags :=
  txid ← match asked req "txid" with Some v => txidVar_Set ParseTXID v wrapping "invalid value" | None => Ok 0 end;
  par ← match asked req "parallelism" with
        | Some v => match ParseInt0 v with Some n => Ok n | None => Err (EWrap "invalid value" (EMsg "parse error")) end
        | None => Ok DefaultRestoreParallelism
        end;
  Ok (mkRestoreFlags (if isReplicaURL (the_path req) then [] else config_of configPath req) false (default [] (asked req "o")) txid par false false
        (default [] (asked req "timestamp")) false DefaultFollowInterval (lit "none") [the_path req]).

Definition flag_opts (name : string) (v : option str) : list (string * str) := match v with Some v => [(name, v)] | None => [] end.
Definition config_opts (req : request) : list (string * str) :=
  if isReplicaURL (the_path req) then [] else if nonempty (config_of configPath req) then [("config"%string, config_of configPath req)] else [].
Definition restore_opts (req : request) : list (string * str) :=
  flag_opts "o" (asked req "o") ++ config_opts req ++ flag_opts "txid" (asked req "txid") ++ flag_opts "timestamp" (asked req "timestamp") ++
  flag_opts "parallelism" (asked req "parallelism").

Lemma flag_args_app o1 o2 : flag_args (o1 ++ o2) = flag_args o1 ++ flag_args o2.
Proof. unfold flag_args. induction o1 as [|o o1 IH]; [done|]. cbn [app fmap list_fmap mjoin list_join]. do 2 f_equal. exact IH. Qed.
Lemma flag_of_opts name v : flag_of name v = flag_args (flag_opts name v).
Proof. by destruct v. Qed.
Lemma config_args_opts req : config_args configPath req = flag_args (config_opts req).
Proof. unfold config_args, config_opts. by repeat case_match. Qed.
Lemma restore_tool_line req : tail (RestoreTool_args configPath req) = flag_args (restore_opts req) ++
  flag_of "if-db-not-exists" (FormatBool <$> asked_bool req "if_db_not_exists") ++ flag_of "if-replica-exists" (FormatBool <$> asked_bool req "if_replica_exists") ++ path_args req.
Proof. unfold RestoreTool_args, restore_opts. rewrite !flag_args_app, <- !flag_of_opts, <- config_args_opts, <- !app_assoc. done. Qed.
Lemma restore_opts_values req : forallb (fun o => value_flag (restore_flags ParseTXID ParseDuration) o.1) (restore_opts req) = true.
Proof.
  unfold restore_opts, config_opts, flag_opts. rewrite !forallb_app.
  by destruct (asked req "o"), (asked req "txid"), (asked req "timestamp"), (asked req "parallelism"), (isReplicaURL (the_path req)), (nonempty (config_of configPath req)).
Qed.

Ltac set_flags := repeat first [rewrite set_all_nil | erewrite set_all_value by reflexivity | progress cbn [app wrap_err mbind result_bind]].
(** What the flags of a request set. *)
Lemma restore_opts_set req : set_all (restore_flags ParseTXID ParseDuration) (restore_opts req) default_restore_flags =
  (f ← asked_restore req; Ok (with_args f [])).
Proof.
  unfold restore_opts. rewrite !set_all_app. unfold config_opts, flag_opts, asked_restore, config_of.
  set (c := default configPath (asked req "config")).
  destruct (asked req "o"), (isReplicaURL (the_path req)); try (destruct (nonempty c) eqn:Ec; [|destruct c; [|done]]); set_flags;
    destruct (asked req "txid") as [t|]; set_flags; try destruct (txidVar_Set ParseTXID t); set_flags; try done;
    destruct (asked req "timestamp"), (asked req "parallelism") as [p|]; set_flags; try destruct (ParseInt0 p); done.
Qed.

(** The restore tool without its boolean options: the program gets exactly the flags that the request asks for, for any values, and the path as its
    argument; a replica URL never comes with a configuration, which the command would refuse. *)
Theorem restore_tool_means req : asked_bool req "if_db_not_exists" = None -> asked_bool req "if_replica_exists" = None ->
  nonempty (the_path req) = true -> is_arg (the_path req) = true ->
  Main_command (RestoreTool_args configPath req) = PRestore /\
  parse_restore ParseTXID ParseDuration (tail (RestoreTool_args configPath req)) = asked_restore req /\
  (forall f, asked_restore req = Ok f -> IsURL (the_path req) = true -> rf_config f = []).
Proof.
  intros Hd Hr Hp Ha. split_and!; [done|..].
  - unfold parse_restore. rewrite restore_tool_line, Hd, Hr. cbn [fmap option_fmap option_map flag_of app]. unfold path_args. rewrite Hp.
    rewrite parse_printed by (try apply restore_opts_values; done). rewrite restore_opts_set. unfold asked_restore.
    repeat match goal with |- context [match ?m with Ok _ => _ | Err _ => _ | Panic _ => _ end] => destruct m end; cbn; try done.
    all: try (destruct (match asked req "txid" with Some _ => _ | None => _ end); cbn; [|done..]);
      try (destruct (match asked req "parallelism" with Some _ => _ | None => _ end); cbn; done).
  - intros f. unfold asked_restore. destruct (match asked req "txid" with Some _ => _ | None => _ end); cbn [mbind result_bind]; [|done..].
    destruct (match asked req "parallelism" with Some _ => _ | None => _ end); cbn [mbind result_bind]; [|done..]. intros [= <-] Hu. cbn.
    unfold isReplicaURL, IsURL in *. destruct (Index (the_path req) (lit "://")); [|done]. by rewrite bool_decide_eq_true_2 by eauto.
Qed.

(** ** Requests that ask for more *)

Lemma asked_no_follow req f : set_all (restore_flags ParseTXID ParseDuration) (restore_opts req) default_restore_flags = Ok f -> rf_follow f = false.
Proof.
  rewrite restore_opts_set. unfold asked_restore.
  destruct (match asked req "txid" with Some _ => _ | None => _ end); cbn [mbind result_bind]; [|done..].
  destruct (match asked req "parallelism" with Some _ => _ | None => _ end); cbn [mbind result_bind]; [|done..]. by intros [= <-].
Qed.
(** Whatever the request, also with a path that looks like a flag, the command does not follow: it has no argument then. *)
Lemma restore_tool_no_follow req f : parse_restore ParseTXID ParseDuration (tail (RestoreTool_args configPath req)) = Ok f ->
  rf_follow f = false \/ rf_args f = [].
Proof.
  unfold parse_restore. rewrite restore_tool_line. pose proof (restore_opts_values req) as Ho. pose proof (asked_no_follow req) as Hf.
  destruct (asked_bool req "if_db_not_exists") as [b|]; cbn [fmap option_fmap option_map flag_of app].
  { erewrite parse_bool_flag by first [exact Ho | reflexivity | by destruct b]. destruct (set_all _ _ _) as [g| |] eqn:Eg; cbn; [|done..]. intros [= <-]. left. exact (Hf g eq_refl). }
  destruct (asked_bool req "if_replica_exists") as [b|]; cbn [fmap option_fmap option_map flag_of app].
  { erewrite parse_bool_flag by first [exact Ho | reflexivity | by destruct b]. destruct (set_all _ _ _) as [g| |] eqn:Eg; cbn; [|done..]. intros [= <-]. left. exact (Hf g eq_refl). }
  rewrite parse_prefix by done. destruct (set_all _ _ _) as [g| |] eqn:Eg; cbn [mbind result_bind]; [|done..]. unfold path_args.
  destruct (nonempty (the_path req)); [|intros [= <-]; left; exact (Hf g eq_refl)]. destruct (is_arg (the_path req)) eqn:Ea.
  - rewrite parse_stop by done. intros [= <-]. left. exact (Hf g eq_refl).
  - destruct (FlagSet_Parse _ _ _) as [[f' rest]| |] eqn:Ep; cbn; [|done..]. intros [= <-]. right. by apply parse_no_arg in Ep.
Qed.
(** With a boolean option, what should be its value is an argument before the path. *)
Lemma restore_tool_bool req f : is_Some (asked_bool req "if_db_not_exists") \/ is_Some (asked_bool req "if_replica_exists") -> nonempty (the_path req) = true ->
  parse_restore ParseTXID ParseDuration (tail (RestoreTool_args configPath req)) = Ok f -> exists b rest, rf_args f = FormatBool b :: rest /\ rest <> [].
Proof.
  intros Hb Hp. unfold parse_restore. rewrite restore_tool_line. pose proof (restore_opts_values req) as Ho. unfold path_args. rewrite Hp.
  destruct (asked_bool req "if_db_not_exists") as [b|]; cbn [fmap option_fmap option_map flag_of app].
  { erewrite parse_bool_flag by first [exact Ho | reflexivity | by destruct b]. destruct (set_all _ _ _) as [g| |]; cbn; [|done..]. intros [= <-]. exists b. eexists. split; [done|].
    by destruct (asked_bool req "if_replica_exists"). }
  destruct (asked_bool req "if_replica_exists") as [b|]; [|by destruct Hb as [[]|[]]]. cbn [fmap option_fmap option_map flag_of app].
  erewrite parse_bool_flag by first [exact Ho | reflexivity | by destruct b]. destruct (set_all _ _ _) as [g| |]; cbn; [|done..]. intros [= <-]. by exists b, [the_path req].
Qed.

(** ** The other tools *)

(** The tools for databases, status and reset name the configuration that was asked for, or that of the server, and the path when there is one. *)
Theorem config_tools_mean req : match asked req "path" with Some p => is_arg p = true | None => True end ->
  let flags := mkConfigFlags (config_of configPath req) false in
  (Main_command (DatabasesTool_args configPath req) = PDatabases /\ parse_config (tail (DatabasesTool_args configPath req)) = Ok (flags, [])) /\
  (Main_command (StatusTool_args configPath req) = PStatus /\ parse_config (tail (StatusTool_args configPath req)) = Ok (flags, option_list (asked req "path"))) /\
  (Main_command (ResetTool_args configPath req) = PReset /\ parse_config (tail (ResetTool_args configPath req)) = Ok (flags, option_list (asked req "path"))).
Proof.
  intros Ha flags.
  assert (G : forall args, match args with [] => True | a :: _ => is_arg a = true end ->
    parse_config ([lit "-config"; config_of configPath req] ++ args) = Ok (flags, args)).
  { intros args H. unfold parse_config. apply (parse_printed config_flags [("config"%string, config_of configPath req)] args no_config_flags); done. }
  split_and!; try done; apply (G (option_list (asked req "path"))); by destruct (asked req "path").
Qed.
(** The ltx tool lists the files of level 0, whatever it is asked. *)
Theorem ltx_tool_level req f : parse_ltx (tail (LTXTool_args configPath req)) = Ok f -> lf_args f <> [] ->
  lf_level f = 0 /\ lf_args f = [the_path req] /\ lf_config f = (if isReplicaURL (the_path req) then [] else config_of configPath req).
Proof.
  unfold parse_ltx, LTXTool_args. cbn [tail app]. rewrite config_args_opts.
  assert (Ho : forallb (fun o => value_flag ltx_flags o.1) (config_opts req) = true) by (unfold config_opts; by destruct (isReplicaURL (the_path req)), (nonempty (config_of configPath req))).
  rewrite parse_prefix by done.
  assert (Hs : set_all ltx_flags (config_opts req) (mkLtxFlags [] false 0 []) = Ok (mkLtxFlags (if isReplicaURL (the_path req) then [] else config_of configPath req) false 0 [])).
  { unfold config_opts. destruct (isReplicaURL (the_path req)); [done|]. destruct (nonempty (config_of configPath req)) eqn:E; [done|]. by destruct (config_of configPath req). }
  rewrite Hs. cbn [mbind result_bind]. unfold path_args. destruct (nonempty (the_path req)); [|by intros [= <-]]. destruct (is_arg (the_path req)) eqn:Ea.
  - rewrite parse_stop by done. by intros [= <-].
  - destruct (FlagSet_Parse _ _ _) as [[f' rest]| |] eqn:Ep; cbn; [|done..]. intros [= <-]. apply parse_no_arg in Ep; [|done]. by subst rest.
Qed.
End Meaning.

(** ** Tools and files *)

Section Files.
Context {replica : Type}.
Variable read_config : str -> bool -> result Config.
Variable DefaultConfigPath : str.
Variable DefaultSyncInterval : duration.
Variables cwd home : result str.
Variable NewReplica : ReplicaConfig -> result replica.
Abbreviation files := (gmap str (list byte)).
Variable stat_fault : str -> option error.
Variable parse_time : str -> option time.
Variable target : replica -> time -> result time.
Variable restore : replica -> RestoreOptions -> files -> files * result ().
Variable ParseTXID : str -> option TXID.
Variable ParseDuration : str -> option duration.
(** What a command logs, and the commands that are not of interest here. *)
Variable logged : result () -> str.
Variable other : list str -> files -> files * (str * option str).
Abbreviation restore_run := (RestoreCommand_Run read_config DefaultConfigPath DefaultSyncInterval cwd home NewReplica stat_fault parse_time target restore).
Abbreviation arguments := (restore_args read_config DefaultConfigPath DefaultSyncInterval cwd home NewReplica stat_fault parse_time target).

(** The restore command from its arguments. *)
Definition restore_line (args : list str) (d : files) : files * result () :=
  match parse_restore ParseTXID ParseDuration args with Ok f => restore_run f d | Err err => (d, Err err) | Panic m => (d, Panic m) end.
Definition exit_status (r : result ()) : option str := match r with Ok _ => None | Err _ => Some (lit "exit status 1") | Panic _ => Some (lit "exit status 2") end.
Definition replicate (args : list str) (d : files) : files * (str * option str) :=
  match Main_command args with
  | PRestore => let '(d, r) := restore_line (tail args) d in (d, (logged r, exit_status r))
  | _ => other args d
  end.
Definition report (r : result ()) : tool_result :=
  match exit_status r with Some e => ToolError (trim_space (logged r) ++ lit ": " ++ e) | None => ToolText (logged r) end.
Lemma restore_tool_report configPath req d :
  RestoreTool configPath replicate req d = let '(d', r) := restore_line (tail (RestoreTool_args configPath req)) d in (d', report r).
Proof. unfold RestoreTool, run_tool, replicate, report. change (Main_command (RestoreTool_args configPath req)) with PRestore. cbn iota. by destruct (restore_line _ _). Qed.

Variable database_of : replica -> RestoreOptions -> list byte -> Prop.
Context `{HRO : !RestoreOptionLaws restore database_of}.

(** A command without arguments does nothing. *)
Lemma restore_no_args f d : rf_args f = [] -> restore_run f d = (d, Err (EMsg "database path or replica URL required")).
Proof. intros Ha. unfold RestoreCommand_Run, restore_args. by rewrite Ha. Qed.
Lemma restore_run_keeps f d d' x q b : rf_follow f = false -> restore_run f d = (d', x) -> (forall out, q <> tmp_path out) -> d !! q = Some b -> d' !! q = Some b.
Proof.
  intros Hf Hr Hq Hb. destruct (arguments f d) as [[[[r out] ts] mode]|err|m] eqn:Ea.
  - by apply (proj1 (restore_command_safe _ _ _ _ _ _ _ _ _ _ database_of (HRO := HRO) f _ _ _ _ _ _ _ Hf Ea Hr)).
  - unfold RestoreCommand_Run in Hr. rewrite Ea in Hr. by injection Hr as <- _.
  - unfold RestoreCommand_Run in Hr. rewrite Ea in Hr. by injection Hr as <- _.
Qed.

(** A call of the restore tool never changes a file that exists, except a temporary one, whatever the request asks for: values that look like
    flags stay values, and a path that looks like a flag leaves the command without an argument.  For a request without boolean options the
    tool does what the restore command does with the flags that were asked for, and answers with text exactly when that succeeds. *)
Theorem restore_tool_safe configPath req d d' res : RestoreTool configPath replicate req d = (d', res) ->
  (forall q b, (forall out, q <> tmp_path out) -> d !! q = Some b -> d' !! q = Some b) /\
  (asked_bool req "if_db_not_exists" = None -> asked_bool req "if_replica_exists" = None -> nonempty (the_path req) = true -> is_arg (the_path req) = true ->
   exists r, (d', r) = match asked_restore ParseTXID configPath req with Ok f => restore_run f d | Err err => (d, Err err) | Panic m => (d, Panic m) end /\
   res = report r /\ ((exists text, res = ToolText text) <-> r = Ok ())).
Proof.
  rewrite restore_tool_report. destruct (restore_line _ d) as [d1 r] eqn:El. intros [= <- <-]. unfold restore_line in El. split.
  - intros q b Hq Hb. destruct (parse_restore _ _ _) as [f|err|m] eqn:Ep; [|by injection El as <- _..].
    destruct (restore_tool_no_follow _ _ _ _ _ Ep) as [Hf|Ha]; [by eapply restore_run_keeps|]. rewrite restore_no_args in El by done. by injection El as <- _.
  - intros Hd Hr Hp Ha. destruct (restore_tool_means ParseTXID ParseDuration configPath req Hd Hr Hp Ha) as (_ & E & _). rewrite E in El.
    exists r. split_and!; [done|done|]. unfold report. destruct r as [[]|err|m]; cbn; split; try done; [by eexists|by intros [? ?]..].
Qed.

(** *** Findings *)

(** A request that uses one of the boolean options fails, whether it asks for true or for false. *)
Theorem restore_booleans_refused configPath req d : is_Some (asked_bool req "if_db_not_exists") \/ is_Some (asked_bool req "if_replica_exists") ->
  nonempty (the_path req) = true -> exists text, (RestoreTool configPath replicate req d).2 = ToolError text.
Proof.
  intros Hb Hp. rewrite restore_tool_report. unfold restore_line. destruct (parse_restore _ _ _) as [f|err|m] eqn:Ep; [|by eexists..].
  destruct (restore_tool_bool _ _ _ _ _ Hb Hp Ep) as (b & rest & Ha & Hne). unfold RestoreCommand_Run, restore_args. rewrite Ha. destruct rest; [done|]. destruct b; by eexists.
Qed.
End Files.

(** ** The report of all databases *)

(** The paths that the report takes from the table of the databases are those of the databases, when none has white space in it. *)
Theorem info_tool_paths (rows : list (str * str)) header :
  let table := header :: ((fun r => [r.1; r.2]) <$> rows) in
  Forall (fun row => Forall (fun c => nl ∉ c) row /\ (length (tabulate_row table row) < MaxScanTokenSize)%nat /\ drop_cr (tabulate_row table row) = tabulate_row table row) table ->
  Forall (fun r => wordb r.1 = true) rows -> table_paths (tabulate table) = rows.*1.
Proof.
  intros table Ht Hw. unfold table_paths. rewrite scan_tabulate by done. unfold table at 2. cbn [fmap list_fmap tail].
  assert (Hin : Forall (fun r => [r.1; r.2] ∈ table) rows).
  { apply Forall_forall. intros r Hr. right. apply (list_elem_of_fmap_2 (fun r : str * str => [r.1; r.2]) rows r Hr). }
  clear Ht. generalize dependent table. intros table Hin. induction rows as [|[p t] rows IH]; [done|].
  apply Forall_cons in Hw as [Hp Hw], Hin as [Hi Hin]. cbn [fmap list_fmap omap list_omap fst snd] in *. rewrite (first_field table p t []) by done. f_equal. by apply IH.
Qed.

(** ** Executions *)

Module McpDemo.
(** A request with the given strings and booleans. *)
Definition req (strings : list (string * string)) (bools : list (string * bool)) : request :=
  mkRequest (fun name => match List.find (fun x => String.eqb x.1 name) strings with Some x => (lit x.2, None) | None => ([], Some (EMsg "required argument not found")) end)
            (fun name => match List.find (fun x => String.eqb x.1 name) bools with Some x => (x.2, None) | None => (false, Some (EMsg "required argument not found")) end).
Definition no_parse (s : str) : option Z := None.
Definition quiet (r : result ()) : str := match r with Ok _ => [] | Err (EMsg m) => lit m | _ => lit "failed" end.
Definition nothing (args : list str) (d : gmap str (list byte)) : gmap str (list byte) * (str * option str) := (d, ([], None)).
Definition tool (r : request) (d : gmap str (list byte)) : gmap str (list byte) * tool_result :=
  RestoreTool (lit "/etc/replicate.yml")
    (replicate (CommandsDemo.reads []) CommandsDemo.default_path 1 CommandsDemo.cwd CommandsDemo.cwd CommandsDemo.new_replica CommandsDemo.no_fault (fun _ => Some 50)
       CommandsDemo.any_target CommandsDemo.restore no_parse no_parse quiet nothing) r d.
Definition plain_req : request := req [("path", "file:///r"); ("o", "-o"); ("parallelism", "0x10")]%string [].
End McpDemo.

(** The theorem at a request whose output path looks like a flag. *)
Lemma restore_tool_safe_witness : (McpDemo.tool McpDemo.plain_req CommandsDemo.disk0).1 !! lit "/data/kept" = Some [x62] /\
  (McpDemo.tool McpDemo.plain_req CommandsDemo.disk0).1 !! lit "-o" = Some [x61].
Proof.
  destruct (McpDemo.tool McpDemo.plain_req CommandsDemo.disk0) as [d' res] eqn:E. unfold McpDemo.tool in E.
  apply (restore_tool_safe _ _ _ _ _ _ _ _ _ _ _ _ _ _ CommandsDemo.database_of (HRO := CommandsDemo.command_restore_laws)) in E as [H1 H2]. split.
  - apply H1; [|vm_compute; reflexivity]. intros out Ho. apply (f_equal (fun l => drop (length l - 4) l)) in Ho. unfold tmp_path in Ho. rewrite length_app, drop_app_ge in Ho by (cbn; lia).
    revert Ho. replace (length out + length (lit ".tmp") - 4 - length out)%nat with 0%nat by (cbn; lia). vm_compute. discriminate.
  - destruct (H2 eq_refl eq_refl eq_refl eq_refl) as (r & Hr & _ & _). revert Hr.
    destruct (asked_restore McpDemo.no_parse (lit "/etc/replicate.yml") McpDemo.plain_req) as [f| |] eqn:Ef; [|vm_compute in Ef; discriminate..].
    vm_compute in Ef. injection Ef as <-. intros [= -> _]. vm_compute. reflexivity.
Defined.

(** The boolean options of the restore tool are refused by the command as an argument too many, for either value. *)
Example boolean_option_refused b :
  (McpDemo.tool (McpDemo.req [("path", "file:///r"); ("o", "/data/new")]%string [("if_db_not_exists", b)]%string) ∅).2 = ToolError (lit "too many arguments: exit status 1").
Proof. by destruct b; vm_compute. Qed.
(** The ltx tool promises all files of a database; the command that it runs lists level 0. *)
Example ltx_tool_lists_level_0 :
  (lf_level <$> (match parse_ltx (tail (LTXTool_args (lit "/etc/replicate.yml") (McpDemo.req [("path", "/data/db")]%string []))) with Ok f => Some f | _ => None end)) = Some 0.
Proof. by vm_compute. Qed.
(** A database whose path has a space is reported under the first part of its path. *)
Example path_with_space : table_paths (tabulate [[lit "path"; lit "replica"]; [lit "/data/my db"; lit "file"]]) = [lit "/data/my"].
Proof. by vm_compute. Qed.
(** A local path with a scheme separator in it is taken for a URL here and not by the command: the configuration of the server is not used. *)
Example local_path_loses_config :
  isReplicaURL (lit "/data/a://b") = true /\ IsURL (lit "/data/a://b") = false /\
  LTXTool_args (lit "/my.yml") (McpDemo.req [("path", "/data/a://b")]%string []) = [lit "ltx"; lit "/data/a://b"].
Proof. by vm_compute. Qed.
