(* ===== verification/Validate.v ===== *)
(** * Validating a replica

    Model of src/cmd/replicate-test/validate.go: the tool restores a database by running the restore command (Flags.v, Commands.v), and compares it with its
    source by pragmas, checksums and row counts.  SQLite, the files and the hash are parameters. *)

From Stdlib Require Import ZArith Lia Ascii String Strings.Byte.
From stdpp Require Import base numbers list strings gmap.
From S2P Require Import Prelude Ltx Restore Urls S3Config ReplicaConfig Config Directory Command Commands Text Flags Mcp.
Local Open Scope Z_scope.

Record ValidateCommand := mkValidate { SourceDB : str; ReplicaURL : str; RestoredDB : str; CheckType : str; LTXContinuity : bool; ConfigPath : str }.
Record ValidationResult := mkResult { vr_CheckType : string; vr_Passed : bool; vr_ErrorMessage : string }.
Definition passed (check : string) : ValidationResult := mkResult check true "".
Definition failed (check msg : string) : ValidationResult := mkResult check false msg.

Section Validate.
Abbreviation files := (gmap str (list byte)).
(** The program replicate: its output, and its error. *)
Variable exec : list str -> files -> files * (str * option str).
(** Failures of [os.Remove], [os.Stat], and of reading a file. *)
Variables remove_fault stat_fault read_fault : str -> option error.
Variable md5 : list byte -> list byte.
(** SQLite: opening, a pragma with one row, a query with rows that can fail to be scanned, and the number of rows of a table. *)
Variable sql_open : str -> option error.
Variable quick_check : files -> str -> result str.
Variables integrity_check table_names : files -> str -> result (list (result str)).
Variable row_count : files -> str -> str -> result Z.

(** ** The restore *)

Definition os_Remove (d : files) (p : str) : files :=
  match remove_fault p with Some _ => d | None => base.delete p d end.
Definition restore_arguments (c : ValidateCommand) : list str :=
  if nonempty (ConfigPath c) then [lit "restore"; lit "-config"; ConfigPath c; lit "-o"; RestoredDB c; SourceDB c]
  else [lit "restore"; lit "-o"; RestoredDB c; ReplicaURL c].
Definition performRestore (c : ValidateCommand) (d : files) : files * ValidationResult :=
  let '(d, (_, err)) := exec (restore_arguments c) (os_Remove d (RestoredDB c)) in
  (d, match err with
      | Some _ => failed "restore" "restore failed"
      | None => match os_Stat stat_fault d (RestoredDB c) with Some _ => failed "restore" "restored database not found" | None => passed "restore" end
      end).

(** ** The checks *)

Definition performQuickCheck (c : ValidateCommand) (d : files) : ValidationResult :=
  match sql_open (RestoredDB c) with
  | Some _ => failed "quick_check" "failed to open database"
  | None => match quick_check d (RestoredDB c) with
            | Ok r => if bool_decide (r = lit "ok") then passed "quick_check" else failed "quick_check" "quick check returned"
            | _ => failed "quick_check" "quick check failed"
            end
  end.
(** Rows until one cannot be scanned. *)
Fixpoint scan_rows (rows : list (result str)) : result (list str) :=
  match rows with [] => Ok [] | r :: rows => x ← r; l ← scan_rows rows; Ok (x :: l) end.
Definition performIntegrityCheck (c : ValidateCommand) (d : files) : ValidationResult :=
  match sql_open (RestoredDB c) with
  | Some _ => failed "integrity_check" "failed to open database"
  | None => match integrity_check d (RestoredDB c) with
            | Ok rows => match scan_rows rows with
                         | Ok results => if bool_decide (results = [lit "ok"]) then passed "integrity_check" else failed "integrity_check" "integrity check found issues"
                         | _ => failed "integrity_check" "failed to scan result"
                         end
            | _ => failed "integrity_check" "integrity check failed"
            end
  end.

Definition calculateDBChecksum (d : files) (p : str) : result (list byte) :=
  match read_fault p with
  | Some err => Err err
  | None => match d !! p with Some b => Ok (md5 b) | None => Err ErrNotExist end
  end.
Definition performChecksumCheck (c : ValidateCommand) (d : files) : ValidationResult :=
  match calculateDBChecksum d (SourceDB c) with
  | Ok source =>
      match calculateDBChecksum d (RestoredDB c) with
      | Ok restored => if bool_decide (source = restored) then passed "checksum" else failed "checksum" "checksums do not match"
      | _ => failed "checksum" "failed to calculate restored checksum"
      end
  | _ => failed "checksum" "failed to calculate source checksum"
  end.

Definition getTableList (d : files) (p : str) : result (list str) := rows ← table_names d p; scan_rows rows.
(** Counts until one fails; the others decide whether all match. *)
Fixpoint compare_counts (c : ValidateCommand) (d : files) (tables : list str) (allMatch : bool) : ValidationResult :=
  match tables with
  | [] => if allMatch then passed "data_validation" else failed "data_validation" "row count mismatch between source and restored databases"
  | t :: tables =>
      match row_count d (SourceDB c) t with
      | Ok n => match row_count d (RestoredDB c) t with
                | Ok m => compare_counts c d tables (allMatch && (n =? m))
                | _ => failed "data_validation" "failed to count rows in restored table"
                end
      | _ => failed "data_validation" "failed to count rows in source table"
      end
  end.
Definition performDataValidation (c : ValidateCommand) (d : files) : ValidationResult :=
  match sql_open (SourceDB c) with
  | Some _ => failed "data_validation" "failed to open source database"
  | None => match sql_open (RestoredDB c) with
            | Some _ => failed "data_validation" "failed to open restored database"
            | None => match getTableList d (SourceDB c) with Ok tables => compare_counts c d tables true | _ => failed "data_validation" "failed to get table list" end
            end
  end.

(** The number of lines decides. *)
Definition validateLTXContinuity (c : ValidateCommand) (d : files) : files * ValidationResult :=
  let '(d, (output, err)) := exec [lit "ltx"; ReplicaURL c] d in
  (d, match err with
      | Some _ => failed "ltx_continuity" "failed to list LTX files"
      | None => if (length (split nl output) <? 2)%nat then failed "ltx_continuity" "no LTX files found" else passed "ltx_continuity"
      end).

(** ** The command *)

Definition checks (c : ValidateCommand) (d : files) : list ValidationResult :=
  let type s := bool_decide (CheckType c = lit s) in
  if type "quick" then [performQuickCheck c d] else if type "integrity" then [performIntegrityCheck c d] else if type "checksum" then [performChecksumCheck c d]
  else if type "full" then [performQuickCheck c d; performIntegrityCheck c d; performChecksumCheck c d; performDataValidation c d] else [].
Definition reportResults (results : list ValidationResult) : result () := if forallb vr_Passed results then Ok () else Err (EMsg "validation failed").
Definition with_restored (c : ValidateCommand) : ValidateCommand :=
  mkValidate (SourceDB c) (ReplicaURL c) (if nonempty (RestoredDB c) then RestoredDB c else SourceDB c ++ lit ".restored") (CheckType c) (LTXContinuity c) (ConfigPath c).
Definition ValidateCommand_Run (c : ValidateCommand) (d : files) : files * result () :=
  if negb (nonempty (SourceDB c)) then (d, Err (EMsg "source database path required")) else
  if negb (nonempty (ReplicaURL c)) && negb (nonempty (ConfigPath c)) then (d, Err (EMsg "replica URL or config file required")) else
  let c := with_restored c in
  let '(d, results) := if LTXContinuity c && nonempty (ReplicaURL c) then let '(d, r) := validateLTXContinuity c d in (d, [r]) else (d, []) in
  let '(d, restored) := performRestore c d in
  let results := (results ++ [restored])%list in
  (d, reportResults (results ++ (if vr_Passed restored then checks c d else []))).

(** ** What a check that passes has seen *)

Lemma quick_passed c d : vr_Passed (performQuickCheck c d) = true -> quick_check d (RestoredDB c) = Ok (lit "ok").
Proof. unfold performQuickCheck. destruct (sql_open _); [done|]. destruct (quick_check _ _); try done. case_bool_decide; [by subst|done]. Qed.
Lemma integrity_passed c d : vr_Passed (performIntegrityCheck c d) = true -> exists rows, integrity_check d (RestoredDB c) = Ok rows /\ scan_rows rows = Ok [lit "ok"].
Proof.
  unfold performIntegrityCheck. destruct (sql_open _); [done|]. destruct (integrity_check _ _) as [rows| |]; try done. destruct (scan_rows rows) eqn:E; try done.
  case_bool_decide; [|done]. subst. eauto.
Qed.
Lemma checksum_passed c d : vr_Passed (performChecksumCheck c d) = true ->
  exists b b', d !! SourceDB c = Some b /\ d !! RestoredDB c = Some b' /\ md5 b = md5 b'.
Proof.
  unfold performChecksumCheck, calculateDBChecksum. destruct (read_fault (SourceDB c)); [done|]. destruct (d !! SourceDB c) as [b|]; [|done].
  destruct (read_fault (RestoredDB c)); [done|]. destruct (d !! RestoredDB c) as [b'|]; [|done]. case_bool_decide; [|done]. eauto.
Qed.
Lemma counts_passed c d tables all : vr_Passed (compare_counts c d tables all) = true ->
  all = true /\ Forall (fun t => exists n, row_count d (SourceDB c) t = Ok n /\ row_count d (RestoredDB c) t = Ok n) tables.
Proof.
  revert all. induction tables as [|t tables IH]; intros all; cbn [compare_counts]; [by destruct all|].
  destruct (row_count d (SourceDB c) t) as [n| |] eqn:E1; try done. destruct (row_count d (RestoredDB c) t) as [m| |] eqn:E2; try done.
  intros [Ha Hf]%IH. apply andb_prop in Ha as [-> ->%Z.eqb_eq]. split; [done|]. constructor; eauto.
Qed.
Lemma data_passed c d : vr_Passed (performDataValidation c d) = true ->
  exists tables, getTableList d (SourceDB c) = Ok tables /\ Forall (fun t => exists n, row_count d (SourceDB c) t = Ok n /\ row_count d (RestoredDB c) t = Ok n) tables.
Proof.
  unfold performDataValidation. destruct (sql_open _); [done|]. destruct (sql_open _); [done|]. destruct (getTableList _ _) as [tables| |]; try done.
  intros [_ H]%counts_passed. eauto.
Qed.
(** What the checks of a type promise. *)
Definition checked (c : ValidateCommand) (d : files) : Prop :=
  (CheckType c = lit "quick" \/ CheckType c = lit "full" -> quick_check d (RestoredDB c) = Ok (lit "ok")) /\
  (CheckType c = lit "integrity" \/ CheckType c = lit "full" -> exists rows, integrity_check d (RestoredDB c) = Ok rows /\ scan_rows rows = Ok [lit "ok"]) /\
  (CheckType c = lit "checksum" \/ CheckType c = lit "full" -> exists b b', d !! SourceDB c = Some b /\ d !! RestoredDB c = Some b' /\ md5 b = md5 b') /\
  (CheckType c = lit "full" -> exists tables, getTableList d (SourceDB c) = Ok tables /\
     Forall (fun t => exists n, row_count d (SourceDB c) t = Ok n /\ row_count d (RestoredDB c) t = Ok n) tables).
Lemma checks_passed c d : forallb vr_Passed (checks c d) = true -> checked c d.
Proof.
  unfold checks, checked. intros H.
  split_and!; intros Ht; repeat match type of Ht with _ \/ _ => destruct Ht as [Ht|Ht] end; rewrite Ht in H;
    repeat first [rewrite bool_decide_eq_true_2 in H by done | rewrite bool_decide_eq_false_2 in H by done]; cbn [forallb] in H; rewrite ?andb_true_iff in H; destruct_and?;
    eauto using quick_passed, integrity_passed, checksum_passed, data_passed.
Qed.
End Validate.

(** ** Validation through the restore command *)

Section Sound.
Context {replica : Type}.
Variable read_config : str -> bool -> result Config.
Variable DefaultConfigPath : str.
Variable DefaultSyncInterval : duration.
Variables cwd home : result str.
Variable NewReplica : ReplicaConfig -> result replica.
Abbreviation files := (gmap str (list byte)).
Variables remove_fault stat_fault read_fault : str -> option error.
Variable parse_time : str -> option time.
Variable target : replica -> time -> result time.
Variable restore : replica -> RestoreOptions -> files -> files * result ().
Variable ParseTXID : str -> option TXID.
Variable ParseDuration : str -> option duration.
Variable logged : result () -> str.
Variable other : list str -> files -> files * (str * option str).
Variable md5 : list byte -> list byte.
Variable sql_open : str -> option error.
Variable quick_check : files -> str -> result str.
Variables integrity_check table_names : files -> str -> result (list (result str)).
Variable row_count : files -> str -> str -> result Z.
Abbreviation exec := (replicate read_config DefaultConfigPath DefaultSyncInterval cwd home NewReplica stat_fault parse_time target restore ParseTXID ParseDuration logged other).
Abbreviation restore_run := (RestoreCommand_Run read_config DefaultConfigPath DefaultSyncInterval cwd home NewReplica stat_fault parse_time target restore).
Abbreviation arguments := (restore_args read_config DefaultConfigPath DefaultSyncInterval cwd home NewReplica stat_fault parse_time target).
Abbreviation run_validate := (ValidateCommand_Run exec remove_fault stat_fault read_fault md5 sql_open quick_check integrity_check table_names row_count).
Variable database_of : replica -> RestoreOptions -> list byte -> Prop.
Context `{HRO : !RestoreOptionLaws restore database_of}.

Definition validate_flags (c : ValidateCommand) : RestoreFlags :=
  mkRestoreFlags (ConfigPath c) false (RestoredDB c) 0 DefaultRestoreParallelism false false [] false DefaultFollowInterval (lit "none")
    [if nonempty (ConfigPath c) then SourceDB c else ReplicaURL c].
Lemma validate_line c f : parse_restore ParseTXID ParseDuration (tail (restore_arguments c)) = Ok f -> rf_args f = [] \/ f = validate_flags c.
Proof.
  assert (G : forall opts p f g, forallb (fun o => value_flag (restore_flags ParseTXID ParseDuration) o.1) opts = true ->
    set_all (restore_flags ParseTXID ParseDuration) opts default_restore_flags = Ok g ->
    parse_restore ParseTXID ParseDuration (flag_args opts ++ [p]) = Ok f -> rf_args f = [] \/ f = with_args g [p]).
  { intros opts p f' g Ho Hg. unfold parse_restore. rewrite parse_prefix, Hg by done. cbn [mbind result_bind]. destruct (is_arg p) eqn:Ea.
    - rewrite parse_stop by done. intros [= <-]. by right.
    - destruct (FlagSet_Parse _ _ _) as [[f1 rest]| |] eqn:Ep; cbn; [|done..]. intros [= <-]. left. by apply parse_no_arg in Ep. }
  unfold restore_arguments, validate_flags. destruct (nonempty (ConfigPath c)) eqn:Ec.
  - intros H. by destruct (G [("config", ConfigPath c); ("o", RestoredDB c)]%string _ f _ eq_refl eq_refl H) as [?| ->]; [left|right].
  - destruct (ConfigPath c) as [|x l]; [|done]. intros H. by destruct (G [("o", RestoredDB c)]%string _ f _ eq_refl eq_refl H) as [?| ->]; [left|right].
Qed.
(** The output path is the one asked for, and without a time there is none. *)
Lemma arguments_out f d r out ts mode : arguments f d = Ok (r, out, ts, mode) -> nonempty (rf_o f) = true -> rf_timestamp f = [] -> out = rf_o f /\ ts = 0.
Proof.
  unfold restore_args. intros H Ho Ht. rewrite Ht in H. change (nonempty []) with false in H.
  destruct (match rf_args f with [] => _ | _ => _ end) as [arg| |]; cbn [mbind result_bind] in H; [|done..].
  destruct (integrity_mode _) as [m| |]; cbn [mbind result_bind] in H; [|done..]. destruct (IsURL arg).
  - destruct (nonempty (rf_config f)); [done|]. unfold loadFromURL in H. rewrite Ho in H. cbn [negb] in H. destruct (_ && _); [done|].
    destruct (NewReplica _); cbn [mbind result_bind] in H; [|done..]. destruct (target _ _); cbn [mbind result_bind] in H; [|done..]. by injection H as _ <- <- _.
  - unfold loadFromConfig in H. rewrite Ho in H. destruct (read_config _ _); cbn [mbind result_bind] in H; [|done..].
    destruct (expand _ _ _); cbn [mbind result_bind] in H; [|done..]. destruct (Config_DBConfig _ _); [|done]. destruct (NewDBFromConfig _ _ _ _); cbn [mbind result_bind] in H; [|done..].
    destruct (_ && _); [done|]. destruct (db_Replica _); [|done]. by injection H as _ <- <- _.
Qed.
(** A restore that passes has put a database of a replica in place of what was there, and kept the other files. *)
Lemma restore_passed c d d' v : nonempty (RestoredDB c) = true -> remove_fault (RestoredDB c) = None ->
  performRestore exec remove_fault stat_fault c d = (d', v) -> vr_Passed v = true ->
  (exists r opt b, d' !! RestoredDB c = Some b /\ database_of r opt b /\ OutputPath opt = string_of_list_ascii (RestoredDB c) /\ ro_TXID opt = 0 /\ ro_Timestamp opt = 0) /\
  (forall q b, q <> RestoredDB c -> q <> tmp_path (RestoredDB c) -> d !! q = Some b -> d' !! q = Some b).
Proof.
  intros Hn Hrm. unfold performRestore, os_Remove. rewrite Hrm. set (d0 := base.delete (RestoredDB c) d). unfold replicate.
  assert (Hm : Main_command (restore_arguments c) = PRestore) by (unfold restore_arguments; destruct (nonempty (ConfigPath c)); reflexivity). rewrite Hm.
  destruct (restore_line _ _ _ _ _ _ _ _ _ _ _ _ _ d0) as [d1 x] eqn:El. intros [= <- <-].
  destruct x as [[]| |]; cbn [exit_status]; [|done..]. destruct (os_Stat stat_fault d1 (RestoredDB c)) eqn:Es; [done|]. intros _.
  unfold restore_line in El. destruct (parse_restore _ _ _) as [f| |] eqn:Ep; [|done..].
  destruct (validate_line c f Ep) as [Ha| ->]; [by rewrite restore_no_args in El|].
  destruct (arguments (validate_flags c) d0) as [[[[r out] ts] mode]|err|m] eqn:Ea.
  - destruct (arguments_out _ _ _ _ _ _ Ea Hn eq_refl) as [-> ->].
    destruct (restore_command_safe _ _ _ _ _ _ _ _ _ _ database_of (HRO := HRO) (validate_flags c) _ _ _ _ _ _ _ eq_refl Ea El) as [K1 K2].
    destruct (K2 eq_refl) as [(b & Hb & Hd)|(Hi & _)]; [|done]. split.
    + exists r. eexists _, b. split_and!; [exact Hb|exact Hd|done..].
    + intros q b' Hq Ht Hb'. apply K1; [done|]. unfold d0. by rewrite lookup_delete_ne.
  - exfalso. unfold RestoreCommand_Run in El. rewrite Ea in El. injection El as <- _. unfold os_Stat in Es. destruct (stat_fault _); [done|].
    unfold d0 in Es. by rewrite lookup_delete_eq in Es.
  - unfold RestoreCommand_Run in El. by rewrite Ea in El.
Qed.

(** A validation that succeeds has restored a database of the replica, as of its last transaction, in place of whatever was at the path of the
    restored database, has kept every other file but the temporary one, and every check of its type has seen what it looks for: pragmas that answer
    ok, equal checksums of both files, and equal row counts for every table of the source. *)
Theorem validate_sound c d d' : (forall args d, (other args d).1 = d) -> remove_fault (RestoredDB (with_restored c)) = None -> run_validate c d = (d', Ok ()) ->
  let c := with_restored c in
  (exists r opt b, d' !! RestoredDB c = Some b /\ database_of r opt b /\ OutputPath opt = string_of_list_ascii (RestoredDB c) /\ ro_TXID opt = 0 /\ ro_Timestamp opt = 0) /\
  (forall q b, q <> RestoredDB c -> q <> tmp_path (RestoredDB c) -> d !! q = Some b -> d' !! q = Some b) /\
  checked md5 quick_check integrity_check table_names row_count c d'.
Proof.
  intros Hother Hrm. unfold ValidateCommand_Run. destruct (negb (nonempty (SourceDB c))) eqn:Es; [done|]. destruct (_ && _); [done|].
  assert (Hn : nonempty (RestoredDB (with_restored c)) = true) by (unfold with_restored; cbn; destruct (nonempty (RestoredDB c)) eqn:E; [done|by destruct (SourceDB c)]).
  set (c' := with_restored c) in *.
  destruct (if LTXContinuity c' && nonempty (ReplicaURL c') then _ else _) as [d1 results] eqn:E1.
  assert (d1 = d) as ->.
  { destruct (_ && _); [|by injection E1 as <- _]. unfold validateLTXContinuity, replicate in E1. change (Main_command [lit "ltx"; ReplicaURL c']) with PLTX in E1. cbn iota in E1.
    pose proof (Hother [lit "ltx"; ReplicaURL c'] d) as Ho. destruct (other _ d) as [d2 [o err]]. cbn in Ho. subst d2. by injection E1 as <- _. }
  destruct (performRestore _ _ _ c' d) as [d2 v] eqn:Er. intros [= <- Hr]. unfold reportResults in Hr. rewrite !forallb_app in Hr.
  destruct (forallb vr_Passed results); cbn [andb] in Hr; [|done]. cbn [forallb andb] in Hr. destruct (vr_Passed v) eqn:Ev; cbn [andb] in Hr; [|done].
  destruct (forallb vr_Passed (checks _ _ _ _ _ _ _ c' d2)) eqn:Ec; [|done].
  destruct (restore_passed _ _ _ _ Hn Hrm Er Ev) as [H1 H2]. split_and!; [done..|]. by eapply checks_passed.
Qed.
End Sound.

(** ** Executions *)

Module ValidateDemo.
Definition no_fault (p : str) : option error := None.
Definition no_parse (s : str) : option Z := None.
(** The ltx command on a replica without files. *)
Definition header : list str := [lit "level"; lit "min_txid"; lit "max_txid"; lit "size"; lit "created"].
Definition ltx_none (args : list str) (d : gmap str (list byte)) : gmap str (list byte) * (str * option str) := (d, (tabulate [header], None)).
Definition exec : list str -> gmap str (list byte) -> gmap str (list byte) * (str * option str) :=
  replicate (CommandsDemo.reads []) CommandsDemo.default_path 1 CommandsDemo.cwd CommandsDemo.cwd CommandsDemo.new_replica no_fault (fun _ => Some 50)
    CommandsDemo.any_target CommandsDemo.restore no_parse no_parse (fun _ => []) ltx_none.
Definition one_ok (d : gmap str (list byte)) (p : str) : result (list (result str)) := Ok [Ok (lit "ok")].
Definition one_table (d : gmap str (list byte)) (p : str) : result (list (result str)) := Ok [Ok (lit "t")].
Definition rows (d : gmap str (list byte)) (p t : str) : result Z := match d !! p with Some b => Ok (Z.of_nat (length b)) | None => Err ErrNotExist end.
Definition run (c : ValidateCommand) (d : gmap str (list byte)) : gmap str (list byte) * result () :=
  ValidateCommand_Run exec no_fault no_fault no_fault id no_fault (fun _ _ => Ok (lit "ok")) one_ok one_table rows c d.
Definition validation (restored check : string) : ValidateCommand := mkValidate (lit "/data/db") (lit "file:///r") (lit restored) (lit check) true [].
Definition disk (b : list byte) : gmap str (list byte) := {[lit "/data/db" := b]}.
End ValidateDemo.

(** The theorem at a full validation of a database that the replica has. *)
Lemma validate_sound_witness : (ValidateDemo.run (ValidateDemo.validation "" "full") (ValidateDemo.disk [x61])).1 !! lit "/data/db" = Some [x61] /\
  exists b b', (ValidateDemo.run (ValidateDemo.validation "" "full") (ValidateDemo.disk [x61])).1 !! lit "/data/db" = Some b /\
    (ValidateDemo.run (ValidateDemo.validation "" "full") (ValidateDemo.disk [x61])).1 !! lit "/data/db.restored" = Some b' /\ b = b'.
Proof.
  destruct (ValidateDemo.run (ValidateDemo.validation "" "full") (ValidateDemo.disk [x61])) as [d' x] eqn:E.
  assert (Hx : (ValidateDemo.run (ValidateDemo.validation "" "full") (ValidateDemo.disk [x61])).2 = Ok ()) by (vm_compute; reflexivity).
  rewrite E in Hx. cbn in Hx. subst x. assert (Ho : forall args d, (ValidateDemo.ltx_none args d).1 = d) by (intros; reflexivity).
  destruct (validate_sound _ _ _ _ _ _ _ _ _ _ _ _ _ _ _ _ _ _ _ _ _ _ CommandsDemo.database_of (HRO := CommandsDemo.command_restore_laws)
    (ValidateDemo.validation "" "full") (ValidateDemo.disk [x61]) d' Ho eq_refl E) as (_ & H2 & _ & _ & H3 & _).
  split; [|exact (H3 (or_intror eq_refl))]. apply H2; [vm_compute; discriminate|vm_compute; discriminate|vm_compute; reflexivity].
Defined.

(** *** Findings *)

(** The check of continuity passes whenever the listing succeeds: it counts lines, the header and what follows the last line included, and looks at no transaction. *)
Theorem continuity_always_passes exec c d d' v : validateLTXContinuity exec c d = (d', v) ->
  (exec [lit "ltx"; ReplicaURL c] d).2.2 = None -> nl ∈ (exec [lit "ltx"; ReplicaURL c] d).2.1 -> v = passed "ltx_continuity".
Proof.
  unfold validateLTXContinuity. destruct (exec _ d) as [d1 [output err]]. cbn [fst snd]. intros [= _ <-] -> Hn.
  apply list_elem_of_split in Hn as (l1 & l2 & ->).
  assert (H : (2 <= length (split nl (l1 ++ nl :: l2)))%nat).
  { assert (P : forall l, (1 <= length (split nl l))%nat) by (intros l; destruct l; cbn; repeat case_match; cbn; lia).
    induction l1 as [|c' l1 IH]; cbn [app split]; [rewrite bool_decide_eq_true_2 by done; cbn; specialize (P l2); lia|].
    case_bool_decide; [cbn; lia|]. destruct (split nl (l1 ++ nl :: l2)); cbn in *; lia. }
  by destruct (Nat.ltb_spec (length (split nl (l1 ++ nl :: l2))) 2); [lia|].
Qed.
(** So a replica without any files passes it. *)
Example continuity_without_files :
  (validateLTXContinuity ValidateDemo.exec (ValidateDemo.validation "" "quick") ∅).2 = passed "ltx_continuity".
Proof. by vm_compute. Qed.
(** A type of check that does not exist is success without any check. *)
Example unknown_check_passes : (ValidateDemo.run (ValidateDemo.validation "" "chekcsum") (ValidateDemo.disk [x62])).2 = Ok () /\
  (ValidateDemo.run (ValidateDemo.validation "" "checksum") (ValidateDemo.disk [x62])).2 = Err (EMsg "validation failed").
Proof. by vm_compute. Qed.
(** With the path of the source as that of the restored database, the source is deleted and replaced, and every check passes. *)
Example source_replaced : (ValidateDemo.run (ValidateDemo.validation "/data/db" "full") (ValidateDemo.disk [x62])).2 = Ok () /\
  (ValidateDemo.run (ValidateDemo.validation "/data/db" "full") (ValidateDemo.disk [x62])).1 !! lit "/data/db" = Some [x61].
Proof. by vm_compute. Qed.
