(* ===== verification/Load.v ===== *)
(** * Generating databases and load

    Model of src/cmd/replicate-test/populate.go and load.go: filling tables in transactions, and workers that write and read while their counters are reported.
    SQLite answers as an environment; random choices, rates and times are arguments. *)

From Stdlib Require Import ZArith Lia Ascii String.
From stdpp Require Import base numbers list strings relations.
From S2P Require Import Prelude.
Local Open Scope Z_scope.

(** ** Filling a table *)

(** Failures of [Begin], [Prepare] and [Commit] of the batch that begins at a row, of the insertion of a row, and the context after a batch. *)
Record pop_env := mkPopEnv { pe_begin : Z -> option error; pe_prepare : Z -> option error; pe_insert : Z -> option error; pe_commit : Z -> option error; pe_ctx : Z -> option error }.

(** The rows of a batch, named by the batch and the row, until one fails. *)
Fixpoint insert_rows (e : pop_env) (i : Z) (js : list Z) (rows : list (Z * Z)) : result (list (Z * Z)) :=
  match js with
  | [] => Ok rows
  | j :: js => match pe_insert e j with Some err => Err (EWrap "insert row" err) | None => insert_rows e i js (rows ++ [(i, j)])%list end
  end.
(** One transaction: the rows after it, and its error; a failure rolls it back. *)
Definition populate_batch (e : pop_env) (rowCount BatchSize i : Z) (rows : list (Z * Z)) : list (Z * Z) * option error :=
  match pe_begin e i with
  | Some err => (rows, Some (EWrap "begin transaction" err))
  | None =>
      match pe_prepare e i with
      | Some err => (rows, Some (EWrap "prepare statement" err))
      | None =>
          let batchEnd := if rowCount <? i + BatchSize then rowCount else i + BatchSize in
          match insert_rows e i (seqZ i (batchEnd - i)) rows with
          | Ok rows' => match pe_commit e i with
                        | Some err => (rows, Some (EWrap "commit transaction" err))
                        | None => (rows', pe_ctx e i)
                        end
          | Err err => (rows, Some err)
          | Panic m => (rows, None)
          end
      end
  end.
Fixpoint populate_loop (fuel : nat) (e : pop_env) (rowCount BatchSize i : Z) (rows : list (Z * Z)) : list (Z * Z) * result () :=
  match fuel with
  | O => (rows, Panic "out of fuel")
  | S fuel =>
      if i <? rowCount then
        match populate_batch e rowCount BatchSize i rows with
        | (rows, Some err) => (rows, Err err)
        | (rows, None) => populate_loop fuel e rowCount BatchSize (i + BatchSize) rows
        end
      else (rows, Ok ())
  end.
Definition populateTable (fuel : nat) (e : pop_env) (rowCount BatchSize : Z) : list (Z * Z) * result () := populate_loop fuel e rowCount BatchSize 0 [].

(** The rows of each table; Go panics when it divides by zero. *)
Definition rows_per_table (targetBytes RowSize TableCount : Z) : result Z :=
  if RowSize =? 0 then Panic "integer divide by zero" else
  let totalRows := Z.quot targetBytes RowSize in
  if TableCount =? 0 then Panic "integer divide by zero" else
  let rowsPerTable := Z.quot totalRows TableCount in Ok (if rowsPerTable =? 0 then 1 else rowsPerTable).

Lemma insert_rows_spec e i js rows : match insert_rows e i js rows with Ok rows' => rows' = (rows ++ ((fun j => (i, j)) <$> js))%list | Err _ => True | Panic _ => False end.
Proof.
  revert rows. induction js as [|j js IH]; intros rows; cbn [insert_rows fmap list_fmap]; [by rewrite app_nil_r|].
  destruct (pe_insert e j); [done|]. specialize (IH (rows ++ [(i, j)])%list). destruct (insert_rows _ _ _ _); try done. by rewrite IH, <- app_assoc.
Qed.
Lemma batch_rows e rowCount BatchSize i rows rows' err : 0 <= i < rowCount -> 0 < BatchSize -> populate_batch e rowCount BatchSize i rows = (rows', err) ->
  (rows' = rows /\ is_Some err) \/ rows' = (rows ++ ((fun j => (i, j)) <$> seqZ i (Z.min rowCount (i + BatchSize) - i)))%list.
Proof.
  intros Hi Hb. unfold populate_batch. destruct (pe_begin e i); [intros [= <- <-]; left; eauto|]. destruct (pe_prepare e i); [intros [= <- <-]; left; eauto|].
  replace (if rowCount <? i + BatchSize then rowCount else i + BatchSize) with (Z.min rowCount (i + BatchSize)) by (destruct (Z.ltb_spec rowCount (i + BatchSize)); lia).
  pose proof (insert_rows_spec e i (seqZ i (Z.min rowCount (i + BatchSize) - i)) rows) as H. destruct (insert_rows _ _ _ _) as [rows1|err1|]; [|intros [= <- <-]; left; eauto|done].
  destruct (pe_commit e i); intros [= <- <-]; [left; eauto|by right].
Qed.
Lemma populate_loop_rows fuel e rowCount BatchSize i rows : 0 < BatchSize -> 0 <= i -> (Z.to_nat (rowCount - i) < fuel)%nat -> rows.*2 = seqZ 0 (Z.min i rowCount) ->
  exists n, (populate_loop fuel e rowCount BatchSize i rows).1.*2 = seqZ 0 n /\ 0 <= n <= Z.max 0 rowCount /\
    match (populate_loop fuel e rowCount BatchSize i rows).2 with Ok _ => n = Z.max 0 rowCount | Err _ => True | Panic _ => False end.
Proof.
  intros Hb. revert i rows. induction fuel as [|fuel IH]; intros i rows Hi Hf Hr; [lia|]. cbn [populate_loop].
  destruct (Z.ltb_spec i rowCount) as [Hlt|Hge].
  - destruct (populate_batch e rowCount BatchSize i rows) as [rows' err] eqn:E. rewrite Z.min_l in Hr by lia.
    destruct (batch_rows _ _ _ _ _ _ _ (conj Hi Hlt) Hb E) as [[-> [err' ->]]| ->]; [exists i; split_and!; [done|lia|lia|done]|].
    assert (Hr' : (rows ++ ((fun j => (i, j)) <$> seqZ i (Z.min rowCount (i + BatchSize) - i))).*2 = seqZ 0 (Z.min (i + BatchSize) rowCount)).
    { rewrite fmap_app, Hr, <- list_fmap_compose. cbn. rewrite list_fmap_id. replace (seqZ i) with (seqZ (0 + i)) by done. rewrite <- seqZ_app by lia. f_equal. lia. }
    destruct err as [err|]; [exists (Z.min (i + BatchSize) rowCount); split_and!; [done|lia|lia|done]|].
    apply IH; [lia|lia|done].
  - exists (Z.max 0 rowCount). cbn. split_and!; [|lia|lia|done]. rewrite Hr. destruct (decide (0 <= rowCount)); [f_equal; lia|].
    by rewrite !seqZ_nil by lia.
Qed.

(** Filling a table ends, with as many turns as there are rows; every committed row is one of the first rows, without gaps or repetitions, and without an
    error the table has as many rows as were asked for. *)
Theorem populateTable_exact e rowCount BatchSize fuel : 0 < BatchSize -> (Z.to_nat rowCount < fuel)%nat ->
  exists n, (populateTable fuel e rowCount BatchSize).1.*2 = seqZ 0 n /\ 0 <= n <= Z.max 0 rowCount /\
    match (populateTable fuel e rowCount BatchSize).2 with Ok _ => n = Z.max 0 rowCount | Err _ => True | Panic _ => False end.
Proof.
  intros Hb Hf. apply populate_loop_rows; [done|lia|by rewrite Z.sub_0_r|]. cbn. by rewrite seqZ_nil by lia.
Qed.

(** ** Load *)

(** The time between two operations of a worker. *)
Definition worker_interval (WriteRate Workers : Z) : result Z :=
  if Workers =? 0 then Panic "integer divide by zero" else
  let n := Z.quot WriteRate Workers in
  if n =? 0 then Panic "integer divide by zero" else
  let interval := Z.quot Second n in
  if interval <=? 0 then Panic "non-positive interval for NewTicker" else Ok interval.
(** The pattern burst: three seconds of ten. *)
Definition burst_fires (elapsed_seconds : Z) : bool := Z.rem elapsed_seconds 10 <? 3.

(** What workers have done, and the counters; a report that has read them resets them afterwards. *)
Record LoadStats := mkStats { ls_writes : Z; ls_reads : Z; ls_errors : Z }.
(** A report: it has loaded the writes, and the reads; it has loaded all and logged them; it has stored zero for the writes. *)
Inductive reporter := RIdle | RWrites (writes : Z) | RReads (writes reads : Z) | RLoaded (writes reads : Z) | RStoredWrites (reads : Z).
Record load := mkLoad { ld_stats : LoadStats; ld_reporter : reporter; ld_reports : list (Z * Z * Z); ld_done_writes : Z; ld_done_reads : Z; ld_failed : Z }.
Inductive load_step : load -> load -> Prop :=
  | Ld_write s rp l w r f : load_step (mkLoad s rp l w r f) (mkLoad (mkStats (ls_writes s + 1) (ls_reads s) (ls_errors s)) rp l (w + 1) r f)
  | Ld_read s rp l w r f : load_step (mkLoad s rp l w r f) (mkLoad (mkStats (ls_writes s) (ls_reads s + 1) (ls_errors s)) rp l w (r + 1) f)
  | Ld_fail s rp l w r f : load_step (mkLoad s rp l w r f) (mkLoad (mkStats (ls_writes s) (ls_reads s) (ls_errors s + 1)) rp l w r (f + 1))
  | Ld_load_writes s l w r f : load_step (mkLoad s RIdle l w r f) (mkLoad s (RWrites (ls_writes s)) l w r f)
  | Ld_load_reads s l w r f a : load_step (mkLoad s (RWrites a) l w r f) (mkLoad s (RReads a (ls_reads s)) l w r f)
  | Ld_report s l w r f a b : load_step (mkLoad s (RReads a b) l w r f) (mkLoad s (RLoaded a b) (l ++ [(a, b, ls_errors s)]) w r f)
  | Ld_store_writes s l w r f a b : load_step (mkLoad s (RLoaded a b) l w r f) (mkLoad (mkStats 0 (ls_reads s) (ls_errors s)) (RStoredWrites b) l w r f)
  | Ld_store_reads s l w r f b : load_step (mkLoad s (RStoredWrites b) l w r f) (mkLoad (mkStats (ls_writes s) 0 (ls_errors s)) RIdle l w r f).
Definition load_start : load := mkLoad (mkStats 0 0 0) RIdle [] 0 0 0.
Definition finalReport (s : load) : Z * Z * Z := (ls_writes (ld_stats s), ls_reads (ld_stats s), ls_errors (ld_stats s)).

Definition sum (l : list Z) : Z := foldr Z.add 0 l.
Lemma sum_snoc l x : sum (l ++ [x]) = sum l + x.
Proof. induction l as [|y l IH]; cbn [app sum foldr] in *; [lia|]. unfold sum in IH. lia. Qed.
(** What is counted: reports, and what the counters have that no report has. *)
Record load_inv (s : load) : Prop := {
  li_errors : ls_errors (ld_stats s) = ld_failed s;
  li_writes : sum ((fun x => x.1.1) <$> ld_reports s) + ls_writes (ld_stats s) <= ld_done_writes s + match ld_reporter s with RLoaded w _ => w | _ => 0 end;
  li_reads : sum ((fun x => x.1.2) <$> ld_reports s) + ls_reads (ld_stats s) <= ld_done_reads s + match ld_reporter s with RLoaded _ r | RStoredWrites r => r | _ => 0 end;
  li_loaded : match ld_reporter s with
              | RLoaded w r | RReads w r => w <= ls_writes (ld_stats s) /\ r <= ls_reads (ld_stats s)
              | RWrites w => w <= ls_writes (ld_stats s)
              | RStoredWrites r => r <= ls_reads (ld_stats s)
              | RIdle => True
              end;
  li_nonneg : 0 <= ls_writes (ld_stats s) /\ 0 <= ls_reads (ld_stats s)
}.
Ltac load_simpl := cbn [ld_stats ld_reporter ld_reports ld_done_writes ld_done_reads ld_failed ls_writes ls_reads ls_errors fst snd] in *.
Lemma load_step_inv s s' : load_step s s' -> load_inv s -> load_inv s'.
Proof.
  intros H [H1 H2 H3 H4 H5]. destruct H; destruct s as [sw sr se]; split; load_simpl; rewrite ?fmap_app, ?fmap_cons, ?fmap_nil, ?sum_snoc; load_simpl;
    try destruct rp; lia.
Qed.
(** In every interleaving of workers and reports, errors are counted exactly, and the reports together with what is counted after them never
    exceed the operations that were done. *)
Theorem load_counts s : rtc load_step load_start s -> ld_reporter s = RIdle ->
  (finalReport s).2 = ld_failed s /\
  sum ((fun x => x.1.1) <$> ld_reports s) + (finalReport s).1.1 <= ld_done_writes s /\ sum ((fun x => x.1.2) <$> ld_reports s) + (finalReport s).1.2 <= ld_done_reads s.
Proof.
  intros Hr Hi. assert (I : load_inv s).
  { assert (I0 : load_inv load_start) by (split; cbn; lia). clear Hi. revert I0. induction Hr as [|x y z Hs _ IH]; eauto using load_step_inv. }
  destruct I as [H1 H2 H3 _ _]. rewrite Hi in H2, H3. cbn. split_and!; [done|lia|lia].
Qed.

(** *** Findings *)

(** The final report calls totals what was counted since the last report. *)
Example totals_since_last_report : exists s, rtc load_step load_start s /\ ld_done_writes s = 1 /\ (finalReport s).1.1 = 0.
Proof.
  eexists. split; [|split; [|]].
  { eapply rtc_l; [apply Ld_write|]. eapply rtc_l; [apply Ld_load_writes|]. eapply rtc_l; [apply Ld_load_reads|]. eapply rtc_l; [apply Ld_report|]. eapply rtc_l; [apply Ld_store_writes|]. eapply rtc_l; [apply Ld_store_reads|]. apply rtc_refl. }
  all: done.
Qed.
(** A write between the reading of a counter and its reset is in no report. *)
Example write_never_counted : exists s, rtc load_step load_start s /\ ld_reporter s = RIdle /\ ld_done_writes s = 1 /\ (finalReport s).1.1 + sum ((fun x => x.1.1) <$> ld_reports s) = 0.
Proof.
  eexists. split; [|split; [|split]].
  { eapply rtc_l; [apply Ld_load_writes|]. eapply rtc_l; [apply Ld_load_reads|]. eapply rtc_l; [apply Ld_report|]. eapply rtc_l; [apply Ld_write|]. eapply rtc_l; [apply Ld_store_writes|]. eapply rtc_l; [apply Ld_store_reads|]. apply rtc_refl. }
  all: done.
Qed.
(** Fewer writes per second than workers is a division by zero in each worker. *)
Theorem more_workers_than_writes WriteRate Workers : 0 <= WriteRate < Workers -> worker_interval WriteRate Workers = Panic "integer divide by zero".
Proof. intros H. unfold worker_interval. destruct (Z.eqb_spec Workers 0); [done|]. by rewrite Z.quot_small. Qed.
(** A batch size of zero makes empty transactions for ever. *)
Theorem empty_batches fuel rowCount : 0 < rowCount ->
  populateTable fuel (mkPopEnv (fun _ => None) (fun _ => None) (fun _ => None) (fun _ => None) (fun _ => None)) rowCount 0 = ([], Panic "out of fuel").
Proof.
  intros H. unfold populateTable. induction fuel as [|fuel IH]; [done|]. cbn [populate_loop]. destruct (Z.ltb_spec 0 rowCount); [|lia].
  unfold populate_batch. cbn [pe_begin pe_prepare pe_commit pe_ctx]. change (0 + 0) with 0. destruct (Z.ltb_spec rowCount 0); [lia|]. exact IH.
Qed.
